(* ===== verification/_CoqProject ===== *)
-Q . S2P
Prelude.v
GoStrings.v
GoText.v
GoFloat.v
FloatFacts.v
Net.v
Digests.v
Metadata.v
Session.v
Validation.v
Policy.v
Fill.v
SipMessage.v
Vendor.v
SipSession.v
RtpStats.v
WavFile.v
WavCombine.v
AudioBuffer.v
AudioDecode.v
PiiDetector.v
PiiRedaction.v
BufferedPipe.v
Heap.v
JitterBuffer.v
LruCache.v
PortManager.v
Ports.v
PauseIO.v
Forwarder.v
RtpStream.v
RtpRecording.v
RtpSource.v
Sdp.v
Negotiation.v
Dialog.v
DialogInv.v
DialogSteps.v
DialogSpec.v
SipAuth.v
RateLimit.v
Admission.v
AuditChain.v
HttpAuth.v
SttCollector.v
SttQueue.v
SttProviders.v
Cluster.v
Callbacks.v
Encryption.v
ShardedMap.v
Crlf.v
CircuitBreaker.v
