(* ===== verification/Prelude.v ===== *)
(** * IZI SIPREC: a verification development

    The program under [src/] is a SIPREC recording server (RFC 7866, RFC 7865, RFC 7245)
    written in Go.  A session border controller sends it INVITE requests with a
    session description and rs-metadata; it answers, receives the RTP streams of the
    call, decodes and records them, has them transcribed, silences personal data and
    tells callback URLs what happens.  Around this core there are access control,
    rate limits, encryption of recordings, an audit log and coordination of nodes.

    ** How the code is modelled

    Definitions are translations of the functions under [src/pkg], with their names
    where the language allows it.  A struct is a record, an assignment to a field
    [r <| f := v |>] (this file).  State is passed explicitly; a call under a lock is
    one step, and where the code gives up a lock in between, the parts are separate
    steps of a relation.  Integers are [Z] with the wrap-around of their width
    written out ([u8] to [u64], [i16], [i32], [i64]); doubles are IEEE 754 binary64
    values of [SpecFloat].  A time is a number of nanoseconds.  An error is a value; a
    panic is a result of its own, [None] where a function has no other failure.
    Iteration over a Go map has an order that the class [GoMapRange] leaves open.

    Clocks, random bytes, the answers of the operating system and of other programs
    are inputs.  Libraries outside of [src/] are classes with what their
    documentation promises as laws, each with a concrete instance that the
    witnesses use: [Unicode], [Rfc3339], [SipLibrary], [Calendar], [StreamCodecs],
    [AuthLibraries], [AuditJson], [Redis], [ClusterJson], [HttpClient], [Crypto],
    [EncJson], [Libraries].  Interfaces inside of the program are classes too:
    [PortAllocator] between forwarders and port manager, [KeyStore] between the
    encryption manager and its stores; the implementations are proved to be
    instances.

    ** The files

    - [GoStrings], [GoText], [GoFloat], [FloatFacts], [Net], [Digests]: the parts of Go's
      library the program computes with: strings, numbers as text, floating point
      and its rounding, addresses, MD5 and SHA-256.
    - [Metadata] ([siprec/types.go]), [Session] ([siprec/session.go]), [Validation]
      ([siprec/parser.go]), [Policy] ([siprec/policy.go]), [Fill] ([siprec/fill.go]):
      rs-metadata, recording sessions and recording policies.  Normalization has a
      normal form and is idempotent, validation accepts exactly the well-formed
      documents, a session survives a failover, and the rule of the highest priority
      decides.
    - [SipMessage], [Vendor], [SipSession] (parts of [sip/custom_server.go]): messages,
      vendor data, and sessions made of metadata, which are well formed.
    - [RtpStats], [WavFile], [WavCombine], [AudioBuffer], [AudioDecode], [BufferedPipe],
      [Heap], [JitterBuffer], [LruCache], [PortManager], [Ports], [PauseIO], [Forwarder]
      ([media/] and [util/]): the parts of the media path.  Rings, heaps, caches and
      the allocator refine lists, queues, maps and sets; WAV files and combined files
      are read back as they were written; ports are given out safely and returned
      once.
    - [RtpStream] ([media/rtp.go]) composes these into the loop of a stream; [RtpRecording]
      shows that the file holds what was recorded and the loop never panics,
      [RtpSource] that foreign traffic has no effect.
    - [PiiDetector], [PiiRedaction] ([pii/], [media/pii_audio_*.go], [stt/pii_*.go]):
      finding personal data in transcriptions and silencing it in the recording;
      exactly the marked samples change.
    - [Sdp] ([media/sdp_utils.go], [sip/sdp.go]), [Negotiation]: offers and answers.
    - [Dialog] ([sip/custom_server.go], [sip/handler.go], [sip/timeout_handler.go],
      [sip/pause_resume_service.go]) has every request handler on the state of the
      server; [DialogInv], [DialogSteps] and [DialogSpec] prove the invariant of the
      reachable servers, that no port is lost, and the outcome of INVITE, BYE and
      silence.
    - [SipAuth] ([auth/sip_auth.go]), [RateLimit] ([ratelimit/]), [Admission] (the front of
      [handleInviteMessage]): no nonce is accepted twice in any interleaving, rates
      are kept, and an INVITE reaches the dialogs exactly when all three agree.
    - [AuditChain] ([compliance/audit_chain.go]), [HttpAuth] ([auth/], [http/]): a changed
      log is noticed or SHA-256 collides; the decision on an HTTP request.
    - [SttCollector], [SttQueue], [SttProviders] ([stt/]): transcription jobs as threads in
      any interleaving: every job is accounted for and ends, the ways in which the
      queue can stop for ever, the transcript of a job, and the order in which
      providers are tried.
    - [Cluster] ([cluster/]): at most one open lease of leadership, what a lost connection
      to the store does to it, and when a partition is declared.
    - [Callbacks] ([sip/notifications.go]): the server connects to no internal address,
      and which endpoints get an event.
    - [Encryption] ([encryption/]): what was encrypted can be decrypted later, through
      rotations, backups, failed writes, and after a restart on the same files.
    - [ShardedMap], [Crlf] ([sip/]), [CircuitBreaker] ([circuitbreaker/]): a map, the line
      endings of messages, and the states of a breaker.

    Theorems that start with C and a number are the properties of the development;
    a witness beside a theorem with assumptions applies it to a concrete input.

    ** Fuel

    Loops that are not structural take fuel.  [BufferedPipe.Write] and [Read] need at
    most one turn per byte, [WavFile.parse_chunks] and [PiiDetector.find_all] one per
    byte of the file or text, [WavCombine.combine_loop] one per sample, and [Heap.up]
    and [Heap.down] one per element; the theorems show that this much is enough.  The write to a full pipe of size one, which
    never returns, is shown to have no result for any fuel.

    ** Not modelled

    - Transports and the transaction layer of sipgo, parsers and printers of
      [encoding/xml], [mime/multipart] and [pion/sdp], SRTP and the Opus and G.729
      decoders: libraries.
    - NAT rewriting, STUN, RTCP sending, media address detection.
    - Clients of cloud services, AMQP, databases, Elasticsearch, storage uploads, e-mail,
      DNS and load balancers: input and output without decisions of their own.
    - Signal processing and real-time analytics other than the audio buffer: numerical
      heuristics without a functional specification.
    - Reading the configuration, the command line, metrics, tracing, logging, call
      detail records, the session store in Redis, and the handlers of the HTTP
      interface behind the decision on a request.
    - In [Encryption] the operations of the manager run one at a time, and the timer that
      starts rotations is not modelled; in [SttQueue] the idle timer of workers is
      not. *)

From stdpp Require Export base gmap strings list list_numbers sorting.
From Stdlib Require Export ZArith Lia.
#[global] Open Scope Z_scope.
#[global] Set Default Goal Selector "!".

(** ** Functional record update

    Go code assigns single fields of large structs.  [r <| f := v |>] is the
    record [r] with the field [f] replaced; the setter of a field is built on
    demand from its projection. *)

Class FieldSet {R T : Type} (proj : R -> T) := field_set : T -> R -> R.

Definition rebuilt {R : Type} (r : R) : Type := R.

Ltac build_field_set :=
  lazymatch goal with
  | |- @FieldSet ?R ?T ?proj =>
    let v := fresh "v" in let r := fresh "r" in
    change (T -> R -> R); intros v r; change (rebuilt r); case r; clear r; intros;
    lazymatch goal with
    | |- rebuilt ?c =>
      let x := eval cbn in (proj c) in
      let f := eval pattern x in c in
      lazymatch f with ?g _ => let t := eval cbv beta in (g v) in exact t end
    end
  end.

#[export] Hint Extern 0 (FieldSet _) => build_field_set : typeclass_instances.

Declare Scope go_scope.
#[global] Open Scope go_scope.

Notation "r <| p := v |>" := (@field_set _ _ p _ v r)
  (at level 1, left associativity, p at level 9, v at level 99,
   format "r  <| p  :=  v |>") : go_scope.

(** ** Machine-width integers

    Go integers are two's complement and wrap.  A value of width [w] is an
    integer of [Z] in its range; the wrap is written out where code can
    overflow. *)

Definition wrap_u (w x : Z) : Z := x mod 2 ^ w.
Definition wrap_s (w x : Z) : Z := (x + 2 ^ (w - 1)) mod 2 ^ w - 2 ^ (w - 1).

Definition u8 := wrap_u 8.
Definition u16 := wrap_u 16.
Definition u32 := wrap_u 32.
Definition u64 := wrap_u 64.
Definition i16 := wrap_s 16.
Definition i32 := wrap_s 32.
Definition i64 := wrap_s 64.

Definition in_u (w x : Z) : Prop := 0 <= x < 2 ^ w.
Definition in_s (w x : Z) : Prop := - 2 ^ (w - 1) <= x < 2 ^ (w - 1).

Lemma wrap_u_range w x : 0 <= w -> in_u w (wrap_u w x).
Proof. intros Hw. unfold in_u, wrap_u. apply Z.mod_pos_bound, Z.pow_pos_nonneg; lia. Qed.

Lemma wrap_u_id w x : in_u w x -> wrap_u w x = x.
Proof. unfold in_u, wrap_u. intros H. by apply Z.mod_small. Qed.

Lemma pow_split w : 0 < w -> 2 ^ w = 2 * 2 ^ (w - 1).
Proof. intros Hw. rewrite <- Z.pow_succ_r by lia. f_equal. lia. Qed.

Lemma wrap_s_range w x : 0 < w -> in_s w (wrap_s w x).
Proof.
  intros Hw. unfold in_s, wrap_s. rewrite (pow_split w Hw).
  pose proof (Z.pow_pos_nonneg 2 (w - 1)).
  pose proof (Z.mod_pos_bound (x + 2 ^ (w - 1)) (2 * 2 ^ (w - 1))). lia.
Qed.

Lemma wrap_s_id w x : 0 < w -> in_s w x -> wrap_s w x = x.
Proof.
  unfold in_s, wrap_s. intros Hw H. rewrite (pow_split w Hw).
  rewrite Z.mod_small; lia.
Qed.

(** Masking with a mask that is not negative. *)
Lemma land_mask a m : 0 <= m -> 0 <= Z.land a m <= m.
Proof.
  intros Hm. split; [apply Z.land_nonneg; by right|].
  assert (Hd : Z.ldiff (Z.land a m) m = 0).
  { apply Z.bits_inj'. intros n Hn. rewrite Z.ldiff_spec, Z.land_spec, Z.bits_0 by done.
    by destruct (Z.testbit a n), (Z.testbit m n). }
  pose proof (Z.sub_nocarry_ldiff m (Z.land a m) Hd) as E.
  pose proof (proj2 (Z.ldiff_nonneg m (Z.land a m)) (or_introl Hm)). lia.
Qed.

Create HintDb go.
#[export] Hint Resolve wrap_u_range wrap_s_range : go.

(** ** Go maps

    A Go map with string or integer keys is a [gmap]; a possibly nil map is
    an [option] of one.  The order in which [range] visits a map is not
    specified and may differ between two statements, so it is an oracle: [k]
    numbers the range statement, and every theorem holds for every oracle that
    visits each entry exactly once. *)

Class GoMapRange (K : Type) `{Countable K} := {
  map_range : forall {A : Type}, nat -> gmap K A -> list (K * A);
  map_range_perm : forall (A : Type) (k : nat) (m : gmap K A),
    map_range k m ≡ₚ map_to_list m
}.

(** The oracle used to evaluate examples. *)
Definition list_range (K : Type) `{Countable K} : GoMapRange K := {|
  map_range := fun A (_ : nat) (m : gmap K A) => map_to_list m;
  map_range_perm := fun A _ m => reflexivity (map_to_list m)
|}.

Section map_range_facts.
Context `{GoMapRange K} {A : Type}.
Implicit Types (m : gmap K A).

Lemma elem_of_map_range k m i x : (i, x) ∈ map_range k m <-> m !! i = Some x.
Proof. by rewrite map_range_perm, elem_of_map_to_list. Qed.

Lemma map_range_NoDup_fst k m : NoDup (map_range k m).*1.
Proof. rewrite map_range_perm. apply NoDup_fst_map_to_list. Qed.

Lemma map_range_length k m : length (map_range k m) = size m.
Proof. by rewrite map_range_perm, length_map_to_list. Qed.

Lemma elem_of_map_range_fst k m i : i ∈ (map_range k m).*1 <-> is_Some (m !! i).
Proof.
  rewrite list_elem_of_fmap. split.
  - intros [[j x] [-> Hin]]. apply elem_of_map_range in Hin. eauto.
  - intros [x Hx]. exists (i, x). split; [done|]. by apply elem_of_map_range.
Qed.
End map_range_facts.

(** The entry of a nil-able map. *)
Definition omap_get {K} `{Countable K} {A} (m : option (gmap K A)) (k : K) : option A :=
  m ≫= fun m => m !! k.

(** ** Tactics *)

(** Case analysis on every test of the goal or of a hypothesis. *)
Ltac case_tests :=
  repeat match goal with
  | |- context [if ?b then _ else _] => destruct b eqn:?
  | |- context [match ?x with _ => _ end] => destruct x eqn:?
  end.

Ltac case_tests_in H :=
  repeat match type of H with
  | context [if ?b then _ else _] => destruct b eqn:?
  | context [match ?x with _ => _ end] => destruct x eqn:?
  end.

(** Boolean tests as propositions. *)
Ltac bool_to_prop :=
  repeat match goal with
  | H : _ && _ = true |- _ => apply andb_true_iff in H; destruct H
  | H : _ || _ = false |- _ => apply orb_false_iff in H; destruct H
  | H : negb _ = true |- _ => apply negb_true_iff in H
  | H : negb _ = false |- _ => apply negb_false_iff in H
  | H : (_ =? _) = true |- _ => apply Z.eqb_eq in H
  | H : (_ =? _) = false |- _ => apply Z.eqb_neq in H
  | H : (_ <? _) = true |- _ => apply Z.ltb_lt in H
  | H : (_ <? _) = false |- _ => apply Z.ltb_ge in H
  | H : (_ <=? _) = true |- _ => apply Z.leb_le in H
  | H : (_ <=? _) = false |- _ => apply Z.leb_gt in H
  | H : (_ >? _) = _ |- _ => rewrite Z.gtb_ltb in H
  | H : (_ >=? _) = _ |- _ => rewrite Z.geb_leb in H
  | H : String.eqb _ _ = true |- _ => apply String.eqb_eq in H
  | H : String.eqb _ _ = false |- _ => apply String.eqb_neq in H
  | H : bool_decide _ = true |- _ => apply bool_decide_eq_true in H
  | H : bool_decide _ = false |- _ => apply bool_decide_eq_false in H
  end.

(** ** Lists *)

Lemma NoDup_fmap_filter {A B} (f : A -> B) (P : A -> Prop) `{forall x, Decision (P x)} (l : list A) :
  NoDup (f <$> l) -> NoDup (f <$> filter P l).
Proof.
  induction l as [|x l IH]; [done|]. rewrite fmap_cons, NoDup_cons. intros [Hx Hl].
  rewrite filter_cons. case_decide; [|auto]. rewrite fmap_cons, NoDup_cons. split; [|auto].
  intros Hin. apply Hx. apply list_elem_of_fmap in Hin as [y [-> Hy]].
  apply list_elem_of_filter in Hy as [_ Hy]. apply list_elem_of_fmap. eauto.
Qed.

Lemma filter_iff_in {A} (P Q : A -> Prop) `{forall x, Decision (P x)} `{forall x, Decision (Q x)}
    (l : list A) : (forall x, x ∈ l -> P x <-> Q x) -> filter P l = filter Q l.
Proof.
  induction l as [|x l IH]; [done|]. intros Hx. rewrite !filter_cons, IH by (intros; apply Hx; by right).
  pose proof (Hx x ltac:(left)). repeat case_decide; naive_solver.
Qed.

(** The map a loop [for _, x := range l { m[key(x)] = x }] builds. *)
Section index_by.
Context {K A : Type} `{Countable K} (key : A -> K).

Definition index_by (l : list A) : gmap K A := foldl (fun m x => <[key x := x]> m) ∅ l.

Lemma index_by_snoc l x : index_by (l ++ [x]) = <[key x := x]> (index_by l).
Proof. unfold index_by. by rewrite foldl_app. Qed.

Lemma index_by_Some l k x : index_by l !! k = Some x -> x ∈ l /\ key x = k.
Proof.
  induction l as [|y l IH] using rev_ind; [done|].
  rewrite index_by_snoc, lookup_insert. case_decide; subst.
  - intros [= ->]. split; [apply elem_of_app; right; left|done].
  - intros Hx. destruct (IH Hx). split; [apply elem_of_app; by left|done].
Qed.

Lemma index_by_is_Some l k : is_Some (index_by l !! k) <-> k ∈ map key l.
Proof.
  induction l as [|y l IH] using rev_ind.
  { split; [by intros [? ?]|by intros ?%elem_of_nil]. }
  rewrite index_by_snoc, lookup_insert, map_app, elem_of_app. cbn.
  rewrite list_elem_of_singleton. case_decide; subst; naive_solver.
Qed.

Lemma index_by_None l k : index_by l !! k = None <-> k ∉ map key l.
Proof. rewrite <- index_by_is_Some, eq_None_not_Some. done. Qed.

Lemma index_by_NoDup l x : NoDup (map key l) -> x ∈ l -> index_by l !! key x = Some x.
Proof.
  induction l as [|y l IH] using rev_ind; [by intros _ ?%elem_of_nil|].
  rewrite map_app, index_by_snoc, NoDup_app. intros (Hnd & Hdis & _) Hx.
  rewrite lookup_insert. apply elem_of_app in Hx as [Hx|Hx].
  - case_decide as Hk; [|auto]. exfalso. apply (Hdis (key x)).
    + apply list_elem_of_fmap. eauto.
    + rewrite <- Hk. cbn. left.
  - apply list_elem_of_singleton in Hx. subst. by rewrite decide_True.
Qed.
End index_by.

Lemma Forall2_map_self {A B} (P : A -> B -> Prop) (f : A -> B) (l : list A) :
  (forall x, P x (f x)) -> Forall2 P l (map f l).
Proof. intros HP. induction l; cbn; constructor; auto. Qed.

(** Selecting entries of a map by key keeps the keys distinct. *)
Lemma NoDup_omap_key {K A B} (f : K * A -> option B) (key : B -> K) (l : list (K * A)) :
  NoDup l.*1 -> (forall i x b, (i, x) ∈ l -> f (i, x) = Some b -> key b = i) ->
  NoDup (map key (omap f l)).
Proof.
  induction l as [|[i x] l IH]; cbn; [constructor|]. rewrite NoDup_cons. intros [Hi Hl] Hf.
  assert (IH' : NoDup (map key (omap f l))).
  { apply IH; [done|]. intros j y b Hj. apply Hf. by right. }
  destruct (f (i, x)) as [b|] eqn:E; [|done]. cbn. rewrite NoDup_cons. split; [|done].
  rewrite (Hf i x b) by (done || left). intros Hin. apply Hi.
  apply list_elem_of_fmap in Hin as [c [Hc Hin]]. apply list_elem_of_omap in Hin as [[j y] [Hj Hfc]].
  apply list_elem_of_fmap. exists (j, y). split; [|done]. cbn.
  rewrite Hc. apply (Hf j y c); [by right|done].
Qed.
