(* ===== verification/GoStrings.v ===== *)
(** * Go strings

    A Go string is a sequence of bytes, [String.string] here.  This file
    models the functions of package [strings] the program calls.  The
    functions that depend on the Unicode tables agree with their ASCII versions
    on ASCII input; what they do with other bytes is the class [Unicode], so
    the theorems hold whatever the tables are. *)

From S2P Require Import Prelude.
From Stdlib Require Import Ascii String.
#[local] Open Scope string_scope.
#[local] Open Scope list_scope.
#[local] Open Scope Z_scope.

(** ** Bytes *)

Definition byte_of (c : ascii) : Z := Z.of_N (N_of_ascii c).

Definition is_ascii (c : ascii) : bool := byte_of c <? 128.

Definition lower_char (c : ascii) : ascii :=
  let n := byte_of c in
  if (65 <=? n) && (n <=? 90) then ascii_of_N (Z.to_N (n + 32)) else c.

Definition upper_char (c : ascii) : ascii :=
  let n := byte_of c in
  if (97 <=? n) && (n <=? 122) then ascii_of_N (Z.to_N (n - 32)) else c.

Fixpoint map_string (f : ascii -> ascii) (s : string) : string :=
  match s with
  | EmptyString => EmptyString
  | String c s => String (f c) (map_string f s)
  end.

(** What the Unicode tables do to the rest of a string from its first
    non-ASCII byte on. *)
Class Unicode := {
  unicode_lower : string -> string;
  unicode_upper : string -> string;
  unicode_fold : string -> string -> bool
}.

(** Tables without any non-ASCII letter, to evaluate examples. *)
Definition ascii_only : Unicode := {|
  unicode_lower := map_string lower_char;
  unicode_upper := map_string upper_char;
  unicode_fold := fun s t => String.eqb (map_string lower_char s) (map_string lower_char t)
|}.

(** [strings.ToLower], [strings.ToUpper] and [strings.EqualFold]: letter by
    letter while the bytes are ASCII, by the tables from there on. *)
Fixpoint to_lower `{Unicode} (s : string) : string :=
  match s with
  | EmptyString => EmptyString
  | String c s' => if is_ascii c then String (lower_char c) (to_lower s') else unicode_lower s
  end.

Fixpoint to_upper `{Unicode} (s : string) : string :=
  match s with
  | EmptyString => EmptyString
  | String c s' => if is_ascii c then String (upper_char c) (to_upper s') else unicode_upper s
  end.

Fixpoint equal_fold `{Unicode} (s t : string) : bool :=
  match s, t with
  | String c s', String d t' =>
    if is_ascii c && is_ascii d
    then Ascii.eqb (lower_char c) (lower_char d) && equal_fold s' t'
    else unicode_fold s t
  | EmptyString, EmptyString => true
  | _, _ => false
  end.

(** ** [strings.TrimSpace]

    The white space runes of Unicode have UTF-8 encodings of one, two or
    three bytes.  Trimming removes complete encodings from both ends. *)

Definition space1 (c : ascii) : bool :=
  let n := byte_of c in ((9 <=? n) && (n <=? 13)) || (n =? 32).

(** U+0085 and U+00A0. *)
Definition space2 (c d : ascii) : bool :=
  (byte_of c =? 194) && ((byte_of d =? 133) || (byte_of d =? 160)).

(** U+1680, U+2000 to U+200A, U+2028, U+2029, U+202F, U+205F and U+3000. *)
Definition space3 (c d e : ascii) : bool :=
  let x := byte_of c in let y := byte_of d in let z := byte_of e in
  ((x =? 225) && (y =? 154) && (z =? 128)) ||
  ((x =? 226) && (y =? 128) &&
    (((128 <=? z) && (z <=? 138)) || (z =? 168) || (z =? 169) || (z =? 175))) ||
  ((x =? 226) && (y =? 129) && (z =? 159)) ||
  ((x =? 227) && (y =? 128) && (z =? 128)).

Fixpoint trim_with (s1 : ascii -> bool) (s2 : ascii -> ascii -> bool)
    (s3 : ascii -> ascii -> ascii -> bool) (l : list ascii) {struct l} : list ascii :=
  match l with
  | [] => []
  | c :: l1 =>
    if s1 c then trim_with s1 s2 s3 l1 else
    match l1 with
    | [] => l
    | d :: l2 =>
      if s2 c d then trim_with s1 s2 s3 l2 else
      match l2 with
      | [] => l
      | e :: l3 => if s3 c d e then trim_with s1 s2 s3 l3 else l
      end
    end
  end.

Definition trim_front : list ascii -> list ascii := trim_with space1 space2 space3.

Definition trim_back (l : list ascii) : list ascii :=
  reverse (trim_with space1 (fun c d => space2 d c) (fun c d e => space3 e d c) (reverse l)).

Definition trim_space (s : string) : string :=
  string_of_list_ascii (trim_back (trim_front (list_ascii_of_string s))).

#[global] Arguments trim_space : simpl never.

(** The test [strings.TrimSpace(s) == ""]. *)
Definition blank (s : string) : bool := String.eqb (trim_space s) "".

(** ** Prefixes, suffixes and search *)

Definition has_prefix (s p : string) : bool := String.prefix p s.

Fixpoint drop_string (n : nat) (s : string) : string :=
  match n, s with
  | O, _ => s
  | S n, String _ s => drop_string n s
  | S _, EmptyString => EmptyString
  end.

Fixpoint take_string (n : nat) (s : string) : string :=
  match n, s with
  | S n, String c s => String c (take_string n s)
  | _, _ => EmptyString
  end.

Definition trim_prefix (s p : string) : string :=
  if has_prefix s p then drop_string (String.length p) s else s.

Definition has_suffix (s p : string) : bool :=
  (String.length p <=? String.length s)%nat &&
  String.eqb (drop_string (String.length s - String.length p) s) p.

Definition trim_suffix (s p : string) : string :=
  if has_suffix s p then String.substring 0 (String.length s - String.length p) s else s.

(** [strings.Index]: the first position of [sub] in [s]. *)
Fixpoint index (s sub : string) : option nat :=
  if String.prefix sub s then Some O else
  match s with
  | EmptyString => None
  | String _ s => S <$> index s sub
  end.

Definition contains (s sub : string) : bool :=
  match index s sub with Some _ => true | None => false end.

Definition semicolon : ascii := ";"%char.
Definition dquote : string := String (ascii_of_N 34) "".
Definition newline : string := String (ascii_of_N 10) "".
Definition crlf : string := String (ascii_of_N 13) newline.

(** [strings.Split] with a one-byte separator. *)
Fixpoint split_on (c : ascii) (s : string) : list string :=
  match s with
  | EmptyString => [""]
  | String d s =>
    if Ascii.eqb d c then "" :: split_on c s
    else match split_on c s with
         | w :: ws => String d w :: ws
         | [] => [String d ""]
         end
  end.

Fixpoint join (sep : string) (l : list string) : string :=
  match l with
  | [] => ""
  | [w] => w
  | w :: ws => w +:+ sep +:+ join sep ws
  end.

(** The first of a list of candidates that is not blank, trimmed. *)
Fixpoint first_trimmed (l : list string) : string :=
  match l with
  | [] => ""
  | c :: l => let id := trim_space c in if String.eqb id "" then first_trimmed l else id
  end.

(** [strconv.FormatBool]. *)
Definition format_bool (b : bool) : string := if b then "true" else "false".

(** ** Trimming is idempotent *)

Section trim_facts.
Context (s1 : ascii -> bool) (s2 : ascii -> ascii -> bool)
        (s3 : ascii -> ascii -> ascii -> bool).

(** The list starts with a white space encoding. *)
Definition leads (l : list ascii) : bool :=
  match l with
  | [] => false
  | [c] => s1 c
  | [c; d] => s1 c || s2 c d
  | c :: d :: e :: _ => s1 c || s2 c d || s3 c d e
  end.

Lemma leads_app l k : leads l = true -> leads (l ++ k) = true.
Proof.
  destruct l as [|c [|d [|e l]]]; simpl; [done|..].
  - destruct k as [|? [|? k]]; simpl; intros ->; done.
  - destruct k as [|? k]; simpl; [done|]. intros ->; done.
  - done.
Qed.

Lemma trim_with_stuck l : leads l = false -> trim_with s1 s2 s3 l = l.
Proof.
  destruct l as [|c [|d [|e l]]]; simpl; [done|..]; intros H;
    repeat (apply orb_false_iff in H as [H ?]);
    repeat match goal with E : _ = false |- _ => rewrite E; clear E end; done.
Qed.

Lemma leads_trim_with l : leads (trim_with s1 s2 s3 l) = false.
Proof.
  induction l as [l IH] using (induction_ltof1 _ (@Datatypes.length ascii)). unfold ltof in IH.
  destruct l as [|c [|d [|e l]]].
  - done.
  - simpl. destruct (s1 c) eqn:E1; simpl; [done|]. by rewrite E1.
  - simpl trim_with. destruct (s1 c) eqn:E1; [apply (IH [d]); simpl; lia|].
    destruct (s2 c d) eqn:E2; [done|]. simpl. by rewrite E1, E2.
  - change (leads (if s1 c then trim_with s1 s2 s3 (d :: e :: l) else
      if s2 c d then trim_with s1 s2 s3 (e :: l) else
      if s3 c d e then trim_with s1 s2 s3 l else c :: d :: e :: l) = false).
    destruct (s1 c) eqn:E1; [apply IH; simpl; lia|].
    destruct (s2 c d) eqn:E2; [apply IH; simpl; lia|].
    destruct (s3 c d e) eqn:E3; [apply IH; simpl; lia|].
    simpl. by rewrite E1, E2, E3.
Qed.

Lemma trim_with_idemp l : trim_with s1 s2 s3 (trim_with s1 s2 s3 l) = trim_with s1 s2 s3 l.
Proof. apply trim_with_stuck, leads_trim_with. Qed.

Lemma trim_with_suffix l : exists k, l = k ++ trim_with s1 s2 s3 l.
Proof.
  induction l as [l IH] using (induction_ltof1 _ (@Datatypes.length ascii)). unfold ltof in IH.
  destruct l as [|c l1]; [by exists []|]. cbn [trim_with].
  destruct (s1 c).
  { destruct (IH l1) as [k Hk]; [simpl; lia|]. exists (c :: k). simpl. congruence. }
  destruct l1 as [|d l2]; [by exists []|]. destruct (s2 c d).
  { destruct (IH l2) as [k Hk]; [simpl; lia|]. exists (c :: d :: k). simpl. congruence. }
  destruct l2 as [|e l3]; [by exists []|]. destruct (s3 c d e).
  { destruct (IH l3) as [k Hk]; [simpl; lia|]. exists (c :: d :: e :: k). simpl. congruence. }
  by exists [].
Qed.
End trim_facts.

Lemma trim_back_prefix l : exists k, l = trim_back l ++ k.
Proof.
  unfold trim_back. destruct (trim_with_suffix space1 (fun c d => space2 d c)
    (fun c d e => space3 e d c) (reverse l)) as [k Hk].
  exists (reverse k). rewrite <- reverse_app, <- Hk. by rewrite reverse_involutive.
Qed.

Lemma trim_back_idemp l : trim_back (trim_back l) = trim_back l.
Proof. unfold trim_back. by rewrite reverse_involutive, trim_with_idemp. Qed.

Lemma trim_front_back l : trim_front (trim_back (trim_front l)) = trim_back (trim_front l).
Proof.
  apply trim_with_stuck. destruct (leads _ _ _ _) eqn:E; [|done].
  destruct (trim_back_prefix (trim_front l)) as [k Hk].
  apply (leads_app _ _ _ _ k) in E. rewrite <- Hk in E.
  unfold trim_front in E. by rewrite leads_trim_with in E.
Qed.

Lemma trim_space_idemp s : trim_space (trim_space s) = trim_space s.
Proof.
  unfold trim_space. rewrite list_ascii_of_string_of_list_ascii.
  by rewrite trim_front_back, trim_back_idemp.
Qed.

(** A trimmed string keeps its value when bytes other than white space are put
    in front of it. *)
Lemma trim_space_app_l c s :
  is_ascii c = true -> space1 c = false -> trim_space s = s -> s <> "" ->
  trim_space (String c s) = String c s.
Proof.
  intros Ha Hc Hs Hne. unfold trim_space in *. simpl.
  set (l := list_ascii_of_string s) in *.
  assert (Hl : trim_back (trim_front l) = l).
  { apply (f_equal list_ascii_of_string) in Hs.
    by rewrite list_ascii_of_string_of_list_ascii in Hs. }
  assert (Hf : trim_front (c :: l) = c :: l).
  { apply trim_with_stuck. unfold is_ascii in Ha. apply Z.ltb_lt in Ha.
    destruct l as [|d [|e l']]; simpl; rewrite Hc; simpl; [done|..];
      unfold space2, space3;
      replace (byte_of c =? 194) with false by (symmetry; apply Z.eqb_neq; lia);
      replace (byte_of c =? 225) with false by (symmetry; apply Z.eqb_neq; lia);
      replace (byte_of c =? 226) with false by (symmetry; apply Z.eqb_neq; lia);
      replace (byte_of c =? 227) with false by (symmetry; apply Z.eqb_neq; lia); done. }
  assert (Hb : trim_back (c :: l) = c :: l).
  { unfold trim_back. assert (Hl' : trim_back l = l).
    { rewrite <- Hl at 1. rewrite trim_back_idemp. done. }
    assert (Hlead : leads space1 (fun c d => space2 d c) (fun c d e => space3 e d c) (reverse l) = false).
    { unfold trim_back in Hl'. apply (f_equal reverse) in Hl'. rewrite reverse_involutive in Hl'.
      rewrite <- Hl'. apply leads_trim_with. }
    rewrite trim_with_stuck; [by rewrite reverse_involutive|].
    rewrite reverse_cons. unfold is_ascii in Ha. apply Z.ltb_lt in Ha.
    destruct (reverse l) as [|d [|e l']] eqn:El.
    - apply (f_equal reverse) in El. rewrite reverse_involutive in El. subst l.
      destruct s; simpl in *; [done|discriminate].
    - simpl in *. rewrite Hlead. simpl. unfold space2.
      replace (byte_of c =? 194) with false by (symmetry; apply Z.eqb_neq; lia). done.
    - simpl in *. destruct l' as [|x l']; simpl; [|done].
      apply orb_false_iff in Hlead as [-> ->]. simpl. unfold space3.
      replace (byte_of c =? 225) with false by (symmetry; apply Z.eqb_neq; lia).
      replace (byte_of c =? 226) with false by (symmetry; apply Z.eqb_neq; lia).
      replace (byte_of c =? 227) with false by (symmetry; apply Z.eqb_neq; lia). done. }
  rewrite Hf, Hb. simpl. unfold l. by rewrite string_of_list_ascii_of_string.
Qed.

Lemma trim_space_empty : trim_space "" = "".
Proof. reflexivity. Qed.

Lemma blank_trim s : blank (trim_space s) = blank s.
Proof. unfold blank. by rewrite trim_space_idemp. Qed.

(** [first_trimmed] returns the empty string exactly when every candidate is
    blank, and otherwise a trimmed candidate. *)
Lemma first_trimmed_empty l : first_trimmed l = "" <-> Forall (fun c => blank c = true) l.
Proof.
  induction l as [|c l IH]; simpl; [done|]. unfold blank.
  destruct (String.eqb (trim_space c) "") eqn:E.
  - rewrite IH. split; [by constructor|by inversion 1].
  - split; [intros H; rewrite H in E; done|inversion 1; subst; congruence].
Qed.

Lemma first_trimmed_trimmed l : trim_space (first_trimmed l) = first_trimmed l.
Proof.
  induction l as [|c l IH]; simpl; [done|].
  destruct (String.eqb (trim_space c) ""); [done|]. apply trim_space_idemp.
Qed.

(** ** Splitting *)

Fixpoint lacks (c : ascii) (s : string) : bool :=
  match s with
  | EmptyString => true
  | String d s => negb (Ascii.eqb d c) && lacks c s
  end.

Lemma split_on_nonempty c s : split_on c s <> [].
Proof. destruct s as [|d s]; simpl; [done|]. destruct (Ascii.eqb d c); [done|]. by destruct (split_on c s). Qed.

Lemma split_on_lacks c w : lacks c w = true -> split_on c w = [w].
Proof.
  induction w as [|d w IH]; simpl; [done|]. intros [Hd Hw]%andb_true_iff.
  apply negb_true_iff in Hd. by rewrite Hd, IH.
Qed.

Lemma split_on_app c w rest :
  lacks c w = true -> split_on c (w +:+ String c rest) = w :: split_on c rest.
Proof.
  induction w as [|d w IH]; simpl.
  - intros _. by rewrite Ascii.eqb_refl.
  - intros [Hd Hw]%andb_true_iff. apply negb_true_iff in Hd. by rewrite Hd, IH.
Qed.

Lemma prefix_app p s : String.prefix p (p +:+ s) = true.
Proof. induction p as [|c p IH]; simpl; [by destruct s|]. by destruct (ascii_dec c c). Qed.

Lemma drop_string_app p s : drop_string (String.length p) (p +:+ s) = s.
Proof. induction p as [|c p IH]; simpl; done. Qed.

Lemma trim_prefix_app p s : trim_prefix (p +:+ s) p = s.
Proof. unfold trim_prefix, has_prefix. by rewrite prefix_app, drop_string_app. Qed.

Lemma lacks_app c s t : lacks c (s +:+ t) = lacks c s && lacks c t.
Proof. induction s as [|d s IH]; simpl; [done|]. by rewrite IH, andb_assoc. Qed.

Lemma string_app_assoc (a b c : string) : (a +:+ b) +:+ c = a +:+ b +:+ c.
Proof.
  induction a as [|x a IH]; [done|].
  change (String x ((a +:+ b) +:+ c) = String x (a +:+ b +:+ c)). by f_equal.
Qed.

Lemma string_app_nil_r (s : string) : s +:+ "" = s.
Proof. induction s as [|x s IH]; [done|]. change (String x (s +:+ "") = String x s). by f_equal. Qed.

(** *** Prefixes, suffixes and occurrences as concatenations *)

Lemma string_app_cons c s t : String c s +:+ t = String c (s +:+ t).
Proof. done. Qed.

Lemma has_prefix_spec s p : has_prefix s p = true <-> exists t, s = p +:+ t.
Proof.
  unfold has_prefix. split; [|intros [t ->]; apply prefix_app].
  revert s. induction p as [|c p IH]; intros s; [by exists s|].
  destruct s as [|d s]; [done|]. cbn. destruct (Ascii.ascii_dec c d) as [->|]; [|done].
  intros [t ->]%IH. by exists t.
Qed.

Lemma string_length_app (s t : string) : String.length (s +:+ t) = (String.length s + String.length t)%nat.
Proof. induction s as [|c s IH]; [done|]. rewrite string_app_cons. cbn. by f_equal. Qed.

Lemma take_drop_string n s : take_string n s +:+ drop_string n s = s.
Proof.
  revert s. induction n as [|n IH]; intros [|c s]; try done. cbn.
  rewrite string_app_cons. by f_equal.
Qed.

Lemma has_suffix_spec s p : has_suffix s p = true <-> exists t, s = t +:+ p.
Proof.
  unfold has_suffix. rewrite andb_true_iff, Nat.leb_le, String.eqb_eq. split.
  - intros [Hl Hd]. exists (take_string (String.length s - String.length p) s).
    by rewrite <- Hd at 2; rewrite take_drop_string.
  - intros [t ->]. rewrite string_length_app. split; [lia|].
    replace (_ + _ - _)%nat with (String.length t) by lia. apply drop_string_app.
Qed.

Lemma take_string_app p s : take_string (String.length p) (p +:+ s) = p.
Proof. induction p as [|c p IH]; [by destruct s|]. rewrite string_app_cons. cbn. by f_equal. Qed.

Lemma has_suffix_cons c s t : s <> "" -> has_suffix (String c "" +:+ s) (String t "") = has_suffix s (String t "").
Proof.
  intros Hs. change (String c "" +:+ s) with (String c s). apply eq_iff_eq_true. rewrite !has_suffix_spec. split.
  - intros [[|d u] E]; [by injection E as ? ->|]. rewrite string_app_cons in E. injection E as _ ->. by exists u.
  - intros [u ->]. by exists (String c u).
Qed.

Lemma index_unfold s sub :
  index s sub = if String.prefix sub s then Some O else
                match s with EmptyString => None | String _ s => S <$> index s sub end.
Proof. by destruct s. Qed.

Lemma contains_spec s sub : contains s sub = true <-> exists a b, s = a +:+ sub +:+ b.
Proof.
  unfold contains. split.
  - induction s as [|c s IH]; rewrite index_unfold.
    + destruct (String.prefix sub "") eqn:E; [|done]. intros _.
      apply has_prefix_spec in E as [t ->]. by exists "", t.
    + destruct (String.prefix sub (String c s)) eqn:E.
      * intros _. apply has_prefix_spec in E as [t ->]. by exists "", t.
      * destruct (index s sub); [|done]. intros _. destruct IH as (a & b & ->); [done|].
        by exists (String c a), b.
  - intros (a & b & ->). induction a as [|c a IH]; rewrite index_unfold.
    + change ("" +:+ sub +:+ b) with (sub +:+ b). by rewrite prefix_app.
    + rewrite string_app_cons. destruct (String.prefix _ _); [done|]. by destruct (index _ sub).
Qed.
