(* ===== verification/GoText.v ===== *)
(** * More of Go's text functions

    [strconv.Atoi], [strconv.Itoa], [strings.Fields], [strings.Trim] with a
    cut set of one byte, [strings.ReplaceAll] of one byte by another and
    [hex.DecodeString], as the signalling code uses them. *)

From S2P Require Import Prelude GoStrings.
From stdpp Require Import pretty.
From Stdlib Require Import Ascii String.
#[local] Open Scope string_scope.
#[local] Open Scope list_scope.
#[local] Open Scope Z_scope.

(** ** [strconv] *)

Definition digit (c : ascii) : option Z :=
  if (48 <=? byte_of c) && (byte_of c <=? 57) then Some (byte_of c - 48) else None.

Fixpoint digits_from (acc : Z) (s : string) : option Z :=
  match s with
  | EmptyString => Some acc
  | String c s => d ← digit c; digits_from (10 * acc + d) s
  end.

Definition unsigned (s : string) : option Z :=
  if String.eqb s "" then None else digits_from 0 s.

Definition in_int (z : Z) : option Z :=
  if (- 2 ^ 63 <=? z) && (z <? 2 ^ 63) then Some z else None.

(** An optional sign and at least one digit; [None] is a syntax or a range
    error. *)
Definition atoi (s : string) : option Z :=
  match s with
  | String c r =>
    if Ascii.eqb c "-"%char then n ← unsigned r; in_int (- n)
    else if Ascii.eqb c "+"%char then n ← unsigned r; in_int n
    else n ← unsigned s; in_int n
  | EmptyString => None
  end.

Definition itoa (z : Z) : string := pretty z.

(** ** [strings.Fields]: the maximal runs without white space. *)

Definition emit (w : list ascii) (l : list string) : list string :=
  match w with [] => l | _ => string_of_list_ascii (reverse w) :: l end.

(** [w] is the current word, reversed. *)
Fixpoint fields_from (w : list ascii) (l : list ascii) {struct l} : list string :=
  match l with
  | [] => emit w []
  | c :: l1 =>
    if space1 c then emit w (fields_from [] l1) else
    match l1 with
    | [] => fields_from (c :: w) l1
    | d :: l2 =>
      if space2 c d then emit w (fields_from [] l2) else
      match l2 with
      | [] => fields_from (c :: w) l1
      | e :: l3 =>
        if space3 c d e then emit w (fields_from [] l3) else fields_from (c :: w) l1
      end
    end
  end.

Definition fields (s : string) : list string := fields_from [] (list_ascii_of_string s).

(** ** [strings.Trim] and [strings.ReplaceAll] with one byte *)

Fixpoint trim_left_char (c : ascii) (s : string) : string :=
  match s with
  | String d s' => if Ascii.eqb d c then trim_left_char c s' else s
  | EmptyString => EmptyString
  end.

Fixpoint all_char (c : ascii) (s : string) : bool :=
  match s with
  | EmptyString => true
  | String d s => Ascii.eqb d c && all_char c s
  end.

Fixpoint trim_right_char (c : ascii) (s : string) : string :=
  match s with
  | EmptyString => EmptyString
  | String d s' => if all_char c s then EmptyString else String d (trim_right_char c s')
  end.

Definition trim_char (c : ascii) (s : string) : string := trim_right_char c (trim_left_char c s).

Definition replace_char (c d : ascii) : string -> string :=
  map_string (fun x => if Ascii.eqb x c then d else x).

(** ** [hex.DecodeString] *)

Definition hex_digit (c : ascii) : option Z :=
  let n := byte_of c in
  if (48 <=? n) && (n <=? 57) then Some (n - 48)
  else if (97 <=? n) && (n <=? 102) then Some (n - 87)
  else if (65 <=? n) && (n <=? 70) then Some (n - 55)
  else None.

(** [None] is an odd length or a byte that is not a digit. *)
Fixpoint hex_decode (s : string) : option string :=
  match s with
  | EmptyString => Some EmptyString
  | String _ EmptyString => None
  | String a (String b s) =>
    h ← hex_digit a; l ← hex_digit b; rest ← hex_decode s;
    Some (String (ascii_of_N (Z.to_N (16 * h + l))) rest)
  end.

(** ** Facts *)

Lemma lower_char_not_upper c : byte_of (lower_char c) < 65 \/ 90 < byte_of (lower_char c).
Proof. destruct c as [[] [] [] [] [] [] [] []]; vm_compute; auto; by left. Qed.

Lemma lower_char_idemp c : lower_char (lower_char c) = lower_char c.
Proof. by destruct c as [[] [] [] [] [] [] [] []]. Qed.

Lemma lower_char_ascii c : is_ascii (lower_char c) = is_ascii c.
Proof. by destruct c as [[] [] [] [] [] [] [] []]. Qed.

Fixpoint ascii_string (s : string) : bool :=
  match s with EmptyString => true | String c s => is_ascii c && ascii_string s end.

Lemma to_lower_idemp `{Unicode} s : ascii_string s = true -> to_lower (to_lower s) = to_lower s.
Proof.
  induction s as [|c s IH]; cbn; [done|]. intros [Hc Hs]%andb_true_iff. rewrite Hc. cbn.
  rewrite lower_char_ascii, Hc, lower_char_idemp, IH by done. done.
Qed.

Lemma to_lower_ascii `{Unicode} s : ascii_string s = true -> ascii_string (to_lower s) = true.
Proof.
  induction s as [|c s IH]; cbn; [done|]. intros [Hc Hs]%andb_true_iff. rewrite Hc. cbn.
  by rewrite lower_char_ascii, Hc, IH.
Qed.

(** A string with a capital letter is not the lower case of an ASCII one. *)
Lemma to_lower_no_capital `{Unicode} s c t u :
  ascii_string s = true -> 65 <= byte_of c <= 90 -> to_lower s <> t +:+ String c u.
Proof.
  intros Hs Hc. revert t. induction s as [|d s IH]; intros t; cbn.
  { by destruct t. }
  cbn in Hs. apply andb_true_iff in Hs as [Hd Hs]. rewrite Hd. destruct t as [|e t]; intros [= E1 E2].
  - pose proof (lower_char_not_upper d). rewrite E1 in *. lia.
  - by apply (IH Hs t).
Qed.

(** ** Printing and reading numbers *)

Lemma digit_pretty (n : N) : (n < 10)%N -> digit (pretty_N_char n) = Some (Z.of_N n).
Proof.
  intros Hn. assert (Hc : n ∈ [0; 1; 2; 3; 4; 5; 6; 7; 8; 9]%N) by (rewrite !elem_of_cons; lia).
  repeat (apply elem_of_cons in Hc as [->|Hc]; [reflexivity|]). by apply elem_of_nil in Hc.
Qed.

Lemma digits_pretty_go (n : N) s : digits_from 0 (pretty_N_go n s) = digits_from (Z.of_N n) s.
Proof.
  revert s. induction n as [n IH] using (well_founded_induction N.lt_wf_0). intros s.
  destruct (decide (0 < n)%N) as [Hn|Hn]; [|assert (n = 0%N) as -> by lia; by rewrite pretty_N_go_0].
  rewrite pretty_N_go_step by done. rewrite IH by (apply N.div_lt; lia). cbn [digits_from].
  rewrite digit_pretty by (apply N.mod_lt; lia). cbn. f_equal.
  pose proof (N.div_mod n 10 ltac:(lia)). lia.
Qed.

Lemma unsigned_pretty (n : N) : unsigned (pretty n) = Some (Z.of_N n).
Proof.
  unfold unsigned. unfold pretty, pretty_N. case_decide as E; [by subst|].
  destruct (String.eqb_spec (pretty_N_go n "") "") as [Hs|_]; [|by rewrite digits_pretty_go].
  exfalso. pose proof (digits_pretty_go n "") as Hd. rewrite Hs in Hd. cbn in Hd. injection Hd as Hd. lia.
Qed.

Lemma pretty_N_first (n : N) : exists c s, pretty n = String c s /\ digit c <> None.
Proof.
  pose proof (unsigned_pretty n) as Hu. destruct (pretty n) as [|c s]; [done|]. exists c, s. split; [done|].
  unfold unsigned in Hu. cbn in Hu. by destruct (digit c).
Qed.

(** What [itoa] prints, [atoi] reads. *)
Lemma atoi_itoa z : in_s 64 z -> atoi (itoa z) = Some z.
Proof.
  intros Hz. assert (Hi : in_int z = Some z).
  { unfold in_int, in_s in *. change (64 - 1) with 63 in Hz. destruct (Z.leb_spec (- 2 ^ 63) z), (Z.ltb_spec z (2 ^ 63)); try lia. done. }
  unfold itoa. destruct z as [|p|p].
  - done.
  - change (pretty (Z.pos p)) with (pretty (N.pos p)). destruct (pretty_N_first (N.pos p)) as (c & s & E & Hc).
    pose proof (unsigned_pretty (N.pos p)) as Hu. rewrite E in *. unfold atoi.
    destruct (Ascii.eqb_spec c "-"%char) as [->|]; [by destruct Hc|].
    destruct (Ascii.eqb_spec c "+"%char) as [->|]; [by destruct Hc|]. by rewrite Hu.
  - change (pretty (Z.neg p)) with (String "-"%char (pretty (N.pos p))). cbn [atoi Ascii.eqb].
    pose proof (unsigned_pretty (N.pos p)) as Hu. unfold atoi. cbn -[unsigned pretty in_int]. by rewrite Hu.
Qed.

(** ** Words *)

(** ASCII without white space. *)
Definition plain_char (c : ascii) : bool := is_ascii c && negb (space1 c).

Definition plain_word (s : string) : Prop := s <> "" /\ forallb plain_char (list_ascii_of_string s) = true.

Lemma plain_not_space c d e : is_ascii c = true -> space2 c d = false /\ space3 c d e = false.
Proof.
  unfold is_ascii, space2, space3. intros Hc. apply Z.ltb_lt in Hc.
  destruct (Z.eqb_spec (byte_of c) 194), (Z.eqb_spec (byte_of c) 225), (Z.eqb_spec (byte_of c) 226), (Z.eqb_spec (byte_of c) 227);
    try lia; done.
Qed.

Lemma fields_from_plain w l rest : forallb plain_char l = true ->
  fields_from w (l ++ rest) = fields_from (reverse l ++ w) rest.
Proof.
  revert w. induction l as [|c l IH]; intros w; [done|]. cbn [forallb]. rewrite andb_true_iff. intros [Hc Hl].
  unfold plain_char in Hc. apply andb_true_iff in Hc as [Ha Hs]. apply negb_true_iff in Hs.
  rewrite reverse_cons, <- app_assoc. cbn [app]. rewrite <- (IH (c :: w) Hl). cbn [fields_from]. rewrite Hs.
  destruct (l ++ rest) as [|d l2]; [done|]. destruct (plain_not_space c d c Ha) as [-> _]. destruct l2 as [|e l3]; [done|].
  by destruct (plain_not_space c d e Ha) as [_ ->].
Qed.

Lemma list_ascii_app s t : list_ascii_of_string (s +:+ t) = list_ascii_of_string s ++ list_ascii_of_string t.
Proof. induction s as [|c s IH]; [done|]. rewrite string_app_cons. cbn. by rewrite IH. Qed.

Lemma emit_word s l : s <> "" -> emit (reverse (list_ascii_of_string s)) l = s :: l.
Proof.
  intros Hs. unfold emit. destruct (reverse (list_ascii_of_string s)) eqn:E.
  - apply (f_equal reverse) in E. rewrite reverse_involutive in E. by destruct s.
  - by rewrite <- E, reverse_involutive, string_of_list_ascii_of_string.
Qed.

(** Splitting a word off the front. *)
Lemma fields_cons s t : plain_word s -> fields (s +:+ " " +:+ t) = s :: fields t.
Proof.
  intros [Hs Hp]. unfold fields. rewrite list_ascii_app, fields_from_plain by done. rewrite app_nil_r.
  change (list_ascii_of_string (" " +:+ t)) with (" "%char :: list_ascii_of_string t). cbn [fields_from].
  change (space1 " ") with true. cbn iota. by rewrite emit_word.
Qed.

Lemma fields_word s : plain_word s -> fields s = [s].
Proof.
  intros [Hs Hp]. unfold fields. rewrite <- (app_nil_r (list_ascii_of_string s)), fields_from_plain by done.
  rewrite app_nil_r. cbn [fields_from]. by rewrite emit_word.
Qed.

(** ** Trimming what is framed by plain characters *)

Lemma space2_plain c d : is_ascii d = true -> space2 c d = false.
Proof.
  unfold is_ascii, space2. intros Hd. apply Z.ltb_lt in Hd.
  destruct (Z.eqb_spec (byte_of d) 133), (Z.eqb_spec (byte_of d) 160); lia.
Qed.

Lemma space3_plain c d e : is_ascii e = true -> space3 c d e = false.
Proof.
  unfold is_ascii, space3. intros He. apply Z.ltb_lt in He.
  destruct (Z.eqb_spec (byte_of e) 128), (Z.leb_spec 128 (byte_of e)), (Z.eqb_spec (byte_of e) 168), (Z.eqb_spec (byte_of e) 169),
    (Z.eqb_spec (byte_of e) 175), (Z.eqb_spec (byte_of e) 159); lia.
Qed.

Lemma plain_char_spec c : plain_char c = true -> is_ascii c = true /\ space1 c = false.
Proof. unfold plain_char. rewrite andb_true_iff, negb_true_iff. done. Qed.

Lemma trim_front_plain c l : plain_char c = true -> trim_front (c :: l) = c :: l.
Proof.
  intros [Ha Hs]%plain_char_spec. apply trim_with_stuck.
  destruct l as [|d [|e l]]; cbn; rewrite Hs; [done| |]; cbn.
  - apply (plain_not_space c d d Ha).
  - destruct (plain_not_space c d e Ha) as [-> ->]. done.
Qed.

Lemma trim_back_plain l c : plain_char c = true -> trim_back (l ++ [c]) = l ++ [c].
Proof.
  intros [Ha Hs]%plain_char_spec. unfold trim_back. rewrite reverse_app, reverse_singleton. cbn [app].
  rewrite trim_with_stuck; [by rewrite reverse_cons, reverse_involutive|].
  destruct (reverse l) as [|d [|e k]]; cbn; rewrite Hs; [done| |]; cbn.
  - by rewrite space2_plain.
  - by rewrite space2_plain, space3_plain.
Qed.

Lemma trim_space_framed c s d : plain_char c = true -> plain_char d = true ->
  trim_space (String c (s +:+ String d "")) = String c (s +:+ String d "").
Proof.
  intros Hc Hd. unfold trim_space. cbn [list_ascii_of_string]. rewrite trim_front_plain by done.
  rewrite list_ascii_app, app_comm_cons. rewrite (trim_back_plain _ d Hd). rewrite <- app_comm_cons.
  change [d] with (list_ascii_of_string (String d "")). rewrite <- list_ascii_app. cbn [string_of_list_ascii]. by rewrite string_of_list_ascii_of_string.
Qed.

Lemma trim_space_space s : trim_space (String " " s) = trim_space s.
Proof. done. Qed.

(** A word is its first character and a rest, or a rest and its last. *)
Lemma string_snoc s : s <> "" -> exists t c, s = t +:+ String c "".
Proof.
  induction s as [|c s IH]; [done|]. intros _. destruct s as [|d s]; [by exists "", c|].
  destruct IH as (t & e & ->); [done|]. by exists (String c t), e.
Qed.

Lemma trim_space_plain s : plain_word s -> trim_space s = s.
Proof.
  intros [Hs Hp]. destruct s as [|c s]; [done|]. cbn in Hp. apply andb_true_iff in Hp as [Hc Hp].
  destruct (decide (s = "")) as [->|Hne].
  - unfold trim_space. cbn [list_ascii_of_string]. rewrite trim_front_plain by done.
    pose proof (trim_back_plain [] c Hc) as E. cbn [app] in E. by rewrite E.
  - destruct (string_snoc s Hne) as (t & d & ->). apply trim_space_framed; [done|].
    rewrite list_ascii_app, forallb_app in Hp. cbn in Hp. by destruct (plain_char d), (forallb _ _).
Qed.

(** ** Trimming one character *)

Lemma trim_left_char_lacks c s : lacks c s = true -> trim_left_char c s = s.
Proof. destruct s as [|d s]; cbn; [done|]. by destruct (Ascii.eqb d c). Qed.

Lemma trim_right_char_lacks c s : lacks c s = true -> trim_right_char c s = s.
Proof. induction s as [|d s IH]; cbn; [done|]. destruct (Ascii.eqb d c); [done|]. cbn. intros ?. by rewrite IH. Qed.

Lemma trim_char_lacks c s : lacks c s = true -> trim_char c s = s.
Proof. intros. unfold trim_char. by rewrite trim_left_char_lacks, trim_right_char_lacks. Qed.

Lemma trim_char_wrapped c s : lacks c s = true -> trim_char c (String c (s +:+ String c "")) = s.
Proof.
  intros Hs. unfold trim_char. cbn [trim_left_char]. rewrite Ascii.eqb_refl.
  destruct s as [|d s].
  { change ("" +:+ String c "") with (String c ""). cbn [trim_left_char]. by rewrite Ascii.eqb_refl. }
  rewrite string_app_cons. cbn in Hs. apply andb_true_iff in Hs as [Hd Hs]. apply negb_true_iff in Hd.
  cbn [trim_left_char]. rewrite Hd. cbn [trim_right_char all_char]. rewrite Hd. cbn. f_equal.
  induction s as [|e s IH].
  { change ("" +:+ String c "") with (String c ""). cbn. by rewrite Ascii.eqb_refl. }
  cbn in Hs. apply andb_true_iff in Hs as [He Hs]. apply negb_true_iff in He.
  rewrite string_app_cons. cbn [trim_right_char all_char]. rewrite He. cbn. f_equal. by apply IH.
Qed.

(** The first occurrence of a character after a word without it. *)
Lemma index_char c w s : lacks c w = true -> GoStrings.index (w +:+ String c s) (String c "") = Some (String.length w).
Proof.
  induction w as [|d w IH]; cbn [lacks].
  - intros _. change ("" +:+ String c s) with (String c s). rewrite index_unfold.
    change (String c s) with (String c "" +:+ s). by rewrite GoStrings.prefix_app.
  - intros [Hd Hw]%andb_true_iff. apply negb_true_iff, Ascii.eqb_neq in Hd. rewrite string_app_cons, index_unfold. cbn.
    destruct (ascii_dec c d) as [->|_]; [done|]. by rewrite IH.
Qed.

(** Splitting what was joined. *)
Lemma split_on_join c sep l :
  l <> [] -> Forall (fun w => lacks c w = true) l -> lacks c sep = true ->
  split_on c (GoStrings.join (String c sep) l) = match l with [] => [] | w :: l => w :: map (fun v => sep +:+ v) l end.
Proof.
  intros Hne Hl Hsep. destruct l as [|w l]; [done|]. clear Hne. revert w Hl.
  assert (Hgo : forall l w pre, lacks c pre = true -> Forall (fun w => lacks c w = true) (w :: l) ->
    split_on c (pre +:+ GoStrings.join (String c sep) (w :: l)) = (pre +:+ w) :: map (fun v => sep +:+ v) l).
  { clear l. induction l as [|v l IH]; intros w pre Hpre Hl; apply Forall_cons in Hl as [Hw Hl].
    - cbn. apply split_on_lacks. by rewrite lacks_app, Hpre, Hw.
    - change (GoStrings.join (String c sep) (w :: v :: l)) with (w +:+ String c sep +:+ GoStrings.join (String c sep) (v :: l)).
      rewrite <- string_app_assoc, string_app_cons, split_on_app by (by rewrite lacks_app, Hpre, Hw).
      f_equal. rewrite IH by done. done. }
  intros w Hl. exact (Hgo l w "" eq_refl Hl).
Qed.
