(* ===== verification/GoFloat.v ===== *)
(** * Go floating point numbers

    [float64] as IEEE 754 binary64 values of the Standard Library's [SpecFloat],
    with the conversions and the [time.Duration] methods the components use.  The
    language leaves the conversion of a value that does not fit the integer type
    to the implementation, so that case is a parameter, [f64_outside]. *)

From S2P Require Import Prelude.
From Stdlib Require Export Floats.SpecFloat.
#[local] Open Scope Z_scope.

Definition f64_zero : spec_float := S754_zero false.
Definition f64_of_int (n : Z) : spec_float := binary_normalize 53 1024 n 0 false.
Definition f64_add : spec_float -> spec_float -> spec_float := SFadd 53 1024.
Definition f64_sub : spec_float -> spec_float -> spec_float := SFsub 53 1024.
Definition f64_mul : spec_float -> spec_float -> spec_float := SFmul 53 1024.
Definition f64_div : spec_float -> spec_float -> spec_float := SFdiv 53 1024.
Definition f64_opp : spec_float -> spec_float := SFopp.
Definition f64_ge (x y : spec_float) : bool := SFleb y x.
Definition f64_lt (x y : spec_float) : bool := SFltb x y.

(** The integral part of a finite number, towards zero. *)
Definition f64_trunc (x : spec_float) : option Z :=
  match x with
  | S754_zero _ => Some 0
  | S754_finite s m e => Some (cond_Zopp s (Z.shiftl (Zpos m) e))
  | _ => None
  end.

(** The nearest integer of a finite number, halves away from zero:
    [math.Round]. *)
Definition f64_round (x : spec_float) : option Z :=
  match x with
  | S754_zero _ => Some 0
  | S754_finite s m e =>
      Some (cond_Zopp s (if 0 <=? e then Z.shiftl (Zpos m) e else Z.shiftr (Zpos m + 2 ^ (- e - 1)) (- e)))
  | _ => None
  end.

(** Conversion to an integer type with the bounds [lo] and [hi]. *)
Definition f64_to_int (outside : Z) (lo hi : Z) (n : option Z) : Z :=
  match n with
  | Some k => if (lo <=? k) && (k <=? hi) then k else outside
  | None => outside
  end.

Lemma f64_to_int_bounds outside lo hi n :
  lo <= outside <= hi -> lo <= f64_to_int outside lo hi n <= hi.
Proof. intros H. unfold f64_to_int. case_tests; bool_to_prop; lia. Qed.

(** [time.Duration.Seconds]; a duration is a number of nanoseconds. *)
Definition duration_seconds (d : Z) : spec_float :=
  f64_add (f64_of_int (Z.quot d 1000000000))
          (f64_div (f64_of_int (Z.rem d 1000000000)) (f64_of_int 1000000000)).

(** [time.Time.Sub] saturates. *)
Definition time_sub (t u : Z) : Z := Z.max (- 2 ^ 63) (Z.min (2 ^ 63 - 1) (t - u)).

(** ** Signs *)

Definition f64_nonneg (x : spec_float) : bool :=
  match x with
  | S754_zero true | S754_finite true _ _ | S754_infinity true => false
  | _ => true
  end.

Lemma round_aux_nonneg mx ex lx : f64_nonneg (binary_round_aux 53 1024 false mx ex lx) = true.
Proof. unfold binary_round_aux. cbn. case_tests; done. Qed.

Lemma f64_of_int_nonneg n : 0 <= n -> f64_nonneg (f64_of_int n) = true.
Proof.
  intros H. unfold f64_of_int, binary_normalize. destruct n as [|p|p]; [done| |lia].
  unfold binary_round. case_tests. apply round_aux_nonneg.
Qed.

Lemma f64_div_nonneg x y :
  f64_nonneg x = true -> f64_nonneg y = true -> f64_nonneg (f64_div x y) = true.
Proof.
  destruct x as [[]|[]| |[] mx ex], y as [[]|[]| |[] my ey]; try done.
  all: intros _ _; unfold f64_div, SFdiv; case_tests; apply round_aux_nonneg || done.
Qed.

Lemma f64_lt_zero x : f64_nonneg x = true -> f64_lt x f64_zero = false.
Proof. by destruct x as [[]|[]| |[]]. Qed.
