(* ===== verification/FloatFacts.v ===== *)
(** * Rounding

    What the components need to know about [float64] arithmetic: results are
    canonical, and sums and differences of numbers with few bits are exact.  A
    canonical number is an integer multiple of the smallest one; [scaled] is that
    integer. *)

From S2P Require Import Prelude GoFloat.
#[local] Open Scope Z_scope.

Definition f64_valid (x : spec_float) : bool := valid_binary 53 1024 x.

(** The exponent of a canonical number with its highest bit below [2 ^ e]. *)
Lemma fexp64_spec e : fexp 53 1024 e = Z.max (e - 53) (-1074).
Proof. done. Qed.

(** ** Shifting *)

Lemma digits2_log2 p : Zpos (digits2_pos p) = Z.log2 (Zpos p) + 1.
Proof.
  induction p as [p IH|p IH|]; cbn [digits2_pos]; [| |done]; rewrite Pos2Z.inj_succ, IH.
  - rewrite Pos2Z.inj_xI, Z.log2_succ_double by done. lia.
  - rewrite Pos2Z.inj_xO, Z.log2_double by done. lia.
Qed.

Lemma Zdigits2_log2 m : 0 < m -> Zdigits2 m = Z.log2 m + 1.
Proof. destruct m as [|p|p]; [done| |done]. intros _. apply digits2_log2. Qed.

(** The record after [n] steps: quotient, the highest bit shifted out and whether
    any lower one was set. *)
Definition shifted (m n : Z) : shr_record :=
  {| shr_m := m / 2 ^ n; shr_r := (2 ^ n <=? 2 * (m mod 2 ^ n)) && negb (n =? 0);
     shr_s := negb (n =? 0) && negb ((m mod 2 ^ (n - 1)) =? 0) |}.

Lemma shr_1_nonneg m r s : 0 <= m ->
  shr_1 {| shr_m := m; shr_r := r; shr_s := s |} = {| shr_m := m / 2; shr_r := Z.odd m; shr_s := r || s |}.
Proof.
  intros Hm. rewrite <- Z.div2_div. destruct m as [|[p|p|]|p]; try done.
Qed.

Lemma shr_1_shifted m n : 0 <= m -> 0 <= n -> shr_1 (shifted m n) = shifted m (n + 1).
Proof.
  intros Hm Hn. unfold shifted. rewrite shr_1_nonneg by (apply Z.div_pos; lia).
  rewrite Z.pow_add_r by lia. change (2 ^ 1) with 2. rewrite <- Z.div_div by lia.
  replace (n + 1 - 1) with n by lia. replace (n + 1 =? 0) with false by lia. f_equal.
  - rewrite andb_true_r. pose proof (Z.div_mod m (2 ^ n) ltac:(lia)) as Hd.
    pose proof (Z.mod_pos_bound m (2 ^ n) ltac:(lia)) as Hb.
    rewrite Z.rem_mul_r by lia. rewrite Zmod_odd.
    destruct (Z.odd (m / 2 ^ n)); symmetry; [apply Z.leb_le|apply Z.leb_gt]; nia.
  - cbn. destruct (Z.eqb_spec n 0) as [->|Hne]; [by rewrite Z.mod_1_r|]. cbn. rewrite andb_true_r.
    replace (2 ^ n) with (2 ^ (n - 1) * 2) by (rewrite <- (Z.pow_1_r 2) at 2; rewrite <- Z.pow_add_r by lia; f_equal; lia).
    rewrite Z.rem_mul_r by lia. rewrite Zmod_odd.
    pose proof (Z.mod_pos_bound m (2 ^ (n - 1)) ltac:(lia)) as Hb.
    destruct (Z.odd (m / 2 ^ (n - 1))), (Z.eqb_spec (m mod 2 ^ (n - 1)) 0); cbn; lia.
Qed.

Lemma iter_pos_nat {A} (f : A -> A) p x : iter_pos f p x = Nat.iter (Pos.to_nat p) f x.
Proof.
  revert x. induction p as [p IH|p IH|]; intros x; cbn [iter_pos].
  - rewrite !IH, Pos2Nat.inj_xI. rewrite Nat.iter_succ_r. rewrite <- Nat.iter_add. f_equal. lia.
  - rewrite !IH, Pos2Nat.inj_xO. rewrite <- Nat.iter_add. f_equal. lia.
  - done.
Qed.

Lemma shr_exact m e n : 0 <= m -> 0 <= n ->
  shr {| shr_m := m; shr_r := false; shr_s := false |} e n = (shifted m n, e + n).
Proof.
  intros Hm Hn. assert (H0 : {| shr_m := m; shr_r := false; shr_s := false |} = shifted m 0).
  { unfold shifted. cbn. by rewrite Z.div_1_r, andb_false_r. }
  destruct n as [|p|p]; [|clear Hn|done].
  - cbn. by rewrite H0, Z.add_0_r.
  - cbn. f_equal. rewrite iter_pos_nat, H0. rewrite <- (positive_nat_Z p).
    induction (Pos.to_nat p) as [|k IH]; [done|]. rewrite Nat.iter_succ, IH, shr_1_shifted by lia. f_equal. lia.
Qed.

Lemma shr_quotient m r s e n : 0 <= m -> 0 <= n ->
  shr_m (shr {| shr_m := m; shr_r := r; shr_s := s |} e n).1 = m / 2 ^ n /\
  (shr {| shr_m := m; shr_r := r; shr_s := s |} e n).2 = e + n.
Proof.
  intros Hm Hn. destruct n as [|p|p]; [|clear Hn|done]; cbn.
  - by rewrite Z.div_1_r, Z.add_0_r.
  - split; [|done]. rewrite iter_pos_nat. rewrite <- (positive_nat_Z p).
    revert m r s Hm. induction (Pos.to_nat p) as [|k IH]; intros m r s Hm; [by rewrite Z.div_1_r|].
    rewrite Nat.iter_succ_r, shr_1_nonneg, IH by (try apply Z.div_pos; lia).
    rewrite Z.div_div by lia. f_equal. rewrite Nat2Z.inj_succ, Z.pow_succ_r by lia. done.
Qed.

Lemma round_even_range q l : q <= round_nearest_even q l <= q + 1.
Proof. destruct l as [|[]]; cbn; try lia. destruct (Z.even q); lia. Qed.

(** ** Results are canonical *)

(** A mantissa of at most 53 bits that is not too small for its exponent. *)
Definition fits (m e : Z) : Prop := 0 < m < 2 ^ 53 /\ -1074 <= e /\ (e = -1074 \/ 2 ^ 52 <= m).

Lemma log2_bits m n : 0 < m -> 0 <= n -> m < 2 ^ n <-> Z.log2 m < n.
Proof. intros Hm Hn. by apply Z.log2_lt_pow2. Qed.

Lemma fits_canonical p e : fits (Zpos p) e <-> canonical_mantissa 53 1024 p e = true.
Proof.
  unfold canonical_mantissa, fits. rewrite fexp64_spec, digits2_log2, Z.eqb_eq.
  rewrite (log2_bits _ 53) by lia. pose proof (Z.log2_nonneg (Zpos p)).
  assert (2 ^ 52 <= Zpos p <-> 52 <= Z.log2 (Zpos p)) as -> by (by rewrite Z.log2_le_pow2).
  lia.
Qed.

Definition is_number (x : spec_float) : bool :=
  match x with
  | S754_zero _ | S754_finite _ _ _ => true
  | _ => false
  end.

(** What [binary_round_aux] can return for a mantissa [m] of sign [s] that fits
    the exponent [e] or is one carry above. *)
Definition rounded (s : bool) (m e : Z) (r : spec_float) : Prop :=
  f64_valid r = true /\
  (e < 971 \/ is_number r = true -> exists k, m <= k <= m /\ match r with
     | S754_zero s' => s' = s /\ k = 0
     | S754_finite s' p e' => s' = s /\ Zpos p * 2 ^ (e' - e) = k /\ e <= e'
     | _ => False
     end) /\
  match r with
  | S754_zero s' | S754_infinity s' | S754_finite s' _ _ => s' = s
  | S754_nan => False
  end.

(** The second shift of [binary_round_aux]: at most a carry. *)
Lemma renormalize s m e : 0 <= m <= 2 ^ 53 -> -1074 <= e -> e = -1074 \/ 2 ^ 52 <= m ->
  rounded s m e (let '(mrs, e') := shr_fexp 53 1024 m e loc_Exact in
             match shr_m mrs with
             | Z0 => S754_zero s
             | Zpos p => if e' <=? 1024 - 53 then S754_finite s p e' else S754_infinity s
             | Zneg _ => S754_nan
             end).
Proof.
  intros Hm He Hx. unfold shr_fexp, shr_record_of_loc.
  destruct (decide (m = 0)) as [->|Hne].
  { cbn [Zdigits2]. rewrite fexp64_spec.
    destruct (Z.max (0 + e - 53) (-1074) - e) eqn:E; [|lia|]; (split; [done|split; [by exists 0|done]]). }
  rewrite Zdigits2_log2, fexp64_spec by lia.
  assert (Hval : forall p e', fits (Zpos p) e' -> e <= e' <= e + 1 -> Zpos p * 2 ^ (e' - e) = m ->
    rounded s m e (if e' <=? 1024 - 53 then S754_finite s p e' else S754_infinity s)).
  { intros p e' Hf He' Hpm. destruct (Z.leb_spec e' (1024 - 53)); [|split; [done|split; [by intros [?|?]; [lia|]|done]]].
    split; [|split; [|done]].
    - cbn. unfold bounded. apply fits_canonical in Hf. rewrite Hf. cbn. by apply Z.leb_le.
    - intros _. exists m. repeat split; lia. }
  destruct (decide (m = 2 ^ 53)) as [->|Hlt].
  - change (Z.log2 (2 ^ 53)) with 53. replace (Z.max (53 + 1 + e - 53) (-1074) - e) with 1 by lia.
    rewrite shr_exact by lia. cbn -[Z.leb]. apply Hval; [unfold fits; lia|lia|].
    replace (e + 1 - e) with 1 by lia. done.
  - assert (Hl : Z.log2 m < 53) by (apply log2_bits; lia).
    replace (shr _ _ _) with ({| shr_m := m; shr_r := false; shr_s := false |}, e).
    + destruct m as [|p|p]; [done| |lia]. apply Hval; [unfold fits; lia|lia|]. rewrite Z.sub_diag. lia.
    + destruct (Z.max (Z.log2 m + 1 + e - 53) (-1074) - e) eqn:E; [done|lia|done].
Qed.

Lemma round_aux_rounded s m e l : 0 <= m -> e <= fexp 53 1024 (Zdigits2 m + e) ->
  exists R, 0 <= R <= 2 ^ 53 /\ m / 2 ^ (fexp 53 1024 (Zdigits2 m + e) - e) <= R /\
    R <= m / 2 ^ (fexp 53 1024 (Zdigits2 m + e) - e) + 1 /\
    rounded s R (fexp 53 1024 (Zdigits2 m + e)) (binary_round_aux 53 1024 s m e l).
Proof.
  intros Hm He. unfold binary_round_aux. unfold shr_fexp at 1. set (n := fexp 53 1024 (Zdigits2 m + e) - e).
  assert (Hn : 0 <= n) by lia.
  assert (exists r s, shr_record_of_loc m l = {| shr_m := m; shr_r := r; shr_s := s |}) as (r & s' & ->)
    by (destruct l as [|[]]; cbn; eauto).
  destruct (shr_quotient m r s' e n Hm Hn) as [Hq He']. destruct (shr _ _ _) as [mrs e']. cbn in Hq, He'. subst e'.
  rewrite Hq. set (R := round_nearest_even _ _).
  assert (HR : m / 2 ^ n <= R <= m / 2 ^ n + 1) by apply round_even_range. clearbody R.
  assert (Hq0 : 0 <= m / 2 ^ n) by (apply Z.div_pos; lia).
  assert (Hb : m / 2 ^ n < 2 ^ 53 /\ (e + n = -1074 \/ 2 ^ 52 <= m / 2 ^ n)).
  { subst n. rewrite fexp64_spec in *. destruct (decide (m = 0)) as [->|Hne]; [rewrite Z.div_0_l by lia; cbn [Zdigits2] in *; lia|].
    rewrite Zdigits2_log2 in * by lia. pose proof (Z.log2_spec m ltac:(lia)) as [H1 H2].
    set (k := Z.max (Z.log2 m + 1 + e - 53) (-1074) - e) in *. split.
    - apply Z.div_lt_upper_bound; [lia|]. rewrite <- Z.pow_add_r by lia.
      apply Z.lt_le_trans with (2 ^ Z.succ (Z.log2 m)); [done|]. apply Z.pow_le_mono_r; lia.
    - destruct (decide (e + k = -1074)); [by left|right]. apply Z.div_le_lower_bound; [lia|].
      rewrite <- Z.pow_add_r by lia. apply Z.le_trans with (2 ^ Z.log2 m); [|done]. apply Z.pow_le_mono_r; lia. }
  exists R. split; [lia|]. split; [lia|]. split; [lia|].
  replace (fexp 53 1024 (Zdigits2 m + e)) with (e + n) by lia.
  apply renormalize; [lia| |lia]. subst n. rewrite fexp64_spec. lia.
Qed.

Lemma round_aux_valid s m e l : 0 <= m -> e <= fexp 53 1024 (Zdigits2 m + e) ->
  f64_valid (binary_round_aux 53 1024 s m e l) = true.
Proof. intros Hm He. by destruct (round_aux_rounded s m e l Hm He) as (R & _ & _ & _ & [? _]). Qed.

Lemma iter_xO_value p d : Zpos (Pos.iter xO p d) = Zpos p * 2 ^ Zpos d.
Proof.
  induction d as [|d IH] using Pos.peano_ind; [cbn; lia|].
  rewrite Pos.iter_succ, Pos2Z.inj_xO, IH, Pos2Z.inj_succ, Z.pow_succ_r by lia. lia.
Qed.

Lemma shl_align_value p e e' : let '(p', e'') := shl_align p e e' in e'' = Z.min e e' /\ Zpos p' = Zpos p * 2 ^ (e - e'').
Proof.
  unfold shl_align. destruct (e' - e) eqn:E.
  - split; [lia|]. by rewrite Z.sub_diag, Z.mul_1_r.
  - split; [lia|]. by rewrite Z.sub_diag, Z.mul_1_r.
  - split; [lia|]. rewrite iter_xO_value. do 2 f_equal. lia.
Qed.

Lemma log2_shift m n : 0 < m -> 0 <= n -> Z.log2 (m * 2 ^ n) = Z.log2 m + n.
Proof. intros. rewrite Z.log2_mul_pow2 by lia. lia. Qed.

(** The aligned mantissa of [binary_round]. *)
Lemma round_aligned s p e : exists m e',
  binary_round 53 1024 s p e = binary_round_aux 53 1024 s m e' loc_Exact /\ 0 < m /\ e' = Z.min e (fexp 53 1024 (Z.log2 (Zpos p) + 1 + e)) /\
  m = Zpos p * 2 ^ (e - e') /\
  e' <= fexp 53 1024 (Zdigits2 m + e').
Proof.
  unfold binary_round. pose proof (shl_align_value p e (fexp 53 1024 (Zpos (digits2_pos p) + e))) as Ha.
  destruct (shl_align p e _) as [p' e'] eqn:E. destruct Ha as [He' Hp']. exists (Zpos p'), e'. split; [done|].
  split; [done|]. split; [by rewrite He', digits2_log2|]. split; [done|].
  rewrite Zdigits2_log2, Hp', log2_shift by lia. rewrite digits2_log2, !fexp64_spec in *. lia.
Qed.

Lemma normalize_valid m e b : f64_valid (binary_normalize 53 1024 m e b) = true.
Proof.
  destruct m as [|p|p]; [done|..]; cbn [binary_normalize];
    [destruct (round_aligned false p e) as (m & e' & -> & ?)|destruct (round_aligned true p e) as (m & e' & -> & ?)];
    apply round_aux_valid; lia.
Qed.

Lemma valid_bits s p e : f64_valid (S754_finite s p e) = true -> fits (Zpos p) e /\ e <= 971.
Proof.
  unfold f64_valid, valid_binary, bounded. rewrite andb_true_iff, Z.leb_le. intros [H ?].
  split; [by apply fits_canonical|lia].
Qed.

Lemma f64_of_int_valid n : f64_valid (f64_of_int n) = true.
Proof. apply normalize_valid. Qed.

Lemma f64_add_valid x y : f64_valid x = true -> f64_valid y = true -> f64_valid (f64_add x y) = true.
Proof.
  destruct x as [[]|[]| |sx mx ex], y as [[]|[]| |sy my ey]; try done. intros _ _. apply normalize_valid.
Qed.

Lemma f64_sub_valid x y : f64_valid x = true -> f64_valid y = true -> f64_valid (f64_sub x y) = true.
Proof.
  destruct x as [[]|[]| |sx mx ex], y as [[]|[]| |sy my ey]; try done. intros _ _. apply normalize_valid.
Qed.

Lemma product_fits mx ex my ey : fits (Zpos mx) ex -> fits (Zpos my) ey ->
  ex + ey <= fexp 53 1024 (Zdigits2 (Zpos (mx * my)) + (ex + ey)).
Proof.
  intros Hx Hy. rewrite Zdigits2_log2, fexp64_spec, Pos2Z.inj_mul by lia. unfold fits in *.
  pose proof (Z.log2_nonneg (Zpos mx * Zpos my)).
  assert (2 ^ 52 <= Zpos mx * Zpos my -> 52 <= Z.log2 (Zpos mx * Zpos my)) by (intros; apply Z.log2_le_pow2; lia).
  nia.
Qed.

Lemma f64_mul_valid x y : f64_valid x = true -> f64_valid y = true -> f64_valid (f64_mul x y) = true.
Proof.
  destruct x as [[]|[]| |sx mx ex], y as [[]|[]| |sy my ey]; try done.
  intros [Hx _]%valid_bits [Hy _]%valid_bits. apply round_aux_valid; [lia|]. by apply product_fits.
Qed.

Lemma quotient_fits mx ex my ey :
  let '(q, e, l) := SFdiv_core_binary 53 1024 (Zpos mx) ex (Zpos my) ey in
  0 <= q <= Zpos mx * 2 ^ (ex - ey - e) /\ q * Zpos my <= Zpos mx * 2 ^ (ex - ey - e) /\ e <= ex - ey /\
  e <= fexp 53 1024 (Zdigits2 q + e).
Proof.
  unfold SFdiv_core_binary. rewrite !Zdigits2_log2 by lia. rewrite fexp64_spec.
  set (D := Z.log2 (Zpos mx) + 1 + ex - (Z.log2 (Zpos my) + 1 + ey)). set (e := Z.min (Z.max (D - 53) (-1074)) (ex - ey)).
  set (k := ex - ey - e).
  replace (match k with 0 => Zpos mx | Zpos _ => Z.shiftl (Zpos mx) k | Zneg _ => 0 end) with (Zpos mx * 2 ^ k).
  2: { destruct k eqn:E; [lia|by rewrite Z.shiftl_mul_pow2 by lia|lia]. }
  pose proof (Z_div_mod (Zpos mx * 2 ^ k) (Zpos my) ltac:(lia)) as Hdm.
  destruct (Z.div_eucl _ _) as [q r]. destruct Hdm as [Hq Hr]. assert (Hk : 0 <= k) by lia.
  assert (Hq0 : 0 <= q) by nia.
  assert (Hq1 : 1 * q <= Zpos my * q) by (apply Z.mul_le_mono_nonneg_r; lia). fold k. split; [lia|]. split; [lia|]. split; [lia|].
  destruct (decide (e <= -1074)) as [|Hbig]; [rewrite fexp64_spec; lia|].
  pose proof (Z.log2_spec (Zpos mx) ltac:(lia)) as [Hx _]. pose proof (Z.log2_spec (Zpos my) ltac:(lia)) as [_ Hy].
  pose proof (Z.log2_nonneg (Zpos mx)). pose proof (Z.log2_nonneg (Zpos my)).
  assert (Hbits : 2 ^ 52 <= q).
  { apply Z.le_trans with (2 ^ (D - 1 - e)); [apply Z.pow_le_mono_r; lia|].
    apply Z.lt_succ_r. apply (Z.mul_lt_mono_pos_r (Zpos my)); [lia|].
    apply Z.lt_le_trans with (2 ^ (D - 1 - e) * 2 ^ Z.succ (Z.log2 (Zpos my))); [apply Z.mul_lt_mono_pos_l; lia|].
    rewrite <- Z.pow_add_r by lia.
    replace (D - 1 - e + Z.succ (Z.log2 (Zpos my))) with (Z.log2 (Zpos mx) + k) by lia. rewrite Z.pow_add_r by lia. nia. }
  rewrite Zdigits2_log2, fexp64_spec by lia. assert (52 <= Z.log2 q) by (apply Z.log2_le_pow2; lia). lia.
Qed.

Lemma f64_div_valid x y : f64_valid x = true -> f64_valid y = true -> f64_valid (f64_div x y) = true.
Proof.
  destruct x as [[]|[]| |sx mx ex], y as [[]|[]| |sy my ey]; try done.
  intros _ _. unfold f64_div, SFdiv. pose proof (quotient_fits mx ex my ey) as Hq.
  destruct (SFdiv_core_binary _ _ _ _ _ _) as [[q e] l]. apply round_aux_valid; lia.
Qed.

Lemma duration_seconds_valid d : f64_valid (duration_seconds d) = true.
Proof. apply f64_add_valid; [|apply f64_div_valid]; apply f64_of_int_valid. Qed.

#[export] Hint Resolve f64_of_int_valid f64_add_valid f64_sub_valid f64_mul_valid f64_div_valid duration_seconds_valid : go.

(** ** Exact results *)

(** The value of a canonical number in units of the smallest one. *)
Definition scaled (x : spec_float) : Z :=
  match x with
  | S754_finite s m e => cond_Zopp s (Zpos m * 2 ^ (e + 1074))
  | _ => 0
  end.

Lemma shifted_exact m n : 0 <= n -> shifted (m * 2 ^ n) n = {| shr_m := m; shr_r := false; shr_s := false |}.
Proof.
  intros Hn. unfold shifted. rewrite Z.div_mul, Z.mod_mul by lia. f_equal.
  - destruct (Z.leb_spec (2 ^ n) (2 * 0)); [lia|done].
  - destruct (Z.eqb_spec n 0) as [|Hne]; [done|].
    replace (2 ^ n) with (2 * 2 ^ (n - 1)) by (rewrite <- Z.pow_succ_r by lia; f_equal; lia).
    rewrite Z.mul_assoc, Z.mod_mul by lia. done.
Qed.

(** A number of at most 53 significant bits is kept. *)
Lemma round_exact s p e k j :
  Zpos p = k * 2 ^ j -> 0 < k < 2 ^ 53 -> 0 <= j -> -1074 <= e -> e + j <= 971 ->
  exists p' e', binary_round 53 1024 s p e = S754_finite s p' e' /\ Zpos p' * 2 ^ (e' + 1074) = Zpos p * 2 ^ (e + 1074).
Proof.
  intros Hp Hk Hj He Hmax. destruct (round_aligned s p e) as (m & e0 & -> & Hm & He0 & Hme & Hfe).
  assert (Hl : Z.log2 k < 53) by (apply log2_bits; lia). pose proof (Z.log2_nonneg k).
  assert (Hlp : Z.log2 (Zpos p) = Z.log2 k + j) by (rewrite Hp, log2_shift; lia).
  rewrite fexp64_spec, Hlp in He0.
  assert (Hlm : Z.log2 m = Z.log2 k + j + e - e0) by (rewrite Hme, log2_shift, Hlp; lia).
  rewrite Zdigits2_log2, fexp64_spec, Hlm in Hfe by done.
  unfold binary_round_aux, shr_fexp at 1. rewrite Zdigits2_log2, fexp64_spec, Hlm by done.
  set (n := Z.max (Z.log2 k + j + e - e0 + 1 + e0 - 53) (-1074) - e0) in *.
  set (q := k * 2 ^ (j + e - e0 - n)).
  assert (Hmq : m = q * 2 ^ n).
  { subst q. rewrite <- Z.mul_assoc, <- Z.pow_add_r by lia. rewrite Hme, Hp, <- Z.mul_assoc, <- Z.pow_add_r by lia.
    do 2 f_equal. lia. }
  unfold shr_record_of_loc. rewrite shr_exact, Hmq, shifted_exact by lia. cbn [shr_m loc_of_shr_record round_nearest_even].
  assert (Hq : 0 < q) by (subst q; lia).
  assert (Hlq : Z.log2 q = Z.log2 k + (j + e - e0 - n)) by (subst q; apply log2_shift; lia).
  unfold shr_fexp. rewrite Zdigits2_log2, fexp64_spec, Hlq by done.
  assert (Hz : Z.max (Z.log2 k + (j + e - e0 - n) + 1 + (e0 + n) - 53) (-1074) - (e0 + n) = 0) by lia.
  rewrite Hz. cbn [shr shr_record_of_loc shr_m].
  destruct q as [|pq|pq] eqn:Eq; [lia| |lia]. destruct (Z.leb_spec (e0 + n) (1024 - 53)); [|lia].
  exists pq, (e0 + n). split; [done|]. rewrite <- Eq in *.
  transitivity (m * 2 ^ (e0 + 1074)).
  - rewrite Hmq, <- !Z.mul_assoc, <- !Z.pow_add_r by lia. do 2 f_equal. lia.
  - rewrite Hme, <- Z.mul_assoc, <- Z.pow_add_r by lia. do 2 f_equal. lia.
Qed.

Lemma normalize_exact m e k j b :
  m = k * 2 ^ j -> Z.abs k < 2 ^ 53 -> 0 <= j -> -1074 <= e -> e + j <= 971 ->
  scaled (binary_normalize 53 1024 m e b) = m * 2 ^ (e + 1074).
Proof.
  intros Hm Hk Hj He Hmax. destruct m as [|p|p]; [done|..]; cbn [binary_normalize].
  - destruct (round_exact false p e k j) as (p' & e' & -> & E); [done|nia|done..|]. cbn. lia.
  - destruct (round_exact true p e (- k) j) as (p' & e' & -> & E); [lia|nia|done..|]. cbn. lia.
Qed.

Lemma f64_of_int_scaled n : Z.abs n < 2 ^ 53 -> scaled (f64_of_int n) = n * 2 ^ 1074.
Proof. intros Hn. unfold f64_of_int. rewrite (normalize_exact n 0 n 0); lia. Qed.

(** ** Numbers and their order *)

Lemma normalize_number m e k j b :
  m = k * 2 ^ j -> Z.abs k < 2 ^ 53 -> 0 <= j -> -1074 <= e -> e + j <= 971 ->
  is_number (binary_normalize 53 1024 m e b) = true.
Proof.
  intros Hm Hk Hj He Hmax. destruct m as [|p|p]; [done|..]; cbn [binary_normalize].
  - by destruct (round_exact false p e k j) as (p' & e' & -> & E); [done|nia|..].
  - by destruct (round_exact true p e (- k) j) as (p' & e' & -> & E); [lia|nia|..].
Qed.

Lemma f64_of_int_number n : Z.abs n < 2 ^ 53 -> is_number (f64_of_int n) = true.
Proof. intros Hn. apply (normalize_number n 0 n 0); lia. Qed.

(** Canonical mantissas order by exponent first. *)
Lemma compare_finite m1 e1 m2 e2 :
  fits (Zpos m1) e1 -> fits (Zpos m2) e2 ->
  match e1 ?= e2 with Lt => Lt | Gt => Gt | Eq => Pos.compare_cont Eq m1 m2 end =
  (Zpos m1 * 2 ^ (e1 + 1074) ?= Zpos m2 * 2 ^ (e2 + 1074)).
Proof.
  assert (Hlt : forall m1 e1 m2 e2, fits (Zpos m1) e1 -> fits (Zpos m2) e2 -> e1 < e2 ->
    Zpos m1 * 2 ^ (e1 + 1074) < Zpos m2 * 2 ^ (e2 + 1074)).
  { clear. unfold fits. intros m1 e1 m2 e2 H1 H2 He.
    replace (e2 + 1074) with (e1 + 1074 + 1 + (e2 - e1 - 1)) by lia.
    rewrite (Z.pow_add_r 2 (e1 + 1074 + 1)), (Z.pow_add_r 2 (e1 + 1074) 1) by lia.
    pose proof (Z.pow_pos_nonneg 2 (e2 - e1 - 1) ltac:(lia) ltac:(lia)).
    pose proof (Z.pow_pos_nonneg 2 (e1 + 1074) ltac:(lia) ltac:(lia)). change (2 ^ 1) with 2.
    assert (E : 2 ^ 53 = 2 * 2 ^ 52) by done. assert (Hm : Zpos m1 < 2 * Zpos m2) by (destruct H2 as (? & ? & [?|?]); lia).
    clear H1 H2. set (A := 2 ^ (e1 + 1074)) in *. set (B := 2 ^ (e2 - e1 - 1)) in *.
    apply Z.lt_le_trans with (2 * Zpos m2 * A); nia. }
  intros H1 H2. destruct (Z.compare_spec e1 e2) as [->|He|He].
  - change (Pos.compare_cont Eq m1 m2) with (Zpos m1 ?= Zpos m2). apply Zmult_compare_compat_r.
    unfold fits in *. lia.
  - symmetry. by apply Z.compare_lt_iff, Hlt.
  - symmetry. by apply Z.compare_gt_iff, Hlt.
Qed.

Lemma SFcompare_scaled x y :
  f64_valid x = true -> f64_valid y = true -> is_number x = true -> is_number y = true ->
  SFcompare x y = Some (scaled x ?= scaled y).
Proof.
  destruct x as [sx|sx| |sx mx ex], y as [sy|sy| |sy my ey]; try done; intros Hx Hy _ _.
  - apply valid_bits in Hy as [Hy _]. unfold fits in Hy. cbn [scaled SFcompare]. f_equal.
    pose proof (Z.pow_pos_nonneg 2 (ey + 1074)). destruct sy; cbn [cond_Zopp]; symmetry;
      [apply Z.compare_gt_iff|apply Z.compare_lt_iff]; lia.
  - apply valid_bits in Hx as [Hx _]. unfold fits in Hx. cbn [scaled SFcompare]. f_equal.
    pose proof (Z.pow_pos_nonneg 2 (ex + 1074)). destruct sx; cbn [cond_Zopp]; symmetry;
      [apply Z.compare_lt_iff|apply Z.compare_gt_iff]; lia.
  - apply valid_bits in Hx as [Hx _], Hy as [Hy _]. cbn [SFcompare scaled]. f_equal.
    pose proof (Z.pow_pos_nonneg 2 (ex + 1074)). pose proof (Z.pow_pos_nonneg 2 (ey + 1074)). unfold fits in Hx, Hy.
    destruct sx, sy; cbn [cond_Zopp].
    + transitivity (CompOpp (match ex ?= ey with Lt => Lt | Gt => Gt | Eq => Pos.compare_cont Eq mx my end));
        [by destruct (ex ?= ey)|]. rewrite compare_finite, Z.compare_opp by done. symmetry. apply Z.compare_antisym.
    + symmetry. apply Z.compare_lt_iff. lia.
    + symmetry. apply Z.compare_gt_iff. lia.
    + by apply compare_finite.
Qed.

Lemma f64_ge_scaled x y :
  f64_valid x = true -> f64_valid y = true -> is_number x = true -> is_number y = true ->
  f64_ge x y = (scaled y <=? scaled x).
Proof. intros. unfold f64_ge, SFleb. rewrite SFcompare_scaled by done. unfold Z.leb. by destruct (_ ?= _). Qed.

Lemma f64_lt_scaled x y :
  f64_valid x = true -> f64_valid y = true -> is_number x = true -> is_number y = true ->
  f64_lt x y = (scaled x <? scaled y).
Proof. intros. unfold f64_lt, SFltb. rewrite SFcompare_scaled by done. unfold Z.ltb. by destruct (_ ?= _). Qed.

(** Below [2 ^ 53], taking one off a number of at least one is exact. *)
Lemma f64_pred x :
  f64_valid x = true -> is_number x = true -> 2 ^ 1074 <= scaled x < 2 ^ 53 * 2 ^ 1074 ->
  is_number (f64_sub x (f64_of_int 1)) = true /\ scaled (f64_sub x (f64_of_int 1)) = scaled x - 2 ^ 1074.
Proof.
  change (f64_of_int 1) with (S754_finite false 4503599627370496 (-52)).
  destruct x as [sx|sx| |sx m e]; try done; intros Hv _ Hs.
  apply valid_bits in Hv as [Hf _]. unfold fits in Hf. cbn [scaled] in Hs.
  pose proof (Z.pow_pos_nonneg 2 (e + 1074)). destruct sx; cbn [cond_Zopp] in Hs; [lia|].
  assert (He : -52 <= e <= 0).
  { split.
    - destruct (Z.lt_ge_cases e (-52)); [|done]. exfalso.
      assert (2 ^ (e + 1074) <= 2 ^ 1021) by (apply Z.pow_le_mono_r; lia).
      assert (2 ^ 1074 = 2 ^ 53 * 2 ^ 1021) as E by (by rewrite <- Z.pow_add_r). rewrite E in Hs. nia.
    - destruct (Z.lt_ge_cases 0 e); [|done]. exfalso.
      assert (2 ^ 1075 <= 2 ^ (e + 1074)) by (apply Z.pow_le_mono_r; lia).
      assert (2 ^ 53 * 2 ^ 1074 = 2 ^ 52 * 2 ^ 1075) as E by (by rewrite <- !Z.pow_add_r). rewrite E in Hs. nia. }
  cbn [f64_sub SFsub]. unfold f64_sub, SFsub. replace (Z.min e (-52)) with (-52) by lia.
  pose proof (shl_align_value m e (-52)) as H1. destruct (shl_align m e (-52)) as [m1 e1]. destruct H1 as [-> H1].
  change (shl_align 4503599627370496 (-52) (-52)) with (4503599627370496%positive, -52). cbn [fst cond_Zopp].
  replace (Z.min e (-52)) with (-52) in H1 by lia.
  assert (Ed : Zpos m1 - 4503599627370496 = (Zpos m - 2 ^ (- e)) * 2 ^ (e + 52)).
  { rewrite H1, Z.mul_sub_distr_r, <- Z.pow_add_r by lia. replace (- e + (e + 52)) with 52 by lia.
    replace (e - -52) with (e + 52) by lia. done. }
  assert (Hk : Z.abs (Zpos m - 2 ^ (- e)) < 2 ^ 53).
  { assert (0 < 2 ^ (- e) <= 2 ^ 52); [|lia]. split; [apply Z.pow_pos_nonneg; lia|apply Z.pow_le_mono_r; lia]. }
  split; [by apply (normalize_number _ _ _ _ _ Ed); lia|].
  rewrite (normalize_exact _ _ _ _ _ Ed) by lia. cbn [scaled cond_Zopp].
  rewrite H1, Z.mul_sub_distr_r. f_equal.
  rewrite <- Z.mul_assoc, <- Z.pow_add_r by lia. do 2 f_equal. lia.
Qed.

(** ** Amounts: from zero to plus infinity *)

Definition amount (x : spec_float) : Prop :=
  f64_valid x = true /\
  match x with
  | S754_zero _ | S754_infinity false | S754_finite false _ _ => True
  | _ => False
  end.

Lemma amount_scaled x : amount x -> 0 <= scaled x.
Proof.
  intros [Hv Hx]. destruct x as [s|s| |[] m e]; try done. cbn. apply valid_bits in Hv as [Hf _]. unfold fits in Hf. lia.
Qed.

Lemma number_amount x : f64_valid x = true -> is_number x = true -> 0 <= scaled x -> amount x.
Proof.
  intros Hv Hn Hs. split; [done|]. destruct x as [s|s| |[] m e]; try done.
  apply valid_bits in Hv as [Hf _]. unfold fits in Hf. cbn in Hs. pose proof (Z.pow_pos_nonneg 2 (e + 1074)). lia.
Qed.

(** A rounded mantissa that is not too large is a number. *)
Lemma round_aux_small s m e l :
  0 <= m -> e <= fexp 53 1024 (Zdigits2 m + e) < 971 ->
  is_number (binary_round_aux 53 1024 s m e l) = true /\
  Z.abs (scaled (binary_round_aux 53 1024 s m e l)) <= 2 ^ 53 * 2 ^ (fexp 53 1024 (Zdigits2 m + e) + 1074).
Proof.
  intros Hm He. destruct (round_aux_rounded s m e l Hm (proj1 He)) as (R & HR & _ & _ & _ & Hr & _).
  destruct (Hr (or_introl (proj2 He))) as (k & Hk & Hx). clear Hr. set (E := fexp 53 1024 (Zdigits2 m + e)) in *.
  assert (HE : -1074 <= E) by (subst E; rewrite fexp64_spec; lia).
  destruct (binary_round_aux _ _ _ _ _ _) as [s'|s'| |s' p e']; try done.
  - split; [done|]. cbn [scaled Z.abs]. pose proof (Z.pow_pos_nonneg 2 (E + 1074)). lia.
  - split; [done|]. destruct Hx as (-> & Hp & He'). cbn [scaled].
    replace (e' + 1074) with ((e' - E) + (E + 1074)) by lia. rewrite Z.pow_add_r, Z.mul_assoc, Hp by lia.
    pose proof (Z.pow_pos_nonneg 2 (E + 1074)). destruct s; cbn [cond_Zopp]; nia.
Qed.

Lemma round_aux_amount m e l : 0 <= m -> e <= fexp 53 1024 (Zdigits2 m + e) ->
  amount (binary_round_aux 53 1024 false m e l).
Proof.
  intros Hm He. destruct (round_aux_rounded false m e l Hm He) as (R & _ & _ & _ & Hv & _ & Hs).
  split; [done|]. destruct (binary_round_aux _ _ _ _ _ _); try done; by subst.
Qed.

Lemma normalize_amount m e : 0 <= m -> amount (binary_normalize 53 1024 m e false).
Proof.
  intros Hm. destruct m as [|p|p]; [done| |done]. cbn [binary_normalize].
  destruct (round_aligned false p e) as (m & e' & -> & ? & ? & ? & ?). apply round_aux_amount; lia.
Qed.

Lemma amount_of_int n : 0 <= n -> amount (f64_of_int n).
Proof. apply normalize_amount. Qed.

Lemma amount_add x y : amount x -> amount y -> amount (f64_add x y).
Proof.
  destruct x as [[]|[]| |[] mx ex], y as [[]|[]| |[] my ey]; try by intros [? []]. all: try done.
  - by intros ? [].
  - intros _ _. apply normalize_amount. cbn. lia.
Qed.

Lemma amount_mul x y : amount x -> amount y -> is_number x = true -> is_number y = true -> amount (f64_mul x y).
Proof.
  destruct x as [[]|[]| |[] mx ex], y as [[]|[]| |[] my ey]; try by intros [? []]. all: try done.
  - by intros ? [].
  - intros [Hx _] [Hy _] _ _. apply valid_bits in Hx as [Hx _], Hy as [Hy _].
    apply round_aux_amount; [lia|]. by apply product_fits.
Qed.

(** Seconds *)

Lemma of_int_exponent n s m e : 0 < n < 2 ^ 53 -> f64_of_int n = S754_finite s m e -> s = false /\ -52 <= e <= 0 /\ Zpos m < 2 ^ 53.
Proof.
  intros Hn E. pose proof (f64_of_int_valid n) as Hv. pose proof (f64_of_int_scaled n ltac:(lia)) as Hs.
  pose proof (amount_of_int n ltac:(lia)) as [_ Ha]. rewrite E in *. destruct s; [done|]. split; [done|].
  apply valid_bits in Hv as [Hf _]. unfold fits in Hf. cbn [scaled cond_Zopp] in Hs. split; [|lia]. split.
  - destruct (Z.lt_ge_cases e (-52)); [|done]. exfalso.
    assert (2 ^ (e + 1074) <= 2 ^ 1021) by (apply Z.pow_le_mono_r; lia).
    assert (2 ^ 1074 = 2 ^ 53 * 2 ^ 1021) as E' by (by rewrite <- Z.pow_add_r). rewrite E' in Hs. nia.
  - destruct (Z.lt_ge_cases 0 e); [|done]. exfalso.
    assert (2 ^ 1075 <= 2 ^ (e + 1074)) by (apply Z.pow_le_mono_r; lia).
    assert (2 ^ 53 * 2 ^ 1074 = 2 ^ 52 * 2 ^ 1075) as E' by (by rewrite <- !Z.pow_add_r). nia.
Qed.

Lemma int_quotient n k : 0 <= n < 2 ^ 53 -> 0 < k < 2 ^ 53 ->
  amount (f64_div (f64_of_int n) (f64_of_int k)) /\ is_number (f64_div (f64_of_int n) (f64_of_int k)) = true /\
  scaled (f64_div (f64_of_int n) (f64_of_int k)) <= 2 ^ 1300.
Proof.
  intros Hn Hk. pose proof (f64_of_int_number k ltac:(lia)) as Hnk. pose proof (f64_of_int_scaled k ltac:(lia)) as Hsk.
  destruct (f64_of_int k) as [s|s| |sk mk ek] eqn:Ek; try done.
  { change (scaled (S754_zero s)) with 0 in Hsk. lia. }
  apply of_int_exponent in Ek as (-> & Hek & _); [|done].
  destruct (decide (n = 0)) as [->|Hne]; [done|].
  pose proof (f64_of_int_number n ltac:(lia)) as Hnn. pose proof (f64_of_int_scaled n ltac:(lia)) as Hsn.
  destruct (f64_of_int n) as [s|s| |sn mn en] eqn:En; try done.
  apply of_int_exponent in En as (-> & Hen & Hmn); [|lia].
  unfold f64_div, SFdiv. pose proof (quotient_fits mn en mk ek) as Hq.
  destruct (SFdiv_core_binary _ _ _ _ _ _) as [[q e] l]. destruct Hq as (Hq & _ & He & Hfe).
  assert (Hlog : fexp 53 1024 (Zdigits2 q + e) <= 100).
  { destruct (decide (q = 0)) as [->|Hq0]; [cbn [Zdigits2]; rewrite fexp64_spec; lia|].
    rewrite Zdigits2_log2, fexp64_spec by lia.
    assert (Z.log2 q <= Z.log2 (Zpos mn) + (en - ek - e)); [|assert (Z.log2 (Zpos mn) < 53) by (apply log2_bits; lia); lia].
    rewrite <- log2_shift by lia. apply Z.log2_le_mono. lia. }
  change (xorb false false) with false. split; [apply round_aux_amount; lia|].
  destruct (round_aux_small false q e l) as [Hnum Hsc]; [lia|lia|]. split; [done|].
  assert (2 ^ 53 * 2 ^ (fexp 53 1024 (Zdigits2 q + e) + 1074) <= 2 ^ 1300); [|lia].
  rewrite fexp64_spec in *. rewrite <- Z.pow_add_r by lia. apply Z.pow_le_mono_r; lia.
Qed.

(** A sum of numbers of moderate size is a number. *)
Lemma normalize_moderate m e b : -1074 <= e -> Z.abs m * 2 ^ (e + 1074) < 2 ^ 2000 -> is_number (binary_normalize 53 1024 m e b) = true.
Proof.
  intros He Hm.
  assert (Hgo : forall s p, Zpos p * 2 ^ (e + 1074) < 2 ^ 2000 -> is_number (binary_round 53 1024 s p e) = true).
  { clear m Hm. intros s p Hp. destruct (round_aligned s p e) as (m & e' & -> & Hm & He' & Hme & Hfe).
    assert (Hl : Z.log2 (Zpos p) + (e + 1074) < 2000) by (rewrite <- log2_shift by lia; apply log2_bits; lia).
    apply round_aux_small; [lia|]. split; [done|]. rewrite Zdigits2_log2 in * by done.
    rewrite Hme, log2_shift, fexp64_spec by lia. lia. }
  destruct m as [|p|p]; [done|by apply Hgo..].
Qed.

Lemma seconds_amount d : 0 <= d < 2 ^ 63 -> amount (duration_seconds d) /\ is_number (duration_seconds d) = true.
Proof.
  intros Hd. unfold duration_seconds.
  assert (Hq : 0 <= Z.quot d 1000000000 < 2 ^ 53).
  { rewrite Z.quot_div_nonneg by lia. split; [apply Z.div_pos; lia|apply Z.div_lt_upper_bound; lia]. }
  assert (Hr : 0 <= Z.rem d 1000000000 < 1000000000) by (apply Z.rem_bound_pos; lia).
  destruct (int_quotient (Z.rem d 1000000000) 1000000000) as (Ha & Hn & Hs); [lia|lia|].
  split; [apply amount_add; [apply amount_of_int; lia|done]|].
  pose proof (f64_of_int_number (Z.quot d 1000000000) ltac:(lia)) as Hni.
  pose proof (f64_of_int_scaled (Z.quot d 1000000000) ltac:(lia)) as Hsi.
  pose proof (amount_of_int (Z.quot d 1000000000) ltac:(lia)) as Hai.
  destruct (f64_of_int (Z.quot d 1000000000)) as [[]|?| |[] m1 e1], (f64_div _ _) as [[]|?| |[] m2 e2]; try done;
    try (by destruct Ha); try (by destruct Hai).
  unfold f64_add, SFadd. pose proof (shl_align_value m1 e1 (Z.min e1 e2)) as H1. pose proof (shl_align_value m2 e2 (Z.min e1 e2)) as H2.
  destruct (shl_align m1 _ _) as [p1 f1], (shl_align m2 _ _) as [p2 f2]. destruct H1 as [-> H1], H2 as [-> H2]. cbn [fst cond_Zopp].
  destruct Ha as [Hv2 _], Hai as [Hv1 _]. apply valid_bits in Hv1 as [Hf1 _], Hv2 as [Hf2 _]. unfold fits in *.
  apply normalize_moderate; [lia|]. rewrite Z.abs_eq, Z.mul_add_distr_r, H1, H2, <- !Z.mul_assoc, <- !Z.pow_add_r by lia.
  cbn [scaled cond_Zopp] in Hs, Hsi.
  replace (e1 - Z.min e1 (Z.min e1 e2) + (Z.min e1 e2 + 1074)) with (e1 + 1074) by lia.
  replace (e2 - Z.min e2 (Z.min e1 e2) + (Z.min e1 e2 + 1074)) with (e2 + 1074) by lia.
  rewrite Hsi. assert (Z.quot d 1000000000 * 2 ^ 1074 < 2 ^ 1300); [|assert (2 ^ 1300 + 2 ^ 1300 < 2 ^ 2000) by done; lia].
  apply Z.lt_trans with (2 ^ 53 * 2 ^ 1074); [|done]. apply Z.mul_lt_mono_pos_r; [done|lia].
Qed.

(** ** Upper bounds of rounded results *)

Lemma round_aux_upper m e l :
  0 <= m -> e <= fexp 53 1024 (Zdigits2 m + e) -> is_number (binary_round_aux 53 1024 false m e l) = true ->
  exists k, scaled (binary_round_aux 53 1024 false m e l) = k * 2 ^ (fexp 53 1024 (Zdigits2 m + e) + 1074) /\
    (k - 1) * 2 ^ (fexp 53 1024 (Zdigits2 m + e) - e) <= m.
Proof.
  intros Hm He Hn. destruct (round_aux_rounded false m e l Hm He) as (R & HR & _ & HRm & _ & Hr & _).
  destruct (Hr (or_intror Hn)) as (k & Hk & Hx). set (E := fexp 53 1024 (Zdigits2 m + e)) in *.
  assert (HE : -1074 <= E) by (subst E; rewrite fexp64_spec; lia). exists k.
  assert (Hb : (k - 1) * 2 ^ (E - e) <= m).
  { pose proof (Z.pow_pos_nonneg 2 (E - e)). pose proof (Z.mul_div_le m (2 ^ (E - e)) ltac:(lia)). nia. }
  destruct (binary_round_aux _ _ _ _ _ _) as [s'|s'| |s' p e']; try done.
  - by destruct Hx as [_ ->].
  - destruct Hx as (-> & Hp & He'). split; [|done]. cbn [scaled cond_Zopp]. rewrite <- Hp, <- Z.mul_assoc, <- Z.pow_add_r by lia.
    do 2 f_equal. lia.
Qed.

(** The last place of a rounded number, against the number. *)
Lemma ulp_upper m e c : 0 <= m -> 0 < m \/ e <= -1021 -> 0 <= e + c -> 1074 <= c ->
  2 ^ (fexp 53 1024 (Zdigits2 m + e) + c) * 2 ^ 52 <= m * 2 ^ (e + c) + 2 ^ (c - 1074) * 2 ^ 52.
Proof.
  intros Hm Hpos He Hc. pose proof (Z.pow_pos_nonneg 2 (e + c)). rewrite fexp64_spec.
  assert (Hsub : 2 ^ (-1074 + c) * 2 ^ 52 <= m * 2 ^ (e + c) + 2 ^ (c - 1074) * 2 ^ 52).
  { replace (-1074 + c) with (c - 1074) by lia. nia. }
  destruct (decide (m = 0)) as [->|Hne]; [cbn [Zdigits2]; by replace (Z.max _ _) with (-1074) by lia|].
  rewrite Zdigits2_log2 by lia. pose proof (Z.log2_nonneg m). pose proof (Z.log2_spec m ltac:(lia)) as [Hl _].
  destruct (Z.max_spec (Z.log2 m + 1 + e - 53) (-1074)) as [[_ ->]|[Hx ->]]; [done|].
  rewrite <- Z.pow_add_r by lia. replace (Z.log2 m + 1 + e - 53 + c + 52) with (Z.log2 m + (e + c)) by lia.
  rewrite Z.pow_add_r by lia. pose proof (Z.pow_pos_nonneg 2 (c - 1074)). nia.
Qed.

Lemma round_aux_scaled m e l c :
  0 <= m -> 0 < m \/ e <= -1021 -> e <= fexp 53 1024 (Zdigits2 m + e) -> 0 <= e + c -> 1074 <= c ->
  is_number (binary_round_aux 53 1024 false m e l) = true ->
  scaled (binary_round_aux 53 1024 false m e l) * 2 ^ (c - 1074) * 2 ^ 52 <=
  m * 2 ^ (e + c) * (2 ^ 52 + 1) + 2 ^ (c - 1074) * 2 ^ 52.
Proof.
  intros Hm Hpos Hfe He Hc Hn. destruct (round_aux_upper m e l Hm Hfe Hn) as (k & -> & Hk).
  pose proof (ulp_upper m e c Hm Hpos He Hc) as Hu. set (E := fexp 53 1024 (Zdigits2 m + e)) in *.
  assert (HE : -1074 <= E) by (subst E; rewrite fexp64_spec; lia).
  rewrite <- (Z.mul_assoc k), <- Z.pow_add_r by lia. replace (E + 1074 + (c - 1074)) with (E + c) by lia.
  assert (Hk' : (k - 1) * 2 ^ (E + c) <= m * 2 ^ (e + c)).
  { replace (E + c) with ((E - e) + (e + c)) by lia. rewrite Z.pow_add_r, Z.mul_assoc by lia.
    apply Z.mul_le_mono_nonneg_r; [|done]. apply Z.pow_nonneg. lia. }
  lia.
Qed.

Lemma mul_upper x y :
  amount x -> amount y -> is_number x = true -> is_number y = true -> is_number (f64_mul x y) = true ->
  scaled (f64_mul x y) * 2 ^ 1074 * 2 ^ 52 <= scaled x * scaled y * (2 ^ 52 + 1) + 2 ^ 1074 * 2 ^ 52.
Proof.
  destruct x as [sx|sx| |[] mx ex], y as [sy|sy| |[] my ey]; try (by intros [? []]); try (by intros ? [? []]).
  all: try (by intros ? ? ?). all: try (by intros ? ? ? ?).
  all: try (intros; unfold f64_mul, SFmul; cbn [scaled]; rewrite ?Z.mul_0_l, ?Z.mul_0_r; lia).
  intros [Hx _] [Hy _] _ _ Hn. apply valid_bits in Hx as [Hx _], Hy as [Hy _]. pose proof (product_fits mx ex my ey Hx Hy) as Hf.
  unfold fits in *. pose proof (round_aux_scaled (Zpos (mx * my)) (ex + ey) loc_Exact 2148) as Hu.
  change (2148 - 1074) with 1074 in Hu. unfold f64_mul, SFmul in *. change (xorb false false) with false in *.
  apply Z.le_trans with (1 := Hu ltac:(lia) ltac:(lia) Hf ltac:(lia) ltac:(lia) Hn). cbn [scaled cond_Zopp].
  replace (ex + ey + 2148) with ((ex + 1074) + (ey + 1074)) by lia. rewrite Z.pow_add_r, Pos2Z.inj_mul by lia. lia.
Qed.

Lemma normalize_upper m e : 0 <= m -> -1074 <= e -> is_number (binary_normalize 53 1024 m e false) = true ->
  scaled (binary_normalize 53 1024 m e false) * 2 ^ 52 <= m * 2 ^ (e + 1074) * (2 ^ 52 + 1) + 2 ^ 52.
Proof.
  intros Hm He. destruct m as [|p|p]; [done| |done]. cbn [binary_normalize].
  destruct (round_aligned false p e) as (m & e' & -> & Hm' & He' & Hme & Hfe). intros Hn.
  assert (Hlo : -1074 <= e') by (rewrite He', fexp64_spec; lia).
  pose proof (round_aux_scaled m e' loc_Exact 1074 ltac:(lia) ltac:(lia) Hfe ltac:(lia) ltac:(lia) Hn) as Hu.
  replace (1074 - 1074) with 0 in Hu by lia. change (2 ^ 0) with 1 in Hu.
  replace (Zpos p * 2 ^ (e + 1074)) with (m * 2 ^ (e' + 1074)); [lia|].
  rewrite Hme, <- Z.mul_assoc, <- Z.pow_add_r by lia. do 2 f_equal. lia.
Qed.

(** A sum of amounts that are numbers. *)
Lemma amount_finite_sum m1 e1 m2 e2 :
  -1074 <= e1 -> -1074 <= e2 ->
  f64_add (S754_finite false m1 e1) (S754_finite false m2 e2) =
    binary_normalize 53 1024 (Zpos m1 * 2 ^ (e1 - Z.min e1 e2) + Zpos m2 * 2 ^ (e2 - Z.min e1 e2)) (Z.min e1 e2) false /\
  (Zpos m1 * 2 ^ (e1 - Z.min e1 e2) + Zpos m2 * 2 ^ (e2 - Z.min e1 e2)) * 2 ^ (Z.min e1 e2 + 1074) =
    scaled (S754_finite false m1 e1) + scaled (S754_finite false m2 e2).
Proof.
  intros H1 H2. split.
  - unfold f64_add, SFadd. pose proof (shl_align_value m1 e1 (Z.min e1 e2)) as A1. pose proof (shl_align_value m2 e2 (Z.min e1 e2)) as A2.
    destruct (shl_align m1 _ _) as [p1 f1], (shl_align m2 _ _) as [p2 f2]. destruct A1 as [-> A1], A2 as [-> A2]. cbn [fst cond_Zopp].
    replace (Z.min e1 (Z.min e1 e2)) with (Z.min e1 e2) in A1 by lia. replace (Z.min e2 (Z.min e1 e2)) with (Z.min e1 e2) in A2 by lia.
    by rewrite A1, A2.
  - cbn [scaled cond_Zopp]. rewrite Z.mul_add_distr_r, <- !Z.mul_assoc, <- !Z.pow_add_r by lia. do 2 f_equal; f_equal; lia.
Qed.

Lemma add_upper x y :
  amount x -> amount y -> is_number x = true -> is_number y = true ->
  (is_number (f64_add x y) = true ->
   scaled (f64_add x y) * 2 ^ 52 <= (scaled x + scaled y) * (2 ^ 52 + 1) + 2 ^ 52) /\
  (scaled x + scaled y < 2 ^ 2000 -> is_number (f64_add x y) = true).
Proof.
  intros Ha Hb. pose proof (amount_scaled x Ha). pose proof (amount_scaled y Hb). revert Ha Hb.
  destruct x as [[]|[]| |[] m1 e1], y as [[]|[]| |[] m2 e2]; try (by intros [? []]); try (by intros ? [? []]).
  all: try (by intros ? ? ?). all: try (by intros ? ? ? ?).
  all: try (intros _ _ _ _; (split; [intros _|done]); unfold f64_add, SFadd; change (scaled (S754_zero _)) with 0 in *; lia).
  intros [Hx _] [Hy _] _ _. apply valid_bits in Hx as [Hx _], Hy as [Hy _]. unfold fits in *.
  destruct (amount_finite_sum m1 e1 m2 e2) as [-> <-]; [lia..|].
  assert (0 <= Zpos m1 * 2 ^ (e1 - Z.min e1 e2) + Zpos m2 * 2 ^ (e2 - Z.min e1 e2)) by lia.
  split; intros Hn; [apply normalize_upper; [lia|lia|done]|apply normalize_moderate; [lia|]]. rewrite Z.abs_eq by lia. done.
Qed.

(** A product that overflows is large. *)
Lemma mul_overflow x y :
  amount x -> amount y -> is_number x = true -> is_number y = true -> is_number (f64_mul x y) = false ->
  2 ^ 3000 <= scaled x * scaled y.
Proof.
  destruct x as [sx|sx| |[] mx ex], y as [sy|sy| |[] my ey]; try (by intros [? []]); try (by intros ? [? []]).
  all: try (by intros ? ? ?). all: try (by intros ? ? ? ?).
  intros [Hx _] [Hy _] _ _ Hn. apply valid_bits in Hx as [Hx _], Hy as [Hy _]. pose proof (product_fits mx ex my ey Hx Hy) as Hf.
  unfold f64_mul, SFmul in Hn. unfold fits in *. destruct (Z.lt_ge_cases (fexp 53 1024 (Zdigits2 (Zpos (mx * my)) + (ex + ey))) 971) as [Hlt|Hge].
  { destruct (round_aux_small (xorb false false) (Zpos (mx * my)) (ex + ey) loc_Exact) as [Hs _]; [lia|lia|congruence]. }
  rewrite Zdigits2_log2, fexp64_spec in Hge by lia. pose proof (Z.log2_spec (Zpos (mx * my)) ltac:(lia)) as [Hl _].
  pose proof (Z.log2_nonneg (Zpos (mx * my))). cbn [scaled cond_Zopp].
  replace (Zpos mx * 2 ^ (ex + 1074) * (Zpos my * 2 ^ (ey + 1074))) with (Zpos (mx * my) * 2 ^ (ex + ey + 2148)).
  2: { replace (ex + ey + 2148) with ((ex + 1074) + (ey + 1074)) by lia. rewrite Z.pow_add_r, Pos2Z.inj_mul by lia. lia. }
  apply Z.le_trans with (2 ^ Z.log2 (Zpos (mx * my)) * 2 ^ (ex + ey + 2148)).
  - rewrite <- Z.pow_add_r by lia. apply Z.pow_le_mono_r; lia.
  - apply Z.mul_le_mono_nonneg_r; [apply Z.pow_nonneg; lia|done].
Qed.

Lemma int_quotient_upper n k : 0 <= n < 2 ^ 53 -> 0 < k < 2 ^ 53 ->
  scaled (f64_div (f64_of_int n) (f64_of_int k)) * k * 2 ^ 52 <= n * 2 ^ 1074 * (2 ^ 52 + 1) + k * 2 ^ 52.
Proof.
  intros Hn Hk. destruct (int_quotient n k Hn Hk) as (_ & Hnum & _). revert Hnum.
  pose proof (f64_of_int_number k ltac:(lia)) as Hnk. pose proof (f64_of_int_scaled k ltac:(lia)) as Hsk.
  destruct (f64_of_int k) as [s|s| |sk mk ek] eqn:Ek; try done.
  { change (scaled (S754_zero s)) with 0 in Hsk. lia. }
  apply of_int_exponent in Ek as (-> & Hek & _); [|done].
  destruct (decide (n = 0)) as [->|Hne]; [intros _; change (scaled (f64_div _ _)) with 0; lia|].
  pose proof (f64_of_int_number n ltac:(lia)) as Hnn. pose proof (f64_of_int_scaled n ltac:(lia)) as Hsn.
  destruct (f64_of_int n) as [s|s| |sn mn en] eqn:En; try done.
  { change (scaled (S754_zero s)) with 0 in Hsn. lia. }
  apply of_int_exponent in En as (-> & Hen & _); [|lia].
  unfold f64_div, SFdiv. pose proof (quotient_fits mn en mk ek) as Hq.
  assert (Hlo : -1074 <= (SFdiv_core_binary 53 1024 (Zpos mn) en (Zpos mk) ek).1.2).
  { unfold SFdiv_core_binary. set (e := Z.min _ _). destruct (Z.div_eucl _ _). cbn. subst e. rewrite fexp64_spec. lia. }
  destruct (SFdiv_core_binary _ _ _ _ _ _) as [[q e] l]. cbn in Hlo. destruct Hq as (Hq & Hx & He & Hfe). change (xorb false false) with false.
  intros Hnum.
  assert (Hpos : 0 < q \/ e <= -1021).
  { destruct (decide (q = 0)) as [->|]; [right|left; lia]. cbn [Zdigits2] in Hfe. rewrite fexp64_spec in Hfe. lia. }
  pose proof (round_aux_scaled q e l 1074 ltac:(lia) Hpos Hfe ltac:(lia) ltac:(lia) Hnum) as Hu.
  replace (1074 - 1074) with 0 in Hu by lia. change (2 ^ 0) with 1 in Hu. set (S := scaled (binary_round_aux _ _ _ _ _ _)) in *.
  assert (HqY : q * 2 ^ (e + 1074) * k <= n * 2 ^ 1074).
  2: { set (A := q * 2 ^ (e + 1074)) in *. set (N := n * 2 ^ 1074) in *. clearbody A N S.
       apply (Z.mul_le_mono_nonneg_r _ _ k) in Hu; lia. }
  clear Hu. cbn [scaled cond_Zopp] in Hsk, Hsn. apply (Z.mul_le_mono_pos_r _ _ (2 ^ 1074)); [done|].
  rewrite <- (Z.mul_assoc _ k), <- Hsk.
  replace (q * 2 ^ (e + 1074) * (Zpos mk * 2 ^ (ek + 1074))) with (q * Zpos mk * (2 ^ (e + 1074) * 2 ^ (ek + 1074))) by ring.
  rewrite <- Hsn. replace (Zpos mn * 2 ^ (en + 1074) * 2 ^ 1074) with (Zpos mn * 2 ^ (en - ek - e) * (2 ^ (e + 1074) * 2 ^ (ek + 1074))).
  - apply Z.mul_le_mono_nonneg_r; [|done]. apply Z.mul_nonneg_nonneg; apply Z.pow_nonneg; lia.
  - rewrite <- !Z.mul_assoc, <- !Z.pow_add_r by lia. do 2 f_equal. lia.
Qed.

(** The seconds of a duration, from above. *)
Lemma seconds_upper d : 0 < d < 2 ^ 63 ->
  scaled (duration_seconds d) * 1000000000 * 2 ^ 50 <= d * 2 ^ 1074 * (2 ^ 50 + 1).
Proof.
  intros Hd. destruct (seconds_amount d ltac:(lia)) as [_ Hn]. unfold duration_seconds in *.
  assert (Hq : 0 <= Z.quot d 1000000000 < 2 ^ 53).
  { rewrite Z.quot_div_nonneg by lia. split; [apply Z.div_pos; lia|apply Z.div_lt_upper_bound; lia]. }
  assert (Hr : 0 <= Z.rem d 1000000000 < 1000000000) by (apply Z.rem_bound_pos; lia).
  pose proof (Z.quot_rem d 1000000000 ltac:(lia)) as Hqr.
  destruct (int_quotient (Z.rem d 1000000000) 1000000000) as (Ha & Hnd & _); [lia|lia|].
  pose proof (int_quotient_upper (Z.rem d 1000000000) 1000000000 ltac:(lia) ltac:(lia)) as Hu.
  destruct (add_upper _ _ (amount_of_int (Z.quot d 1000000000) ltac:(lia)) Ha
    (f64_of_int_number (Z.quot d 1000000000) ltac:(lia)) Hnd) as [Hs _].
  specialize (Hs Hn). rewrite (f64_of_int_scaled (Z.quot d 1000000000)) in Hs by lia.
  set (S := scaled (f64_add _ _)) in *. set (D := scaled (f64_div _ _)) in *. set (q := Z.quot d 1000000000) in *.
  set (r := Z.rem d 1000000000) in *.
  assert (HW : 2 ^ 1074 = 2 ^ 200 * 2 ^ 874) by (by rewrite <- Z.pow_add_r). set (W := 2 ^ 1074) in *.
  assert (HW' : 2 ^ 150 <= W) by (rewrite HW; apply Z.le_trans with (2 ^ 150 * 1); [lia|apply Z.mul_le_mono_nonneg; lia]).
  assert (HdW : d * W = 1000000000 * (q * W) + r * W) by (rewrite Hqr; ring).
  assert (HdW1 : 1 * W <= d * W) by (apply Z.mul_le_mono_nonneg_r; lia).
  assert (HqW : 0 <= q * W) by (apply Z.mul_nonneg_nonneg; lia). assert (HrW : 0 <= r * W) by (apply Z.mul_nonneg_nonneg; lia).
  clear HW Hqr. set (dW := d * W) in *. set (qW := q * W) in *. set (rW := r * W) in *.
  clearbody W S D dW qW rW. clear -Hs Hu HdW HdW1 HW' HqW HrW. lia.
Qed.

(** ** Lower bounds of rounded results *)

Lemma round_aux_lower m e l :
  0 <= m -> e <= fexp 53 1024 (Zdigits2 m + e) -> is_number (binary_round_aux 53 1024 false m e l) = true ->
  exists k, scaled (binary_round_aux 53 1024 false m e l) = k * 2 ^ (fexp 53 1024 (Zdigits2 m + e) + 1074) /\
    m < (k + 1) * 2 ^ (fexp 53 1024 (Zdigits2 m + e) - e).
Proof.
  intros Hm He Hn. destruct (round_aux_rounded false m e l Hm He) as (R & HR & HRm & _ & _ & Hr & _).
  destruct (Hr (or_intror Hn)) as (k & Hk & Hx). set (E := fexp 53 1024 (Zdigits2 m + e)) in *.
  assert (HE : -1074 <= E) by (subst E; rewrite fexp64_spec; lia). exists k.
  assert (Hb : m < (k + 1) * 2 ^ (E - e)).
  { pose proof (Z.pow_pos_nonneg 2 (E - e)). pose proof (Z.mul_succ_div_gt m (2 ^ (E - e)) ltac:(lia)). nia. }
  destruct (binary_round_aux _ _ _ _ _ _) as [s'|s'| |s' p e']; try done.
  - by destruct Hx as [_ ->].
  - destruct Hx as (-> & Hp & He'). split; [|done]. cbn [scaled cond_Zopp]. rewrite <- Hp, <- Z.mul_assoc, <- Z.pow_add_r by lia.
    do 2 f_equal. lia.
Qed.

Lemma round_aux_scaled_lower m e l c :
  0 <= m -> 0 < m \/ e <= -1021 -> e <= fexp 53 1024 (Zdigits2 m + e) -> 0 <= e + c -> 1074 <= c ->
  is_number (binary_round_aux 53 1024 false m e l) = true ->
  m * 2 ^ (e + c) * (2 ^ 52 - 1) - 2 ^ (c - 1074) * 2 ^ 52 <=
  scaled (binary_round_aux 53 1024 false m e l) * 2 ^ (c - 1074) * 2 ^ 52.
Proof.
  intros Hm Hpos Hfe He Hc Hn. destruct (round_aux_lower m e l Hm Hfe Hn) as (k & -> & Hk).
  pose proof (ulp_upper m e c Hm Hpos He Hc) as Hu. set (E := fexp 53 1024 (Zdigits2 m + e)) in *.
  assert (HE : -1074 <= E) by (subst E; rewrite fexp64_spec; lia).
  replace (k * 2 ^ (E + 1074) * 2 ^ (c - 1074)) with (k * 2 ^ (E + c))
    by (rewrite <- (Z.mul_assoc k), <- Z.pow_add_r by lia; do 2 f_equal; lia).
  assert (Hk' : m * 2 ^ (e + c) <= (k + 1) * 2 ^ (E + c)).
  { replace (E + c) with ((E - e) + (e + c)) by lia. rewrite (Z.pow_add_r 2 (E - e)), Z.mul_assoc by lia.
    apply Z.mul_le_mono_nonneg_r; [|lia]. apply Z.pow_nonneg. lia. }
  lia.
Qed.

Lemma mul_lower x y :
  amount x -> amount y -> is_number x = true -> is_number y = true -> is_number (f64_mul x y) = true ->
  scaled x * scaled y * (2 ^ 52 - 1) - 2 ^ 1074 * 2 ^ 52 <= scaled (f64_mul x y) * 2 ^ 1074 * 2 ^ 52.
Proof.
  destruct x as [sx|sx| |[] mx ex], y as [sy|sy| |[] my ey]; try (by intros [? []]); try (by intros ? [? []]).
  all: try (by intros ? ? ?). all: try (by intros ? ? ? ?).
  all: try (intros; unfold f64_mul, SFmul; cbn [scaled]; rewrite ?Z.mul_0_l, ?Z.mul_0_r; lia).
  intros [Hx _] [Hy _] _ _ Hn. apply valid_bits in Hx as [Hx _], Hy as [Hy _]. pose proof (product_fits mx ex my ey Hx Hy) as Hf.
  unfold fits in *. pose proof (round_aux_scaled_lower (Zpos (mx * my)) (ex + ey) loc_Exact 2148) as Hu.
  change (2148 - 1074) with 1074 in Hu. unfold f64_mul, SFmul in *. change (xorb false false) with false in *.
  apply Z.le_trans with (2 := Hu ltac:(lia) ltac:(lia) Hf ltac:(lia) ltac:(lia) Hn). cbn [scaled cond_Zopp].
  replace (ex + ey + 2148) with ((ex + 1074) + (ey + 1074)) by lia. rewrite (Z.pow_add_r 2 (ex + 1074) (ey + 1074)), Pos2Z.inj_mul by lia. lia.
Qed.

Lemma quotient_lower mx ex my ey :
  let '(q, e, l) := SFdiv_core_binary 53 1024 (Zpos mx) ex (Zpos my) ey in
  Zpos mx * 2 ^ (ex - ey - e) < (q + 1) * Zpos my.
Proof.
  unfold SFdiv_core_binary. set (e := Z.min _ (ex - ey)). set (k := ex - ey - e).
  replace (match k with 0 => Zpos mx | Zpos _ => Z.shiftl (Zpos mx) k | Zneg _ => 0 end) with (Zpos mx * 2 ^ k).
  2: { destruct k eqn:E; [lia|by rewrite Z.shiftl_mul_pow2 by lia|lia]. }
  pose proof (Z_div_mod (Zpos mx * 2 ^ k) (Zpos my) ltac:(lia)) as Hdm.
  destruct (Z.div_eucl _ _) as [q r]. destruct Hdm as [Hq Hr]. fold k. lia.
Qed.

Lemma int_quotient_lower n k : 0 <= n < 2 ^ 53 -> 0 < k < 2 ^ 53 ->
  n * 2 ^ 1074 * (2 ^ 52 - 2) <= scaled (f64_div (f64_of_int n) (f64_of_int k)) * k * 2 ^ 52 + k * 2 ^ 54.
Proof.
  intros Hn Hk. destruct (int_quotient n k Hn Hk) as (_ & Hnum & _). revert Hnum.
  pose proof (f64_of_int_number k ltac:(lia)) as Hnk. pose proof (f64_of_int_scaled k ltac:(lia)) as Hsk.
  destruct (f64_of_int k) as [s|s| |sk mk ek] eqn:Ek; try done.
  { change (scaled (S754_zero s)) with 0 in Hsk. lia. }
  apply of_int_exponent in Ek as (-> & Hek & _); [|done].
  destruct (decide (n = 0)) as [->|Hne]; [intros _; change (scaled (f64_div _ _)) with 0; lia|].
  pose proof (f64_of_int_number n ltac:(lia)) as Hnn. pose proof (f64_of_int_scaled n ltac:(lia)) as Hsn.
  destruct (f64_of_int n) as [s|s| |sn mn en] eqn:En; try done.
  { change (scaled (S754_zero s)) with 0 in Hsn. lia. }
  apply of_int_exponent in En as (-> & Hen & _); [|lia].
  unfold f64_div, SFdiv. pose proof (quotient_fits mn en mk ek) as Hq. pose proof (quotient_lower mn en mk ek) as Hql.
  assert (Hlo : -1074 <= (SFdiv_core_binary 53 1024 (Zpos mn) en (Zpos mk) ek).1.2).
  { unfold SFdiv_core_binary. set (e := Z.min _ _). destruct (Z.div_eucl _ _). cbn. subst e. rewrite fexp64_spec. lia. }
  destruct (SFdiv_core_binary _ _ _ _ _ _) as [[q e] l]. cbn in Hlo. destruct Hq as (Hq & Hx & He & Hfe). change (xorb false false) with false.
  intros Hnum.
  assert (Hpos : 0 < q \/ e <= -1021).
  { destruct (decide (q = 0)) as [->|]; [right|left; lia]. cbn [Zdigits2] in Hfe. rewrite fexp64_spec in Hfe. lia. }
  pose proof (round_aux_scaled_lower q e l 1074 ltac:(lia) Hpos Hfe ltac:(lia) ltac:(lia) Hnum) as Hu.
  pose proof (ulp_upper q e 1074 ltac:(lia) Hpos ltac:(lia) ltac:(lia)) as Hulp.
  assert (Hunit : 2 ^ (e + 1074) <= 2 ^ (fexp 53 1024 (Zdigits2 q + e) + 1074)) by (apply Z.pow_le_mono_r; lia).
  replace (1074 - 1074) with 0 in Hu, Hulp by lia. change (2 ^ 0) with 1 in Hu, Hulp. set (S := scaled (binary_round_aux _ _ _ _ _ _)) in *.
  assert (HqY : n * 2 ^ 1074 <= (q + 1) * 2 ^ (e + 1074) * k).
  2: { pose proof (Z.pow_nonneg 2 (e + 1074) ltac:(lia)) as HU. rewrite Z.mul_add_distr_r, Z.mul_1_l in HqY.
       set (A := q * 2 ^ (e + 1074)) in *. set (N := n * 2 ^ 1074) in *. set (U := 2 ^ (e + 1074)) in *.
       set (V := 2 ^ (fexp _ _ _ + 1074)) in *. clearbody A N S U V.
       assert (HA : (A + U) * (2 ^ 52 - 2) <= S * 2 ^ 52 + 2 ^ 54) by lia.
       apply (Z.mul_le_mono_nonneg_r _ _ k) in HA; lia. }
  clear Hu Hulp Hunit. cbn [scaled cond_Zopp] in Hsk, Hsn. apply (Z.mul_le_mono_pos_r _ _ (2 ^ 1074)); [done|].
  rewrite <- (Z.mul_assoc _ k), <- Hsk.
  replace ((q + 1) * 2 ^ (e + 1074) * (Zpos mk * 2 ^ (ek + 1074))) with ((q + 1) * Zpos mk * (2 ^ (e + 1074) * 2 ^ (ek + 1074))) by ring.
  rewrite <- Hsn. replace (Zpos mn * 2 ^ (en + 1074) * 2 ^ 1074) with (Zpos mn * 2 ^ (en - ek - e) * (2 ^ (e + 1074) * 2 ^ (ek + 1074))).
  - apply Z.mul_le_mono_nonneg_r; [|lia]. apply Z.mul_nonneg_nonneg; apply Z.pow_nonneg; lia.
  - rewrite <- !Z.mul_assoc, <- !Z.pow_add_r by lia. do 2 f_equal. lia.
Qed.

(** The integral part of a duration in seconds times a rate: the exact quotient,
    except that an integral number of units may lose its last one. *)
Lemma trunc_scaled x : amount x -> is_number x = true -> f64_trunc x = Some (scaled x / 2 ^ 1074).
Proof.
  destruct x as [s|s| |[] m e]; [done|done|done|by intros [? []]|].
  intros [Hv _] _. apply valid_bits in Hv as [Hf _]. unfold fits in Hf. cbn [f64_trunc scaled cond_Zopp]. f_equal.
  destruct (Z.lt_ge_cases e 0).
  - rewrite Z.shiftl_div_pow2 by lia.
    replace (2 ^ 1074) with (2 ^ (- e) * 2 ^ (e + 1074)) by (rewrite <- Z.pow_add_r by lia; f_equal; lia).
    by rewrite Z.div_mul_cancel_r by lia.
  - rewrite Z.shiftl_mul_pow2, Z.pow_add_r, Z.mul_assoc, Z.div_mul by lia. done.
Qed.

Lemma seconds_rate d r : 0 < d < 1000000000 -> 0 < r < 2 ^ 53 -> d * r < 2 ^ 49 ->
  exists n, f64_trunc (f64_mul (duration_seconds d) (f64_of_int r)) = Some n /\
    (d * r - 1) / 1000000000 <= n <= d * r / 1000000000.
Proof.
  intros Hd Hr Hdr.
  assert (duration_seconds d = f64_div (f64_of_int d) (f64_of_int 1000000000)) as ->.
  { unfold duration_seconds. rewrite Z.quot_small, Z.rem_small by lia.
    pose proof (f64_div_nonneg _ _ (f64_of_int_nonneg d ltac:(lia)) (f64_of_int_nonneg 1000000000 ltac:(lia))) as Hp.
    by destruct (f64_div _ _) as [[]|[]| |[] m e]. }
  destruct (int_quotient d 1000000000 ltac:(lia) ltac:(lia)) as (Ha & Hn & Hs).
  pose proof (int_quotient_lower d 1000000000 ltac:(lia) ltac:(lia)) as Hl.
  pose proof (int_quotient_upper d 1000000000 ltac:(lia) ltac:(lia)) as Hu.
  set (x := f64_div _ _) in *. clearbody x.
  pose proof (amount_of_int r ltac:(lia)) as Har. pose proof (f64_of_int_number r ltac:(lia)) as Hnr.
  pose proof (f64_of_int_scaled r ltac:(lia)) as Hsr. set (y := f64_of_int r) in *. clearbody y.
  assert (Hnm : is_number (f64_mul x y) = true).
  { destruct (is_number (f64_mul x y)) eqn:E; [done|]. exfalso.
    pose proof (mul_overflow x y Ha Har Hn Hnr E) as Ho. rewrite Hsr in Ho.
    assert (scaled x * (r * 2 ^ 1074) <= 2 ^ 1300 * (2 ^ 53 * 2 ^ 1074)).
    { apply Z.mul_le_mono_nonneg; [by apply amount_scaled|done|apply Z.mul_nonneg_nonneg; lia|]. apply Z.mul_le_mono_nonneg_r; lia. }
    assert (2 ^ 1300 * (2 ^ 53 * 2 ^ 1074) < 2 ^ 3000) by done. lia. }
  rewrite (trunc_scaled (f64_mul x y)) by (done || by apply amount_mul). eexists. split; [done|].
  pose proof (mul_lower x y Ha Har Hn Hnr Hnm) as Hml. pose proof (mul_upper x y Ha Har Hn Hnr Hnm) as Hmu.
  rewrite Hsr in Hml, Hmu. set (S := scaled (f64_mul x y)) in *. set (X := scaled x) in *. clearbody S X.
  assert (HW' : 2 ^ 200 <= 2 ^ 1074) by done. set (W := 2 ^ 1074) in *. clearbody W.
  assert (H0 : 0 < W) by lia.
  assert (L : X * r * (2 ^ 52 - 1) - 2 ^ 52 <= S * 2 ^ 52).
  { apply (Z.mul_le_mono_pos_r _ _ W); [done|]. lia. }
  assert (U : S * 2 ^ 52 <= X * r * (2 ^ 52 + 1) + 2 ^ 52).
  { apply (Z.mul_le_mono_pos_r _ _ W); [done|]. lia. }
  clear Hml Hmu Hsr. 
  apply (Z.mul_le_mono_nonneg_r _ _ r) in Hl; [|lia]. apply (Z.mul_le_mono_nonneg_r _ _ r) in Hu; [|lia].
  set (Xr := X * r) in *. set (G := 1000000000) in *.
  assert (E1 : d * W * (2 ^ 52 - 2) * r = (d * r * W) * (2 ^ 52 - 2)) by ring.
  assert (E2 : (d * W * (2 ^ 52 + 1) + G * 2 ^ 52) * r = (d * r * W) * (2 ^ 52 + 1) + G * 2 ^ 52 * r) by ring.
  assert (E3 : (X * G * 2 ^ 52 + G * 2 ^ 54) * r = Xr * G * 2 ^ 52 + G * 2 ^ 54 * r) by (subst Xr; ring).
  assert (E4 : X * G * 2 ^ 52 * r = Xr * G * 2 ^ 52) by (subst Xr; ring).
  rewrite E1, E3 in Hl. rewrite E2, E4 in Hu. clear E1 E2 E3 E4.
  set (D := d * r) in *. set (DW := D * W) in *.
  assert (HD : 0 < D) by (subst D; lia).
  assert (HDW : DW <= 2 ^ 49 * W) by (subst DW; apply Z.mul_le_mono_nonneg_r; lia).
  assert (HDW0 : W <= DW) by (subst DW; nia).
  assert (Hlow : (D - 1) * W < S * G) by (subst G DW; rewrite Z.mul_sub_distr_r; set (DW := D * W) in *; clearbody DW Xr D; lia).
  assert (Hupp : S * G < (D + 1) * W) by (subst G DW; rewrite Z.mul_add_distr_r; set (DW := D * W) in *; clearbody DW Xr D; lia).
  clear -Hlow Hupp H0 HD. subst G.
  pose proof (Z.mul_div_le S W H0). pose proof (Z.mul_succ_div_gt S W H0). split.
  - apply Z.lt_succ_r. apply Z.div_lt_upper_bound; [lia|]. nia.
  - apply Z.div_le_lower_bound; [lia|]. nia.
Qed.
