(* ===== verification/Net.v ===== *)
(** * Go's package net

    Addresses, prefixes and host-port pairs as the program uses them:
    [net.ParseIP], [net.ParseCIDR], [IPNet.Contains], the address classes,
    [IP.String], [net.SplitHostPort] and [net.JoinHostPort].  An address is its
    list of bytes, four or sixteen; an IPv4 address parses into its sixteen byte
    form, as in Go. *)

From S2P Require Import Prelude GoStrings GoText.
From Stdlib Require Import Ascii String.
#[local] Open Scope string_scope.
#[local] Open Scope list_scope.
#[local] Open Scope Z_scope.

Definition IP := list Z.

Definition v4InV6Prefix : IP := replicate 10 0 ++ [255; 255].
Definition ipv6_zero : IP := replicate 16 0.
Definition ipv6_loopback : IP := replicate 15 0 ++ [1].

(** ** Parsing *)

(** The dotted decimal fields: [done] holds the complete ones, last first; the
    current one has [len] digits of value [val]. *)
Fixpoint ipv4_fields (s : string) (done : list Z) (len val : Z) : option IP :=
  match s with
  | EmptyString => if (List.length done =? 3)%nat && (0 <? len) then Some (reverse (val :: done)) else None
  | String c s =>
    match digit c with
    | Some d =>
      if (len =? 1) && (val =? 0) then None
      else if 255 <? val * 10 + d then None
      else ipv4_fields s done (len + 1) (val * 10 + d)
    | None =>
      if (byte_of c =? 46) && (0 <? len) && (List.length done <? 3)%nat
      then ipv4_fields s (val :: done) 0 0
      else None
    end
  end.

(** The hexadecimal digits at the front of [s]: their number, their value and the
    rest. *)
Fixpoint hex_run (acc : Z) (s : string) : nat * Z * string :=
  match s with
  | EmptyString => (0%nat, acc, "")
  | String c s' => match hex_digit c with
                   | Some d => let '(n, v, r) := hex_run (16 * acc + d) s' in (S n, v, r)
                   | None => (0%nat, acc, s)
                   end
  end.

(** The address of the bytes read and the place of the double colon in them. *)
Definition expand_ellipsis (ip : list Z) (ellipsis : option nat) : option IP :=
  let n := (16 - List.length ip)%nat in
  match n, ellipsis with
  | O, None => Some ip
  | S _, Some p => Some (take p ip ++ replicate n 0 ++ drop p ip)
  | _, _ => None
  end.

(** The groups after the bytes [ip]; sixteen bytes are eight groups. *)
Fixpoint ipv6_groups (fuel : nat) (s : string) (ip : list Z) (ellipsis : option nat) : option IP :=
  match fuel with
  | O => if String.eqb s "" then expand_ellipsis ip ellipsis else None
  | S fuel =>
    let '(off, acc, rest) := hex_run 0 s in
    if (off =? 0)%nat || (4 <? off)%nat then None else
    if has_prefix rest "." then
      if match ellipsis with None => negb (List.length ip =? 12)%nat | Some _ => false end then None
      else if (16 <? List.length ip + 4)%nat then None
      else v4 ← ipv4_fields s [] 0 0; expand_ellipsis (ip ++ v4) ellipsis
    else
      let ip := ip ++ [Z.shiftr acc 8; Z.land acc 255] in
      match rest with
      | EmptyString => expand_ellipsis ip ellipsis
      | String c s1 =>
        if negb (byte_of c =? 58) then None else
        match s1 with
        | EmptyString => None
        | String d s2 =>
          if byte_of d =? 58 then
            match ellipsis with
            | Some _ => None
            | None => if String.eqb s2 "" then expand_ellipsis ip (Some (List.length ip))
                      else ipv6_groups fuel s2 ip (Some (List.length ip))
            end
          else ipv6_groups fuel s1 ip ellipsis
        end
      end
  end.

Definition parse_ipv6 (s : string) : option IP :=
  if contains s "%" then None else
  if has_prefix s "::" then
    let s := drop_string 2 s in
    if String.eqb s "" then Some ipv6_zero else ipv6_groups 8 s [] (Some 0%nat)
  else ipv6_groups 8 s [] None.

(** The first dot, colon or percent sign tells what kind of address it is. *)
Fixpoint ip_kind (s : string) : option bool :=
  match s with
  | EmptyString => None
  | String c s => if byte_of c =? 46 then Some true
                  else if byte_of c =? 58 then Some false
                  else if byte_of c =? 37 then None
                  else ip_kind s
  end.

(** [netip.ParseAddr] without zones: whether the text is an IPv4 address, and the
    sixteen bytes. *)
Definition parse_addr (s : string) : option (bool * IP) :=
  match ip_kind s with
  | Some true => v4 ← ipv4_fields s [] 0 0; Some (true, v4InV6Prefix ++ v4)
  | Some false => v6 ← parse_ipv6 s; Some (false, v6)
  | None => None
  end.

(** [net.ParseIP]. *)
Definition parse_ip (s : string) : option IP := snd <$> parse_addr s.

Definition valid_ip (s : string) : bool := match parse_ip s with Some _ => true | None => false end.

(** ** Prefixes *)

Definition to4 (ip : IP) : option IP :=
  if (List.length ip =? 4)%nat then Some ip
  else if (List.length ip =? 16)%nat && bool_decide (take 12 ip = v4InV6Prefix) then Some (drop 12 ip)
  else None.

(** [net.CIDRMask]: [ones] one bits in [bytes] bytes. *)
Fixpoint cidr_mask (ones : Z) (bytes : nat) : list Z :=
  match bytes with
  | O => []
  | S bytes => if 8 <=? ones then 255 :: cidr_mask (ones - 8) bytes
               else (255 - (2 ^ (8 - ones) - 1)) :: cidr_mask 0 bytes
  end.

Record IPNet := mkIPNet { net_IP : IP; net_Mask : list Z }.

Definition masked (ip mask : list Z) : IP := zip_with Z.land ip mask.

(** [net.ParseCIDR], the network. *)
Definition parse_cidr (s : string) : option IPNet :=
  n ← GoStrings.index s "/";
  '(v4, ip) ← parse_addr (take_string n s);
  ones ← unsigned (drop_string (S n) s);
  let bytes := if v4 : bool then 4%nat else 16%nat in
  if Z.of_nat (8 * bytes) <? ones then None else
  let mask := cidr_mask ones bytes in
  Some (mkIPNet (masked (if v4 then drop 12 ip else ip) mask) mask).

(** [IPNet.Contains]: both sides in their four byte form where they have one. *)
Definition net_contains (n : IPNet) (ip : IP) : bool :=
  let number := default (net_IP n) (to4 (net_IP n)) in
  let mask := if (List.length number =? 4)%nat && (List.length (net_Mask n) =? 16)%nat
              then drop 12 (net_Mask n) else net_Mask n in
  let ip := default ip (to4 ip) in
  (List.length number =? List.length mask)%nat && (List.length ip =? List.length number)%nat &&
  bool_decide (masked number mask = masked ip mask).

(** ** Address classes *)

Definition ip_equal (a b : IP) : bool := bool_decide (default a (to4 a) = default b (to4 b)).

Definition byte_at (ip : IP) (i : nat) : Z := nth i ip 0.

Definition is_v6 (ip : IP) : bool := (List.length ip =? 16)%nat.

Definition is_loopback (ip : IP) : bool :=
  match to4 ip with
  | Some v4 => byte_at v4 0 =? 127
  | None => ip_equal ip ipv6_loopback
  end.

Definition is_private (ip : IP) : bool :=
  match to4 ip with
  | Some v4 => (byte_at v4 0 =? 10) || ((byte_at v4 0 =? 172) && (Z.land (byte_at v4 1) 240 =? 16)) ||
               ((byte_at v4 0 =? 192) && (byte_at v4 1 =? 168))
  | None => is_v6 ip && (Z.land (byte_at ip 0) 254 =? 252)
  end.

Definition is_link_local_unicast (ip : IP) : bool :=
  match to4 ip with
  | Some v4 => (byte_at v4 0 =? 169) && (byte_at v4 1 =? 254)
  | None => is_v6 ip && (byte_at ip 0 =? 254) && (Z.land (byte_at ip 1) 192 =? 128)
  end.

Definition is_link_local_multicast (ip : IP) : bool :=
  match to4 ip with
  | Some v4 => (byte_at v4 0 =? 224) && (byte_at v4 1 =? 0) && (byte_at v4 2 =? 0)
  | None => is_v6 ip && (byte_at ip 0 =? 255) && (Z.land (byte_at ip 1) 15 =? 2)
  end.

Definition is_unspecified (ip : IP) : bool :=
  ip_equal ip (v4InV6Prefix ++ [0; 0; 0; 0]) || ip_equal ip ipv6_zero.

(** ** Printing *)

Definition hex_char (n : Z) : ascii := ascii_of_N (Z.to_N (if n <? 10 then 48 + n else 87 + n)).

(** A number below [2 ^ 16] in hexadecimal without leading zeros. *)
Definition hex_group (n : Z) : string :=
  let d k := String (hex_char (Z.land (Z.shiftr n k) 15)) "" in
  (if n <? 4096 then "" else d 12) +:+ (if n <? 256 then "" else d 8) +:+
  (if n <? 16 then "" else d 4) +:+ d 0.

Fixpoint groups (ip : IP) : list Z :=
  match ip with
  | a :: b :: ip => (256 * a + b) :: groups ip
  | _ => []
  end.

Fixpoint zero_run (l : list Z) : nat :=
  match l with
  | n :: l => if n =? 0 then S (zero_run l) else 0%nat
  | [] => 0%nat
  end.

(** The first of the longest runs of at least two zero groups: its place and its
    length. *)
Fixpoint longest_run (i : nat) (l : list Z) (best : nat * nat) : nat * nat :=
  match l with
  | [] => best
  | _ :: l' => let n := zero_run l in
               longest_run (S i) l' (if (1 <? n)%nat && (best.2 <? n)%nat then (i, n) else best)
  end.

Definition ipv6_text (ip : IP) : string :=
  let l := map hex_group (groups ip) in
  match longest_run 0 (groups ip) (0%nat, 0%nat) with
  | (_, O) => join ":" l
  | (i, n) => join ":" (take i l) +:+ "::" +:+ join ":" (drop (i + n) l)
  end.

(** [IP.String]; the text of bytes that are no address is not used. *)
Definition ip_text (ip : IP) : string :=
  match to4 ip with
  | Some v4 => join "." (map itoa v4)
  | None => if is_v6 ip then ipv6_text ip else ""
  end.

(** An address as text in its canonical form. *)
Definition parse_ip_text (s : string) : option string := ip_text <$> parse_ip s.

(** ** Host and port *)

(** [strings.LastIndexByte]. *)
Fixpoint last_index (c : ascii) (s : string) : option nat :=
  match s with
  | EmptyString => None
  | String d s => match last_index c s with
                  | Some n => Some (S n)
                  | None => if Ascii.eqb d c then Some 0%nat else None
                  end
  end.

(** [net.SplitHostPort]: host and port. *)
Definition split_host_port (s : string) : option (string * string) :=
  i ← last_index ":" s;
  let has c t := match GoStrings.index t (String c "") with Some _ => true | None => false end in
  '(host, j, k) ←
    (if has_prefix s "[" then
       e ← GoStrings.index s "]";
       if (S e =? i)%nat then Some (take_string (e - 1) (drop_string 1 s), 1%nat, S e) else None
     else
       let host := take_string i s in
       if has ":"%char host then None else Some (host, 0%nat, 0%nat));
  if has "["%char (drop_string j s) || has "]"%char (drop_string k s) then None
  else Some (host, drop_string (S i) s).

(** [net.JoinHostPort]. *)
Definition join_host_port (host port : string) : string :=
  if contains host ":" then "[" +:+ host +:+ "]:" +:+ port else host +:+ ":" +:+ port.

(** ** Examples *)

Example parse_ip_examples :
  map valid_ip ["192.0.2.1"; "::1"; "2001:db8::7"; "::ffff:192.0.2.1"; "1:2:3:4:5:6:7:8"; "::"; "1::"] =
    [true; true; true; true; true; true; true] /\
  map valid_ip ["192.0.2"; "256.1.1.1"; "01.2.3.4"; "1:2:3:4:5:6:7"; "1::2::3"; "fe80::1%eth0";
                "1:2:3:4:5:6:7:8:9"; "1:2:3:4:5:6:7::8"; "example.com"; "1.2.3.4."; ""] =
    replicate 11 false.
Proof. split; reflexivity. Qed.

Example print_ip_examples :
  map (fun s => ip_text <$> parse_ip s)
      ["192.0.2.1"; "::ffff:192.0.2.1"; "2001:DB8:0:0:1:0:0:1"; "::"; "1::"; "fe80:0:0:1::"; "1:0:3:4:5:6:7:8"] =
  map Some ["192.0.2.1"; "192.0.2.1"; "2001:db8::1:0:0:1"; "::"; "1::"; "fe80:0:0:1::"; "1:0:3:4:5:6:7:8"].
Proof. vm_compute. reflexivity. Qed.

Example contains_examples :
  let inside c a := n ← parse_cidr c; ip ← parse_ip a; Some (net_contains n ip) in
  inside "10.0.0.0/8" "10.255.1.2" = Some true /\ inside "10.0.0.0/8" "11.0.0.1" = Some false /\
  inside "192.168.1.77/25" "::ffff:192.168.1.1" = Some true /\ inside "::/0" "10.0.0.1" = Some false /\
  inside "2001:db8::/33" "2001:db8:7fff::1" = Some true /\ inside "2001:db8::/33" "2001:db8:8000::1" = Some false /\
  parse_cidr "10.0.0.0/33" = None /\ parse_cidr "10.0.0.0" = None.
Proof. vm_compute. repeat split. Qed.

Example host_port_examples :
  map split_host_port ["192.0.2.1:5060"; "[::1]:80"; "::1:80"; "[::1]"; "host"; ":1"; "[a]b:1"; "[[a]:1"] =
    [Some ("192.0.2.1", "5060"); Some ("::1", "80"); None; None; None; Some ("", "1"); None; None] /\
  join_host_port "::1" "80" = "[::1]:80" /\ join_host_port "192.0.2.1" "80" = "192.0.2.1:80".
Proof. vm_compute. repeat split. Qed.

(** ** What a parsed address is *)

Definition byte_value (b : Z) : Prop := 0 <= b < 256.

(** The bytes of an address: four or sixteen. *)
Definition well_formed_ip (ip : IP) : Prop :=
  Forall byte_value ip /\ (List.length ip = 4%nat \/ List.length ip = 16%nat).

Lemma digit_bound c d : digit c = Some d -> 0 <= d <= 9.
Proof. unfold digit. intros. case_match; simplify_eq; lia. Qed.

Lemma ipv4_fields_wf s done len val ip :
  ipv4_fields s done len val = Some ip -> Forall byte_value done -> byte_value val ->
  Forall byte_value ip /\ List.length ip = 4%nat.
Proof.
  revert done len val. induction s as [|c s IH]; intros done len val Hip Hd Hv; simpl in Hip.
  - case_match eqn:E; [|done]. apply andb_prop in E as [E _]. apply Nat.eqb_eq in E. simplify_eq.
    rewrite length_reverse. simpl. split; [|lia]. apply Forall_reverse. by constructor.
  - destruct (digit c) as [d|] eqn:Ed.
    + apply digit_bound in Ed. do 2 (case_match; [done|]). eapply IH; [done..|]. unfold byte_value in *. lia.
    + case_match; [|done]. eapply IH; [done|by constructor|]. unfold byte_value. lia.
Qed.

Lemma hex_run_bound s acc n v r :
  hex_run acc s = (n, v, r) -> 0 <= acc -> 0 <= v < 16 ^ Z.of_nat n * (acc + 1).
Proof.
  revert acc n v r. induction s as [|c s IH]; intros acc n v r Hr Ha; simpl in Hr; [simplify_eq; lia|].
  destruct (hex_digit c) as [d|] eqn:Ed; [|simplify_eq; lia].
  destruct (hex_run (16 * acc + d) s) as [[n' v'] r'] eqn:E. simplify_eq.
  assert (0 <= d < 16) by (unfold hex_digit in Ed; repeat case_match; simplify_eq; lia).
  apply IH in E; [|lia]. rewrite Nat2Z.inj_succ, Z.pow_succ_r by lia. nia.
Qed.

Lemma expand_ellipsis_wf ip e r :
  expand_ellipsis ip e = Some r -> Forall byte_value ip -> (List.length ip <= 16)%nat ->
  Forall byte_value r /\ List.length r = 16%nat.
Proof.
  unfold expand_ellipsis. intros Hr Hip Hl. destruct (16 - List.length ip)%nat as [|n] eqn:E, e as [p|]; simplify_eq.
  - split; [done|lia].
  - split.
    + apply Forall_app_2; [by apply Forall_take|].
      apply (Forall_app_2 _ (replicate (S n) 0)); [|by apply Forall_drop].
      apply Forall_replicate. unfold byte_value. lia.
    + change (List.length (take p ip ++ replicate (S n) 0 ++ drop p ip) = 16%nat).
      rewrite !length_app, length_replicate.
      pose proof (f_equal List.length (take_drop p ip)) as Ht. rewrite length_app in Ht. lia.
Qed.

Lemma ipv6_groups_wf fuel s ip e r :
  ipv6_groups fuel s ip e = Some r -> Forall byte_value ip -> (List.length ip + 2 * fuel <= 16)%nat ->
  Forall byte_value r /\ List.length r = 16%nat.
Proof.
  revert s ip e. induction fuel as [|fuel IH]; intros s ip e Hr Hip Hl; simpl in Hr.
  - case_match; [|done]. eapply expand_ellipsis_wf; [done..|lia].
  - destruct (hex_run 0 s) as [[off acc] rest] eqn:Eh.
    destruct ((off =? 0)%nat || (4 <? off)%nat) eqn:Eo; [done|].
    apply orb_false_elim in Eo as [_ Eo]. apply Nat.ltb_ge in Eo. apply hex_run_bound in Eh; [|lia].
    assert (0 <= acc < 65536).
    { split; [lia|]. pose proof (Z.pow_le_mono_r 16 (Z.of_nat off) 4). lia. }
    assert (Hg : Forall byte_value (ip ++ [Z.shiftr acc 8; Z.land acc 255])).
    { apply Forall_app_2; [done|]. rewrite Z.shiftr_div_pow2 by lia.
      change 255 with (Z.ones 8). rewrite Z.land_ones by lia. repeat constructor; unfold byte_value;
      first [apply Z.mod_pos_bound; lia | apply Z.div_pos; lia | apply Z.div_lt_upper_bound; lia]. }
    assert (Hn : (List.length (ip ++ [Z.shiftr acc 8; Z.land acc 255]) = List.length ip + 2)%nat) by (rewrite length_app; done).
    destruct (has_prefix rest ".").
    + destruct (match e with None => _ | Some _ => _ end); [done|].
      destruct (Nat.ltb_spec 16 (List.length ip + 4)); [done|].
      destruct (ipv4_fields s [] 0 0) as [v4|] eqn:E4; [|done]. simpl in Hr.
      apply ipv4_fields_wf in E4 as [E4 Hv]; [|done|unfold byte_value; lia].
      eapply expand_ellipsis_wf; [done|by apply Forall_app_2|rewrite length_app; lia].
    + destruct rest as [|c s1]; [eapply expand_ellipsis_wf; [done..|lia]|].
      destruct (negb _); [done|]. destruct s1 as [|d s2]; [done|]. destruct (byte_of d =? 58).
      * destruct e; [done|]. case_match; [eapply expand_ellipsis_wf; [done..|lia]|eapply IH; [done..|lia]].
      * eapply IH; [done..|lia].
Qed.

(** A parsed address is one of sixteen bytes. *)
Lemma parse_ip_wf s ip : parse_ip s = Some ip -> well_formed_ip ip.
Proof.
  unfold parse_ip, parse_addr, parse_ipv6. intros Hip.
  enough (Forall byte_value ip /\ List.length ip = 16%nat) as [Hb Hl] by (split; [done|by right]).
  destruct (ip_kind s) as [[]|]; [| |done].
  - destruct (ipv4_fields s [] 0 0) as [v4|] eqn:E; [|done]. simpl in Hip.
    apply ipv4_fields_wf in E as [E Hv]; [|done|unfold byte_value; lia]. simplify_eq. split.
    + apply (Forall_app_2 _ v4InV6Prefix); [|done]. repeat constructor; lia.
    + change (12 + List.length v4 = 16)%nat. lia.
  - destruct (contains s "%"); [done|]. destruct (has_prefix s "::").
    + destruct (String.eqb (drop_string 2 s) "").
      * simplify_eq/=. split; [repeat constructor; lia|done].
      * destruct (ipv6_groups 8 (drop_string 2 s) [] (Some 0%nat)) eqn:E; [|done]. injection Hip as <-.
        eapply ipv6_groups_wf; [done|constructor|simpl; lia].
    + destruct (ipv6_groups 8 s [] None) eqn:E; [|done]. injection Hip as <-. eapply ipv6_groups_wf; [done|constructor|simpl; lia].
Qed.
