(* ===== verification/Digests.v ===== *)
(** * Digests

    The MD5 (RFC 1321) and SHA-256 (FIPS 180-4) functions of Go's
    [crypto/md5] and [crypto/sha256], over lists of bytes, and
    [hex.EncodeToString].  The authenticator and the audit log compute with
    them; nothing here assumes that they are hard to invert. *)

From S2P Require Import Prelude GoStrings.
From Stdlib Require Import Ascii String.
#[local] Open Scope string_scope.
#[local] Open Scope list_scope.
#[local] Open Scope Z_scope.

Definition string_bytes (s : string) : list Z := map byte_of (list_ascii_of_string s).

(** ** Words *)

Definition not32 (x : Z) : Z := 2 ^ 32 - 1 - x.
Definition rotl32 (n x : Z) : Z := u32 (Z.lor (Z.shiftl x n) (Z.shiftr x (32 - n))).
Definition rotr32 (n x : Z) : Z := rotl32 (32 - n) x.
Definition add32 (x y : Z) : Z := u32 (x + y).

(** The [n] bytes of a number, lowest first. *)
Fixpoint le_bytes (n : nat) (x : Z) : list Z :=
  match n with
  | O => []
  | S n => Z.land x 255 :: le_bytes n (Z.shiftr x 8)
  end.

Definition be_bytes (n : nat) (x : Z) : list Z := reverse (le_bytes n x).

Fixpoint le_number (l : list Z) : Z :=
  match l with
  | [] => 0
  | b :: l => b + 256 * le_number l
  end.

Definition be_number (l : list Z) : Z := le_number (reverse l).

(** Cut into pieces of [n]; [fuel] bounds their number. *)
Fixpoint pieces (fuel n : nat) (l : list Z) : list (list Z) :=
  match fuel, l with
  | S fuel, _ :: _ => take n l :: pieces fuel n (drop n l)
  | _, _ => []
  end.

(** A message with its padding: a one bit, zeros up to 56 modulo 64, and the
    number of bits. *)
Definition padded (len : list Z) (l : list Z) : list Z :=
  l ++ [128] ++ replicate (Z.to_nat ((55 - Z.of_nat (List.length l)) mod 64)) 0 ++ len.

Definition blocks (l : list Z) : list (list Z) := pieces (List.length l) 64 l.

Definition words (number : list Z -> Z) (block : list Z) : list Z := map number (pieces 16 4 block).

(** ** MD5 *)

Definition md5_k : list Z :=
  [0xd76aa478; 0xe8c7b756; 0x242070db; 0xc1bdceee; 0xf57c0faf; 0x4787c62a; 0xa8304613; 0xfd469501;
   0x698098d8; 0x8b44f7af; 0xffff5bb1; 0x895cd7be; 0x6b901122; 0xfd987193; 0xa679438e; 0x49b40821;
   0xf61e2562; 0xc040b340; 0x265e5a51; 0xe9b6c7aa; 0xd62f105d; 0x02441453; 0xd8a1e681; 0xe7d3fbc8;
   0x21e1cde6; 0xc33707d6; 0xf4d50d87; 0x455a14ed; 0xa9e3e905; 0xfcefa3f8; 0x676f02d9; 0x8d2a4c8a;
   0xfffa3942; 0x8771f681; 0x6d9d6122; 0xfde5380c; 0xa4beea44; 0x4bdecfa9; 0xf6bb4b60; 0xbebfbc70;
   0x289b7ec6; 0xeaa127fa; 0xd4ef3085; 0x04881d05; 0xd9d4d039; 0xe6db99e5; 0x1fa27cf8; 0xc4ac5665;
   0xf4292244; 0x432aff97; 0xab9423a7; 0xfc93a039; 0x655b59c3; 0x8f0ccc92; 0xffeff47d; 0x85845dd1;
   0x6fa87e4f; 0xfe2ce6e0; 0xa3014314; 0x4e0811a1; 0xf7537e82; 0xbd3af235; 0x2ad7d2bb; 0xeb86d391].

Definition md5_shifts : list Z :=
  List.concat (List.concat (map (replicate 4) [[7; 12; 17; 22]; [5; 9; 14; 20]; [4; 11; 16; 23]; [6; 10; 15; 21]])).

Definition md5_step (m : list Z) (st : Z * Z * Z * Z) (i : nat) : Z * Z * Z * Z :=
  let '(a, b, c, d) := st in
  let '(f, g) :=
    if (i <? 16)%nat then (Z.lor (Z.land b c) (Z.land (not32 b) d), i)
    else if (i <? 32)%nat then (Z.lor (Z.land d b) (Z.land (not32 d) c), (5 * i + 1) mod 16)%nat
    else if (i <? 48)%nat then (Z.lxor (Z.lxor b c) d, (3 * i + 5) mod 16)%nat
    else (Z.lxor c (Z.lor b (not32 d)), (7 * i) mod 16)%nat in
  let x := u32 (a + f + nth i md5_k 0 + nth g m 0) in
  (d, add32 b (rotl32 (nth i md5_shifts 0) x), b, c).

Definition md5_block (st : Z * Z * Z * Z) (block : list Z) : Z * Z * Z * Z :=
  let '(a, b, c, d) := st in
  let '(a', b', c', d') := foldl (md5_step (words le_number block)) st (seq 0 64) in
  (add32 a a', add32 b b', add32 c c', add32 d d').

Definition md5 (l : list Z) : list Z :=
  let '(a, b, c, d) :=
    foldl md5_block (0x67452301, 0xefcdab89, 0x98badcfe, 0x10325476)
      (blocks (padded (le_bytes 8 (8 * Z.of_nat (List.length l))) l)) in
  le_bytes 4 a ++ le_bytes 4 b ++ le_bytes 4 c ++ le_bytes 4 d.

(** ** SHA-256 *)

(** The constants are bits of the fractional parts of roots of the first primes:
    32 of the cube roots of 64 primes, and of the square roots of eight. *)
Definition is_prime (n : Z) : bool := forallb (fun d => negb (n mod Z.of_nat d =? 0)) (seq 2 (Z.to_nat n - 2)).
Definition primes : list Z := Eval vm_compute in filter (fun n => is_prime n = true) (map Z.of_nat (seq 2 310)).

(** The integral cube root below [r + 2 ^ bits], found bit by bit. *)
Fixpoint cube_root (bits : nat) (r x : Z) : Z :=
  match bits with
  | O => r
  | S bits =>
    let r' := r + 2 ^ Z.of_nat bits in
    cube_root bits (if r' * r' * r' <=? x then r' else r) x
  end.

Definition sha_k : list Z := Eval vm_compute in map (fun p => u32 (cube_root 36 0 (p * 2 ^ 96))) primes.

Definition sha_start : list Z := Eval vm_compute in map (fun p => u32 (Z.sqrt (p * 2 ^ 64))) (take 8 primes).

(** The message schedule, last word first: each new word from those 2, 7, 15 and
    16 places before. *)
Fixpoint sha_schedule (n : nat) (w : list Z) : list Z :=
  match n with
  | O => w
  | S n =>
    let x2 := nth 1 w 0 in
    let x15 := nth 14 w 0 in
    let s0 := Z.lxor (Z.lxor (rotr32 7 x15) (rotr32 18 x15)) (Z.shiftr x15 3) in
    let s1 := Z.lxor (Z.lxor (rotr32 17 x2) (rotr32 19 x2)) (Z.shiftr x2 10) in
    sha_schedule n (u32 (s1 + nth 6 w 0 + s0 + nth 15 w 0) :: w)
  end.

Definition sha_step (st : list Z) (kw : Z * Z) : list Z :=
  match st with
  | [a; b; c; d; e; f; g; h] =>
    let s1 := Z.lxor (Z.lxor (rotr32 6 e) (rotr32 11 e)) (rotr32 25 e) in
    let ch := Z.lxor (Z.land e f) (Z.land (not32 e) g) in
    let t1 := h + s1 + ch + kw.1 + kw.2 in
    let s0 := Z.lxor (Z.lxor (rotr32 2 a) (rotr32 13 a)) (rotr32 22 a) in
    let maj := Z.lxor (Z.lxor (Z.land a b) (Z.land a c)) (Z.land b c) in
    [u32 (t1 + s0 + maj); a; b; c; u32 (d + t1); e; f; g]
  | _ => st
  end.

Definition sha_block (st : list Z) (block : list Z) : list Z :=
  let w := reverse (sha_schedule 48 (reverse (words be_number block))) in
  zip_with add32 st (foldl sha_step st (zip sha_k w)).

Definition sha256 (l : list Z) : list Z :=
  List.concat (map (be_bytes 4)
    (foldl sha_block sha_start (blocks (padded (be_bytes 8 (8 * Z.of_nat (List.length l))) l)))).

(** ** Hexadecimal *)

Definition hex_lower (n : Z) : ascii := ascii_of_N (Z.to_N (if n <? 10 then 48 + n else 87 + n)).

Fixpoint hex_encode (l : list Z) : string :=
  match l with
  | [] => ""
  | b :: l => String (hex_lower (Z.shiftr b 4)) (String (hex_lower (Z.land b 15)) (hex_encode l))
  end.

(** The standards' test vectors. *)
Example md5_vectors :
  map (fun s => hex_encode (md5 (string_bytes s)))
      [""; "abc"; "12345678901234567890123456789012345678901234567890123456789012345678901234567890"] =
  ["d41d8cd98f00b204e9800998ecf8427e"; "900150983cd24fb0d6963f7d28e17f72"; "57edf4a22be3c955ac49da2e2107b67a"].
Proof. vm_compute. reflexivity. Qed.

Example sha256_vectors :
  map (fun s => hex_encode (sha256 (string_bytes s)))
      [""; "abc"; "abcdbcdecdefdefgefghfghighijhijkijkljklmklmnlmnomnopnopq"] =
  ["e3b0c44298fc1c149afbf4c8996fb92427ae41e4649b934ca495991b7852b855";
   "ba7816bf8f01cfea414140de5dae2223b00361a396177a9cb410ff61f20015ad";
   "248d6a61d20638b8e5c026930c3e6039a33ce45964ff2167f6ecedd419db06c1"].
Proof. vm_compute. reflexivity. Qed.

(** ** Facts *)

Lemma le_bytes_range n x : Forall (fun b => 0 <= b < 256) (le_bytes n x).
Proof.
  revert x. induction n as [|n IH]; intros x; constructor; [|apply IH].
  change 255 with (Z.ones 8). rewrite Z.land_ones by lia. apply Z.mod_pos_bound. lia.
Qed.

Lemma sha256_range l : Forall (fun b => 0 <= b < 256) (sha256 l).
Proof.
  unfold sha256. set (ws := foldl _ _ _). induction ws as [|w ws IH]; [constructor|]. cbn [map List.concat].
  apply Forall_app. split; [|done]. unfold be_bytes. apply Forall_reverse, le_bytes_range.
Qed.

Lemma sha_step_length st kw : List.length st = 8%nat -> List.length (sha_step st kw) = 8%nat.
Proof. destruct st as [|a [|b [|c [|d [|e [|f [|g [|h [|]]]]]]]]]; done. Qed.

Lemma sha256_length l : List.length (sha256 l) = 32%nat.
Proof.
  unfold sha256. set (bs := blocks _).
  assert (Hs : forall kws st, List.length st = 8%nat -> List.length (foldl sha_step st kws) = 8%nat).
  { induction kws as [|kw kws IH]; intros st Hst; [done|]. by apply IH, sha_step_length. }
  assert (Hb : forall bs st, List.length st = 8%nat -> List.length (foldl sha_block st bs) = 8%nat).
  { clear bs. induction bs as [|b bs IH]; intros st Hst; [done|]. apply IH. unfold sha_block.
    rewrite length_zip_with, Hs, Hst by done. done. }
  assert (Hc : forall ws, List.length (List.concat (map (be_bytes 4) ws)) = (4 * List.length ws)%nat).
  { induction ws as [|w ws IH]; [done|]. cbn [map List.concat]. rewrite length_app, IH. unfold be_bytes. rewrite length_reverse. cbn. lia. }
  by rewrite Hc, Hb.
Qed.

(** A property of the sixteen digits holds of every byte's two. *)
Lemma hex_lower_all (P : ascii -> bool) :
  forallb (fun n => P (hex_lower n)) [0; 1; 2; 3; 4; 5; 6; 7; 8; 9; 10; 11; 12; 13; 14; 15] = true ->
  forall n, 0 <= n < 16 -> P (hex_lower n) = true.
Proof.
  intros Hall n Hn. rewrite forallb_forall in Hall. apply Hall. cbn. lia.
Qed.

Lemma lacks_hex c l :
  forallb (fun n => negb (Ascii.eqb (hex_lower n) c)) [0; 1; 2; 3; 4; 5; 6; 7; 8; 9; 10; 11; 12; 13; 14; 15] = true ->
  Forall (fun b => 0 <= b < 256) l -> lacks c (hex_encode l) = true.
Proof.
  intros Hc Hl. pose proof (hex_lower_all (fun d => negb (Ascii.eqb d c)) Hc) as Hd. cbn beta in Hd.
  induction Hl as [|b l Hb Hl IH]; [done|]. cbn [hex_encode lacks]. rewrite !Hd, IH; [done| |].
  - change 15 with (Z.ones 4). rewrite Z.land_ones by lia. apply Z.mod_pos_bound. lia.
  - rewrite Z.shiftr_div_pow2 by lia. change (2 ^ 4) with 16. split; [apply Z.div_pos; lia|apply Z.div_lt_upper_bound; lia].
Qed.
