(* ===== verification/Metadata.v ===== *)
(** * rs-metadata: the data model of package [siprec]

    [src/pkg/siprec/types.go]: the recording session, the elements of the
    rs-metadata document, [Normalize], the stream/participant resolution and the
    Oracle extension data. *)

From S2P Require Import Prelude GoStrings GoFloat.
#[local] Open Scope string_scope.
#[local] Open Scope list_scope.
#[local] Open Scope Z_scope.

(** An instant in nanoseconds; [0] is the zero [time.Time]. *)
Definition Time := Z.
Definition Duration := Z.
Definition is_zero_time (t : Time) : bool := t =? 0.

(** ** The recording session *)

Record CommunicationID := mkCommunicationID {
  ci_Type : string;
  ci_Value : string;
  ci_Purpose : string;
  ci_Priority : Z;
  ci_DisplayName : string;
  ci_ValidFrom : Time;
  ci_ValidTo : Time;
  ci_Anonymous : bool
}.

Record Participant := mkParticipant {
  pt_ID : string;
  pt_Name : string;
  pt_DisplayName : string;
  pt_CommunicationIDs : list CommunicationID;
  pt_Role : string;
  pt_Languages : list string;
  pt_MediaStreams : list string;
  pt_JoinTime : Time;
  pt_LeaveTime : Time;
  pt_SessionPriority : Z;
  pt_PartialSession : bool;
  pt_Anonymized : bool;
  pt_RecordingAware : bool;
  pt_ConsentObtained : bool;
  pt_Affiliations : list string;
  pt_ConfRole : string;
  pt_GeographicLocation : string;
  pt_UserAgent : string;
  pt_CallCharges : spec_float;
  pt_CallingParty : bool;
  pt_CalledParty : bool;
  pt_AudioQuality : spec_float;
  pt_NetworkDelay : Duration;
  pt_PacketLoss : spec_float;
  pt_Jitter : Duration
}.

Record PolicyAckStatus := mkPolicyAckStatus {
  pa_Status : string;
  pa_Acknowledged : bool;
  pa_ReportedAt : Time;
  pa_RawTimestamp : string
}.

Record SessionGroupAssociation := mkSessionGroupAssociation {
  sga_SessionGroupID : string;
  sga_SessionID : string;
  sga_Role : string
}.

Record PolicyUpdate := mkPolicyUpdate {
  pu_PolicyID : string;
  pu_Status : string;
  pu_Acknowledged : bool;
  pu_Timestamp : string
}.

(** [OriginalRequest], a pointer to the SIP library's request, is the one
    field left out: no operation modelled here reads or writes it. *)
Record RecordingSession := mkRecordingSession {
  rs_ID : string;
  rs_SIPID : string;
  rs_Participants : list Participant;
  rs_AssociatedTime : Time;
  rs_SequenceNumber : Z;
  rs_RecordingType : string;
  rs_RecordingState : string;
  rs_Direction : string;
  rs_StateReason : string;
  rs_StateReasonRef : string;
  rs_StateExpires : Time;
  rs_MediaStreamTypes : list string;
  rs_SDPStreamLabels : list string;
  rs_SessionGroups : list SessionGroupAssociation;
  rs_PolicyUpdates : list PolicyUpdate;
  rs_SessionGroupRoles : option (gmap string string);
  rs_PolicyStates : option (gmap string PolicyAckStatus);
  rs_PolicyID : string;
  rs_RetentionPeriod : Duration;
  rs_RecordingAgent : string;
  rs_RecordingAgentCert : list Z;
  rs_SecurityMechanism : string;
  rs_Reason : string;
  rs_Priority : Z;
  rs_StartTime : Time;
  rs_EndTime : Time;
  rs_ExtendedMetadata : option (gmap string string);
  rs_ReplacesSessionID : string;
  rs_PauseResumeAllowed : bool;
  rs_RealTimeMedia : bool;
  rs_FailoverID : string;
  rs_CreatedAt : Time;
  rs_UpdatedAt : Time;
  rs_ErrorCount : Z;
  rs_IsValid : bool;
  rs_SourceIP : string;
  rs_Callbacks : list string;
  rs_ErrorState : bool;
  rs_ErrorMessage : string;
  rs_RetryCount : Z;
  rs_Timeout : Duration;
  rs_LogicalResourceID : string;
  rs_CustomRTPTimeout : Duration;
  rs_CustomMaxDuration : Duration;
  rs_CustomRetention : Duration;
  rs_TimeoutSource : string
}.

(** ** The rs-metadata document *)

Record XMLName := mkXMLName { xn_Space : string; xn_Local : string }.

Record XMLExtension := mkXMLExtension { xe_XMLName : XMLName; xe_InnerXML : string }.

Record LocalizedName := mkLocalizedName { ln_Lang : string; ln_Value : string }.

Record Aor := mkAor {
  aor_Value : string;
  aor_URI : string;
  aor_Display : string;
  aor_Priority : Z
}.

Record RSNameID := mkRSNameID {
  ni_ID : string;
  ni_AOR : string;
  ni_URI : string;
  ni_Display : string;
  ni_Context : string;
  ni_Names : list LocalizedName;
  ni_Extensions : list XMLExtension
}.

Record Group := mkGroup {
  gr_ID : string;
  gr_LegacyID : string;
  gr_AssociateTime : string;
  gr_SessionRefs : list string;
  gr_ParticipantRefs : list string;
  gr_LegacyParticipantRef : list string;
  gr_Extensions : list XMLExtension
}.

Record RSParticipant := mkRSParticipant {
  rp_ID : string;
  rp_LegacyID : string;
  rp_NameID : string;
  rp_Name : string;
  rp_DisplayName : string;
  rp_Aor : list Aor;
  rp_NameInfos : list RSNameID;
  rp_Associate : string;
  rp_Role : string;
  rp_Send : list string;
  rp_Receive : list string;
  rp_Extensions : list XMLExtension
}.

Record Stream := mkStream {
  sm_Label : string;
  sm_LabelElement : string;
  sm_StreamID : string;
  sm_StreamIDAlt : string;
  sm_ID : string;
  sm_Session : string;
  sm_SessionAlt : string;
  sm_Mode : string;
  sm_ModeElement : string;
  sm_Type : string;
  sm_AssociateTime : string;
  sm_ParticipantRef : list string;
  sm_MixedStreams : list string;
  sm_Extensions : list XMLExtension
}.

Record RSAssociation := mkRSAssociation {
  ra_SessionID : string;
  ra_SessionIDAlt : string;
  ra_Group : string;
  ra_GroupAlt : string;
  ra_CallID : string;
  ra_CallIDAlt : string;
  ra_FixedID : string;
  ra_IdentityRef : string
}.

Record RSSession := mkRSSession {
  ss_ID : string;
  ss_LegacyID : string;
  ss_Type : string;
  ss_AssociateTime : string;
  ss_SIPSessionID : string;
  ss_SessionName : string;
  ss_SessionDescription : string;
  ss_ParticipantRefs : list string;
  ss_GroupRefs : list string;
  ss_StreamRefs : list string;
  ss_Extensions : list XMLExtension
}.

Record RSRecordingSession := mkRSRecordingSession {
  rr_ID : string;
  rr_SessionID : string;
  rr_State : string;
  rr_Reason : string;
  rr_AssociateTime : string;
  rr_Extensions : list XMLExtension
}.

Record RSParticipantStreamAssoc := mkRSParticipantStreamAssoc {
  psa_ID : string;
  psa_Participant : string;
  psa_ParticipantID : string;
  psa_Stream : string;
  psa_StreamID : string;
  psa_Send : list string;
  psa_Receive : list string;
  psa_Direction : string;
  psa_Extensions : list XMLExtension
}.

Record RSParticipantSessionAssoc := mkRSParticipantSessionAssoc {
  pss_ParticipantID : string;
  pss_SessionID : string;
  pss_AssociateTime : string;
  pss_Extensions : list XMLExtension
}.

Record RSMetadata := mkRSMetadata {
  md_XMLName : XMLName;
  md_DataMode : string;
  md_DataModeAlt : string;
  md_SessionID : string;
  md_State : string;
  md_Reason : string;
  md_Sequence : Z;
  md_ReasonRef : string;
  md_Expires : string;
  md_MediaLabel : string;
  md_Direction : string;
  md_Group : list Group;
  md_Sessions : list RSSession;
  md_RecordingSessions : list RSRecordingSession;
  md_Participants : list RSParticipant;
  md_Streams : list Stream;
  md_ParticipantStreamAssoc : list RSParticipantStreamAssoc;
  md_ParticipantSessionAssoc : list RSParticipantSessionAssoc;
  md_SessionRecordingAssoc : RSAssociation;
  md_SessionGroupAssociations : list SessionGroupAssociation;
  md_PolicyUpdates : list PolicyUpdate;
  md_FilledFields : list string
}.

#[export] Instance RSAssociation_eq_dec : EqDecision RSAssociation.
Proof. solve_decision. Defined.

(** The zero values of the structs. *)
Definition zero_CommunicationID : CommunicationID := mkCommunicationID "" "" "" 0 "" 0 0 false.

Definition zero_Participant : Participant :=
  mkParticipant "" "" "" [] "" [] [] 0 0 0 false false false false [] "" "" ""
    f64_zero false false f64_zero 0 f64_zero 0.

Definition zero_RSAssociation : RSAssociation := mkRSAssociation "" "" "" "" "" "" "" "".
Definition zero_Aor : Aor := mkAor "" "" "" 0.
Definition zero_RSNameID : RSNameID := mkRSNameID "" "" "" "" "" [] [].
Definition zero_RSParticipant : RSParticipant :=
  mkRSParticipant "" "" "" "" "" [] [] "" "" [] [] [].
Definition zero_RSSession : RSSession := mkRSSession "" "" "" "" "" "" "" [] [] [] [].
Definition zero_RSMetadata : RSMetadata :=
  mkRSMetadata (mkXMLName "" "") "" "" "" "" "" 0 "" "" "" "" [] [] [] [] [] [] []
    zero_RSAssociation [] [] [].
Definition zero_RecordingSession : RecordingSession :=
  mkRecordingSession "" "" [] 0 0 "" "" "" "" "" 0 [] [] [] [] None None "" 0 "" [] "" ""
    0 0 0 None "" false false "" 0 0 0 false "" [] false "" 0 0 "" 0 0 0 "".

(** ** [Normalize] *)

(** [if x == "" { x = y }]. *)
Definition or_else (x y : string) : string := if String.eqb x "" then y else x.

Definition normalize_group (g : Group) : Group :=
  let g := g <| gr_ID := or_else (gr_ID g) (gr_LegacyID g) |> <| gr_LegacyID := "" |> in
  match gr_LegacyParticipantRef g with
  | [] => g
  | _ => g <| gr_ParticipantRefs := gr_ParticipantRefs g ++ gr_LegacyParticipantRef g |>
           <| gr_LegacyParticipantRef := [] |>
  end.

Definition normalize_session (s : RSSession) : RSSession :=
  s <| ss_ID := or_else (ss_ID s) (ss_LegacyID s) |> <| ss_LegacyID := "" |>.

(** The loop over the recordingsession elements also completes the state and
    reason of the document. *)
Fixpoint normalize_recording_sessions (l : list RSRecordingSession) (state reason : string)
    : list RSRecordingSession * string * string :=
  match l with
  | [] => ([], state, reason)
  | r :: l =>
    let r := r <| rr_SessionID := or_else (rr_SessionID r) (rr_ID r) |> in
    let state := if negb (String.eqb (rr_State r) "") && String.eqb state ""
                 then rr_State r else state in
    let reason := if negb (String.eqb (rr_Reason r) "") && String.eqb reason ""
                  then rr_Reason r else reason in
    let '(l, state, reason) := normalize_recording_sessions l state reason in
    (r :: l, state, reason)
  end.

Definition aors_of_names (l : list RSNameID) : list Aor :=
  flat_map (fun ni =>
    if negb (String.eqb (ni_AOR ni) "") || negb (String.eqb (ni_URI ni) "")
    then [mkAor (or_else (ni_AOR ni) (ni_URI ni)) (ni_URI ni) (ni_Display ni) 0]
    else []) l.

(** The first localized name that is not blank, trimmed. *)
Definition name_of_infos (l : list RSNameID) : string :=
  first_trimmed (flat_map (fun ni => map ln_Value (ni_Names ni)) l).

Definition display_of_infos (l : list RSNameID) : string :=
  match l with
  | ni :: _ => trim_space (ni_Display ni)
  | [] => ""
  end.

Definition normalize_participant (p : RSParticipant) : RSParticipant :=
  let p := p <| rp_ID := or_else (rp_ID p) (rp_LegacyID p) |> <| rp_LegacyID := "" |> in
  let p := match rp_Aor p with
           | [] => p <| rp_Aor := aors_of_names (rp_NameInfos p) |>
           | _ => p
           end in
  let p := p <| rp_Name := or_else (rp_Name p) (name_of_infos (rp_NameInfos p)) |> in
  if String.eqb (rp_DisplayName p) "" then
    if negb (String.eqb (rp_Name p) "") then p <| rp_DisplayName := rp_Name p |>
    else p <| rp_DisplayName := display_of_infos (rp_NameInfos p) |>
  else p.

Definition normalize_stream (s : Stream) : Stream :=
  let s := s <| sm_StreamID := or_else (sm_StreamID s) (or_else (sm_StreamIDAlt s) (sm_ID s)) |>
             <| sm_Label := or_else (sm_Label s) (sm_LabelElement s) |>
             <| sm_Mode := or_else (sm_Mode s) (sm_ModeElement s) |>
             <| sm_Session := or_else (sm_Session s) (sm_SessionAlt s) |> in
  s <| sm_StreamIDAlt := "" |> <| sm_ID := "" |> <| sm_LabelElement := "" |>
    <| sm_ModeElement := "" |> <| sm_SessionAlt := "" |>.

Definition normalize_assoc (a : RSAssociation) : RSAssociation :=
  a <| ra_SessionID := or_else (ra_SessionID a) (ra_SessionIDAlt a) |>
    <| ra_Group := or_else (ra_Group a) (ra_GroupAlt a) |>
    <| ra_CallID := or_else (ra_CallID a) (ra_CallIDAlt a) |>
    <| ra_SessionIDAlt := "" |> <| ra_GroupAlt := "" |> <| ra_CallIDAlt := "" |>.

(** Where the session ID of the document comes from when it has none. *)
Definition session_id_fallback (assoc : RSAssociation) (ss : list RSSession)
    (rr : list RSRecordingSession) : string :=
  or_else (ra_SessionID assoc)
    (or_else (match ss with s :: _ => ss_ID s | [] => "" end)
       (match rr with r :: _ => or_else (rr_SessionID r) (rr_ID r) | [] => "" end)).

Definition Normalize (m : RSMetadata) : RSMetadata :=
  let m := m <| md_DataMode := or_else (md_DataMode m) (md_DataModeAlt m) |>
             <| md_DataModeAlt := "" |> in
  let m := m <| md_Group := map normalize_group (md_Group m) |> in
  let m := m <| md_Sessions := map normalize_session (md_Sessions m) |> in
  let '(rr, state, reason) :=
    normalize_recording_sessions (md_RecordingSessions m) (md_State m) (md_Reason m) in
  let m := m <| md_RecordingSessions := rr |> <| md_State := state |> <| md_Reason := reason |> in
  let m := m <| md_Participants := map normalize_participant (md_Participants m) |> in
  let m := m <| md_Streams := map normalize_stream (md_Streams m) |> in
  let m := m <| md_SessionRecordingAssoc := normalize_assoc (md_SessionRecordingAssoc m) |> in
  m <| md_SessionID := or_else (md_SessionID m)
         (session_id_fallback (md_SessionRecordingAssoc m) (md_Sessions m)
            (md_RecordingSessions m)) |>.

(** *** Facts about normalization *)

#[global] Arguments or_else : simpl never.
#[global] Arguments aors_of_names : simpl never.
#[global] Arguments name_of_infos : simpl never.
#[global] Arguments display_of_infos : simpl never.
#[global] Arguments session_id_fallback : simpl never.
#[global] Arguments normalize_assoc : simpl never.
#[global] Arguments normalize_participant : simpl never.
#[global] Arguments normalize_stream : simpl never.
#[global] Arguments normalize_session : simpl never.
#[global] Arguments normalize_group : simpl never.

Lemma or_else_empty_r x : or_else x "" = x.
Proof. unfold or_else. destruct (String.eqb x "") eqn:E; bool_to_prop; by subst. Qed.

Lemma or_else_empty_l y : or_else "" y = y.
Proof. done. Qed.

Lemma or_else_present x y : x <> "" -> or_else x y = x.
Proof. unfold or_else. destruct (String.eqb x "") eqn:E; bool_to_prop; done. Qed.

Lemma or_else_idemp x y : or_else (or_else x y) y = or_else x y.
Proof. unfold or_else. destruct (String.eqb x "") eqn:E; [|by rewrite E]. by destruct (String.eqb y ""). Qed.

Lemma or_else_assoc x y z : or_else (or_else x y) z = or_else x (or_else y z).
Proof. unfold or_else. destruct (String.eqb x "") eqn:E; [done|]. by rewrite E. Qed.

Create Rewrite HintDb normalize.
#[export] Hint Rewrite or_else_empty_r or_else_empty_l or_else_idemp : normalize.

Lemma normalize_group_idemp g : normalize_group (normalize_group g) = normalize_group g.
Proof. destruct g as [????? [|??] ?]; unfold normalize_group; simpl; by autorewrite with normalize. Qed.

Lemma normalize_session_idemp s : normalize_session (normalize_session s) = normalize_session s.
Proof. destruct s; unfold normalize_session; simpl; by autorewrite with normalize. Qed.

Lemma normalize_stream_idemp s : normalize_stream (normalize_stream s) = normalize_stream s.
Proof. destruct s; unfold normalize_stream; simpl; by autorewrite with normalize. Qed.

Lemma normalize_assoc_idemp a : normalize_assoc (normalize_assoc a) = normalize_assoc a.
Proof. destruct a; unfold normalize_assoc; simpl; by autorewrite with normalize. Qed.

(** The name and the display name of a normalized participant. *)
Definition normal_name (name : string) (infos : list RSNameID) : string :=
  or_else name (name_of_infos infos).

Definition normal_display (name disp : string) (infos : list RSNameID) : string :=
  or_else disp (or_else (normal_name name infos) (display_of_infos infos)).

Definition normal_aor (aor : list Aor) (infos : list RSNameID) : list Aor :=
  match aor with [] => aors_of_names infos | _ => aor end.

Lemma normalize_participant_unfold p :
  normalize_participant p =
    p <| rp_ID := or_else (rp_ID p) (rp_LegacyID p) |> <| rp_LegacyID := "" |>
      <| rp_Aor := normal_aor (rp_Aor p) (rp_NameInfos p) |>
      <| rp_Name := normal_name (rp_Name p) (rp_NameInfos p) |>
      <| rp_DisplayName := normal_display (rp_Name p) (rp_DisplayName p) (rp_NameInfos p) |>.
Proof.
  destruct p as [id lid nid nm disp aor infos ? ? ? ? ?].
  unfold normalize_participant, normal_display, normal_name, normal_aor. cbn.
  destruct aor; cbn; generalize (or_else nm (name_of_infos infos)); intros n;
    (destruct (String.eqb disp "") eqn:Ed;
      [apply String.eqb_eq in Ed; subst disp; rewrite or_else_empty_l; unfold or_else;
       by destruct (String.eqb n "")
      |by rewrite (or_else_present disp) by (by apply String.eqb_neq)]).
Qed.

Lemma normalize_participant_idemp p :
  normalize_participant (normalize_participant p) = normalize_participant p.
Proof.
  rewrite !normalize_participant_unfold. destruct p as [id lid nid nm disp aor infos ? ? ? ? ?].
  cbn. unfold normal_display, normal_name. autorewrite with normalize. f_equal.
  unfold normal_aor. destruct aor; [|done]. by destruct (aors_of_names infos).
Qed.

(** The first non-empty string. *)
Definition first_present : list string -> string := foldr or_else "".

Definition normalize_recording_session (r : RSRecordingSession) : RSRecordingSession :=
  r <| rr_SessionID := or_else (rr_SessionID r) (rr_ID r) |>.

(** The document takes the first state and the first reason of its
    recordingsession elements, when it has none itself. *)
Lemma normalize_recording_sessions_unfold l st re :
  normalize_recording_sessions l st re =
    (map normalize_recording_session l,
     or_else st (first_present (map rr_State l)),
     or_else re (first_present (map rr_Reason l))).
Proof.
  assert (Hor : forall s x : string,
    (if negb (String.eqb s "") && String.eqb x "" then s else x) = or_else x s).
  { intros s x. unfold or_else. destruct (String.eqb x "") eqn:E; [|by rewrite andb_false_r].
    destruct (String.eqb s "") eqn:E'; bool_to_prop; by subst. }
  revert st re. induction l as [|r l IH]; intros st re.
  - cbn. by rewrite !or_else_empty_r.
  - destruct r; cbn. by rewrite !Hor, IH, !or_else_assoc.
Qed.

Lemma normalize_recording_session_idemp r :
  normalize_recording_session (normalize_recording_session r) = normalize_recording_session r.
Proof. destruct r; unfold normalize_recording_session; cbn. by autorewrite with normalize. Qed.

Lemma map_idemp {A} (f : A -> A) (l : list A) :
  (forall x, f (f x) = f x) -> map f (map f l) = map f l.
Proof. intros Hf. rewrite map_map. by apply map_ext. Qed.

Lemma Normalize_unfold m :
  Normalize m =
    let rr := map normalize_recording_session (md_RecordingSessions m) in
    let assoc := normalize_assoc (md_SessionRecordingAssoc m) in
    let ss := map normalize_session (md_Sessions m) in
    m <| md_DataMode := or_else (md_DataMode m) (md_DataModeAlt m) |>
      <| md_DataModeAlt := "" |>
      <| md_Group := map normalize_group (md_Group m) |>
      <| md_Sessions := ss |>
      <| md_RecordingSessions := rr |>
      <| md_State := or_else (md_State m) (first_present (map rr_State (md_RecordingSessions m))) |>
      <| md_Reason := or_else (md_Reason m) (first_present (map rr_Reason (md_RecordingSessions m))) |>
      <| md_Participants := map normalize_participant (md_Participants m) |>
      <| md_Streams := map normalize_stream (md_Streams m) |>
      <| md_SessionRecordingAssoc := assoc |>
      <| md_SessionID := or_else (md_SessionID m) (session_id_fallback assoc ss rr) |>.
Proof. destruct m; unfold Normalize; cbn. by rewrite normalize_recording_sessions_unfold. Qed.

(** Normalizing twice is normalizing once: [CreateMetadataResponse] normalizes
    metadata that was already normalized when it was parsed, through a shallow
    copy that shares its slices. *)
Lemma Normalize_idemp m : Normalize (Normalize m) = Normalize m.
Proof.
  rewrite !Normalize_unfold. destruct m; cbn.
  assert (Hs : map rr_State (map normalize_recording_session md_RecordingSessions0)
    = map rr_State md_RecordingSessions0) by (rewrite map_map; apply map_ext; by intros []).
  assert (Hr : map rr_Reason (map normalize_recording_session md_RecordingSessions0)
    = map rr_Reason md_RecordingSessions0) by (rewrite map_map; apply map_ext; by intros []).
  rewrite normalize_assoc_idemp, Hs, Hr.
  rewrite (map_idemp normalize_group) by apply normalize_group_idemp.
  rewrite (map_idemp normalize_session) by apply normalize_session_idemp.
  rewrite (map_idemp normalize_recording_session) by apply normalize_recording_session_idemp.
  rewrite (map_idemp normalize_participant) by apply normalize_participant_idemp.
  rewrite (map_idemp normalize_stream) by apply normalize_stream_idemp.
  by autorewrite with normalize.
Qed.

(** A normalized document: no legacy or alternative field is left. *)
Definition normal_form (m : RSMetadata) : Prop :=
  md_DataModeAlt m = "" /\
  Forall (fun g => gr_LegacyID g = "" /\ gr_LegacyParticipantRef g = []) (md_Group m) /\
  Forall (fun s => ss_LegacyID s = "") (md_Sessions m) /\
  Forall (fun r => rr_SessionID r = "" -> rr_ID r = "") (md_RecordingSessions m) /\
  Forall (fun p => rp_LegacyID p = "" /\ (rp_DisplayName p = "" -> rp_Name p = ""))
    (md_Participants m) /\
  Forall (fun s => sm_StreamIDAlt s = "" /\ sm_ID s = "" /\ sm_LabelElement s = "" /\
                   sm_ModeElement s = "" /\ sm_SessionAlt s = "") (md_Streams m) /\
  ra_SessionIDAlt (md_SessionRecordingAssoc m) = "" /\
  ra_GroupAlt (md_SessionRecordingAssoc m) = "" /\
  ra_CallIDAlt (md_SessionRecordingAssoc m) = "" /\
  (md_SessionID m = "" -> session_id_fallback (md_SessionRecordingAssoc m) (md_Sessions m)
                            (md_RecordingSessions m) = "").

Lemma or_else_eq_empty x y : or_else x y = "" <-> x = "" /\ y = "".
Proof.
  unfold or_else. destruct (String.eqb x "") eqn:E; bool_to_prop; subst; naive_solver.
Qed.

Lemma Normalize_normal_form m : normal_form (Normalize m).
Proof.
  rewrite Normalize_unfold. unfold normal_form.
  destruct m as [?????????????????? [] ???]; cbn. split; [done|].
  repeat (split; [first [done | apply Forall_map, Forall_true; intros x]|]).
  - destruct x as [????? [|??] ?]; done.
  - by destruct x.
  - destruct x; cbn. rewrite or_else_eq_empty. by intros [].
  - rewrite normalize_participant_unfold. destruct x; cbn. split; [done|].
    unfold normal_display. rewrite !or_else_eq_empty. by intros [_ []].
  - by destruct x.
  - rewrite or_else_eq_empty. by intros [].
Qed.

(** ** Resolving the participant of a stream *)

(** The two lookup tables built from the streams; a later stream with the same
    ID replaces an earlier one. *)
Definition stream_id_to_label (streams : list Stream) : gmap string string :=
  foldl (fun m s => if negb (String.eqb (sm_StreamID s) "") && negb (String.eqb (sm_Label s) "")
                    then <[sm_StreamID s := sm_Label s]> m else m) ∅ streams.

Definition find_participant (ps : list RSParticipant) (id : string) : option nat :=
  fst <$> list_find (fun p => rp_ID p = id) ps.

(** The association [a] names the stream [label]: directly, or in its send
    list by the label or by the ID of a stream with that label. *)
Definition assoc_matches (labels : gmap string string) (label : string)
    (a : RSParticipantStreamAssoc) : bool :=
  String.eqb (or_else (psa_Stream a) (psa_StreamID a)) label ||
  existsb (fun ref => String.eqb ref label ||
    match labels !! ref with Some l => String.eqb l label | None => false end) (psa_Send a).

Definition assoc_participant (a : RSParticipantStreamAssoc) : string :=
  or_else (psa_Participant a) (psa_ParticipantID a).

(** Step 1: the explicit associations, in document order. *)
Fixpoint resolve_by_assoc (ps : list RSParticipant) (labels : gmap string string)
    (label : string) (assocs : list RSParticipantStreamAssoc) : option nat :=
  match assocs with
  | [] => None
  | a :: assocs =>
    let next := resolve_by_assoc ps labels label assocs in
    if assoc_matches labels label a && negb (String.eqb (assoc_participant a) "")
    then match find_participant ps (assoc_participant a) with Some i => Some i | None => next end
    else next
  end.

(** Step 2: the participant references of the streams. *)
Fixpoint resolve_by_stream (ps : list RSParticipant) (label : string) (streams : list Stream)
    : option nat :=
  match streams with
  | [] => None
  | s :: streams =>
    let next := resolve_by_stream ps label streams in
    match sm_ParticipantRef s with
    | ref :: _ =>
      if String.eqb (or_else (sm_Label s) (sm_StreamID s)) label
      then match find_participant ps ref with Some i => Some i | None => next end
      else next
    | [] => next
    end
  end.

(** Step 3: the send lists of the participants. *)
Definition resolve_by_send (ps : list RSParticipant) (label : string) : option nat :=
  fst <$> list_find (fun p => label ∈ rp_Send p) ps.

(** The index of the resolved participant in the document. *)
Definition ResolveStreamParticipant (m : RSMetadata) (label : string) : option nat :=
  if String.eqb label "" then None else
  match resolve_by_assoc (md_Participants m) (stream_id_to_label (md_Streams m)) label
          (md_ParticipantStreamAssoc m) with
  | Some i => Some i
  | None =>
    match resolve_by_stream (md_Participants m) label (md_Streams m) with
    | Some i => Some i
    | None => resolve_by_send (md_Participants m) label
    end
  end.

Lemma find_participant_Some ps id i :
  find_participant ps id = Some i -> exists p, ps !! i = Some p /\ rp_ID p = id.
Proof.
  unfold find_participant. destruct (list_find _ _) as [[j p]|] eqn:E; cbn; [|done].
  intros [= ->]. apply list_find_Some in E as (? & ? & _). eauto.
Qed.

Lemma find_participant_complete ps p : p ∈ ps -> is_Some (find_participant ps (rp_ID p)).
Proof.
  intros Hp. unfold find_participant.
  destruct (list_find _ _) as [[j q]|] eqn:E; cbn; [done|].
  apply list_find_None in E. rewrite Forall_forall in E. by destruct (E p Hp).
Qed.

(** The evidence by which a participant may be chosen for a stream. *)
Inductive stream_evidence (m : RSMetadata) (label : string) (p : RSParticipant) : Prop :=
| evidence_assoc a :
    a ∈ md_ParticipantStreamAssoc m ->
    assoc_matches (stream_id_to_label (md_Streams m)) label a = true ->
    assoc_participant a = rp_ID p -> rp_ID p <> "" -> stream_evidence m label p
| evidence_stream s ref refs :
    s ∈ md_Streams m -> sm_ParticipantRef s = ref :: refs ->
    or_else (sm_Label s) (sm_StreamID s) = label -> ref = rp_ID p ->
    stream_evidence m label p
| evidence_send : label ∈ rp_Send p -> stream_evidence m label p.

Lemma resolve_by_assoc_Some ps labels label l i :
  resolve_by_assoc ps labels label l = Some i ->
  exists a p, a ∈ l /\ ps !! i = Some p /\ assoc_matches labels label a = true /\
    assoc_participant a = rp_ID p /\ rp_ID p <> "".
Proof.
  induction l as [|a l IH]; cbn; [done|].
  destruct (assoc_matches labels label a && _) eqn:E.
  - destruct (find_participant ps (assoc_participant a)) as [j|] eqn:Ef.
    + intros [= ->]. apply find_participant_Some in Ef as (p & ? & ?).
      apply andb_true_iff in E as [? E]. apply negb_true_iff, String.eqb_neq in E.
      exists a, p. repeat split; [left|done|done|congruence|congruence].
    + intros H. apply IH in H as (b & p & ? & ?). exists b, p. split; [by right|done].
  - intros H. apply IH in H as (b & p & ? & ?). exists b, p. split; [by right|done].
Qed.

Lemma resolve_by_stream_Some ps label l i :
  resolve_by_stream ps label l = Some i ->
  exists s p refs, s ∈ l /\ ps !! i = Some p /\ sm_ParticipantRef s = rp_ID p :: refs /\
    or_else (sm_Label s) (sm_StreamID s) = label.
Proof.
  induction l as [|s l IH]; cbn; [done|].
  assert (Hnext : resolve_by_stream ps label l = Some i ->
    exists s' p refs, s' ∈ s :: l /\ ps !! i = Some p /\ sm_ParticipantRef s' = rp_ID p :: refs /\
      or_else (sm_Label s') (sm_StreamID s') = label).
  { intros H. apply IH in H as (b & p & refs & ? & ?). exists b, p, refs. split; [by right|done]. }
  destruct (sm_ParticipantRef s) as [|ref refs] eqn:Es; [done|].
  destruct (String.eqb _ label) eqn:El; [|done].
  destruct (find_participant ps ref) as [j|] eqn:Ef; [|done].
  intros [= ->]. apply find_participant_Some in Ef as (p & ? & <-).
  apply String.eqb_eq in El. exists s, p, refs. repeat split; [left|done|done|done].
Qed.

Lemma resolve_by_send_Some ps label i :
  resolve_by_send ps label = Some i -> exists p, ps !! i = Some p /\ label ∈ rp_Send p.
Proof.
  unfold resolve_by_send. destruct (list_find _ _) as [[j p]|] eqn:E; cbn; [|done].
  intros [= ->]. apply list_find_Some in E as (? & ? & _). eauto.
Qed.

Lemma resolve_by_assoc_complete ps labels label l a p :
  a ∈ l -> p ∈ ps -> assoc_matches labels label a = true ->
  assoc_participant a = rp_ID p -> rp_ID p <> "" ->
  is_Some (resolve_by_assoc ps labels label l).
Proof.
  intros Ha Hp Hm Hid Hne. induction l as [|b l IH]; [by apply elem_of_nil in Ha|]. cbn.
  apply elem_of_cons in Ha as [<-|Ha].
  - rewrite Hm, Hid. apply String.eqb_neq in Hne. rewrite Hne. cbn.
    destruct (find_participant_complete ps p Hp) as [i ->]. eauto.
  - destruct (_ && _); [|auto]. destruct (find_participant _ _); eauto.
Qed.

Lemma resolve_by_stream_complete ps label l s p refs :
  s ∈ l -> p ∈ ps -> sm_ParticipantRef s = rp_ID p :: refs ->
  or_else (sm_Label s) (sm_StreamID s) = label ->
  is_Some (resolve_by_stream ps label l).
Proof.
  intros Hs Hp Href Hl. induction l as [|t l IH]; [by apply elem_of_nil in Hs|]. cbn.
  apply elem_of_cons in Hs as [<-|Hs].
  - rewrite Href, Hl, String.eqb_refl.
    destruct (find_participant_complete ps p Hp) as [i ->]. eauto.
  - destruct (sm_ParticipantRef t); [auto|]. destruct (String.eqb _ _); [|auto].
    destruct (find_participant _ _); eauto.
Qed.

Lemma resolve_by_send_complete ps label p :
  p ∈ ps -> label ∈ rp_Send p -> is_Some (resolve_by_send ps label).
Proof.
  intros Hp Hl. unfold resolve_by_send. destruct (list_find _ _) as [[j q]|] eqn:E; cbn; [done|].
  apply list_find_None in E. rewrite Forall_forall in E. by destruct (E p Hp).
Qed.

(** The resolution is sound: the participant it returns is one the document
    associates with the stream. *)
Lemma resolve_sound m label i :
  ResolveStreamParticipant m label = Some i ->
  exists p, md_Participants m !! i = Some p /\ stream_evidence m label p.
Proof.
  unfold ResolveStreamParticipant. destruct (String.eqb label ""); [done|].
  destruct (resolve_by_assoc _ _ _ _) as [j|] eqn:E1.
  { intros [= ->]. apply resolve_by_assoc_Some in E1 as (a & p & ? & ? & ? & ? & ?).
    exists p. split; [done|]. by eapply evidence_assoc. }
  destruct (resolve_by_stream _ _ _) as [j|] eqn:E2.
  { intros [= ->]. apply resolve_by_stream_Some in E2 as (s & p & refs & ? & ? & ? & ?).
    exists p. split; [done|]. by eapply evidence_stream. }
  intros E3. apply resolve_by_send_Some in E3 as (p & ? & ?).
  exists p. split; [done|]. by apply evidence_send.
Qed.

(** ** Oracle extension data *)

Record OracleExtensionData := mkOracleExtensionData {
  ox_UCID : string;
  ox_CallerOrig : bool;
  ox_CallingParty : bool
}.

(** The text between a start tag at [start] and the first closing tag. *)
Definition element_content (xml name : string) (start : nat) : option string :=
  let rest := drop_string start xml in
  match (match index rest ("</apkt:" +:+ name +:+ ">") with
         | Some e => Some e
         | None => index rest ("</" +:+ name +:+ ">")
         end) with
  | Some e =>
    let content := take_string e rest in
    let content := match index content ";" with
                   | Some (S i) => take_string (S i) content
                   | _ => content
                   end in
    Some (trim_space content)
  | None => None
  end.

Fixpoint extract_with (xml name : string) (tags : list string) : string :=
  match tags with
  | [] => ""
  | tag :: tags =>
    match index xml tag with
    | Some i =>
      match element_content xml name (i + String.length tag) with
      | Some c => c
      | None => extract_with xml name tags
      end
    | None => extract_with xml name tags
    end
  end.

Definition extractXMLElement (xml name : string) : string :=
  extract_with xml name ["<apkt:" +:+ name +:+ ">"; "<" +:+ name +:+ ">"].

Definition oracle_namespace : string := "http://acmepacket.com/siprec/extensiondata".

Definition is_oracle (ext : XMLExtension) : bool :=
  String.eqb (xn_Space (xe_XMLName ext)) oracle_namespace ||
  has_prefix (xn_Local (xe_XMLName ext)) "apkt:" ||
  contains (xe_InnerXML ext) "acmepacket.com/siprec/extensiondata".

Definition oracle_step `{Unicode} (acc : OracleExtensionData * bool) (ext : XMLExtension)
    : OracleExtensionData * bool :=
  if negb (is_oracle ext) then acc else
  let inner := xe_InnerXML ext in
  let '(d, found) := acc in
  let ucid := extractXMLElement inner "ucid" in
  let '(d, found) := if String.eqb ucid "" then (d, found) else (d <| ox_UCID := ucid |>, true) in
  let orig := extractXMLElement inner "callerOrig" in
  let '(d, found) := if String.eqb orig "" then (d, found)
                     else (d <| ox_CallerOrig := equal_fold orig "true" |>, true) in
  let calling := extractXMLElement inner "callingParty" in
  if String.eqb calling "" then (d, found)
  else (d <| ox_CallingParty := equal_fold calling "true" |>, true).

Definition ExtractOracleExtensions `{Unicode} (exts : list XMLExtension)
    : option OracleExtensionData :=
  let '(d, found) := foldl oracle_step (mkOracleExtensionData "" false false, false) exts in
  if found then Some d else None.

(** The first element of a list with extension data. *)
Fixpoint first_oracle `{Unicode} {A} (f : A -> list XMLExtension) (l : list A)
    : option OracleExtensionData :=
  match l with
  | [] => None
  | x :: l => match ExtractOracleExtensions (f x) with Some d => Some d | None => first_oracle f l end
  end.

Definition GetOracleSessionExtensions `{Unicode} (m : RSMetadata) : option OracleExtensionData :=
  match first_oracle ss_Extensions (md_Sessions m) with
  | Some d => Some d
  | None => first_oracle rr_Extensions (md_RecordingSessions m)
  end.

(** [None] is the nil map returned when no participant has extension data. *)
Definition GetOracleParticipantExtensions `{Unicode} (m : RSMetadata)
    : option (gmap string OracleExtensionData) :=
  let r := foldl (fun acc p =>
    match ExtractOracleExtensions (rp_Extensions p) with
    | Some d => let id := or_else (rp_ID p) (rp_LegacyID p) in
                if String.eqb id "" then acc else <[id := d]> acc
    | None => acc
    end) ∅ (md_Participants m) in
  if decide (r = ∅) then None else Some r.

Definition IdentifyCallingParticipant `{Unicode} `{!GoMapRange string} (m : RSMetadata) : string :=
  match GetOracleParticipantExtensions m with
  | None => ""
  | Some exts =>
    match list_find (fun e => ox_CallingParty e.2 = true) (map_range 0 exts) with
    | Some (_, (id, _)) => id
    | None => ""
    end
  end.

(** ** Properties *)

(** C22: [Normalize] brings every document to normal form (no legacy or
    alternative field left, display names and session ID completed from every
    place the document has them), and normalizing again changes nothing, so the
    second normalization in [CreateMetadataResponse], which works on slices
    shared with the caller's document, leaves that document unchanged. *)
Theorem normalize_canonical (m : RSMetadata) :
  normal_form (Normalize m) /\ Normalize (Normalize m) = Normalize m.
Proof. split; [apply Normalize_normal_form|apply Normalize_idemp]. Qed.

(** [Normalize] never overwrites a value the document carries: session ID,
    state, reason and data mode, and for each participant and stream at its
    position the ID, name, display name, addresses, label and mode. *)
Theorem normalize_keeps_present (m : RSMetadata) :
  (md_SessionID m <> "" -> md_SessionID (Normalize m) = md_SessionID m) /\
  (md_State m <> "" -> md_State (Normalize m) = md_State m) /\
  (md_Reason m <> "" -> md_Reason (Normalize m) = md_Reason m) /\
  (md_DataMode m <> "" -> md_DataMode (Normalize m) = md_DataMode m) /\
  Forall2 (fun p q =>
    (rp_ID p <> "" -> rp_ID q = rp_ID p) /\ (rp_Name p <> "" -> rp_Name q = rp_Name p) /\
    (rp_DisplayName p <> "" -> rp_DisplayName q = rp_DisplayName p) /\
    (rp_Aor p <> [] -> rp_Aor q = rp_Aor p) /\ rp_Role q = rp_Role p /\ rp_Send q = rp_Send p)
    (md_Participants m) (md_Participants (Normalize m)) /\
  Forall2 (fun s t =>
    (sm_StreamID s <> "" -> sm_StreamID t = sm_StreamID s) /\
    (sm_Label s <> "" -> sm_Label t = sm_Label s) /\
    (sm_Mode s <> "" -> sm_Mode t = sm_Mode s) /\ sm_Type t = sm_Type s)
    (md_Streams m) (md_Streams (Normalize m)).
Proof.
  rewrite Normalize_unfold. destruct m; cbn.
  repeat (split; [apply or_else_present|]). split.
  - apply Forall2_map_self. intros p.
    rewrite normalize_participant_unfold. destruct p as [id lid nid nm disp aor infos ? ? ? ? ?]; cbn.
    unfold normal_name, normal_display, normal_aor.
    repeat (split; [apply or_else_present|]). split; [by destruct aor|done].
  - apply Forall2_map_self. intros s.
    destruct s; unfold normalize_stream; cbn. repeat (split; [apply or_else_present|]). done.
Qed.

(** [ResolveStreamParticipant] returns a participant exactly when some
    participant of the document is associated with the stream, the one it
    returns is associated with it, and an explicit participantstreamassoc
    element is never overridden by a weaker source. *)
Theorem resolve_stream_participant_correct (m : RSMetadata) (label : string) :
  label <> "" ->
  (forall i, ResolveStreamParticipant m label = Some i ->
     exists p, md_Participants m !! i = Some p /\ stream_evidence m label p) /\
  (is_Some (ResolveStreamParticipant m label) <->
     exists p, p ∈ md_Participants m /\ stream_evidence m label p) /\
  (forall a p i, a ∈ md_ParticipantStreamAssoc m -> p ∈ md_Participants m ->
     assoc_matches (stream_id_to_label (md_Streams m)) label a = true ->
     assoc_participant a = rp_ID p -> rp_ID p <> "" ->
     ResolveStreamParticipant m label = Some i ->
     exists b q, b ∈ md_ParticipantStreamAssoc m /\ md_Participants m !! i = Some q /\
       assoc_matches (stream_id_to_label (md_Streams m)) label b = true /\
       assoc_participant b = rp_ID q).
Proof.
  intros Hl. split; [intros i; apply resolve_sound|]. apply String.eqb_neq in Hl.
  split; [split|].
  - intros [i Hi]. destruct (resolve_sound _ _ _ Hi) as (p & Hp & ?). exists p.
    split; [|done]. by eapply list_elem_of_lookup_2.
  - intros (p & Hp & He). unfold ResolveStreamParticipant. rewrite Hl.
    destruct (resolve_by_assoc _ _ _ _) as [i|] eqn:E1; [eauto|].
    destruct (resolve_by_stream _ _ _) as [i|] eqn:E2; [eauto|].
    destruct He as [a Ha Hm Hid Hne|s ref refs Hs Href Hlab ->|Hsend].
    + destruct (resolve_by_assoc_complete (md_Participants m)
        (stream_id_to_label (md_Streams m)) label (md_ParticipantStreamAssoc m) a p) as [? Hs]; [done..|]. congruence.
    + destruct (resolve_by_stream_complete (md_Participants m) label (md_Streams m) s p refs) as [? Hs'];
        [done..|]. congruence.
    + by eapply resolve_by_send_complete.
  - intros a p i Ha Hp Hm Hid Hne. unfold ResolveStreamParticipant. rewrite Hl.
    destruct (resolve_by_assoc_complete (md_Participants m)
      (stream_id_to_label (md_Streams m)) label _ a p Ha Hp Hm Hid Hne) as [j Hj].
    rewrite Hj. intros [= <-].
    apply resolve_by_assoc_Some in Hj as (b & q & ? & ? & ? & ? & ?). exists b, q. done.
Qed.

(** An Avaya-style document: the association sends a stream ID whose stream has
    the label. *)
Definition avaya_metadata : RSMetadata :=
  zero_RSMetadata
    <| md_Participants := [zero_RSParticipant <| rp_ID := "p1" |>; zero_RSParticipant <| rp_ID := "p2" |>] |>
    <| md_Streams := [mkStream "1" "" "s1" "" "" "" "" "" "" "audio" "" [] [] []] |>
    <| md_ParticipantStreamAssoc := [mkRSParticipantStreamAssoc "" "" "p2" "" "" ["s1"] [] "" []] |>.

Lemma resolve_stream_participant_correct_witness :
  "1" <> "" /\ ResolveStreamParticipant avaya_metadata "1" = Some 1%nat /\
  exists p, md_Participants avaya_metadata !! 1%nat = Some p /\ stream_evidence avaya_metadata "1" p.
Proof.
  split; [discriminate|]. split; [vm_compute; reflexivity|].
  apply (proj1 (resolve_stream_participant_correct avaya_metadata "1" ltac:(discriminate))).
  vm_compute. reflexivity.
Defined.
