(* ===== verification/Session.v ===== *)
(** * Recording sessions

    [src/pkg/siprec/session.go]: updating a session from metadata, detecting
    participant changes, failover metadata and session recovery (RFC 7245), the
    Replaces header and the notifications of RFC 7866. *)

From S2P Require Import Prelude GoStrings Metadata.
#[local] Open Scope string_scope.
#[local] Open Scope list_scope.
#[local] Open Scope Z_scope.

(** [time.Parse] and [Time.Format] with the RFC 3339 layout; a failed parse
    carries the error text. *)
Class Rfc3339 := {
  parse_rfc3339 : string -> Time + string;
  format_rfc3339 : Time -> string
}.

(** ** Participants *)

(** A SIP communication ID with the given value, as the code builds it from an
    address of record. *)
Definition sip_id (value : string) : CommunicationID :=
  zero_CommunicationID <| ci_Type := "sip" |> <| ci_Value := value |>.

Definition sip_ids (l : list Aor) : list CommunicationID := map (fun a => sip_id (aor_Value a)) l.

Definition ConvertRSParticipantToParticipant (p : RSParticipant) : Participant :=
  let q := zero_Participant <| pt_ID := rp_ID p |> <| pt_Name := rp_Name p |>
             <| pt_DisplayName := rp_DisplayName p |> <| pt_Role := rp_Role p |>
             <| pt_CommunicationIDs := sip_ids (rp_Aor p) |> in
  let q := match pt_CommunicationIDs q with
           | [] => q <| pt_CommunicationIDs :=
               flat_map (fun ni => let value := or_else (ni_AOR ni) (ni_URI ni) in
                 if blank value then [] else [sip_id value]) (rp_NameInfos p) |>
           | _ => q
           end in
  if String.eqb (pt_DisplayName q) "" then
    if negb (String.eqb (rp_NameID p) "") then q <| pt_DisplayName := rp_NameID p |>
    else if negb (String.eqb (rp_Name p) "") then q <| pt_DisplayName := rp_Name p |>
    else q <| pt_DisplayName := display_of_infos (rp_NameInfos p) |>
  else q.

(** The participants of a session by ID; a later one replaces an earlier one. *)
Definition participant_map (l : list Participant) : gmap string Participant :=
  index_by pt_ID l.

Definition rs_participant_map (l : list RSParticipant) : gmap string RSParticipant :=
  index_by rp_ID l.

(** The fields a metadata participant overwrites in a known one. *)
Definition merge_participant (p : Participant) (np : RSParticipant) : Participant :=
  let p := if negb (String.eqb (rp_Name np) "") then p <| pt_Name := rp_Name np |> else p in
  let p := if negb (String.eqb (rp_NameID np) "") then p <| pt_DisplayName := rp_NameID np |> else p in
  match rp_Aor np with
  | [] => p
  | aor => p <| pt_CommunicationIDs := sip_ids aor |>
  end.

Definition new_participant (np : RSParticipant) : Participant :=
  zero_Participant <| pt_ID := rp_ID np |> <| pt_Name := rp_Name np |>
    <| pt_DisplayName := rp_DisplayName np |> <| pt_Role := rp_Role np |>
    <| pt_CommunicationIDs := sip_ids (rp_Aor np) |>.

(** One metadata participant: a known one is merged and leaves the map. *)
Definition update_step (acc : gmap string Participant * list Participant) (np : RSParticipant)
    : gmap string Participant * list Participant :=
  let '(m, result) := acc in
  match m !! rp_ID np with
  | Some p => (delete (rp_ID np) m, result ++ [merge_participant p np])
  | None => (m, result ++ [new_participant np])
  end.

Definition updateParticipants `{!GoMapRange string}
    (existing : list Participant) (new : list RSParticipant) : list Participant :=
  let '(m, result) := foldl update_step (participant_map existing, []) new in
  result ++ (map_range 0 m).*2.

Definition GetParticipantIDs (l : list Participant) : list string := map pt_ID l.

(** ** Detecting participant changes *)

Definition aor_changed (aor : list Aor) (ids : list CommunicationID) : bool :=
  match aor with
  | [] => false
  | _ => negb (length aor =? length ids)%nat ||
         negb (forallb (fun c => bool_decide (ci_Value c ∈ map aor_Value aor)) ids)
  end.

Definition participant_changed (p : Participant) (np : RSParticipant) : bool :=
  (negb (String.eqb (rp_Name np) "") && negb (String.eqb (rp_Name np) (pt_Name p))) ||
  (negb (String.eqb (rp_NameID np) "") && negb (String.eqb (rp_NameID np) (pt_DisplayName p))) ||
  aor_changed (rp_Aor np) (pt_CommunicationIDs p).

Definition DetectParticipantChanges `{!GoMapRange string} (existing : RecordingSession)
    (m : RSMetadata) : list Participant * list Participant * list Participant :=
  let old := participant_map (rs_Participants existing) in
  let new := rs_participant_map (md_Participants m) in
  let added := omap (fun '(id, np) =>
    if bool_decide (is_Some (old !! id)) then None
    else Some (ConvertRSParticipantToParticipant np)) (map_range 0 new) in
  let removed := omap (fun '(id, p) =>
    if bool_decide (is_Some (new !! id)) then None else Some p) (map_range 1 old) in
  let modified := omap (fun '(id, p) =>
    match new !! id with
    | Some np => if participant_changed p np then Some (merge_participant p np) else None
    | None => None
    end) (map_range 2 old) in
  (added, removed, modified).

(** ** Updating a session *)

Definition ext_set (k v : string) (s : RecordingSession) : RecordingSession :=
  s <| rs_ExtendedMetadata := Some (<[k := v]> (default ∅ (rs_ExtendedMetadata s))) |>.

Definition ext_delete (k : string) (s : RecordingSession) : RecordingSession :=
  s <| rs_ExtendedMetadata := Some (delete k (default ∅ (rs_ExtendedMetadata s))) |>.

Definition update_reason (m : RSMetadata) (s : RecordingSession) : RecordingSession :=
  let reason := trim_space (md_Reason m) in
  if String.eqb reason "" then s else
  ext_set "reason" reason (ext_set "state_reason" reason (s <| rs_StateReason := reason |>)).

Definition update_reason_ref (m : RSMetadata) (s : RecordingSession) : RecordingSession :=
  let ref := trim_space (md_ReasonRef m) in
  if String.eqb ref "" then s else
  ext_set "reason_ref" ref (ext_set "state_reason_ref" ref (s <| rs_StateReasonRef := ref |>)).

Definition update_expires `{Rfc3339} (m : RSMetadata) (s : RecordingSession) : RecordingSession :=
  let expires := trim_space (md_Expires m) in
  if String.eqb expires "" then s else
  let s := ext_set "expires" expires (ext_set "state_expires" expires s) in
  match parse_rfc3339 expires with
  | inl t => s <| rs_StateExpires := t |>
  | inr _ => s
  end.

Definition update_groups (m : RSMetadata) (s : RecordingSession) : RecordingSession :=
  match md_SessionGroupAssociations m with
  | [] => s
  | groups =>
    foldl (fun s a =>
      ext_set ("session_group_" +:+ sga_SessionGroupID a) (sga_Role a)
        (s <| rs_SessionGroupRoles :=
             Some (<[sga_SessionGroupID a := sga_Role a]> (default ∅ (rs_SessionGroupRoles s))) |>))
      (s <| rs_SessionGroups := groups |> <| rs_SessionGroupRoles := Some ∅ |>) groups
  end.

(** One policy update; [now] is the clock read for it. *)
Definition update_policy `{Unicode} `{Rfc3339} (now : Time) (p : PolicyUpdate)
    (s : RecordingSession) : RecordingSession :=
  let raw := trim_space (pu_Timestamp p) in
  let reported := if String.eqb raw "" then now else
                  match parse_rfc3339 raw with inl t => t | inr _ => now end in
  let status := to_lower (trim_space (pu_Status p)) in
  let s := s <| rs_PolicyStates :=
    Some (<[pu_PolicyID p := mkPolicyAckStatus status (pu_Acknowledged p) reported raw]>
            (default ∅ (rs_PolicyStates s))) |> in
  let key := "policy_" +:+ pu_PolicyID p +:+ "_status" in
  let s := ext_set (key +:+ "_ack") (format_bool (pu_Acknowledged p)) (ext_set key status s) in
  if String.eqb raw "" then ext_delete (key +:+ "_timestamp") s
  else ext_set (key +:+ "_timestamp") raw s.

Fixpoint update_policies `{Unicode} `{Rfc3339} (clock : nat -> Time) (k : nat)
    (l : list PolicyUpdate) (s : RecordingSession) : RecordingSession :=
  match l with
  | [] => s
  | p :: l => update_policies clock (S k) l (update_policy (clock k) p s)
  end.

Definition update_policy_states `{Unicode} `{Rfc3339} (clock : nat -> Time) (m : RSMetadata)
    (s : RecordingSession) : RecordingSession :=
  match md_PolicyUpdates m with
  | [] => s
  | l => update_policies clock 0 l
           (s <| rs_PolicyUpdates := l |> <| rs_PolicyStates := Some ∅ |>)
  end.

Definition update_sequence (m : RSMetadata) (s : RecordingSession) : RecordingSession :=
  if 0 <? md_Sequence m then
    if rs_SequenceNumber s <=? md_Sequence m
    then s <| rs_SequenceNumber := md_Sequence m |> else s
  else if rs_SequenceNumber s =? 0 then s <| rs_SequenceNumber := 1 |> else s.

(** [UpdateRecordingSession]; [clock k] is the [k]-th reading of the clock. *)
Definition UpdateRecordingSession `{Unicode} `{Rfc3339} `{!GoMapRange string}
    (clock : nat -> Time) (s : RecordingSession) (m : RSMetadata) : RecordingSession :=
  let s := s <| rs_ExtendedMetadata := Some (default ∅ (rs_ExtendedMetadata s)) |> in
  let s := if String.eqb (md_State m) "" then s else s <| rs_RecordingState := md_State m |> in
  let s := update_expires m (update_reason_ref m (update_reason m s)) in
  let s := s <| rs_Participants := updateParticipants (rs_Participants s) (md_Participants m) |> in
  let s := update_policy_states clock m (update_groups m s) in
  let s := update_sequence m s in
  let k := length (md_PolicyUpdates m) in
  s <| rs_AssociatedTime := clock k |> <| rs_UpdatedAt := clock (S k) |>.

(** ** Communication URIs *)

(** A value with the scheme of its type in front. *)
Definition with_scheme `{Unicode} (scheme value : string) : string :=
  if has_prefix (to_lower value) scheme then value else scheme +:+ value.

Definition NormalizeCommunicationURI `{Unicode} (c : CommunicationID) : string :=
  let value := trim_space (ci_Value c) in
  if String.eqb value "" then "" else
  let type := to_lower (trim_space (ci_Type c)) in
  if String.eqb type "sip" then with_scheme "sip:" value
  else if String.eqb type "tel" then with_scheme "tel:" value
  else value.

(** ** Failover metadata and notifications *)

Definition display_name (p : Participant) : string := or_else (pt_DisplayName p) (pt_Name p).

Definition base_participant (p : Participant) : RSParticipant :=
  zero_RSParticipant <| rp_ID := pt_ID p |> <| rp_Name := pt_Name p |>
    <| rp_DisplayName := display_name p |> <| rp_Role := pt_Role p |>.

(** The names entry of a nameID element. *)
Definition names_of (p : Participant) : list LocalizedName :=
  if String.eqb (pt_Name p) "" then [] else [mkLocalizedName "" (pt_Name p)].

Definition name_entry (p : Participant) (uri : string) : RSNameID :=
  zero_RSNameID <| ni_AOR := uri |> <| ni_URI := uri |> <| ni_Display := display_name p |>
    <| ni_Names := names_of p |>.

(** All communication IDs of a participant, each with its nameID. *)
Definition failover_participant `{Unicode} (p : Participant) : RSParticipant :=
  let uris := map NormalizeCommunicationURI (pt_CommunicationIDs p) in
  let aors := zip_with (fun c uri => mkAor uri uri (ci_DisplayName c) (ci_Priority c))
                (pt_CommunicationIDs p) uris in
  let infos := map (name_entry p) uris in
  let infos := match infos with
               | [] => if String.eqb (display_name p) "" then []
                       else [zero_RSNameID <| ni_Display := display_name p |>
                               <| ni_Names := names_of p |>]
               | _ => infos
               end in
  (base_participant p) <| rp_Aor := aors |> <| rp_NameInfos := infos |>.

(** [fresh] is the UUID generated when the session has no failover ID. *)
Definition CreateFailoverMetadata `{Unicode} (fresh : string) (s : RecordingSession) : RSMetadata :=
  let failoverID := or_else (rs_FailoverID s) fresh in
  Normalize (zero_RSMetadata
    <| md_SessionID := rs_ID s |> <| md_State := rs_RecordingState s |>
    <| md_Sequence := i64 (rs_SequenceNumber s + 1) |> <| md_Reason := "failover" |>
    <| md_ReasonRef := "urn:ietf:params:xml:ns:recording:1:failover" |>
    <| md_SessionRecordingAssoc := zero_RSAssociation <| ra_SessionID := rs_ID s |>
         <| ra_FixedID := failoverID |> <| ra_CallID := rs_ID s |> |>
    <| md_Participants := map failover_participant (rs_Participants s) |>).

(** The first communication ID only, as the notifications send it. *)
Definition state_participant `{Unicode} (p : Participant) : RSParticipant :=
  match pt_CommunicationIDs p with
  | [] => base_participant p
  | c :: _ =>
    let uri := NormalizeCommunicationURI c in
    (base_participant p) <| rp_Aor := [mkAor uri uri "" 0] |>
      <| rp_NameInfos := [name_entry p uri] |>
  end.

Definition GenerateStateChangeMetadata `{Unicode} (s : RecordingSession)
    (newState reason : string) : RSMetadata :=
  Normalize (zero_RSMetadata
    <| md_SessionID := rs_ID s |> <| md_State := newState |>
    <| md_Sequence := i64 (rs_SequenceNumber s + 1) |> <| md_Reason := reason |>
    <| md_SessionRecordingAssoc := zero_RSAssociation <| ra_SessionID := rs_ID s |>
         <| ra_FixedID := rs_FailoverID s |> |>
    <| md_Participants := map state_participant (rs_Participants s) |>).

Definition update_participant `{Unicode} (p : Participant) : RSParticipant :=
  match pt_CommunicationIDs p with
  | [] => base_participant p
  | c :: _ =>
    let uri := NormalizeCommunicationURI c in
    (base_participant p) <| rp_Aor := [mkAor uri uri (ci_DisplayName c) (ci_Priority c)] |>
      <| rp_NameInfos := [name_entry p uri] |>
  end.

Definition GenerateSessionUpdateNotification `{Unicode} `{Rfc3339} (s : RecordingSession)
    (reason : string) : RSMetadata :=
  Normalize (zero_RSMetadata
    <| md_SessionID := rs_ID s |> <| md_State := rs_RecordingState s |>
    <| md_Sequence := i64 (rs_SequenceNumber s + 1) |> <| md_Reason := reason |>
    <| md_Expires := if is_zero_time (rs_EndTime s) then "" else format_rfc3339 (rs_EndTime s) |>
    <| md_SessionRecordingAssoc := zero_RSAssociation <| ra_SessionID := rs_ID s |>
         <| ra_FixedID := rs_FailoverID s |> |>
    <| md_Participants := map update_participant (rs_Participants s) |>).

(** ** Session recovery *)

Inductive session_error :=
| NilMetadata
| MissingFields (has_session_id has_fixed_id : bool)
| RecoveredWithoutParticipants (session_id failover_id : string)
| NilSessions
| SessionIDMismatch (original recovered : string)
| FailoverIDMismatch (original recovered : string)
| MissingParticipants (ids : list string).

Definition ParseFailoverMetadata (m : option RSMetadata) : session_error + string * string :=
  match m with
  | None => inl NilMetadata
  | Some m =>
    let id := md_SessionID m in
    let fixed := ra_FixedID (md_SessionRecordingAssoc m) in
    if String.eqb id "" || String.eqb fixed ""
    then inl (MissingFields (negb (String.eqb id "")) (negb (String.eqb fixed "")))
    else inr (id, fixed)
  end.

(** The recovered session and the error returned with it, if any; [clock]
    gives the three clock readings. *)
Definition RecoverSession (clock : nat -> Time) (m : option RSMetadata)
    : option RecordingSession * option session_error :=
  match m with
  | None => (None, Some NilMetadata)
  | Some m =>
    match ParseFailoverMetadata (Some m) with
    | inl e => (None, Some e)
    | inr (id, fixed) =>
      let s := zero_RecordingSession
        <| rs_ID := id |> <| rs_FailoverID := fixed |> <| rs_RecordingState := md_State m |>
        <| rs_SequenceNumber := md_Sequence m |> <| rs_AssociatedTime := clock 0%nat |>
        <| rs_ReplacesSessionID := id |> <| rs_CreatedAt := clock 1%nat |>
        <| rs_UpdatedAt := clock 2%nat |> <| rs_IsValid := true |> in
      match md_Participants m with
      | [] => (Some s, Some (RecoveredWithoutParticipants id fixed))
      | ps => (Some (s <| rs_Participants := map ConvertRSParticipantToParticipant ps |>), None)
      end
    end
  end.

(** [append] unless present. *)
Definition add_new (x : string) (l : list string) : list string :=
  if bool_decide (x ∈ l) then l else l ++ [x].

(** Adds a stream to the first session participant with the given ID. *)
Fixpoint add_stream (pid stream : string) (l : list Participant) : list Participant :=
  match l with
  | [] => []
  | p :: l =>
    if String.eqb (pt_ID p) pid
    then p <| pt_MediaStreams := add_new stream (pt_MediaStreams p) |> :: l
    else p :: add_stream pid stream l
  end.

(** One stream of the metadata: its type, then every participant and every one
    of its send labels. *)
Definition recover_stream (ps : list RSParticipant) (s : RecordingSession) (st : Stream)
    : RecordingSession :=
  let s := if String.eqb (sm_Type st) "" then s
           else s <| rs_MediaStreamTypes := add_new (sm_Type st) (rs_MediaStreamTypes s) |> in
  let sends := flat_map (fun p => map (fun l => (rp_ID p, l)) (rp_Send p)) ps in
  s <| rs_Participants := foldl (fun l '(pid, label) =>
         if String.eqb label (sm_Label st) then add_stream pid (sm_StreamID st) l else l)
         (rs_Participants s) sends |>.

Definition ProcessStreamRecovery (s : RecordingSession) (m : RSMetadata) : RecordingSession :=
  foldl (recover_stream (md_Participants m)) (s <| rs_MediaStreamTypes := [] |>) (md_Streams m).

Definition id_set (l : list Participant) : gset string := list_to_set (map pt_ID l).

(** The order of the reported IDs is the iteration order of a map. *)
Definition ValidateSessionContinuity `{!GoMapRange string} (original recovered : option RecordingSession)
    : option session_error :=
  match original, recovered with
  | Some o, Some r =>
    if negb (String.eqb (rs_ID o) (rs_ID r)) then Some (SessionIDMismatch (rs_ID o) (rs_ID r)) else
    if negb (String.eqb (rs_FailoverID o) "") && negb (String.eqb (rs_FailoverID r) "") &&
       negb (String.eqb (rs_FailoverID o) (rs_FailoverID r))
    then Some (FailoverIDMismatch (rs_FailoverID o) (rs_FailoverID r)) else
    let ids := foldl (fun (m : gmap string unit) p => <[pt_ID p := tt]> m) ∅ (rs_Participants o) in
    let rec_ids := foldl (fun (m : gmap string unit) p => <[pt_ID p := tt]> m) ∅ (rs_Participants r) in
    match filter (fun id => rec_ids !! id = None) (map_range 0 ids).*1 with
    | [] => None
    | missing => Some (MissingParticipants missing)
    end
  | _, _ => Some NilSessions
  end.

#[global] Arguments ValidateSessionContinuity : simpl never.

(** ** The Replaces header *)

Definition CreateReplacesHeader (s : RecordingSession) (dialogID : string) (early : bool) : string :=
  let h := rs_ID s in
  let h := if String.eqb dialogID "" then h
           else foldl (fun h part => h +:+ ";" +:+ part) h (tail (split_on semicolon dialogID)) in
  if early then h +:+ ";early-only" else h.

Inductive replaces_error := EmptyReplaces | ReplacesMissingTags | ReplacesMissingComponents.

Record Replaces := mkReplaces {
  rh_callID : string;
  rh_toTag : string;
  rh_fromTag : string;
  rh_earlyOnly : bool
}.

Definition replaces_part (r : Replaces) (part : string) : Replaces :=
  if has_prefix part "to-tag=" then r <| rh_toTag := trim_prefix part "to-tag=" |>
  else if has_prefix part "from-tag=" then r <| rh_fromTag := trim_prefix part "from-tag=" |>
  else if String.eqb part "early-only" then r <| rh_earlyOnly := true |>
  else r.

(** The parsed components are returned together with the last error. *)
Definition ParseReplacesHeader (h : string) : Replaces * option replaces_error :=
  let none := mkReplaces "" "" "" false in
  if String.eqb h "" then (none, Some EmptyReplaces) else
  match split_on semicolon h with
  | callID :: ((_ :: _ :: _) as parts) =>
    let r := foldl replaces_part (none <| rh_callID := callID |>) parts in
    if String.eqb (rh_callID r) "" || String.eqb (rh_toTag r) "" || String.eqb (rh_fromTag r) ""
    then (r, Some ReplacesMissingComponents) else (r, None)
  | _ => (none, Some ReplacesMissingTags)
  end.

(** ** Timeouts *)

Definition SetSessionExpiration (now : Time) (s : RecordingSession) (d : Duration) : RecordingSession :=
  let s := s <| rs_RetentionPeriod := d |> in
  let s := if is_zero_time (rs_StartTime s) then s <| rs_StartTime := now |> else s in
  s <| rs_EndTime := rs_StartTime s + d |>.

Definition GetEffectiveRTPTimeout (s : option RecordingSession) (global : Duration) : Duration :=
  match s with
  | Some s => if 0 <? rs_CustomRTPTimeout s then rs_CustomRTPTimeout s
              else if 0 <? rs_Timeout s then rs_Timeout s else global
  | None => global
  end.

(** ** Facts about participant updates *)

Section update_participants.
Context `{!GoMapRange string}.

(** What a metadata participant becomes. *)
Definition updated (m : gmap string Participant) (np : RSParticipant) : Participant :=
  match m !! rp_ID np with
  | Some p => merge_participant p np
  | None => new_participant np
  end.

Lemma merge_participant_ID p np : pt_ID (merge_participant p np) = pt_ID p.
Proof. unfold merge_participant. destruct p, (rp_Aor np); by case_tests. Qed.

Lemma updated_ID m np :
  (forall id p, m !! id = Some p -> pt_ID p = id) -> pt_ID (updated m np) = rp_ID np.
Proof.
  intros Hm. unfold updated. destruct (m !! rp_ID np) as [p|] eqn:E; [|done].
  rewrite merge_participant_ID. eauto.
Qed.

(** With distinct IDs the loop is a map over the metadata participants, and
    the map keeps exactly the participants that were not mentioned. *)
Lemma update_fold new m result :
  NoDup (map rp_ID new) ->
  foldl update_step (m, result) new =
    (filter (fun kv => kv.1 ∉ map rp_ID new) m, result ++ map (updated m) new).
Proof.
  revert m result. induction new as [|np new IH]; intros m result; cbn.
  { intros _. rewrite app_nil_r. f_equal. symmetry. apply map_filter_id.
    intros. apply not_elem_of_nil. }
  rewrite NoDup_cons. intros [Hnp Hnd]. unfold updated at 1.
  destruct (m !! rp_ID np) as [p|] eqn:E; rewrite IH by done; rewrite <- app_assoc; f_equal.
  - apply map_eq. intros id. apply option_eq. intros q.
    rewrite !map_lookup_filter_Some, lookup_delete_Some. set_solver.
  - cbn. do 2 f_equal. apply map_ext_in. intros x Hx. unfold updated.
    rewrite lookup_delete_ne; [done|]. intros Heq. apply Hnp. rewrite Heq.
    apply list_elem_of_fmap. exists x. split; [done|]. by apply list_elem_of_In.
  - apply map_eq. intros id. apply option_eq. intros q.
    rewrite !map_lookup_filter_Some. cbn. rewrite not_elem_of_cons.
    split; [|naive_solver]. intros [Hq ?]. split; [done|]. split; [congruence|done].
Qed.

(** The participants kept although the metadata does not mention them. *)
Definition kept (existing : list Participant) (new : list RSParticipant) : list Participant :=
  (map_range 0 (filter (fun kv => kv.1 ∉ map rp_ID new) (participant_map existing))).*2.

Lemma updateParticipants_unfold existing new :
  NoDup (map rp_ID new) ->
  updateParticipants existing new =
    map (updated (participant_map existing)) new ++ kept existing new.
Proof. intros Hnd. unfold updateParticipants. by rewrite update_fold by done. Qed.

Lemma elem_of_kept existing new p :
  p ∈ kept existing new <->
    participant_map existing !! pt_ID p = Some p /\ pt_ID p ∉ map rp_ID new.
Proof.
  unfold kept. rewrite list_elem_of_fmap. split.
  - intros [[id q] [-> Hin]]. apply elem_of_map_range, map_lookup_filter_Some in Hin as [Hq Hn].
    cbn in *. by destruct (index_by_Some _ _ _ _ Hq) as [_ ->].
  - intros [Hp Hn]. exists (pt_ID p, p). split; [done|].
    apply elem_of_map_range, map_lookup_filter_Some. done.
Qed.

Lemma kept_NoDup existing new : NoDup (map pt_ID (kept existing new)).
Proof.
  unfold kept.
  pose proof (map_range_NoDup_fst 0 (filter (fun kv => kv.1 ∉ map rp_ID new) (participant_map existing))) as Hnd.
  assert (Heq : map pt_ID (map_range 0 (filter (fun kv => kv.1 ∉ map rp_ID new)
    (participant_map existing))).*2 = (map_range 0 (filter (fun kv => kv.1 ∉ map rp_ID new)
    (participant_map existing))).*1).
  { rewrite map_map. apply map_ext_in. intros [id q] Hin. cbn.
    apply list_elem_of_In, elem_of_map_range, map_lookup_filter_Some in Hin as [Hq _].
    by destruct (index_by_Some _ _ _ _ Hq) as [_ ->]. }
  by rewrite Heq.
Qed.

Lemma participant_map_ID existing id p : participant_map existing !! id = Some p -> pt_ID p = id.
Proof. intros Hp. by destruct (index_by_Some _ _ _ _ Hp). Qed.

Lemma map_updated_ID existing new :
  map pt_ID (map (updated (participant_map existing)) new) = map rp_ID new.
Proof.
  rewrite map_map. apply map_ext. intros np. apply updated_ID. apply participant_map_ID.
Qed.

Lemma updateParticipants_IDs existing new :
  NoDup (map rp_ID new) ->
  NoDup (map pt_ID (updateParticipants existing new)) /\
  (forall id, id ∈ map pt_ID (updateParticipants existing new) <->
     id ∈ map rp_ID new \/ id ∈ map pt_ID existing).
Proof.
  intros Hnd. rewrite updateParticipants_unfold, map_app, map_updated_ID by done. split.
  - apply NoDup_app. split; [done|]. split; [|apply kept_NoDup].
    intros id Hid Hk. apply list_elem_of_fmap in Hk as [p [-> Hp]].
    by apply elem_of_kept in Hp as [_ ?].
  - intros id. rewrite elem_of_app. split.
    + intros [Hid|Hk]; [by left|]. right. apply list_elem_of_fmap in Hk as [p [-> Hp]].
      apply elem_of_kept in Hp as [Hp _]. apply index_by_Some in Hp as [Hp _].
      apply list_elem_of_fmap. eauto.
    + intros [Hid|Hid]; [by left|]. destruct (decide (id ∈ map rp_ID new)); [by left|]. right.
      apply (index_by_is_Some pt_ID) in Hid as [p Hp].
      apply list_elem_of_fmap. exists p. pose proof (participant_map_ID _ _ _ Hp) as <-.
      split; [done|]. by apply elem_of_kept.
Qed.

(** The attributes of a participant that metadata never touches. *)
Definition identity (p : Participant) :=
  (pt_ID p, pt_Role p, pt_ConsentObtained p, pt_RecordingAware p, pt_Anonymized p,
   pt_MediaStreams p, pt_JoinTime p, pt_LeaveTime p).

Lemma merge_identity p np : identity (merge_participant p np) = identity p.
Proof. unfold merge_participant. destruct p, (rp_Aor np); by case_tests. Qed.

Lemma updateParticipants_keeps existing new id p :
  NoDup (map rp_ID new) -> participant_map existing !! id = Some p ->
  exists q, q ∈ updateParticipants existing new /\ identity q = identity p /\
    (id ∉ map rp_ID new -> q = p).
Proof.
  intros Hnd Hp. pose proof (participant_map_ID _ _ _ Hp) as Hid.
  rewrite updateParticipants_unfold by done.
  destruct (decide (id ∈ map rp_ID new)) as [Hin|Hin].
  - apply list_elem_of_fmap in Hin as [np [Hnp Hin]].
    exists (merge_participant p np). split; [|split; [apply merge_identity|]].
    + apply elem_of_app. left. apply list_elem_of_fmap. exists np. split; [|done].
      unfold updated. by rewrite <- Hnp, Hp.
    + intros []. rewrite Hnp. apply list_elem_of_fmap. eauto.
  - exists p. split; [|done]. apply elem_of_app. right. apply elem_of_kept. by rewrite Hid.
Qed.
End update_participants.

(** ** Facts about failover *)

Section failover.
Context `{Unicode}.

#[local] Arguments display_name : simpl never.
#[local] Arguments NormalizeCommunicationURI : simpl never.

Lemma display_name_empty p : display_name p = "" -> pt_Name p = "".
Proof. unfold display_name. rewrite or_else_eq_empty. by intros []. Qed.

(** The nameID entries of a failover participant carry its own name. *)
Lemma failover_names p : name_of_infos (rp_NameInfos (failover_participant p)) = "" \/ pt_Name p <> "".
Proof.
  destruct (String.eqb (pt_Name p) "") eqn:E; bool_to_prop; [left|by right].
  unfold failover_participant, name_of_infos. cbn.
  assert (Hn : forall uris, flat_map (fun ni => map ln_Value (ni_Names ni))
    (map (name_entry p) uris) = []).
  { induction uris as [|u uris IH]; [done|]. cbn. rewrite IH. unfold names_of. by rewrite E. }
  destruct (pt_CommunicationIDs p) as [|c l]; cbn.
  - destruct (String.eqb (display_name p) ""); [done|]. cbn. unfold names_of. by rewrite E.
  - rewrite Hn. unfold names_of. by rewrite E.
Qed.

Lemma failover_display p :
  display_name p = "" -> display_of_infos (rp_NameInfos (failover_participant p)) = "".
Proof.
  intros Hd. unfold failover_participant, display_of_infos. cbn.
  destruct (pt_CommunicationIDs p) as [|c l]; cbn; rewrite Hd; done.
Qed.

(** Normalization leaves a failover participant as it is. *)
Lemma normalize_failover_participant p :
  normalize_participant (failover_participant p) = failover_participant p.
Proof.
  rewrite normalize_participant_unfold.
  assert (Hn : normal_name (pt_Name p) (rp_NameInfos (failover_participant p)) = pt_Name p).
  { unfold normal_name. destruct (failover_names p) as [->|Hne].
    - by rewrite or_else_empty_r.
    - by rewrite or_else_present. }
  assert (Hd : normal_display (pt_Name p) (display_name p)
    (rp_NameInfos (failover_participant p)) = display_name p).
  { unfold normal_display. rewrite Hn. destruct (String.eqb (display_name p) "") eqn:E.
    - bool_to_prop. rewrite failover_display, (display_name_empty p E), E by done. done.
    - bool_to_prop. by rewrite or_else_present. }
  assert (Ha : normal_aor (rp_Aor (failover_participant p)) (rp_NameInfos (failover_participant p))
    = rp_Aor (failover_participant p)).
  { unfold failover_participant. cbn. destruct (pt_CommunicationIDs p) as [|c l]; cbn; [|done].
    by destruct (String.eqb (display_name p) ""). }
  revert Hn Hd Ha. unfold failover_participant. cbn. intros -> -> ->.
  by rewrite or_else_empty_r.
Qed.

#[local] Arguments failover_participant : simpl never.
#[local] Arguments blank : simpl never.
#[local] Arguments sip_id : simpl never.

(** The participant recovered from failover metadata. *)
Definition recovered_participant (p : Participant) : Participant :=
  zero_Participant <| pt_ID := pt_ID p |> <| pt_Name := pt_Name p |>
    <| pt_DisplayName := display_name p |> <| pt_Role := pt_Role p |>
    <| pt_CommunicationIDs := map (fun c => sip_id (NormalizeCommunicationURI c))
                                (pt_CommunicationIDs p) |>.

Lemma convert_failover_participant p :
  ConvertRSParticipantToParticipant (failover_participant p) = recovered_participant p.
Proof.
  unfold ConvertRSParticipantToParticipant, recovered_participant.
  assert (Haor : sip_ids (rp_Aor (failover_participant p)) =
    map (fun c => sip_id (NormalizeCommunicationURI c)) (pt_CommunicationIDs p)).
  { unfold failover_participant, sip_ids. cbn. induction (pt_CommunicationIDs p); cbn; congruence. }
  assert (Hinfo : pt_CommunicationIDs p = [] ->
    flat_map (fun ni => if blank (or_else (ni_AOR ni) (ni_URI ni)) then []
      else [sip_id (or_else (ni_AOR ni) (ni_URI ni))]) (rp_NameInfos (failover_participant p)) = []).
  { intros Hnil. unfold failover_participant. rewrite Hnil. cbn.
    by destruct (String.eqb (display_name p) ""). }
  assert (Hd : (if String.eqb (display_name p) "" then
    if negb (String.eqb (pt_Name p) "") then pt_Name p
    else display_of_infos (rp_NameInfos (failover_participant p)) else display_name p)
    = display_name p).
  { destruct (String.eqb (display_name p) "") eqn:E; [|done]. bool_to_prop.
    by rewrite (display_name_empty p E), failover_display. }
  rewrite Haor. destruct (pt_CommunicationIDs p) as [|c l] eqn:Ec; cbn.
  - rewrite Hinfo by done. revert Hd. unfold failover_participant. cbn.
    destruct (String.eqb (display_name p) "") eqn:E; [|done].
    destruct (String.eqb (pt_Name p) ""); cbn; by intros ->.
  - revert Hd. unfold failover_participant. cbn.
    destruct (String.eqb (display_name p) "") eqn:E; [|done].
    destruct (String.eqb (pt_Name p) ""); cbn; by intros ->.
Qed.

Lemma CreateFailoverMetadata_fields fresh s :
  let m := CreateFailoverMetadata fresh s in
  md_SessionID m = rs_ID s /\ md_State m = rs_RecordingState s /\
  md_Sequence m = i64 (rs_SequenceNumber s + 1) /\
  ra_FixedID (md_SessionRecordingAssoc m) = or_else (rs_FailoverID s) fresh /\
  md_Participants m = map failover_participant (rs_Participants s).
Proof.
  unfold CreateFailoverMetadata. cbv zeta. rewrite Normalize_unfold. cbn.
  split; [by destruct (rs_ID s)|]. rewrite or_else_empty_r. repeat split.
  rewrite map_map. apply map_ext, normalize_failover_participant.
Qed.
End failover.

Lemma set_fold_lookup (l : list Participant) id :
  foldl (fun (m : gmap string unit) p => <[pt_ID p := tt]> m) ∅ l !! id = None <->
  id ∉ map pt_ID l.
Proof.
  induction l as [|p l IH] using rev_ind; [cbn; set_solver|].
  rewrite foldl_app, map_app. cbn. rewrite lookup_insert, elem_of_app, list_elem_of_singleton.
  case_decide; naive_solver.
Qed.

(** Two sessions with the same ID, compatible failover IDs and no participant
    of the first missing from the second are continuous. *)
Lemma continuity_ok `{!GoMapRange string} o r :
  rs_ID o = rs_ID r ->
  (rs_FailoverID o = "" \/ rs_FailoverID r = "" \/ rs_FailoverID o = rs_FailoverID r) ->
  (forall id, id ∈ map pt_ID (rs_Participants o) -> id ∈ map pt_ID (rs_Participants r)) ->
  ValidateSessionContinuity (Some o) (Some r) = None.
Proof.
  intros Hid Hf Hps. unfold ValidateSessionContinuity.
  rewrite Hid, String.eqb_refl. cbn.
  assert (Hfail : negb (String.eqb (rs_FailoverID o) "") && negb (String.eqb (rs_FailoverID r) "") &&
    negb (String.eqb (rs_FailoverID o) (rs_FailoverID r)) = false).
  { destruct Hf as [->|[->| ->]]; rewrite ?String.eqb_refl; cbn; rewrite ?andb_false_r; done. }
  rewrite Hfail.
  match goal with |- context [filter ?P ?l] => destruct (filter P l) as [|x l'] eqn:E end; [done|].
  exfalso. assert (Hx : x ∈ x :: l') by left. rewrite <- E in Hx.
  apply list_elem_of_filter in Hx as [Hnone Hx].
  apply elem_of_map_range_fst in Hx. apply set_fold_lookup in Hnone. apply Hnone, Hps.
  destruct (decide (x ∈ map pt_ID (rs_Participants o))) as [|Hn]; [done|].
  apply set_fold_lookup in Hn. rewrite Hn in Hx. by destruct Hx.
Qed.

(** ** Facts about communication URIs *)

Section uris.
Context `{Unicode}.

Lemma with_scheme_stable scheme v :
  (scheme = "sip:" \/ scheme = "tel:") -> trim_space v = v -> v <> "" ->
  trim_space (with_scheme scheme v) = with_scheme scheme v /\
  with_scheme scheme v <> "" /\
  has_prefix (to_lower (with_scheme scheme v)) scheme = true.
Proof.
  intros Hs Hv Hne. unfold with_scheme.
  destruct (has_prefix (to_lower v) scheme) eqn:E; [done|].
  destruct Hs as [-> | ->]; simpl; (split; [|split; [discriminate|by destruct v; [|destruct (to_lower _)]]]);
    repeat (apply trim_space_app_l; [reflexivity|reflexivity| |done]); done.
Qed.

Lemma normalize_uri_idemp c :
  NormalizeCommunicationURI (c <| ci_Value := NormalizeCommunicationURI c |>) =
  NormalizeCommunicationURI c.
Proof.
  destruct c as [ty v ? ? ? ? ? ?]. unfold NormalizeCommunicationURI. cbn [ci_Value ci_Type field_set].
  destruct (String.eqb (trim_space v) "") eqn:Ev; [done|].
  assert (Hs : forall scheme, (scheme = "sip:" \/ scheme = "tel:") ->
    String.eqb (trim_space (with_scheme scheme (trim_space v))) "" = false /\
    with_scheme scheme (trim_space (with_scheme scheme (trim_space v))) =
      with_scheme scheme (trim_space v)).
  { intros scheme Hsch. apply String.eqb_neq in Ev.
    destruct (with_scheme_stable scheme (trim_space v)) as (-> & Hne & Hp);
      [done|apply trim_space_idemp|done|].
    split; [by apply String.eqb_neq|]. unfold with_scheme at 1. by rewrite Hp. }
  destruct (String.eqb (to_lower (trim_space ty)) "sip") eqn:E1.
  { destruct (Hs "sip:") as [-> ->]; auto. }
  destruct (String.eqb (to_lower (trim_space ty)) "tel") eqn:E2.
  { destruct (Hs "tel:") as [-> ->]; auto. }
  rewrite trim_space_idemp, Ev. done.
Qed.

(** A telephone identifier that went through one failover is a SIP
    identifier with a tel: value, which the next failover prefixes again. *)
Lemma tel_uri_twice v :
  trim_space v = v -> v <> "" -> has_prefix (to_lower v) "tel:" = false ->
  NormalizeCommunicationURI (sip_id (NormalizeCommunicationURI
    (zero_CommunicationID <| ci_Type := "tel" |> <| ci_Value := v |>))) = "sip:tel:" +:+ v.
Proof.
  intros Hv Hne Hp. unfold NormalizeCommunicationURI. cbn [ci_Value ci_Type field_set sip_id zero_CommunicationID].
  rewrite Hv. apply String.eqb_neq in Hne as Hne'. rewrite Hne'.
  change (to_lower (trim_space "tel")) with "tel". cbn [String.eqb Ascii.eqb Bool.eqb].
  assert (Ht : with_scheme "tel:" v = "tel:" +:+ v) by (unfold with_scheme; by rewrite Hp).
  rewrite Ht.
  destruct (with_scheme_stable "tel:" v) as (Htr & Hn & _); [by right|done|done|].
  rewrite Ht in Htr, Hn. rewrite Htr. apply String.eqb_neq in Hn. rewrite Hn.
  change (to_lower (trim_space "sip")) with "sip". cbn [String.eqb Ascii.eqb Bool.eqb].
  unfold with_scheme. done.
Qed.
End uris.

(** ** Facts about the Replaces header *)

Lemma replaces_split id a b (early : bool) :
  lacks semicolon id = true -> lacks semicolon a = true -> lacks semicolon b = true ->
  split_on semicolon ((id +:+ ";" +:+ a) +:+ ";" +:+ b +:+ (if early then ";early-only" else "")) =
    id :: a :: b :: (if early then ["early-only"] else []).
Proof.
  intros Hi Ha Hb. rewrite !string_app_assoc.
  change (id +:+ ";" +:+ a +:+ ";" +:+ b +:+ (if early then ";early-only" else "")) with
    (id +:+ String semicolon (a +:+ String semicolon (b +:+ (if early then ";early-only" else "")))).
  rewrite split_on_app, split_on_app by done. do 2 f_equal. destruct early.
  - change ";early-only" with (String semicolon "early-only"). by rewrite split_on_app.
  - rewrite string_app_nil_r. by apply split_on_lacks.
Qed.

(** ** Facts about stream recovery *)

Lemma elem_of_add_new x y l : y ∈ add_new x l <-> y = x \/ y ∈ l.
Proof.
  unfold add_new. case_bool_decide; [naive_solver|].
  rewrite elem_of_app, list_elem_of_singleton. tauto.
Qed.

Lemma add_new_NoDup x l : NoDup l -> NoDup (add_new x l).
Proof.
  unfold add_new. case_bool_decide as Hx; [done|]. intros Hl. apply NoDup_app.
  split; [done|]. split; [|apply NoDup_singleton]. intros y Hy Hin.
  apply list_elem_of_singleton in Hin. congruence.
Qed.

Lemma add_stream_IDs pid st l : map pt_ID (add_stream pid st l) = map pt_ID l.
Proof.
  induction l as [|p l IH]; cbn; [done|].
  destruct (String.eqb (pt_ID p) pid); cbn; [by destruct p|by rewrite IH].
Qed.

(** [add_stream] only adds [st], to one participant with the ID [pid]. *)
Lemma add_stream_mono pid st l q :
  q ∈ l -> exists q', q' ∈ add_stream pid st l /\ pt_ID q' = pt_ID q /\
    pt_MediaStreams q ⊆ pt_MediaStreams q'.
Proof.
  induction l as [|p l IH]; cbn; [by intros ?%elem_of_nil|]. intros [<-|Hq]%elem_of_cons.
  - destruct (String.eqb (pt_ID q) pid).
    + eexists. split; [left|]. destruct q; cbn. split; [done|].
      intros x Hx. apply elem_of_add_new. by right.
    + exists q. split; [left|done].
  - destruct (String.eqb (pt_ID p) pid).
    + exists q. split; [by right|done].
    + destruct (IH Hq) as (q' & ? & ?). exists q'. split; [by right|done].
Qed.

Lemma add_stream_adds pid st l :
  pid ∈ map pt_ID l -> exists q, q ∈ add_stream pid st l /\ pt_ID q = pid /\ st ∈ pt_MediaStreams q.
Proof.
  induction l as [|p l IH]; cbn; [by intros ?%elem_of_nil|]. intros Hin.
  destruct (String.eqb (pt_ID p) pid) eqn:E; bool_to_prop.
  - eexists. split; [left|]. destruct p; cbn in *. split; [done|]. apply elem_of_add_new. by left.
  - apply elem_of_cons in Hin as [?|Hin]; [congruence|].
    destruct (IH Hin) as (q & ? & ?). exists q. split; [by right|done].
Qed.

(** The participants grow: IDs stay, streams are only added. *)
Definition streams_grow (l l' : list Participant) : Prop :=
  map pt_ID l' = map pt_ID l /\
  forall q, q ∈ l -> exists q', q' ∈ l' /\ pt_ID q' = pt_ID q /\ pt_MediaStreams q ⊆ pt_MediaStreams q'.

#[export] Instance streams_grow_preorder : PreOrder streams_grow.
Proof.
  split.
  - intros l. split; [done|]. eauto.
  - intros l1 l2 l3 [Hid1 H1] [Hid2 H2]. split; [congruence|]. intros q Hq.
    destruct (H1 q Hq) as (q' & Hq' & ? & ?). destruct (H2 q' Hq') as (q'' & ? & ? & ?).
    exists q''. split; [done|]. split; [congruence|]. etrans; eauto.
Qed.

Lemma add_stream_grow pid st l : streams_grow l (add_stream pid st l).
Proof. split; [apply add_stream_IDs|]. intros q. apply add_stream_mono. Qed.

Definition apply_sends (st : Stream) (sends : list (string * string)) (l : list Participant)
    : list Participant :=
  foldl (fun l '(pid, label) =>
    if String.eqb label (sm_Label st) then add_stream pid (sm_StreamID st) l else l) l sends.

Lemma apply_sends_grow st sends l : streams_grow l (apply_sends st sends l).
Proof.
  revert l. induction sends as [|[pid label] sends IH]; intros l; cbn; [reflexivity|].
  destruct (String.eqb label _); [|apply IH]. etrans; [apply add_stream_grow|apply IH].
Qed.

Lemma apply_sends_adds st sends l pid :
  (pid, sm_Label st) ∈ sends -> pid ∈ map pt_ID l ->
  exists q, q ∈ apply_sends st sends l /\ pt_ID q = pid /\ sm_StreamID st ∈ pt_MediaStreams q.
Proof.
  revert l. induction sends as [|[pid' label] sends IH]; intros l; cbn; [by intros ?%elem_of_nil|].
  intros [[= <- <-]|Hin]%elem_of_cons Hpid.
  - rewrite String.eqb_refl. destruct (add_stream_adds pid (sm_StreamID st) l Hpid) as (q & Hq & Hid & Hs).
    destruct (apply_sends_grow st sends (add_stream pid (sm_StreamID st) l)) as [_ Hg].
    destruct (Hg q Hq) as (q' & ? & ? & Hsub). exists q'. split; [done|]. split; [congruence|]. by apply Hsub.
  - destruct (String.eqb label _); apply IH; rewrite ?add_stream_IDs; done.
Qed.

Lemma recover_stream_grow ps s st :
  streams_grow (rs_Participants s) (rs_Participants (recover_stream ps s st)).
Proof.
  unfold recover_stream. destruct s; cbn. destruct (String.eqb (sm_Type st) ""); cbn;
    apply (apply_sends_grow st).
Qed.

Lemma recover_streams_grow ps l s :
  streams_grow (rs_Participants s) (rs_Participants (foldl (recover_stream ps) s l)).
Proof.
  revert s. induction l as [|st l IH]; intros s; cbn; [reflexivity|].
  etrans; [apply recover_stream_grow|apply IH].
Qed.

Lemma recover_stream_adds ps s st p :
  p ∈ ps -> sm_Label st ∈ rp_Send p -> rp_ID p ∈ map pt_ID (rs_Participants s) ->
  exists q, q ∈ rs_Participants (recover_stream ps s st) /\ pt_ID q = rp_ID p /\
    sm_StreamID st ∈ pt_MediaStreams q.
Proof.
  intros Hp Hl Hid. unfold recover_stream.
  assert (Hin : (rp_ID p, sm_Label st) ∈ flat_map (fun p => map (fun l => (rp_ID p, l)) (rp_Send p)) ps).
  { apply list_elem_of_In, in_flat_map. exists p. split; [by apply list_elem_of_In|].
    apply list_elem_of_In, list_elem_of_fmap. eauto. }
  destruct s; cbn in *. destruct (String.eqb (sm_Type st) ""); cbn;
    by apply (apply_sends_adds st).
Qed.

Lemma recover_streams_adds ps l s st p :
  st ∈ l -> p ∈ ps -> sm_Label st ∈ rp_Send p -> rp_ID p ∈ map pt_ID (rs_Participants s) ->
  exists q, q ∈ rs_Participants (foldl (recover_stream ps) s l) /\ pt_ID q = rp_ID p /\
    sm_StreamID st ∈ pt_MediaStreams q.
Proof.
  intros Hst Hp Hl. revert s. induction l as [|t l IH]; intros s Hid; [by apply elem_of_nil in Hst|].
  cbn. apply elem_of_cons in Hst as [<-|Hst].
  - destruct (recover_stream_adds ps s st p) as (q & Hq & Hqid & Hs); [done..|].
    destruct (recover_streams_grow ps l (recover_stream ps s st)) as [_ Hg].
    destruct (Hg q Hq) as (q' & ? & ? & Hsub). exists q'. split; [done|]. split; [congruence|]. by apply Hsub.
  - apply IH; [done|]. destruct (recover_stream_grow ps s t) as [-> _]. done.
Qed.

Lemma recover_streams_types ps l s :
  rs_MediaStreamTypes (foldl (recover_stream ps) s l) =
  foldl (fun ts t => if String.eqb t "" then ts else add_new t ts) (rs_MediaStreamTypes s) (map sm_Type l).
Proof.
  revert s. induction l as [|st l IH]; intros s; cbn; [done|]. rewrite IH. f_equal.
  unfold recover_stream. destruct s; cbn. by destruct (String.eqb (sm_Type st) "").
Qed.

Lemma foldl_add_new l acc :
  NoDup acc ->
  let r := foldl (fun ts t => if String.eqb t "" then ts else add_new t ts) acc l in
  NoDup r /\ forall t, t ∈ r <-> t ∈ acc \/ (t <> "" /\ t ∈ l).
Proof.
  revert acc. induction l as [|x l IH]; intros acc Hacc; cbn.
  { split; [done|]. intros t. rewrite elem_of_nil. naive_solver. }
  destruct (String.eqb x "") eqn:E; bool_to_prop.
  - destruct (IH acc Hacc) as [? Ht]. split; [done|]. intros t. rewrite Ht, elem_of_cons. naive_solver.
  - destruct (IH (add_new x acc)) as [? Ht]; [by apply add_new_NoDup|]. split; [done|].
    intros t. rewrite Ht, elem_of_add_new, elem_of_cons. naive_solver.
Qed.

(** ** Facts about session updates *)

(** The fields the steps of an update leave alone. *)
Definition core_fields (s : RecordingSession) :=
  (rs_ID s, rs_FailoverID s, rs_Participants s, rs_SequenceNumber s, rs_RecordingState s).

Section session_updates.
Context `{Unicode} `{Rfc3339} `{!GoMapRange string}.

Lemma ext_set_core k v s : core_fields (ext_set k v s) = core_fields s.
Proof. by destruct s. Qed.

Lemma ext_delete_core k s : core_fields (ext_delete k s) = core_fields s.
Proof. by destruct s. Qed.

Lemma update_reasons_core m s :
  core_fields (update_expires m (update_reason_ref m (update_reason m s))) = core_fields s.
Proof.
  unfold update_expires, update_reason_ref, update_reason.
  case_tests; rewrite ?ext_set_core; cbn; destruct s; done.
Qed.

Lemma update_groups_core m s : core_fields (update_groups m s) = core_fields s.
Proof.
  unfold update_groups. destruct (md_SessionGroupAssociations m) as [|g gs] eqn:E; [done|].
  rewrite <- E. clear E. generalize (md_SessionGroupAssociations m) as l. intros l.
  set (s0 := s <| rs_SessionGroups := l |> <| rs_SessionGroupRoles := Some ∅ |>).
  assert (Hs0 : core_fields s0 = core_fields s) by (by destruct s).
  rewrite <- Hs0. clearbody s0. clear. revert s0.
  induction l as [|a l IH]; intros s; cbn; [done|]. rewrite IH, ext_set_core. by destruct s.
Qed.

Lemma update_policy_core now p s : core_fields (update_policy now p s) = core_fields s.
Proof.
  unfold update_policy. destruct (String.eqb _ ""); rewrite ?ext_delete_core, ?ext_set_core;
    by destruct s.
Qed.

Lemma update_policies_core clock k l s : core_fields (update_policies clock k l s) = core_fields s.
Proof.
  revert k s. induction l as [|p l IH]; intros k s; cbn; [done|]. by rewrite IH, update_policy_core.
Qed.

Lemma update_policy_states_core clock m s :
  core_fields (update_policy_states clock m s) = core_fields s.
Proof.
  unfold update_policy_states. destruct (md_PolicyUpdates m) as [|p l] eqn:E; [done|].
  rewrite update_policies_core. by destruct s.
Qed.

(** The sequence number after an update. *)
Definition next_sequence (seq new : Z) : Z :=
  if 0 <? new then Z.max seq new else if seq =? 0 then 1 else seq.

Lemma update_core clock s m :
  core_fields (UpdateRecordingSession clock s m) =
    (rs_ID s, rs_FailoverID s, updateParticipants (rs_Participants s) (md_Participants m),
     next_sequence (rs_SequenceNumber s) (md_Sequence m),
     or_else (md_State m) (rs_RecordingState s)).
Proof.
  unfold UpdateRecordingSession. cbv zeta.
  set (s1 := s <| rs_ExtendedMetadata := _ |>).
  set (s2 := if String.eqb (md_State m) "" then s1 else s1 <| rs_RecordingState := md_State m |>).
  assert (H2 : core_fields s2 = (rs_ID s, rs_FailoverID s, rs_Participants s, rs_SequenceNumber s,
    or_else (md_State m) (rs_RecordingState s))).
  { unfold s2, s1, or_else. destruct (String.eqb (md_State m) ""); by destruct s. }
  pose proof (update_reasons_core m s2) as H3.
  set (s3 := update_expires m (update_reason_ref m (update_reason m s2))) in *. clearbody s2 s3. clear s1.
  rewrite H2 in H3.
  set (s4 := s3 <| rs_Participants := _ |>).
  assert (H4 : core_fields s4 = (rs_ID s, rs_FailoverID s,
    updateParticipants (rs_Participants s) (md_Participants m), rs_SequenceNumber s,
    or_else (md_State m) (rs_RecordingState s))).
  { unfold s4. unfold core_fields in *. destruct s3; cbn in *. simplify_eq. done. }
  clearbody s4. rewrite <- update_groups_core with (m := m) in H4.
  rewrite <- update_policy_states_core with (clock := clock) (m := m) in H4.
  set (s5 := update_policy_states clock m (update_groups m s4)) in *. clearbody s5.
  unfold update_sequence, next_sequence, core_fields in *. destruct s5; cbn in *. simplify_eq.
  destruct (0 <? md_Sequence m); [|by destruct (_ =? 0)].
  destruct (Z.leb_spec (rs_SequenceNumber s) (md_Sequence m)); cbn; repeat f_equal; lia.
Qed.

Lemma update_sequence_number clock s m :
  rs_SequenceNumber (UpdateRecordingSession clock s m) =
    next_sequence (rs_SequenceNumber s) (md_Sequence m).
Proof. pose proof (update_core clock s m) as Hc. unfold core_fields in Hc. by simplify_eq. Qed.

(** A session under a series of metadata updates, each with its own clock. *)
Definition update_all (s : RecordingSession) (l : list ((nat -> Time) * RSMetadata)) : RecordingSession :=
  foldl (fun s '(clock, m) => UpdateRecordingSession clock s m) s l.

Lemma next_sequence_mono seq new : 0 <= seq -> seq <= next_sequence seq new /\ 1 <= next_sequence seq new.
Proof.
  intros Hs. unfold next_sequence. destruct (Z.ltb_spec 0 new); [lia|].
  destruct (Z.eqb_spec seq 0); lia.
Qed.

Lemma update_all_sequence l s :
  0 <= rs_SequenceNumber s ->
  rs_SequenceNumber s <= rs_SequenceNumber (update_all s l) /\
  (l <> [] -> 1 <= rs_SequenceNumber (update_all s l)) /\
  Forall (fun x => md_Sequence x.2 <= rs_SequenceNumber (update_all s l)) l.
Proof.
  revert s. induction l as [|[clock m] l IH]; intros s Hs.
  { repeat split; [cbn; lia|done|constructor]. }
  change (update_all s ((clock, m) :: l)) with (update_all (UpdateRecordingSession clock s m) l).
  pose proof (update_sequence_number clock s m) as Hseq.
  destruct (next_sequence_mono (rs_SequenceNumber s) (md_Sequence m) Hs) as [Hle H1].
  destruct (IH (UpdateRecordingSession clock s m)) as (Hm & _ & Hf); [lia|].
  rewrite Hseq in Hm. split; [lia|]. split; [lia|]. constructor; [|done]. cbn.
  etrans; [|exact Hm]. unfold next_sequence. destruct (Z.ltb_spec 0 (md_Sequence m)); [lia|].
  destruct (Z.eqb_spec (rs_SequenceNumber s) 0); lia.
Qed.

(** *** Policy states *)

Definition policy_state (now : Time) (p : PolicyUpdate) : PolicyAckStatus :=
  let raw := trim_space (pu_Timestamp p) in
  mkPolicyAckStatus (to_lower (trim_space (pu_Status p))) (pu_Acknowledged p)
    (if String.eqb raw "" then now else match parse_rfc3339 raw with inl t => t | inr _ => now end) raw.

Lemma ext_set_policies k v s : rs_PolicyStates (ext_set k v s) = rs_PolicyStates s.
Proof. by destruct s. Qed.
Lemma ext_delete_policies k s : rs_PolicyStates (ext_delete k s) = rs_PolicyStates s.
Proof. by destruct s. Qed.

Lemma update_policy_state now p s :
  rs_PolicyStates (update_policy now p s) =
    Some (<[pu_PolicyID p := policy_state now p]> (default ∅ (rs_PolicyStates s))).
Proof.
  unfold update_policy, policy_state.
  destruct (String.eqb _ "") eqn:E; rewrite ?ext_delete_policies, ?ext_set_policies;
    destruct s; cbn; done.
Qed.

Lemma update_policies_state clock k l s id :
  default ∅ (rs_PolicyStates (update_policies clock k l s)) !! id =
    match last (filter (fun x => pu_PolicyID x.2 = id) (imap (fun i p => ((k + i)%nat, p)) l)) with
    | Some (j, p) => Some (policy_state (clock j) p)
    | None => default ∅ (rs_PolicyStates s) !! id
    end.
Proof.
  revert k s. induction l as [|p l IH]; intros k s; cbn [imap]; [done|].
  cbn [update_policies]. rewrite IH, update_policy_state. cbn [from_option Datatypes.id].
  assert (Hi : imap ((fun i p => ((k + i)%nat, p)) ∘ S) l = imap (fun i p => ((S k + i)%nat, p)) l).
  { apply imap_ext. intros. cbn. f_equal. lia. }
  rewrite Hi, filter_cons. cbn [snd]. case_decide as Hid.
  - rewrite last_cons. destruct (last _) as [[j q]|]; [done|]. subst id.
    rewrite lookup_insert_eq. by rewrite Nat.add_0_r.
  - destruct (last _) as [[j q]|]; [done|]. by rewrite lookup_insert_ne.
Qed.
End session_updates.

(** ** Properties *)

(** C15: failover round trip (RFC 7245).  A session with an ID and participants
    is recovered from its own failover metadata without an error: same ID and
    state, the failover ID of the metadata, the next sequence number, and the
    same participants in the same order with ID, name, role, display name and
    normalized communication URIs; and the continuity check accepts it. *)
Theorem failover_round_trip `{Unicode} `{!GoMapRange string}
    (clock : nat -> Time) (fresh : string) (s : RecordingSession) :
  rs_ID s <> "" -> fresh <> "" -> rs_Participants s <> [] ->
  exists r, RecoverSession clock (Some (CreateFailoverMetadata fresh s)) = (Some r, None) /\
    rs_ID r = rs_ID s /\ rs_RecordingState r = rs_RecordingState s /\
    rs_FailoverID r = or_else (rs_FailoverID s) fresh /\
    rs_SequenceNumber r = i64 (rs_SequenceNumber s + 1) /\
    map (fun p => (pt_ID p, pt_Name p, pt_Role p, pt_DisplayName p)) (rs_Participants r) =
      map (fun p => (pt_ID p, pt_Name p, pt_Role p, display_name p)) (rs_Participants s) /\
    map (fun p => map ci_Value (pt_CommunicationIDs p)) (rs_Participants r) =
      map (fun p => map NormalizeCommunicationURI (pt_CommunicationIDs p)) (rs_Participants s) /\
    ValidateSessionContinuity (Some s) (Some r) = None.
Proof.
  intros Hid Hfresh Hps.
  destruct (CreateFailoverMetadata_fields fresh s) as (Eid & Est & Eseq & Efix & Eps).
  set (m := CreateFailoverMetadata fresh s) in *. clearbody m.
  assert (Hfix : or_else (rs_FailoverID s) fresh <> "") by (rewrite or_else_eq_empty; by intros []).
  apply String.eqb_neq in Hid as Hid'. apply String.eqb_neq in Hfix as Hfix'.
  unfold RecoverSession, ParseFailoverMetadata. rewrite Eid, Efix, Hid', Hfix'. cbn [orb].
  assert (Hmap : map ConvertRSParticipantToParticipant (md_Participants m) =
    map recovered_participant (rs_Participants s)).
  { rewrite Eps, map_map. apply map_ext, convert_failover_participant. }
  destruct (md_Participants m) as [|q qs].
  { by destruct (rs_Participants s). }
  revert Hmap. generalize (map ConvertRSParticipantToParticipant (q :: qs)). intros l ->.
  eexists. split; [reflexivity|]. cbn. repeat (split; [done|]).
  split; [by rewrite map_map|]. split.
  - rewrite map_map. apply map_ext. intros p. cbn. by rewrite map_map.
  - apply continuity_ok; cbn; [done| |by rewrite map_map].
    destruct (String.eqb (rs_FailoverID s) "") eqn:Ef; bool_to_prop; [by left|].
    right. right. by rewrite or_else_present.
Qed.

Definition alice : Participant :=
  zero_Participant <| pt_ID := "p1" |> <| pt_Name := "Alice" |> <| pt_Role := "active" |>
    <| pt_CommunicationIDs := [zero_CommunicationID <| ci_Type := "tel" |> <| ci_Value := "+15551234" |>] |>.

Definition sample_session : RecordingSession :=
  zero_RecordingSession <| rs_ID := "sess-1" |> <| rs_SequenceNumber := 7 |>
    <| rs_RecordingState := "active" |> <| rs_Participants := [alice] |>.

Lemma failover_round_trip_witness :
  rs_ID sample_session <> "" /\
  exists r, RecoverSession (fun _ => 1) (Some (@CreateFailoverMetadata ascii_only "u-1" sample_session))
    = (Some r, None) /\ rs_SequenceNumber r = 8.
Proof.
  split; [discriminate|].
  destruct (@failover_round_trip ascii_only (list_range string) (fun _ => 1) "u-1" sample_session)
    as (r & Hr & _ & _ & _ & Hseq & _); [discriminate..|].
  exists r. split; [exact Hr|]. rewrite Hseq. reflexivity.
Defined.

(** The communication type is lost in a failover, so a telephone number does
    not survive two of them: recovered once it is a SIP identifier with a tel:
    value, and the failover of the recovered session turns that value into
    "sip:tel:...", which is no address of the participant. *)
Theorem failover_twice_corrupts_tel `{Unicode} (p : Participant) (v : string) :
  pt_CommunicationIDs p = [zero_CommunicationID <| ci_Type := "tel" |> <| ci_Value := v |>] ->
  trim_space v = v -> v <> "" -> has_prefix (to_lower v) "tel:" = false ->
  let once := ConvertRSParticipantToParticipant (failover_participant p) in
  let twice := ConvertRSParticipantToParticipant (failover_participant once) in
  map ci_Value (pt_CommunicationIDs once) = ["tel:" +:+ v] /\
  map ci_Type (pt_CommunicationIDs once) = ["sip"] /\
  map ci_Value (pt_CommunicationIDs twice) = ["sip:tel:" +:+ v].
Proof.
  intros Hp Hv Hne Hpre. cbv zeta. rewrite !convert_failover_participant.
  unfold recovered_participant. rewrite Hp. cbn [pt_CommunicationIDs field_set zero_Participant map].
  split; [|split; [done|]].
  - cbn [sip_id ci_Value field_set zero_CommunicationID]. f_equal. unfold NormalizeCommunicationURI.
    cbn [ci_Value ci_Type field_set zero_CommunicationID]. rewrite Hv.
    apply String.eqb_neq in Hne. rewrite Hne.
    change (to_lower (trim_space "tel")) with "tel". cbn [String.eqb Ascii.eqb Bool.eqb].
    unfold with_scheme. by rewrite Hpre.
  - cbn. f_equal. by apply tel_uri_twice.
Qed.

Lemma failover_twice_corrupts_tel_witness :
  map ci_Value (pt_CommunicationIDs (ConvertRSParticipantToParticipant
    (@failover_participant ascii_only (ConvertRSParticipantToParticipant
      (@failover_participant ascii_only alice))))) = ["sip:tel:+15551234"].
Proof.
  destruct (@failover_twice_corrupts_tel ascii_only alice "+15551234") as (_ & _ & Ht);
    [reflexivity|reflexivity|discriminate|reflexivity|]. exact Ht.
Defined.

(** Merging metadata into the participants of a session loses nobody and
    invents nobody: the IDs of the result are distinct and are exactly those of
    the metadata and of the session, every participant of the session is still
    there with its role, consent, awareness, anonymization, streams and times,
    and one the metadata does not mention is unchanged. *)
Theorem update_participants_complete `{!GoMapRange string}
    (existing : list Participant) (new : list RSParticipant) :
  NoDup (map rp_ID new) ->
  let r := updateParticipants existing new in
  NoDup (map pt_ID r) /\
  (forall id, id ∈ map pt_ID r <-> id ∈ map rp_ID new \/ id ∈ map pt_ID existing) /\
  (forall id p, participant_map existing !! id = Some p ->
     exists q, q ∈ r /\ identity q = identity p /\ (id ∉ map rp_ID new -> q = p)).
Proof.
  intros Hnd. cbv zeta. destruct (updateParticipants_IDs existing new Hnd) as [H1 H2].
  split; [done|]. split; [done|]. intros id p. by apply updateParticipants_keeps.
Qed.

Lemma update_participants_complete_witness :
  NoDup (map rp_ID [zero_RSParticipant <| rp_ID := "p2" |>]) /\
  exists q, q ∈ @updateParticipants (list_range string) [alice] [zero_RSParticipant <| rp_ID := "p2" |>]
    /\ q = alice.
Proof.
  assert (Hnd : NoDup (map rp_ID [zero_RSParticipant <| rp_ID := "p2" |>])) by apply NoDup_singleton.
  split; [exact Hnd|].
  destruct (@update_participants_complete (list_range string) [alice] _ Hnd) as (_ & _ & Hk).
  destruct (Hk "p1" alice) as (q & Hq & _ & Heq); [reflexivity|].
  exists q. split; [exact Hq|]. apply Heq. cbn. rewrite list_elem_of_singleton. discriminate.
Defined.

(** The participant changes reported for a metadata update partition the
    IDs: added are those only the metadata has, removed those only the session
    has, and modified are among those both have; no ID is reported twice in a
    category. *)
Theorem detect_changes_partition `{!GoMapRange string} (s : RecordingSession) (m : RSMetadata) :
  let '(added, removed, modified) := DetectParticipantChanges s m in
  let old := map pt_ID (rs_Participants s) in
  let new := map rp_ID (md_Participants m) in
  (forall id, id ∈ map pt_ID added <-> id ∈ new /\ id ∉ old) /\
  (forall id, id ∈ map pt_ID removed <-> id ∈ old /\ id ∉ new) /\
  (forall id, id ∈ map pt_ID modified <->
     exists p np, participant_map (rs_Participants s) !! id = Some p /\
       rs_participant_map (md_Participants m) !! id = Some np /\ participant_changed p np = true) /\
  NoDup (map pt_ID added) /\ NoDup (map pt_ID removed) /\ NoDup (map pt_ID modified).
Proof.
  unfold DetectParticipantChanges. cbv zeta.
  set (old := participant_map (rs_Participants s)). set (new := rs_participant_map (md_Participants m)).
  assert (Hold : forall id, is_Some (old !! id) <-> id ∈ map pt_ID (rs_Participants s)).
  { intros id. apply index_by_is_Some. }
  assert (Hnew : forall id, is_Some (new !! id) <-> id ∈ map rp_ID (md_Participants m)).
  { intros id. apply index_by_is_Some. }
  assert (Hoid : forall id p, old !! id = Some p -> pt_ID p = id) by apply participant_map_ID.
  assert (Hnid : forall id p, new !! id = Some p -> rp_ID p = id).
  { intros id p Hp. by destruct (index_by_Some _ _ _ _ Hp). }
  assert (Hconv : forall np, pt_ID (ConvertRSParticipantToParticipant np) = rp_ID np).
  { intros np. unfold ConvertRSParticipantToParticipant. destruct np as [? ? ? ? ? [|??] ? ? ? ? ? ?];
      cbn; by case_tests. }
  split; [|split; [|split; [|split; [|split]]]].
  - intros id. rewrite <- Hold, <- Hnew, list_elem_of_fmap. split.
    + intros (p & -> & Hp). apply list_elem_of_omap in Hp as ([i np] & Hi & Hp).
      case_bool_decide as Ho; [done|]. injection Hp as <-. apply elem_of_map_range in Hi.
      rewrite Hconv, (Hnid _ _ Hi). eauto.
    + intros [[np Hnp] Ho]. exists (ConvertRSParticipantToParticipant np).
      rewrite Hconv, (Hnid _ _ Hnp). split; [done|]. apply list_elem_of_omap.
      exists (id, np). rewrite elem_of_map_range. split; [done|]. by rewrite bool_decide_eq_false_2.
  - intros id. rewrite <- Hold, <- Hnew, list_elem_of_fmap. split.
    + intros (p & -> & Hp). apply list_elem_of_omap in Hp as ([i q] & Hi & Hp).
      case_bool_decide as Ho; [done|]. injection Hp as <-. apply elem_of_map_range in Hi.
      rewrite (Hoid _ _ Hi). eauto.
    + intros [[p Hp] Ho]. exists p. rewrite (Hoid _ _ Hp). split; [done|]. apply list_elem_of_omap.
      exists (id, p). rewrite elem_of_map_range. split; [done|]. by rewrite bool_decide_eq_false_2.
  - intros id. rewrite list_elem_of_fmap. split.
    + intros (p & -> & Hp). apply list_elem_of_omap in Hp as ([i q] & Hi & Hp).
      apply elem_of_map_range in Hi. destruct (new !! i) as [np|] eqn:En; [|done].
      destruct (participant_changed q np) eqn:Ec; [|done]. injection Hp as <-.
      rewrite merge_participant_ID, (Hoid _ _ Hi). eauto.
    + intros (p & np & Hp & Hnp & Hc). exists (merge_participant p np).
      rewrite merge_participant_ID, (Hoid _ _ Hp). split; [done|]. apply list_elem_of_omap.
      exists (id, p). rewrite elem_of_map_range. split; [done|]. by rewrite Hnp, Hc.
  - apply NoDup_omap_key; [apply map_range_NoDup_fst|]. intros i np b Hi%elem_of_map_range.
    case_bool_decide; [done|]. intros [= <-]. rewrite Hconv. eauto.
  - apply NoDup_omap_key; [apply map_range_NoDup_fst|]. intros i np b Hi%elem_of_map_range.
    case_bool_decide; [done|]. intros [= <-]. eauto.
  - apply NoDup_omap_key; [apply map_range_NoDup_fst|]. intros i np b Hi%elem_of_map_range.
    destruct (new !! i); [|done]. destruct (participant_changed _ _); [|done].
    intros [= <-]. rewrite merge_participant_ID. eauto.
Qed.

(** The sequence number of a session never goes back under any series of
    metadata updates, however they are ordered: it stays at least the number it
    had and every number the updates carried, and is positive after the first. *)
Theorem sequence_monotone `{Unicode} `{Rfc3339} `{!GoMapRange string}
    (s : RecordingSession) (l : list ((nat -> Time) * RSMetadata)) :
  0 <= rs_SequenceNumber s ->
  rs_SequenceNumber s <= rs_SequenceNumber (update_all s l) /\
  (l <> [] -> 1 <= rs_SequenceNumber (update_all s l)) /\
  Forall (fun x => md_Sequence x.2 <= rs_SequenceNumber (update_all s l)) l.
Proof. apply update_all_sequence. Qed.

(** The times are left as they are written, to evaluate examples. *)
Definition no_rfc3339 : Rfc3339 := {|
  parse_rfc3339 := fun _ => inr "cannot parse";
  format_rfc3339 := fun _ => ""
|}.

Lemma sequence_monotone_witness :
  0 <= rs_SequenceNumber sample_session /\
  7 <= rs_SequenceNumber (@update_all ascii_only no_rfc3339 (list_range string) sample_session
    [(fun _ => 1, zero_RSMetadata <| md_Sequence := 3 |>)]).
Proof.
  split; [discriminate|].
  apply (proj1 (@sequence_monotone ascii_only no_rfc3339 (list_range string) sample_session
    [(fun _ => 1, zero_RSMetadata <| md_Sequence := 3 |>)] ltac:(discriminate))).
Defined.

(** After an update with policy entries the policy states of the session
    are those entries and nothing else: for every policy ID the last entry for
    it, with its status trimmed and lower-cased, and none for other IDs. *)
Theorem policy_states_replaced `{Unicode} `{Rfc3339} `{!GoMapRange string}
    (clock : nat -> Time) (s : RecordingSession) (m : RSMetadata) (id : string) :
  md_PolicyUpdates m <> [] ->
  omap_get (rs_PolicyStates (UpdateRecordingSession clock s m)) id =
    match last (filter (fun x => pu_PolicyID x.2 = id) (imap (fun i p => (i, p)) (md_PolicyUpdates m))) with
    | Some (j, p) => Some (policy_state (clock j) p)
    | None => None
    end.
Proof.
  intros Hne. unfold UpdateRecordingSession. cbv zeta.
  match goal with |- context [update_policy_states clock m ?x] => set (s0 := x) end. clearbody s0.
  assert (Hseq : forall s1, rs_PolicyStates (update_sequence m s1) = rs_PolicyStates s1).
  { intros s1. unfold update_sequence. case_tests; by destruct s1. }
  match goal with |- omap_get (rs_PolicyStates ?x) id = _ =>
    replace (rs_PolicyStates x) with (rs_PolicyStates (update_policy_states clock m s0))
      by (rewrite <- Hseq; by destruct (update_sequence m (update_policy_states clock m s0))) end.
  unfold update_policy_states. destruct (md_PolicyUpdates m) as [|p l] eqn:E; [done|].
  rewrite <- E. clear E Hne.
  match goal with |- context [update_policies clock 0 (md_PolicyUpdates m) ?x] =>
    set (s1 := x); pose proof (update_policies_state clock 0 (md_PolicyUpdates m) s1 id) as Hp;
    assert (Hs1 : rs_PolicyStates s1 = Some ∅) by (by destruct s0) end.
  rewrite Hs1 in Hp. cbn [from_option Datatypes.id] in Hp. rewrite lookup_empty in Hp.
  cbn [Nat.add] in Hp. rewrite <- Hp. unfold omap_get.
  by destruct (rs_PolicyStates (update_policies clock 0 (md_PolicyUpdates m) s1)).
Qed.

Definition acked : RSMetadata :=
  zero_RSMetadata <| md_PolicyUpdates := [mkPolicyUpdate "pol" " Pending" false "";
                                          mkPolicyUpdate "pol" "ACKNOWLEDGED " true ""] |>.

Lemma policy_states_replaced_witness :
  omap_get (rs_PolicyStates (@UpdateRecordingSession ascii_only no_rfc3339 (list_range string)
    (fun k => 10 + Z.of_nat k) sample_session acked)) "pol"
  = Some (mkPolicyAckStatus "acknowledged" true 11 "").
Proof.
  rewrite (@policy_states_replaced ascii_only no_rfc3339 (list_range string)) by discriminate.
  vm_compute. reflexivity.
Defined.

(** The Replaces header built for a dialog parses back to the session ID,
    the two tags and the early flag, whatever the tags are (they contain no
    semicolon). *)
Theorem replaces_round_trip (s : RecordingSession) (dialog to from : string) (early : bool) :
  rs_ID s <> "" -> to <> "" -> from <> "" ->
  lacks semicolon (rs_ID s) = true -> lacks semicolon dialog = true ->
  lacks semicolon to = true -> lacks semicolon from = true ->
  ParseReplacesHeader (CreateReplacesHeader s
    (dialog +:+ ";" +:+ ("to-tag=" +:+ to) +:+ ";" +:+ ("from-tag=" +:+ from)) early) =
  (mkReplaces (rs_ID s) to from early, None).
Proof.
  intros Hid Hto Hfrom Li Ld Lt Lf. unfold CreateReplacesHeader.
  set (a := "to-tag=" +:+ to). set (b := "from-tag=" +:+ from).
  assert (La : lacks semicolon a = true) by (unfold a; by rewrite lacks_app).
  assert (Lb : lacks semicolon b = true) by (unfold b; by rewrite lacks_app).
  assert (Hsp : split_on semicolon (dialog +:+ ";" +:+ a +:+ ";" +:+ b) = [dialog; a; b]).
  { change (dialog +:+ ";" +:+ a +:+ ";" +:+ b) with
      (dialog +:+ String semicolon (a +:+ String semicolon b)).
    rewrite !split_on_app by done. by rewrite split_on_lacks. }
  destruct (String.eqb (dialog +:+ ";" +:+ a +:+ ";" +:+ b) "") eqn:E.
  { bool_to_prop. by destruct dialog. }
  rewrite Hsp. cbn [tail foldl].
  assert (Hh : (if early then ((rs_ID s +:+ ";" +:+ a) +:+ ";" +:+ b) +:+ ";early-only"
    else (rs_ID s +:+ ";" +:+ a) +:+ ";" +:+ b) =
    (rs_ID s +:+ ";" +:+ a) +:+ ";" +:+ b +:+ (if early then ";early-only" else "")).
  { destruct early; rewrite !string_app_assoc; [done|]. by rewrite string_app_nil_r. }
  rewrite Hh. unfold ParseReplacesHeader.
  match goal with |- context [String.eqb ?h ""] =>
    assert (Eh : String.eqb h "" = false) by (apply String.eqb_neq; by destruct (rs_ID s)) end.
  rewrite Eh.
  rewrite replaces_split by done. apply String.eqb_neq in Hid, Hto, Hfrom.
  assert (Ha : forall r, replaces_part r a = r <| rh_toTag := to |>).
  { intros r. unfold replaces_part, a, has_prefix. by rewrite prefix_app, trim_prefix_app. }
  assert (Hb : forall r, replaces_part r b = r <| rh_fromTag := from |>).
  { intros r. unfold replaces_part, b, has_prefix at 2. by rewrite prefix_app, trim_prefix_app. }
  cbn [foldl]. rewrite Ha, Hb. destruct early; cbn; by rewrite Hid, Hto, Hfrom.
Qed.

Lemma replaces_round_trip_witness :
  ParseReplacesHeader (CreateReplacesHeader sample_session "call;to-tag=7a;from-tag=9b" true)
  = (mkReplaces "sess-1" "7a" "9b" true, None).
Proof.
  apply (replaces_round_trip sample_session "call" "7a" "9b" true);
    (discriminate || reflexivity).
Defined.

(** Stream recovery rebuilds the media types of a session as the distinct
    non-empty types of the metadata streams; it keeps every participant and
    every stream it had; and a participant that sends a stream in the metadata
    ends up associated with that stream. *)
Theorem stream_recovery_complete (s : RecordingSession) (m : RSMetadata) :
  let r := ProcessStreamRecovery s m in
  (NoDup (rs_MediaStreamTypes r) /\
   forall t, t ∈ rs_MediaStreamTypes r <-> t <> "" /\ t ∈ map sm_Type (md_Streams m)) /\
  streams_grow (rs_Participants s) (rs_Participants r) /\
  (forall st p, st ∈ md_Streams m -> p ∈ md_Participants m -> sm_Label st ∈ rp_Send p ->
     rp_ID p ∈ map pt_ID (rs_Participants s) ->
     exists q, q ∈ rs_Participants r /\ pt_ID q = rp_ID p /\ sm_StreamID st ∈ pt_MediaStreams q).
Proof.
  cbv zeta. unfold ProcessStreamRecovery.
  set (s0 := s <| rs_MediaStreamTypes := [] |>).
  assert (Hps : rs_Participants s0 = rs_Participants s) by (by destruct s).
  assert (Hty : rs_MediaStreamTypes s0 = []) by (by destruct s).
  rewrite <- Hps. split; [|split].
  - rewrite recover_streams_types, Hty.
    destruct (foldl_add_new (map sm_Type (md_Streams m)) []) as [Hnd Ht]; [constructor|].
    split; [done|]. intros t. rewrite Ht, elem_of_nil. tauto.
  - apply recover_streams_grow.
  - intros st p. apply recover_streams_adds.
Qed.
