(* ===== verification/Validation.v ===== *)
(** * Validation of rs-metadata

    [src/pkg/siprec/parser.go]: [ValidateSiprecMessageWithOptions] phase by
    phase, [CreateMetadataResponse] and [CreateMultipartResponse].  A phase
    produces the errors and warnings it adds; the phases are concatenated in the
    order of the code.  A message is a constructor with the values the code
    prints into it.  [validation_exact] characterizes the documents without
    errors. *)

From S2P Require Import Prelude GoStrings Metadata Session.
#[local] Open Scope string_scope.
#[local] Open Scope list_scope.
#[local] Open Scope Z_scope.

(** ** The allowed values *)

Definition allowedRecordingStates : list string :=
  ["pending"; "initializing"; "active"; "paused"; "partial"; "inactive"; "resuming";
   "recovering"; "completed"; "terminated"; "error"; "unknown"].

Definition allowedRecordingReasons : list string :=
  ["normal"; "manual"; "error"; "failure"; "system-failure"; "media-failure";
   "resource-exhausted"; "policy"; "timeout"; "emergency"; "cancelled"].

Definition stateReasonMatrix : gmap string (list string) := list_to_map
  [("pending", ["normal"; "manual"; "policy"; "resource-exhausted"]);
   ("initializing", ["normal"; "manual"; "policy"]);
   ("active", ["normal"; "manual"; "policy"; "emergency"]);
   ("paused", ["manual"; "policy"; "resource-exhausted"; "system-failure"]);
   ("partial", ["manual"; "policy"; "resource-exhausted"; "system-failure"]);
   ("inactive", ["normal"; "manual"; "policy"]);
   ("resuming", ["normal"; "manual"]);
   ("recovering", ["manual"; "system-failure"; "error"]);
   ("completed", ["normal"; "manual"; "policy"]);
   ("terminated", ["normal"; "manual"; "error"; "failure"; "system-failure"; "media-failure";
                   "resource-exhausted"; "policy"; "timeout"; "emergency"; "cancelled"]);
   ("error", ["error"; "failure"; "system-failure"; "media-failure"])].

Definition allowedPolicyStatuses : list string :=
  ["pending"; "applied"; "acknowledged"; "rejected"; "accepted"; "denied"; "revoked";
   "deferred"; "error"].

Definition allowedParticipantRoles : list string :=
  ["active"; "passive"; "focus"; "mixer"; "observer"].

Definition allowedStreamTypes : list string :=
  ["audio"; "video"; "text"; "message"; "application"].

Definition mem (x : string) (l : list string) : bool := bool_decide (x ∈ l).

(** ** Results *)

Inductive verror :=
  | EMetadataNil
  | ERootElement (local : string)
  | ENoSessionID
  | ESessionIDTooLong
  | EState (state : string)
  | ENoTerminationReason
  | EReason (reason : string)
  | EReasonForState (reason state : string)
  | EErrorWithoutReason
  | ESequence
  | ENoParticipants
  | EParticipantNoID
  | EParticipantDuplicate (id : string)
  | EParticipantEmptyAor (id : string)
  | EParticipantNoContact (id : string)
  | EParticipantRole (id role : string)
  | EGroupNoID
  | EStreamNoLabel
  | EStreamNoID
  | EStreamDuplicate (id : string)
  | EStreamType (label type : string)
  | EGroupAssocNoGroup
  | EGroupAssocNoSession
  | EPolicyNoID
  | EPolicyNoStatus (id : string)
  | EPolicyStatus (id status : string)
  | EPolicyTimestamp (id err : string)
  | EAssocNoSession
  | ENoSessions
  | ESessionNoID
  | ESessionParticipant (session ref : string)
  | ESessionStream (session ref : string)
  | ESessionMismatch
  | EGroupAssocNoGroup2
  | EGroupAssocNoSession2
  | EPolicyNoID2
  | EPolicyNoStatus2 (id : string)
  | EPsaNoParticipant
  | EPsaParticipant (id : string)
  | EPsaNoSession
  | EStreamAssocNoParticipant
  | EStreamAssocParticipant (id : string)
  | EStreamAssocNoStream
  | EStreamAssocStream (ref : string).

Inductive vwarning :=
  | WNamespace (ns : string)
  | WNoNamespace
  | WNoState
  | WReasonRef (ref : string)
  | WReasonRefWithoutReason
  | WExpires (err : string)
  | WNoParticipants
  | WAorURI (id uri : string)
  | WGroupParticipant (group ref : string)
  | WStreamNoType (id : string)
  | WMixedWithoutSources (label : string)
  | WGroupAssocSession (session expected : string)
  | WGroupAssocDuplicate (key : string)
  | WPolicyDuplicate (id : string)
  | WPolicyAckPending (id : string)
  | WPolicyAckNoTimestamp (id : string)
  | WPolicyNoAckFlag (id status : string)
  | WNoAssoc
  | WAssocSession (session expected : string)
  | WAssocNoCallID
  | WPsaSession (session expected : string).

#[export] Instance verror_eq_dec : EqDecision verror.
Proof. solve_decision. Defined.
#[export] Instance vwarning_eq_dec : EqDecision vwarning.
Proof. solve_decision. Defined.

Record ValidationResult := mkValidationResult {
  vr_Errors : list verror;
  vr_Warnings : list vwarning
}.

Definition nothing : ValidationResult := mkValidationResult [] [].
Definition addError (e : verror) : ValidationResult := mkValidationResult [e] [].
Definition addWarning (w : vwarning) : ValidationResult := mkValidationResult [] [w].

(** One sequence of checks after another. *)
Definition vapp (r s : ValidationResult) : ValidationResult :=
  mkValidationResult (vr_Errors r ++ vr_Errors s) (vr_Warnings r ++ vr_Warnings s).
Notation "r +; s" := (vapp r s) (at level 60, right associativity) : go_scope.

Definition on (b : bool) (r : ValidationResult) : ValidationResult := if b then r else nothing.

Definition each {A} (f : A -> ValidationResult) (l : list A) : ValidationResult :=
  foldr (fun x r => f x +; r) nothing l.

(** ** Normalized identifiers *)

Definition normalizedParticipantID (p : RSParticipant) : string :=
  first_trimmed [rp_ID p; rp_LegacyID p; rp_NameID p].

Definition normalizedStreamID (s : Stream) : string :=
  first_trimmed [sm_StreamID s; sm_StreamIDAlt s; sm_ID s].

Definition normalizedStreamLabel (s : Stream) : string :=
  first_trimmed [sm_Label s; sm_LabelElement s; normalizedStreamID s].

Definition normalizedAssocSessionID (a : RSAssociation) : string :=
  first_trimmed [ra_SessionID a; ra_SessionIDAlt a].

#[global] Arguments normalizedParticipantID : simpl never.
#[global] Arguments normalizedStreamID : simpl never.
#[global] Arguments normalizedStreamLabel : simpl never.
#[global] Arguments normalizedAssocSessionID : simpl never.

Record ValidationOptions := mkValidationOptions { vo_AllowMissingParticipants : bool }.

(** ** The phases of [ValidateSiprecMessageWithOptions] *)

Definition recording_ns : string := "urn:ietf:params:xml:ns:recording:1".

Definition nonempty (s : string) : bool := negb (String.eqb s "").

Definition validate_name (m : RSMetadata) : ValidationResult :=
  let ns := trim_space (xn_Space (md_XMLName m)) in
  let local := trim_space (xn_Local (md_XMLName m)) in
  (if nonempty ns && negb (String.eqb ns recording_ns) then addWarning (WNamespace ns)
   else on (String.eqb ns "") (addWarning WNoNamespace)) +;
  on (nonempty local && negb (String.eqb local "recording")) (addError (ERootElement local)).

Definition validate_session_id (sessionID : string) : ValidationResult :=
  if String.eqb sessionID "" then addError ENoSessionID
  else on (255 <? Z.of_nat (String.length sessionID)) (addError ESessionIDTooLong).

Definition state_of `{Unicode} (m : RSMetadata) : string := to_lower (trim_space (md_State m)).
Definition reason_of `{Unicode} (m : RSMetadata) : string := to_lower (trim_space (md_Reason m)).

Definition validate_state `{Unicode} (m : RSMetadata) : ValidationResult :=
  let state := state_of m in
  let reason := reason_of m in
  (if String.eqb state "" then addWarning WNoState
   else on (negb (mem state allowedRecordingStates)) (addError (EState (md_State m)))) +;
  on (String.eqb state "terminated" && String.eqb reason "") (addError ENoTerminationReason) +;
  (if nonempty reason then
     on (negb (mem reason allowedRecordingReasons)) (addError (EReason (md_Reason m))) +;
     match stateReasonMatrix !! state with
     | Some allowedSet =>
       on (0 <? Z.of_nat (length allowedSet))
         (on (negb (mem reason allowedSet)) (addError (EReasonForState reason state)))
     | None => nothing
     end
   else on (String.eqb state "error") (addError EErrorWithoutReason)).

Definition validate_reason_ref `{Unicode} (m : RSMetadata) : ValidationResult :=
  let reasonRef := trim_space (md_ReasonRef m) in
  on (nonempty reasonRef)
    (on (negb (has_prefix reasonRef (recording_ns +:+ ":")))
       (addWarning (WReasonRef (md_ReasonRef m))) +;
     on (String.eqb (reason_of m) "") (addWarning WReasonRefWithoutReason)).

Definition validate_sequence `{Rfc3339} (m : RSMetadata) : ValidationResult :=
  let expires := trim_space (md_Expires m) in
  on (md_Sequence m <? 0) (addError ESequence) +;
  on (nonempty expires)
    match parse_rfc3339 expires with
    | inl _ => nothing
    | inr err => addWarning (WExpires err)
    end.

Definition validate_aor (id : string) (a : Aor) : ValidationResult :=
  on (blank (aor_Value a)) (addError (EParticipantEmptyAor id)) +;
  on (let uri := trim_space (aor_URI a) in nonempty uri && negb (contains uri ":"))
    (addWarning (WAorURI id (aor_URI a))).

Definition has_contact (p : RSParticipant) : bool :=
  existsb (fun a => negb (blank (aor_Value a))) (rp_Aor p) ||
  existsb (fun ni => negb (blank (ni_AOR ni)) || negb (blank (ni_URI ni))) (rp_NameInfos p).

(** The checks of one participant after its ID. *)
Definition validate_participant `{Unicode} (id : string) (p : RSParticipant) : ValidationResult :=
  let role := to_lower (trim_space (rp_Role p)) in
  each (validate_aor id) (rp_Aor p) +;
  on (negb (has_contact p)) (addError (EParticipantNoContact id)) +;
  on (nonempty role && negb (mem role allowedParticipantRoles))
    (addError (EParticipantRole id (rp_Role p))).

(** The loop over the participants; [seen] is the map [participantIDs]. *)
Fixpoint validate_participants `{Unicode} (seen : gset string) (l : list RSParticipant)
    : ValidationResult * gset string :=
  match l with
  | [] => (nothing, seen)
  | p :: l =>
    let id := normalizedParticipantID p in
    if String.eqb id "" then
      let '(r, seen) := validate_participants seen l in (addError EParticipantNoID +; r, seen)
    else
      let '(r, seen') := validate_participants ({[id]} ∪ seen) l in
      (on (bool_decide (id ∈ seen)) (addError (EParticipantDuplicate id)) +;
       validate_participant id p +; r, seen')
  end.

Definition validate_no_participants (opts : ValidationOptions) (m : RSMetadata) : ValidationResult :=
  match md_Participants m with
  | [] => if vo_AllowMissingParticipants opts then addWarning WNoParticipants
          else addError ENoParticipants
  | _ => nothing
  end.

Definition validate_group (participantIDs : gset string) (g : Group) : ValidationResult :=
  let groupID := trim_space (gr_ID g) in
  if String.eqb groupID "" then addError EGroupNoID else
  each (fun ref => on (bool_decide (trim_space ref ∉ participantIDs))
                     (addWarning (WGroupParticipant groupID ref))) (gr_ParticipantRefs g).

(** The checks of one stream after its label and ID. *)
Definition validate_stream_kind (s : Stream) : ValidationResult :=
  (if String.eqb (sm_Type s) "" then addWarning (WStreamNoType (normalizedStreamID s))
   else on (negb (mem (sm_Type s) allowedStreamTypes))
          (addError (EStreamType (sm_Label s) (sm_Type s)))) +;
  on (String.eqb (sm_Mode s) "mixed" && (Z.of_nat (length (sm_MixedStreams s)) =? 0))
    (addWarning (WMixedWithoutSources (sm_Label s))).

Fixpoint validate_streams (seen : gset string) (l : list Stream) : ValidationResult * gset string :=
  match l with
  | [] => (nothing, seen)
  | s :: l =>
    let id := normalizedStreamID s in
    let label := on (String.eqb (normalizedStreamLabel s) "") (addError EStreamNoLabel) in
    if String.eqb id "" then
      let '(r, seen) := validate_streams seen l in
      (label +; addError EStreamNoID +; validate_stream_kind s +; r, seen)
    else
      let '(r, seen') := validate_streams ({[id]} ∪ seen) l in
      (label +; on (bool_decide (id ∈ seen)) (addError (EStreamDuplicate id)) +;
       validate_stream_kind s +; r, seen')
  end.

Definition group_assoc_key (a : SessionGroupAssociation) : string :=
  trim_space (sga_SessionGroupID a) +:+ "::" +:+ trim_space (sga_SessionID a).

Fixpoint validate_group_assocs (sessionID : string) (seen : gset string)
    (l : list SessionGroupAssociation) : ValidationResult :=
  match l with
  | [] => nothing
  | a :: l =>
    let groupID := trim_space (sga_SessionGroupID a) in
    let sAssocID := trim_space (sga_SessionID a) in
    let key := group_assoc_key a in
    on (String.eqb groupID "") (addError EGroupAssocNoGroup) +;
    (if String.eqb sAssocID "" then addError EGroupAssocNoSession
     else on (nonempty sessionID && negb (String.eqb sAssocID sessionID))
            (addWarning (WGroupAssocSession sAssocID sessionID))) +;
    on (bool_decide (key ∈ seen)) (addWarning (WGroupAssocDuplicate key)) +;
    validate_group_assocs sessionID ({[key]} ∪ seen) l
  end.

(** The checks of one policy update after its ID. *)
Definition validate_policy `{Unicode} `{Rfc3339} (u : PolicyUpdate) : ValidationResult :=
  let policyID := trim_space (pu_PolicyID u) in
  let status := to_lower (trim_space (pu_Status u)) in
  let ts := trim_space (pu_Timestamp u) in
  (if String.eqb status "" then addError (EPolicyNoStatus policyID)
   else on (negb (mem status allowedPolicyStatuses)) (addError (EPolicyStatus policyID status))) +;
  on (nonempty ts)
    match parse_rfc3339 ts with
    | inl _ => nothing
    | inr err => addError (EPolicyTimestamp policyID err)
    end +;
  (if pu_Acknowledged u then
     on (String.eqb status "pending") (addWarning (WPolicyAckPending policyID)) +;
     on (String.eqb ts "") (addWarning (WPolicyAckNoTimestamp policyID))
   else on (String.eqb status "acknowledged" || String.eqb status "applied")
          (addWarning (WPolicyNoAckFlag policyID status))).

Fixpoint validate_policies `{Unicode} `{Rfc3339} (seen : gset string) (l : list PolicyUpdate)
    : ValidationResult :=
  match l with
  | [] => nothing
  | u :: l =>
    let policyID := trim_space (pu_PolicyID u) in
    on (String.eqb policyID "") (addError EPolicyNoID) +;
    on (nonempty policyID && bool_decide (policyID ∈ seen)) (addWarning (WPolicyDuplicate policyID)) +;
    validate_policy u +;
    validate_policies (if nonempty policyID then {[policyID]} ∪ seen else seen) l
  end.

Definition validate_assoc (sessionID : string) (a : RSAssociation) : ValidationResult :=
  if bool_decide (a = zero_RSAssociation) then addWarning WNoAssoc else
  let id := normalizedAssocSessionID a in
  (if String.eqb id "" then addError EAssocNoSession
   else on (nonempty sessionID && negb (String.eqb id sessionID))
          (addWarning (WAssocSession id sessionID))) +;
  on (blank (ra_CallID a) && blank (ra_CallIDAlt a) && blank (ra_FixedID a))
    (addWarning WAssocNoCallID).

Definition session_id_of (s : RSSession) : string := first_trimmed [ss_ID s; ss_LegacyID s].

(** A reference is checked only when the document declares something. *)
Definition unknown (ids : gset string) (ref : string) : bool :=
  bool_decide (trim_space ref ∉ ids) && (0 <? Z.of_nat (size ids)).

Definition validate_session (participantIDs streamIDs : gset string) (s : RSSession)
    : ValidationResult :=
  let sID := session_id_of s in
  if String.eqb sID "" then addError ESessionNoID else
  each (fun ref => on (unknown participantIDs ref) (addError (ESessionParticipant sID ref)))
    (ss_ParticipantRefs s) +;
  each (fun ref => on (unknown streamIDs ref) (addError (ESessionStream sID ref)))
    (ss_StreamRefs s).

Definition validate_sessions (sessionID : string) (participantIDs streamIDs : gset string)
    (l : list RSSession) : ValidationResult :=
  match l with
  | [] => addError ENoSessions
  | _ =>
    on (nonempty sessionID)
      (each (validate_session participantIDs streamIDs) l +;
       on (negb (existsb (fun s => nonempty (session_id_of s) &&
                                   String.eqb (session_id_of s) sessionID) l))
         (addError ESessionMismatch))
  end.

Definition validate_group_assocs2 (l : list SessionGroupAssociation) : ValidationResult :=
  each (fun a => on (blank (sga_SessionGroupID a)) (addError EGroupAssocNoGroup2) +;
                 on (blank (sga_SessionID a)) (addError EGroupAssocNoSession2)) l.

Definition validate_policies2 (l : list PolicyUpdate) : ValidationResult :=
  each (fun u => on (blank (pu_PolicyID u)) (addError EPolicyNoID2) +;
                 on (blank (pu_Status u)) (addError (EPolicyNoStatus2 (pu_PolicyID u)))) l.

(** The map [participantRefs]. *)
Definition participant_refs (l : list RSParticipant) : gset string :=
  list_to_set (List.filter nonempty (map normalizedParticipantID l)).

Definition validate_psa (sessionID : string) (refs : gset string) (a : RSParticipantSessionAssoc)
    : ValidationResult :=
  let pid := trim_space (pss_ParticipantID a) in
  let sid := trim_space (pss_SessionID a) in
  (if String.eqb pid "" then addError EPsaNoParticipant
   else on (bool_decide (pid ∉ refs)) (addError (EPsaParticipant pid))) +;
  (if String.eqb sid "" then addError EPsaNoSession
   else on (nonempty sessionID && negb (String.eqb sid sessionID))
          (addWarning (WPsaSession sid sessionID))).

(** The slice [streamRefs]: the stream references that are not blank. *)
Definition stream_refs (a : RSParticipantStreamAssoc) : list string :=
  List.filter nonempty (map trim_space ([psa_Stream a; psa_StreamID a] ++ psa_Send a ++ psa_Receive a)).

Definition validate_stream_assoc (refs streamIDs : gset string) (a : RSParticipantStreamAssoc)
    : ValidationResult :=
  let pid := first_trimmed [psa_Participant a; psa_ParticipantID a] in
  (if String.eqb pid "" then addError EStreamAssocNoParticipant
   else on (bool_decide (pid ∉ refs)) (addError (EStreamAssocParticipant pid))) +;
  match stream_refs a with
  | [] => addError EStreamAssocNoStream
  | l => each (fun ref => on (bool_decide (ref ∉ streamIDs) && (0 <? Z.of_nat (size streamIDs)))
                            (addError (EStreamAssocStream ref))) l
  end.

Definition ValidateSiprecMessageWithOptions `{Unicode} `{Rfc3339} (rsMetadata : option RSMetadata)
    (opts : ValidationOptions) : ValidationResult :=
  match rsMetadata with
  | None => addError EMetadataNil
  | Some m =>
    let sessionID := trim_space (md_SessionID m) in
    let '(participants, participantIDs) := validate_participants ∅ (md_Participants m) in
    let '(streams, streamIDs) := validate_streams ∅ (md_Streams m) in
    let refs := participant_refs (md_Participants m) in
    validate_name m +; validate_session_id sessionID +; validate_state m +;
    validate_reason_ref m +; validate_sequence m +;
    validate_no_participants opts m +; participants +;
    each (validate_group participantIDs) (md_Group m) +; streams +;
    validate_group_assocs sessionID ∅ (md_SessionGroupAssociations m) +;
    validate_policies ∅ (md_PolicyUpdates m) +;
    validate_assoc sessionID (md_SessionRecordingAssoc m) +;
    validate_sessions sessionID participantIDs streamIDs (md_Sessions m) +;
    validate_group_assocs2 (md_SessionGroupAssociations m) +;
    validate_policies2 (md_PolicyUpdates m) +;
    each (validate_psa sessionID refs) (md_ParticipantSessionAssoc m) +;
    each (validate_stream_assoc refs streamIDs) (md_ParticipantStreamAssoc m)
  end.

Definition ValidateSiprecMessage `{Unicode} `{Rfc3339} (rsMetadata : option RSMetadata)
    : ValidationResult :=
  ValidateSiprecMessageWithOptions rsMetadata (mkValidationOptions false).

(** ** The response document

    [xml_Marshal] is the marshaller of [encoding/xml].  [response := *metadata]
    copies the struct but shares the arrays of its slices, so the element writes
    of [Normalize] are visible in the caller's document, the second result. *)

Inductive response_error := RespNil | RespMarshal (err : string).

Definition shared_slices (response m : RSMetadata) : RSMetadata :=
  m <| md_Group := md_Group response |> <| md_Sessions := md_Sessions response |>
    <| md_RecordingSessions := md_RecordingSessions response |>
    <| md_Participants := md_Participants response |> <| md_Streams := md_Streams response |>.

Definition response_document (m : RSMetadata) : RSMetadata :=
  let state := trim_space (md_State m) in
  let response := m <| md_State := if String.eqb state "" then "active" else state |> in
  let response := if md_Sequence response <=? 0 then response <| md_Sequence := 1 |> else response in
  Normalize response.

Definition xml_header : string :=
  "<?xml version=" +:+ dquote +:+ "1.0" +:+ dquote +:+ " encoding=" +:+ dquote +:+ "UTF-8" +:+
  dquote +:+ "?>" +:+ newline.

Definition CreateMetadataResponse (xml_Marshal : RSMetadata -> string + string)
    (metadata : option RSMetadata) : (string + response_error) * option RSMetadata :=
  match metadata with
  | None => (inr RespNil, None)
  | Some m =>
    let response := response_document m in
    (match xml_Marshal response with
     | inl bytes => inl (xml_header +:+ bytes)
     | inr err => inr (RespMarshal err)
     end, Some (shared_slices response m))
  end.

(** [id] is the random UUID. *)
Definition CreateMultipartResponse (id sdp metadata : string) : string * string :=
  let boundary := "boundary_" +:+ id in
  ("multipart/mixed;boundary=" +:+ dquote +:+ boundary +:+ dquote,
   "--" +:+ boundary +:+ crlf +:+
   "Content-Type: application/sdp" +:+ crlf +:+
   "Content-Disposition: session;handling=required" +:+ crlf +:+ crlf +:+
   sdp +:+ crlf +:+
   "--" +:+ boundary +:+ crlf +:+
   "Content-Type: application/rs-metadata+xml" +:+ crlf +:+
   "Content-Disposition: recording-session;handling=required" +:+ crlf +:+ crlf +:+
   metadata +:+ crlf +:+
   "--" +:+ boundary +:+ "--" +:+ crlf).

(** ** Documents without errors *)

Definition clean (r : ValidationResult) : Prop := vr_Errors r = [].

Lemma clean_nothing : clean nothing <-> True.
Proof. done. Qed.

Lemma clean_app r s : clean (r +; s) <-> clean r /\ clean s.
Proof. unfold clean. cbn. split; [apply app_eq_nil|intros [-> ->]; done]. Qed.

Lemma clean_error e : clean (addError e) <-> False.
Proof. unfold clean. cbn. naive_solver. Qed.

Lemma clean_warning w : clean (addWarning w) <-> True.
Proof. done. Qed.

Lemma clean_on b r : clean (on b r) <-> (b = true -> clean r).
Proof. destruct b; cbn; naive_solver. Qed.

Lemma clean_each {A} (f : A -> ValidationResult) l : clean (each f l) <-> Forall (fun x => clean (f x)) l.
Proof.
  induction l as [|x l IH]; cbn; [done|]. rewrite clean_app, IH. by rewrite Forall_cons.
Qed.

Lemma nonempty_false s : nonempty s = false <-> s = "".
Proof. unfold nonempty. rewrite negb_false_iff. apply String.eqb_eq. Qed.

Lemma nonempty_true s : nonempty s = true <-> s <> "".
Proof. unfold nonempty. rewrite negb_true_iff. apply String.eqb_neq. Qed.

Lemma mem_true x l : mem x l = true <-> x ∈ l.
Proof. apply bool_decide_eq_true. Qed.

Lemma blank_false s : blank s = false <-> trim_space s <> "".
Proof. apply String.eqb_neq. Qed.

(** A clean guarded error is the negation of its guard. *)
Lemma clean_guard b e : clean (on b (addError e)) <-> b = false.
Proof. destruct b; cbn; unfold clean; cbn; naive_solver. Qed.

Lemma clean_guard_warning b w : clean (on b (addWarning w)) <-> True.
Proof. by destruct b. Qed.

Lemma clean_else (b : bool) e r : clean (if b then addError e else r) <-> b = false /\ clean r.
Proof. destruct b; rewrite ?clean_error; naive_solver. Qed.

Lemma clean_else_warning (b : bool) w r :
  clean (if b then addWarning w else r) <-> (b = false -> clean r).
Proof. destruct b; rewrite ?clean_warning; naive_solver. Qed.

Lemma errors_app r s : vr_Errors (r +; s) = vr_Errors r ++ vr_Errors s.
Proof. done. Qed.

Lemma warnings_app r s : vr_Warnings (r +; s) = vr_Warnings r ++ vr_Warnings s.
Proof. done. Qed.

#[local] Opaque nothing addError addWarning vapp on each.

Create Rewrite HintDb clean.
#[local] Hint Rewrite clean_app clean_error clean_warning clean_guard
  clean_guard_warning @clean_each clean_else clean_else_warning nonempty_true nonempty_false mem_true
  blank_false andb_true_iff andb_false_iff orb_false_iff negb_true_iff negb_false_iff String.eqb_neq String.eqb_eq
  Z.ltb_lt Z.ltb_ge bool_decide_eq_true bool_decide_eq_false : clean.

Ltac clean_simpl := rewrite ?clean_nothing; autorewrite with clean.

(** *** What a document without errors satisfies *)

Definition contact_ok (p : RSParticipant) : Prop :=
  (exists a, a ∈ rp_Aor p /\ trim_space (aor_Value a) <> "") \/
  (exists ni, ni ∈ rp_NameInfos p /\ (trim_space (ni_AOR ni) <> "" \/ trim_space (ni_URI ni) <> "")).

Definition role_ok `{Unicode} (role : string) : Prop :=
  to_lower (trim_space role) = "" \/ to_lower (trim_space role) ∈ allowedParticipantRoles.

Definition participant_ok `{Unicode} (p : RSParticipant) : Prop :=
  Forall (fun a => trim_space (aor_Value a) <> "") (rp_Aor p) /\ contact_ok p /\ role_ok (rp_Role p).

Definition stream_ok (s : Stream) : Prop := sm_Type s = "" \/ sm_Type s ∈ allowedStreamTypes.

Definition state_reason_ok (state reason : string) : Prop :=
  (state = "" \/ state ∈ allowedRecordingStates) /\
  (reason = "" -> state <> "terminated" /\ state <> "error") /\
  (reason <> "" -> reason ∈ allowedRecordingReasons /\
     forall set, stateReasonMatrix !! state = Some set -> reason ∈ set).

Definition policy_ok `{Unicode} `{Rfc3339} (u : PolicyUpdate) : Prop :=
  trim_space (pu_PolicyID u) <> "" /\
  to_lower (trim_space (pu_Status u)) ∈ allowedPolicyStatuses /\
  (trim_space (pu_Timestamp u) = "" \/
   exists t, parse_rfc3339 (trim_space (pu_Timestamp u)) = inl t).

(** [ref] names one of the declared [ids]; nothing is required when none is
    declared. *)
Definition resolved (ids : list string) (ref : string) : Prop := ids = [] \/ ref ∈ ids.

Definition session_ok (pids sids : list string) (s : RSSession) : Prop :=
  session_id_of s <> "" /\
  Forall (fun ref => resolved pids (trim_space ref)) (ss_ParticipantRefs s) /\
  Forall (fun ref => resolved sids (trim_space ref)) (ss_StreamRefs s).

Definition psa_ok (pids : list string) (a : RSParticipantSessionAssoc) : Prop :=
  trim_space (pss_ParticipantID a) ∈ pids /\ trim_space (pss_SessionID a) <> "".

Definition stream_assoc_ok (pids sids : list string) (a : RSParticipantStreamAssoc) : Prop :=
  first_trimmed [psa_Participant a; psa_ParticipantID a] ∈ pids /\
  stream_refs a <> [] /\ Forall (resolved sids) (stream_refs a).

Record well_formed `{Unicode} `{Rfc3339} (allow_empty : bool) (m : RSMetadata) : Prop := {
  wf_root : trim_space (xn_Local (md_XMLName m)) = "" \/
            trim_space (xn_Local (md_XMLName m)) = "recording";
  wf_session_id : trim_space (md_SessionID m) <> "" /\
                  Z.of_nat (String.length (trim_space (md_SessionID m))) <= 255;
  wf_state : state_reason_ok (state_of m) (reason_of m);
  wf_sequence : 0 <= md_Sequence m;
  wf_some_participant : allow_empty = true \/ md_Participants m <> [];
  wf_participant_ids : ("" ∉ map normalizedParticipantID (md_Participants m)) /\
                       NoDup (map normalizedParticipantID (md_Participants m));
  wf_participants : Forall participant_ok (md_Participants m);
  wf_groups : Forall (fun g => trim_space (gr_ID g) <> "") (md_Group m);
  wf_stream_ids : ("" ∉ map normalizedStreamID (md_Streams m)) /\
                  NoDup (map normalizedStreamID (md_Streams m));
  wf_streams : Forall stream_ok (md_Streams m);
  wf_group_assocs : Forall (fun a => trim_space (sga_SessionGroupID a) <> "" /\
                                     trim_space (sga_SessionID a) <> "")
                      (md_SessionGroupAssociations m);
  wf_policies : Forall policy_ok (md_PolicyUpdates m);
  wf_assoc : md_SessionRecordingAssoc m = zero_RSAssociation \/
             normalizedAssocSessionID (md_SessionRecordingAssoc m) <> "";
  wf_session : exists s, s ∈ md_Sessions m /\ session_id_of s = trim_space (md_SessionID m);
  wf_sessions : Forall (session_ok (map normalizedParticipantID (md_Participants m))
                                   (map normalizedStreamID (md_Streams m))) (md_Sessions m);
  wf_psa : Forall (psa_ok (map normalizedParticipantID (md_Participants m)))
             (md_ParticipantSessionAssoc m);
  wf_stream_assocs : Forall (stream_assoc_ok (map normalizedParticipantID (md_Participants m))
                                             (map normalizedStreamID (md_Streams m)))
                       (md_ParticipantStreamAssoc m)
}.

(** *** Phase by phase *)

Section phases.
Context `{Unicode} `{Rfc3339}.

Lemma clean_name m : clean (validate_name m) <->
  trim_space (xn_Local (md_XMLName m)) = "" \/ trim_space (xn_Local (md_XMLName m)) = "recording".
Proof. unfold validate_name. clean_simpl. tauto. Qed.

Lemma clean_session_id sid : clean (validate_session_id sid) <->
  sid <> "" /\ Z.of_nat (String.length sid) <= 255.
Proof. unfold validate_session_id. clean_simpl. tauto. Qed.

(** No row of the matrix is empty, so its guard never skips the test. *)
Lemma matrix_nonempty : map_Forall (fun _ set => set <> []) stateReasonMatrix.
Proof. refine (bool_decide_unpack _ _). vm_compute. exact I. Qed.

Lemma clean_state m : clean (validate_state m) <-> state_reason_ok (state_of m) (reason_of m).
Proof.
  unfold validate_state, state_reason_ok. set (st := state_of m). set (re := reason_of m).
  assert (Hm : clean match stateReasonMatrix !! st with
     | Some allowedSet =>
       on (0 <? Z.of_nat (length allowedSet))
         (on (negb (mem re allowedSet)) (addError (EReasonForState re st)))
     | None => nothing
     end <-> forall set, stateReasonMatrix !! st = Some set -> re ∈ set).
  { destruct (stateReasonMatrix !! st) as [row|] eqn:E; [|by split].
    pose proof (matrix_nonempty _ _ E) as Hne. rewrite clean_on. clean_simpl.
    split; [|by intros Hall _; apply Hall].
    intros Hc ? [= <-]. apply Hc. destruct row; cbn; [done|lia]. }
  assert (Hs : st = "" \/ st <> "") by (destruct (decide (st = "")); tauto).
  destruct (nonempty re) eqn:Hre; autorewrite with clean in *; rewrite ?Hm; clear Hm; tauto.
Qed.

Lemma clean_reason_ref m : clean (validate_reason_ref m) <-> True.
Proof. unfold validate_reason_ref. rewrite clean_on. clean_simpl. tauto. Qed.

Lemma clean_sequence m : clean (validate_sequence m) <-> 0 <= md_Sequence m.
Proof.
  unfold validate_sequence. rewrite clean_app, (clean_on (nonempty _)). clean_simpl.
  destruct (parse_rfc3339 _); clean_simpl; tauto.
Qed.

Lemma clean_no_participants opts m : clean (validate_no_participants opts m) <->
  vo_AllowMissingParticipants opts = true \/ md_Participants m <> [].
Proof.
  unfold validate_no_participants. destruct (md_Participants m), (vo_AllowMissingParticipants opts);
    clean_simpl; naive_solver.
Qed.

Lemma has_contact_spec p : negb (has_contact p) = false <-> contact_ok p.
Proof.
  rewrite negb_false_iff. unfold has_contact, contact_ok.
  rewrite orb_true_iff, !existsb_exists. setoid_rewrite orb_true_iff.
  setoid_rewrite negb_true_iff. setoid_rewrite blank_false.
  by setoid_rewrite <- list_elem_of_In.
Qed.

Lemma clean_aor id a : clean (validate_aor id a) <-> trim_space (aor_Value a) <> "".
Proof. unfold validate_aor. clean_simpl. tauto. Qed.

Lemma clean_participant id p : clean (validate_participant id p) <-> participant_ok p.
Proof.
  unfold validate_participant, participant_ok, role_ok.
  rewrite !clean_app, clean_each, !clean_guard, has_contact_spec.
  setoid_rewrite clean_aor. clean_simpl. done.
Qed.

(** The loop over identified elements: no errors means distinct identifiers
    outside those seen before. *)
Lemma clean_participants l seen :
  clean (validate_participants seen l).1 <->
  ("" ∉ map normalizedParticipantID l) /\ NoDup (map normalizedParticipantID l) /\
  (forall id, id ∈ map normalizedParticipantID l -> id ∉ seen) /\ Forall participant_ok l.
Proof.
  revert seen. induction l as [|p l IH]; intros seen; cbn.
  { rewrite clean_nothing, NoDup_nil, Forall_nil. set_solver. }
  destruct (String.eqb (normalizedParticipantID p) "") eqn:E; bool_to_prop.
  - destruct (validate_participants _ _). cbn. rewrite clean_app, clean_error, E. set_solver.
  - specialize (IH ({[normalizedParticipantID p]} ∪ seen)).
    destruct (validate_participants _ _) as [r ?]. cbn in *.
    rewrite !clean_app, clean_guard, bool_decide_eq_false, clean_participant, IH, NoDup_cons, Forall_cons.
    set_solver.
Qed.

Lemma participants_seen l seen :
  (validate_participants seen l).2 =
  list_to_set (List.filter nonempty (map normalizedParticipantID l)) ∪ seen.
Proof.
  revert seen. induction l as [|p l IH]; intros seen; cbn; [set_solver|].
  unfold nonempty at 1. destruct (String.eqb (normalizedParticipantID p) "") eqn:E; cbn.
  - specialize (IH seen). destruct (validate_participants _ _). done.
  - specialize (IH ({[normalizedParticipantID p]} ∪ seen)).
    destruct (validate_participants _ _). cbn in *. rewrite IH. set_solver.
Qed.

Lemma clean_stream_kind s : clean (validate_stream_kind s) <-> stream_ok s.
Proof.
  unfold validate_stream_kind, stream_ok. clean_simpl. destruct (decide (sm_Type s = "")); tauto.
Qed.

(** A stream with an ID has a label: the ID is the last candidate. *)
Lemma label_of_id s : normalizedStreamID s <> "" -> normalizedStreamLabel s <> "".
Proof.
  intros Hid Hl. unfold normalizedStreamLabel in Hl.
  apply first_trimmed_empty in Hl. rewrite !Forall_cons in Hl. destruct Hl as (_ & _ & Hl & _).
  apply String.eqb_eq in Hl. by rewrite (first_trimmed_trimmed _ : trim_space (normalizedStreamID s) = _) in Hl.
Qed.

Lemma clean_streams l seen :
  clean (validate_streams seen l).1 <->
  ("" ∉ map normalizedStreamID l) /\ NoDup (map normalizedStreamID l) /\
  (forall id, id ∈ map normalizedStreamID l -> id ∉ seen) /\ Forall stream_ok l.
Proof.
  revert seen. induction l as [|s l IH]; intros seen; cbn.
  { rewrite clean_nothing, NoDup_nil, Forall_nil. set_solver. }
  destruct (String.eqb (normalizedStreamID s) "") eqn:E; bool_to_prop.
  - destruct (validate_streams _ _). cbn. rewrite !clean_app, clean_error, E. set_solver.
  - specialize (IH ({[normalizedStreamID s]} ∪ seen)).
    destruct (validate_streams _ _) as [r ?]. cbn in *. pose proof (label_of_id s E).
    rewrite !clean_app, !clean_guard, bool_decide_eq_false, clean_stream_kind, IH, NoDup_cons,
      Forall_cons, String.eqb_neq.
    set_solver.
Qed.

Lemma streams_seen l seen :
  (validate_streams seen l).2 =
  list_to_set (List.filter nonempty (map normalizedStreamID l)) ∪ seen.
Proof.
  revert seen. induction l as [|s l IH]; intros seen; cbn; [set_solver|].
  unfold nonempty at 1. destruct (String.eqb (normalizedStreamID s) "") eqn:E; cbn.
  - specialize (IH seen). destruct (validate_streams _ _). done.
  - specialize (IH ({[normalizedStreamID s]} ∪ seen)).
    destruct (validate_streams _ _). cbn in *. rewrite IH. set_solver.
Qed.

Lemma clean_group ids g : clean (validate_group ids g) <-> trim_space (gr_ID g) <> "".
Proof.
  unfold validate_group. clean_simpl. split; [tauto|]. intros Hg. split; [done|].
  apply Forall_forall. intros. by rewrite clean_guard_warning.
Qed.

Lemma clean_group_assocs sid l seen :
  clean (validate_group_assocs sid seen l) <->
  Forall (fun a => trim_space (sga_SessionGroupID a) <> "" /\ trim_space (sga_SessionID a) <> "") l.
Proof.
  revert seen. induction l as [|a l IH]; intros seen; cbn; [by rewrite clean_nothing|].
  clean_simpl. rewrite IH, Forall_cons. tauto.
Qed.

Lemma clean_group_assocs2 l :
  clean (validate_group_assocs2 l) <->
  Forall (fun a => trim_space (sga_SessionGroupID a) <> "" /\ trim_space (sga_SessionID a) <> "") l.
Proof.
  unfold validate_group_assocs2. rewrite clean_each. apply Forall_iff. intros a. by clean_simpl.
Qed.

Lemma empty_not_status : "" ∉ allowedPolicyStatuses.
Proof. refine (bool_decide_unpack _ _). vm_compute. exact I. Qed.

Lemma clean_policy u : clean (validate_policy u) <->
  to_lower (trim_space (pu_Status u)) ∈ allowedPolicyStatuses /\
  (trim_space (pu_Timestamp u) = "" \/
   exists t, parse_rfc3339 (trim_space (pu_Timestamp u)) = inl t).
Proof.
  unfold validate_policy. rewrite !clean_app, (clean_on (nonempty _)).
  assert (Ha : clean (if pu_Acknowledged u then
     on (to_lower (trim_space (pu_Status u)) =? "pending")%string
       (addWarning (WPolicyAckPending (trim_space (pu_PolicyID u)))) +;
     on (trim_space (pu_Timestamp u) =? "")%string
       (addWarning (WPolicyAckNoTimestamp (trim_space (pu_PolicyID u))))
   else on ((to_lower (trim_space (pu_Status u)) =? "acknowledged")%string ||
            (to_lower (trim_space (pu_Status u)) =? "applied")%string)
          (addWarning (WPolicyNoAckFlag (trim_space (pu_PolicyID u))
             (to_lower (trim_space (pu_Status u)))))) <-> True).
  { destruct (pu_Acknowledged u); clean_simpl; tauto. }
  rewrite Ha, nonempty_true. clear Ha.
  assert (Hs : to_lower (trim_space (pu_Status u)) ∈ allowedPolicyStatuses ->
               to_lower (trim_space (pu_Status u)) <> "").
  { intros Hin E. rewrite E in Hin. by apply empty_not_status in Hin. }
  destruct (decide (trim_space (pu_Timestamp u) = "")), (parse_rfc3339 _) eqn:E;
    clean_simpl; naive_solver.
Qed.

Lemma clean_policies l seen :
  clean (validate_policies seen l) <-> Forall policy_ok l.
Proof.
  revert seen. induction l as [|u l IH]; intros seen; cbn -[validate_policy].
  { by rewrite clean_nothing. }
  rewrite !clean_app, clean_policy, IH, Forall_cons, clean_guard, clean_guard_warning.
  unfold policy_ok. rewrite String.eqb_neq. tauto.
Qed.

(** The second pass over the policies repeats two checks of the first. *)
Lemma clean_policies2 l : Forall policy_ok l -> clean (validate_policies2 l).
Proof.
  intros Hl. unfold validate_policies2. rewrite clean_each. eapply Forall_impl; [exact Hl|].
  intros u (Hid & Hst & _). clean_simpl. split; [done|]. intros E. rewrite E in Hst. cbn in Hst.
  by apply empty_not_status in Hst.
Qed.

Lemma clean_assoc sid a : clean (validate_assoc sid a) <->
  a = zero_RSAssociation \/ normalizedAssocSessionID a <> "".
Proof.
  unfold validate_assoc. destruct (decide (a = zero_RSAssociation)) as [->|Ha].
  - rewrite bool_decide_eq_true_2, clean_warning by done. tauto.
  - rewrite bool_decide_eq_false_2 by done. clean_simpl. tauto.
Qed.

Lemma filter_nonempty ids : "" ∉ ids -> List.filter nonempty ids = ids.
Proof.
  induction ids as [|x ids IH]; cbn; [done|]. rewrite not_elem_of_cons. intros [Hx Hids].
  rewrite (proj2 (nonempty_true x)) by done. by rewrite IH.
Qed.

Lemma unknown_resolved ids ref :
  bool_decide (ref ∉@{gset string} list_to_set ids) &&
    (0 <? Z.of_nat (size (list_to_set ids : gset string))) = false <-> resolved ids ref.
Proof.
  unfold resolved. rewrite andb_false_iff, bool_decide_eq_false, Z.ltb_ge.
  assert (Hsz : Z.of_nat (size (list_to_set ids : gset string)) <= 0 <-> ids = []).
  { transitivity (size (list_to_set ids : gset string) = 0%nat); [lia|].
    rewrite size_empty_iff. destruct ids; set_solver. }
  rewrite Hsz. destruct (decide (ref ∈ ids)); set_solver.
Qed.

Lemma clean_session pids sids s :
  clean (validate_session (list_to_set pids) (list_to_set sids) s) <-> session_ok pids sids s.
Proof.
  unfold validate_session, session_ok, unknown. rewrite clean_else, String.eqb_neq, clean_app, !clean_each.
  setoid_rewrite clean_guard. by setoid_rewrite unknown_resolved.
Qed.

Lemma clean_sessions sid pids sids l :
  sid <> "" ->
  clean (validate_sessions sid (list_to_set pids) (list_to_set sids) l) <->
  (exists s, s ∈ l /\ session_id_of s = sid) /\ Forall (session_ok pids sids) l.
Proof.
  intros Hsid. unfold validate_sessions.
  assert (Hex : negb (existsb (fun s => nonempty (session_id_of s) &&
                        String.eqb (session_id_of s) sid) l) = false <->
                exists s, s ∈ l /\ session_id_of s = sid).
  { rewrite negb_false_iff, existsb_exists. setoid_rewrite andb_true_iff.
    setoid_rewrite String.eqb_eq. setoid_rewrite nonempty_true.
    setoid_rewrite <- list_elem_of_In. naive_solver. }
  destruct l as [|s l].
  - rewrite clean_error. set_solver.
  - rewrite clean_on, nonempty_true, clean_app, clean_each, clean_guard, Hex.
    setoid_rewrite clean_session. tauto.
Qed.

Lemma declared_id (ids : list string) id : "" ∉ ids -> id <> "" /\ ~ (id ∉ ids) <-> id ∈ ids.
Proof.
  intros Hids. split; [intros [_ Hn]; by apply dec_stable|].
  intros Hin. split; [|tauto]. by intros ->.
Qed.

Lemma clean_psa sid pids a : "" ∉ pids ->
  clean (validate_psa sid (list_to_set pids) a) <-> psa_ok pids a.
Proof.
  intros Hp. unfold validate_psa, psa_ok. clean_simpl.
  rewrite elem_of_list_to_set, (declared_id _ _ Hp). tauto.
Qed.

Lemma clean_stream_assoc pids sids a : "" ∉ pids ->
  clean (validate_stream_assoc (list_to_set pids) (list_to_set sids) a) <->
  stream_assoc_ok pids sids a.
Proof.
  intros Hp. unfold validate_stream_assoc, stream_assoc_ok.
  rewrite clean_app, clean_else, String.eqb_neq, clean_guard, bool_decide_eq_false,
    elem_of_list_to_set, (declared_id _ _ Hp).
  destruct (stream_refs a) as [|r l].
  - rewrite clean_error. naive_solver.
  - rewrite clean_each. setoid_rewrite clean_guard. setoid_rewrite unknown_resolved. naive_solver.
Qed.
End phases.

(** ** Properties *)

Section exact.
Context `{Unicode} `{Rfc3339}.

Lemma validation_exact_split opts m :
  let pids := map normalizedParticipantID (md_Participants m) in
  let sids := map normalizedStreamID (md_Streams m) in
  ("" ∉ pids) -> ("" ∉ sids) -> trim_space (md_SessionID m) <> "" ->
  clean (ValidateSiprecMessageWithOptions (Some m) opts) <->
  clean (validate_name m) /\ clean (validate_session_id (trim_space (md_SessionID m))) /\
  clean (validate_state m) /\ clean (validate_sequence m) /\
  clean (validate_no_participants opts m) /\
  clean (validate_participants ∅ (md_Participants m)).1 /\
  Forall (fun g => trim_space (gr_ID g) <> "") (md_Group m) /\
  clean (validate_streams ∅ (md_Streams m)).1 /\
  clean (validate_group_assocs2 (md_SessionGroupAssociations m)) /\
  Forall policy_ok (md_PolicyUpdates m) /\
  clean (validate_assoc (trim_space (md_SessionID m)) (md_SessionRecordingAssoc m)) /\
  (exists s, s ∈ md_Sessions m /\ session_id_of s = trim_space (md_SessionID m)) /\
  Forall (session_ok pids sids) (md_Sessions m) /\
  Forall (psa_ok pids) (md_ParticipantSessionAssoc m) /\
  Forall (stream_assoc_ok pids sids) (md_ParticipantStreamAssoc m).
Proof.
  cbn zeta. intros Hp Hs Hsid. unfold ValidateSiprecMessageWithOptions, participant_refs.
  pose proof (participants_seen (md_Participants m) ∅) as Epids.
  pose proof (streams_seen (md_Streams m) ∅) as Esids.
  destruct (validate_participants _ _) as [ps pids], (validate_streams _ _) as [ss sids].
  cbn [fst snd] in *. rewrite (right_id_L ∅ (∪)), filter_nonempty in Epids, Esids by done.
  subst pids sids. rewrite filter_nonempty by done.
  rewrite !clean_app, !clean_each, clean_reason_ref, clean_policies, clean_group_assocs,
    clean_group_assocs2, clean_sessions by done.
  setoid_rewrite clean_group. setoid_rewrite clean_psa; [|done].
  setoid_rewrite clean_stream_assoc; [|done].
  pose proof (clean_policies2 (md_PolicyUpdates m)). tauto.
Qed.

Lemma validation_clean opts m :
  clean (ValidateSiprecMessageWithOptions (Some m) opts) <->
  well_formed (vo_AllowMissingParticipants opts) m.
Proof.
  split.
  - intros Hc.
    assert (Hparts : clean (validate_session_id (trim_space (md_SessionID m))) /\
      clean (validate_participants ∅ (md_Participants m)).1 /\
      clean (validate_streams ∅ (md_Streams m)).1).
    { unfold ValidateSiprecMessageWithOptions in Hc.
      destruct (validate_participants _ _), (validate_streams _ _).
      rewrite !clean_app in Hc. cbn. tauto. }
    rewrite clean_session_id, clean_participants, clean_streams in Hparts.
    rewrite validation_exact_split in Hc by tauto.
    rewrite clean_name, clean_state, clean_sequence, clean_no_participants, clean_group_assocs2,
      clean_assoc in Hc.
    constructor; tauto.
  - intros []. rewrite validation_exact_split by tauto.
    rewrite clean_name, clean_session_id, clean_state, clean_sequence, clean_no_participants,
      clean_participants, clean_streams, clean_group_assocs2, clean_assoc.
    repeat (split; [tauto || set_solver|]). done.
Qed.
End exact.

(** C16: validation reports no error exactly for the well-formed documents: root
    element, session ID, state and reason combination, sequence, distinct
    non-blank participant and stream IDs, a contact and an allowed role for every
    participant, allowed stream types, complete group, policy and session
    associations, a session element for the recording session, and every
    reference to a participant or stream resolved. *)
Theorem validation_exact `{Unicode} `{Rfc3339} (m : RSMetadata) (opts : ValidationOptions) :
  vr_Errors (ValidateSiprecMessageWithOptions (Some m) opts) = [] <->
  well_formed (vo_AllowMissingParticipants opts) m.
Proof. apply validation_clean. Qed.

(** [AllowMissingParticipants] changes nothing but the one message it is
    about: with participants both modes report the same, and without them the
    strict mode reports one more error and the relaxed mode one more warning,
    at the same place of the report. *)
Theorem allow_missing_only `{Unicode} `{Rfc3339} (m : RSMetadata) :
  let strict := ValidateSiprecMessage (Some m) in
  let relaxed := ValidateSiprecMessageWithOptions (Some m) (mkValidationOptions true) in
  (md_Participants m <> [] -> relaxed = strict) /\
  (md_Participants m = [] -> exists e1 e2 w1 w2,
     vr_Errors strict = e1 ++ ENoParticipants :: e2 /\ vr_Errors relaxed = e1 ++ e2 /\
     vr_Warnings strict = w1 ++ w2 /\ vr_Warnings relaxed = w1 ++ WNoParticipants :: w2).
Proof.
  cbn zeta. unfold ValidateSiprecMessage, ValidateSiprecMessageWithOptions.
  destruct (validate_participants _ _) as [ps pids], (validate_streams _ _) as [ss sids].
  unfold validate_no_participants. split; intros Hp.
  - by destruct (md_Participants m).
  - rewrite Hp. cbn [vo_AllowMissingParticipants].
    set (front := validate_name m +; validate_session_id (trim_space (md_SessionID m)) +;
                  validate_state m +; validate_reason_ref m +; validate_sequence m).
    eexists (vr_Errors front), _, (vr_Warnings front), _. subst front.
    rewrite !errors_app, !warnings_app, <- !app_assoc. cbn [app]. repeat split.
Qed.

(** The response to a normalized document differs from it in the state and the
    sequence number only. *)
Lemma response_of_normalized m : Normalize m = m ->
  response_document m =
    m <| md_State := or_else (trim_space (md_State m)) "active" |>
      <| md_Sequence := if md_Sequence m <=? 0 then 1 else md_Sequence m |>.
Proof.
  intros Hm. unfold response_document, or_else. rewrite Normalize_unfold in *.
  set (st := if String.eqb (trim_space (md_State m)) "" then "active" else trim_space (md_State m)).
  assert (Hst : st <> "").
  { subst st. destruct (String.eqb (trim_space (md_State m)) "") eqn:E; bool_to_prop; done. }
  clearbody st. destruct m. cbn in *. injection Hm. clear Hm. intros.
  destruct (_ <=? 0); cbn; rewrite (or_else_present st) by done; f_equal; assumption.
Qed.

Lemma response_state `{Unicode} m : state_of (m <| md_State := or_else (trim_space (md_State m)) "active" |>)
  = if String.eqb (trim_space (md_State m)) "" then "active" else state_of m.
Proof.
  unfold state_of, or_else. destruct m; cbn. destruct (String.eqb _ _) eqn:E; [done|]. by rewrite trim_space_idemp.
Qed.

(** The response to a valid document as it comes from the wire, which
    decoding normalizes, is valid again, has a non-blank state and a positive
    sequence number, and keeps the session ID, the participants and the streams;
    the caller's document is left as it was, although its slices are shared.  A
    document without a state must carry a reason that fits the state
    [active]. *)
Theorem response_valid `{Unicode} `{Rfc3339} (xml_Marshal : RSMetadata -> string + string)
    (m : RSMetadata) (opts : ValidationOptions) :
  Normalize m = m ->
  vr_Errors (ValidateSiprecMessageWithOptions (Some m) opts) = [] ->
  (trim_space (md_State m) <> "" \/ reason_of m = "" \/
   reason_of m ∈ ["normal"; "manual"; "policy"; "emergency"]) ->
  let r := response_document m in
  vr_Errors (ValidateSiprecMessageWithOptions (Some r) opts) = [] /\
  trim_space (md_State r) <> "" /\ 1 <= md_Sequence r /\ md_SessionID r = md_SessionID m /\
  md_Participants r = md_Participants m /\ md_Streams r = md_Streams m /\
  (CreateMetadataResponse xml_Marshal (Some m)).2 = Some m.
Proof.
  intros Hm Hv Hst. cbn zeta. unfold CreateMetadataResponse. cbn [snd].
  rewrite (response_of_normalized _ Hm). apply validation_clean in Hv.
  split.
  - apply validation_clean.
    assert (Hs : state_reason_ok
      (if String.eqb (trim_space (md_State m)) "" then "active" else state_of m) (reason_of m)).
    { destruct Hv as [_ _ Hs _ _ _ _ _ _ _ _ _ _ _ _ _ _]. destruct (String.eqb _ _) eqn:E; [|done].
      bool_to_prop. destruct Hs as (_ & _ & Hre). split; [right; set_solver|]. split; [done|].
      intros Hne. split; [exact (proj1 (Hre Hne))|]. intros row Hrow. vm_compute in Hrow. injection Hrow as <-.
      destruct Hst as [|[|Hin]]; [done|done|exact Hin]. }
    rewrite <- response_state in Hs. destruct Hv, m; cbn in *. constructor; cbn; try done.
    destruct (_ <=? _) eqn:E; bool_to_prop; lia.
  - assert (Ho : trim_space (or_else (trim_space (md_State m)) "active") <> "").
    { unfold or_else. destruct (String.eqb _ _) eqn:E; [done|]. rewrite trim_space_idemp. by bool_to_prop. }
    destruct m; cbn in *. repeat split; try done. destruct (_ <=? _) eqn:E; bool_to_prop; lia.
Qed.

(** A two-party document in normal form. *)
Definition sample_party (id uri : string) : RSParticipant :=
  mkRSParticipant id "" "" "Party" "Party" [mkAor uri uri "" 0] [] "" "active" [] [] [].

Definition sample_document : RSMetadata :=
  zero_RSMetadata
    <| md_XMLName := mkXMLName recording_ns "recording" |>
    <| md_SessionID := "s1" |> <| md_State := "Active " |> <| md_Reason := "normal" |>
    <| md_Sessions := [zero_RSSession <| ss_ID := "s1" |> <| ss_ParticipantRefs := ["p1"; "p2"] |>
                         <| ss_StreamRefs := ["a"] |>] |>
    <| md_Participants := [sample_party "p1" "sip:alice@example.com";
                           sample_party "p2" "sip:bob@example.com"] |>
    <| md_Streams := [mkStream "1" "" "a" "" "" "s1" "" "" "" "audio" "" [] [] []] |>
    <| md_ParticipantStreamAssoc :=
         [mkRSParticipantStreamAssoc "" "" "p1" "" "" ["a"] [] "" []] |>
    <| md_SessionRecordingAssoc := mkRSAssociation "s1" "" "" "" "call" "" "" "" |>.

Lemma response_valid_witness :
  Normalize sample_document = sample_document /\
  vr_Errors (@ValidateSiprecMessageWithOptions ascii_only no_rfc3339
    (Some (response_document sample_document)) (mkValidationOptions false)) = [].
Proof.
  split; [vm_compute; reflexivity|].
  refine (proj1 (@response_valid ascii_only no_rfc3339 (fun _ => inl "") sample_document
    (mkValidationOptions false) _ _ _)); [vm_compute; reflexivity|vm_compute; reflexivity|].
  left. vm_compute. discriminate.
Defined.

(** Without a state the response defaults to [active], and a reason that was
    acceptable without a state need not fit it: the response to a valid document
    with the reason [timeout] and no state is a document this validator
    rejects. *)
Theorem response_default_state_conflict `{Unicode} `{Rfc3339} (m : RSMetadata) (opts : ValidationOptions) :
  Normalize m = m ->
  trim_space (md_State m) = "" -> reason_of m = "timeout" ->
  EReasonForState "timeout" "active" ∈
    vr_Errors (ValidateSiprecMessageWithOptions (Some (response_document m)) opts).
Proof.
  intros Hm Hst Hre. rewrite (response_of_normalized _ Hm). set (r := _ <| md_Sequence := _ |>).
  assert (Hs : state_of r = "active").
  { subst r. rewrite Hst. by destruct m. }
  assert (Hr : reason_of r = "timeout") by (rewrite <- Hre; by destruct m). clearbody r.
  unfold ValidateSiprecMessageWithOptions.
  destruct (validate_participants _ _) as [ps pids], (validate_streams _ _) as [ss sids].
  rewrite !errors_app, !elem_of_app. right. right. left.
  unfold validate_state. rewrite Hs, Hr. left.
Qed.

Lemma response_default_state_conflict_witness :
  vr_Errors (@ValidateSiprecMessage ascii_only no_rfc3339
    (Some (sample_document <| md_State := "" |> <| md_Reason := "timeout" |>))) = [] /\
  EReasonForState "timeout" "active" ∈
    vr_Errors (@ValidateSiprecMessageWithOptions ascii_only no_rfc3339
      (Some (response_document (sample_document <| md_State := "" |> <| md_Reason := "timeout" |>)))
      (mkValidationOptions false)).
Proof.
  split; [vm_compute; reflexivity|].
  apply (@response_default_state_conflict ascii_only no_rfc3339
    (sample_document <| md_State := "" |> <| md_Reason := "timeout" |>)
    (mkValidationOptions false)); vm_compute; reflexivity.
Defined.
