(* ===== verification/Policy.v ===== *)
(** * Recording policies

    [src/pkg/siprec/policy.go]: the rules, their matching against a session and
    its metadata, the evaluation with its cache, and the acknowledgement
    states.  The operations are state passing on [PolicyManager]; the mutex
    serializes them, except that [EvaluateSession] gives it up between computing
    a decision and storing it, which is why it is split in two. *)

From S2P Require Import Prelude GoStrings Metadata Session.
#[local] Open Scope string_scope.
#[local] Open Scope list_scope.
#[local] Open Scope Z_scope.

(** The hour and the weekday of an instant in the local time zone. *)
Class Calendar := {
  hour_of : Time -> Z;
  weekday_of : Time -> Z
}.

Definition PolicyAction := string.
Definition PolicyActionRecord : PolicyAction := "record".
Definition PolicyActionNoRecord : PolicyAction := "no-record".
Definition PolicyActionSelective : PolicyAction := "selective".
Definition PolicyActionPause : PolicyAction := "pause".
Definition PolicyActionResume : PolicyAction := "resume".

Record MediaFilter := mkMediaFilter {
  mf_AllowAudio : bool;
  mf_AllowVideo : bool;
  mf_AllowText : bool;
  mf_AllowMessage : bool
}.

Record TimeRange := mkTimeRange {
  tr_StartHour : Z;
  tr_EndHour : Z;
  tr_Days : list Z
}.

Record PolicyCriteria := mkPolicyCriteria {
  pc_ParticipantAOR : list string;
  pc_ParticipantRole : list string;
  pc_SessionType : list string;
  pc_Direction : list string;
  pc_TimeRanges : list TimeRange;
  pc_MetadataPatterns : gmap string string
}.

Record PolicyRule := mkPolicyRule {
  pr_ID : string;
  pr_Name : string;
  pr_Priority : Z;
  pr_Action : PolicyAction;
  pr_MatchCriteria : PolicyCriteria;
  pr_MediaFilter : MediaFilter;
  pr_RetentionDays : Z;
  pr_RequireConsent : bool;
  pr_NotifyOnRecord : bool;
  pr_Enabled : bool;
  pr_CreatedAt : Time;
  pr_UpdatedAt : Time
}.

Record PolicyDecision := mkPolicyDecision {
  pd_Action : PolicyAction;
  pd_PolicyID : string;
  pd_Reason : string;
  pd_AllowAudio : bool;
  pd_AllowVideo : bool;
  pd_AllowText : bool;
  pd_RetentionDays : Z;
  pd_Priority : Z;
  pd_Timestamp : Time
}.

Record PolicyManager := mkPolicyManager {
  pm_rules : gmap string PolicyRule;
  pm_sessionPolicies : gmap string PolicyDecision;
  pm_ackStates : gmap string (gmap string PolicyAckStatus);
  pm_defaultAction : PolicyAction
}.

Definition NewPolicyManager (defaultAction : PolicyAction) : PolicyManager :=
  mkPolicyManager ∅ ∅ ∅
    (if String.eqb defaultAction "" then PolicyActionRecord else defaultAction).

(** ** Rules *)

Inductive rule_error := RuleNil | RuleNoID.

Definition AddRule (now1 now2 : Time) (rule : option PolicyRule) (pm : PolicyManager)
    : (unit + rule_error) * PolicyManager :=
  match rule with
  | None => (inr RuleNil, pm)
  | Some rule =>
    if String.eqb (pr_ID rule) "" then (inr RuleNoID, pm) else
    let rule := rule <| pr_CreatedAt := now1 |> <| pr_UpdatedAt := now2 |> in
    (inl (), pm <| pm_rules := <[pr_ID rule := rule]> (pm_rules pm) |>)
  end.

Definition RemoveRule (ruleID : string) (pm : PolicyManager) : PolicyManager :=
  pm <| pm_rules := delete ruleID (pm_rules pm) |>.

Definition GetRule (ruleID : string) (pm : PolicyManager) : option PolicyRule := pm_rules pm !! ruleID.

(** ** Matching *)

Definition isInTimeRange `{Calendar} (t : Time) (tr : TimeRange) : bool :=
  let hour := hour_of t in
  let weekday := weekday_of t in
  if (0 <? Z.of_nat (length (tr_Days tr))) && negb (existsb (fun d => d =? weekday) (tr_Days tr))
  then false
  else if tr_StartHour tr <=? tr_EndHour tr
  then (tr_StartHour tr <=? hour) && (hour <? tr_EndHour tr)
  else (tr_StartHour tr <=? hour) || (hour <? tr_EndHour tr).

(** The slices [pattern[1:len(pattern)-1]], [pattern[1:]] and
    [pattern[:len(pattern)-1]]. *)
Definition matchPattern `{Unicode} (value pattern : string) : bool :=
  let n := String.length pattern in
  if String.eqb pattern "*" then true
  else if has_prefix pattern "*" && has_suffix pattern "*"
  then contains value (take_string (n - 2) (drop_string 1 pattern))
  else if has_prefix pattern "*" then has_suffix value (drop_string 1 pattern)
  else if has_suffix pattern "*" then has_prefix value (take_string (n - 1) pattern)
  else equal_fold value pattern.

(** A criterion that is set must be matched by some candidate. *)
Definition criterion {A} (criteria : list A) (matched : bool) : bool :=
  match criteria with [] => true | _ => matched end.

Definition aor_matches `{Unicode} (patterns : list string) (m : RSMetadata) : bool :=
  existsb (fun p => existsb (fun a => existsb (fun pattern =>
    matchPattern (aor_Value a) pattern || matchPattern (aor_URI a) pattern) patterns)
    (rp_Aor p)) (md_Participants m).

Definition role_matches `{Unicode} (roles : list string) (m : RSMetadata) : bool :=
  existsb (fun p => existsb (fun target =>
    String.eqb (to_lower (trim_space (rp_Role p))) (to_lower target)) roles) (md_Participants m).

Definition ruleMatches `{Unicode} `{Calendar} (now : Time) (rule : PolicyRule)
    (session : option RecordingSession) (metadata : option RSMetadata) : bool :=
  let c := pr_MatchCriteria rule in
  criterion (pc_TimeRanges c) (existsb (isInTimeRange now) (pc_TimeRanges c)) &&
  match metadata with
  | Some m => criterion (pc_ParticipantAOR c) (aor_matches (pc_ParticipantAOR c) m) &&
              criterion (pc_ParticipantRole c) (role_matches (pc_ParticipantRole c) m)
  | None => true
  end &&
  match session with
  | Some s =>
    criterion (pc_Direction c)
      (existsb (fun dir => equal_fold (rs_Direction s) dir || String.eqb dir "both") (pc_Direction c)) &&
    criterion (pc_SessionType c)
      (existsb (fun stype => equal_fold (rs_RecordingType s) stype) (pc_SessionType c))
  | None => true
  end.

(** ** Evaluation *)

(** The rules that are enabled and match, in the order the map is visited; the
    rule visited in position [k] reads the clock [clock k]. *)
Fixpoint matching_rules `{Unicode} `{Calendar} (clock : nat -> Time) (k : nat)
    (session : option RecordingSession) (metadata : option RSMetadata)
    (l : list (string * PolicyRule)) : list PolicyRule :=
  match l with
  | [] => []
  | (_, rule) :: l =>
    let rest := matching_rules clock (S k) session metadata l in
    if pr_Enabled rule && ruleMatches (clock k) rule session metadata then rule :: rest else rest
  end.

(** The inner loop of the sort: [x] is the element at [i], and an element of
    higher priority found at [j] changes places with it. *)
Fixpoint exchange (x : PolicyRule) (l : list PolicyRule) : PolicyRule * list PolicyRule :=
  match l with
  | [] => (x, [])
  | y :: l =>
    if pr_Priority x <? pr_Priority y
    then let '(m, r) := exchange y l in (m, x :: r)
    else let '(m, r) := exchange x l in (m, y :: r)
  end.

(** The outer loop, one position for each step of [n]. *)
Fixpoint sort_rules (n : nat) (l : list PolicyRule) : list PolicyRule :=
  match n, l with
  | S n, x :: l => let '(m, r) := exchange x l in m :: sort_rules n r
  | _, l => l
  end.

Definition decision_of (defaultAction : PolicyAction) (now : Time) (l : list PolicyRule)
    : PolicyDecision :=
  match l with
  | [] => mkPolicyDecision defaultAction "" "" true true true 0 0 now
  | rule :: _ =>
    mkPolicyDecision (pr_Action rule) (pr_ID rule) (pr_Name rule)
      (mf_AllowAudio (pr_MediaFilter rule)) (mf_AllowVideo (pr_MediaFilter rule))
      (mf_AllowText (pr_MediaFilter rule)) (pr_RetentionDays rule) (pr_Priority rule) now
  end.

Definition session_key (session : option RecordingSession) : string :=
  match session with Some s => rs_ID s | None => "" end.

(** The part under the first read lock: a cached decision, or a new one. *)
Definition evaluate `{Unicode} `{Calendar} `{!GoMapRange string} (clock : nat -> Time) (k : nat)
    (session : option RecordingSession) (metadata : option RSMetadata) (pm : PolicyManager)
    : PolicyDecision * bool :=
  let id := session_key session in
  match (if String.eqb id "" then None else pm_sessionPolicies pm !! id) with
  | Some cached => (cached, true)
  | None =>
    let l := matching_rules clock 0 session metadata (map_range k (pm_rules pm)) in
    (decision_of (pm_defaultAction pm) (clock (size (pm_rules pm))) (sort_rules (length l - 1) l), false)
  end.

(** The part under the write lock. *)
Definition cache_decision (id : string) (d : PolicyDecision) (pm : PolicyManager) : PolicyManager :=
  if String.eqb id "" then pm
  else pm <| pm_sessionPolicies := <[id := d]> (pm_sessionPolicies pm) |>.

Definition EvaluateSession `{Unicode} `{Calendar} `{!GoMapRange string} (clock : nat -> Time) (k : nat)
    (session : option RecordingSession) (metadata : option RSMetadata) (pm : PolicyManager)
    : PolicyDecision * PolicyManager :=
  let '(d, cached) := evaluate clock k session metadata pm in
  (d, if cached then pm else cache_decision (session_key session) d pm).

(** ** Acknowledgements *)

Definition set_ack (sessionID policyID : string) (a : PolicyAckStatus) (pm : PolicyManager)
    : PolicyManager :=
  pm <| pm_ackStates :=
    <[sessionID := <[policyID := a]> (default ∅ (pm_ackStates pm !! sessionID))]> (pm_ackStates pm) |>.

Definition ProcessPolicyUpdate (now : Time) (sessionID : string) (update : PolicyUpdate)
    (pm : PolicyManager) : PolicyAckStatus * PolicyManager :=
  let a := mkPolicyAckStatus (pu_Status update) (pu_Acknowledged update) now (pu_Timestamp update) in
  (a, set_ack sessionID (pu_PolicyID update) a pm).

Definition GetPolicyAckStatus (sessionID policyID : string) (pm : PolicyManager)
    : option PolicyAckStatus :=
  pm_ackStates pm !! sessionID ≫= fun acks => acks !! policyID.

Definition AcknowledgePolicy (now : Time) (sessionID policyID status : string) (pm : PolicyManager)
    : PolicyManager :=
  set_ack sessionID policyID (mkPolicyAckStatus status true now "") pm.

Definition ClearSessionPolicies (sessionID : string) (pm : PolicyManager) : PolicyManager :=
  pm <| pm_sessionPolicies := delete sessionID (pm_sessionPolicies pm) |>
     <| pm_ackStates := delete sessionID (pm_ackStates pm) |>.

Definition ShouldRecord (d : PolicyDecision) : bool :=
  String.eqb (pd_Action d) PolicyActionRecord || String.eqb (pd_Action d) PolicyActionSelective.

Definition ShouldPause (d : PolicyDecision) : bool := String.eqb (pd_Action d) PolicyActionPause.

Definition IsBlocked (d : PolicyDecision) : bool := String.eqb (pd_Action d) PolicyActionNoRecord.

(** The entry for the ID in position [k] is stamped with the clock [clock k]. *)
Fixpoint policy_responses `{Rfc3339} (clock : nat -> Time) (k : nat) (sessionID : string)
    (pm : PolicyManager) (l : list string) : list PolicyUpdate :=
  match l with
  | [] => []
  | policyID :: l =>
    let ts := format_rfc3339 (clock k) in
    match GetPolicyAckStatus sessionID policyID pm with
    | Some ack => mkPolicyUpdate policyID (pa_Status ack) (pa_Acknowledged ack) ts
    | None => mkPolicyUpdate policyID "acknowledged" true ts
    end :: policy_responses clock (S k) sessionID pm l
  end.

Definition GeneratePolicyUpdateResponse `{Rfc3339} (clock : nat -> Time) (sessionID : string)
    (policyIDs : list string) (pm : PolicyManager) : list PolicyUpdate :=
  policy_responses clock 0 sessionID pm policyIDs.

(** The rules that require a consent nobody gave, by ID. *)
Fixpoint violations_from `{Unicode} `{Calendar} (clock : nat -> Time) (k : nat)
    (session : option RecordingSession) (metadata : option RSMetadata)
    (l : list (string * PolicyRule)) : list string :=
  match l with
  | [] => []
  | (_, rule) :: l =>
    let rest := violations_from clock (S k) session metadata l in
    match session with
    | Some s =>
      if pr_Enabled rule && pr_RequireConsent rule &&
         negb (existsb pt_ConsentObtained (rs_Participants s)) &&
         ruleMatches (clock k) rule session metadata
      then pr_ID rule :: rest else rest
    | None => rest
    end
  end.

Definition ValidatePolicyRequirements `{Unicode} `{Calendar} `{!GoMapRange string}
    (clock : nat -> Time) (k : nat) (session : option RecordingSession)
    (metadata : option RSMetadata) (pm : PolicyManager) : list string :=
  violations_from clock 0 session metadata (map_range k (pm_rules pm)).

(** ** Facts *)

Lemma exchange_spec x l m r : exchange x l = (m, r) ->
  m :: r ≡ₚ x :: l /\ Forall (fun y => pr_Priority y <= pr_Priority m) r /\
  pr_Priority x <= pr_Priority m.
Proof.
  revert x m r. induction l as [|y l IH]; intros x m r; cbn.
  { intros [= <- <-]. repeat split; [done|constructor|lia]. }
  destruct (pr_Priority x <? pr_Priority y) eqn:E; bool_to_prop.
  - destruct (exchange y l) as [m' r'] eqn:Ex. intros [= <- <-].
    destruct (IH _ _ _ Ex) as (Hp & Hr & Hy). split; [|split; [constructor; [lia|done]|lia]].
    rewrite perm_swap, Hp. done.
  - destruct (exchange x l) as [m' r'] eqn:Ex. intros [= <- <-].
    destruct (IH _ _ _ Ex) as (Hp & Hr & Hx). split; [|split; [constructor; [lia|done]|lia]].
    rewrite perm_swap, Hp. apply perm_swap.
Qed.

Lemma sort_rules_perm n l : sort_rules n l ≡ₚ l.
Proof.
  revert l. induction n as [|n IH]; intros [|x l]; cbn; try done.
  destruct (exchange x l) as [m r] eqn:E. apply exchange_spec in E as [<- _]. by rewrite IH.
Qed.

(** One pass per position but the last sorts the rules by decreasing
    priority. *)
Lemma sort_rules_sorted n l : (length l <= S n)%nat ->
  StronglySorted (fun x y => pr_Priority y <= pr_Priority x) (sort_rules n l).
Proof.
  revert l. induction n as [|n IH]; intros [|x l] Hl; cbn; try constructor.
  - destruct l; [constructor|cbn in Hl; lia].
  - destruct l; [constructor|cbn in Hl; lia].
  - destruct (exchange x l) as [m r] eqn:E. apply exchange_spec in E as (Hp & Hr & _).
    apply Permutation_length in Hp. cbn in *. constructor; [apply IH; lia|].
    by rewrite sort_rules_perm.
Qed.

Section evaluation.
Context `{Unicode} `{Calendar} `{!GoMapRange string}.

Lemma elem_of_matching_rules clock k session metadata l r :
  r ∈ matching_rules clock k session metadata l <->
  exists i key, l !! i = Some (key, r) /\ pr_Enabled r = true /\
                ruleMatches (clock (k + i)%nat) r session metadata = true.
Proof.
  revert k. induction l as [|[key r'] l IH]; intros k; cbn -[ruleMatches].
  { split; [by intros ?%elem_of_nil|by intros (i & key & Hi & _)]. }
  assert (Hstep : (exists i key0, ((key, r') :: l) !! i = Some (key0, r) /\ pr_Enabled r = true /\
                     ruleMatches (clock (k + i)%nat) r session metadata = true) <->
    (r = r' /\ pr_Enabled r = true /\ ruleMatches (clock k) r session metadata = true) \/
    r ∈ matching_rules clock (S k) session metadata l).
  { rewrite IH. split.
    - intros ([|i] & key0 & Hi & He & Hm); cbn in Hi.
      + injection Hi as <- <-. rewrite Nat.add_0_r in Hm. by left.
      + right. exists i, key0. by rewrite Nat.add_succ_comm.
    - intros [(-> & He & Hm)|(i & key0 & Hi & He & Hm)].
      + exists 0%nat, key. by rewrite Nat.add_0_r.
      + exists (S i), key0. by rewrite <- Nat.add_succ_comm. }
  rewrite Hstep. destruct (pr_Enabled r' && _) eqn:E.
  - rewrite elem_of_cons. bool_to_prop. naive_solver.
  - split; [by right|]. intros [(-> & He & Hm)|?]; [|done]. by rewrite He, Hm in E.
Qed.

(** The position of a key in a scan. *)
Definition position (key : string) (l : list (string * PolicyRule)) : nat :=
  default 0%nat (fst <$> list_find (eq key) l.*1).

Lemma position_spec key r l i : NoDup l.*1 -> l !! i = Some (key, r) -> position key l = i.
Proof.
  intros Hnd Hi. unfold position.
  assert (Hi' : l.*1 !! i = Some key) by (rewrite list_lookup_fmap, Hi; done).
  destruct (list_find (eq key) l.*1) as [[j key']|] eqn:E; cbn.
  - apply list_find_Some in E as (Hj & <- & _). by eapply NoDup_lookup.
  - apply list_find_None in E. rewrite Forall_forall in E.
    exfalso. apply (E key); [by eapply list_elem_of_lookup_2|done].
Qed.

Lemma matching_rules_spec clock n session metadata (rules : gmap string PolicyRule) r :
  let at_ key := position key (map_range n rules) in
  r ∈ matching_rules clock 0 session metadata (map_range n rules) <->
  exists key, rules !! key = Some r /\ pr_Enabled r = true /\
              ruleMatches (clock (at_ key)) r session metadata = true.
Proof.
  cbn zeta. rewrite elem_of_matching_rules. cbn [Nat.add]. split.
  - intros (i & key & Hi & He & Hm). exists key.
    rewrite (position_spec key r _ i); [|apply map_range_NoDup_fst|done].
    split; [|done]. apply (elem_of_map_range n). by eapply list_elem_of_lookup_2.
  - intros (key & Hk & He & Hm). apply (elem_of_map_range n) in Hk.
    apply list_elem_of_lookup_1 in Hk as [i Hi]. exists i, key.
    rewrite (position_spec key r _ i) in Hm; [done|apply map_range_NoDup_fst|done].
Qed.

Lemma violations_spec clock k s metadata l id :
  id ∈ violations_from clock k (Some s) metadata l <->
  negb (existsb pt_ConsentObtained (rs_Participants s)) = true /\
  exists i key r, l !! i = Some (key, r) /\ pr_ID r = id /\ pr_Enabled r = true /\
    pr_RequireConsent r = true /\ ruleMatches (clock (k + i)%nat) r (Some s) metadata = true.
Proof.
  revert k. induction l as [|[key r] l IH]; intros k; cbn -[ruleMatches].
  { split; [by intros ?%elem_of_nil|by intros (_ & i & key & r & Hi & _)]. }
  set (c := negb _). set (b := pr_Enabled r && pr_RequireConsent r && c && _).
  transitivity ((b = true /\ id = pr_ID r) \/ id ∈ violations_from clock (S k) (Some s) metadata l).
  { destruct b; rewrite ?elem_of_cons; naive_solver. }
  rewrite IH. fold c. subst b. split.
  - intros [[Hb ->]|(Hc & i & key0 & r0 & Hi & Hr)].
    + bool_to_prop. split; [done|]. exists 0%nat, key, r. by rewrite Nat.add_0_r.
    + split; [done|]. exists (S i), key0, r0. by rewrite <- Nat.add_succ_comm.
  - intros (Hc & [|i] & key0 & r0 & Hi & Hid & He & Hq & Hm); cbn in Hi.
    + injection Hi as <- <-. left. rewrite Nat.add_0_r in Hm. by rewrite He, Hq, Hc, Hm.
    + right. split; [done|]. exists i, key0, r0. by rewrite Nat.add_succ_comm.
Qed.
End evaluation.

(** ** Sequences of operations *)

Inductive policy_op :=
  | OpAddRule (now1 now2 : Time) (rule : option PolicyRule)
  | OpRemoveRule (ruleID : string)
  | OpEvaluate (clock : nat -> Time) (k : nat) (session : option RecordingSession)
      (metadata : option RSMetadata)
  | OpUpdate (now : Time) (sessionID : string) (update : PolicyUpdate)
  | OpAcknowledge (now : Time) (sessionID policyID status : string)
  | OpClear (sessionID : string).

Definition policy_step `{Unicode} `{Calendar} `{!GoMapRange string} (pm : PolicyManager)
    (op : policy_op) : PolicyManager :=
  match op with
  | OpAddRule now1 now2 rule => (AddRule now1 now2 rule pm).2
  | OpRemoveRule id => RemoveRule id pm
  | OpEvaluate clock k session metadata => (EvaluateSession clock k session metadata pm).2
  | OpUpdate now id update => (ProcessPolicyUpdate now id update pm).2
  | OpAcknowledge now id pid status => AcknowledgePolicy now id pid status pm
  | OpClear id => ClearSessionPolicies id pm
  end.

Definition clears (id : string) (op : policy_op) : Prop :=
  match op with OpClear id' => id' = id | _ => False end.

Section steps.
Context `{Unicode} `{Calendar} `{!GoMapRange string}.

Lemma policy_step_keeps_decision pm op id d :
  ~ clears id op -> pm_sessionPolicies pm !! id = Some d ->
  pm_sessionPolicies (policy_step pm op) !! id = Some d.
Proof.
  intros Hop Hd. destruct op as [n1 n2 [r|]|?|clock k s m|??[]|????|id']; cbn -[evaluate]; try by destruct pm.
  - destruct (String.eqb (pr_ID r) ""); by destruct pm.
  - unfold EvaluateSession. unfold evaluate. destruct (String.eqb (session_key s) "") eqn:E; cbn.
    + unfold cache_decision. by rewrite E.
    + destruct (pm_sessionPolicies pm !! session_key s) eqn:Es; [done|]. cbn.
      unfold cache_decision. rewrite E. destruct pm; cbn in *.
      rewrite lookup_insert_ne; [done|]. congruence.
  - destruct pm; cbn in *. rewrite lookup_delete_ne; done.
Qed.

(** Rules are stored under their ID, which is not empty. *)
Definition rules_keyed (pm : PolicyManager) : Prop :=
  map_Forall (fun key r => pr_ID r = key /\ key <> "") (pm_rules pm).

Lemma policy_step_keyed pm op : rules_keyed pm -> rules_keyed (policy_step pm op).
Proof.
  intros Hpm. destruct op as [n1 n2 [r|]|?|clock k s m|??[]|????|id']; cbn -[evaluate]; try by destruct pm.
  - destruct (String.eqb (pr_ID r) "") eqn:E; [done|]. bool_to_prop. destruct pm, r; cbn in *.
    unfold rules_keyed; cbn. by apply map_Forall_insert_2.
  - destruct pm; unfold rules_keyed; cbn. by apply map_Forall_delete.
  - unfold EvaluateSession. destruct (evaluate _ _ _ _ _) as [d []]; [done|]. cbn.
    unfold cache_decision. destruct (String.eqb _ _); by destruct pm.
Qed.
End steps.

(** ** Properties *)

(** C23: the decision for a session without a cached one comes from a rule that
    is enabled and matches, of the highest priority among all such rules,
    whatever order the rules are visited in; when no rule matches it is the
    default action with every medium allowed.  Each rule is tested at the
    instant the clock showed when the scan reached it. *)
Theorem evaluate_highest_priority `{Unicode} `{Calendar} `{!GoMapRange string}
    (clock : nat -> Time) (n : nat) (session : option RecordingSession)
    (metadata : option RSMetadata) (pm : PolicyManager) :
  session_key session = "" \/ pm_sessionPolicies pm !! session_key session = None ->
  let d := (EvaluateSession clock n session metadata pm).1 in
  let now := clock (size (pm_rules pm)) in
  let matches key r := pm_rules pm !! key = Some r /\ pr_Enabled r = true /\
    ruleMatches (clock (position key (map_range n (pm_rules pm)))) r session metadata = true in
  (exists key r, matches key r /\
     (forall key' r', matches key' r' -> pr_Priority r' <= pr_Priority r) /\
     d = mkPolicyDecision (pr_Action r) (pr_ID r) (pr_Name r)
           (mf_AllowAudio (pr_MediaFilter r)) (mf_AllowVideo (pr_MediaFilter r))
           (mf_AllowText (pr_MediaFilter r)) (pr_RetentionDays r) (pr_Priority r) now) \/
  ((forall key r, ~ matches key r) /\
   d = mkPolicyDecision (pm_defaultAction pm) "" "" true true true 0 0 now).
Proof.
  intros Hc. cbn zeta. unfold EvaluateSession, evaluate.
  assert (Hnone : (if String.eqb (session_key session) "" then None
                   else pm_sessionPolicies pm !! session_key session) = None).
  { destruct (String.eqb _ _) eqn:E; [done|]. bool_to_prop. by destruct Hc. }
  rewrite Hnone. cbn [fst].
  pose proof (matching_rules_spec clock n session metadata (pm_rules pm)) as Hspec. cbn zeta in Hspec.
  set (L := matching_rules _ _ _ _ _) in *.
  pose proof (sort_rules_sorted (length L - 1) L ltac:(lia)) as Hs.
  pose proof (sort_rules_perm (length L - 1) L) as Hp.
  destruct (sort_rules (length L - 1) L) as [|r rest].
  - right. split; [|done]. intros key r Hm.
    assert (Hin : r ∈ L) by (apply Hspec; eauto). rewrite <- Hp in Hin. by apply elem_of_nil in Hin.
  - left. assert (Hr : r ∈ L) by (rewrite <- Hp; left). apply Hspec in Hr as [key Hm].
    exists key, r. split; [done|]. split; [|done]. intros key' r' Hm'.
    assert (Hin : r' ∈ L) by (apply Hspec; eauto). rewrite <- Hp in Hin.
    apply StronglySorted_inv in Hs as [_ Hall]. rewrite Forall_forall in Hall.
    apply elem_of_cons in Hin as [->|Hin]; [lia|]. by apply Hall.
Qed.

(** A decision, once made for a session, is what every later evaluation of
    the session returns, through any sequence of rule changes, updates,
    acknowledgements and evaluations, until the session is cleared; and after
    clearing it nothing is cached. *)
Theorem decision_sticky `{Unicode} `{Calendar} `{!GoMapRange string}
    (clock clock' : nat -> Time) (n n' : nat) (session session' : option RecordingSession)
    (metadata metadata' : option RSMetadata) (pm : PolicyManager) (ops : list policy_op) :
  session_key session <> "" -> session_key session' = session_key session ->
  Forall (fun op => ~ clears (session_key session) op) ops ->
  let '(d, pm1) := EvaluateSession clock n session metadata pm in
  let pm2 := foldl policy_step pm1 ops in
  EvaluateSession clock' n' session' metadata' pm2 = (d, pm2) /\
  pm_sessionPolicies (ClearSessionPolicies (session_key session) pm2) !! session_key session = None.
Proof.
  intros Hid Hsame Hops. destruct (EvaluateSession _ _ session _ pm) as [d pm1] eqn:E. cbn zeta.
  assert (Hd : pm_sessionPolicies pm1 !! session_key session = Some d).
  { unfold EvaluateSession, evaluate in E. destruct (String.eqb (session_key session) "") eqn:Ei;
      bool_to_prop; [done|].
    destruct (pm_sessionPolicies pm !! session_key session) eqn:Es; injection E as <- <-; [done|].
    unfold cache_decision. rewrite (proj2 (String.eqb_neq _ _)) by done. destruct pm; cbn.
    by rewrite lookup_insert_eq. }
  clear E. revert pm1 Hd. induction Hops as [|op ops Hop Hops IH]; intros pm1 Hd; cbn -[EvaluateSession].
  - split; [|destruct pm1; cbn; apply lookup_delete_eq].
    unfold EvaluateSession, evaluate. rewrite Hsame, (proj2 (String.eqb_neq _ _)) by done.
    by rewrite Hd.
  - apply IH. by apply policy_step_keeps_decision.
Qed.

(** A calendar to evaluate examples: UTC, with instants counted from the Unix
    epoch. *)
Definition utc : Calendar := {|
  hour_of := fun t => (t / 3600000000000) mod 24;
  weekday_of := fun t => (t / 86400000000000 + 4) mod 7
|}.

Definition any_criteria : PolicyCriteria := mkPolicyCriteria [] [] [] [] [] ∅.

Definition sample_rule (id : string) (priority : Z) (action : PolicyAction) : PolicyRule :=
  mkPolicyRule id id priority action any_criteria (mkMediaFilter true false false false) 30
    false false true 0 0.

Definition sample_policies : PolicyManager :=
  (AddRule 1 1 (Some (sample_rule "block" 9 PolicyActionNoRecord))
    (AddRule 1 1 (Some (sample_rule "keep" 5 PolicyActionRecord))
       (NewPolicyManager PolicyActionRecord)).2).2.

Definition sample_call : RecordingSession := zero_RecordingSession <| rs_ID := "call-1" |>.

Lemma evaluate_highest_priority_witness :
  pd_PolicyID (@EvaluateSession ascii_only utc (list_range string) (fun _ => 7) 0
    (Some sample_call) None sample_policies).1 = "block" /\
  pd_Timestamp (@EvaluateSession ascii_only utc (list_range string) (fun _ => 7) 0
    (Some sample_call) None sample_policies).1 = 7.
Proof.
  split; [vm_compute; reflexivity|].
  destruct (@evaluate_highest_priority ascii_only utc (list_range string) (fun _ => 7) 0
    (Some sample_call) None sample_policies (or_intror eq_refl))
    as [(key & r & _ & _ & ->)|[_ ->]]; reflexivity.
Defined.

Lemma decision_sticky_witness :
  (EvaluateSession (H := ascii_only) (H0 := utc) (GoMapRange0 := list_range string)
     (fun _ => 9) 0 (Some sample_call) None
     (policy_step (H := ascii_only) (H0 := utc) (GoMapRange0 := list_range string)
        (EvaluateSession (H := ascii_only) (H0 := utc) (GoMapRange0 := list_range string)
           (fun _ => 7) 0 (Some sample_call) None sample_policies).2
        (OpRemoveRule "block"))).1 =
  (EvaluateSession (H := ascii_only) (H0 := utc) (GoMapRange0 := list_range string)
     (fun _ => 7) 0 (Some sample_call) None sample_policies).1.
Proof.
  pose proof (@decision_sticky ascii_only utc (list_range string) (fun _ => 7) (fun _ => 9) 0 0
    (Some sample_call) (Some sample_call) None None sample_policies [OpRemoveRule "block"]
    ltac:(discriminate) eq_refl ltac:(repeat constructor; tauto)) as Hs.
  revert Hs. destruct (EvaluateSession _ _ _ _ sample_policies) as [d pm1]. intros [Hs _].
  cbn [foldl fst snd] in *. by rewrite Hs.
Defined.

(** A pattern with wildcards matches the values of its shape: anything for a
    lone star, a substring between two stars, a suffix after a leading star, a
    prefix before a trailing one; a pattern without them matches up to letter
    case.  The slicing of the pattern never goes out of range. *)
Theorem match_pattern_correct `{Unicode} (v w : string) :
  matchPattern v "*" = true /\
  (matchPattern v ("*" +:+ w +:+ "*") = true <-> exists a b, v = a +:+ w +:+ b) /\
  (has_suffix w "*" = false ->
   matchPattern v ("*" +:+ w) = true <-> exists a, v = a +:+ w) /\
  (has_prefix w "*" = false ->
   matchPattern v (w +:+ "*") = true <-> exists b, v = w +:+ b) /\
  (has_prefix w "*" = false -> has_suffix w "*" = false -> matchPattern v w = equal_fold v w).
Proof.
  split; [done|].
  assert (Hp : forall t, has_prefix ("*" +:+ t) "*" = true) by (intros t; apply has_prefix_spec; by exists t).
  assert (Hsf : forall t, has_suffix (t +:+ "*") "*" = true) by (intros t; apply has_suffix_spec; by exists t).
  unfold matchPattern. repeat split_and.
  - replace (String.eqb ("*" +:+ w +:+ "*") "*") with false.
    2:{ symmetry. apply String.eqb_neq. intros E. apply (f_equal String.length) in E.
        rewrite !string_length_app in E. cbn in E. lia. }
    rewrite Hp, <- string_app_assoc, Hsf. cbn [andb]. rewrite string_app_assoc, !string_length_app.
    replace (String.length "*" + (String.length w + String.length "*") - 2)%nat
      with (String.length w) by (cbn; lia).
    change (drop_string 1 ("*" +:+ w +:+ "*")) with (w +:+ "*").
    rewrite take_string_app. apply contains_spec.
  - intros Hw. destruct (String.eqb ("*" +:+ w) "*") eqn:E; bool_to_prop.
    { assert (w = "") as -> by (by destruct w). split; [intros _; exists v; by rewrite string_app_nil_r|done]. }
    rewrite Hp, has_suffix_cons, Hw by (by intros ->). cbn [andb].
    change (drop_string 1 ("*" +:+ w)) with w. apply has_suffix_spec.
  - intros Hw. destruct (String.eqb (w +:+ "*") "*") eqn:E; bool_to_prop.
    { assert (w = "") as -> by (destruct w as [|? []]; cbn in E; by simplify_eq). split; [intros _; by exists v|done]. }
    assert (Hne : w <> "") by (by intros ->).
    replace (has_prefix (w +:+ "*") "*") with false.
    2:{ symmetry. apply not_true_iff_false. intros [t Ht]%has_prefix_spec.
        apply not_true_iff_false in Hw. apply Hw, has_prefix_spec.
        destruct w as [|c w]; [done|]. rewrite string_app_cons in Ht. injection Ht as -> _. by exists w. }
    rewrite Hsf. cbn [andb]. rewrite string_length_app.
    replace (String.length w + String.length "*" - 1)%nat with (String.length w) by (cbn; lia).
    rewrite take_string_app. apply has_prefix_spec.
  - intros Hw1 Hw2. rewrite Hw1, Hw2. cbn [andb].
    destruct (String.eqb w "*") eqn:E; [|done]. bool_to_prop. by subst.
Qed.

(** The ranges from [s] to [e] and from [e] to [s] split each day that the
    range covers: every hour is in exactly one of them, across midnight
    included; outside its days a range holds never. *)
Theorem time_range_complement `{Calendar} (t : Time) (s e : Z) (days : list Z) :
  s <> e ->
  isInTimeRange t (mkTimeRange s e days) =
    (bool_decide (days = [] \/ weekday_of t ∈ days) && negb (isInTimeRange t (mkTimeRange e s []))).
Proof.
  intros Hse. unfold isInTimeRange. cbn [tr_Days tr_StartHour tr_EndHour length].
  assert (Hd : bool_decide (days = [] \/ weekday_of t ∈ days) =
    negb ((0 <? Z.of_nat (length days)) && negb (existsb (fun d => d =? weekday_of t) days))).
  { apply eq_iff_eq_true. rewrite bool_decide_eq_true, negb_true_iff, andb_false_iff, negb_false_iff,
      existsb_exists, Z.ltb_ge. setoid_rewrite <- list_elem_of_In. setoid_rewrite Z.eqb_eq.
    destruct days; cbn; naive_solver lia. }
  rewrite Hd. destruct (_ && _); cbn; [done|]. case_tests; bool_to_prop; try lia;
    apply eq_iff_eq_true; rewrite ?negb_true_iff, ?andb_true_iff, ?orb_true_iff, ?andb_false_iff,
      ?orb_false_iff, ?Z.leb_le, ?Z.ltb_lt, ?Z.leb_gt, ?Z.ltb_ge; lia.
Qed.

Lemma time_range_complement_witness :
  @isInTimeRange utc 82800000000000 (mkTimeRange 22 6 []) = true /\
  @isInTimeRange utc 82800000000000 (mkTimeRange 22 6 []) =
    (bool_decide (@nil Z = [] \/ @weekday_of utc 82800000000000 ∈ @nil Z) &&
     negb (@isInTimeRange utc 82800000000000 (mkTimeRange 6 22 []))).
Proof. split; [reflexivity|]. apply (@time_range_complement utc); discriminate. Defined.

(** The update response lists the requested policies in order, each with
    the state last recorded for it by an update or an acknowledgement of that
    session, and as acknowledged when none was recorded; recording a state for
    one policy of one session changes no other, and clearing a session forgets
    its states only. *)
Theorem acknowledgements_correct `{Rfc3339} (clock : nat -> Time) (now : Time)
    (sid pid status : string) (u : PolicyUpdate) (pids : list string) (pm : PolicyManager) :
  GetPolicyAckStatus sid pid (AcknowledgePolicy now sid pid status pm)
    = Some (mkPolicyAckStatus status true now "") /\
  GetPolicyAckStatus sid (pu_PolicyID u) (ProcessPolicyUpdate now sid u pm).2
    = Some (ProcessPolicyUpdate now sid u pm).1 /\
  (forall sid' pid', (sid', pid') <> (sid, pid) ->
     GetPolicyAckStatus sid' pid' (AcknowledgePolicy now sid pid status pm) =
     GetPolicyAckStatus sid' pid' pm) /\
  (forall sid' pid', GetPolicyAckStatus sid' pid' (ClearSessionPolicies sid pm) =
     if String.eqb sid' sid then None else GetPolicyAckStatus sid' pid' pm) /\
  map pu_PolicyID (GeneratePolicyUpdateResponse clock sid pids pm) = pids /\
  Forall (fun r =>
    (pu_Status r, pu_Acknowledged r) =
      match GetPolicyAckStatus sid (pu_PolicyID r) pm with
      | Some a => (pa_Status a, pa_Acknowledged a)
      | None => ("acknowledged", true)
      end) (GeneratePolicyUpdateResponse clock sid pids pm).
Proof.
  assert (Hset : forall sid' pid' pid a, GetPolicyAckStatus sid' pid' (set_ack sid pid a pm) =
    if decide (sid' = sid /\ pid' = pid) then Some a else GetPolicyAckStatus sid' pid' pm).
  { intros sid' pid' pid0 a. unfold GetPolicyAckStatus, set_ack. destruct pm; cbn.
    rewrite lookup_insert. destruct (decide (sid = sid')) as [->|]; cbn.
    - rewrite lookup_insert. destruct (decide (pid0 = pid')) as [->|]; [by rewrite decide_True|].
      rewrite decide_False by naive_solver. by destruct (_ !! sid').
    - rewrite decide_False by naive_solver. done. }
  unfold AcknowledgePolicy, ProcessPolicyUpdate. cbn [fst snd]. rewrite !Hset, !decide_True by done.
  do 2 (split; [done|]). split; [|split].
  - intros sid' pid' Hne. rewrite Hset, decide_False; [done|]. naive_solver.
  - intros sid' pid'. unfold GetPolicyAckStatus, ClearSessionPolicies. destruct pm; cbn.
    destruct (String.eqb sid' sid) eqn:E; bool_to_prop; subst; [by rewrite lookup_delete_eq|].
    by rewrite lookup_delete_ne by done.
  - unfold GeneratePolicyUpdateResponse. generalize 0%nat. induction pids as [|p l IH]; intros k.
    { split; [done|constructor]. }
    cbn. destruct (IH (S k)) as [IH1 IH2]. split.
    + rewrite IH1. by destruct (GetPolicyAckStatus sid p pm).
    + constructor; [|done]. destruct (GetPolicyAckStatus sid p pm) eqn:E; cbn; by rewrite E.
Qed.

(** The violations reported are exactly the enabled rules that require
    consent, match, and apply to a session in which no participant gave it;
    without a session there are none. *)
Theorem consent_violations `{Unicode} `{Calendar} `{!GoMapRange string} (clock : nat -> Time)
    (n : nat) (s : RecordingSession) (metadata : option RSMetadata) (pm : PolicyManager) (id : string) :
  ValidatePolicyRequirements clock n None metadata pm = [] /\
  (id ∈ ValidatePolicyRequirements clock n (Some s) metadata pm <->
   Forall (fun p => pt_ConsentObtained p = false) (rs_Participants s) /\
   exists key r, pm_rules pm !! key = Some r /\ pr_ID r = id /\ pr_Enabled r = true /\
     pr_RequireConsent r = true /\
     ruleMatches (clock (position key (map_range n (pm_rules pm)))) r (Some s) metadata = true).
Proof.
  unfold ValidatePolicyRequirements. split.
  { generalize (map_range n (pm_rules pm)), 0%nat. induction l as [|[] l IH]; intros k; [done|]. apply IH. }
  assert (Hc : negb (existsb pt_ConsentObtained (rs_Participants s)) = true <->
               Forall (fun p => pt_ConsentObtained p = false) (rs_Participants s)).
  { rewrite negb_true_iff. induction (rs_Participants s); cbn; [done|].
    rewrite orb_false_iff, Forall_cons. tauto. }
  rewrite (violations_spec clock 0), Hc. split; intros [Hcons Hr]; (split; [done|]).
  - destruct Hr as (i & key & r & Hi & Hid & He & Hq & Hm). exists key, r.
    rewrite (position_spec key r _ i); [|apply map_range_NoDup_fst|done]. repeat split; try done.
    apply (elem_of_map_range n). by eapply list_elem_of_lookup_2.
  - destruct Hr as (key & r & Hk & Hid & He & Hq & Hm). apply (elem_of_map_range n) in Hk.
    apply list_elem_of_lookup_1 in Hk as [i Hi]. exists i, key, r.
    rewrite (position_spec key r _ i) in Hm; [done|apply map_range_NoDup_fst|done].
Qed.
