(* ===== verification/Fill.v ===== *)
(** * Completing incomplete metadata

    [src/pkg/siprec/fill.go]: [FillMissing] and the parser of the
    [X-Calling-Participant] header it uses.  The address parser of the SIP
    library is the class [SipLibrary]; [net.ParseIP] is that of
    [Net]; the functions of [net/url] and [unicode/utf8] are written out. *)

From S2P Require Import Prelude GoStrings Net Metadata Session Validation.
From Stdlib Require Import Ascii.
#[local] Open Scope string_scope.
#[local] Open Scope list_scope.
#[local] Open Scope Z_scope.

(** ** Standard library *)

Definition bytes_of (s : string) : list Z := map byte_of (String.list_ascii_of_string s).

Definition cont_byte (b : Z) : bool := (128 <=? b) && (b <=? 191).
Definition between (lo hi b : Z) : bool := (lo <=? b) && (b <=? hi).

(** [utf8.ValidString]. *)
Fixpoint valid_utf8 (l : list Z) : bool :=
  match l with
  | [] => true
  | a :: l1 =>
    if a <? 128 then valid_utf8 l1 else
    match l1 with
    | [] => false
    | b :: l2 =>
      if between 194 223 a then cont_byte b && valid_utf8 l2 else
      match l2 with
      | [] => false
      | c :: l3 =>
        if between 224 239 a then
          (if a =? 224 then between 160 191 b else if a =? 237 then between 128 159 b
           else cont_byte b) && cont_byte c && valid_utf8 l3
        else match l3 with
        | [] => false
        | d :: l4 =>
          between 240 244 a &&
          (if a =? 240 then between 144 191 b else if a =? 244 then between 128 143 b
           else cont_byte b) && cont_byte c && cont_byte d && valid_utf8 l4
        end
      end
    end
  end.

(** [strings.IndexFunc(s, unicode.IsControl) >= 0]: the control characters are
    U+0000 to U+001F, U+007F and U+0080 to U+009F. *)
Fixpoint has_control (l : list Z) : bool :=
  match l with
  | [] => false
  | a :: l1 =>
    (a <? 32) || (a =? 127) ||
    match l1 with b :: _ => (a =? 194) && between 128 159 b | [] => false end || has_control l1
  end.

Fixpoint count_byte (c : ascii) (s : string) : nat :=
  match s with
  | EmptyString => 0
  | String d s => (if Ascii.eqb d c then 1 else 0) + count_byte c s
  end.

Fixpoint contains_any (s chars : string) : bool :=
  match s with
  | EmptyString => false
  | String c s => negb (Nat.eqb (count_byte c chars) 0) || contains_any s chars
  end.

(** The text after the last [c]; [None] when there is none. *)
Fixpoint after_last (c : ascii) (s : string) : option string :=
  match s with
  | EmptyString => None
  | String d s => match after_last c s with
                  | Some t => Some t
                  | None => if Ascii.eqb d c then Some s else None
                  end
  end.

(** [strings.Trim(s, "[]")]. *)
Definition is_bracket (c : ascii) : bool := (byte_of c =? 91) || (byte_of c =? 93).

Fixpoint drop_brackets (l : list ascii) : list ascii :=
  match l with
  | c :: l' => if is_bracket c then drop_brackets l' else l
  | [] => []
  end.

Definition trim_brackets (s : string) : string :=
  String.string_of_list_ascii
    (reverse (drop_brackets (reverse (drop_brackets (String.list_ascii_of_string s))))).

Definition trim_suffix (s p : string) : string :=
  if has_suffix s p then take_string (String.length s - String.length p) s else s.

Definition hex_val (c : ascii) : option Z :=
  let b := byte_of c in
  if between 48 57 b then Some (b - 48)
  else if between 97 102 b then Some (b - 87)
  else if between 65 70 b then Some (b - 55) else None.

(** [url.PathUnescape]. *)
Fixpoint path_unescape (s : string) : option string :=
  match s with
  | EmptyString => Some ""
  | String c s1 =>
    if byte_of c =? 37 then
      match s1 with
      | String x (String y s2) =>
        match hex_val x, hex_val y with
        | Some h, Some l => String (ascii_of_N (Z.to_N (16 * h + l))) <$> path_unescape s2
        | _, _ => None
        end
      | _ => None
      end
    else String c <$> path_unescape s1
  end.

(** ** The address parser *)

(** A SIP address as the library parses it. *)
Record Uri := mkUri {
  uri_Scheme : string;
  uri_Wildcard : bool;
  uri_HierarhicalSlashes : bool;
  uri_User : string;
  uri_Password : string;
  uri_Host : string;
  uri_Port : Z;
  uri_UriParams : list (string * string);
  uri_Headers : list (string * string)
}.

Record Address := mkAddress {
  ad_display : string;
  ad_uri : Uri;
  ad_params : list (string * string)
}.

Class SipLibrary := {
  ParseAddressValue : string -> option Address;
  uri_String : Uri -> string
}.

(** The tests on the text before it is parsed: a single address, nothing but
    parameters behind a closing bracket. *)
Definition single_address (value : string) : bool :=
  match after_last ">" value with
  | Some rest =>
    let tail := trim_space rest in
    (String.eqb tail "" || has_prefix tail ";") && negb (contains_any tail ",<>")
  | None => true
  end &&
  (count_byte "<" value <=? 1)%nat && (count_byte ">" value <=? 1)%nat &&
  nonempty value.

Definition is_digit (c : ascii) : bool := between 48 57 (byte_of c).

Definition phone_char (c : ascii) : bool := is_digit c || contains_any (String c "") "-.()".

(** A global telephone number: a plus sign, then digits and visual separators
    with at least one digit. *)
Definition tel_ok (value : string) (a : Address) : bool :=
  let uri := ad_uri a in
  let number := String.list_ascii_of_string (drop_string 1 (uri_Host uri)) in
  negb (negb (contains value "<") && (0 <? Z.of_nat (length (ad_params a)))) &&
  has_prefix (uri_Host uri) "+" && String.eqb (uri_User uri) "" && (uri_Port uri =? 0) &&
  (Z.of_nat (length (uri_UriParams uri)) =? 0) && (Z.of_nat (length (uri_Headers uri)) =? 0) &&
  forallb phone_char number && existsb is_digit number.

Definition is_ldh (c : ascii) : bool :=
  let b := byte_of c in between 97 122 b || between 65 90 b || between 48 57 b || (b =? 45).

Definition label_ok (label : string) : bool :=
  let l := String.list_ascii_of_string label in
  match l with
  | [] => false
  | c :: _ =>
    (Z.of_nat (length l) <=? 63) && negb (byte_of c =? 45) &&
    negb (match last l with Some d => byte_of d =? 45 | None => false end) && forallb is_ldh l
  end.

Definition host_ok (uriHost : string) : bool :=
  let host := trim_brackets uriHost in
  negb (contains_any uriHost "[]" &&
        (negb (String.eqb uriHost ("[" +:+ host +:+ "]")) || negb (valid_ip host))) &&
  (valid_ip host || forallb label_ok (split_on "." (trim_suffix host "."))).

(** Space, angle brackets, double quote, tab, carriage return and newline. *)
Definition user_delimiters : string :=
  " <>" +:+ dquote +:+ String "009" (String "013" newline).

Definition user_ok (user : string) : bool :=
  match path_unescape user with
  | Some decoded => negb (has_control (bytes_of decoded))
  | None => false
  end && negb (contains_any user user_delimiters).

Definition parseNameAddr `{SipLibrary} (value : string) : string * string :=
  if negb (valid_utf8 (bytes_of value)) || has_control (bytes_of value) then ("", "") else
  let value := trim_space value in
  if negb (single_address value) then ("", "") else
  match ParseAddressValue value with
  | None => ("", "")
  | Some a =>
    let uri := ad_uri a in
    if (negb (String.eqb (uri_Scheme uri) "sip") && negb (String.eqb (uri_Scheme uri) "sips") &&
        negb (String.eqb (uri_Scheme uri) "tel")) || uri_Wildcard uri ||
       String.eqb (uri_Host uri) "" || nonempty (uri_Password uri) || uri_HierarhicalSlashes uri
    then ("", "")
    else if String.eqb (uri_Scheme uri) "tel"
    then if tel_ok value a then (ad_display a, uri_String uri) else ("", "")
    else if host_ok (uri_Host uri) && user_ok (uri_User uri) &&
            (0 <=? uri_Port uri) && (uri_Port uri <=? 65535)
    then (ad_display a, uri_String uri) else ("", "")
  end.

(** ** [FillMissing] *)

Definition CallingParticipantID : string := "calling-participant".
Definition FilledSessionID : string := "session_id".
Definition FilledParticipant : string := "participant".

Record FillContext := mkFillContext {
  fc_CallID : string;
  fc_SessionID : string;
  fc_CallingParticipant : string
}.

(** A lone session element without an ID can only be this session. *)
Definition fill_sessions (callID : string) (l : list RSSession) : list RSSession :=
  match l with
  | [] => [zero_RSSession <| ss_ID := callID |>]
  | [s] => if blank (ss_ID s) then [s <| ss_ID := callID |>] else l
  | _ => l
  end.

Definition fill_assoc (ctx : FillContext) (callID : string) (a : RSAssociation) : RSAssociation :=
  if blank (ra_SessionID a) then
    let a := a <| ra_SessionID := callID |> in
    if blank (ra_CallID a) then a <| ra_CallID := trim_space (fc_CallID ctx) |> else a
  else a.

Definition fill_psa (callID : string) (p : RSParticipantSessionAssoc) : RSParticipantSessionAssoc :=
  if blank (pss_SessionID p) then p <| pss_SessionID := callID |> else p.

Definition fill_session_id (ctx : FillContext) (m : RSMetadata) : RSMetadata :=
  let callID := first_trimmed [fc_SessionID ctx; fc_CallID ctx] in
  if blank (md_SessionID m) && nonempty callID && (Z.of_nat (length (md_Sessions m)) <=? 1) then
    m <| md_SessionID := callID |>
      <| md_Sessions := fill_sessions callID (md_Sessions m) |>
      <| md_SessionRecordingAssoc := fill_assoc ctx callID (md_SessionRecordingAssoc m) |>
      <| md_ParticipantSessionAssoc := map (fill_psa callID) (md_ParticipantSessionAssoc m) |>
      <| md_FilledFields := md_FilledFields m ++ [FilledSessionID] |>
  else m.

Definition fill_participant `{SipLibrary} (ctx : FillContext) (m : RSMetadata) : RSMetadata :=
  match md_Participants m with
  | [] =>
    let '(display, uri) := parseNameAddr (fc_CallingParticipant ctx) in
    if nonempty uri then
      m <| md_Participants := [zero_RSParticipant <| rp_ID := CallingParticipantID |>
             <| rp_Name := display |> <| rp_DisplayName := display |>
             <| rp_Aor := [zero_Aor <| aor_Value := uri |>] |>] |>
        <| md_FilledFields := md_FilledFields m ++ [FilledParticipant] |>
    else m
  | _ => m
  end.

Definition FillMissing `{SipLibrary} (m : option RSMetadata) (ctx : FillContext) : option RSMetadata :=
  (fun m => fill_participant ctx (fill_session_id ctx m)) <$> m.

Definition ParticipantSynthesized (m : RSMetadata) (id : string) : bool :=
  String.eqb id CallingParticipantID &&
  existsb (fun field => String.eqb field FilledParticipant) (md_FilledFields m).

(** ** Facts *)

(** The completed document has the ID of the dialog. *)
Lemma fill_session_id_filled ctx m :
  let callID := first_trimmed [fc_SessionID ctx; fc_CallID ctx] in
  blank (md_SessionID m) = true -> callID <> "" -> (length (md_Sessions m) <= 1)%nat ->
  md_SessionID (fill_session_id ctx m) = callID.
Proof.
  cbn zeta. intros Hb Hc Hl. unfold fill_session_id.
  rewrite Hb, (proj2 (nonempty_true _)) by done. replace (_ <=? 1) with true by lia. cbn [andb].
  by destruct m.
Qed.

Lemma first_trimmed_not_blank l : first_trimmed l <> "" -> blank (first_trimmed l) = false.
Proof. intros Hl. unfold blank. rewrite first_trimmed_trimmed. by apply String.eqb_neq. Qed.

(** [y] keeps the value [x] when there is one. *)
Definition kept (x y : string) : Prop := blank x = false -> y = x.

Lemma kept_refl x : kept x x.
Proof. done. Qed.
#[local] Hint Resolve kept_refl : core.

Section fill.
Context `{SipLibrary}.

Lemma fill_participant_fields ctx m :
  md_SessionID (fill_participant ctx m) = md_SessionID m /\
  md_Sessions (fill_participant ctx m) = md_Sessions m /\
  md_SessionRecordingAssoc (fill_participant ctx m) = md_SessionRecordingAssoc m /\
  md_ParticipantSessionAssoc (fill_participant ctx m) = md_ParticipantSessionAssoc m.
Proof.
  unfold fill_participant. destruct (md_Participants m); [|done].
  destruct (parseNameAddr _) as [d u]. destruct (nonempty u); by destruct m.
Qed.

Lemma fill_session_id_participants ctx m :
  md_Participants (fill_session_id ctx m) = md_Participants m.
Proof.
  unfold fill_session_id. destruct (_ && _); by destruct m.
Qed.

Lemma fill_sessions_kept callID l : l <> [] ->
  Forall2 (fun s s' => kept (ss_ID s) (ss_ID s') /\
    ss_ParticipantRefs s' = ss_ParticipantRefs s /\ ss_StreamRefs s' = ss_StreamRefs s)
    l (fill_sessions callID l).
Proof.
  destruct l as [|s [|s' l]]; [done| |]; intros _; cbn.
  - destruct (blank (ss_ID s)) eqn:E; (constructor; [|constructor]); [|done].
    destruct s; unfold kept; cbn in *. by rewrite E.
  - apply Forall_Forall2_diag, Forall_true. done.
Qed.

Lemma fill_session_id_kept ctx m :
  let m' := fill_session_id ctx m in
  kept (md_SessionID m) (md_SessionID m') /\
  (md_Sessions m <> [] -> Forall2 (fun s s' => kept (ss_ID s) (ss_ID s') /\
     ss_ParticipantRefs s' = ss_ParticipantRefs s /\ ss_StreamRefs s' = ss_StreamRefs s)
     (md_Sessions m) (md_Sessions m')) /\
  kept (ra_SessionID (md_SessionRecordingAssoc m)) (ra_SessionID (md_SessionRecordingAssoc m')) /\
  kept (ra_CallID (md_SessionRecordingAssoc m)) (ra_CallID (md_SessionRecordingAssoc m')) /\
  Forall2 (fun p p' => pss_ParticipantID p' = pss_ParticipantID p /\
     kept (pss_SessionID p) (pss_SessionID p'))
     (md_ParticipantSessionAssoc m) (md_ParticipantSessionAssoc m') /\
  md_Streams m' = md_Streams m /\ md_State m' = md_State m /\ md_Reason m' = md_Reason m /\
  md_Group m' = md_Group m /\ md_ParticipantStreamAssoc m' = md_ParticipantStreamAssoc m.
Proof.
  cbn zeta. unfold fill_session_id. destruct (_ && _) eqn:E.
  2:{ repeat split; auto; intros; apply Forall_Forall2_diag, Forall_true; done. }
  bool_to_prop. set (callID := first_trimmed _). clearbody callID.
  assert (Ha : kept (ra_SessionID (md_SessionRecordingAssoc m))
                 (ra_SessionID (fill_assoc ctx callID (md_SessionRecordingAssoc m))) /\
               kept (ra_CallID (md_SessionRecordingAssoc m))
                 (ra_CallID (fill_assoc ctx callID (md_SessionRecordingAssoc m)))).
  { unfold fill_assoc. destruct (md_SessionRecordingAssoc m); cbn. unfold kept.
    case_tests; cbn; split; congruence. }
  assert (Hp : Forall2 (fun p p' => pss_ParticipantID p' = pss_ParticipantID p /\
     kept (pss_SessionID p) (pss_SessionID p'))
     (md_ParticipantSessionAssoc m) (map (fill_psa callID) (md_ParticipantSessionAssoc m))).
  { apply Forall2_map_self. intros []. unfold fill_psa, kept; cbn. case_tests; cbn; split; congruence. }
  pose proof (fill_sessions_kept callID (md_Sessions m)) as Hs.
  destruct m; cbn in *. unfold kept at 1. rewrite H0. repeat split; try done; apply Ha.
Qed.

(** A second pass finds nothing to do. *)
Lemma fill_session_id_again ctx m :
  let m' := fill_participant ctx (fill_session_id ctx m) in fill_session_id ctx m' = m'.
Proof.
  cbn zeta. set (m' := fill_participant _ _).
  destruct (fill_participant_fields ctx (fill_session_id ctx m)) as (Hid & Hss & _).
  unfold fill_session_id at 1. fold m' in Hid, Hss. rewrite Hid, Hss. clearbody m'.
  destruct (blank (md_SessionID m) && nonempty (first_trimmed [fc_SessionID ctx; fc_CallID ctx]) &&
            (Z.of_nat (length (md_Sessions m)) <=? 1)) eqn:E.
  - bool_to_prop. rewrite fill_session_id_filled; [|done|by apply nonempty_true|lia].
    rewrite first_trimmed_not_blank by (by apply nonempty_true). done.
  - assert (Hf : fill_session_id ctx m = m) by (unfold fill_session_id; by rewrite E).
    by rewrite Hf, E.
Qed.

Lemma fill_participant_again ctx m :
  fill_participant ctx (fill_participant ctx m) = fill_participant ctx m.
Proof.
  unfold fill_participant at 2 3. destruct (md_Participants m) as [|p l] eqn:Hp.
  - destruct (parseNameAddr (fc_CallingParticipant ctx)) as [d u] eqn:Ep.
    destruct (nonempty u) eqn:Eu; unfold fill_participant.
    + by destruct m.
    + by rewrite Hp, Ep, Eu.
  - unfold fill_participant. by rewrite Hp.
Qed.
End fill.

(** ** Properties *)

(** Completing a document never overwrites a value it carries: a session
    ID, the ID of a session element, the IDs of the recording association and of
    the participant associations are kept when they are not blank, participants
    are added only to a document without any, everything else is untouched, and
    completing twice is completing once. *)
Theorem fill_never_overwrites `{SipLibrary} (m : RSMetadata) (ctx : FillContext) :
  exists m', FillMissing (Some m) ctx = Some m' /\ FillMissing (Some m') ctx = Some m' /\
  kept (md_SessionID m) (md_SessionID m') /\
  (md_Sessions m <> [] -> Forall2 (fun s s' => kept (ss_ID s) (ss_ID s') /\
     ss_ParticipantRefs s' = ss_ParticipantRefs s /\ ss_StreamRefs s' = ss_StreamRefs s)
     (md_Sessions m) (md_Sessions m')) /\
  kept (ra_SessionID (md_SessionRecordingAssoc m)) (ra_SessionID (md_SessionRecordingAssoc m')) /\
  kept (ra_CallID (md_SessionRecordingAssoc m)) (ra_CallID (md_SessionRecordingAssoc m')) /\
  Forall2 (fun p p' => pss_ParticipantID p' = pss_ParticipantID p /\
     kept (pss_SessionID p) (pss_SessionID p'))
     (md_ParticipantSessionAssoc m) (md_ParticipantSessionAssoc m') /\
  (md_Participants m <> [] -> md_Participants m' = md_Participants m) /\
  md_Streams m' = md_Streams m /\ md_State m' = md_State m /\ md_Reason m' = md_Reason m /\
  md_Group m' = md_Group m /\ md_ParticipantStreamAssoc m' = md_ParticipantStreamAssoc m.
Proof.
  eexists. split; [reflexivity|]. split.
  { cbn. by rewrite fill_session_id_again, fill_participant_again. }
  destruct (fill_participant_fields ctx (fill_session_id ctx m)) as (-> & -> & -> & ->).
  assert (Hrest : forall m0, let m' := fill_participant ctx m0 in
    (md_Participants m0 <> [] -> md_Participants m' = md_Participants m0) /\
    md_Streams m' = md_Streams m0 /\ md_State m' = md_State m0 /\ md_Reason m' = md_Reason m0 /\
    md_Group m' = md_Group m0 /\ md_ParticipantStreamAssoc m' = md_ParticipantStreamAssoc m0).
  { intros m0. cbn zeta. unfold fill_participant. destruct (md_Participants m0) eqn:Ep; [|done].
    destruct (parseNameAddr _) as [d u]. destruct (nonempty u); by destruct m0. }
  specialize (Hrest (fill_session_id ctx m)). cbn zeta in Hrest.
  destruct Hrest as (Hp & -> & -> & -> & -> & ->).
  rewrite fill_session_id_participants in Hp.
  destruct (fill_session_id_kept ctx m) as (H1 & H2 & H3 & H4 & H5 & -> & -> & -> & -> & ->).
  done.
Qed.

(** A document without a recording session ID gets the one of the dialog
    when it has at most one session element: the session ID, a session element
    with that ID when there was none or it had no ID, the recording association
    and every participant association then name a session, and the document
    records that the ID was inferred.  With several session elements the ID
    stays missing. *)
Theorem fill_completes_session `{SipLibrary} (m : RSMetadata) (ctx : FillContext) :
  blank (md_SessionID m) = true ->
  first_trimmed [fc_SessionID ctx; fc_CallID ctx] <> "" ->
  exists m', FillMissing (Some m) ctx = Some m' /\
  ((length (md_Sessions m) <= 1)%nat ->
     blank (md_SessionID m') = false /\
     (Forall (fun s => blank (ss_ID s) = true) (md_Sessions m) ->
        exists s, md_Sessions m' = [s] /\ ss_ID s = md_SessionID m') /\
     blank (ra_SessionID (md_SessionRecordingAssoc m')) = false /\
     Forall (fun p => blank (pss_SessionID p) = false) (md_ParticipantSessionAssoc m') /\
     FilledSessionID ∈ md_FilledFields m') /\
  ((1 < length (md_Sessions m))%nat -> md_SessionID m' = md_SessionID m).
Proof.
  intros Hb Hc. eexists. split; [reflexivity|].
  assert (Hff : forall m0, FilledSessionID ∈ md_FilledFields m0 ->
                 FilledSessionID ∈ md_FilledFields (fill_participant ctx m0)).
  { intros m0 Hin. unfold fill_participant. destruct (md_Participants m0); [|done].
    destruct (parseNameAddr _) as [d u]. destruct (nonempty u); [|done]. destruct m0; cbn in *. set_solver. }
  destruct (fill_participant_fields ctx (fill_session_id ctx m)) as (-> & -> & -> & ->).
  pose proof (first_trimmed_not_blank _ Hc) as Hnb.
  unfold fill_session_id in *. set (callID := first_trimmed _) in *.
  rewrite Hb, (proj2 (nonempty_true _)) by done. cbn [andb]. split; intros Hl.
  - replace (_ <=? 1) with true by lia. split_and!.
    + by destruct m.
    + intros Hs. destruct m; cbn in *. destruct md_Sessions as [|s [|]]; cbn in *; [by eexists| |lia].
      rewrite Forall_singleton in Hs. rewrite Hs. eexists. split; [done|]. by destruct s.
    + destruct m; cbn. unfold fill_assoc. destruct md_SessionRecordingAssoc; cbn.
      destruct (blank ra_SessionID) eqn:E; cbn; [|done]. by destruct (blank ra_CallID).
    + destruct m; cbn. apply Forall_map, Forall_true. intros []. unfold fill_psa; cbn.
      by destruct (blank pss_SessionID) eqn:E.
    + apply Hff. destruct m; cbn. set_solver.
  - by replace (_ <=? 1) with false by lia.
Qed.

(** A library that understands one address, to evaluate examples. *)
Definition one_address : SipLibrary := {|
  ParseAddressValue := fun s =>
    if String.eqb s "Alice <sip:alice@example.com>"
    then Some (mkAddress "Alice" (mkUri "sip" false false "alice" "" "example.com" 0 [] []) [])
    else None;
  uri_String := fun u => uri_Scheme u +:+ ":" +:+ uri_User u +:+ "@" +:+ uri_Host u
|}.

Definition sample_context : FillContext := mkFillContext "call-7" "" " Alice <sip:alice@example.com>".

Lemma fill_completes_session_witness :
  exists m', @FillMissing one_address (Some zero_RSMetadata) sample_context = Some m' /\
    blank (md_SessionID m') = false /\ FilledSessionID ∈ md_FilledFields m'.
Proof.
  destruct (@fill_completes_session one_address zero_RSMetadata sample_context) as (m' & Hm & Hl & _).
  - reflexivity.
  - vm_compute. discriminate.
  - exists m'. split; [exact Hm|]. destruct Hl as (H1 & _ & _ & _ & H5); [cbn; lia|]. by split.
Defined.

(** An address taken from the header is a valid UTF-8 text without control
    characters that the SIP library parses as a SIP, SIPS or TEL address without
    password; a TEL address is a plus sign followed by digits and separators
    with at least one digit; a SIP host is an IP address or a dot separated list
    of letter-digit-hyphen labels of 1 to 63 characters without hyphens at their
    ends, and its port fits 16 bits. *)
Theorem parse_name_addr_safe `{SipLibrary} (value display address : string) :
  parseNameAddr value = (display, address) -> address <> "" ->
  valid_utf8 (bytes_of value) = true /\ has_control (bytes_of value) = false /\
  exists a, ParseAddressValue (trim_space value) = Some a /\ display = ad_display a /\
    address = uri_String (ad_uri a) /\ uri_Password (ad_uri a) = "" /\ uri_Host (ad_uri a) <> "" /\
    ((uri_Scheme (ad_uri a) = "tel" /\ uri_User (ad_uri a) = "" /\
      exists number, uri_Host (ad_uri a) = "+" +:+ number /\
        Forall (fun c => phone_char c = true) (String.list_ascii_of_string number) /\
        Exists (fun c => is_digit c = true) (String.list_ascii_of_string number)) \/
     (uri_Scheme (ad_uri a) ∈ ["sip"; "sips"] /\ 0 <= uri_Port (ad_uri a) <= 65535 /\
      (valid_ip (trim_brackets (uri_Host (ad_uri a))) = true \/
       Forall (fun label => label_ok label = true)
         (split_on "." (trim_suffix (trim_brackets (uri_Host (ad_uri a))) "."))))).
Proof.
  unfold parseNameAddr. intros Hp Ha.
  destruct (negb _ || _) eqn:E1; [by simplify_eq|]. bool_to_prop.
  do 2 (split; [done|]).
  destruct (negb (single_address _)); [by simplify_eq|].
  destruct (ParseAddressValue _) as [a|]; [|by simplify_eq]. exists a. split; [done|].
  destruct (_ || uri_HierarhicalSlashes _) eqn:E2; [by simplify_eq|]. bool_to_prop.
  match goal with H : nonempty _ = false |- _ => apply nonempty_false in H end.
  destruct (String.eqb (uri_Scheme (ad_uri a)) "tel") eqn:E3.
  - destruct (tel_ok _ a) eqn:E4; [|by simplify_eq]. injection Hp as <- <-.
    do 4 (split; [done|]). left. bool_to_prop. unfold tel_ok in E4. bool_to_prop.
    do 2 (split; [done|]). match goal with H : has_prefix _ _ = true |- _ =>
      apply has_prefix_spec in H as [n Hn] end.
    exists n. split; [done|]. rewrite Hn in *. change (drop_string 1 ("+" +:+ n)) with n in *. split.
    + apply Forall_forall. intros c Hc. eapply forallb_forall; [eassumption|]. by apply list_elem_of_In.
    + match goal with H : existsb _ _ = true |- _ => apply existsb_exists in H as (c & Hc & Hd) end.
      apply Exists_exists. exists c. split; [by apply list_elem_of_In|done].
  - destruct (host_ok _ && _ && _ && _) eqn:E4; [|by simplify_eq]. injection Hp as <- <-.
    do 4 (split; [done|]). right. split.
    { rewrite !elem_of_cons.
      destruct (String.eqb (uri_Scheme (ad_uri a)) "sip") eqn:Es; [bool_to_prop; by left|].
      destruct (String.eqb (uri_Scheme (ad_uri a)) "sips") eqn:Ess; [bool_to_prop; by right; left|].
      done. }
    bool_to_prop. split; [done|]. unfold host_ok in *. bool_to_prop.
    match goal with H : _ || _ = true |- _ => apply orb_true_iff in H as [H|H] end; [by left|right].
    apply Forall_forall. intros l Hl. eapply forallb_forall; [eassumption|]. by apply list_elem_of_In.
Qed.

Lemma parse_name_addr_safe_witness :
  @parseNameAddr one_address (fc_CallingParticipant sample_context) =
    ("Alice", "sip:alice@example.com") /\
  valid_utf8 (bytes_of (fc_CallingParticipant sample_context)) = true.
Proof.
  split; [vm_compute; reflexivity|].
  apply (@parse_name_addr_safe one_address (fc_CallingParticipant sample_context) "Alice"
    "sip:alice@example.com"); [vm_compute; reflexivity|discriminate].
Defined.
