(* ===== verification/SipMessage.v ===== *)
(** * SIP messages

    The message type of the SIP server and its header access:
    [newSIPMessageFromSipgo], [wrapRequest], [getHeaderValue], the CSeq parsers
    and the audit extract of pkg/sip/custom_server.go.

    The parser is the library sipgo.  What the server reads of a parsed message
    through that library's accessors is the record [SipgoMessage]. *)

From S2P Require Import Prelude GoStrings GoText Metadata.
From Stdlib Require Import Ascii String.
#[local] Open Scope string_scope.
#[local] Open Scope list_scope.
#[local] Open Scope Z_scope.

(** ** What sipgo reports *)

Inductive SipgoKind :=
  | SipgoRequest (method recipient version : string)
  | SipgoResponse (status : Z) (reason version : string).

Record SipgoMessage := mkSipgoMessage {
  sg_Kind : SipgoKind;
  sg_Headers : list (string * string);
  sg_Body : string;
  sg_CallID : option string;
  sg_FromTag : option string;
  sg_ToTag : option string;
  sg_CSeq : option string;
  sg_Branch : option string;
  sg_Source : string;
  sg_Transport : string;
  sg_Host : string;
  sg_Port : Z
}.

(** ** The server's message *)

Record SIPConnection := mkSIPConnection {
  cn_conn : option string;
  cn_remoteAddr : string;
  cn_transport : string
}.

Record headerEntry := mkHeaderEntry {
  he_Name : string;
  he_Key : string;
  he_Index : nat
}.

(** The string fields of the message that hold one vendor's identifiers. *)
Inductive VendorField :=
  | SessionIDHeader
  | OracleUCID | OracleConversationID
  | GenesysInteractionID | GenesysConversationID | GenesysSessionID | GenesysQueueName
  | GenesysAgentID | GenesysCampaignID
  | NICEInteractionID | NICESessionID | NICERecordingID | NICECallID | NICEContactID | NICEAgentID
  | AsteriskUniqueID | AsteriskLinkedID | AsteriskChannelID | AsteriskAccountCode | AsteriskContext
  | FreeSWITCHUUID | FreeSWITCHCoreUUID | FreeSWITCHChannelName | FreeSWITCHProfileName
  | FreeSWITCHAccountCode
  | OpenSIPSCallID | OpenSIPSDialogID | OpenSIPSTransactionID
  | AudioCodesSessionID | AudioCodesCallID | AudioCodesACAction
  | RibbonSessionID | RibbonCallID | RibbonGWID
  | SansaySessionID | SansayCallID | SansayTrunkID
  | HuaweiSessionID | HuaweiCallID | HuaweiTrunkID
  | MSConversationID | MSCallID | MSCorrelationID
  | AvayaUCID | AvayaConfID | AvayaConversationID | AvayaStationID | AvayaAgentID | AvayaVDN
  | AvayaSkillGroup.

#[global] Instance VendorField_eq_dec : EqDecision VendorField.
Proof. solve_decision. Defined.

Record SIPMessage := mkSIPMessage {
  ms_Method : string;
  ms_RequestURI : string;
  ms_Version : string;
  ms_Headers : gmap string (list string);
  ms_Body : string;
  ms_Connection : option SIPConnection;
  ms_Request : option SipgoMessage;
  ms_Transaction : bool;
  ms_CallID : string;
  ms_FromTag : string;
  ms_ToTag : string;
  ms_CSeq : string;
  ms_Branch : string;
  ms_ContentType : string;
  ms_StatusCode : Z;
  ms_Reason : string;
  ms_HeaderOrder : list headerEntry;
  ms_UserAgent : string;
  ms_VendorType : string;
  ms_VendorHeaders : gmap string string;
  ms_UCIDHeaders : list string;
  ms_Fields : VendorField -> string;
  ms_UUIHeader : string;
  ms_XHeaders : option (gmap string string)
}.

Definition set_field (f : VendorField) (v : string) (m : SIPMessage) : SIPMessage :=
  m <| ms_Fields := fun g => if decide (g = f) then v else ms_Fields m g |>.

Definition zero_SIPMessage : SIPMessage :=
  mkSIPMessage "" "" "" ∅ "" None None false "" "" "" "" "" "" 0 "" [] "" "" ∅ [] (fun _ => "") "" None.

(** ** From sipgo's message *)

Definition values_of (k : string) (h : gmap string (list string)) : list string := default [] (h !! k).

(** One header: its value is appended under the lower-case name. *)
Definition add_header `{Unicode} (m : SIPMessage) (h : string * string) : SIPMessage :=
  let '(name, value) := h in
  let key := to_lower name in
  let values := values_of key (ms_Headers m) in
  let m := m <| ms_Headers := <[key := values ++ [value]]> (ms_Headers m) |>
             <| ms_HeaderOrder := ms_HeaderOrder m ++ [mkHeaderEntry name key (List.length values)] |> in
  if String.eqb name "Content-Type" then m <| ms_ContentType := value |> else m.

Definition newSIPMessageFromSipgo `{Unicode} (msg : SipgoMessage) (conn : option SIPConnection)
    : SIPMessage :=
  let out := zero_SIPMessage <| ms_Connection := conn |> <| ms_Body := sg_Body msg |>
               <| ms_Version := "SIP/2.0" |> in
  let out := match sg_Kind msg with
             | SipgoRequest method recipient version =>
               out <| ms_Method := method |> <| ms_RequestURI := recipient |> <| ms_Version := version |>
             | SipgoResponse status reason version =>
               out <| ms_Method := itoa status |> <| ms_StatusCode := status |>
                   <| ms_Reason := reason |> <| ms_Version := version |>
             end in
  let out := foldl add_header out (sg_Headers msg) in
  out <| ms_CallID := default "" (sg_CallID msg) |> <| ms_FromTag := default "" (sg_FromTag msg) |>
      <| ms_ToTag := default "" (sg_ToTag msg) |> <| ms_CSeq := default "" (sg_CSeq msg) |>
      <| ms_Branch := default "" (sg_Branch msg) |>.

Definition wrapRequest `{Unicode} (req : SipgoMessage) : SIPMessage :=
  let connection := mkSIPConnection None (sg_Source req) (to_lower (sg_Transport req)) in
  (newSIPMessageFromSipgo req (Some connection)) <| ms_Request := Some req |> <| ms_Transaction := true |>.

(** ** Header access *)

Definition first_value (l : list string) : string := default "" (head l).

Definition getHeaderValue `{Unicode} (m : SIPMessage) (name : string) : string :=
  first_value (values_of (to_lower name) (ms_Headers m)).

Definition getHeader `{Unicode} : SIPMessage -> string -> string := getHeaderValue.

Definition extractCSeqNumber (cseq : string) : Z :=
  match fields cseq with
  | p :: _ => default 0 (atoi p)
  | [] => 0
  end.

Definition parseCSeq `{Unicode} (cseq : string) : Z * string :=
  match fields cseq with
  | [] => (0, "")
  | [p] => (default 0 (atoi p), "")
  | p :: q :: _ => (default 0 (atoi p), to_upper q)
  end.

(** ** The audit extract *)

Record SIPHeadersAudit := mkSIPHeadersAudit {
  au_Method : string;
  au_RequestURI : string;
  au_CallID : string;
  au_CSeq : string;
  au_ContentType : string;
  au_From : string;
  au_To : string;
  au_Via : string;
  au_Contact : string;
  au_Authorization : string;
  au_ProxyAuthorization : string;
  au_Route : string;
  au_RecordRoute : string;
  au_Allow : string;
  au_Supported : string;
  au_Require : string;
  au_UserAgent : string;
  au_Server : string;
  au_Accept : string;
  au_CustomHeaders : gmap string string;
  au_StatusCode : Z;
  au_ReasonPhrase : string;
  au_Transport : string;
  au_RemoteAddr : string
}.

Definition audit_vendor_headers : list string :=
  ["X-Session-ID"; "Session-ID"; "P-Asserted-Identity"; "P-Preferred-Identity"; "Remote-Party-ID";
   "Diversion"; "X-UCID"; "X-Call-Info"; "P-Charging-Vector"; "X-Recording-Timeout";
   "X-Recording-Max-Duration"].

(** [getFirst]: the key is used as it is written. *)
Definition getFirst (m : SIPMessage) (key : string) : string :=
  first_value (values_of key (ms_Headers m)).

Definition extractSIPHeadersForAudit (message : option SIPMessage) : option SIPHeadersAudit :=
  message ≫= fun m =>
  let custom := foldl (fun acc hdr => let val := getFirst m hdr in
                         if String.eqb val "" then acc else <[hdr := val]> acc) ∅ audit_vendor_headers in
  Some {|
    au_Method := ms_Method m; au_RequestURI := ms_RequestURI m; au_CallID := ms_CallID m;
    au_CSeq := ms_CSeq m; au_ContentType := ms_ContentType m;
    au_From := getFirst m "From"; au_To := getFirst m "To"; au_Via := getFirst m "Via";
    au_Contact := getFirst m "Contact"; au_Authorization := getFirst m "Authorization";
    au_ProxyAuthorization := getFirst m "Proxy-Authorization"; au_Route := getFirst m "Route";
    au_RecordRoute := getFirst m "Record-Route"; au_Allow := getFirst m "Allow";
    au_Supported := getFirst m "Supported"; au_Require := getFirst m "Require";
    au_UserAgent := getFirst m "User-Agent"; au_Server := getFirst m "Server";
    au_Accept := getFirst m "Accept"; au_CustomHeaders := custom;
    au_StatusCode := if 0 <? ms_StatusCode m then ms_StatusCode m else 0;
    au_ReasonPhrase := if 0 <? ms_StatusCode m then ms_Reason m else "";
    au_Transport := match ms_Connection m with Some c => cn_transport c | None => "" end;
    au_RemoteAddr := match ms_Connection m with Some c => cn_remoteAddr c | None => "" end
  |}.

(** ** Facts *)

Section facts.
Context `{Unicode}.
Implicit Types (m : SIPMessage) (hs : list (string * string)).

(** The values of the headers with a lower-case name, in order. *)
Definition values_named (key : string) (hs : list (string * string)) : list string :=
  (filter (fun h => to_lower h.1 = key) hs).*2.

Lemma values_named_cons key h hs :
  values_named key (h :: hs) = (if decide (to_lower h.1 = key) then [h.2] else []) ++ values_named key hs.
Proof. unfold values_named. rewrite filter_cons. by case_decide. Qed.

Lemma add_header_values m h key :
  values_of key (ms_Headers (add_header m h)) =
  values_of key (ms_Headers m) ++ (if decide (to_lower h.1 = key) then [h.2] else []).
Proof.
  destruct h as [name value]. unfold add_header, values_of. destruct m; cbn.
  case_match; cbn; rewrite lookup_insert; (case_decide; subst; cbn; [done|by rewrite app_nil_r]).
Qed.

Lemma add_headers_values hs m key :
  values_of key (ms_Headers (foldl add_header m hs)) =
  values_of key (ms_Headers m) ++ values_named key hs.
Proof.
  revert m. induction hs as [|h hs IH]; intros m; cbn [foldl].
  { unfold values_named. by rewrite app_nil_r. }
  rewrite IH, add_header_values, values_named_cons, app_assoc. done.
Qed.

(** What building a message leaves to be filled in later. *)
Definition unextracted m : Prop :=
  ms_VendorHeaders m = ∅ /\ ms_UCIDHeaders m = [] /\ ms_UUIHeader m = "" /\ ms_XHeaders m = None /\
  forall f, ms_Fields m f = "".

Lemma add_header_unextracted m h : unextracted m -> unextracted (add_header m h).
Proof. unfold unextracted, add_header. destruct m, h; cbn. by case_match. Qed.

Lemma add_headers_unextracted hs m : unextracted m -> unextracted (foldl add_header m hs).
Proof. revert m. induction hs; intros m Hm; cbn; [done|]. auto using add_header_unextracted. Qed.

Lemma new_message_values msg conn key :
  values_of key (ms_Headers (newSIPMessageFromSipgo msg conn)) = values_named key (sg_Headers msg).
Proof.
  unfold newSIPMessageFromSipgo. rewrite <- (app_nil_l (values_named key (sg_Headers msg))).
  match goal with |- context [foldl add_header ?m0 ?hs] =>
    assert (E : values_of key (ms_Headers m0) = []) by (by destruct (sg_Kind msg));
    rewrite <- E, <- (add_headers_values hs m0 key); by destruct (foldl add_header m0 hs)
  end.
Qed.

Lemma new_message_unextracted msg conn : unextracted (newSIPMessageFromSipgo msg conn).
Proof.
  unfold newSIPMessageFromSipgo.
  match goal with |- context [foldl add_header ?m0 ?hs] =>
    assert (E : unextracted m0) by (by destruct (sg_Kind msg));
    apply (add_headers_unextracted hs) in E; by destruct (foldl add_header m0 hs)
  end.
Qed.

Lemma wrap_request_values req key :
  values_of key (ms_Headers (wrapRequest req)) = values_named key (sg_Headers req).
Proof.
  unfold wrapRequest. rewrite <- (new_message_values req (Some (mkSIPConnection None (sg_Source req) (to_lower (sg_Transport req))))).
  by destruct (newSIPMessageFromSipgo _ _).
Qed.

Lemma wrap_request_unextracted req : unextracted (wrapRequest req).
Proof.
  unfold wrapRequest. pose proof (new_message_unextracted req (Some (mkSIPConnection None (sg_Source req) (to_lower (sg_Transport req))))) as E.
  by destruct (newSIPMessageFromSipgo _ _).
Qed.

Lemma first_value_named key hs :
  first_value (values_named key hs) =
  match List.find (fun h => String.eqb (to_lower h.1) key) hs with Some h => h.2 | None => "" end.
Proof.
  induction hs as [|h hs IH]; [done|]. rewrite values_named_cons. cbn.
  case_decide as E; subst; [by rewrite String.eqb_refl|].
  destruct (String.eqb_spec (to_lower h.1) key); [done|]. exact IH.
Qed.

(** A header name with a capital letter is never a key of the headers. *)
Lemma capital_key_empty req c t u :
  Forall (fun h => ascii_string h.1 = true) (sg_Headers req) -> 65 <= byte_of c <= 90 ->
  getFirst (wrapRequest req) (t +:+ String c u) = "".
Proof.
  intros Hs Hc. unfold getFirst. rewrite wrap_request_values, first_value_named.
  destruct (List.find _ _) as [h|] eqn:E; [|done]. exfalso.
  apply find_some in E as [Hin E]. apply String.eqb_eq in E.
  rewrite Forall_forall in Hs. apply list_elem_of_In, Hs in Hin.
  by apply (to_lower_no_capital h.1 c t u).
Qed.
End facts.

(** Header names are looked up without regard to case, and the first value of
    a repeated header counts: the value found is that of the first header of
    the request whose name has the same lower case, and the empty string when
    there is none. *)
Theorem header_lookup_correct `{Unicode} (req : SipgoMessage) (name : string) :
  getHeaderValue (wrapRequest req) name =
  match List.find (fun h => String.eqb (to_lower h.1) (to_lower name)) (sg_Headers req) with
  | Some h => h.2
  | None => ""
  end.
Proof. unfold getHeaderValue. rewrite wrap_request_values. apply first_value_named. Qed.

(** The audit extract reads the headers under their usual spelling while the
    message holds them under the lower-case name.  For every request the
    signalling addresses, the credentials and the vendor headers are therefore
    missing from the audit record. *)
Theorem audit_extract_loses_headers `{Unicode} (req : SipgoMessage) :
  Forall (fun h => ascii_string h.1 = true) (sg_Headers req) ->
  exists a, extractSIPHeadersForAudit (Some (wrapRequest req)) = Some a /\
    au_From a = "" /\ au_To a = "" /\ au_Via a = "" /\ au_Contact a = "" /\
    au_Authorization a = "" /\ au_UserAgent a = "" /\ au_CustomHeaders a = ∅.
Proof.
  intros Hs. unfold extractSIPHeadersForAudit. cbn [mbind option_bind]. eexists. split; [reflexivity|].
  cbn [au_From au_To au_Via au_Contact au_Authorization au_UserAgent au_CustomHeaders].
  assert (G : forall c u, 65 <= byte_of c <= 90 -> getFirst (wrapRequest req) (String c u) = "").
  { intros c u Hc. exact (capital_key_empty req c "" u Hs Hc). }
  cbn [foldl audit_vendor_headers]. rewrite !G by (vm_compute; by split). done.
Qed.

Definition sample_request : SipgoMessage :=
  mkSipgoMessage (SipgoRequest "INVITE" "sip:srs@example.com" "SIP/2.0")
    [("From", "<sip:alice@example.com>;tag=1"); ("to", "<sip:srs@example.com>"); ("USER-AGENT", "Asterisk PBX")]
    "" (Some "call-1") (Some "1") None (Some "1 INVITE") None "192.0.2.1:5060" "UDP" "example.com" 5060.

Lemma audit_extract_loses_headers_witness :
  getHeaderValue (H := ascii_only) (wrapRequest (H := ascii_only) sample_request) "From" = "<sip:alice@example.com>;tag=1" /\
  exists a, extractSIPHeadersForAudit (Some (wrapRequest (H := ascii_only) sample_request)) = Some a /\ au_From a = "".
Proof.
  split; [reflexivity|].
  destruct (@audit_extract_loses_headers ascii_only sample_request ltac:(repeat constructor)) as (a & E & E1 & _).
  exists a. by split.
Defined.
