(* ===== verification/Vendor.v ===== *)
(** * Vendor identification and headers

    The vendor dependent part of pkg/sip/custom_server.go: which vendor sent a
    request ([detectVendor]), the headers and identifiers taken from it
    ([extractVendorInformation] and the [extract...Headers] functions), the
    user-to-user and X- headers, and how all of it is stored with the recording
    session ([storeUUIAndXHeadersInSession]). *)

From S2P Require Import Prelude GoStrings GoText Metadata Session SipMessage.
From Stdlib Require Import Ascii String.
#[local] Open Scope string_scope.
#[local] Open Scope list_scope.
#[local] Open Scope Z_scope.

(** ** The loops the extractors share *)

Definition has_header `{Unicode} (m : SIPMessage) (h : string) : bool :=
  negb (String.eqb (getHeaderValue m h) "").

(** [for _, header := range headers { if value != "" { VendorHeaders[header] = value } }] *)
Definition put_vendor_header `{Unicode} (m : SIPMessage) (h : string) : SIPMessage :=
  if has_header m h
  then m <| ms_VendorHeaders := <[h := getHeaderValue m h]> (ms_VendorHeaders m) |> else m.

Definition collect_headers `{Unicode} (hs : list string) (m : SIPMessage) : SIPMessage :=
  foldl put_vendor_header m hs.

(** The value of the first of the headers that has one. *)
Fixpoint first_header `{Unicode} (m : SIPMessage) (hs : list string) : string :=
  match hs with
  | [] => ""
  | h :: hs => if has_header m h then getHeaderValue m h else first_header m hs
  end.

Definition append_ucid (v : string) (m : SIPMessage) : SIPMessage :=
  m <| ms_UCIDHeaders := ms_UCIDHeaders m ++ [v] |>.

(** The loop that stops at the first header with a value. *)
Definition take_first `{Unicode} (f : VendorField) (hs : list string) (m : SIPMessage) : SIPMessage :=
  let value := first_header m hs in if String.eqb value "" then m else set_field f value m.

Definition take_first_ucid `{Unicode} (f : VendorField) (hs : list string) (m : SIPMessage)
    : SIPMessage :=
  let value := first_header m hs in
  if String.eqb value "" then m else append_ucid value (set_field f value m).

Definition add_ucid `{Unicode} (m : SIPMessage) (h : string) : SIPMessage :=
  if has_header m h then append_ucid (getHeaderValue m h) m else m.

(** ** Which vendor *)

Definition detectVendor `{Unicode} (m : SIPMessage) : string :=
  let userAgent := to_lower (ms_UserAgent m) in
  let ua := existsb (contains userAgent) in
  let hdr := existsb (has_header m) in
  if ua ["avaya"; "aura"; "session manager"]
  then "avaya"
  else if ua ["cisco"; "cube"; "ccm"; "cucm"]
  then "cisco"
  else if ua ["oracle"; "acme packet"; "ocsbc"; "esbc"]
  then "oracle"
  else if ua ["genesys"; "pureconnect"; "purecloud"; "pureengage"; "gvp"; "interaction"; "inin"]
  then "genesys"
  else if ua ["nice"; "ntr"; "incontact"; "cxone"; "engage recording"; "nexidia"; "actimize"]
  then "nice"
  else if hdr ["x-avaya-conf-id"; "x-avaya-ucid"; "x-avaya-station-id"; "sigma-uui-a"] ||
     contains (getHeaderValue m "contact") "av.sip.iptolerance" ||
     has_prefix (getHeaderValue m "user-to-user") "04FA"
  then "avaya"
  else if hdr ["session-id"; "cisco-guid"; "x-cisco-call-id"]
  then "cisco"
  else if hdr ["x-ocsbc-ucid"; "x-ocsbc-conversation-id"; "x-oracle-ucid"; "x-oracle-conversation-id";
          "p-ocsbc-ucid"]
  then "oracle"
  else if hdr ["x-genesys-interaction-id"; "x-genesys-conversation-id"; "x-genesys-session-id";
          "x-interaction-id"; "x-inin-interaction-id"; "x-inin-ic-userid"]
  then "genesys"
  else if hdr ["x-nice-interaction-id"; "x-nice-session-id"; "x-nice-call-id"; "x-nice-recording-id";
          "x-ntr-session-id"; "x-incontact-contact-id"; "x-cxone-contact-id"]
  then "nice"
  else if ua ["asterisk"; "ast_"; "chan_sip"; "chan_pjsip"; "pjsip/asterisk"; "fpbx"]
  then "asterisk"
  else if ua ["freeswitch"; "freeswich"; "sofia-sip"; "mod_sofia"]
  then "freeswitch"
  else if ua ["opensips"; "openser"; "kamailio"]
  then "opensips"
  else if ua ["audiocodes"; "mediant"; "device /"]
  then "audiocodes"
  else if ua ["ribbon"; "sonus"; "genband"; "sbc edge"; "sbc core"; "swe lite"]
  then "ribbon"
  else if ua ["sansay"; "vsxi"; "vsx "]
  then "sansay"
  else if ua ["huawei"; "espace"; "usg"; "eudemon"; "secospace"]
  then "huawei"
  else if ua ["teams"; "skype"; "lync"; "ocs"; "microsoft"; "ucma"; "mediation server"; "ms-"]
  then "microsoft"
  else if hdr ["x-asterisk-hangupcause"; "x-asterisk-hangupcausecode"; "x-asterisk-unique-id";
          "x-asterisk-linkedid"]
  then "asterisk"
  else if hdr ["x-fs-unique-id"; "x-fs-uuid"; "x-freeswitch-uuid"; "x-freeswitch-core-uuid"; "x-fs-hostname"]
  then "freeswitch"
  else if hdr ["x-opensips-dialog-id"; "x-opensips-transaction-id"; "x-opensips-did"]
  then "opensips"
  else if hdr ["x-ac-action"; "x-audiocodes-session-id"; "x-ac-session-id"]
  then "audiocodes"
  else if hdr ["x-ribbon-session-id"; "x-sonus-session-id"; "x-genband-session-id"; "x-ribbon-call-id"]
  then "ribbon"
  else if hdr ["x-sansay-session-id"; "x-sansay-call-id"; "x-vsxi-session-id"]
  then "sansay"
  else if hdr ["x-huawei-session-id"; "x-huawei-call-id"; "x-huawei-trunk-id"]
  then "huawei"
  else if hdr ["ms-conversation-id"; "x-ms-conversation-id"; "x-ms-call-id"; "x-ms-correlation-id";
          "x-ms-exchange-organization"]
  then "microsoft"
  else "generic".

(** ** Avaya *)

Definition avayaHeaders : list string :=
  ["x-avaya-conf-id"; "x-avaya-station-id"; "x-avaya-ucid"; "x-avaya-trunk-group";
     "x-avaya-user-id"; "x-avaya-agent-id"; "x-avaya-skill-group"; "x-avaya-cm-call-id";
     "x-avaya-cm-originator"; "x-avaya-cm-destination"; "x-avaya-cm-location";
     "x-avaya-sm-session-id"; "x-avaya-sm-entity"; "x-avaya-sm-domain"; "x-avaya-vdn";
     "x-avaya-workgroup"; "x-avaya-interaction-id"; "x-avaya-call-priority"; "x-avaya-queue-name";
     "x-avaya-queue-time"; "x-avaya-hold-time"; "x-avaya-talk-time"; "x-avaya-acd-number";
     "x-avaya-split"; "x-avaya-skill"; "x-avaya-vector"; "x-avaya-b2bua-call-id";
     "x-avaya-originating-trunk"; "x-avaya-terminating-trunk"; "x-avaya-translated-number";
     "x-avaya-original-called"; "x-avaya-redirecting-number"; "p-asserted-identity"; "diversion";
     "remote-party-id"; "p-called-party-id"; "p-calling-party-id"; "history-info"].

(** [parseAvayaUUI]: the UCID and the conversation id of an Avaya
    user-to-user value. *)
Definition parseAvayaUUI (m : SIPMessage) : SIPMessage :=
  let uui := ms_UUIHeader m in
  if String.eqb uui "" then m else
  let uui := match GoStrings.index uui ";" with Some idx => take_string idx uui | None => uui end in
  if negb (has_prefix uui "04FA") then m else
  let m := if String.eqb (ms_Fields m AvayaUCID) "" && (20 <=? String.length uui)%nat
           then append_ucid (take_string 20 uui) (set_field AvayaUCID (take_string 20 uui) m) else m in
  match hex_decode uui with
  | None => m
  | Some decoded =>
    match GoStrings.index decoded "|" with
    | None => m
    | Some pipeIdx =>
      match split_on "|"%char (drop_string (pipeIdx + 1) decoded) with
      | part :: _ =>
        if negb (String.eqb part "") && String.eqb (ms_Fields m AvayaConversationID) ""
        then set_field AvayaConversationID part m else m
      | [] => m
      end
    end
  end.

Definition extractAvayaHeaders `{Unicode} (m : SIPMessage) : SIPMessage :=
  let m := collect_headers avayaHeaders m in
  let m := foldl add_ucid m ["x-avaya-ucid"; "x-ucid"; "x-avaya-conf-id"; "x-avaya-cm-call-id"; "x-avaya-interaction-id"] in
  let m := take_first AvayaUCID ["x-avaya-ucid"; "x-ucid"] m in
  let m := take_first AvayaConfID ["x-avaya-conf-id"] m in
  let m := take_first AvayaConversationID ["x-avaya-interaction-id"; "x-avaya-conversation-id"; "x-avaya-sm-session-id"] m in
  let m := take_first AvayaStationID ["x-avaya-station-id"] m in
  let m := take_first AvayaAgentID ["x-avaya-agent-id"] m in
  let m := take_first AvayaVDN ["x-avaya-vdn"] m in
  let m := take_first AvayaSkillGroup ["x-avaya-skill-group"; "x-avaya-skill"] m in
  let m := put_vendor_header m "sigma-uui-a" in
  parseAvayaUUI m.

(** ** Cisco *)

Definition ciscoHeaders : list string :=
  ["session-id"; "cisco-guid"; "x-cisco-call-id"; "x-cisco-gcid"; "x-cisco-cluster-id";
     "x-cisco-node-id"; "x-cisco-cluster-fqdn"; "x-cisco-device-name"; "x-cisco-device-type";
     "x-cisco-device-mac"; "x-cisco-device-id"; "x-cisco-location"; "x-cisco-location-id";
     "x-cisco-region"; "x-cisco-region-tag"; "x-cisco-site-id"; "x-cisco-trunk-license";
     "x-cisco-trunk-id"; "x-cisco-dial-peer"; "x-cisco-route-pattern"; "x-cisco-route-list";
     "x-cisco-translation-pattern"; "x-cisco-media-profile"; "x-cisco-codec"; "x-cisco-media-region";
     "x-cisco-srst-mode"; "x-cisco-srst-id"; "x-cisco-webex-tracking-id";
     "x-cisco-spark-tracking-id"; "x-cisco-tenant-id"; "x-cisco-org-id"; "x-cisco-queue-id";
     "x-cisco-skill-group"; "x-cisco-agent-id"; "x-cisco-agent-extension"; "x-cisco-recording-mode";
     "x-cisco-recording-server"; "remote-party-id"; "p-called-party-id"; "p-calling-party-id";
     "p-asserted-identity"; "diversion"; "history-info"].

Definition extractCiscoHeaders `{Unicode} (m : SIPMessage) : SIPMessage :=
  let m := collect_headers ciscoHeaders m in
  let m := take_first_ucid SessionIDHeader ["session-id"] m in
  add_ucid m "cisco-guid".

(** ** Oracle *)

Definition oracleHeaders : list string :=
  ["x-ocsbc-ucid"; "x-ocsbc-conversation-id"; "x-oracle-ucid"; "x-oracle-conversation-id";
     "p-ocsbc-ucid"; "p-ocsbc-conversation-id"; "x-ocsbc-session-id"; "x-ocsbc-call-id";
     "x-ocsbc-egress-realm"; "x-ocsbc-ingress-realm"; "x-ocsbc-egress-network-interface";
     "x-ocsbc-ingress-network-interface"; "x-ocsbc-sbc-instance-id"; "x-ocsbc-geo-redundancy-id";
     "x-ocsbc-primary-sbc"; "x-ocsbc-secondary-sbc"; "x-ocsbc-media-ip"; "x-ocsbc-media-encryption";
     "x-ocsbc-signaling-encryption"; "x-ocsbc-srtp-profile"; "p-charging-vector";
     "p-charging-function-addresses"; "p-access-network-info"; "p-visited-network-id";
     "p-served-user"; "p-asserted-identity"; "p-preferred-identity"; "remote-party-id";
     "p-called-party-id"; "p-calling-party-id"; "diversion"; "history-info"; "x-ocsbc-route";
     "x-ocsbc-local-policy"; "x-ocsbc-session-agent"; "x-ocsbc-translation-id";
     "x-ocsbc-recording-mode"; "x-ocsbc-recording-session"; "x-ocsbc-billing-id";
     "x-ocsbc-account-code"].

Definition pcv_part `{Unicode} (result : gmap string string) (part : string) : gmap string string :=
  let part := trim_space part in
  match GoStrings.index part "=" with
  | Some idx =>
    if (0 <? idx)%nat then
      let key := to_lower (trim_space (take_string idx part)) in
      let value := trim_char (ascii_of_N 34) (trim_space (drop_string (idx + 1) part)) in
      <[key := value]> result
    else result
  | None => result
  end.

Definition parsePChargingVector `{Unicode} (pcv : string) : gmap string string :=
  foldl pcv_part ∅ (split_on ";"%char pcv).

(** [for key, value := range pcvFields { VendorHeaders["pcv_"+key] = value }] *)
Definition put_pcv (m : SIPMessage) (kv : string * string) : SIPMessage :=
  m <| ms_VendorHeaders := <["pcv_" +:+ kv.1 := kv.2]> (ms_VendorHeaders m) |>.

Definition oracle_charging `{Unicode} `{!GoMapRange string} (m : SIPMessage) : SIPMessage :=
  let pChargingVector := getHeaderValue m "p-charging-vector" in
  if String.eqb pChargingVector "" then m else
  let pcvFields := parsePChargingVector pChargingVector in
  let m := foldl put_pcv m (map_range 1%nat pcvFields) in
  match pcvFields !! "icid-value" with
  | Some icid =>
    if String.eqb icid "" then m else
    let m := m <| ms_VendorHeaders := <["icid-value" := icid]> (ms_VendorHeaders m) |> in
    if String.eqb (ms_Fields m OracleUCID) ""
    then append_ucid icid (set_field OracleUCID icid m) else m
  | None => m
  end.

Definition extractOracleHeaders `{Unicode} `{!GoMapRange string} (m : SIPMessage) : SIPMessage :=
  let m := collect_headers oracleHeaders m in
  let m := take_first_ucid OracleUCID ["x-ocsbc-ucid"; "x-oracle-ucid"; "p-ocsbc-ucid"; "x-ucid"] m in
  let m := take_first OracleConversationID ["x-ocsbc-conversation-id"; "x-oracle-conversation-id"; "p-ocsbc-conversation-id";
     "x-conversation-id"] m in
  oracle_charging m.

(** ** Genesys *)

Definition genesysHeaders : list string :=
  ["x-genesys-interaction-id"; "x-genesys-conversation-id"; "x-genesys-session-id";
     "x-genesys-call-uuid"; "x-interaction-id"; "x-inin-interaction-id"; "x-inin-ic-userid";
     "x-inin-ic-target"; "x-inin-ic-workgroup"; "x-inin-ic-station"; "x-genesys-queue";
     "x-genesys-queue-name"; "x-genesys-agent-id"; "x-genesys-agent-name"; "x-genesys-tenant-id";
     "x-genesys-org-id"; "x-genesys-campaign-id"; "x-genesys-campaign-name"; "x-genesys-contact-id";
     "x-genesys-contact-list-id"; "x-genesys-skill-group"; "x-genesys-routing-target";
     "x-genesys-call-type"; "x-genesys-call-direction"; "x-genesys-ani"; "x-genesys-dnis";
     "x-genesys-customer-id"; "x-gvp-session-id"; "x-gvp-tenant-id"; "x-gvp-application";
     "x-genesys-billing-code"; "x-genesys-cost-center"; "x-genesys-business-unit";
     "x-genesys-account-code"; "p-asserted-identity"; "remote-party-id"; "p-called-party-id";
     "p-calling-party-id"; "diversion"].

Definition extractGenesysHeaders `{Unicode} (m : SIPMessage) : SIPMessage :=
  let m := collect_headers genesysHeaders m in
  let m := take_first_ucid GenesysInteractionID ["x-genesys-interaction-id"; "x-interaction-id"; "x-inin-interaction-id"; "x-genesys-call-uuid"] m in
  let m := take_first GenesysConversationID ["x-genesys-conversation-id"; "x-conversation-id"] m in
  let m := take_first GenesysSessionID ["x-genesys-session-id"; "x-gvp-session-id"] m in
  let m := take_first GenesysQueueName ["x-genesys-queue-name"; "x-genesys-queue"; "x-inin-ic-workgroup"] m in
  let m := take_first GenesysAgentID ["x-genesys-agent-id"; "x-inin-ic-userid"] m in
  take_first GenesysCampaignID ["x-genesys-campaign-id"] m.

(** ** NICE *)

Definition niceHeaders : list string :=
  ["x-nice-interaction-id"; "x-nice-session-id"; "x-nice-recording-id"; "x-nice-call-id";
     "x-ntr-session-id"; "x-ntr-call-id"; "x-incontact-contact-id"; "x-incontact-master-contact-id";
     "x-cxone-contact-id"; "x-cxone-master-contact-id"; "x-nice-agent-id"; "x-nice-agent-station";
     "x-engage-call-id"; "x-engage-recording-id"].

Definition extractNICEHeaders `{Unicode} (m : SIPMessage) : SIPMessage :=
  let m := collect_headers niceHeaders m in
  let m := take_first_ucid NICEInteractionID ["x-nice-interaction-id"; "x-incontact-contact-id"; "x-cxone-contact-id"; "x-engage-call-id"] m in
  let m := take_first NICESessionID ["x-nice-session-id"; "x-ntr-session-id"] m in
  let m := take_first NICERecordingID ["x-nice-recording-id"; "x-engage-recording-id"] m in
  let m := take_first NICECallID ["x-nice-call-id"; "x-ntr-call-id"] m in
  let m := take_first NICEContactID ["x-incontact-contact-id"; "x-cxone-contact-id"; "x-incontact-master-contact-id";
     "x-cxone-master-contact-id"] m in
  take_first NICEAgentID ["x-nice-agent-id"; "x-incontact-agent-id"; "x-cxone-agent-id"] m.

(** ** Asterisk *)

Definition asteriskHeaders : list string :=
  ["x-asterisk-unique-id"; "x-asterisk-uniqueid"; "x-asterisk-linkedid"; "x-asterisk-linked-id";
     "x-asterisk-channel"; "x-asterisk-channel-name"; "x-asterisk-context"; "x-asterisk-extension";
     "x-asterisk-priority"; "x-asterisk-application"; "x-asterisk-accountcode";
     "x-asterisk-account-code"; "x-asterisk-cdr-accountcode"; "x-asterisk-hangupcause";
     "x-asterisk-hangupcausecode"; "x-asterisk-hangup-cause"; "x-asterisk-disposition";
     "x-asterisk-queue"; "x-asterisk-queuename"; "x-asterisk-agent"; "x-asterisk-agentname";
     "x-asterisk-member"; "x-asterisk-callerid"; "x-asterisk-callerid-num";
     "x-asterisk-callerid-name"; "x-asterisk-callingpres"; "x-asterisk-callingani2";
     "x-asterisk-dnid"; "x-asterisk-rdnis"; "x-asterisk-exten"; "x-asterisk-bridge-id";
     "x-asterisk-bridgeid"; "x-asterisk-transfer-context"; "x-asterisk-transfer-exten";
     "x-asterisk-event-id"; "x-asterisk-ami-action-id"; "x-ari-session-id"; "x-pjsip-endpoint";
     "x-pjsip-transport"; "x-pjsip-contact"; "x-fpbx-did"; "x-fpbx-extension"; "x-fpbx-ringgroup";
     "x-fpbx-ivr"; "x-fpbx-queue"; "x-fpbx-callid"].

Definition extractAsteriskHeaders `{Unicode} (m : SIPMessage) : SIPMessage :=
  let m := collect_headers asteriskHeaders m in
  let m := take_first_ucid AsteriskUniqueID ["x-asterisk-unique-id"; "x-asterisk-uniqueid"] m in
  let m := take_first AsteriskLinkedID ["x-asterisk-linkedid"; "x-asterisk-linked-id"] m in
  let m := take_first AsteriskChannelID ["x-asterisk-channel"; "x-asterisk-channel-name"] m in
  let m := take_first AsteriskAccountCode ["x-asterisk-accountcode"; "x-asterisk-account-code"; "x-asterisk-cdr-accountcode"] m in
  take_first AsteriskContext ["x-asterisk-context"] m.

(** ** FreeSWITCH *)

Definition freeswwitchHeaders : list string :=
  ["x-fs-uuid"; "x-fs-unique-id"; "x-freeswitch-uuid"; "x-fs-call-uuid"; "x-fs-core-uuid";
     "x-freeswitch-core-uuid"; "x-fs-channel-name"; "x-freeswitch-channel-name"; "x-fs-channel-uuid";
     "x-fs-profile-name"; "x-freeswitch-profile-name"; "x-fs-sofia-profile"; "x-fs-context";
     "x-freeswitch-context"; "x-fs-dialplan"; "x-fs-caller-id-number"; "x-fs-caller-id-name";
     "x-fs-destination-number"; "x-fs-called-party-number"; "x-fs-calling-party-number";
     "x-fs-network-ip"; "x-fs-network-port"; "x-fs-hostname"; "x-freeswitch-hostname";
     "x-fs-accountcode"; "x-fs-account-code"; "x-freeswitch-accountcode"; "x-fs-billing-code";
     "x-fs-hangup-cause"; "x-freeswitch-hangup-cause"; "x-fs-hangup-cause-q850"; "x-fs-disposition";
     "x-fs-bridge-uuid"; "x-fs-other-leg-uuid"; "x-fs-other-leg-channel-uuid";
     "x-fs-transfer-source"; "x-fs-transfer-destination"; "x-fs-record-file-path";
     "x-fs-record-uuid"; "x-fs-recording-uuid"; "x-fs-cc-queue"; "x-fs-cc-agent";
     "x-fs-cc-member-uuid"; "x-fs-cc-action"; "x-fs-originate-uuid"; "x-fs-originated-from-uuid";
     "x-fs-sip-auth-username"; "x-fs-sip-from-user"; "x-fs-sip-to-user"; "x-sofia-sip-url";
     "x-sofia-profile"; "x-fs-call-direction"; "x-fs-call-state"; "x-fs-session-state"].

Definition extractFreeSWITCHHeaders `{Unicode} (m : SIPMessage) : SIPMessage :=
  let m := collect_headers freeswwitchHeaders m in
  let m := take_first_ucid FreeSWITCHUUID ["x-fs-uuid"; "x-fs-unique-id"; "x-freeswitch-uuid"; "x-fs-call-uuid"] m in
  let m := take_first FreeSWITCHCoreUUID ["x-fs-core-uuid"; "x-freeswitch-core-uuid"] m in
  let m := take_first FreeSWITCHChannelName ["x-fs-channel-name"; "x-freeswitch-channel-name"] m in
  let m := take_first FreeSWITCHProfileName ["x-fs-profile-name"; "x-freeswitch-profile-name"; "x-fs-sofia-profile"] m in
  take_first FreeSWITCHAccountCode ["x-fs-accountcode"; "x-fs-account-code"; "x-freeswitch-accountcode"] m.

(** ** OpenSIPS *)

Definition opensipsHeaders : list string :=
  ["x-opensips-dialog-id"; "x-opensips-did"; "x-opensips-transaction-id"; "x-opensips-tid";
     "x-opensips-call-id"; "x-opensips-lb-dst"; "x-opensips-lb-group"; "x-opensips-lb-resource";
     "x-opensips-dispatcher-dst"; "x-opensips-dispatcher-setid"; "x-opensips-dispatcher-group";
     "x-opensips-route"; "x-opensips-request-uri"; "x-opensips-next-hop"; "x-opensips-domain";
     "x-opensips-registered-aor"; "x-opensips-contact"; "x-opensips-socket"; "x-opensips-dlg-callid";
     "x-opensips-dlg-from-tag"; "x-opensips-dlg-to-tag"; "x-opensips-dlg-state";
     "x-opensips-dlg-hash"; "x-opensips-acc-timestamp"; "x-opensips-acc-method";
     "x-opensips-acc-duration"; "x-opensips-th-callid"; "x-opensips-th-from-tag";
     "x-opensips-rtpproxy-id"; "x-opensips-rtpengine-id"; "x-opensips-media-relay";
     "x-opensips-fraud-profile"; "x-opensips-fraud-score"; "x-kamailio-dialog-id";
     "x-kamailio-transaction-id"; "x-kamailio-route"; "x-kamailio-server"; "x-opensips-custom-avp1";
     "x-opensips-custom-avp2"; "x-opensips-account"; "x-opensips-src-ip"; "x-opensips-src-port";
     "x-opensips-branch"; "x-opensips-branch-id"; "x-opensips-cluster-id"; "x-opensips-node-id"].

Definition extractOpenSIPSHeaders `{Unicode} (m : SIPMessage) : SIPMessage :=
  let m := collect_headers opensipsHeaders m in
  let m := take_first_ucid OpenSIPSDialogID ["x-opensips-dialog-id"; "x-opensips-did"; "x-kamailio-dialog-id"] m in
  let m := take_first OpenSIPSTransactionID ["x-opensips-transaction-id"; "x-opensips-tid"; "x-kamailio-transaction-id"] m in
  take_first OpenSIPSCallID ["x-opensips-call-id"; "x-opensips-th-callid"] m.

(** ** AudioCodes *)

Definition audiocodesHeaders : list string :=
  ["x-ac-action"; "x-ac-session-id"; "x-audiocodes-session-id"; "x-ac-call-id";
     "x-ac-recording-action"; "x-ac-recording-server"; "x-ac-recording-ip-group";
     "x-ac-source-ip-group"; "x-ac-dest-ip-group"; "x-ac-src-ip-group-name";
     "x-ac-dst-ip-group-name"; "x-ac-srd"; "x-ac-srd-name"; "x-ac-call-type"; "x-ac-media-type";
     "x-ac-avaya-ucid"; "x-ac-mos"; "x-ac-quality"; "x-ac-device-name"; "x-ac-fw-version"].

Definition extractAudioCodesHeaders `{Unicode} (m : SIPMessage) : SIPMessage :=
  let m := collect_headers audiocodesHeaders m in
  let m := take_first AudioCodesACAction ["x-ac-action"] m in
  let m := take_first_ucid AudioCodesSessionID ["x-ac-session-id"; "x-audiocodes-session-id"] m in
  let m := take_first AudioCodesCallID ["x-ac-call-id"] m in
  add_ucid m "x-ac-avaya-ucid".

(** ** Ribbon *)

Definition ribbonHeaders : list string :=
  ["x-ribbon-session-id"; "x-ribbon-call-id"; "x-ribbon-gw-id"; "x-ribbon-trunk-group";
     "x-sonus-session-id"; "x-sonus-call-id"; "x-sonus-gw-id"; "x-sonus-trunk-group";
     "x-genband-session-id"; "x-genband-call-id"; "x-ribbon-recording-id"; "x-ribbon-siprec-session";
     "x-ribbon-route"; "x-ribbon-zone"; "x-ribbon-policy"; "x-ribbon-call-type";
     "x-ribbon-call-direction"; "x-ribbon-carrier-id"; "x-ribbon-route-label"; "x-ribbon-lrn";
     "x-ribbon-billing-id"; "x-ribbon-sg-name"; "x-ribbon-sg-id"].

Definition extractRibbonHeaders `{Unicode} (m : SIPMessage) : SIPMessage :=
  let m := collect_headers ribbonHeaders m in
  let m := take_first_ucid RibbonSessionID ["x-ribbon-session-id"; "x-sonus-session-id"; "x-genband-session-id"] m in
  let m := take_first RibbonCallID ["x-ribbon-call-id"; "x-sonus-call-id"; "x-genband-call-id"] m in
  take_first RibbonGWID ["x-ribbon-gw-id"; "x-sonus-gw-id"] m.

(** ** Sansay *)

Definition sansayHeaders : list string :=
  ["x-sansay-session-id"; "x-sansay-call-id"; "x-vsxi-session-id"; "x-vsxi-call-id";
     "x-sansay-trunk-id"; "x-sansay-trunk-group"; "x-sansay-ingress-trunk"; "x-sansay-egress-trunk";
     "x-sansay-route-id"; "x-sansay-lcr-route"; "x-sansay-destination"; "x-sansay-call-type";
     "x-sansay-call-direction"; "x-sansay-billing-id"; "x-sansay-account-code"; "x-sansay-rate-id";
     "x-sansay-carrier-id"; "x-sansay-ani"; "x-sansay-dnis"; "x-sansay-node-id";
     "x-sansay-cluster-id"].

Definition extractSansayHeaders `{Unicode} (m : SIPMessage) : SIPMessage :=
  let m := collect_headers sansayHeaders m in
  let m := take_first_ucid SansaySessionID ["x-sansay-session-id"; "x-vsxi-session-id"] m in
  let m := take_first SansayCallID ["x-sansay-call-id"; "x-vsxi-call-id"] m in
  take_first SansayTrunkID ["x-sansay-trunk-id"; "x-sansay-ingress-trunk"] m.

(** ** Huawei *)

Definition huaweiHeaders : list string :=
  ["x-huawei-session-id"; "x-huawei-call-id"; "x-huawei-correlation-id"; "x-huawei-trunk-id";
     "x-huawei-trunk-group"; "x-huawei-route-id"; "x-huawei-icid"; "x-huawei-orig-ioi";
     "x-huawei-term-ioi"; "p-charging-vector"; "x-huawei-call-type"; "x-huawei-service-type";
     "x-huawei-recording-id"; "x-huawei-recording-session"; "x-huawei-device-id"; "x-huawei-node-id";
     "x-espace-user-id"; "x-espace-meeting-id"; "x-espace-conf-id"].

(** The first part of the charging vector that carries the ICID. *)
Definition huawei_icid (value : string) : string :=
  match List.find (fun part => has_prefix (trim_space part) "icid-value=") (split_on ";"%char value) with
  | Some part => trim_char (ascii_of_N 34) (trim_prefix (trim_space part) "icid-value=")
  | None => ""
  end.

Definition huawei_charging `{Unicode} (m : SIPMessage) : SIPMessage :=
  let value := getHeaderValue m "p-charging-vector" in
  if String.eqb value "" then m else
  if negb (contains value "icid-value=") then m else
  let icid := huawei_icid value in
  if negb (String.eqb icid "") && String.eqb (ms_Fields m HuaweiSessionID) ""
  then append_ucid icid (set_field HuaweiSessionID icid m) else m.

Definition extractHuaweiHeaders `{Unicode} (m : SIPMessage) : SIPMessage :=
  let m := collect_headers huaweiHeaders m in
  let m := take_first_ucid HuaweiSessionID ["x-huawei-session-id"; "x-huawei-icid"] m in
  let m := take_first HuaweiCallID ["x-huawei-call-id"] m in
  let m := take_first HuaweiTrunkID ["x-huawei-trunk-id"; "x-huawei-trunk-group"] m in
  huawei_charging m.

(** ** Microsoft *)

Definition microsoftHeaders : list string :=
  ["ms-conversation-id"; "x-ms-conversation-id"; "x-ms-call-id"; "x-ms-correlation-id";
     "x-ms-teams-tenant-id"; "x-ms-teams-call-id"; "x-ms-teams-meeting-id"; "x-ms-teams-user-id";
     "x-ms-sbc-host"; "x-ms-mediation-server"; "x-ms-skype-chain-id"; "x-ms-primary-user-address";
     "x-ms-exchange-organization"; "x-ms-organization-id"; "x-ms-call-diagnostics";
     "x-ms-user-logon-data"; "x-ms-client-location"; "x-ms-routing-profile"; "x-ms-route";
     "x-ms-mediation-server-bypass"; "x-ms-recording-id"; "x-ms-compliance-recording";
     "x-ms-conf-id"; "x-ms-conference-uri"; "x-ms-user-ucid"; "x-ms-trunk-context";
     "x-ms-sip-trunk-id"].

Definition extractMicrosoftHeaders `{Unicode} (m : SIPMessage) : SIPMessage :=
  let m := collect_headers microsoftHeaders m in
  let m := take_first_ucid MSConversationID ["ms-conversation-id"; "x-ms-conversation-id"; "x-ms-skype-chain-id"] m in
  let m := take_first MSCallID ["x-ms-call-id"; "x-ms-teams-call-id"] m in
  take_first MSCorrelationID ["x-ms-correlation-id"] m.

(** ** Any other vendor *)

Definition commonHeaders : list string :=
  ["p-asserted-identity"; "remote-party-id"; "p-preferred-identity"; "privacy"; "supported";
     "require"].

Definition extractGenericHeaders `{Unicode} (m : SIPMessage) : SIPMessage := collect_headers commonHeaders m.

(** ** User-to-user and X- headers *)

Definition put_x (name value : string) (m : SIPMessage) : SIPMessage :=
  m <| ms_XHeaders := Some (<[name := value]> (default ∅ (ms_XHeaders m))) |>.

Definition uuiVariants : list string := ["User-to-User"; "user-to-user"; "X-User-to-User"; "x-user-to-user"].

(** A header of the message whose lower-case name starts with x-. *)
Definition take_x_header `{Unicode} (m : SIPMessage) (kv : string * list string) : SIPMessage :=
  let '(headerName, values) := kv in
  if has_prefix (to_lower headerName) "x-" && negb (bool_decide (values = [])) then
    let normalizedName :=
      if has_prefix headerName "x-" then "X-" +:+ drop_string 2 headerName else headerName in
    put_x normalizedName (match values with [v] => v | _ => join ", " values end) m
  else m.

Definition enterpriseXHeaders : list string :=
  ["X-Call-ID"; "X-Original-Call-ID"; "X-Correlation-ID"; "X-Transaction-ID"; "X-Customer-ID";
     "X-Account-ID"; "X-Agent-ID"; "X-Queue-ID"; "X-Campaign-ID"; "X-Recording-ID"; "X-Session-ID";
     "X-Tenant-ID"; "X-Application-ID"; "X-Custom-Data"; "X-Metadata"; "X-Call-Type";
     "X-Call-Direction"; "X-ANI"; "X-DNIS"; "X-Called-Number"; "X-Calling-Number";
     "X-Redirect-Number"; "X-Original-Called-Number"; "X-Diversion-Reason"].

Definition take_enterprise `{Unicode} (m : SIPMessage) (h : string) : SIPMessage :=
  match default ∅ (ms_XHeaders m) !! h with
  | Some _ => m
  | None => if has_header m h then put_x h (getHeaderValue m h) m else m
  end.

Definition extractUUIAndXHeaders `{Unicode} `{!GoMapRange string} (m : SIPMessage) : SIPMessage :=
  let m := match ms_XHeaders m with None => m <| ms_XHeaders := Some ∅ |> | Some _ => m end in
  let uui := first_header m uuiVariants in
  let m := if String.eqb uui "" then m else put_x "User-to-User" uui (m <| ms_UUIHeader := uui |>) in
  let m := foldl take_x_header m (map_range 2%nat (ms_Headers m)) in
  match ms_Request m with
  | Some _ => foldl take_enterprise m enterpriseXHeaders
  | None => m
  end.

Definition extractVendorHeaders `{Unicode} `{!GoMapRange string} (m : SIPMessage) : SIPMessage :=
  let v := ms_VendorType m in
  if String.eqb v "avaya" then extractAvayaHeaders m
  else if String.eqb v "cisco" then extractCiscoHeaders m
  else if String.eqb v "oracle" then extractOracleHeaders m
  else if String.eqb v "genesys" then extractGenesysHeaders m
  else if String.eqb v "nice" then extractNICEHeaders m
  else if String.eqb v "asterisk" then extractAsteriskHeaders m
  else if String.eqb v "freeswitch" then extractFreeSWITCHHeaders m
  else if String.eqb v "opensips" then extractOpenSIPSHeaders m
  else if String.eqb v "audiocodes" then extractAudioCodesHeaders m
  else if String.eqb v "ribbon" then extractRibbonHeaders m
  else if String.eqb v "sansay" then extractSansayHeaders m
  else if String.eqb v "huawei" then extractHuaweiHeaders m
  else if String.eqb v "microsoft" then extractMicrosoftHeaders m
  else extractGenericHeaders m.

Definition extractVendorInformation `{Unicode} `{!GoMapRange string} (m : SIPMessage) : SIPMessage :=
  let m := m <| ms_VendorHeaders := ∅ |> <| ms_UCIDHeaders := [] |> in
  let m := m <| ms_UserAgent := getHeaderValue m "user-agent" |> in
  let m := m <| ms_VendorType := detectVendor m |> in
  extractUUIAndXHeaders (extractVendorHeaders m).

(** ** Storing with the session *)

(** The key under which a field of the message is stored, in the order of the
    assignments. *)
Definition stored_fields : list (VendorField * string) :=
  [(SessionIDHeader, "sip_cisco_session_id");
   (OracleUCID, "sip_oracle_ucid");
   (OracleConversationID, "sip_oracle_conversation_id");
   (GenesysInteractionID, "sip_genesys_interaction_id");
   (GenesysConversationID, "sip_genesys_conversation_id");
   (GenesysSessionID, "sip_genesys_session_id");
   (GenesysQueueName, "sip_genesys_queue_name");
   (GenesysAgentID, "sip_genesys_agent_id");
   (GenesysCampaignID, "sip_genesys_campaign_id");
   (NICEInteractionID, "sip_nice_interaction_id");
   (NICESessionID, "sip_nice_session_id");
   (NICERecordingID, "sip_nice_recording_id");
   (NICECallID, "sip_nice_call_id");
   (NICEContactID, "sip_nice_contact_id");
   (NICEAgentID, "sip_nice_agent_id");
   (AsteriskUniqueID, "sip_asterisk_unique_id");
   (AsteriskLinkedID, "sip_asterisk_linked_id");
   (AsteriskChannelID, "sip_asterisk_channel_id");
   (AsteriskAccountCode, "sip_asterisk_account_code");
   (AsteriskContext, "sip_asterisk_context");
   (FreeSWITCHUUID, "sip_freeswitch_uuid");
   (FreeSWITCHCoreUUID, "sip_freeswitch_core_uuid");
   (FreeSWITCHChannelName, "sip_freeswitch_channel_name");
   (FreeSWITCHProfileName, "sip_freeswitch_profile_name");
   (FreeSWITCHAccountCode, "sip_freeswitch_account_code");
   (OpenSIPSDialogID, "sip_opensips_dialog_id");
   (OpenSIPSTransactionID, "sip_opensips_transaction_id");
   (OpenSIPSCallID, "sip_opensips_call_id");
   (AvayaUCID, "sip_avaya_ucid");
   (AvayaConfID, "sip_avaya_conf_id");
   (AvayaConversationID, "sip_avaya_conversation_id");
   (AvayaStationID, "sip_avaya_station_id");
   (AvayaAgentID, "sip_avaya_agent_id");
   (AvayaVDN, "sip_avaya_vdn");
   (AvayaSkillGroup, "sip_avaya_skill_group");
   (AudioCodesSessionID, "sip_audiocodes_session_id");
   (AudioCodesCallID, "sip_audiocodes_call_id");
   (AudioCodesACAction, "sip_audiocodes_ac_action");
   (RibbonSessionID, "sip_ribbon_session_id");
   (RibbonCallID, "sip_ribbon_call_id");
   (RibbonGWID, "sip_ribbon_gw_id");
   (SansaySessionID, "sip_sansay_session_id");
   (SansayCallID, "sip_sansay_call_id");
   (SansayTrunkID, "sip_sansay_trunk_id");
   (HuaweiSessionID, "sip_huawei_session_id");
   (HuaweiCallID, "sip_huawei_call_id");
   (HuaweiTrunkID, "sip_huawei_trunk_id");
   (MSConversationID, "sip_ms_conversation_id");
   (MSCallID, "sip_ms_call_id");
   (MSCorrelationID, "sip_ms_correlation_id")].

Definition normalize_key `{Unicode} (name : string) : string :=
  "sip_" +:+ to_lower (replace_char "-"%char "_"%char name).

Definition meta_set (k v : string) (meta : gmap string string) : gmap string string :=
  if String.eqb v "" then meta else <[k := v]> meta.

Definition store_x `{Unicode} (meta : gmap string string) (kv : string * string) : gmap string string :=
  <[normalize_key kv.1 := kv.2]> meta.

Definition store_vendor `{Unicode} (meta : gmap string string) (kv : string * string)
    : gmap string string :=
  match meta !! normalize_key kv.1 with
  | Some _ => meta
  | None => <[normalize_key kv.1 := kv.2]> meta
  end.

Definition store_field (m : SIPMessage) (meta : gmap string string) (fk : VendorField * string)
    : gmap string string := meta_set fk.2 (ms_Fields m fk.1) meta.

Definition stored_metadata `{Unicode} `{!GoMapRange string} (m : SIPMessage) (meta : gmap string string)
    : gmap string string :=
  let meta := meta_set "sip_uui" (ms_UUIHeader m) meta in
  let meta := meta_set "sip_from" (getHeaderValue m "From") meta in
  let meta := meta_set "sip_to" (getHeaderValue m "To") meta in
  let meta := foldl store_x meta (map_range 3%nat (default ∅ (ms_XHeaders m))) in
  let meta := foldl store_vendor meta (map_range 4%nat (ms_VendorHeaders m)) in
  let meta := meta_set "sip_vendor_type" (ms_VendorType m) meta in
  let meta := if bool_decide (ms_UCIDHeaders m = []) then meta
              else <["sip_ucid" := join ";" (ms_UCIDHeaders m)]> meta in
  foldl (store_field m) meta stored_fields.

Definition storeUUIAndXHeadersInSession `{Unicode} `{!GoMapRange string}
    (session : option RecordingSession) (message : option SIPMessage) : option RecordingSession :=
  match session, message with
  | Some s, Some m =>
    Some (s <| rs_ExtendedMetadata :=
              Some (stored_metadata m (default ∅ (rs_ExtendedMetadata s))) |>)
  | _, _ => session
  end.

(** ** What each step changes *)

Section steps.
Context `{Unicode}.
Implicit Types (m : SIPMessage).

Lemma getHeaderValue_ext m m' h : ms_Headers m' = ms_Headers m -> getHeaderValue m' h = getHeaderValue m h.
Proof. unfold getHeaderValue. by intros ->. Qed.

Lemma first_header_ext m m' hs : ms_Headers m' = ms_Headers m -> first_header m' hs = first_header m hs.
Proof.
  intros E. induction hs as [|h hs IH]; cbn; [done|]. unfold has_header.
  by rewrite IH, (getHeaderValue_ext m m' h E).
Qed.

(** The parts of a message the extraction of vendor headers leaves alone. *)
Definition same_base m m' : Prop :=
  ms_Headers m' = ms_Headers m /\ ms_VendorType m' = ms_VendorType m /\
  ms_UUIHeader m' = ms_UUIHeader m /\ ms_XHeaders m' = ms_XHeaders m /\
  ms_Request m' = ms_Request m.

Lemma same_base_refl m : same_base m m.
Proof. done. Qed.

Lemma same_base_trans m m' m'' : same_base m m' -> same_base m' m'' -> same_base m m''.
Proof. unfold same_base. intros (-> & -> & -> & -> & ->). done. Qed.

Lemma set_field_base f v m : same_base m (set_field f v m).
Proof. by destruct m. Qed.

Lemma append_ucid_base v m : same_base m (append_ucid v m).
Proof. by destruct m. Qed.

Lemma put_vendor_header_base m h : same_base m (put_vendor_header m h).
Proof. unfold put_vendor_header. destruct m. by case_match. Qed.

Lemma foldl_base {B} (f : SIPMessage -> B -> SIPMessage) l m :
  (forall m b, same_base m (f m b)) -> same_base m (foldl f m l).
Proof.
  intros Hf. revert m. induction l as [|b l IH]; intros m; cbn; [apply same_base_refl|].
  eapply same_base_trans; [apply Hf|apply IH].
Qed.

Lemma collect_headers_base hs m : same_base m (collect_headers hs m).
Proof. apply foldl_base, put_vendor_header_base. Qed.

Lemma take_first_base f hs m : same_base m (take_first f hs m).
Proof. unfold take_first. case_match; [apply same_base_refl|apply set_field_base]. Qed.

Lemma take_first_ucid_base f hs m : same_base m (take_first_ucid f hs m).
Proof.
  unfold take_first_ucid. case_match; [apply same_base_refl|].
  eapply same_base_trans; [apply set_field_base|apply append_ucid_base].
Qed.

Lemma add_ucid_base m h : same_base m (add_ucid m h).
Proof. unfold add_ucid. case_match; [apply append_ucid_base|apply same_base_refl]. Qed.

(** *** Fields *)

Lemma set_field_fields f v m g :
  ms_Fields (set_field f v m) g = if decide (g = f) then v else ms_Fields m g.
Proof. by destruct m. Qed.

Lemma append_ucid_fields v m g : ms_Fields (append_ucid v m) g = ms_Fields m g.
Proof. by destruct m. Qed.

Lemma put_vendor_header_fields m h g : ms_Fields (put_vendor_header m h) g = ms_Fields m g.
Proof. unfold put_vendor_header. destruct m. by case_match. Qed.

Lemma foldl_fields {B} (f : SIPMessage -> B -> SIPMessage) l m g :
  (forall m b, ms_Fields (f m b) g = ms_Fields m g) -> ms_Fields (foldl f m l) g = ms_Fields m g.
Proof. intros Hf. revert m. induction l as [|b l IH]; intros m; cbn; [done|]. by rewrite IH, Hf. Qed.

Lemma collect_headers_fields hs m g : ms_Fields (collect_headers hs m) g = ms_Fields m g.
Proof. apply foldl_fields. intros. apply put_vendor_header_fields. Qed.

Lemma add_ucid_fields m h g : ms_Fields (add_ucid m h) g = ms_Fields m g.
Proof. unfold add_ucid. case_match; [apply append_ucid_fields|done]. Qed.

Lemma add_ucids_fields hs m g : ms_Fields (foldl add_ucid m hs) g = ms_Fields m g.
Proof. apply foldl_fields. intros. apply add_ucid_fields. Qed.

Lemma take_first_fields f hs m g :
  ms_Fields (take_first f hs m) g =
  or_else (if decide (g = f) then first_header m hs else "") (ms_Fields m g).
Proof.
  unfold take_first, or_else. case_match eqn:E; [case_decide; by rewrite ?E|].
  rewrite set_field_fields. case_decide; by rewrite ?E.
Qed.

Lemma take_first_ucid_fields f hs m g :
  ms_Fields (take_first_ucid f hs m) g =
  or_else (if decide (g = f) then first_header m hs else "") (ms_Fields m g).
Proof.
  unfold take_first_ucid, or_else. case_match eqn:E; [case_decide; by rewrite ?E|].
  rewrite append_ucid_fields, set_field_fields. case_decide; by rewrite ?E.
Qed.

(** *** The collected headers *)

Lemma set_field_headers f v m : ms_VendorHeaders (set_field f v m) = ms_VendorHeaders m.
Proof. by destruct m. Qed.

Lemma append_ucid_headers v m : ms_VendorHeaders (append_ucid v m) = ms_VendorHeaders m.
Proof. by destruct m. Qed.

Lemma take_first_headers f hs m : ms_VendorHeaders (take_first f hs m) = ms_VendorHeaders m.
Proof. unfold take_first. case_match; [done|apply set_field_headers]. Qed.

Lemma take_first_ucid_headers f hs m : ms_VendorHeaders (take_first_ucid f hs m) = ms_VendorHeaders m.
Proof. unfold take_first_ucid. case_match; [done|]. by rewrite append_ucid_headers, set_field_headers. Qed.

Lemma add_ucid_headers m h : ms_VendorHeaders (add_ucid m h) = ms_VendorHeaders m.
Proof. unfold add_ucid. case_match; [apply append_ucid_headers|done]. Qed.

Lemma add_ucids_headers hs m : ms_VendorHeaders (foldl add_ucid m hs) = ms_VendorHeaders m.
Proof. revert m. induction hs as [|h hs IH]; intros m; cbn; [done|]. by rewrite IH, add_ucid_headers. Qed.

(** The entry a table of headers contributes. *)
Definition table_entry m (hs : list string) (h : string) : option string :=
  if bool_decide (h ∈ hs) && has_header m h then Some (getHeaderValue m h) else None.

Lemma put_vendor_header_lookup m x h :
  ms_VendorHeaders (put_vendor_header m x) !! h =
  if bool_decide (h = x) && has_header m h then Some (getHeaderValue m h) else ms_VendorHeaders m !! h.
Proof.
  unfold put_vendor_header. destruct (has_header m x) eqn:E.
  - replace (ms_VendorHeaders (m <| ms_VendorHeaders := <[x:=getHeaderValue m x]> (ms_VendorHeaders m) |>))
      with (<[x:=getHeaderValue m x]> (ms_VendorHeaders m)) by (by destruct m).
    rewrite lookup_insert. destruct (decide (x = h)) as [->|].
    + by rewrite bool_decide_eq_true_2, E.
    + by rewrite bool_decide_eq_false_2 by done.
  - destruct (decide (h = x)) as [->|]; [by rewrite E, andb_false_r|].
    by rewrite bool_decide_eq_false_2.
Qed.

Lemma table_entry_cons m x hs h :
  table_entry m (x :: hs) h =
  if bool_decide (h = x) && has_header m h then Some (getHeaderValue m h) else table_entry m hs h.
Proof.
  unfold table_entry. destruct (has_header m h); rewrite ?andb_true_r, ?andb_false_r; [|done].
  destruct (decide (h = x)) as [->|].
  - rewrite !bool_decide_eq_true_2; [done|done|left].
  - rewrite (bool_decide_eq_false_2 (h = x)) by done.
    erewrite bool_decide_ext; [reflexivity|]. rewrite elem_of_cons. naive_solver.
Qed.

Lemma table_entry_ext m m' hs h : ms_Headers m' = ms_Headers m -> table_entry m' hs h = table_entry m hs h.
Proof. intros E. unfold table_entry, has_header. by rewrite (getHeaderValue_ext m m' h E). Qed.

Lemma collect_headers_lookup hs m h :
  ms_VendorHeaders (collect_headers hs m) !! h =
  match table_entry m hs h with Some v => Some v | None => ms_VendorHeaders m !! h end.
Proof.
  revert m. induction hs as [|x hs IH]; intros m; [done|]. unfold collect_headers. cbn [foldl].
  fold (collect_headers hs (put_vendor_header m x)). rewrite IH, table_entry_cons.
  destruct (put_vendor_header_base m x) as [E _]. rewrite (table_entry_ext m _ hs h E), put_vendor_header_lookup.
  destruct (bool_decide (h = x) && has_header m h) eqn:Eh; [|done].
  unfold table_entry. apply andb_true_iff in Eh as [_ ->]. by destruct (bool_decide (h ∈ hs)).
Qed.
End steps.

(** ** The specification: which headers a field comes from *)

Definition known_vendors : list string :=
  ["avaya"; "cisco"; "oracle"; "genesys"; "nice"; "asterisk"; "freeswitch"; "opensips"; "audiocodes";
   "ribbon"; "sansay"; "huawei"; "microsoft"; "generic"].

Definition field_vendor (f : VendorField) : string :=
  match f with
  | SessionIDHeader => "cisco"
  | OracleUCID | OracleConversationID => "oracle"
  | GenesysInteractionID | GenesysConversationID | GenesysSessionID | GenesysQueueName
  | GenesysAgentID | GenesysCampaignID => "genesys"
  | NICEInteractionID | NICESessionID | NICERecordingID | NICECallID | NICEContactID
  | NICEAgentID => "nice"
  | AsteriskUniqueID | AsteriskLinkedID | AsteriskChannelID | AsteriskAccountCode
  | AsteriskContext => "asterisk"
  | FreeSWITCHUUID | FreeSWITCHCoreUUID | FreeSWITCHChannelName | FreeSWITCHProfileName
  | FreeSWITCHAccountCode => "freeswitch"
  | OpenSIPSCallID | OpenSIPSDialogID | OpenSIPSTransactionID => "opensips"
  | AudioCodesSessionID | AudioCodesCallID | AudioCodesACAction => "audiocodes"
  | RibbonSessionID | RibbonCallID | RibbonGWID => "ribbon"
  | SansaySessionID | SansayCallID | SansayTrunkID => "sansay"
  | HuaweiSessionID | HuaweiCallID | HuaweiTrunkID => "huawei"
  | MSConversationID | MSCallID | MSCorrelationID => "microsoft"
  | AvayaUCID | AvayaConfID | AvayaConversationID | AvayaStationID | AvayaAgentID | AvayaVDN
  | AvayaSkillGroup => "avaya"
  end.

(** The headers that can carry a field, best first. *)
Definition field_headers (f : VendorField) : list string :=
  match f with
  | SessionIDHeader => ["session-id"]
  | OracleUCID => ["x-ocsbc-ucid"; "x-oracle-ucid"; "p-ocsbc-ucid"; "x-ucid"]
  | OracleConversationID =>
    ["x-ocsbc-conversation-id"; "x-oracle-conversation-id"; "p-ocsbc-conversation-id"; "x-conversation-id"]
  | GenesysInteractionID =>
    ["x-genesys-interaction-id"; "x-interaction-id"; "x-inin-interaction-id"; "x-genesys-call-uuid"]
  | GenesysConversationID => ["x-genesys-conversation-id"; "x-conversation-id"]
  | GenesysSessionID => ["x-genesys-session-id"; "x-gvp-session-id"]
  | GenesysQueueName => ["x-genesys-queue-name"; "x-genesys-queue"; "x-inin-ic-workgroup"]
  | GenesysAgentID => ["x-genesys-agent-id"; "x-inin-ic-userid"]
  | GenesysCampaignID => ["x-genesys-campaign-id"]
  | NICEInteractionID =>
    ["x-nice-interaction-id"; "x-incontact-contact-id"; "x-cxone-contact-id"; "x-engage-call-id"]
  | NICESessionID => ["x-nice-session-id"; "x-ntr-session-id"]
  | NICERecordingID => ["x-nice-recording-id"; "x-engage-recording-id"]
  | NICECallID => ["x-nice-call-id"; "x-ntr-call-id"]
  | NICEContactID =>
    ["x-incontact-contact-id"; "x-cxone-contact-id"; "x-incontact-master-contact-id";
     "x-cxone-master-contact-id"]
  | NICEAgentID => ["x-nice-agent-id"; "x-incontact-agent-id"; "x-cxone-agent-id"]
  | AsteriskUniqueID => ["x-asterisk-unique-id"; "x-asterisk-uniqueid"]
  | AsteriskLinkedID => ["x-asterisk-linkedid"; "x-asterisk-linked-id"]
  | AsteriskChannelID => ["x-asterisk-channel"; "x-asterisk-channel-name"]
  | AsteriskAccountCode =>
    ["x-asterisk-accountcode"; "x-asterisk-account-code"; "x-asterisk-cdr-accountcode"]
  | AsteriskContext => ["x-asterisk-context"]
  | FreeSWITCHUUID => ["x-fs-uuid"; "x-fs-unique-id"; "x-freeswitch-uuid"; "x-fs-call-uuid"]
  | FreeSWITCHCoreUUID => ["x-fs-core-uuid"; "x-freeswitch-core-uuid"]
  | FreeSWITCHChannelName => ["x-fs-channel-name"; "x-freeswitch-channel-name"]
  | FreeSWITCHProfileName => ["x-fs-profile-name"; "x-freeswitch-profile-name"; "x-fs-sofia-profile"]
  | FreeSWITCHAccountCode => ["x-fs-accountcode"; "x-fs-account-code"; "x-freeswitch-accountcode"]
  | OpenSIPSCallID => ["x-opensips-call-id"; "x-opensips-th-callid"]
  | OpenSIPSDialogID => ["x-opensips-dialog-id"; "x-opensips-did"; "x-kamailio-dialog-id"]
  | OpenSIPSTransactionID =>
    ["x-opensips-transaction-id"; "x-opensips-tid"; "x-kamailio-transaction-id"]
  | AudioCodesSessionID => ["x-ac-session-id"; "x-audiocodes-session-id"]
  | AudioCodesCallID => ["x-ac-call-id"]
  | AudioCodesACAction => ["x-ac-action"]
  | RibbonSessionID => ["x-ribbon-session-id"; "x-sonus-session-id"; "x-genband-session-id"]
  | RibbonCallID => ["x-ribbon-call-id"; "x-sonus-call-id"; "x-genband-call-id"]
  | RibbonGWID => ["x-ribbon-gw-id"; "x-sonus-gw-id"]
  | SansaySessionID => ["x-sansay-session-id"; "x-vsxi-session-id"]
  | SansayCallID => ["x-sansay-call-id"; "x-vsxi-call-id"]
  | SansayTrunkID => ["x-sansay-trunk-id"; "x-sansay-ingress-trunk"]
  | HuaweiSessionID => ["x-huawei-session-id"; "x-huawei-icid"]
  | HuaweiCallID => ["x-huawei-call-id"]
  | HuaweiTrunkID => ["x-huawei-trunk-id"; "x-huawei-trunk-group"]
  | MSConversationID => ["ms-conversation-id"; "x-ms-conversation-id"; "x-ms-skype-chain-id"]
  | MSCallID => ["x-ms-call-id"; "x-ms-teams-call-id"]
  | MSCorrelationID => ["x-ms-correlation-id"]
  | AvayaUCID => ["x-avaya-ucid"; "x-ucid"]
  | AvayaConfID => ["x-avaya-conf-id"]
  | AvayaConversationID =>
    ["x-avaya-interaction-id"; "x-avaya-conversation-id"; "x-avaya-sm-session-id"]
  | AvayaStationID => ["x-avaya-station-id"]
  | AvayaAgentID => ["x-avaya-agent-id"]
  | AvayaVDN => ["x-avaya-vdn"]
  | AvayaSkillGroup => ["x-avaya-skill-group"; "x-avaya-skill"]
  end.

(** The charging identifier the header P-Charging-Vector can supply instead. *)
Definition field_icid `{Unicode} (m : SIPMessage) (f : VendorField) : string :=
  let value := getHeaderValue m "p-charging-vector" in
  match f with
  | OracleUCID =>
    if String.eqb value "" then "" else default "" (parsePChargingVector value !! "icid-value")
  | HuaweiSessionID => if contains value "icid-value=" then huawei_icid value else ""
  | _ => ""
  end.

Definition field_value `{Unicode} (m : SIPMessage) (f : VendorField) : string :=
  or_else (first_header m (field_headers f)) (field_icid m f).

Section fields_exact.
Context `{Unicode} `{!GoMapRange string}.
Implicit Types (m : SIPMessage).

Lemma if_decide_same {P} (d : Decision P) (x : string) : (if d then x else x) = x.
Proof. by destruct d. Qed.

Lemma first_header_base m m' hs : same_base m m' -> first_header m' hs = first_header m hs.
Proof. intros [E _]. by apply first_header_ext. Qed.
End fields_exact.

(** [reaches m0 m F V]: from [m0] the extraction has come to [m], with the
    fields [F] and the collected headers [V]. *)
Section reaches.
Context `{Unicode}.
Implicit Types (m : SIPMessage) (F : VendorField -> string) (V : string -> option string).

Record reaches m0 m F V : Prop := {
  reaches_base : same_base m0 m;
  reaches_fields : forall g, ms_Fields m g = F g;
  reaches_headers : forall h, ms_VendorHeaders m !! h = V h
}.

Lemma reaches_start m : reaches m m (ms_Fields m) (fun h => ms_VendorHeaders m !! h).
Proof. done. Qed.

Lemma reaches_collect hs m0 m F V : reaches m0 m F V ->
  reaches m0 (collect_headers hs m) F
    (fun h => match table_entry m0 hs h with Some v => Some v | None => V h end).
Proof.
  intros [B HF HV]. split.
  - eapply same_base_trans; [done|apply collect_headers_base].
  - intros g. by rewrite collect_headers_fields.
  - intros h. destruct B as [E _]. by rewrite collect_headers_lookup, (table_entry_ext m0 m hs h E), HV.
Qed.

Lemma reaches_put x m0 m F V : reaches m0 m F V ->
  reaches m0 (put_vendor_header m x) F
    (fun h => match table_entry m0 [x] h with Some v => Some v | None => V h end).
Proof. apply (reaches_collect [x]). Qed.

Lemma reaches_first f hs m0 m F V : reaches m0 m F V ->
  reaches m0 (take_first f hs m)
    (fun g => or_else (if decide (g = f) then first_header m0 hs else "") (F g)) V.
Proof.
  intros [B HF HV]. split.
  - eapply same_base_trans; [done|apply take_first_base].
  - intros g. destruct B as [E _]. by rewrite take_first_fields, (first_header_ext m0 m hs E), HF.
  - intros h. by rewrite take_first_headers.
Qed.

Lemma reaches_first_ucid f hs m0 m F V : reaches m0 m F V ->
  reaches m0 (take_first_ucid f hs m)
    (fun g => or_else (if decide (g = f) then first_header m0 hs else "") (F g)) V.
Proof.
  intros [B HF HV]. split.
  - eapply same_base_trans; [done|apply take_first_ucid_base].
  - intros g. destruct B as [E _]. by rewrite take_first_ucid_fields, (first_header_ext m0 m hs E), HF.
  - intros h. by rewrite take_first_ucid_headers.
Qed.

Lemma reaches_ucid x m0 m F V : reaches m0 m F V -> reaches m0 (add_ucid m x) F V.
Proof.
  intros [B HF HV]. split.
  - eapply same_base_trans; [done|apply add_ucid_base].
  - intros g. by rewrite add_ucid_fields.
  - intros h. by rewrite add_ucid_headers.
Qed.

Lemma reaches_ucids hs m0 m F V : reaches m0 m F V -> reaches m0 (foldl add_ucid m hs) F V.
Proof. revert m. induction hs as [|x hs IH]; intros m Hm; cbn; [done|]. by apply IH, reaches_ucid. Qed.
End reaches.

Ltac reach :=
  cbv zeta;
  repeat first
    [ apply reaches_start | apply reaches_first | apply reaches_first_ucid | apply reaches_ucids
    | apply reaches_ucid | apply reaches_collect | apply reaches_put ].

Section vendors_exact.
Context `{Unicode} `{!GoMapRange string}.
Implicit Types (m : SIPMessage) (g : VendorField).

(** What the extraction for a vendor does to a message without vendor data:
    the vendor's fields have their values and no other field has one; the
    collected headers are those of the vendor's table that have a value. *)
Record exact (v : string) (hs : list string) (extra : string -> Prop) m m' : Prop := {
  exact_base : same_base m m';
  exact_fields : forall g, ms_Fields m' g = if String.eqb (field_vendor g) v then field_value m g else "";
  exact_headers : forall h, ~ extra h -> ms_VendorHeaders m' !! h = table_entry m hs h
}.

Definition blank_vendor m : Prop := (forall g, ms_Fields m g = "") /\ ms_VendorHeaders m = ∅.

Lemma exact_of_reaches v hs m m' F V : blank_vendor m -> reaches m m' F V ->
  (forall first, (forall g, ms_Fields m g = "") -> first = first_header m ->
    forall g, F g = if String.eqb (field_vendor g) v then or_else (first (field_headers g)) (field_icid m g) else "") ->
  (forall h, V h = match table_entry m hs h with Some v => Some v | None => ms_VendorHeaders m !! h end) ->
  exact v hs (fun _ => False) m m'.
Proof.
  intros [Hf Hv] [B HF HV] EF EV. split; [done| |].
  - intros g. rewrite HF. by apply (EF (first_header m) Hf).
  - intros h _. rewrite HV, EV, Hv. by destruct (table_entry m hs h).
Qed.

Ltac solve_exact :=
  eapply exact_of_reaches; [done|reach| |intros h; reflexivity];
  intros first Hf E g; rewrite <- ?E, ?Hf; clear E; destruct g; cbn [field_vendor]; rewrite ?Hf; reflexivity.

Lemma cisco_exact m : blank_vendor m ->
  exact "cisco" ciscoHeaders (fun _ => False) m (extractCiscoHeaders m).
Proof. intros Hb. unfold extractCiscoHeaders. solve_exact. Qed.

Lemma genesys_exact m : blank_vendor m ->
  exact "genesys" genesysHeaders (fun _ => False) m (extractGenesysHeaders m).
Proof. intros Hb. unfold extractGenesysHeaders. solve_exact. Qed.

Lemma nice_exact m : blank_vendor m ->
  exact "nice" niceHeaders (fun _ => False) m (extractNICEHeaders m).
Proof. intros Hb. unfold extractNICEHeaders. solve_exact. Qed.

Lemma asterisk_exact m : blank_vendor m ->
  exact "asterisk" asteriskHeaders (fun _ => False) m (extractAsteriskHeaders m).
Proof. intros Hb. unfold extractAsteriskHeaders. solve_exact. Qed.

Lemma freeswitch_exact m : blank_vendor m ->
  exact "freeswitch" freeswwitchHeaders (fun _ => False) m (extractFreeSWITCHHeaders m).
Proof. intros Hb. unfold extractFreeSWITCHHeaders. solve_exact. Qed.

Lemma opensips_exact m : blank_vendor m ->
  exact "opensips" opensipsHeaders (fun _ => False) m (extractOpenSIPSHeaders m).
Proof. intros Hb. unfold extractOpenSIPSHeaders. solve_exact. Qed.

Lemma audiocodes_exact m : blank_vendor m ->
  exact "audiocodes" audiocodesHeaders (fun _ => False) m (extractAudioCodesHeaders m).
Proof. intros Hb. unfold extractAudioCodesHeaders. solve_exact. Qed.

Lemma ribbon_exact m : blank_vendor m ->
  exact "ribbon" ribbonHeaders (fun _ => False) m (extractRibbonHeaders m).
Proof. intros Hb. unfold extractRibbonHeaders. solve_exact. Qed.

Lemma sansay_exact m : blank_vendor m ->
  exact "sansay" sansayHeaders (fun _ => False) m (extractSansayHeaders m).
Proof. intros Hb. unfold extractSansayHeaders. solve_exact. Qed.

Lemma microsoft_exact m : blank_vendor m ->
  exact "microsoft" microsoftHeaders (fun _ => False) m (extractMicrosoftHeaders m).
Proof. intros Hb. unfold extractMicrosoftHeaders. solve_exact. Qed.

Lemma generic_exact m : blank_vendor m ->
  exact "generic" commonHeaders (fun _ => False) m (extractGenericHeaders m).
Proof. intros Hb. unfold extractGenericHeaders. solve_exact. Qed.

(** Without a user-to-user value nothing is parsed from it. *)
Lemma parseAvayaUUI_empty m : ms_UUIHeader m = "" -> parseAvayaUUI m = m.
Proof. unfold parseAvayaUUI. by intros ->. Qed.

Lemma table_entry_app m xs ys h :
  table_entry m (xs ++ ys) h =
  match table_entry m xs h with Some v => Some v | None => table_entry m ys h end.
Proof.
  induction xs as [|x xs IH]; [done|]. cbn [app]. rewrite !table_entry_cons, IH.
  by destruct (bool_decide (h = x) && has_header m h).
Qed.

Lemma avaya_exact m : blank_vendor m -> ms_UUIHeader m = "" ->
  exact "avaya" (["sigma-uui-a"] ++ avayaHeaders) (fun _ => False) m (extractAvayaHeaders m).
Proof.
  intros Hb Hu. unfold extractAvayaHeaders. cbv zeta.
  match goal with |- exact _ _ _ _ (parseAvayaUUI ?x) =>
    cut (exact "avaya" (["sigma-uui-a"] ++ avayaHeaders) (fun _ => False) m x);
      [intros E; rewrite parseAvayaUUI_empty; [exact E|]; by destruct E as [(_ & _ & -> & _) _ _]|]
  end.
  eapply exact_of_reaches; [done|reach| |].
  - intros first Hf E g. rewrite <- ?E. clear E. destruct g; cbn [field_vendor]; rewrite ?Hf; reflexivity.
  - intros h. rewrite table_entry_app. by destruct (table_entry m ["sigma-uui-a"] h).
Qed.

(** *** The charging vector *)

Definition charging_key (h : string) : Prop := (exists k, h = "pcv_" +:+ k) \/ h = "icid-value".

Lemma put_pcvs_reaches l m : 
  (forall g, ms_Fields (foldl put_pcv m l) g = ms_Fields m g) /\ same_base m (foldl put_pcv m l) /\
  forall h, ~ charging_key h -> ms_VendorHeaders (foldl put_pcv m l) !! h = ms_VendorHeaders m !! h.
Proof.
  revert m. induction l as [|[k v] l IH]; intros m; cbn; [done|].
  destruct (IH (put_pcv m (k, v))) as (Hf & Hb & Hh). split_and!.
  - intros g. rewrite Hf. by destruct m.
  - eapply same_base_trans; [|exact Hb]. by destruct m.
  - intros h Hn. rewrite (Hh h Hn). unfold put_pcv. destruct m; cbn. rewrite lookup_insert_ne; [done|].
    intros <-. apply Hn. left. by exists k.
Qed.

Lemma oracle_charging_reaches m :
  (forall g, ms_Fields (oracle_charging m) g =
     or_else (ms_Fields m g) (if decide (g = OracleUCID) then field_icid m OracleUCID else "")) /\
  same_base m (oracle_charging m) /\
  forall h, ~ charging_key h -> ms_VendorHeaders (oracle_charging m) !! h = ms_VendorHeaders m !! h.
Proof.
  unfold oracle_charging, field_icid. cbv zeta.
  destruct (String.eqb (getHeaderValue m "p-charging-vector") "").
  { split_and!; [|done..]. intros g. by rewrite if_decide_same, or_else_empty_r. }
  set (fields := parsePChargingVector _). destruct (put_pcvs_reaches (map_range 1%nat fields) m) as (Hf & Hb & Hh).
  set (m1 := foldl put_pcv m _) in *.
  destruct (fields !! "icid-value") as [icid|]; cbn [default];
    [|split_and!; [|done..]; intros g; by rewrite if_decide_same, or_else_empty_r, Hf].
  destruct (String.eqb_spec icid "") as [->|Hi].
  { split_and!; [|done..]. intros g. by rewrite if_decide_same, or_else_empty_r, Hf. }
  set (m2 := m1 <| ms_VendorHeaders := _ |>).
  assert (Hf2 : forall g, ms_Fields m2 g = ms_Fields m g) by (intros g; rewrite <- Hf; subst m2; by destruct m1).
  assert (Hb2 : same_base m m2) by (eapply same_base_trans; [exact Hb|]; subst m2; by destruct m1).
  assert (Hh2 : forall h, ~ charging_key h -> ms_VendorHeaders m2 !! h = ms_VendorHeaders m !! h).
  { intros h Hn. rewrite <- (Hh h Hn). subst m2. destruct m1; cbn. rewrite lookup_insert_ne; [done|].
    intros <-. apply Hn. by right. }
  clearbody m2. rewrite Hf2. destruct (String.eqb_spec (ms_Fields m OracleUCID) "") as [E|E].
  - split_and!.
    + intros g. rewrite append_ucid_fields, set_field_fields, Hf2.
      case_decide; [subst; by rewrite E|by rewrite or_else_empty_r].
    + eapply same_base_trans; [exact Hb2|]. eapply same_base_trans; [apply set_field_base|apply append_ucid_base].
    + intros h Hn. by rewrite append_ucid_headers, set_field_headers, Hh2.
  - split_and!; [|done..]. intros g. rewrite Hf2. case_decide; [subst|by rewrite or_else_empty_r].
    unfold or_else. by destruct (String.eqb_spec (ms_Fields m OracleUCID) "").
Qed.

Lemma huawei_charging_reaches m :
  (forall g, ms_Fields (huawei_charging m) g =
     or_else (ms_Fields m g) (if decide (g = HuaweiSessionID) then field_icid m HuaweiSessionID else "")) /\
  same_base m (huawei_charging m) /\ ms_VendorHeaders (huawei_charging m) = ms_VendorHeaders m.
Proof.
  unfold huawei_charging, field_icid. cbv zeta.
  destruct (String.eqb_spec (getHeaderValue m "p-charging-vector") "") as [->|_].
  { split_and!; [|done..]. intros g. cbn [contains GoStrings.index]. by rewrite if_decide_same, or_else_empty_r. }
  destruct (contains _ _); cbn [negb];
    [|split_and!; [|done..]; intros g; by rewrite if_decide_same, or_else_empty_r].
  set (icid := huawei_icid _). case_match eqn:E.
  - apply andb_true_iff in E as [_ E]. apply String.eqb_eq in E. split_and!.
    + intros g. rewrite append_ucid_fields, set_field_fields.
      case_decide; [subst; by rewrite E|by rewrite or_else_empty_r].
    + eapply same_base_trans; [apply set_field_base|apply append_ucid_base].
    + by rewrite append_ucid_headers, set_field_headers.
  - split_and!; [|done..]. intros g. case_decide; [subst|by rewrite or_else_empty_r].
    unfold or_else. destruct (String.eqb_spec (ms_Fields m HuaweiSessionID) "") as [E'|]; [|done].
    rewrite andb_true_r in E. apply negb_false_iff, String.eqb_eq in E. congruence.
Qed.

Lemma field_icid_base m m' f : same_base m m' -> field_icid m' f = field_icid m f.
Proof. intros [E _]. unfold field_icid. by rewrite (getHeaderValue_ext m m' _ E). Qed.

(** An extractor that ends with the charging vector. *)
Lemma exact_charging v (f : VendorField) hs extra m m1 m2 F V : blank_vendor m -> reaches m m1 F V ->
  ((forall g, ms_Fields m2 g = or_else (ms_Fields m1 g) (if decide (g = f) then field_icid m1 f else "")) /\
   same_base m1 m2 /\ forall h, ~ extra h -> ms_VendorHeaders m2 !! h = ms_VendorHeaders m1 !! h) ->
  (forall first, (forall g, ms_Fields m g = "") -> first = first_header m ->
    forall g, or_else (F g) (if decide (g = f) then field_icid m f else "") =
      if String.eqb (field_vendor g) v then or_else (first (field_headers g)) (field_icid m g) else "") ->
  (forall h, V h = match table_entry m hs h with Some v => Some v | None => ms_VendorHeaders m !! h end) ->
  exact v hs extra m m2.
Proof.
  intros [Hf Hv] [B HF HV] (Hf2 & Hb2 & Hh2) EF EV. split.
  - by eapply same_base_trans.
  - intros g. rewrite Hf2, HF, (field_icid_base m m1 f B). by apply (EF (first_header m) Hf).
  - intros h Hn. rewrite (Hh2 h Hn), HV, EV, Hv. by destruct (table_entry m hs h).
Qed.

Ltac solve_charging :=
  intros first Hf E g; rewrite <- ?E, ?or_else_assoc; clear E;
  destruct g; cbn [field_vendor]; rewrite ?Hf; reflexivity.

Lemma oracle_exact m : blank_vendor m ->
  exact "oracle" oracleHeaders charging_key m (extractOracleHeaders m).
Proof.
  intros Hb. unfold extractOracleHeaders. cbv zeta.
  eapply (exact_charging _ OracleUCID); [done| |apply oracle_charging_reaches| |]; [reach|solve_charging|done].
Qed.

Lemma huawei_exact m : blank_vendor m ->
  exact "huawei" huaweiHeaders (fun _ => False) m (extractHuaweiHeaders m).
Proof.
  intros Hb. unfold extractHuaweiHeaders. cbv zeta.
  match goal with |- context [huawei_charging ?x] =>
    destruct (huawei_charging_reaches x) as (A & B & C);
    eapply (exact_charging _ HuaweiSessionID _ _ _ x); [done|reach| |solve_charging|done]
  end.
  split_and!; [done..|]. intros h _. by rewrite C.
Qed.

(** *** The detected vendor is one of the list *)

Lemma if_elem (b : bool) (x y : string) (l : list string) : x ∈ l -> y ∈ l -> (if b then x else y) ∈ l.
Proof. by destruct b. Qed.

Lemma detectVendor_known m : detectVendor m ∈ known_vendors.
Proof.
  unfold detectVendor. cbv zeta.
  repeat (apply if_elem; [apply (bool_decide_unpack _); by vm_compute|]). apply (bool_decide_unpack _); by vm_compute.
Qed.

(** The table of headers collected for a vendor. *)
Definition vendor_table (v : string) : list string :=
  if String.eqb v "avaya" then ["sigma-uui-a"] ++ avayaHeaders
  else if String.eqb v "cisco" then ciscoHeaders
  else if String.eqb v "oracle" then oracleHeaders
  else if String.eqb v "genesys" then genesysHeaders
  else if String.eqb v "nice" then niceHeaders
  else if String.eqb v "asterisk" then asteriskHeaders
  else if String.eqb v "freeswitch" then freeswwitchHeaders
  else if String.eqb v "opensips" then opensipsHeaders
  else if String.eqb v "audiocodes" then audiocodesHeaders
  else if String.eqb v "ribbon" then ribbonHeaders
  else if String.eqb v "sansay" then sansayHeaders
  else if String.eqb v "huawei" then huaweiHeaders
  else if String.eqb v "microsoft" then microsoftHeaders
  else commonHeaders.

Lemma exact_weaken v hs (P Q : string -> Prop) m m' :
  (forall h, P h -> Q h) -> exact v hs P m m' -> exact v hs Q m m'.
Proof. intros HPQ [B HF HV]. split; [done..|]. intros h Hn. apply HV. auto. Qed.

Lemma vendor_exact m : ms_VendorType m ∈ known_vendors -> blank_vendor m -> ms_UUIHeader m = "" ->
  exact (ms_VendorType m) (vendor_table (ms_VendorType m)) charging_key m (extractVendorHeaders m).
Proof.
  intros Hv Hb Hu. unfold extractVendorHeaders. remember (ms_VendorType m) as v eqn:Ev. clear Ev.
  unfold known_vendors in Hv.
  repeat (apply elem_of_cons in Hv as [->|Hv]); [..|by apply elem_of_nil in Hv];
    lazymatch goal with
    | |- exact "oracle" _ _ _ _ => apply oracle_exact, Hb
    | |- exact "avaya" _ _ _ _ => apply (exact_weaken _ _ (fun _ => False)); [done|]; by apply avaya_exact
    | |- _ => apply (exact_weaken _ _ (fun _ => False)); [done|];
      first [ by apply cisco_exact | by apply genesys_exact | by apply nice_exact | by apply asterisk_exact
            | by apply freeswitch_exact | by apply opensips_exact | by apply audiocodes_exact
            | by apply ribbon_exact | by apply sansay_exact | by apply huawei_exact
            | by apply microsoft_exact | by apply generic_exact ]
    end.
Qed.

(** *** The X- headers leave the vendor's part alone *)

Definition vendor_part m :=
  (ms_VendorType m, ms_VendorHeaders m, ms_UCIDHeaders m, ms_Fields m, ms_Headers m).

Lemma put_x_part name value m : vendor_part (put_x name value m) = vendor_part m.
Proof. by destruct m. Qed.

Lemma foldl_part {B} (f : SIPMessage -> B -> SIPMessage) l m :
  (forall m b, vendor_part (f m b) = vendor_part m) -> vendor_part (foldl f m l) = vendor_part m.
Proof. intros Hf. revert m. induction l as [|b l IH]; intros m; cbn; [done|]. by rewrite IH, Hf. Qed.

Lemma take_x_header_part m kv : vendor_part (take_x_header m kv) = vendor_part m.
Proof. unfold take_x_header. destruct kv. case_match; [apply put_x_part|done]. Qed.

Lemma take_enterprise_part m h : vendor_part (take_enterprise m h) = vendor_part m.
Proof. unfold take_enterprise. repeat case_match; try done. apply put_x_part. Qed.

Lemma extractUUI_part m : vendor_part (extractUUIAndXHeaders m) = vendor_part m.
Proof.
  unfold extractUUIAndXHeaders. cbv zeta.
  set (m1 := match ms_XHeaders m with None => _ | Some _ => m end).
  assert (E1 : vendor_part m1 = vendor_part m) by (subst m1; destruct m; cbn; by case_match).
  set (m2 := if String.eqb _ "" then m1 else _).
  assert (E2 : vendor_part m2 = vendor_part m).
  { subst m2. case_match; [done|]. rewrite put_x_part, <- E1. by destruct m1. }
  set (m3 := foldl take_x_header m2 _).
  assert (E3 : vendor_part m3 = vendor_part m).
  { subst m3. rewrite foldl_part; [done|apply take_x_header_part]. }
  case_match; [|done]. rewrite foldl_part; [done|apply take_enterprise_part].
Qed.

(** *** All of it *)

Definition detected m : string := detectVendor (m <| ms_UserAgent := getHeaderValue m "user-agent" |>).

Lemma detectVendor_ext m m' : ms_UserAgent m' = ms_UserAgent m -> ms_Headers m' = ms_Headers m ->
  detectVendor m' = detectVendor m.
Proof.
  intros E1 E2. unfold detectVendor. cbv zeta. rewrite E1.
  assert (E : has_header m' = has_header m) by (unfold has_header, getHeaderValue; by rewrite E2).
  assert (E' : getHeaderValue m' = getHeaderValue m) by (unfold getHeaderValue; by rewrite E2).
  by rewrite E, E'.
Qed.

Lemma extract_exact m : unextracted m ->
  let m' := extractVendorInformation m in
  ms_VendorType m' = detected m /\ ms_Headers m' = ms_Headers m /\
  (forall g, ms_Fields m' g = if String.eqb (field_vendor g) (detected m) then field_value m g else "") /\
  forall h, ~ charging_key h -> ms_VendorHeaders m' !! h = table_entry m (vendor_table (detected m)) h.
Proof.
  intros (Hh & _ & Hu & _ & Hf) m'. subst m'. unfold extractVendorInformation. cbv zeta.
  set (m0 := (m <| ms_VendorHeaders := ∅ |> <| ms_UCIDHeaders := [] |>)).
  set (m1 := m0 <| ms_UserAgent := getHeaderValue m0 "user-agent" |>).
  set (m2 := m1 <| ms_VendorType := detectVendor m1 |>).
  assert (Ev : ms_VendorType m2 = detected m).
  { subst m2 m1 m0. unfold detected. destruct m; cbn. by apply detectVendor_ext. }
  assert (E2 : ms_Headers m2 = ms_Headers m) by (subst m2 m1 m0; by destruct m).
  assert (Hb : blank_vendor m2) by (subst m2 m1 m0; split; [intros g; rewrite <- (Hf g)|]; by destruct m).
  assert (Hu2 : ms_UUIHeader m2 = "") by (rewrite <- Hu; subst m2 m1 m0; by destruct m).
  clearbody m2. destruct (vendor_exact m2) as [(B1 & B2 & _) HF HV]; [|done..|].
  { rewrite Ev. apply detectVendor_known. }
  pose proof (extractUUI_part (extractVendorHeaders m2)) as E. unfold vendor_part in E.
  injection E as -> -> _ -> ->. rewrite B1, B2, Ev in *. split_and!; [done..| |].
  - intros g. rewrite HF. unfold field_value, field_icid.
    by rewrite (first_header_ext m m2 _ E2), (getHeaderValue_ext m m2 _ E2).
  - intros h Hn. rewrite (HV h Hn). by apply table_entry_ext.
Qed.
End vendors_exact.

(** ** What is stored *)

Section stored.
Context `{Unicode} `{!GoMapRange string}.
Implicit Types (m : SIPMessage) (meta : gmap string string).

Lemma meta_set_ne k v meta k' : k <> k' -> meta_set k v meta !! k' = meta !! k'.
Proof. intros Hk. unfold meta_set. case_match; [done|]. by rewrite lookup_insert_ne. Qed.

Lemma meta_set_eq k v meta : v <> "" -> meta_set k v meta !! k = Some v.
Proof. intros Hv. unfold meta_set. destruct (String.eqb_spec v ""); [done|]. by rewrite lookup_insert_eq. Qed.

(** A loop that only writes keys with the prefix sip_. *)
Lemma foldl_sip {B} (f : gmap string string -> B -> gmap string string) l meta k :
  (forall meta b, f meta b !! k = meta !! k) -> foldl f meta l !! k = meta !! k.
Proof. intros Hf. revert meta. induction l as [|b l IH]; intros meta; cbn; [done|]. by rewrite IH, Hf. Qed.

Lemma normalize_key_prefix name : has_prefix (normalize_key name) "sip_" = true.
Proof. apply has_prefix_spec. unfold normalize_key. eauto. Qed.

Lemma store_fields_ne m l meta k : k ∉ l.*2 -> foldl (store_field m) meta l !! k = meta !! k.
Proof.
  revert meta. induction l as [|[f k'] l IH]; intros meta Hk; cbn; [done|]. cbn in Hk.
  rewrite IH by set_solver. unfold store_field. cbn. apply meta_set_ne. set_solver.
Qed.

Lemma store_fields_eq m l meta f k : NoDup l.*2 -> (f, k) ∈ l -> ms_Fields m f <> "" ->
  foldl (store_field m) meta l !! k = Some (ms_Fields m f).
Proof.
  revert meta. induction l as [|[f' k'] l IH]; intros meta; [by intros _ ?%elem_of_nil|].
  cbn [fmap list_fmap foldl snd]. rewrite NoDup_cons. intros [Hk Hl] [[= -> ->]|Hin]%elem_of_cons Hf.
  - rewrite store_fields_ne by done. by apply meta_set_eq.
  - by apply IH.
Qed.

Lemma stored_fields_NoDup : NoDup stored_fields.*2.
Proof. apply (bool_decide_unpack _). by vm_compute. Qed.

Lemma stored_fields_sip : Forall (fun fk => has_prefix fk.2 "sip_" = true) stored_fields.
Proof. apply (bool_decide_unpack _). by vm_compute. Qed.

Lemma not_sip_ne (k k' : string) : has_prefix k' "sip_" = true -> has_prefix k "sip_" = false -> k' <> k.
Proof. congruence. Qed.

(** Keys of other origin are not touched. *)
Lemma stored_metadata_other m meta k : has_prefix k "sip_" = false -> stored_metadata m meta !! k = meta !! k.
Proof.
  intros Hk. assert (N : forall k', has_prefix k' "sip_" = true -> k' <> k) by (intros; by apply not_sip_ne).
  unfold stored_metadata. cbv zeta. rewrite store_fields_ne.
  2:{ intros Hin. apply list_elem_of_fmap in Hin as ([f k'] & -> & Hin).
      pose proof stored_fields_sip as S. rewrite Forall_forall in S. specialize (S _ Hin). cbn in *. congruence. }
  assert (E : forall meta', (if bool_decide (ms_UCIDHeaders m = []) then meta'
      else <["sip_ucid" := join ";" (ms_UCIDHeaders m)]> meta') !! k = meta' !! k).
  { intros meta'. case_match; [done|]. rewrite lookup_insert_ne; [done|]. by apply N. }
  assert (EX : forall meta' l, foldl store_x meta' l !! k = meta' !! k).
  { intros meta' l. apply foldl_sip. intros meta'' [n v]. unfold store_x.
    rewrite lookup_insert_ne; [done|]. apply N, normalize_key_prefix. }
  assert (EV : forall meta' l, foldl store_vendor meta' l !! k = meta' !! k).
  { intros meta' l. apply foldl_sip. intros meta'' [n v]. unfold store_vendor.
    destruct (meta'' !! _); [done|].
    rewrite lookup_insert_ne; [done|]. apply N, normalize_key_prefix. }
  by rewrite E, meta_set_ne, EV, EX, !meta_set_ne by (by apply N).
Qed.

Lemma stored_metadata_type m meta : ms_VendorType m <> "" ->
  stored_metadata m meta !! "sip_vendor_type" = Some (ms_VendorType m).
Proof.
  intros Hv. unfold stored_metadata. cbv zeta.
  rewrite store_fields_ne by (apply (bool_decide_unpack _); by vm_compute).
  case_match; [|rewrite lookup_insert_ne by done]; by apply meta_set_eq.
Qed.

Lemma stored_metadata_field m meta f k : (f, k) ∈ stored_fields -> ms_Fields m f <> "" ->
  stored_metadata m meta !! k = Some (ms_Fields m f).
Proof. intros Hin Hf. unfold stored_metadata. cbv zeta. apply store_fields_eq; [apply stored_fields_NoDup|done..]. Qed.

Lemma detected_nonempty m : detected m <> "".
Proof.
  intros E. assert (K : detected m ∈ known_vendors) by apply detectVendor_known.
  rewrite E in K. revert K. apply (bool_decide_unpack _). by vm_compute.
Qed.
End stored.

(** ** The properties *)

(** The extraction of vendor data from a request is exact.  The vendor is one
    of the known ones; a field of the message has a value only if it belongs to
    the detected vendor, and then it is the value of the first of the field's
    headers that is present, or the charging identifier where the code falls
    back on it; the collected headers are the headers of the vendor's table
    that are present, with their values, beside the entries of the charging
    vector. *)
Theorem vendor_extraction_exact `{Unicode} `{!GoMapRange string} (req : SipgoMessage) :
  let m := wrapRequest req in
  let m' := extractVendorInformation m in
  ms_VendorType m' ∈ known_vendors /\
  (forall f, ms_Fields m' f = if String.eqb (field_vendor f) (ms_VendorType m') then field_value m f else "") /\
  (forall h v, (forall k, h <> "pcv_" +:+ k) -> h <> "icid-value" ->
    ms_VendorHeaders m' !! h = Some v <->
    h ∈ vendor_table (ms_VendorType m') /\ getHeaderValue m h = v /\ v <> "").
Proof.
  intros m m'. subst m m'.
  destruct (extract_exact (wrapRequest req) (wrap_request_unextracted req)) as (Ev & _ & HF & HV).
  rewrite Ev. split_and!; [apply detectVendor_known|apply HF|]. intros h v H1 H2. rewrite HV.
  2:{ intros [[k ->]| ->]; [by apply (H1 k)|done]. }
  unfold table_entry, has_header. destruct (bool_decide_reflect (h ∈ vendor_table (detected (wrapRequest req)))) as [Hin|Hin].
  - destruct (String.eqb_spec (getHeaderValue (wrapRequest req) h) ""); cbn; naive_solver.
  - naive_solver.
Qed.

(** The identifiers of the detected vendor end up with the session.  After the
    headers of a request are stored, the session's extended metadata maps the
    key of each vendor field that has a value to that value, names the vendor,
    and still has every entry whose key does not start with sip_; nothing else
    of the session changes. *)
Theorem vendor_identifiers_recorded `{Unicode} `{!GoMapRange string} (req : SipgoMessage)
    (s : RecordingSession) :
  let m := wrapRequest req in
  exists meta,
    storeUUIAndXHeadersInSession (Some s) (Some (extractVendorInformation m)) =
      Some (s <| rs_ExtendedMetadata := Some meta |>) /\
    (forall f k, (f, k) ∈ stored_fields -> field_vendor f = detected m -> field_value m f <> "" ->
       meta !! k = Some (field_value m f)) /\
    meta !! "sip_vendor_type" = Some (detected m) /\
    (forall k, has_prefix k "sip_" = false -> meta !! k = default ∅ (rs_ExtendedMetadata s) !! k).
Proof.
  intros m. subst m.
  destruct (extract_exact (wrapRequest req) (wrap_request_unextracted req)) as (Ev & _ & HF & _).
  eexists. split; [reflexivity|]. split_and!.
  - intros f k Hin Hd Hv. specialize (HF f). rewrite Hd, String.eqb_refl in HF. rewrite <- HF in *.
    by apply stored_metadata_field.
  - rewrite <- Ev. apply stored_metadata_type. rewrite Ev. apply detected_nonempty.
  - intros k Hk. by apply stored_metadata_other.
Qed.

Definition avaya_request : SipgoMessage :=
  mkSipgoMessage (SipgoRequest "INVITE" "sip:srs@example.com" "SIP/2.0")
    [("User-To-User", "04FA080018803B69810C6D7C616263;encoding=hex")]
    "" (Some "call-1") (Some "1") None (Some "1 INVITE") None "192.0.2.1:5060" "UDP" "example.com" 5060.

(** The Avaya user-to-user value is parsed before it is read: the identifiers
    come from the Avaya headers alone, whatever the request's User-to-User
    header holds.  For a request that identifies the call only by that header
    both stay empty, although parsing the value afterwards finds them. *)
Theorem avaya_uui_ignored :
  (forall `{Unicode} `{!GoMapRange string} (req : SipgoMessage),
    let m' := extractVendorInformation (wrapRequest req) in
    ms_VendorType m' = "avaya" ->
    ms_Fields m' AvayaUCID = first_header (wrapRequest req) ["x-avaya-ucid"; "x-ucid"] /\
    ms_Fields m' AvayaConversationID =
      first_header (wrapRequest req)
        ["x-avaya-interaction-id"; "x-avaya-conversation-id"; "x-avaya-sm-session-id"]) /\
  (let m' := @extractVendorInformation ascii_only (list_range string) (@wrapRequest ascii_only avaya_request) in
   ms_VendorType m' = "avaya" /\ ms_Fields m' AvayaUCID = "" /\ ms_Fields m' AvayaConversationID = "" /\
   ms_Fields (parseAvayaUUI m') AvayaUCID = "04FA080018803B69810C" /\
   ms_Fields (parseAvayaUUI m') AvayaConversationID = "abc").
Proof.
  split; [|by vm_compute]. intros U R req m' Hv. subst m'.
  destruct (extract_exact (wrapRequest req) (wrap_request_unextracted req)) as (Ev & _ & HF & _).
  rewrite Ev in Hv. rewrite !HF, Hv. cbn [field_vendor]. rewrite !String.eqb_refl.
  unfold field_value. cbn [field_headers field_icid]. by rewrite !or_else_empty_r.
Qed.

(** A user agent that calls itself a controller is taken for a NICE system,
    because the name contains the letters of NTR: this is so whenever no name
    tested earlier occurs in it. *)
Theorem controller_taken_for_nice `{Unicode} (m : SIPMessage) :
  contains (to_lower (ms_UserAgent m)) "controller" = true ->
  existsb (contains (to_lower (ms_UserAgent m)))
    ["avaya"; "aura"; "session manager"; "cisco"; "cube"; "ccm"; "cucm"; "oracle"; "acme packet"; "ocsbc";
     "esbc"; "genesys"; "pureconnect"; "purecloud"; "pureengage"; "gvp"; "interaction"; "inin"] = false ->
  detectVendor m = "nice".
Proof.
  intros Hc Hn. set (ua := to_lower (ms_UserAgent m)) in *.
  assert (Hntr : contains ua "ntr" = true).
  { apply contains_spec in Hc as (a & b & ->). apply contains_spec.
    exists (a +:+ "co"), ("oller" +:+ b). by rewrite !string_app_assoc. }
  unfold detectVendor. cbv zeta. fold ua. cbn [existsb] in Hn |- *.
  repeat match goal with
  | H : _ || _ = false |- _ => apply orb_false_iff in H as [? ?]
  end.
  repeat match goal with H : contains _ _ = false |- _ => rewrite H; clear H end.
  by rewrite Hntr, orb_true_r.
Qed.

Lemma controller_taken_for_nice_witness :
  detectVendor (H := ascii_only) (zero_SIPMessage <| ms_UserAgent := "Sansay VSXi Session Border Controller" |>) = "nice".
Proof. apply (@controller_taken_for_nice ascii_only); reflexivity. Defined.

(** ** What the extraction leaves alone *)

Section envelope.
Context `{Unicode} `{!GoMapRange string}.
Implicit Types (m : SIPMessage).

(** What the handlers read of a request. *)
Definition envelope m :=
  (ms_Method m, ms_Headers m, ms_Body m, ms_Request m, ms_Transaction m, ms_CallID m, ms_FromTag m, ms_ToTag m,
   ms_CSeq m, ms_ContentType m).

Lemma foldl_envelope {B} (f : SIPMessage -> B -> SIPMessage) l m :
  (forall m b, envelope (f m b) = envelope m) -> envelope (foldl f m l) = envelope m.
Proof. intros Hf. revert m. induction l as [|b l IH]; intros m; cbn; [done|]. by rewrite IH, Hf. Qed.

Lemma set_field_envelope f v m : envelope (set_field f v m) = envelope m.
Proof. by destruct m. Qed.

Lemma append_ucid_envelope v m : envelope (append_ucid v m) = envelope m.
Proof. by destruct m. Qed.

Lemma add_ucid_envelope m h : envelope (add_ucid m h) = envelope m.
Proof. unfold add_ucid. case_match; [apply append_ucid_envelope|done]. Qed.

Lemma put_vendor_header_envelope m h : envelope (put_vendor_header m h) = envelope m.
Proof. unfold put_vendor_header. case_match; [|done]. by destruct m. Qed.

Lemma collect_envelope l m : envelope (collect_headers l m) = envelope m.
Proof. apply foldl_envelope, put_vendor_header_envelope. Qed.

Lemma take_first_envelope f l m : envelope (take_first f l m) = envelope m.
Proof. unfold take_first. case_match; [done|apply set_field_envelope]. Qed.

Lemma take_first_ucid_envelope f l m : envelope (take_first_ucid f l m) = envelope m.
Proof. unfold take_first_ucid. case_match; [done|]. by rewrite append_ucid_envelope, set_field_envelope. Qed.

Lemma put_x_envelope name value m : envelope (put_x name value m) = envelope m.
Proof. by destruct m. Qed.

Lemma avaya_uui_envelope m : envelope (parseAvayaUUI m) = envelope m.
Proof.
  unfold parseAvayaUUI. case_match; [done|]. case_match; [done|]. set (m1 := if (_ && _)%bool then append_ucid _ _ else m).
  assert (E : envelope m1 = envelope m) by (subst m1; destruct (_ && _)%bool; [by rewrite append_ucid_envelope, set_field_envelope|done]).
  clearbody m1. repeat case_match; rewrite ?set_field_envelope; done.
Qed.

Lemma oracle_charging_envelope m : envelope (oracle_charging m) = envelope m.
Proof.
  unfold oracle_charging. case_match; [done|]. set (m1 := foldl put_pcv m _).
  assert (E : envelope m1 = envelope m) by (apply foldl_envelope; intros m' kv; by destruct m').
  clearbody m1. repeat case_match; try done; rewrite ?append_ucid_envelope, ?set_field_envelope, <- E; by destruct m1.
Qed.

Lemma huawei_charging_envelope m : envelope (huawei_charging m) = envelope m.
Proof. unfold huawei_charging. repeat case_match; rewrite ?append_ucid_envelope, ?set_field_envelope; done. Qed.

Lemma vendor_headers_envelope m : envelope (extractVendorHeaders m) = envelope m.
Proof.
  unfold extractVendorHeaders. repeat case_match;
    unfold extractAvayaHeaders, extractCiscoHeaders, extractOracleHeaders, extractGenesysHeaders, extractNICEHeaders,
      extractAsteriskHeaders, extractFreeSWITCHHeaders, extractOpenSIPSHeaders, extractAudioCodesHeaders, extractRibbonHeaders,
      extractSansayHeaders, extractHuaweiHeaders, extractMicrosoftHeaders, extractGenericHeaders; cbv zeta;
    rewrite ?avaya_uui_envelope, ?oracle_charging_envelope, ?huawei_charging_envelope, ?put_vendor_header_envelope,
      ?add_ucid_envelope, ?take_first_envelope, ?take_first_ucid_envelope, ?take_first_envelope, ?take_first_ucid_envelope,
      ?take_first_envelope, ?(foldl_envelope add_ucid _ _ add_ucid_envelope), ?collect_envelope; done.
Qed.

Lemma x_headers_envelope m : envelope (extractUUIAndXHeaders m) = envelope m.
Proof.
  unfold extractUUIAndXHeaders. cbv zeta.
  set (m1 := match ms_XHeaders m with None => _ | Some _ => m end).
  assert (E1 : envelope m1 = envelope m) by (subst m1; destruct m; cbn; by case_match). clearbody m1.
  set (m2 := if String.eqb _ "" then m1 else _).
  assert (E2 : envelope m2 = envelope m) by (subst m2; case_match; [done|]; rewrite put_x_envelope, <- E1; by destruct m1).
  clearbody m2. set (m3 := foldl take_x_header m2 _).
  assert (E3 : envelope m3 = envelope m).
  { subst m3. rewrite foldl_envelope; [done|]. intros m' kv. unfold take_x_header. destruct kv. case_match; [apply put_x_envelope|done]. }
  case_match; [|done]. rewrite foldl_envelope; [done|]. intros m' h. unfold take_enterprise. repeat case_match; rewrite ?put_x_envelope; done.
Qed.

(** The extraction of vendor data changes nothing that the handlers read. *)
Lemma extraction_envelope m : envelope (extractVendorInformation m) = envelope m.
Proof. unfold extractVendorInformation. cbv zeta. rewrite x_headers_envelope, vendor_headers_envelope. by destruct m. Qed.
End envelope.
