(* ===== verification/SipSession.v ===== *)
(** * Sessions of the SIP server

    How pkg/sip/custom_server.go turns rs-metadata into a recording session and
    back: [parseSiprecMetadata], [createRecordingSession] with the XML
    extensions of the vendors, [updateRecordingSession] for re-INVITE and
    UPDATE, [buildStreamMetadata] and the metadata of [generateSiprecResponse].

    [encoding/xml] is a parameter (a decoder from bytes to the raw document, a
    marshaller), and so are the clock, the UUIDs and the layout of a UTC
    timestamp. *)

From S2P Require Import Prelude GoStrings GoText Metadata Session Validation Fill SipMessage Vendor.
From Stdlib Require Import Ascii String.
#[local] Open Scope string_scope.
#[local] Open Scope list_scope.
#[local] Open Scope Z_scope.

(** ** Participants

    [clock k] is the [k]-th reading of the clock; the functions return the
    number of the next reading. *)

Definition comm_id (now : Time) (a : Aor) : CommunicationID :=
  zero_CommunicationID <| ci_Type := if has_prefix (aor_Value a) "tel:" then "tel" else "sip" |>
    <| ci_Value := aor_Value a |> <| ci_DisplayName := aor_Display a |>
    <| ci_Priority := aor_Priority a |> <| ci_ValidFrom := now |>.

Fixpoint comm_ids (clock : nat -> Time) (k : nat) (l : list Aor) : list CommunicationID :=
  match l with
  | [] => []
  | a :: l => comm_id (clock k) a :: comm_ids clock (S k) l
  end.

Definition session_participant (clock : nat -> Time) (k : nat) (m : RSMetadata) (id : string)
    (p : RSParticipant) : Participant :=
  let synthesized := ParticipantSynthesized m (rp_ID p) in
  zero_Participant <| pt_ID := id |> <| pt_Name := rp_Name p |> <| pt_DisplayName := rp_DisplayName p |>
    <| pt_Role := rp_Role p |> <| pt_JoinTime := clock k |>
    <| pt_RecordingAware := negb synthesized |> <| pt_ConsentObtained := negb synthesized |>
    <| pt_CommunicationIDs := comm_ids clock (S k) (rp_Aor p) |>.

Definition after_participant (k : nat) (p : RSParticipant) : nat := (S k + List.length (rp_Aor p))%nat.

Definition maxParticipants : nat := 100.

(** The loop of [createRecordingSession]; [n] participants are there already. *)
Fixpoint create_participants (clock : nat -> Time) (k n : nat) (m : RSMetadata) (l : list RSParticipant)
    : list Participant * nat :=
  match l with
  | [] => ([], k)
  | p :: l =>
    if (maxParticipants <=? n)%nat then ([], k) else
    let id := or_else (trim_space (rp_ID p)) (trim_space (rp_LegacyID p)) in
    let q := session_participant clock k m id p in
    let '(qs, k) := create_participants clock (after_participant k p) (S n) m l in
    (q :: qs, k)
  end.

(** The loop of [updateRecordingSession]. *)
Fixpoint rebuild_participants (clock : nat -> Time) (k : nat) (m : RSMetadata) (l : list RSParticipant)
    : list Participant :=
  match l with
  | [] => []
  | p :: l => session_participant clock k m (rp_ID p) p ::
              rebuild_participants clock (after_participant k p) m l
  end.

(** ** XML extensions *)

Definition extension_namespace `{Unicode} (space : string) : string :=
  if String.eqb space "" then "" else
  let ns := to_lower space in
  if contains ns "nice" then "nice_"
  else if contains ns "cisco" then "cisco_"
  else if contains ns "oracle" then "oracle_"
  else if contains ns "avaya" then "avaya_"
  else if contains ns "genesys" then "genesys_"
  else let lastPart := List.last (split_on "/"%char ns) "" in
       if (0 <? String.length lastPart)%nat && (String.length lastPart <=? 20)%nat
       then to_lower lastPart +:+ "_" else "".

Definition formatExtensionKey `{Unicode} (prefix : string) (name : XMLName) : string :=
  let localName := trim_space (xn_Local name) in
  if String.eqb localName "" then "" else
  "ext_" +:+ prefix +:+ "_" +:+ extension_namespace (xn_Space name) +:+ to_lower localName.

(** The key of the value a NICE element carries, by its local name. *)
Definition nice_key (localName : string) : option string :=
  let has := contains localName in
  if has "interaction" && has "id" then Some "nice_interaction_id"
  else if has "session" && has "id" then Some "nice_session_id"
  else if has "recording" && has "id" then Some "nice_recording_id"
  else if has "contact" && has "id" then Some "nice_contact_id"
  else if has "agent" && has "id" then Some "nice_agent_id"
  else if has "call" && has "id" then Some "nice_call_id"
  else if has "ucid" then Some "nice_ucid"
  else None.

Definition extractNICEExtensionData `{Unicode} (s : RecordingSession) (ext : XMLExtension)
    : RecordingSession :=
  let localName := to_lower (xn_Local (xe_XMLName ext)) in
  let ns := to_lower (xn_Space (xe_XMLName ext)) in
  let isNICE := contains ns "nice" || has_prefix localName "nice" || has_prefix localName "ntr" ||
                has_prefix localName "incontact" || has_prefix localName "cxone" in
  let innerContent := trim_space (xe_InnerXML ext) in
  if negb isNICE || String.eqb innerContent "" then s else
  match nice_key localName with
  | Some key => ext_set key innerContent s
  | None => s
  end.

Definition extractOracleExtensionData `{Unicode} (s : RecordingSession) (ext : XMLExtension)
    : RecordingSession :=
  let localName := to_lower (xn_Local (xe_XMLName ext)) in
  let ns := to_lower (xn_Space (xe_XMLName ext)) in
  let isOracle := contains ns "acmepacket" || contains ns "oracle" || has_prefix localName "apkt" ||
                  contains (xe_InnerXML ext) "acmepacket.com/siprec/extensiondata" in
  let innerContent := trim_space (xe_InnerXML ext) in
  if negb isOracle || String.eqb innerContent "" then s else
  let says_true := contains innerContent ">true<" || contains innerContent ">True<" in
  let s := if contains innerContent "ucid" then
             match ExtractOracleExtensions [ext] with
             | Some d => if String.eqb (ox_UCID d) "" then s else ext_set "sip_oracle_ucid" (ox_UCID d) s
             | None => s
             end
           else s in
  let s := if contains innerContent "callerOrig"
           then ext_set "oracle_caller_orig" (if says_true then "true" else "false") s else s in
  if contains innerContent "callingParty" && says_true
  then ext_set "oracle_calling_party" "true" s else s.

(** One extension element; the streams and groups are not searched for Oracle
    data. *)
Definition process_extension `{Unicode} (oracle : bool) (prefix : string) (s : RecordingSession)
    (ext : XMLExtension) : RecordingSession :=
  let key := formatExtensionKey prefix (xe_XMLName ext) in
  if String.eqb key "" || String.eqb (xe_InnerXML ext) "" then s else
  let s := ext_set key (trim_space (xe_InnerXML ext)) s in
  let s := extractNICEExtensionData s ext in
  if oracle then extractOracleExtensionData s ext else s.

Definition process_elements `{Unicode} {A} (oracle : bool) (kind : string) (extensions : A -> list XMLExtension)
    (l : list A) (s : RecordingSession) : RecordingSession :=
  foldl (fun s '(i, x) =>
    foldl (process_extension oracle (kind +:+ "_" +:+ itoa (Z.of_nat i))) s (extensions x))
    s (imap pair l).

Definition process_oracle_session `{Unicode} (m : RSMetadata) (s : RecordingSession) : RecordingSession :=
  match GetOracleSessionExtensions m with
  | Some d =>
    let s := if String.eqb (ox_UCID d) "" then s else ext_set "sip_oracle_ucid" (ox_UCID d) s in
    if ox_CallerOrig d then ext_set "oracle_caller_orig" "true" s else s
  | None => s
  end.

Definition process_oracle_participants `{Unicode} `{!GoMapRange string} (m : RSMetadata)
    (s : RecordingSession) : RecordingSession :=
  match GetOracleParticipantExtensions m with
  | Some exts =>
    match List.find (fun e => ox_CallingParty e.2) (map_range 5%nat exts) with
    | Some (partID, _) => ext_set "oracle_calling_party_id" partID s
    | None => s
    end
  | None => s
  end.

Definition processXMLExtensions `{Unicode} `{!GoMapRange string} (s : RecordingSession) (m : RSMetadata)
    : RecordingSession :=
  let s := s <| rs_ExtendedMetadata := Some (default ∅ (rs_ExtendedMetadata s)) |> in
  let s := process_oracle_participants m (process_oracle_session m s) in
  let s := process_elements true "session" ss_Extensions (md_Sessions m) s in
  let s := process_elements true "recsession" rr_Extensions (md_RecordingSessions m) s in
  let s := process_elements true "participant" rp_Extensions (md_Participants m) s in
  let s := process_elements false "stream" sm_Extensions (md_Streams m) s in
  process_elements false "group" gr_Extensions (md_Group m) s.

(** ** Creating a session *)

Definition create_policy `{Unicode} `{Rfc3339} (now : Time) (p : PolicyUpdate) (s : RecordingSession)
    : RecordingSession :=
  let raw := trim_space (pu_Timestamp p) in
  let reported := if String.eqb raw "" then now else
                  match parse_rfc3339 raw with inl t => t | inr _ => now end in
  let status := to_lower (trim_space (pu_Status p)) in
  let s := s <| rs_PolicyStates :=
    Some (<[pu_PolicyID p := mkPolicyAckStatus status (pu_Acknowledged p) reported raw]>
            (default ∅ (rs_PolicyStates s))) |> in
  let key := "policy_" +:+ pu_PolicyID p +:+ "_status" in
  let s := ext_set (key +:+ "_ack") (format_bool (pu_Acknowledged p)) (ext_set key status s) in
  if String.eqb raw "" then s else ext_set (key +:+ "_timestamp") raw s.

Fixpoint create_policies `{Unicode} `{Rfc3339} (clock : nat -> Time) (k : nat) (l : list PolicyUpdate)
    (s : RecordingSession) : RecordingSession :=
  match l with
  | [] => s
  | p :: l => create_policies clock (S k) l (create_policy (clock k) p s)
  end.

Definition ext_unless_empty (k v : string) (s : RecordingSession) : RecordingSession :=
  if String.eqb v "" then s else ext_set k v s.

(** The failover id of the metadata, or a new one. *)
Definition set_failover (fresh : string) (a : RSAssociation) (s : RecordingSession) : RecordingSession :=
  if String.eqb (ra_FixedID a) "" then
    ext_set "failover_id" fresh (s <| rs_FailoverID := fresh |>)
  else ext_set "failover_id" (ra_FixedID a) (ext_set "fixed_id" (ra_FixedID a)
         (s <| rs_FailoverID := ra_FixedID a |>)).

Definition is_recovery `{Unicode} (s : RecordingSession) : bool :=
  equal_fold (rs_RecordingState s) "recovering" || equal_fold (rs_StateReason s) "failover" ||
  contains (to_lower (rs_StateReasonRef s)) "failover".

Definition recover_marks (timestamp : string) (m : RSMetadata) (s : RecordingSession) : RecordingSession :=
  let s := ProcessStreamRecovery s m in
  let s := ext_set "recovery_timestamp" timestamp (ext_set "recovery_mode" "true" s) in
  let replaced := ra_SessionID (md_SessionRecordingAssoc m) in
  if negb (String.eqb replaced "") && negb (String.eqb replaced (rs_ID s))
  then ext_set "replaces_session_id" replaced (s <| rs_ReplacesSessionID := replaced |>) else s.

Definition new_session (clock : nat -> Time) (callbacks : list string) (sipCallID : string) (m : RSMetadata)
    : RecordingSession :=
  zero_RecordingSession <| rs_ID := md_SessionID m |> <| rs_SIPID := sipCallID |>
    <| rs_AssociatedTime := clock 0%nat |> <| rs_SequenceNumber := md_Sequence m |>
    <| rs_RecordingState := md_State m |> <| rs_Direction := md_Direction m |>
    <| rs_StartTime := clock 1%nat |> <| rs_CreatedAt := clock 2%nat |> <| rs_UpdatedAt := clock 3%nat |>
    <| rs_IsValid := true |> <| rs_ExtendedMetadata := Some ∅ |> <| rs_SessionGroupRoles := Some ∅ |>
    <| rs_PolicyStates := Some ∅ |> <| rs_Callbacks := callbacks |>.

(** [callbacks] are the configured callback URLs, none without a handler;
    [fresh] is the generated UUID and [format_utc] the layout of the recovery
    timestamp. *)
Definition createRecordingSession `{Unicode} `{Rfc3339} `{!GoMapRange string} (clock : nat -> Time)
    (format_utc : Time -> string) (fresh : string) (callbacks : list string) (sipCallID : string)
    (m : RSMetadata) : RecordingSession :=
  let s := new_session clock callbacks sipCallID m in
  let s := match md_FilledFields m with
           | [] => s
           | l => ext_set "metadata_filled_fields" (join "," l) s
           end in
  let s := update_expires m (update_reason_ref m (update_reason m s)) in
  let '(ps, k) := create_participants clock 4 0 m (md_Participants m) in
  let s := s <| rs_Participants := ps |> <| rs_MediaStreamTypes := map sm_Type (md_Streams m) |> in
  let s := update_groups m s in
  let s := create_policies clock k (md_PolicyUpdates m) (s <| rs_PolicyUpdates := md_PolicyUpdates m |>) in
  let s := s <| rs_RecordingState := or_else (rs_RecordingState s) "active" |>
             <| rs_Direction := or_else (rs_Direction s) "unknown" |> in
  let s := ext_unless_empty "media_label" (md_MediaLabel m) s in
  let s := ext_unless_empty "associated_call_id" (ra_CallID (md_SessionRecordingAssoc m)) s in
  let s := ext_unless_empty "group" (ra_Group (md_SessionRecordingAssoc m)) s in
  let s := set_failover fresh (md_SessionRecordingAssoc m) s in
  let s := if is_recovery s
           then recover_marks (format_utc (clock (k + List.length (md_PolicyUpdates m))%nat)) m s else s in
  processXMLExtensions s m.

(** ** Updating a session *)

(** The provenance of synthesized values, a comma separated list without
    repetitions. *)
Definition update_filled (m : RSMetadata) (s : RecordingSession) : RecordingSession :=
  match md_FilledFields m with
  | [] => s
  | l =>
    let old := default "" (default ∅ (rs_ExtendedMetadata s) !! "metadata_filled_fields") in
    let fields := foldl (fun fields field => add_new field fields) (split_on ","%char old) l in
    ext_set "metadata_filled_fields" (trim_char ","%char (join "," fields)) s
  end.

Definition update_state `{Rfc3339} (clock : nat -> Time) (m : RSMetadata) (s : RecordingSession)
    : RecordingSession * nat :=
  if String.eqb (md_State m) "" then (s, 1%nat) else
  let oldState := rs_RecordingState s in
  let s := s <| rs_RecordingState := md_State m |> in
  if String.eqb (md_State m) "terminated" then
    (ext_unless_empty "termination_reason" (md_Reason m) (s <| rs_EndTime := clock 1%nat |>), 2%nat)
  else if String.eqb (md_State m) "paused" then
    (ext_set "pause_time" (format_rfc3339 (clock 1%nat)) s, 2%nat)
  else if String.eqb (md_State m) "active" && String.eqb oldState "paused" then
    (ext_set "resume_time" (format_rfc3339 (clock 1%nat)) s, 2%nat)
  else (s, 1%nat).

Definition updateRecordingSession `{Rfc3339} (clock : nat -> Time) (s : RecordingSession) (m : RSMetadata)
    : RecordingSession :=
  let s := s <| rs_ExtendedMetadata := Some (default ∅ (rs_ExtendedMetadata s)) |> in
  let s := update_filled m s in
  let s := if 0 <? md_Sequence m then s <| rs_SequenceNumber := md_Sequence m |> else s in
  let '(s, k) := update_state clock m (s <| rs_UpdatedAt := clock 0%nat |>) in
  let s := if String.eqb (md_Direction m) "" then s else s <| rs_Direction := md_Direction m |> in
  let s := match md_Participants m with
           | [] => s
           | l => s <| rs_Participants := rebuild_participants clock k m l |>
           end in
  let s := match md_Streams m with
           | [] => s
           | l => s <| rs_MediaStreamTypes := map sm_Type l |>
           end in
  let s := ext_unless_empty "reason" (md_Reason m) s in
  ext_unless_empty "reason_ref" (md_ReasonRef m) s.

(** ** Metadata of a stream *)

Definition buildStreamMetadata (streamLabel : string) (rsMeta : option RSMetadata)
    (session : option RecordingSession) : gmap string string :=
  let meta := {["stream_label" := streamLabel]} in
  let meta := match session with
              | Some s =>
                let meta := meta_set "session_id" (rs_ID s) meta in
                default ∅ (rs_ExtendedMetadata s) ∪ meta
              | None => meta
              end in
  match rsMeta ≫= fun m => ResolveStreamParticipant m streamLabel ≫= fun i => md_Participants m !! i with
  | None => meta
  | Some p =>
    let meta := meta_set "participant_name" (or_else (rp_DisplayName p) (rp_Name p)) meta in
    let meta := meta_set "participant_role" (rp_Role p) meta in
    match rp_Aor p with
    | [] => meta
    | a :: _ => meta_set "participant_aor" (or_else (aor_Value a) (aor_URI a)) meta
    end
  end.

(** ** Parsing the metadata of a request *)

Definition CallingParticipantHeader : string := "X-Calling-Participant".

(** The one value of the header, under whatever spelling its name is stored;
    conflicting values are not chosen from. *)
Definition calling_step `{Unicode} (acc : string * nat) (kv : string * list string) : string * nat :=
  if equal_fold kv.1 CallingParticipantHeader
  then (match kv.2 with v :: _ => v | [] => acc.1 end, (acc.2 + List.length kv.2)%nat)
  else acc.

Definition calling_participant `{Unicode} `{!GoMapRange string} (m : SIPMessage) : string :=
  let '(value, count) := foldl calling_step ("", 0%nat) (map_range 6%nat (ms_Headers m)) in
  if (count =? 1)%nat then value else "".

Record SipConfig := mkSipConfig {
  sc_AllowMissingParticipants : bool;
  sc_FillMissingMetadata : bool
}.

Inductive parse_error :=
  | XmlError (err : string)
  | ValidationFailure (errors : list verror).

(** Values missing in the document, completed from the request when the server
    is configured to. *)
Definition complete_metadata `{Unicode} `{SipLibrary} `{!GoMapRange string} (cfg : option SipConfig)
    (message : SIPMessage) (existing : option RecordingSession) (metadata : RSMetadata) : RSMetadata :=
  let existingID := match existing with Some s => rs_ID s | None => "" end in
  match cfg with
  | Some c => if sc_FillMissingMetadata c then
      default metadata (FillMissing (Some metadata)
        (mkFillContext (ms_CallID message) existingID (calling_participant message)))
      else metadata
  | None => metadata
  end.

Definition allow_missing (cfg : option SipConfig) : bool :=
  match cfg with Some c => sc_AllowMissingParticipants c | None => false end.

(** [decode] is the XML decoder; decoding a document ends with [Normalize]. *)
Definition parseSiprecMetadata `{Unicode} `{Rfc3339} `{SipLibrary} `{!GoMapRange string}
    (decode : string -> RSMetadata + string) (cfg : option SipConfig) (rsMetadata : string)
    (message : SIPMessage) (existing : option RecordingSession) : RSMetadata + parse_error :=
  match decode rsMetadata with
  | inr err => inr (XmlError err)
  | inl raw =>
    let metadata := complete_metadata cfg message existing (Normalize raw) in
    let validation := ValidateSiprecMessageWithOptions (Some metadata) (mkValidationOptions (allow_missing cfg)) in
    match vr_Errors validation with
    | [] => inl metadata
    | errors => inr (ValidationFailure errors)
    end
  end.

(** ** The response *)

Definition response_labels (s : RecordingSession) : list string :=
  match rs_SDPStreamLabels s with
  | [] => imap (fun i _ => itoa (Z.of_nat i + 1)) (rs_MediaStreamTypes s)
  | l => l
  end.

Definition zero_Stream : Stream := mkStream "" "" "" "" "" "" "" "" "" "" "" [] [] [].

Definition response_stream (s : RecordingSession) (i : nat) (label : string) : Stream :=
  zero_Stream <| sm_Label := label |> <| sm_StreamID := "stream-" +:+ itoa (Z.of_nat i + 1) |>
    <| sm_Type := default "" (rs_MediaStreamTypes s !! i) |> <| sm_Mode := "separate" |>.

Definition response_metadata `{Unicode} `{Rfc3339} (s : RecordingSession) : RSMetadata :=
  zero_RSMetadata <| md_SessionID := rs_ID s |> <| md_State := or_else (rs_RecordingState s) "active" |>
    <| md_Sequence := i64 (rs_SequenceNumber s + 1) |> <| md_Direction := rs_Direction s |>
    <| md_Reason := rs_StateReason s |> <| md_ReasonRef := rs_StateReasonRef s |>
    <| md_Expires := if is_zero_time (rs_StateExpires s) then "" else format_rfc3339 (rs_StateExpires s) |>
    <| md_Participants := map failover_participant (rs_Participants s) |>
    <| md_SessionGroupAssociations := rs_SessionGroups s |> <| md_PolicyUpdates := rs_PolicyUpdates s |>
    <| md_SessionRecordingAssoc :=
         zero_RSAssociation <| ra_SessionID := rs_ID s |> <| ra_CallID := rs_SIPID s |> |>
    <| md_Streams := imap (response_stream s) (response_labels s) |>.

(** [id] is the boundary's UUID; the session is only changed when the document
    could be marshalled. *)
Definition generateSiprecResponse `{Unicode} `{Rfc3339} (xml_Marshal : RSMetadata -> string + string)
    (id : string) (now : Time) (sdp : string) (s : RecordingSession)
    : (string * string + response_error) * RecordingSession :=
  let m := response_metadata s in
  match (CreateMetadataResponse xml_Marshal (Some m)).1 with
  | inr err => (inr err, s)
  | inl xml =>
    let s := if 0 <? md_Sequence m then s <| rs_SequenceNumber := md_Sequence m |> else s in
    let s := if String.eqb (md_State m) "" then s else s <| rs_RecordingState := md_State m |> in
    (inl (CreateMultipartResponse id sdp xml), s <| rs_UpdatedAt := now |>)
  end.

#[global] Arguments ext_set : simpl never.
#[global] Arguments formatExtensionKey : simpl never.

(** ** What a step leaves alone *)

(** A participant without its streams. *)
Definition identity_of (p : Participant) : Participant := p <| pt_MediaStreams := [] |>.

(** The part of a session that later steps of its creation keep. *)
Definition established (s : RecordingSession) :=
  (rs_ID s, rs_SIPID s, rs_FailoverID s, rs_RecordingState s, rs_Direction s, rs_IsValid s,
   rs_SequenceNumber s, map identity_of (rs_Participants s)).

Definition ext_value (s : RecordingSession) (k : string) : option string :=
  default ∅ (rs_ExtendedMetadata s) !! k.

(** Between [s] and [s'] only extended metadata under the keys of [P] (and
    fields that are not [established]) changed. *)
Definition touches (P : string -> bool) (s s' : RecordingSession) : Prop :=
  established s' = established s /\ rs_StateReason s' = rs_StateReason s /\
  rs_StateReasonRef s' = rs_StateReasonRef s /\ forall k, P k = false -> ext_value s' k = ext_value s k.

#[export] Instance touches_preorder P : PreOrder (touches P).
Proof.
  split; [done|]. intros s1 s2 s3 (H1 & H2 & H3 & H4) (G1 & G2 & G3 & G4).
  split_and!; [congruence..|]. intros k Hk. by rewrite G4, H4.
Qed.

Lemma touches_mono (P Q : string -> bool) s s' :
  (forall k, Q k = false -> P k = false) -> touches P s s' -> touches Q s s'.
Proof. intros HPQ (? & ? & ? & Hk). split_and!; [done..|]. eauto. Qed.

Lemma ext_set_value k v s k' :
  ext_value (ext_set k v s) k' = if String.eqb k k' then Some v else ext_value s k'.
Proof.
  unfold ext_value, ext_set. destruct s; cbn. destruct (String.eqb k k') eqn:E; bool_to_prop.
  - subst. by rewrite lookup_insert_eq.
  - by rewrite lookup_insert_ne.
Qed.

Lemma touches_ext_set (P : string -> bool) k v s s' :
  P k = true -> touches P s s' -> touches P s (ext_set k v s').
Proof.
  intros Hk (H1 & H2 & H3 & H4). split_and!.
  - rewrite <- H1. by destruct s'.
  - rewrite <- H2. by destruct s'.
  - rewrite <- H3. by destruct s'.
  - intros k' Hk'. rewrite ext_set_value. destruct (String.eqb k k') eqn:E; [|auto].
    bool_to_prop. congruence.
Qed.

Lemma touches_unless_empty (P : string -> bool) k v s s' :
  P k = true -> touches P s s' -> touches P s (ext_unless_empty k v s').
Proof.
  intros ??. unfold ext_unless_empty. destruct (String.eqb v ""); [done|]. by apply touches_ext_set.
Qed.

Lemma touches_foldl {A} P (f : RecordingSession -> A -> RecordingSession) l s :
  (forall s x, touches P s (f s x)) -> touches P s (foldl f s l).
Proof.
  intros Hf. revert s. induction l as [|x l IH]; intros s; cbn; [reflexivity|].
  etrans; [apply Hf|apply IH].
Qed.

Create HintDb touches.
#[export] Hint Resolve touches_ext_set touches_unless_empty : touches.
#[export] Hint Extern 1 (touches _ ?s ?s) => reflexivity : touches.

(** ** Vendor extensions *)

(** The keys under which vendor extensions are kept. *)
Definition xml_key (k : string) : bool :=
  has_prefix k "ext_" || has_prefix k "nice_" || has_prefix k "oracle_" || String.eqb k "sip_oracle_ucid".

Section extensions.
Context `{Unicode}.

Lemma format_key_ext prefix name :
  formatExtensionKey prefix name = "" \/ xml_key (formatExtensionKey prefix name) = true.
Proof.
  unfold formatExtensionKey. destruct (String.eqb _ ""); [by left|]. right.
  unfold xml_key. by rewrite (proj2 (has_prefix_spec _ "ext_")) by eauto.
Qed.

Lemma nice_key_ext name k : nice_key name = Some k -> xml_key k = true.
Proof. unfold nice_key. cbv zeta. intros Hk. case_tests_in Hk; by simplify_eq. Qed.

Lemma nice_touches s ext : touches xml_key s (extractNICEExtensionData s ext).
Proof.
  unfold extractNICEExtensionData. cbv zeta. destruct (_ || String.eqb _ ""); [reflexivity|].
  destruct (nice_key _) as [k|] eqn:E; [|reflexivity]. apply nice_key_ext in E. eauto with touches.
Qed.

Lemma oracle_touches s ext : touches xml_key s (extractOracleExtensionData s ext).
Proof.
  unfold extractOracleExtensionData. cbv zeta. destruct (_ || String.eqb _ ""); [reflexivity|].
  destruct (contains _ "ucid"), (contains _ "callerOrig"), (_ && _);
    try destruct (ExtractOracleExtensions _) as [d|]; try destruct (String.eqb (ox_UCID d) "");
    auto 6 with touches.
Qed.

Lemma process_extension_touches oracle prefix s ext :
  touches xml_key s (process_extension oracle prefix s ext).
Proof.
  unfold process_extension. cbv zeta. destruct (format_key_ext prefix (xe_XMLName ext)) as [->|Hk];
    [reflexivity|].
  destruct (_ || _); [reflexivity|]. trans (ext_set (formatExtensionKey prefix (xe_XMLName ext))
    (trim_space (xe_InnerXML ext)) s); [eauto with touches|].
  destruct oracle; [etrans; [apply nice_touches|apply oracle_touches]|apply nice_touches].
Qed.

Lemma process_elements_touches {A} oracle kind (extensions : A -> list XMLExtension) l s :
  touches xml_key s (process_elements oracle kind extensions l s).
Proof.
  apply touches_foldl. intros s' [i x]. apply touches_foldl. intros. apply process_extension_touches.
Qed.

Lemma process_oracle_touches `{!GoMapRange string} m s :
  touches xml_key s (process_oracle_participants m (process_oracle_session m s)).
Proof.
  trans (process_oracle_session m s).
  - unfold process_oracle_session. destruct (GetOracleSessionExtensions m) as [d|]; [|reflexivity].
    destruct (String.eqb _ ""), (ox_CallerOrig d); auto with touches.
  - unfold process_oracle_participants. destruct (GetOracleParticipantExtensions m); [|reflexivity].
    destruct (List.find _ _) as [[]|]; auto with touches.
Qed.

Lemma touches_make P s : touches P s (s <| rs_ExtendedMetadata := Some (default ∅ (rs_ExtendedMetadata s)) |>).
Proof. by destruct s. Qed.

Lemma xml_extensions_touch `{!GoMapRange string} m s : touches xml_key s (processXMLExtensions s m).
Proof.
  unfold processXMLExtensions. cbv zeta.
  repeat (etrans; [|apply process_elements_touches]).
  etrans; [|apply process_oracle_touches]. apply touches_make.
Qed.
End extensions.

(** ** Participants of a new session *)

Lemma comm_ids_values clock k l :
  map (fun c => (ci_Value c, ci_DisplayName c, ci_Priority c)) (comm_ids clock k l) =
  map (fun a => (aor_Value a, aor_Display a, aor_Priority a)) l.
Proof. revert k. induction l as [|a l IH]; intros k; cbn; [done|]. by rewrite IH. Qed.

(** What a session keeps of a participant of the metadata, but the times. *)
Definition participant_facts (p : Participant) :=
  (pt_ID p, pt_Name p, pt_DisplayName p, pt_Role p, pt_RecordingAware p, pt_ConsentObtained p,
   map (fun c => (ci_Value c, ci_DisplayName c, ci_Priority c)) (pt_CommunicationIDs p)).

Definition stated_facts (id : RSParticipant -> string) (m : RSMetadata) (p : RSParticipant) :=
  (id p, rp_Name p, rp_DisplayName p, rp_Role p, negb (ParticipantSynthesized m (rp_ID p)),
   negb (ParticipantSynthesized m (rp_ID p)),
   map (fun a => (aor_Value a, aor_Display a, aor_Priority a)) (rp_Aor p)).

Definition trimmed_id (p : RSParticipant) : string :=
  or_else (trim_space (rp_ID p)) (trim_space (rp_LegacyID p)).

Lemma session_participant_facts clock k m id p :
  participant_facts (session_participant clock k m (id p) p) = stated_facts id m p.
Proof. unfold participant_facts, stated_facts. cbn -[comm_ids]. by rewrite comm_ids_values. Qed.

Lemma create_participants_facts clock k n m l :
  map participant_facts (create_participants clock k n m l).1 =
  map (stated_facts trimmed_id m) (take (maxParticipants - n) l).
Proof.
  revert k n. induction l as [|p l IH]; intros k n; cbn [create_participants].
  { by rewrite take_nil. }
  destruct (Nat.leb_spec maxParticipants n).
  - by replace (maxParticipants - n)%nat with 0%nat by lia.
  - specialize (IH (after_participant k p) (S n)).
    destruct (create_participants _ _ _ _ _) as [qs k'] eqn:E. cbn [fst] in *.
    replace (maxParticipants - n)%nat with (S (maxParticipants - S n)) by lia.
    cbn [take map]. rewrite IH. f_equal. apply (session_participant_facts clock k m trimmed_id).
Qed.

Lemma rebuild_participants_facts clock k m l :
  map participant_facts (rebuild_participants clock k m l) = map (stated_facts rp_ID m) l.
Proof.
  revert k. induction l as [|p l IH]; intros k; cbn [rebuild_participants map]; [done|].
  rewrite IH. f_equal. apply (session_participant_facts clock k m rp_ID).
Qed.

Lemma identity_facts l l' : map identity_of l = map identity_of l' ->
  map participant_facts l = map participant_facts l'.
Proof.
  assert (Hid : forall l, map participant_facts l = map participant_facts (map identity_of l)).
  { intros l0. rewrite map_map. by apply map_ext; intros []. }
  intros Heq. by rewrite (Hid l), Heq, <- Hid.
Qed.

(** ** The steps of a creation *)

Lemma add_stream_identity pid st l : map identity_of (add_stream pid st l) = map identity_of l.
Proof.
  induction l as [|p l IH]; cbn; [done|]. destruct (String.eqb _ _); cbn; [by destruct p|by rewrite IH].
Qed.

Lemma recovery_touches P m s : touches P s (ProcessStreamRecovery s m).
Proof.
  unfold ProcessStreamRecovery. trans (s <| rs_MediaStreamTypes := [] |>); [by destruct s|].
  apply touches_foldl. clear. intros s st. unfold recover_stream.
  generalize (flat_map (fun p => map (fun l => (rp_ID p, l)) (rp_Send p)) (md_Participants m)) as sends.
  intros sends.
  assert (Hl : forall l, map identity_of (foldl (fun l '(pid, label) =>
    if String.eqb label (sm_Label st) then add_stream pid (sm_StreamID st) l else l) l sends) =
    map identity_of l).
  { induction sends as [|[pid label] sends IH]; intros l; cbn; [done|]. rewrite IH.
    destruct (String.eqb _ _); [apply add_stream_identity|done]. }
  destruct s; cbn. destruct (String.eqb (sm_Type st) ""); unfold touches, established; cbn; by rewrite Hl.
Qed.

Definition creation_key (k : string) : bool :=
  has_prefix k "session_group_" || has_prefix k "policy_" ||
  existsb (String.eqb k) ["metadata_filled_fields"; "state_reason"; "reason"; "state_reason_ref";
    "reason_ref"; "state_expires"; "expires"; "media_label"; "associated_call_id"; "group"].

Lemma creation_key_prefix k t :
  (k = "session_group_" \/ k = "policy_") -> creation_key (k +:+ t) = true.
Proof.
  intros Hk. unfold creation_key. rewrite !orb_true_iff, !has_prefix_spec.
  destruct Hk as [->| ->]; eauto.
Qed.

Lemma groups_touch m s : touches creation_key s (update_groups m s).
Proof.
  unfold update_groups. destruct (md_SessionGroupAssociations m) as [|g gs]; [reflexivity|].
  trans (s <| rs_SessionGroups := g :: gs |> <| rs_SessionGroupRoles := Some ∅ |>); [by destruct s|].
  apply touches_foldl. intros s' a. apply touches_ext_set; [|by destruct s'].
  apply creation_key_prefix. auto.
Qed.

Lemma policies_touch `{Unicode} `{Rfc3339} clock k l s :
  touches creation_key s (create_policies clock k l s).
Proof.
  revert k s. induction l as [|p l IH]; intros k s; cbn [create_policies]; [reflexivity|].
  etrans; [|apply IH]. unfold create_policy. cbv zeta.
  pose proof (fun t => creation_key_prefix "policy_" t (or_intror eq_refl)) as Hk.
  assert (Hs : forall s', established s' = established s -> rs_StateReason s' = rs_StateReason s ->
    rs_StateReasonRef s' = rs_StateReasonRef s -> rs_ExtendedMetadata s' = rs_ExtendedMetadata s ->
    touches creation_key s s').
  { intros s' ? ? ? He. split_and!; [done..|]. intros. unfold ext_value. by rewrite He. }
  destruct (String.eqb (trim_space (pu_Timestamp p)) "");
    repeat (apply touches_ext_set; [apply Hk|]); apply Hs; by destruct s.
Qed.

Lemma touches_reason P r s s' :
  touches P s s' -> touches P (s <| rs_StateReason := r |>) (s' <| rs_StateReason := r |>).
Proof.
  intros (H1 & H2 & H3 & H4). destruct s, s'. cbn in *. split_and!; [exact H1|done|exact H3|exact H4].
Qed.

Lemma touches_reason_ref P r s s' :
  touches P s s' -> touches P (s <| rs_StateReasonRef := r |>) (s' <| rs_StateReasonRef := r |>).
Proof.
  intros (H1 & H2 & H3 & H4). destruct s, s'. cbn in *. split_and!; [exact H1|exact H2|done|exact H4].
Qed.

Lemma update_reason_touches m s : rs_StateReason s = "" ->
  touches creation_key (s <| rs_StateReason := trim_space (md_Reason m) |>) (update_reason m s).
Proof.
  intros Hs. unfold update_reason. cbv zeta. destruct (String.eqb _ "") eqn:E; [|auto with touches].
  bool_to_prop. rewrite E. destruct s. cbn in *. by subst.
Qed.

Lemma update_reason_ref_touches m s : rs_StateReasonRef s = "" ->
  touches creation_key (s <| rs_StateReasonRef := trim_space (md_ReasonRef m) |>) (update_reason_ref m s).
Proof.
  intros Hs. unfold update_reason_ref. cbv zeta. destruct (String.eqb _ "") eqn:E; [|auto with touches].
  bool_to_prop. rewrite E. destruct s. cbn in *. by subst.
Qed.

Lemma update_expires_touches `{Rfc3339} m s : touches creation_key s (update_expires m s).
Proof.
  unfold update_expires. cbv zeta. destruct (String.eqb _ ""); [reflexivity|].
  trans (ext_set "expires" (trim_space (md_Expires m)) (ext_set "state_expires" (trim_space (md_Expires m)) s));
    [auto with touches|].
  destruct (parse_rfc3339 _); [|reflexivity]. by generalize (ext_set "expires"); intros []; destruct s.
Qed.

Section creation.
Context `{Unicode} `{Rfc3339} `{!GoMapRange string}.
Context (clock : nat -> Time) (format_utc : Time -> string) (fresh : string) (callbacks : list string)
  (sipCallID : string) (m : RSMetadata).

(** The session before participants, with its reasons. *)
Definition base_session : RecordingSession :=
  (new_session clock callbacks sipCallID m) <| rs_StateReason := trim_space (md_Reason m) |>
    <| rs_StateReasonRef := trim_space (md_ReasonRef m) |>.

Lemma base_touches :
  touches creation_key base_session (update_expires m (update_reason_ref m (update_reason m
    match md_FilledFields m with
    | [] => new_session clock callbacks sipCallID m
    | l => ext_set "metadata_filled_fields" (join "," l) (new_session clock callbacks sipCallID m)
    end))).
Proof.
  set (s0 := match md_FilledFields m with [] => _ | _ => _ end).
  assert (Hs0 : touches creation_key (new_session clock callbacks sipCallID m) s0).
  { unfold s0. destruct (md_FilledFields m); auto with touches. }
  clearbody s0. etrans; [|apply update_expires_touches].
  assert (H1 : touches creation_key ((new_session clock callbacks sipCallID m)
    <| rs_StateReason := trim_space (md_Reason m) |>) (update_reason m s0)).
  { etrans; [by apply touches_reason|]. apply update_reason_touches. by destruct Hs0 as (_ & -> & _). }
  etrans; [by apply touches_reason_ref|]. apply update_reason_ref_touches. by destruct H1 as (_ & _ & -> & _).
Qed.

(** Changing fields the same way keeps [touches]. *)
Lemma touches_map P (f : RecordingSession -> RecordingSession) s s' :
  (forall s s', established s' = established s -> established (f s') = established (f s)) ->
  (forall s, rs_StateReason (f s) = rs_StateReason s /\ rs_StateReasonRef (f s) = rs_StateReasonRef s /\
     rs_ExtendedMetadata (f s) = rs_ExtendedMetadata s) ->
  touches P s s' -> touches P (f s) (f s').
Proof.
  intros He Hf (H1 & H2 & H3 & H4). destruct (Hf s) as (G1 & G2 & G3), (Hf s') as (G1' & G2' & G3').
  split_and!; [auto|congruence..|]. intros k Hk. unfold ext_value. rewrite G3, G3'. by apply H4.
Qed.

Definition with_participants (s : RecordingSession) : RecordingSession :=
  s <| rs_Participants := (create_participants clock 4 0 m (md_Participants m)).1 |>
    <| rs_MediaStreamTypes := map sm_Type (md_Streams m) |>.

Definition with_defaults (s : RecordingSession) : RecordingSession :=
  s <| rs_RecordingState := or_else (rs_RecordingState s) "active" |>
    <| rs_Direction := or_else (rs_Direction s) "unknown" |>.

(** The session when its failover ID is set. *)
Definition prepared_session : RecordingSession :=
  let s := with_participants (update_expires m (update_reason_ref m (update_reason m
    match md_FilledFields m with
    | [] => new_session clock callbacks sipCallID m
    | l => ext_set "metadata_filled_fields" (join "," l) (new_session clock callbacks sipCallID m)
    end))) in
  let s := create_policies clock (create_participants clock 4 0 m (md_Participants m)).2
             (md_PolicyUpdates m) ((update_groups m s) <| rs_PolicyUpdates := md_PolicyUpdates m |>) in
  let s := ext_unless_empty "media_label" (md_MediaLabel m) (with_defaults s) in
  let s := ext_unless_empty "associated_call_id" (ra_CallID (md_SessionRecordingAssoc m)) s in
  ext_unless_empty "group" (ra_Group (md_SessionRecordingAssoc m)) s.

Lemma prepared_touches :
  touches creation_key (with_defaults (with_participants base_session)) prepared_session.
Proof.
  unfold prepared_session. cbv zeta. repeat (apply touches_unless_empty; [done|]).
  apply touches_map.
  { intros s s' He. unfold established, with_defaults in *. destruct s, s'; cbn in *. simplify_eq. congruence. }
  { by intros []. }
  etrans; [|apply policies_touch].
  etrans; [|apply (touches_map _ (fun s => s <| rs_PolicyUpdates := md_PolicyUpdates m |>));
            [by intros [] []|by intros []|apply groups_touch]].
  trans (with_participants (update_expires m (update_reason_ref m (update_reason m
    match md_FilledFields m with
    | [] => new_session clock callbacks sipCallID m
    | l => ext_set "metadata_filled_fields" (join "," l) (new_session clock callbacks sipCallID m)
    end)))); [|by destruct (with_participants _)].
  apply touches_map; [|by intros []|apply base_touches].
  intros s s' He. unfold established, with_participants in *. destruct s, s'; cbn in *. by simplify_eq.
Qed.

Definition recovery_timestamp : string :=
  format_utc (clock ((create_participants clock 4 0 m (md_Participants m)).2 +
                     List.length (md_PolicyUpdates m))%nat).

Lemma create_unfold :
  createRecordingSession clock format_utc fresh callbacks sipCallID m =
  let s := set_failover fresh (md_SessionRecordingAssoc m) prepared_session in
  processXMLExtensions (if is_recovery s then recover_marks recovery_timestamp m s else s) m.
Proof.
  unfold createRecordingSession, prepared_session, recovery_timestamp, with_participants, with_defaults.
  by destruct (create_participants _ _ _ _ _).
Qed.

(** What follows the failover ID. *)
Definition recovery_key (k : string) : bool :=
  xml_key k || existsb (String.eqb k) ["recovery_mode"; "recovery_timestamp"; "replaces_session_id"].

Lemma set_failover_value s :
  let s' := set_failover fresh (md_SessionRecordingAssoc m) s in
  established s' = established (s <| rs_FailoverID := or_else (ra_FixedID (md_SessionRecordingAssoc m)) fresh |>) /\
  rs_StateReason s' = rs_StateReason s /\ rs_StateReasonRef s' = rs_StateReasonRef s /\
  ext_value s' "failover_id" = Some (or_else (ra_FixedID (md_SessionRecordingAssoc m)) fresh) /\
  ext_value s' "recovery_mode" = ext_value s "recovery_mode".
Proof.
  unfold set_failover, or_else. destruct (String.eqb _ ""); rewrite !ext_set_value; by destruct s.
Qed.

Lemma recover_marks_touch t s : touches recovery_key s (recover_marks t m s) /\
  ext_value (recover_marks t m s) "recovery_mode" = Some "true".
Proof.
  unfold recover_marks. cbv zeta. set (s1 := ext_set "recovery_timestamp" _ _).
  assert (H1 : touches recovery_key s s1 /\ ext_value s1 "recovery_mode" = Some "true").
  { split; [|unfold s1; by rewrite !ext_set_value]. do 2 (apply touches_ext_set; [done|]).
    apply recovery_touches. }
  clearbody s1. destruct (negb _ && _); [|done]. rewrite ext_set_value. destruct H1 as [H1 H2]. split.
  - apply touches_ext_set; [done|]. etrans; [exact H1|]. by destruct s1.
  - by destruct s1.
Qed.

(** The session created from [m]. *)
Lemma created_summary :
  let s := createRecordingSession clock format_utc fresh callbacks sipCallID m in
  let recovery := equal_fold (or_else (md_State m) "active") "recovering" ||
    equal_fold (trim_space (md_Reason m)) "failover" ||
    contains (to_lower (trim_space (md_ReasonRef m))) "failover" in
  established s =
    (md_SessionID m, sipCallID, or_else (ra_FixedID (md_SessionRecordingAssoc m)) fresh,
     or_else (md_State m) "active", or_else (md_Direction m) "unknown", true, md_Sequence m,
     map identity_of (create_participants clock 4 0 m (md_Participants m)).1) /\
  ext_value s "failover_id" = Some (or_else (ra_FixedID (md_SessionRecordingAssoc m)) fresh) /\
  ext_value s "recovery_mode" = if recovery then Some "true" else None.
Proof.
  cbv zeta. rewrite create_unfold. cbv zeta.
  destruct prepared_touches as (P1 & P2 & P3 & P4). specialize (P4 "recovery_mode" eq_refl).
  destruct (set_failover_value prepared_session) as (F1 & F2 & F3 & F4 & F5).
  set (s := set_failover _ _ _) in *. clearbody s.
  assert (Hest : established s =
    (md_SessionID m, sipCallID, or_else (ra_FixedID (md_SessionRecordingAssoc m)) fresh,
     or_else (md_State m) "active", or_else (md_Direction m) "unknown", true, md_Sequence m,
     map identity_of (create_participants clock 4 0 m (md_Participants m)).1)).
  { rewrite F1. unfold established in *. cbn in *. destruct prepared_session; cbn in *. simplify_eq. congruence. }
  assert (Hrec : is_recovery s = equal_fold (or_else (md_State m) "active") "recovering" ||
    equal_fold (trim_space (md_Reason m)) "failover" ||
    contains (to_lower (trim_space (md_ReasonRef m))) "failover").
  { unfold is_recovery. rewrite F2, F3, P2, P3. 
    pose proof (f_equal (fun e => e.1.1.1.1.2) Hest) as Hst. cbn in Hst. by rewrite Hst. }
  rewrite <- Hrec, <- Hest, <- F4. rewrite P4 in F5.
  destruct (is_recovery s).
  - destruct (recover_marks_touch recovery_timestamp s) as [(T1 & _ & _ & T4) Tm].
    destruct (xml_extensions_touch m (recover_marks recovery_timestamp m s)) as (X1 & _ & _ & X4).
    rewrite X1, T1, !X4, T4, Tm by done. done.
  - destruct (xml_extensions_touch m s) as (X1 & _ & _ & X4). rewrite X1, !X4, F5 by done. done.
Qed.
End creation.

(** ** The list of synthesized values *)

Definition comma : ascii := ","%char.

(** A name that can stand in the comma separated list. *)
Definition word (w : string) : Prop := w <> "" /\ lacks comma w = true.

Lemma trim_left_word w s : word w -> trim_left_char comma (w +:+ s) = w +:+ s.
Proof.
  intros [Hw Hl]. destruct w as [|d w]; [done|]. cbn [lacks] in Hl.
  apply andb_true_iff in Hl as [Hd%negb_true_iff _].
  change (String d w +:+ s) with (String d (w +:+ s)). cbn [trim_left_char]. by rewrite Hd.
Qed.

Lemma all_char_word s w : word w -> all_char comma (s +:+ w) = false.
Proof.
  intros [Hw Hl]. induction s as [|d s IH].
  - destruct w as [|d w]; [done|]. cbn [lacks] in Hl. apply andb_true_iff in Hl as [Hd%negb_true_iff _].
    change ("" +:+ String d w) with (String d w). cbn [all_char]. by rewrite Hd.
  - change (String d s +:+ w) with (String d (s +:+ w)). cbn [all_char]. by rewrite IH, andb_false_r.
Qed.

Lemma trim_right_word s w : word w -> trim_right_char comma (s +:+ w) = s +:+ w.
Proof.
  intros Hw. induction s as [|d s IH].
  - destruct Hw as [_ Hl]. change ("" +:+ w) with w. induction w as [|d w IH]; [done|]. cbn [lacks] in Hl.
    apply andb_true_iff in Hl as [Hd%negb_true_iff Hl]. cbn [trim_right_char all_char].
    rewrite Hd. cbn [andb]. by rewrite IH.
  - change (String d s +:+ w) with (String d (s +:+ w)). cbn [trim_right_char all_char].
    rewrite (all_char_word s w Hw), andb_false_r. by rewrite IH.
Qed.

Lemma join_cons sep x l : l <> [] -> join sep (x :: l) = x +:+ sep +:+ join sep l.
Proof. by destruct l. Qed.

Lemma join_last l w : exists s, join "," (l ++ [w]) = s +:+ w.
Proof.
  induction l as [|x l [s IH]]; [by exists ""|]. exists (x +:+ "," +:+ s).
  cbn [app]. rewrite join_cons by (by destruct l). rewrite IH. by rewrite !string_app_assoc.
Qed.

Lemma trim_join l : Forall word l -> trim_char comma (join "," l) = join "," l.
Proof.
  intros Hl. destruct l as [|x l]; [done|]. unfold trim_char. 
  assert (Hleft : trim_left_char comma (join "," (x :: l)) = join "," (x :: l)).
  { apply Forall_cons in Hl as [Hx _]. destruct l; [|rewrite join_cons by done; by apply trim_left_word].
    cbn [join]. rewrite <- (string_app_nil_r x). by apply trim_left_word. }
  rewrite Hleft. destruct (exists_last (l := x :: l)) as (l' & w & E); [done|]. rewrite E in *.
  destruct (join_last l' w) as [s ->]. apply trim_right_word.
  apply Forall_app in Hl as [_ Hl]. by rewrite Forall_singleton in Hl.
Qed.

Lemma trim_join_empty l : l <> [] -> Forall word l -> trim_char comma (join "," ("" :: l)) = join "," l.
Proof.
  intros Hne Hl. rewrite join_cons by done. rewrite <- (trim_join l Hl) at 2. done.
Qed.

Lemma split_join l : l <> [] -> Forall word l -> split_on comma (join "," l) = l.
Proof.
  intros Hne Hl. induction Hl as [|x l [Hx Hl] Hls IH]; [done|]. destruct l as [|y l].
  - by apply split_on_lacks.
  - rewrite join_cons by done. change (x +:+ "," +:+ join "," (y :: l)) with (x +:+ String comma (join "," (y :: l))).
    rewrite split_on_app by done. by rewrite IH.
Qed.

Definition add_all (old new : list string) : list string := foldl (fun l x => add_new x l) old new.

Lemma add_all_words old new : Forall word old -> Forall word new -> Forall word (add_all old new).
Proof.
  intros Ho Hn. revert old Ho. induction Hn as [|x new Hx Hn IH]; intros old Ho; cbn; [done|].
  apply IH. unfold add_new. case_bool_decide; [done|]. apply Forall_app. by split; [|apply Forall_singleton].
Qed.

Lemma add_all_empty old new : Forall word new -> add_all ("" :: old) new = "" :: add_all old new.
Proof.
  intros Hn. revert old. induction Hn as [|x new [Hx _] Hn IH]; intros old; cbn; [done|].
  rewrite <- IH. f_equal. unfold add_new. rewrite !bool_decide_decide.
  destruct (decide (x ∈ old)), (decide (x ∈ "" :: old)) as [Hin|]; try done; set_solver.
Qed.

Lemma add_all_elem old new x : x ∈ add_all old new <-> x ∈ old \/ x ∈ new.
Proof.
  revert old. induction new as [|y new IH]; intros old; cbn; [set_solver|].
  rewrite IH, elem_of_add_new. set_solver.
Qed.

Lemma add_all_NoDup old new : NoDup old -> NoDup (add_all old new).
Proof. revert old. induction new as [|y new IH]; intros old Ho; cbn; [done|]. by apply IH, add_new_NoDup. Qed.

(** [l] is the list recorded in [s]. *)
Definition filled_list (s : RecordingSession) (l : list string) : Prop :=
  default "" (ext_value s "metadata_filled_fields") = join "," l.

Lemma update_filled_list m s l :
  Forall word l -> Forall word (md_FilledFields m) -> filled_list s l ->
  filled_list (update_filled m s) (add_all l (md_FilledFields m)).
Proof.
  intros Hl Hm Hs. unfold update_filled. destruct (md_FilledFields m) as [|f fs] eqn:E; [done|].
  rewrite <- E in *. unfold filled_list. rewrite ext_set_value. cbn [String.eqb Ascii.eqb Bool.eqb default].
  unfold filled_list, ext_value in Hs. rewrite Hs.
  change (trim_char comma (join "," (add_all (split_on comma (join "," l)) (md_FilledFields m))) =
          join "," (add_all l (md_FilledFields m))).
  destruct l as [|x l].
  - change (split_on comma (join "," [])) with [""]. rewrite add_all_empty by done.
    apply trim_join_empty; [|by apply add_all_words].
    intros H0. assert (Hf : f ∈ add_all [] (md_FilledFields m)) by (apply add_all_elem; right; rewrite E; left).
    rewrite H0 in Hf. by apply elem_of_nil in Hf.
  - rewrite split_join by done. apply trim_join. by apply add_all_words.
Qed.

(** ** The steps of an update *)

Definition state_key (k : string) : bool :=
  existsb (String.eqb k) ["termination_reason"; "pause_time"; "resume_time"; "reason"; "reason_ref"].

Lemma ext_other (P : string -> bool) k v s k' :
  P k = true -> P k' = false -> ext_value (ext_set k v s) k' = ext_value s k'.
Proof. intros ??. rewrite ext_set_value. destruct (String.eqb k k') eqn:E; [|done]. bool_to_prop. congruence. Qed.

Lemma ext_other_unless (P : string -> bool) k v s k' :
  P k = true -> P k' = false -> ext_value (ext_unless_empty k v s) k' = ext_value s k'.
Proof. intros. unfold ext_unless_empty. destruct (String.eqb v ""); [done|]. by eapply ext_other. Qed.

(** The fields an update of the extended metadata leaves alone. *)
Definition but_ext (s : RecordingSession) : RecordingSession := s <| rs_ExtendedMetadata := None |>.

Lemma ext_set_but_ext k v s : but_ext (ext_set k v s) = but_ext s.
Proof. by destruct s. Qed.

Lemma ext_unless_but_ext k v s : but_ext (ext_unless_empty k v s) = but_ext s.
Proof. unfold ext_unless_empty. by destruct (String.eqb v ""), s. Qed.

Lemma update_filled_but_ext m s : but_ext (update_filled m s) = but_ext s.
Proof. unfold update_filled. by destruct (md_FilledFields m); [|rewrite ext_set_but_ext]. Qed.

Lemma update_state_fields `{Rfc3339} clock m s :
  let s' := (update_state clock m s).1 in
  but_ext s' = but_ext (s <| rs_RecordingState := or_else (md_State m) (rs_RecordingState s) |>
    <| rs_EndTime := if String.eqb (md_State m) "terminated" then clock 1%nat else rs_EndTime s |>) /\
  forall k, state_key k = false -> ext_value s' k = ext_value s k.
Proof.
  cbv zeta. unfold update_state, or_else. destruct (String.eqb (md_State m) "") eqn:E0.
  { bool_to_prop. rewrite E0. by destruct s. }
  destruct (String.eqb (md_State m) "terminated") eqn:E1; [|destruct (String.eqb (md_State m) "paused");
    [|destruct (String.eqb (md_State m) "active" && _)]]; cbn [fst];
    (split; [rewrite ?ext_unless_but_ext, ?ext_set_but_ext; by destruct s|]); try (by destruct s); intros k Hk.
  - rewrite (ext_other_unless state_key) by done. by destruct s.
  - rewrite (ext_other state_key) by done. by destruct s.
  - rewrite (ext_other state_key) by done. by destruct s.
Qed.

(** The session before its reasons are recorded. *)
Definition refreshed `{Rfc3339} (clock : nat -> Time) (s : RecordingSession) (m : RSMetadata)
    : RecordingSession :=
  let s := s <| rs_ExtendedMetadata := Some (default ∅ (rs_ExtendedMetadata s)) |> in
  let s := update_filled m s in
  let s := if 0 <? md_Sequence m then s <| rs_SequenceNumber := md_Sequence m |> else s in
  (update_state clock m (s <| rs_UpdatedAt := clock 0%nat |>)).1.

Lemma refreshed_fields `{Rfc3339} clock s m :
  but_ext (refreshed clock s m) = but_ext (s
    <| rs_SequenceNumber := if 0 <? md_Sequence m then md_Sequence m else rs_SequenceNumber s |>
    <| rs_UpdatedAt := clock 0%nat |>
    <| rs_RecordingState := or_else (md_State m) (rs_RecordingState s) |>
    <| rs_EndTime := if String.eqb (md_State m) "terminated" then clock 1%nat else rs_EndTime s |>) /\
  forall k, state_key k = false -> ext_value (refreshed clock s m) k = ext_value (update_filled m s) k.
Proof.
  unfold refreshed. cbv zeta. set (s0 := s <| rs_ExtendedMetadata := _ |>).
  assert (Hb : but_ext (update_filled m s0) = but_ext s).
  { rewrite update_filled_but_ext. unfold s0. by destruct s. }
  assert (Hv : forall k, ext_value (update_filled m s0) k = ext_value (update_filled m s) k).
  { intros k. unfold update_filled. destruct (md_FilledFields m); [by destruct s|].
    rewrite !ext_set_value. unfold ext_value. by destruct s. }
  set (s1 := update_filled m s0) in *. clearbody s1. clear s0.
  match goal with |- context [update_state clock m ?x] => destruct (update_state_fields clock m x) as [H1 H2] end.
  rewrite H1. split.
  - destruct s1, s. unfold but_ext in *. cbn in *. injection Hb. intros. subst.
    by destruct (0 <? md_Sequence m).
  - intros k Hk. rewrite H2, <- Hv by done. by destruct (0 <? md_Sequence m), s1.
Qed.

Lemma update_unfold `{Rfc3339} clock s m :
  let s1 := refreshed clock s m in
  but_ext (updateRecordingSession clock s m) = but_ext (s1
    <| rs_Direction := or_else (md_Direction m) (rs_Direction s1) |>
    <| rs_Participants := match md_Participants m with
         | [] => rs_Participants s1
         | l => rebuild_participants clock (if String.eqb (md_State m) "terminated" ||
              String.eqb (md_State m) "paused" ||
              (String.eqb (md_State m) "active" && String.eqb (rs_RecordingState s) "paused") then 2 else 1) m l
         end |>
    <| rs_MediaStreamTypes := match md_Streams m with [] => rs_MediaStreamTypes s1 | l => map sm_Type l end |>) /\
  forall k, state_key k = false -> ext_value (updateRecordingSession clock s m) k = ext_value s1 k.
Proof.
  cbv zeta. unfold updateRecordingSession, refreshed. cbv zeta.
  set (s0 := update_filled m _). set (s1 := (if 0 <? md_Sequence m then _ else s0) <| rs_UpdatedAt := _ |>).
  assert (Hk : (update_state clock m s1).2 = if String.eqb (md_State m) "terminated" ||
              String.eqb (md_State m) "paused" ||
              (String.eqb (md_State m) "active" && String.eqb (rs_RecordingState s) "paused") then 2%nat else 1%nat).
  { assert (Hst : rs_RecordingState s1 = rs_RecordingState s).
    { unfold s1. assert (H0 : but_ext s0 = but_ext s).
      { unfold s0. rewrite update_filled_but_ext. by destruct s. }
      apply (f_equal rs_RecordingState) in H0. destruct s0, s, (0 <? md_Sequence m); exact H0. }
    unfold update_state. rewrite Hst. destruct (String.eqb (md_State m) "") eqn:E.
    - bool_to_prop. by rewrite E.
    - destruct (String.eqb (md_State m) "terminated"), (String.eqb (md_State m) "paused"),
        (String.eqb (md_State m) "active"), (String.eqb (rs_RecordingState s) "paused"); done. }
  clearbody s1. destruct (update_state clock m s1) as [s2 k2]. cbn [fst snd] in *. rewrite Hk.
  clear Hk s0 s1. unfold or_else. split.
  - rewrite !ext_unless_but_ext.
    destruct (String.eqb (md_Direction m) ""), (md_Participants m), (md_Streams m); by destruct s2.
  - intros k Hk. rewrite !(ext_other_unless state_key) by done.
    destruct (String.eqb (md_Direction m) ""), (md_Participants m), (md_Streams m); by destruct s2.
Qed.

(** ** Metadata is accepted exactly when it is well formed *)

(** [parseSiprecMetadata] accepts a body exactly when it decodes and the
    normalized document, completed from the request when the server is
    configured to, is well formed; what it returns is that document.  An XML
    error is reported as such, and every other rejection carries the
    validator's messages for a document that is not well formed. *)
Theorem parse_metadata_exact `{Unicode} `{Rfc3339} `{SipLibrary} `{!GoMapRange string}
    (decode : string -> RSMetadata + string) (cfg : option SipConfig) (body : string)
    (message : SIPMessage) (existing : option RecordingSession) :
  match parseSiprecMetadata decode cfg body message existing with
  | inl m => exists raw, decode body = inl raw /\
      m = complete_metadata cfg message existing (Normalize raw) /\ well_formed (allow_missing cfg) m
  | inr (XmlError err) => decode body = inr err
  | inr (ValidationFailure errors) => exists raw, decode body = inl raw /\ errors <> [] /\
      errors = vr_Errors (ValidateSiprecMessageWithOptions
        (Some (complete_metadata cfg message existing (Normalize raw))) (mkValidationOptions (allow_missing cfg))) /\
      ~ well_formed (allow_missing cfg) (complete_metadata cfg message existing (Normalize raw))
  end.
Proof.
  unfold parseSiprecMetadata. destruct (decode body) as [raw|err]; [|done]. cbv zeta.
  set (m := complete_metadata _ _ _ _). set (opts := mkValidationOptions (allow_missing cfg)).
  pose proof (validation_clean opts m) as Hv. unfold clean in Hv.
  destruct (vr_Errors _) as [|e es] eqn:E.
  - exists raw. split_and!; [done..|]. by apply Hv.
  - exists raw. split_and!; [done..|]. intros Hw%Hv. done.
Qed.

Lemma parse_accepted `{Unicode} `{Rfc3339} `{SipLibrary} `{!GoMapRange string} decode cfg body message existing m :
  parseSiprecMetadata decode cfg body message existing = inl m -> well_formed (allow_missing cfg) m.
Proof.
  unfold parseSiprecMetadata. destruct (decode body) as [raw|err]; [|done]. cbv zeta.
  destruct (vr_Errors _) eqn:E; [|done]. intros [= <-]. by apply validation_clean in E.
Qed.


(** A document of one participant, decoded from any body. *)
Definition sample_message : SIPMessage := zero_SIPMessage.

Definition decode_sample (doc : RSMetadata) (body : string) : RSMetadata + string := inl doc.


(** ** Participants without an ID attribute *)

(** The validator also accepts a participant that only has a [nameID]
    attribute, but the session knows it under no ID at all: two of them are
    told apart by the validator and not by the session. *)
Theorem nameid_participant_loses_id `{Unicode} `{Rfc3339} `{SipLibrary} `{!GoMapRange string}
    (m : RSMetadata) (p : RSParticipant) (clock : nat -> Time) (format_utc : Time -> string)
    (fresh : string) (callbacks : list string) (sipCallID : string) :
  well_formed false m -> p ∈ take 100 (md_Participants m) ->
  trim_space (rp_ID p) = "" -> trim_space (rp_LegacyID p) = "" ->
  normalizedParticipantID p <> "" /\
  exists q, q ∈ rs_Participants (createRecordingSession clock format_utc fresh callbacks sipCallID m) /\
    pt_ID q = "" /\ pt_Name q = rp_Name p.
Proof.
  intros Hm Hp Hid Hleg. split.
  - destruct Hm as [_ _ _ _ _ [Hne _] _ _ _ _ _ _ _ _ _ _ _]. intros Hnil. apply Hne. rewrite <- Hnil.
    apply list_elem_of_fmap. exists p. split; [done|]. eapply subseteq_take, Hp.
  - destruct (created_summary clock format_utc fresh callbacks sipCallID m) as (He & _ & _).
    set (s := createRecordingSession _ _ _ _ _ _) in *. clearbody s.
    apply (f_equal snd) in He. cbn in He. apply identity_facts in He.
    rewrite create_participants_facts in He. change (maxParticipants - 0)%nat with 100%nat in He.
    assert (Hin : stated_facts trimmed_id m p ∈ map participant_facts (rs_Participants s)).
    { rewrite He. apply list_elem_of_fmap. eauto. }
    apply list_elem_of_fmap in Hin as (q & Hq & Hin). exists q. split; [done|].
    unfold stated_facts, participant_facts in Hq. injection Hq as Hq1 Hq2 _ _ _ _ _.
    rewrite <- Hq1, <- Hq2. split; [|done]. unfold trimmed_id. by rewrite Hid, Hleg.
Qed.

Definition nameid_party (name uri : string) : RSParticipant :=
  mkRSParticipant "" "" name "Party" "Party" [mkAor uri uri "" 0] [] "" "active" [] [] [].

Definition nameid_document : RSMetadata :=
  sample_document <| md_Participants := [nameid_party "alice" "sip:alice@example.com";
                                         nameid_party "bob" "sip:bob@example.com"] |>
    <| md_Sessions := [zero_RSSession <| ss_ID := "s1" |>] |> <| md_ParticipantStreamAssoc := [] |>.

Lemma nameid_participants_collide :
  well_formed (H := ascii_only) (H0 := no_rfc3339) false nameid_document /\
  map pt_ID (rs_Participants (@createRecordingSession ascii_only no_rfc3339 (list_range string)
    (fun _ => 7) (fun _ => "") "uuid" [] "call-1" nameid_document)) = [""; ""].
Proof.
  split; [|vm_compute; reflexivity].
  apply (@validation_clean ascii_only no_rfc3339 (mkValidationOptions false)).
  unfold clean. vm_compute. reflexivity.
Qed.

(** ** Updates *)

#[local] Arguments rebuild_participants : simpl never.
#[local] Arguments map : simpl never.

(** A metadata update of an existing session changes what the metadata
    states and nothing else.  The identity of the session stays; sequence number,
    state, direction, participants and stream types are those of the metadata
    when it has them and the old ones otherwise; the end time is set exactly by
    the state [terminated]; extended metadata changes only under the keys of the
    update.  The list of synthesized values accumulates: it has the old names
    and the new ones, each once. *)
Theorem update_session_exact `{Rfc3339} (clock : nat -> Time) (s : RecordingSession) (m : RSMetadata) :
  let s' := updateRecordingSession clock s m in
  (rs_ID s', rs_SIPID s', rs_FailoverID s', rs_IsValid s') = (rs_ID s, rs_SIPID s, rs_FailoverID s, rs_IsValid s) /\
  rs_SequenceNumber s' = (if 0 <? md_Sequence m then md_Sequence m else rs_SequenceNumber s) /\
  rs_RecordingState s' = or_else (md_State m) (rs_RecordingState s) /\
  rs_Direction s' = or_else (md_Direction m) (rs_Direction s) /\
  map participant_facts (rs_Participants s') =
    (match md_Participants m with
     | [] => map participant_facts (rs_Participants s)
     | l => map (stated_facts rp_ID m) l
     end) /\
  rs_MediaStreamTypes s' = (match md_Streams m with [] => rs_MediaStreamTypes s | l => map sm_Type l end) /\
  rs_UpdatedAt s' = clock 0%nat /\
  rs_EndTime s' = (if String.eqb (md_State m) "terminated" then clock 1%nat else rs_EndTime s) /\
  (forall k, state_key k = false -> k <> "metadata_filled_fields" -> ext_value s' k = ext_value s k) /\
  (forall l, Forall word l -> Forall word (md_FilledFields m) -> NoDup l -> filled_list s l ->
     exists l', filled_list s' l' /\ NoDup l' /\ forall x, x ∈ l' <-> x ∈ l \/ x ∈ md_FilledFields m).
Proof.
  cbv zeta. destruct (update_unfold clock s m) as [Hu Hk]. destruct (refreshed_fields clock s m) as [Hr Hk1].
  cbv zeta in Hu, Hk. set (s' := updateRecordingSession clock s m) in *. set (s1 := refreshed clock s m) in *.
  clearbody s' s1. split_and!.
  1-8: destruct s, s1, s'; unfold but_ext in *; cbn in *; injection Hr; injection Hu; intros; subst; try done.
  - destruct (md_Participants m); [done|]. apply rebuild_participants_facts.
  - intros k Hs Hne. rewrite Hk, Hk1 by done. unfold update_filled. destruct (md_FilledFields m); [done|].
    rewrite ext_set_value. destruct (String.eqb _ k) eqn:E; [|done]. bool_to_prop. congruence.
  - intros l Hl Hm Hnd Hs. exists (add_all l (md_FilledFields m)). split_and!.
    + pose proof (update_filled_list m s l Hl Hm Hs) as Hf. unfold filled_list in *. by rewrite Hk, Hk1.
    + by apply add_all_NoDup.
    + intros x. apply add_all_elem.
Qed.

(** The limit on participants, which is there to bound the memory of a session,
    holds for new sessions only: an update installs all participants of its
    metadata, however many. *)
Theorem participant_limit_only_at_creation `{Unicode} `{Rfc3339} `{!GoMapRange string}
    (clock : nat -> Time) (format_utc : Time -> string) (fresh : string) (callbacks : list string)
    (sipCallID : string) (s : RecordingSession) (m : RSMetadata) :
  let n := List.length (md_Participants m) in
  List.length (rs_Participants (createRecordingSession clock format_utc fresh callbacks sipCallID m)) =
    Nat.min 100 n /\
  (n <> 0%nat -> List.length (rs_Participants (updateRecordingSession clock s m)) = n).
Proof.
  cbv zeta. split.
  - destruct (created_summary clock format_utc fresh callbacks sipCallID m) as (He & _ & _).
    apply (f_equal snd) in He. cbn [established snd] in He. apply identity_facts in He.
    rewrite create_participants_facts in He. apply (f_equal (@List.length _)) in He.
    rewrite !length_map, length_take in He. exact He.
  - intros Hn. destruct (update_unfold clock s m) as [Hu _]. apply (f_equal rs_Participants) in Hu. cbv zeta in Hu.
    set (s' := updateRecordingSession clock s m) in *. clearbody s'.
    transitivity (List.length (map participant_facts (rs_Participants (but_ext s')))).
    { by destruct s'; rewrite length_map. }
    rewrite Hu. destruct (refreshed clock s m). cbn. destruct (md_Participants m) as [|p l]; [done|].
    rewrite rebuild_participants_facts. by rewrite length_map.
Qed.

(** ** Responses *)

Lemma response_metadata_document `{Unicode} `{Rfc3339} s :
  let d := response_document (response_metadata s) in
  md_Sequence d = (if i64 (rs_SequenceNumber s + 1) <=? 0 then 1 else i64 (rs_SequenceNumber s + 1)) /\
  md_Participants d = map failover_participant (rs_Participants s) /\ md_Sessions d = [] /\
  List.length (md_Streams d) = List.length (response_labels s).
Proof.
  cbv zeta. unfold response_document. cbv zeta. rewrite Normalize_unfold. cbv zeta.
  change (md_Sequence ((response_metadata s) <| md_State := _ |>)) with (i64 (rs_SequenceNumber s + 1)).
  destruct (_ <=? 0); cbn [response_metadata]; cbn -[response_labels failover_participant response_stream];
    rewrite map_map, length_map, length_imap; (split_and!; [done| |done..]);
    apply map_ext, normalize_failover_participant.
Qed.

(** The metadata of a response.  When the document cannot be marshalled the
    session is unchanged and the error is the marshaller's.  Otherwise the body
    is the multipart of the SDP and the marshalled document, the document lists
    the session's participants, one for one, and as many streams as the session
    has labels, the session is left with a state, and its sequence number is the
    document's, one above the old one; only at the end of the 64-bit range does
    the number stay and the document start over at one. *)
Theorem response_advances_sequence `{Unicode} `{Rfc3339} (xml_Marshal : RSMetadata -> string + string)
    (id sdp : string) (now : Time) (s : RecordingSession) :
  let d := response_document (response_metadata s) in
  match generateSiprecResponse xml_Marshal id now sdp s with
  | (inr err, s') => s' = s /\ exists e, xml_Marshal d = inr e /\ err = RespMarshal e
  | (inl body, s') =>
    (exists xml, xml_Marshal d = inl xml /\ body = CreateMultipartResponse id sdp (xml_header +:+ xml)) /\
    map rp_ID (md_Participants d) = map pt_ID (rs_Participants s) /\
    List.length (md_Streams d) = List.length (response_labels s) /\
    rs_ID s' = rs_ID s /\ rs_Participants s' = rs_Participants s /\ rs_RecordingState s' <> "" /\
    (0 <= rs_SequenceNumber s < 2 ^ 63 - 1 ->
       md_Sequence d = rs_SequenceNumber s + 1 /\ rs_SequenceNumber s' = rs_SequenceNumber s + 1) /\
    (rs_SequenceNumber s = 2 ^ 63 - 1 ->
       md_Sequence d = 1 /\ rs_SequenceNumber s' = rs_SequenceNumber s)
  end.
Proof.
  cbv zeta. destruct (response_metadata_document s) as (Hseq & Hps & _ & Hst). cbv zeta in *.
  unfold generateSiprecResponse, CreateMetadataResponse. cbv zeta. cbn [fst].
  set (d := response_document _) in *. clearbody d. destruct (xml_Marshal d) as [xml|err]; [|eauto].
  split_and!; [by exists xml| | | | | | |].
  1: rewrite Hps, map_map; by apply map_ext; intros [].
  1: exact Hst.
  all: change (md_Sequence (response_metadata s)) with (i64 (rs_SequenceNumber s + 1));
    change (md_State (response_metadata s)) with (or_else (rs_RecordingState s) "active").
  1-3: unfold or_else; destruct (String.eqb (rs_RecordingState s) "") eqn:E; rewrite ?E; cbn [String.eqb];
    destruct (0 <? _); destruct s; cbn in *; bool_to_prop; done.
  - intros Hr. unfold i64 in *. rewrite Hseq, (wrap_s_id 64 (rs_SequenceNumber s + 1)) by (unfold in_s; cbn; lia).
    replace (_ <=? 0) with false by lia. replace (0 <? _) with true by lia.
    by destruct (String.eqb _ ""), s.
  - intros Hr. rewrite Hseq, Hr. change (i64 (2 ^ 63 - 1 + 1)) with (- 2 ^ 63). split; [done|].
    change (0 <? - 2 ^ 63) with false. rewrite <- Hr. by destruct (String.eqb _ ""), s.
Qed.

(** The response document has no session element, so the validator of this
    server never accepts a response of this server. *)
Theorem response_never_well_formed `{Unicode} `{Rfc3339} (s : RecordingSession) (allow : bool) :
  ~ well_formed allow (response_document (response_metadata s)).
Proof.
  destruct (response_metadata_document s) as (_ & _ & Hs & _). intros Hw. cbv zeta in Hs.
  destruct Hw as [_ _ _ _ _ _ _ _ _ _ _ _ _ Hex _ _ _]. rewrite Hs in Hex.
  destruct Hex as (x & Hx%elem_of_nil & _). done.
Qed.
