(* ===== verification/RtpStats.v ===== *)
(** * RTP reception statistics

    [src/pkg/media/rtp_stats.go]: the extended highest sequence number, packet
    counts and interarrival jitter of a stream, and the RTCP reception report
    built from them.  The counters are 32-bit and wrap; jitter is a double.  A
    packet of the RTP library is the header fields the code reads and the payload. *)

From S2P Require Import Prelude GoFloat.
#[local] Open Scope Z_scope.

Record RtpPacket := mkRtpPacket {
  pk_SequenceNumber : Z;
  pk_Timestamp : Z;
  pk_SSRC : Z;
  pk_PayloadType : Z;
  pk_Payload : list Z
}.

Record rtpStreamStats := mkRtpStreamStats {
  st_clockRate : spec_float;
  st_baseSeq : Z;
  st_maxSeq : Z;
  st_cycles : Z;
  st_expectedPrior : Z;
  st_receivedPrior : Z;
  st_received : Z;
  st_lastArrival : Z;
  st_lastTimestamp : Z;
  st_lastTransit : spec_float;
  st_jitter : spec_float;
  st_initialized : bool
}.

Definition newRTPStreamStats : rtpStreamStats :=
  mkRtpStreamStats (f64_of_int 8000) 0 0 0 0 0 0 0 0 f64_zero f64_zero false.

Definition SetClockRate (rate : Z) (s : rtpStreamStats) : rtpStreamStats :=
  if rate <=? 0 then s else s <| st_clockRate := f64_of_int rate |>.

(** The wrap-around detection and the extended sequence number. *)
Definition update_sequence_number (seq : Z) (s : rtpStreamStats) : rtpStreamStats :=
  let low := Z.land (st_maxSeq s) 65535 in
  let s := if (seq <? low) && (32768 <? u32 (low - seq))
           then s <| st_cycles := u32 (st_cycles s + 65536) |> else s in
  let extendedSeq := Z.lor (st_cycles s) seq in
  if st_maxSeq s <? extendedSeq then s <| st_maxSeq := extendedSeq |> else s.

(** The interarrival jitter of RFC 3550. *)
Definition update_jitter (timestamp arrival : Z) (s : rtpStreamStats) : rtpStreamStats :=
  if negb (st_lastArrival s =? 0) && f64_lt f64_zero (st_clockRate s) then
    let arrivalDiff := duration_seconds (time_sub arrival (st_lastArrival s)) in
    let rtpTimestampDiff := i32 (u32 (timestamp - st_lastTimestamp s)) in
    let transit := f64_sub arrivalDiff (f64_div (f64_of_int rtpTimestampDiff) (st_clockRate s)) in
    let transit := if f64_lt transit f64_zero then f64_opp transit else transit in
    s <| st_jitter := f64_add (st_jitter s) (f64_div (f64_sub transit (st_jitter s)) (f64_of_int 16)) |>
      <| st_lastTransit := transit |>
  else s.

Definition Update (pkt : option RtpPacket) (arrival : Z) (s : rtpStreamStats) : rtpStreamStats :=
  match pkt with
  | None => s
  | Some p =>
    let seq := pk_SequenceNumber p in
    if negb (st_initialized s) then
      s <| st_baseSeq := seq |> <| st_maxSeq := seq |> <| st_received := 1 |>
        <| st_initialized := true |> <| st_lastArrival := arrival |>
        <| st_lastTimestamp := pk_Timestamp p |> <| st_lastTransit := f64_zero |>
        <| st_jitter := f64_zero |>
    else
      let s := update_sequence_number seq s in
      let s := s <| st_received := u32 (st_received s + 1) |> in
      let s := update_jitter (pk_Timestamp p) arrival s in
      s <| st_lastArrival := arrival |> <| st_lastTimestamp := pk_Timestamp p |>
  end.

(** The RTCP library's report block. *)
Record ReceptionReport := mkReceptionReport {
  rr_SSRC : Z;
  rr_FractionLost : Z;
  rr_TotalLost : Z;
  rr_LastSequenceNumber : Z;
  rr_Jitter : Z;
  rr_LastSenderReport : Z;
  rr_Delay : Z
}.

Definition expected_packets (s : rtpStreamStats) : Z := u32 (u32 (st_maxSeq s - st_baseSeq s) + 1).

(** [outside] is what the conversion of an unrepresentable jitter gives. *)
Definition buildReceptionReport (outside ssrc : Z) (s : rtpStreamStats)
    : option ReceptionReport * rtpStreamStats :=
  if negb (st_initialized s) then (None, s) else
  let expected := expected_packets s in
  let lost := Z.max 0 (expected - st_received s) in
  let expectedInterval := u32 (expected - st_expectedPrior s) in
  let receivedInterval := u32 (st_received s - st_receivedPrior s) in
  let lostInterval := u32 (expectedInterval - receivedInterval) in
  let fraction := if negb (expectedInterval =? 0) && (0 <? lostInterval)
                  then u8 (u32 (Z.shiftl lostInterval 8) / expectedInterval) else 0 in
  let totalLost := Z.min (u32 lost) 16777215 in
  (Some (mkReceptionReport ssrc fraction totalLost (st_maxSeq s)
           (f64_to_int outside 0 (2 ^ 32 - 1) (f64_round (f64_mul (st_jitter s) (st_clockRate s)))) 0 0),
   s <| st_expectedPrior := expected |> <| st_receivedPrior := st_received s |>).

Definition Snapshot (s : rtpStreamStats) : spec_float * spec_float * Z :=
  if negb (st_initialized s) then (f64_zero, f64_zero, 0) else
  let expected := if expected_packets s =? 0 then 1 else expected_packets s in
  let lost := f64_div (f64_of_int (u32 (expected - st_received s))) (f64_of_int expected) in
  let lost := if f64_lt lost f64_zero then f64_zero else lost in
  (lost, st_jitter s, st_received s).

(** ** The extended sequence number *)

Lemma low_bits m : Z.land m 65535 = m mod 65536.
Proof. change 65535 with (Z.ones 16). by rewrite Z.land_ones. Qed.

Lemma lor_low a seq : a mod 65536 = 0 -> 0 <= seq < 65536 -> Z.lor a seq = a + seq.
Proof.
  intros Ha Hs. rewrite <- Z.add_lor_land. enough (Z.land a seq = 0) by lia.
  apply Z.bits_inj'. intros n Hn. rewrite Z.land_spec, Z.bits_0. apply andb_false_iff.
  destruct (decide (n < 16)).
  - left. rewrite <- (Z.mod_pow2_bits_low a 16 n) by lia. change (2 ^ 16) with 65536.
    by rewrite Ha, Z.bits_0.
  - right. rewrite <- (Z.mod_small seq (2 ^ 16)) by lia. apply Z.mod_pow2_bits_high. lia.
Qed.

(** The statistics of a stream whose numbers start at [base], have the maximum
    [max] and of which [n] packets were counted. *)
Record tracks (base max n : Z) (s : rtpStreamStats) : Prop := {
  tr_init : st_initialized s = true;
  tr_base : st_baseSeq s = base;
  tr_max : st_maxSeq s = max;
  tr_cycles : st_cycles s = max - max mod 65536;
  tr_received : st_received s = u32 n
}.

(** A packet whose extended number is [e]. *)
Definition packet_at (e timestamp : Z) : RtpPacket := mkRtpPacket (u16 e) timestamp 0 0 [].

Lemma update_seq_spec base max n s e :
  tracks base max n s -> 0 <= max < 2 ^ 32 -> 0 <= e < 2 ^ 32 ->
  max / 65536 <= e / 65536 -> Z.abs (e - max) < 32768 ->
  let s' := update_sequence_number (u16 e) s in
  st_maxSeq s' = Z.max max e /\ st_cycles s' = Z.max max e - Z.max max e mod 65536 /\
  st_initialized s' = true /\ st_baseSeq s' = base /\ st_received s' = u32 n.
Proof.
  destruct s as [rate sb sm cyc ep rp rc la lt ltr jit init].
  intros [Hi Hb Hm Hc Hr] Hmax He Hcyc Hd. cbn in Hi, Hb, Hm, Hc, Hr. subst init sb sm cyc rc.
  unfold update_sequence_number. cbn.
  rewrite low_bits. change (u16 e) with (e mod 65536).
  pose proof (Z.div_mod e 65536). pose proof (Z.mod_pos_bound e 65536).
  pose proof (Z.div_mod max 65536). pose proof (Z.mod_pos_bound max 65536).
  assert (Hq : e / 65536 = max / 65536 \/ e / 65536 = max / 65536 + 1) by lia.
  assert (Hmod : (max - max mod 65536) mod 65536 = 0)
    by (rewrite Zminus_mod_idemp_r, Z.sub_diag; done).
  assert (Ht : (e mod 65536 <? max mod 65536) && (32768 <? u32 (max mod 65536 - e mod 65536)) =
     (max / 65536 <? e / 65536)).
  { destruct (Z.ltb_spec (e mod 65536) (max mod 65536)); cbn.
    - unfold u32. rewrite wrap_u_id by (unfold in_u; lia).
      destruct (Z.ltb_spec 32768 (max mod 65536 - e mod 65536)), (Z.ltb_spec (max / 65536) (e / 65536)); lia.
    - destruct (Z.ltb_spec (max / 65536) (e / 65536)); lia. }
  rewrite Ht. destruct (Z.ltb_spec (max / 65536) (e / 65536)) as [Hl|Hl]; cbn.
  - unfold u32. rewrite wrap_u_id by (unfold in_u; lia).
    replace (max - max mod 65536 + 65536) with (e - e mod 65536) by lia.
    rewrite lor_low by (lia || (rewrite Zminus_mod_idemp_r, Z.sub_diag; done)).
    destruct (Z.ltb_spec max (e - e mod 65536 + e mod 65536)); [|lia]. cbn.
    rewrite Z.max_r by lia. repeat split; try done; lia.
  - rewrite lor_low by lia.
    destruct (Z.ltb_spec max (max - max mod 65536 + e mod 65536)); cbn.
    + rewrite Z.max_r by lia. repeat split; try done; lia.
    + rewrite Z.max_l by lia. repeat split; try done; lia.
Qed.

(** A packet from before the wrap is taken for one of the current cycle. *)
Lemma update_seq_late base max n s e :
  tracks base max n s -> 0 <= max < 2 ^ 32 -> e / 65536 = max / 65536 - 1 -> max - e < 32768 ->
  st_maxSeq (update_sequence_number (u16 e) s) = e + 65536.
Proof.
  destruct s as [rate sb sm cyc ep rp rc la lt ltr jit init].
  intros [_ _ Hm Hc _] Hmax Hcyc Hd. cbn in Hm, Hc. subst sm cyc.
  unfold update_sequence_number. cbn. rewrite low_bits. change (u16 e) with (e mod 65536).
  pose proof (Z.div_mod e 65536). pose proof (Z.mod_pos_bound e 65536).
  pose proof (Z.div_mod max 65536). pose proof (Z.mod_pos_bound max 65536).
  destruct (Z.ltb_spec (e mod 65536) (max mod 65536)); [lia|]. cbn.
  rewrite lor_low by (lia || (rewrite Zminus_mod_idemp_r, Z.sub_diag; done)).
  destruct (Z.ltb_spec max (max - max mod 65536 + e mod 65536)); cbn; lia.
Qed.

Lemma update_jitter_frame ts arrival s :
  exists j t, update_jitter ts arrival s = s <| st_jitter := j |> <| st_lastTransit := t |>.
Proof.
  unfold update_jitter. destruct (_ && _); [eauto|].
  exists (st_jitter s), (st_lastTransit s). by destruct s.
Qed.

Lemma update_fields ts arrival s seq ssrc pt payload :
  st_initialized s = true ->
  let s' := Update (Some (mkRtpPacket seq ts ssrc pt payload)) arrival s in
  let q := update_sequence_number seq s in
  st_initialized s' = st_initialized q /\ st_baseSeq s' = st_baseSeq q /\
  st_maxSeq s' = st_maxSeq q /\ st_cycles s' = st_cycles q /\
  st_received s' = u32 (st_received q + 1) /\
  st_expectedPrior s' = st_expectedPrior q /\ st_receivedPrior s' = st_receivedPrior q.
Proof.
  intros Hi. unfold Update. rewrite Hi. cbn.
  edestruct update_jitter_frame as (j & t & ->). by destruct (update_sequence_number seq s).
Qed.

Lemma update_tracks base max n s e ts arrival :
  tracks base max n s -> 0 <= max < 2 ^ 32 -> 0 <= e < 2 ^ 32 ->
  max / 65536 <= e / 65536 -> Z.abs (e - max) < 32768 ->
  tracks base (Z.max max e) (n + 1) (Update (Some (packet_at e ts)) arrival s).
Proof.
  intros Ht Hmax He Hcyc Hd.
  destruct (update_fields ts arrival s (u16 e) 0 0 [] (tr_init _ _ _ _ Ht)) as (Ei & Eb & Em & Ec & Er & _).
  destruct (update_seq_spec _ _ _ _ _ Ht Hmax He Hcyc Hd) as (Hm & Hc & Hi & Hb & Hr).
  split; unfold packet_at; [congruence..|].
  rewrite Er, Hr. unfold u32, wrap_u. by rewrite Zplus_mod_idemp_l.
Qed.

(** Packets with extended number, timestamp and arrival time, in the order of
    arrival. *)
Definition feed (l : list (Z * Z * Z)) (s : rtpStreamStats) : rtpStreamStats :=
  foldl (fun s '(e, ts, arrival) => Update (Some (packet_at e ts)) arrival s) s l.

(** Reordering below half the number space, and never across a wrap. *)
Fixpoint in_reach (max : Z) (l : list (Z * Z * Z)) : Prop :=
  match l with
  | [] => True
  | (e, _, _) :: l =>
      0 <= e < 2 ^ 32 /\ max / 65536 <= e / 65536 /\ Z.abs (e - max) < 32768 /\
      in_reach (Z.max max e) l
  end.

Definition highest (max : Z) (l : list (Z * Z * Z)) : Z :=
  foldl (fun m '(e, _, _) => Z.max m e) max l.

Lemma feed_tracks base max n l s :
  tracks base max n s -> 0 <= max < 2 ^ 32 -> in_reach max l ->
  tracks base (highest max l) (n + Z.of_nat (length l)) (feed l s).
Proof.
  revert max n s. induction l as [|[[e ts] arrival] l IH]; intros max n s Ht Hmax Hl.
  { cbn. by rewrite Z.add_0_r. }
  destruct Hl as (He & Hc & Hd & Hl). cbn [highest feed foldl length].
  replace (n + Z.of_nat (S (length l))) with ((n + 1) + Z.of_nat (length l)) by lia.
  apply IH; [by apply update_tracks|lia|done].
Qed.

Lemma highest_ge max l : max <= highest max l.
Proof.
  revert max. induction l as [|[[e ?] ?] l IH]; intros max; [cbn; lia|].
  cbn. specialize (IH (Z.max max e)). unfold highest in IH. lia.
Qed.

Lemma highest_bound max l : 0 <= max < 2 ^ 32 -> in_reach max l -> highest max l < 2 ^ 32.
Proof.
  revert max. induction l as [|[[e ?] ?] l IH]; intros max Hm; [cbn; lia|].
  intros (He & _ & _ & Hl). cbn. apply IH; [lia|done].
Qed.

(** ** Properties *)

(** After any stream of packets, reordered by less than half the number
    space and wrapping any number of times (but not reordered across a wrap), the
    report carries the true extended highest number, and as total loss the
    packets expected from the first number on minus the packets received, at
    least zero and at most the 24 bits of the field. *)
Theorem rtp_stream_report (outside ssrc e0 ts arrival : Z) (l : list (Z * Z * Z)) :
  0 <= e0 < 65536 -> in_reach e0 l -> Z.of_nat (length l) + 1 < 2 ^ 32 ->
  highest e0 l - e0 + 1 < 2 ^ 32 ->
  let s := feed ((e0, ts, arrival) :: l) newRTPStreamStats in
  exists r, (buildReceptionReport outside ssrc s).1 = Some r /\
    rr_LastSequenceNumber r = highest e0 l /\
    rr_TotalLost r =
      Z.min 16777215 (Z.max 0 ((highest e0 l - e0 + 1) - (Z.of_nat (length l) + 1))).
Proof.
  intros He0 Hl Hlen Hexp s.
  assert (Ht : tracks e0 (highest e0 l) (1 + Z.of_nat (length l)) s).
  { subst s. cbn [feed foldl]. apply feed_tracks; [|lia|done].
    unfold packet_at, u16. rewrite wrap_u_id by (unfold in_u; lia).
    split; cbn; try done. rewrite Z.mod_small; lia. }
  clearbody s. destruct Ht as [Hi Hb Hm _ Hr]. pose proof (highest_ge e0 l). pose proof (highest_bound e0 l).
  assert (Hu : forall x, 0 <= x < 2 ^ 32 -> u32 x = x) by (intros; by apply wrap_u_id).
  unfold buildReceptionReport. rewrite Hi. eexists. split; [done|]. cbn.
  unfold expected_packets.
  rewrite Hb, Hm, Hr, (Hu (highest e0 l - e0)), (Hu (highest e0 l - e0 + 1)), (Hu (1 + _)) by lia.
  split; [done|]. rewrite Hu; lia.
Qed.

Lemma rtp_stream_report_witness :
  exists r, (buildReceptionReport 0 7
      (feed [(65534, 0, 5); (65535, 160, 25); (65537, 320, 45); (65536, 240, 46); (65540, 640, 90)]
         newRTPStreamStats)).1 = Some r /\
    rr_LastSequenceNumber r = 65540 /\ rr_TotalLost r = 2.
Proof.
  apply (rtp_stream_report 0 7 65534 0 5
           [(65535, 160, 25); (65537, 320, 45); (65536, 240, 46); (65540, 640, 90)]);
    repeat split; (exact I || (vm_compute; (reflexivity || discriminate))).
Defined.

Lemma report_fraction outside ssrc s :
  st_initialized s = true ->
  let ei := u32 (expected_packets s - st_expectedPrior s) in
  let ri := u32 (st_received s - st_receivedPrior s) in
  exists r, buildReceptionReport outside ssrc s =
      (Some r, s <| st_expectedPrior := expected_packets s |> <| st_receivedPrior := st_received s |>) /\
    rr_FractionLost r = if negb (ei =? 0) && (0 <? u32 (ei - ri))
                        then u8 (u32 (256 * u32 (ei - ri)) / ei) else 0.
Proof.
  intros Hi ei ri. unfold buildReceptionReport. rewrite Hi. eexists. split; [done|]. cbn.
  by rewrite Z.shiftl_mul_pow2, Z.mul_comm by lia.
Qed.

(** The fraction lost is that of the interval since the last report, in
    256ths and rounded down, and the report starts a new interval. *)
Theorem rtp_fraction_lost (outside ssrc : Z) (s : rtpStreamStats) (ei ri : Z) :
  st_initialized s = true ->
  expected_packets s = st_expectedPrior s + ei -> st_received s = st_receivedPrior s + ri ->
  0 < ri <= ei -> ei < 2 ^ 32 -> ei - ri < 2 ^ 24 ->
  let '(r, s') := buildReceptionReport outside ssrc s in
  (exists r', r = Some r' /\ rr_FractionLost r' = 256 * (ei - ri) / ei /\ 0 <= rr_FractionLost r' < 256) /\
  st_expectedPrior s' = expected_packets s /\ st_receivedPrior s' = st_received s.
Proof.
  intros Hi He Hr Hri Hei Hlost. destruct (report_fraction outside ssrc s Hi) as (r & -> & Hf).
  split; [|by destruct s].
  assert (Hu : forall x, 0 <= x < 2 ^ 32 -> u32 x = x) by (intros; by apply wrap_u_id).
  rewrite He, Hr in Hf. rewrite (Hu (_ + ei - _)), (Hu (_ + ri - _)) in Hf by lia.
  replace (st_expectedPrior s + ei - st_expectedPrior s) with ei in Hf by lia.
  replace (st_receivedPrior s + ri - st_receivedPrior s) with ri in Hf by lia.
  rewrite (Hu (ei - ri)), Hu in Hf by lia.
  assert (Hb : 0 <= 256 * (ei - ri) / ei < 256).
  { split; [apply Z.div_pos; lia|]. apply Z.div_lt_upper_bound; lia. }
  exists r. split; [done|]. rewrite Hf. destruct (Z.eqb_spec ei 0); [lia|]. cbn.
  destruct (Z.ltb_spec 0 (ei - ri)).
  - unfold u8. rewrite wrap_u_id by (unfold in_u; lia). lia.
  - replace (ei - ri) with 0 by lia. rewrite Z.mul_0_r, Z.div_0_l by lia. lia.
Qed.

Definition reported (base max received expectedPrior receivedPrior : Z) : rtpStreamStats :=
  mkRtpStreamStats (f64_of_int 8000) base max 0 expectedPrior receivedPrior received 0 0
    f64_zero f64_zero true.

Lemma rtp_fraction_lost_witness :
  let '(r, s') := buildReceptionReport 0 7 (reported 100 249 145 100 100) in
  (exists r', r = Some r' /\ rr_FractionLost r' = 256 * (50 - 45) / 50 /\ 0 <= rr_FractionLost r' < 256) /\
  st_expectedPrior s' = 150 /\ st_receivedPrior s' = 145.
Proof.
  apply (rtp_fraction_lost 0 7 (reported 100 249 145 100 100) 50 45); (reflexivity || lia).
Defined.

(** When duplicates make the packets received in an interval outnumber the
    expected ones, the unsigned difference wraps around and passes the test for a
    loss: the reported fraction is a remainder that has nothing to do with the
    stream, where RFC 3550 and a signed difference give zero. *)
Theorem rtp_fraction_duplicates (outside ssrc : Z) (s : rtpStreamStats) (ei k : Z) :
  st_initialized s = true ->
  expected_packets s = st_expectedPrior s + ei ->
  st_received s = st_receivedPrior s + (ei + k) ->
  0 < ei -> 0 < k < 2 ^ 24 -> ei + k < 2 ^ 32 ->
  exists r, (buildReceptionReport outside ssrc s).1 = Some r /\
    rr_FractionLost r = 256 * ((2 ^ 24 - k) mod ei) / ei.
Proof.
  intros Hi He Hr Hei Hk Hb. destruct (report_fraction outside ssrc s Hi) as (r & -> & Hf).
  exists r. split; [done|].
  assert (Hu : forall x, 0 <= x < 2 ^ 32 -> u32 x = x) by (intros; by apply wrap_u_id).
  rewrite He, Hr in Hf. rewrite (Hu (_ + ei - _)), (Hu (_ + (ei + k) - _)) in Hf by lia.
  replace (st_expectedPrior s + ei - st_expectedPrior s) with ei in Hf by lia.
  replace (st_receivedPrior s + (ei + k) - st_receivedPrior s) with (ei + k) in Hf by lia.
  assert (Hw : u32 (ei - (ei + k)) = 2 ^ 32 - k).
  { unfold u32, wrap_u. symmetry. apply (Z.mod_unique_pos _ _ (-1)); lia. }
  assert (Hs : u32 (256 * (2 ^ 32 - k)) = 256 * (2 ^ 24 - k)).
  { unfold u32, wrap_u. symmetry. apply (Z.mod_unique_pos _ _ 255); lia. }
  rewrite Hw, Hs in Hf. rewrite Hf. destruct (Z.eqb_spec ei 0); [lia|].
  destruct (Z.ltb_spec 0 (2 ^ 32 - k)); [|lia]. cbn [andb negb].
  set (X := 2 ^ 24 - k). pose proof (Z.div_mod X ei). pose proof (Z.mod_pos_bound X ei).
  replace (256 * X) with (256 * (X mod ei) + 256 * (X / ei) * ei) by lia.
  rewrite Z.div_add by lia. unfold u8, wrap_u. change (2 ^ 8) with 256.
  rewrite (Z.mul_comm 256 (X / ei)), Z.mod_add by lia. apply Z.mod_small.
  split; [apply Z.div_pos; lia|]. apply Z.div_lt_upper_bound; lia.
Qed.

Lemma rtp_fraction_duplicates_witness :
  exists r, (buildReceptionReport 0 7 (reported 100 249 151 100 100)).1 = Some r /\
    rr_FractionLost r = 76.
Proof.
  apply (rtp_fraction_duplicates 0 7 (reported 100 249 151 100 100) 50 1); (reflexivity || lia).
Defined.

(** A packet that was sent before a wrap of the sequence numbers and arrives
    after it is counted in the new cycle: the extended highest number jumps ahead
    of the stream by more than half the number space, and as many packets are
    reported lost that were never sent. *)
Theorem rtp_late_packet_after_wrap (base max n e ts arrival : Z) (s : rtpStreamStats) :
  tracks base max n s -> 0 <= base <= max -> max + 65536 < 2 ^ 32 ->
  e / 65536 = max / 65536 - 1 -> max - e < 32768 ->
  let s' := Update (Some (packet_at e ts)) arrival s in
  st_maxSeq s' = e + 65536 /\ max + 32768 < st_maxSeq s' /\
  expected_packets s + 32768 < expected_packets s'.
Proof.
  intros Ht Hb Hm Hc Hd s'.
  destruct (update_fields ts arrival s (u16 e) 0 0 [] (tr_init _ _ _ _ Ht)) as (_ & Eb & Em & _).
  change (Update _ _ _) with s' in Eb, Em. clearbody s'.
  rewrite (update_seq_late base max n s e) in Em by (done || lia).
  assert (Hbase : st_baseSeq (update_sequence_number (u16 e) s) = base).
  { rewrite <- (tr_base _ _ _ _ Ht). unfold update_sequence_number. case_tests; by destruct s. }
  assert (Hu : forall x, 0 <= x < 2 ^ 32 -> u32 x = x) by (intros; by apply wrap_u_id).
  pose proof (Z.div_mod e 65536). pose proof (Z.mod_pos_bound e 65536).
  pose proof (Z.div_mod max 65536). pose proof (Z.mod_pos_bound max 65536).
  unfold expected_packets. rewrite Em, Eb, Hbase, (tr_base _ _ _ _ Ht), (tr_max _ _ _ _ Ht).
  rewrite (Hu (max - base)), (Hu (e + 65536 - base)), !Hu by lia. lia.
Qed.

Lemma rtp_late_packet_after_wrap_witness :
  let s := feed [(65534, 0, 5); (65536, 320, 45); (65537, 480, 65)] newRTPStreamStats in
  let s' := Update (Some (packet_at 65535 160)) 70 s in
  st_maxSeq s' = 65535 + 65536 /\ 65537 + 32768 < st_maxSeq s' /\
  expected_packets s + 32768 < expected_packets s'.
Proof.
  apply (rtp_late_packet_after_wrap 65534 65537 3); [split; reflexivity|lia|lia|reflexivity|lia].
Defined.

(** With more packets than expected, as after duplicates, the loss ratio of
    the snapshot is that of four billion lost packets: the subtraction is
    unsigned, so the guard against a negative loss never applies. *)
Theorem rtp_snapshot_duplicates (s : rtpStreamStats) :
  st_initialized s = true -> 0 < expected_packets s < st_received s -> st_received s < 2 ^ 32 ->
  Snapshot s = (f64_div (f64_of_int (2 ^ 32 - (st_received s - expected_packets s)))
                  (f64_of_int (expected_packets s)), st_jitter s, st_received s).
Proof.
  intros Hi He Hr. unfold Snapshot. rewrite Hi. cbn.
  destruct (Z.eqb_spec (expected_packets s) 0); [lia|].
  replace (u32 (expected_packets s - st_received s)) with (2 ^ 32 - (st_received s - expected_packets s)).
  2:{ unfold u32, wrap_u. apply (Z.mod_unique_pos _ _ (-1)); lia. }
  rewrite f64_lt_zero; [done|]. apply f64_div_nonneg; apply f64_of_int_nonneg; lia.
Qed.

Lemma rtp_snapshot_duplicates_witness :
  (Snapshot (feed [(100, 0, 5); (100, 0, 6)] newRTPStreamStats)).1.1 = f64_of_int 4294967295.
Proof.
  rewrite (rtp_snapshot_duplicates (feed [(100, 0, 5); (100, 0, 6)] newRTPStreamStats));
    [vm_compute; reflexivity|reflexivity|vm_compute; split; reflexivity|reflexivity].
Defined.
