(* ===== verification/WavFile.v ===== *)
(** * WAV files

    [src/pkg/media/wav_writer.go] and [wav_reader.go]: writing 16-bit PCM into a
    RIFF/WAVE container while a call is recorded, and reading it back.  A file is
    its bytes and a position; operations of the operating system on it succeed
    (the code passes their errors on), while the end of the file, malformed
    headers and the run-time panics of out-of-range slices and division by zero
    are results of the model. *)

From S2P Require Import Prelude GoStrings.
#[local] Open Scope string_scope.
#[local] Open Scope list_scope.
#[local] Open Scope Z_scope.

(** ** Files *)

Record File := mkFile { fl_data : list Z; fl_pos : Z }.

Inductive read_error := EOF | ErrUnexpectedEOF.

#[export] Instance read_error_eq_dec : EqDecision read_error.
Proof. solve_decision. Defined.

Definition flength {A} (l : list A) : Z := Z.of_nat (length l).

Definition seek_start (n : Z) (f : File) : File := f <| fl_pos := n |>.
Definition seek_current (n : Z) (f : File) : File := f <| fl_pos := fl_pos f + n |>.
Definition seek_end (f : File) : File := f <| fl_pos := flength (fl_data f) |>.

(** Writing over and past the end; a gap is filled with zeros. *)
Definition file_write (bs : list Z) (f : File) : File :=
  match bs with
  | [] => f
  | _ =>
    let pos := Z.to_nat (fl_pos f) in
    mkFile (take pos (fl_data f ++ replicate (pos - length (fl_data f)) 0) ++ bs ++
            drop (pos + length bs) (fl_data f))
           (fl_pos f + flength bs)
  end.

(** [io.ReadFull] with a buffer of [n] bytes. *)
Definition read_full (n : Z) (f : File) : list Z * option read_error * File :=
  let got := take (Z.to_nat n) (drop (Z.to_nat (fl_pos f)) (fl_data f)) in
  (got,
   if flength got =? n then None else if decide (got = []) then Some EOF else Some ErrUnexpectedEOF,
   seek_current (flength got) f).

(** Little-endian integers of [n] bytes. *)
Fixpoint le_put (n : nat) (x : Z) : list Z :=
  match n with O => [] | S n => x mod 256 :: le_put n (x / 256) end.

Definition le_get (l : list Z) : Z := foldr (fun b acc => b + 256 * acc) 0 l.

(** The slice [l[i:j]]. *)
Definition slice {A} (i j : nat) (l : list A) : list A := take (j - i) (drop i l).

Definition tag (s : string) : list Z := map byte_of (String.list_ascii_of_string s).
Definition RIFF : list Z := Eval cbv in tag "RIFF".
Definition WAVE : list Z := Eval cbv in tag "WAVE".
Definition FMT : list Z := Eval cbv in tag "fmt ".
Definition DATA : list Z := Eval cbv in tag "data".

(** ** The writer *)

Record WAVWriter := mkWAVWriter {
  ww_file : File;
  ww_sampleRate : Z;
  ww_channels : Z;
  ww_bytesWritten : Z;
  ww_headerWritten : bool;
  ww_finalized : bool
}.

(** The 44 header bytes, with the two sizes as arguments. *)
Definition wav_header (sampleRate channels riffSize dataSize : Z) : list Z :=
  RIFF ++ le_put 4 riffSize ++ WAVE ++ FMT ++ le_put 4 16 ++ le_put 2 1 ++
  le_put 2 (u16 channels) ++ le_put 4 (u32 sampleRate) ++
  le_put 4 (u32 (i64 (sampleRate * channels * 2))) ++ le_put 2 (u16 (channels * 2)) ++
  le_put 2 16 ++ DATA ++ le_put 4 dataSize.

Definition writeHeaderLocked (w : WAVWriter) : WAVWriter :=
  w <| ww_file := seek_end (file_write (wav_header (ww_sampleRate w) (ww_channels w) 36 0)
                              (seek_start 0 (ww_file w))) |>
    <| ww_headerWritten := true |>.

Definition updateSizesLocked (w : WAVWriter) : WAVWriter :=
  let f := file_write (le_put 4 (u32 (ww_bytesWritten w + 36))) (seek_start 4 (ww_file w)) in
  let f := file_write (le_put 4 (ww_bytesWritten w)) (seek_start 40 f) in
  w <| ww_file := seek_end f |>.

Definition rewriteHeaderLocked (w : WAVWriter) : WAVWriter :=
  if negb (ww_headerWritten w) then writeHeaderLocked w else
  let currentBytes := ww_bytesWritten w in
  let w := writeHeaderLocked w in
  updateSizesLocked (w <| ww_bytesWritten := currentBytes |>).

Inductive writer_error := NilFile | AlreadyFinalized.

Definition NewWAVWriter (file : option File) (sampleRate channels : Z) : writer_error + WAVWriter :=
  match file with
  | None => inl NilFile
  | Some f =>
    let sampleRate := if sampleRate <=? 0 then 8000 else sampleRate in
    let channels := if channels <=? 0 then 1 else channels in
    inr (writeHeaderLocked (mkWAVWriter f sampleRate channels 0 false false))
  end.

Definition SetFormat (sampleRate channels : Z) (w : WAVWriter) : option writer_error * WAVWriter :=
  if ww_finalized w then (Some AlreadyFinalized, w) else
  let w := if 0 <? sampleRate then w <| ww_sampleRate := sampleRate |> else w in
  let w := if 0 <? channels then w <| ww_channels := channels |> else w in
  (None, rewriteHeaderLocked w).

Definition WriterWrite (p : list Z) (w : WAVWriter) : Z * WAVWriter :=
  let w := if negb (ww_headerWritten w) then writeHeaderLocked w else w in
  (flength p,
   w <| ww_file := file_write p (ww_file w) |>
     <| ww_bytesWritten := u32 (ww_bytesWritten w + u32 (flength p)) |>).

Definition Finalize (w : WAVWriter) : WAVWriter :=
  if ww_finalized w then w else
  let w := if negb (ww_headerWritten w) then writeHeaderLocked w else w in
  (updateSizesLocked w) <| ww_finalized := true |>.

(** ** The reader *)

Inductive wav_error :=
  | ReadError (e : read_error)
  | MissingRiffHeader
  | UnsupportedFormat (format : Z)
  | UnsupportedBits (bits : Z).

(** A call returns a value, returns an error or panics. *)
Inductive outcome (A E : Type) := Ok (a : A) | Err (e : E) | Panics.
#[global] Arguments Ok {A E} a.
#[global] Arguments Err {A E} e.
#[global] Arguments Panics {A E}.

Record WAVReader := mkWAVReader {
  wr_file : File;
  wr_SampleRate : Z;
  wr_Channels : Z;
  wr_BitsPerSample : Z;
  wr_dataOffset : Z;
  wr_dataSize : Z;
  wr_bytesRead : Z
}.

(** The [fmt ] chunk of [size] bytes: it is read in full, and what exceeds 16
    bytes of it is skipped once more. *)
Definition fmt_chunk (size : Z) (wr : WAVReader) : outcome WAVReader wav_error :=
  let '(c, err, f) := read_full size (wr_file wr) in
  match err with
  | Some e => Err (ReadError e)
  | None =>
    if size <? 2 then Panics else
    let audioFormat := le_get (slice 0 2 c) in
    if negb (audioFormat =? 1) then Err (UnsupportedFormat audioFormat) else
    if size <? 16 then Panics else
    let bits := le_get (slice 14 16 c) in
    let wr := wr <| wr_file := f |> <| wr_Channels := le_get (slice 2 4 c) |>
                 <| wr_SampleRate := le_get (slice 4 8 c) |> <| wr_BitsPerSample := bits |> in
    if negb (bits =? 16) then Err (UnsupportedBits bits) else
    let extra := size - 16 in
    Ok (if 0 <? extra then wr <| wr_file := seek_current extra f |> else wr)
  end.

(** The loop over the chunks; it runs out of [fuel] before it ends only when
    there is too little of it. *)
Fixpoint parse_chunks (fuel : nat) (fmtFound dataFound : bool) (wr : WAVReader)
    : option (outcome WAVReader wav_error) :=
  match fuel with
  | O => None
  | S fuel =>
    if fmtFound && dataFound then Some (Ok wr) else
    let '(h, err, f) := read_full 8 (wr_file wr) in
    match err with
    | Some e => Some (Err (ReadError e))
    | None =>
      let chunkID := slice 0 4 h in
      let chunkSize := le_get (slice 4 8 h) in
      let wr := wr <| wr_file := f |> in
      if decide (chunkID = FMT) then
        match fmt_chunk chunkSize wr with
        | Ok wr => parse_chunks fuel true dataFound wr
        | Err e => Some (Err e)
        | Panics => Some Panics
        end
      else if decide (chunkID = DATA) then
        parse_chunks fuel fmtFound true
          (wr <| wr_dataOffset := fl_pos f |> <| wr_dataSize := chunkSize |>
              <| wr_file := seek_current chunkSize f |>)
      else
        parse_chunks fuel fmtFound dataFound (wr <| wr_file := seek_current chunkSize f |>)
    end
  end.

(** Back to the samples; an unfinalized file has its data up to the end. *)
Definition locate_data (wr : WAVReader) : WAVReader :=
  let wr := wr <| wr_file := seek_start (wr_dataOffset wr) (wr_file wr) |> in
  if wr_dataSize wr =? 0 then
    let remaining := flength (fl_data (wr_file wr)) - wr_dataOffset wr in
    if 0 <? remaining then wr <| wr_dataSize := remaining |> else wr
  else wr.

Definition parseHeader (fuel : nat) (wr : WAVReader) : option (outcome WAVReader wav_error) :=
  let '(header, err, f) := read_full 12 (wr_file wr) in
  match err with
  | Some e => Some (Err (ReadError e))
  | None =>
    if negb (bool_decide (slice 0 4 header = RIFF)) || negb (bool_decide (slice 8 12 header = WAVE))
    then Some (Err MissingRiffHeader)
    else
      match parse_chunks fuel false false (wr <| wr_file := f |>) with
      | Some (Ok wr) => Some (Ok (locate_data wr))
      | r => r
      end
  end.

(** [NewWAVReader] on the bytes of the file; every chunk header takes eight of
    them. *)
Definition NewWAVReader (bytes : list Z) : option (outcome WAVReader wav_error) :=
  parseHeader (S (length bytes)) (mkWAVReader (mkFile bytes 0) 0 0 0 0 0 0).

(** 16-bit samples. *)
Fixpoint decode_samples (l : list Z) : list Z :=
  match l with
  | lo :: hi :: l => i16 (le_get [lo; hi]) :: decode_samples l
  | _ => []
  end.

Definition ReadSamples (maxSamples : Z) (wr : WAVReader)
    : outcome (list Z) read_error * WAVReader :=
  if wr_dataSize wr <=? wr_bytesRead wr then (Err EOF, wr) else
  let maxSamples := if maxSamples <=? 0 then 1024 else maxSamples in
  let bytesPerFrame := wr_Channels wr * Z.quot (wr_BitsPerSample wr) 8 in
  if bytesPerFrame =? 0 then (Panics, wr) else
  let remainingFrames := Z.quot (wr_dataSize wr - wr_bytesRead wr) bytesPerFrame in
  if remainingFrames <=? 0 then (Err EOF, wr) else
  let maxSamples := Z.min maxSamples remainingFrames in
  let '(buf, err, f) := read_full (maxSamples * bytesPerFrame) (wr_file wr) in
  let wr := wr <| wr_file := f |> in
  if bool_decide (err = Some EOF) then (Err EOF, wr) else
  let n := flength buf in
  if n =? 0 then (Err EOF, wr) else
  let frameCount := Z.quot n bytesPerFrame in
  (Ok (take (Z.to_nat (frameCount * wr_Channels wr)) (decode_samples buf)),
   wr <| wr_bytesRead := wr_bytesRead wr + n |>).

(** ** Bytes and samples *)

Lemma le_put_length n x : length (le_put n x) = n.
Proof. revert x. induction n as [|n IH]; intros x; cbn; [done|]. by rewrite IH. Qed.

Lemma le_put_bytes n x : Forall (in_u 8) (le_put n x).
Proof.
  revert x. induction n as [|n IH]; intros x; constructor; [|apply IH].
  apply (Z.mod_pos_bound x 256). lia.
Qed.

Lemma le_get_put n x : le_get (le_put n x) = x mod 2 ^ (8 * Z.of_nat n).
Proof.
  revert x. induction n as [|n IH]; intros x; [symmetry; apply Z.mod_1_r|].
  cbn [le_put le_get foldr]. fold (le_get (le_put n (x / 256))). rewrite IH.
  replace (8 * Z.of_nat (S n)) with (8 + 8 * Z.of_nat n) by lia.
  rewrite Z.pow_add_r by lia. change (2 ^ 8) with 256.
  rewrite Z.rem_mul_r by (try apply Z.pow_nonzero; lia). lia.
Qed.

Lemma le_get_put_id n x : 0 <= x < 2 ^ (8 * Z.of_nat n) -> le_get (le_put n x) = x.
Proof. intros H. rewrite le_get_put. by apply Z.mod_small. Qed.

Lemma le_get_nonneg l : Forall (in_u 8) l -> 0 <= le_get l.
Proof.
  induction 1 as [|b l Hb _ IH]; cbn; [lia|]. fold (le_get l). unfold in_u in Hb. lia.
Qed.

(** The bytes of samples, low byte first. *)
Definition encode (l : list Z) : list Z := flat_map (le_put 2) l.

Lemma encode_length l : length (encode l) = (2 * length l)%nat.
Proof.
  induction l as [|x l IH]; [done|].
  change (encode (x :: l)) with (le_put 2 x ++ encode l). rewrite length_app, IH, le_put_length. cbn. lia.
Qed.

Lemma encode_app l k : encode (l ++ k) = encode l ++ encode k.
Proof. apply flat_map_app. Qed.

Lemma decode_encode l : Forall (in_s 16) l -> decode_samples (encode l) = l.
Proof.
  induction 1 as [|x l Hx _ IH]; [done|].
  change (encode (x :: l)) with (le_put 2 x ++ encode l).
  change (le_put 2 x) with [x mod 256; x / 256 mod 256]. cbn [decode_samples app].
  rewrite IH. f_equal. change [x mod 256; x / 256 mod 256] with (le_put 2 x).
  rewrite le_get_put. unfold i16, wrap_s, in_s in *. cbn in *.
  rewrite Zplus_mod_idemp_l. rewrite Z.mod_small; lia.
Qed.

Lemma encode_cons x l : encode (x :: l) = x mod 256 :: x / 256 mod 256 :: encode l.
Proof. done. Qed.

Lemma take_encode n l : take (2 * n) (encode l) = encode (take n l).
Proof.
  revert n. induction l as [|x l IH]; intros n; [by destruct n|].
  destruct n as [|n]; [done|]. replace (2 * S n)%nat with (S (S (2 * n))) by lia.
  cbn [take]. rewrite !encode_cons. cbn [take]. by rewrite IH.
Qed.

Lemma drop_encode n l : drop (2 * n) (encode l) = encode (drop n l).
Proof.
  revert n. induction l as [|x l IH]; intros n; [by destruct n|].
  destruct n as [|n]; [done|]. replace (2 * S n)%nat with (S (S (2 * n))) by lia.
  rewrite encode_cons. cbn [drop]. apply IH.
Qed.

#[global] Arguments le_put : simpl never.
#[global] Arguments wav_header : simpl never.
#[global] Arguments file_write : simpl never.
#[global] Arguments flength : simpl never.
#[global] Arguments seek_start : simpl never.
#[global] Arguments seek_end : simpl never.
#[global] Arguments updateSizesLocked : simpl never.

(** ** Writing over parts of a file *)

Lemma file_write_over A B C bs :
  length bs = length B -> bs <> [] ->
  file_write bs (mkFile (A ++ B ++ C) (flength A)) = mkFile (A ++ bs ++ C) (flength A + flength bs).
Proof.
  intros Hl Hne. destruct bs as [|b bs]; [done|]. unfold file_write. cbn [fl_data fl_pos].
  unfold flength at 1 2 3. rewrite Nat2Z.id. f_equal. f_equal.
  - rewrite <- app_assoc, take_app_le, take_ge by lia. done.
  - f_equal. rewrite app_assoc, drop_app_ge by (rewrite length_app; lia).
    rewrite length_app, Hl, Nat.sub_diag. done.
Qed.

Lemma file_write_end data bs :
  file_write bs (mkFile data (flength data)) = mkFile (data ++ bs) (flength (data ++ bs)).
Proof.
  destruct bs as [|b bs]; [by rewrite app_nil_r|]. unfold file_write. cbn [fl_data fl_pos].
  unfold flength. rewrite Nat2Z.id, take_app_length, drop_ge, app_nil_r, length_app by lia.
  f_equal. lia.
Qed.

Definition wav_format (rate ch : Z) : list Z :=
  WAVE ++ FMT ++ le_put 4 16 ++ le_put 2 1 ++ le_put 2 (u16 ch) ++ le_put 4 (u32 rate) ++
  le_put 4 (u32 (i64 (rate * ch * 2))) ++ le_put 2 (u16 (ch * 2)) ++ le_put 2 16 ++ DATA.

Lemma wav_header_split rate ch r d :
  wav_header rate ch r d = RIFF ++ le_put 4 r ++ wav_format rate ch ++ le_put 4 d.
Proof. unfold wav_header, wav_format. by rewrite <- !app_assoc. Qed.

Lemma wav_header_length rate ch r d : length (wav_header rate ch r d) = 44%nat.
Proof. done. Qed.

(** ** The document a writer stands for

    The sizes the header declares are those of the last time it was written
    with sizes, by [SetFormat] or [Finalize]. *)

Record wav_doc := mkWavDoc {
  wd_rate : Z;
  wd_channels : Z;
  wd_declared : Z;
  wd_pcm : list Z;
  wd_final : bool
}.

Definition doc_bytes (d : wav_doc) : list Z :=
  wav_header (wd_rate d) (wd_channels d) (u32 (wd_declared d + 36)) (wd_declared d) ++ wd_pcm d.

Inductive wav_op := OpWrite (p : list Z) | OpSetFormat (rate ch : Z) | OpFinalize.

Definition wav_step (w : WAVWriter) (op : wav_op) : WAVWriter :=
  match op with
  | OpWrite p => (WriterWrite p w).2
  | OpSetFormat r c => (SetFormat r c w).2
  | OpFinalize => Finalize w
  end.

Definition positive_or (x default : Z) : Z := if x <=? 0 then default else x.

Definition doc_step (d : wav_doc) (op : wav_op) : wav_doc :=
  match op with
  | OpWrite p => d <| wd_pcm := wd_pcm d ++ p |>
  | OpSetFormat r c =>
      if wd_final d then d else
      d <| wd_rate := positive_or r (wd_rate d) |> <| wd_channels := positive_or c (wd_channels d) |>
        <| wd_declared := u32 (flength (wd_pcm d)) |>
  | OpFinalize =>
      if wd_final d then d else
      d <| wd_declared := u32 (flength (wd_pcm d)) |> <| wd_final := true |>
  end.

Definition doc_new (rate ch : Z) : wav_doc :=
  mkWavDoc (positive_or rate 8000) (positive_or ch 1) 0 [] false.

Record writes (w : WAVWriter) (d : wav_doc) : Prop := {
  wi_file : ww_file w = mkFile (doc_bytes d) (flength (doc_bytes d));
  wi_rate : ww_sampleRate w = wd_rate d;
  wi_channels : ww_channels w = wd_channels d;
  wi_bytes : ww_bytesWritten w = u32 (flength (wd_pcm d));
  wi_header : ww_headerWritten w = true;
  wi_final : ww_finalized w = wd_final d
}.

Lemma seek_start_mk n data pos : seek_start n (mkFile data pos) = mkFile data n.
Proof. done. Qed.

(** A new header over an old one of the same length, or in an empty file. *)
Lemma write_header_file rate ch r d old pcm f :
  fl_data f = old ++ pcm -> (length old = 44%nat \/ old = [] /\ pcm = []) ->
  seek_end (file_write (wav_header rate ch r d) (seek_start 0 f)) =
    mkFile (wav_header rate ch r d ++ pcm) (flength (wav_header rate ch r d ++ pcm)).
Proof.
  intros Hd Ho. destruct f as [data pos]. cbn in Hd. subst data. unfold seek_start. cbn.
  destruct Ho as [Ho|[-> ->]].
  - pose proof (file_write_over [] old pcm (wav_header rate ch r d)) as E.
    change (flength []) with 0 in E. cbn in E. rewrite E by (rewrite ?Ho; done). done.
  - cbn. change 0 with (flength (@nil Z)). rewrite (file_write_end [] (wav_header rate ch r d)), app_nil_r. done.
Qed.

Lemma update_sizes_file w rate ch r d pcm :
  fl_data (ww_file w) = wav_header rate ch r d ++ pcm ->
  updateSizesLocked w =
    w <| ww_file :=
      mkFile (wav_header rate ch (u32 (ww_bytesWritten w + 36)) (ww_bytesWritten w) ++ pcm)
        (flength (wav_header rate ch (u32 (ww_bytesWritten w + 36)) (ww_bytesWritten w) ++ pcm)) |>.
Proof.
  intros Hd. unfold updateSizesLocked. destruct w as [[data pos] sr c bw hw fin].
  cbn [ww_file ww_bytesWritten fl_data] in *. subst data. set (n := u32 (bw + 36)).
  rewrite !wav_header_split, <- !app_assoc, seek_start_mk.
  pose proof (file_write_over RIFF (le_put 4 r) (wav_format rate ch ++ le_put 4 d ++ pcm) (le_put 4 n)) as E.
  change (flength RIFF) with 4 in E. rewrite E by done. clear E. rewrite seek_start_mk.
  pose proof (file_write_over (RIFF ++ le_put 4 n ++ wav_format rate ch) (le_put 4 d) pcm (le_put 4 bw)) as E.
  change (flength (RIFF ++ _)) with 40 in E. rewrite <- !app_assoc in E. by rewrite E by done.
Qed.

Lemma new_writes rate ch :
  exists w, NewWAVWriter (Some (mkFile [] 0)) rate ch = inr w /\ writes w (doc_new rate ch).
Proof.
  eexists. split; [done|]. fold (positive_or rate 8000) (positive_or ch 1). by split.
Qed.

Lemma set_if_positive_rate r w :
  (if 0 <? r then w <| ww_sampleRate := r |> else w) =
  w <| ww_sampleRate := positive_or r (ww_sampleRate w) |>.
Proof. unfold positive_or. rewrite Z.ltb_antisym. by destruct (r <=? 0), w. Qed.

Lemma set_if_positive_channels c w :
  (if 0 <? c then w <| ww_channels := c |> else w) =
  w <| ww_channels := positive_or c (ww_channels w) |>.
Proof. unfold positive_or. rewrite Z.ltb_antisym. by destruct (c <=? 0), w. Qed.

Lemma step_writes w d op : writes w d -> writes (wav_step w op) (doc_step d op).
Proof.
  destruct w as [file sr c bw hw fin], d as [rate ch dec pcm final].
  intros [Hf Hr Hc Hb Hh Hfin]. cbn in Hf, Hr, Hc, Hb, Hh, Hfin. subst file sr c bw hw fin.
  destruct op as [p|r c|]; cbn [wav_step doc_step].
  - unfold WriterWrite. cbn. rewrite file_write_end. split; cbn; try done.
    unfold u32, wrap_u, flength. by rewrite length_app, Nat2Z.inj_add, <- Zplus_mod.
  - unfold SetFormat. cbn [ww_finalized wd_final]. destruct final; [by split|].
    rewrite set_if_positive_rate, set_if_positive_channels. unfold rewriteHeaderLocked. cbn [ww_headerWritten field_set negb].
    unfold writeHeaderLocked. cbn.
    rewrite (write_header_file _ _ _ _ (wav_header rate ch (u32 (dec + 36)) dec) pcm) by (done || by left).
    erewrite update_sizes_file by done. by split.
  - unfold Finalize. cbn [ww_finalized wd_final]. destruct final; [by split|].
    cbn. erewrite update_sizes_file by done. by split.
Qed.

Lemma run_writes w d ops : writes w d -> writes (foldl wav_step w ops) (foldl doc_step d ops).
Proof.
  revert w d. induction ops as [|op ops IH]; intros w d H; [done|]. cbn. by apply IH, step_writes.
Qed.

(** Whatever sequence of writes, format changes and finalizations a
    recording goes through, the file is at all times a 44-byte header for the
    current format followed by all the data written, in order; the header
    declares the sizes of the last format change or finalization, modulo 2^32. *)
Theorem wav_writer_refines (rate ch : Z) (ops : list wav_op) :
  exists w, NewWAVWriter (Some (mkFile [] 0)) rate ch = inr w /\
    fl_data (ww_file (foldl wav_step w ops)) = doc_bytes (foldl doc_step (doc_new rate ch) ops).
Proof.
  destruct (new_writes rate ch) as (w & Hw & H). exists w. split; [done|].
  by destruct (run_writes w (doc_new rate ch) ops H) as [-> _ _ _ _ _].
Qed.

(** ** Reading a document back *)

Lemma read_full_app A B C n :
  n = flength B ->
  read_full n (mkFile (A ++ B ++ C) (flength A)) = (B, None, mkFile (A ++ B ++ C) (flength A + n)).
Proof.
  intros ->. unfold read_full, flength. cbn. rewrite !Nat2Z.id, drop_app_length, take_app_length.
  by rewrite Z.eqb_refl.
Qed.

(** The parts of the header the reader takes at a time. *)
Definition fmt_body (rate ch : Z) : list Z :=
  le_put 2 1 ++ le_put 2 (u16 ch) ++ le_put 4 (u32 rate) ++
  le_put 4 (u32 (i64 (rate * ch * 2))) ++ le_put 2 (u16 (ch * 2)) ++ le_put 2 16.

Lemma wav_header_parts rate ch s d pcm :
  wav_header rate ch s d ++ pcm =
  (RIFF ++ le_put 4 s ++ WAVE) ++ (FMT ++ le_put 4 16) ++ fmt_body rate ch ++ (DATA ++ le_put 4 d) ++ pcm.
Proof. unfold wav_header, fmt_body. by rewrite <- !app_assoc. Qed.

Lemma fmt_chunk_image rate ch wr f :
  0 <= rate < 2 ^ 32 -> 0 <= ch < 2 ^ 16 ->
  read_full 16 (wr_file wr) = (fmt_body rate ch, None, f) ->
  fmt_chunk 16 wr = Ok (wr <| wr_file := f |> <| wr_Channels := ch |> <| wr_SampleRate := rate |>
                           <| wr_BitsPerSample := 16 |>).
Proof.
  intros Hr Hc E. unfold fmt_chunk. rewrite E.
  change (slice 0 2 (fmt_body rate ch)) with (le_put 2 1).
  change (slice 2 4 (fmt_body rate ch)) with (le_put 2 (u16 ch)).
  change (slice 4 8 (fmt_body rate ch)) with (le_put 4 (u32 rate)).
  change (slice 14 16 (fmt_body rate ch)) with (le_put 2 16).
  assert (Ec : u16 ch = ch) by by apply wrap_u_id. assert (Er : u32 rate = rate) by by apply wrap_u_id.
  rewrite Ec, Er, !le_get_put_id by (cbn; lia). done.
Qed.

Lemma parse_image rate ch s d pcm :
  0 <= rate < 2 ^ 32 -> 0 <= ch < 2 ^ 16 -> 0 <= d < 2 ^ 32 ->
  NewWAVReader (wav_header rate ch s d ++ pcm) =
    Some (Ok (locate_data
      (mkWAVReader (mkFile (wav_header rate ch s d ++ pcm) (44 + d)) rate ch 16 44 d 0))).
Proof.
  intros Hr Hc Hd. unfold NewWAVReader, parseHeader. rewrite wav_header_parts. cbn [wr_file].
  set (P1 := RIFF ++ _). set (P2 := FMT ++ _). set (P3 := fmt_body rate ch). set (P4 := DATA ++ _).
  set (bytes := P1 ++ P2 ++ P3 ++ P4 ++ pcm).
  assert (E0 : read_full 12 (mkFile bytes 0) = (P1, None, mkFile bytes 12))
    by exact (read_full_app [] P1 (P2 ++ P3 ++ P4 ++ pcm) 12 eq_refl).
  assert (E1 : read_full 8 (mkFile bytes 12) = (P2, None, mkFile bytes 20))
    by exact (read_full_app P1 P2 (P3 ++ P4 ++ pcm) 8 eq_refl).
  assert (E2 : read_full 16 (mkFile bytes 20) = (P3, None, mkFile bytes 36)).
  { pose proof (read_full_app (P1 ++ P2) P3 (P4 ++ pcm) 16 eq_refl) as E.
    rewrite <- app_assoc in E. exact E. }
  assert (E3 : read_full 8 (mkFile bytes 36) = (P4, None, mkFile bytes 44)).
  { pose proof (read_full_app (P1 ++ P2 ++ P3) P4 pcm 8 eq_refl) as E.
    rewrite <- !app_assoc in E. exact E. }
  destruct (length bytes) as [|[|[|k]]] eqn:El; [subst bytes; discriminate..|]. clearbody bytes.
  rewrite E0. rewrite bool_decide_true by reflexivity. rewrite bool_decide_true by reflexivity. cbn [negb orb parse_chunks andb wr_file field_set].
  rewrite E1, decide_True by done. change (le_get (slice 4 8 P2)) with 16.
  rewrite (fmt_chunk_image rate ch _ (mkFile bytes 36)) by done. cbn [andb wr_file field_set].
  rewrite E3, decide_False by (change (slice 0 4 P4) with DATA; discriminate). rewrite decide_True by done.
  change (slice 4 8 P4) with (le_put 4 d). rewrite le_get_put_id by (cbn; lia). done.
Qed.

(** A reader of [ch] channels that has the samples [l] left. *)
Record holds (ch : Z) (l : list Z) (wr : WAVReader) : Prop := {
  ho_channels : wr_Channels wr = ch;
  ho_bits : wr_BitsPerSample wr = 16;
  ho_positive : 0 < ch;
  ho_samples : Forall (in_s 16) l;
  ho_frames : exists m, flength l = ch * m;
  ho_pos : 0 <= fl_pos (wr_file wr);
  ho_data : exists rest, drop (Z.to_nat (fl_pos (wr_file wr))) (fl_data (wr_file wr)) = encode l ++ rest;
  ho_left : wr_dataSize wr - wr_bytesRead wr = 2 * flength l
}.

Lemma read_samples_end ch k wr : holds ch [] wr -> ReadSamples k wr = (Err EOF, wr).
Proof.
  intros [_ _ _ _ _ _ _ Hl]. unfold ReadSamples. change (2 * flength []) with 0 in Hl.
  destruct (Z.leb_spec (wr_dataSize wr) (wr_bytesRead wr)); [done|lia].
Qed.

(** Asking for more frames than there are gives the ones there are. *)
Lemma min_frames ch k m (l : list Z) :
  0 < ch -> flength l = ch * m ->
  take (Z.to_nat (Z.min k m * ch)) l = take (Z.to_nat (k * ch)) l /\
  drop (Z.to_nat (Z.min k m * ch)) l = drop (Z.to_nat (k * ch)) l.
Proof.
  intros Hc Hm. unfold flength in Hm. destruct (Z.le_ge_cases k m).
  - by rewrite Z.min_l by lia.
  - rewrite Z.min_r by lia. rewrite !take_ge, !drop_ge by nia. done.
Qed.

Lemma read_full_samples f l rest n :
  drop (Z.to_nat (fl_pos f)) (fl_data f) = encode l ++ rest -> 0 <= n <= flength l ->
  read_full (2 * n) f = (encode (take (Z.to_nat n) l), None, seek_current (2 * n) f).
Proof.
  intros Hd Hn. unfold read_full, flength in *. rewrite Hd.
  replace (Z.to_nat (2 * n)) with (2 * Z.to_nat n)%nat by lia.
  rewrite take_app_le by (rewrite encode_length; lia). rewrite take_encode, encode_length, length_take_le by lia.
  replace (Z.of_nat (2 * Z.to_nat n)) with (2 * n) by lia. by rewrite Z.eqb_refl.
Qed.

Lemma holds_advance ch l wr n :
  holds ch l wr -> 0 <= n -> n * ch <= flength l ->
  holds ch (drop (Z.to_nat (n * ch)) l)
    (wr <| wr_file := seek_current (2 * (n * ch)) (wr_file wr) |>
        <| wr_bytesRead := wr_bytesRead wr + 2 * (n * ch) |>).
Proof.
  destruct wr as [[data pos] sr c b off size done].
  intros [Hc Hb Hp Hs [m Hm] Hpos [rest Hd] Hl] Hn Hle. cbn in Hc, Hb, Hpos, Hd, Hl. unfold flength in *.
  split; cbn -[Z.mul]; try done.
  - by apply Forall_drop.
  - exists (m - n). unfold flength. rewrite length_drop. nia.
  - nia.
  - exists rest. replace (Z.to_nat (pos + 2 * (n * ch)))
      with (Z.to_nat pos + 2 * Z.to_nat (n * ch))%nat by nia.
    rewrite <- drop_drop, Hd, drop_app_le by (rewrite encode_length; lia). by rewrite drop_encode.
  - unfold flength. rewrite length_drop. lia.
Qed.

Lemma read_samples_next ch l k wr :
  0 < k -> l <> [] -> holds ch l wr ->
  exists wr', ReadSamples k wr = (Ok (take (Z.to_nat (k * ch)) l), wr') /\
    holds ch (drop (Z.to_nat (k * ch)) l) wr' /\ wr_SampleRate wr' = wr_SampleRate wr.
Proof.
  intros Hk Hne H. pose proof H as [Hc Hb Hp Hs [m Hm] Hpos [rest Hd] Hl].
  assert (Hc' : forall f, wr_Channels (wr <| wr_file := f |>) = ch) by (intros; by destruct wr).
  assert (Hr' : forall f, wr_bytesRead (wr <| wr_file := f |>) = wr_bytesRead wr) by (intros; by destruct wr).
  assert (Hlen : 0 < flength l) by (unfold flength; destruct l; [done|cbn; lia]).
  assert (Hm0 : 0 < m) by nia. assert (Hn : 0 < Z.min k m <= m) by lia.
  destruct (min_frames ch k m l Hp Hm) as [<- <-]. set (n := Z.min k m) in *.
  unfold ReadSamples. destruct (Z.leb_spec (wr_dataSize wr) (wr_bytesRead wr)); [lia|].
  destruct (Z.leb_spec k 0); [lia|]. rewrite Hb, Hc. change (Z.quot 16 8) with 2.
  destruct (Z.eqb_spec (ch * 2) 0); [lia|].
  rewrite Hl, Hm. replace (2 * (ch * m)) with (m * (ch * 2)) by lia. rewrite Z.quot_mul by lia.
  destruct (Z.leb_spec m 0); [lia|]. fold n. replace (n * (ch * 2)) with (2 * (n * ch)) by lia.
  rewrite (read_full_samples _ l rest) by (done || nia).
  assert (Hf : flength (encode (take (Z.to_nat (n * ch)) l)) = 2 * (n * ch)).
  { unfold flength in *. rewrite encode_length, length_take_le by nia. lia. }
  rewrite Hf, bool_decide_false, Hc', Hr' by done. destruct (Z.eqb_spec (2 * (n * ch)) 0); [nia|].
  rewrite (decode_encode (take _ l)) by by apply Forall_take.
  replace (Z.quot (2 * (n * ch)) (ch * 2)) with n
    by (replace (2 * (n * ch)) with (n * (ch * 2)) by lia; by rewrite Z.quot_mul by lia).
  rewrite (take_ge (take _ l)) by (rewrite length_take; lia).
  eexists. split; [done|]. split; [apply holds_advance; (done || nia)|by destruct wr].
Qed.

Lemma locate_data_mk data pos rate ch bits off size rd :
  locate_data (mkWAVReader (mkFile data pos) rate ch bits off size rd) =
  mkWAVReader (mkFile data off) rate ch bits off
    (if size =? 0 then if 0 <? flength data - off then flength data - off else size else size) rd.
Proof.
  unfold locate_data, seek_start. cbn -[Z.sub]. by destruct (size =? 0), (0 <? flength data - off).
Qed.

Lemma open_doc rate ch declared l fin :
  0 <= rate < 2 ^ 32 -> 0 < ch < 2 ^ 16 -> 2 * flength l < 2 ^ 32 ->
  declared = 0 \/ declared = 2 * flength l ->
  Forall (in_s 16) l -> (exists m, flength l = ch * m) ->
  exists wr, NewWAVReader (doc_bytes (mkWavDoc rate ch declared (encode l) fin)) = Some (Ok wr) /\
    wr_SampleRate wr = rate /\ holds ch l wr.
Proof.
  intros Hr Hc Hl Hd Hs Hm. unfold doc_bytes. cbn [wd_rate wd_channels wd_declared wd_pcm].
  rewrite parse_image, locate_data_mk by (unfold flength in *; lia). set (h := wav_header _ _ _ _).
  assert (Hlen : flength (h ++ encode l) - 44 = 2 * flength l).
  { unfold flength. rewrite length_app, encode_length. change (length h) with 44%nat. lia. }
  assert (Hdrop : drop (Z.to_nat 44) (h ++ encode l) = encode l ++ []).
  { change (Z.to_nat 44) with (length h). by rewrite drop_app_length, app_nil_r. }
  clearbody h. rewrite Hlen. replace (if declared =? 0 then _ else _) with (2 * flength l).
  2:{ assert (0 <= flength l) by (unfold flength; lia). repeat case_match; bool_to_prop; lia. }
  eexists. split; [done|]. split; [done|]. split; cbn -[Z.mul Z.to_nat]; (done || eauto || lia).
Qed.

(** Reading [k] frames at a time until the end. *)
Fixpoint drain (fuel : nat) (k : Z) (wr : WAVReader) : option (list Z) :=
  match fuel with
  | O => None
  | S fuel =>
    match ReadSamples k wr with
    | (Ok l, wr) => app l <$> drain fuel k wr
    | (Err EOF, _) => Some []
    | _ => None
    end
  end.

Lemma drain_holds fuel ch k l wr :
  (length l < fuel)%nat -> 0 < k -> holds ch l wr -> drain fuel k wr = Some l.
Proof.
  revert l wr. induction fuel as [|fuel IH]; [lia|]. intros l wr Hf Hk Hh. cbn [drain].
  destruct (decide (l = [])) as [->|Hne]; [by rewrite (read_samples_end ch)|].
  destruct (read_samples_next ch l k wr Hk Hne Hh) as (wr' & -> & Hh' & _).
  pose proof (ho_positive _ _ _ Hh). destruct l as [|x l]; [done|].
  rewrite (IH (drop (Z.to_nat (k * ch)) (x :: l))); [|rewrite length_drop; cbn in *; nia|done|done].
  cbn [fmap option_fmap option_map]. by rewrite take_drop.
Qed.

Lemma doc_pieces d pieces :
  foldl doc_step d (map OpWrite pieces) = d <| wd_pcm := wd_pcm d ++ concat pieces |>.
Proof.
  revert d. induction pieces as [|p pieces IH]; intros d; cbn.
  - rewrite app_nil_r. by destruct d.
  - rewrite IH. destruct d. cbn. by rewrite <- app_assoc.
Qed.

(** C32: the samples of a recording come back: a WAV file written in any number
    of pieces and finalized is opened with the same rate and channels, and
    reading it in blocks of any size gives exactly the samples written, in order;
    the same holds for a file that was never finalized, as after a crash. *)
Theorem wav_round_trip (rate ch k : Z) (pieces : list (list Z)) (l : list Z) (finalized : bool) :
  0 < rate < 2 ^ 32 -> 0 < ch < 2 ^ 16 -> 2 * flength l < 2 ^ 32 ->
  concat pieces = encode l -> Forall (in_s 16) l -> (exists m, flength l = ch * m) -> 0 < k ->
  exists w wr, NewWAVWriter (Some (mkFile [] 0)) rate ch = inr w /\
    NewWAVReader (fl_data (ww_file (foldl wav_step w
      (map OpWrite pieces ++ if finalized then [OpFinalize] else [])))) = Some (Ok wr) /\
    wr_SampleRate wr = rate /\ wr_Channels wr = ch /\ wr_BitsPerSample wr = 16 /\
    drain (S (length l)) k wr = Some l.
Proof.
  intros Hr Hc Hl Hp Hs Hm Hk.
  destruct (new_writes rate ch) as (w & Hw & H). exists w.
  set (ops := map OpWrite pieces ++ _).
  assert (Hd : foldl doc_step (doc_new rate ch) ops =
    mkWavDoc rate ch (if finalized then 2 * flength l else 0) (encode l) finalized).
  { subst ops. rewrite foldl_app, doc_pieces, Hp. unfold doc_new, positive_or.
    destruct (Z.leb_spec rate 0), (Z.leb_spec ch 0); [lia..|]. destruct finalized; [|done].
    cbn -[Z.mul]. unfold field_set. f_equal. unfold u32. rewrite wrap_u_id.
    - unfold flength. rewrite encode_length. lia.
    - unfold in_u, flength in *. rewrite encode_length. lia. }
  destruct (run_writes _ _ ops H) as [Hf _ _ _ _ _]. rewrite Hd in Hf.
  destruct (open_doc rate ch (if finalized then 2 * flength l else 0) l finalized) as (wr & Hwr & Hrate & Hh);
    [lia|done|done|destruct finalized; auto|done|done|].
  exists wr. rewrite Hf. pose proof Hh as [? ? _ _ _ _ _ _].
  split_and!; try done. apply (drain_holds _ ch); [lia|done|done].
Qed.

Lemma wav_round_trip_witness :
  exists w wr, NewWAVWriter (Some (mkFile [] 0)) 8000 2 = inr w /\
    NewWAVReader (fl_data (ww_file (foldl wav_step w
      (map OpWrite [encode [1; -1]; encode [300; -32768]] ++ [OpFinalize])))) = Some (Ok wr) /\
    wr_SampleRate wr = 8000 /\ wr_Channels wr = 2 /\ wr_BitsPerSample wr = 16 /\
    drain 5 1 wr = Some [1; -1; 300; -32768].
Proof.
  apply (wav_round_trip 8000 2 1 [encode [1; -1]; encode [300; -32768]] [1; -1; 300; -32768] true);
    try (vm_compute; intuition (reflexivity || discriminate)).
  - repeat constructor; vm_compute; intuition discriminate.
  - by exists 2.
Defined.

(** ** Termination and malformed files *)

Lemma slice_bytes i j l : Forall (in_u 8) l -> Forall (in_u 8) (slice i j l).
Proof. intros H. by apply Forall_take, Forall_drop. Qed.

Lemma read_full_spec n f got err f' :
  read_full n f = (got, err, f') -> 0 <= fl_pos f ->
  fl_data f' = fl_data f /\ fl_pos f <= fl_pos f' /\
  (Forall (in_u 8) (fl_data f) -> Forall (in_u 8) got) /\
  (err = None -> 0 < n -> fl_pos f' = fl_pos f + n /\ fl_pos f' <= flength (fl_data f)).
Proof.
  unfold read_full. intros [= <- <- <-] Hp. set (got := take _ _).
  destruct f as [data pos]. cbn in *. split; [done|]. split; [unfold flength; lia|].
  split; [intros H; by apply Forall_take, Forall_drop|]. intros He Hn.
  destruct (Z.eqb_spec (flength got) n) as [E|E]; [|by case_decide].
  split; [lia|]. unfold flength in *. subst got. rewrite !length_take, !length_drop in *. lia.
Qed.

Lemma fmt_chunk_forward size wr wr' :
  0 <= size -> 0 <= fl_pos (wr_file wr) -> fmt_chunk size wr = Ok wr' ->
  fl_data (wr_file wr') = fl_data (wr_file wr) /\ fl_pos (wr_file wr) <= fl_pos (wr_file wr').
Proof.
  intros Hs Hp. unfold fmt_chunk. destruct (read_full size (wr_file wr)) as [[c err] f] eqn:E.
  destruct (read_full_spec _ _ _ _ _ E Hp) as (Hd & Hle & _).
  case_tests; try done. all: intros [= <-]; bool_to_prop; destruct wr, f; cbn in *; split; (done || lia).
Qed.

Lemma parse_chunks_terminates fuel fmtFound dataFound wr :
  Forall (in_u 8) (fl_data (wr_file wr)) -> 0 <= fl_pos (wr_file wr) ->
  0 < Z.of_nat fuel -> flength (fl_data (wr_file wr)) - fl_pos (wr_file wr) < Z.of_nat fuel ->
  parse_chunks fuel fmtFound dataFound wr <> None.
Proof.
  revert fmtFound dataFound wr. induction fuel as [|fuel IH]; [cbn; lia|].
  intros ff df wr Hb Hp H0 Hf. cbn [parse_chunks]. destruct (ff && df); [done|].
  destruct (read_full 8 (wr_file wr)) as [[h err] f] eqn:E.
  destruct (read_full_spec _ _ _ _ _ E Hp) as (Hd & Hle & Hbs & Hn).
  destruct err as [e|]; [done|]. destruct (Hn eq_refl ltac:(lia)) as [Hpos Hlen].
  pose proof (le_get_nonneg _ (slice_bytes 4 8 h (Hbs Hb))) as Hsize.
  set (size := le_get (slice 4 8 h)) in *. clearbody size.
  assert (Hw : forall f', wr_file (wr <| wr_file := f' |>) = f') by (intros; by destruct wr).
  case_decide.
  - destruct (fmt_chunk size _) as [wr'|e|] eqn:Ef; try done.
    apply fmt_chunk_forward in Ef as [Hd' Hle']; [|done|rewrite Hw; lia].
    rewrite Hw in Hd', Hle'. apply IH; rewrite ?Hd', ?Hd; (done || lia).
  - case_decide; apply IH; destruct wr, f; cbn -[Z.of_nat] in *; subst; (done || lia).
Qed.

(** Opening a file ends for any content: a file of any bytes is opened, is
    rejected with an error or makes the reader panic, and the loop over its
    chunks never runs for ever, not even with chunks of size zero. *)
Theorem wav_reader_terminates (bytes : list Z) :
  Forall (in_u 8) bytes -> NewWAVReader bytes <> None.
Proof.
  intros Hb. unfold NewWAVReader, parseHeader. cbn [wr_file].
  destruct (read_full 12 _) as [[h err] f] eqn:E.
  destruct (read_full_spec _ _ _ _ _ E) as (Hd & Hle & _ & _); [cbn; lia|].
  destruct err; [done|]. destruct (_ || _); [done|].
  destruct (parse_chunks _ _ _ _) as [[]|] eqn:Ep; try done. exfalso. revert Ep.
  apply parse_chunks_terminates; cbn in *; rewrite ?Hd; unfold flength; (done || lia).
Qed.

Lemma wav_reader_terminates_witness : NewWAVReader (RIFF ++ [0; 0; 0; 0] ++ WAVE ++ DATA) <> None.
Proof.
  apply wav_reader_terminates. repeat constructor; vm_compute; discriminate.
Defined.

(** The bytes of a format chunk beyond the sixteen the reader needs are
    skipped twice, once by reading the whole chunk and once by seeking, so the
    next chunk is looked for that many bytes too late. *)
Theorem wav_extended_format_overshoots (A ext C : list Z) (rate ch : Z) (wr : WAVReader) :
  0 <= rate < 2 ^ 32 -> 0 <= ch < 2 ^ 16 -> ext <> [] ->
  wr_file wr = mkFile (A ++ (fmt_body rate ch ++ ext) ++ C) (flength A) ->
  exists wr', fmt_chunk (16 + flength ext) wr = Ok wr' /\
    fl_pos (wr_file wr') = flength (A ++ fmt_body rate ch ++ ext) + flength ext.
Proof.
  intros Hr Hc He Hf. unfold fmt_chunk.
  assert (Hlen : flength (fmt_body rate ch ++ ext) = 16 + flength ext).
  { unfold flength. rewrite length_app. change (length (fmt_body rate ch)) with 16%nat. lia. }
  rewrite Hf, (read_full_app A (fmt_body rate ch ++ ext) C) by done.
  assert (0 < flength ext) by (unfold flength; destruct ext; [done|cbn; lia]).
  destruct (Z.ltb_spec (16 + flength ext) 2); [lia|].
  change (slice 0 2 (fmt_body rate ch ++ ext)) with (le_put 2 1).
  destruct (Z.ltb_spec (16 + flength ext) 16); [lia|].
  change (slice 14 16 (fmt_body rate ch ++ ext)) with (le_put 2 16).
  rewrite !le_get_put_id by (cbn; lia). cbn [negb Z.eqb Pos.eqb].
  destruct (Z.ltb_spec 0 (16 + flength ext - 16)); [|lia].
  eexists. split; [done|]. destruct wr. cbn -[Z.sub Z.add].
  unfold flength in *. rewrite !length_app in *. lia.
Qed.

(** A file with the common 18-byte format chunk is not opened. *)
Definition extended_file : list Z :=
  RIFF ++ le_put 4 46 ++ WAVE ++ FMT ++ le_put 4 18 ++ fmt_body 8000 1 ++ [0; 0] ++
  DATA ++ le_put 4 8 ++ encode [1; 2; 3; 4].

Lemma wav_extended_format_overshoots_witness :
  NewWAVReader extended_file = Some (Err (ReadError EOF)) /\
  exists wr', fmt_chunk 18
      (mkWAVReader (mkFile (fmt_body 8000 1 ++ [0; 0] ++ DATA) 0) 0 0 0 0 0 0) = Ok wr' /\
    fl_pos (wr_file wr') = 20.
Proof.
  split; [vm_compute; reflexivity|].
  apply (wav_extended_format_overshoots [] [0; 0] DATA 8000 1); (reflexivity || discriminate || lia).
Defined.
