(* ===== verification/WavCombine.v ===== *)
(** * Combining recordings

    [src/pkg/media/wav_combiner.go]: the mono recordings of the legs of a call
    become the channels of one WAV file, with silence in front of a leg according
    to the times of the first RTP packets.  The input files are given by their
    bytes, and the output is a file of its own. *)

From S2P Require Import Prelude GoFloat WavFile.
#[local] Open Scope Z_scope.

Record LegTiming := mkLegTiming {
  lt_Path : string;
  lt_FirstRTPTime : Z;
  lt_SampleRate : Z
}.

Inductive combine_error :=
  | TooFewRecordings
  | OpenFailed (path : string) (e : option wav_error)
  | NotMono (path : string) (channels : Z)
  | MismatchedRates (a b : Z)
  | ReadFailed (e : read_error).

(** [outside] is what the conversion of an unrepresentable count gives. *)
Definition pad_samples (outside delta sampleRate : Z) : Z :=
  if 0 <? delta then
    f64_to_int outside (- 2 ^ 63) (2 ^ 63 - 1)
      (f64_trunc (f64_mul (duration_seconds delta) (f64_of_int sampleRate)))
  else 0.

Definition latest_start (legs : list LegTiming) : Z :=
  foldl (fun latest leg => if latest <? lt_FirstRTPTime leg then lt_FirstRTPTime leg else latest) 0 legs.

Definition calculatePadding (outside : Z) (legs : list LegTiming) (sampleRate : Z) : list Z :=
  let hasValidTiming := forallb (fun leg => negb (lt_FirstRTPTime leg =? 0)) legs in
  if negb hasValidTiming || (flength legs <? 2) then replicate (length legs) 0 else
  map (fun leg => pad_samples outside (time_sub (latest_start legs) (lt_FirstRTPTime leg)) sampleRate) legs.

Definition chunkSize : Z := 1024.

(** What one channel contributes to a round, with the padding left and its
    reader. *)
Definition leg_round (leg : Z * WAVReader) : outcome (list Z * (Z * WAVReader)) combine_error :=
  let '(pad, wr) := leg in
  if 0 <? pad then
    let padCount := Z.min chunkSize pad in
    Ok (replicate (Z.to_nat padCount) 0, (pad - padCount, wr))
  else
    match ReadSamples chunkSize wr with
    | (Ok l, wr) => Ok (l, (pad, wr))
    | (Err EOF, wr) => Ok ([], (pad, wr))
    | (Err e, _) => Err (ReadFailed e)
    | (Panics, _) => Panics
    end.

Fixpoint legs_round (legs : list (Z * WAVReader))
    : outcome (list (list Z) * list (Z * WAVReader)) combine_error :=
  match legs with
  | [] => Ok ([], [])
  | leg :: legs =>
    match leg_round leg with
    | Ok (l, leg) =>
      match legs_round legs with
      | Ok (ls, legs) => Ok (l :: ls, leg :: legs)
      | Err e => Err e
      | Panics => Panics
      end
    | Err e => Err e
    | Panics => Panics
    end
  end.

Definition max_samples (chans : list (list Z)) : nat := foldr (fun c n => Nat.max (length c) n) 0%nat chans.

(** Frame by frame, a sample of each channel, zero past its end. *)
Definition interleave (n : nat) (chans : list (list Z)) : list Z :=
  flat_map (fun i => map (fun c => nth i c 0) chans) (seq 0 n).

Fixpoint combine_loop (fuel : nat) (legs : list (Z * WAVReader)) (w : WAVWriter)
    : option (outcome WAVWriter combine_error) :=
  match fuel with
  | O => None
  | S fuel =>
    match legs_round legs with
    | Err e => Some (Err e)
    | Panics => Some Panics
    | Ok (chans, legs) =>
      let maxSamples := max_samples chans in
      if (maxSamples =? 0)%nat then Some (Ok w) else
      combine_loop fuel legs (WriterWrite (encode (interleave maxSamples chans)) w).2
    end
  end.

Fixpoint open_legs (open : string -> option (list Z)) (legs : list LegTiming)
    : option (outcome (list WAVReader) combine_error) :=
  match legs with
  | [] => Some (Ok [])
  | leg :: legs =>
    match open (lt_Path leg) with
    | None => Some (Err (OpenFailed (lt_Path leg) None))
    | Some bytes =>
      match NewWAVReader bytes with
      | None => None
      | Some (Err e) => Some (Err (OpenFailed (lt_Path leg) (Some e)))
      | Some Panics => Some Panics
      | Some (Ok wr) =>
        if negb (wr_Channels wr =? 1) then Some (Err (NotMono (lt_Path leg) (wr_Channels wr))) else
        match open_legs open legs with
        | Some (Ok wrs) => Some (Ok (wr :: wrs))
        | r => r
        end
      end
    end
  end.

Definition CombineWAVRecordingsAligned (outside : Z) (fuel : nat) (open : string -> option (list Z))
    (legs : list LegTiming) : option (outcome WAVWriter combine_error) :=
  if flength legs <? 2 then Some (Err TooFewRecordings) else
  match open_legs open legs with
  | Some (Ok readers) =>
    let sampleRate := match readers with wr :: _ => wr_SampleRate wr | [] => 0 end in
    match List.find (fun wr => negb (wr_SampleRate wr =? sampleRate)) (tail readers) with
    | Some wr => Some (Err (MismatchedRates sampleRate (wr_SampleRate wr)))
    | None =>
      let padSamples := calculatePadding outside legs sampleRate in
      match NewWAVWriter (Some (mkFile [] 0)) sampleRate (flength readers) with
      | inl _ => None
      | inr writer =>
        match combine_loop fuel (zip padSamples readers) writer with
        | Some (Ok w) => Some (Ok (Finalize w))
        | r => r
        end
      end
    end
  | Some (Err e) => Some (Err e)
  | Some Panics => Some Panics
  | None => None
  end.

Definition CombineWAVRecordings (outside : Z) (fuel : nat) (open : string -> option (list Z))
    (inputPaths : list string) : option (outcome WAVWriter combine_error) :=
  CombineWAVRecordingsAligned outside fuel open (map (fun p => mkLegTiming p 0 0) inputPaths).

(** ** Interleaving *)

Lemma nth_take_lt (l : list Z) k i : (i < k)%nat -> nth i (take k l) 0 = nth i l 0.
Proof.
  revert k i. induction l as [|x l IH]; intros [|k] [|i] H; cbn; try done; try lia. apply IH. lia.
Qed.

Lemma nth_drop (l : list Z) k i : nth i (drop k l) 0 = nth (k + i) l 0.
Proof.
  revert k i. induction l as [|x l IH]; intros [|k] i; try done; [by destruct i|]. apply IH.
Qed.

Lemma flat_map_ext_seq {A} (f g : nat -> list A) n m :
  (forall i, (n <= i < n + m)%nat -> f i = g i) -> flat_map f (seq n m) = flat_map g (seq n m).
Proof.
  revert n. induction m as [|m IH]; intros n H; [done|]. cbn. f_equal; [apply H; lia|].
  apply IH. intros i Hi. apply H. lia.
Qed.

Lemma flat_map_shift {A} (f : nat -> list A) k n m :
  flat_map f (seq (k + n) m) = flat_map (fun i => f (k + i)%nat) (seq n m).
Proof.
  revert n. induction m as [|m IH]; intros n; [done|]. cbn. f_equal.
  rewrite <- Nat.add_succ_r. apply IH.
Qed.

(** A frame at a time or [k] frames at a time is the same. *)
Lemma interleave_split k n chans :
  interleave n chans =
  interleave (Nat.min k n) (map (take k) chans) ++ interleave (n - k) (map (drop k) chans).
Proof.
  unfold interleave. replace n with (Nat.min k n + (n - k))%nat at 1 by lia.
  rewrite seq_app, flat_map_app. f_equal.
  - apply flat_map_ext_seq. intros i Hi. rewrite map_map. apply map_ext. intros c.
    rewrite nth_take_lt by lia. done.
  - destruct (Nat.le_gt_cases n k); [by replace (n - k)%nat with 0%nat by lia|].
    replace (0 + Nat.min k n)%nat with (k + 0)%nat by lia. rewrite flat_map_shift.
    apply flat_map_ext_seq. intros i _. rewrite map_map. apply map_ext. intros c. by rewrite nth_drop.
Qed.

Lemma max_samples_take k chans : max_samples (map (take k) chans) = Nat.min k (max_samples chans).
Proof.
  induction chans as [|c chans IH]; cbn; [lia|]. fold (max_samples (map (take k) chans)).
  fold (max_samples chans). rewrite IH, length_take. lia.
Qed.

Lemma max_samples_drop k chans : max_samples (map (drop k) chans) = (max_samples chans - k)%nat.
Proof.
  induction chans as [|c chans IH]; cbn; [lia|]. fold (max_samples (map (drop k) chans)).
  fold (max_samples chans). rewrite IH, length_drop. lia.
Qed.

Lemma interleave_length n chans : length (interleave n chans) = (n * length chans)%nat.
Proof.
  unfold interleave. generalize 0%nat as k. induction n as [|n IH]; intros k; [done|]. cbn.
  by rewrite length_app, length_map, IH.
Qed.

(** ** A round *)

(** A leg without padding left that has the samples [l] to give. *)
Definition ready (leg : Z * WAVReader) (l : list Z) : Prop := leg.1 = 0 /\ holds 1 l leg.2.

Lemma leg_round_ready leg l :
  ready leg l -> exists leg', leg_round leg = Ok (take 1024 l, leg') /\ ready leg' (drop 1024 l).
Proof.
  destruct leg as [pad wr]. intros [Hp Hh]. cbn in Hp, Hh. subst pad. unfold leg_round, chunkSize. cbn [Z.ltb Z.compare].
  destruct (decide (l = [])) as [->|Hne].
  - rewrite (read_samples_end 1) by done. by exists (0, wr).
  - destruct (read_samples_next 1 l 1024 wr ltac:(lia) Hne Hh) as (wr' & -> & Hh' & _).
    exists (0, wr'). split; [done|]. split; [done|]. exact Hh'.
Qed.

Lemma legs_round_ready legs ls :
  Forall2 ready legs ls ->
  exists legs', legs_round legs = Ok (map (take 1024) ls, legs') /\
    Forall2 ready legs' (map (drop 1024) ls).
Proof.
  induction 1 as [|leg l legs ls H _ (legs' & E & IH)]; [by exists []|].
  destruct (leg_round_ready leg l H) as (leg' & El & Hl). exists (leg' :: legs'). cbn.
  rewrite El, E. split; [done|]. by constructor.
Qed.

(** ** The loop *)

Lemma write_pcm w d p : writes w d -> writes (WriterWrite p w).2 (d <| wd_pcm := wd_pcm d ++ p |>).
Proof. apply (step_writes w d (OpWrite p)). Qed.

Lemma combine_loop_ready fuel legs ls w d :
  Forall2 ready legs ls -> writes w d -> (max_samples ls < fuel)%nat ->
  exists w', combine_loop fuel legs w = Some (Ok w') /\
    writes w' (d <| wd_pcm := wd_pcm d ++ encode (interleave (max_samples ls) ls) |>).
Proof.
  revert legs ls w d. induction fuel as [|fuel IH]; [lia|]. intros legs ls w d Hr Hw Hf.
  destruct (legs_round_ready legs ls Hr) as (legs' & E & Hr'). cbn [combine_loop]. rewrite E.
  rewrite max_samples_take. destruct (max_samples ls) as [|n] eqn:En.
  - exists w. split; [done|]. cbn. rewrite app_nil_r. by destruct d.
  - destruct (Nat.eqb_spec (Nat.min 1024 (S n)) 0) as [E0|E0]; [lia|].
    destruct (IH legs' (map (drop 1024) ls) _ _ Hr' (write_pcm w d
      (encode (interleave (Nat.min 1024 (S n)) (map (take 1024) ls))) Hw)) as (w' & -> & Hw').
    { rewrite max_samples_drop. lia. }
    exists w'. split; [done|]. rewrite max_samples_drop, En in Hw'.
    rewrite (interleave_split 1024 (S n) ls), encode_app. destruct d. cbn -[Nat.min Nat.sub] in *.
    by rewrite <- app_assoc in Hw'.
Qed.

(** ** Padding *)

(** Whole rounds of silence. *)
Definition padded_rounds (p : Z) : nat := Z.to_nat ((p + 1023) / 1024).
Definition silence (n : nat) : list Z := replicate n 0.
#[local] Arguments silence : simpl never.
#[local] Arguments interleave : simpl never.

Lemma padded_rounds_step p : 0 < p -> padded_rounds p = S (padded_rounds (p - Z.min 1024 p)).
Proof.
  intros Hp. unfold padded_rounds. destruct (Z.le_gt_cases p 1024).
  - rewrite Z.min_r by lia. replace (p - p + 1023) with 1023 by lia. change (1023 / 1024) with 0.
    replace ((p + 1023) / 1024) with 1 by (apply (Z.div_unique _ _ 1 (p - 1)); lia). done.
  - rewrite Z.min_l by lia. replace (p + 1023) with ((p - 1024 + 1023) + 1 * 1024) by lia.
    rewrite Z.div_add by lia. assert (0 <= (p - 1024 + 1023) / 1024) by (apply Z.div_pos; lia). lia.
Qed.

Lemma nth_silence n i : nth i (silence n) 0 = 0.
Proof. unfold silence. revert i. induction n as [|n IH]; intros [|i]; cbn; auto. Qed.

Lemma interleave_silence n a b l : interleave n [silence a; l] = interleave n [silence b; l].
Proof. apply flat_map_ext_seq. intros i _. cbn. by rewrite !nth_silence. Qed.

Lemma silence_length n : length (silence n) = n.
Proof. apply length_replicate. Qed.

Lemma silence_split q l :
  take 1024 (silence (1024 * S q) ++ l) = silence 1024 /\
  drop 1024 (silence (1024 * S q) ++ l) = silence (1024 * q) ++ l.
Proof.
  replace (silence (1024 * S q)) with (silence 1024 ++ silence (1024 * q)).
  2:{ unfold silence. rewrite <- replicate_add. f_equal. lia. }
  rewrite <- app_assoc. split; [apply take_app_length'|apply drop_app_length']; symmetry; apply silence_length.
Qed.

(** A leg that still has [p] samples of padding next to one that has none: the
    padding is filled up to whole rounds. *)
Lemma combine_loop_padded fuel p wr0 wr1 l0 l1 w d :
  0 <= p -> holds 1 l0 wr0 -> holds 1 l1 wr1 -> writes w d ->
  (1024 * padded_rounds p <= length l1)%nat ->
  let chans := [silence (1024 * padded_rounds p) ++ l0; l1] in
  (max_samples chans < fuel)%nat ->
  exists w', combine_loop fuel [(p, wr0); (0, wr1)] w = Some (Ok w') /\
    writes w' (d <| wd_pcm := wd_pcm d ++ encode (interleave (max_samples chans) chans) |>).
Proof.
  revert p wr1 l1 w d. induction fuel as [|fuel IH]; [cbn; lia|].
  intros p wr1 l1 w d Hp H0 H1 Hw Hl chans Hf. destruct (decide (p = 0)) as [->|Hne].
  { apply (combine_loop_ready (S fuel) _ chans); [|done|done]. change chans with [l0; l1]. rewrite !Forall2_cons. done. }
  pose proof (padded_rounds_step p ltac:(lia)) as Hq. set (q := padded_rounds (p - Z.min 1024 p)) in *.
  destruct (leg_round_ready (0, wr1) l1) as ([z wr1'] & E1 & Hz & H1'); [done|]. cbn in Hz, H1'. subst z.
  cbn [combine_loop legs_round]. rewrite E1. unfold leg_round, chunkSize.
  destruct (Z.ltb_spec 0 p); [|lia]. set (c := Z.to_nat (Z.min 1024 p)). fold (silence c).
  assert (Hmax : max_samples [silence c; take 1024 l1] = 1024%nat).
  { cbn -[Nat.max]. rewrite silence_length, length_take. lia. }
  rewrite Hmax. cbn [Nat.eqb]. subst chans. rewrite Hq in *.
  set (chans := [silence (1024 * S q) ++ l0; l1]) in *.
  destruct (silence_split q l0) as [Ht Hd].
  assert (Hc : map (drop 1024) chans = [silence (1024 * q) ++ l0; drop 1024 l1]) by (cbn [map chans]; by rewrite Hd).
  assert (Hn : (1024 <= max_samples chans)%nat) by (cbn -[Nat.mul Nat.max]; lia).
  edestruct (IH (p - Z.min 1024 p) wr1' (drop 1024 l1)) as (w' & -> & Hw');
    [lia|done|done|by apply write_pcm|rewrite length_drop; fold q; lia| |].
  { fold q. rewrite <- Hc, max_samples_drop. lia. }
  exists w'. split; [done|]. fold q in Hw'. rewrite <- Hc, max_samples_drop in Hw'.
  rewrite (interleave_split 1024 (max_samples chans) chans), Nat.min_l, encode_app by done.
  replace (map (take 1024) chans) with [silence 1024; take 1024 l1] by (cbn [map chans]; by rewrite Ht).
  rewrite (interleave_silence _ 1024 c). destruct d. cbn -[Nat.mul Nat.sub] in *.
  by rewrite <- app_assoc in Hw'.
Qed.

(** ** Whole files *)

(** A mono recording, finalized or not. *)
Definition leg_file (rate : Z) (l : list Z) (finalized : bool) : list Z :=
  doc_bytes (mkWavDoc rate 1 (if finalized then 2 * flength l else 0) (encode l) finalized).

Definition recorded (open : string -> option (list Z)) (rate : Z) (path : string) (l : list Z) : Prop :=
  2 * flength l < 2 ^ 32 /\ Forall (in_s 16) l /\
  exists finalized, open path = Some (leg_file rate l finalized).

Definition opened (rate : Z) (wr : WAVReader) (l : list Z) : Prop := holds 1 l wr /\ wr_SampleRate wr = rate.

Lemma open_legs_recorded open rate legs ls :
  0 < rate < 2 ^ 32 -> Forall2 (fun leg l => recorded open rate (lt_Path leg) l) legs ls ->
  exists wrs, open_legs open legs = Some (Ok wrs) /\ Forall2 (opened rate) wrs ls.
Proof.
  intros Hr. induction 1 as [|leg l legs ls (Hl & Hs & fin & Ho) _ (wrs & E & IH)]; [by exists []|].
  destruct (open_doc rate 1 (if fin then 2 * flength l else 0) l fin) as (wr & Hwr & Hrate & Hh);
    [lia|lia|done|destruct fin; auto|done|exists (flength l); lia|].
  exists (wr :: wrs). cbn [open_legs]. unfold leg_file in Ho. rewrite Ho, Hwr, E, (ho_channels _ _ _ Hh).
  split; [done|]. by constructor.
Qed.

Lemma opened_same_rate rate wrs ls :
  Forall2 (opened rate) wrs ls -> List.find (fun wr => negb (wr_SampleRate wr =? rate)) wrs = None.
Proof. induction 1 as [|wr l wrs ls [_ Hr] _ IH]; [done|]. cbn. by rewrite Hr, Z.eqb_refl. Qed.

(** The end of the combination: what the loop wrote, finalized, is a file of all
    the channels that reads back. *)
Lemma combined_file rate n d out w k :
  0 < rate < 2 ^ 32 -> 0 < n < 2 ^ 16 -> Forall (in_s 16) out -> 2 * flength out < 2 ^ 32 ->
  (exists m, flength out = n * m) -> 0 < k -> d = doc_new rate n ->
  writes w (d <| wd_pcm := wd_pcm d ++ encode out |>) ->
  exists wr, NewWAVReader (fl_data (ww_file (Finalize w))) = Some (Ok wr) /\
    wr_SampleRate wr = rate /\ wr_Channels wr = n /\ drain (S (length out)) k wr = Some out.
Proof.
  intros Hr Hn Hs Hl Hm Hk -> Hw. apply (step_writes w _ OpFinalize) in Hw as [Hf _ _ _ _ _].
  cbn [wav_step] in Hf. rewrite Hf.
  replace (doc_step _ _) with (mkWavDoc rate n (2 * flength out) (encode out) true).
  2:{ unfold doc_new, positive_or. destruct (Z.leb_spec rate 0), (Z.leb_spec n 0); [lia..|].
      cbn -[Z.mul]. unfold field_set. f_equal. unfold u32, flength in *. rewrite encode_length.
      rewrite wrap_u_id by (unfold in_u; lia). lia. }
  destruct (open_doc rate n (2 * flength out) out true) as (wr & Hwr & Hrate & Hh);
    [lia|done|done|by right|done|done|].
  exists wr. split; [done|]. split; [done|]. split; [exact (ho_channels _ _ _ Hh)|].
  apply (drain_holds _ n); [lia|done|done].
Qed.

Lemma interleave_samples n chans : Forall (Forall (in_s 16)) chans -> Forall (in_s 16) (interleave n chans).
Proof.
  intros H. apply Forall_flat_map, Forall_true. intros i. apply Forall_map.
  induction H as [|c chans Hc _ IH]; constructor; [|done].
  destruct (nth_in_or_default i c 0) as [Hi| ->]; [|unfold in_s; lia].
  rewrite Forall_forall in Hc. by apply Hc, list_elem_of_In.
Qed.

Lemma combine_to_loop outside fuel open legs ls rate :
  0 < rate < 2 ^ 32 -> 2 <= flength ls ->
  Forall2 (fun leg l => recorded open rate (lt_Path leg) l) legs ls ->
  exists wrs w, Forall2 (opened rate) wrs ls /\ writes w (doc_new rate (flength ls)) /\
    CombineWAVRecordingsAligned outside fuel open legs =
      match combine_loop fuel (zip (calculatePadding outside legs rate) wrs) w with
      | Some (Ok w) => Some (Ok (Finalize w))
      | r => r
      end.
Proof.
  intros Hr Hn Hrec. destruct (open_legs_recorded open rate legs ls Hr Hrec) as (wrs & Ho & Hop).
  apply Forall2_length in Hrec as Hl. apply Forall2_length in Hop as Hw.
  destruct (new_writes rate (flength ls)) as (w & Ew & Hwr). exists wrs, w.
  split; [done|]. split; [done|]. unfold CombineWAVRecordingsAligned.
  destruct (Z.ltb_spec (flength legs) 2) as [H|_]; [unfold flength in *; lia|]. rewrite Ho.
  destruct Hop as [|wr l wrs ls [_ Hrate] Hop]; [done|]. rewrite Hrate. cbn [tail].
  rewrite (opened_same_rate rate wrs ls Hop).
  replace (flength (wr :: wrs)) with (flength (l :: ls)) by (unfold flength; by rewrite Hw).
  by rewrite Ew.
Qed.

Lemma no_timing_padding outside (paths : list string) rate :
  calculatePadding outside (map (fun p => mkLegTiming p 0 0) paths) rate = replicate (length paths) 0.
Proof. unfold calculatePadding. by destruct paths; cbn; rewrite ?length_map. Qed.

(** C36: combining mono recordings of one rate gives a file of that rate with a
    channel per recording, in their order: it reads back as the frames of the
    recordings side by side, with silence after the end of the shorter ones,
    whether the inputs were finalized or not. *)
Theorem combine_interleaves (outside rate k : Z) (fuel : nat) (open : string -> option (list Z))
    (paths : list string) (ls : list (list Z)) :
  0 < rate < 2 ^ 32 -> 2 <= flength ls < 2 ^ 16 ->
  Forall2 (recorded open rate) paths ls ->
  2 * (Z.of_nat (max_samples ls) * flength ls) < 2 ^ 32 -> (max_samples ls < fuel)%nat -> 0 < k ->
  exists w wr, CombineWAVRecordings outside fuel open paths = Some (Ok w) /\
    NewWAVReader (fl_data (ww_file w)) = Some (Ok wr) /\
    wr_SampleRate wr = rate /\ wr_Channels wr = flength ls /\
    drain (S (max_samples ls * length ls)) k wr = Some (interleave (max_samples ls) ls).
Proof.
  intros Hr Hn Hrec Hsize Hf Hk. apply Forall2_length in Hrec as Hlen.
  destruct (combine_to_loop outside fuel open (map (fun p => mkLegTiming p 0 0) paths) ls rate Hr)
    as (wrs & w & Hop & Hw & E); [lia|by apply Forall2_fmap_l|].
  unfold CombineWAVRecordings. rewrite E, no_timing_padding.
  assert (Hready : Forall2 ready (zip (replicate (length paths) 0) wrs) ls).
  { rewrite Hlen. clear -Hop. induction Hop as [|wr l wrs ls [Hh _] _ IH]; cbn; [constructor|].
    by constructor. }
  destruct (combine_loop_ready fuel _ ls w _ Hready Hw Hf) as (w' & -> & Hw').
  destruct (combined_file rate (flength ls) (doc_new rate (flength ls))
    (interleave (max_samples ls) ls) w' k) as (wr & Hwr & Hrate & Hch & Hd); try done.
  - lia.
  - apply interleave_samples. clear -Hrec. by induction Hrec as [|p l ps ls (_ & Hs & _) _ IH]; constructor.
  - unfold flength in *. rewrite interleave_length. lia.
  - exists (Z.of_nat (max_samples ls)). unfold flength. rewrite interleave_length. lia.
  - exists (Finalize w'), wr. rewrite interleave_length in Hd. done.
Qed.

Definition two_recordings (path : string) : option (list Z) :=
  if String.eqb path "a" then Some (leg_file 8000 [100; 200; 300; 400] true)
  else Some (leg_file 8000 [1000; 2000] false).

Lemma combine_interleaves_witness :
  exists w wr, CombineWAVRecordings 0 5 two_recordings ["a"; "b"] = Some (Ok w) /\
    NewWAVReader (fl_data (ww_file w)) = Some (Ok wr) /\
    wr_SampleRate wr = 8000 /\ wr_Channels wr = 2 /\
    drain 9 3 wr = Some [100; 1000; 200; 2000; 300; 0; 400; 0].
Proof.
  apply (combine_interleaves 0 8000 3 5 two_recordings ["a"; "b"] [[100; 200; 300; 400]; [1000; 2000]]).
  - lia.
  - by split.
  - rewrite !Forall2_cons. split_and!; [| |constructor]; (split; [done|split]);
      [repeat constructor; vm_compute; discriminate|by exists true| |by exists false].
    repeat constructor; vm_compute; discriminate.
  - done.
  - cbn. lia.
  - done.
Defined.

(** ** Alignment *)

Definition one_second : Z := 1000000000.

Lemma padding_one_second outside t p0 p1 r0 r1 :
  0 < t ->
  calculatePadding outside [mkLegTiming p0 t r0; mkLegTiming p1 (t + one_second) r1] 8000 = [8000; 0].
Proof.
  intros Ht. unfold calculatePadding, latest_start, one_second. cbn [forallb lt_FirstRTPTime foldl map].
  destruct (Z.eqb_spec t 0), (Z.eqb_spec (t + 1000000000) 0); [lia..|]. cbn [negb andb orb].
  change (flength _ <? 2) with false. cbn [orb].
  destruct (Z.ltb_spec 0 t); [|lia]. destruct (Z.ltb_spec t (t + 1000000000)); [|lia].
  unfold time_sub. replace (t + 1000000000 - t) with 1000000000 by lia. rewrite Z.sub_diag.
  vm_compute. reflexivity.
Qed.

(** Of two legs the second of which starts a second later, it is the first
    that is padded, and by whole blocks of 1024 samples: the output has 8192
    samples of silence before the leg that started first and none before the one
    that started last, so sounds of the same moment end up 16192 samples apart
    instead of in one frame. *)
Theorem combine_misaligns_legs (outside t k : Z) (fuel : nat) (open : string -> option (list Z))
    (p0 p1 : string) (l0 l1 : list Z) :
  0 < t -> recorded open 8000 p0 l0 -> recorded open 8000 p1 l1 -> (8 * 1024 <= length l1)%nat ->
  let chans := [silence (8 * 1024) ++ l0; l1] in
  4 * Z.of_nat (max_samples chans) < 2 ^ 32 -> (max_samples chans < fuel)%nat -> 0 < k ->
  exists w wr, CombineWAVRecordingsAligned outside fuel open
      [mkLegTiming p0 t 8000; mkLegTiming p1 (t + one_second) 8000] = Some (Ok w) /\
    NewWAVReader (fl_data (ww_file w)) = Some (Ok wr) /\ wr_Channels wr = 2 /\
    drain (S (max_samples chans * 2)) k wr = Some (interleave (max_samples chans) chans).
Proof.
  intros Ht H0 H1 Hl chans Hsize Hf Hk.
  destruct (combine_to_loop outside fuel open
    [mkLegTiming p0 t 8000; mkLegTiming p1 (t + one_second) 8000] [l0; l1] 8000)
    as (wrs & w & Hop & Hw & E);
    [done|done|apply Forall2_cons_2; [done|by apply Forall2_cons_2; [|apply Forall2_nil_2]]|].
  apply Forall2_cons_inv_r in Hop as (wr0 & wrs0 & [Hh0 _] & Hop & ->).
  apply Forall2_cons_inv_r in Hop as (wr1 & wrs1 & [Hh1 _] & Hop & ->).
  apply Forall2_nil_inv_r in Hop as ->. rewrite E, padding_one_second by done. cbn [zip zip_with].
  destruct (combine_loop_padded fuel 8000 wr0 wr1 l0 l1 w _ ltac:(lia) Hh0 Hh1 Hw Hl Hf) as (w' & -> & Hw').
  change (silence (1024 * padded_rounds 8000) ++ l0) with (silence (8 * 1024) ++ l0) in Hw'. fold chans in Hw'.
  assert (Hlen : length (interleave (max_samples chans) chans) = (max_samples chans * 2)%nat)
    by apply interleave_length.
  destruct (combined_file 8000 2 (doc_new 8000 2) (interleave (max_samples chans) chans) w' k)
    as (wr & Hwr & _ & Hch & Hd); try done.
  - apply interleave_samples. destruct H0 as (_ & Hs0 & _), H1 as (_ & Hs1 & _).
    apply Forall_cons_2; [|apply Forall_cons_2; [done|apply Forall_nil_2]].
    apply Forall_app_2; [|done]. apply Forall_replicate. unfold in_s. lia.
  - unfold flength. rewrite Hlen. lia.
  - exists (Z.of_nat (max_samples chans)). unfold flength. rewrite Hlen. lia.
  - exists (Finalize w'), wr. rewrite Hlen in Hd. done.
Qed.

Definition two_legs (path : string) : option (list Z) :=
  if String.eqb path "a" then Some (leg_file 8000 [100; 200] true)
  else Some (leg_file 8000 (replicate (8 * 1024) 7) true).

Lemma combine_misaligns_legs_witness :
  let chans := [silence (8 * 1024) ++ [100; 200]; replicate (8 * 1024) 7] in
  exists w wr, CombineWAVRecordingsAligned 0 (9 * 1024) two_legs
      [mkLegTiming "a" 5 8000; mkLegTiming "b" (5 + one_second) 8000] = Some (Ok w) /\
    NewWAVReader (fl_data (ww_file w)) = Some (Ok wr) /\ wr_Channels wr = 2 /\
    drain (S (max_samples chans * 2)) 1024 wr = Some (interleave (max_samples chans) chans).
Proof.
  apply (combine_misaligns_legs 0 5 1024 (9 * 1024) two_legs "a" "b" [100; 200] (replicate (8 * 1024) 7)).
  - lia.
  - split; [done|]. split; [repeat constructor; vm_compute; discriminate|by exists true].
  - split; [unfold flength; rewrite length_replicate; lia|].
    split; [apply Forall_replicate; unfold in_s; lia|by exists true].
  - rewrite length_replicate. lia.
  - cbn -[Nat.mul Nat.max]. rewrite length_app, silence_length, length_replicate. cbn [length]. lia.
  - cbn -[Nat.mul Nat.max]. rewrite length_app, silence_length, length_replicate. cbn [length]. lia.
  - lia.
Defined.
