(* ===== verification/AudioBuffer.v ===== *)
(** * The buffer of streamed audio

    [realtime/audio_buffer.go]: a circular buffer of bytes between the
    goroutines that write the audio of a call and those that transcribe it.  Every
    method runs under the buffer's mutex, so a run of the program is a sequence of
    calls.  Positions are natural numbers; the size asked for is computed with
    64-bit integers.  A reader that waits on the condition variable is the result
    [Waits]; the collector's run is not modelled. *)

From S2P Require Import Prelude.
#[local] Open Scope Z_scope.

Record AudioBuffer := mkAudioBuffer {
  ab_sampleRate : Z;
  ab_channels : Z;
  ab_bufferSizeMS : Z;
  ab_maxBufferSize : nat;
  ab_buffer : list Z;
  ab_writePos : nat;
  ab_readPos : nat;
  ab_size : nat;
  ab_capacity : nat;
  ab_closed : bool;
  ab_lastGC : Z;
  ab_gcThreshold : nat;
  ab_bytesWritten : Z;
  ab_bytesRead : Z;
  ab_overruns : Z;
  ab_underruns : Z
}.

(** [(bufferSizeMS * sampleRate * channels * 2) / 1000]. *)
Definition requested (bufferSizeMS sampleRate channels : Z) : Z :=
  Z.quot (i64 (i64 (i64 (bufferSizeMS * sampleRate) * channels) * 2)) 1000.

Definition NewAudioBuffer (now bufferSizeMS sampleRate channels : Z) : AudioBuffer :=
  let bytes := requested bufferSizeMS sampleRate channels in
  let bytes := if bytes <? 1024 then 1024 else bytes in
  let bytes := if 1024 * 1024 <? bytes then 1024 * 1024 else bytes in
  let n := Z.to_nat bytes in
  mkAudioBuffer sampleRate channels bufferSizeMS (n * 4) (replicate n 0) 0 0 0 n false now (n / 4) 0 0 0 0.

Definition handleOverflow (overflowBytes : nat) (b : AudioBuffer) : AudioBuffer :=
  let dropBytes := Nat.min overflowBytes (ab_size b) in
  b <| ab_readPos := ((ab_readPos b + dropBytes) mod ab_capacity b)%nat |> <| ab_size := (ab_size b - dropBytes)%nat |>.

Definition periodicCleanup (now : Z) (b : AudioBuffer) : AudioBuffer :=
  if (30000000000 <? now - ab_lastGC b) && (Z.of_nat (ab_gcThreshold b) <? ab_bytesWritten b)
  then b <| ab_bytesWritten := 0 |> <| ab_bytesRead := 0 |> <| ab_lastGC := now |>
  else b.

(** One turn of the loop of [Write]. *)
Definition write_byte (b : AudioBuffer) (x : Z) : AudioBuffer :=
  let full := negb (ab_size b <? ab_capacity b)%nat in
  let b := b <| ab_buffer := <[ab_writePos b := x]> (ab_buffer b) |>
             <| ab_writePos := ((ab_writePos b + 1) mod ab_capacity b)%nat |> in
  if full then b <| ab_readPos := ((ab_readPos b + 1) mod ab_capacity b)%nat |>
  else b <| ab_size := S (ab_size b) |>.

Definition Write (now : Z) (data : list Z) (b : AudioBuffer) : AudioBuffer :=
  match data with
  | [] => b
  | _ =>
    let availableSpace := (ab_capacity b - ab_size b)%nat in
    let b := if (availableSpace <? length data)%nat
             then (handleOverflow (length data - availableSpace) b) <| ab_overruns := ab_overruns b + 1 |> else b in
    let b := foldl write_byte b data in
    periodicCleanup now (b <| ab_bytesWritten := i64 (ab_bytesWritten b + Z.of_nat (length data)) |>)
  end.

Inductive ReadResult := Waits | ReadClosed | ReadData (data : list Z).

(** The loop of [Read]. *)
Fixpoint read_bytes (n : nat) (b : AudioBuffer) : list Z * AudioBuffer :=
  match n with
  | O => ([], b)
  | S n =>
    let x := ab_buffer b !!! ab_readPos b in
    let '(data, b) := read_bytes n (b <| ab_readPos := ((ab_readPos b + 1) mod ab_capacity b)%nat |>) in
    (x :: data, b)
  end.

Definition Read (b : AudioBuffer) : ReadResult * AudioBuffer :=
  if (ab_size b =? 0)%nat then (if ab_closed b then ReadClosed else Waits, b) else
  let readSize := ab_size b in
  let '(data, b) := read_bytes readSize b in
  (ReadData data, b <| ab_size := (ab_size b - readSize)%nat |> <| ab_bytesRead := i64 (ab_bytesRead b + Z.of_nat readSize) |>).

Definition CanRead (b : AudioBuffer) : bool :=
  Z.quot (requested (ab_bufferSizeMS b) (ab_sampleRate b) (ab_channels b)) 10 <=? Z.of_nat (ab_size b).

Definition Cleanup (b : AudioBuffer) : AudioBuffer :=
  let b := b <| ab_writePos := 0%nat |> <| ab_readPos := 0%nat |> <| ab_size := 0%nat |> <| ab_bytesWritten := 0 |>
             <| ab_bytesRead := 0 |> <| ab_overruns := 0 |> <| ab_underruns := 0 |> in
  if (ab_maxBufferSize b <? length (ab_buffer b))%nat then b <| ab_buffer := replicate (ab_capacity b) 0 |> else b.

(** ** The specification: a queue that forgets its oldest bytes *)

Definition keep_last (n : nat) (q : list Z) : list Z := drop (length q - n) q.

Inductive op := OpWrite (now : Z) (data : list Z) | OpRead | OpCleanup.

Definition buffer_step (b : AudioBuffer) (o : op) : option ReadResult * AudioBuffer :=
  match o with
  | OpWrite now data => (None, Write now data b)
  | OpRead => let '(r, b) := Read b in (Some r, b)
  | OpCleanup => (None, Cleanup b)
  end.

Definition queue_step (cap : nat) (q : list Z) (o : op) : option ReadResult * list Z :=
  match o with
  | OpWrite _ data => (None, keep_last cap (q ++ data))
  | OpRead => (Some (match q with [] => Waits | _ => ReadData q end), [])
  | OpCleanup => (None, [])
  end.

Fixpoint outputs {S : Type} (step : S -> op -> option ReadResult * S) (s : S) (ops : list op) : list (option ReadResult) :=
  match ops with
  | [] => []
  | o :: ops => let '(r, s) := step s o in r :: outputs step s ops
  end.

(** ** The invariant *)

Record well_formed (b : AudioBuffer) : Prop := {
  wf_capacity : (0 < ab_capacity b)%nat;
  wf_buffer : length (ab_buffer b) = ab_capacity b;
  wf_read : (ab_readPos b < ab_capacity b)%nat;
  wf_size : (ab_size b <= ab_capacity b)%nat;
  wf_write : ab_writePos b = ((ab_readPos b + ab_size b) mod ab_capacity b)%nat;
  wf_open : ab_closed b = false
}.

(** The bytes between the two positions. *)
Definition contents (b : AudioBuffer) : list Z :=
  map (fun i => ab_buffer b !!! ((ab_readPos b + i) mod ab_capacity b)%nat) (seq 0 (ab_size b)).

Lemma new_well_formed now ms rate ch : well_formed (NewAudioBuffer now ms rate ch) /\ contents (NewAudioBuffer now ms rate ch) = [].
Proof.
  split; [|done]. unfold NewAudioBuffer. set (n := Z.to_nat _).
  assert (0 < n)%nat.
  { subst n. repeat match goal with |- context [?a <? ?b] => destruct (Z.ltb_spec a b) end; lia. }
  split; cbn; [done|apply length_replicate|done|lia| |done]. symmetry. by apply Nat.mod_small.
Qed.

(** ** Operations on positions *)

#[local] Arguments Nat.ltb : simpl never.
#[local] Arguments Nat.modulo : simpl never.

(** Two offsets below the capacity are at different places. *)
Lemma slots_differ c r i j : (i < c)%nat -> (j < c)%nat -> i <> j -> ((r + i) mod c <> (r + j) mod c)%nat.
Proof.
  intros Hi Hj Hne E. pose proof (Nat.div_mod_eq (r + i) c) as Ei. pose proof (Nat.div_mod_eq (r + j) c) as Ej. rewrite E in Ei.
  set (a := ((r + i) / c)%nat) in *. set (b := ((r + j) / c)%nat) in *. clearbody a b.
  assert (a = b) by nia. lia.
Qed.

Lemma contents_length b : length (contents b) = ab_size b.
Proof. unfold contents. by rewrite length_map, length_seq. Qed.

Lemma tail_map_seq {A} (f : nat -> A) n : tail (map f (seq 0 (S n))) = map (fun i => f (S i)) (seq 0 n).
Proof. cbn. by rewrite <- seq_shift, map_map. Qed.

Lemma write_byte_spec b x : well_formed b ->
  well_formed (write_byte b x) /\ ab_capacity (write_byte b x) = ab_capacity b /\
  contents (write_byte b x) =
    (if (ab_size b <? ab_capacity b)%nat then contents b else tail (contents b)) ++ [x].
Proof.
  intros [Hc Hb Hr Hs Hw Ho]. destruct b as [rate ch ms mx buf wp rp sz cap cl gc th bw br ov un]. cbn in *. subst wp cl.
  unfold write_byte, contents. cbn [ab_size ab_capacity ab_buffer ab_readPos ab_writePos field_set].
  pose proof (Nat.mod_upper_bound (rp + sz) cap ltac:(lia)) as Hslot.
  destruct (Nat.ltb_spec sz cap) as [Hlt|Hge]; cbn [negb ab_size ab_capacity ab_buffer ab_readPos ab_writePos].
  - split; [split; cbn; rewrite ?length_insert; try (lia || done)|split; [done|]].
    + rewrite Nat.Div0.add_mod_idemp_l. f_equal. lia.
    + rewrite seq_S, map_app. cbn [map]. rewrite Nat.add_0_l, list_lookup_total_insert_eq by lia. f_equal.
      apply map_ext_in. intros i [_ Hi]%in_seq. apply list_lookup_total_insert_ne. apply slots_differ; lia.
  - assert (sz = cap) as -> by lia. assert (Erp : ((rp + cap) mod cap)%nat = rp).
    { replace (rp + cap)%nat with (rp + 1 * cap)%nat by lia. rewrite Nat.Div0.mod_add. by apply Nat.mod_small. }
    rewrite Erp in *. split; [split; cbn; rewrite ?length_insert; try (lia || done)|split; [done|]].
    + apply Nat.mod_upper_bound. lia.
    + replace ((rp + 1) mod cap + cap)%nat with ((rp + 1) mod cap + 1 * cap)%nat by lia.
      by rewrite Nat.Div0.mod_add, Nat.Div0.mod_mod.
    + destruct cap as [|cap]; [lia|]. rewrite tail_map_seq, (seq_S cap), map_app. cbn [map].
      rewrite Nat.add_0_l. f_equal.
      * apply map_ext_in. intros i [_ Hi]%in_seq. rewrite Nat.Div0.add_mod_idemp_l.
        replace (rp + 1 + i)%nat with (rp + S i)%nat by lia. apply list_lookup_total_insert_ne.
        pose proof (slots_differ (S cap) rp 0 (S i) ltac:(lia) ltac:(lia) ltac:(lia)) as Hne.
        by rewrite Nat.add_0_r, (Nat.mod_small rp) in Hne by lia.
      * f_equal. rewrite Nat.Div0.add_mod_idemp_l. replace (rp + 1 + cap)%nat with (rp + 1 * S cap)%nat by lia.
        rewrite Nat.Div0.mod_add, Nat.mod_small by lia. by rewrite list_lookup_total_insert_eq by lia.
Qed.

(** ** The operations against the queue *)

Lemma keep_last_all n q : (length q <= n)%nat -> keep_last n q = q.
Proof. intros H. unfold keep_last. by replace (length q - n)%nat with 0%nat by lia. Qed.

Lemma keep_last_length n q : length (keep_last n q) = Nat.min (length q) n.
Proof. unfold keep_last. rewrite length_drop. lia. Qed.

(** Forgetting early does not change what is left. *)
Lemma keep_last_keep_last n q k : keep_last n (keep_last n q ++ k) = keep_last n (q ++ k).
Proof.
  unfold keep_last. rewrite !length_app, length_drop. destruct (decide (length q <= n)%nat) as [Hle|Hgt].
  - replace (length q - n)%nat with 0%nat by lia. rewrite drop_0. f_equal. lia.
  - rewrite <- (drop_app_le q k (length q - n)), drop_drop by lia. f_equal. lia.
Qed.

Lemma write_bytes_spec data b : well_formed b ->
  well_formed (foldl write_byte b data) /\ ab_capacity (foldl write_byte b data) = ab_capacity b /\
  contents (foldl write_byte b data) = keep_last (ab_capacity b) (contents b ++ data).
Proof.
  intros Hwf. induction data as [|x data IH] using rev_ind.
  - rewrite app_nil_r, keep_last_all; [done|]. rewrite contents_length. apply wf_size, Hwf.
  - destruct IH as (Hw & Hcap & Hcont). rewrite foldl_snoc. destruct (write_byte_spec _ x Hw) as (Hw' & Hcap' & Hcont').
    split; [done|]. split; [congruence|]. rewrite Hcont', Hcap, Hcont.
    rewrite (app_assoc (contents b)), <- (keep_last_keep_last _ (contents b ++ data) [x]).
    set (q := keep_last (ab_capacity b) (contents b ++ data)) in *.
    pose proof (contents_length (foldl write_byte b data)) as Hlen. rewrite Hcont in Hlen.
    pose proof (wf_size _ Hw) as Hsz. rewrite Hcap in Hsz.
    destruct (Nat.ltb_spec (ab_size (foldl write_byte b data)) (ab_capacity b)) as [Hlt|Hge].
    + rewrite keep_last_all; [done|]. rewrite length_app. cbn. lia.
    + unfold keep_last. rewrite length_app. cbn [length]. replace (length q + 1 - ab_capacity b)%nat with 1%nat by lia.
      destruct q as [|y q]; [|done]. pose proof (wf_capacity _ Hwf). cbn in Hlen. lia.
Qed.

Lemma map_add_seq k a m : map (fun i => k + i)%nat (seq a m) = seq (k + a) m.
Proof. revert a. induction m as [|m IH]; intros a; [done|]. cbn. rewrite IH. do 2 f_equal. lia. Qed.

Lemma overflow_spec n b : well_formed b ->
  well_formed (handleOverflow n b) /\ ab_capacity (handleOverflow n b) = ab_capacity b /\
  contents (handleOverflow n b) = drop n (contents b).
Proof.
  intros [Hc Hb Hr Hs Hw Ho]. destruct b as [rate ch ms mx buf wp rp sz cap cl gc th bw br ov un]. cbn in *.
  unfold handleOverflow, contents. cbn [ab_size ab_capacity ab_buffer ab_readPos ab_writePos field_set].
  set (k := Nat.min n sz). assert (k <= sz)%nat by lia.
  split; [split; cbn; try lia; try done|split; [done|]].
  - apply Nat.mod_upper_bound. lia.
  - rewrite Hw, Nat.Div0.add_mod_idemp_l. f_equal. lia.
  - rewrite skipn_map. replace (drop n (seq 0 sz)) with (seq k (sz - k)).
    2: { destruct (decide (n <= sz)%nat); [rewrite skipn_seq; f_equal; lia|].
         rewrite drop_ge by (rewrite length_seq; lia). by replace (sz - k)%nat with 0%nat by lia. }
    replace (seq k (sz - k)) with (map (fun i => k + i)%nat (seq 0 (sz - k))).
    + rewrite map_map. apply map_ext. intros i. rewrite Nat.Div0.add_mod_idemp_l. do 2 f_equal. lia.
    + rewrite map_add_seq. by rewrite Nat.add_0_r.
Qed.

Lemma write_spec now data b : well_formed b ->
  well_formed (Write now data b) /\ ab_capacity (Write now data b) = ab_capacity b /\
  contents (Write now data b) = keep_last (ab_capacity b) (contents b ++ data).
Proof.
  intros Hwf. unfold Write. destruct data as [|x data0].
  { rewrite app_nil_r, keep_last_all; [done|]. rewrite contents_length. apply wf_size, Hwf. }
  set (data := x :: data0) in *. clearbody data.
  set (b1 := if (_ <? _)%nat then _ else b).
  assert (H1 : well_formed b1 /\ ab_capacity b1 = ab_capacity b /\
    keep_last (ab_capacity b) (contents b1 ++ data) = keep_last (ab_capacity b) (contents b ++ data)).
  { subst b1. destruct (Nat.ltb_spec (ab_capacity b - ab_size b) (length data)) as [Hlt|Hge]; [|done].
    set (n := (length data - (ab_capacity b - ab_size b))%nat).
    destruct (overflow_spec n b Hwf) as (Hw & Hcap & Hcont). split_and!.
    - destruct (handleOverflow n b), Hw. by split.
    - by destruct (handleOverflow n b).
    - replace (contents _) with (contents (handleOverflow n b)) by (by destruct (handleOverflow n b)). rewrite Hcont.
      pose proof (contents_length b) as Hlen. pose proof (wf_size _ Hwf).
      destruct (decide (n <= length (contents b))%nat) as [Hn|Hn].
      + rewrite <- drop_app_le by done. unfold keep_last. rewrite length_drop, drop_drop, length_app. f_equal. subst n.
        rewrite Hlen in *. clear -Hlt H. lia.
      + assert (Hbig : (ab_capacity b < length data)%nat) by (rewrite Hlen in *; clear -Hn Hlt H; subst n; lia).
        rewrite drop_ge by (clear -Hn; lia). unfold keep_last.
        rewrite app_nil_l, length_app, drop_app_ge by lia. f_equal. lia. }
  destruct H1 as (Hw1 & Hc1 & Hk1). clearbody b1. destruct (write_bytes_spec data b1 Hw1) as (Hw2 & Hc2 & Hk2).
  rewrite Hc1 in Hc2, Hk2. rewrite <- Hk1, <- Hk2. set (b2 := foldl write_byte b1 data) in *. clearbody b2.
  destruct b2, Hw2. unfold periodicCleanup. cbn in *. destruct (_ && _); cbn; (split; [by split|done]).
Qed.

Lemma read_bytes_spec n b : (ab_readPos b < ab_capacity b)%nat ->
  let '(data, b') := read_bytes n b in
  data = map (fun i => ab_buffer b !!! ((ab_readPos b + i) mod ab_capacity b)%nat) (seq 0 n) /\
  b' = b <| ab_readPos := ((ab_readPos b + n) mod ab_capacity b)%nat |>.
Proof.
  revert b. induction n as [|n IH]; intros b Hr.
  - split; [done|]. rewrite Nat.add_0_r, Nat.mod_small by done. by destruct b.
  - cbn [read_bytes]. set (b1 := b <| ab_readPos := _ |>).
    assert (Hr1 : (ab_readPos b1 < ab_capacity b1)%nat) by (destruct b; apply Nat.mod_upper_bound; cbn in *; lia).
    specialize (IH b1 Hr1). destruct (read_bytes n b1) as [data b']. destruct IH as [-> ->]. destruct b. cbn in *. split.
    + rewrite Nat.add_0_r, (Nat.mod_small _ _ Hr). f_equal. rewrite <- seq_shift, map_map. apply map_ext.
      intros i. rewrite Nat.Div0.add_mod_idemp_l. do 2 f_equal. lia.
    + f_equal. rewrite Nat.Div0.add_mod_idemp_l. f_equal. lia.
Qed.

Lemma read_spec b : well_formed b ->
  let '(r, b') := Read b in
  well_formed b' /\ ab_capacity b' = ab_capacity b /\ contents b' = [] /\
  r = match contents b with [] => Waits | _ => ReadData (contents b) end.
Proof.
  intros Hwf. pose proof (contents_length b) as Hlen. unfold Read. destruct (Nat.eqb_spec (ab_size b) 0) as [E|Hne].
  - rewrite E in Hlen. apply length_zero_iff_nil in Hlen. rewrite Hlen, (wf_open _ Hwf). done.
  - pose proof (read_bytes_spec (ab_size b) b (wf_read _ Hwf)) as Hrd. destruct (read_bytes _ _) as [data b'].
    destruct Hrd as [-> ->]. fold (contents b). destruct Hwf as [Hc Hb Hr Hs Hw Ho]. split_and!.
    + destruct b. cbn in *. split; cbn; try (lia || done).
      * apply Nat.mod_upper_bound. lia.
      * rewrite Nat.sub_diag, Nat.add_0_r, Nat.Div0.mod_mod. done.
    + by destruct b.
    + destruct b. unfold contents. cbn. by rewrite Nat.sub_diag.
    + destruct (contents b); [cbn in Hlen; lia|done].
Qed.

Lemma cleanup_spec b : well_formed b ->
  well_formed (Cleanup b) /\ ab_capacity (Cleanup b) = ab_capacity b /\ contents (Cleanup b) = [].
Proof.
  intros [Hc Hb Hr Hs Hw Ho]. destruct b. unfold Cleanup. cbn in *.
  destruct (_ <? _)%nat; cbn; (split; [|done]); split; cbn; rewrite ?length_replicate; try (lia || done);
    symmetry; by apply Nat.mod_small.
Qed.

Lemma step_refines b o : well_formed b ->
  let '(r, b') := buffer_step b o in
  well_formed b' /\ ab_capacity b' = ab_capacity b /\ (r, contents b') = queue_step (ab_capacity b) (contents b) o.
Proof.
  intros Hwf. destruct o as [now data| |]; cbn.
  - destruct (write_spec now data b Hwf) as (? & ? & ->). done.
  - pose proof (read_spec b Hwf) as Hr. destruct (Read b). by destruct Hr as (? & ? & -> & ->).
  - destruct (cleanup_spec b Hwf) as (? & ? & ->). done.
Qed.

(** The circular buffer is a bounded queue that forgets its oldest bytes.
    Whatever size is asked for, the capacity is between 1024 bytes and one
    megabyte; and for every sequence of writes, reads and resets, by any number of
    goroutines, each read returns exactly the bytes of a queue to which every write
    appends and which keeps the last [capacity] of them, or waits when that queue
    is empty. *)
Theorem ring_refines_queue (now ms rate ch : Z) (ops : list op) :
  let b := NewAudioBuffer now ms rate ch in
  1024 <= Z.of_nat (ab_capacity b) <= 1024 * 1024 /\
  outputs buffer_step b ops = outputs (queue_step (ab_capacity b)) [] ops.
Proof.
  cbv zeta. split.
  - unfold NewAudioBuffer. cbn [ab_capacity].
    repeat match goal with |- context [?a <? ?b] => destruct (Z.ltb_spec a b) end; lia.
  - destruct (new_well_formed now ms rate ch) as [Hwf <-]. set (b := NewAudioBuffer now ms rate ch) in *. clearbody b.
    revert b Hwf. induction ops as [|o ops IH]; intros b Hwf; [done|]. cbn [outputs].
    pose proof (step_refines b o Hwf) as Hs. destruct (buffer_step b o) as [r b'].
    destruct Hs as (Hwf' & Hcap & <-). rewrite <- Hcap, IH by done. done.
Qed.

(** ** A buffer that is never ready *)

Definition threshold (b : AudioBuffer) : Z := Z.quot (requested (ab_bufferSizeMS b) (ab_sampleRate b) (ab_channels b)) 10.

Lemma write_byte_threshold b x : threshold (write_byte b x) = threshold b.
Proof. destruct b. unfold write_byte. by destruct (negb _). Qed.

Lemma write_threshold now data b : threshold (Write now data b) = threshold b.
Proof.
  unfold Write. destruct data as [|x data0]; [done|]. set (data := x :: data0). clearbody data.
  set (b1 := if (_ <? _)%nat then _ else b). assert (H1 : threshold b1 = threshold b).
  { subst b1. destruct (_ <? _)%nat; by destruct b. }
  rewrite <- H1. clearbody b1. clear H1.
  assert (H2 : threshold (foldl write_byte b1 data) = threshold b1).
  { revert b1. induction data as [|y data IH]; intros b1; [done|]. cbn [foldl]. by rewrite IH, write_byte_threshold. }
  rewrite <- H2. destruct (foldl write_byte b1 data). unfold periodicCleanup. by destruct (_ && _).
Qed.

Lemma read_threshold b : threshold (Read b).2 = threshold b.
Proof.
  unfold Read. destruct (_ =? _)%nat; [done|].
  assert (H : forall n b, threshold (read_bytes n b).2 = threshold b).
  { induction n as [|n IH]; intros b0; [done|]. cbn [read_bytes].
    specialize (IH (b0 <| ab_readPos := ((ab_readPos b0 + 1) mod ab_capacity b0)%nat |>)).
    destruct (read_bytes n _) as [data b']. cbn [snd] in *. rewrite IH. by destruct b0. }
  specialize (H (ab_size b) b). destruct (read_bytes _ b) as [data b']. cbn [snd] in *. rewrite <- H. by destruct b'.
Qed.

(** The test for enough data compares with a tenth of the size asked for, and
    the buffer never holds more than a megabyte: for a size above ten megabytes the
    test fails after every sequence of operations, and nothing is transcribed. *)
Theorem large_buffer_never_ready (now ms rate ch : Z) (ops : list op) :
  10 * (1024 * 1024) + 10 <= requested ms rate ch ->
  CanRead (foldl (fun b o => (buffer_step b o).2) (NewAudioBuffer now ms rate ch) ops) = false.
Proof.
  intros Hreq. destruct (new_well_formed now ms rate ch) as [Hwf _].
  assert (Ht : threshold (NewAudioBuffer now ms rate ch) = Z.quot (requested ms rate ch) 10) by done.
  assert (Hc : Z.of_nat (ab_capacity (NewAudioBuffer now ms rate ch)) <= 1024 * 1024).
  { unfold NewAudioBuffer. cbn [ab_capacity]. repeat match goal with |- context [?a <? ?b] => destruct (Z.ltb_spec a b) end; lia. }
  set (b := NewAudioBuffer now ms rate ch) in *. clearbody b. revert b Hwf Ht Hc.
  induction ops as [|o ops IH]; intros b Hwf Ht Hc; cbn [foldl].
  - unfold CanRead. fold (threshold b). rewrite Ht. apply Z.leb_gt. pose proof (wf_size _ Hwf).
    rewrite Z.quot_div_nonneg by lia. assert (1024 * 1024 + 1 <= requested ms rate ch / 10); [|lia].
    apply Z.div_le_lower_bound; lia.
  - pose proof (step_refines b o Hwf) as Hs.
    assert (Ho : threshold (buffer_step b o).2 = threshold b).
    { destruct o as [n data| |]; cbn [buffer_step].
      - apply write_threshold.
      - rewrite <- (read_threshold b). by destruct (Read b).
      - destruct b. unfold Cleanup. by destruct (_ <? _)%nat. }
    destruct (buffer_step b o) as [r b']. cbn [snd] in *. destruct Hs as (Hw' & Hcap & _).
    apply IH; [done|congruence|by rewrite Hcap].
Qed.

Lemma large_buffer_never_ready_witness :
  CanRead (foldl (fun b o => (buffer_step b o).2) (NewAudioBuffer 0 60000 48000 2) [OpWrite 0 [1; 2; 3]]) = false.
Proof. apply (large_buffer_never_ready 0 60000 48000 2). vm_compute. discriminate. Defined.
