(* ===== verification/AudioDecode.v ===== *)
(** * Decoding audio payloads

    [src/pkg/media/audio_conversion.go] and [codec.go]: the codec table, G.711
    mu-law and A-law, the G.722 sub-band decoder and the EVS estimator, at the
    widths of the code.  Opus and G.729 are decoded by C libraries and are
    parameters.  A decoder that would index a table out of range has no result
    ([None]); the EVS estimator computes in doubles, each operation rounded. *)

From S2P Require Import Prelude GoFloat WavFile.
#[local] Open Scope string_scope.
#[local] Open Scope list_scope.
#[local] Open Scope Z_scope.

(** ** The codec table *)

Record CodecInfo := mkCodecInfo {
  co_Name : string;
  co_PayloadType : Z;
  co_SampleRate : Z;
  co_Channels : Z
}.

Definition SupportedCodecs : gmap Z CodecInfo := list_to_map [
  (0, mkCodecInfo "PCMU" 0 8000 1);
  (8, mkCodecInfo "PCMA" 8 8000 1);
  (9, mkCodecInfo "G722" 9 16000 1);
  (18, mkCodecInfo "G729" 18 8000 1);
  (96, mkCodecInfo "OPUS" 96 48000 2);
  (97, mkCodecInfo "EVS" 97 16000 1);
  (98, mkCodecInfo "OPUS_MONO" 98 48000 1);
  (99, mkCodecInfo "EVS_WB" 99 32000 1);
  (100, mkCodecInfo "EVS_SWB" 100 48000 1)].

Inductive decode_error :=
  | PacketTooShort
  | UnsupportedPayloadType (pt : Z)
  | UnsupportedCodec (name : string)
  | EmptyG722
  | EmptyEVS
  | InvalidEVS
  | UnknownEVSFrame (frameType : Z)
  | EmptyEVSFrame
  | LibraryError (msg : string).

(** The name that comes with the error is "unknown" for a packet of an
    unsupported type. *)
Definition DetectCodec (rtpPacket : list Z) : string * option decode_error :=
  match rtpPacket with
  | _ :: b :: _ =>
    if flength rtpPacket <? 12 then ("", Some PacketTooShort) else
    let payloadType := Z.land b 127 in
    match SupportedCodecs !! payloadType with
    | Some codec => (co_Name codec, None)
    | None => ("unknown", Some (UnsupportedPayloadType payloadType))
    end
  | _ => ("", Some PacketTooShort)
  end.

Definition GetCodecInfo (payloadType : Z) : option CodecInfo := SupportedCodecs !! payloadType.

Definition PCMBytesPerPacket (sampleRate : Z) : Z :=
  let sampleRate := if sampleRate <=? 0 then 8000 else sampleRate in
  i64 (Z.quot (i64 (sampleRate * 20)) 1000 * 2).

(** ** G.711 *)

Definition decodeMuLawSample (uval : Z) : Z :=
  let uval := u8 (Z.lnot uval) in
  let sign := Z.land uval 128 in
  let exponent := Z.land (Z.shiftr uval 4) 7 in
  let mantissa := Z.land uval 15 in
  let magnitude := i16 (Z.shiftl (i16 (i16 (Z.shiftl mantissa 3) + 132)) exponent) in
  let magnitude := i16 (magnitude - 132) in
  if negb (sign =? 0) then i16 (- magnitude) else magnitude.

(** The shifts of the mantissa are those of a byte. *)
Definition decodeALawSample (aval : Z) : Z :=
  let aval := Z.lxor aval 85 in
  let sign := Z.land aval 128 in
  let exponent := Z.land (Z.shiftr aval 4) 7 in
  let mantissa := Z.land aval 15 in
  let magnitude :=
    if exponent =? 0 then i16 (u8 (Z.shiftl mantissa 4) + 8)
    else if exponent =? 1 then i16 (u8 (Z.shiftl mantissa 5) + 264)
    else i16 (Z.shiftl (i16 (u8 (Z.shiftl mantissa 5) + 264)) (exponent - 1)) in
  if negb (sign =? 0) then i16 (- magnitude) else magnitude.

(** [byte(sample)], [byte(sample >> 8)]. *)
Definition sample_bytes (sample : Z) : list Z := [u8 sample; u8 (Z.shiftr sample 8)].

Definition muLawToPCM (payload : list Z) : list Z :=
  flat_map (fun b => sample_bytes (decodeMuLawSample b)) payload.

Definition aLawToPCM (payload : list Z) : list Z :=
  flat_map (fun b => sample_bytes (decodeALawSample b)) payload.

Definition clampInt (val minVal maxVal : Z) : Z :=
  if val <? minVal then minVal else if maxVal <? val then maxVal else val.

Definition clampInt16 (val : Z) : Z :=
  if 32767 <? val then 32767 else if val <? -32768 then -32768 else i16 val.

(** ** G.722 *)

Record g722BandState := mkBand {
  bd_s : Z;
  bd_sp : Z;
  bd_r : list Z;
  bd_a : list Z;
  bd_p : list Z;
  bd_d : list Z;
  bd_b : list Z;
  bd_sg : list Z;
  bd_nb : Z;
  bd_det : Z
}.

Record G722Decoder := mkG722Decoder {
  gd_lowBand : g722BandState;
  gd_highBand : g722BandState;
  gd_qmfSignalHistory : list Z
}.

Definition g722LowerILB : list Z :=
  [2048; 2093; 2139; 2186; 2233; 2282; 2332; 2383; 2435; 2489; 2543; 2599; 2656; 2714; 2774; 2834;
   2896; 2960; 3025; 3091; 3158; 3228; 3298; 3371; 3444; 3520; 3597; 3676; 3756; 3838; 3922; 4008].

Definition g722LowerWL : list Z := [-60; -30; 58; 172; 334; 538; 1198; 3042].

Definition g722LowerRQ : list Z :=
  [-2048; -1792; -1536; -1280; -1024; -768; -512; -256; 0; 256; 512; 768; 1024; 1280; 1536; 1792;
   -1984; -1856; -1728; -1600; -1472; -1344; -1216; -1088; -960; -832; -704; -576; -448; -320; -192; -64;
   64; 192; 320; 448; 576; 704; 832; 960; 1088; 1216; 1344; 1472; 1600; 1728; 1856; 1984;
   -1920; -1664; -1408; -1152; -896; -640; -384; -128; 128; 384; 640; 896; 1152; 1408; 1664; 1920].

Definition g722HigherIH : list Z := [-816; -280; 280; 816].
Definition g722HigherWH : list Z := [0; -214; 798; 0].
Definition g722QMFCoeffs : list Z := [3; -11; 12; 32; -210; 951; 3876; -805; 362; -156; 53; -11].

Definition zero_band (det : Z) : g722BandState :=
  mkBand 0 0 [0; 0; 0] [0; 0; 0] [0; 0; 0] (replicate 7 0) (replicate 7 0) (replicate 7 0) 0 det.

Definition NewG722Decoder : G722Decoder := mkG722Decoder (zero_band 32) (zero_band 8) (replicate 24 0).

(** An element of a table. *)
Definition at_index (l : list Z) (i : Z) : option Z := if i <? 0 then None else l !! Z.to_nat i.

(** An element of an array at a constant index. *)
Definition el (l : list Z) (i : nat) : Z := nth i l 0.

Definition sign_of (x : Z) : Z := if 0 <? x then 1 else if x <? 0 then -1 else 0.

(** One step of the zero section of the predictor, for [i] from 6 to 1. *)
Definition zero_step (wd1 : Z) (acc : g722BandState * Z) (i : nat) : g722BandState * Z :=
  let '(band, sz) := acc in
  let d := <[i := el (bd_d band) (i - 1)]> (bd_d band) in
  let sg := <[i := el (bd_sg band) (i - 1)]> (bd_sg band) in
  let wd2 :=
    if wd1 =? 0 then 0
    else if el sg i =? 0 then (if 0 <? wd1 then 128 else -128)
    else if Bool.eqb (0 <? wd1) (0 <? el sg i) then 128 else -128 in
  let b := <[i := clampInt (Z.shiftr (el (bd_b band) i * 32640) 15 + wd2) (-32768) 32767]> (bd_b band) in
  (band <| bd_d := d |> <| bd_sg := sg |> <| bd_b := b |>, sz + Z.shiftr (el d i * el b i) 14).

Definition zero_section (wd1 diff : Z) (band : g722BandState) : g722BandState * Z :=
  let '(band, sz) := foldl (zero_step wd1) (band, 0) [6%nat; 5%nat; 4%nat; 3%nat; 2%nat; 1%nat] in
  (band <| bd_d := <[0%nat := diff]> (bd_d band) |> <| bd_sg := <[0%nat := sign_of diff]> (bd_sg band) |>, sz).

(** One step of the pole section, for [i] from 2 to 1. *)
Definition pole_step (wd1 : Z) (acc : g722BandState * Z) (i : nat) : g722BandState * Z :=
  let '(band, spl) := acc in
  let r := <[i := el (bd_r band) (i - 1)]> (bd_r band) in
  let p := <[i := el (bd_p band) (i - 1)]> (bd_p band) in
  let wd2 :=
    if wd1 =? 0 then 0
    else if el p i =? 0 then 0
    else if Bool.eqb (0 <? wd1) (0 <? el p i) then 128 else -128 in
  let a := <[i := clampInt (Z.shiftr (el (bd_a band) i * 32512) 15 + wd2) (-32768) 32767]> (bd_a band) in
  (band <| bd_r := r |> <| bd_p := p |> <| bd_a := a |>, spl + Z.shiftr (el r i * el a i) 14).

(** The pole section, the predictor output and the reconstructed signal. *)
Definition pole_section (recon sz : Z) (band : g722BandState) : g722BandState :=
  let wd1 := clampInt (recon - sz) (-32768) 32767 in
  let '(band, spl) := foldl (pole_step wd1) (band, 0) [2%nat; 1%nat] in
  band <| bd_r := <[0%nat := recon]> (bd_r band) |> <| bd_p := <[0%nat := wd1]> (bd_p band) |>
       <| bd_sp := clampInt (sz + spl) (-16384) 16383 |> <| bd_s := recon |>.

Definition adapt_scale (w maxNb : Z) (band : g722BandState) : g722BandState :=
  let nb := Z.shiftr (bd_nb band * 32127) 15 + w in
  band <| bd_nb := if nb <? 0 then 0 else if maxNb <? nb then maxNb else nb |>.

Definition decodeLowerSubBand (ilow : Z) (band : g722BandState) : option (Z * g722BandState) :=
  wd1 ← at_index g722LowerRQ (Z.land ilow 63);
  wd2 ← at_index g722LowerILB (Z.land (bd_nb band) 31);
  let dlowt := Z.shiftr (wd1 * wd2) 15 in
  let rlow := clampInt (bd_sp band + dlowt) (-16384) 16383 in
  let '(band, szl) := zero_section (clampInt dlowt (-32768) 32767) dlowt band in
  let band := pole_section rlow szl band in
  w ← at_index g722LowerWL (Z.land (Z.shiftr ilow 2) 7);
  Some (rlow, adapt_scale w 18432 band).

Definition decodeHigherSubBand (ihigh : Z) (band : g722BandState) : option (Z * g722BandState) :=
  wd1 ← at_index g722HigherIH ihigh;
  wd2 ← at_index g722LowerILB (Z.land (bd_nb band) 31);
  let dhigh := Z.shiftr (wd1 * wd2) 15 in
  let rhigh := clampInt (bd_sp band + dhigh) (-16384) 16383 in
  let '(band, szh) := zero_section dhigh dhigh band in
  let band := pole_section rhigh szh band in
  w ← at_index g722HigherWH (Z.land ihigh 3);
  Some (rhigh, adapt_scale w 22528 band).

Definition qmfSynthesis (rlow rhigh : Z) (history : list Z) : Z * Z * list Z :=
  let history := (rlow - rhigh) :: (rlow + rhigh) :: take 22 history in
  let taps := seq 0 12 in
  let xout2 := foldl (fun acc i => acc + el history (2 * i) * el g722QMFCoeffs i) 0 taps in
  let xout1 := foldl (fun acc i => acc + el history (2 * i + 1) * el g722QMFCoeffs (11 - i)) 0 taps in
  (Z.shiftr xout1 11, Z.shiftr xout2 11, history).

(** One payload byte: two samples. *)
Definition g722_byte (codeByte : Z) (d : G722Decoder) : option (list Z * G722Decoder) :=
  let ilow := Z.land codeByte 63 in
  let ihigh := Z.land (Z.shiftr codeByte 6) 3 in
  '(rlow, low) ← decodeLowerSubBand ilow (gd_lowBand d);
  '(rhigh, high) ← decodeHigherSubBand ihigh (gd_highBand d);
  let '(xout1, xout2, history) := qmfSynthesis rlow rhigh (gd_qmfSignalHistory d) in
  Some (le_put 2 (u16 (clampInt16 xout1)) ++ le_put 2 (u16 (clampInt16 xout2)),
        mkG722Decoder low high history).

Fixpoint g722_bytes (payload : list Z) (d : G722Decoder) : option (list Z * G722Decoder) :=
  match payload with
  | [] => Some ([], d)
  | b :: payload =>
    '(pcm, d) ← g722_byte b d;
    '(rest, d) ← g722_bytes payload d;
    Some (pcm ++ rest, d)
  end.

(** Every packet starts a new decoder. *)
Definition decodeG722Packet (payload : list Z) : option (decode_error + list Z) :=
  match payload with
  | [] => Some (inl EmptyG722)
  | _ => '(pcm, _) ← g722_bytes payload NewG722Decoder; Some (inr pcm)
  end.

(** ** The EVS estimator *)

Record EVSDecoder := mkEVSDecoder {
  ev_sampleRate : Z;
  ev_channels : Z;
  ev_mode : string;
  ev_initialized : bool
}.

Definition NewEVSDecoder (sampleRate channels : Z) : EVSDecoder :=
  let mode := if 16000 <=? sampleRate then "WB" else "NB" in
  let mode := if 32000 <=? sampleRate then "SWB" else mode in
  let mode := if 48000 <=? sampleRate then "FB" else mode in
  mkEVSDecoder sampleRate channels mode true.

Definition generateSilence (samples : nat) (d : EVSDecoder) : list Z :=
  replicate (samples * Z.to_nat (ev_channels d) * 2) 0.

(** The noise sample number [i]; the multiplication is one of [int]. *)
Definition noise_sample (i : nat) : Z :=
  let noise := i16 (Z.land (i64 (Z.of_nat i * 1103515245 + 12345)) 32767) in
  Z.rem noise 200 - 100.

Definition generateComfortNoise (samples : nat) (d : EVSDecoder) : list Z :=
  flat_map (fun i => le_put 2 (u16 (noise_sample i))) (seq 0 (samples * Z.to_nat (ev_channels d))).

(** The 16-bit sample at a byte offset of the output. *)
Definition output_sample (out : list Z) (i : nat) : spec_float :=
  f64_of_int (i16 (le_get (slice i (i + 2) out))).

Definition f64_four_fifths : spec_float := f64_div (f64_of_int 4) (f64_of_int 5).

(** Conversion to [int16] of a value clamped to its range. *)
Definition f64_to_i16 (x : spec_float) : Z := f64_to_int 0 (-32768) 32767 (f64_trunc x).

Definition evs_sample (frame out : list Z) (channels i : nat) : spec_float :=
  let byte k := f64_of_int (el frame k) in
  let pitchLag := (50 + Z.to_nat (Z.rem (el frame 0) 100))%nat in
  let last := (length frame - 1)%nat in
  let pitchGain := f64_div (byte (Nat.min 1 last)) (f64_of_int 255) in
  let fixedGain := f64_mul (f64_div (byte (Nat.min 2 last)) (f64_of_int 255))
                           (f64_div (f64_of_int 1) (f64_of_int 2)) in
  let back k := ((i - k) * 2 * channels)%nat in
  let sample :=
    if (pitchLag <=? i)%nat && (back pitchLag + 1 <? length out)%nat
    then f64_mul (output_sample out (back pitchLag)) pitchGain else f64_zero in
  let code := el frame (Nat.modulo (i / 5) (length frame)) in
  let sample := f64_add sample (f64_mul (f64_of_int (wrap_s 8 code)) fixedGain) in
  let sample :=
    if (0 <? i)%nat && (back 1 + 1 <? length out)%nat
    then f64_add sample (f64_mul (output_sample out (back 1%nat)) f64_four_fifths) else sample in
  if f64_lt (f64_of_int 32767) sample then f64_of_int 32767
  else if f64_lt sample (f64_of_int (-32768)) then f64_of_int (-32768) else sample.

(** Two bytes at an offset, if they fit. *)
Definition put_sample (bytes : list Z) (out : list Z) (i : nat) : list Z :=
  if (i + 1 <? length out)%nat then <[i := el bytes 0]> (<[(i + 1)%nat := el bytes 1]> out) else out.

Definition evs_step (frame : list Z) (channels : nat) (out : list Z) (i : nat) : list Z :=
  let bytes := le_put 2 (u16 (f64_to_i16 (evs_sample frame out channels i))) in
  foldl (put_sample bytes) out (map (fun ch => i * 2 * channels + ch * 2)%nat (seq 0 channels)).

Definition performEVSDecoding (frame out : list Z) (samples : nat) (d : EVSDecoder)
    : option decode_error * list Z :=
  match frame with
  | [] => (Some EmptyEVSFrame, out)
  | _ => (None, foldl (evs_step frame (Z.to_nat (ev_channels d))) out (seq 0 samples))
  end.

Definition decodeActiveFrame (frame : list Z) (samples : nat) (d : EVSDecoder) : decode_error + list Z :=
  match performEVSDecoding frame (replicate (samples * Z.to_nat (ev_channels d) * 2) 0) samples d with
  | (Some e, _) => inl e
  | (None, pcm) => inr pcm
  end.

Definition samples_per_frame (mode : string) : nat :=
  if String.eqb mode "WB" then 320
  else if String.eqb mode "SWB" then 640
  else if String.eqb mode "FB" then 960 else 160.

(** [NewEVSDecoder] always sets [initialized], the test of it is omitted. *)
Definition EVSDecode (packet : list Z) (d : EVSDecoder) : decode_error + list Z :=
  match packet with
  | header :: ((_ :: _) as frame) =>
    let frameType := Z.land (Z.shiftr header 3) 15 in
    let samples := samples_per_frame (ev_mode d) in
    if frameType =? 0 then inr (generateSilence samples d)
    else if frameType =? 1 then inr (generateComfortNoise samples d)
    else if (2 <=? frameType) && (frameType <=? 7) then decodeActiveFrame frame samples d
    else inl (UnknownEVSFrame frameType)
  | _ => inl InvalidEVS
  end.

Definition processEVSPacket (payload : list Z) (codec : CodecInfo) : decode_error + list Z :=
  match payload with
  | [] => inl EmptyEVS
  | _ => EVSDecode payload (NewEVSDecoder (co_SampleRate codec) (co_Channels codec))
  end.

(** ** The dispatcher *)

Section dispatch.
(** The decoders of the C libraries. *)
Context (decodeOpusPacket : list Z -> CodecInfo -> decode_error + list Z).
Context (decodeG729Packet : list Z -> decode_error + list Z).

Definition DecodeAudioPayload (payload : list Z) (codecName : string) : option (decode_error + list Z) :=
  if bool_decide (codecName ∈ [""; "PCMU"; "G711U"; "G.711U"; "G711MU"]) then Some (inr (muLawToPCM payload))
  else if bool_decide (codecName ∈ ["PCMA"; "G711A"; "G.711A"]) then Some (inr (aLawToPCM payload))
  else if bool_decide (codecName ∈ ["L16"; "LINEAR16"]) then Some (inr payload)
  else if String.eqb codecName "OPUS" then Some (decodeOpusPacket payload (mkCodecInfo "OPUS" 0 48000 2))
  else if String.eqb codecName "OPUS_MONO"
    then Some (decodeOpusPacket payload (mkCodecInfo "OPUS_MONO" 0 48000 1))
  else if String.eqb codecName "G722" then decodeG722Packet payload
  else if String.eqb codecName "EVS" then Some (processEVSPacket payload (mkCodecInfo "EVS" 0 16000 1))
  else if String.eqb codecName "EVS_WB" then Some (processEVSPacket payload (mkCodecInfo "EVS_WB" 0 32000 1))
  else if String.eqb codecName "EVS_SWB"
    then Some (processEVSPacket payload (mkCodecInfo "EVS_SWB" 0 48000 1))
  else if bool_decide (codecName ∈ ["G729"; "G.729"; "G729A"]) then Some (decodeG729Packet payload)
  else Some (inl (UnsupportedCodec codecName)).
End dispatch.

(** ** G.711 against the standard *)

(** ITU-T G.711 in 16-bit scale: the mu-law and A-law values of a code. *)
Definition mulaw_value (code : Z) : Z :=
  let c := 255 - code in
  let magnitude := 4 * ((2 * (c mod 16) + 33) * 2 ^ (c / 16 mod 8) - 33) in
  if 128 <=? code then magnitude else - magnitude.

Definition alaw_exponent (code : Z) : Z := Z.lxor code 85 / 16 mod 8.
Definition alaw_mantissa (code : Z) : Z := Z.lxor code 85 mod 16.

Definition alaw_value (code : Z) : Z :=
  let m := alaw_mantissa code in
  let e := alaw_exponent code in
  let magnitude := 8 * (if e =? 0 then 2 * m + 1 else (2 * m + 33) * 2 ^ (e - 1)) in
  if 128 <=? code then magnitude else - magnitude.

Definition all_bytes : list Z := map Z.of_nat (seq 0 256).

Lemma elem_of_all_bytes b : in_u 8 b <-> b ∈ all_bytes.
Proof.
  unfold all_bytes, in_u. rewrite list_elem_of_In, in_map_iff. split.
  - intros H. exists (Z.to_nat b). rewrite in_seq. split; lia.
  - intros (n & <- & H). rewrite in_seq in H. lia.
Qed.

(** A boolean property of bytes is checked on all 256. *)
Lemma byte_cases (f : Z -> bool) : forallb f all_bytes = true -> forall b, in_u 8 b -> f b = true.
Proof. rewrite forallb_forall. intros H b Hb. apply H, list_elem_of_In. by apply elem_of_all_bytes. Qed.

Lemma mulaw_sample_correct b : in_u 8 b -> decodeMuLawSample b = mulaw_value b /\ in_s 16 (mulaw_value b).
Proof.
  intros Hb. assert (H := byte_cases (fun b => (decodeMuLawSample b =? mulaw_value b) &&
    ((-32768 <=? mulaw_value b) && (mulaw_value b <=? 32767))) ltac:(vm_compute; reflexivity) b Hb).
  cbv beta in H. bool_to_prop. unfold in_s. change (2 ^ (16 - 1)) with 32768. lia.
Qed.

Lemma sample_bytes_put x : sample_bytes x = le_put 2 x.
Proof.
  unfold sample_bytes, le_put, u8, wrap_u. rewrite Z.shiftr_div_pow2 by lia. done.
Qed.

Lemma flat_map_encode {A} (f : A -> Z) l : flat_map (fun b => sample_bytes (f b)) l = encode (map f l).
Proof.
  induction l as [|x l IH]; [done|]. cbn [flat_map map]. rewrite encode_cons, IH, sample_bytes_put. done.
Qed.

(** Mu-law payloads decode to the values of ITU-T G.711: two bytes per
    payload byte, low byte first, that read back as the sample the standard
    assigns to the code, for every code. *)
Theorem mulaw_decoding_correct (payload : list Z) :
  Forall (in_u 8) payload ->
  length (muLawToPCM payload) = (2 * length payload)%nat /\
  decode_samples (muLawToPCM payload) = map mulaw_value payload.
Proof.
  intros H. unfold muLawToPCM. rewrite flat_map_encode, encode_length, length_map. split; [done|].
  rewrite decode_encode.
  - induction H as [|b l Hb _ IH]; [done|]. cbn. by rewrite IH, (proj1 (mulaw_sample_correct b Hb)).
  - apply Forall_map. eapply Forall_impl; [exact H|]. intros b Hb. cbn.
    by destruct (mulaw_sample_correct b Hb) as [-> ?].
Qed.

Lemma mulaw_decoding_correct_witness :
  decode_samples (muLawToPCM [255; 0; 128; 42]) = [0; -32124; 32124; -5372].
Proof.
  rewrite (proj2 (mulaw_decoding_correct [255; 0; 128; 42]
    ltac:(repeat constructor; vm_compute; discriminate))). reflexivity.
Defined.

(** No A-law code decodes to its G.711 value: the sign of every sample is
    inverted, and the magnitude is right only for the lowest segment and for the
    first step of the others, because the mantissa is shifted one place too far
    and in eight bits. *)
Theorem alaw_decoding_wrong (code : Z) :
  in_u 8 code ->
  decodeALawSample code <> alaw_value code /\
  (0 < decodeALawSample code <-> alaw_value code < 0) /\
  (Z.abs (decodeALawSample code) = Z.abs (alaw_value code) <->
   alaw_exponent code = 0 \/ alaw_mantissa code = 0).
Proof.
  intros H.
  assert (Hc := byte_cases (fun a => negb (decodeALawSample a =? alaw_value a) &&
    (Bool.eqb (0 <? decodeALawSample a) (alaw_value a <? 0) &&
     Bool.eqb (Z.abs (decodeALawSample a) =? Z.abs (alaw_value a))
              ((alaw_exponent a =? 0) || (alaw_mantissa a =? 0))))
    ltac:(vm_compute; reflexivity) code H).
  cbv beta in Hc. bool_to_prop. split; [done|]. rewrite <- !Z.eqb_eq, <- !Z.ltb_lt, <- orb_true_iff.
  apply Bool.eqb_prop in H1, H2. rewrite H1, H2. done.
Qed.

Lemma alaw_decoding_wrong_witness :
  decodeALawSample 213 = -8 /\ alaw_value 213 = 8 /\ decodeALawSample 213 <> alaw_value 213.
Proof.
  split; [reflexivity|]. split; [reflexivity|].
  apply (alaw_decoding_wrong 213). split; [vm_compute; discriminate|reflexivity].
Defined.

(** ** G.722: totality and bounds *)

Definition within (lo hi x : Z) : Prop := lo <= x <= hi.

Lemma clampInt_within v lo hi : lo <= hi -> within lo hi (clampInt v lo hi).
Proof. unfold within, clampInt. intros H. case_tests; bool_to_prop; lia. Qed.

Lemma el_within lo hi l i : lo <= 0 <= hi -> Forall (within lo hi) l -> within lo hi (el l i).
Proof.
  intros H0 H. unfold el. destruct (nth_in_or_default i l 0) as [Hi| ->]; [|done].
  rewrite Forall_forall in H. by apply H, list_elem_of_In.
Qed.

(** A masked index is in the table. *)
Lemma at_index_mask l i m :
  length l = Z.to_nat (m + 1) -> 0 <= m -> exists x, at_index l (Z.land i m) = Some x /\ x ∈ l.
Proof.
  intros Hl Hm. pose proof (land_mask i m Hm). unfold at_index.
  destruct (Z.ltb_spec (Z.land i m) 0); [lia|].
  destruct (lookup_lt_is_Some_2 l (Z.to_nat (Z.land i m))) as [x Hx]; [lia|].
  exists x. split; [done|]. by eapply list_elem_of_lookup_2.
Qed.

Lemma elem_of_within l lo hi x :
  forallb (fun x => (lo <=? x) && (x <=? hi)) l = true -> x ∈ l -> within lo hi x.
Proof.
  rewrite forallb_forall. intros H Hx. apply list_elem_of_In, H in Hx. bool_to_prop. by split.
Qed.

(** The values of a band between two bytes. *)
Record band_bounded (maxNb : Z) (band : g722BandState) : Prop := {
  bb_d : Forall (within (-256) 256) (bd_d band);
  bb_b : Forall (within (-32768) 32767) (bd_b band);
  bb_a : Forall (within (-32768) 32767) (bd_a band);
  bb_p : Forall (within (-32768) 32767) (bd_p band);
  bb_r : Forall (within (-16384) 16383) (bd_r band);
  bb_sp : within (-16384) 16383 (bd_sp band);
  bb_s : within (-16384) 16383 (bd_s band);
  bb_nb : within 0 maxNb (bd_nb band)
}.

Ltac bounded := first [apply clampInt_within; lia | apply el_within; [lia|done] | assumption | unfold within; lia].

Lemma zero_step_bounded m wd acc i :
  band_bounded m acc.1 -> band_bounded m (zero_step wd acc i).1.
Proof.
  destruct acc as [[s sp r a p d b sg nb det] sz]. intros [Hd Hb Ha Hp Hr Hsp Hs Hnb].
  split; cbn -[clampInt] in *; try done; apply Forall_insert; bounded.
Qed.

Lemma pole_step_bounded m wd acc i :
  band_bounded m acc.1 -> band_bounded m (pole_step wd acc i).1.
Proof.
  destruct acc as [[s sp r a p d b sg nb det] sz]. intros [Hd Hb Ha Hp Hr Hsp Hs Hnb].
  split; cbn -[clampInt] in *; try done; apply Forall_insert; bounded.
Qed.

Lemma foldl_bounded m f idx acc :
  (forall acc i, band_bounded m acc.1 -> band_bounded m (f acc i : g722BandState * Z).1) ->
  band_bounded m acc.1 -> band_bounded m (foldl f acc (idx : list nat)).1.
Proof. intros Hf. revert acc. induction idx as [|i idx IH]; intros acc H; [done|]. cbn. by apply IH, Hf. Qed.

Lemma zero_section_bounded m wd diff band :
  within (-256) 256 diff -> band_bounded m band -> band_bounded m (zero_section wd diff band).1.
Proof.
  intros Hdiff H. unfold zero_section.
  pose proof (foldl_bounded m (zero_step wd) [6%nat; 5%nat; 4%nat; 3%nat; 2%nat; 1%nat] (band, 0)
    (zero_step_bounded m wd) H) as Hf.
  destruct (foldl _ _ _) as [[s sp r a p d b sg nb det] sz]. destruct Hf as [Hd Hb Ha Hp Hr Hsp Hs Hnb].
  split; cbn in *; try done. by apply Forall_insert.
Qed.

Lemma pole_section_bounded m recon sz band :
  within (-16384) 16383 recon -> band_bounded m band -> band_bounded m (pole_section recon sz band).
Proof.
  intros Hrec H. unfold pole_section. set (wd := clampInt (recon - sz) _ _).
  pose proof (foldl_bounded m (pole_step wd) [2%nat; 1%nat] (band, 0) (pole_step_bounded m wd) H) as Hf.
  destruct (foldl _ _ _) as [[s sp r a p d b sg nb det] spl]. destruct Hf as [Hd Hb Ha Hp Hr Hsp Hs Hnb].
  split; cbn -[clampInt] in *; try done; try (apply Forall_insert; [done|]); bounded.
Qed.

Lemma adapt_scale_bounded m w band : 0 <= m -> band_bounded m band -> band_bounded m (adapt_scale w m band).
Proof.
  intros Hm H. destruct band as [s sp r a p d b sg nb det], H as [Hd Hb Ha Hp Hr Hsp Hs Hnb].
  split; try done. unfold adapt_scale, within. cbn -[Z.shiftr Z.mul]. case_tests; bool_to_prop; lia.
Qed.

(** The difference signal is small: at most 2048 times 4008, scaled down. *)
Lemma difference_bounded x y lo hi :
  within (-2048) 2048 x -> within 2048 4008 y -> lo = -256 -> hi = 256 -> within lo hi (Z.shiftr (x * y) 15).
Proof.
  unfold within. intros Hx Hy -> ->. rewrite Z.shiftr_div_pow2 by lia. change (2 ^ 15) with 32768.
  split; [apply Z.div_le_lower_bound; nia|]. apply Z.lt_succ_r, Z.div_lt_upper_bound; nia.
Qed.

(** Both bands: with table elements [x], [y] and [w] the rest is the same. *)
Lemma band_update_bounded m x y w wd band :
  0 <= m -> within (-2048) 2048 x -> within 2048 4008 y -> band_bounded m band ->
  let diff := Z.shiftr (x * y) 15 in
  let recon := clampInt (bd_sp band + diff) (-16384) 16383 in
  within (-16384) 16383 recon /\
  band_bounded m (adapt_scale w m
    (pole_section recon (zero_section wd diff band).2 (zero_section wd diff band).1)).
Proof.
  intros Hm Hx Hy Hb diff recon. assert (Hr : within (-16384) 16383 recon) by (apply clampInt_within; lia).
  split; [done|]. apply adapt_scale_bounded, pole_section_bounded, zero_section_bounded; try done.
  by apply (difference_bounded x y).
Qed.

Lemma lower_band_total ilow band :
  band_bounded 18432 band ->
  exists rlow band', decodeLowerSubBand ilow band = Some (rlow, band') /\
    within (-16384) 16383 rlow /\ band_bounded 18432 band'.
Proof.
  intros Hb. unfold decodeLowerSubBand.
  destruct (at_index_mask g722LowerRQ ilow 63) as (x & -> & Hx); [done|done|].
  destruct (at_index_mask g722LowerILB (bd_nb band) 31) as (y & -> & Hy); [done|done|].
  destruct (at_index_mask g722LowerWL (Z.shiftr ilow 2) 7) as (w & -> & _); [done|done|]. cbn [mbind option_bind].
  apply (elem_of_within _ (-2048) 2048) in Hx; [|reflexivity].
  apply (elem_of_within _ 2048 4008) in Hy; [|reflexivity].
  destruct (band_update_bounded 18432 x y w (clampInt (Z.shiftr (x * y) 15) (-32768) 32767) band)
    as [Hr Hb']; [lia|done..|].
  destruct (zero_section _ _ band) as [band1 sz]. eauto.
Qed.

Lemma higher_band_total c band :
  band_bounded 22528 band ->
  exists rhigh band', decodeHigherSubBand (Z.land c 3) band = Some (rhigh, band') /\
    within (-16384) 16383 rhigh /\ band_bounded 22528 band'.
Proof.
  intros Hb. unfold decodeHigherSubBand.
  destruct (at_index_mask g722HigherIH c 3) as (x & -> & Hx); [done|done|].
  destruct (at_index_mask g722LowerILB (bd_nb band) 31) as (y & -> & Hy); [done|done|].
  destruct (at_index_mask g722HigherWH (Z.land c 3) 3) as (w & -> & _); [done|done|]. cbn [mbind option_bind].
  apply (elem_of_within _ (-2048) 2048) in Hx; [|reflexivity].
  apply (elem_of_within _ 2048 4008) in Hy; [|reflexivity].
  destruct (band_update_bounded 22528 x y w (Z.shiftr (x * y) 15) band) as [Hr Hb']; [lia|done..|].
  destruct (zero_section _ _ band) as [band1 sz]. eauto.
Qed.

Record decoder_bounded (d : G722Decoder) : Prop := {
  db_low : band_bounded 18432 (gd_lowBand d);
  db_high : band_bounded 22528 (gd_highBand d);
  db_history : Forall (within (-32768) 32767) (gd_qmfSignalHistory d);
  db_taps : length (gd_qmfSignalHistory d) = 24%nat
}.

Lemma new_decoder_bounded : decoder_bounded NewG722Decoder.
Proof.
  split; [| |apply Forall_replicate; unfold within; lia|done].
  all: split; repeat constructor; unfold within; cbn; lia.
Qed.

Lemma g722_byte_total b d :
  decoder_bounded d ->
  exists pcm d', g722_byte b d = Some (pcm, d') /\ length pcm = 4%nat /\ Forall (in_u 8) pcm /\
    decoder_bounded d'.
Proof.
  intros [Hl Hh Hq Ht]. unfold g722_byte.
  destruct (lower_band_total (Z.land b 63) _ Hl) as (rlow & low & -> & Hrl & Hl').
  destruct (higher_band_total (Z.shiftr b 6) _ Hh) as (rhigh & high & -> & Hrh & Hh').
  cbn [mbind option_bind]. destruct (qmfSynthesis rlow rhigh _) as [[x1 x2] hist] eqn:E.
  eexists _, _. split; [done|]. split; [done|]. split; [apply Forall_app; split; apply le_put_bytes|].
  unfold qmfSynthesis in E. cbv zeta in E. injection E as _ _ <-. unfold within in *.
  split; cbn [gd_lowBand gd_highBand gd_qmfSignalHistory]; try done.
  - repeat apply Forall_cons_2; [unfold within; lia..|]. by apply Forall_take.
  - cbn [length]. rewrite length_take, Ht. done.
Qed.

Lemma g722_bytes_total payload d :
  decoder_bounded d ->
  exists pcm d', g722_bytes payload d = Some (pcm, d') /\ length pcm = (4 * length payload)%nat /\
    Forall (in_u 8) pcm /\ decoder_bounded d'.
Proof.
  revert d. induction payload as [|b payload IH]; intros d Hd; [by exists [], d|]. cbn [g722_bytes].
  destruct (g722_byte_total b d Hd) as (pcm & d1 & -> & Hl & Hb & Hd1).
  destruct (IH d1 Hd1) as (rest & d2 & E & Hl2 & Hb2 & Hd2). cbn [mbind option_bind]. rewrite E.
  cbn [mbind option_bind]. exists (pcm ++ rest), d2. split; [done|].
  rewrite length_app, Hl, Hl2. split; [cbn; lia|]. split; [by apply Forall_app|done].
Qed.

Lemma g722_packet_length payload :
  exists r, decodeG722Packet payload = Some r /\
    forall pcm, r = inr pcm -> length pcm = (4 * length payload)%nat.
Proof.
  destruct payload as [|b payload]; [by eexists|]. unfold decodeG722Packet.
  destruct (g722_bytes_total (b :: payload) _ new_decoder_bounded) as (pcm & d & -> & Hl & _).
  eexists. split; [done|]. by intros ? [= <-].
Qed.

(** The G.722 decoder never leaves its tables or its ranges: whatever the
    payload, every table index is in range, after any number of bytes the
    predictor coefficients, difference signals, scale factors and filter history
    are within fixed bounds (so no product exceeds 2^31), and every payload byte
    gives two 16-bit samples. *)
Theorem g722_total_and_bounded (payload : list Z) :
  exists pcm d, g722_bytes payload NewG722Decoder = Some (pcm, d) /\ decoder_bounded d /\
    length pcm = (4 * length payload)%nat /\ Forall (in_u 8) pcm /\
    decodeG722Packet payload = Some (if decide (payload = []) then inl EmptyG722 else inr pcm).
Proof.
  destruct (g722_bytes_total payload _ new_decoder_bounded) as (pcm & d & E & Hl & Hb & Hd).
  exists pcm, d. split_and!; try done. unfold decodeG722Packet. destruct payload; [done|].
  rewrite E. by rewrite decide_False.
Qed.

(** The adaptive state does not survive a packet: every packet is decoded
    from the initial state, so the second packet of a stream does not sound as
    it does when the stream is decoded as a whole. *)
Theorem g722_state_lost_between_packets :
  let first := replicate 20 197 in
  let second := [197; 58] in
  exists whole a b,
    decodeG722Packet (first ++ second) = Some (inr whole) /\
    decodeG722Packet first = Some (inr a) /\ decodeG722Packet second = Some (inr b) /\
    whole <> a ++ b /\ take 80 whole = a.
Proof.
  cbv zeta. eexists _, _, _. split; [vm_compute; reflexivity|]. split; [vm_compute; reflexivity|].
  split; [vm_compute; reflexivity|]. split; [vm_compute; discriminate|vm_compute; reflexivity].
Qed.

(** ** Lengths *)

Lemma put_sample_length bytes out i : length (put_sample bytes out i) = length out.
Proof. unfold put_sample. case_tests; by rewrite ?length_insert. Qed.

Lemma evs_step_length frame channels out i : length (evs_step frame channels out i) = length out.
Proof.
  unfold evs_step. set (bytes := le_put _ _). clearbody bytes.
  generalize (map (fun ch => i * 2 * channels + ch * 2)%nat (seq 0 channels)) as l. intros l.
  revert out. induction l as [|j l IH]; intros out; [done|]. cbn [foldl]. by rewrite IH, put_sample_length.
Qed.

Lemma active_frame_length frame samples d pcm :
  decodeActiveFrame frame samples d = inr pcm -> length pcm = (samples * Z.to_nat (ev_channels d) * 2)%nat.
Proof.
  unfold decodeActiveFrame, performEVSDecoding. destruct frame as [|x frame]; [done|]. intros [= <-].
  set (out := replicate _ 0). assert (Hl : length out = (samples * Z.to_nat (ev_channels d) * 2)%nat)
    by apply length_replicate.
  rewrite <- Hl. clear Hl. generalize (seq 0 samples) as l. clearbody out. intros l. revert out.
  induction l as [|i l IH]; intros out; [done|]. cbn [foldl]. by rewrite IH, evs_step_length.
Qed.

Lemma comfort_noise_length samples d :
  length (generateComfortNoise samples d) = (samples * Z.to_nat (ev_channels d) * 2)%nat.
Proof.
  unfold generateComfortNoise.
  assert (H : forall n k, length (flat_map (fun i => le_put 2 (u16 (noise_sample i))) (seq k n)) = (n * 2)%nat).
  { induction n as [|n IH]; intros k; [done|]. cbn [seq flat_map].
    rewrite length_app, le_put_length, IH. lia. }
  apply H.
Qed.

Lemma evs_decode_length packet d pcm :
  EVSDecode packet d = inr pcm ->
  length pcm = (samples_per_frame (ev_mode d) * Z.to_nat (ev_channels d) * 2)%nat.
Proof.
  unfold EVSDecode. destruct packet as [|h [|x frame]]; [done|done|].
  destruct (_ =? 0); [intros [= <-]; apply length_replicate|].
  destruct (_ =? 1); [intros [= <-]; apply comfort_noise_length|].
  destruct (_ && _); [|done]. apply active_frame_length.
Qed.

Lemma evs_packet_length payload name pt rate n pcm :
  processEVSPacket payload (mkCodecInfo name pt rate 1) = inr pcm ->
  samples_per_frame (ev_mode (NewEVSDecoder rate 1)) = n -> length pcm = (n * 2)%nat.
Proof.
  intros H Hn. unfold processEVSPacket in H. destruct payload as [|x payload]; [done|].
  apply evs_decode_length in H. cbn [co_SampleRate co_Channels] in H. rewrite H, Hn. cbn. lia.
Qed.

(** Without the C libraries, decoding returns, at most four bytes per payload
    byte or one EVS frame. *)
Lemma decode_payload_bound opus g729 payload name :
  (name ∉ ["OPUS"; "OPUS_MONO"]) -> (name ∉ ["G729"; "G.729"; "G729A"]) ->
  exists r, DecodeAudioPayload opus g729 payload name = Some r /\
    forall pcm, r = inr pcm -> (length pcm <= 4 * length payload + 1920)%nat.
Proof.
  intros Ho Hg. unfold DecodeAudioPayload, muLawToPCM, aLawToPCM.
  destruct (g722_packet_length payload) as (r & E & Hl). rewrite E.
  destruct (bool_decide_reflect (name ∈ ["G729"; "G.729"; "G729A"])); [done|].
  destruct (String.eqb_spec name "OPUS") as [->|]; [by destruct Ho; left|].
  destruct (String.eqb_spec name "OPUS_MONO") as [->|]; [by destruct Ho; right; left|].
  case_tests; eexists; (split; [reflexivity|]); intros pcm Hp; try done.
  - injection Hp as <-. rewrite flat_map_encode, encode_length, length_map. lia.
  - injection Hp as <-. rewrite flat_map_encode, encode_length, length_map. lia.
  - injection Hp as <-. lia.
  - apply Hl in Hp. lia.
  - apply (evs_packet_length _ _ _ _ 320) in Hp; [lia|done].
  - apply (evs_packet_length _ _ _ _ 640) in Hp; [lia|done].
  - apply (evs_packet_length _ _ _ _ 960) in Hp; [lia|done].
Qed.

(** Decoding never fails to return, and what it returns has the length the
    codec calls for: two bytes per payload byte for G.711, the payload itself for
    linear PCM, four bytes per payload byte for G.722, and a 20 ms frame of 16-bit
    samples for the EVS modes. *)
Theorem decode_payload_lengths (opus : list Z -> CodecInfo -> decode_error + list Z)
    (g729 : list Z -> decode_error + list Z) (payload : list Z) (name : string) :
  exists r, DecodeAudioPayload opus g729 payload name = Some r /\
  forall pcm, r = inr pcm ->
    (name = "PCMU" \/ name = "PCMA" -> length pcm = (2 * length payload)%nat) /\
    (name = "L16" -> pcm = payload) /\
    (name = "G722" -> length pcm = (4 * length payload)%nat) /\
    (name = "EVS" -> length pcm = 640%nat) /\ (name = "EVS_WB" -> length pcm = 1280%nat) /\
    (name = "EVS_SWB" -> length pcm = 1920%nat).
Proof.
  assert (Ht : exists r, DecodeAudioPayload opus g729 payload name = Some r).
  { unfold DecodeAudioPayload. destruct (g722_packet_length payload) as (r & E & _).
    rewrite E. case_tests; eauto. }
  destruct Ht as [r Hr]. exists r. split; [done|]. intros pcm ->. split_and!; intros Hn.
  - destruct Hn as [-> | ->]; injection Hr as <-; unfold muLawToPCM, aLawToPCM;
      by rewrite flat_map_encode, encode_length, length_map.
  - subst name. by injection Hr.
  - subst name. destruct (g722_packet_length payload) as (r & E & Hl).
    change (DecodeAudioPayload opus g729 payload "G722") with (decodeG722Packet payload) in Hr.
    apply Hl. congruence.
  - subst name. injection Hr as Hr. by apply (evs_packet_length _ _ _ _ 320) in Hr.
  - subst name. injection Hr as Hr. by apply (evs_packet_length _ _ _ _ 640) in Hr.
  - subst name. injection Hr as Hr. by apply (evs_packet_length _ _ _ _ 960) in Hr.
Qed.
