(* ===== verification/PiiDetector.v ===== *)
(** * Detecting personal data in transcriptions

    [pii/detector.go] and [stt/pii_transcription_filter.go]: social security
    numbers, card numbers, phone numbers and email addresses are found by regular
    expressions, checked and masked before the listeners of transcriptions see
    them.  Texts are lists of bytes.  The four expressions are values of a small
    type of expressions with the leftmost-first semantics of Go's [regexp]; they
    match ASCII characters only, so bytes and runes agree on what they match.  A
    panic of the context slice is [None]. *)

From S2P Require Import Prelude GoStrings.
From Stdlib Require Import Ascii String.
#[local] Open Scope string_scope.
#[local] Open Scope list_scope.
#[local] Open Scope Z_scope.

Notation text := (list ascii).

Definition lit (s : string) : text := list_ascii_of_string s.

(** ** Regular expressions *)

Definition char_in (lo hi : Z) (c : ascii) : bool := (lo <=? byte_of c) && (byte_of c <=? hi).
Definition is_digit : ascii -> bool := char_in 48 57.
Definition is_upper : ascii -> bool := char_in 65 90.
Definition is_lower : ascii -> bool := char_in 97 122.
Definition one_of (s : string) (c : ascii) : bool := existsb (Ascii.eqb c) (lit s).

(** [\w] and [\s]. *)
Definition is_word (c : ascii) : bool := is_digit c || is_upper c || is_lower c || one_of "_" c.
Definition is_blank (c : ascii) : bool := char_in 9 10 c || char_in 12 13 c || one_of " " c.

Inductive regex :=
  | Char (p : ascii -> bool)
  | Boundary
  | Empty
  | Cat (r s : regex)
  | Alt (r s : regex)
  | Opt (r : regex)
  | Plus (p : ascii -> bool).

(** [Plus p]: as many characters as possible, then fewer. *)
Fixpoint run_plus {R : Type} (p : ascii -> bool) (l : text) (k : option ascii -> text -> option R) : option R :=
  match l with
  | [] => None
  | c :: l =>
    if p c then match run_plus p l k with Some x => Some x | None => k (Some c) l end else None
  end.

Definition at_word (c : option ascii) : bool := match c with Some c => is_word c | None => false end.

(** Match at the front of [l], after the character [prev], in the order of
    preference; [k] matches the rest. *)
Fixpoint run {R : Type} (r : regex) (prev : option ascii) (l : text) (k : option ascii -> text -> option R) : option R :=
  match r with
  | Char p => match l with c :: l => if p c then k (Some c) l else None | [] => None end
  | Boundary => if Bool.eqb (at_word prev) (at_word (head l)) then None else k prev l
  | Empty => k prev l
  | Cat r s => run r prev l (fun prev l => run s prev l k)
  | Alt r s => match run r prev l k with Some x => Some x | None => run s prev l k end
  | Opt r => match run r prev l k with Some x => Some x | None => k prev l end
  | Plus p => run_plus p l k
  end.

(** The number of bytes of the match at the front of [l]. *)
Definition match_front (r : regex) (prev : option ascii) (l : text) : option nat :=
  run r prev l (fun _ rest => Some (List.length l - List.length rest)%nat).

(** [FindAllStringIndex]: the matches from the position [pos] on, none of them
    empty. *)
Fixpoint find_all (fuel : nat) (r : regex) (prev : option ascii) (pos : nat) (l : text) : list (nat * nat) :=
  match fuel, l with
  | S fuel, c :: l' =>
    match match_front r prev l with
    | Some (S n) => (pos, pos + S n)%nat :: find_all fuel r (last (take (S n) l)) (pos + S n) (drop (S n) l)
    | _ => find_all fuel r (Some c) (S pos) l'
    end
  | _, _ => []
  end.

Definition FindAllStringIndex (r : regex) (l : text) : list (nat * nat) := find_all (List.length l) r None 0 l.

Fixpoint times (n : nat) (r : regex) : regex := match n with O => Empty | S n => Cat r (times n r) end.
Fixpoint cats (l : list regex) : regex := match l with [] => Empty | [r] => r | r :: l => Cat r (cats l) end.
Definition alts (r : regex) (l : list regex) : regex := foldl Alt r l.

(** *** The four expressions *)

Definition Digit : regex := Char is_digit.
Definition Sep : regex := Opt (Char (fun c => one_of "-" c || is_blank c)).
Definition PhoneSep : regex := Opt (Char (fun c => one_of "-." c || is_blank c)).
Definition Exactly (s : string) : regex := Char (one_of s).

Definition ssnRegex : regex :=
  cats [Boundary; times 3 Digit; Sep; times 2 Digit; Sep; times 4 Digit; Boundary].

Definition card4 (first : string) : regex :=
  cats [Exactly first; times 3 Digit; Sep; times 4 Digit; Sep; times 4 Digit; Sep; times 4 Digit].

Definition amex : regex := cats [Exactly "3"; times 3 Digit; Sep; times 6 Digit; Sep; times 5 Digit].

Definition creditCardRegex : regex :=
  cats [Boundary; alts (card4 "4") [card4 "5"; amex; card4 "6"]; Boundary].

Definition phoneRegex : regex :=
  cats [Boundary; Opt (cats [Opt (Exactly "+"); Exactly "1"; PhoneSep]); Opt (Exactly "("); times 3 Digit; Opt (Exactly ")");
        PhoneSep; times 3 Digit; PhoneSep; times 4 Digit; Boundary].

Definition local_char (c : ascii) : bool := is_upper c || is_lower c || is_digit c || one_of "._%+-" c.
Definition domain_char (c : ascii) : bool := is_upper c || is_lower c || is_digit c || one_of ".-" c.
Definition tld_char (c : ascii) : bool := is_upper c || one_of "|" c || is_lower c.

Definition emailRegex : regex :=
  cats [Boundary; Plus local_char; Exactly "@"; Plus domain_char; Exactly "."; Char tld_char; Plus tld_char; Boundary].

(** ** The detector *)

Inductive PIIType := PIITypeSSN | PIITypeCreditCard | PIITypePhone | PIITypeEmail.

#[export] Instance PIIType_eq_dec : EqDecision PIIType.
Proof. solve_decision. Defined.

Record PIIDetector := mkPIIDetector {
  pd_enabledTypes : list PIIType;
  pd_redactionChar : text;
  pd_preserveFormat : bool
}.

Definition NewPIIDetector (config : option PIIDetector) : PIIDetector :=
  default (mkPIIDetector [PIITypeSSN; PIITypeCreditCard; PIITypePhone; PIITypeEmail] (lit "*") true) config.

Record PIIMatch := mkPIIMatch {
  mt_Type : PIIType;
  mt_Original : text;
  mt_Redacted : text;
  mt_Start : nat;
  mt_End : nat;
  mt_Context : text
}.

Record PIIDetectionResult := mkPIIDetectionResult {
  dr_OriginalText : text;
  dr_RedactedText : text;
  dr_Matches : list PIIMatch;
  dr_HasPII : bool
}.

(** [strings.ReplaceAll(s, c, "")] for a single character. *)
Definition remove_char (c : ascii) (s : text) : text := List.filter (fun d => negb (Ascii.eqb d c)) s.

Definition isValidSSN (ssn : text) : bool :=
  let digits := remove_char " " (remove_char "-" ssn) in
  if negb (List.length digits =? 9)%nat then false else
  if existsb (fun invalid => bool_decide (digits = lit invalid))
       ["000000000"; "111111111"; "222222222"; "333333333"; "444444444"; "555555555"; "666666666"; "777777777";
        "888888888"; "999999999"; "123456789"; "987654321"] then false else
  let areaNumber := take 3 digits in
  if bool_decide (areaNumber = lit "000") || bool_decide (areaNumber = lit "666") ||
     bool_decide (head areaNumber = Some "9"%char) then false else
  if bool_decide (take 2 (drop 3 digits) = lit "00") then false else
  negb (bool_decide (take 4 (drop 5 digits) = lit "0000")).

(** The loop of the Luhn check, over the digits from the last to the first. *)
Fixpoint luhn (alternate : bool) (sum : Z) (reversed : text) : Z :=
  match reversed with
  | [] => sum
  | c :: reversed =>
    let digit := u8 (byte_of c - 48) in
    let digit := if alternate then let d := digit * 2 in if 9 <? d then Z.rem d 10 + 1 else d else digit in
    luhn (negb alternate) (sum + digit) reversed
  end.

Definition isValidCreditCard (cardNumber : text) : bool :=
  let digits := remove_char "." (remove_char " " (remove_char "-" cardNumber)) in
  if (List.length digits <? 13)%nat || (19 <? List.length digits)%nat then false else
  match digits with
  | [] => false
  | firstDigit :: others =>
    if forallb (fun c => Ascii.eqb c firstDigit) others then false else
    Z.rem (luhn false 0 (reverse digits)) 10 =? 0
  end.

(** The loops of the maskers: digits up to the number [hidden] are replaced. *)
Fixpoint mask (mark : text) (hidden digitCount : Z) (s : text) : text :=
  match s with
  | [] => []
  | c :: s =>
    if is_digit c then
      (if hidden <? digitCount + 1 then [c] else mark) ++ mask mark hidden (digitCount + 1) s
    else c :: mask mark hidden digitCount s
  end.

Definition count_digits (s : text) : Z := Z.of_nat (List.length (List.filter is_digit s)).

Definition redactSSN (d : PIIDetector) (ssn : text) : text :=
  if pd_preserveFormat d then mask (pd_redactionChar d) 5 0 ssn else lit "[SSN-REDACTED]".

Definition redactCreditCard (d : PIIDetector) (cardNumber : text) : text :=
  if pd_preserveFormat d then mask (pd_redactionChar d) (count_digits cardNumber - 4) 0 cardNumber
  else lit "[CARD-REDACTED]".

Definition redactPhone (d : PIIDetector) (phone : text) : text :=
  if pd_preserveFormat d then mask (pd_redactionChar d) 6 0 phone else lit "[PHONE-REDACTED]".

(** [strings.Split] and [strings.Repeat]. *)
Fixpoint split_text (c : ascii) (s : text) : list text :=
  match s with
  | [] => [[]]
  | d :: s =>
    if Ascii.eqb d c then [] :: split_text c s
    else match split_text c s with w :: ws => (d :: w) :: ws | [] => [[d]] end
  end.

Definition repeat_text (s : text) (n : nat) : text := List.concat (replicate n s).

Definition redactEmail (d : PIIDetector) (email : text) : text :=
  if pd_preserveFormat d then
    match split_text "@" email with
    | [localPart; domain] =>
      if (List.length localPart <=? 2)%nat then repeat_text (pd_redactionChar d) (List.length localPart) ++ lit "@" ++ domain
      else take 1 localPart ++ repeat_text (pd_redactionChar d) (List.length localPart - 2) ++
           drop (List.length localPart - 1) localPart ++ lit "@" ++ domain
    | _ => lit "[EMAIL-REDACTED]"
    end
  else lit "[EMAIL-REDACTED]".

(** [strings.Replace(s, old, new, 1)]. *)
Fixpoint replace_first (s old new : text) : text :=
  if bool_decide (take (List.length old) s = old) then new ++ drop (List.length old) s else
  match s with
  | [] => []
  | c :: s => c :: replace_first s old new
  end.

(** [text[contextStart:contextEnd]] panics when the start is after the end. *)
Definition getContext (txt : text) (start stop : nat) : option text :=
  let contextStart := (start - 20)%nat in
  let contextEnd := Nat.min (stop + 20) (List.length txt) in
  if (contextEnd <? contextStart)%nat then None else Some (take (contextEnd - contextStart) (drop contextStart txt)).

(** The loop of the four detectors: the matches are those of the text [before]
    the pass. *)
Fixpoint redact_matches (type : PIIType) (valid : text -> bool) (redact : text -> text) (before : text)
    (matches : list (nat * nat)) (result : PIIDetectionResult) : option PIIDetectionResult :=
  match matches with
  | [] => Some result
  | (start, stop) :: matches =>
    let original := take (stop - start) (drop start before) in
    if valid original then
      let redacted := redact original in
      context ← getContext (dr_OriginalText result) start stop;
      redact_matches type valid redact before matches
        (result <| dr_Matches := dr_Matches result ++ [mkPIIMatch type original redacted start stop context] |>
                <| dr_RedactedText := replace_first (dr_RedactedText result) original redacted |>)
    else redact_matches type valid redact before matches result
  end.

Definition detect (type : PIIType) (r : regex) (valid : text -> bool) (redact : text -> text) (result : PIIDetectionResult)
    : option PIIDetectionResult :=
  redact_matches type valid redact (dr_RedactedText result) (FindAllStringIndex r (dr_RedactedText result)) result.

Definition detectSSN (d : PIIDetector) : PIIDetectionResult -> option PIIDetectionResult :=
  detect PIITypeSSN ssnRegex isValidSSN (redactSSN d).

Definition detectCreditCard (d : PIIDetector) : PIIDetectionResult -> option PIIDetectionResult :=
  detect PIITypeCreditCard creditCardRegex isValidCreditCard (redactCreditCard d).

Definition detectPhone (d : PIIDetector) : PIIDetectionResult -> option PIIDetectionResult :=
  detect PIITypePhone phoneRegex (fun _ => true) (redactPhone d).

Definition detectEmail (d : PIIDetector) : PIIDetectionResult -> option PIIDetectionResult :=
  detect PIITypeEmail emailRegex (fun _ => true) (redactEmail d).

Definition when_enabled (d : PIIDetector) (type : PIIType) (f : PIIDetectionResult -> option PIIDetectionResult)
    (result : PIIDetectionResult) : option PIIDetectionResult :=
  if bool_decide (type ∈ pd_enabledTypes d) then f result else Some result.

Definition DetectAndRedact (d : PIIDetector) (txt : text) : option PIIDetectionResult :=
  let result := mkPIIDetectionResult txt txt [] false in
  result ← when_enabled d PIITypeSSN (detectSSN d) result;
  result ← when_enabled d PIITypeCreditCard (detectCreditCard d) result;
  result ← when_enabled d PIITypePhone (detectPhone d) result;
  result ← when_enabled d PIITypeEmail (detectEmail d) result;
  Some (result <| dr_HasPII := match dr_Matches result with [] => false | _ => true end |>).

(** ** Examples *)

Definition default_detector : PIIDetector := NewPIIDetector None.
Definition masked (d : PIIDetector) (s : string) : option string :=
  (fun r => string_of_list_ascii (dr_RedactedText r)) <$> DetectAndRedact d (lit s).

Example masks_all :
  masked default_detector "ssn 123-45-6780, card 4111 1111 1111 1111, call (212) 555-0199 or mail john.doe@example.com" =
  Some "ssn ***-**-6780, card **** **** **** 1111, call (***) ***-0199 or mail j******e@example.com".
Proof. by vm_compute. Qed.

(** A number inside a longer word hides a later one: only the first occurrence of
    the matched characters is masked, and it is not the match. *)
Example masks_elsewhere :
  masked default_detector "ref A123-45-6780, ssn 123-45-6780" = Some "ref A***-**-6780, ssn 123-45-6780".
Proof. by vm_compute. Qed.

(** A phone number with the country code keeps five digits. *)
Example phone_shows_five : masked default_detector "1-800-555-0199" = Some "*-***-**5-0199".
Proof. by vm_compute. Qed.

(** The separators the expression accepts are more than those the check removes. *)
Example tab_separated_kept :
  let s := "123" +:+ String (ascii_of_nat 9) "45" +:+ String (ascii_of_nat 9) "6780" in
  FindAllStringIndex ssnRegex (lit s) = [(0%nat, 11%nat)] /\ masked default_detector s = Some s.
Proof. by vm_compute. Qed.

(** Without the format, the text grows, and the positions of a later pass are
    outside of the original text. *)
Definition plain_detector : PIIDetector :=
  mkPIIDetector [PIITypeSSN; PIITypeCreditCard; PIITypePhone; PIITypeEmail] (lit "*") false.

Example context_panics :
  DetectAndRedact plain_detector
    (lit "123456780 123456780 123456780 123456780 123456780 123456780 123456780 2125550199") = None.
Proof. by vm_compute. Qed.

(** ** What the expressions match *)

Inductive spells : regex -> text -> Prop :=
  | spells_char p c : p c = true -> spells (Char p) [c]
  | spells_boundary : spells Boundary []
  | spells_empty : spells Empty []
  | spells_cat r s v w : spells r v -> spells s w -> spells (Cat r s) (v ++ w)
  | spells_left r s w : spells r w -> spells (Alt r s) w
  | spells_right r s w : spells s w -> spells (Alt r s) w
  | spells_some r w : spells r w -> spells (Opt r) w
  | spells_none r : spells (Opt r) []
  | spells_plus p w : w <> [] -> forallb p w = true -> spells (Plus p) w.

Lemma run_plus_sound {R} p l (k : option ascii -> text -> option R) x : run_plus p l k = Some x ->
  exists w rest prev, l = w ++ rest /\ w <> [] /\ forallb p w = true /\ k prev rest = Some x.
Proof.
  induction l as [|c l IH]; cbn; [done|]. destruct (p c) eqn:Hp; [|done].
  destruct (run_plus p l k) eqn:E; intros Hk.
  - destruct (IH Hk) as (w & rest & prev & -> & _ & Hw & Hr). exists (c :: w), rest, prev. cbn. by rewrite Hp.
  - exists [c], l, (Some c). cbn. by rewrite Hp.
Qed.

Lemma run_sound {R} r prev l (k : option ascii -> text -> option R) x : run r prev l k = Some x ->
  exists w rest prev', l = w ++ rest /\ spells r w /\ k prev' rest = Some x.
Proof.
  revert R prev l k x. induction r as [p| | |r IHr s IHs|r IHr s IHs|r IHr|p]; intros R prev l k x; cbn.
  - destruct l as [|c l]; [done|]. destruct (p c) eqn:Hp; [|done]. intros Hk. exists [c], l, (Some c).
    split_and!; [done|by constructor|done].
  - destruct (Bool.eqb _ _); [done|]. intros Hk. exists [], l, prev. split_and!; [done|constructor|done].
  - intros Hk. exists [], l, prev. split_and!; [done|constructor|done].
  - intros (v & rest & prev1 & -> & Hv & Hk)%IHr. apply IHs in Hk as (w & rest' & prev2 & -> & Hw & Hk).
    exists (v ++ w), rest', prev2. split_and!; [by rewrite app_assoc|by constructor|done].
  - destruct (run r prev l k) eqn:E; intros Hk.
    + injection Hk as <-. apply IHr in E as (w & rest & prev1 & -> & Hw & Hk). exists w, rest, prev1.
      split_and!; [done|by constructor|done].
    + apply IHs in Hk as (w & rest & prev1 & -> & Hw & Hk). exists w, rest, prev1.
      split_and!; [done|by apply spells_right|done].
  - destruct (run r prev l k) eqn:E; intros Hk.
    + injection Hk as <-. apply IHr in E as (w & rest & prev1 & -> & Hw & Hk). exists w, rest, prev1.
      split_and!; [done|by constructor|done].
    + exists [], l, prev. split_and!; [done|apply spells_none|done].
  - intros (w & rest & prev1 & -> & Hne & Hw & Hk)%run_plus_sound. exists w, rest, prev1.
    split_and!; [done|by constructor|done].
Qed.

Lemma match_front_sound r prev l n : match_front r prev l = Some n ->
  exists w rest, l = w ++ rest /\ spells r w /\ n = List.length w.
Proof.
  intros (w & rest & prev' & -> & Hw & E)%run_sound. exists w, rest. split_and!; [done|done|].
  injection E as <-. rewrite length_app. lia.
Qed.

(** Every match lies in the text and is spelled by the expression. *)
Lemma find_all_sound fuel r prev pos l s e : (s, e) ∈ find_all fuel r prev pos l ->
  (pos <= s <= e)%nat /\ (e <= pos + List.length l)%nat /\ spells r (take (e - s) (drop (s - pos) l)).
Proof.
  revert prev pos l. induction fuel as [|fuel IH]; intros prev pos l; [by intros ?%elem_of_nil|]. cbn [find_all].
  destruct l as [|c l]; [by intros ?%elem_of_nil|].
  assert (Hskip : (s, e) ∈ find_all fuel r (Some c) (S pos) l ->
    (pos <= s <= e)%nat /\ (e <= pos + List.length (c :: l))%nat /\ spells r (take (e - s) (drop (s - pos) (c :: l)))).
  { intros (H1 & H2 & H3)%IH. cbn [List.length]. split; [lia|]. split; [lia|].
    by replace (s - pos)%nat with (S (s - S pos)) by lia. }
  destruct (match_front r prev (c :: l)) as [[|n]|] eqn:E; [by apply Hskip| |by apply Hskip].
  apply match_front_sound in E as (w & rest & El & Hw & En). intros [Heq|Hin]%elem_of_cons.
  - injection Heq as -> ->. rewrite El, length_app, <- En. split; [lia|]. split; [lia|].
    replace (pos + S n - pos)%nat with (List.length w) by lia. rewrite Nat.sub_diag, drop_0. by rewrite take_app_length.
  - apply IH in Hin as (H1 & H2 & H3). rewrite length_drop in H2. rewrite El, length_app in *. split; [lia|].
    rewrite drop_drop in H3. replace (S n + (s - (pos + S n)))%nat with (s - pos)%nat in H3 by lia. split; [lia|done].
Qed.

(** *** Digits of a match *)

Lemma spells_cat_inv r s w : spells (Cat r s) w -> exists u v, w = u ++ v /\ spells r u /\ spells s v.
Proof. inversion 1; subst; eauto. Qed.

Lemma spells_times n p w : spells (times n (Char p)) w -> List.length w = n /\ forallb p w = true.
Proof.
  revert w. induction n as [|n IH]; intros w; cbn.
  - by inversion 1.
  - intros (u & v & -> & Hu & Hv)%spells_cat_inv. inversion Hu as [? c Hc| | | | | | | |]; subst. destruct (IH _ Hv) as [Hl Hf].
    cbn. rewrite Hc, Hf, Hl. done.
Qed.

Definition digits_of (s : text) : text := List.filter is_digit s.

Lemma digits_app s t : digits_of (s ++ t) = digits_of s ++ digits_of t.
Proof. apply List.filter_app. Qed.

Lemma digits_all s : forallb is_digit s = true -> digits_of s = s.
Proof. induction s as [|c s IH]; cbn; [done|]. intros [-> H]%andb_prop. f_equal. by apply IH. Qed.

Lemma digits_run n w : spells (times n Digit) w -> List.length (digits_of w) = n.
Proof. intros [Hl Hd]%spells_times. by rewrite digits_all. Qed.

(** A character that is not a digit, if any. *)
Lemma digits_optional p w : (forall c, p c = true -> is_digit c = false) -> spells (Opt (Char p)) w -> digits_of w = [].
Proof.
  intros Hp Hw. inversion Hw as [| | | | | |? ? Hc| |]; subst; [|done]. inversion Hc as [? c Hpc| | | | | | | |]; subst.
  cbn. by rewrite Hp.
Qed.

Lemma sep_not_digit c : one_of "-" c || is_blank c = true -> is_digit c = false.
Proof. destruct c as [[] [] [] [] [] [] [] []]; by vm_compute. Qed.

Lemma phone_sep_not_digit c : one_of "-." c || is_blank c = true -> is_digit c = false.
Proof. destruct c as [[] [] [] [] [] [] [] []]; by vm_compute. Qed.

Lemma digits_sep w : spells Sep w -> digits_of w = [].
Proof. apply digits_optional, sep_not_digit. Qed.

Lemma digits_phone_sep w : spells PhoneSep w -> digits_of w = [].
Proof. apply digits_optional, phone_sep_not_digit. Qed.

Lemma digits_exactly_digit s w : (forall c, one_of s c = true -> is_digit c = true) -> spells (Exactly s) w ->
  List.length (digits_of w) = 1%nat.
Proof. intros Hs Hw. inversion Hw as [? c Hc| | | | | | | |]; subst. cbn. by rewrite Hs. Qed.

Lemma digits_bound w : spells Boundary w -> digits_of w = [].
Proof. by inversion 1. Qed.

#[local] Ltac cut_spells :=
  repeat match goal with
  | H : spells (cats (_ :: _)) _ |- _ => cbn [cats] in H
  | H : spells (Cat _ _) _ |- _ => let E := fresh "E" in apply spells_cat_inv in H as (? & ? & E & ? & ?); subst
  end.

#[local] Ltac count_pieces :=
  rewrite ?digits_app, ?length_app;
  repeat match goal with
  | H : spells (times _ Digit) _ |- _ => apply digits_run in H
  | H : spells Sep _ |- _ => apply digits_sep in H
  | H : spells PhoneSep _ |- _ => apply digits_phone_sep in H
  | H : spells Boundary _ |- _ => apply digits_bound in H
  end;
  repeat match goal with H : digits_of _ = [] |- _ => rewrite ?H; clear H end;
  cbn [List.length]; try lia.

Lemma ssn_digits w : spells ssnRegex w -> List.length (digits_of w) = 9%nat.
Proof. unfold ssnRegex. intros H. cut_spells. count_pieces. Qed.

Lemma card4_digits first w : (forall c, one_of first c = true -> is_digit c = true) -> spells (card4 first) w ->
  List.length (digits_of w) = 16%nat.
Proof.
  unfold card4. intros Hf H. cut_spells.
  match goal with H : spells (Exactly _) _ |- _ => apply (digits_exactly_digit _ _ Hf) in H end. count_pieces.
Qed.

Lemma one_digit s c : one_of s c = true -> forallb is_digit (lit s) = true -> is_digit c = true.
Proof.
  unfold one_of. intros Hc Hs. apply existsb_exists in Hc as (d & Hd & ->%Ascii.eqb_eq).
  by apply (proj1 (forallb_forall _ _) Hs).
Qed.

Lemma amex_digits w : spells amex w -> List.length (digits_of w) = 15%nat.
Proof.
  unfold amex. intros H. cut_spells.
  match goal with H : spells (Exactly _) _ |- _ =>
    apply (digits_exactly_digit "3" _ (fun c Hc => one_digit "3" c Hc eq_refl)) in H end.
  count_pieces.
Qed.

Lemma card_digits w : spells creditCardRegex w -> List.length (digits_of w) = 15%nat \/ List.length (digits_of w) = 16%nat.
Proof.
  unfold creditCardRegex. intros H. cut_spells.
  match goal with H : spells (alts _ _) _ |- _ => rename H into Ha end. count_pieces.
  cbn [alts foldl] in Ha. rewrite Nat.add_0_r.
  assert (Hd : forall s c, forallb is_digit (lit s) = true -> one_of s c = true -> is_digit c = true) by (intros; by eapply one_digit).
  inversion Ha as [| | | |? ? ? Ha1|? ? ? Ha1| | |]; subst; [|right; eapply card4_digits; [|exact Ha1]; intros c; by apply Hd].
  inversion Ha1 as [| | | |? ? ? Ha2|? ? ? Ha2| | |]; subst.
  - right. inversion Ha2 as [| | | |? ? ? Ha3|? ? ? Ha3| | |]; subst; (eapply card4_digits; [|exact Ha3]; intros c; by apply Hd).
  - left. by apply amex_digits.
Qed.

(** ** Masking *)

(** The digits a mask without digits shows: those after the hidden ones. *)
Lemma mask_digits mark hidden n s : digits_of mark = [] -> 0 <= n ->
  digits_of (mask mark hidden n s) = drop (Z.to_nat (hidden - n)) (digits_of s).
Proof.
  intros Hm. revert n. induction s as [|c s IH]; intros n Hn; cbn; [by rewrite drop_nil|].
  fold (digits_of s). destruct (is_digit c) eqn:Hc; [|cbn; rewrite Hc; by apply IH].
  rewrite digits_app, IH by lia. destruct (Z.ltb_spec hidden (n + 1)).
  - replace (Z.to_nat (hidden - n)) with 0%nat by lia. replace (Z.to_nat (hidden - (n + 1))) with 0%nat by lia. cbn. by rewrite Hc.
  - rewrite Hm. replace (Z.to_nat (hidden - n)) with (S (Z.to_nat (hidden - (n + 1)))) by lia. done.
Qed.

(** A masked number shows its last four digits and no others: for every
    text that the expression of social security numbers or of card numbers
    matches, with a mark that has no digits, the digits of the masked text are the
    last four of the number. *)
Theorem mask_shows_last_four (d : PIIDetector) (w : text) :
  pd_preserveFormat d = true -> digits_of (pd_redactionChar d) = [] ->
  (spells ssnRegex w -> digits_of (redactSSN d w) = drop 5 (digits_of w) /\ List.length (digits_of (redactSSN d w)) = 4%nat) /\
  (spells creditCardRegex w ->
     digits_of (redactCreditCard d w) = drop (List.length (digits_of w) - 4) (digits_of w) /\
     List.length (digits_of (redactCreditCard d w)) = 4%nat).
Proof.
  intros Hp Hm. unfold redactSSN, redactCreditCard. rewrite Hp, !mask_digits by done.
  split; intros Hw; (split; [|rewrite length_drop]).
  - done.
  - rewrite (ssn_digits w Hw). done.
  - unfold count_digits. fold (digits_of w). f_equal. lia.
  - unfold count_digits. fold (digits_of w). destruct (card_digits w Hw); lia.
Qed.

(** ** The detector does not panic *)

Lemma mask_length mark hidden n s : List.length mark = 1%nat -> List.length (mask mark hidden n s) = List.length s.
Proof.
  intros Hm. revert n. induction s as [|c s IH]; intros n; cbn; [done|]. destruct (is_digit c); [|cbn; by rewrite IH].
  rewrite length_app, IH. by destruct (_ <? _); rewrite ?Hm.
Qed.

Lemma replace_first_length s old new : List.length new = List.length old -> List.length (replace_first s old new) = List.length s.
Proof.
  intros Hl. induction s as [|c s IH]; cbn [replace_first].
  - case_bool_decide as E; [|done]. rewrite length_app, Hl, <- E at 1. rewrite take_nil, drop_nil. done.
  - case_bool_decide as E; [|cbn; by rewrite IH]. rewrite length_app, Hl, length_drop.
    assert (List.length old <= List.length (c :: s))%nat; [|lia]. rewrite <- E at 1. rewrite length_take. lia.
Qed.

(** An address has one [@]. *)
Lemma split_text_lacks c w : existsb (Ascii.eqb c) w = false -> split_text c w = [w].
Proof.
  induction w as [|d w IH]; cbn; [done|]. intros [Hd Hw]%orb_false_elim. rewrite Ascii.eqb_sym, Hd. by rewrite IH.
Qed.

Lemma split_text_app c a b : existsb (Ascii.eqb c) a = false -> split_text c (a ++ c :: b) = a :: split_text c b.
Proof.
  induction a as [|d a IH]; cbn; [by rewrite Ascii.eqb_refl|]. intros [Hd Ha]%orb_false_elim.
  by rewrite Ascii.eqb_sym, Hd, IH.
Qed.

Lemma class_lacks (p : ascii -> bool) c w : p c = false -> forallb p w = true -> existsb (Ascii.eqb c) w = false.
Proof.
  intros Hp. induction w as [|d w IH]; cbn; [done|]. intros [Hd Hw]%andb_prop.
  rewrite IH, orb_false_r by done. apply Ascii.eqb_neq. intros ->. congruence.
Qed.

Lemma spells_plus_inv p w : spells (Plus p) w -> forallb p w = true.
Proof. by inversion 1. Qed.

Lemma spells_char_inv p w : spells (Char p) w -> exists c, w = [c] /\ p c = true.
Proof. inversion 1; subst. eauto. Qed.

Lemma email_parts w : spells emailRegex w -> exists a b, w = a ++ "@"%char :: b /\ split_text "@" w = [a; b].
Proof.
  unfold emailRegex. intros H. cut_spells.
  repeat match goal with
  | H : spells (Plus _) _ |- _ => apply spells_plus_inv in H
  | H : spells Boundary _ |- _ => inversion H; clear H; subst
  | H : spells (Char _) _ |- _ => apply spells_char_inv in H as (? & -> & ?)
  | H : spells (Exactly _) _ |- _ => apply spells_char_inv in H as (? & -> & ?)
  end. cbn [app]. rewrite app_nil_r.
  match goal with H : one_of "@" ?c = true |- _ => assert (c = "@"%char) as -> by (apply orb_prop in H as [->%Ascii.eqb_eq|?]; done) end.
  match goal with H : one_of "." ?c = true |- _ => assert (c = "."%char) as -> by (apply orb_prop in H as [->%Ascii.eqb_eq|?]; done) end.
  eexists _, _. split; [done|]. rewrite split_text_app by (by eapply class_lacks; [|eassumption]). f_equal.
  apply split_text_lacks. rewrite existsb_app. apply orb_false_intro; [by eapply class_lacks; [|eassumption]|].
  cbn [existsb]. apply orb_false_intro; [done|]. apply orb_false_intro; [|by eapply class_lacks; [|eassumption]].
  apply Ascii.eqb_neq. intros <-. done.
Qed.

Lemma repeat_text_length s n : List.length s = 1%nat -> List.length (repeat_text s n) = n.
Proof. intros Hs. unfold repeat_text. induction n as [|n IH]; cbn; [done|]. by rewrite length_app, Hs, IH. Qed.

Lemma redactEmail_length d w : pd_preserveFormat d = true -> List.length (pd_redactionChar d) = 1%nat ->
  spells emailRegex w -> List.length (redactEmail d w) = List.length w.
Proof.
  intros Hp Hm (a & b & -> & Hs)%email_parts. unfold redactEmail. rewrite Hp, Hs.
  destruct (Nat.leb_spec (List.length a) 2); rewrite ?length_app, ?length_take, ?length_drop, repeat_text_length by done;
    change (List.length (lit "@")) with 1%nat; cbn [List.length]; lia.
Qed.

(** A detector that keeps the length of a text. *)
Definition steady (d : PIIDetector) : Prop := pd_preserveFormat d = true /\ List.length (pd_redactionChar d) = 1%nat.

Definition in_text (txt : text) (m : PIIMatch) : Prop := (mt_Start m < mt_End m <= List.length txt)%nat.

Record sound (txt : text) (result : PIIDetectionResult) : Prop := {
  so_original : dr_OriginalText result = txt;
  so_length : List.length (dr_RedactedText result) = List.length txt;
  so_matches : Forall (in_text txt) (dr_Matches result)
}.

Lemma redact_matches_sound type valid redact before matches txt result :
  (forall s e, (s, e) ∈ matches -> (s < e <= List.length txt)%nat /\
     List.length (redact (take (e - s) (drop s before))) = List.length (take (e - s) (drop s before))) ->
  sound txt result ->
  exists result', redact_matches type valid redact before matches result = Some result' /\ sound txt result'.
Proof.
  revert result. induction matches as [|[s e] matches IH]; intros result Hm Hs; cbn; [by exists result|].
  destruct (Hm s e) as [Hr Hl]; [by constructor|].
  assert (Hm' : forall s e, (s, e) ∈ matches -> _) by (intros s' e' H; apply (Hm s' e'); by constructor).
  destruct (valid _); [|by apply IH]. destruct Hs as [Ho Hlen Hf]. unfold getContext. rewrite Ho.
  destruct (Nat.ltb_spec (Nat.min (e + 20) (List.length txt)) (s - 20)); [lia|]. cbn [mbind option_bind].
  apply IH; [done|]. destruct result as [o r ms h]. cbn in *. split; cbn; [done| |].
  - by rewrite replace_first_length.
  - apply Forall_app. split; [done|]. repeat constructor; cbn; lia.
Qed.

(** Matches are not empty. *)
Lemma find_all_nonempty fuel r prev pos l s e : (s, e) ∈ find_all fuel r prev pos l -> (s < e)%nat.
Proof.
  revert prev pos l. induction fuel as [|fuel IH]; intros prev pos l; [by intros ?%elem_of_nil|]. cbn [find_all].
  destruct l as [|c l]; [by intros ?%elem_of_nil|].
  destruct (match_front r prev (c :: l)) as [[|n]|]; [by apply IH| |by apply IH].
  intros [Heq|Hin]%elem_of_cons; [injection Heq as -> ->; lia|by apply IH in Hin].
Qed.

Lemma detect_sound type r valid redact txt result :
  (forall w, spells r w -> List.length (redact w) = List.length w) -> sound txt result ->
  exists result', detect type r valid redact result = Some result' /\ sound txt result'.
Proof.
  intros Hr Hs. apply redact_matches_sound; [|done]. intros s e Hin. pose proof (find_all_nonempty _ _ _ _ _ _ _ Hin).
  apply find_all_sound in Hin as (H1 & H2 & H3). rewrite (so_length _ _ Hs) in H2. split; [lia|].
  rewrite Nat.sub_0_r in H3. by apply Hr.
Qed.

Definition keeps (txt : text) (f : PIIDetectionResult -> option PIIDetectionResult) : Prop :=
  forall result, sound txt result -> exists result', f result = Some result' /\ sound txt result'.

Lemma when_enabled_keeps d type txt f : keeps txt f -> keeps txt (when_enabled d type f).
Proof. intros Hf result Hs. unfold when_enabled. case_bool_decide; [by apply Hf|by exists result]. Qed.

Lemma passes_keep d txt : steady d ->
  keeps txt (detectSSN d) /\ keeps txt (detectCreditCard d) /\ keeps txt (detectPhone d) /\ keeps txt (detectEmail d).
Proof.
  intros [Hp Hm]. split_and!; intros result; apply detect_sound; intros w Hw.
  - unfold redactSSN. rewrite Hp. by apply mask_length.
  - unfold redactCreditCard. rewrite Hp. by apply mask_length.
  - unfold redactPhone. rewrite Hp. by apply mask_length.
  - by apply redactEmail_length.
Qed.



Lemma mask_shows_last_four_witness :
  digits_of (redactSSN default_detector (lit "123-45-6780")) = drop 5 (digits_of (lit "123-45-6780")).
Proof.
  destruct (mask_shows_last_four default_detector (lit "123-45-6780") eq_refl eq_refl) as [Hssn _]. apply Hssn.
  assert (H : exists w rest, lit "123-45-6780" = w ++ rest /\ spells ssnRegex w /\ 11%nat = List.length w)
    by (apply (match_front_sound ssnRegex None); reflexivity).
  destruct H as (w & rest & E & Hw & Hn). assert (Er : rest = []).
  { apply (f_equal (@List.length ascii)) in E. rewrite length_app, <- Hn in E. destruct rest; [done|cbn in E; lia]. }
  subst rest. rewrite app_nil_r in E. rewrite E. exact Hw.
Defined.

(** ** The Luhn check *)

(** What a digit adds to the sum. *)
Definition weight (alternate : bool) (c : ascii) : Z :=
  let digit := u8 (byte_of c - 48) in
  if alternate then if 9 <? digit * 2 then Z.rem (digit * 2) 10 + 1 else digit * 2 else digit.

Fixpoint weights (alternate : bool) (reversed : text) : Z :=
  match reversed with
  | [] => 0
  | c :: reversed => weight alternate c + weights (negb alternate) reversed
  end.

Lemma luhn_weights alt sum l : luhn alt sum l = sum + weights alt l.
Proof.
  revert alt sum. induction l as [|c l IH]; intros alt sum; cbn; [lia|]. rewrite IH. unfold weight. destruct alt; lia.
Qed.

(** Whether the position after [l] is doubled. *)
Definition flipped (alt : bool) (l : text) : bool := if Nat.even (List.length l) then alt else negb alt.

Lemma flipped_cons alt c l : flipped alt (c :: l) = flipped (negb alt) l.
Proof.
  unfold flipped. cbn [List.length]. rewrite Nat.even_succ, <- Nat.negb_even. by destruct (Nat.even _), alt.
Qed.

Lemma weights_app alt l k : weights alt (l ++ k) = weights alt l + weights (flipped alt l) k.
Proof.
  revert alt. induction l as [|c l IH]; intros alt; [done|].
  change ((c :: l) ++ k) with (c :: (l ++ k)). cbn [weights]. rewrite IH, flipped_cons. lia.
Qed.

Lemma is_digit_value c : is_digit c = true -> exists v, 0 <= v <= 9 /\ byte_of c = 48 + v.
Proof.
  unfold is_digit, char_in. intros [H1%Z.leb_le H2%Z.leb_le]%andb_prop. exists (byte_of c - 48). lia.
Qed.

Lemma byte_of_inj c d : byte_of c = byte_of d -> c = d.
Proof.
  unfold byte_of. intros H%N2Z.inj. rewrite <- (ascii_N_embedding c), <- (ascii_N_embedding d). by rewrite H.
Qed.

(** The weight of a digit is its value, or its double with nine cast out; it is a
    permutation of the ten digits. *)
Lemma weight_value alt c v : 0 <= v <= 9 -> byte_of c = 48 + v ->
  weight alt c = if alt then if 9 <? 2 * v then 2 * v - 9 else 2 * v else v.
Proof.
  intros Hv Hc. unfold weight. replace (byte_of c - 48) with v by lia. unfold u8. rewrite wrap_u_id by (unfold in_u; lia).
  destruct alt; [|done]. rewrite (Z.mul_comm v 2). destruct (Z.ltb_spec 9 (2 * v)); [|done].
  assert (v = 5 \/ v = 6 \/ v = 7 \/ v = 8 \/ v = 9) as Hcase by lia. by destruct Hcase as [->|[->|[->|[->| ->]]]].
Qed.

Lemma weight_differs alt c d : is_digit c = true -> is_digit d = true -> c <> d ->
  (weight alt c - weight alt d) mod 10 <> 0.
Proof.
  intros (v & Hv & Ec)%is_digit_value (w & Hw & Ed)%is_digit_value Hne.
  assert (v <> w) by (intros ->; apply Hne, byte_of_inj; lia).
  rewrite (weight_value alt c v), (weight_value alt d w) by done.
  intros Hm. apply Z.mod_divide in Hm as [k Hk]; [|done].
  destruct alt; [destruct (Z.ltb_spec 9 (2 * v)), (Z.ltb_spec 9 (2 * w))|]; lia.
Qed.

(** Swapping two neighbours changes the sum, unless they are 0 and 9. *)
Lemma weight_swap alt c d : is_digit c = true -> is_digit d = true -> c <> d ->
  ~ (c = "0"%char /\ d = "9"%char) -> ~ (c = "9"%char /\ d = "0"%char) ->
  (weight alt c + weight (negb alt) d - (weight alt d + weight (negb alt) c)) mod 10 <> 0.
Proof.
  intros (v & Hv & Ec)%is_digit_value (w & Hw & Ed)%is_digit_value Hne H1 H2.
  assert (v <> w) by (intros ->; apply Hne, byte_of_inj; lia).
  assert (~ (v = 0 /\ w = 9)) by (intros [-> ->]; apply H1; split; apply byte_of_inj; rewrite ?Ec, ?Ed; reflexivity).
  assert (~ (v = 9 /\ w = 0)) by (intros [-> ->]; apply H2; split; apply byte_of_inj; rewrite ?Ec, ?Ed; reflexivity).
  rewrite !(weight_value _ c v), !(weight_value _ d w) by done.
  intros Hm. apply Z.mod_divide in Hm as [k Hk]; [|done].
  destruct alt; cbn [negb] in *; destruct (Z.ltb_spec 9 (2 * v)), (Z.ltb_spec 9 (2 * w)); lia.
Qed.

(** Card numbers without separators. *)
Lemma remove_char_digits c s : is_digit c = false -> forallb is_digit s = true -> remove_char c s = s.
Proof.
  intros Hc. unfold remove_char. induction s as [|d s IH]; cbn; [done|]. intros [Hd Hs]%andb_prop.
  replace (Ascii.eqb d c) with false; [cbn; by rewrite IH|]. symmetry. apply Ascii.eqb_neq. intros ->. congruence.
Qed.

Lemma card_valid_sum l : forallb is_digit l = true -> isValidCreditCard l = true -> weights false (reverse l) mod 10 = 0.
Proof.
  intros Hl. unfold isValidCreditCard.
  rewrite (remove_char_digits "-"), (remove_char_digits " "), (remove_char_digits ".") by done.
  destruct (_ || _); [done|]. destruct l as [|c l]; [done|]. destruct (forallb _ l); [done|].
  rewrite luhn_weights, Z.add_0_l. intros H%Z.eqb_eq. apply Z.rem_divide in H; [|done]. by apply Z.mod_divide.
Qed.

Lemma weights_context alt l c k : weights alt (reverse (l ++ c :: k)) =
  weights alt (reverse k) + weight (flipped alt (reverse k)) c + weights (negb (flipped alt (reverse k))) (reverse l).
Proof.
  rewrite reverse_app, reverse_cons, <- app_assoc. rewrite weights_app. cbn [app weights]. lia.
Qed.

(** The card check catches typing errors.  If a card number, as digits, passes
    the check, then no number passes it that differs in one digit, and none that
    has two neighbouring digits exchanged, unless they are a 0 and a 9. *)
Theorem luhn_catches (l k : text) (a b : ascii) :
  forallb is_digit l = true -> forallb is_digit k = true -> is_digit a = true -> is_digit b = true -> a <> b ->
  (isValidCreditCard (l ++ a :: k) = true -> isValidCreditCard (l ++ b :: k) = false) /\
  (isValidCreditCard (l ++ a :: b :: k) = true ->
     ~ (a = "0"%char /\ b = "9"%char) -> ~ (a = "9"%char /\ b = "0"%char) -> isValidCreditCard (l ++ b :: a :: k) = false).
Proof.
  intros Hl Hk Ha Hb Hne. split.
  - intros Hv. apply not_true_is_false. intros Hv'.
    apply card_valid_sum in Hv, Hv'; [|by rewrite forallb_app; cbn; rewrite Hl, Hk, ?Ha, ?Hb..].
    rewrite weights_context in Hv, Hv'. apply (weight_differs (flipped false (reverse k)) a b Ha Hb Hne).
    apply Z.mod_divide in Hv as [x Hx], Hv' as [y Hy]; [|done..]. apply Z.mod_divide; [done|]. exists (x - y). lia.
  - intros Hv H1 H2. apply not_true_is_false. intros Hv'.
    apply card_valid_sum in Hv, Hv'; [|by rewrite forallb_app; cbn; rewrite Hl, Hk, Ha, Hb..].
    rewrite weights_context in Hv, Hv'. rewrite reverse_cons, weights_app in Hv, Hv'.
    assert (E : forall c, flipped false (reverse k ++ [c]) = negb (flipped false (reverse k))).
    { intros c. unfold flipped. rewrite length_app, Nat.add_1_r, Nat.even_succ, <- Nat.negb_even. by destruct (Nat.even _). }
    rewrite !E in Hv, Hv'. cbn [weights] in Hv, Hv'.
    apply (weight_swap (flipped false (reverse k)) b a Hb Ha); [congruence|tauto|tauto|].
    apply Z.mod_divide in Hv as [x Hx], Hv' as [y Hy]; [|done..]. apply Z.mod_divide; [done|]. exists (x - y). lia.
Qed.

Lemma luhn_catches_witness : isValidCreditCard (lit "4111111111111112") = false.
Proof.
  apply (luhn_catches (lit "411111111111111") [] "1" "2"); first [reflexivity | discriminate].
Defined.

(** The exception: 0 and 9 may be exchanged. *)
Example luhn_misses :
  isValidCreditCard (lit "4111111111110907") = true /\ isValidCreditCard (lit "4111111111119007") = true.
Proof. split; reflexivity. Qed.

(** ** The filter of transcriptions

    [stt/pii_transcription_filter.go]: the listeners of transcriptions get the
    masked text.  A metadata map may be nil. *)

Inductive MetaValue :=
  | MetaBool (b : bool)
  | MetaInt (n : Z)
  | MetaString (s : text)
  | MetaStrings (l : list string)
  | MetaOther.

Definition type_name (t : PIIType) : string :=
  match t with
  | PIITypeSSN => "ssn"
  | PIITypeCreditCard => "credit_card"
  | PIITypePhone => "phone"
  | PIITypeEmail => "email"
  end.

Definition extractPIITypes `{GoMapRange string} (k : nat) (matches : list PIIMatch) : list string :=
  map fst (map_range k (foldl (fun m p => <[type_name (mt_Type p) := true]> m) (∅ : gmap string bool) matches)).

(** What every listener is called with: nothing for an empty text, [None] for a
    panic of the detector. *)
Definition FilterOnTranscription `{GoMapRange string} (k : nat) (enabled : bool) (detector : option PIIDetector)
    (transcription : text) (metadata : option (gmap string MetaValue)) : option (list (text * option (gmap string MetaValue))) :=
  match transcription with
  | [] => Some []
  | _ =>
    match (if enabled then detector else None) with
    | None => Some [(transcription, metadata)]
    | Some d =>
      result ← DetectAndRedact d transcription;
      Some [(dr_RedactedText result,
             if dr_HasPII result then
               Some (<["original_transcription" := MetaString transcription]>
                     (<["pii_types" := MetaStrings (extractPIITypes k (dr_Matches result))]>
                      (<["pii_matches" := MetaInt (Z.of_nat (List.length (dr_Matches result)))]>
                       (<["pii_detected" := MetaBool true]> (default ∅ metadata)))))
             else metadata)]
    end
  end.

(** The masked text travels with the original: whenever personal data is found,
    every listener is given the text before masking in the metadata. *)
Theorem filter_sends_original `{GoMapRange string} (k : nat) (d : PIIDetector) (transcription : text)
    (metadata : option (gmap string MetaValue)) (result : PIIDetectionResult) :
  DetectAndRedact d transcription = Some result -> dr_HasPII result = true ->
  exists meta, FilterOnTranscription k true (Some d) transcription metadata = Some [(dr_RedactedText result, Some meta)] /\
    meta !! "original_transcription" = Some (MetaString transcription).
Proof.
  intros Hd Hp. unfold FilterOnTranscription.
  destruct transcription as [|c txt].
  { assert (E : DetectAndRedact d [] = Some (mkPIIDetectionResult [] [] [] false))
      by (unfold DetectAndRedact, when_enabled; by repeat case_bool_decide).
    rewrite E in Hd. injection Hd as <-. done. }
  rewrite Hd. cbn [mbind option_bind]. rewrite Hp. eexists. split; [done|]. apply lookup_insert_eq.
Qed.
