(* ===== verification/PiiRedaction.v ===== *)
(** * Silencing personal data in recordings

    [media/pii_audio_marker.go], [media/pii_audio_processor.go], the bridge of
    [stt/pii_audio_transcription_bridge.go] and the redaction step of
    [RTPForwarder.Cleanup] ([media/types.go]): transcriptions in which personal
    data was detected mark spans of the call, and when the call ends the spans
    are merged and the recording is rewritten with them silenced.  Files are
    byte lists in a map from paths; the outcome of every system call is an
    argument.  The JSON file with the markers that is written beside the
    recording is not modelled. *)

From Stdlib Require Import Floats.SpecFloat.
From S2P Require Import Prelude GoStrings GoFloat FloatFacts WavFile.
#[local] Open Scope string_scope.
#[local] Open Scope list_scope.
#[local] Open Scope Z_scope.

Definition second : Z := 1000000000.

(** ** Runes

    [[]rune(s)]: a byte that does not start a well-formed UTF-8 sequence is one
    rune of its own. *)

Definition between (lo hi b : Z) : bool := (lo <=? b) && (b <=? hi).
Definition continuation : Z -> bool := between 128 191.

Definition two_bytes (a b : Z) : bool := between 194 223 a && continuation b.
Definition three_bytes (a b c : Z) : bool :=
  ((a =? 224) && between 160 191 b || (between 225 236 a || between 238 239 a) && continuation b ||
   (a =? 237) && between 128 159 b) && continuation c.
Definition four_bytes (a b c d : Z) : bool :=
  ((a =? 240) && between 144 191 b || between 241 243 a && continuation b ||
   (a =? 244) && between 128 143 b) && continuation c && continuation d.

Fixpoint rune_count (l : list Z) : Z :=
  match l with
  | [] => 0
  | a :: l1 =>
    1 + match l1 with
        | [] => 0
        | b :: l2 =>
          if two_bytes a b then rune_count l2 else
          match l2 with
          | [] => rune_count l1
          | c :: l3 =>
            if three_bytes a b c then rune_count l3 else
            match l3 with
            | [] => rune_count l1
            | d :: l4 => if four_bytes a b c d then rune_count l4 else rune_count l1
            end
          end
        end
  end.

(** ** Markers *)

Record PIIMarker := mkPIIMarker {
  pm_StartTime : Z;
  pm_EndTime : Z;
  pm_PIIType : string;
  pm_Confidence : spec_float;
  pm_Transcription : string;
  pm_RedactedText : string
}.

Record PIIAudioMarker := mkPIIAudioMarker {
  am_callUUID : string;
  am_markers : list PIIMarker;
  am_startTime : Z;
  am_enabled : bool
}.

Definition NewPIIAudioMarker (now : Z) (callUUID : string) (enabled : bool) : PIIAudioMarker :=
  mkPIIAudioMarker callUUID [] now enabled.

(** The span given to a transcription. *)
Definition estimatedDuration (transcription : string) : Z :=
  let words := Z.quot (rune_count (map byte_of (String.list_ascii_of_string transcription))) 5 in
  let half := f64_div (f64_of_int 5) (f64_of_int 2) in
  let est := i64 (f64_to_int (- 2 ^ 63) (- 2 ^ 63) (2 ^ 63 - 1) (f64_trunc (f64_div (f64_of_int words) half)) * second) in
  let est := if est <? second then 2 * second else est in
  if 10 * second <? est then 10 * second else est.

Definition MarkPII (now : Z) (piiType transcription redactedText : string) (m : PIIAudioMarker) : PIIAudioMarker :=
  if negb (am_enabled m) then m else
  m <| am_markers := am_markers m ++
    [mkPIIMarker (now - estimatedDuration transcription) now piiType (f64_of_int 1) transcription redactedText] |>.

Record PIIAudioMarkerMetadata := mkPIIAudioMarkerMetadata {
  mm_CallUUID : string;
  mm_RecordingPath : string;
  mm_TotalMarkers : Z;
  mm_Markers : list PIIMarker;
  mm_CreatedAt : Z
}.

Definition GenerateRedactionMetadata (now : Z) (recordingPath : string) (m : PIIAudioMarker) : PIIAudioMarkerMetadata :=
  mkPIIAudioMarkerMetadata (am_callUUID m) recordingPath (flength (am_markers m)) (am_markers m) now.

Record RedactionInterval := mkRedactionInterval {
  ri_StartOffset : Z;
  ri_EndOffset : Z;
  ri_PIIType : string;
  ri_Reason : string
}.

Definition redaction_interval (startTime : Z) (marker : PIIMarker) : RedactionInterval :=
  let startOffset := time_sub (pm_StartTime marker) startTime in
  let endOffset := time_sub (pm_EndTime marker) startTime in
  let startOffset := if startOffset <? 0 then 0 else startOffset in
  let endOffset := if endOffset <? startOffset then i64 (startOffset + 2 * second) else endOffset in
  mkRedactionInterval startOffset endOffset (pm_PIIType marker) "PII detected in transcription".

Definition GetRedactionIntervals (m : PIIAudioMarker) : list RedactionInterval :=
  map (redaction_interval (am_startTime m)) (am_markers m).

(** ** Merging

    The two loops of the sort: [exchange] is one turn of the outer loop, with
    the element [x] at the index of the outer loop. *)

Fixpoint exchange (x : RedactionInterval) (l : list RedactionInterval) : RedactionInterval * list RedactionInterval :=
  match l with
  | [] => (x, [])
  | y :: l =>
    if ri_StartOffset y <? ri_StartOffset x
    then let '(least, rest) := exchange y l in (least, x :: rest)
    else let '(least, rest) := exchange x l in (least, y :: rest)
  end.

Fixpoint exchange_sort (turns : nat) (l : list RedactionInterval) : list RedactionInterval :=
  match turns, l with
  | S turns, x :: l => let '(least, rest) := exchange x l in least :: exchange_sort turns rest
  | _, _ => l
  end.

Definition absorb (current next : RedactionInterval) : RedactionInterval :=
  let current := if ri_EndOffset current <? ri_EndOffset next
                 then current <| ri_EndOffset := ri_EndOffset next |> else current in
  if String.eqb (ri_PIIType current) (ri_PIIType next) then current
  else current <| ri_PIIType := ri_PIIType current +:+ "," +:+ ri_PIIType next |>
               <| ri_Reason := "Multiple PII types detected" |>.

Fixpoint merge_from (current : RedactionInterval) (l : list RedactionInterval) : list RedactionInterval :=
  match l with
  | [] => [current]
  | next :: l =>
    if ri_StartOffset next <=? i64 (ri_EndOffset current + second)
    then merge_from (absorb current next) l
    else current :: merge_from next l
  end.

(** The merged intervals and the argument's slice, which the sort permutes. *)
Definition MergeOverlappingIntervals (intervals : list RedactionInterval)
    : list RedactionInterval * list RedactionInterval :=
  match intervals with
  | [] | [_] => (intervals, intervals)
  | _ =>
    let sorted := exchange_sort (length intervals - 1) intervals in
    (match sorted with [] => [] | current :: rest => merge_from current rest end, sorted)
  end.

(** ** The processor *)

Inductive RedactionType := RedactionSilence | RedactionTone | RedactionNoise | RedactionOther (name : string).

Record PIIAudioProcessor := mkPIIAudioProcessor {
  pp_redactionType : RedactionType;
  pp_sampleRate : Z;
  pp_bytesPerSample : Z
}.

Definition NewPIIAudioProcessor (config : option (RedactionType * Z * Z)) : PIIAudioProcessor :=
  let '(redactionType, sampleRate, bytesPerSample) := default (RedactionSilence, 8000, 2) config in
  mkPIIAudioProcessor
    match redactionType with RedactionOther "" => RedactionSilence | t => t end
    (if sampleRate =? 0 then 8000 else sampleRate)
    (if bytesPerSample =? 0 then 2 else bytesPerSample).

Definition bytesToDuration (p : PIIAudioProcessor) (bytes : Z) : Z :=
  Z.quot (i64 (Z.quot bytes (pp_bytesPerSample p) * second)) (pp_sampleRate p).

Definition durationToBytes (p : PIIAudioProcessor) (d : Z) : Z :=
  i64 (f64_to_int (- 2 ^ 63) (- 2 ^ 63) (2 ^ 63 - 1) (f64_trunc (f64_mul (duration_seconds d) (f64_of_int (pp_sampleRate p)))) *
       pp_bytesPerSample p).

Definition intervalsOverlap (start1 end1 start2 end2 : Z) : bool := (start1 <? end2) && (start2 <? end1).

(** *** The replacements *)

Definition f64_to_int16 (x : spec_float) : Z := f64_to_int 0 (-32768) 32767 (f64_trunc x).

(** The tone's sample number [i]. *)
Definition tone_sample (sampleRate i : Z) : Z :=
  let num := f64_of_int in
  let samplesPerCycle := f64_div (num sampleRate) (num 1000) in
  let phase := f64_div (num i) samplesPerCycle in
  let phase := f64_sub phase (num (f64_to_int (- 2 ^ 63) (- 2 ^ 63) (2 ^ 63 - 1) (f64_trunc phase))) in
  let amplitude := num 16384 in
  if f64_lt phase (f64_div (num 1) (num 4)) then f64_to_int16 (f64_mul amplitude (f64_mul phase (num 4)))
  else if f64_lt phase (f64_div (num 3) (num 4)) then f64_to_int16 (f64_mul amplitude (f64_sub (num 2) (f64_mul phase (num 4))))
  else f64_to_int16 (f64_mul amplitude (f64_sub (f64_mul phase (num 4)) (num 4))).

(** [PutUint16(buffer[i*2:], v)] panics when fewer than two bytes are left. *)
Definition put_sample (i v : Z) (buffer : list Z) : option (list Z) :=
  if (0 <=? i * 2) && (i * 2 + 2 <=? flength buffer)
  then Some (take (Z.to_nat (i * 2)) buffer ++ le_put 2 (u16 v) ++ drop (Z.to_nat (i * 2 + 2)) buffer)
  else None.

Fixpoint tone_from (n : nat) (sampleRate i : Z) (buffer : list Z) : option (list Z) :=
  match n with
  | O => Some buffer
  | S n => buffer ← put_sample i (tone_sample sampleRate i) buffer; tone_from n sampleRate (i + 1) buffer
  end.

Definition generateTone (p : PIIAudioProcessor) (buffer : list Z) : option (list Z) :=
  if flength buffer <? 2 then Some buffer
  else tone_from (Z.to_nat (Z.quot (flength buffer) (pp_bytesPerSample p))) (pp_sampleRate p) 0 buffer.

Definition lfsr_next (lfsr : Z) : Z :=
  let bit := Z.land (Z.lxor (Z.lxor (Z.lxor lfsr (Z.shiftr lfsr 2)) (Z.shiftr lfsr 3)) (Z.shiftr lfsr 5)) 1 in
  Z.lor (Z.shiftr lfsr 1) (u16 (Z.shiftl bit 15)).

Definition noise_sample (lfsr : Z) : Z :=
  let value := Z.rem (i16 lfsr) 4096 in
  if Z.land lfsr 1 =? 0 then i16 (- value) else value.

Fixpoint noise_from (n : nat) (lfsr i : Z) (buffer : list Z) : option (list Z) :=
  match n with
  | O => Some buffer
  | S n =>
    let lfsr := lfsr_next lfsr in
    buffer ← put_sample i (noise_sample lfsr) buffer; noise_from n lfsr (i + 1) buffer
  end.

Definition generateNoise (p : PIIAudioProcessor) (buffer : list Z) : option (list Z) :=
  noise_from (Z.to_nat (Z.quot (flength buffer) (pp_bytesPerSample p))) 44257 0 buffer.

(** *** Redacting bytes

    [None] is a panic. *)

(** [result[start:end]] rewritten by [f]; the slice expression panics unless
    [0 <= start <= end]. *)
Definition in_slice (f : list Z -> option (list Z)) (start stop : Z) (data : list Z) : option (list Z) :=
  if (0 <=? start) && (start <=? stop) then
    mid ← f (slice (Z.to_nat start) (Z.to_nat stop) data);
    Some (take (Z.to_nat start) data ++ mid ++ drop (Z.to_nat stop) data)
  else None.

(** The loop that writes zeros. *)
Definition zero_range (start stop : Z) (data : list Z) : option (list Z) :=
  if stop <=? start then Some data else
  if start <? 0 then None else
  Some (take (Z.to_nat start) data ++ replicate (Z.to_nat (stop - start)) 0 ++ drop (Z.to_nat stop) data).

Definition redactBytes (p : PIIAudioProcessor) (data : list Z) (start stop : Z) : option (list Z) :=
  let bps := pp_bytesPerSample p in
  let start := Z.quot start bps * bps in
  let stop := Z.quot (stop + bps - 1) bps * bps in
  let stop := if flength data <? stop then flength data else stop in
  match pp_redactionType p with
  | RedactionTone => in_slice (generateTone p) start stop data
  | RedactionNoise => in_slice (generateNoise p) start stop data
  | _ => zero_range start stop data
  end.

(** One turn of the inner loop of [ProcessRecording] on the chunk at [offset]. *)
Definition redact_interval (p : PIIAudioProcessor) (offset n : Z) (chunk : list Z) (interval : RedactionInterval)
    : option (list Z) :=
  let chunkStart := bytesToDuration p offset in
  let chunkEnd := bytesToDuration p (offset + n) in
  if intervalsOverlap chunkStart chunkEnd (ri_StartOffset interval) (ri_EndOffset interval) then
    let redactStart := Z.max (ri_StartOffset interval) chunkStart in
    let redactEnd := Z.min (ri_EndOffset interval) chunkEnd in
    let startByte := durationToBytes p (redactStart - chunkStart) in
    let endByte := durationToBytes p (redactEnd - chunkStart) in
    let startByte := if startByte <? 0 then 0 else startByte in
    let endByte := if n <? endByte then n else endByte in
    redactBytes p chunk startByte endByte
  else Some chunk.

Definition redact_chunk (p : PIIAudioProcessor) (merged : list RedactionInterval) (offset : Z) (chunk : list Z)
    : option (list Z) :=
  foldl (fun acc interval => chunk' ← acc; redact_interval p offset (flength chunk) chunk' interval) (Some chunk) merged.

(** *** Files *)

Notation files := (gmap string (list Z)).

(** Which system calls fail; reads and writes are numbered from 0. *)
Record Faults := mkFaults {
  io_open : bool;
  io_stat : bool;
  io_create : bool;
  io_read : option nat;
  io_write : option nat;
  io_rename : bool;
  io_remove : bool
}.

Definition no_faults : Faults := mkFaults false false false None None false false.

Inductive io_error := OpenFailed | StatFailed | CreateFailed | ReadFailed | WriteFailed | RenameFailed.

Definition bufferSize : nat := Z.to_nat 8192.

(** The loop of [ProcessRecording] from the chunk number [k] at [offset], with
    what it wrote. *)
Fixpoint process_loop (fuel : nat) (io : Faults) (p : PIIAudioProcessor) (merged : list RedactionInterval)
    (k : nat) (offset : Z) (rest : list Z) : outcome unit io_error * list Z :=
  match fuel with
  | O => (Ok tt, [])
  | S fuel =>
    if decide (io_read io = Some k) then (Err ReadFailed, []) else
    match rest with
    | [] => (Ok tt, [])
    | _ =>
      let chunk := take bufferSize rest in
      match redact_chunk p merged offset chunk with
      | None => (Panics, [])
      | Some outputChunk =>
        if decide (io_write io = Some k) then (Err WriteFailed, []) else
        let '(r, written) := process_loop fuel io p merged (S k) (offset + flength chunk) (drop bufferSize rest) in
        (r, outputChunk ++ written)
      end
    end
  end.

Definition copyFile (io : Faults) (src dst : string) (fs : files) : outcome unit io_error * files :=
  match fs !! src with
  | None => (Err OpenFailed, fs)
  | Some _ =>
    if io_open io then (Err OpenFailed, fs) else
    if io_create io then (Err CreateFailed, fs) else
    let fs := <[dst := []]> fs in
    let data := default [] (fs !! src) in
    if decide (io_read io = Some 0%nat) then (Err ReadFailed, fs) else
    if decide (io_write io = Some 0%nat) then (Err WriteFailed, fs) else
    (Ok tt, <[dst := data]> fs)
  end.

(** The output file may be the input file: it is emptied before the first read. *)
Definition ProcessRecording (io : Faults) (p : PIIAudioProcessor) (inputPath outputPath : string)
    (intervals : list RedactionInterval) (fs : files) : outcome unit io_error * files :=
  if decide (intervals = []) then copyFile io inputPath outputPath fs else
  let merged := (MergeOverlappingIntervals intervals).1 in
  match fs !! inputPath with
  | None => (Err OpenFailed, fs)
  | Some _ =>
    if io_open io then (Err OpenFailed, fs) else
    if io_stat io then (Err StatFailed, fs) else
    if io_create io then (Err CreateFailed, fs) else
    let fs := <[outputPath := []]> fs in
    let data := default [] (fs !! inputPath) in
    let '(r, written) := process_loop (S (length data)) io p merged 0 0 data in
    (r, <[outputPath := written]> fs)
  end.

Definition remove_file (io : Faults) (path : string) (fs : files) : files :=
  if io_remove io then fs else delete path fs.

Definition ProcessRecordingInPlace (io : Faults) (p : PIIAudioProcessor) (path : string)
    (intervals : list RedactionInterval) (fs : files) : outcome unit io_error * files :=
  if decide (intervals = []) then (Ok tt, fs) else
  let tempPath := path +:+ ".pii_temp" in
  match ProcessRecording io p path tempPath intervals fs with
  | (Panics, fs) => (Panics, fs)
  | (Err e, fs) => (Err e, remove_file io tempPath fs)
  | (Ok _, fs) =>
    if io_rename io then (Err RenameFailed, remove_file io tempPath fs) else
    (Ok tt, match fs !! tempPath with
            | Some data => delete tempPath (<[path := data]> fs)
            | None => fs
            end)
  end.

Record PIIRedactionReport := mkPIIRedactionReport {
  rr_TotalIntervals : Z;
  rr_TotalDuration : Z;
  rr_TypeCounts : gmap string Z;
  rr_RedactionType : option RedactionType;
  rr_ProcessedAt : Z
}.

Definition GenerateRedactionReport (now : Z) (p : PIIAudioProcessor) (intervals : list RedactionInterval)
    : PIIRedactionReport :=
  if decide (intervals = []) then mkPIIRedactionReport 0 0 ∅ None now else
  let merged := (MergeOverlappingIntervals intervals).1 in
  let '(total, counts) := foldl (fun '(total, counts) interval =>
    (i64 (total + i64 (ri_EndOffset interval - ri_StartOffset interval)),
     <[ri_PIIType interval := default 0 (counts !! ri_PIIType interval) + 1]> counts)) (0, ∅) merged in
  mkPIIRedactionReport (flength merged) total counts (Some (pp_redactionType p)) now.

(** ** The call *)

(** The processor of [Cleanup]. *)
Definition telephony : PIIAudioProcessor := NewPIIAudioProcessor (Some (RedactionSilence, 8000, 2)).

(** The redaction of [Cleanup], after the recording file was closed. *)
Definition cleanup_redaction (io : Faults) (marker : option PIIAudioMarker) (recordingPath : string) (fs : files)
    : option files :=
  match marker with
  | Some m =>
    if String.eqb recordingPath "" then Some fs else
    match ProcessRecordingInPlace io telephony recordingPath (GetRedactionIntervals m) fs with
    | (Panics, _) => None
    | (_, fs) => Some fs
    end
  | None => Some fs
  end.

(** What the bridge reads from a transcription's metadata. *)
Record PIIMetadata := mkPIIMetadata {
  md_pii_detected : option bool;
  md_pii_types : option (list string);
  md_original_transcription : option string
}.

(** The marker of the call's forwarder, if there are such. *)
Definition OnTranscription (now : Z) (enabled : bool) (transcription : string) (metadata : PIIMetadata)
    (marker : option PIIAudioMarker) : option PIIAudioMarker :=
  if negb enabled then marker else
  if negb (default false (md_pii_detected metadata)) then marker else
  match md_pii_types metadata with
  | None | Some [] => marker
  | Some piiTypes =>
    MarkPII now (GoStrings.join "," piiTypes) (default transcription (md_original_transcription metadata)) transcription <$> marker
  end.

(** ** The sort *)

Definition starts_before (i j : RedactionInterval) : Prop := ri_StartOffset i <= ri_StartOffset j.

Lemma exchange_perm x l : let '(least, rest) := exchange x l in least :: rest ≡ₚ x :: l.
Proof.
  revert x. induction l as [|y l IH]; intros x; cbn; [done|]. destruct (_ <? _).
  - specialize (IH y). destruct (exchange y l) as [m r]. rewrite <- IH. apply Permutation_swap.
  - specialize (IH x). destruct (exchange x l) as [m r]. rewrite Permutation_swap, IH. apply Permutation_swap.
Qed.

Lemma exchange_least x l : let '(least, rest) := exchange x l in
  starts_before least x /\ Forall (starts_before least) rest.
Proof.
  revert x. unfold starts_before. induction l as [|y l IH]; intros x; cbn; [split; [lia|done]|].
  destruct (Z.ltb_spec (ri_StartOffset y) (ri_StartOffset x)) as [Hlt|Hge].
  - specialize (IH y). destruct (exchange y l) as [m r]. destruct IH as [Hm Hr]. split; [lia|]. constructor; [lia|done].
  - specialize (IH x). destruct (exchange x l) as [m r]. destruct IH as [Hm Hr]. split; [lia|]. constructor; [lia|done].
Qed.

Lemma exchange_length x l : length (exchange x l).2 = length l.
Proof. pose proof (exchange_perm x l) as Hp. destruct (exchange x l). apply Permutation_length in Hp. cbn in *. lia. Qed.

Lemma exchange_sort_perm n l : exchange_sort n l ≡ₚ l.
Proof.
  revert l. induction n as [|n IH]; intros [|x l]; cbn; try done.
  pose proof (exchange_perm x l) as Hp. destruct (exchange x l) as [m r]. by rewrite IH.
Qed.

Lemma exchange_sort_sorted n l : (length l <= S n)%nat -> StronglySorted starts_before (exchange_sort n l).
Proof.
  revert l. induction n as [|n IH]; intros [|x l] Hl; cbn in *; [constructor| |constructor|].
  - destruct l; [repeat constructor|cbn in Hl; lia].
  - pose proof (exchange_least x l) as Hm. pose proof (exchange_length x l) as Hlen. destruct (exchange x l) as [m r].
    cbn in Hlen. constructor; [apply IH; lia|]. rewrite exchange_sort_perm. apply Hm.
Qed.

(** ** Merging *)

(** An interval of the call, far from the ends of a duration's range. *)
Definition valid_interval (i : RedactionInterval) : Prop :=
  0 <= ri_StartOffset i <= ri_EndOffset i /\ ri_EndOffset i < 2 ^ 62.

Definition inside (i j : RedactionInterval) : Prop :=
  ri_StartOffset j <= ri_StartOffset i /\ ri_EndOffset i <= ri_EndOffset j.

(** The instant [t] is within one second of the interval. *)
Definition near (t : Z) (i : RedactionInterval) : Prop :=
  ri_StartOffset i - second <= t <= ri_EndOffset i + second.

(** The later interval starts more than a second after the end of the earlier. *)
Definition apart (i j : RedactionInterval) : Prop := ri_EndOffset i + second < ri_StartOffset j.

Lemma i64_id x : - 2 ^ 63 <= x < 2 ^ 63 -> i64 x = x.
Proof. intros H. apply wrap_s_id; [lia|]. unfold in_s. lia. Qed.

Lemma absorb_span c n :
  ri_StartOffset (absorb c n) = ri_StartOffset c /\
  ri_EndOffset (absorb c n) = Z.max (ri_EndOffset c) (ri_EndOffset n).
Proof.
  destruct c as [s e t r]. unfold absorb. cbn.
  destruct (Z.ltb_spec e (ri_EndOffset n)); cbn; destruct (String.eqb _ _); cbn; lia.
Qed.

(** What [merge_from] promises: the intervals of [c :: l] lie in the result's,
    nothing further than a second from them does, and the result is in order with
    gaps of more than a second. *)
Record merges (l merged : list RedactionInterval) : Prop := {
  mg_valid : Forall valid_interval merged;
  mg_inside : forall i, i ∈ l -> exists j, j ∈ merged /\ inside i j;
  mg_near : forall j t, j ∈ merged -> ri_StartOffset j <= t <= ri_EndOffset j -> exists i, i ∈ l /\ near t i;
  mg_apart : StronglySorted apart merged
}.

Lemma merge_from_spec c l :
  valid_interval c -> Forall valid_interval l -> StronglySorted starts_before (c :: l) ->
  merges (c :: l) (merge_from c l) /\
  Forall (fun j => ri_StartOffset c <= ri_StartOffset j) (merge_from c l).
Proof.
  revert c. induction l as [|n l IH]; intros c Hc Hl Hs; cbn.
  { split; [split|].
    - by constructor.
    - intros i ->%list_elem_of_singleton. exists c. split; [by constructor|]. unfold inside. lia.
    - intros j t ->%list_elem_of_singleton Ht. exists c. split; [by constructor|]. unfold near, second. lia.
    - repeat constructor.
    - repeat constructor; lia. }
  inversion Hl as [|? ? Hn Hl']; subst. inversion Hs as [|? ? Hs' Hcn]; subst. inversion Hcn as [|? ? Hcn1 Hcl]; subst.
  unfold starts_before in Hcn1. rewrite i64_id by (unfold valid_interval, second in *; lia).
  destruct (Z.leb_spec (ri_StartOffset n) (ri_EndOffset c + second)) as [Hle|Hgt].
  - pose proof (absorb_span c n) as [Ea Eb].
    assert (Hs2 : StronglySorted starts_before (absorb c n :: l)).
    { inversion Hs'; subst. constructor; [done|]. eapply Forall_impl; [exact Hcl|].
      intros i Hi. unfold starts_before in *. lia. }
    assert (Hv : valid_interval (absorb c n)) by (unfold valid_interval in *; lia).
    destruct (IH (absorb c n) Hv Hl' Hs2) as [[V I N A] F]. split; [split|].
    + done.
    + assert (Habs : forall i, inside i (absorb c n) -> exists j, j ∈ merge_from (absorb c n) l /\ inside i j).
      { intros i Hi. destruct (I (absorb c n)) as (j & Hj & Hin); [by constructor|]. exists j. split; [done|].
        unfold inside in *. lia. }
      intros i [->|[->|Hi]%elem_of_cons]%elem_of_cons.
      * apply Habs. unfold inside. lia.
      * apply Habs. unfold inside. lia.
      * apply I. by constructor.
    + intros j t Hj Ht. destruct (N j t Hj Ht) as (i & [->|Hi]%elem_of_cons & Hnear).
      * unfold near in *. rewrite Ea, Eb in Hnear.
        destruct (decide (t <= ri_EndOffset c + second)); [exists c|exists n]; rewrite !elem_of_cons; (split; [by auto|unfold second in *; lia]).
      * exists i. split; [by do 2 constructor|done].
    + done.
    + eapply Forall_impl; [exact F|]. intros j. cbn. lia.
  - destruct (IH n Hn Hl' Hs') as [[V I N A] F]. split; [split|].
    + by constructor.
    + intros i [->|Hi]%elem_of_cons.
      * exists c. split; [by constructor|]. unfold inside. lia.
      * destruct (I i Hi) as (j & Hj & Hin). exists j. split; [by constructor|done].
    + intros j t [->|Hj]%elem_of_cons Ht.
      * exists c. split; [by constructor|]. unfold near, second. lia.
      * destruct (N j t Hj Ht) as (i & Hi & Hnear). exists i. split; [by constructor|done].
    + constructor; [done|]. eapply Forall_impl; [exact F|]. intros j Hj. cbv beta in Hj. unfold apart. lia.
    + constructor; [lia|]. eapply Forall_impl; [exact F|]. intros j. cbn. lia.
Qed.

Lemma merges_perm l l' merged : l ≡ₚ l' -> merges l merged -> merges l' merged.
Proof.
  intros Hp [V I N A]. split; [done| | |done].
  - intros i Hi. apply I. by rewrite Hp.
  - intros j t Hj Ht. destruct (N j t Hj Ht) as (i & Hi & Hn). exists i. by rewrite <- Hp.
Qed.

Lemma merge_merges l : Forall valid_interval l -> merges l (MergeOverlappingIntervals l).1.
Proof.
  intros Hv. destruct l as [|x [|y l]].
  - split; [done|by intros i Hi%elem_of_nil|by intros j t Hj%elem_of_nil|constructor].
  - apply (merge_from_spec x []); [by inversion Hv|done|repeat constructor].
  - unfold MergeOverlappingIntervals. set (l0 := x :: y :: l) in *.
    pose proof (exchange_sort_perm (length l0 - 1) l0) as Hp.
    pose proof (exchange_sort_sorted (length l0 - 1) l0 ltac:(lia)) as Hs.
    destruct (exchange_sort _ _) as [|c r]; [by apply Permutation_nil_l in Hp|].
    apply (merges_perm (c :: r)); [done|]. rewrite <- Hp in Hv. inversion Hv; subst. by apply merge_from_spec.
Qed.

(** Merging the spans to silence loses none and adds little.  For spans of
    the call, whatever their order, the merged list contains every span within
    one of its own, has no instant further than a second from a marked span, is in
    order, and keeps its spans more than a second apart; the list the caller gave is
    left permuted. *)
Theorem merge_keeps_marked (l : list RedactionInterval) :
  Forall valid_interval l ->
  let '(merged, slice) := MergeOverlappingIntervals l in
  slice ≡ₚ l /\ merges l merged.
Proof.
  intros Hv. pose proof (merge_merges l Hv) as Hm.
  destruct l as [|x [|y l]]; [by split..|]. unfold MergeOverlappingIntervals in *.
  split; [apply exchange_sort_perm|done].
Qed.

(** ** Samples and bytes

    The recordings [Cleanup] redacts are read as 8000 samples of two bytes per
    second: a sample lasts [period] nanoseconds. *)

Definition period : Z := 125000.

(** The samples of a duration, as [durationToBytes] counts them. *)
Definition samples (d : Z) : Z := Z.quot (durationToBytes telephony d) 2.

(** The count is the integral one, but a whole number of samples may lose its
    last: the product of two rounded numbers is truncated. *)
Lemma samples_range d : 0 <= d <= 512000000 ->
  durationToBytes telephony d = 2 * samples d /\ (d - 1) / period <= samples d <= d / period.
Proof.
  intros Hd. unfold samples, durationToBytes. change (pp_sampleRate telephony) with 8000. change (pp_bytesPerSample telephony) with 2.
  destruct (decide (d = 0)) as [->|Hne]; [by vm_compute|].
  destruct (seconds_rate d 8000 ltac:(lia) ltac:(lia) ltac:(lia)) as (n & -> & Hn).
  assert (E1 : (d * 8000 - 1) / 1000000000 = (d - 1) / period).
  { change 1000000000 with (8000 * period). rewrite <- Z.div_div by done. f_equal.
    symmetry. apply (Z.div_unique_pos _ _ _ 7999); lia. }
  assert (E2 : d * 8000 / 1000000000 = d / period).
  { change 1000000000 with (period * 8000). by rewrite Z.div_mul_cancel_r. }
  rewrite E1, E2 in Hn. unfold period in *.
  assert (Hb : 0 <= (d - 1) / 125000 /\ d / 125000 <= 4096).
  { split; [apply Z.div_pos; lia|]. apply Z.lt_succ_r, Z.div_lt_upper_bound; lia. }
  unfold f64_to_int. replace ((- 2 ^ 63 <=? n) && (n <=? 2 ^ 63 - 1)) with true by lia.
  rewrite i64_id by lia. rewrite Z.quot_mul by lia. lia.
Qed.

(** A full chunk has all its samples. *)
Lemma samples_chunk : samples 512000000 = 4096.
Proof. by vm_compute. Qed.

Lemma samples_zero : samples 0 = 0.
Proof. by vm_compute. Qed.

Lemma samples_nonneg d : 0 <= d <= 512000000 -> 0 <= samples d.
Proof.
  intros Hd. destruct (decide (d = 0)) as [->|]; [by rewrite samples_zero|].
  destruct (samples_range d Hd) as [_ Hr]. pose proof (Z.div_pos (d - 1) period). unfold period in *. lia.
Qed.

(** 1001 samples are counted as 1000. *)
Example samples_lost : samples (1001 * period) = 1000.
Proof. by vm_compute. Qed.

Lemma bytesToDuration_samples bytes : 0 <= bytes < 2 ^ 34 -> bytesToDuration telephony bytes = bytes / 2 * period.
Proof.
  intros Hb. unfold bytesToDuration. change (pp_sampleRate telephony) with 8000. change (pp_bytesPerSample telephony) with 2.
  rewrite (Z.quot_div_nonneg bytes 2) by lia. assert (0 <= bytes / 2 < 2 ^ 33) by (split; [apply Z.div_pos|apply Z.div_lt_upper_bound]; lia).
  unfold second, period. rewrite i64_id by lia. replace (bytes / 2 * 1000000000) with (bytes / 2 * 125000 * 8000) by lia.
  by rewrite Z.quot_mul.
Qed.

(** ** Which bytes are silenced *)

Lemma zero_range_lookup start stop data : 0 <= start -> stop <= flength data ->
  exists out, zero_range start stop data = Some out /\ length out = length data /\
    forall b, out !! b = if (start <=? Z.of_nat b) && (Z.of_nat b <? stop) then Some 0 else data !! b.
Proof.
  intros Hs Ht. unfold zero_range, flength in *. destruct (Z.leb_spec stop start) as [Hle|Hgt].
  { exists data. split; [done|]. split; [done|]. intros b.
    by replace ((start <=? Z.of_nat b) && (Z.of_nat b <? stop)) with false by lia. }
  destruct (Z.ltb_spec start 0); [lia|]. eexists. split; [done|]. split.
  { rewrite !length_app, length_take, length_replicate, length_drop. lia. }
  intros b. rewrite lookup_app. destruct (decide (b < Z.to_nat start)%nat) as [Hb|Hb].
  - rewrite lookup_take_lt by done. destruct (lookup_lt_is_Some_2 data b) as [x Hx]; [lia|]. rewrite Hx.
    by replace ((start <=? Z.of_nat b) && (Z.of_nat b <? stop)) with false by lia.
  - rewrite lookup_take_ge by lia. rewrite length_take, lookup_app.
    destruct (decide (Z.of_nat b < stop)) as [Hb2|Hb2].
    + replace ((start <=? Z.of_nat b) && (Z.of_nat b <? stop)) with true by lia. by rewrite lookup_replicate_2 by lia.
    + replace ((start <=? Z.of_nat b) && (Z.of_nat b <? stop)) with false by lia.
      rewrite (proj1 (lookup_replicate_None _ 0 _)) by lia. rewrite length_replicate, lookup_drop. f_equal. lia.
Qed.

(** The byte [b] of a chunk of [n] bytes that starts with the sample [c] is
    silenced for the interval. *)
Definition hit (c n b : Z) (i : RedactionInterval) : bool :=
  let chunkStart := c * period in
  let chunkEnd := (c + n / 2) * period in
  intervalsOverlap chunkStart chunkEnd (ri_StartOffset i) (ri_EndOffset i) &&
  (samples (Z.max (ri_StartOffset i) chunkStart - chunkStart) <=? b / 2) &&
  (b / 2 <? samples (Z.min (ri_EndOffset i) chunkEnd - chunkStart)).

Lemma redact_interval_lookup c chunk n i :
  0 <= c < 2 ^ 32 -> n = flength chunk -> n <= 8192 ->
  exists out, redact_interval telephony (2 * c) n chunk i = Some out /\ length out = length chunk /\
    forall b, out !! b = if hit c n (Z.of_nat b) i then Some 0 else chunk !! b.
Proof.
  intros Hc En Hn. assert (Hn0 : 0 <= n) by (unfold flength in *; lia). unfold redact_interval, hit.
  assert (E1 : 2 * c / 2 = c) by (rewrite Z.mul_comm; by apply Z.div_mul).
  assert (E2 : (2 * c + n) / 2 = c + n / 2) by (rewrite Z.add_comm, Z.mul_comm, Z.div_add by done; lia).
  assert (Hh : 0 <= n / 2 <= 4096) by (split; [apply Z.div_pos|apply Z.div_le_upper_bound]; lia).
  pose proof (Z.mul_div_le n 2 ltac:(lia)) as H2.
  rewrite !bytesToDuration_samples, E1, E2 by lia. clear E1 E2.
  destruct (intervalsOverlap _ _ _ _) eqn:Eo; [|by exists chunk].
  unfold intervalsOverlap in Eo. apply andb_prop in Eo as [O1%Z.ltb_lt O2%Z.ltb_lt].
  unfold period in *. set (s := Z.max _ _ - _). set (e := Z.min _ _ - _).
  assert (Rs : 0 <= s <= 512000000) by (subst s; lia). assert (Re : 0 <= e <= n / 2 * 125000) by (subst e; lia).
  destruct (samples_range s Rs) as [-> Hs]. destruct (samples_range e) as [-> He]; [lia|]. unfold period in *.
  pose proof (samples_nonneg s Rs) as Hs0. pose proof (samples_nonneg e ltac:(lia)) as He1.
  assert (He0 : samples e <= n / 2).
  { apply Z.le_trans with (e / 125000); [lia|]. apply Z.div_le_upper_bound; lia. }
  clearbody s e. rewrite (proj2 (Z.ltb_ge _ 0)) by lia. rewrite (proj2 (Z.ltb_ge n _)) by lia.
  unfold redactBytes. change (pp_bytesPerSample telephony) with 2. change (pp_redactionType telephony) with RedactionSilence.
  cbv iota zeta. rewrite <- En. rewrite (Z.mul_comm 2 (samples s)), Z.quot_mul by done.
  replace (Z.quot (2 * samples e + 2 - 1) 2) with (samples e).
  2: { rewrite Z.quot_div_nonneg by lia. apply (Z.div_unique_pos _ _ _ 1); lia. }
  rewrite (proj2 (Z.ltb_ge n _)) by lia.
  destruct (zero_range_lookup (samples s * 2) (samples e * 2) chunk) as (out & -> & Hlen & Hout); [lia|lia|].
  exists out. split; [done|]. split; [done|]. intros b. rewrite Hout. cbn [andb].
  pose proof (Z.div_mod (Z.of_nat b) 2 ltac:(lia)). pose proof (Z.mod_pos_bound (Z.of_nat b) 2 ltac:(lia)).
  replace ((samples s * 2 <=? Z.of_nat b) && (Z.of_nat b <? samples e * 2))
    with ((samples s <=? Z.of_nat b / 2) && (Z.of_nat b / 2 <? samples e)) by lia. done.
Qed.

Lemma redact_chunk_lookup c chunk merged : 0 <= c < 2 ^ 32 -> flength chunk <= 8192 ->
  exists out, redact_chunk telephony merged (2 * c) chunk = Some out /\ length out = length chunk /\
    forall b, out !! b = if existsb (hit c (flength chunk) (Z.of_nat b)) merged then Some 0 else chunk !! b.
Proof.
  intros Hc Hn. unfold redact_chunk. set (n := flength chunk) in *.
  induction merged as [|i merged IH] using rev_ind; [by exists chunk|].
  destruct IH as (mid & Hmid & Hlen & Hb). rewrite foldl_snoc, Hmid. cbn [mbind option_bind].
  destruct (redact_interval_lookup c mid n i Hc) as (out & -> & Hl & Ho); [unfold n, flength; lia|done|].
  exists out. split; [done|]. split; [lia|]. intros b. rewrite Ho, Hb, existsb_app. cbn [existsb]. rewrite orb_false_r.
  destruct (hit c n (Z.of_nat b) i); [by rewrite orb_true_r|by rewrite orb_false_r].
Qed.

(** The byte [b] of a recording of [total] bytes is silenced for the interval. *)
Definition silenced (total b : Z) (i : RedactionInterval) : bool :=
  let c := b / 8192 * 4096 in
  hit c (Z.min 8192 (total - 2 * c)) (b - 2 * c) i.

Lemma silenced_chunk m total b merged : 0 <= b < 8192 ->
  existsb (silenced total (8192 * m + b)) merged = existsb (hit (4096 * m) (Z.min 8192 (total - 8192 * m)) b) merged.
Proof.
  intros Hb. assert (E : (8192 * m + b) / 8192 = m).
  { rewrite Z.add_comm, Z.mul_comm, Z.div_add, Z.div_small by lia. lia. }
  induction merged as [|i merged IH]; [done|]. cbn [existsb]. rewrite IH. f_equal. unfold silenced.
  rewrite E. f_equal; [lia| |lia]. f_equal. lia.
Qed.

(** [out] is the recording [data] from the byte [base] on with the silenced bytes
    of the intervals zeroed. *)
Definition zeroed (total base : Z) (merged : list RedactionInterval) (data out : list Z) : Prop :=
  length out = length data /\
  forall b x, data !! b = Some x -> out !! b = Some (if existsb (silenced total (base + Z.of_nat b)) merged then 0 else x).

Lemma zeroed_app total base merged d1 d2 o1 o2 :
  zeroed total base merged d1 o1 -> zeroed total (base + flength d1) merged d2 o2 ->
  zeroed total base merged (d1 ++ d2) (o1 ++ o2).
Proof.
  intros [L1 H1] [L2 H2]. split; [rewrite !length_app; lia|]. intros b x Hx. unfold flength in *.
  apply lookup_app_Some in Hx as [Hx|[Hge Hx]].
  - apply lookup_app_l_Some. auto.
  - rewrite lookup_app_r by lia. rewrite L1. specialize (H2 _ _ Hx).
    by replace (base + Z.of_nat (length d1) + Z.of_nat (b - length d1)) with (base + Z.of_nat b) in H2 by lia.
Qed.

Lemma bufferSize_bytes : Z.of_nat bufferSize = 8192.
Proof. unfold bufferSize. lia. Qed.

#[local] Opaque bufferSize.

Lemma process_loop_exact fuel io merged k m rest total :
  (length rest < fuel)%nat -> 0 <= m -> total = 8192 * m + flength rest -> total < 2 ^ 33 ->
  match process_loop fuel io telephony merged k (8192 * m) rest with
  | (Panics, _) => False
  | (Err _, _) => True
  | (Ok _, out) => zeroed total (8192 * m) merged rest out
  end.
Proof.
  revert k m rest. induction fuel as [|fuel IH]; intros k m rest Hf Hm Ht Hmax; [lia|]. cbn [process_loop].
  destruct (decide _); [done|]. destruct rest as [|x rest0]; [by split|].
  set (rest := x :: rest0) in *. set (chunk := take bufferSize rest).
  assert (Hlc : flength chunk = Z.min 8192 (total - 8192 * m)).
  { unfold chunk, flength in *. rewrite length_take. pose proof bufferSize_bytes. lia. }
  destruct (redact_chunk_lookup (4096 * m) chunk merged) as (out & Hr & Hlen & Hout);
    [unfold flength in *; lia|lia|]. replace (2 * (4096 * m)) with (8192 * m) in Hr by lia. rewrite Hr.
  destruct (decide _); [done|].
  assert (Hz : zeroed total (8192 * m) merged chunk out).
  { split; [done|]. intros b y Hy. pose proof (lookup_lt_Some _ _ _ Hy). pose proof Hlc as Hlc'. unfold flength in Hlc'.
    rewrite silenced_chunk, <- Hlc, Hout, Hy by lia. by destruct (existsb _ _). }
  rewrite Hlc. destruct (decide (length rest <= bufferSize)%nat) as [Hlast|Hmore].
  - rewrite drop_ge by done. destruct fuel as [|fuel]; [cbn in Hf; lia|]. cbn [process_loop]. destruct (decide _); [done|].
    rewrite app_nil_r. by replace rest with chunk by (by apply take_ge).
  - specialize (IH (S k) (m + 1) (drop bufferSize rest)). pose proof bufferSize_bytes as Hbs. unfold flength in *. rewrite length_drop in IH.
    replace (8192 * m + Z.min 8192 (total - 8192 * m)) with (8192 * (m + 1)) by lia.
    specialize (IH ltac:(lia) ltac:(lia) ltac:(lia) Hmax). destruct (process_loop _ _ _ _ _ _ _) as [[]]; [|done..].
    rewrite <- (take_drop bufferSize rest) at 1. apply zeroed_app; [done|].
    unfold flength. rewrite length_take. by replace (8192 * m + _) with (8192 * (m + 1)) by lia.
Qed.

(** The bytes of a sample are silenced for an interval only when the sample ends
    in it. *)
Lemma silenced_only total b i : 0 <= b < total -> total < 2 ^ 33 -> silenced total b i = true ->
  ri_StartOffset i <= (b / 2 + 1) * period <= ri_EndOffset i.
Proof.
  intros Hb Ht. unfold silenced, hit. set (c := b / 8192 * 4096). set (n := Z.min _ _).
  pose proof (Z.div_mod b 8192 ltac:(lia)) as Hdm. pose proof (Z.mod_pos_bound b 8192 ltac:(lia)) as Hmb.
  assert (Hc : 2 * c <= b < 2 * c + 8192) by (subst c; lia).
  assert (En : (b - 2 * c) / 2 = b / 2 - c).
  { replace (b - 2 * c) with (b + (- c) * 2) by lia. rewrite Z.div_add by done. lia. }
  assert (Hn : 0 <= n / 2 <= 4096) by (split; [apply Z.div_pos|apply Z.div_le_upper_bound]; subst n; lia).
  unfold intervalsOverlap, period in *. rewrite En. clearbody c n.
  intros [[[O1%Z.ltb_lt O2%Z.ltb_lt]%andb_prop S1%Z.leb_le]%andb_prop S2%Z.ltb_lt]%andb_prop.
  destruct (samples_range (Z.max (ri_StartOffset i) (c * 125000) - c * 125000)) as [_ [R1 _]]; [lia|].
  destruct (samples_range (Z.min (ri_EndOffset i) ((c + n / 2) * 125000) - c * 125000)) as [_ [_ R2]]; [lia|].
  unfold period in *. set (s := Z.max _ _ - _) in *. set (e := Z.min _ _ - _) in *.
  pose proof (Z.mul_succ_div_gt (s - 1) 125000 ltac:(lia)). pose proof (Z.mul_div_le e 125000 ltac:(lia)).
  subst s e. lia.
Qed.

(** ... and when it ends strictly inside and is not the recording's last. *)
Lemma silenced_inside total b i : 0 <= b -> total < 2 ^ 33 -> b / 2 + 1 < total / 2 ->
  ri_StartOffset i < (b / 2 + 1) * period < ri_EndOffset i -> silenced total b i = true.
Proof.
  intros Hb Ht Hlast Hi. unfold silenced, hit. set (c := b / 8192 * 4096). set (n := Z.min _ _).
  pose proof (Z.div_mod b 8192 ltac:(lia)) as Hdm. pose proof (Z.mod_pos_bound b 8192 ltac:(lia)) as Hmb.
  pose proof (Z.div_pos b 8192 Hb ltac:(lia)) as Hc0.
  assert (Hc : 2 * c <= b < 2 * c + 8192) by (subst c; lia).
  assert (En : (b - 2 * c) / 2 = b / 2 - c).
  { replace (b - 2 * c) with (b + (- c) * 2) by lia. rewrite Z.div_add by done. lia. }
  assert (Hj : 0 <= b / 2 - c < 4096).
  { rewrite <- En. split; [apply Z.div_pos|apply Z.div_lt_upper_bound]; lia. }
  assert (Hn : n / 2 = Z.min 4096 (total / 2 - c)).
  { subst n. destruct (Z.min_spec 8192 (total - 2 * c)) as [[? ->]|[? ->]].
    - change (8192 / 2) with 4096. assert (c + 4096 <= total / 2) by (apply Z.div_le_lower_bound; lia). lia.
    - replace (total - 2 * c) with (total + (- c) * 2) by lia. rewrite Z.div_add by done.
      assert (total / 2 <= c + 4096) by (apply Z.div_le_upper_bound; lia). lia. }
  assert (Hcp : 0 <= c) by (subst c; lia). rewrite En. unfold intervalsOverlap, period in *. clearbody c n.
  destruct (samples_range (Z.max (ri_StartOffset i) (c * 125000) - c * 125000)) as [_ [_ R1]]; [lia|].
  destruct (samples_range (Z.min (ri_EndOffset i) ((c + n / 2) * 125000) - c * 125000)) as [_ [R2 _]]; [lia|].
  unfold period in *. set (s := Z.max _ _ - _) in *. set (e := Z.min _ _ - _) in *.
  assert (Hs : samples s <= b / 2 - c).
  { apply Z.le_trans with (s / 125000); [done|]. apply Z.lt_succ_r, Z.div_lt_upper_bound; subst s; lia. }
  assert (He : b / 2 - c < samples e).
  { destruct (decide (e = 512000000)) as [->|Hne]; [rewrite samples_chunk; lia|].
    apply Z.lt_le_trans with (2 := R2). apply Z.le_succ_l, Z.div_le_lower_bound; subst e; lia. }
  repeat (apply andb_true_intro; split); lia.
Qed.

(** ** A recording after the redaction *)

(** The bytes of a sample that ends inside a span are zero, unless the sample is
    the last of the recording; the bytes of a sample that ends more than a second
    from every span are as recorded. *)
Record redacted (intervals : list RedactionInterval) (data out : list Z) : Prop := {
  rd_length : length out = length data;
  rd_silent : forall b i, (b < length data)%nat -> i ∈ intervals ->
    ri_StartOffset i < (Z.of_nat b / 2 + 1) * period < ri_EndOffset i ->
    Z.of_nat b / 2 + 1 < flength data / 2 -> out !! b = Some 0;
  rd_kept : forall b, (forall i, i ∈ intervals -> ~ near ((Z.of_nat b / 2 + 1) * period) i) -> out !! b = data !! b
}.

Lemma zeroed_redacted intervals data out :
  Forall valid_interval intervals -> flength data < 2 ^ 33 ->
  zeroed (flength data) 0 (MergeOverlappingIntervals intervals).1 data out -> redacted intervals data out.
Proof.
  intros Hv Hmax [Hlen Hz]. destruct (merge_merges intervals Hv) as [_ Hin Hnear _]. split; [done| |].
  - intros b i Hb Hi Ht Hlast. destruct (lookup_lt_is_Some_2 data b Hb) as [x Hx]. rewrite (Hz b x Hx).
    replace (existsb _ _) with true; [done|]. symmetry. apply existsb_exists.
    destruct (Hin i Hi) as (j & Hj & Hij). exists j. split; [by apply list_elem_of_In|].
    apply silenced_inside; [lia|done|by rewrite Z.add_0_l|]. unfold inside in Hij. rewrite Z.add_0_l. lia.
  - intros b Hfar. destruct (data !! b) as [x|] eqn:Hx; [|apply lookup_ge_None in Hx; apply lookup_ge_None; lia].
    rewrite (Hz b x Hx). destruct (existsb _ _) eqn:He; [exfalso|done].
    apply existsb_exists in He as (j & Hj%list_elem_of_In & Hs). pose proof (lookup_lt_Some _ _ _ Hx).
    apply silenced_only in Hs; [|unfold flength; lia|done]. rewrite Z.add_0_l in Hs.
    destruct (Hnear j _ Hj Hs) as (i & Hi & Hn). exact (Hfar i Hi Hn).
Qed.

Lemma temp_path_fresh path : path +:+ ".pii_temp" <> path.
Proof. intros E. apply (f_equal String.length) in E. rewrite string_length_app in E. cbn in E. lia. Qed.

Lemma in_place_exact (io : Faults) (path : string) (intervals : list RedactionInterval) (fs : files) (data : list Z) :
  fs !! path = Some data -> flength data < 2 ^ 33 -> Forall valid_interval intervals ->
  let '(r, fs') := ProcessRecordingInPlace io telephony path intervals fs in
  (forall other, other <> path -> other <> path +:+ ".pii_temp" -> fs' !! other = fs !! other) /\
  match r with
  | Ok _ => exists out, fs' !! path = Some out /\ redacted intervals data out
  | Err _ => fs' !! path = Some data
  | Panics => False
  end.
Proof.
  intros Hp Hmax Hv. pose proof (temp_path_fresh path) as Hne. unfold ProcessRecordingInPlace.
  destruct (decide (intervals = [])) as [->|Hnil].
  { split; [done|]. exists data. split; [done|]. split; [done|by intros b i _ Hi%elem_of_nil|done]. }
  unfold ProcessRecording. rewrite decide_False, Hp by done. unfold remove_file.
  set (temp := path +:+ ".pii_temp") in *. clearbody temp.
  assert (Hkeep : forall fs' : files, (forall other, other <> temp -> fs' !! other = fs !! other) ->
    let fs'' := if io_remove io then fs' else delete temp fs' in
    (forall other, other <> path -> other <> temp -> fs'' !! other = fs !! other) /\ fs'' !! path = Some data).
  { intros fs' H. cbn. destruct (io_remove io); (split; [intros other _ Ho|]); rewrite ?lookup_delete_ne, H by congruence; done. }
  destruct (io_open io); [by apply Hkeep|]. destruct (io_stat io); [by apply Hkeep|]. destruct (io_create io); [by apply Hkeep|].
  rewrite lookup_insert_ne, Hp by congruence. cbn [default].
  pose proof (process_loop_exact (S (length data)) io (MergeOverlappingIntervals intervals).1 0 0 data (flength data)
    ltac:(lia) ltac:(lia) ltac:(unfold flength; lia) Hmax) as Hx. change (8192 * 0) with 0 in Hx.
  destruct (process_loop _ _ _ _ _ _ _) as [r written]. destruct r; [| |done].
  2: { apply Hkeep. intros other Ho. by rewrite !lookup_insert_ne by congruence. }
  destruct (io_rename io).
  { apply Hkeep. intros other Ho. by rewrite !lookup_insert_ne by congruence. }
  rewrite lookup_insert_eq. split.
  - intros other H1 H2. by rewrite lookup_delete_ne, !lookup_insert_ne by congruence.
  - exists written. rewrite lookup_delete_ne, lookup_insert_eq by congruence. split; [done|]. by apply zeroed_redacted.
Qed.


(** Without failures the call succeeds, and a single span is cut out exactly. *)
Lemma process_loop_succeeds fuel merged k m rest total out r :
  (length rest < fuel)%nat -> 0 <= m -> total = 8192 * m + flength rest -> total < 2 ^ 33 ->
  process_loop fuel no_faults telephony merged k (8192 * m) rest = (r, out) -> r = Ok tt.
Proof.
  revert k m rest out. induction fuel as [|fuel IH]; intros k m rest out Hf Hm Ht Hmax; [lia|]. cbn [process_loop].
  rewrite decide_False by done. destruct rest as [|x rest0]; [by intros [= <- <-]|].
  set (rest := x :: rest0) in *. set (chunk := take bufferSize rest). pose proof bufferSize_bytes as Hbs.
  assert (Hlc : flength chunk = Z.min 8192 (total - 8192 * m)).
  { unfold chunk, flength in *. rewrite length_take. lia. }
  destruct (redact_chunk_lookup (4096 * m) chunk merged) as (o & Hr & _); [unfold flength in *; lia|lia|].
  replace (2 * (4096 * m)) with (8192 * m) in Hr by lia. rewrite Hr, decide_False, Hlc by done.
  destruct (decide (length rest <= bufferSize)%nat) as [Hlast|Hmore].
  - rewrite drop_ge by done. destruct fuel as [|fuel]; [cbn in Hf; lia|]. cbn [process_loop].
    rewrite decide_False by done. by intros [= <- <-].
  - replace (8192 * m + Z.min 8192 (total - 8192 * m)) with (8192 * (m + 1)) by (unfold flength in *; lia).
    destruct (process_loop _ _ _ _ _ _ _) as [r' out'] eqn:E. intros [= <- <-]. apply IH in E; [done|..].
    all: unfold flength in *; rewrite ?length_drop; lia.
Qed.

Lemma in_place_one path i fs data :
  fs !! path = Some data -> flength data < 2 ^ 33 ->
  exists fs' out, ProcessRecordingInPlace no_faults telephony path [i] fs = (Ok tt, fs') /\
    fs' !! path = Some out /\ zeroed (flength data) 0 [i] data out.
Proof.
  intros Hp Hmax. pose proof (temp_path_fresh path) as Hne. unfold ProcessRecordingInPlace, ProcessRecording.
  rewrite !decide_False, Hp by done. cbn [no_faults io_open io_stat io_create io_rename].
  set (temp := path +:+ ".pii_temp") in *. clearbody temp. rewrite lookup_insert_ne, Hp by congruence. cbn [default].
  change (MergeOverlappingIntervals [i]).1 with [i].
  pose proof (process_loop_exact (S (length data)) no_faults [i] 0 0 data (flength data)
    ltac:(lia) ltac:(lia) ltac:(unfold flength; lia) Hmax) as Hx.
  pose proof (process_loop_succeeds (S (length data)) [i] 0 0 data (flength data)) as Hs. change (8192 * 0) with 0 in *.
  destruct (process_loop _ _ _ _ _ _ _) as [r written].
  specialize (Hs written r ltac:(lia) ltac:(lia) ltac:(unfold flength; lia) Hmax eq_refl) as ->.
  rewrite lookup_insert_eq. eexists _, written. split; [done|]. split; [|done].
  rewrite lookup_delete_ne by congruence. apply lookup_insert_eq.
Qed.

(** ** Recordings that are not raw 8000 Hz mono

    The processor takes its input for raw samples, but recordings are WAV files of
    the codec's rate and channels. *)

Lemma estimated_at_least_second txt : second <= estimatedDuration txt <= 10 * second.
Proof.
  unfold estimatedDuration, second. set (est := i64 _). clearbody est.
  repeat match goal with |- context [?a <? ?b] => destruct (Z.ltb_spec a b) end; lia.
Qed.

Lemma zeroed_silent total merged data out b x :
  zeroed total 0 merged data out -> data !! b = Some x -> existsb (silenced total (Z.of_nat b)) merged = true -> out !! b = Some 0.
Proof. intros [_ Hz] Hx He. rewrite (Hz b x Hx). by rewrite Z.add_0_l, He. Qed.

Lemma no_riff out : 12 <= flength out -> (forall b, (b < 4)%nat -> out !! b = Some 0) -> NewWAVReader out = Some (Err MissingRiffHeader).
Proof.
  intros Hlen Hz. destruct out as [|a [|b [|c [|d out]]]]; [by unfold flength in Hlen; cbn in Hlen..|].
  assert (a = 0 /\ b = 0 /\ c = 0 /\ d = 0) as (-> & -> & -> & ->).
  { pose proof (Hz 0%nat ltac:(lia)). pose proof (Hz 1%nat ltac:(lia)). pose proof (Hz 2%nat ltac:(lia)).
    pose proof (Hz 3%nat ltac:(lia)). cbn in *. by simplify_eq. }
  unfold NewWAVReader, parseHeader, read_full. cbn [wr_file fl_data fl_pos].
  change (Z.to_nat 0) with 0%nat. rewrite drop_0. change (Z.to_nat 12) with 12%nat.
  assert (Hl : length (take 12 (0 :: 0 :: 0 :: 0 :: out)) = 12%nat) by (unfold flength in Hlen; rewrite length_take, Nat.min_l; [done|]; apply Nat2Z.inj_le; exact Hlen).
  unfold flength at 1. rewrite Hl. cbn [Z.of_nat Z.eqb]. cbn [take] in *.
  rewrite (bool_decide_false (slice 0 4 _ = RIFF)); [done|]. by vm_compute.
Qed.

(** A detection in the first second of a call destroys the recording.  The
    span it marks is cut at the start of the call, so the first bytes of the file,
    which are the WAV header and not samples, are silenced, and the reader of
    recordings refuses the file. *)
Theorem early_detection_breaks_recording (t0 now : Z) (callUUID piiType original masked path : string) (fs : files)
    (data : list Z) :
  t0 + 2 * period < now <= t0 + second -> now < t0 + 2 ^ 60 ->
  path <> "" -> fs !! path = Some data -> 12 <= flength data < 2 ^ 33 ->
  exists fs' out,
    cleanup_redaction no_faults (Some (MarkPII now piiType original masked (NewPIIAudioMarker t0 callUUID true))) path fs = Some fs' /\
    fs' !! path = Some out /\ NewWAVReader out = Some (Err MissingRiffHeader).
Proof.
  intros Hnow Hsmall Hpath Hp Hlen. unfold cleanup_redaction. rewrite (proj2 (String.eqb_neq _ _) Hpath).
  set (i := redaction_interval t0 (mkPIIMarker (now - estimatedDuration original) now piiType (f64_of_int 1) original masked)).
  change (GetRedactionIntervals _) with [i].
  destruct (in_place_one path i fs data Hp ltac:(lia)) as (fs' & out & -> & Hout & Hz). exists fs', out.
  split; [done|]. split; [done|].
  assert (Hi : ri_StartOffset i = 0 /\ ri_EndOffset i = now - t0).
  { pose proof (estimated_at_least_second original). unfold i, redaction_interval, time_sub. cbn [pm_StartTime pm_EndTime].
    set (e := estimatedDuration original) in *. clearbody e. unfold second, period in *.
    repeat match goal with |- context [?a <? ?b] => destruct (Z.ltb_spec a b) end; cbn [ri_StartOffset ri_EndOffset]; lia. }
  destruct Hi as [Hs He]. apply no_riff; [unfold flength in *; destruct Hz as [-> _]; lia|].
  intros b Hb. destruct (lookup_lt_is_Some_2 data b) as [x Hx]; [unfold flength in Hlen; lia|].
  apply (zeroed_silent (flength data) [i] data out b x Hz Hx). cbn [existsb]. rewrite orb_false_r.
  assert (Hb2 : 0 <= Z.of_nat b / 2 < 2) by (split; [apply Z.div_pos|apply Z.div_lt_upper_bound]; lia).
  assert (6 <= flength data / 2) by (apply Z.div_le_lower_bound; lia).
  apply silenced_inside; [lia|lia|lia|]. rewrite Hs, He. unfold period in *. lia.
Qed.

Lemma early_detection_breaks_recording_witness :
  exists fs' out,
    cleanup_redaction no_faults
      (Some (MarkPII 500000000 "ssn" "123-45-6780" "***-**-6780" (NewPIIAudioMarker 0 "call" true))) "a.wav"
      {[ "a.wav" := wav_header 8000 1 36 0 ++ encode [1; 2; 3; 4] ]} = Some fs' /\
    fs' !! "a.wav" = Some out /\ NewWAVReader out = Some (Err MissingRiffHeader).
Proof.
  apply (early_detection_breaks_recording 0 500000000 "call" "ssn" "123-45-6780" "***-**-6780" "a.wav" _
    (wav_header 8000 1 36 0 ++ encode [1; 2; 3; 4])); try (unfold period, second; lia).
  - discriminate.
  - reflexivity.
  - split; [vm_compute; discriminate|vm_compute; reflexivity].
Defined.

(** A recording of more than 8000 samples per second keeps what should be
    silenced.  In a WAV file of [rate] frames of [channels] samples per second,
    with [f] times the 8000 samples per second the processor assumes, no byte of a
    frame from the start of the span on is changed, if the span ends before [f]
    times its start; with two channels or 16000 Hz this is every span after the
    first ten seconds, which is the longest a span can be. *)
Theorem other_rates_keep_pii (path : string) (fs : files) (data : list Z) (i : RedactionInterval) (rate channels f : Z) :
  fs !! path = Some data -> flength data < 2 ^ 33 ->
  0 < rate -> 0 < channels -> rate * channels = 8000 * f -> ri_EndOffset i <= f * ri_StartOffset i ->
  exists fs' out, ProcessRecordingInPlace no_faults telephony path [i] fs = (Ok tt, fs') /\ fs' !! path = Some out /\
    forall frame b, ri_StartOffset i * rate <= frame * second -> 44 + 2 * channels * frame <= Z.of_nat b -> out !! b = data !! b.
Proof.
  intros Hp Hmax Hr Hc Hf Hi. destruct (in_place_one path i fs data Hp Hmax) as (fs' & out & Hok & Hout & Hlen & Hz).
  exists fs', out. split; [done|]. split; [done|]. intros frame b Hframe Hb.
  destruct (data !! b) as [x|] eqn:Hx; [|apply lookup_ge_None in Hx; apply lookup_ge_None; lia].
  rewrite (Hz b x Hx). cbn [existsb]. rewrite orb_false_r, Z.add_0_l. destruct (silenced _ _ _) eqn:Es; [exfalso|done].
  pose proof (lookup_lt_Some _ _ _ Hx). apply silenced_only in Es as [_ He]; [|unfold flength; lia|done].
  assert (Hb2 : 22 + channels * frame <= Z.of_nat b / 2) by (apply Z.div_le_lower_bound; lia).
  assert (Hs : ri_StartOffset i * rate * channels <= frame * second * channels) by (apply Z.mul_le_mono_nonneg_r; lia).
  replace (ri_StartOffset i * rate * channels) with (8000 * (f * ri_StartOffset i)) in Hs by (rewrite <- Z.mul_assoc, Hf; ring).
  unfold period, second in *. nia.
Qed.

Lemma other_rates_keep_pii_witness :
  exists fs' out,
    ProcessRecordingInPlace no_faults telephony "a.wav" [mkRedactionInterval 312500 625000 "ssn" ""]
      {[ "a.wav" := wav_header 16000 1 36 0 ++ encode [1; 2; 3; 4; 5; 6; 7; 8] ]} = (Ok tt, fs') /\
    fs' !! "a.wav" = Some out /\
    forall frame b, 312500 * 16000 <= frame * second -> 44 + 2 * 1 * frame <= Z.of_nat b ->
      out !! b = (wav_header 16000 1 36 0 ++ encode [1; 2; 3; 4; 5; 6; 7; 8]) !! b.
Proof.
  apply (other_rates_keep_pii "a.wav" _ (wav_header 16000 1 36 0 ++ encode [1; 2; 3; 4; 5; 6; 7; 8])
    (mkRedactionInterval 312500 625000 "ssn" "") 16000 1 2); try lia; try reflexivity.
Defined.


Lemma merge_keeps_marked_witness :
  let l := [mkRedactionInterval 9000000000 9500000000 "ssn" ""; mkRedactionInterval 1000000000 3000000000 "phone" "";
            mkRedactionInterval 3500000000 4000000000 "email" ""] in
  let '(merged, slice) := MergeOverlappingIntervals l in slice ≡ₚ l /\ merges l merged.
Proof.
  apply (merge_keeps_marked [mkRedactionInterval 9000000000 9500000000 "ssn" "";
    mkRedactionInterval 1000000000 3000000000 "phone" ""; mkRedactionInterval 3500000000 4000000000 "email" ""]).
  repeat constructor; vm_compute; congruence.
Defined.
