(* ===== verification/BufferedPipe.v ===== *)
(** * The buffered pipe

    [src/pkg/media/buffered_pipe.go]: a ring buffer between the RTP handler and a
    slower reader, which drops the oldest bytes instead of blocking the writer.
    [content] is the abstract state, the bytes waiting to be read in order; the
    theorems show that the ring refines it. *)

From S2P Require Import Prelude.
#[local] Open Scope nat_scope.

(** [io.EOF], [io.ErrClosedPipe], or the error given on closing. *)
Inductive pipe_error := EOF | ErrClosedPipe | Given (name : string).

(** The positions are never negative, so they are [nat]; bytes are in [Z]. *)
Record BufferedPipe := mkBufferedPipe {
  bp_buffer : list Z;
  bp_size : nat;
  bp_start : nat;
  bp_end : nat;
  bp_count : nat;
  bp_closed : bool;
  bp_writeErr : option pipe_error;
  bp_readErr : option pipe_error
}.

Definition NewBufferedPipe (bufferSize : Z) : BufferedPipe :=
  let n := Z.to_nat (if (bufferSize <=? 0)%Z then 4096%Z else bufferSize) in
  mkBufferedPipe (replicate n 0%Z) n 0 0 0 false None None.

(** [copy(buf[off:], data)] for data that fits. *)
Definition splice (off : nat) (data buf : list Z) : list Z :=
  take off buf ++ data ++ drop (off + length data) buf.

(** ** Writing *)

(** Dropping the oldest bytes of a full buffer, at most half of it, and the
    space there is then. *)
Definition make_room (remaining : nat) (p : BufferedPipe) : BufferedPipe * nat :=
  let space := bp_size p - bp_count p in
  if space =? 0 then
    let dropSize := if bp_size p / 2 <? remaining then bp_size p / 2 else remaining in
    (p <| bp_start := (bp_start p + dropSize) mod bp_size p |> <| bp_count := bp_count p - dropSize |>,
     dropSize)
  else (p, space).

(** Writing one chunk at the end of the ring, in two parts across the wrap. *)
Definition write_chunk (data : list Z) (p : BufferedPipe) : BufferedPipe :=
  let toWrite := length data in
  let endSpace := bp_size p - bp_end p in
  let buf := if endSpace <? toWrite
             then splice 0 (drop endSpace data) (splice (bp_end p) (take endSpace data) (bp_buffer p))
             else splice (bp_end p) data (bp_buffer p) in
  p <| bp_buffer := buf |> <| bp_end := (bp_end p + toWrite) mod bp_size p |>
    <| bp_count := bp_count p + toWrite |>.

(** The loop over what is left of the data; [None] when the fuel is used up. *)
Fixpoint write_loop (fuel : nat) (data : list Z) (p : BufferedPipe) : option BufferedPipe :=
  match data with
  | [] => Some p
  | _ =>
    match fuel with
    | O => None
    | S fuel =>
      let '(p, space) := make_room (length data) p in
      let toWrite := if space <? length data then space else length data in
      write_loop fuel (drop toWrite data) (write_chunk (take toWrite data) p)
    end
  end.

(** The number of bytes written or an error, and the pipe. *)
Definition Write (fuel : nat) (data : list Z) (p : BufferedPipe)
    : option ((nat + pipe_error) * BufferedPipe) :=
  if bp_closed p || match bp_readErr p with Some _ => true | None => false end
  then Some (inr ErrClosedPipe, p)
  else (fun p => (inl (length data), p)) <$> write_loop fuel data p.

(** ** Reading *)

Inductive read_result := ReadBlocks | ReadError (e : pipe_error) | ReadBytes (data : list Z).

(** The loop that copies contiguous chunks into a slice of [n] bytes. *)
Fixpoint read_loop (fuel : nat) (n : nat) (p : BufferedPipe) : option (list Z * BufferedPipe) :=
  if (n =? 0) || (bp_count p =? 0) then Some ([], p) else
  match fuel with
  | O => None
  | S fuel =>
    let available := bp_size p - bp_start p in
    let available := if bp_count p <? available then bp_count p else available in
    let available := if n <? available then n else available in
    let chunk := take available (drop (bp_start p) (bp_buffer p)) in
    let p := p <| bp_start := (bp_start p + available) mod bp_size p |>
               <| bp_count := bp_count p - available |> in
    '(rest, p) ← read_loop fuel (n - available) p; Some (chunk ++ rest, p)
  end.

(** A reader of an empty open pipe waits; otherwise at most [n] bytes are
    read.  A pipe closed by its writer is drained first. *)
Definition Read (fuel : nat) (n : nat) (p : BufferedPipe) : option (read_result * BufferedPipe) :=
  if bp_count p =? 0 then
    match bp_writeErr p with
    | Some e => Some (ReadError e, p)
    | None => if bp_closed p then Some (ReadError EOF, p) else Some (ReadBlocks, p)
    end
  else '(data, p) ← read_loop fuel n p; Some (ReadBytes data, p).

(** ** Closing *)

Definition ReaderCloseWithError (err : option pipe_error) (p : BufferedPipe) : BufferedPipe :=
  p <| bp_readErr := Some (default ErrClosedPipe err) |>.

Definition ReaderClose (p : BufferedPipe) : BufferedPipe := ReaderCloseWithError None p.

Definition WriterCloseWithError (err : option pipe_error) (p : BufferedPipe) : BufferedPipe :=
  let p := p <| bp_closed := true |> in
  match err with Some e => p <| bp_writeErr := Some e |> | None => p end.

Definition WriterClose (p : BufferedPipe) : BufferedPipe := WriterCloseWithError None p.

Definition Buffered (p : BufferedPipe) : nat := bp_count p.

#[local] Arguments Nat.div : simpl never.
#[local] Arguments Nat.modulo : simpl never.

(** ** The ring and its content *)

Record pipe_inv (p : BufferedPipe) : Prop := {
  inv_size : 0 < bp_size p;
  inv_buffer : length (bp_buffer p) = bp_size p;
  inv_start : bp_start p < bp_size p;
  inv_count : bp_count p <= bp_size p;
  inv_end : bp_end p = (bp_start p + bp_count p) mod bp_size p
}.

(** The bytes waiting to be read, oldest first. *)
Definition content (p : BufferedPipe) : list Z :=
  take (bp_count p) (drop (bp_start p) (bp_buffer p ++ bp_buffer p)).

(** The last [n] elements. *)
Definition suffix_of (n : nat) (l : list Z) : list Z := drop (length l - n) l.

Lemma content_length p : pipe_inv p -> length (content p) = bp_count p.
Proof.
  intros [Hs Hb Hst Hc He]. unfold content.
  rewrite length_take, length_drop, length_app, Hb. lia.
Qed.

Lemma double_lookup (l : list Z) (j : nat) : j < 2 * length l -> (l ++ l) !! j = l !! (j mod length l).
Proof.
  intros Hj. destruct (decide (j < length l)) as [Hlt|Hge].
  - rewrite lookup_app_l, Nat.mod_small by done. done.
  - rewrite lookup_app_r by lia. f_equal. apply (Nat.mod_unique j (length l) 1); lia.
Qed.

Lemma content_lookup p i : pipe_inv p -> i < bp_count p ->
  content p !! i = bp_buffer p !! ((bp_start p + i) mod bp_size p).
Proof.
  intros [Hs Hb Hst Hc He] Hi. unfold content. rewrite lookup_take_lt, lookup_drop by done.
  rewrite double_lookup by lia. by rewrite Hb.
Qed.

Lemma splice_length off data buf : off + length data <= length buf ->
  length (splice off data buf) = length buf.
Proof. intros H. unfold splice. rewrite !length_app, length_take, length_drop. lia. Qed.

Lemma splice_lookup off data buf j : off + length data <= length buf ->
  splice off data buf !! j =
    if decide (off <= j < off + length data) then data !! (j - off) else buf !! j.
Proof.
  intros H. unfold splice. assert (Hl : length (take off buf) = off) by (rewrite length_take; lia).
  destruct (decide (j < off)).
  - rewrite lookup_app_l, lookup_take_lt by lia. by rewrite decide_False by lia.
  - rewrite lookup_app_r, Hl by lia. destruct (decide (j < off + length data)).
    + rewrite lookup_app_l by lia. by rewrite decide_True by lia.
    + rewrite lookup_app_r, lookup_drop by lia. rewrite decide_False by lia. f_equal. lia.
Qed.

(** Where a position is in the ring, counted from [e]. *)
Lemma ring_distance e j n : e < n -> j < n ->
  (e <= j /\ (j + n - e) mod n = j - e) \/ (j < e /\ (j + n - e) mod n = j + n - e).
Proof.
  intros He Hj. destruct (decide (e <= j)); [left|right]; (split; [lia|]).
  - symmetry. apply (Nat.mod_unique _ n 1); lia.
  - apply Nat.mod_small. lia.
Qed.

Lemma write_chunk_buffer data p : pipe_inv p -> bp_end p < bp_size p -> length data <= bp_size p ->
  length (bp_buffer (write_chunk data p)) = bp_size p /\
  forall j, j < bp_size p ->
    bp_buffer (write_chunk data p) !! j =
      if decide ((j + bp_size p - bp_end p) mod bp_size p < length data)
      then data !! ((j + bp_size p - bp_end p) mod bp_size p) else bp_buffer p !! j.
Proof.
  intros [Hs Hb Hst Hc He] Hend Hl.
  assert (Hbuf : bp_buffer (write_chunk data p) =
    if bp_size p - bp_end p <? length data
    then splice 0 (drop (bp_size p - bp_end p) data)
           (splice (bp_end p) (take (bp_size p - bp_end p) data) (bp_buffer p))
    else splice (bp_end p) data (bp_buffer p)) by (by destruct p).
  rewrite Hbuf. clear Hbuf. destruct (_ <? _) eqn:E.
  - apply Nat.ltb_lt in E. split.
    { rewrite !splice_length; rewrite ?splice_length; rewrite ?length_take, ?length_drop; lia. }
    intros j Hj.
    assert (Hd : length (drop (bp_size p - bp_end p) data) = length data - (bp_size p - bp_end p))
      by apply length_drop.
    assert (Ht : length (take (bp_size p - bp_end p) data) = bp_size p - bp_end p)
      by (rewrite length_take; lia).
    rewrite splice_lookup by (rewrite splice_length; lia). rewrite splice_lookup by lia.
    rewrite lookup_drop. destruct (ring_distance (bp_end p) j (bp_size p)) as [[H1 ->]|[H1 ->]]; try lia;
      repeat case_decide; try lia; rewrite ?lookup_take_lt by lia; f_equal; lia.
  - apply Nat.ltb_ge in E. split; [rewrite splice_length; lia|]. intros j Hj.
    rewrite splice_lookup by lia.
    destruct (ring_distance (bp_end p) j (bp_size p)) as [[H1 ->]|[H1 ->]]; try lia;
      repeat case_decide; try lia; done.
Qed.

Lemma mod_add_small a b n : a < n -> b <= n -> 
  (a + b < n /\ (a + b) mod n = a + b) \/ (n <= a + b /\ (a + b) mod n = a + b - n).
Proof.
  intros Ha Hb. destruct (decide (a + b < n)); [left|right]; (split; [lia|]).
  - by apply Nat.mod_small.
  - symmetry. apply (Nat.mod_unique _ n 1); lia.
Qed.

Lemma write_chunk_spec data p : pipe_inv p -> length data <= bp_size p - bp_count p ->
  pipe_inv (write_chunk data p) /\ content (write_chunk data p) = content p ++ data /\
  bp_size (write_chunk data p) = bp_size p.
Proof.
  intros Hp Hl. destruct (Hp) as [Hs Hb Hst Hc He].
  assert (Hend : bp_end p < bp_size p) by (rewrite He; apply Nat.mod_upper_bound; lia).
  destruct (write_chunk_buffer data p) as [Hlen Hlook]; [done..|lia|].
  assert (Hf : bp_size (write_chunk data p) = bp_size p /\ bp_start (write_chunk data p) = bp_start p /\
    bp_end (write_chunk data p) = (bp_end p + length data) mod bp_size p /\
    bp_count (write_chunk data p) = bp_count p + length data) by (by destruct p).
  destruct Hf as (Hf1 & Hf2 & Hf3 & Hf4).
  assert (Hinv : pipe_inv (write_chunk data p)).
  { constructor; rewrite ?Hf1, ?Hf2, ?Hf3, ?Hf4; try lia. rewrite He.
    rewrite Nat.Div0.add_mod_idemp_l. f_equal. lia. }
  split; [done|]. split; [|done]. apply list_eq. intros i.
  destruct (decide (i < bp_count p + length data)) as [Hi|Hi].
  2:{ rewrite !lookup_ge_None_2; [done|rewrite length_app, content_length by done; lia|].
      rewrite content_length by done. lia. }
  rewrite content_lookup by (done || lia). rewrite Hf1, Hf2.
  rewrite Hlook by (apply Nat.mod_upper_bound; lia).
  pose proof (mod_add_small (bp_start p) i (bp_size p) Hst ltac:(lia)) as Hm.
  pose proof (mod_add_small (bp_start p) (bp_count p) (bp_size p) Hst Hc) as Hm'.
  rewrite <- He in Hm'.
  destruct (ring_distance (bp_end p) ((bp_start p + i) mod bp_size p) (bp_size p)) as [[H1 ->]|[H1 ->]];
    [done|apply Nat.mod_upper_bound; lia|..];
  (destruct (decide (i < bp_count p)); [
    rewrite lookup_app_l by (rewrite content_length; done);
    rewrite content_lookup by done; rewrite decide_False by lia; done
  | rewrite lookup_app_r by (rewrite content_length by done; lia);
    rewrite content_length by done; rewrite decide_True by lia; f_equal; lia]).
Qed.

(** Taking [k] bytes off the front of the ring. *)
Definition advance (k : nat) (p : BufferedPipe) : BufferedPipe :=
  p <| bp_start := (bp_start p + k) mod bp_size p |> <| bp_count := bp_count p - k |>.

Lemma advance_spec k p : pipe_inv p -> k <= bp_count p ->
  pipe_inv (advance k p) /\ content (advance k p) = drop k (content p) /\
  bp_size (advance k p) = bp_size p.
Proof.
  intros Hp Hk. destruct (Hp) as [Hs Hb Hst Hc He].
  assert (Hf : bp_size (advance k p) = bp_size p /\ bp_buffer (advance k p) = bp_buffer p /\
    bp_start (advance k p) = (bp_start p + k) mod bp_size p /\ bp_end (advance k p) = bp_end p /\
    bp_count (advance k p) = bp_count p - k) by (by destruct p).
  destruct Hf as (Hf1 & Hf2 & Hf3 & Hf4 & Hf5).
  assert (Hinv : pipe_inv (advance k p)).
  { constructor; rewrite ?Hf1, ?Hf2, ?Hf3, ?Hf4, ?Hf5; try done.
    - apply Nat.mod_upper_bound. lia.
    - lia.
    - rewrite Nat.Div0.add_mod_idemp_l, He. f_equal. lia. }
  split; [done|]. split; [|done]. apply list_eq. intros i. rewrite lookup_drop.
  destruct (decide (i < bp_count p - k)) as [Hi|Hi].
  - rewrite !content_lookup by (done || lia). rewrite Hf1, Hf2, Hf3, Nat.Div0.add_mod_idemp_l.
    f_equal. f_equal. lia.
  - rewrite !lookup_ge_None_2; [done|..]; rewrite content_length by done; lia.
Qed.

Lemma make_room_spec r p p' space : pipe_inv p -> 2 <= bp_size p -> 0 < r ->
  make_room r p = (p', space) ->
  0 < space /\ space <= bp_size p' - bp_count p' /\ pipe_inv p' /\ bp_size p' = bp_size p /\
  exists d, content p' = drop d (content p) /\ d <= bp_count p /\
            (d = 0 \/ (bp_count p = bp_size p /\ d <= r)).
Proof.
  intros Hp Hsz Hr. destruct (Hp) as [Hs Hb Hst Hc He]. unfold make_room.
  destruct (_ =? 0) eqn:E; [apply Nat.eqb_eq in E|apply Nat.eqb_neq in E]; intros [= <- <-].
  - set (d := if _ <? r then _ else r).
    assert (Hhalf : 0 < bp_size p / 2 <= bp_size p).
    { split; [apply Nat.div_str_pos; lia|apply Nat.Div0.div_le_upper_bound; lia]. }
    assert (Hd : 0 < d /\ d <= r /\ d <= bp_count p).
    { subst d. destruct (_ <? _) eqn:Er; [apply Nat.ltb_lt in Er|apply Nat.ltb_ge in Er]; lia. }
    destruct (advance_spec d p Hp) as (Hi & Hcont & Hsize); [lia|].
    unfold advance in *. rewrite Hsize.
    assert (bp_count (p <| bp_start := (bp_start p + d) mod bp_size p |> <| bp_count := bp_count p - d |>)
            = bp_count p - d) as -> by (by destruct p).
    split; [lia|]. split; [lia|]. do 2 (split; [done|]). exists d. split; [done|]. lia.
  - split; [lia|]. split; [lia|]. do 2 (split; [done|]). exists 0. split; [done|]. lia.
Qed.

Lemma suffix_of_drop n d l : n + d <= length l \/ d = 0 -> suffix_of n (drop d l) = suffix_of n l.
Proof. intros H. unfold suffix_of. rewrite length_drop, drop_drop. f_equal. lia. Qed.

(** The write loop terminates on a buffer of two bytes or more, one iteration
    per byte at most, and keeps the newest bytes. *)
Lemma write_loop_spec fuel data p : pipe_inv p -> 2 <= bp_size p -> length data <= fuel ->
  exists p', write_loop fuel data p = Some p' /\ pipe_inv p' /\ bp_size p' = bp_size p /\
             content p' = suffix_of (bp_size p) (content p ++ data).
Proof.
  revert data p. induction fuel as [|fuel IH]; intros data p Hp Hsz Hl.
  - destruct data; [|cbn in Hl; lia]. exists p. do 3 (split; [done|]).
    rewrite app_nil_r. unfold suffix_of. rewrite content_length by done.
    by replace (bp_count p - bp_size p) with 0 by (destruct Hp; lia).
  - destruct data as [|b data'].
    { exists p. do 3 (split; [done|]). rewrite app_nil_r. unfold suffix_of. rewrite content_length by done.
      by replace (bp_count p - bp_size p) with 0 by (destruct Hp; lia). }
    cbn [write_loop]. set (data := b :: data') in *. assert (Hpos : 0 < length data) by (cbn; lia).
    clearbody data. destruct (make_room (length data) p) as [q space] eqn:Em.
    destruct (make_room_spec _ _ _ _ Hp Hsz Hpos Em) as (H0 & Hroom & Hq & Hqs & d & Hqc & Hd & Hd').
    set (w := if space <? length data then space else length data).
    assert (Hw : 0 < w /\ w <= space /\ w <= length data).
    { subst w. destruct (_ <? _) eqn:Es; [apply Nat.ltb_lt in Es|apply Nat.ltb_ge in Es]; lia. }
    destruct (write_chunk_spec (take w data) q Hq) as (Hi & Hc & Hs); [rewrite length_take; lia|].
    destruct (IH (drop w data) (write_chunk (take w data) q)) as (p' & Hrun & Hinv & Hsize & Hcont);
      [done|lia|rewrite length_drop; lia|].
    exists p'. split; [done|]. split; [done|]. split; [lia|].
    rewrite Hcont, Hc, Hs, Hqs, <- app_assoc, take_drop, Hqc.
    rewrite <- (drop_app_le (content p) data) by (rewrite content_length; done).
    apply suffix_of_drop. rewrite length_app, content_length by done. lia.
Qed.

Lemma read_loop_spec fuel n p : pipe_inv p -> n <= fuel ->
  exists p', read_loop fuel n p = Some (take n (content p), p') /\ pipe_inv p' /\
             content p' = drop n (content p) /\ bp_size p' = bp_size p.
Proof.
  revert n p. induction fuel as [|fuel IH]; intros n p Hp Hn.
  - assert (n = 0) as -> by lia. exists p. done.
  - cbn [read_loop]. destruct (n =? 0) eqn:E0.
    { apply Nat.eqb_eq in E0 as ->. by exists p. }
    apply Nat.eqb_neq in E0. destruct (bp_count p =? 0) eqn:Ec.
    { apply Nat.eqb_eq in Ec. exists p.
      assert (content p = []) as -> by (apply length_zero_iff_nil; by rewrite content_length).
      by rewrite take_nil, drop_nil. }
    apply Nat.eqb_neq in Ec. cbn [orb]. destruct (Hp) as [Hs Hb Hst Hc He].
    set (k0 := if bp_count p <? _ then _ else _). set (k := if n <? k0 then n else k0).
    assert (Hk : 0 < k /\ k <= n /\ k <= bp_count p /\ k <= bp_size p - bp_start p).
    { subst k k0. destruct (Nat.ltb_spec (bp_count p) (bp_size p - bp_start p)).
      - destruct (Nat.ltb_spec n (bp_count p)); lia.
      - destruct (Nat.ltb_spec n (bp_size p - bp_start p)); lia. }
    destruct (advance_spec k p Hp) as (Hi & Hcont & Hsize); [lia|].
    destruct (IH (n - k) (advance k p)) as (p' & Hrun & Hinv & Hc' & Hs'); [done|lia|].
    unfold advance in *. rewrite Hrun. exists p'. split; [|split; [done|split]].
    + cbn. do 2 f_equal. rewrite Hcont. unfold content at 2.
      rewrite <- (take_drop k (take n _)), take_take, Nat.min_l by lia. f_equal.
      * rewrite take_take, Nat.min_l by lia. rewrite drop_app_le by lia.
        rewrite take_app_le; [done|]. rewrite length_drop. lia.
      * fold (content p). rewrite skipn_firstn_comm. done.
    + rewrite Hc', Hcont, drop_drop. f_equal. lia.
    + by rewrite Hs'.
Qed.

(** A read returns, and leaves the end of what was waiting. *)
Lemma read_pipe n p : pipe_inv p ->
  exists r p' k, Read n n p = Some (r, p') /\ pipe_inv p' /\ bp_size p' = bp_size p /\ content p' = drop k (content p).
Proof.
  intros Hp. unfold Read. destruct (bp_count p =? 0).
  - destruct (bp_writeErr p), (bp_closed p); by eexists _, p, 0.
  - destruct (read_loop_spec n n p Hp) as (p' & -> & Hi & Hc & Hs); [done|]. by eexists _, p', n.
Qed.

Lemma new_pipe_inv (n : Z) : pipe_inv (NewBufferedPipe n) /\ content (NewBufferedPipe n) = [].
Proof.
  unfold NewBufferedPipe. set (k := Z.to_nat _).
  assert (Hk : 0 < k) by (subst k; destruct (Z.leb_spec n 0); lia).
  split; [|done]. constructor; cbn; try lia; [apply length_replicate|by rewrite Nat.Div0.mod_0_l].
Qed.

(** ** Properties *)



(** A read of at most [n] bytes returns the first of the waiting bytes, in
    order, and leaves the others; it waits only on an open empty pipe, and
    reports the end of the stream, or the writer's error, only once every
    waiting byte was read. *)
Theorem pipe_read_in_order (fuel n : nat) (p : BufferedPipe) :
  pipe_inv p -> n <= fuel ->
  exists r p', Read fuel n p = Some (r, p') /\ pipe_inv p' /\
    (content p <> [] -> r = ReadBytes (take n (content p)) /\ content p' = drop n (content p)) /\
    (content p = [] -> p' = p /\
       r = match bp_writeErr p with
           | Some e => ReadError e
           | None => if bp_closed p then ReadError EOF else ReadBlocks
           end).
Proof.
  intros Hp Hn. unfold Read. pose proof (content_length p Hp) as Hl.
  destruct (Nat.eqb_spec (bp_count p) 0) as [E|E].
  - assert (Hnil : content p = []) by (apply length_zero_iff_nil; lia).
    rewrite Hnil. exists (match bp_writeErr p with
      | Some e => ReadError e
      | None => if bp_closed p then ReadError EOF else ReadBlocks
      end), p. split; [by destruct (bp_writeErr p), (bp_closed p)|]. done.
  - destruct (read_loop_spec fuel n p Hp Hn) as (p' & Hr & Hi & Hc & _). rewrite Hr.
    eexists _, p'. split; [reflexivity|]. split; [done|]. split; [done|].
    intros Hnil. rewrite Hnil in Hl. cbn in Hl. lia.
Qed.

Lemma pipe_read_in_order_witness :
  exists p p', Write 3 [7; 8; 9]%Z (NewBufferedPipe 4) = Some (inl 3, p) /\
    Read 2 2 p = Some (ReadBytes [7; 8]%Z, p').
Proof.
  eexists _, _. split; [vm_compute; reflexivity|].
  match goal with |- Read 2 2 ?p = _ =>
    destruct (pipe_read_in_order 2 2 p) as (r & p' & Hr & _ & Hc & _) end.
  - constructor; first [reflexivity | cbn; lia].
  - lia.
  - destruct Hc as [-> _]; [vm_compute; discriminate|]. vm_compute. reflexivity.
Defined.

Lemma write_size_one_stuck fuel data p :
  bp_size p = 1 -> bp_count p = 1 -> data <> [] -> write_loop fuel data p = None.
Proof.
  revert p. induction fuel as [|fuel IH]; intros p Hs Hc Hd; destruct data as [|b data]; try done.
  cbn [write_loop]. unfold make_room. rewrite Hs, Hc. cbn [Nat.sub Nat.eqb].
  change (1 / 2) with 0. cbn [Nat.ltb Nat.leb length take drop]. apply IH; [by destruct p| |done].
  destruct p; cbn in *. lia.
Qed.

(** On a full pipe of one byte half the size is nothing, so the write loop
    makes no room and never ends: with no amount of fuel does it return. *)
Theorem pipe_size_one_write_never_returns (p : BufferedPipe) (data : list Z) :
  bp_size p = 1 -> bp_count p = 1 -> bp_closed p = false -> bp_readErr p = None -> data <> [] ->
  forall fuel, Write fuel data p = None.
Proof.
  intros Hs Hc Hcl Hr Hd fuel. unfold Write. rewrite Hcl, Hr. cbn [orb].
  by rewrite write_size_one_stuck.
Qed.

Lemma pipe_size_one_write_never_returns_witness :
  exists p, Write 1 [7]%Z (NewBufferedPipe 1) = Some (inl 1, p) /\ forall fuel, Write fuel [8]%Z p = None.
Proof.
  eexists. split; [vm_compute; reflexivity|]. intros fuel.
  apply pipe_size_one_write_never_returns; [reflexivity..|discriminate].
Defined.
