(* ===== verification/Heap.v ===== *)
(** * Binary heaps

    The operations of Go's [container/heap] on a slice, with the comparison as
    a parameter, and their correctness for any comparison that orders the
    elements at hand by a numeric key. *)

From S2P Require Import Prelude.
From Stdlib Require Import ZifyNat.
#[local] Open Scope nat_scope.
#[local] Ltac Zify.zify_post_hook ::= Z.to_euclidean_division_equations.

Section heap.
Context {A : Type} (less : A -> A -> bool).
Implicit Types (l : list A) (i j k n fuel : nat).

Definition swap (i j : nat) (l : list A) : list A :=
  match l !! i, l !! j with
  | Some a, Some b => <[j := a]> (<[i := b]> l)
  | _, _ => l
  end.

Definition less_at (l : list A) (i j : nat) : bool :=
  match l !! i, l !! j with Some a, Some b => less a b | _, _ => false end.

Fixpoint up (fuel : nat) (l : list A) (j : nat) : list A :=
  match fuel with
  | O => l
  | S fuel =>
    let i := (j - 1) / 2 in
    if (i =? j) || negb (less_at l j i) then l else up fuel (swap i j l) i
  end.

Fixpoint down (fuel : nat) (l : list A) (i n : nat) : list A :=
  match fuel with
  | O => l
  | S fuel =>
    let j1 := 2 * i + 1 in
    if n <=? j1 then l else
    let j := if (j1 + 1 <? n) && less_at l (j1 + 1) j1 then j1 + 1 else j1 in
    if negb (less_at l j i) then l else down fuel (swap i j l) j n
  end.

Definition heap_push (x : A) (l : list A) : list A := up (S (length l)) (l ++ [x]) (length l).

Definition heap_pop (l : list A) : option (A * list A) :=
  match length l with
  | O => None
  | S n =>
    let l := down (S n) (swap 0 n l) 0 n in
    x ← l !! n; Some (x, take n l)
  end.

(** ** Permutations *)

#[local] Arguments Nat.div : simpl never.

Lemma swap_perm i j l : swap i j l ≡ₚ l.
Proof.
  unfold swap. destruct (l !! i) as [a|] eqn:Hi; [|done]. destruct (l !! j) as [b|] eqn:Hj; [|done].
  by apply Permutation_insert_swap.
Qed.

Lemma up_perm fuel l j : up fuel l j ≡ₚ l.
Proof.
  revert l j. induction fuel as [|fuel IH]; intros l j; cbn; [done|].
  destruct (_ || _); [done|]. by rewrite IH, swap_perm.
Qed.

Lemma down_perm fuel l i n : down fuel l i n ≡ₚ l.
Proof.
  revert l i. induction fuel as [|fuel IH]; intros l i; cbn -[Nat.leb Nat.mul Nat.ltb]; [done|].
  destruct (n <=? _); [done|]. destruct (negb _); [done|]. by rewrite IH, swap_perm.
Qed.

Lemma heap_push_perm x l : heap_push x l ≡ₚ x :: l.
Proof. unfold heap_push. rewrite up_perm. by rewrite Permutation_app_comm. Qed.

Lemma swap_length i j l : length (swap i j l) = length l.
Proof. by rewrite swap_perm. Qed.

Lemma heap_pop_perm l x l' : heap_pop l = Some (x, l') -> l ≡ₚ x :: l'.
Proof.
  unfold heap_pop. destruct (length l) as [|n] eqn:El; [done|]. cbv zeta.
  assert (Hp : down (S n) (swap 0 n l) 0 n ≡ₚ l) by (by rewrite down_perm, swap_perm).
  revert Hp. generalize (down (S n) (swap 0 n l) 0 n). intros l1 Hp Hx.
  destruct (l1 !! n) as [y|] eqn:Hn; cbn in Hx; [|done]. injection Hx as <- <-.
  assert (Hl1 : length l1 = S n) by (by rewrite Hp). rewrite <- Hp.
  rewrite <- (take_drop n l1) at 1. rewrite (drop_S _ _ _ Hn), (drop_ge l1 (S n)) by lia.
  by rewrite Permutation_app_comm.
Qed.

Lemma swap_lookup i j l k : i < length l -> j < length l ->
  swap i j l !! k = if decide (k = i) then l !! j else if decide (k = j) then l !! i else l !! k.
Proof.
  intros Hi Hj. unfold swap. apply lookup_lt_is_Some_2 in Hi as [a Ha], Hj as [b Hb].
  rewrite Ha, Hb, !list_lookup_insert, length_insert.
  pose proof (lookup_lt_Some _ _ _ Ha). pose proof (lookup_lt_Some _ _ _ Hb).
  repeat case_decide; naive_solver.
Qed.

(** Moving down within the first [n] elements leaves the others alone. *)
Lemma down_lookup_ge fuel l i n k : i < n -> n <= length l -> n <= k -> down fuel l i n !! k = l !! k.
Proof.
  revert l i. induction fuel as [|fuel IH]; intros l i Hi Hn Hk; [done|].
  cbn -[Nat.leb Nat.mul Nat.ltb]. destruct (Nat.leb_spec n (2 * i + 1)); [done|].
  set (j := if (_ && _) then _ else _).
  assert (Hj : j < n).
  { subst j. destruct (Nat.ltb_spec (2 * i + 1 + 1) n); cbn [andb]; [destruct (less_at _ _ _)|]; lia. }
  destruct (negb _); [done|]. rewrite IH; [|lia|rewrite swap_length; lia|done].
  rewrite swap_lookup by lia. rewrite !decide_False by lia. done.
Qed.

(** ** Order *)

Section order.
Context (key : A -> Z).

(** The comparison orders the elements of [l] by their key. *)
Definition ordered_by (l : list A) : Prop :=
  forall a b, a ∈ l -> b ∈ l -> less a b = (key a <? key b)%Z.

Lemma ordered_by_perm l l' : l ≡ₚ l' -> ordered_by l -> ordered_by l'.
Proof. intros Hp Ho a b Ha Hb. rewrite <- Hp in Ha, Hb. by apply Ho. Qed.

Definition kat (l : list A) (i : nat) : Z := match l !! i with Some a => key a | None => 0%Z end.

Definition is_heap (n : nat) (l : list A) : Prop :=
  forall i, 0 < i < n -> (kat l ((i - 1) / 2) <= kat l i)%Z.

Lemma less_at_kat l i j : ordered_by l -> i < length l -> j < length l ->
  less_at l i j = (kat l i <? kat l j)%Z.
Proof.
  intros Ho Hi Hj. unfold less_at, kat. apply lookup_lt_is_Some_2 in Hi as [a Ha], Hj as [b Hb].
  rewrite Ha, Hb. apply Ho; by eapply list_elem_of_lookup_2.
Qed.

Lemma kat_swap l i j k : i < length l -> j < length l ->
  kat (swap i j l) k = if decide (k = i) then kat l j else if decide (k = j) then kat l i else kat l k.
Proof. intros Hi Hj. unfold kat. rewrite swap_lookup by done. by repeat case_decide. Qed.

Lemma up_heap fuel l j : ordered_by l -> j < length l -> j < fuel ->
  (forall i, 0 < i < length l -> i <> j -> (kat l ((i - 1) / 2) <= kat l i)%Z) ->
  (forall i, 0 < i < length l -> (i - 1) / 2 = j -> 0 < j -> (kat l ((j - 1) / 2) <= kat l i)%Z) ->
  is_heap (length l) (up fuel l j).
Proof.
  revert l j. induction fuel as [|fuel IH]; intros l j Ho Hj Hf H1 H2; [lia|]. cbn.
  set (i := (j - 1) / 2). assert (Hij : i <= j /\ (0 < j -> i < j)) by (subst i; lia).
  destruct (Nat.eqb_spec i j) as [E|E]; cbn [orb].
  { intros k Hk. apply H1; lia. }
  rewrite less_at_kat by (done || lia). destruct (Z.ltb_spec (kat l j) (kat l i)); cbn [negb].
  2:{ intros k Hk. destruct (decide (k = j)) as [->|]; [done|by apply H1]. }
  rewrite <- (swap_length i j l). apply IH.
  - by eapply ordered_by_perm; [symmetry; apply swap_perm|].
  - rewrite swap_length. lia.
  - lia.
  - intros k Hk Hki. rewrite swap_length in Hk. rewrite !kat_swap by lia.
    pose proof (H1 k Hk) as P1. pose proof (H2 k Hk) as P2. fold i in P2.
    set (pk := (k - 1) / 2) in *. assert (Hpk : pk < k) by (subst pk; lia).
    assert (Hjk : k = j -> pk = i) by (intros ->; done). clearbody pk i.
    repeat case_decide; subst; try lia; apply P1; lia.
  - intros k Hk Hpk Hi. rewrite swap_length in Hk. rewrite !kat_swap by lia.
    pose proof (H1 i ltac:(lia) E) as P1. pose proof (H1 k Hk) as P2. rewrite Hpk in P2.
    set (pi := (i - 1) / 2) in *. assert (Hpi : pi < i) by (subst pi; lia). clearbody pi i.
    repeat case_decide; subst; try lia.
Qed.

Lemma down_heap fuel l i n : ordered_by l -> n <= length l -> i < n -> n <= fuel + i ->
  (forall k, 0 < k < n -> (k - 1) / 2 <> i -> (kat l ((k - 1) / 2) <= kat l k)%Z) ->
  (forall k, 0 < k < n -> (k - 1) / 2 = i -> 0 < i -> (kat l ((i - 1) / 2) <= kat l k)%Z) ->
  is_heap n (down fuel l i n).
Proof.
  revert l i. induction fuel as [|fuel IH]; intros l i Ho Hn Hi Hf H1 H2; [lia|].
  cbn -[Nat.leb Nat.mul Nat.ltb]. destruct (Nat.leb_spec n (2 * i + 1)) as [Hj1|Hj1].
  { intros k Hk. apply H1; [done|]. lia. }
  set (j := if (_ && _) then _ else _).
  assert (Hj : (j = 2 * i + 1 \/ j = 2 * i + 2) /\ j < n /\
    (forall k, 0 < k < n -> (k - 1) / 2 = i -> (kat l j <= kat l k)%Z)).
  { assert (Hc : forall k, 0 < k < n -> (k - 1) / 2 = i -> k = 2 * i + 1 \/ k = 2 * i + 1 + 1)
      by (intros; lia).
    subst j. destruct (Nat.ltb_spec (2 * i + 1 + 1) n); cbn [andb].
    - rewrite less_at_kat by (done || lia).
      destruct (Z.ltb_spec (kat l (2 * i + 1 + 1)) (kat l (2 * i + 1))); (split; [lia|]);
        (split; [lia|]); intros k Hk Hpk; destruct (Hc k Hk Hpk) as [->| ->]; lia.
    - split; [lia|]. split; [lia|]. intros k Hk Hpk. destruct (Hc k Hk Hpk) as [->| ->]; lia. }
  clearbody j. destruct Hj as (Hcj & Hjn & Hmin).
  rewrite less_at_kat by (done || lia). destruct (Z.ltb_spec (kat l j) (kat l i)); cbn [negb].
  2:{ intros k Hk. destruct (decide ((k - 1) / 2 = i)) as [E|E]; [|by apply H1].
      specialize (Hmin k Hk E). rewrite E. lia. }
  assert (Hpj : (j - 1) / 2 = i) by lia.
  apply IH.
  - by eapply ordered_by_perm; [symmetry; apply swap_perm|].
  - by rewrite swap_length.
  - done.
  - lia.
  - intros k Hk Hpk. rewrite !kat_swap by lia. pose proof (H1 k Hk) as P1.
    pose proof (H2 k Hk) as P2. pose proof (Hmin k Hk) as P3.
    pose proof (fun E : k = i => H1 k Hk ltac:(lia)) as P4.
    set (pk := (k - 1) / 2) in *. assert (Hlt : pk < k) by (subst pk; lia).
    assert (Hki : k = i -> 0 < i /\ (kat l pk <= kat l j)%Z).
    { intros ->. split; [lia|]. subst pk. apply H2; [lia|done|lia]. }
    assert (Hkj : k = j -> pk = i) by (by intros ->). clearbody pk.
    repeat case_decide; subst; try lia; try (apply P1; lia); try (apply Hki; lia).
    all: try (assert (kat l j <= kat l k)%Z by (apply P3; lia); lia).
  - intros k Hk Hpk Hj0. rewrite Hpj, !kat_swap by lia.
    pose proof (H1 k Hk ltac:(lia)) as P1. rewrite Hpk in P1.
    repeat case_decide; subst; lia.
Qed.

Lemma heap_push_heap x l : ordered_by (l ++ [x]) -> is_heap (length l) l ->
  is_heap (length (heap_push x l)) (heap_push x l).
Proof.
  intros Ho Hh. assert (Hl : length (heap_push x l) = length (l ++ [x])).
  { unfold heap_push. by rewrite up_perm. }
  rewrite Hl. unfold heap_push.
  assert (Hk : forall k, k < length l -> kat (l ++ [x]) k = kat l k).
  { intros k Hk. unfold kat. by rewrite lookup_app_l. }
  rewrite length_app in *. cbn [length] in *.
  replace (length l + 1) with (length (l ++ [x])) by (rewrite length_app; done).
  apply up_heap; rewrite ?length_app; cbn [length]; try done; try lia.
  intros i Hi Hne. rewrite !Hk by lia. apply Hh. lia.
Qed.

Lemma heap_root l i : is_heap (length l) l -> i < length l -> (kat l 0 <= kat l i)%Z.
Proof.
  intros Hh. induction i as [i IH] using (well_founded_induction lt_wf). intros Hi.
  destruct (decide (i = 0)) as [->|]; [lia|].
  pose proof (Hh i ltac:(lia)). pose proof (IH ((i - 1) / 2) ltac:(lia) ltac:(lia)). lia.
Qed.

(** Popping takes an element of the least key off the heap. *)
Lemma heap_pop_spec l : ordered_by l -> is_heap (length l) l -> l <> [] ->
  exists x l', heap_pop l = Some (x, l') /\ l ≡ₚ x :: l' /\ is_heap (length l') l' /\
    l !! 0 = Some x /\ (forall y, y ∈ l -> (key x <= key y)%Z).
Proof.
  intros Ho Hh Hne. unfold heap_pop. destruct (length l) as [|n] eqn:El.
  { by apply length_zero_iff_nil in El. }
  set (l1 := down (S n) (swap 0 n l) 0 n).
  assert (Hp : l1 ≡ₚ l) by (subst l1; by rewrite down_perm, swap_perm).
  assert (Hn : l1 !! n = l !! 0).
  { subst l1. destruct (decide (n = 0)) as [->|].
    - cbn -[swap]. by rewrite swap_lookup by lia.
    - rewrite down_lookup_ge; [|lia|rewrite swap_length; lia|done].
      rewrite swap_lookup by lia. by rewrite decide_False, decide_True by lia. }
  destruct (l !! 0) as [x|] eqn:Hx; [|apply lookup_ge_None in Hx; lia].
  rewrite Hn. cbn. exists x, (take n l1).
  assert (Hlen : length l1 = S n) by (by rewrite Hp).
  assert (Htk : l1 = take n l1 ++ [x]).
  { rewrite <- (take_drop n l1) at 1. f_equal. apply drop_S in Hn. rewrite Hn.
    f_equal. apply drop_ge. lia. }
  split; [done|]. split; [|split; [|split; [done|]]].
  - rewrite <- Hp, Htk at 1. by rewrite Permutation_app_comm.
  - rewrite length_take, Hlen. replace (n `min` S n) with n by lia.
    intros k Hk. assert (Hheap : is_heap n l1).
    { subst l1. apply down_heap.
      - by eapply ordered_by_perm; [symmetry; apply swap_perm|].
      - rewrite swap_length. lia.
      - lia.
      - lia.
      - intros i Hi Hpi. rewrite !kat_swap by lia. rewrite !decide_False by lia. apply Hh. lia.
      - intros. lia. }
    specialize (Hheap k Hk). unfold kat in *. by rewrite !lookup_take_lt by lia.
  - intros y Hy. apply list_elem_of_lookup_1 in Hy as [i Hi].
    pose proof (heap_root l i) as Hr. rewrite El in Hr. unfold kat in Hr.
    rewrite Hx, Hi in Hr. apply Hr; [done|]. apply lookup_lt_Some in Hi. lia.
Qed.

Lemma heap_pop_None l : heap_pop l = None <-> l = [].
Proof.
  split; [|by intros ->]. unfold heap_pop. destruct (length l) as [|n] eqn:El.
  { intros _. by apply length_zero_iff_nil. }
  destruct (down _ _ _ _ !! n) eqn:E; [done|]. apply lookup_ge_None in E.
  rewrite down_perm, swap_perm in E. lia.
Qed.
End order.
End heap.
