(* ===== verification/JitterBuffer.v ===== *)
(** * The jitter buffer

    [src/pkg/media/jitter_buffer.go]: packets in a binary heap ordered by 16-bit
    sequence number with wraparound.  The comparison orders any set of packets
    whose numbers lie within half the number space of each other, which is what
    [in_window] states; the theorems hold across a wrap.  The [index] field of a
    packet, which only records its heap position, is left out, as are the fields
    nothing reads. *)

From S2P Require Import Prelude RtpStats Heap.
#[local] Open Scope Z_scope.

Record BufferedPacket := mkBufferedPacket {
  bk_Packet : RtpPacket;
  bk_Arrival : Z;
  bk_PCMData : list Z
}.

Definition bk_Seq (p : BufferedPacket) : Z := pk_SequenceNumber (bk_Packet p).

(** [plcCallback] is set or not; its calls are results of [Pop]. *)
Record JitterBuffer := mkJitterBuffer {
  jb_packets : list BufferedPacket;
  jb_maxSize : Z;
  jb_maxDelay : Z;
  jb_lastEmitted : Z;
  jb_hasEmitted : bool;
  jb_plcCallback : bool
}.

(** [Less]: [int16(seqI - seqJ) < 0]. *)
Definition packet_less (a b : BufferedPacket) : bool := i16 (u16 (bk_Seq a - bk_Seq b)) <? 0.

Definition milliseconds (n : Z) : Z := n * 1000000.

Definition NewJitterBuffer (maxSize maxDelay : Z) : JitterBuffer :=
  mkJitterBuffer [] (if maxSize <=? 0 then 5 else maxSize)
    (if maxDelay <=? 0 then milliseconds 60 else maxDelay) 0 false false.

Definition SetPLCCallback (jb : JitterBuffer) : JitterBuffer := jb <| jb_plcCallback := true |>.

Definition emitOldest (jb : JitterBuffer) : option BufferedPacket * JitterBuffer :=
  match heap_pop packet_less (jb_packets jb) with
  | None => (None, jb)
  | Some (p, l) =>
    (Some p, jb <| jb_packets := l |> <| jb_lastEmitted := bk_Seq p |> <| jb_hasEmitted := true |>)
  end.

(** The packet [emitOldest] takes off a full buffer is not kept anywhere. *)
Definition Push (p : BufferedPacket) (jb : JitterBuffer) : JitterBuffer :=
  if existsb (fun q => bk_Seq q =? bk_Seq p) (jb_packets jb) then jb else
  let jb := jb <| jb_packets := heap_push packet_less p (jb_packets jb) |> in
  if jb_maxSize jb <? Z.of_nat (length (jb_packets jb)) then (emitOldest jb).2 else jb.

(** The number of lost packets reported before an overdue packet. *)
Definition plc_lost (expectedSeq oldestSeq : Z) : Z :=
  if expectedSeq <? oldestSeq then
    let lost := u16 (oldestSeq - expectedSeq) in if 10 <? lost then 10 else lost
  else 0.

(** The packet, the argument of the callback if it is called, and the buffer. *)
Definition Pop (now : Z) (jb : JitterBuffer) : option BufferedPacket * option Z * JitterBuffer :=
  match jb_packets jb with
  | [] => (None, None, jb)
  | oldest :: _ =>
    let expectedSeq := u16 (jb_lastEmitted jb + 1) in
    if negb (jb_hasEmitted jb) || (bk_Seq oldest =? expectedSeq) then
      let '(p, jb) := emitOldest jb in (p, None, jb)
    else if jb_maxDelay jb <=? now - bk_Arrival oldest then
      let lost := plc_lost expectedSeq (bk_Seq oldest) in
      let plc := if jb_plcCallback jb && (0 <? lost) then Some lost else None in
      let '(p, jb) := emitOldest jb in (p, plc, jb)
    else (None, None, jb)
  end.

Fixpoint flush_loop (fuel : nat) (l : list BufferedPacket) : list BufferedPacket :=
  match fuel with
  | O => []
  | S fuel =>
    match heap_pop packet_less l with
    | None => []
    | Some (p, l) => p :: flush_loop fuel l
    end
  end.

(** Popping [length] times empties the heap. *)
Definition Flush (jb : JitterBuffer) : list BufferedPacket * JitterBuffer :=
  (flush_loop (length (jb_packets jb)) (jb_packets jb), jb <| jb_packets := [] |>).

Definition Len (jb : JitterBuffer) : Z := Z.of_nat (length (jb_packets jb)).

Definition Clear (jb : JitterBuffer) : JitterBuffer :=
  jb <| jb_packets := [] |> <| jb_hasEmitted := false |>.

(** ** Serial numbers *)

(** How far a sequence number is ahead of [base], modulo the number space. *)
Definition ahead (base seq : Z) : Z := u16 (seq - base).

Definition in_window (base : Z) (p : BufferedPacket) : Prop := ahead base (bk_Seq p) < 2 ^ 15.

Lemma packet_less_window base a b : in_window base a -> in_window base b ->
  packet_less a b = (ahead base (bk_Seq a) <? ahead base (bk_Seq b)).
Proof.
  unfold in_window, packet_less, ahead, i16, u16, wrap_s, wrap_u. intros Ha Hb.
  set (x := bk_Seq a) in *. set (y := bk_Seq b) in *.
  pose proof (Z.mod_pos_bound (x - base) (2 ^ 16) ltac:(lia)).
  pose proof (Z.mod_pos_bound (y - base) (2 ^ 16) ltac:(lia)).
  set (ka := (x - base) mod 2 ^ 16) in *. set (kb := (y - base) mod 2 ^ 16) in *.
  assert (E : ((x - y) mod 2 ^ 16 + 2 ^ (16 - 1)) mod 2 ^ 16 = ka - kb + 2 ^ 15).
  { rewrite Zplus_mod_idemp_l. symmetry.
    apply (Z.mod_unique _ _ ((x - base) / 2 ^ 16 - (y - base) / 2 ^ 16)); [left; lia|].
    pose proof (Z.div_mod (x - base) (2 ^ 16) ltac:(lia)).
    pose proof (Z.div_mod (y - base) (2 ^ 16) ltac:(lia)).
    fold ka in H1. fold kb in H2. change (16 - 1) with 15. lia. }
  rewrite E. change (16 - 1) with 15. apply eq_iff_eq_true. rewrite !Z.ltb_lt. lia.
Qed.

Definition serial_key (base : Z) (p : BufferedPacket) : Z := ahead base (bk_Seq p).

Lemma window_ordered base l : Forall (in_window base) l -> ordered_by packet_less (serial_key base) l.
Proof.
  rewrite Forall_forall. intros Hw a b Ha Hb. apply packet_less_window; by apply Hw.
Qed.

Record jitter_inv (base : Z) (jb : JitterBuffer) : Prop := {
  ji_heap : is_heap (serial_key base) (length (jb_packets jb)) (jb_packets jb);
  ji_window : Forall (in_window base) (jb_packets jb);
  ji_distinct : NoDup (map bk_Seq (jb_packets jb));
  ji_size : Len jb <= jb_maxSize jb;
  ji_max : 0 < jb_maxSize jb
}.

Lemma pop_packets base l : is_heap (serial_key base) (length l) l -> Forall (in_window base) l -> l <> [] ->
  exists p l', heap_pop packet_less l = Some (p, l') /\ l ≡ₚ p :: l' /\
    is_heap (serial_key base) (length l') l' /\ l !! 0%nat = Some p /\
    Forall (fun q => ahead base (bk_Seq p) <= ahead base (bk_Seq q)) l.
Proof.
  intros Hh Hw Hne. destruct (heap_pop_spec packet_less (serial_key base) l) as (p & l' & H1 & H2 & H3 & H4 & H5);
    [by apply window_ordered|done..|].
  exists p, l'. repeat split; try done. by apply Forall_forall.
Qed.

(** What holds of every packet pushed holds of every packet kept or popped. *)
Lemma emit_Forall (P : BufferedPacket -> Prop) jb :
  Forall P (jb_packets jb) -> Forall P (jb_packets (emitOldest jb).2) /\ forall p, (emitOldest jb).1 = Some p -> P p.
Proof.
  unfold emitOldest. destruct (heap_pop _ _) as [[p l]|] eqn:E; [|done].
  apply heap_pop_perm in E. rewrite E, Forall_cons. intros [Hp Hl]. split; [by destruct jb|].
  by intros ? [= <-].
Qed.

Lemma push_Forall (P : BufferedPacket -> Prop) p jb :
  P p -> Forall P (jb_packets jb) -> Forall P (jb_packets (Push p jb)).
Proof.
  intros Hp Hl. unfold Push. destruct (existsb _ _); [done|]. cbv zeta.
  assert (Hh : Forall P (jb_packets (jb <| jb_packets := heap_push packet_less p (jb_packets jb) |>))).
  { destruct jb as [pk]. change (Forall P (heap_push packet_less p pk)). rewrite heap_push_perm. by constructor. }
  destruct (_ <? _); [by apply emit_Forall|done].
Qed.

Lemma pop_Forall (P : BufferedPacket -> Prop) now jb :
  Forall P (jb_packets jb) -> Forall P (jb_packets (Pop now jb).2) /\ forall p, (Pop now jb).1.1 = Some p -> P p.
Proof.
  intros Hl. destruct (emit_Forall P jb Hl) as [H1 H2]. unfold Pop.
  destruct (jb_packets jb) eqn:E; [cbn; by rewrite E|].
  destruct (emitOldest jb). case_tests; cbn in *; by rewrite ?E.
Qed.

Lemma existsb_seq p l : existsb (fun q => bk_Seq q =? bk_Seq p) l = true <-> bk_Seq p ∈ map bk_Seq l.
Proof.
  rewrite existsb_exists, list_elem_of_fmap. setoid_rewrite Z.eqb_eq. setoid_rewrite <- list_elem_of_In.
  naive_solver.
Qed.

Lemma emit_oldest_spec base jb :
  is_heap (serial_key base) (length (jb_packets jb)) (jb_packets jb) ->
  Forall (in_window base) (jb_packets jb) -> jb_packets jb <> [] ->
  exists p l', emitOldest jb = (Some p, jb <| jb_packets := l' |> <| jb_lastEmitted := bk_Seq p |>
                                           <| jb_hasEmitted := true |>) /\
    jb_packets jb ≡ₚ p :: l' /\ is_heap (serial_key base) (length l') l' /\
    jb_packets jb !! 0%nat = Some p /\
    Forall (fun q => ahead base (bk_Seq p) <= ahead base (bk_Seq q)) (jb_packets jb).
Proof.
  intros Hh Hw Hne. destruct (pop_packets base (jb_packets jb)) as (p & l' & Hp & Hrest); [done..|].
  exists p, l'. unfold emitOldest. by rewrite Hp.
Qed.

(** What a push does to the packets, by cases. *)
Lemma push_cases base p jb : jitter_inv base jb -> in_window base p ->
  (bk_Seq p ∈ map bk_Seq (jb_packets jb) /\ Push p jb = jb) \/
  ((bk_Seq p ∉ map bk_Seq (jb_packets jb)) /\
   exists l, l ≡ₚ p :: jb_packets jb /\ is_heap (serial_key base) (length l) l /\
     ((Len jb < jb_maxSize jb /\ Push p jb = jb <| jb_packets := l |>) \/
      (Len jb = jb_maxSize jb /\ exists oldest l', l ≡ₚ oldest :: l' /\
         is_heap (serial_key base) (length l') l' /\
         Forall (fun q => ahead base (bk_Seq oldest) <= ahead base (bk_Seq q)) l /\
         Push p jb = jb <| jb_packets := l' |> <| jb_lastEmitted := bk_Seq oldest |>
                        <| jb_hasEmitted := true |>))).
Proof.
  intros [Hh Hw Hd Hs Hm] Hp. unfold Push. destruct (existsb _ _) eqn:E.
  { left. by rewrite existsb_seq in E. }
  right. rewrite <- not_true_iff_false, existsb_seq in E. split; [done|].
  pose proof (heap_push_perm packet_less p (jb_packets jb)) as Hperm.
  assert (Hw' : Forall (in_window base) (jb_packets jb ++ [p])).
  { apply Forall_app. split; [done|]. by constructor. }
  pose proof (heap_push_heap packet_less (serial_key base) p (jb_packets jb)
    (window_ordered base _ Hw') Hh) as Hheap.
  set (l := heap_push packet_less p (jb_packets jb)) in *. clearbody l.
  assert (Hlen : Z.of_nat (length l) = Len jb + 1).
  { unfold Len. rewrite Hperm. cbn. lia. }
  exists l. split; [done|]. split; [done|].
  assert (Hf : jb_maxSize (jb <| jb_packets := l |>) = jb_maxSize jb /\
               jb_packets (jb <| jb_packets := l |>) = l) by (by destruct jb).
  destruct Hf as [-> Hpk]. rewrite Hpk. destruct (Z.ltb_spec (jb_maxSize jb) (Z.of_nat (length l))).
  - right. split; [lia|]. destruct (emit_oldest_spec base (jb <| jb_packets := l |>)) as
      (o & l' & Hemit & Hp1 & Hh1 & _ & Hmin); rewrite ?Hpk in *; [done|..].
    + rewrite Hperm. by constructor.
    + intros ->. by apply Permutation_nil_cons in Hperm.
    + exists o, l'. rewrite Hemit. do 3 (split; [done|]). by destruct jb.
  - left. split; [lia|done].
Qed.

Lemma jitter_inv_of base jb l last em : jitter_inv base jb -> 
  is_heap (serial_key base) (length l) l -> Forall (in_window base) l -> NoDup (map bk_Seq l) ->
  Z.of_nat (length l) <= jb_maxSize jb ->
  jitter_inv base (jb <| jb_packets := l |> <| jb_lastEmitted := last |> <| jb_hasEmitted := em |>).
Proof. intros [] Hh Hw Hd Hl. destruct jb; constructor; cbn in *; try done. Qed.

Lemma push_inv base p jb : jitter_inv base jb -> in_window base p -> jitter_inv base (Push p jb).
Proof.
  intros Hi Hp. destruct (push_cases base p jb Hi Hp) as [[_ ->]|(Hnew & l & Hl & Hh & Hc)]; [done|].
  assert (Hw : Forall (in_window base) l) by (rewrite Hl; constructor; [done|apply Hi]).
  assert (Hd : NoDup (map bk_Seq l)).
  { rewrite Hl. cbn. constructor; [done|apply Hi]. }
  assert (Hlen : Z.of_nat (length l) = Len jb + 1) by (rewrite Hl; unfold Len; cbn; lia).
  destruct Hc as [[Hlt ->]|[Heq (o & l' & Hl' & Hh' & _ & ->)]].
  - replace (jb <| jb_packets := l |>) with (jb <| jb_packets := l |>
      <| jb_lastEmitted := jb_lastEmitted jb |> <| jb_hasEmitted := jb_hasEmitted jb |>) by (by destruct jb).
    apply jitter_inv_of; try done. lia.
  - rewrite Hl' in Hw, Hd, Hlen. apply Forall_cons in Hw as [_ Hw]. apply NoDup_cons in Hd as [_ Hd].
    apply jitter_inv_of; try done. cbn in Hlen. lia.
Qed.

Lemma flush_loop_spec base l : is_heap (serial_key base) (length l) l -> Forall (in_window base) l ->
  flush_loop (length l) l ≡ₚ l /\
  StronglySorted (fun a b => ahead base (bk_Seq a) <= ahead base (bk_Seq b)) (flush_loop (length l) l).
Proof.
  remember (length l) as n eqn:Hn. revert l Hn. induction n as [|n IH]; intros l Hn Hh Hw.
  { symmetry in Hn. apply length_zero_iff_nil in Hn as ->. split; [done|constructor]. }
  assert (Hne : l <> []) by (by intros ->). rewrite Hn in Hh.
  destruct (pop_packets base l Hh Hw Hne) as (p & l' & Hp & Hperm & Hh' & _ & Hmin).
  cbn. rewrite Hp. assert (Hl' : length l' = n) by (apply Permutation_length in Hperm; cbn in *; lia).
  rewrite Hperm in Hw, Hmin. apply Forall_cons in Hw as [_ Hw], Hmin as [_ Hmin].
  destruct (IH l') as [IH1 IH2]; [done|by rewrite <- Hl'|done|].
  split; [by rewrite IH1, Hperm|]. constructor; [done|]. by rewrite IH1.
Qed.

(** ** Properties *)

(** Pushing keeps the buffer well formed (a heap in serial order, distinct
    sequence numbers, at most [maxSize] packets), also across a wrap of the
    sequence numbers; a duplicate changes nothing, and below capacity the packet
    is added and none is lost. *)
Theorem jitter_push_correct (base : Z) (p : BufferedPacket) (jb : JitterBuffer) :
  jitter_inv base jb -> in_window base p ->
  jitter_inv base (Push p jb) /\
  (bk_Seq p ∈ map bk_Seq (jb_packets jb) -> Push p jb = jb) /\
  (bk_Seq p ∉ map bk_Seq (jb_packets jb) -> Len jb < jb_maxSize jb ->
     jb_packets (Push p jb) ≡ₚ p :: jb_packets jb /\
     jb_lastEmitted (Push p jb) = jb_lastEmitted jb /\ jb_hasEmitted (Push p jb) = jb_hasEmitted jb).
Proof.
  intros Hi Hp. split; [by apply push_inv|].
  destruct (push_cases base p jb Hi Hp) as [[Hin ->]|(Hnew & l & Hl & _ & Hc)]; [done|].
  split; [done|]. intros _ Hlt. destruct Hc as [[_ ->]|[Heq _]]; [|lia]. by destruct jb.
Qed.

(** C33: [Pop] returns the packet that is first in serial order, removes exactly
    it and remembers its number; it waits only when the buffer is empty, or when
    the next expected number is missing and the first packet has not been
    waiting for the maximal delay. *)
Theorem jitter_pop_in_order (base now : Z) (jb : JitterBuffer) :
  jitter_inv base jb ->
  let '(r, plc, jb') := Pop now jb in
  jitter_inv base jb' /\
  match r with
  | Some p =>
    jb_packets jb ≡ₚ p :: jb_packets jb' /\
    Forall (fun q => ahead base (bk_Seq p) <= ahead base (bk_Seq q)) (jb_packets jb) /\
    jb_lastEmitted jb' = bk_Seq p /\ jb_hasEmitted jb' = true
  | None =>
    jb' = jb /\ plc = None /\
    (jb_packets jb = [] \/
     jb_hasEmitted jb = true /\ exists q, jb_packets jb !! 0%nat = Some q /\
       bk_Seq q <> u16 (jb_lastEmitted jb + 1) /\ now - bk_Arrival q < jb_maxDelay jb)
  end.
Proof.
  intros Hi. unfold Pop. destruct (jb_packets jb) as [|q l] eqn:Epk.
  { split; [done|]. split; [done|]. split; [done|]. by left. }
  assert (Hemit : exists p l', emitOldest jb = (Some p, jb <| jb_packets := l' |>
      <| jb_lastEmitted := bk_Seq p |> <| jb_hasEmitted := true |>) /\
      jitter_inv base (jb <| jb_packets := l' |> <| jb_lastEmitted := bk_Seq p |> <| jb_hasEmitted := true |>) /\
      q :: l ≡ₚ p :: l' /\
      Forall (fun q => ahead base (bk_Seq p) <= ahead base (bk_Seq q)) (q :: l)).
  { pose proof Hi as [Hh Hw Hd Hs Hm].
    destruct (emit_oldest_spec base jb) as (p & l' & He & Hp & Hh' & _ & Hmin); [done|done|by rewrite Epk|].
    exists p, l'. split; [done|]. rewrite Epk in *. split; [|done].
    unfold Len in Hs. rewrite Epk in Hs. rewrite Hp in Hw, Hd, Hs. apply Forall_cons in Hw as [_ Hw].
    apply NoDup_cons in Hd as [_ Hd]. apply jitter_inv_of; try done. cbn in Hs. lia. }
  destruct Hemit as (p & l' & He & Hinv & Hp & Hmin).
  assert (Hout : forall plc : option Z, let '(r, _, jb') := let '(p, jb) := emitOldest jb in (p, plc, jb) in
    jitter_inv base jb' /\ match r with
    | Some p => q :: l ≡ₚ p :: jb_packets jb' /\
        Forall (fun q => ahead base (bk_Seq p) <= ahead base (bk_Seq q)) (q :: l) /\
        jb_lastEmitted jb' = bk_Seq p /\ jb_hasEmitted jb' = true
    | None => False end).
  { intros plc. rewrite He. split; [done|]. by destruct jb. }
  destruct (negb _ || _) eqn:E1.
  { specialize (Hout None). destruct (emitOldest jb) as [[]]; [done|by destruct Hout]. }
  destruct (_ <=? _) eqn:E2.
  { match goal with |- context [if ?b then Some ?x else None] => specialize (Hout (if b then Some x else None)) end.
    destruct (emitOldest jb) as [[]]; [done|by destruct Hout]. }
  bool_to_prop. split; [done|]. split; [done|]. split; [done|]. right. split; [done|].
  by exists q.
Qed.

(** Flushing returns every buffered packet exactly once, in serial order,
    and empties the buffer. *)
Theorem jitter_flush_sorted (base : Z) (jb : JitterBuffer) :
  jitter_inv base jb ->
  let '(out, jb') := Flush jb in
  out ≡ₚ jb_packets jb /\
  StronglySorted (fun a b => ahead base (bk_Seq a) <= ahead base (bk_Seq b)) out /\ Len jb' = 0.
Proof.
  intros [Hh Hw _ _ _]. cbn. destruct (flush_loop_spec base (jb_packets jb) Hh Hw) as [H1 H2].
  split; [done|]. split; [done|]. by destruct jb.
Qed.

(** Packets around the wrap of the sequence numbers. *)
Definition sample_packet (seq : Z) : BufferedPacket := mkBufferedPacket (mkRtpPacket seq 0 0 0 []) 0 [].

Definition sample_jitter : JitterBuffer :=
  Push (sample_packet 65534) (Push (sample_packet 1) (Push (sample_packet 65535) (NewJitterBuffer 3 0))).

Lemma new_jitter_inv base maxSize maxDelay : jitter_inv base (NewJitterBuffer maxSize maxDelay).
Proof.
  constructor; cbn -[Z.leb].
  - intros i Hi. cbn in Hi. lia.
  - constructor.
  - constructor.
  - unfold Len. cbn -[Z.leb]. destruct (Z.leb_spec maxSize 0); lia.
  - destruct (Z.leb_spec maxSize 0); lia.
Qed.

Lemma sample_jitter_inv : jitter_inv 65500 sample_jitter.
Proof. repeat apply push_inv; try reflexivity. apply new_jitter_inv. Qed.

Lemma jitter_push_correct_witness :
  jitter_inv 65500 (Push (sample_packet 0) sample_jitter) /\
  map bk_Seq (jb_packets (Push (sample_packet 0) sample_jitter)) = [65535; 0; 1].
Proof.
  split; [|vm_compute; reflexivity].
  apply (jitter_push_correct 65500 (sample_packet 0) sample_jitter); [apply sample_jitter_inv|reflexivity].
Defined.

Lemma jitter_pop_in_order_witness :
  exists jb', Pop 0 sample_jitter = (Some (sample_packet 65534), None, jb') /\ jitter_inv 65500 jb'.
Proof.
  pose proof (jitter_pop_in_order 65500 0 sample_jitter sample_jitter_inv) as H.
  eexists. split; [vm_compute; reflexivity|]. revert H. vm_compute Pop. intros [Hi _]. exact Hi.
Defined.

Lemma jitter_flush_sorted_witness :
  map bk_Seq (Flush sample_jitter).1 = [65534; 65535; 1] /\
  (Flush sample_jitter).1 ≡ₚ jb_packets sample_jitter.
Proof.
  split; [vm_compute; reflexivity|].
  exact (proj1 (jitter_flush_sorted 65500 sample_jitter sample_jitter_inv)).
Defined.

(** A new packet pushed into a full buffer costs a packet: the first one in
    serial order is removed and counted as emitted, but no result carries it and
    it is not in the buffer any more, so it is never played. *)
Theorem jitter_push_full_discards (base : Z) (p : BufferedPacket) (jb : JitterBuffer) :
  jitter_inv base jb -> in_window base p ->
  (bk_Seq p ∉ map bk_Seq (jb_packets jb)) -> Len jb = jb_maxSize jb ->
  exists lost, lost ∈ p :: jb_packets jb /\
    Forall (fun q => ahead base (bk_Seq lost) <= ahead base (bk_Seq q)) (p :: jb_packets jb) /\
    p :: jb_packets jb ≡ₚ lost :: jb_packets (Push p jb) /\
    (bk_Seq lost ∉ map bk_Seq (jb_packets (Push p jb))) /\
    jb_lastEmitted (Push p jb) = bk_Seq lost.
Proof.
  intros Hi Hp Hnew Hfull. pose proof (push_inv base p jb Hi Hp) as Hinv.
  destruct (push_cases base p jb Hi Hp) as [[Hin _]|(_ & l & Hl & _ & Hc)]; [done|].
  destruct Hc as [[Hlt _]|[_ (o & l' & Hl' & _ & Hmin & Hpush)]]; [lia|].
  assert (Hpk : jb_packets (Push p jb) = l' /\ jb_lastEmitted (Push p jb) = bk_Seq o)
    by (rewrite Hpush; by destruct jb).
  destruct Hpk as [-> ->]. exists o. rewrite <- Hl. split; [rewrite Hl'; left|].
  split; [done|]. split; [done|]. split; [|done].
  assert (Hd : NoDup (map bk_Seq l)) by (rewrite Hl; cbn; constructor; [done|apply Hi]).
  rewrite Hl' in Hd. by apply NoDup_cons in Hd as [Hd _].
Qed.

Lemma jitter_push_full_discards_witness :
  exists lost, lost ∈ sample_packet 0 :: jb_packets sample_jitter /\
    (bk_Seq lost ∉ map bk_Seq (jb_packets (Push (sample_packet 0) sample_jitter))).
Proof.
  destruct (jitter_push_full_discards 65500 (sample_packet 0) sample_jitter) as (lost & H1 & _ & _ & H2 & _).
  - apply sample_jitter_inv.
  - reflexivity.
  - vm_compute. intros H. repeat (apply elem_of_cons in H as [H|H]; [discriminate|]). by apply elem_of_nil in H.
  - reflexivity.
  - exists lost. by split.
Defined.

(** The packets missing before [oldestSeq] in serial arithmetic, capped. *)
Definition serial_lost (expectedSeq oldestSeq : Z) : Z :=
  let d := ahead expectedSeq oldestSeq in if d <? 2 ^ 15 then Z.min 10 d else 0.

Lemma ahead_cases e o : in_u 16 e -> in_u 16 o ->
  (e <= o /\ ahead e o = o - e) \/ (o < e /\ ahead e o = o - e + 2 ^ 16).
Proof.
  unfold in_u, ahead, u16, wrap_u. intros He Ho. destruct (Z.le_gt_cases e o); [left|right]; (split; [done|]).
  - apply Z.mod_small. lia.
  - symmetry. apply (Z.mod_unique _ _ (-1)); [left|]; lia.
Qed.

(** The loss reported before an overdue packet is the one of serial
    arithmetic as long as the numbers did not wrap between the two; across a
    wrap it is wrong both ways: a real gap is not concealed at all, and a late
    packet from before the wrap is reported as ten lost packets. *)
Theorem plc_wrong_across_wrap (e o : Z) :
  in_u 16 e -> in_u 16 o ->
  (Z.abs (o - e) < 2 ^ 15 -> plc_lost e o = serial_lost e o) /\
  (o - e < - 2 ^ 15 -> plc_lost e o = 0 /\ 0 < serial_lost e o) /\
  (2 ^ 15 < o - e -> plc_lost e o = 10 /\ serial_lost e o = 0).
Proof.
  intros He Ho. pose proof (ahead_cases e o He Ho) as Ha. unfold in_u in *.
  unfold plc_lost, serial_lost. fold (ahead e o). set (a := ahead e o) in *. clearbody a.
  change (2 ^ 15) with 32768 in *. change (2 ^ 16) with 65536 in *.
  split; [|split]; intros Hd; case_tests; bool_to_prop; lia.
Qed.

Lemma plc_wrong_across_wrap_witness : plc_lost 65534 1 = 0 /\ 0 < serial_lost 65534 1.
Proof. apply (plc_wrong_across_wrap 65534 1); unfold in_u; lia. Defined.
