(* ===== verification/LruCache.v ===== *)
(** * The LRU cache

    [src/pkg/util/session_cache.go]: a map of items with expiration times and a
    list of keys in order of use, most recent first.  [entries] is the abstract
    cache, the list of key, value and expiration in that order; the theorems show
    that the operations refine the list operations of an LRU cache.  The
    cleanup goroutine calls [removeExpired]; its ticker is not modelled. *)

From S2P Require Import Prelude.
#[local] Open Scope Z_scope.

Section lru.
Context {V : Type}.

Record CacheItem := mkCacheItem { it_Value : V; it_Expiration : Z }.

(** The list elements point to items, which know their key. *)
Record LRUCache := mkLRUCache {
  lc_items : gmap string CacheItem;
  lc_lruList : list string;
  lc_maxSize : Z;
  lc_defaultTTL : Z
}.

Definition NewLRUCache (maxSize defaultTTL : Z) : LRUCache := mkLRUCache ∅ [] maxSize defaultTTL.

Definition without (key : string) (l : list string) : list string := filter (fun k => k <> key) l.

#[global] Arguments without : simpl never.

Definition moveToFront (key : string) (c : LRUCache) : LRUCache :=
  c <| lc_lruList := key :: without key (lc_lruList c) |>.

Definition removeItem (key : string) (c : LRUCache) : LRUCache :=
  c <| lc_items := delete key (lc_items c) |> <| lc_lruList := without key (lc_lruList c) |>.

Definition Get (now : Z) (key : string) (c : LRUCache) : option V * LRUCache :=
  match lc_items c !! key with
  | None => (None, c)
  | Some item =>
    if it_Expiration item <? now then (None, removeItem key c)
    else (Some (it_Value item), moveToFront key c)
  end.

(** The loop of [evictIfNeeded]; [None] when the fuel is used up. *)
Fixpoint evict_loop (fuel : nat) (c : LRUCache) : option LRUCache :=
  if Z.of_nat (size (lc_items c)) <=? lc_maxSize c then Some c else
  match fuel with
  | O => None
  | S fuel =>
    evict_loop fuel match last (lc_lruList c) with
                    | Some oldest => removeItem oldest c
                    | None => c
                    end
  end.

(** One iteration per item is enough for a capacity that is not negative. *)
Definition evictIfNeeded (c : LRUCache) : option LRUCache := evict_loop (size (lc_items c)) c.

Definition SetWithTTL (now : Z) (key : string) (value : V) (ttl : Z) (c : LRUCache) : option LRUCache :=
  let expiration := now + ttl in
  match lc_items c !! key with
  | Some _ =>
    Some (moveToFront key
      (c <| lc_items := <[key := mkCacheItem value expiration]> (lc_items c) |>))
  | None =>
    evictIfNeeded (c <| lc_lruList := key :: lc_lruList c |>
                     <| lc_items := <[key := mkCacheItem value expiration]> (lc_items c) |>)
  end.

Definition CacheSet (now : Z) (key : string) (value : V) (c : LRUCache) : option LRUCache :=
  SetWithTTL now key value (lc_defaultTTL c) c.

Definition Delete (key : string) (c : LRUCache) : LRUCache :=
  match lc_items c !! key with Some _ => removeItem key c | None => c end.

Definition Clear (c : LRUCache) : LRUCache := c <| lc_items := ∅ |> <| lc_lruList := [] |>.

Definition Size (c : LRUCache) : Z := Z.of_nat (size (lc_items c)).

Definition Keys `{!GoMapRange string} (n : nat) (c : LRUCache) : list string :=
  (map_range n (lc_items c)).*1.

Definition removeExpired `{!GoMapRange string} (n : nat) (now : Z) (c : LRUCache) : LRUCache :=
  foldl (fun c key => removeItem key c) c
    (omap (fun '(key, item) => if it_Expiration item <? now then Some key else None)
       (map_range n (lc_items c))).

(** ** The abstract cache *)

Definition lru_inv (c : LRUCache) : Prop :=
  NoDup (lc_lruList c) /\ (forall key, key ∈ lc_lruList c <-> is_Some (lc_items c !! key)).

Definition entries (c : LRUCache) : list (string * CacheItem) :=
  omap (fun key => (key,.) <$> lc_items c !! key) (lc_lruList c).

(** An LRU cache on lists: the entries other than [key]. *)
Definition others (key : string) (l : list (string * CacheItem)) : list (string * CacheItem) :=
  filter (fun e => e.1 <> key) l.

Lemma elem_of_without key k l : k ∈ without key l <-> k <> key /\ k ∈ l.
Proof. unfold without. by rewrite list_elem_of_filter. Qed.

Lemma lru_inv_move key c : lru_inv c -> is_Some (lc_items c !! key) -> lru_inv (moveToFront key c).
Proof.
  intros [Hn Hd] Hk. destruct c; cbn in *. split; cbn.
  - constructor; [rewrite elem_of_without; naive_solver|]. by apply NoDup_filter.
  - intros k. rewrite elem_of_cons, elem_of_without, Hd. destruct (decide (k = key)); naive_solver.
Qed.

Lemma lru_inv_remove key c : lru_inv c -> lru_inv (removeItem key c).
Proof.
  intros [Hn Hd]. destruct c; cbn in *. split; cbn; [by apply NoDup_filter|].
  intros k. rewrite elem_of_without, Hd, lookup_delete_is_Some. naive_solver.
Qed.

Lemma lru_size c : lru_inv c -> size (lc_items c) = length (lc_lruList c).
Proof.
  intros [Hn Hd]. rewrite <- size_dom, <- (size_list_to_set (C := gset string) (lc_lruList c)) by done.
  f_equal. apply set_eq. intros k. rewrite elem_of_dom, elem_of_list_to_set, Hd. done.
Qed.

Lemma entries_keys c : lru_inv c -> (entries c).*1 = lc_lruList c.
Proof.
  intros [_ Hd]. unfold entries.
  assert (Hall : Forall (fun k => is_Some (lc_items c !! k)) (lc_lruList c)).
  { apply Forall_forall. intros k. by apply Hd. }
  clear Hd. induction Hall as [|k l [x Hx] _ IH]; [done|]. cbn. rewrite Hx. cbn. by rewrite IH.
Qed.

Definition entries_of (items : gmap string CacheItem) (l : list string) : list (string * CacheItem) :=
  omap (fun key => (key,.) <$> items !! key) l.

Lemma others_cons key e l : others key (e :: l) = if decide (e.1 = key) then others key l else e :: others key l.
Proof. unfold others. rewrite filter_cons. by repeat case_decide. Qed.

Lemma without_cons key k l : without key (k :: l) = if decide (k = key) then without key l else k :: without key l.
Proof. unfold without. rewrite filter_cons. by repeat case_decide. Qed.

Lemma entries_of_cons items k l :
  entries_of items (k :: l) = match items !! k with Some x => (k, x) :: entries_of items l | None => entries_of items l end.
Proof. unfold entries_of. cbn. by destruct (items !! k). Qed.

#[local] Arguments entries_of : simpl never.
#[local] Arguments others : simpl never.

Lemma entries_of_without key items items' l : (forall k, k <> key -> items' !! k = items !! k) ->
  entries_of items' (without key l) = others key (entries_of items l).
Proof.
  intros Hi. induction l as [|k l IH]; [done|]. rewrite without_cons, entries_of_cons.
  destruct (decide (k = key)) as [->|Hk].
  - destruct (items !! key); rewrite ?others_cons, IH; [|done]. by rewrite decide_True.
  - rewrite entries_of_cons, Hi, IH by done. destruct (items !! k); [|done].
    by rewrite others_cons, decide_False.
Qed.

Lemma entries_remove key c : entries (removeItem key c) = others key (entries c).
Proof. destruct c. apply entries_of_without. intros k Hk. cbn. by rewrite lookup_delete_ne. Qed.

Lemma entries_move key c item : lc_items c !! key = Some item ->
  entries (moveToFront key c) = (key, item) :: others key (entries c).
Proof.
  intros Hk. destruct c as [items l max ttl]. cbn in Hk.
  change (entries_of items (key :: without key l) = (key, item) :: others key (entries_of items l)).
  rewrite entries_of_cons, Hk. f_equal. by apply entries_of_without.
Qed.

Lemma others_id key (l : list (string * CacheItem)) : key ∉ l.*1 -> others key l = l.
Proof.
  induction l as [|e l IH]; [done|]. rewrite fmap_cons, not_elem_of_cons. intros [Hne Hl].
  rewrite others_cons, decide_False by congruence. by rewrite IH.
Qed.

Lemma others_app key (l l' : list (string * CacheItem)) : others key (l ++ l') = others key l ++ others key l'.
Proof. apply filter_app. Qed.

(** Evicting one entry drops the last of the list. *)
Lemma others_last (l : list (string * CacheItem)) e : NoDup (l ++ [e]).*1 -> others e.1 (l ++ [e]) = l.
Proof.
  intros Hn. rewrite fmap_app, NoDup_app in Hn. destruct Hn as (_ & Hd & _).
  rewrite others_app, others_cons, decide_True, app_nil_r by done. apply others_id.
  intros Hin. apply (Hd _ Hin). left.
Qed.

Lemma evict_loop_spec fuel c : lru_inv c -> 0 <= lc_maxSize c -> (size (lc_items c) <= fuel)%nat ->
  exists c', evict_loop fuel c = Some c' /\ lru_inv c' /\ lc_maxSize c' = lc_maxSize c /\
    lc_defaultTTL c' = lc_defaultTTL c /\
    entries c' = take (Z.to_nat (lc_maxSize c)) (entries c).
Proof.
  revert c. induction fuel as [|fuel IH]; intros c Hi Hm Hf;
    (assert (Hlen : length (entries c) = size (lc_items c))
       by (rewrite lru_size, <- (entries_keys c Hi), length_fmap by done; done)); cbn;
    destruct (Z.leb_spec (Z.of_nat (size (lc_items c))) (lc_maxSize c)).
  - exists c. do 4 (split; [done|]). rewrite take_ge; [done|lia].
  - lia.
  - exists c. do 4 (split; [done|]). rewrite take_ge; [done|lia].
  - destruct (last (lc_lruList c)) as [k|] eqn:El.
    2:{ apply last_None in El. rewrite lru_size, El in H by done. cbn in H. lia. }
    assert (Hlast : exists l e, entries c = l ++ [e] /\ e.1 = k).
    { rewrite <- (entries_keys c Hi), fmap_last in El.
      destruct (last (entries c)) as [e|] eqn:Ee; [|done]. apply last_Some in Ee as [l ->].
      exists l, e. cbn in El. by injection El. }
    destruct Hlast as (l & e & He & <-).
    pose proof (entries_remove e.1 c) as Hr. rewrite He, others_last in Hr.
    2:{ rewrite <- He, entries_keys by done. apply Hi. }
    assert (Hi' : lru_inv (removeItem e.1 c)) by (by apply lru_inv_remove).
    assert (Hsz : S (size (lc_items (removeItem e.1 c))) = size (lc_items c)).
    { rewrite (lru_size _ Hi'), <- (entries_keys _ Hi'), length_fmap, Hr, <- Hlen, He, length_app. cbn. lia. }
    destruct (IH (removeItem e.1 c)) as (c' & Hc & Hinv & Hmax & Httl & Hent); [done|by destruct c|lia|].
    exists c'. split; [done|]. split; [done|]. rewrite Hmax, Httl, Hent, Hr, He.
    split; [by destruct c|]. split; [by destruct c|].
    assert (lc_maxSize (removeItem e.1 c) = lc_maxSize c) as -> by (by destruct c).
    rewrite take_app_le; [done|]. rewrite He, length_app in Hlen. cbn in Hlen. lia.
Qed.

Lemma entries_lookup c key item : lru_inv c ->
  (key, item) ∈ entries c <-> lc_items c !! key = Some item.
Proof.
  intros [_ Hd]. unfold entries. rewrite list_elem_of_omap. split.
  - intros (k & Hk & Hf). destruct (lc_items c !! k) eqn:E; cbn in Hf; by simplify_eq.
  - intros Hi. exists key. split; [apply Hd; by eexists|]. by rewrite Hi.
Qed.

Lemma lru_inv_insert key item c : lru_inv c -> is_Some (lc_items c !! key) ->
  lru_inv (c <| lc_items := <[key := item]> (lc_items c) |>).
Proof.
  intros [Hn Hd] Hk. destruct c; cbn in *. split; cbn; [done|]. intros k.
  rewrite Hd, lookup_insert_is_Some'. naive_solver.
Qed.

Lemma size_entries c : lru_inv c -> size (lc_items c) = length (entries c).
Proof. intros Hi. by rewrite lru_size, <- (entries_keys c Hi), length_fmap. Qed.

Lemma without_id key l : key ∉ l -> without key l = l.
Proof.
  induction l as [|k l IH]; [done|]. rewrite not_elem_of_cons. intros [Hne Hl].
  rewrite without_cons, decide_False by congruence. by rewrite IH.
Qed.

(** A value under a key the cache holds. *)
Lemma set_existing key item old c : lru_inv c -> Size c <= lc_maxSize c -> lc_items c !! key = Some old ->
  let c' := moveToFront key (c <| lc_items := <[key := item]> (lc_items c) |>) in
  lru_inv c' /\ Size c' <= lc_maxSize c /\
  entries c' = take (Z.to_nat (lc_maxSize c)) ((key, item) :: others key (entries c)).
Proof.
  intros Hi Hs Ek. cbn zeta. set (c1 := c <| lc_items := _ |>).
  assert (Hi1 : lru_inv c1) by (subst c1; apply lru_inv_insert; [done|by eexists]).
  assert (Hk1 : lc_items c1 !! key = Some item) by (subst c1; destruct c; cbn; apply lookup_insert_eq).
  assert (He1 : others key (entries c1) = others key (entries c)).
  { subst c1. destruct c as [items l max t0].
    change (others key (entries_of (<[key := item]> items) l) = others key (entries_of items l)).
    rewrite <- !(entries_of_without key _ items l); [done|done|].
    intros k Hne. by rewrite lookup_insert_ne. }
  assert (Hi2 : lru_inv (moveToFront key c1)) by (apply lru_inv_move; [done|by eexists]).
  assert (Hin : (key, old) ∈ entries c) by (by apply entries_lookup).
  assert (Hlt : (length (others key (entries c)) < length (entries c))%nat).
  { unfold others. apply (length_filter_lt _ _ (key, old)); [done|]. cbn. naive_solver. }
  unfold Size in *. split; [done|].
  rewrite (size_entries _ Hi2), (entries_move key c1 _ Hk1), He1.
  rewrite (size_entries _ Hi) in Hs. rewrite take_ge by (cbn; lia). split; [cbn; lia|done].
Qed.

(** A value under a new key, before the eviction. *)
Lemma set_new key item c : lru_inv c -> lc_items c !! key = None ->
  let c' := c <| lc_lruList := key :: lc_lruList c |> <| lc_items := <[key := item]> (lc_items c) |> in
  lru_inv c' /\ entries c' = (key, item) :: others key (entries c).
Proof.
  intros [Hn Hd] Ek. destruct c as [items l max t0]; cbn in *.
  assert (Hnew : key ∉ l) by (rewrite Hd, Ek; by intros []). split.
  - split; cbn; [by constructor|].
    intros k. rewrite elem_of_cons, Hd, lookup_insert_is_Some'. naive_solver.
  - change (entries_of (<[key := item]> items) (key :: l) =
      (key, item) :: others key (entries_of items l)).
    rewrite entries_of_cons, lookup_insert_eq. f_equal.
    rewrite <- (entries_of_without key items (<[key := item]> items) l)
      by (intros k Hne; by rewrite lookup_insert_ne).
    by rewrite without_id.
Qed.

Lemma set_refines now key value ttl c : lru_inv c -> Size c <= lc_maxSize c ->
  exists c', SetWithTTL now key value ttl c = Some c' /\ lru_inv c' /\
    lc_maxSize c' = lc_maxSize c /\ lc_defaultTTL c' = lc_defaultTTL c /\ Size c' <= lc_maxSize c /\
    entries c' = take (Z.to_nat (lc_maxSize c))
                   ((key, mkCacheItem value (now + ttl)) :: others key (entries c)).
Proof.
  intros Hi Hs. unfold SetWithTTL. destruct (lc_items c !! key) as [old|] eqn:Ek.
  - destruct (set_existing key (mkCacheItem value (now + ttl)) old c Hi Hs Ek) as (H1 & H2 & H3).
    eexists. split; [done|]. split; [done|]. split; [by destruct c|]. by split; [destruct c|].
  - destruct (set_new key (mkCacheItem value (now + ttl)) c Hi Ek) as [Hi1 He1].
    set (c1 := c <| lc_lruList := _ |> <| lc_items := _ |>) in *.
    assert (Hf : lc_maxSize c1 = lc_maxSize c /\ lc_defaultTTL c1 = lc_defaultTTL c) by (by subst c1; destruct c).
    destruct Hf as [Hf1 Hf2].
    destruct (evict_loop_spec (size (lc_items c1)) c1 Hi1) as (c' & Hev & Hi' & Hmax & Httl & Hent);
      [unfold Size in *; lia|done|].
    exists c'. split; [done|]. split; [done|]. rewrite Hmax, Httl, Hf1, Hf2. do 2 (split; [done|]).
    rewrite Hent, He1, Hf1. split; [|done].
    unfold Size in *. rewrite (size_entries _ Hi'), Hent, Hf1, length_take. lia.
Qed.

Lemma get_refines now key c : lru_inv c ->
  lru_inv (Get now key c).2 /\
  match lc_items c !! key with
  | None => Get now key c = (None, c)
  | Some item =>
    if it_Expiration item <? now
    then (Get now key c).1 = None /\ entries (Get now key c).2 = others key (entries c)
    else (Get now key c).1 = Some (it_Value item) /\
         entries (Get now key c).2 = (key, item) :: others key (entries c)
  end.
Proof.
  intros Hi. unfold Get. destruct (lc_items c !! key) as [item|] eqn:Ek; [|done].
  destruct (_ <? now); cbn [fst snd].
  - split; [by apply lru_inv_remove|]. split; [done|apply entries_remove].
  - split; [apply lru_inv_move; [done|by eexists]|]. split; [done|by apply entries_move].
Qed.

Lemma remove_all_spec ks c : lru_inv c ->
  lru_inv (foldl (fun c key => removeItem key c) c ks) /\
  entries (foldl (fun c key => removeItem key c) c ks) = filter (fun e => e.1 ∉ ks) (entries c).
Proof.
  revert c. induction ks as [|k ks IH]; intros c Hi; cbn.
  - split; [done|]. symmetry. induction (entries c) as [|e l IHl]; [done|].
    rewrite filter_cons, decide_True by (apply not_elem_of_nil). by rewrite IHl.
  - destruct (IH (removeItem k c)) as [H1 H2]; [by apply lru_inv_remove|]. split; [done|].
    rewrite H2, entries_remove. unfold others. rewrite list_filter_filter.
    apply list_filter_iff. intros e. rewrite not_elem_of_cons. tauto.
Qed.
End lru.
Arguments CacheItem : clear implicits.
Arguments LRUCache : clear implicits.

(** ** Properties *)

(** C40: setting a value refines the list operation of an LRU cache: the entry
    goes to the front, an earlier one under its key disappears, and of the
    result the most recently used entries are kept, as many as the capacity
    allows; the eviction loop terminates and the cache never exceeds its
    capacity. *)
Theorem lru_set_refines {V : Type} (now ttl : Z) (key : string) (value : V) (c : LRUCache V) :
  lru_inv c -> Size c <= lc_maxSize c ->
  exists c', SetWithTTL now key value ttl c = Some c' /\ lru_inv c' /\
    lc_maxSize c' = lc_maxSize c /\ Size c' <= lc_maxSize c' /\
    entries c' = take (Z.to_nat (lc_maxSize c))
                   ((key, mkCacheItem value (now + ttl)) :: others key (entries c)).
Proof.
  intros Hi Hs. destruct (set_refines now key value ttl c Hi Hs) as (c' & H1 & H2 & H3 & _ & H5 & H6).
  exists c'. rewrite H3. done.
Qed.

(** Getting a value returns it and makes its entry the most recently used
    one, unless it has expired, in which case the entry is removed; a key that is
    not in the cache changes nothing. *)
Theorem lru_get_refines {V : Type} (now : Z) (key : string) (c : LRUCache V) :
  lru_inv c ->
  lru_inv (Get now key c).2 /\
  match lc_items c !! key with
  | None => Get now key c = (None, c)
  | Some item =>
    if it_Expiration item <? now
    then (Get now key c).1 = None /\ entries (Get now key c).2 = others key (entries c)
    else (Get now key c).1 = Some (it_Value item) /\
         entries (Get now key c).2 = (key, item) :: others key (entries c)
  end.
Proof. apply get_refines. Qed.

(** The cleanup removes exactly the expired entries and keeps the order of
    the others, in whatever order it finds them. *)
Theorem lru_remove_expired {V : Type} `{!GoMapRange string} (n : nat) (now : Z) (c : LRUCache V) :
  lru_inv c ->
  lru_inv (removeExpired n now c) /\
  entries (removeExpired n now c) = filter (fun e => now <= it_Expiration e.2) (entries c).
Proof.
  intros Hi. unfold removeExpired.
  destruct (remove_all_spec (omap (fun '(key, item) => if it_Expiration item <? now then Some key else None)
       (map_range n (lc_items c))) c Hi) as [H1 H2].
  split; [done|]. rewrite H2. apply filter_iff_in. intros [key item] Hin.
  apply entries_lookup in Hin; [|done]. cbn. rewrite list_elem_of_omap. split.
  - intros Hn. apply Z.nlt_ge. intros Hlt. apply Hn. exists (key, item).
    split; [by apply elem_of_map_range|]. by rewrite (proj2 (Z.ltb_lt _ _)).
  - intros Hle ([k i] & Hk & Hf). destruct (_ <? now) eqn:E; [|done]. injection Hf as ->.
    apply elem_of_map_range in Hk. bool_to_prop. simplify_eq. lia.
Qed.

Definition sample_lru : LRUCache Z :=
  default (NewLRUCache 2 100) (CacheSet 1 "a" 10 (NewLRUCache 2 100) ≫= CacheSet 2 "b" 20).

Lemma sample_lru_inv : lru_inv sample_lru.
Proof.
  destruct (set_refines 1 "a" 10 100 (NewLRUCache 2 100)) as (c1 & E1 & H1 & M1 & T1 & S1 & _).
  - split; cbn; [constructor|]. intros k. rewrite lookup_empty. split; [by intros ?%elem_of_nil|by intros []].
  - vm_compute. discriminate.
  - destruct (set_refines 2 "b" 20 100 c1 H1) as (c2 & E2 & H2 & _); [by rewrite M1|].
    assert (sample_lru = c2) as ->; [|done].
    unfold sample_lru, CacheSet. cbn [NewLRUCache lc_defaultTTL]. rewrite E1. cbn in T1 |- *. by rewrite T1, E2.
Qed.

Lemma lru_set_refines_witness :
  exists c', SetWithTTL 3 "c" 30 100 sample_lru = Some c' /\
    map fst (entries c') = ["c"; "b"]%string.
Proof.
  destruct (lru_set_refines 3 100 "c" 30 sample_lru) as (c' & H1 & _ & _ & _ & H2).
  - apply sample_lru_inv.
  - vm_compute. discriminate.
  - exists c'. split; [exact H1|]. rewrite H2. vm_compute. reflexivity.
Defined.

Lemma lru_get_refines_witness :
  (Get 3 "a" sample_lru).1 = Some 10 /\ lru_inv (Get 3 "a" sample_lru).2.
Proof.
  split; [vm_compute; reflexivity|].
  exact (proj1 (lru_get_refines 3 "a" sample_lru sample_lru_inv)).
Defined.

Lemma lru_remove_expired_witness :
  entries (@removeExpired Z (list_range string) 0 102 sample_lru) = [("b"%string, mkCacheItem 20 102)].
Proof.
  rewrite (proj2 (@lru_remove_expired Z (list_range string) 0 102 sample_lru sample_lru_inv)).
  vm_compute. reflexivity.
Defined.
