(* ===== verification/PortManager.v ===== *)
(** * RTP port allocation

    [src/pkg/media/port_manager.go]: the ports in use and the cooldown of
    recently freed ports, which are the values of an LRU cache.  Whether the
    operating system can bind a port is an oracle, one per pass over the range,
    because it may change between two checks. *)

From stdpp Require Import pretty.
From S2P Require Import Prelude LruCache.
#[local] Open Scope Z_scope.

Record PortManagerStats := mkPortManagerStats {
  st_TotalPorts : Z;
  st_UsedPorts : Z;
  st_AvailablePorts : Z;
  st_AllocationCount : Z;
  st_DeallocationCount : Z;
  st_ReuseHits : Z
}.

Record PortManager := mkPortManager {
  pt_minPort : Z;
  pt_maxPort : Z;
  pt_usedPorts : gset Z;
  pt_recentlyUsed : LRUCache Z;
  pt_stats : PortManagerStats
}.

Record PortPair := mkPortPair { RTPPort : Z; RTCPPort : Z }.

Inductive port_error := NoFreePorts (min max : Z) | NoFreePortPairs (min max : Z).

Definition minutes (n : Z) : Z := n * 60000000000.

Definition NewPortManager (minPort maxPort : Z) : PortManager :=
  let '(minPort, maxPort) :=
    if (minPort <=? 0) || (maxPort <=? 0) then (10000, 20000) else (minPort, maxPort) in
  let '(minPort, maxPort) := if maxPort <=? minPort then (10000, 20000) else (minPort, maxPort) in
  let totalPorts := (maxPort - minPort + 1) / 2 in
  mkPortManager minPort maxPort ∅ (NewLRUCache (totalPorts / 4) (minutes 5))
    (mkPortManagerStats totalPorts 0 0 0 0 0).

Definition updateStats (pm : PortManager) : PortManager :=
  let used := Z.of_nat (size (pt_usedPorts pm)) in
  pm <| pt_stats := (pt_stats pm) <| st_UsedPorts := used |>
                      <| st_AvailablePorts := st_TotalPorts (pt_stats pm) - used |> |>.

(** ** The cooldown *)

Definition port_key (port : Z) : string := "port_" +:+ pretty port.

(** [clock k] is the time of the [k]th lookup; a lookup reorders the cache and
    drops an expired entry. *)
Fixpoint freed_ports (clock : nat -> Z) (k : nat) (keys : list string) (c : LRUCache Z)
    : list Z * LRUCache Z :=
  match keys with
  | [] => ([], c)
  | key :: keys =>
    let '(cached, c) := Get (clock k) key c in
    let '(ports, c) := freed_ports clock (S k) keys c in
    (match cached with Some port => port :: ports | None => ports end, c)
  end.

Definition getRecentlyFreedPorts `{!GoMapRange string} (clock : nat -> Z) (n : nat)
    (pm : PortManager) : list Z * PortManager :=
  let '(ports, c) := freed_ports clock 0 (Keys n (pt_recentlyUsed pm)) (pt_recentlyUsed pm) in
  (ports, pm <| pt_recentlyUsed := c |>).

Definition buildCooldownSet `{!GoMapRange string} (clock : nat -> Z) (n : nat) (pm : PortManager)
    : gmap Z bool * PortManager :=
  let '(ports, pm) := getRecentlyFreedPorts clock n pm in
  (list_to_map (map (fun p => (p, true)) ports), pm).

Definition cooling (set : gmap Z bool) (port : Z) : bool := default false (set !! port).

(** ** Allocation *)

(** [for port := lo; port <= hi; port += 2]. *)
Definition every_other (lo hi : Z) : list Z :=
  map (fun i => lo + 2 * Z.of_nat i) (seq 0 (Z.to_nat ((hi - lo + 2) / 2))).

Definition in_use (pm : PortManager) (port : Z) : bool := bool_decide (port ∈ pt_usedPorts pm).

Definition take_port (reuse : Z) (port : Z) (pm : PortManager) : PortManager :=
  updateStats (pm <| pt_usedPorts := {[port]} ∪ pt_usedPorts pm |>
                  <| pt_stats := (pt_stats pm)
                       <| st_AllocationCount := i64 (st_AllocationCount (pt_stats pm) + 1) |>
                       <| st_ReuseHits := i64 (st_ReuseHits (pt_stats pm) + reuse) |> |>).

(** [avail i] is [portAvailable] in the [i]th pass. *)
Definition AllocatePort `{!GoMapRange string} `{!GoMapRange Z} (clock : nat -> Z) (n : nat)
    (avail : nat -> Z -> bool) (pm : PortManager) : (Z + port_error) * PortManager :=
  let '(coolingDown, pm) := buildCooldownSet clock n pm in
  let scan := every_other (pt_minPort pm) (pt_maxPort pm) in
  match List.find (fun p => negb (in_use pm p) && negb (cooling coolingDown p) && avail 0%nat p) scan with
  | Some port => (inl port, take_port 0 port pm)
  | None =>
    match List.find (fun p => negb (in_use pm p) && avail 1%nat p) (map_range n coolingDown).*1 with
    | Some port => (inl port, take_port 1 port pm)
    | None =>
      match List.find (avail 2%nat) scan with
      | Some port => (inl port, take_port 0 port pm)
      | None => (inr (NoFreePorts (pt_minPort pm) (pt_maxPort pm)), pm)
      end
    end
  end.

Definition even (port : Z) : bool := Z.rem port 2 =? 0.

Definition take_pair (reuse : Z) (port : Z) (pm : PortManager) : PortManager :=
  updateStats (pm <| pt_usedPorts := {[port]} ∪ ({[port + 1]} ∪ pt_usedPorts pm) |>
                  <| pt_stats := (pt_stats pm)
                       <| st_AllocationCount := i64 (st_AllocationCount (pt_stats pm) + 2) |>
                       <| st_ReuseHits := i64 (st_ReuseHits (pt_stats pm) + reuse) |> |>).

Definition AllocatePortPair `{!GoMapRange string} `{!GoMapRange Z} (clock : nat -> Z) (n : nat)
    (avail : nat -> Z -> bool) (pm : PortManager) : (PortPair + port_error) * PortManager :=
  let '(coolingDown, pm) := buildCooldownSet clock n pm in
  let scan := every_other (pt_minPort pm) (pt_maxPort pm - 1) in
  let unused p := negb (in_use pm p) && negb (in_use pm (p + 1)) in
  let free i p := avail i p && avail i (p + 1) in
  match List.find (fun p => even p && (unused p && negb (cooling coolingDown p)) && free 0%nat p) scan with
  | Some port => (inl (mkPortPair port (port + 1)), take_pair 0 port pm)
  | None =>
    match List.find (fun p => even p && (p + 1 <=? pt_maxPort pm) && unused p && free 1%nat p)
            (map_range n coolingDown).*1 with
    | Some port => (inl (mkPortPair port (port + 1)), take_pair 1 port pm)
    | None =>
      match List.find (fun p => even p && free 2%nat p) scan with
      | Some port => (inl (mkPortPair port (port + 1)), take_pair 0 port pm)
      | None => (inr (NoFreePortPairs (pt_minPort pm) (pt_maxPort pm)), pm)
      end
    end
  end.

(** ** Release *)

Definition free_port (port : Z) (pm : PortManager) : PortManager :=
  pm <| pt_usedPorts := pt_usedPorts pm ∖ {[port]} |>
     <| pt_stats := (pt_stats pm)
          <| st_DeallocationCount := i64 (st_DeallocationCount (pt_stats pm) + 1) |> |>.

(** [None] if the cache does not return. *)
Definition remember_freed (now : Z) (port : Z) (pm : PortManager) : option PortManager :=
  (fun c => pm <| pt_recentlyUsed := c |>) <$> CacheSet now (port_key port) port (pt_recentlyUsed pm).

Definition ReleasePort (now : Z) (port : Z) (pm : PortManager) : option PortManager :=
  if in_use pm port then updateStats <$> remember_freed now port (free_port port pm) else Some pm.

Definition ReleasePortPair (now : Z) (pp : option PortPair) (pm : PortManager) : option PortManager :=
  match pp with
  | None => Some pm
  | Some pp =>
    pm ← (if in_use pm (RTPPort pp)
          then remember_freed now (RTPPort pp) (free_port (RTPPort pp) pm) else Some pm);
    let pm := if in_use pm (RTCPPort pp) then free_port (RTCPPort pp) pm else pm in
    Some (updateStats pm)
  end.

Definition GetPortRange (pm : PortManager) : Z * Z := (pt_minPort pm, pt_maxPort pm).

Definition GetUsedPortCount (pm : PortManager) : Z := Z.of_nat (size (pt_usedPorts pm)).

Definition GetStats (pm : PortManager) : PortManagerStats :=
  let used := Z.of_nat (size (pt_usedPorts pm)) in
  (pt_stats pm) <| st_UsedPorts := used |>
    <| st_AvailablePorts := st_TotalPorts (pt_stats pm) - used |>.

(** ** Invariant *)

(** [P] holds of every port in use or in the cooldown. *)
Definition ports_satisfy (P : Z -> Prop) (pm : PortManager) : Prop :=
  (forall p, p ∈ pt_usedPorts pm -> P p) /\
  map_Forall (fun _ item => P (it_Value item)) (lc_items (pt_recentlyUsed pm)).

Record port_inv (pm : PortManager) : Prop := {
  pi_range : 0 < pt_minPort pm < pt_maxPort pm;
  pi_cache : lru_inv (pt_recentlyUsed pm);
  pi_size : Size (pt_recentlyUsed pm) <= lc_maxSize (pt_recentlyUsed pm);
  pi_ports : ports_satisfy (fun p => pt_minPort pm <= p <= pt_maxPort pm) pm
}.

Lemma elem_of_every_other p lo hi : p ∈ every_other lo hi <-> lo <= p <= hi /\ Z.even (p - lo) = true.
Proof.
  unfold every_other. rewrite list_elem_of_fmap. setoid_rewrite elem_of_seq.
  pose proof (Z.div_mod (hi - lo + 2) 2 ltac:(lia)). pose proof (Z.mod_pos_bound (hi - lo + 2) 2 ltac:(lia)).
  split.
  - intros (i & -> & Hi). split; [lia|].
    replace (lo + 2 * Z.of_nat i - lo) with (2 * Z.of_nat i) by lia. by rewrite Z.even_mul.
  - intros [Hr He]. apply Z.even_spec in He as [k Hk]. exists (Z.to_nat k). lia.
Qed.

Lemma even_spec p : even p = true <-> Z.even p = true.
Proof.
  unfold even. rewrite Z.eqb_eq, Z.even_spec, Z.rem_divide by done.
  split; intros [k ->]; exists k; lia.
Qed.

(** A lookup keeps the well-formedness and what holds of the cached values. *)
Lemma get_items {V} now key (c : LRUCache V) (P : V -> Prop) :
  map_Forall (fun _ item => P (it_Value item)) (lc_items c) ->
  map_Forall (fun _ item => P (it_Value item)) (lc_items (Get now key c).2) /\
  (forall v, (Get now key c).1 = Some v -> P v) /\
  lc_maxSize (Get now key c).2 = lc_maxSize c /\ lc_defaultTTL (Get now key c).2 = lc_defaultTTL c /\
  Size (Get now key c).2 <= Size c.
Proof.
  intros Hc. unfold Get. destruct (lc_items c !! key) as [item|] eqn:E; [|done].
  destruct (_ <? now); cbn [fst snd].
  - destruct c; cbn in *. split; [by apply map_Forall_delete|]. split; [done|].
    do 2 (split; [done|]). unfold Size; cbn. apply inj_le. rewrite map_size_delete_Some by done. lia.
  - destruct c; cbn in *. repeat split; try done. intros v [= <-]. by apply (Hc key).
Qed.

Lemma freed_ports_spec clock k keys c (P : Z -> Prop) : lru_inv c -> Size c <= lc_maxSize c ->
  map_Forall (fun _ item => P (it_Value item)) (lc_items c) ->
  let '(ports, c') := freed_ports clock k keys c in
  Forall P ports /\ lru_inv c' /\ Size c' <= lc_maxSize c' /\ lc_maxSize c' = lc_maxSize c /\
  map_Forall (fun _ item => P (it_Value item)) (lc_items c').
Proof.
  revert k c. induction keys as [|key keys IH]; intros k c Hi Hs HP; cbn; [done|].
  destruct (get_items (clock k) key c P HP) as (HP' & Hv & Hm & _ & Hsz).
  pose proof (proj1 (get_refines (clock k) key c Hi)) as Hi'.
  destruct (Get (clock k) key c) as [cached c1]. cbn in *.
  specialize (IH (S k) c1 Hi' ltac:(lia) HP'). destruct (freed_ports _ _ _ _) as [ports c2].
  destruct IH as (H1 & H2 & H3 & H4 & H5). split; [|split; [done|split; [done|split; [lia|done]]]].
  destruct cached; [constructor; [by apply Hv|done]|done].
Qed.

Lemma cooldown_spec `{!GoMapRange string} clock n pm (P : Z -> Prop) : port_inv pm -> ports_satisfy P pm ->
  let '(set, pm') := buildCooldownSet clock n pm in
  port_inv pm' /\ ports_satisfy P pm' /\ pt_usedPorts pm' = pt_usedPorts pm /\
  pt_minPort pm' = pt_minPort pm /\ pt_maxPort pm' = pt_maxPort pm /\ pt_stats pm' = pt_stats pm /\
  (forall p, is_Some (set !! p) -> P p /\ pt_minPort pm <= p <= pt_maxPort pm) /\
  (forall p, cooling set p = true <-> is_Some (set !! p)).
Proof.
  intros [Hr Hc Hs [Hu Hv]] [HPu HPv]. unfold buildCooldownSet, getRecentlyFreedPorts.
  pose proof (freed_ports_spec clock 0 (Keys n (pt_recentlyUsed pm)) (pt_recentlyUsed pm)
    (fun p => P p /\ pt_minPort pm <= p <= pt_maxPort pm) Hc Hs) as Hf.
  destruct (freed_ports _ _ _ _) as [ports c]. destruct Hf as (Hports & Hi & Hsz & _ & Hval).
  { intros k x Hk. split; [by apply (HPv k)|by apply (Hv k)]. }
  rewrite Forall_forall in Hports.
  split; [|split].
  - destruct pm; cbn in *. constructor; cbn; try done. split; [done|]. intros k x Hk. by apply (Hval k).
  - destruct pm; cbn in *. split; [done|]. intros k x Hk. by apply (Hval k).
  - do 4 (split; [by destruct pm|]).
    assert (Hset : forall p b, (list_to_map (map (fun p => (p, true)) ports) : gmap Z bool) !! p = Some b ->
                               b = true /\ p ∈ ports).
    { intros p b Hp. apply elem_of_list_to_map_2 in Hp. apply list_elem_of_fmap in Hp as (q & [= -> ->] & Hq). done. }
    split.
    + intros p [b Hp]. apply Hset in Hp as [_ Hp]. by apply Hports.
    + intros p. unfold cooling. split.
      * destruct (_ !! p); [by eexists|done].
      * intros [b Hb]. rewrite Hb. cbn. by apply Hset in Hb as [-> _].
Qed.

(** ** The operations keep the invariant *)

Lemma find_Some_in {A} (f : A -> bool) l x : List.find f l = Some x -> x ∈ l /\ f x = true.
Proof. intros Hf. apply find_some in Hf as [Hin Hx]. split; [by apply list_elem_of_In|done]. Qed.

Lemma find_None_in {A} (f : A -> bool) l x : List.find f l = None -> x ∈ l -> f x = false.
Proof. intros Hf Hx. eapply find_none; [done|]. by apply list_elem_of_In. Qed.

Lemma ports_satisfy_used (P : Z -> Prop) pm used stats :
  ports_satisfy P pm -> (forall p, p ∈ used -> P p) ->
  ports_satisfy P (pm <| pt_usedPorts := used |> <| pt_stats := stats |>).
Proof. intros [_ Hv] Hu. by destruct pm. Qed.

Lemma port_inv_used pm used stats :
  port_inv pm -> (forall p, p ∈ used -> pt_minPort pm <= p <= pt_maxPort pm) ->
  port_inv (pm <| pt_usedPorts := used |> <| pt_stats := stats |>).
Proof. intros [Hr Hc Hs [Hu Hv]] Hu'. destruct pm; by constructor. Qed.

Lemma port_inv_stats pm : port_inv pm -> port_inv (updateStats pm).
Proof. intros [Hr Hc Hs Hp]. destruct pm; by constructor. Qed.

Lemma ports_satisfy_stats P pm : ports_satisfy P pm -> ports_satisfy P (updateStats pm).
Proof. by destruct pm. Qed.

Lemma ports_satisfy_true pm : ports_satisfy (fun _ => True) pm.
Proof. split; [done|]. by intros ? ? ?. Qed.

Lemma take_port_spec reuse port pm : port_inv pm -> pt_minPort pm <= port <= pt_maxPort pm ->
  port_inv (take_port reuse port pm) /\ pt_usedPorts (take_port reuse port pm) = {[port]} ∪ pt_usedPorts pm /\
  (forall P : Z -> Prop, ports_satisfy P pm -> P port -> ports_satisfy P (take_port reuse port pm)).
Proof.
  intros Hi Hr. pose proof Hi as [_ _ _ [Hu _]]. split; [|split; [by destruct pm|]].
  - apply port_inv_stats, port_inv_used; [done|]. set_solver.
  - intros P HP Hport. apply ports_satisfy_stats, ports_satisfy_used; [done|]. destruct HP. set_solver.
Qed.

Lemma take_pair_spec reuse port pm : port_inv pm -> pt_minPort pm <= port -> port + 1 <= pt_maxPort pm ->
  port_inv (take_pair reuse port pm) /\
  pt_usedPorts (take_pair reuse port pm) = {[port]} ∪ ({[port + 1]} ∪ pt_usedPorts pm) /\
  (forall P : Z -> Prop, ports_satisfy P pm -> P port -> P (port + 1) -> ports_satisfy P (take_pair reuse port pm)).
Proof.
  intros Hi Hlo Hhi. pose proof Hi as [_ _ _ [Hu _]]. split; [|split; [by destruct pm|]].
  - apply port_inv_stats, port_inv_used; [done|]. intros p. rewrite !elem_of_union, !elem_of_singleton.
    intros [->|[->|Hp]]; [lia..|by apply Hu].
  - intros P HP H1 H2. apply ports_satisfy_stats, ports_satisfy_used; [done|]. destruct HP. set_solver.
Qed.

Lemma release_spec now port pm : port_inv pm -> port ∈ pt_usedPorts pm ->
  exists pm', remember_freed now port (free_port port pm) = Some pm' /\ port_inv pm' /\
    pt_usedPorts pm' = pt_usedPorts pm ∖ {[port]} /\
    pt_minPort pm' = pt_minPort pm /\ pt_maxPort pm' = pt_maxPort pm /\
    (forall P : Z -> Prop, ports_satisfy P pm -> ports_satisfy P pm').
Proof.
  intros [Hr Hc Hs [Hu Hv]] Hp. unfold remember_freed, CacheSet.
  assert (Hrec : pt_recentlyUsed (free_port port pm) = pt_recentlyUsed pm) by (by destruct pm).
  rewrite Hrec. destruct (set_refines now (port_key port) port (lc_defaultTTL (pt_recentlyUsed pm))
    (pt_recentlyUsed pm) Hc Hs) as (c' & -> & Hc' & Hm & _ & Hs' & Hent).
  assert (Hval : forall P : Z -> Prop, ports_satisfy P pm -> 
     map_Forall (fun _ item => P (it_Value item)) (lc_items c')).
  { intros P [HPu HPv] k item Hk. apply entries_lookup in Hk; [|done]. rewrite Hent in Hk.
    apply elem_of_take in Hk as (i & Hk & _). apply list_elem_of_lookup_2 in Hk.
    apply elem_of_cons in Hk as [[= -> ->]|Hk]; [by apply HPu|].
    apply list_elem_of_filter in Hk as [_ Hk]. apply entries_lookup in Hk; [|done]. by apply (HPv k). }
  eexists. split; [reflexivity|]. split; [|split; [by destruct pm|split; [by destruct pm|split; [by destruct pm|]]]].
  - specialize (Hval _ (conj Hu Hv)). destruct pm; constructor; cbn in *; try done; [lia|].
    split; [set_solver|done].
  - intros P HP. specialize (Hval P HP). destruct HP as [HPu _]. destruct pm; cbn in *.
    split; cbn; [set_solver|done].
Qed.

Section allocation.
Context `{!GoMapRange string} `{!GoMapRange Z}.

Lemma in_use_false pm p : negb (in_use pm p) = true <-> p ∉ pt_usedPorts pm.
Proof. unfold in_use. rewrite negb_true_iff. apply bool_decide_eq_false. Qed.

Lemma allocate_port_spec clock n avail pm (P : Z -> Prop) :
  port_inv pm -> ports_satisfy P pm ->
  (forall p, pt_minPort pm <= p <= pt_maxPort pm -> Z.even (p - pt_minPort pm) = true -> P p) ->
  let '(r, pm') := AllocatePort clock n avail pm in
  port_inv pm' /\ ports_satisfy P pm' /\
  pt_minPort pm' = pt_minPort pm /\ pt_maxPort pm' = pt_maxPort pm /\
  match r with
  | inl port => pt_minPort pm <= port <= pt_maxPort pm /\
      pt_usedPorts pm' = {[port]} ∪ pt_usedPorts pm /\ (exists i, avail i port = true) /\
      ((port ∉ pt_usedPorts pm) \/ avail 2%nat port = true)
  | inr _ => pt_usedPorts pm' = pt_usedPorts pm /\
      forall p, pt_minPort pm <= p <= pt_maxPort pm -> Z.even (p - pt_minPort pm) = true ->
                avail 2%nat p = false
  end.
Proof.
  intros Hi HP Hscan. unfold AllocatePort.
  pose proof (cooldown_spec clock n pm P Hi HP) as Hc.
  destruct (buildCooldownSet clock n pm) as [set pm1].
  destruct Hc as (Hi1 & HP1 & Hu & Hmin & Hmax & _ & Hset & _). rewrite <- Hmin, <- Hmax, <- Hu in *.
  assert (Htake : forall reuse port, P port -> pt_minPort pm1 <= port <= pt_maxPort pm1 ->
    (exists i, avail i port = true) -> (port ∉ pt_usedPorts pm1) \/ avail 2%nat port = true ->
    port_inv (take_port reuse port pm1) /\ ports_satisfy P (take_port reuse port pm1) /\
    pt_minPort (take_port reuse port pm1) = pt_minPort pm1 /\
    pt_maxPort (take_port reuse port pm1) = pt_maxPort pm1 /\
    pt_minPort pm1 <= port <= pt_maxPort pm1 /\
    pt_usedPorts (take_port reuse port pm1) = {[port]} ∪ pt_usedPorts pm1 /\
    (exists i, avail i port = true) /\ ((port ∉ pt_usedPorts pm1) \/ avail 2%nat port = true)).
  { intros reuse port Hp Hr Ha Hf. destruct (take_port_spec reuse port pm1 Hi1 Hr) as (H1 & H2 & H3).
    split; [done|]. split; [by apply H3|]. split; [by destruct pm1|]. split; [by destruct pm1|]. done. }
  destruct (List.find _ (every_other _ _)) as [port|] eqn:E1.
  { apply find_Some_in in E1 as [[Hr He]%elem_of_every_other Hf]. bool_to_prop.
    apply Htake; eauto. left. by apply in_use_false, negb_true_iff. }
  destruct (List.find _ (map_range n set).*1) as [port|] eqn:E2.
  { apply find_Some_in in E2 as [Hin Hf]. apply elem_of_map_range_fst in Hin. bool_to_prop.
    destruct (Hset port Hin). apply Htake; eauto. left. by apply in_use_false, negb_true_iff. }
  destruct (List.find (avail 2%nat) _) as [port|] eqn:E3.
  { apply find_Some_in in E3 as [[Hr He]%elem_of_every_other Hf]. apply Htake; eauto. }
  do 4 (split; [done|]). split; [done|]. intros p Hr He.
  eapply find_None_in; [exact E3|]. by apply elem_of_every_other.
Qed.

(** A free pair that is not cooling down. *)
Definition fresh_pair (clock : nat -> Z) (n : nat) (avail : nat -> Z -> bool) (pm : PortManager) (p : Z) : Prop :=
  Z.even p = true /\ pt_minPort pm <= p /\ p + 1 <= pt_maxPort pm /\
  (p ∉ pt_usedPorts pm) /\ (p + 1 ∉ pt_usedPorts pm) /\
  cooling (buildCooldownSet clock n pm).1 p = false /\
  avail 0%nat p = true /\ avail 0%nat (p + 1) = true.

(** Taking a pair, with what else holds of it. *)
Lemma take_pair_full reuse port pm (P : Z -> Prop) (Q : Prop) :
  port_inv pm -> ports_satisfy P pm -> (forall p, P p -> Z.even p = true -> P (p + 1)) ->
  P port -> Z.even port = true -> pt_minPort pm <= port -> port + 1 <= pt_maxPort pm -> Q ->
  port_inv (take_pair reuse port pm) /\ ports_satisfy P (take_pair reuse port pm) /\
  pt_minPort (take_pair reuse port pm) = pt_minPort pm /\
  pt_maxPort (take_pair reuse port pm) = pt_maxPort pm /\
  P port /\ Z.even port = true /\ port + 1 = port + 1 /\ pt_minPort pm <= port /\ port + 1 <= pt_maxPort pm /\
  pt_usedPorts (take_pair reuse port pm) = {[port]} ∪ ({[port + 1]} ∪ pt_usedPorts pm) /\ Q.
Proof.
  intros Hi HP Hnext Hp He Hlo Hhi HQ. destruct (take_pair_spec reuse port pm Hi Hlo Hhi) as (H1 & H2 & H3).
  split; [done|]. split; [apply H3; auto|]. split; [by destruct pm|]. split; [by destruct pm|]. done.
Qed.

Lemma allocate_pair_spec clock n avail pm (P : Z -> Prop) :
  port_inv pm -> ports_satisfy P pm ->
  (forall p, pt_minPort pm <= p -> p + 1 <= pt_maxPort pm -> Z.even (p - pt_minPort pm) = true ->
     Z.even p = true -> P p) ->
  (forall p, P p -> Z.even p = true -> P (p + 1)) ->
  let '(r, pm') := AllocatePortPair clock n avail pm in
  port_inv pm' /\ ports_satisfy P pm' /\
  pt_minPort pm' = pt_minPort pm /\ pt_maxPort pm' = pt_maxPort pm /\
  match r with
  | inl (mkPortPair rtp rtcp) =>
      P rtp /\ Z.even rtp = true /\ rtcp = rtp + 1 /\ pt_minPort pm <= rtp /\ rtcp <= pt_maxPort pm /\
      pt_usedPorts pm' = {[rtp]} ∪ ({[rtcp]} ∪ pt_usedPorts pm) /\
      (exists i, avail i rtp = true /\ avail i rtcp = true) /\
      (((rtp ∉ pt_usedPorts pm) /\ (rtcp ∉ pt_usedPorts pm)) \/
       (avail 2%nat rtp = true /\ avail 2%nat rtcp = true)) /\
      (Z.even (pt_minPort pm) = true -> (exists p, fresh_pair clock n avail pm p) ->
         cooling (buildCooldownSet clock n pm).1 rtp = false)
  | inr _ => pt_usedPorts pm' = pt_usedPorts pm /\
      forall p, pt_minPort pm <= p -> p + 1 <= pt_maxPort pm -> Z.even (p - pt_minPort pm) = true ->
                Z.even p = true -> avail 2%nat p && avail 2%nat (p + 1) = false
  end.
Proof.
  intros Hi HP Hscan Hnext. unfold AllocatePortPair, fresh_pair.
  pose proof (cooldown_spec clock n pm P Hi HP) as Hc.
  destruct (buildCooldownSet clock n pm) as [set pm1]. cbn [fst].
  destruct Hc as (Hi1 & HP1 & Hu & Hmin & Hmax & _ & Hset & _). rewrite <- Hmin, <- Hmax, <- Hu in *.
  pose proof (fun reuse port Q => take_pair_full reuse port pm1 P Q Hi1 HP1 Hnext) as Htake.
  destruct (List.find _ (every_other _ _)) as [port|] eqn:E1.
  { apply find_Some_in in E1 as [[Hr Hev]%elem_of_every_other Hf]. bool_to_prop.
    match goal with H : even _ = true |- _ => apply even_spec in H end.
    apply Htake; [apply Hscan; done || lia|done|lia|lia|]. split; [eauto|].
    split; [|done]. left. split; apply in_use_false; by apply negb_true_iff. }
  assert (Hfresh : Z.even (pt_minPort pm1) = true -> forall p, Z.even p = true ->
    pt_minPort pm1 <= p -> p + 1 <= pt_maxPort pm1 -> (p ∉ pt_usedPorts pm1) -> (p + 1 ∉ pt_usedPorts pm1) ->
    cooling set p = false -> avail 0%nat p = true -> avail 0%nat (p + 1) = true -> False).
  { intros Hm p Hp Hlo Hhi Hu1 Hu2 Hcool Ha1 Ha2. eapply (find_None_in _ _ p) in E1.
    - apply even_spec in Hp. apply in_use_false in Hu1, Hu2.
      cbn beta in E1. by rewrite Hp, Hu1, Hu2, Hcool, Ha1, Ha2 in E1.
    - apply elem_of_every_other. split; [lia|]. by rewrite Z.even_sub, Hp, Hm. }
  assert (Hcool : forall port, Z.even (pt_minPort pm1) = true ->
    (exists p, Z.even p = true /\ pt_minPort pm1 <= p /\ p + 1 <= pt_maxPort pm1 /\ (p ∉ pt_usedPorts pm1) /\
      (p + 1 ∉ pt_usedPorts pm1) /\ cooling set p = false /\ avail 0%nat p = true /\ avail 0%nat (p + 1) = true) ->
    cooling set port = false) by (intros port Hm (p & ? & ? & ? & ? & ? & ? & ? & ?); exfalso; eauto).
  destruct (List.find _ (map_range n set).*1) as [port|] eqn:E2.
  { apply find_Some_in in E2 as [Hin Hf]. apply elem_of_map_range_fst in Hin. bool_to_prop.
    match goal with H : even _ = true |- _ => apply even_spec in H end.
    destruct (Hset port Hin) as [? [? ?]]. apply Htake; [done..|]. split; [eauto|]. split; [|auto].
    left. split; apply in_use_false; by apply negb_true_iff. }
  destruct (List.find (fun p => even p && (avail 2%nat p && avail 2%nat (p + 1))) _) as [port|] eqn:E3.
  { apply find_Some_in in E3 as [[Hr Hev]%elem_of_every_other Hf]. bool_to_prop.
    match goal with H : even _ = true |- _ => apply even_spec in H end.
    apply Htake; [apply Hscan; done || lia|done|lia|lia|]. split; [eauto|]. split; [by right|auto]. }
  do 4 (split; [done|]). split; [done|]. intros p Hlo Hhi He Hev.
  eapply (find_None_in _ _ p) in E3; [|apply elem_of_every_other; split; [lia|done]].
  apply even_spec in Hev. cbn beta in E3. by rewrite Hev in E3.
Qed.

Lemma allocate_pair_error clock n avail pm e : (AllocatePortPair clock n avail pm).1 = inr e ->
  e = NoFreePortPairs (pt_minPort pm) (pt_maxPort pm).
Proof.
  unfold AllocatePortPair, buildCooldownSet, getRecentlyFreedPorts.
  destruct (freed_ports _ _ _ _) as [ports c]. destruct (List.find _ _); [done|].
  destruct (List.find _ _); [done|]. destruct (List.find _ _); [done|].
  cbn. intros [= <-]. by destruct pm.
Qed.
End allocation.

(** ** Sequences of operations *)

Inductive port_op :=
  | OpAllocate (clock : nat -> Z) (n : nat) (avail : nat -> Z -> bool)
  | OpAllocatePair (clock : nat -> Z) (n : nat) (avail : nat -> Z -> bool)
  | OpRelease (now port : Z)
  | OpReleasePair (now : Z) (pp : option PortPair).

Definition port_step `{!GoMapRange string} `{!GoMapRange Z} (pm : PortManager) (op : port_op)
    : option PortManager :=
  match op with
  | OpAllocate clock n avail => Some (AllocatePort clock n avail pm).2
  | OpAllocatePair clock n avail => Some (AllocatePortPair clock n avail pm).2
  | OpRelease now port => ReleasePort now port pm
  | OpReleasePair now pp => ReleasePortPair now pp pm
  end.

Inductive port_reachable `{!GoMapRange string} `{!GoMapRange Z} (lo hi : Z) : PortManager -> Prop :=
  | reach_new : port_reachable lo hi (NewPortManager lo hi)
  | reach_step pm op pm' :
      port_reachable lo hi pm -> port_step pm op = Some pm' -> port_reachable lo hi pm'.

Lemma new_port_inv lo hi : port_inv (NewPortManager lo hi) /\
  (forall P, ports_satisfy P (NewPortManager lo hi)) /\
  (0 < lo < hi -> pt_minPort (NewPortManager lo hi) = lo /\ pt_maxPort (NewPortManager lo hi) = hi).
Proof.
  unfold NewPortManager.
  assert (Hr : let '(a, b) := (if (lo <=? 0) || (hi <=? 0) then (10000, 20000) else (lo, hi)) in
               0 < a /\ 0 < b /\ (0 < lo < hi -> a = lo /\ b = hi)).
  { destruct (Z.leb_spec lo 0), (Z.leb_spec hi 0); cbn; lia. }
  destruct (if (_ || _)%bool then _ else _) as [a b]. destruct Hr as (Ha & Hb & Hab).
  assert (Hr2 : let '(c, d) := (if b <=? a then (10000, 20000) else (a, b)) in
               0 < c < d /\ (0 < lo < hi -> c = lo /\ d = hi)).
  { destruct (Z.leb_spec b a); lia. }
  destruct (if b <=? a then _ else _) as [c d]. destruct Hr2 as [Hcd Hlo].
  split; [|split; [|done]].
  - constructor; cbn; [done|..].
    + split; cbn; [constructor|]. intros k. rewrite lookup_empty. split; [by intros ?%elem_of_nil|by intros []].
    + unfold Size; cbn. rewrite map_size_empty. cbn. apply Z.div_pos; [|lia]. apply Z.div_pos; lia.
    + split; cbn; [set_solver|]. apply map_Forall_empty.
  - intros P. split; cbn; [set_solver|]. apply map_Forall_empty.
Qed.

Lemma release_port_spec now port pm : port_inv pm ->
  exists pm', ReleasePort now port pm = Some pm' /\ port_inv pm' /\
    pt_usedPorts pm' = pt_usedPorts pm ∖ {[port]} /\
    pt_minPort pm' = pt_minPort pm /\ pt_maxPort pm' = pt_maxPort pm /\
    (forall P : Z -> Prop, ports_satisfy P pm -> ports_satisfy P pm').
Proof.
  intros Hi. unfold ReleasePort, in_use. case_bool_decide as Hp.
  - destruct (release_spec now port pm Hi Hp) as (pm1 & -> & Hi1 & Hu & Hlo & Hhi & HP).
    exists (updateStats pm1). split; [done|]. split; [by apply port_inv_stats|].
    split; [by destruct pm1|]. split; [by destruct pm1|]. split; [by destruct pm1|].
    intros P ?. by apply ports_satisfy_stats, HP.
  - exists pm. split; [done|]. split; [done|]. split; [set_solver|]. done.
Qed.

Lemma release_pair_spec now rtp rtcp pm : port_inv pm ->
  exists pm', ReleasePortPair now (Some (mkPortPair rtp rtcp)) pm = Some pm' /\ port_inv pm' /\
    pt_usedPorts pm' = pt_usedPorts pm ∖ {[rtp; rtcp]} /\
    pt_minPort pm' = pt_minPort pm /\ pt_maxPort pm' = pt_maxPort pm /\
    (forall P : Z -> Prop, ports_satisfy P pm -> ports_satisfy P pm').
Proof.
  intros Hi. unfold ReleasePortPair. cbn [RTPPort RTCPPort].
  assert (H1 : exists pm1, (if in_use pm rtp then remember_freed now rtp (free_port rtp pm) else Some pm)
      = Some pm1 /\ port_inv pm1 /\ pt_usedPorts pm1 = pt_usedPorts pm ∖ {[rtp]} /\
    pt_minPort pm1 = pt_minPort pm /\ pt_maxPort pm1 = pt_maxPort pm /\
    (forall P : Z -> Prop, ports_satisfy P pm -> ports_satisfy P pm1)).
  { unfold in_use. case_bool_decide as Hp; [by apply release_spec|].
    exists pm. split; [done|]. split; [done|]. split; [set_solver|]. done. }
  destruct H1 as (pm1 & -> & Hi1 & Hu & Hlo & Hhi & HP). cbn.
  eexists. split; [reflexivity|]. unfold in_use. case_bool_decide as Hp.
  - pose proof Hi1 as [_ _ _ [Hin _]].
    split; [apply port_inv_stats, port_inv_used; [done|set_solver]|].
    split; [destruct pm1; cbn in *; set_solver|]. split; [by destruct pm1|]. split; [by destruct pm1|].
    intros P HPm. apply ports_satisfy_stats, ports_satisfy_used; [by apply HP|]. destruct (HP P HPm). set_solver.
  - split; [by apply port_inv_stats|]. split; [destruct pm1; cbn in *; set_solver|].
    split; [by destruct pm1|]. split; [by destruct pm1|]. intros P ?. by apply ports_satisfy_stats, HP.
Qed.

Section reachable.
Context `{!GoMapRange string} `{!GoMapRange Z}.

(** What an operation keeps: the invariant, the range and, for a property of
    ports that holds of everything allocation can return, that property. *)
Lemma port_step_inv pm op pm' (P : Z -> Prop) : port_inv pm -> ports_satisfy P pm ->
  (forall p, pt_minPort pm <= p <= pt_maxPort pm -> Z.even (p - pt_minPort pm) = true -> P p) ->
  (forall p, P p -> Z.even p = true -> P (p + 1)) ->
  port_step pm op = Some pm' ->
  port_inv pm' /\ ports_satisfy P pm' /\ pt_minPort pm' = pt_minPort pm /\ pt_maxPort pm' = pt_maxPort pm.
Proof.
  intros Hi HP Hscan Hnext Hstep.
  destruct op as [clock n avail|clock n avail|now port|now [[rtp rtcp]|]]; cbn [port_step] in Hstep.
  - injection Hstep as <-. pose proof (allocate_port_spec clock n avail pm P Hi HP Hscan) as H.
    destruct (AllocatePort _ _ _ _). cbn. destruct H as (? & ? & ? & ? & _). done.
  - injection Hstep as <-. pose proof (allocate_pair_spec clock n avail pm P Hi HP) as H.
    destruct (AllocatePortPair _ _ _ _). cbn. destruct H as (? & ? & ? & ? & _); [|done..].
    intros q Hlo Hhi Hev _. apply Hscan; [lia|done].
  - destruct (release_port_spec now port pm Hi) as (pm1 & E & H1 & _ & H3 & H4 & H5).
    rewrite E in Hstep. injection Hstep as <-. auto.
  - destruct (release_pair_spec now rtp rtcp pm Hi) as (pm1 & E & H1 & _ & H3 & H4 & H5).
    rewrite E in Hstep. injection Hstep as <-. auto.
  - injection Hstep as <-. auto.
Qed.

Lemma reachable_inv lo hi pm : port_reachable lo hi pm -> port_inv pm.
Proof.
  induction 1 as [|pm op pm' _ IH Hstep]; [apply new_port_inv|].
  eapply (port_step_inv pm op pm' (fun _ => True)); eauto using ports_satisfy_true.
Qed.

(** With an odd lower end every port ever allocated is odd. *)
Lemma reachable_odd lo hi pm : 0 < lo < hi -> Z.even lo = false -> port_reachable lo hi pm ->
  port_inv pm /\ ports_satisfy (fun p => Z.even p = false) pm /\ pt_minPort pm = lo /\ pt_maxPort pm = hi.
Proof.
  intros Hr Hlo. induction 1 as [|pm op pm' _ (Hi & Ho & Hmin & Hmax) Hstep].
  - destruct (new_port_inv lo hi) as (H1 & H2 & H3). split; [done|]. split; [apply H2|]. by apply H3.
  - rewrite <- Hmin, <- Hmax.
    apply (port_step_inv pm op pm' (fun p => Z.even p = false)); [done|done| | |done].
    + intros p _ He. rewrite Z.even_sub, Hmin, Hlo in He. by destruct (Z.even p).
    + intros p H1 H2. congruence.
Qed.
End reachable.

(** ** Properties *)


(** A range with one pair in use. *)
Definition sample_ports : PortManager :=
  (@AllocatePortPair (list_range string) (list_range Z) (fun _ => 0) 0 (fun _ _ => true)
     (NewPortManager 10000 10011)).2.

(** The operating system at the third pass: nothing can be bound. *)
Definition two_passes (i : nat) (p : Z) : bool := (i <? 2)%nat.

Lemma sample_ports_reachable :
  @port_reachable (list_range string) (list_range Z) 10000 10011 sample_ports.
Proof.
  eapply (reach_step _ _ _ (OpAllocatePair (fun _ => 0) 0 (fun _ _ => true))); [apply reach_new|done].
Qed.


(** With an odd lower end of the range no pair is ever allocated: the scan
    steps from it by two and meets odd ports only, so in every reachable state
    [AllocatePortPair] fails, however many ports are free. *)
Theorem odd_range_allocates_no_pair `{!GoMapRange string} `{!GoMapRange Z} (lo hi : Z)
    (pm : PortManager) (clock : nat -> Z) (n : nat) (avail : nat -> Z -> bool) :
  0 < lo < hi -> Z.even lo = false -> port_reachable lo hi pm ->
  (AllocatePortPair clock n avail pm).1 = inr (NoFreePortPairs lo hi).
Proof.
  intros Hr Hodd Hreach. destruct (reachable_odd lo hi pm Hr Hodd Hreach) as (Hi & Ho & Hmin & Hmax).
  pose proof (allocate_pair_spec clock n avail pm (fun p => Z.even p = false) Hi Ho) as H.
  assert (Hscan : forall p, pt_minPort pm <= p -> p + 1 <= pt_maxPort pm ->
    Z.even (p - pt_minPort pm) = true -> Z.even p = true -> Z.even p = false).
  { intros p _ _ H1 H2. rewrite Z.even_sub, H2, Hmin, Hodd in H1. done. }
  specialize (H Hscan ltac:(congruence)).
  pose proof (allocate_pair_error clock n avail pm) as He. rewrite Hmin, Hmax in He.
  destruct (AllocatePortPair _ _ _ _) as [[[rtp rtcp]|e] pm']; cbn in *; [|by f_equal; apply He].
  destruct H as (_ & _ & _ & _ & H1 & H2 & _). congruence.
Qed.

Lemma odd_range_allocates_no_pair_witness :
  (@AllocatePortPair (list_range string) (list_range Z) (fun _ => 0) 0 (fun _ _ => true)
     (NewPortManager 10001 20000)).1 = inr (NoFreePortPairs 10001 20000).
Proof.
  apply (@odd_range_allocates_no_pair (list_range string) (list_range Z) 10001 20000);
    [lia|reflexivity|apply reach_new].
Defined.

(** An entry that does not expire during the scan is found. *)
Lemma freed_ports_complete clock k keys (c : LRUCache Z) key item :
  lc_items c !! key = Some item -> key ∈ keys -> (forall j, clock j <= it_Expiration item) ->
  it_Value item ∈ (freed_ports clock k keys c).1.
Proof.
  intros Hk Hin Hexp. revert k c Hk. induction keys as [|key' keys IH]; intros k c Hk.
  { by apply elem_of_nil in Hin. }
  cbn. destruct (decide (key = key')) as [<-|Hne].
  - unfold Get. rewrite Hk, (proj2 (Z.ltb_ge _ _)) by apply Hexp.
    destruct (freed_ports _ _ _ _). cbn. left.
  - apply elem_of_cons in Hin as [?|Hin]; [done|].
    assert (Hk' : lc_items (Get (clock k) key' c).2 !! key = Some item).
    { unfold Get. destruct (lc_items c !! key') as [i'|]; [|done].
      destruct (_ <? clock k); destruct c; cbn in *; [by rewrite lookup_delete_ne|done]. }
    destruct (Get (clock k) key' c) as [cached c1]. cbn in Hk'.
    specialize (IH Hin (S k) c1 Hk'). destruct (freed_ports _ _ _ _) as [ports c2]. cbn in *.
    destruct cached; [by right|done].
Qed.

Lemma cached_port_cooling `{!GoMapRange string} clock n pm key item :
  lc_items (pt_recentlyUsed pm) !! key = Some item -> (forall j, clock j <= it_Expiration item) ->
  cooling (buildCooldownSet clock n pm).1 (it_Value item) = true.
Proof.
  intros Hk Hexp. unfold buildCooldownSet, getRecentlyFreedPorts.
  assert (Hin : key ∈ Keys n (pt_recentlyUsed pm)).
  { unfold Keys. apply elem_of_map_range_fst. by eexists. }
  pose proof (freed_ports_complete clock 0 _ _ key item Hk Hin Hexp) as Hp.
  destruct (freed_ports _ _ _ _) as [ports c]. cbn in *. unfold cooling.
  destruct (list_to_map _ !! _) as [b|] eqn:E; cbn.
  - apply elem_of_list_to_map_2, list_elem_of_fmap in E as (q & [= _ ->] & _). done.
  - exfalso. apply not_elem_of_list_to_map in E. apply E.
    rewrite list_elem_of_fmap. exists (it_Value item, true). split; [done|].
    apply list_elem_of_fmap. eauto.
Qed.

(** Releasing a pair frees both of its ports and no other, and puts the RTP
    port into cooldown: until the retention time has passed every allocation
    sees it as cooling down. *)
Theorem released_pair_cools_down `{!GoMapRange string} (now rtp rtcp : Z) (pm : PortManager) :
  port_inv pm -> rtp ∈ pt_usedPorts pm -> 0 < lc_maxSize (pt_recentlyUsed pm) ->
  exists pm', ReleasePortPair now (Some (mkPortPair rtp rtcp)) pm = Some pm' /\ port_inv pm' /\
    pt_usedPorts pm' = pt_usedPorts pm ∖ {[rtp; rtcp]} /\
    forall clock n, (forall j, clock j <= now + lc_defaultTTL (pt_recentlyUsed pm)) ->
      cooling (buildCooldownSet clock n pm').1 rtp = true.
Proof.
  intros Hi Hu Hmax. destruct (release_pair_spec now rtp rtcp pm Hi) as (pm' & Hrel & Hi' & Hu' & _).
  exists pm'. split; [done|]. split; [done|]. split; [done|]. intros clock n Hclock.
  pose proof Hi as [_ Hc Hs _].
  destruct (set_refines now (port_key rtp) rtp (lc_defaultTTL (pt_recentlyUsed pm)) (pt_recentlyUsed pm) Hc Hs)
    as (c' & Hset & Hc' & _ & _ & _ & Hent).
  assert (Hcache : pt_recentlyUsed pm' = c').
  { revert Hrel. unfold ReleasePortPair, remember_freed, CacheSet, in_use. cbn [RTPPort RTCPPort].
    rewrite bool_decide_eq_true_2 by done.
    assert (pt_recentlyUsed (free_port rtp pm) = pt_recentlyUsed pm) as -> by (by destruct pm).
    rewrite Hset. cbn. intros [= <-]. case_bool_decide; by destruct pm. }
  assert (Hk : lc_items c' !! port_key rtp = Some (mkCacheItem rtp (now + lc_defaultTTL (pt_recentlyUsed pm)))).
  { apply entries_lookup; [done|]. rewrite Hent. destruct (Z.to_nat _) eqn:E; [lia|]. left. }
  rewrite <- Hcache in Hk. by apply (cached_port_cooling clock n pm' _ _ Hk).
Qed.

Lemma released_pair_cools_down_witness :
  exists pm', ReleasePortPair 5 (Some (mkPortPair 10000 10001)) sample_ports = Some pm' /\
    cooling (@buildCooldownSet (list_range string) (fun _ => 6) 0 pm').1 10000 = true.
Proof.
  destruct (@released_pair_cools_down (list_range string) 5 10000 10001 sample_ports)
    as (pm' & H1 & _ & _ & H2).
  - exact (reachable_inv _ _ _ sample_ports_reachable).
  - apply (bool_decide_unpack _). vm_compute. exact I.
  - vm_compute. reflexivity.
  - exists pm'. split; [exact H1|]. apply H2. intros j. vm_compute. discriminate.
Defined.
