(* ===== verification/Ports.v ===== *)
(** * What media forwarders rely on

    The interface between the RTP forwarders and the port manager: allocating a
    pair, releasing it, and which ports are in use.  The laws are what the
    forwarders and the dialogs above them use; the port manager of
    [src/pkg/media/port_manager.go] satisfies them as long as the operating
    system does not hand out a port that is in use, which is [pa_honest]. *)

From S2P Require Import Prelude LruCache PortManager.
#[local] Open Scope Z_scope.

Definition pair_ports (pp : PortPair) : gset Z := {[RTPPort pp; RTCPPort pp]}.

Class PortAllocator (St Oracle : Type) := {
  pa_allocate : Oracle -> St -> option PortPair * St;
  pa_release : Z -> PortPair -> St -> St;
  pa_release_port : Z -> Z -> St -> St;
  pa_used : St -> gset Z;
  pa_inv : St -> Prop;
  pa_honest : Oracle -> St -> Prop;
  pa_allocate_some o s pp s' : pa_inv s -> pa_honest o s -> pa_allocate o s = (Some pp, s') ->
    pa_inv s' /\ 0 < RTPPort pp /\ RTCPPort pp = RTPPort pp + 1 /\
    pair_ports pp ## pa_used s /\ pa_used s' = pair_ports pp ∪ pa_used s;
  pa_allocate_none o s s' : pa_inv s -> pa_allocate o s = (None, s') ->
    pa_inv s' /\ pa_used s' = pa_used s;
  pa_release_spec t pp s : pa_inv s ->
    pa_inv (pa_release t pp s) /\ pa_used (pa_release t pp s) = pa_used s ∖ pair_ports pp;
  pa_release_port_spec t p s : pa_inv s ->
    pa_inv (pa_release_port t p s) /\ pa_used (pa_release_port t p s) = pa_used s ∖ {[p]}
}.

(** What one allocation of the port manager sees of its environment: the clock,
    the number of its map range, and what can be bound. *)
Record PortOracle := mkPortOracle {
  po_clock : nat -> Z;
  po_range : nat;
  po_avail : nat -> Z -> bool
}.

Section instance.
Context `{!GoMapRange string} `{!GoMapRange Z}.

Definition pm_allocate (o : PortOracle) (pm : PortManager) : option PortPair * PortManager :=
  match AllocatePortPair (po_clock o) (po_range o) (po_avail o) pm with
  | (inl pp, pm) => (Some pp, pm)
  | (inr _, pm) => (None, pm)
  end.

Definition pm_honest (o : PortOracle) (pm : PortManager) : Prop :=
  forall i p, p ∈ pt_usedPorts pm -> po_avail o i p = false.

Lemma pm_allocate_spec o pm : port_inv pm ->
  match pm_allocate o pm with
  | (Some pp, pm') => pm_honest o pm ->
      port_inv pm' /\ 0 < RTPPort pp /\ RTCPPort pp = RTPPort pp + 1 /\
      pair_ports pp ## pt_usedPorts pm /\ pt_usedPorts pm' = pair_ports pp ∪ pt_usedPorts pm
  | (None, pm') => port_inv pm' /\ pt_usedPorts pm' = pt_usedPorts pm
  end.
Proof.
  intros Hi. pose proof (allocate_pair_spec (po_clock o) (po_range o) (po_avail o) pm (fun _ => True) Hi
    (ports_satisfy_true pm) ltac:(done) ltac:(done)) as Ha.
  unfold pm_allocate. destruct (AllocatePortPair _ _ _ _) as [[[rtp rtcp]|e] pm']; cbn in *.
  - destruct Ha as (H1 & _ & _ & _ & _ & _ & -> & Hlo & _ & Hu & _ & Hfree & _). intros Ho.
    destruct Hi as [Hr _ _ _]. split; [done|]. split; [lia|]. split; [done|].
    assert (Hout : (rtp ∉ pt_usedPorts pm) /\ (rtp + 1 ∉ pt_usedPorts pm)).
    { destruct Hfree as [?|[F1 F2]]; [done|]. split; intros Hin; apply (Ho 2%nat) in Hin; congruence. }
    unfold pair_ports. cbn. split; [set_solver|]. rewrite Hu. set_solver.
  - destruct Ha as (H1 & _ & _ & _ & Hu & _). done.
Qed.

#[export] Program Instance PortManager_allocator : PortAllocator PortManager PortOracle := {|
  pa_allocate := pm_allocate;
  pa_release := fun t pp pm => default pm (ReleasePortPair t (Some pp) pm);
  pa_release_port := fun t p pm => default pm (ReleasePort t p pm);
  pa_used := pt_usedPorts;
  pa_inv := port_inv;
  pa_honest := pm_honest
|}.
Next Obligation.
  intros o pm pp pm' Hi Ho He. pose proof (pm_allocate_spec o pm Hi) as Hs. rewrite He in Hs. by apply Hs.
Qed.
Next Obligation.
  intros o pm pm' Hi He. pose proof (pm_allocate_spec o pm Hi) as Hs. by rewrite He in Hs.
Qed.
Next Obligation.
  intros t [rtp rtcp] pm Hi. destruct (release_pair_spec t rtp rtcp pm Hi) as (pm' & -> & H1 & H2 & _).
  cbn. split; [done|]. by rewrite H2.
Qed.
Next Obligation.
  intros t p pm Hi. destruct (release_port_spec t p pm Hi) as (pm' & -> & H1 & H2 & _). done.
Qed.
End instance.
