(* ===== verification/PauseIO.v ===== *)
(** * Pausable writer and reader

    [src/pkg/media/pause_writer.go].  The writer drops what is written while it
    is paused.  The reader waits while it is paused: it looks at the flag under
    the lock, and waits on its channels after it released the lock, so its steps
    interleave with [Pause] and [Resume]; the model keeps where the reading
    goroutine is.  [Pause] and [Resume] send on an unbuffered channel without
    blocking, which reaches the reader only when it is already waiting. *)

From S2P Require Import Prelude.
#[local] Open Scope Z_scope.

(** ** The writer *)

(** [pw_written] is what reached the underlying writer; the callbacks are set or
    not, and [Pause] and [Resume] return whether they are called. *)
Record PausableWriter := mkPausableWriter {
  pw_written : list Z;
  pw_paused : bool;
  pw_onPause : bool;
  pw_onResume : bool
}.

Definition NewPausableWriter : PausableWriter := mkPausableWriter [] false false false.

(** The reported length and the writer. *)
Definition PWWrite (p : list Z) (pw : PausableWriter) : Z * PausableWriter :=
  if pw_paused pw then (Z.of_nat (length p), pw)
  else (Z.of_nat (length p), pw <| pw_written := pw_written pw ++ p |>).

Definition PWPause (pw : PausableWriter) : bool * PausableWriter :=
  if pw_paused pw then (false, pw) else (pw_onPause pw, pw <| pw_paused := true |>).

Definition PWResume (pw : PausableWriter) : bool * PausableWriter :=
  if pw_paused pw then (pw_onResume pw, pw <| pw_paused := false |>) else (false, pw).

Definition SetCallbacks (onPause onResume : bool) (pw : PausableWriter) : PausableWriter :=
  pw <| pw_onPause := onPause |> <| pw_onResume := onResume |>.

Inductive writer_op := WWrite (p : list Z) | WPause | WResume.

Definition writer_step (pw : PausableWriter) (op : writer_op) : PausableWriter :=
  match op with
  | WWrite p => (PWWrite p pw).2
  | WPause => (PWPause pw).2
  | WResume => (PWResume pw).2
  end.

(** What a sequence of operations lets through, starting paused or not. *)
Fixpoint let_through (paused : bool) (ops : list writer_op) : list Z :=
  match ops with
  | [] => []
  | WWrite p :: ops => (if paused then [] else p) ++ let_through paused ops
  | WPause :: ops => let_through true ops
  | WResume :: ops => let_through false ops
  end.

(** The underlying writer receives exactly the writes made while not paused, in
    order, and every write reports its full length. *)
Theorem pausable_writer_filters (ops : list writer_op) (pw : PausableWriter) (p : list Z) :
  pw_written (foldl writer_step pw ops) = pw_written pw ++ let_through (pw_paused pw) ops /\
  (PWWrite p pw).1 = Z.of_nat (length p).
Proof.
  split; [|unfold PWWrite; by destruct (pw_paused pw)].
  revert pw. induction ops as [|op ops IH]; intros pw; cbn [foldl let_through]; [by rewrite app_nil_r|].
  rewrite IH. destruct op; cbn [writer_step]; unfold PWWrite, PWPause, PWResume;
    destruct pw as [w [] ? ?]; cbn; by rewrite <- ?app_assoc.
Qed.

(** ** The reader *)

(** Where the goroutine in [Read] is: before it looks at the flag, between the
    look and the [select], in the [select], or in the underlying reader. *)
Inductive reader_at := AtCheck | BeforeSelect | InSelect | Reading.

Record PausableReader := mkPausableReader {
  pr_paused : bool;
  pr_at : reader_at
}.

Definition NewPausableReader : PausableReader := mkPausableReader false AtCheck.

(** One step of the goroutine in [Read]; [None] while it can only wait. *)
Definition read_step (pr : PausableReader) : option PausableReader :=
  match pr_at pr with
  | AtCheck => Some (pr <| pr_at := if pr_paused pr then BeforeSelect else Reading |>)
  | BeforeSelect => Some (pr <| pr_at := InSelect |>)
  | InSelect => None
  | Reading => Some (pr <| pr_at := AtCheck |>)
  end.

(** The non-blocking send: received only by a reader that is in its [select]. *)
Definition signal (pr : PausableReader) : PausableReader :=
  match pr_at pr with InSelect => pr <| pr_at := AtCheck |> | _ => pr end.

Definition PRPause (pr : PausableReader) : PausableReader :=
  if pr_paused pr then pr else signal (pr <| pr_paused := true |>).

Definition PRResume (pr : PausableReader) : PausableReader :=
  if pr_paused pr then signal (pr <| pr_paused := false |>) else pr.

(** The steps of the reader and of whoever pauses and resumes it. *)
Inductive reader_steps : PausableReader -> PausableReader -> Prop :=
  | rs_refl pr : reader_steps pr pr
  | rs_read pr pr' pr'' : read_step pr = Some pr' -> reader_steps pr' pr'' -> reader_steps pr pr''
  | rs_pause pr pr' : reader_steps (PRPause pr) pr' -> reader_steps pr pr'
  | rs_resume pr pr' : reader_steps (PRResume pr) pr' -> reader_steps pr pr'.

(** Outside the [select] the reader reaches the underlying reader or the
    [select] within two steps, and reads only after it saw the flag clear. *)
Lemma read_step_checks pr pr' :
  read_step pr = Some pr' -> pr_at pr' = Reading -> pr_paused pr = false.
Proof. destruct pr as [[] []]; cbn; intros [= <-]; done. Qed.

(** A resume that falls between the reader's look at the flag and its wait is
    lost: the reader then waits although it is not paused, takes no step on its
    own, and further calls of [Resume] do not wake it. *)
Theorem reader_misses_resume :
  exists pr, reader_steps NewPausableReader pr /\ pr_paused pr = false /\ pr_at pr = InSelect /\
    read_step pr = None /\ forall n, Nat.iter n PRResume pr = pr.
Proof.
  exists (mkPausableReader false InSelect). split.
  - apply rs_pause. eapply rs_read; [reflexivity|]. apply rs_resume.
    eapply rs_read; [reflexivity|]. apply rs_refl.
  - do 3 (split; [done|]). intros n. induction n as [|n IH]; [done|]. rewrite Nat.iter_succ, IH. done.
Qed.

(** A resume that finds the reader waiting reaches it: two steps later it reads. *)
Theorem waiting_reader_resumes (pr : PausableReader) :
  pr_paused pr = true -> pr_at pr = InSelect ->
  exists pr', read_step (PRResume pr) = Some pr' /\ pr_at pr' = Reading /\ pr_paused pr' = false.
Proof.
  destruct pr as [p a]. cbn. intros -> ->. eexists. split; [reflexivity|]. done.
Qed.
