(* ===== verification/Forwarder.v ===== *)
(** * RTP forwarders

    The state of an [RTPForwarder] of [src/pkg/media/types.go] and its
    operations: creation with a port pair, codec information, stopping, pausing,
    muting and cleanup, and the inactivity monitor of [src/pkg/media/rtp.go].
    Each operation runs under the mutex of the state it changes and is one step.

    A closed [StopChan] is [fw_stopped]; of the recording session only the
    presence and the ID are kept.  The recording files on disk are a set of
    paths.  Logging a change reads the ID of the session, so pausing or muting a
    forwarder without a session is a nil dereference, the result [None].  The
    redaction of personal data at the cleanup is in [PiiRedaction]. *)

From S2P Require Import Prelude GoStrings Metadata RtpStats LruCache PortManager Ports PauseIO.
From Stdlib Require Import Ascii String.
#[local] Open Scope string_scope.
#[local] Open Scope list_scope.
#[local] Open Scope Z_scope.

Record UDPAddr := mkUDPAddr { ua_IP : string; ua_Port : Z; ua_Zone : string }.

Record RTPForwarder := mkRTPForwarder {
  fw_LocalPort : Z;
  fw_RTCPPort : Z;
  fw_stopped : bool;
  fw_CallUUID : string;
  fw_lastRTPNano : Time;
  fw_Timeout : Duration;
  fw_RecordingSession : option string;
  fw_RecordingPaused : bool;
  fw_isCleanedUp : bool;
  fw_RecordingPath : string;
  fw_CodecPayloadType : Z;
  fw_CodecName : string;
  fw_SampleRate : Z;
  fw_Channels : Z;
  fw_TranscriptionPaused : bool;
  fw_PausedAt : option Time;
  fw_recordingWriter : option PausableWriter;
  fw_transcriptionReader : option PausableReader;
  fw_InboundMuted : bool;
  fw_OutboundMuted : bool;
  fw_MutedAt : option Time;
  fw_SRTPEnabled : bool;
  fw_SRTPMasterKey : list Z;
  fw_SRTPMasterSalt : list Z;
  fw_SRTPKeyLifetime : Z;
  fw_SRTPProfile : string;
  fw_AudioEncoder : bool;
  fw_TargetFormat : string;
  fw_RemoteRTPAddr : option UDPAddr;
  fw_RemoteRTCPAddr : option UDPAddr;
  fw_ExpectedRemoteRTCPPort : Z;
  fw_UseRTCPMux : bool;
  fw_RTPSuspended : bool;
  fw_LocalSSRC : Z;
  fw_RemoteSSRC : Z;
  fw_RTPStats : rtpStreamStats;
  fw_FirstRTPTimestamp : Z;
  fw_FirstRTPWallClock : Time;
  fw_HasFirstRTP : bool
}.

(** ** Creation *)

(** [ssrc] is the random SSRC. *)
Definition new_forwarder (pp : PortPair) (timeout : Duration) (session : option string) (ssrc : Z)
    : RTPForwarder := {|
  fw_LocalPort := RTPPort pp; fw_RTCPPort := RTCPPort pp; fw_stopped := false; fw_CallUUID := "";
  fw_lastRTPNano := 0; fw_Timeout := timeout; fw_RecordingSession := session; fw_RecordingPaused := false;
  fw_isCleanedUp := false; fw_RecordingPath := ""; fw_CodecPayloadType := 0; fw_CodecName := "";
  fw_SampleRate := 0; fw_Channels := 0; fw_TranscriptionPaused := false; fw_PausedAt := None;
  fw_recordingWriter := None; fw_transcriptionReader := None; fw_InboundMuted := false;
  fw_OutboundMuted := false; fw_MutedAt := None; fw_SRTPEnabled := false; fw_SRTPMasterKey := [];
  fw_SRTPMasterSalt := []; fw_SRTPKeyLifetime := 2 ^ 31; fw_SRTPProfile := "AES_CM_128_HMAC_SHA1_80";
  fw_AudioEncoder := false; fw_TargetFormat := ""; fw_RemoteRTPAddr := None; fw_RemoteRTCPAddr := None;
  fw_ExpectedRemoteRTCPPort := 0; fw_UseRTCPMux := false; fw_RTPSuspended := false; fw_LocalSSRC := ssrc;
  fw_RemoteSSRC := 0; fw_RTPStats := newRTPStreamStats; fw_FirstRTPTimestamp := 0;
  fw_FirstRTPWallClock := 0; fw_HasFirstRTP := false
|}.

(** [None] when no pair is free. *)
Definition NewRTPForwarder `{PortAllocator St Oracle} (o : Oracle) (timeout : Duration)
    (session : option string) (ssrc : Z) (pm : St) : option RTPForwarder * St :=
  match pa_allocate o pm with
  | (Some pp, pm) => (Some (new_forwarder pp timeout session ssrc), pm)
  | (None, pm) => (None, pm)
  end.

(** ** Codec, stop, remote SSRC *)

Definition SetCodecInfo `{Unicode} (payloadType : Z) (codecName : string) (sampleRate channels : Z)
    (f : RTPForwarder) : RTPForwarder :=
  let f := f <| fw_CodecPayloadType := payloadType |> <| fw_CodecName := to_upper codecName |>
             <| fw_SampleRate := if sampleRate <=? 0 then 8000 else sampleRate |>
             <| fw_Channels := if channels <=? 0 then 1 else channels |> in
  if 0 <? sampleRate then f <| fw_RTPStats := SetClockRate sampleRate (fw_RTPStats f) |> else f.

Definition codec_info (f : RTPForwarder) : Z * string * Z * Z :=
  (fw_CodecPayloadType f, fw_CodecName f, fw_SampleRate f, fw_Channels f).

Definition Stop (f : RTPForwarder) : RTPForwarder := f <| fw_stopped := true |>.

Definition ResetRemoteSSRC (f : RTPForwarder) : RTPForwarder :=
  f <| fw_RemoteSSRC := 0 |> <| fw_RTPSuspended := false |>.

(** ** Pause and resume *)

Definition Pause (now : Time) (pauseRecording pauseTranscription : bool) (f : RTPForwarder)
    : option RTPForwarder :=
  let f := if pauseRecording
           then f <| fw_RecordingPaused := true |>
                  <| fw_recordingWriter := (fun w => (PWPause w).2) <$> fw_recordingWriter f |> else f in
  let f := if pauseTranscription
           then f <| fw_TranscriptionPaused := true |>
                  <| fw_transcriptionReader := PRPause <$> fw_transcriptionReader f |> else f in
  if fw_RecordingPaused f || fw_TranscriptionPaused f then
    let f := f <| fw_PausedAt := Some now |> in
    _ ← fw_RecordingSession f; Some f
  else Some f.

Definition Resume (f : RTPForwarder) : option RTPForwarder :=
  let wasRecordingPaused := fw_RecordingPaused f in
  let wasTranscriptionPaused := fw_TranscriptionPaused f in
  let f := f <| fw_RecordingPaused := false |> <| fw_TranscriptionPaused := false |> <| fw_PausedAt := None |> in
  let f := if wasRecordingPaused
           then f <| fw_recordingWriter := (fun w => (PWResume w).2) <$> fw_recordingWriter f |> else f in
  let f := if wasTranscriptionPaused
           then f <| fw_transcriptionReader := PRResume <$> fw_transcriptionReader f |> else f in
  if wasRecordingPaused || wasTranscriptionPaused then _ ← fw_RecordingSession f; Some f else Some f.

Definition IsPaused (f : RTPForwarder) : bool := fw_RecordingPaused f || fw_TranscriptionPaused f.

Definition GetPauseStatus (f : RTPForwarder) : bool * bool * option Time :=
  (fw_RecordingPaused f, fw_TranscriptionPaused f, fw_PausedAt f).

(** ** Mute *)

Definition muted (f : RTPForwarder) : bool := fw_InboundMuted f || fw_OutboundMuted f.

Definition mute_changed (f f' : RTPForwarder) : bool :=
  negb (Bool.eqb (fw_InboundMuted f') (fw_InboundMuted f)) ||
  negb (Bool.eqb (fw_OutboundMuted f') (fw_OutboundMuted f)).

(** A change is logged with the ID of the session. *)
Definition log_mute (f f' : RTPForwarder) : option RTPForwarder :=
  if mute_changed f f' then _ ← fw_RecordingSession f'; Some f' else Some f'.

Definition Mute (now : Time) (muteInbound muteOutbound : bool) (f : RTPForwarder) : option RTPForwarder :=
  let f' := if muteInbound then f <| fw_InboundMuted := true |> else f in
  let f' := if muteOutbound then f' <| fw_OutboundMuted := true |> else f' in
  let f' := if muted f' then f' <| fw_MutedAt := Some (default now (fw_MutedAt f')) |> else f' in
  log_mute f f'.

Definition Unmute (unmuteInbound unmuteOutbound : bool) (f : RTPForwarder) : option RTPForwarder :=
  let f' := if unmuteInbound then f <| fw_InboundMuted := false |> else f in
  let f' := if unmuteOutbound then f' <| fw_OutboundMuted := false |> else f' in
  let f' := if muted f' then f' else f' <| fw_MutedAt := None |> in
  log_mute f f'.

Definition UnmuteAll (f : RTPForwarder) : option RTPForwarder := Unmute true true f.

Definition GetMuteStatus (f : RTPForwarder) : bool * bool * option Time :=
  (fw_InboundMuted f, fw_OutboundMuted f, fw_MutedAt f).

(** ** Cleanup *)

(** What is outside of a forwarder: the ports and the recording files. *)
Record Platform (St : Type) := mkPlatform { pl_ports : St; pl_files : gset string }.
Arguments mkPlatform {St}.
Arguments pl_ports {St}.
Arguments pl_files {St}.

(** The encoder and the storage back end, as the results of their calls:
    [mo_encode src dst] converted the file, [mo_upload path] uploaded it, and
    [mo_keep] keeps the local copy. *)
Record MediaOracle := mkMediaOracle {
  mo_encode : string -> string -> bool;
  mo_storage : bool;
  mo_upload : string -> bool;
  mo_keep : bool
}.

Definition wav_suffix : string := ".wav".

Definition converted_path (f : RTPForwarder) : string :=
  trim_suffix (fw_RecordingPath f) wav_suffix +:+ "." +:+ fw_TargetFormat f.

Definition converts (mo : MediaOracle) (f : RTPForwarder) : bool :=
  fw_AudioEncoder f && negb (String.eqb (fw_RecordingPath f) "") && negb (String.eqb (fw_TargetFormat f) "") &&
  negb (String.eqb (fw_TargetFormat f) "wav") && mo_encode mo (fw_RecordingPath f) (converted_path f).

Definition convert_recording (mo : MediaOracle) (f : RTPForwarder) (files : gset string)
    : RTPForwarder * gset string :=
  if converts mo f
  then (f <| fw_RecordingPath := converted_path f |>,
        {[converted_path f]} ∪ files ∖ {[fw_RecordingPath f]})
  else (f, files).

Definition upload_recording (mo : MediaOracle) (f : RTPForwarder) (files : gset string) : gset string :=
  if mo_storage mo && negb (String.eqb (fw_RecordingPath f) "") && mo_upload mo (fw_RecordingPath f) &&
     negb (mo_keep mo)
  then files ∖ {[fw_RecordingPath f]} else files.

Definition release_ports `{PortAllocator St Oracle} (now : Time) (f : RTPForwarder) (pm : St) : St :=
  if 0 <? fw_RTCPPort f then pa_release now (mkPortPair (fw_LocalPort f) (fw_RTCPPort f)) pm
  else pa_release_port now (fw_LocalPort f) pm.

Definition Cleanup `{PortAllocator St Oracle} (mo : MediaOracle) (now : Time) (f : RTPForwarder)
    (pl : Platform St) : RTPForwarder * Platform St :=
  if fw_isCleanedUp f then (f, pl) else
  let f := f <| fw_isCleanedUp := true |> in
  let pm := release_ports now f (pl_ports pl) in
  let '(f, files) := convert_recording mo f (pl_files pl) in
  let files := upload_recording mo f files in
  (f <| fw_SRTPMasterKey := [] |> <| fw_SRTPMasterSalt := [] |>, mkPlatform pm files).

(** ** The inactivity monitor *)

(** One tick of [MonitorRTPTimeout]: the forwarder, whether the warning was
    issued, and whether the monitor goes on.  [now] is read for the elapsed time,
    [now'] for the new activity time. *)
Definition monitor_tick (now now' : Time) (f : RTPForwarder) (warned : bool) : RTPForwarder * bool * bool :=
  if fw_stopped f then (f, warned, false)
  else if fw_TranscriptionPaused f then (f <| fw_lastRTPNano := now' |>, false, true) else
  let timeSinceLastRTP := now - fw_lastRTPNano f in
  let warned := warned || (Z.quot (fw_Timeout f) 2 <? timeSinceLastRTP) in
  if fw_Timeout f <? timeSinceLastRTP then
    match fw_RecordingSession f with
    | Some _ => (f <| fw_RTPSuspended := true |> <| fw_lastRTPNano := now' |>, false, true)
    | None => (Stop f, warned, false)
    end
  else (f, warned, true).

(** ** Operations *)

Inductive fw_op :=
  | OpPause (now : Time) (recording transcription : bool)
  | OpResume
  | OpMute (now : Time) (inbound outbound : bool)
  | OpUnmute (inbound outbound : bool)
  | OpSetCodec (payloadType : Z) (codecName : string) (sampleRate channels : Z)
  | OpStop
  | OpResetSSRC
  | OpTick (now now' : Time) (warned : bool)
  | OpStart (w : PausableWriter).

(** [StartRTPForwarding] gives the forwarder its writer; the reader is not part
    of what follows. *)
Definition attach_writer (w : PausableWriter) (f : RTPForwarder) : RTPForwarder :=
  f <| fw_recordingWriter := Some (w <| pw_paused := false |>) |>.

Definition fw_step `{Unicode} (f : RTPForwarder) (op : fw_op) : option RTPForwarder :=
  match op with
  | OpPause now r t => Pause now r t f
  | OpResume => Resume f
  | OpMute now i o => Mute now i o f
  | OpUnmute i o => Unmute i o f
  | OpSetCodec pt name rate ch => Some (SetCodecInfo pt name rate ch f)
  | OpStop => Some (Stop f)
  | OpResetSSRC => Some (ResetRemoteSSRC f)
  | OpTick now now' w => Some (monitor_tick now now' f w).1.1
  | OpStart w => Some (attach_writer w f)
  end.

Fixpoint fw_run `{Unicode} (f : RTPForwarder) (ops : list fw_op) : option RTPForwarder :=
  match ops with
  | [] => Some f
  | op :: ops => f ← fw_step f op; fw_run f ops
  end.

(** A forwarder as the operations keep it: the pause time is there exactly while
    something is paused, the mute time exactly while something is muted, only a
    paused recording has a paused writer, and rate and channels are never
    negative. *)
Record fw_ok (f : RTPForwarder) : Prop := {
  ok_paused : is_Some (fw_PausedAt f) <-> IsPaused f = true;
  ok_muted : is_Some (fw_MutedAt f) <-> muted f = true;
  ok_writer : forall w, fw_recordingWriter f = Some w -> pw_paused w = true -> fw_RecordingPaused f = true;
  ok_codec : 0 <= fw_SampleRate f /\ 0 <= fw_Channels f
}.

Lemma new_forwarder_ok pp timeout session ssrc : fw_ok (new_forwarder pp timeout session ssrc).
Proof. split; cbn; [..|done]; try (by split; [intros [? ?]|]); done. Qed.

(** What only touches other fields keeps [fw_ok]. *)
Lemma fw_ok_same f f' :
  fw_PausedAt f' = fw_PausedAt f -> IsPaused f' = IsPaused f -> fw_MutedAt f' = fw_MutedAt f ->
  muted f' = muted f -> fw_recordingWriter f' = fw_recordingWriter f ->
  fw_RecordingPaused f' = fw_RecordingPaused f -> fw_SampleRate f' = fw_SampleRate f ->
  fw_Channels f' = fw_Channels f -> fw_ok f -> fw_ok f'.
Proof. intros H1 H2 H3 H4 H5 H6 H7 H8 [A B C D]. split; rewrite ?H1, ?H2, ?H3, ?H4, ?H5, ?H6, ?H7, ?H8; done. Qed.

Lemma pause_ok now r t f f' : Pause now r t f = Some f' -> fw_ok f -> fw_ok f'.
Proof.
  unfold Pause. cbv zeta. intros Hp [A B C D].
  destruct r, t; destruct f as [? ? ? ? ? ? [sid|] rp ? ? ? ? ? ? tp ? w]; cbn in *;
    destruct rp, tp; cbn in *; simplify_eq; split; cbn in *; try done;
    try (by split; [|eauto]); try (intros w' Hw; destruct w as [pw|]; simplify_eq/=; by eauto).
Qed.

Lemma resume_ok f f' : Resume f = Some f' ->
  IsPaused f' = false /\ fw_PausedAt f' = None /\
  (fw_ok f -> fw_ok f' /\ forall w, fw_recordingWriter f' = Some w -> pw_paused w = false).
Proof.
  unfold Resume. cbv zeta. intros Hr.
  assert (Hw : forall w, pw_paused (PWResume w).2 = false) by (by intros [? [] ? ?]).
  destruct f as [? ? ? ? ? ? [sid|] [] ? ? ? ? ? ? [] ? w]; cbn in *; simplify_eq; cbn;
    (split; [done|]); (split; [done|]); intros [A B C D]; cbn in *; (split; [split; cbn in *; try done|]);
    try (by split; [intros [? ?]|]); intros w' Hw'; destruct w as [pw|]; simplify_eq/=; try (by rewrite Hw);
    intros; destruct (pw_paused w') eqn:E; try done; exfalso; by specialize (C _ eq_refl E).
Qed.

Lemma log_mute_some f g f' : log_mute f g = Some f' -> f' = g.
Proof. unfold log_mute. destruct (mute_changed f g), (fw_RecordingSession g); cbn; congruence. Qed.

Lemma mute_ok now i o f f' : Mute now i o f = Some f' -> fw_ok f -> fw_ok f'.
Proof.
  unfold Mute. cbv zeta. intros ->%log_mute_some [A B C D].
  destruct i, o, f as [? ? ? ? ? ? ? ? ? ? ? ? ? ? ? ? ? ? im om ma]; cbn in *; destruct im, om, ma; cbn in *;
    split; cbn; try done; try (by split; [|eauto]).
Qed.

Lemma unmute_ok i o f f' : Unmute i o f = Some f' -> fw_ok f -> fw_ok f'.
Proof.
  unfold Unmute. cbv zeta. intros ->%log_mute_some [A B C D].
  destruct i, o, f as [? ? ? ? ? ? ? ? ? ? ? ? ? ? ? ? ? ? im om ma]; cbn in *; destruct im, om; cbn in *;
    split; cbn; try done; try (by split; [intros [? ?]|]).
Qed.

Lemma fw_step_ok `{Unicode} f op f' : fw_step f op = Some f' -> fw_ok f -> fw_ok f'.
Proof.
  destruct op; cbn [fw_step].
  - apply pause_ok.
  - intros Hr Hf. by apply (resume_ok f f' Hr).
  - apply mute_ok.
  - apply unmute_ok.
  - intros [= <-] [A B C D]. unfold SetCodecInfo. cbv zeta.
    destruct f. destruct (Z.ltb_spec 0 sampleRate), (Z.leb_spec sampleRate 0), (Z.leb_spec channels 0);
      split; cbn in *; try done; lia.
  - intros [= <-]. apply fw_ok_same; by destruct f.
  - intros [= <-]. apply fw_ok_same; by destruct f.
  - intros [= <-]. unfold monitor_tick.
    destruct (fw_stopped f); [done|]. destruct (fw_TranscriptionPaused f); [apply fw_ok_same; by destruct f|].
    cbv zeta. destruct (_ <? _); [|done]. destruct (fw_RecordingSession f); apply fw_ok_same; by destruct f.
  - intros [= <-] [A B C D]. destruct f. split; cbn in *; try done. intros w' [= <-]. by destruct w.
Qed.

Lemma fw_run_ok `{Unicode} ops f f' : fw_run f ops = Some f' -> fw_ok f -> fw_ok f'.
Proof.
  revert f. induction ops as [|op ops IH]; intros f; cbn; [by intros [= ->]|].
  destruct (fw_step f op) as [g|] eqn:E; cbn; [|done]. intros Hr Hf. eapply IH; [done|]. by eapply fw_step_ok.
Qed.

(** ** Theorems *)

(** From its creation and whatever operations follow in whatever order, a
    forwarder keeps its type invariant: the pause time is set exactly while
    recording or transcription is paused, the mute time exactly while a direction
    is muted, and rate and channel count are never negative.  Resuming leaves
    nothing paused and the writer open. *)
Theorem forwarder_invariant `{Unicode} (pp : PortPair) (timeout : Duration) (session : option string)
    (ssrc : Z) (ops : list fw_op) (f : RTPForwarder) :
  fw_run (new_forwarder pp timeout session ssrc) ops = Some f ->
  fw_ok f /\ forall f', Resume f = Some f' -> IsPaused f' = false /\ fw_PausedAt f' = None /\
    forall w, fw_recordingWriter f' = Some w -> pw_paused w = false.
Proof.
  intros Hr. assert (Hf : fw_ok f) by (eapply fw_run_ok; [done|apply new_forwarder_ok]). split; [done|].
  intros f' Hf'. destruct (resume_ok f f' Hf') as (H1 & H2 & H3). split_and!; [done..|]. by apply H3.
Qed.

Lemma forwarder_invariant_witness :
  exists f, fw_run (H := ascii_only) (new_forwarder (mkPortPair 10000 10001) 30 (Some "s1") 7)
    [OpStart NewPausableWriter; OpPause 5 true false; OpMute 6 true false; OpResume; OpPause 9 false true] = Some f /\
    fw_ok f.
Proof.
  eexists. split; [vm_compute; reflexivity|].
  refine (proj1 (@forwarder_invariant ascii_only (mkPortPair 10000 10001) 30 (Some "s1") 7
    [OpStart NewPausableWriter; OpPause 5 true false; OpMute 6 true false; OpResume; OpPause 9 false true] _ _)).
  vm_compute. reflexivity.
Defined.

Lemma cleanup_fields `{PortAllocator St Oracle} mo now f (pl : Platform St) :
  let r := Cleanup mo now f pl in
  fw_isCleanedUp r.1 = true /\ fw_LocalPort r.1 = fw_LocalPort f /\ fw_RTCPPort r.1 = fw_RTCPPort f /\
  fw_stopped r.1 = fw_stopped f /\
  (fw_isCleanedUp f = false -> pl_ports r.2 = release_ports now f (pl_ports pl)).
Proof.
  cbv zeta. unfold Cleanup. destruct (fw_isCleanedUp f) eqn:E; [done|]. cbv zeta.
  unfold convert_recording. destruct (converts _ _); cbn; destruct f; cbn in *; done.
Qed.

Lemma release_ports_spec `{PortAllocator St Oracle} now f pm :
  pa_inv pm -> 0 < fw_RTCPPort f ->
  pa_inv (release_ports now f pm) /\
  pa_used (release_ports now f pm) = pa_used pm ∖ {[fw_LocalPort f; fw_RTCPPort f]}.
Proof.
  intros Hi Hp. unfold release_ports. replace (0 <? fw_RTCPPort f) with true by lia.
  by apply (pa_release_spec now (mkPortPair (fw_LocalPort f) (fw_RTCPPort f))).
Qed.

(** C35: Cleanup of a forwarder returns its port pair exactly once.  The first
    cleanup frees the two ports and nothing else; every later one, whoever calls
    it and whoever owns these ports by then, changes neither the forwarder nor
    the ports nor the files. *)
Theorem cleanup_releases_once `{PortAllocator St Oracle} (mo : MediaOracle) (now : Time)
    (f : RTPForwarder) (pl : Platform St) :
  pa_inv (pl_ports pl) -> 0 < fw_RTCPPort f -> fw_isCleanedUp f = false ->
  let '(f', pl') := Cleanup mo now f pl in
  pa_inv (pl_ports pl') /\
  pa_used (pl_ports pl') = pa_used (pl_ports pl) ∖ {[fw_LocalPort f; fw_RTCPPort f]} /\
  forall mo2 now2 (pl2 : Platform St), Cleanup mo2 now2 f' pl2 = (f', pl2).
Proof.
  intros Hi Hp Hc. destruct (cleanup_fields mo now f pl) as (H1 & _ & _ & _ & H2).
  destruct (Cleanup mo now f pl) as [f' pl']. cbn in *. rewrite (H2 Hc).
  destruct (release_ports_spec now f (pl_ports pl) Hi Hp) as [H3 H4]. split_and!; [done..|].
  intros. unfold Cleanup. by rewrite H1.
Qed.

Definition no_media : MediaOracle := mkMediaOracle (fun _ _ => false) false (fun _ => false) false.

Lemma cleanup_releases_once_witness :
  let H := @PortManager_allocator (list_range string) (list_range Z) in
  let pm := NewPortManager 10000 20000 in
  let f := new_forwarder (mkPortPair 10000 10001) 30 (Some "s1") 7 in
  pa_used (pl_ports (Cleanup no_media 5 f (mkPlatform pm ∅)).2) = pa_used pm ∖ {[10000; 10001]}.
Proof.
  cbv zeta. set (H := @PortManager_allocator (list_range string) (list_range Z)).
  pose proof (@cleanup_releases_once PortManager PortOracle H no_media 5
    (new_forwarder (mkPortPair 10000 10001) 30 (Some "s1") 7) (mkPlatform (NewPortManager 10000 20000) ∅)
    (proj1 (new_port_inv 10000 20000)) ltac:(vm_compute; reflexivity) ltac:(vm_compute; reflexivity)) as Hs.
  destruct (Cleanup _ _ _ _) as [f' pl']. exact (proj1 (proj2 Hs)).
Defined.

(** The monitor stops a forwarder exactly when it serves no recording session,
    is not on hold and has been without packets for longer than its timeout.  A
    forwarder of a recording session is never stopped by it; after the timeout it
    is marked as suspended instead. *)
Theorem monitor_stops_exactly (now now' : Time) (f : RTPForwarder) (warned : bool) :
  let '(f', _, continues) := monitor_tick now now' f warned in
  let idle := negb (fw_stopped f) && negb (fw_TranscriptionPaused f) && (fw_Timeout f <? now - fw_lastRTPNano f) in
  fw_stopped f' = fw_stopped f || (idle && match fw_RecordingSession f with None => true | Some _ => false end) /\
  continues = negb (fw_stopped f') /\
  fw_RTPSuspended f' = fw_RTPSuspended f || (idle && match fw_RecordingSession f with None => false | Some _ => true end).
Proof.
  unfold monitor_tick. destruct (fw_stopped f) eqn:Es; [cbn; by rewrite Es, orb_false_r|].
  destruct (fw_TranscriptionPaused f); [destruct f; cbn in *; subst; by rewrite !orb_false_r|].
  cbv zeta. destruct (_ <? now - _); cbn [negb andb].
  - destruct (fw_RecordingSession f); destruct f; cbn in *; subst; by rewrite ?orb_true_r, ?orb_false_r.
  - rewrite Es. cbn. by rewrite orb_false_r.
Qed.
