(* ===== verification/RtpStream.v ===== *)
(** * The RTP pipeline of a forwarder

    The packet handling of [StartRTPForwarding] in [src/pkg/media/rtp.go]: which
    synchronization source (SSRC) is accepted, codec and payload-type tracking,
    the optional jitter buffer, gaps in the stream, decoding, and what reaches
    the recording and the transcription.

    A packet is what [rtp.Packet.Unmarshal] returns for a datagram, decrypted when
    SRTP is on.  The variables of the goroutine are [RtpWorld], together with the
    forwarder it works on, the WAV writer of [WavFile] and the pipe of
    [BufferedPipe].  The stream decoders around the C libraries and the audio
    processor are the class [StreamCodecs].  A step without a result ([None]) is a
    panic, which ends the goroutine.  Writes to the recording file do not fail.
    Variables that only decide what is logged are left out. *)

From S2P Require Import Prelude GoStrings Metadata GoFloat RtpStats LruCache PortManager Ports PauseIO Forwarder WavFile AudioDecode BufferedPipe Heap JitterBuffer.
From Stdlib Require Import Ascii String.
#[local] Open Scope string_scope.
#[local] Open Scope list_scope.
#[local] Open Scope Z_scope.

(** ** The C libraries and the audio processor *)

Class StreamCodecs := {
  G729Stream : Type;
  g729_new : G729Stream;
  g729_decode : list Z -> Z -> G729Stream -> option (list Z) * G729Stream;
  g729_conceal : Z -> Z -> G729Stream -> list Z * G729Stream;
  OpusStream : Type;
  opus_new : Z -> Z -> option OpusStream;
  opus_decode : list Z -> OpusStream -> option (list Z) * OpusStream;
  opus_conceal : Z -> OpusStream -> option (list Z) * OpusStream;
  opus_packet : list Z -> CodecInfo -> decode_error + list Z;
  g729_packet : list Z -> decode_error + list Z;
  Processor : Type;
  process_audio : list Z -> Processor -> option (list Z) * Processor
}.

(** ** State *)

Record RtpWorld `{StreamCodecs} := mkRtpWorld {
  rw_fwd : RTPForwarder;
  rw_firstPacketReceived : bool;
  rw_ssrcMismatchCount : Z;
  rw_lastAcceptedSSRC : Z;
  rw_lastSeq : option Z;
  rw_lastTimestamp : Z;
  rw_hasLastTimestamp : bool;
  rw_lastDecodedPCMSize : Z;
  rw_ssrcCorrectionCount : Z;
  rw_alternateSSRC : Z;
  rw_alternateSSRCCount : Z;
  rw_packetsSinceLastLockedSSRC : Z;
  rw_g729StreamDec : option G729Stream;
  rw_opusStreamDec : option OpusStream;
  rw_jitterBuffer : option JitterBuffer;
  rw_processor : option Processor;
  rw_WAVWriter : option WAVWriter;
  rw_sttPipe : BufferedPipe;
  rw_sttWriter : bool;
  rw_dtmfCh : option (list Z)
}.

(** The state at the start of the loop, for a WAV file or an encrypted
    recording, with or without transcription and a metrics listener. *)
Definition start_world `{StreamCodecs} (f : RTPForwarder) (wav : option WAVWriter) (jb : option JitterBuffer)
    (p : option Processor) (stt dtmf : bool) : RtpWorld := {|
  rw_fwd := f <| fw_recordingWriter := Some NewPausableWriter |>; rw_firstPacketReceived := false;
  rw_ssrcMismatchCount := 0; rw_lastAcceptedSSRC := 0; rw_lastSeq := None; rw_lastTimestamp := 0;
  rw_hasLastTimestamp := false; rw_lastDecodedPCMSize := 0; rw_ssrcCorrectionCount := 0;
  rw_alternateSSRC := 0; rw_alternateSSRCCount := 0; rw_packetsSinceLastLockedSSRC := 0;
  rw_g729StreamDec := None; rw_opusStreamDec := None; rw_jitterBuffer := jb; rw_processor := p;
  rw_WAVWriter := wav; rw_sttPipe := NewBufferedPipe 4096; rw_sttWriter := stt;
  rw_dtmfCh := if dtmf then Some [] else None
|}.

Definition on_fwd `{StreamCodecs} (g : RTPForwarder -> RTPForwarder) (w : RtpWorld) : RtpWorld :=
  w <| rw_fwd := g (rw_fwd w) |>.

(** What the recording holds. *)
Definition recorded `{StreamCodecs} (w : RtpWorld) : list Z :=
  match fw_recordingWriter (rw_fwd w) with Some pw => pw_written pw | None => [] end.

Definition writer_open (f : RTPForwarder) : bool :=
  match fw_recordingWriter f with Some pw => negb (pw_paused pw) | None => false end.

(** The pausable writer in front of the WAV writer. *)
Definition record_write `{StreamCodecs} (data : list Z) (w : RtpWorld) : RtpWorld :=
  let opened := writer_open (rw_fwd w) in
  let w := on_fwd (fun f => f <| fw_recordingWriter := (fun pw => (PWWrite data pw).2) <$> fw_recordingWriter f |>) w in
  if opened then w <| rw_WAVWriter := (fun ww => (WriterWrite data ww).2) <$> rw_WAVWriter w |> else w.

(** ** Which source is accepted *)

Definition ssrcCorrectionThreshold : Z := 50.
Definition ssrcCorrectionInactivity : Z := 30.

(** The stream state that belongs to one source. *)
Definition forget_stream `{StreamCodecs} (w : RtpWorld) : RtpWorld :=
  w <| rw_lastSeq := None |> <| rw_hasLastTimestamp := false |> <| rw_lastDecodedPCMSize := 0 |>
    <| rw_g729StreamDec := None |>.

Definition lock_ssrc `{StreamCodecs} (ssrc : Z) (w : RtpWorld) : RtpWorld :=
  if fw_RemoteSSRC (rw_fwd w) =? 0 then
    (on_fwd (fun f => f <| fw_RemoteSSRC := ssrc |>) w)
      <| rw_alternateSSRC := 0 |> <| rw_alternateSSRCCount := 0 |> <| rw_packetsSinceLastLockedSSRC := 0 |>
  else w.

Definition correction_blocked `{StreamCodecs} (w : RtpWorld) : bool :=
  fw_TranscriptionPaused (rw_fwd w) || fw_RTPSuspended (rw_fwd w).

(** The candidate that may replace the locked source. *)
Definition track_alternate `{StreamCodecs} (ssrc : Z) (w : RtpWorld) : RtpWorld :=
  let w := w <| rw_packetsSinceLastLockedSSRC := u32 (rw_packetsSinceLastLockedSSRC w + 1) |> in
  if correction_blocked w then w
  else if ssrc =? rw_alternateSSRC w then w <| rw_alternateSSRCCount := u32 (rw_alternateSSRCCount w + 1) |>
  else w <| rw_alternateSSRC := ssrc |> <| rw_alternateSSRCCount := 1 |>.

Definition correct_ssrc `{StreamCodecs} (w : RtpWorld) : RtpWorld :=
  (forget_stream (on_fwd (fun f => f <| fw_RemoteSSRC := rw_alternateSSRC w |>) w))
    <| rw_ssrcCorrectionCount := u32 (rw_ssrcCorrectionCount w + 1) |> <| rw_firstPacketReceived := false |>
    <| rw_alternateSSRC := 0 |> <| rw_alternateSSRCCount := 0 |> <| rw_packetsSinceLastLockedSSRC := 0 |>.

(** Whether a packet of the source is accepted. *)
Definition validate_ssrc `{StreamCodecs} (ssrc : Z) (w : RtpWorld) : bool * RtpWorld :=
  let w := lock_ssrc ssrc w in
  if ssrc =? fw_RemoteSSRC (rw_fwd w) then
    (true, (on_fwd (fun f => f <| fw_RTPSuspended := false |>) w) <| rw_packetsSinceLastLockedSSRC := 0 |>)
  else
    let w := track_alternate ssrc w in
    if negb (correction_blocked w) && (ssrcCorrectionThreshold <=? rw_alternateSSRCCount w) &&
       (ssrcCorrectionInactivity <=? rw_packetsSinceLastLockedSSRC w)
    then (true, correct_ssrc w)
    else (false, w <| rw_ssrcMismatchCount := u64 (rw_ssrcMismatchCount w + 1) |>).

(** ** Bookkeeping of an accepted packet *)

Definition first_packet `{StreamCodecs} (pkt : RtpPacket) (arrival : Time) (w : RtpWorld) : RtpWorld :=
  if rw_firstPacketReceived w then w else
  on_fwd (fun f => if fw_HasFirstRTP f then f else
    f <| fw_FirstRTPTimestamp := pk_Timestamp pkt |> <| fw_FirstRTPWallClock := arrival |>
      <| fw_HasFirstRTP := true |>) (w <| rw_firstPacketReceived := true |>).

Definition deriveRemoteRTCPAddr (f : RTPForwarder) (addr : UDPAddr) : UDPAddr :=
  if fw_UseRTCPMux f then addr else
  let port := if fw_ExpectedRemoteRTCPPort f =? 0 then ua_Port addr + 1 else fw_ExpectedRemoteRTCPPort f in
  mkUDPAddr (ua_IP addr) port (ua_Zone addr).

(** The SSRC is set before, unless it is zero. *)
Definition updateRemoteSession (addr : option UDPAddr) (pkt : RtpPacket) (f : RTPForwarder) : RTPForwarder :=
  match addr with
  | None => f
  | Some a =>
    let f := match fw_RemoteRTPAddr f with None => f <| fw_RemoteRTPAddr := Some a |> | Some _ => f end in
    let f := match fw_RemoteRTCPAddr f with
             | None => f <| fw_RemoteRTCPAddr := Some (deriveRemoteRTCPAddr f a) |>
             | Some _ => f
             end in
    if fw_RemoteSSRC f =? 0 then f <| fw_RemoteSSRC := pk_SSRC pkt |> else f
  end.

Definition accept_packet `{StreamCodecs} (pkt : RtpPacket) (arrival now : Time) (addr : option UDPAddr)
    (w : RtpWorld) : RtpWorld :=
  let w := on_fwd (fun f => f <| fw_lastRTPNano := now |>) w in
  let w := first_packet pkt arrival w in
  let w := if negb (rw_lastAcceptedSSRC w =? 0) && negb (pk_SSRC pkt =? rw_lastAcceptedSSRC w)
           then forget_stream w else w in
  let w := w <| rw_lastAcceptedSSRC := pk_SSRC pkt |> in
  let w := on_fwd (fun f => f <| fw_RTPStats := Update (Some pkt) arrival (fw_RTPStats f) |>) w in
  on_fwd (updateRemoteSession addr pkt) w.

(** ** Codec *)

(** The codec the packet is handled with, and the world with the forwarder and
    the WAV header brought up to date. *)
Definition track_codec `{Unicode} `{StreamCodecs} (pt : Z) (w : RtpWorld) : Z * string * Z * Z * RtpWorld :=
  let '(currentPT, name, rate, channels) := codec_info (rw_fwd w) in
  let w := if currentPT =? 0 then on_fwd (SetCodecInfo pt name rate channels) w else w in
  if String.eqb name "" || (rate =? 0) then
    match GetCodecInfo pt with
    | Some info =>
      let w := on_fwd (SetCodecInfo pt (co_Name info) (co_SampleRate info) (co_Channels info)) w in
      (currentPT, co_Name info, co_SampleRate info, co_Channels info,
       w <| rw_WAVWriter := (fun ww => (SetFormat (co_SampleRate info) (co_Channels info) ww).2) <$> rw_WAVWriter w |>)
    | None => (currentPT, name, rate, channels, w)
    end
  else (currentPT, name, rate, channels, w).

Definition dtmf_capacity : nat := 16.

(** A non-blocking send of a DTMF event, of which the payload type is kept. *)
Definition send_dtmf `{StreamCodecs} (pt : Z) (w : RtpWorld) : RtpWorld :=
  match rw_dtmfCh w with
  | Some q => if (List.length q <? dtmf_capacity)%nat then w <| rw_dtmfCh := Some (q ++ [pt]) |> else w
  | None => w
  end.

Definition is_g729 (codecName : string) : bool := bool_decide (codecName ∈ ["G729"; "G.729"; "G729A"]).
Definition is_opus (codecName : string) : bool := bool_decide (codecName ∈ ["OPUS"; "OPUS_MONO"]).

(** ** Gaps *)

(** The length limit of [make] on 64-bit platforms. *)
Definition maxAlloc : Z := 2 ^ 48.

(** [make([]byte, n)] for [n > 0]. *)
Definition silence (n : Z) : option (list Z) :=
  if maxAlloc <? n then None else Some (replicate (Z.to_nat n) 0).

Definition maxPLC : Z := 10.

(** The number of packets missing before [seq], as far as it is concealed. *)
Definition lost_packets (seq expectedNext : Z) : Z :=
  let lost := if expectedNext <? seq then u16 (seq - expectedNext) else seq + (65536 - expectedNext) in
  if maxPLC <? lost then maxPLC else lost.

Definition write_silence `{StreamCodecs} (n : Z) (w : RtpWorld) : option RtpWorld :=
  if 0 <? n then s ← silence n; Some (record_write s w) else Some w.

(** Concealment of [lost] packets: by the codec where it has state, otherwise by
    silence. *)
Definition conceal `{StreamCodecs} (codecName : string) (sampleRate expectedDelta lost : Z) (w : RtpWorld)
    : option RtpWorld :=
  match rw_g729StreamDec w, rw_opusStreamDec w, is_g729 codecName, is_opus codecName with
  | Some dec, _, true, _ =>
    let bytesPerPacket := if rw_lastDecodedPCMSize w <=? 0 then 320 else rw_lastDecodedPCMSize w in
    let '(pcm, dec) := g729_conceal lost bytesPerPacket dec in
    Some (record_write pcm (w <| rw_g729StreamDec := Some dec |>))
  | _, Some dec, _, true =>
    let '(pcm, dec) := opus_conceal (lost * expectedDelta) dec in
    let w := w <| rw_opusStreamDec := Some dec |> in
    Some (match pcm with Some pcm => record_write pcm w | None => w end)
  | _, _, _, _ =>
    let bytesPerPacket := if rw_lastDecodedPCMSize w <=? 0 then PCMBytesPerPacket sampleRate
                          else rw_lastDecodedPCMSize w in
    write_silence (i64 (lost * bytesPerPacket)) w
  end.

Definition minLargeGapSeconds : Z := 3.
Definition maxLargeGapSeconds : Z := 120.

(** Silence for a long pause of the stream. *)
Definition fill_gap `{StreamCodecs} (sampleRate tsGap expectedDelta : Z) (w : RtpWorld) : option RtpWorld :=
  let minLargeGap := u32 (sampleRate * minLargeGapSeconds) in
  let maxLargeGap := u32 (sampleRate * maxLargeGapSeconds) in
  if (minLargeGap <=? tsGap) && (tsGap <=? maxLargeGap)
  then write_silence (2 * u32 (tsGap - expectedDelta)) w
  else Some w.

Definition reordered (lastSeq seq : Z) : bool :=
  negb (seq =? u16 (lastSeq + 1)) && (u16 (lastSeq - seq) <? 32768).

(** Whether the packet is reordered, and the world with the gap before it
    handled. *)
Definition handle_gap `{StreamCodecs} (codecName : string) (sampleRate : Z) (pkt : RtpPacket) (w : RtpWorld)
    : option (bool * RtpWorld) :=
  match rw_lastSeq w with
  | None => Some (false, w)
  | Some lastSeq =>
    let expectedNext := u16 (lastSeq + 1) in
    let seq := pk_SequenceNumber pkt in
    if seq =? expectedNext then Some (false, w)
    else if reordered lastSeq seq then Some (true, w)
    else if rw_hasLastTimestamp w then
      let tsGap := u32 (pk_Timestamp pkt - rw_lastTimestamp w) in
      let expectedDelta := u32 (Z.quot sampleRate 50) in
      w ← (if tsGap <=? u32 (Z.quot (i64 (sampleRate * 60)) 1000)
           then conceal codecName sampleRate expectedDelta (lost_packets seq expectedNext) w
           else fill_gap sampleRate tsGap expectedDelta w);
      Some (false, w)
    else Some (false, w)
  end.

(** ** Decoding *)

(** The samples, or [None] for an error that drops the packet; no result for a
    panic. *)
Definition decode_packet `{StreamCodecs} (codecName : string) (sampleRate channels : Z) (pkt : RtpPacket)
    (w : RtpWorld) : option (option (list Z) * RtpWorld) :=
  if is_g729 codecName then
    let '(pcm, dec) := g729_decode (pk_Payload pkt) (pk_SSRC pkt) (default g729_new (rw_g729StreamDec w)) in
    Some (pcm, w <| rw_g729StreamDec := Some dec |>)
  else if is_opus codecName then
    let channels := if channels <=? 0 then (if String.eqb codecName "OPUS_MONO" then 1 else 2) else channels in
    match (match rw_opusStreamDec w with Some dec => Some dec | None => opus_new sampleRate channels end) with
    | Some dec => let '(pcm, dec) := opus_decode (pk_Payload pkt) dec in
                  Some (pcm, w <| rw_opusStreamDec := Some dec |>)
    | None => Some (None, w)
    end
  else
    r ← DecodeAudioPayload opus_packet g729_packet (pk_Payload pkt) codecName;
    Some (match r with inr pcm => Some pcm | inl _ => None end, w).

(** The payload for the recording is always the decoded audio; for the
    transcription it is processed if there is a processor.  [None] when the
    processor fails. *)
Definition prepareRecordingAndTranscriptionPayloads `{StreamCodecs} (pcm : list Z) (w : RtpWorld)
    : option (list Z * list Z) * RtpWorld :=
  match pcm, rw_processor w with
  | [], _ => (Some (pcm, pcm), w)
  | _, None => (Some (pcm, pcm), w)
  | _, Some p =>
    let '(processed, p) := process_audio pcm p in
    ((fun processed => (pcm, processed)) <$> processed, w <| rw_processor := Some p |>)
  end.

(** Handing audio to the transcription pipe; a pipe whose reader is gone is
    given up.  Writing terminates within as many rounds as there are bytes. *)
Definition transcribe `{StreamCodecs} (data : list Z) (w : RtpWorld) : option RtpWorld :=
  if rw_sttWriter w && negb (bool_decide (data = [])) then
    '(r, p) ← Write (List.length data) data (rw_sttPipe w);
    Some (match r with
          | inl _ => w <| rw_sttPipe := p |>
          | inr _ => w <| rw_sttPipe := WriterClose p |> <| rw_sttWriter := false |>
          end)
  else Some w.

(** Recording and transcribing the samples of one packet. *)
Definition deliver `{StreamCodecs} (isReordered : bool) (pcm : list Z) (pkt : RtpPacket) (w : RtpWorld)
    : option RtpWorld :=
  let w := w <| rw_lastDecodedPCMSize := flength pcm |> in
  match prepareRecordingAndTranscriptionPayloads pcm w with
  | (None, w) => Some w
  | (Some (recordingPayload, transcriptionPayload), w) =>
    if fw_RecordingPaused (rw_fwd w) then Some w else
    let w := record_write recordingPayload w in
    let w := if isReordered then w else
      w <| rw_lastSeq := Some (pk_SequenceNumber pkt) |> <| rw_lastTimestamp := pk_Timestamp pkt |>
        <| rw_hasLastTimestamp := true |> in
    transcribe transcriptionPayload w
  end.

(** From the gap handling on: what is left for a packet that is not buffered. *)
Definition process_packet `{StreamCodecs} (codecName : string) (currentSampleRate channels : Z) (pkt : RtpPacket)
    (w : RtpWorld) : option RtpWorld :=
  let codecName := if String.eqb codecName "" then "PCMU" else codecName in
  let sampleRate := if currentSampleRate <=? 0 then 8000 else currentSampleRate in
  '(isReordered, w) ← handle_gap codecName sampleRate pkt w;
  if isReordered && is_g729 codecName then Some w else
  '(pcm, w) ← decode_packet codecName sampleRate channels pkt w;
  match pcm with
  | None | Some [] => Some w
  | Some pcm => deliver isReordered pcm pkt w
  end.

(** ** A packet *)

(** What follows the validation of the source; [buffered] for a packet that comes
    out of the jitter buffer. *)
Definition handle_accepted `{Unicode} `{StreamCodecs} (buffered : bool) (pkt : RtpPacket) (arrival now : Time)
    (addr : option UDPAddr) (w : RtpWorld) : option RtpWorld :=
  let w := accept_packet pkt arrival now addr w in
  let pt := pk_PayloadType pkt in
  let '(currentPT, codecName, sampleRate, channels, w) := track_codec pt w in
  match pk_Payload pkt with
  | [] => Some w
  | _ =>
    if negb (currentPT =? 0) && negb (pt =? currentPT) then Some (send_dtmf pt w) else
    let w := if (pt =? 101) || equal_fold codecName "TELEPHONE-EVENT" then send_dtmf pt w else w in
    match rw_jitterBuffer w with
    | Some jb =>
      if buffered then process_packet codecName sampleRate channels pkt w
      else Some (w <| rw_jitterBuffer := Some (Push (mkBufferedPacket pkt arrival []) jb) |>)
    | None => process_packet codecName sampleRate channels pkt w
    end
  end.

(** [decodeAndProcess] for a packet that parses. *)
Definition decodeAndProcess `{Unicode} `{StreamCodecs} (buffered : bool) (pkt : RtpPacket) (arrival now : Time)
    (addr : option UDPAddr) (w : RtpWorld) : option RtpWorld :=
  let '(ok, w) := validate_ssrc (pk_SSRC pkt) w in
  if ok then handle_accepted buffered pkt arrival now addr w else Some w.

(** ** The loop *)

(** Draining the jitter buffer: [clock] gives the times read on the way.  A
    buffer of [n] packets is drained within [n] rounds, as a drained packet is
    not pushed again. *)
Fixpoint drain_buffer `{Unicode} `{StreamCodecs} (fuel : nat) (clock : nat -> Time) (w : RtpWorld)
    : option RtpWorld :=
  match fuel, rw_jitterBuffer w with
  | S fuel, Some jb =>
    match Pop (clock 0%nat) jb with
    | (Some bp, _, jb) =>
      w ← decodeAndProcess true (bk_Packet bp) (bk_Arrival bp) (clock 1%nat) None (w <| rw_jitterBuffer := Some jb |>);
      drain_buffer fuel (fun n => clock (2 + n)%nat) w
    | (None, _, jb) => Some (w <| rw_jitterBuffer := Some jb |>)
    end
  | _, _ => Some w
  end.

Definition isRTCPPacket (payload : list Z) : bool :=
  match payload with _ :: t :: _ => (200 <=? t) && (t <=? 211) | _ => false end.

(** What happens to a stream: a datagram arrives, a tick ends with draining the
    buffer, signalling or the API changes the forwarder, the transcription
    provider reads or gives up.  [unmarshal] is the RTP library on the datagram; RTCP
    packets on the same port are only logged. *)
Inductive rtp_event :=
  | EvDatagram (data : list Z) (arrival now : Time) (addr : UDPAddr)
  | EvTick (clock : nat -> Time)
  | EvForwarder (op : fw_op)
  | EvSttRead (n : nat)
  | EvSttGone.

Section events.
Context `{Unicode} `{StreamCodecs} (unmarshal : list Z -> option RtpPacket).

(** The RTP packet in a datagram. *)
Definition packet_of (useRTCPMux : bool) (data : list Z) : option RtpPacket :=
  if bool_decide (data = []) || (useRTCPMux && isRTCPPacket data) then None else unmarshal data.

(** The stream is started once. *)
Definition rtp_step (w : RtpWorld) (ev : rtp_event) : option RtpWorld :=
  match ev with
  | EvDatagram data arrival now addr =>
    match packet_of (fw_UseRTCPMux (rw_fwd w)) data with
    | Some pkt => decodeAndProcess false pkt arrival now (Some addr) w
    | None => Some w
    end
  | EvTick clock =>
    match rw_jitterBuffer w with
    | Some jb => drain_buffer (List.length (jb_packets jb)) clock w
    | None => Some w
    end
  | EvForwarder (OpStart _) => Some w
  | EvForwarder op => f ← fw_step (rw_fwd w) op; Some (w <| rw_fwd := f |>)
  | EvSttRead n => '(_, p) ← Read n n (rw_sttPipe w); Some (w <| rw_sttPipe := p |>)
  | EvSttGone => Some (w <| rw_sttPipe := ReaderClose (rw_sttPipe w) |>)
  end.

Fixpoint rtp_run (w : RtpWorld) (evs : list rtp_event) : option RtpWorld :=
  match evs with
  | [] => Some w
  | ev :: evs => w ← rtp_step w ev; rtp_run w evs
  end.
End events.

(** ** SRTP profiles *)

Inductive ProtectionProfile := Aes128CmHmacSha1_80 | Aes128CmHmacSha1_32 | AeadAes128Gcm | AeadAes256Gcm.

Definition determineSRTPProfile `{Unicode} (profile : string) : ProtectionProfile :=
  let p := to_upper (trim_space profile) in
  if String.eqb p "AES_CM_128_HMAC_SHA1_32" then Aes128CmHmacSha1_32
  else if String.eqb p "AEAD_AES_128_GCM" then AeadAes128Gcm
  else if String.eqb p "AEAD_AES_256_GCM" then AeadAes256Gcm
  else Aes128CmHmacSha1_80.

Definition srtpProfileName (profile : ProtectionProfile) : string :=
  match profile with
  | Aes128CmHmacSha1_80 => "AES_CM_128_HMAC_SHA1_80"
  | Aes128CmHmacSha1_32 => "AES_CM_128_HMAC_SHA1_32"
  | AeadAes128Gcm => "AEAD_AES_128_GCM"
  | AeadAes256Gcm => "AEAD_AES_256_GCM"
  end.

(** ** What the stream does not look at *)

(** The counters of foreign packets and the mute flags are state that a packet
    of the locked source is handled without. *)
Record Unread := mkUnread {
  un_mismatches : Z;
  un_alternate : Z;
  un_alternateCount : Z;
  un_since : Z;
  un_mute : bool * bool * option Time
}.

Definition set_mute (m : bool * bool * option Time) (f : RTPForwarder) : RTPForwarder :=
  f <| fw_InboundMuted := m.1.1 |> <| fw_OutboundMuted := m.1.2 |> <| fw_MutedAt := m.2 |>.

Section unread.
Context `{Unicode} `{StreamCodecs}.

Definition with_unread (u : Unread) (w : RtpWorld) : RtpWorld :=
  (on_fwd (set_mute (un_mute u)) w)
    <| rw_ssrcMismatchCount := un_mismatches u |> <| rw_alternateSSRC := un_alternate u |>
    <| rw_alternateSSRCCount := un_alternateCount u |> <| rw_packetsSinceLastLockedSSRC := un_since u |>.

Definition unread_of (w : RtpWorld) : Unread :=
  mkUnread (rw_ssrcMismatchCount w) (rw_alternateSSRC w) (rw_alternateSSRCCount w) (rw_packetsSinceLastLockedSSRC w)
    (GetMuteStatus (rw_fwd w)).

Lemma with_unread_of w : with_unread (unread_of w) w = w.
Proof. destruct w as [[]]; done. Qed.

Lemma with_unread_twice u u' w : with_unread u (with_unread u' w) = with_unread u w.
Proof. destruct w as [[]]; done. Qed.

(** The fields that are read. *)
Lemma unread_dtmfCh u w : rw_dtmfCh (with_unread u w) = rw_dtmfCh w.
Proof. by destruct w. Qed.
Lemma unread_g729StreamDec u w : rw_g729StreamDec (with_unread u w) = rw_g729StreamDec w.
Proof. by destruct w. Qed.
Lemma unread_opusStreamDec u w : rw_opusStreamDec (with_unread u w) = rw_opusStreamDec w.
Proof. by destruct w. Qed.
Lemma unread_lastDecodedPCMSize u w : rw_lastDecodedPCMSize (with_unread u w) = rw_lastDecodedPCMSize w.
Proof. by destruct w. Qed.
Lemma unread_lastSeq u w : rw_lastSeq (with_unread u w) = rw_lastSeq w.
Proof. by destruct w. Qed.
Lemma unread_hasLastTimestamp u w : rw_hasLastTimestamp (with_unread u w) = rw_hasLastTimestamp w.
Proof. by destruct w. Qed.
Lemma unread_lastTimestamp u w : rw_lastTimestamp (with_unread u w) = rw_lastTimestamp w.
Proof. by destruct w. Qed.
Lemma unread_processor u w : rw_processor (with_unread u w) = rw_processor w.
Proof. by destruct w. Qed.
Lemma unread_sttWriter u w : rw_sttWriter (with_unread u w) = rw_sttWriter w.
Proof. by destruct w. Qed.
Lemma unread_sttPipe u w : rw_sttPipe (with_unread u w) = rw_sttPipe w.
Proof. by destruct w. Qed.
Lemma unread_jitterBuffer u w : rw_jitterBuffer (with_unread u w) = rw_jitterBuffer w.
Proof. by destruct w. Qed.
Lemma unread_RecordingPaused u w : fw_RecordingPaused (rw_fwd (with_unread u w)) = fw_RecordingPaused (rw_fwd w).
Proof. by destruct w as [[]]. Qed.
Create Rewrite HintDb unread.
#[local] Hint Rewrite unread_dtmfCh unread_g729StreamDec unread_opusStreamDec unread_lastDecodedPCMSize unread_lastSeq unread_hasLastTimestamp unread_lastTimestamp unread_processor unread_sttWriter unread_sttPipe unread_jitterBuffer unread_RecordingPaused : unread.

Lemma record_write_unread u data w : record_write data (with_unread u w) = with_unread u (record_write data w).
Proof.
  unfold record_write, writer_open. destruct w as [f]. destruct f. cbn.
  destruct fw_recordingWriter as [pw|]; cbn; [destruct (pw_paused pw); done|done].
Qed.

Lemma accept_packet_unread u pkt arrival now addr w :
  accept_packet pkt arrival now addr (with_unread u w) = with_unread u (accept_packet pkt arrival now addr w).
Proof.
  unfold accept_packet, first_packet, updateRemoteSession, deriveRemoteRTCPAddr, forget_stream.
  destruct w as [f fp]. destruct f. cbn.
  destruct fp, fw_HasFirstRTP, (_ && _), addr as [a|]; cbn; try done;
    destruct fw_RemoteRTPAddr, fw_RemoteRTCPAddr, fw_UseRTCPMux; cbn; case_tests; done.
Qed.

Lemma track_codec_unread u pt w :
  track_codec pt (with_unread u w) =
    let '(cpt, name, rate, ch, w') := track_codec pt w in (cpt, name, rate, ch, with_unread u w').
Proof.
  unfold track_codec, SetCodecInfo. destruct w as [f]. destruct f. cbn.
  destruct (fw_CodecPayloadType =? 0), (String.eqb _ _ || _); cbn; try done;
    try (destruct (GetCodecInfo pt); cbn); case_tests; done.
Qed.

Lemma send_dtmf_unread u pt w : send_dtmf pt (with_unread u w) = with_unread u (send_dtmf pt w).
Proof. 
  unfold send_dtmf. autorewrite with unread.
  destruct (rw_dtmfCh w); [|done]. destruct (Nat.ltb _ _); [by destruct w|done].
Qed.

Lemma write_silence_unread u n w : write_silence n (with_unread u w) = with_unread u <$> write_silence n w.
Proof.
  unfold write_silence. destruct (0 <? n); [|done]. destruct (silence n); [|done]. cbn.
  by rewrite record_write_unread.
Qed.

(** Changes of the fields that are read commute with changes of the others. *)
Lemma set_g729_unread u x w :
  (with_unread u w) <| rw_g729StreamDec := x |> = with_unread u (w <| rw_g729StreamDec := x |>).
Proof. by destruct w. Qed.

Lemma set_opus_unread u x w :
  (with_unread u w) <| rw_opusStreamDec := x |> = with_unread u (w <| rw_opusStreamDec := x |>).
Proof. by destruct w. Qed.

Lemma conceal_unread u name rate delta lost w :
  conceal name rate delta lost (with_unread u w) = with_unread u <$> conceal name rate delta lost w.
Proof.
  unfold conceal. autorewrite with unread.
  destruct (rw_g729StreamDec w), (rw_opusStreamDec w), (is_g729 name), (is_opus name);
    try apply write_silence_unread.
  all: try (destruct (g729_conceal _ _ _); cbn; by rewrite set_g729_unread, record_write_unread).
  all: destruct (opus_conceal _ _) as [[]]; cbn; by rewrite ?set_opus_unread, ?record_write_unread.
Qed.

Lemma fill_gap_unread u rate gap delta w :
  fill_gap rate gap delta (with_unread u w) = with_unread u <$> fill_gap rate gap delta w.
Proof. unfold fill_gap. destruct (_ && _); [apply write_silence_unread|done]. Qed.

Lemma handle_gap_unread u name rate pkt w :
  handle_gap name rate pkt (with_unread u w) =
    (fun r => (r.1, with_unread u r.2)) <$> handle_gap name rate pkt w.
Proof.
  unfold handle_gap. autorewrite with unread.
  destruct (rw_lastSeq w); [|done]. destruct (_ =? _); [done|]. destruct (reordered _ _); [done|].
  autorewrite with unread.
  destruct (rw_hasLastTimestamp w); [|done].
  autorewrite with unread.
  cbv zeta. rewrite conceal_unread, fill_gap_unread. destruct (_ <=? _).
  - by destruct (conceal _ _ _ _ w).
  - by destruct (fill_gap _ _ _ w).
Qed.

Lemma decode_packet_unread u name rate ch pkt w :
  decode_packet name rate ch pkt (with_unread u w) =
    (fun r => (r.1, with_unread u r.2)) <$> decode_packet name rate ch pkt w.
Proof.
  unfold decode_packet. autorewrite with unread.
  destruct (is_g729 name); [destruct (g729_decode _ _ _); by destruct w|].
  destruct (is_opus name).
  - cbv zeta. destruct (match rw_opusStreamDec w with Some _ => _ | None => _ end); [|done].
    destruct (opus_decode _ _). by destruct w.
  - by destruct (DecodeAudioPayload _ _ _ _).
Qed.

Lemma prepare_unread u pcm w :
  prepareRecordingAndTranscriptionPayloads pcm (with_unread u w) =
    let '(r, w') := prepareRecordingAndTranscriptionPayloads pcm w in (r, with_unread u w').
Proof.
  unfold prepareRecordingAndTranscriptionPayloads. autorewrite with unread.
  destruct pcm; [done|]. destruct (rw_processor w); [|done]. destruct (process_audio _ _). by destruct w.
Qed.

Lemma transcribe_unread u data w : transcribe data (with_unread u w) = with_unread u <$> transcribe data w.
Proof.
  unfold transcribe. autorewrite with unread.
  destruct (_ && _); [|done]. destruct (Write _ _ _) as [[[] ?]|]; [by destruct w..|done].
Qed.

Lemma deliver_unread u re pcm pkt w : deliver re pcm pkt (with_unread u w) = with_unread u <$> deliver re pcm pkt w.
Proof.
  unfold deliver. cbv zeta.
  replace ((with_unread u w) <| rw_lastDecodedPCMSize := flength pcm |>)
    with (with_unread u (w <| rw_lastDecodedPCMSize := flength pcm |>)) by (by destruct w).
  rewrite prepare_unread. destruct (prepareRecordingAndTranscriptionPayloads _ _) as [[[r t]|] w']; [|done].
  autorewrite with unread.
  destruct (fw_RecordingPaused (rw_fwd w')); [done|]. rewrite record_write_unread.
  rewrite <- transcribe_unread. destruct re; [done|]. by destruct (record_write r w').
Qed.

Lemma process_packet_unread u name rate ch pkt w :
  process_packet name rate ch pkt (with_unread u w) = with_unread u <$> process_packet name rate ch pkt w.
Proof.
  unfold process_packet. cbv zeta. rewrite handle_gap_unread.
  destruct (handle_gap _ _ _ w) as [[re w1]|]; [|done]. cbn [fmap option_fmap option_map mbind option_bind fst snd].
  destruct (_ && _); [done|]. rewrite decode_packet_unread.
  destruct (decode_packet _ _ _ _ w1) as [[[[|b pcm]|] w2]|]; try done. apply deliver_unread.
Qed.

Lemma handle_accepted_unread u buffered pkt arrival now addr w :
  handle_accepted buffered pkt arrival now addr (with_unread u w) =
    with_unread u <$> handle_accepted buffered pkt arrival now addr w.
Proof.
  unfold handle_accepted. cbv zeta. rewrite accept_packet_unread, track_codec_unread.
  destruct (track_codec _ _) as [[[[cpt name] rate] ch] w']. destruct (pk_Payload pkt); [done|].
  destruct (_ && _); [cbn; by rewrite send_dtmf_unread|].
  rewrite send_dtmf_unread.
  set (w1 := if _ || _ then send_dtmf (pk_PayloadType pkt) w' else w').
  replace (if _ || _ then with_unread u (send_dtmf (pk_PayloadType pkt) w') else with_unread u w')
    with (with_unread u w1) by (subst w1; by destruct (_ || _)).
  autorewrite with unread. destruct (rw_jitterBuffer w1), buffered; try apply process_packet_unread.
  cbn. by destruct w1.
Qed.
End unread.

(** ** What a packet changes *)

Section changes.
Context `{Unicode} `{StreamCodecs}.

(** The decoding part of a packet is a sequence of changes of three kinds: of
    variables of the goroutine that concern nothing else, a write to the
    recording, and a write to the transcription, which happens only while the
    recording is not paused. *)
Definition private (w w' : RtpWorld) : Prop :=
  rw_fwd w' = rw_fwd w /\ rw_WAVWriter w' = rw_WAVWriter w /\ rw_sttPipe w' = rw_sttPipe w /\
  rw_sttWriter w' = rw_sttWriter w /\ rw_jitterBuffer w' = rw_jitterBuffer w.

Inductive change : RtpWorld -> RtpWorld -> Prop :=
  | ch_private w w' : private w w' -> change w w'
  | ch_record w data : change w (record_write data w)
  | ch_transcribe w p b : fw_RecordingPaused (rw_fwd w) = false ->
      change w (w <| rw_sttPipe := p |> <| rw_sttWriter := b |>).

Lemma private_set_g729 x w : private w (w <| rw_g729StreamDec := x |>).
Proof. by destruct w. Qed.
Lemma private_set_opus x w : private w (w <| rw_opusStreamDec := x |>).
Proof. by destruct w. Qed.

Lemma write_silence_changes n w w' : write_silence n w = Some w' -> rtc change w w'.
Proof.
  unfold write_silence. destruct (0 <? n); [|by intros [= ->]].
  destruct (silence n); cbn; [|done]. intros [= <-]. apply rtc_once. by constructor.
Qed.

Lemma conceal_changes name rate delta lost w w' : conceal name rate delta lost w = Some w' -> rtc change w w'.
Proof.
  unfold conceal. destruct (rw_g729StreamDec w), (rw_opusStreamDec w), (is_g729 name), (is_opus name);
    try apply write_silence_changes.
  all: try (destruct (g729_conceal _ _ _); intros [= <-];
    eapply rtc_l; [apply ch_private, private_set_g729|apply rtc_once; by constructor]).
  all: destruct (opus_conceal _ _) as [[]]; intros [= <-];
    (eapply rtc_l; [apply ch_private, private_set_opus|]); try (apply rtc_once; by constructor); done.
Qed.

Lemma handle_gap_changes name rate pkt w re w' : handle_gap name rate pkt w = Some (re, w') -> rtc change w w'.
Proof.
  unfold handle_gap. destruct (rw_lastSeq w); [|by intros [= _ ->]]. destruct (_ =? _); [by intros [= _ ->]|].
  destruct (reordered _ _); [by intros [= _ ->]|]. destruct (rw_hasLastTimestamp w); [|by intros [= _ ->]].
  cbv zeta. destruct (_ <=? _).
  - destruct (conceal _ _ _ _ w) as [w1|] eqn:E; cbn; [|done]. intros [= _ <-]. by eapply conceal_changes.
  - unfold fill_gap. destruct (_ && _); cbn; [|by intros [= _ ->]].
    destruct (write_silence _ w) as [w1|] eqn:E; cbn; [|done]. intros [= _ <-]. by eapply write_silence_changes.
Qed.

Lemma decode_packet_private name rate ch pkt w pcm w' :
  decode_packet name rate ch pkt w = Some (pcm, w') -> private w w' /\ rw_lastSeq w' = rw_lastSeq w.
Proof.
  unfold decode_packet. destruct (is_g729 name).
  { destruct (g729_decode _ _ _). intros [= _ <-]. by destruct w. }
  destruct (is_opus name).
  - cbv zeta. destruct (match rw_opusStreamDec w with Some _ => _ | None => _ end).
    + destruct (opus_decode _ _). intros [= _ <-]. by destruct w.
    + by intros [= _ <-].
  - destruct (DecodeAudioPayload _ _ _ _); cbn; [|done]. by intros [= _ <-].
Qed.

Lemma prepare_private pcm w r w' :
  prepareRecordingAndTranscriptionPayloads pcm w = (r, w') ->
  private w w' /\ (rw_lastSeq w' = rw_lastSeq w /\ rw_lastDecodedPCMSize w' = rw_lastDecodedPCMSize w) /\
  forall r1 r2, r = Some (r1, r2) -> r1 = pcm.
Proof.
  unfold prepareRecordingAndTranscriptionPayloads. destruct pcm; [intros [= <- <-]; split_and!; [done..|]; by intros ? ? [= -> ->]|].
  destruct (rw_processor w).
  - destruct (process_audio _ _) as [[x|] p']; intros [= <- <-]; (split; [by destruct w|]);
      (split; [by destruct w|]); by intros ? ? [= <- <-].
  - intros [= <- <-]. split_and!; [done..|]. by intros ? ? [= -> ->].
Qed.

Lemma transcribe_changes data w w' : fw_RecordingPaused (rw_fwd w) = false ->
  transcribe data w = Some w' -> rtc change w w'.
Proof.
  intros Hp. unfold transcribe. destruct (_ && _); [|by intros [= ->]].
  destruct (Write _ _ _) as [[[n|e] p]|]; cbn; [..|done]; intros [= <-]; apply rtc_once.
  - pose proof (ch_transcribe w p (rw_sttWriter w) Hp) as Hc. destruct w; done.
  - by apply ch_transcribe.
Qed.

Lemma record_write_paused data w :
  fw_RecordingPaused (rw_fwd (record_write data w)) = fw_RecordingPaused (rw_fwd w).
Proof. unfold record_write. destruct w as [[]]. cbn. by destruct (writer_open _). Qed.

Lemma deliver_changes re pcm pkt w w' : deliver re pcm pkt w = Some w' -> rtc change w w'.
Proof.
  unfold deliver. cbv zeta. set (w0 := w <| rw_lastDecodedPCMSize := flength pcm |>).
  assert (H0' : private w w0) by (by destruct w). clearbody w0.
  destruct (prepareRecordingAndTranscriptionPayloads pcm w0) as [r w1] eqn:E.
  apply prepare_private in E as [H1 _]. intros Hd.
  apply (rtc_l _ w w0); [by constructor|]. apply (rtc_l _ w0 w1); [by constructor|].
  destruct r as [[r t]|]; [|by injection Hd as <-].
  destruct (fw_RecordingPaused (rw_fwd w1)) eqn:Ep; [by injection Hd as <-|].
  eapply rtc_l; [apply (ch_record w1 r)|]. pose proof (record_write_paused r w1) as Hp. rewrite Ep in Hp.
  destruct re.
  - by eapply transcribe_changes in Hd.
  - set (w2 := (record_write r w1) <| rw_lastSeq := _ |> <| rw_lastTimestamp := _ |> <| rw_hasLastTimestamp := _ |>) in Hd.
    assert (Hw2 : private (record_write r w1) w2) by (subst w2; by destruct (record_write r w1)).
    eapply rtc_l; [by apply ch_private|]. eapply transcribe_changes; [|exact Hd].
    by rewrite (proj1 Hw2).
Qed.

Lemma process_packet_changes name rate ch pkt w w' : process_packet name rate ch pkt w = Some w' -> rtc change w w'.
Proof.
  unfold process_packet. cbv zeta. destruct (handle_gap _ _ _ w) as [[re w1]|] eqn:Eg; cbn; [|done].
  apply handle_gap_changes in Eg. intros Hp. etrans; [exact Eg|]. clear Eg.
  destruct (_ && _); [by injection Hp as <-|].
  destruct (decode_packet _ _ _ _ w1) as [[pcm w2]|] eqn:Ed; cbn in Hp; [|done].
  apply decode_packet_private in Ed as [Ed _]. eapply rtc_l; [by apply ch_private|].
  destruct pcm as [[|b pcm]|]; [by injection Hp as <-| |by injection Hp as <-]. by eapply deliver_changes.
Qed.

(** The ports of a forwarder and whether they were returned. *)
Definition port_part (f : RTPForwarder) : Z * Z * bool := (fw_LocalPort f, fw_RTCPPort f, fw_isCleanedUp f).

(** The bookkeeping before the decoding part; with [L] different from zero it keeps
    a lock on the source [L]. *)
Record kept (L : Z) (f f' : RTPForwarder) : Prop := {
  k_writer : fw_recordingWriter f' = fw_recordingWriter f;
  k_recording : fw_RecordingPaused f' = fw_RecordingPaused f;
  k_transcription : fw_TranscriptionPaused f' = fw_TranscriptionPaused f;
  k_session : fw_RecordingSession f' = fw_RecordingSession f;
  k_mux : fw_UseRTCPMux f' = fw_UseRTCPMux f;
  k_ports : port_part f' = port_part f;
  k_ssrc : L <> 0 -> fw_RemoteSSRC f = L -> fw_RemoteSSRC f' = L
}.

Record booked (L : Z) (w w' : RtpWorld) : Prop := {
  bo_fwd : kept L (rw_fwd w) (rw_fwd w');
  bo_pipe : rw_sttPipe w' = rw_sttPipe w /\ rw_sttWriter w' = rw_sttWriter w;
  bo_jitter : rw_jitterBuffer w' = rw_jitterBuffer w;
  bo_wav : rw_WAVWriter w' = rw_WAVWriter w \/
    exists r c, rw_WAVWriter w' = (fun ww => (SetFormat r c ww).2) <$> rw_WAVWriter w;
  bo_last : rw_lastSeq w' = None \/
    rw_lastSeq w' = rw_lastSeq w /\ rw_lastDecodedPCMSize w' = rw_lastDecodedPCMSize w
}.

#[export] Instance kept_preorder L : PreOrder (kept L).
Proof.
  split; [by split|]. intros f1 f2 f3 [A1 A2 A3 A4 A5 A6 A7] [B1 B2 B3 B4 B5 B6 B7].
  split; try congruence. auto.
Qed.

Lemma set_codec_kept L pt name rate ch f : kept L f (SetCodecInfo pt name rate ch f).
Proof. unfold SetCodecInfo. cbv zeta. destruct f, (0 <? rate); by split. Qed.

Lemma update_remote_kept L addr pkt f : kept L f (updateRemoteSession addr pkt f).
Proof.
  unfold updateRemoteSession. destruct addr; [|done]. destruct f. cbn.
  destruct fw_RemoteRTPAddr, fw_RemoteRTCPAddr; cbn;
    destruct (Z.eqb_spec fw_RemoteSSRC 0); split; unfold port_part; cbn; congruence.
Qed.

Lemma accept_packet_booked L pkt arrival now addr w : booked L w (accept_packet pkt arrival now addr w).
Proof.
  unfold accept_packet, first_packet, forget_stream. cbv zeta.
  assert (Hf : forall f, kept L f (f <| fw_lastRTPNano := now |>)) by (by intros []).
  destruct w as [f fp]. cbn. destruct fp, (_ && _); cbn; split; cbn; auto;
    (etrans; [|apply update_remote_kept]); destruct f; cbn; try (destruct fw_HasFirstRTP); by split.
Qed.

Lemma track_codec_booked L pt w : booked L w (track_codec pt w).2.
Proof.
  unfold track_codec. destruct w as [f]. cbn.
  destruct (fw_CodecPayloadType f =? 0), (String.eqb _ _ || _); cbn;
    try (destruct (GetCodecInfo pt); cbn); split; cbn; eauto; repeat (etrans; [|apply set_codec_kept]); done.
Qed.

Lemma send_dtmf_booked L pt w : booked L w (send_dtmf pt w).
Proof.
  unfold send_dtmf. destruct w as [f]. cbn [rw_dtmfCh]. destruct rw_dtmfCh0; [destruct (Nat.ltb _ _)|];
    split; cbn; auto; done.
Qed.

Lemma booked_trans L w1 w2 w3 :
  booked L w1 w2 -> booked L w2 w3 ->
  rw_WAVWriter w2 = rw_WAVWriter w1 \/ rw_WAVWriter w3 = rw_WAVWriter w2 -> booked L w1 w3.
Proof.
  intros [A1 A2 A3 A4 A5] [B1 B2 B3 B4 B5] Hw. split; [by etrans|split; destruct A2, B2; congruence|congruence|..].
  - destruct Hw as [Hw|Hw]; [rewrite Hw in B4; done|rewrite Hw; done].
  - destruct B5 as [B5|[B5 B5']]; [by left|]. rewrite B5, B5'. done.
Qed.

(** An accepted packet is booked and then dropped, pushed or decoded. *)
Lemma handle_accepted_cases L buffered pkt arrival now addr w w' :
  handle_accepted buffered pkt arrival now addr w = Some w' ->
  exists w1, booked L w w1 /\
    (rtc change w1 w' \/
     exists jb, rw_jitterBuffer w1 = Some jb /\ buffered = false /\
       w' = w1 <| rw_jitterBuffer := Some (Push (mkBufferedPacket pkt arrival []) jb) |>).
Proof.
  unfold handle_accepted. cbv zeta. pose proof (accept_packet_booked L pkt arrival now addr w) as Ha.
  assert (Hw : rw_WAVWriter (accept_packet pkt arrival now addr w) = rw_WAVWriter w).
  { clear. unfold accept_packet, first_packet, forget_stream. cbv zeta. destruct w as [f fp]. cbn.
    by destruct fp, (_ && _). }
  set (wa := accept_packet pkt arrival now addr w) in *. clearbody wa.
  pose proof (track_codec_booked L (pk_PayloadType pkt) wa) as Ht.
  destruct (track_codec _ wa) as [[[[cpt name] rate] ch] w2]. cbn in Ht.
  assert (Hb : booked L w w2) by (eapply booked_trans; [done..|by left]).
  assert (Hd : booked L w (send_dtmf (pk_PayloadType pkt) w2)).
  { eapply booked_trans; [done|apply send_dtmf_booked|right]. unfold send_dtmf.
    destruct (rw_dtmfCh w2), w2; [by destruct (Nat.ltb _ _)|done]. }
  destruct (pk_Payload pkt); [intros [= <-]; eexists; split; [exact Hb|by left]|].
  destruct (_ && _); [intros [= <-]; eexists; split; [exact Hd|by left]|].
  set (w3 := if _ || _ then _ else _). assert (H3 : booked L w w3) by (subst w3; by destruct (_ || _)).
  clearbody w3. intros Hp. exists w3. split; [done|].
  destruct (rw_jitterBuffer w3) as [jb|] eqn:Ej; [|left; by eapply process_packet_changes].
  destruct buffered; [left; by eapply process_packet_changes|]. right. exists jb. by injection Hp as <-.
Qed.

Lemma kept_weaken L f f' : kept L f f' -> kept 0 f f'.
Proof. intros []. by split. Qed.

Lemma booked_weaken L w w' : booked L w w' -> booked 0 w w'.
Proof. intros [Hk]. split; try done. by eapply kept_weaken. Qed.

Lemma booked_refl L w : booked L w w.
Proof. split; auto. done. Qed.

Lemma validate_booked ssrc w : booked 0 w (validate_ssrc ssrc w).2 /\ rw_WAVWriter (validate_ssrc ssrc w).2 = rw_WAVWriter w.
Proof.
  unfold validate_ssrc, lock_ssrc, track_alternate, correct_ssrc, forget_stream, correction_blocked.
  destruct w as [f]. destruct f. cbn. case_tests; cbn; split; try done; split; cbn; auto; done.
Qed.

(** A packet is booked and then dropped, pushed or decoded. *)
Lemma decodeAndProcess_cases buffered pkt arrival now addr w w' :
  decodeAndProcess buffered pkt arrival now addr w = Some w' ->
  exists w1, booked 0 w w1 /\
    (rtc change w1 w' \/
     exists jb, rw_jitterBuffer w1 = Some jb /\ buffered = false /\
       w' = w1 <| rw_jitterBuffer := Some (Push (mkBufferedPacket pkt arrival []) jb) |>).
Proof.
  unfold decodeAndProcess. destruct (validate_booked (pk_SSRC pkt) w) as [Hv Hw].
  destruct (validate_ssrc _ _) as [[] wv]; cbn in Hv, Hw; [|intros [= <-]; exists wv; split; [done|by left]].
  intros (w1 & H1 & H2)%(handle_accepted_cases 0). exists w1. split; [|done]. eapply booked_trans; [done..|by left].
Qed.

Section preserved.
Context (P : RtpWorld -> Prop).
Context (P_booked : forall w w', booked 0 w w' -> P w -> P w').
Context (P_change : forall w w', change w w' -> P w -> P w').
Context (P_jitter : forall w jb, P w -> P (w <| rw_jitterBuffer := jb |>)).

Lemma changes_preserve w w' : rtc change w w' -> P w -> P w'.
Proof. induction 1; eauto. Qed.

Lemma packet_preserves buffered pkt arrival now addr w w' :
  decodeAndProcess buffered pkt arrival now addr w = Some w' -> P w -> P w'.
Proof.
  intros (w1 & Hb & [Hc|(jb & _ & _ & ->)])%decodeAndProcess_cases Hw.
  - eapply changes_preserve; eauto.
  - apply P_jitter. eauto.
Qed.

Lemma drain_preserves fuel clock w w' : drain_buffer fuel clock w = Some w' -> P w -> P w'.
Proof.
  revert clock w. induction fuel as [|fuel IH]; intros clock w; cbn; [by intros [= ->]|].
  destruct (rw_jitterBuffer w) as [jb|]; [|by intros [= ->]].
  destruct (Pop _ jb) as [[[bp|] ?] jb']; [|intros [= <-]; auto].
  destruct (decodeAndProcess _ _ _ _ _ _) as [w1|] eqn:E; cbn; [|done].
  intros Hd Hw. eapply IH; [exact Hd|]. eapply packet_preserves; eauto.
Qed.

Context (unmarshal : list Z -> option RtpPacket).

(** An invariant of the packets, of the operations in [ops] and of the reader of
    the pipe is one of the stream. *)
Lemma run_preserves (ops : fw_op -> Prop) evs w w' :
  (forall w op f, ops op -> fw_step (rw_fwd w) op = Some f -> P w -> P (w <| rw_fwd := f |>)) ->
  (forall w, P w -> P (w <| rw_sttPipe := ReaderClose (rw_sttPipe w) |>)) ->
  (forall w n r p, Read n n (rw_sttPipe w) = Some (r, p) -> P w -> P (w <| rw_sttPipe := p |>)) ->
  (forall op, EvForwarder op ∈ evs -> match op with OpStart _ => True | _ => ops op end) ->
  rtp_run unmarshal w evs = Some w' -> P w -> P w'.
Proof.
  intros Hop Hstt Hread. revert w. induction evs as [|ev evs IH]; intros w Hin; cbn; [by intros [= ->]|].
  destruct (rtp_step unmarshal w ev) as [w1|] eqn:E; cbn; [|done]. intros Hr Hw.
  eapply IH; [intros op Hop'; apply Hin; by right|exact Hr|]. clear Hr IH.
  destruct ev as [data arrival now addr|clock|op|n|]; cbn [rtp_step] in E.
  - destruct (packet_of _ _ _); [by eapply packet_preserves|by injection E as <-].
  - destruct (rw_jitterBuffer w); [by eapply drain_preserves|by injection E as <-].
  - specialize (Hin op ltac:(by left)).
    destruct op; try (by injection E as <-);
      (destruct (fw_step (rw_fwd w) _) as [f|] eqn:Ef; cbn in E; [|done]); injection E as <-; by eapply Hop.
  - destruct (Read n n _) as [[r p]|] eqn:Er; cbn in E; [|done]. injection E as <-. by eapply Hread.
  - injection E as <-. by apply Hstt.
Qed.
End preserved.
End changes.

(** Nothing that happens to a stream touches the ports of its forwarder. *)
Section stream_ports.
Context `{Unicode} `{StreamCodecs} (unmarshal : list Z -> option RtpPacket).

Lemma fw_step_ports f op f' : fw_step f op = Some f' -> port_part f' = port_part f.
Proof.
  destruct op as [now r t| |now i o|i o|pt name rate ch| | |now now' warned|w]; cbn.
  - unfold Pause. destruct r, t, f; cbn; repeat case_match; intros Hg; try (apply bind_Some in Hg as (? & _ & Hg)); by injection Hg as <-.
  - unfold Resume. destruct f; cbn; repeat case_match; intros Hg; try (apply bind_Some in Hg as (? & _ & Hg)); by injection Hg as <-.
  - unfold Mute. intros ->%log_mute_some. destruct i, o, f; cbn; by repeat case_match.
  - unfold Unmute. intros ->%log_mute_some. destruct i, o, f; cbn; by repeat case_match.
  - intros [= <-]. apply (k_ports 0). apply set_codec_kept.
  - intros [= <-]. by destruct f.
  - intros [= <-]. by destruct f.
  - intros [= <-]. unfold monitor_tick. destruct f; cbn; repeat case_match; done.
  - intros [= <-]. by destruct f.
Qed.

Lemma stream_keeps_ports evs w w' : rtp_run unmarshal w evs = Some w' -> port_part (rw_fwd w') = port_part (rw_fwd w).
Proof.
  intros Hr. eapply (run_preserves (fun w0 => port_part (rw_fwd w0) = port_part (rw_fwd w)) _ _ _ _ (fun _ => True)); [..|exact Hr|done].
  - intros w0 op f _ Hf <-. rewrite <- (fw_step_ports _ _ _ Hf). by destruct w0.
  - intros w0. by destruct w0.
  - intros w0 n r p _. by destruct w0.
  - intros op _. by destruct op.
  Unshelve.
  + intros w0 w1 [Hk _ _ _ _] <-. by apply (k_ports 0).
  + intros w0 w1 Hc <-. destruct Hc as [w0 w1 (-> & _)|w0 data|w0 p b _]; [done| |by destruct w0].
    unfold record_write. destruct w0 as [[]]; cbn. by repeat case_match.
  + intros w0 jb <-. by destruct w0.
Qed.
End stream_ports.
