(* ===== verification/RtpRecording.v ===== *)
(** * What a stream records

    Theorems on the pipeline of [RtpStream]: the WAV file holds what was recorded,
    a paused recording receives nothing, the loop never panics, and what is
    inserted for gaps in the stream. *)

From S2P Require Import Prelude GoStrings Metadata GoFloat RtpStats LruCache PortManager Ports PauseIO Forwarder WavFile AudioDecode BufferedPipe Heap JitterBuffer RtpStream.
From Stdlib Require Import Ascii String.
#[local] Open Scope string_scope.
#[local] Open Scope list_scope.
#[local] Open Scope Z_scope.

(** ** The recording *)

Section recording.
Context `{Unicode} `{StreamCodecs} (unmarshal : list Z -> option RtpPacket).

Definition written (f : RTPForwarder) : list Z :=
  match fw_recordingWriter f with Some pw => pw_written pw | None => [] end.

Lemma recorded_written w : recorded w = written (rw_fwd w).
Proof. done. Qed.

Lemma log_mute_writer f g f' : log_mute f g = Some f' -> fw_recordingWriter f' = fw_recordingWriter g.
Proof. by intros ->%log_mute_some. Qed.

(** The operations do not write to the recording. *)
Lemma fw_step_written f op f' :
  match op with OpStart _ => False | _ => True end -> fw_step f op = Some f' -> written f' = written f.
Proof.
  assert (Hpw : forall pw, pw_written (PWPause pw).2 = pw_written pw /\ pw_written (PWResume pw).2 = pw_written pw)
    by (by intros [? [] ? ?]).
  unfold written. destruct op; cbn [fw_step]; try done; intros _.
  - unfold Pause. cbv zeta. destruct f as [? ? ? ? ? ? [] [] ? ? ? ? ? ? [] ? [pw|]], recording, transcription;
      cbn; intros [= <-]; cbn; try done; apply Hpw.
  - unfold Resume. cbv zeta. destruct f as [? ? ? ? ? ? [] [] ? ? ? ? ? ? [] ? [pw|]]; cbn; intros [= <-]; cbn;
      try done; apply Hpw.
  - unfold Mute. cbv zeta. intros ->%log_mute_writer. 
    destruct f as [? ? ? ? ? ? ? ? ? ? ? ? ? ? ? ? ? ? [] []], inbound, outbound; done.
  - unfold Unmute. cbv zeta. intros ->%log_mute_writer. 
    destruct f as [? ? ? ? ? ? ? ? ? ? ? ? ? ? ? ? ? ? [] []], inbound, outbound; done.
  - intros [= <-]. unfold SetCodecInfo. cbv zeta. destruct f, (0 <? sampleRate); done.
  - intros [= <-]. by destruct f.
  - intros [= <-]. by destruct f.
  - intros [= <-]. unfold monitor_tick. destruct (fw_stopped f); [done|].
    destruct (fw_TranscriptionPaused f); [by destruct f|]. cbv zeta. destruct (_ <? _); [|done].
    destruct (fw_RecordingSession f); by destruct f.
Qed.

Lemma record_write_fwd data w :
  rw_fwd (record_write data w) =
    (rw_fwd w) <| fw_recordingWriter := (fun pw => (PWWrite data pw).2) <$> fw_recordingWriter (rw_fwd w) |> /\
  rw_WAVWriter (record_write data w) =
    if writer_open (rw_fwd w) then (fun ww => (WriterWrite data ww).2) <$> rw_WAVWriter w else rw_WAVWriter w.
Proof. unfold record_write. destruct w as [f]. cbn. by destruct (writer_open f). Qed.

Lemma record_write_written data w :
  written (rw_fwd (record_write data w)) = written (rw_fwd w) ++ (if writer_open (rw_fwd w) then data else []).
Proof.
  rewrite (proj1 (record_write_fwd data w)). unfold written, writer_open, PWWrite. destruct (rw_fwd w). cbn.
  destruct fw_recordingWriter as [[? [] ? ?]|]; cbn; by rewrite ?app_nil_r.
Qed.

(** The WAV file holds what was recorded. *)
Definition wav_holds (w : RtpWorld) : Prop :=
  forall ww, rw_WAVWriter w = Some ww -> exists d, writes ww d /\ wd_pcm d = written (rw_fwd w) /\ wd_final d = false.

Lemma wav_holds_same w w' : rw_WAVWriter w' = rw_WAVWriter w -> written (rw_fwd w') = written (rw_fwd w) ->
  wav_holds w -> wav_holds w'.
Proof. intros E1 E2 Hw ww. rewrite E1, E2. apply Hw. Qed.

Lemma booked_written L w w' : booked L w w' -> written (rw_fwd w') = written (rw_fwd w).
Proof. intros [[Hk]]. unfold written. by rewrite Hk. Qed.

Lemma wav_holds_booked w w' : booked 0 w w' -> wav_holds w -> wav_holds w'.
Proof.
  intros Hb Hw. pose proof (booked_written _ _ _ Hb) as Ew. destruct (bo_wav _ _ _ Hb) as [E|(r & c & E)].
  - by eapply wav_holds_same.
  - intros ww Hww. rewrite E in Hww. destruct (rw_WAVWriter w) as [ww0|] eqn:E0; [|done]. injection Hww as <-.
    destruct (Hw ww0 E0) as (d & H1 & H2 & H3). exists (doc_step d (OpSetFormat r c)). split; [by apply (step_writes ww0 d (OpSetFormat r c))|].
    rewrite Ew. destruct d. cbn in *. by subst.
Qed.

Lemma wav_holds_change w w' : change w w' -> wav_holds w -> wav_holds w'.
Proof.
  intros Hc Hw. destruct Hc as [w w' (E1 & E2 & _)|w data|w p b _].
  - eapply wav_holds_same; [done|by rewrite E1|done].
  - intros ww. rewrite record_write_written. rewrite (proj2 (record_write_fwd data w)).
    destruct (writer_open (rw_fwd w)); [|rewrite app_nil_r; apply Hw].
    destruct (rw_WAVWriter w) as [ww0|] eqn:E0; [|done]. intros [= <-].
    destruct (Hw ww0 E0) as (d & H1 & H2 & H3). exists (doc_step d (OpWrite data)).
    split; [by apply (step_writes ww0 d (OpWrite data))|]. destruct d. cbn in *. by subst.
  - by destruct w.
Qed.

Definition anything_but_start (op : fw_op) : Prop := match op with OpStart _ => False | _ => True end.

Lemma wav_holds_run evs w w' : rtp_run unmarshal w evs = Some w' -> wav_holds w -> wav_holds w'.
Proof.
  apply (run_preserves wav_holds wav_holds_booked wav_holds_change) with (ops := anything_but_start).
  - intros [] jb. done.
  - intros w1 op f Hop Hs. apply wav_holds_same; [by destruct w1|]. destruct w1. cbn in *. by eapply fw_step_written.
  - intros []. done.
  - intros [] n r p. done.
  - by intros [].
Qed.

Definition has_wav (w : RtpWorld) : Prop := is_Some (rw_WAVWriter w).

Lemma wav_stays evs w w' : rtp_run unmarshal w evs = Some w' -> has_wav w -> has_wav w'.
Proof.
  apply (run_preserves has_wav) with (ops := anything_but_start); unfold has_wav.
  - intros w1 w2 Hb Hw1. destruct (bo_wav _ _ _ Hb) as [->|(r & c & ->)]; [done|by rewrite fmap_is_Some].
  - intros w1 w2 Hc Hw1. destruct Hc as [? ? (_ & -> & _)|w1 data|[]]; [done| |done].
    rewrite (proj2 (record_write_fwd data w1)). destruct (writer_open _); [by rewrite fmap_is_Some|done].
  - by intros [].
  - by intros [].
  - by intros [].
  - by intros [].
  - by intros [].
Qed.
End recording.

Section paused.
Context `{Unicode} `{StreamCodecs} (unmarshal : list Z -> option RtpPacket).

(** A paused recording with [R] recorded and the end of [C] waiting for the
    transcription. *)
Record quiet (R C : list Z) (w : RtpWorld) : Prop := {
  q_paused : fw_RecordingPaused (rw_fwd w) = true;
  q_writer : writer_open (rw_fwd w) = false;
  q_recorded : recorded w = R;
  q_pipe : pipe_inv (rw_sttPipe w);
  q_content : exists k, content (rw_sttPipe w) = drop k C
}.

Lemma quiet_same R C w w' :
  fw_RecordingPaused (rw_fwd w') = fw_RecordingPaused (rw_fwd w) -> fw_recordingWriter (rw_fwd w') = fw_recordingWriter (rw_fwd w) ->
  rw_sttPipe w' = rw_sttPipe w -> quiet R C w -> quiet R C w'.
Proof.
  intros E1 E2 E3 [A B D E F]. split; unfold writer_open, recorded in *; rewrite ?E1, ?E2, ?E3; done.
Qed.

Lemma quiet_change R C w w' : change w w' -> quiet R C w -> quiet R C w'.
Proof.
  intros Hc [A B D E F]. destruct Hc as [w w' (E1 & _ & E3 & _)|w data|w p b Hp]; [|..|congruence].
  - eapply quiet_same; [by rewrite E1..|done|by split].
  - pose proof (record_write_written data w) as Hw. rewrite B, app_nil_r in Hw.
    pose proof (record_write_paused data w) as Hp.
    assert (Ho : writer_open (rw_fwd (record_write data w)) = false).
    { rewrite (proj1 (record_write_fwd data w)). unfold writer_open, PWWrite in *. destruct (rw_fwd w). cbn in *.
      by destruct fw_recordingWriter as [[? [] ? ?]|]. }
    assert (Hs : rw_sttPipe (record_write data w) = rw_sttPipe w).
    { unfold record_write. destruct w. cbn. by destruct (writer_open _). }
    split; rewrite ?Hs; try done; by rewrite ?Hp, ?recorded_written, ?Hw.
Qed.

Definition anything_but_resume (op : fw_op) : Prop := match op with OpStart _ | OpResume => False | _ => True end.

(** No operation but a resume opens the writer or ends the pause. *)
Lemma fw_step_paused f op f' : anything_but_resume op -> fw_step f op = Some f' ->
  fw_RecordingPaused f = true -> writer_open f = false ->
  fw_RecordingPaused f' = true /\ writer_open f' = false.
Proof.
  assert (Hm : forall g g', log_mute g g' = Some f' -> fw_RecordingPaused g' = true -> writer_open g' = false ->
    fw_RecordingPaused f' = true /\ writer_open f' = false) by (by intros ? ? ->%log_mute_some).
  unfold writer_open. destruct op; cbn [fw_step]; try done; intros _ Hs Hp Hw.
  - unfold Pause in Hs. cbv zeta in Hs.
    destruct f as [? ? ? ? ? ? [] [] ? ? ? ? ? ? [] ? [[? [] ? ?]|]], recording, transcription; cbn in *;
      try done; by injection Hs as <-.
  - eapply Hm; [exact Hs|..];
      destruct f as [? ? ? ? ? ? ? ? ? ? ? ? ? ? ? ? ? ? [] []], inbound, outbound; done.
  - eapply Hm; [exact Hs|..];
      destruct f as [? ? ? ? ? ? ? ? ? ? ? ? ? ? ? ? ? ? [] []], inbound, outbound; done.
  - injection Hs as <-. unfold SetCodecInfo. cbv zeta. destruct f, (0 <? sampleRate); done.
  - injection Hs as <-. by destruct f.
  - injection Hs as <-. by destruct f.
  - injection Hs as <-. unfold monitor_tick. destruct (fw_stopped f); [done|].
    destruct (fw_TranscriptionPaused f); [by destruct f|]. cbv zeta. destruct (_ <? _); [|done].
    destruct (fw_RecordingSession f); by destruct f.
Qed.

Lemma quiet_run R C evs w w' :
  (forall op, EvForwarder op ∈ evs -> op <> OpResume) ->
  rtp_run unmarshal w evs = Some w' -> quiet R C w -> quiet R C w'.
Proof.
  intros Hops. apply (run_preserves (quiet R C)) with (ops := anything_but_resume).
  - intros w1 w2 Hb. destruct (bo_fwd _ _ _ Hb) as [K1 K2]. apply quiet_same; [done..|apply (bo_pipe _ _ _ Hb)].
  - apply quiet_change.
  - intros [] jb. by apply quiet_same.
  - intros [] op f Hop Hs [A B D E F]. cbn in *. destruct (fw_step_paused _ _ _ Hop Hs A B).
    split; [done|done| |done|done]. rewrite <- D. eapply fw_step_written; [|done]. by destruct op.
  - intros [] [A B D E [k F]]. cbn in *. destruct rw_sttPipe. split; [done..| |].
    + by destruct E; split.
    + by exists k.
  - intros [] n r p Hr [A B D E F]. cbn in *. destruct (read_pipe n _ E) as (r' & p' & k & Hr' & H1 & H2 & H3).
    rewrite Hr in Hr'. injection Hr' as <- <-. destruct F as [j F].
    split; [done..|]. exists (j + k)%nat. change (content p = drop (j + k) C).
    by rewrite H3, F, drop_drop.
  - intros op Hop. specialize (Hops op Hop). by destruct op.
Qed.
End paused.

(** What waits for the transcription. *)
Definition waiting `{StreamCodecs} (w : RtpWorld) : list Z := content (rw_sttPipe w).

(** While the recording is paused nothing reaches it, whatever arrives and
    whatever else happens: no audio, no concealment and no silence for a gap, with
    or without a jitter buffer, until somebody resumes.  Nothing is handed to the
    transcription either, also when only the recording was paused: what waits
    there can only become less. *)
Theorem paused_recording_receives_nothing `{Unicode} `{StreamCodecs} (unmarshal : list Z -> option RtpPacket)
    (evs : list rtp_event) (w w' : RtpWorld) :
  fw_RecordingPaused (rw_fwd w) = true -> writer_open (rw_fwd w) = false -> pipe_inv (rw_sttPipe w) ->
  (forall op, EvForwarder op ∈ evs -> op <> OpResume) ->
  rtp_run unmarshal w evs = Some w' ->
  recorded w' = recorded w /\ fw_RecordingPaused (rw_fwd w') = true /\
  exists k, waiting w' = drop k (waiting w).
Proof.
  intros Hp Hw Hi Hops Hr. unfold waiting.
  destruct (quiet_run unmarshal (recorded w) (content (rw_sttPipe w)) evs w w' Hops Hr) as [A B C D E]; [|done].
  split; try done. by exists 0%nat.
Qed.

(** The bytes of a recording file that is finalized. *)
Definition finalized (ww : WAVWriter) : list Z := fl_data (ww_file (Finalize ww)).

(** C2: At any time of a stream, the recording file, once finalized, is a WAV
    header that announces exactly the bytes of the recording, followed by these
    bytes, whatever packets, ticks, pauses and codec changes came before. *)
Theorem stream_file_holds_recording `{Unicode} `{StreamCodecs} (unmarshal : list Z -> option RtpPacket)
    (f : RTPForwarder) (rate ch : Z) (jb : option JitterBuffer) (p : option Processor) (stt dtmf : bool)
    (evs : list rtp_event) (ww : WAVWriter) (w : RtpWorld) :
  NewWAVWriter (Some (mkFile [] 0)) rate ch = inr ww ->
  rtp_run unmarshal (start_world f (Some ww) jb p stt dtmf) evs = Some w ->
  exists ww' rate' ch', rw_WAVWriter w = Some ww' /\
    finalized ww' =
      wav_header rate' ch' (u32 (u32 (flength (recorded w)) + 36)) (u32 (flength (recorded w))) ++ recorded w.
Proof.
  intros Hn Hr. destruct (new_writes rate ch) as (ww0 & Hn' & Hw0). rewrite Hn in Hn'. injection Hn' as <-.
  assert (Hs : wav_holds (start_world f (Some ww) jb p stt dtmf)).
  { intros ? [= <-]. exists (doc_new rate ch). by destruct f. }
  pose proof (wav_holds_run unmarshal evs _ _ Hr Hs) as Hw.
  assert (Hsome : is_Some (rw_WAVWriter w)).
  { eapply wav_stays; [exact Hr|]. by eexists. }
  destruct Hsome as [ww' Hww']. destruct (Hw ww' Hww') as (d & H1 & H2 & H3).
  exists ww', (wd_rate d), (wd_channels d). split; [done|].
  pose proof (wi_file _ _ (step_writes ww' d OpFinalize H1)) as Hf. cbn in Hf. unfold finalized. rewrite Hf. cbn [fl_data].
  rewrite H3. unfold doc_bytes. destruct d. cbn in *. by subst.
Qed.

(** ** Totality *)

#[export] Instance anything_but_start_dec op : Decision (anything_but_start op).
Proof. destruct op; [left; done..|right; by intros []]. Defined.

Section total.
Context `{Unicode} `{StreamCodecs}.

(** The most a UDP datagram carries, and a bound on the samples of a packet. *)
Definition max_datagram : Z := 65535.
Definition max_pcm : Z := 2 ^ 20.

Definition packet_ok (pkt : RtpPacket) : Prop :=
  in_u 16 (pk_SequenceNumber pkt) /\ flength (pk_Payload pkt) <= max_datagram.

(** Decoders of the C libraries that return at most [max_pcm] bytes. *)
Definition codecs_bounded : Prop :=
  (forall payload ssrc d pcm, (g729_decode payload ssrc d).1 = Some pcm -> flength pcm <= max_pcm) /\
  (forall payload d pcm, (opus_decode payload d).1 = Some pcm -> flength pcm <= max_pcm).

Context (Hcodecs : codecs_bounded).

Record sound (w : RtpWorld) : Prop := {
  so_pipe : pipe_inv (rw_sttPipe w);
  so_size : (2 <= bp_size (rw_sttPipe w))%nat;
  so_last : rw_lastSeq w <> None -> 0 < rw_lastDecodedPCMSize w <= max_pcm;
  so_jitter : forall jb, rw_jitterBuffer w = Some jb -> Forall (fun bp => packet_ok (bk_Packet bp)) (jb_packets jb);
  so_session : is_Some (fw_RecordingSession (rw_fwd w))
}.

(** What recording leaves alone. *)
Definition sound_frame (w w' : RtpWorld) : Prop :=
  rw_sttPipe w' = rw_sttPipe w /\ rw_lastSeq w' = rw_lastSeq w /\
  rw_lastDecodedPCMSize w' = rw_lastDecodedPCMSize w /\ rw_jitterBuffer w' = rw_jitterBuffer w /\
  fw_RecordingSession (rw_fwd w') = fw_RecordingSession (rw_fwd w).

Lemma sound_framed w w' : sound_frame w w' -> sound w -> sound w'.
Proof. intros (E1 & E2 & E3 & E4 & E5) []. split; rewrite ?E1, ?E2, ?E3, ?E4, ?E5; done. Qed.

Lemma frame_record data w : sound_frame w (record_write data w).
Proof. unfold record_write. destruct w as [[]]. cbn. by destruct (writer_open _). Qed.

Lemma frame_after_record data w w' : sound_frame w w' -> sound_frame w (record_write data w').
Proof.
  intros (A1 & A2 & A3 & A4 & A5). destruct (frame_record data w') as (B1 & B2 & B3 & B4 & B5).
  unfold sound_frame. split_and!; congruence.
Qed.

Lemma write_silence_total n w : n <= maxAlloc -> exists w', write_silence n w = Some w' /\ sound_frame w w'.
Proof.
  intros Hn. unfold write_silence. destruct (0 <? n); [|by eexists].
  unfold silence. destruct (Z.ltb_spec maxAlloc n); [lia|]. eexists. split; [done|]. apply frame_record.
Qed.

Lemma conceal_total name rate delta lost w : 0 < rw_lastDecodedPCMSize w <= max_pcm -> 0 <= lost <= 10 ->
  exists w', conceal name rate delta lost w = Some w' /\ sound_frame w w'.
Proof.
  intros Hd Hl. unfold conceal.
  assert (Hs : exists w', write_silence (i64 (lost * (if rw_lastDecodedPCMSize w <=? 0 then PCMBytesPerPacket rate
                 else rw_lastDecodedPCMSize w))) w = Some w' /\ sound_frame w w').
  { apply write_silence_total. replace (rw_lastDecodedPCMSize w <=? 0) with false by lia.
    unfold i64, max_pcm, maxAlloc in *. rewrite wrap_s_id by (unfold in_s; nia). nia. }
  destruct (rw_g729StreamDec w), (rw_opusStreamDec w), (is_g729 name), (is_opus name); try done.
  all: try (destruct (g729_conceal _ _ _) as [p ?]; eexists; split; [done|];
            apply frame_after_record; by destruct w).
  all: destruct (opus_conceal _ _) as [[p|] ?]; eexists; (split; [done|]); [|by destruct w];
    apply frame_after_record; by destruct w.
Qed.

Lemma lost_packets_bound seq lastSeq : in_u 16 seq -> 0 <= lost_packets seq (u16 (lastSeq + 1)) <= 10.
Proof.
  intros Hs. pose proof (wrap_u_range 16 (lastSeq + 1) ltac:(lia)) as Hn. fold (u16 (lastSeq + 1)) in Hn.
  unfold lost_packets, maxPLC, in_u in *. cbv zeta.
  destruct (Z.ltb_spec (u16 (lastSeq + 1)) seq).
  - pose proof (wrap_u_range 16 (seq - u16 (lastSeq + 1)) ltac:(lia)) as Hd. unfold in_u in Hd.
    fold (u16 (seq - u16 (lastSeq + 1))) in Hd. destruct (_ <? _) eqn:E; lia.
  - destruct (_ <? _) eqn:E; lia.
Qed.

Lemma handle_gap_total name rate pkt w : sound w -> packet_ok pkt ->
  exists re w', handle_gap name rate pkt w = Some (re, w') /\ sound_frame w w'.
Proof.
  intros Hw [Hseq _]. unfold handle_gap. destruct (rw_lastSeq w) as [lastSeq|] eqn:El; [|by eexists _, w].
  destruct (_ =? _); [by eexists _, w|]. destruct (reordered _ _); [by eexists _, w|].
  destruct (rw_hasLastTimestamp w); [|by eexists _, w]. cbv zeta. destruct (_ <=? _).
  - edestruct conceal_total as (w' & -> & Hf); [apply Hw; by rewrite El|by apply lost_packets_bound|]. by eexists _, w'.
  - unfold fill_gap. cbv zeta. destruct (_ && _); [|by eexists _, w].
    edestruct write_silence_total as (w' & -> & Hf); [|by eexists _, w'].
    match goal with |- 2 * u32 ?x <= _ => pose proof (wrap_u_range 32 x ltac:(lia)) as Hr end.
    unfold in_u, u32, maxAlloc in *. lia.
Qed.

Lemma decode_total name rate ch pkt w : packet_ok pkt ->
  exists pcm w', decode_packet name rate ch pkt w = Some (pcm, w') /\ sound_frame w w' /\
    forall l, pcm = Some l -> flength l <= max_pcm.
Proof.
  intros [_ Hlen]. unfold decode_packet. destruct (is_g729 name) eqn:Eg.
  { destruct (g729_decode _ _ _) as [pcm d] eqn:E. eexists pcm, _. split; [done|]. split; [by destruct w|].
    intros l ->. eapply (proj1 Hcodecs). by rewrite E. }
  destruct (is_opus name) eqn:Eo.
  - cbv zeta. destruct (match rw_opusStreamDec w with Some _ => _ | None => _ end) as [d|].
    + destruct (opus_decode _ _) as [pcm d'] eqn:E. eexists pcm, _. split; [done|]. split; [by destruct w|].
      intros l ->. eapply (proj2 Hcodecs). by rewrite E.
    + by eexists _, w.
  - unfold is_g729, is_opus in *. apply bool_decide_eq_false in Eg, Eo.
    destruct (decode_payload_bound opus_packet g729_packet (pk_Payload pkt) name Eo Eg) as (r & -> & Hb).
    eexists _, w. split; [done|]. split; [done|]. intros l. destruct r as [|pcm]; [done|]. intros [= <-].
    specialize (Hb pcm eq_refl). unfold flength, max_datagram, max_pcm in *. lia.
Qed.

Lemma transcribe_total data w : sound w -> exists w', transcribe data w = Some w' /\ sound w'.
Proof.
  intros Hw. unfold transcribe. destruct (_ && _); [|by exists w]. unfold Write.
  destruct (_ || _).
  - cbn. eexists. split; [done|]. destruct w, Hw as [A B C D E]. cbn in *.
    destruct rw_sttPipe, A. split; [by split|done..].
  - destruct (write_loop_spec (List.length data) data (rw_sttPipe w) (so_pipe _ Hw) (so_size _ Hw)) as (p & -> & Hp & Hs & _);
      [done|]. cbn. eexists. split; [done|]. destruct w, Hw as [A B C D E]. cbn in *.
    split; [done| |done..]. change (2 <= bp_size p)%nat. by rewrite Hs.
Qed.

Lemma deliver_total re pcm pkt w : sound w -> pcm <> [] -> flength pcm <= max_pcm ->
  exists w', deliver re pcm pkt w = Some w' /\ sound w'.
Proof.
  intros Hw Hne Hb. unfold deliver. cbv zeta.
  assert (Hpos : 0 < flength pcm) by (destruct pcm; [done|unfold flength; cbn; lia]).
  set (w0 := w <| rw_lastDecodedPCMSize := flength pcm |>).
  assert (H0' : sound w0 /\ rw_lastDecodedPCMSize w0 = flength pcm) by (by destruct w, Hw).
  clearbody w0. destruct H0' as [H1 Hd].
  destruct (prepareRecordingAndTranscriptionPayloads pcm w0) as [r w1] eqn:E.
  apply prepare_private in E as ((E1 & _ & E3 & _ & E5) & (E6 & E7) & _).
  assert (Hw1 : sound w1) by (apply (sound_framed w0); [unfold sound_frame; by rewrite E1|done]).
  destruct r as [[r t]|]; [|by eexists]. destruct (fw_RecordingPaused _); [by eexists|].
  assert (H2 : sound (record_write r w1)) by (eapply sound_framed; [apply frame_record|done]).
  assert (Hd2 : rw_lastDecodedPCMSize (record_write r w1) = flength pcm).
  { destruct (frame_record r w1) as (_ & _ & -> & _). congruence. }
  apply transcribe_total. destruct re; [done|]. destruct (record_write r w1), H2 as [A B C D F].
  cbn in *. split; cbn; try done. intros _. by rewrite Hd2.
Qed.

Lemma process_packet_total name rate ch pkt w : sound w -> packet_ok pkt ->
  exists w', process_packet name rate ch pkt w = Some w' /\ sound w'.
Proof.
  intros Hw Hp. unfold process_packet. cbv zeta.
  edestruct handle_gap_total as (re & w1 & -> & H1); [done..|]. cbn.
  assert (Hw1 : sound w1) by (by eapply sound_framed).
  destruct (_ && _); [by eexists|]. edestruct decode_total as (pcm & w2 & -> & H2 & Hb); [done|]. cbn.
  assert (Hw2 : sound w2) by (by eapply sound_framed).
  destruct pcm as [[|b pcm]|]; [by eexists| |by eexists]. apply deliver_total; [done..|]. by apply Hb.
Qed.

Lemma sound_booked L w w' : booked L w w' -> sound w -> sound w'.
Proof.
  intros [Hk [E1 _] E3 _ E5] [A B C D E]. split; rewrite ?E1, ?E3; try done.
  - destruct E5 as [->|[-> ->]]; [done|]. done.
  - by rewrite (k_session _ _ _ Hk).
Qed.

Lemma handle_accepted_total buffered pkt arrival now addr w : sound w -> packet_ok pkt ->
  exists w', handle_accepted buffered pkt arrival now addr w = Some w' /\ sound w'.
Proof.
  intros Hw Hp. unfold handle_accepted. cbv zeta.
  pose proof (sound_booked _ _ _ (accept_packet_booked 0 pkt arrival now addr w) Hw) as Ha.
  set (wa := accept_packet pkt arrival now addr w) in *. clearbody wa.
  pose proof (sound_booked _ _ _ (track_codec_booked 0 (pk_PayloadType pkt) wa) Ha) as Ht.
  destruct (track_codec _ wa) as [[[[cpt name] rate] ch] w2]. cbn in Ht.
  pose proof (sound_booked _ _ _ (send_dtmf_booked 0 (pk_PayloadType pkt) w2) Ht) as Hd.
  destruct (pk_Payload pkt); [by eexists|]. destruct (_ && _); [by eexists|].
  set (w3 := if _ || _ then _ else _). assert (H3 : sound w3) by (subst w3; by destruct (_ || _)).
  clearbody w3. destruct (rw_jitterBuffer w3) as [jb|] eqn:Ej; [|by apply process_packet_total].
  destruct buffered; [by apply process_packet_total|]. eexists. split; [done|].
  destruct w3, H3 as [A B C D E]. cbn in *. split; cbn; try done. intros jb' [= <-].
  apply (push_Forall (fun bp => packet_ok (bk_Packet bp))); [done|by apply D].
Qed.

Lemma packet_total buffered pkt arrival now addr w : sound w -> packet_ok pkt ->
  exists w', decodeAndProcess buffered pkt arrival now addr w = Some w' /\ sound w'.
Proof.
  intros Hw Hp. unfold decodeAndProcess. destruct (validate_booked (pk_SSRC pkt) w) as [Hv _].
  destruct (validate_ssrc _ _) as [ok w1]. cbn in Hv.
  assert (Hw1 : sound w1) by (by eapply sound_booked). destruct ok; [by apply handle_accepted_total|by eexists].
Qed.

Lemma drain_total fuel clock w : sound w -> exists w', drain_buffer fuel clock w = Some w' /\ sound w'.
Proof.
  revert clock w. induction fuel as [|fuel IH]; intros clock w Hw; cbn [drain_buffer]; [by eexists|].
  destruct (rw_jitterBuffer w) as [jb|] eqn:Ej; [|by eexists].
  destruct (pop_Forall (fun bp => packet_ok (bk_Packet bp)) (clock 0%nat) jb (so_jitter _ Hw _ Ej)) as [Hj Hb].
  destruct (Pop _ jb) as [[[bp|] ?] jb']; cbn in Hj, Hb.
  - assert (Hw' : sound (w <| rw_jitterBuffer := Some jb' |>)).
    { destruct w, Hw as [A B C D E]. split; cbn in *; try done. by intros ? [= <-]. }
    edestruct (packet_total true (bk_Packet bp)) as (w1 & -> & H1); [exact Hw'|by apply Hb|]. cbn. by apply IH.
  - eexists. split; [done|]. destruct w, Hw as [A B C D E]. split; cbn in *; try done. by intros ? [= <-].
Qed.

(** With a session no operation panics. *)
Lemma fw_step_total f op : is_Some (fw_RecordingSession f) -> anything_but_start op ->
  exists f', fw_step f op = Some f' /\ is_Some (fw_RecordingSession f').
Proof.
  intros [s Hs] Hop.
  assert (Hm : forall g f', fw_RecordingSession f' = Some s ->
    exists f'', log_mute g f' = Some f'' /\ is_Some (fw_RecordingSession f'')).
  { intros g f' E. unfold log_mute. rewrite E. cbn. destruct (mute_changed g f'); eexists; split; eauto; by rewrite E. }
  destruct op; cbn [fw_step]; [..|done].
  - unfold Pause. cbv zeta. destruct f as [? ? ? ? ? ? s' [] ? ? ? ? ? ? []], recording, transcription;
      cbn in *; subst; cbn; eexists; split; try done.
  - unfold Resume. cbv zeta. destruct f as [? ? ? ? ? ? s' [] ? ? ? ? ? ? []]; cbn in *; subst; cbn; eexists; split; done.
  - apply Hm. destruct f as [? ? ? ? ? ? ? ? ? ? ? ? ? ? ? ? ? ? [] []], inbound, outbound; done.
  - apply Hm. destruct f as [? ? ? ? ? ? ? ? ? ? ? ? ? ? ? ? ? ? [] []], inbound, outbound; done.
  - eexists. split; [done|]. unfold SetCodecInfo. cbv zeta. destruct f, (0 <? sampleRate); by eexists.
  - eexists. split; [done|]. destruct f. by eexists.
  - eexists. split; [done|]. destruct f. by eexists.
  - eexists. split; [done|]. unfold monitor_tick. destruct (fw_stopped f); [by eexists|].
    destruct (fw_TranscriptionPaused f); [destruct f; by eexists|]. cbv zeta.
    destruct (_ <? _); [|by eexists]. rewrite Hs. destruct f; by eexists.
Qed.

Context (unmarshal : list Z -> option RtpPacket).
Context (Hunmarshal : forall data pkt, unmarshal data = Some pkt ->
  in_u 16 (pk_SequenceNumber pkt) /\ flength (pk_Payload pkt) <= flength data).

Definition small_event (ev : rtp_event) : Prop :=
  match ev with EvDatagram data _ _ _ => flength data <= max_datagram | _ => True end.

Lemma rtp_step_total w ev : sound w -> small_event ev -> exists w', rtp_step unmarshal w ev = Some w' /\ sound w'.
Proof.
  intros Hw Hev. destruct ev as [data arrival now addr|clock|op|n|]; cbn [rtp_step].
  - unfold packet_of. destruct (_ || _); [by eexists|]. destruct (unmarshal data) as [pkt|] eqn:E; [|by eexists].
    apply packet_total; [done|]. apply Hunmarshal in E as [E1 E2]. split; [done|]. cbn in Hev. lia.
  - destruct (rw_jitterBuffer w); [by apply drain_total|by eexists].
  - destruct (decide (anything_but_start op)) as [Ho|Ho]; [|destruct op; try done; by eexists].
    destruct (fw_step_total (rw_fwd w) op (so_session _ Hw) Ho) as (f & Hf & Hs).
    exists (w <| rw_fwd := f |>). split; [destruct op; try done; by rewrite Hf|].
    destruct w, Hw as [A B C D E]. by split.
  - destruct (read_pipe n _ (so_pipe _ Hw)) as (r & p & k & -> & Hp & Hs & _). eexists. split; [done|].
    destruct w, Hw as [A B C D E]. cbn in *.
    split; [done| |done..]. change (2 <= bp_size p)%nat. by rewrite Hs.
  - eexists. split; [done|]. destruct w, Hw as [A B C D E]. cbn in *.
    destruct rw_sttPipe, A. split; [by split|done..].
Qed.

Lemma rtp_run_total evs w : sound w -> Forall small_event evs -> exists w', rtp_run unmarshal w evs = Some w' /\ sound w'.
Proof.
  intros Hw Hevs. revert w Hw. induction Hevs as [|ev evs Hev Hevs IH]; intros w Hw; cbn; [by eexists|].
  destruct (rtp_step_total w ev Hw Hev) as (w1 & -> & Hw1). cbn. by apply IH.
Qed.
End total.

(** The packet loop never panics and never gets stuck.  For a forwarder of a
    recording session, decoders that return at most a megabyte and datagrams of at
    most 64 KB, every sequence of datagrams, ticks, operations and reads of the
    transcription is handled to its end, with or without a jitter buffer: every
    allocation is within bounds, every table access in range, and the writes to
    the transcription pipe terminate. *)
Theorem stream_never_panics `{Unicode} `{StreamCodecs} (unmarshal : list Z -> option RtpPacket)
    (f : RTPForwarder) (wav : option WAVWriter) (jitter : option (Z * Z)) (p : option Processor) (stt dtmf : bool)
    (evs : list rtp_event) :
  codecs_bounded ->
  (forall data pkt, unmarshal data = Some pkt ->
     in_u 16 (pk_SequenceNumber pkt) /\ flength (pk_Payload pkt) <= flength data) ->
  is_Some (fw_RecordingSession f) -> Forall small_event evs ->
  is_Some (rtp_run unmarshal
    (start_world f wav ((fun '(size, delay) => NewJitterBuffer size delay) <$> jitter) p stt dtmf) evs).
Proof.
  intros Hc Hu Hs Hevs.
  destruct (rtp_run_total Hc unmarshal Hu evs
    (start_world f wav ((fun '(size, delay) => NewJitterBuffer size delay) <$> jitter) p stt dtmf)) as (w & -> & _); [|done|by eexists].
  split; cbn.
  - apply (new_pipe_inv 4096).
  - lia.
  - done.
  - intros jb Hj. destruct jitter as [[size delay]|]; [|done]. injection Hj as <-. constructor.
  - by destruct f.
Qed.

(** ** Gaps in a PCMU stream *)

(** The silence before a packet that is [lost] packets and [gap] samples after
    the last one of a PCMU stream at 8000 Hz with [size] bytes per packet. *)
Definition pcmu_gap_bytes (lost gap size : Z) : Z :=
  if gap <=? 480 then Z.min 10 lost * size
  else if (24000 <=? gap) && (gap <=? 960000) then 2 * (gap - 160)
  else 0.

Lemma lost_packets_distance seq lastSeq :
  in_u 16 seq -> 1 <= u16 (seq - (lastSeq + 1)) ->
  lost_packets seq (u16 (lastSeq + 1)) = Z.min 10 (u16 (seq - (lastSeq + 1))).
Proof.
  intros Hs Hd. unfold lost_packets, maxPLC. cbv zeta.
  assert (E : (if u16 (lastSeq + 1) <? seq then u16 (seq - u16 (lastSeq + 1)) else seq + (65536 - u16 (lastSeq + 1))) =
              u16 (seq - (lastSeq + 1))).
  { assert (Hm : u16 (seq - u16 (lastSeq + 1)) = u16 (seq - (lastSeq + 1))).
    { unfold u16, wrap_u. by rewrite Zminus_mod_idemp_r. }
    pose proof (wrap_u_range 16 (lastSeq + 1) ltac:(lia)) as Hn. fold (u16 (lastSeq + 1)) in Hn. unfold in_u in *.
    destruct (Z.ltb_spec (u16 (lastSeq + 1)) seq); [done|]. rewrite <- Hm in *. unfold u16 at 2, wrap_u.
    unfold u16 at 1, wrap_u in Hd.
    assert (seq - u16 (lastSeq + 1) <> 0) by (intros Hz; rewrite Hz in Hd; cbn in Hd; lia).
    rewrite <- (Z_mod_plus_full _ 1). rewrite Z.mod_small; lia. }
  rewrite E. destruct (Z.ltb_spec 10 (u16 (seq - (lastSeq + 1)))); lia.
Qed.

Lemma write_silence_pcm `{StreamCodecs} n w : 0 <= n <= maxAlloc ->
  exists w', write_silence n w = Some w' /\
    written (rw_fwd w') = written (rw_fwd w) ++ (if writer_open (rw_fwd w) then replicate (Z.to_nat n) 0 else []) /\
    writer_open (rw_fwd w') = writer_open (rw_fwd w) /\
    fw_RecordingPaused (rw_fwd w') = fw_RecordingPaused (rw_fwd w).
Proof.
  intros Hn. unfold write_silence, silence. destruct (Z.ltb_spec 0 n).
  - destruct (Z.ltb_spec maxAlloc n); [lia|]. eexists. split; [done|].
    split; [apply record_write_written|]. split; [|apply record_write_paused].
    rewrite (proj1 (record_write_fwd _ w)). unfold writer_open, PWWrite. destruct (rw_fwd w). cbn.
    by destruct fw_recordingWriter as [[? [] ? ?]|].
  - assert (n = 0) as -> by lia. exists w. split_and!; try done. cbn.
    by destruct (writer_open _); rewrite app_nil_r.
Qed.

Lemma conceal_pcmu `{StreamCodecs} rate delta lost w : 0 < rw_lastDecodedPCMSize w <= max_pcm -> 0 <= lost <= 10 ->
  conceal "PCMU" rate delta lost w = write_silence (lost * rw_lastDecodedPCMSize w) w.
Proof.
  intros Hd Hl. unfold conceal. change (is_g729 "PCMU") with false. change (is_opus "PCMU") with false.
  replace (rw_lastDecodedPCMSize w <=? 0) with false by lia. unfold i64. unfold max_pcm in *.
  rewrite wrap_s_id by (unfold in_s; nia). by destruct (rw_g729StreamDec w), (rw_opusStreamDec w).
Qed.

Lemma forward_not_reordered seq lastSeq : in_u 16 seq -> 1 <= u16 (seq - (lastSeq + 1)) <= 32767 ->
  (seq =? u16 (lastSeq + 1)) = false /\ reordered lastSeq seq = false.
Proof.
  intros Hs Hd. unfold reordered.
  assert (Hne : (seq =? u16 (lastSeq + 1)) = false).
  { apply Z.eqb_neq. intros ->. unfold u16, wrap_u in Hd. rewrite Zminus_mod_idemp_l, Z.sub_diag in Hd. cbn in Hd. lia. }
  split; [done|]. rewrite Hne. cbn [negb andb]. apply Z.ltb_ge.
  assert (E : u16 (lastSeq - seq) = 65536 - (u16 (seq - (lastSeq + 1)) + 1)); [|lia].
  unfold u16, wrap_u in *. change (2 ^ 16) with 65536 in *. symmetry. apply (Z.mod_unique_pos _ _ (- ((seq - (lastSeq + 1)) / 65536) - 1)); [lia|].
  pose proof (Z.div_mod (seq - (lastSeq + 1)) 65536 ltac:(lia)). lia.
Qed.

(** The gap handling of a forward packet of a PCMU stream is one write of
    silence. *)
Lemma pcmu_gap `{Unicode} `{StreamCodecs} pkt w lastSeq :
  sound w -> packet_ok pkt -> rw_lastSeq w = Some lastSeq -> rw_hasLastTimestamp w = true ->
  1 <= u16 (pk_SequenceNumber pkt - (lastSeq + 1)) <= 32767 ->
  let n := pcmu_gap_bytes (u16 (pk_SequenceNumber pkt - (lastSeq + 1)))
    (u32 (pk_Timestamp pkt - rw_lastTimestamp w)) (rw_lastDecodedPCMSize w) in
  0 <= n <= maxAlloc /\
  handle_gap "PCMU" 8000 pkt w = w' ← write_silence n w; Some (false, w').
Proof.
  intros Hw [Hs _] El Eh Hd. cbv zeta. assert (Hsz : 0 < rw_lastDecodedPCMSize w <= max_pcm) by (apply Hw; by rewrite El).
  destruct (forward_not_reordered _ _ Hs Hd) as [E1 E2]. unfold handle_gap. rewrite El. cbv zeta. rewrite E1, E2, Eh.
  rewrite lost_packets_distance by (done || lia).
  change (u32 (Z.quot (i64 (8000 * 60)) 1000)) with 480. change (u32 (Z.quot 8000 50)) with 160.
  set (gap := u32 (pk_Timestamp pkt - rw_lastTimestamp w)). unfold pcmu_gap_bytes.
  pose proof (wrap_u_range 32 (pk_Timestamp pkt - rw_lastTimestamp w) ltac:(lia)) as Hg. change (in_u 32 gap) in Hg.
  unfold in_u, maxAlloc, max_pcm in *. destruct (Z.leb_spec gap 480).
  - split; [nia|]. by rewrite conceal_pcmu by (unfold max_pcm; lia).
  - unfold fill_gap, minLargeGapSeconds, maxLargeGapSeconds. cbv zeta.
    change (u32 (8000 * 3)) with 24000. change (u32 (8000 * 120)) with 960000.
    destruct (Z.leb_spec 24000 gap), (Z.leb_spec gap 960000); cbn [andb]; try (split; [lia|done]).
    split; [lia|]. unfold u32. by rewrite wrap_u_id by (unfold in_u; lia).
Qed.

Lemma transcribe_fwd `{StreamCodecs} data w w' : transcribe data w = Some w' -> rw_fwd w' = rw_fwd w.
Proof.
  unfold transcribe. destruct (_ && _); [|by intros [= ->]].
  destruct (Write _ _ _) as [[[] ?]|]; cbn; [..|done]; intros [= <-]; by destruct w.
Qed.

Lemma deliver_recorded `{Unicode} `{StreamCodecs} re pcm pkt w :
  sound w -> pcm <> [] -> flength pcm <= max_pcm -> rw_processor w = None ->
  fw_RecordingPaused (rw_fwd w) = false -> writer_open (rw_fwd w) = true ->
  exists w', deliver re pcm pkt w = Some w' /\ written (rw_fwd w') = written (rw_fwd w) ++ pcm.
Proof.
  intros Hw Hne Hb Hpr Hpa Ho. destruct (deliver_total re pcm pkt w Hw Hne Hb) as (w' & Hd & _).
  exists w'. split; [done|]. revert Hd. unfold deliver, prepareRecordingAndTranscriptionPayloads. cbv zeta.
  set (w0 := w <| rw_lastDecodedPCMSize := flength pcm |>).
  assert (H0' : rw_processor w0 = None /\ rw_fwd w0 = rw_fwd w) by (by destruct w). destruct H0' as [H1 H2]. clearbody w0.
  destruct pcm as [|b pcm]; [done|]. set (l := b :: pcm) in *. clearbody l. rewrite H1, H2, Hpa.
  intros ->%transcribe_fwd. rewrite <- H2 in *. pose proof (record_write_written l w0) as Hr. rewrite Ho in Hr.
  rewrite <- Hr. destruct re; [done|]. by destruct (record_write l w0).
Qed.

(** What a packet adds to the recording of a PCMU stream after a gap: silence
    for the lost packets, at most ten, when the gap is at most 60 ms; silence for
    the time that passed when it is between 3 and 120 seconds; and nothing for a
    gap in between or a longer one, so that a loss of more than 60 ms and less
    than 3 s shortens the recording against the other leg.  The audio of the
    packet follows. *)
Theorem pcmu_gap_recorded `{Unicode} `{StreamCodecs} (pkt : RtpPacket) (lastSeq : Z) (w : RtpWorld) :
  sound w -> packet_ok pkt -> pk_Payload pkt <> [] ->
  rw_lastSeq w = Some lastSeq -> rw_hasLastTimestamp w = true -> rw_processor w = None ->
  1 <= u16 (pk_SequenceNumber pkt - (lastSeq + 1)) <= 32767 ->
  fw_RecordingPaused (rw_fwd w) = false -> writer_open (rw_fwd w) = true ->
  exists w', process_packet "PCMU" 8000 1 pkt w = Some w' /\
    recorded w' = recorded w ++
      replicate (Z.to_nat (pcmu_gap_bytes (u16 (pk_SequenceNumber pkt - (lastSeq + 1)))
        (u32 (pk_Timestamp pkt - rw_lastTimestamp w)) (rw_lastDecodedPCMSize w))) 0 ++
      muLawToPCM (pk_Payload pkt).
Proof.
  intros Hw Hp Hne El Eh Epr Hd Epa Eo.
  destruct (pcmu_gap pkt w lastSeq Hw Hp El Eh Hd) as [Hn Hg]. set (n := pcmu_gap_bytes _ _ _) in *. clearbody n.
  destruct (write_silence_pcm n w Hn) as (w1 & Es & Hrec & Ho1 & Hp1). rewrite Eo in Hrec, Ho1. rewrite Epa in Hp1.
  destruct (write_silence_total n w) as (w1' & Es' & Hf); [lia|]. rewrite Es in Es'. injection Es' as <-.
  assert (Hpr : rw_processor w1 = None).
  { rewrite <- Epr. revert Es. unfold write_silence. destruct (0 <? n); [|by intros [= ->]].
    destruct (silence n); cbn; [|done]. intros [= <-]. unfold record_write. destruct w. cbn. by destruct (writer_open _). }
  assert (Hl : flength (muLawToPCM (pk_Payload pkt)) <= max_pcm).
  { unfold muLawToPCM, flength. rewrite flat_map_encode, encode_length, length_map.
    destruct Hp as [_ Hp]. unfold flength, max_datagram, max_pcm in *. lia. }
  destruct (deliver_recorded false (muLawToPCM (pk_Payload pkt)) pkt w1) as (w' & Hdel & Hw');
    [by eapply sound_framed|by destruct (pk_Payload pkt)|done..|].
  exists w'. rewrite !recorded_written, Hw', Hrec, <- app_assoc. split; [|done].
  unfold process_packet. cbv zeta. change (String.eqb "PCMU" "") with false. change (8000 <=? 0) with false. cbv iota.
  rewrite Hg, Es. cbn -[muLawToPCM deliver]. change (decode_packet "PCMU" 8000 1 pkt w1) with
    (Some (Some (muLawToPCM (pk_Payload pkt)), w1)). cbn -[muLawToPCM deliver].
  destruct (pk_Payload pkt) as [|b l]; [done|]. exact Hdel.
Qed.

(** ** Examples *)

(** No C libraries. *)
Definition no_codecs : StreamCodecs := {|
  G729Stream := unit; g729_new := tt; g729_decode := fun _ _ d => (None, d); g729_conceal := fun _ _ d => ([], d);
  OpusStream := unit; opus_new := fun _ _ => None; opus_decode := fun _ d => (None, d);
  opus_conceal := fun _ d => (None, d); opus_packet := fun _ _ => inl (LibraryError "");
  g729_packet := fun _ => inl (LibraryError ""); Processor := unit; process_audio := fun pcm p => (Some pcm, p)
|}.

(** Payload type, source, sequence number, timestamp and payload. *)
Definition sample_unmarshal (data : list Z) : option RtpPacket :=
  match data with
  | pt :: ssrc :: seq :: ts :: payload => Some (mkRtpPacket (u16 seq) ts ssrc pt payload)
  | _ => None
  end.

Definition sample_forwarder : RTPForwarder :=
  @SetCodecInfo ascii_only 8 "PCMA" 8000 1 (new_forwarder (mkPortPair 10000 10001) 30 (Some "s1") 7).

Definition sample_addr : UDPAddr := mkUDPAddr "192.0.2.1" 4000 "".

Definition sample_datagram (ssrc seq ts : Z) (payload : list Z) : rtp_event :=
  EvDatagram (8 :: ssrc :: seq :: ts :: payload) 1 1 sample_addr.

Definition sample_wav : option WAVWriter :=
  match NewWAVWriter (Some (mkFile [] 0)) 8000 1 with inr ww => Some ww | inl _ => None end.

Lemma stream_file_holds_recording_witness :
  exists ww w, NewWAVWriter (Some (mkFile [] 0)) 8000 1 = inr ww /\
    @rtp_run ascii_only no_codecs sample_unmarshal
      (@start_world no_codecs sample_forwarder (Some ww) None None true true)
      [sample_datagram 5 1 160 [213; 85]; sample_datagram 5 2 320 [213]] = Some w /\
    exists ww' rate' ch', rw_WAVWriter w = Some ww' /\
      fl_data (ww_file (Finalize ww')) =
        wav_header rate' ch' (u32 (u32 (flength (recorded w)) + 36)) (u32 (flength (recorded w))) ++ recorded w.
Proof.
  eexists _, _. split; [reflexivity|]. split; [vm_compute; reflexivity|].
  eapply (@stream_file_holds_recording ascii_only no_codecs sample_unmarshal sample_forwarder 8000 1 None None true true
    [sample_datagram 5 1 160 [213; 85]; sample_datagram 5 2 320 [213]]); [reflexivity|vm_compute; reflexivity].
Defined.

Lemma paused_recording_receives_nothing_witness :
  exists w w',
    @rtp_run ascii_only no_codecs sample_unmarshal (@start_world no_codecs sample_forwarder None None None true true)
      [sample_datagram 5 1 160 [213]; EvForwarder (OpPause 9 true false)] = Some w /\
    @rtp_run ascii_only no_codecs sample_unmarshal w
      [sample_datagram 5 2 320 [213]; sample_datagram 5 3 80000 [85]] = Some w' /\ recorded w' = recorded w.
Proof.
  eexists _, _. split; [vm_compute; reflexivity|]. split; [vm_compute; reflexivity|].
  eapply (@paused_recording_receives_nothing ascii_only no_codecs sample_unmarshal
    [sample_datagram 5 2 320 [213]; sample_datagram 5 3 80000 [85]]).
  - vm_compute. reflexivity.
  - vm_compute. reflexivity.
  - constructor; vm_compute; try lia; reflexivity.
  - intros op Hop. repeat (apply elem_of_cons in Hop as [Hop|Hop]; [discriminate|]). by apply elem_of_nil in Hop.
  - vm_compute. reflexivity.
Defined.

Lemma stream_never_panics_witness :
  is_Some (@rtp_run ascii_only no_codecs sample_unmarshal
    (@start_world no_codecs sample_forwarder None (Some (NewJitterBuffer 5 0)) None true true)
    [sample_datagram 5 1 160 [213]; EvTick (fun _ => 4); EvForwarder (OpPause 9 true true); EvSttRead 10]).
Proof.
  apply (@stream_never_panics ascii_only no_codecs sample_unmarshal sample_forwarder None (Some (5, 0)) None true true).
  - split; discriminate.
  - intros [|pt [|ssrc [|seq [|ts payload]]]] pkt; try discriminate. intros [= <-]. cbn [pk_SequenceNumber pk_Payload].
    split; [apply wrap_u_range; lia|]. unfold flength. cbn [List.length]. lia.
  - by eexists.
  - repeat constructor; unfold small_event, flength, max_datagram; cbn; lia.
Defined.

(** A PCMU stream after its first packet. *)
Definition pcmu_forwarder : RTPForwarder :=
  @SetCodecInfo ascii_only 0 "PCMU" 8000 1 (new_forwarder (mkPortPair 10000 10001) 30 (Some "s1") 7).

Definition pcmu_world : @RtpWorld no_codecs :=
  default (@start_world no_codecs pcmu_forwarder None None None true true)
    (@rtp_run ascii_only no_codecs sample_unmarshal (@start_world no_codecs pcmu_forwarder None None None true true)
      [EvDatagram [0; 5; 1; 160; 255; 127] 1 1 sample_addr]).

Lemma pcmu_gap_recorded_witness :
  exists w', @process_packet no_codecs "PCMU" 8000 1 (mkRtpPacket 9 24160 5 0 [255]) pcmu_world = Some w' /\
    recorded w' = recorded pcmu_world ++ replicate (Z.to_nat (pcmu_gap_bytes 7 24000 4)) 0 ++ muLawToPCM [255].
Proof.
  apply (@pcmu_gap_recorded ascii_only no_codecs (mkRtpPacket 9 24160 5 0 [255]) 1 pcmu_world); try reflexivity.
  - constructor; try (vm_compute; reflexivity).
    + constructor; vm_compute; try lia; reflexivity.
    + vm_compute. lia.
    + intros _. vm_compute. split; [reflexivity|discriminate].
    + intros jb Hj. vm_compute in Hj. discriminate Hj.
    + vm_compute. by eexists.
  - split; vm_compute; [split; [discriminate|reflexivity]|discriminate].
  - discriminate.
  - vm_compute. split; discriminate.
Defined.
