(* ===== verification/RtpSource.v ===== *)
(** * Sources, payload types and muting

    Theorems on which packets of [RtpStream] have an effect: foreign sources have
    none while the locked source is active, a silent source is replaced, a DTMF
    packet can take the place of the audio, and muting changes nothing. *)

From S2P Require Import Prelude GoStrings Metadata GoFloat RtpStats LruCache PortManager Ports PauseIO Forwarder WavFile AudioDecode BufferedPipe Heap JitterBuffer RtpStream RtpRecording.
From Stdlib Require Import Ascii String.
#[local] Open Scope string_scope.
#[local] Open Scope list_scope.
#[local] Open Scope Z_scope.

(** ** Foreign traffic *)

Section foreign.
Context `{Unicode} `{StreamCodecs} (unmarshal : list Z -> option RtpPacket) (mux : bool) (L : Z) (HL : L <> 0).

(** A stream locked on [L], with nothing else in its jitter buffer. *)
Record locked (w : RtpWorld) : Prop := {
  lo_ssrc : fw_RemoteSSRC (rw_fwd w) = L;
  lo_mux : fw_UseRTCPMux (rw_fwd w) = mux;
  lo_jitter : forall jb, rw_jitterBuffer w = Some jb -> Forall (fun bp => pk_SSRC (bk_Packet bp) = L) (jb_packets jb)
}.

Definition own_accept (w : RtpWorld) : RtpWorld :=
  (on_fwd (fun f => f <| fw_RTPSuspended := false |>) w) <| rw_packetsSinceLastLockedSSRC := 0 |>.

Lemma validate_own w : fw_RemoteSSRC (rw_fwd w) = L -> validate_ssrc L w = (true, own_accept w).
Proof.
  intros E. unfold validate_ssrc, lock_ssrc. rewrite E. replace (L =? 0) with false by lia. by rewrite E, Z.eqb_refl.
Qed.

Lemma validate_foreign ssrc w : fw_RemoteSSRC (rw_fwd w) = L -> ssrc <> L ->
  0 <= rw_packetsSinceLastLockedSSRC w < 29 ->
  exists u, validate_ssrc ssrc w = (false, with_unread u w) /\ un_mute u = GetMuteStatus (rw_fwd w) /\
    un_since u = rw_packetsSinceLastLockedSSRC w + 1.
Proof.
  intros E Hne Hk. unfold validate_ssrc, lock_ssrc. rewrite E. replace (L =? 0) with false by lia.
  rewrite E. replace (ssrc =? L) with false by lia.
  assert (Hs : u32 (rw_packetsSinceLastLockedSSRC w + 1) = rw_packetsSinceLastLockedSSRC w + 1).
  { apply wrap_u_id. unfold in_u. lia. }
  cbv zeta. set (wt := track_alternate ssrc w).
  assert (Hwt : exists u, wt = with_unread u w /\ un_mute u = GetMuteStatus (rw_fwd w) /\
    un_since u = rw_packetsSinceLastLockedSSRC w + 1).
  { subst wt. unfold track_alternate. rewrite Hs. destruct w as [f]. destruct f. cbn in *.
    destruct (correction_blocked _); [|destruct (_ =? _)];
      eexists (mkUnread _ _ _ _ (fw_InboundMuted, fw_OutboundMuted, fw_MutedAt)); cbn; (split; [reflexivity|done]). }
  clearbody wt. destruct Hwt as (u & -> & Hm & Hu).
  assert (Hg : (ssrcCorrectionInactivity <=? rw_packetsSinceLastLockedSSRC (with_unread u w)) = false).
  { unfold ssrcCorrectionInactivity. destruct w. cbn. rewrite Hu. cbn in *. lia. }
  rewrite Hg, andb_false_r.
  exists (u <| un_mismatches := u64 (rw_ssrcMismatchCount (with_unread u w) + 1) |>). by destruct w, u.
Qed.

Lemma own_accept_unread u w : own_accept (with_unread u w) = with_unread (u <| un_since := 0 |>) (own_accept w).
Proof. by destruct w as [[]], u. Qed.

Lemma locked_own w : locked w -> locked (own_accept w).
Proof. intros [A B C]. destruct w as [[]]. by split. Qed.

Lemma locked_change w w' : change w w' -> locked w -> locked w'.
Proof.
  intros Hc [A M B]. destruct Hc as [w w' (E1 & _ & _ & _ & E5)|w data|w p b _].
  - split; [by rewrite E1..|by rewrite E5].
  - destruct (record_write_fwd data w) as [E _]. destruct (frame_record data w) as (_ & _ & _ & E4 & _).
    split; [rewrite E; destruct (rw_fwd w); done..|by rewrite E4].
  - destruct w. by split.
Qed.

Lemma locked_accepted buffered pkt arrival now addr w w' : pk_SSRC pkt = L ->
  handle_accepted buffered pkt arrival now addr w = Some w' -> locked w -> locked w'.
Proof.
  intros Hp (w1 & Hb & Hc)%(handle_accepted_cases L) [A M B].
  assert (Hw1 : locked w1).
  { split; [by apply (bo_fwd _ _ _ Hb)|by rewrite (k_mux _ _ _ (bo_fwd _ _ _ Hb))|]. by rewrite (bo_jitter _ _ _ Hb). }
  destruct Hc as [Hc|(jb & Ej & _ & ->)].
  - clear -Hc Hw1. induction Hc; eauto using locked_change.
  - destruct Hw1 as [C M' D]. destruct w1. split; [done..|]. cbn. intros jb' [= <-].
    apply (push_Forall (fun bp => pk_SSRC (bk_Packet bp) = L)); [done|by apply D].
Qed.

(** Two streams that differ in what is not read, with the same forwarder. *)
Definition twins (u : Unread) (w : RtpWorld) : Prop := un_mute u = GetMuteStatus (rw_fwd w).

Lemma twins_fwd u w : twins u w -> rw_fwd (with_unread u w) = rw_fwd w.
Proof. unfold twins. intros E. destruct w as [f]. cbn. rewrite E. by destruct f. Qed.

Lemma accepted_mute buffered pkt arrival now addr w w' :
  handle_accepted buffered pkt arrival now addr w = Some w' -> unread_of w' = unread_of w.
Proof.
  intros E. pose proof (handle_accepted_unread (unread_of w) buffered pkt arrival now addr w) as Hu.
  rewrite with_unread_of, E in Hu. cbn in Hu. injection Hu as Hu. rewrite Hu. destruct w as [[]], w' as [[]]. done.
Qed.

Lemma own_packet u buffered pkt arrival now addr w : pk_SSRC pkt = L -> locked w -> twins u w ->
  decodeAndProcess buffered pkt arrival now addr (with_unread u w) =
    with_unread (u <| un_since := 0 |>) <$> decodeAndProcess buffered pkt arrival now addr w /\
  forall w', decodeAndProcess buffered pkt arrival now addr w = Some w' ->
    locked w' /\ twins (u <| un_since := 0 |>) w'.
Proof.
  intros Hp Hl Ht. unfold decodeAndProcess. rewrite Hp.
  rewrite (validate_own w) by apply Hl.
  rewrite (validate_own (with_unread u w)) by (rewrite twins_fwd by done; apply Hl).
  rewrite own_accept_unread, handle_accepted_unread. split; [done|]. intros w' E. split.
  - eapply locked_accepted; [done|exact E|by apply locked_own].
  - apply accepted_mute, (f_equal un_mute) in E. unfold twins in *.
    change (un_mute (unread_of w')) with (GetMuteStatus (rw_fwd w')) in E. rewrite E.
    destruct u. cbn in *. rewrite Ht. by destruct w as [[]].
Qed.

Lemma drain_twins fuel clock u w : locked w -> twins u w ->
  exists u', drain_buffer fuel clock (with_unread u w) = with_unread u' <$> drain_buffer fuel clock w /\
    (un_since u' = un_since u \/ un_since u' = 0) /\
    forall w', drain_buffer fuel clock w = Some w' -> locked w' /\ twins u' w'.
Proof.
  revert clock u w. induction fuel as [|fuel IH]; intros clock u w Hl Ht; cbn [drain_buffer].
  { exists u. split_and!; [done|by left|]. by intros ? [= <-]. }
  rewrite unread_jitterBuffer. destruct (rw_jitterBuffer w) as [jb|] eqn:Ej.
  2:{ exists u. split_and!; [done|by left|]. by intros ? [= <-]. }
  destruct (pop_Forall (fun bp => pk_SSRC (bk_Packet bp) = L) (clock 0%nat) jb (lo_jitter _ Hl _ Ej)) as [Hj Hb].
  destruct (Pop _ jb) as [[[bp|] ?] jb']; cbn in Hj, Hb.
  - replace ((with_unread u w) <| rw_jitterBuffer := Some jb' |>) with (with_unread u (w <| rw_jitterBuffer := Some jb' |>))
      by (by destruct w).
    assert (Hl' : locked (w <| rw_jitterBuffer := Some jb' |>)).
    { destruct w, Hl as [A M B]. split; cbn in *; [done..|]. by intros ? [= <-]. }
    assert (Ht' : twins u (w <| rw_jitterBuffer := Some jb' |>)) by (by destruct w).
    destruct (own_packet u true (bk_Packet bp) (bk_Arrival bp) (clock 1%nat) None _ (Hb bp eq_refl) Hl' Ht') as [-> Hn].
    destruct (decodeAndProcess _ _ _ _ _ _) as [w1|]; cbn.
    + destruct (Hn w1 eq_refl) as [H1 H2].
      destruct (IH (fun n => clock (2 + n)%nat) _ w1 H1 H2) as (u' & E & Hs & Hw). exists u'. split; [done|].
      split; [|done]. right. destruct u. cbn in Hs. by destruct Hs.
    + exists u. split_and!; [done|by left|done].
  - exists u. split_and!; [cbn; by destruct w|by left|]. intros ? [= <-].
    destruct w, Hl as [A M B]. split; [|done]. split; cbn in *; [done..|]. by intros ? [= <-].
Qed.

Definition foreign (ev : rtp_event) : Prop :=
  match ev with EvDatagram data _ _ _ => exists pkt, packet_of unmarshal mux data = Some pkt /\ pk_SSRC pkt <> L | _ => False end.

#[global] Instance foreign_dec ev : Decision (foreign ev).
Proof using Type.
  clear HL.
  destruct ev as [data ? ? ?|?|?|?|]; try (right; by intros []). cbn. destruct (packet_of unmarshal mux data) as [pkt|].
  - destruct (decide (pk_SSRC pkt = L)); [right; naive_solver|left; eauto].
  - right. naive_solver.
Defined.

Definition without_foreign (evs : list rtp_event) : list rtp_event := filter (fun ev => ~ foreign ev) evs.

(** A packet of the locked source. *)
Definition own (ev : rtp_event) : Prop :=
  match ev with EvDatagram data _ _ _ => exists pkt, packet_of unmarshal mux data = Some pkt /\ pk_SSRC pkt = L | _ => False end.

(** Fewer than thirty foreign packets between two packets of the locked source,
    when [k] came before.  A tick or another event does not reset the count. *)
Inductive calm : Z -> list rtp_event -> Prop :=
  | calm_nil k : calm k []
  | calm_own k ev evs : own ev -> calm 0 evs -> calm k (ev :: evs)
  | calm_foreign k ev evs : foreign ev -> k + 1 < ssrcCorrectionInactivity -> calm (k + 1) evs -> calm k (ev :: evs)
  | calm_other k ev evs : ~ foreign ev -> calm k evs -> calm k (ev :: evs).

Lemma fw_step_ssrc f op f' : anything_but_start op -> op <> OpResetSSRC -> fw_step f op = Some f' ->
  fw_RemoteSSRC f' = fw_RemoteSSRC f /\ fw_UseRTCPMux f' = fw_UseRTCPMux f.
Proof.
  destruct op; cbn [fw_step]; try done; intros _ _.
  - unfold Pause. cbv zeta. destruct f as [? ? ? ? ? ? [] [] ? ? ? ? ? ? []], recording, transcription;
      cbn; try done; by intros [= <-].
  - unfold Resume. cbv zeta. destruct f as [? ? ? ? ? ? [] [] ? ? ? ? ? ? []]; cbn; try done; by intros [= <-].
  - unfold Mute. cbv zeta. intros ->%log_mute_some.
    destruct f as [? ? ? ? ? ? ? ? ? ? ? ? ? ? ? ? ? ? [] []], inbound, outbound; done.
  - unfold Unmute. cbv zeta. intros ->%log_mute_some.
    destruct f as [? ? ? ? ? ? ? ? ? ? ? ? ? ? ? ? ? ? [] []], inbound, outbound; done.
  - intros [= <-]. unfold SetCodecInfo. cbv zeta. destruct f, (0 <? sampleRate); done.
  - intros [= <-]. by destruct f.
  - intros [= <-]. unfold monitor_tick. destruct (fw_stopped f); [done|].
    destruct (fw_TranscriptionPaused f); [by destruct f|]. cbv zeta. destruct (_ <? _); [|done].
    destruct (fw_RecordingSession f); by destruct f.
Qed.

(** An event that is not foreign does the same to both streams. *)
Lemma step_twins u w ev : locked w -> twins u w -> ~ foreign ev -> ev <> EvForwarder OpResetSSRC ->
  exists u', rtp_step unmarshal (with_unread u w) ev = with_unread u' <$> rtp_step unmarshal w ev /\
    (un_since u' = un_since u \/ un_since u' = 0) /\ (own ev -> un_since u' = 0) /\
    forall w', rtp_step unmarshal w ev = Some w' -> locked w' /\ twins u' w'.
Proof.
  intros Hl Ht Hf Hr. destruct ev as [data arrival now addr|clock|op|n|]; cbn [rtp_step].
  - rewrite twins_fwd by done. rewrite (lo_mux _ Hl). cbn in Hf.
    destruct (packet_of unmarshal mux data) as [pkt|] eqn:Ep.
    + assert (Hp : pk_SSRC pkt = L) by (destruct (decide (pk_SSRC pkt = L)); naive_solver).
      destruct (own_packet u false pkt arrival now (Some addr) w Hp Hl Ht) as [-> Hn].
      exists (u <| un_since := 0 |>). split; [done|]. destruct u. cbn. split; [by right|]. done.
    + exists u. split; [done|]. split; [by left|]. split; [cbn; rewrite Ep; naive_solver|]. by intros ? [= <-].
  - rewrite unread_jitterBuffer. destruct (rw_jitterBuffer w) as [jb|].
    + destruct (drain_twins (List.length (jb_packets jb)) clock u w Hl Ht) as (u' & -> & Hs & Hn).
      exists u'. split_and!; [done..|]. done.
    + exists u. split_and!; [done|by left|done|]. by intros ? [= <-].
  - destruct (decide (anything_but_start op)) as [Ho|Ho].
    2:{ destruct op; try done. exists u. split_and!; [done|by left|done|]. by intros ? [= <-]. }
    exists (u <| un_mute := match fw_step (rw_fwd w) op with Some f => GetMuteStatus f | None => un_mute u end |>).
    assert (Hop : op <> OpResetSSRC) by congruence.
    pose proof (fun f' => fw_step_ssrc (rw_fwd w) op f' Ho Hop) as Hk.
    assert (Hs : forall x, un_since (u <| un_mute := x |>) = un_since u) by (by destruct u).
    split; [|split; [left; apply Hs|split; [done|]]].
    + rewrite twins_fwd by done.
      destruct op; try done; (destruct (fw_step (rw_fwd w) _) as [f|]; [|done]); cbn; f_equal;
        destruct u, w as [f0]; cbn; unfold with_unread; cbn; f_equal; by destruct f.
    + intros w' E. assert (E' : (fw_step (rw_fwd w) op ≫= fun f => Some (w <| rw_fwd := f |>)) = Some w') by (by destruct op).
      destruct (fw_step (rw_fwd w) op) as [f|]; [|done]. injection E' as <-.
      destruct (Hk f eq_refl) as [K1 K2]. destruct w, Hl as [A M B]. split; [split|]; cbn in *; [congruence..|done|].
      by destruct u.
  - rewrite unread_sttPipe. exists u. split; [|split; [by left|split; [done|]]].
    + destruct (Read _ _ _) as [[? ?]|]; [|done]. cbn. by destruct w.
    + intros w'. destruct (Read _ _ _) as [[? ?]|]; [|done]. intros [= <-]. destruct w, Hl as [A M B]. by split; [split|].
  - rewrite unread_sttPipe. exists u. split; [by destruct w|]. split; [by left|]. split; [done|].
    intros w' [= <-]. destruct w, Hl as [A M B]. by split; [split|].
Qed.

Lemma step_foreign u w ev : locked w -> twins u w -> foreign ev -> 0 <= un_since u < 29 ->
  exists u', rtp_step unmarshal (with_unread u w) ev = Some (with_unread u' w) /\ twins u' w /\
    un_since u' = un_since u + 1.
Proof.
  intros Hl Ht Hf Hk. destruct ev as [data arrival now addr|clock|op|n|]; [|done..].
  destruct Hf as (pkt & Hp & Hne). cbn [rtp_step]. pose proof (twins_fwd u w Ht) as Hfw.
  rewrite Hfw, (lo_mux _ Hl), Hp. unfold decodeAndProcess.
  assert (Hs : rw_packetsSinceLastLockedSSRC (with_unread u w) = un_since u) by (by destruct w, u).
  destruct (validate_foreign (pk_SSRC pkt) (with_unread u w)) as (u' & -> & Hm & Hu); [by rewrite Hfw; apply Hl|done|by rewrite Hs|].
  exists u'. rewrite with_unread_twice. split; [done|]. split; [|by rewrite Hu, Hs]. unfold twins. by rewrite Hm, Hfw.
Qed.

Lemma run_twins evs u w k : locked w -> twins u w -> 0 <= un_since u <= k -> calm k evs ->
  EvForwarder OpResetSSRC ∉ evs ->
  exists u', rtp_run unmarshal (with_unread u w) evs =
    with_unread u' <$> rtp_run unmarshal w (without_foreign evs) /\
    forall w', rtp_run unmarshal w (without_foreign evs) = Some w' -> locked w' /\ twins u' w'.
Proof.
  intros Hl Ht Hk Hc. revert u w Hl Ht Hk. induction Hc as [k|k ev evs Ho Hc IH|k ev evs Hf Hk' Hc IH|k ev evs Hf Hc IH];
    intros u w Hl Ht Hk Hin.
  - exists u. split; [done|]. by intros ? [= <-].
  - apply not_elem_of_cons in Hin as [Hr Hin]. assert (Hf : ~ foreign ev).
    { destruct ev; try done. cbn in *. intros (p & E1 & E2). destruct Ho as (p' & E3 & E4). congruence. }
    unfold without_foreign. rewrite filter_cons_True by done. fold (without_foreign evs). cbn [rtp_run].
    destruct (step_twins u w ev Hl Ht Hf) as (u1 & -> & _ & Hz & Hn); [congruence|].
    destruct (rtp_step unmarshal w ev) as [w1|]; cbn; [|by exists u1]. destruct (Hn w1 eq_refl).
    apply IH; try done. rewrite Hz; [lia|done].
  - apply not_elem_of_cons in Hin as [Hr Hin]. unfold without_foreign. rewrite filter_cons_False by tauto. fold (without_foreign evs). cbn [rtp_run].
    unfold ssrcCorrectionInactivity in Hk'.
    destruct (step_foreign u w ev Hl Ht Hf ltac:(lia)) as (u1 & -> & Ht1 & Hs). cbn.
    apply IH; try done. rewrite Hs. lia.
  - apply not_elem_of_cons in Hin as [Hr Hin]. unfold without_foreign. rewrite filter_cons_True by done. fold (without_foreign evs). cbn [rtp_run].
    destruct (step_twins u w ev Hl Ht Hf) as (u1 & -> & Hs & _ & Hn); [congruence|].
    destruct (rtp_step unmarshal w ev) as [w1|]; cbn; [|by exists u1]. destruct (Hn w1 eq_refl).
    apply IH; try done. destruct Hs as [-> | ->]; lia.
Qed.
End foreign.


(** A source that offers a packet. *)
Definition offer `{StreamCodecs} (ssrc : Z) (w : RtpWorld) : RtpWorld := (validate_ssrc ssrc w).2.

(** The state of the candidate after [n] packets of a source [S] in a row. *)
Record candidate `{StreamCodecs} (L S since : Z) (n : nat) (w : RtpWorld) : Prop := {
  ca_ssrc : fw_RemoteSSRC (rw_fwd w) = L;
  ca_free : correction_blocked w = false;
  ca_since : rw_packetsSinceLastLockedSSRC w = since + Z.of_nat n;
  ca_count : match n with
             | O => rw_alternateSSRC w <> S
             | _ => rw_alternateSSRC w = S /\ rw_alternateSSRCCount w = Z.of_nat n
             end
}.

Lemma track_candidate `{StreamCodecs} L S since n w : 0 <= since < 2 ^ 31 -> (n < 50)%nat ->
  candidate L S since n w -> candidate L S since (1 + n) (track_alternate S w).
Proof.
  intros Hs Hn [A B C D]. unfold track_alternate, correction_blocked in *. destruct w as [f]. cbn in A, B, C, D.
  assert (Hu : u32 (rw_packetsSinceLastLockedSSRC + 1) = since + Z.of_nat (1 + n)).
  { unfold u32. rewrite wrap_u_id by (unfold in_u; lia). lia. }
  cbn -[Nat.add]. rewrite B, Hu. destruct n as [|n].
  - replace (S =? rw_alternateSSRC) with false by lia. by split.
  - destruct D as [-> ->]. rewrite Z.eqb_refl.
    assert (Hc : u32 (Z.of_nat (1 + n) + 1) = Z.of_nat (1 + (1 + n))).
    { unfold u32. rewrite wrap_u_id by (unfold in_u; lia). lia. }
    by split.
Qed.

Lemma validate_candidate `{StreamCodecs} L S since n w : L <> 0 -> S <> L -> 0 <= since < 2 ^ 31 -> (n < 50)%nat ->
  candidate L S since n w ->
  validate_ssrc S w = if decide (n = 49%nat) then (true, correct_ssrc (track_alternate S w))
    else (false, (track_alternate S w) <| rw_ssrcMismatchCount := u64 (rw_ssrcMismatchCount (track_alternate S w) + 1) |>).
Proof.
  intros HL HS Hs Hn Hc. pose proof (track_candidate L S since n w Hs Hn Hc) as [A B C [_ D]].
  unfold validate_ssrc, lock_ssrc. rewrite (ca_ssrc _ _ _ _ _ Hc). replace (L =? 0) with false by lia.
  rewrite (ca_ssrc _ _ _ _ _ Hc). replace (S =? L) with false by lia. cbv zeta. rewrite B, C, D.
  unfold ssrcCorrectionThreshold, ssrcCorrectionInactivity. cbn [negb andb]. case_decide as En.
  - subst n. destruct (Z.leb_spec 30 (since + Z.of_nat (1 + 49))) as [_|Hlt]; [done|clear -Hs Hlt; lia].
  - destruct (Z.leb_spec 50 (Z.of_nat (1 + n))) as [Hge|_]; [clear -Hn En Hge; lia|done].
Qed.

Lemma offers_candidate `{StreamCodecs} L S since n w : L <> 0 -> S <> L -> 0 <= since < 2 ^ 31 -> (n < 50)%nat ->
  candidate L S since 0 w -> candidate L S since n (Nat.iter n (offer S) w).
Proof.
  intros HL HS Hs Hn H0'. induction n as [|n IH]; [done|]. rewrite Nat.iter_succ. specialize (IH ltac:(lia)).
  unfold offer at 1. rewrite (validate_candidate L S since n) by (done || lia).
  rewrite decide_False by lia. apply track_candidate in IH; [|done|lia].
  destruct IH as [A B C D], (track_alternate S _). by split.
Qed.

(** A locked source that has gone silent is replaced.  Unless the call is on
    hold or suspended, the first 49 packets of a new source are refused and the
    50th is accepted: the stream is then locked on the new source, its sequence
    and timestamp history is forgotten, and the candidate counters are reset. *)
Theorem silent_source_replaced `{StreamCodecs} (L S : Z) (w : RtpWorld) :
  L <> 0 -> S <> L -> fw_RemoteSSRC (rw_fwd w) = L -> correction_blocked w = false ->
  rw_alternateSSRC w <> S -> 0 <= rw_packetsSinceLastLockedSSRC w < 2 ^ 31 ->
  (forall n, (n < 49)%nat -> (validate_ssrc S (Nat.iter n (offer S) w)).1 = false) /\
  let '(accepted, w') := validate_ssrc S (Nat.iter 49 (offer S) w) in
  accepted = true /\ fw_RemoteSSRC (rw_fwd w') = S /\ rw_lastSeq w' = None /\ rw_hasLastTimestamp w' = false /\
  rw_alternateSSRC w' = 0 /\ rw_alternateSSRCCount w' = 0 /\ rw_packetsSinceLastLockedSSRC w' = 0.
Proof.
  intros HL HS Hr Hb Ha Hk. set (since := rw_packetsSinceLastLockedSSRC w).
  assert (H0' : candidate L S since 0 w) by (split; try done; subst since; lia).
  pose proof (fun n Hn => offers_candidate L S since n w HL HS Hk Hn H0') as Hc. split.
  - intros n Hn. rewrite (validate_candidate L S since n) by (try apply Hc; done || lia). by rewrite decide_False by lia.
  - specialize (Hc 49%nat ltac:(lia)). rewrite (validate_candidate L S since 49) by (done || lia).
    apply track_candidate in Hc as [A B C [D _]]; [|done|lia]. rewrite decide_True by done.
    unfold correct_ssrc, forget_stream. destruct (track_alternate S _) as [f]. cbn in *. destruct f. by subst.
Qed.
(** ** Telephone events in a PCMU call *)

Lemma recorded_booked `{Unicode} `{StreamCodecs} L w w' : booked L w w' -> recorded w' = recorded w.
Proof. rewrite !recorded_written. apply booked_written. Qed.

Lemma accept_codec `{Unicode} `{StreamCodecs} pkt arrival now addr w :
  codec_info (rw_fwd (accept_packet pkt arrival now addr w)) = codec_info (rw_fwd w).
Proof.
  unfold accept_packet, first_packet, updateRemoteSession, forget_stream. destruct w as [f fp]. destruct f. cbn.
  destruct fp, fw_HasFirstRTP, (_ && _), addr as [a|]; cbn; try done;
    destruct fw_RemoteRTPAddr, fw_RemoteRTCPAddr; cbn; by destruct (_ =? 0).
Qed.

Lemma validate_codec `{Unicode} `{StreamCodecs} ssrc w :
  codec_info (rw_fwd (validate_ssrc ssrc w).2) = codec_info (rw_fwd w).
Proof.
  unfold validate_ssrc, lock_ssrc, track_alternate, correct_ssrc, forget_stream, correction_blocked.
  destruct w as [f]. destruct f. cbn. by case_tests.
Qed.

(** Once the payload type is set and the codec known, packets of another payload
    type are not recorded, and the codec stays. *)
Lemma other_payload_type `{Unicode} `{StreamCodecs} cpt name rate ch buffered pkt arrival now addr w w' :
  codec_info (rw_fwd w) = (cpt, name, rate, ch) -> cpt <> 0 -> name <> "" -> rate <> 0 -> pk_PayloadType pkt <> cpt ->
  decodeAndProcess buffered pkt arrival now addr w = Some w' ->
  recorded w' = recorded w /\ codec_info (rw_fwd w') = (cpt, name, rate, ch).
Proof.
  intros Hc Hpt Hn Hr Hne. unfold decodeAndProcess.
  pose proof (validate_codec (pk_SSRC pkt) w) as Hvc. destruct (validate_booked (pk_SSRC pkt) w) as [Hvb _].
  destruct (validate_ssrc _ w) as [[] w1]; cbn in Hvc, Hvb.
  2:{ intros [= <-]. split; [by eapply recorded_booked|by rewrite Hvc]. }
  unfold handle_accepted. cbv zeta. pose proof (accept_codec pkt arrival now addr w1) as Hac.
  pose proof (accept_packet_booked 0 pkt arrival now addr w1) as Hab.
  set (wa := accept_packet pkt arrival now addr w1) in *. clearbody wa.
  unfold track_codec. rewrite Hac, Hvc, Hc. replace (cpt =? 0) with false by lia.
  replace (String.eqb name "") with false by (symmetry; by apply String.eqb_neq). replace (rate =? 0) with false by lia.
  cbn [orb]. cbv iota beta. replace (cpt =? 0) with false by lia. replace (pk_PayloadType pkt =? cpt) with false by lia.
  assert (Hrec : recorded wa = recorded w) by (by rewrite (recorded_booked _ _ _ Hab), (recorded_booked _ _ _ Hvb)).
  cbn [negb andb]. destruct (pk_Payload pkt); intros E; injection E as <-.
  - split; [done|congruence].
  - rewrite (recorded_booked 0 wa) by apply send_dtmf_booked. split; [done|].
    rewrite <- Hc, <- Hvc, <- Hac. unfold send_dtmf. destruct (rw_dtmfCh wa), wa; [by destruct (Nat.ltb _ _)|done].
Qed.

(** A packet of the locked source with payload type 101 takes the place of the
    payload type 0. *)
Lemma dtmf_takes_payload_type `{Unicode} `{StreamCodecs} pkt arrival now addr w w1 :
  codec_info (rw_fwd w) = (0, "PCMU", 8000, 1) ->
  pk_PayloadType pkt = 101 -> pk_SSRC pkt = fw_RemoteSSRC (rw_fwd w) -> fw_RemoteSSRC (rw_fwd w) <> 0 ->
  decodeAndProcess false pkt arrival now addr w = Some w1 ->
  codec_info (rw_fwd w1) = (101, "PCMU", 8000, 1).
Proof.
  intros Hc Hpt Hs Hl.
  unfold decodeAndProcess. pose proof (validate_codec (pk_SSRC pkt) w) as Hvc.
  rewrite Hs in Hvc |- *. rewrite (validate_own (fw_RemoteSSRC (rw_fwd w)) Hl w eq_refl) in Hvc |- *. cbn [snd] in Hvc.
  unfold handle_accepted. cbv zeta. pose proof (accept_codec pkt arrival now addr (own_accept w)) as Hac.
  set (wa := accept_packet _ _ _ _ _) in *. clearbody wa. unfold track_codec. rewrite Hac, Hvc, Hc, Hpt. cbn -[process_packet].
  set (wb := on_fwd _ wa).
  assert (Hb : codec_info (rw_fwd wb) = (101, "PCMU", 8000, 1)).
  { subst wb. by destruct wa as [[]]. }
  clearbody wb. destruct (pk_Payload pkt); [by intros [= <-]|].
  assert (Hb' : codec_info (rw_fwd (send_dtmf 101 wb)) = (101, "PCMU", 8000, 1)).
  { rewrite <- Hb. unfold send_dtmf. destruct (rw_dtmfCh wb), wb; [by destruct (Nat.ltb _ _)|done]. }
  generalize dependent (send_dtmf 101 wb). clear wb Hb. intros wb Hb.
  destruct (rw_jitterBuffer wb); [intros [= <-]; by destruct wb|].
  intros Hp%process_packet_changes. rewrite <- Hb. clear -Hp. induction Hp as [|wb wc wd Hc _ IH]; [done|].
  rewrite IH. destruct Hc as [? ? (-> & _)|wb data|[]]; [done| |done].
  rewrite (proj1 (record_write_fwd data wb)). by destruct (rw_fwd wb).
Qed.

Definition plain_audio (unmarshal : list Z -> option RtpPacket) (ev : rtp_event) : Prop :=
  match ev with EvDatagram data _ _ _ => forall pkt, unmarshal data = Some pkt -> pk_PayloadType pkt = 0 | _ => False end.

(** Packets of type 0 leave a stream of another known codec alone. *)
Lemma plain_audio_ignored `{Unicode} `{StreamCodecs} unmarshal cpt name rate ch evs w w' :
  codec_info (rw_fwd w) = (cpt, name, rate, ch) -> cpt <> 0 -> name <> "" -> rate <> 0 ->
  Forall (plain_audio unmarshal) evs -> rtp_run unmarshal w evs = Some w' -> recorded w' = recorded w.
Proof.
  intros Hc Hpt Hn Hr Hevs. revert w Hc. induction Hevs as [|ev evs Hev Hevs IH]; intros w Hc; cbn; [by intros [= <-]|].
  destruct ev as [data ar nw ad| | | |]; try done. cbn in *. unfold packet_of.
  destruct (_ || _); [by apply IH|]. destruct (unmarshal data) as [pk|] eqn:Eu; [|by apply IH].
  destruct (decodeAndProcess _ _ _ _ _ _) as [w3|] eqn:E; cbn; [|done].
  specialize (Hev pk eq_refl).
  destruct (other_payload_type cpt name rate ch _ _ _ _ _ _ _ Hc Hpt Hn Hr ltac:(by rewrite Hev) E) as [<- Hc3]. by apply IH.
Qed.

(** In a PCMU call (static payload type 0, the usual offer with a
    [telephone-event] type beside it), one accepted DTMF packet ends the recording
    of the audio: the payload type 0 of the codec counts as not set, the DTMF
    packet's type takes its place, and from then on no PCMU packet, of whatever
    source and in whatever number, adds a byte to the recording. *)
Theorem dtmf_silences_pcmu `{Unicode} `{StreamCodecs} (unmarshal : list Z -> option RtpPacket) (pkt : RtpPacket)
    (arrival now : Time) (addr : UDPAddr) (evs : list rtp_event) (w w1 w2 : RtpWorld) :
  codec_info (rw_fwd w) = (0, "PCMU", 8000, 1) ->
  pk_PayloadType pkt = 101 -> pk_SSRC pkt = fw_RemoteSSRC (rw_fwd w) -> fw_RemoteSSRC (rw_fwd w) <> 0 ->
  decodeAndProcess false pkt arrival now (Some addr) w = Some w1 ->
  Forall (plain_audio unmarshal) evs -> rtp_run unmarshal w1 evs = Some w2 ->
  fw_CodecPayloadType (rw_fwd w1) = 101 /\ recorded w2 = recorded w1.
Proof.
  intros Hc Hpt Hs Hl Hd Hevs Hr.
  assert (Hc1 : codec_info (rw_fwd w1) = (101, "PCMU", 8000, 1)).
  { by eapply (dtmf_takes_payload_type pkt arrival now (Some addr) w). }
  split; [by injection Hc1|]. by apply (plain_audio_ignored unmarshal 101 "PCMU" 8000 1 evs w1 w2).
Qed.

(** ** Muting *)

Section mute.
Context `{Unicode} `{StreamCodecs} (unmarshal : list Z -> option RtpPacket).

Definition with_mute (m : bool * bool * option Time) (w : RtpWorld) : RtpWorld := on_fwd (set_mute m) w.

Lemma with_mute_unread m w : with_mute m w = with_unread ((unread_of w) <| un_mute := m |>) w.
Proof. by destruct w as [[]]. Qed.

Lemma blocked_mute m w : correction_blocked (with_mute m w) = correction_blocked w.
Proof. by destruct w as [[]]. Qed.

Lemma lock_mute m ssrc w : lock_ssrc ssrc (with_mute m w) = with_mute m (lock_ssrc ssrc w).
Proof. unfold lock_ssrc. destruct w as [[]]. cbn. by destruct (_ =? 0). Qed.

Lemma track_mute m ssrc w : track_alternate ssrc (with_mute m w) = with_mute m (track_alternate ssrc w).
Proof.
  unfold track_alternate, correction_blocked. destruct w as [[]]. cbn. destruct (_ || _); [done|]. by destruct (_ =? _).
Qed.

Lemma validate_mute m ssrc w :
  validate_ssrc ssrc (with_mute m w) = ((validate_ssrc ssrc w).1, with_mute m (validate_ssrc ssrc w).2).
Proof.
  unfold validate_ssrc. cbv zeta. rewrite lock_mute. generalize (lock_ssrc ssrc w). clear w. intros w.
  replace (fw_RemoteSSRC (rw_fwd (with_mute m w))) with (fw_RemoteSSRC (rw_fwd w)) by (by destruct w as [[]]).
  destruct (_ =? _); [by destruct w as [[]]|]. rewrite track_mute. generalize (track_alternate ssrc w). clear w. intros w.
  rewrite blocked_mute.
  replace (rw_alternateSSRCCount (with_mute m w)) with (rw_alternateSSRCCount w) by (by destruct w).
  replace (rw_packetsSinceLastLockedSSRC (with_mute m w)) with (rw_packetsSinceLastLockedSSRC w) by (by destruct w).
  destruct (_ && _); by destruct w as [[]].
Qed.

Lemma packet_mute m buffered pkt arrival now addr w :
  decodeAndProcess buffered pkt arrival now addr (with_mute m w) =
    with_mute m <$> decodeAndProcess buffered pkt arrival now addr w.
Proof.
  unfold decodeAndProcess. rewrite validate_mute. destruct (validate_ssrc _ w) as [[] w1]; [|done]. cbn [fst snd].
  rewrite with_mute_unread, handle_accepted_unread. destruct (handle_accepted _ _ _ _ _ w1) as [w2|] eqn:E; [|done].
  apply accepted_mute in E. cbn. f_equal. by rewrite with_mute_unread, E.
Qed.

Lemma drain_mute m fuel clock w :
  drain_buffer fuel clock (with_mute m w) = with_mute m <$> drain_buffer fuel clock w.
Proof.
  revert clock w. induction fuel as [|fuel IH]; intros clock w; cbn [drain_buffer]; [done|].
  replace (rw_jitterBuffer (with_mute m w)) with (rw_jitterBuffer w) by (by destruct w).
  destruct (rw_jitterBuffer w) as [jb|]; [|done]. destruct (Pop _ jb) as [[[bp|] ?] jb'].
  - replace ((with_mute m w) <| rw_jitterBuffer := Some jb' |>) with (with_mute m (w <| rw_jitterBuffer := Some jb' |>))
      by (by destruct w).
    rewrite packet_mute. destruct (decodeAndProcess _ _ _ _ _ _); [|done]. cbn. apply IH.
  - cbn. by destruct w.
Qed.

Definition mutes (ev : rtp_event) : Prop :=
  match ev with EvForwarder (OpMute _ _ _) | EvForwarder (OpUnmute _ _) => True | _ => False end.

#[global] Instance mutes_dec ev : Decision (mutes ev).
Proof. destruct ev as [| |[]| |]; (by left) || (right; by intros []). Defined.

Lemma op_mute m op f : ~ mutes (EvForwarder op) -> anything_but_start op ->
  fw_step (set_mute m f) op = set_mute m <$> fw_step f op.
Proof.
  intros Hm Ho. destruct op; cbn [fw_step]; try done; try (exfalso; by apply Hm).
  - unfold Pause. cbv zeta. destruct f as [? ? ? ? ? ? [] [] ? ? ? ? ? ? []], recording, transcription; done.
  - unfold Resume. cbv zeta. destruct f as [? ? ? ? ? ? [] [] ? ? ? ? ? ? []]; done.
  - cbn. f_equal. unfold SetCodecInfo. cbv zeta. destruct f, (0 <? sampleRate); done.
  - cbn. by destruct f.
  - cbn. by destruct f.
  - cbn. f_equal. unfold monitor_tick. destruct f. cbn. destruct fw_stopped; [done|].
    destruct fw_TranscriptionPaused; [done|]. destruct (_ <? _); [|done]. by destruct fw_RecordingSession.
Qed.

Lemma step_mute m w ev : ~ mutes ev ->
  rtp_step unmarshal (with_mute m w) ev = with_mute m <$> rtp_step unmarshal w ev.
Proof.
  intros Hm. destruct ev as [data arrival now addr|clock|op|n|]; cbn [rtp_step].
  - replace (fw_UseRTCPMux (rw_fwd (with_mute m w))) with (fw_UseRTCPMux (rw_fwd w)) by (by destruct w as [[]]).
    destruct (packet_of _ _ _); [apply packet_mute|done].
  - replace (rw_jitterBuffer (with_mute m w)) with (rw_jitterBuffer w) by (by destruct w).
    destruct (rw_jitterBuffer w); [apply drain_mute|done].
  - replace (rw_fwd (with_mute m w)) with (set_mute m (rw_fwd w)) by (by destruct w).
    destruct (decide (anything_but_start op)) as [Ho|Ho]; [|by destruct op].
    pose proof (op_mute m op (rw_fwd w) Hm Ho) as E.
    destruct op; try done; rewrite E; clear E; destruct (fw_step (rw_fwd w) _); cbn; (done || by destruct w).
  - replace (rw_sttPipe (with_mute m w)) with (rw_sttPipe w) by (by destruct w).
    destruct (Read _ _ _) as [[]|]; [|done]. cbn. by destruct w.
  - by destruct w.
Qed.

Lemma mute_op_only_mutes f op f' : mutes (EvForwarder op) -> fw_step f op = Some f' ->
  f' = set_mute (GetMuteStatus f') f.
Proof.
  destruct op; try done; intros _; cbn [fw_step]; unfold Mute, Unmute; cbv zeta; intros ->%log_mute_some;
    destruct f as [? ? ? ? ? ? ? ? ? ? ? ? ? ? ? ? ? ? [] []], inbound, outbound; done.
Qed.

Definition has_session (w : RtpWorld) : Prop := is_Some (fw_RecordingSession (rw_fwd w)).

Lemma session_run evs w w' : rtp_run unmarshal w evs = Some w' -> has_session w -> has_session w'.
Proof.
  apply (run_preserves has_session) with (ops := anything_but_start); unfold has_session.
  - intros w1 w2 Hb. by rewrite (k_session _ _ _ (bo_fwd _ _ _ Hb)).
  - intros w1 w2 Hc. destruct Hc as [? ? (-> & _)|w1 data|[]]; [done| |done].
    by destruct (frame_record data w1) as (_ & _ & _ & _ & ->).
  - by intros [].
  - intros [] op f Ho Hs Hi. cbn in *. destruct (fw_step_total _ _ Hi Ho) as (f' & E & Hf'). congruence.
  - by intros [].
  - by intros [].
  - by intros [].
Qed.
End mute.

(** Muting a leg has no effect on what is recorded or transcribed.  A stream
    with calls of the mute operations, at whatever times, and the same stream
    without them do exactly the same; only the mute flags of the forwarder differ. *)
Theorem mute_changes_nothing `{Unicode} `{StreamCodecs} (unmarshal : list Z -> option RtpPacket)
    (evs : list rtp_event) (w : RtpWorld) :
  is_Some (fw_RecordingSession (rw_fwd w)) ->
  exists m, rtp_run unmarshal w evs =
    with_mute m <$> rtp_run unmarshal w (filter (fun ev => ~ mutes ev) evs).
Proof.
  intros Hs. assert (Hid : w = with_mute (GetMuteStatus (rw_fwd w)) w) by (by destruct w as [[]]).
  cut (forall m, exists m', rtp_run unmarshal (with_mute m w) evs =
    with_mute m' <$> rtp_run unmarshal w (filter (fun ev => ~ mutes ev) evs)).
  { intros Hall. destruct (Hall (GetMuteStatus (rw_fwd w))) as [m E]. exists m. by rewrite <- E, <- Hid. }
  clear Hid. revert w Hs.
  induction evs as [|ev evs IH]; intros w Hs m; [by exists m|]. destruct (decide (mutes ev)) as [Hm|Hm].
  - rewrite filter_cons_False by tauto. destruct ev as [| |op| |]; try done.
    assert (Ho : anything_but_start op) by (by destruct op).
    destruct (fw_step_total (set_mute m (rw_fwd w)) op) as (f & E & _); [destruct (rw_fwd w); done|done|].
    pose proof (mute_op_only_mutes _ _ _ Hm E) as Ef. destruct (IH w Hs (GetMuteStatus f)) as [m' E']. exists m'.
    rewrite <- E'. cbn [rtp_run]. cbn [rtp_step]. replace (rw_fwd (with_mute m w)) with (set_mute m (rw_fwd w)) by (by destruct w).
    assert (Ew : (with_mute m w) <| rw_fwd := f |> = with_mute (GetMuteStatus f) w).
    { rewrite Ef. generalize (GetMuteStatus f). intros g. by destruct w as [[]]. }
    destruct op; try done; rewrite E; cbn; by rewrite Ew.
  - rewrite filter_cons_True by done. cbn [rtp_run]. rewrite step_mute by done.
    destruct (rtp_step unmarshal w ev) as [w1|] eqn:E; [|by exists m]. cbn. apply IH.
    eapply (session_run unmarshal [ev] w); [cbn; by rewrite E|done].
Qed.

(** ** Examples *)


Lemma silent_source_replaced_witness :
  (@validate_ssrc no_codecs 9 (Nat.iter 49 (offer 9) pcmu_world)).1 = true /\
  fw_RemoteSSRC (rw_fwd (@validate_ssrc no_codecs 9 (Nat.iter 49 (offer 9) pcmu_world)).2) = 9.
Proof.
  pose proof (@silent_source_replaced no_codecs 5 9 pcmu_world ltac:(discriminate) ltac:(discriminate)
    ltac:(vm_compute; reflexivity) ltac:(vm_compute; reflexivity) ltac:(vm_compute; discriminate)
    ltac:(vm_compute; split; [discriminate|reflexivity])) as Hv.
  generalize dependent (@validate_ssrc no_codecs 9 (Nat.iter 49 (offer 9) pcmu_world)).
  intros [b w'] [_ (H1 & H2 & _)]. exact (conj H1 H2).
Defined.

Lemma dtmf_silences_pcmu_witness :
  exists w1 w2,
    @decodeAndProcess ascii_only no_codecs false (mkRtpPacket 2 320 5 101 [1; 10; 0; 160]) 2 2 (Some sample_addr) pcmu_world
      = Some w1 /\
    @rtp_run ascii_only no_codecs sample_unmarshal w1 [EvDatagram [0; 5; 3; 480; 255; 127] 3 3 sample_addr] = Some w2 /\
    recorded w2 = recorded w1.
Proof.
  eexists _, _. split; [vm_compute; reflexivity|]. split; [vm_compute; reflexivity|].
  eapply (@dtmf_silences_pcmu ascii_only no_codecs sample_unmarshal (mkRtpPacket 2 320 5 101 [1; 10; 0; 160]) 2 2 sample_addr
    [EvDatagram [0; 5; 3; 480; 255; 127] 3 3 sample_addr] pcmu_world); try (vm_compute; reflexivity).
  - vm_compute. discriminate.
  - repeat constructor. by intros pkt [= <-].
Defined.

Lemma mute_changes_nothing_witness :
  exists m, @rtp_run ascii_only no_codecs sample_unmarshal pcmu_world
      [EvForwarder (OpMute 4 true false); EvDatagram [0; 5; 2; 320; 255; 127] 2 2 sample_addr] =
    with_mute m <$> @rtp_run ascii_only no_codecs sample_unmarshal pcmu_world
      (filter (fun ev => ~ mutes ev)
        [EvForwarder (OpMute 4 true false); EvDatagram [0; 5; 2; 320; 255; 127] 2 2 sample_addr]).
Proof. apply (@mute_changes_nothing ascii_only no_codecs). vm_compute. by eexists. Defined.

(** With a jitter buffer every packet is counted twice, once when it arrives and
    once when it leaves the buffer: two packets give a count of four. *)
Theorem jitter_counts_twice :
  exists w, @rtp_run ascii_only no_codecs sample_unmarshal
      (@start_world no_codecs pcmu_forwarder None (Some (NewJitterBuffer 5 0)) None false false)
      [EvDatagram [0; 5; 1; 160; 255] 1 1 sample_addr; EvDatagram [0; 5; 2; 320; 255] 1 1 sample_addr;
       EvTick (fun _ => 2)] = Some w /\
    st_received (fw_RTPStats (rw_fwd w)) = 4.
Proof. eexists. split; [vm_compute; reflexivity|]. reflexivity. Qed.
