(* ===== verification/Sdp.v ===== *)
(** * Session descriptions

    [src/pkg/media/sdp_utils.go], which configures a forwarder from an offer, and
    [src/pkg/sip/sdp.go], which parses offers tolerantly and builds the answers.

    The types of the SDP library [pion/sdp] are records of the fields the code
    reads or writes; its parser is a parameter.  Of the two packages' logging
    nothing is kept.  Base64 is written out.  A shift by a negative amount panics:
    configuring a forwarder has no result ([None]) then. *)

From S2P Require Import Prelude GoStrings GoText Metadata RtpStats LruCache PortManager Ports PauseIO Forwarder WavFile AudioDecode.
From Stdlib Require Import Ascii String.
#[local] Open Scope string_scope.
#[local] Open Scope list_scope.
#[local] Open Scope Z_scope.

(** ** The types of the library *)

Record Attribute := mkAttribute { at_Key : string; at_Value : string }.

Record MediaName := mkMediaName {
  mn_Media : string;
  mn_Port : Z;
  mn_Protos : list string;
  mn_Formats : list string
}.

(** The address of a connection line; [None] when it has none. *)
Record ConnectionInformation := mkConnection {
  ci_NetworkType : string;
  ci_AddressType : string;
  ci_Address : option string
}.

Record MediaDescription := mkMediaDescription {
  md_MediaName : MediaName;
  md_ConnectionInformation : option ConnectionInformation;
  md_Attributes : list Attribute
}.

Record Origin := mkOrigin {
  or_Username : string;
  or_SessionID : Z;
  or_SessionVersion : Z;
  or_NetworkType : string;
  or_AddressType : string;
  or_UnicastAddress : string
}.

Record SessionDescription := mkSessionDescription {
  sd_Origin : Origin;
  sd_SessionName : string;
  sd_ConnectionInformation : option ConnectionInformation;
  sd_TimeDescriptions : list (Z * Z);
  sd_MediaDescriptions : list MediaDescription;
  sd_Attributes : list Attribute
}.

(** ** Base64 *)

Definition base64_alphabet : list ascii :=
  list_ascii_of_string "ABCDEFGHIJKLMNOPQRSTUVWXYZabcdefghijklmnopqrstuvwxyz0123456789+/".

Definition base64_char (n : Z) : ascii := nth (Z.to_nat n) base64_alphabet "A"%char.

Definition base64_value (c : ascii) : option Z :=
  let n := byte_of c in
  if (65 <=? n) && (n <=? 90) then Some (n - 65)
  else if (97 <=? n) && (n <=? 122) then Some (n - 71)
  else if (48 <=? n) && (n <=? 57) then Some (n + 4)
  else if n =? 43 then Some 62
  else if n =? 47 then Some 63
  else None.

(** [EncodeToString] of a byte list. *)
Fixpoint base64_encode (l : list Z) : list ascii :=
  match l with
  | a :: b :: c :: l =>
    let v := a * 65536 + b * 256 + c in
    base64_char (v / 262144) :: base64_char (v / 4096 mod 64) :: base64_char (v / 64 mod 64) ::
      base64_char (v mod 64) :: base64_encode l
  | [a; b] =>
    let v := a * 65536 + b * 256 in
    [base64_char (v / 262144); base64_char (v / 4096 mod 64); base64_char (v / 64 mod 64); "="%char]
  | [a] =>
    let v := a * 65536 in [base64_char (v / 262144); base64_char (v / 4096 mod 64); "="%char; "="%char]
  | [] => []
  end.

Definition three_bytes (v : Z) : list Z := [v / 65536; v / 256 mod 256; v mod 256].

(** Groups of four, the last of which may be padded. *)
Fixpoint base64_groups (l : list ascii) : option (list Z) :=
  match l with
  | [] => Some []
  | a :: b :: c :: d :: l =>
    x ← base64_value a; y ← base64_value b;
    if Ascii.eqb c "="%char then
      if Ascii.eqb d "="%char && bool_decide (l = []) then Some (take 1 (three_bytes (x * 262144 + y * 4096))) else None
    else
      z ← base64_value c;
      if Ascii.eqb d "="%char then
        if bool_decide (l = []) then Some (take 2 (three_bytes (x * 262144 + y * 4096 + z * 64))) else None
      else
        t ← base64_value d; rest ← base64_groups l;
        Some (three_bytes (x * 262144 + y * 4096 + z * 64 + t) ++ rest)
  | _ => None
  end.

(** [DecodeString]: carriage returns and line feeds are skipped. *)
Definition base64_decode (s : string) : option (list Z) :=
  base64_groups (List.filter (fun c => negb ((byte_of c =? 10) || (byte_of c =? 13))) (list_ascii_of_string s)).

(** ** Configuring a forwarder from an offer *)

Definition inline_prefix : string := "inline:".

(** The first field that starts with the prefix, without it. *)
Fixpoint find_inline (l : list string) : string :=
  match l with
  | [] => ""
  | f :: l => if has_prefix f inline_prefix then trim_prefix f inline_prefix else find_inline l
  end.

(** [1 << exp] of Go's [int]; a negative count panics. *)
Definition shift_left_one (exp : Z) : option Z :=
  if exp <? 0 then None else Some (if 64 <=? exp then 0 else i64 (2 ^ exp)).

(** The lifetime parameters after the key. *)
Fixpoint apply_lifetimes (params : list string) (f : RTPForwarder) : option RTPForwarder :=
  match params with
  | [] => Some f
  | param :: params =>
    f ← (if has_prefix param "2^" then
           match atoi (trim_prefix param "2^") with
           | Some exp => n ← shift_left_one exp; Some (f <| fw_SRTPKeyLifetime := n |>)
           | None => Some f
           end
         else Some f);
    apply_lifetimes params f
  end.

Definition parseSRTPAttributes (value : string) (f : RTPForwarder) : option RTPForwarder :=
  match fields value with
  | _ :: profile :: rest =>
    let inline := find_inline rest in
    if String.eqb inline "" then Some f else
    match split_on "|"%char inline with
    | key :: params =>
      match base64_decode key with
      | None => Some f
      | Some rawKey =>
        if Z.of_nat (List.length rawKey) <? 30 then Some f else
        apply_lifetimes params
          (f <| fw_SRTPMasterKey := take 16 rawKey |> <| fw_SRTPMasterSalt := take 14 (drop 16 rawKey) |>
             <| fw_SRTPProfile := profile |>)
      end
    | [] => Some f
    end
  | _ => Some f
  end.

(** One attribute, of the session or of the media. *)
Definition apply_attribute (a : Attribute) (f : RTPForwarder) : option RTPForwarder :=
  if String.eqb (at_Key a) "rtcp-mux" then Some (f <| fw_UseRTCPMux := true |>)
  else if String.eqb (at_Key a) "rtcp" then
    match fields (at_Value a) with
    | p :: _ => match atoi p with
                | Some port => Some (f <| fw_ExpectedRemoteRTCPPort := port |>)
                | None => Some f
                end
    | [] => Some f
    end
  else if String.eqb (at_Key a) "crypto" then parseSRTPAttributes (at_Value a) f
  else Some f.

Fixpoint apply_attributes (attrs : list Attribute) (f : RTPForwarder) : option RTPForwarder :=
  match attrs with
  | [] => Some f
  | a :: attrs => f ← apply_attribute a f; apply_attributes attrs f
  end.

Definition applySessionAttributes (d : SessionDescription) (f : RTPForwarder) : option RTPForwarder :=
  apply_attributes (sd_Attributes d) f.

(** The value of the first [rtpmap] for the format, with two fields. *)
Fixpoint find_rtpmap (attrs : list Attribute) (format : string) : option string :=
  match attrs with
  | [] => None
  | a :: attrs =>
    if String.eqb (at_Key a) "rtpmap" then
      match fields (at_Value a) with
      | [pt; m] => if String.eqb pt format then Some m else find_rtpmap attrs format
      | _ => find_rtpmap attrs format
      end
    else find_rtpmap attrs format
  end.

Definition codecDetailsFromAttributes `{Unicode} (attrs : list Attribute) (format : string) : string * Z * Z :=
  match find_rtpmap attrs format with
  | None => ("", 0, 1)
  | Some m =>
    let parts := split_on "/"%char m in
    let codecName := match parts with p :: _ => to_upper p | [] => "" end in
    let sampleRate := match parts with _ :: r :: _ => default 0 (atoi r) | _ => 0 end in
    let channels := match parts with
                    | _ :: _ :: c :: _ => match atoi c with Some ch => if 0 <? ch then ch else 1 | None => 1 end
                    | _ => 1
                    end in
    (codecName, sampleRate, channels)
  end.

(** The first format that is a number decides. *)
Fixpoint apply_formats `{Unicode} (attrs : list Attribute) (formats : list string) (f : RTPForwarder) : RTPForwarder :=
  match formats with
  | [] => f
  | format :: formats =>
    match atoi (trim_space format) with
    | None => apply_formats attrs formats f
    | Some pt =>
      let '(codecName, sampleRate, channels) := codecDetailsFromAttributes attrs format in
      if String.eqb codecName "" then
        match GetCodecInfo (u8 pt) with
        | Some info =>
          SetCodecInfo (u8 pt) (co_Name info) (if sampleRate =? 0 then co_SampleRate info else sampleRate)
            (if channels =? 0 then co_Channels info else channels) f
        | None => SetCodecInfo (u8 pt) codecName sampleRate channels f
        end
      else SetCodecInfo (u8 pt) codecName sampleRate channels f
    end
  end.

Definition applyMediaAttributes `{Unicode} (md : MediaDescription) (f : RTPForwarder) : option RTPForwarder :=
  f ← apply_attributes (md_Attributes md) f;
  Some (apply_formats (md_Attributes md) (mn_Formats (md_MediaName md)) f).

Definition address_of (ci : option ConnectionInformation) : option string := ci ≫= ci_Address.

(** The port of the first [rtcp] attribute, if it has one. *)
Fixpoint rtcp_hint (attrs : list Attribute) (fallback : Z) : Z :=
  match attrs with
  | [] => fallback
  | a :: attrs =>
    if String.eqb (at_Key a) "rtcp" then
      match fields (at_Value a) with p :: _ => default fallback (atoi p) | [] => fallback end
    else rtcp_hint attrs fallback
  end.

Section config.
Context `{Unicode}.

(** [net.ParseIP]: the address in its canonical form. *)
Context (parseIP : string -> option string).

Definition setRemoteAddressHints (d : SessionDescription) (md : MediaDescription) (f : RTPForwarder) : RTPForwarder :=
  let connAddr := match address_of (md_ConnectionInformation md) with
                  | Some a => a
                  | None => default "" (address_of (sd_ConnectionInformation d))
                  end in
  if String.eqb connAddr "" then f else
  match parseIP connAddr with
  | None => f
  | Some ip =>
    let rtpPort := mn_Port (md_MediaName md) in
    f <| fw_RemoteRTPAddr := Some (mkUDPAddr ip rtpPort "") |>
      <| fw_RemoteRTCPAddr := Some (mkUDPAddr ip (rtcp_hint (md_Attributes md) (rtpPort + 1)) "") |>
  end.

Definition ConfigureForwarderForMediaDescription (d : SessionDescription) (md : MediaDescription) (f : RTPForwarder)
    : option RTPForwarder :=
  f ← applySessionAttributes d f;
  f ← applyMediaAttributes md f;
  Some (setRemoteAddressHints d md f).
End config.

(** ** Tolerant parsing *)

(** [strings.ReplaceAll] of CR LF by LF. *)
Fixpoint unify_newlines (l : list ascii) : list ascii :=
  match l with
  | c :: ((d :: l') as l1) =>
    if (byte_of c =? 13) && (byte_of d =? 10) then d :: unify_newlines l' else c :: unify_newlines l1
  | _ => l
  end.

(** [unicode.IsLetter] and [unicode.IsDigit] outside ASCII: whether the rest of a
    key from the first byte that is not ASCII on, at the start of the key or not,
    consists of letters, digits and the three signs. *)
Class UnicodeLetters := { letters_from : bool -> string -> bool }.

Definition ascii_letter (c : ascii) : bool :=
  let n := byte_of c in ((65 <=? n) && (n <=? 90)) || ((97 <=? n) && (n <=? 122)).

Definition ascii_digit (c : ascii) : bool := (48 <=? byte_of c) && (byte_of c <=? 57).

Fixpoint key_chars `{UnicodeLetters} (first : bool) (s : string) : bool :=
  match s with
  | EmptyString => true
  | String c s' =>
    if is_ascii c then
      (ascii_letter c || ascii_digit c || Ascii.eqb c "-"%char || Ascii.eqb c "_"%char || Ascii.eqb c "."%char) &&
      (negb first || ascii_letter c || Ascii.eqb c "_"%char) && key_chars false s'
    else letters_from first s
  end.

Definition isValidSDPAttributeKey `{UnicodeLetters} (key : string) : bool :=
  if String.eqb key "" then false else key_chars true key.

(** Whether a line is an attribute with a malformed key. *)
Definition bad_attribute `{UnicodeLetters} (line : string) : bool :=
  let trimmed := trim_space line in
  if has_prefix trimmed "a=" then
    let attribute := trim_space (drop_string 2 trimmed) in
    let key := match GoStrings.index attribute ":" with Some idx => take_string idx attribute | None => attribute end in
    negb (isValidSDPAttributeKey (trim_space key))
  else false.

Definition sanitizeSDPAttributes `{UnicodeLetters} (data : string) : string * Z :=
  let lines := split_on (ascii_of_N 10) (string_of_list_ascii (unify_newlines (list_ascii_of_string data))) in
  (join crlf (List.filter (fun l => negb (bad_attribute l)) lines),
   Z.of_nat (List.length (List.filter bad_attribute lines))).

(** With the library's parser; [None] is an error. *)
Definition ParseSDPTolerant `{UnicodeLetters} (unmarshal : string -> option SessionDescription) (sdpData : string)
    : option SessionDescription :=
  let '(sanitized, dropped) := sanitizeSDPAttributes sdpData in
  match unmarshal sdpData with
  | Some parsed =>
    if dropped =? 0 then Some parsed
    else match unmarshal sanitized with Some clean => Some clean | None => Some parsed end
  | None => if dropped =? 0 then None else unmarshal sanitized
  end.

(** ** Answers *)

Record SRTPKeyInfo := mkSRTPKeyInfo {
  ki_MasterKey : list Z;
  ki_MasterSalt : list Z;
  ki_Profile : string;
  ki_KeyLifetime : Z
}.

Record SDPOptions := mkSDPOptions {
  so_IPAddress : string;
  so_BehindNAT : bool;
  so_InternalIP : string;
  so_ExternalIP : string;
  so_IncludeICE : bool;
  so_RTPPort : Z;
  so_RTCPPort : Z;
  so_UseRTCPMux : bool;
  so_EnableSRTP : bool;
  so_SRTPKeyInfo : option SRTPKeyInfo;
  so_MediaPortPairs : list PortPair
}.

Definition connection_addr (o : SDPOptions) : string :=
  if so_BehindNAT o then so_ExternalIP o else so_IPAddress o.

Definition connection_line (addr : string) : option ConnectionInformation := Some (mkConnection "IN" "IP4" (Some addr)).

(** The formats in the order G.711, G.722, the others. *)
Definition prioritizeCodecs (formats : list string) : list string :=
  let present f := bool_decide (f ∈ formats) in
  List.filter present ["0"; "8"; "9"] ++ List.filter (fun f => negb (bool_decide (f ∈ ["0"; "8"; "9"]))) formats.

(** The RTP and RTCP port of the media at an index. *)
Definition media_ports (o : SDPOptions) (idx : nat) : Z * Z :=
  let pair := default (mkPortPair 0 0) (so_MediaPortPairs o !! idx) in
  let rtpPort := if 0 <? RTPPort pair then RTPPort pair else so_RTPPort o in
  let rtcpPort := if 0 <? RTCPPort pair then RTCPPort pair else so_RTCPPort o in
  (rtpPort, if (rtcpPort <=? 0) && (0 <? rtpPort) then rtpPort + 1 else rtcpPort).

(** The direction that answers a direction attribute. *)
Definition answer_direction (key : string) : option string :=
  if String.eqb key "sendonly" || String.eqb key "sendrecv" then Some "recvonly"
  else if String.eqb key "inactive" then Some "inactive"
  else if String.eqb key "recvonly" then Some "sendonly"
  else None.

Definition attr (key : string) : Attribute := mkAttribute key "".

(** The attributes taken over and the direction, the last one deciding. *)
Fixpoint copy_attributes (o : SDPOptions) (attrs : list Attribute) (kept : list Attribute) (direction : string)
    : list Attribute * string :=
  match attrs with
  | [] => (kept, direction)
  | a :: attrs =>
    match answer_direction (at_Key a) with
    | Some d => copy_attributes o attrs kept d
    | None =>
      if String.eqb (at_Key a) "rtcp" then copy_attributes o attrs kept direction
      else if so_BehindNAT o && (String.eqb (at_Key a) "candidate" && contains (at_Value a) (so_InternalIP o))
      then copy_attributes o attrs kept direction
      else copy_attributes o attrs (kept ++ [a]) direction
    end
  end.

Definition rtcp_attributes (o : SDPOptions) (rtpPort rtcpPort : Z) : list Attribute :=
  if so_UseRTCPMux o then [attr "rtcp-mux"]
  else if (0 <? rtcpPort) && negb (rtcpPort =? rtpPort)
  then [mkAttribute "rtcp" (itoa rtcpPort +:+ " IN IP4 " +:+ connection_addr o)]
  else [].

Definition host_candidate (component priority ip : string) (port : Z) : Attribute :=
  mkAttribute "candidate" ("1 " +:+ component +:+ " UDP " +:+ priority +:+ " " +:+ ip +:+ " " +:+ itoa port +:+ " typ host").

Definition srflx_candidate (component priority ext int : string) (port : Z) : Attribute :=
  mkAttribute "candidate" ("2 " +:+ component +:+ " UDP " +:+ priority +:+ " " +:+ ext +:+ " " +:+ itoa port +:+
    " typ srflx raddr " +:+ int +:+ " rport " +:+ itoa port).

Definition candidates (o : SDPOptions) (component hostPriority srflxPriority : string) (port : Z) : list Attribute :=
  (if String.eqb (so_InternalIP o) "" then [] else [host_candidate component hostPriority (so_InternalIP o) port]) ++
  (if negb (String.eqb (so_ExternalIP o) "") && negb (String.eqb (so_ExternalIP o) (so_InternalIP o))
   then [srflx_candidate component srflxPriority (so_ExternalIP o) (so_InternalIP o) port] else []).

Definition ice_attributes (o : SDPOptions) (rtpPort rtcpPort : Z) : list Attribute :=
  if so_BehindNAT o && so_IncludeICE o then
    [mkAttribute "ice-ufrag" "randomufrag"; mkAttribute "ice-pwd" "randomicepwd"] ++
    candidates o "1" "2130706431" "1694498815" rtpPort ++
    (if negb (so_UseRTCPMux o) && (0 <? rtcpPort) then candidates o "2" "2130706430" "1694498814" rtcpPort else [])
  else [].

Definition crypto_line (ki : SRTPKeyInfo) : string :=
  "1 " +:+ ki_Profile ki +:+ " inline:" +:+ string_of_list_ascii (base64_encode (ki_MasterKey ki ++ ki_MasterSalt ki)) +:+
  (if 0 <? ki_KeyLifetime ki then "|2^" +:+ itoa (ki_KeyLifetime ki) else "").

Definition srtp_key (o : SDPOptions) : option SRTPKeyInfo := if so_EnableSRTP o then so_SRTPKeyInfo o else None.

(** The first RTP/AVP, or else the first protocol, becomes RTP/SAVP. *)
Fixpoint replace_avp (protos : list string) : option (list string) :=
  match protos with
  | [] => None
  | p :: protos => if String.eqb p "RTP/AVP" then Some ("RTP/SAVP" :: protos) else (p ::.) <$> replace_avp protos
  end.

Definition secure_protos (protos : list string) : list string :=
  match replace_avp protos with
  | Some l => l
  | None => match protos with [] => [] | _ :: l => "RTP/SAVP" :: l end
  end.

(** The answer to one media description. *)
Definition answer_media (o : SDPOptions) (idx : nat) (m : MediaDescription) : MediaDescription :=
  let '(rtpPort, rtcpPort) := media_ports o idx in
  let '(kept, direction) := copy_attributes o (md_Attributes m) [] "recvonly" in
  mkMediaDescription
    (mkMediaName (mn_Media (md_MediaName m)) rtpPort
       (match srtp_key o with Some _ => secure_protos (mn_Protos (md_MediaName m)) | None => mn_Protos (md_MediaName m) end)
       (prioritizeCodecs (mn_Formats (md_MediaName m))))
    (connection_line (connection_addr o))
    (kept ++ [attr direction] ++ rtcp_attributes o rtpPort rtcpPort ++ ice_attributes o rtpPort rtcpPort ++
     match srtp_key o with Some ki => [mkAttribute "crypto" (crypto_line ki)] | None => [] end).

Definition placeholder_crypto : string := "1 AES_CM_128_HMAC_SHA1_80 inline:c2VjcmV0a2V5c2VjcmV0a2V5c2VjcmU=".

(** The answer without an offer; [now] is the Unix time in microseconds.  An empty
    key stands for a missing one. *)
Definition generateDefaultSDP (now : Z) (o : SDPOptions) : SessionDescription :=
  let addr := connection_addr o in
  mkSessionDescription (mkOrigin "siprec" (u64 (now / 1000000)) 1 "IN" "IP4" addr) "SIPREC Media Session" (connection_line addr) [(0, 0)]
    [mkMediaDescription
       (mkMediaName "audio" (if so_RTPPort o <=? 0 then 0 else so_RTPPort o)
          [match srtp_key o with Some _ => "RTP/SAVP" | None => "RTP/AVP" end] ["0"; "8"; "9"])
       (connection_line addr)
       ([mkAttribute "rtpmap" "0 PCMU/8000"; mkAttribute "rtpmap" "8 PCMA/8000"; mkAttribute "rtpmap" "9 G722/8000";
         mkAttribute "ptime" "20"; attr "recvonly"] ++
        match srtp_key o with
        | Some ki => [mkAttribute "crypto" (match ki_MasterKey ki, ki_MasterSalt ki with
                                            | [], _ | _, [] => placeholder_crypto
                                            | _, _ => crypto_line ki
                                            end)]
        | None => []
        end)]
    [attr "recording-session"].

Definition generateSDPAdvanced (now : Z) (received : option SessionDescription) (o : SDPOptions) : SessionDescription :=
  match received with
  | None => generateDefaultSDP now o
  | Some d =>
    let addr := connection_addr o in
    mkSessionDescription (mkOrigin "siprec-srs" (u64 now) 1 "IN" "IP4" addr) "SRS Recording Session" (connection_line addr)
      (sd_TimeDescriptions d) (imap (answer_media o) (sd_MediaDescriptions d)) [attr "recording-session"]
  end.

Record MediaConfig := mkMediaConfig {
  mc_BehindNAT : bool;
  mc_InternalIP : string;
  mc_ExternalIP : string;
  mc_EnableSRTP : bool
}.

Definition key_info (f : RTPForwarder) : SRTPKeyInfo :=
  mkSRTPKeyInfo (fw_SRTPMasterKey f) (fw_SRTPMasterSalt f) (fw_SRTPProfile f) (fw_SRTPKeyLifetime f).

(** A key and a salt that are set. *)
Definition has_key (f : RTPForwarder) : bool :=
  negb (bool_decide (fw_SRTPMasterKey f = [])) && negb (bool_decide (fw_SRTPMasterSalt f = [])).

Definition generateSDPResponseWithPort (mc : MediaConfig) (now : Z) (received : option SessionDescription)
    (ipToUse : string) (rtpPort : Z) (fwd : option RTPForwarder) : SessionDescription :=
  let rtcpPort := match fwd with Some f => if 0 <? fw_RTCPPort f then fw_RTCPPort f else 0 | None => 0 end in
  let useRTCPMux := match fwd with Some f => (0 <? fw_RTCPPort f) && mc_BehindNAT mc | None => false end in
  let enableSRTP := match fwd with Some f => mc_EnableSRTP mc && fw_SRTPEnabled f | None => false end in
  generateSDPAdvanced now received
    (mkSDPOptions ipToUse (mc_BehindNAT mc) (mc_InternalIP mc) (mc_ExternalIP mc) false rtpPort rtcpPort useRTCPMux enableSRTP
       (match fwd with Some f => if enableSRTP && has_key f then Some (key_info f) else None | None => None end)
       [mkPortPair rtpPort rtcpPort]).

Definition is_audio (m : MediaDescription) : bool := String.eqb (mn_Media (md_MediaName m)) "audio".

(** The ports of the forwarders for the audio descriptions, in order, as long as
    there are forwarders. *)
Fixpoint assign_pairs (mds : list MediaDescription) (fwds : list RTPForwarder) : list PortPair :=
  match mds with
  | [] => []
  | m :: mds =>
    if is_audio m then
      match fwds with
      | f :: fwds => mkPortPair (fw_LocalPort f) (fw_RTCPPort f) :: assign_pairs mds fwds
      | [] => mkPortPair 0 0 :: assign_pairs mds []
      end
    else mkPortPair 0 0 :: assign_pairs mds fwds
  end.

Definition generateSDPResponseForForwarders (mc : MediaConfig) (now : Z) (received : option SessionDescription)
    (ipToUse : string) (fwds : list RTPForwarder) : SessionDescription :=
  let base := mkSDPOptions ipToUse (mc_BehindNAT mc) (mc_InternalIP mc) (mc_ExternalIP mc) true 0 0 false false None [] in
  match received with
  | None => generateDefaultSDP now base
  | Some d =>
    generateSDPAdvanced now received
      (match fwds with
       | [] => base
       | f :: _ =>
         let secure := mc_EnableSRTP mc && fw_SRTPEnabled f && has_key f in
         base <| so_RTPPort := fw_LocalPort f |> <| so_RTCPPort := fw_RTCPPort f |>
              <| so_EnableSRTP := secure |> <| so_SRTPKeyInfo := if secure then Some (key_info f) else None |>
              <| so_MediaPortPairs := assign_pairs (sd_MediaDescriptions d) fwds |>
       end)
  end.

(** ** Base64 and numbers round trip *)

Lemma base64_value_char n : 0 <= n < 64 -> base64_value (base64_char n) = Some n /\ Ascii.eqb (base64_char n) "="%char = false.
Proof.
  intros Hn. assert (Hall : forallb (fun n => match base64_value (base64_char n) with Some m => m =? n | None => false end &&
    negb (Ascii.eqb (base64_char n) "="%char)) (map Z.of_nat (seq 0 64)) = true) by (vm_compute; reflexivity).
  rewrite forallb_forall in Hall. specialize (Hall n). rewrite andb_true_iff, negb_true_iff in Hall.
  destruct Hall as [H1 H2].
  { apply in_map_iff. exists (Z.to_nat n). split; [lia|]. apply in_seq. lia. }
  destruct (base64_value _); [|done]. apply Z.eqb_eq in H1. by subst.
Qed.

(** No character of the alphabet is a separator. *)
Lemma base64_char_plain n : 0 <= n < 64 ->
  forallb (fun c => negb (byte_of (base64_char n) =? c)) [9; 10; 11; 12; 13; 32; 124; 61] = true /\ is_ascii (base64_char n) = true.
Proof.
  intros Hn. assert (Hall : forallb (fun n => forallb (fun c => negb (byte_of (base64_char n) =? c)) [9; 10; 11; 12; 13; 32; 124; 61] &&
    is_ascii (base64_char n)) (map Z.of_nat (seq 0 64)) = true) by (vm_compute; reflexivity).
  rewrite forallb_forall in Hall. specialize (Hall n). rewrite andb_true_iff in Hall. apply Hall.
  apply in_map_iff. exists (Z.to_nat n). split; [lia|]. apply in_seq. lia.
Qed.

#[local] Ltac Zify.zify_post_hook ::= Z.to_euclidean_division_equations.

Lemma base64_groups_encode l : Forall (in_u 8) l -> base64_groups (base64_encode l) = Some l.
Proof.
  induction l as [l IH] using (induction_ltof1 _ (@List.length Z)). unfold ltof in IH. intros Hl.
  unfold in_u in Hl. change (2 ^ 8) with 256 in Hl.
  destruct l as [|a [|b [|c l]]]; [done|..].
  - apply Forall_cons in Hl as [Ha _]. cbn -[base64_char base64_value Z.mul Z.div Z.modulo].
    destruct (base64_value_char (a * 65536 / 262144)) as [-> _]; [lia|].
    destruct (base64_value_char (a * 65536 / 4096 mod 64)) as [-> _]; [lia|]. cbn -[Z.mul Z.div Z.modulo].
    f_equal. f_equal. lia.
  - apply Forall_cons in Hl as [Ha Hl]. apply Forall_cons in Hl as [Hb _].
    cbn -[base64_char base64_value Z.mul Z.div Z.modulo].
    destruct (base64_value_char ((a * 65536 + b * 256) / 262144)) as [-> _]; [lia|].
    destruct (base64_value_char ((a * 65536 + b * 256) / 4096 mod 64)) as [-> _]; [lia|].
    destruct (base64_value_char ((a * 65536 + b * 256) / 64 mod 64)) as [-> ->]; [lia|]. cbn -[Z.mul Z.div Z.modulo].
    f_equal. f_equal; [lia|]. f_equal. lia.
  - apply Forall_cons in Hl as [Ha Hl]. apply Forall_cons in Hl as [Hb Hl]. apply Forall_cons in Hl as [Hc Hl].
    cbn -[base64_char base64_value Z.mul Z.div Z.modulo three_bytes].
    destruct (base64_value_char ((a * 65536 + b * 256 + c) / 262144)) as [-> _]; [lia|].
    destruct (base64_value_char ((a * 65536 + b * 256 + c) / 4096 mod 64)) as [-> _]; [lia|].
    destruct (base64_value_char ((a * 65536 + b * 256 + c) / 64 mod 64)) as [-> ->]; [lia|].
    destruct (base64_value_char ((a * 65536 + b * 256 + c) mod 64)) as [-> ->]; [lia|].
    rewrite IH; [|cbn; lia|done]. cbn -[Z.mul Z.div Z.modulo]. f_equal. f_equal; [lia|]. f_equal; [lia|]. f_equal. lia.
Qed.

#[local] Ltac Zify.zify_post_hook ::= idtac.

(** ** Crypto lines *)

Lemma digits_plain acc s z : digits_from acc s = Some z ->
  forallb plain_char (list_ascii_of_string s) = true /\ lacks "|"%char s = true.
Proof.
  revert acc. induction s as [|c s IH]; intros acc; [done|]. cbn [digits_from].
  destruct (digit c) as [d|] eqn:E; cbn [mbind option_bind]; [|done]. intros [H1 H2]%IH.
  cbn [list_ascii_of_string forallb lacks]. rewrite H1, H2, !andb_true_r.
  unfold digit in E. destruct ((48 <=? byte_of c) && (byte_of c <=? 57)) eqn:Hd; [|done].
  apply andb_true_iff in Hd as [Ha Hb]. apply Z.leb_le in Ha, Hb. split.
  - unfold plain_char, is_ascii, space1.
    destruct (Z.ltb_spec (byte_of c) 128), (Z.leb_spec 9 (byte_of c)), (Z.leb_spec (byte_of c) 13), (Z.eqb_spec (byte_of c) 32); try lia; done.
  - destruct (Ascii.eqb_spec c "|"%char) as [->|]; [|done]. by vm_compute in Hb.
Qed.

Lemma itoa_plain z : 0 <= z ->
  forallb plain_char (list_ascii_of_string (itoa z)) = true /\ lacks "|"%char (itoa z) = true.
Proof.
  intros Hz. assert (Hu : unsigned (itoa z) = Some z).
  { unfold itoa. destruct z as [|p|p]; [done| |lia]. apply (unsigned_pretty (N.pos p)). }
  unfold unsigned in Hu. destruct (String.eqb _ _); [done|]. by eapply digits_plain.
Qed.

Lemma base64_encode_plain l : Forall (in_u 8) l ->
  Forall (fun c => plain_char c = true /\ Ascii.eqb c "|"%char = false /\ negb ((byte_of c =? 10) || (byte_of c =? 13)) = true)
    (base64_encode l).
Proof.
  assert (Hc : forall n, 0 <= n < 64 -> plain_char (base64_char n) = true /\ Ascii.eqb (base64_char n) "|"%char = false /\
    negb ((byte_of (base64_char n) =? 10) || (byte_of (base64_char n) =? 13)) = true).
  { intros n Hn. destruct (base64_char_plain n Hn) as [Hp Ha]. cbn [forallb] in Hp. rewrite !andb_true_iff, !negb_true_iff in Hp.
    destruct Hp as (P9 & P10 & P11 & P12 & P13 & P32 & P124 & _). rewrite P10, P13. split_and!; [|..|done].
    - unfold plain_char, space1. rewrite Ha, P32, orb_false_r. cbn [andb negb]. apply negb_true_iff.
      apply Z.eqb_neq in P9, P10, P11, P12, P13.
      destruct (Z.leb_spec 9 (byte_of (base64_char n))), (Z.leb_spec (byte_of (base64_char n)) 13); try lia; done.
    - destruct (Ascii.eqb_spec (base64_char n) "|"%char) as [E|]; [|done]. rewrite E in P124. done. }
  assert (He : plain_char "="%char = true /\ Ascii.eqb "="%char "|"%char = false /\
    negb ((byte_of "="%char =? 10) || (byte_of "="%char =? 13)) = true) by done.
  induction l as [l IH] using (induction_ltof1 _ (@List.length Z)). unfold ltof in IH. intros Hl.
  unfold in_u in Hl. change (2 ^ 8) with 256 in Hl.
  destruct l as [|a [|b [|c l]]]; [constructor|..]; rewrite ?Forall_cons in Hl; cbn [base64_encode];
    repeat (apply Forall_cons; split; [first [exact He | apply Hc; Z.to_euclidean_division_equations; lia]|]); try constructor.
  apply IH; [cbn; lia|]. apply Hl.
Qed.

Definition base64 (l : list Z) : string := string_of_list_ascii (base64_encode l).

Lemma base64_word l : Forall (in_u 8) l ->
  forallb plain_char (list_ascii_of_string (base64 l)) = true /\ lacks "|"%char (base64 l) = true /\
  base64_decode (base64 l) = Some l.
Proof.
  intros Hl. unfold base64, base64_decode. rewrite list_ascii_of_string_of_list_ascii.
  pose proof (base64_encode_plain l Hl) as Hp. split_and!.
  - apply forallb_forall. intros c Hc. rewrite Forall_forall in Hp. apply Hp. by apply list_elem_of_In.
  - clear Hl. induction Hp as [|c k (_ & Hc & _) _ IH]; [done|]. cbn [string_of_list_ascii lacks]. by rewrite Hc, IH.
  - etrans; [|exact (base64_groups_encode l Hl)]. f_equal.
    clear Hl. induction Hp as [|c k (_ & _ & Hc) _ IH]; [done|]. cbn [List.filter]. by rewrite Hc, IH.
Qed.

Lemma base64_nonempty l : l <> [] -> base64 l <> "".
Proof. by destruct l as [|a [|b [|c l]]]. Qed.

(** The parsing of a line with a key of 30 bytes or more and at most one
    parameter. *)
Lemma parse_crypto tag profile key suffix params f :
  plain_word tag -> plain_word profile -> Forall (in_u 8) key -> (30 <= List.length key)%nat ->
  forallb plain_char (list_ascii_of_string suffix) = true ->
  split_on "|"%char (base64 key +:+ suffix) = base64 key :: params ->
  parseSRTPAttributes (tag +:+ " " +:+ profile +:+ " " +:+ inline_prefix +:+ base64 key +:+ suffix) f =
    apply_lifetimes params (f <| fw_SRTPMasterKey := take 16 key |> <| fw_SRTPMasterSalt := take 14 (drop 16 key) |>
                              <| fw_SRTPProfile := profile |>).
Proof.
  intros Ht Hp Hk Hlen Hs Hsp. destruct (base64_word key Hk) as (B1 & _ & B3).
  unfold parseSRTPAttributes. rewrite fields_cons by done. rewrite fields_cons by done. rewrite fields_word.
  2:{ split; [done|]. rewrite !list_ascii_app, !forallb_app, B1, Hs. done. }
  cbn [find_inline]. unfold has_prefix. rewrite prefix_app, trim_prefix_app.
  destruct (String.eqb_spec (base64 key +:+ suffix) "") as [E|_].
  { exfalso. pose proof (base64_nonempty key ltac:(by destruct key; cbn in Hlen; [lia|])) as Hn. by destruct (base64 key). }
  rewrite Hsp, B3. destruct (Z.ltb_spec (Z.of_nat (List.length key)) 30); [lia|done].
Qed.

(** The crypto line the server writes into an answer is read back with the same
    key, salt and profile, for every 16-byte key and 14-byte salt.  The lifetime
    is not: it is written as if it were an exponent, so the reader gets two to
    the power of it, and 0 for every lifetime of 64 or more, as the default 2^31. *)
Theorem crypto_line_round_trip (ki : SRTPKeyInfo) (f : RTPForwarder) :
  Forall (in_u 8) (ki_MasterKey ki ++ ki_MasterSalt ki) ->
  List.length (ki_MasterKey ki) = 16%nat -> List.length (ki_MasterSalt ki) = 14%nat ->
  plain_word (ki_Profile ki) -> 0 < ki_KeyLifetime ki < 2 ^ 63 ->
  exists f', parseSRTPAttributes (crypto_line ki) f = Some f' /\
    fw_SRTPMasterKey f' = ki_MasterKey ki /\ fw_SRTPMasterSalt f' = ki_MasterSalt ki /\ fw_SRTPProfile f' = ki_Profile ki /\
    fw_SRTPKeyLifetime f' = (if 64 <=? ki_KeyLifetime ki then 0 else i64 (2 ^ ki_KeyLifetime ki)) /\
    fw_SRTPKeyLifetime f' <> ki_KeyLifetime ki.
Proof.
  destruct ki as [key salt profile life]. cbn [ki_MasterKey ki_MasterSalt ki_Profile ki_KeyLifetime]. intros Hk Hl1 Hl2 Hp Hn.
  unfold crypto_line. cbn [ki_MasterKey ki_MasterSalt ki_Profile ki_KeyLifetime]. replace (0 <? life) with true by lia.
  destruct (itoa_plain life) as [I1 I2]; [lia|]. destruct (base64_word _ Hk) as (B1 & B2 & _).
  change ("1 " +:+ profile +:+ " inline:" +:+ string_of_list_ascii (base64_encode (key ++ salt)) +:+ "|2^" +:+ itoa life)
    with ("1" +:+ " " +:+ profile +:+ " " +:+ inline_prefix +:+ base64 (key ++ salt) +:+ ("|2^" +:+ itoa life)).
  rewrite (parse_crypto "1" profile (key ++ salt) ("|2^" +:+ itoa life) ["2^" +:+ itoa life]); try done.
  - rewrite take_app_length', drop_app_length' by done. rewrite (take_ge salt) by lia.
    cbn [apply_lifetimes]. unfold has_prefix. rewrite prefix_app, trim_prefix_app, atoi_itoa by (unfold in_s; lia).
    unfold shift_left_one. replace (life <? 0) with false by lia. cbn [mbind option_bind].
    eexists. split; [done|]. destruct f. cbn. split_and!; try done.
    destruct (Z.leb_spec 64 life); [lia|].
    destruct (decide (life = 63)) as [->|]; [done|]. unfold i64. rewrite wrap_s_id; [|lia|].
    + pose proof (Z.pow_gt_lin_r 2 life). lia.
    + unfold in_s. split; [pose proof (Z.pow_nonneg 2 life); lia|]. apply Z.pow_lt_mono_r; lia.
  - rewrite length_app. lia.
  - change ("|2^" +:+ itoa life) with (String "|"%char ("2^" +:+ itoa life)). rewrite split_on_app by done.
    rewrite split_on_lacks; [done|]. cbn. done.
Qed.

(** A crypto attribute with a negative lifetime exponent, which anybody who can
    send an INVITE can put into the offer, makes the server panic while it
    configures the forwarder. *)
Theorem negative_lifetime_panics `{Unicode} (parseIP : string -> option string) (d : SessionDescription)
    (md : MediaDescription) (key : list Z) (f : RTPForwarder) :
  Forall (in_u 8) key -> (30 <= List.length key)%nat ->
  sd_Attributes d = [] ->
  md_Attributes md = [mkAttribute "crypto" ("1 AES_CM_128_HMAC_SHA1_80 inline:" +:+ base64 key +:+ "|2^-1")] ->
  ConfigureForwarderForMediaDescription parseIP d md f = None.
Proof.
  intros Hk Hl Hd Hm. unfold ConfigureForwarderForMediaDescription, applySessionAttributes, applyMediaAttributes.
  rewrite Hd, Hm. cbn [apply_attributes mbind option_bind]. unfold apply_attribute. cbn [at_Key at_Value].
  change (String.eqb "crypto" "rtcp-mux") with false. change (String.eqb "crypto" "rtcp") with false.
  change (String.eqb "crypto" "crypto") with true. cbn iota.
  change ("1 AES_CM_128_HMAC_SHA1_80 inline:" +:+ base64 key +:+ "|2^-1")
    with ("1" +:+ " " +:+ "AES_CM_128_HMAC_SHA1_80" +:+ " " +:+ inline_prefix +:+ base64 key +:+ "|2^-1").
  rewrite (parse_crypto "1" "AES_CM_128_HMAC_SHA1_80" key "|2^-1" ["2^-1"]); try done.
  change "|2^-1" with (String "|"%char "2^-1"). destruct (base64_word key Hk) as (_ & B2 & _).
  by rewrite split_on_app by done.
Qed.

(** ** Answers *)

Lemma filter_app_list {A} (p : A -> bool) l k : List.filter p (l ++ k) = List.filter p l ++ List.filter p k.
Proof. apply List.filter_app. Qed.

Lemma prioritize_perm formats : NoDup formats -> prioritizeCodecs formats ≡ₚ formats.
Proof.
  intros Hn. unfold prioritizeCodecs. apply NoDup_Permutation; [|done|].
  - apply NoDup_app. split_and!.
    + apply NoDup_ListNoDup, List.NoDup_filter, NoDup_ListNoDup. by apply (bool_decide_unpack (NoDup ["0"; "8"; "9"])).
    + intros x Hx Hy. rewrite list_elem_of_In, filter_In in Hx, Hy. rewrite negb_true_iff, bool_decide_eq_false in Hy.
      apply Hy. apply list_elem_of_In, Hx.
    + by apply NoDup_ListNoDup, List.NoDup_filter, NoDup_ListNoDup.
  - intros x. rewrite elem_of_app, !list_elem_of_In, !filter_In, negb_true_iff, bool_decide_eq_true, bool_decide_eq_false.
    rewrite <- !list_elem_of_In. destruct (decide (x ∈ ["0"; "8"; "9"])); tauto.
Qed.

(** The audio descriptions before an index. *)
Definition audio_rank (mds : list MediaDescription) (i : nat) : nat := List.length (List.filter is_audio (take i mds)).

Lemma assign_pairs_lookup mds fwds i m : mds !! i = Some m ->
  assign_pairs mds fwds !! i =
    Some (if is_audio m then match fwds !! audio_rank mds i with
                             | Some f => mkPortPair (fw_LocalPort f) (fw_RTCPPort f)
                             | None => mkPortPair 0 0
                             end
          else mkPortPair 0 0).
Proof.
  revert fwds i. induction mds as [|m0 mds IH]; intros fwds i; [done|]. destruct i as [|i].
  - intros [= ->]. unfold audio_rank. cbn. destruct (is_audio m); [|done]. by destruct fwds.
  - cbn [lookup list_lookup assign_pairs]. intros Hi. unfold audio_rank. cbn [take List.filter].
    destruct (is_audio m0); [destruct fwds as [|f fwds]|].
    + change (assign_pairs mds [] !! i = Some (if is_audio m then mkPortPair 0 0 else mkPortPair 0 0)).
      rewrite (IH [] i Hi). by destruct (is_audio m).
    + by apply (IH fwds i).
    + by apply (IH fwds i).
Qed.

Definition is_direction (a : Attribute) : bool := match answer_direction (at_Key a) with Some _ => true | None => false end.

(** The direction attributes of a media description. *)
Definition directions (m : MediaDescription) : list string := map at_Key (List.filter is_direction (md_Attributes m)).

(** The answer to the last one; receiving when there is none. *)
Definition dual_direction (m : MediaDescription) : string :=
  default "recvonly" (last (directions m) ≫= answer_direction).

Lemma copy_attributes_spec o attrs kept d :
  exists kept', copy_attributes o attrs kept d =
    (kept ++ kept', default d (last (map at_Key (List.filter is_direction attrs)) ≫= answer_direction)) /\
    List.filter is_direction kept' = [] /\ (forall a, a ∈ kept' -> a ∈ attrs).
Proof.
  revert kept d. induction attrs as [|a attrs IH]; intros kept d; [exists []; by rewrite app_nil_r|].
  cbn [copy_attributes]. unfold is_direction at 1. cbn [List.filter]. fold is_direction.
  destruct (answer_direction (at_Key a)) as [e|] eqn:E.
  - destruct (IH kept e) as (k & -> & Hk & Hin). exists k. split; [|split; [done|intros x Hx; right; by apply Hin]].
    f_equal. cbn [map]. rewrite last_cons. destruct (last (map at_Key (List.filter is_direction attrs))) as [x|] eqn:El; [|by cbn; rewrite E].
    cbn. assert (Hx : exists y, answer_direction x = Some y); [|by destruct Hx as [? ->]].
    apply last_Some in El as [l' El]. assert (Hin' : x ∈ map at_Key (List.filter is_direction attrs)).
    { rewrite El. apply elem_of_app. right. by apply list_elem_of_singleton. }
    apply list_elem_of_fmap in Hin' as (b & -> & Hb). apply list_elem_of_In, filter_In in Hb as [_ Hb].
    unfold is_direction in Hb. destruct (answer_direction (at_Key b)); [by eexists|done].
  - destruct (String.eqb _ _); [|destruct (_ && _)].
    + destruct (IH kept d) as (k & -> & Hk & Hin). exists k. split; [done|split; [done|intros x Hx; right; by apply Hin]].
    + destruct (IH kept d) as (k & -> & Hk & Hin). exists k. split; [done|split; [done|intros x Hx; right; by apply Hin]].
    + destruct (IH (kept ++ [a]) d) as (k & -> & Hk & Hin). exists (a :: k). rewrite <- app_assoc. split; [done|]. split.
      * cbn [List.filter]. unfold is_direction at 1. by rewrite E.
      * intros x Hx. apply elem_of_cons in Hx as [->|Hx]; [by left|right; by apply Hin].
Qed.

(** The attributes the server adds carry no direction. *)
Lemma added_no_direction o p q ki :
  List.filter is_direction (rtcp_attributes o p q ++ ice_attributes o p q ++
    match ki with Some ki => [mkAttribute "crypto" (crypto_line ki)] | None => [] end) = [].
Proof.
  assert (Hc : forall k h s r, List.filter is_direction (candidates o k h s r) = []).
  { intros. unfold candidates. rewrite filter_app_list. by destruct (String.eqb _ _), (_ && _). }
  rewrite !filter_app_list. unfold rtcp_attributes, ice_attributes.
  assert (Hi : List.filter is_direction (if so_BehindNAT o && so_IncludeICE o then
    [mkAttribute "ice-ufrag" "randomufrag"; mkAttribute "ice-pwd" "randomicepwd"] ++
    candidates o "1" "2130706431" "1694498815" p ++
    (if negb (so_UseRTCPMux o) && (0 <? q) then candidates o "2" "2130706430" "1694498814" q else []) else []) = []).
  { destruct (_ && _); [|done]. rewrite !filter_app_list, Hc. destruct (_ && _); [by rewrite Hc|done]. }
  rewrite Hi. clear Hi. destruct (so_UseRTCPMux o), ki; try destruct (_ && _); done.
Qed.

Lemma answer_directions o i m : directions (answer_media o i m) = [dual_direction m].
Proof.
  unfold answer_media. destruct (media_ports o i) as [p q].
  destruct (copy_attributes_spec o (md_Attributes m) [] "recvonly") as (k & -> & Hk & _).
  unfold directions. cbn [md_Attributes]. rewrite !filter_app_list, Hk.
  pose proof (added_no_direction o p q (srtp_key o)) as Ha. rewrite !filter_app_list in Ha. rewrite Ha.
  cbn [app]. unfold dual_direction, directions.
  set (d := default "recvonly" _). assert (Hd : d = "recvonly" \/ d = "inactive" \/ d = "sendonly").
  { subst d. destruct (last _) as [x|]; [|by left]. cbn. unfold answer_direction. case_tests; cbn; auto. }
  by destruct Hd as [-> |[-> | ->]].
Qed.

(** C17: The answer to an offer, media by media: as many descriptions as offered, in
    the same order and of the same kind, each with the offered formats, with
    exactly one direction, the one that answers the last offered direction, and
    at the server's address.  Every audio description with a forwarder gets the
    port of its own forwarder.  Every other one, a second audio stream without a
    forwarder or a video stream, gets the port of the first forwarder once more. *)
Theorem answer_matches_offer (mc : MediaConfig) (now : Z) (d : SessionDescription) (ip : string)
    (f0 : RTPForwarder) (fwds : list RTPForwarder) :
  Forall (fun f => 0 < fw_LocalPort f) (f0 :: fwds) ->
  let answer := generateSDPResponseForForwarders mc now (Some d) ip (f0 :: fwds) in
  List.length (sd_MediaDescriptions answer) = List.length (sd_MediaDescriptions d) /\
  forall i m, sd_MediaDescriptions d !! i = Some m ->
    exists a, sd_MediaDescriptions answer !! i = Some a /\
      mn_Media (md_MediaName a) = mn_Media (md_MediaName m) /\
      mn_Port (md_MediaName a) =
        (if is_audio m then fw_LocalPort (default f0 ((f0 :: fwds) !! audio_rank (sd_MediaDescriptions d) i))
         else fw_LocalPort f0) /\
      directions a = [dual_direction m] /\
      (NoDup (mn_Formats (md_MediaName m)) -> mn_Formats (md_MediaName a) ≡ₚ mn_Formats (md_MediaName m)) /\
      address_of (md_ConnectionInformation a) = Some (if mc_BehindNAT mc then mc_ExternalIP mc else ip).
Proof.
  intros Hf. cbv zeta. unfold generateSDPResponseForForwarders, generateSDPAdvanced.
  cbv zeta. cbn [sd_MediaDescriptions].
  match goal with |- context [imap (answer_media ?o') _] => set (o := o') end.
  split; [apply length_imap|]. intros i m Hi. exists (answer_media o i m). rewrite list_lookup_imap, Hi. split; [done|].
  split; [|split; [|split; [apply answer_directions|]]].
  - unfold answer_media. by destruct (media_ports o i), (copy_attributes _ _ _ _).
  - assert (Hport : (media_ports o i).1 =
      if is_audio m then fw_LocalPort (default f0 ((f0 :: fwds) !! audio_rank (sd_MediaDescriptions d) i)) else fw_LocalPort f0).
    { unfold media_ports. change (so_MediaPortPairs o) with (assign_pairs (sd_MediaDescriptions d) (f0 :: fwds)).
      rewrite (assign_pairs_lookup _ _ i m Hi). cbn [default fst]. change (so_RTPPort o) with (fw_LocalPort f0).
      destruct (is_audio m); [|done]. destruct ((f0 :: fwds) !! audio_rank _ i) as [f|] eqn:E; [|done]. cbn [RTPPort].
      rewrite Forall_forall in Hf. pose proof (Hf f (list_elem_of_lookup_2 _ _ _ E)).
      cbn [RTPPort id]. by replace (0 <? fw_LocalPort f) with true by lia. }
    unfold answer_media. destruct (media_ports o i) as [p q], (copy_attributes _ _ _ _). exact Hport.
  - unfold answer_media. destruct (media_ports o i), (copy_attributes _ _ _ _). cbn. split; [apply prioritize_perm|].
    by unfold connection_addr.
Qed.

(** ** Sanitizing *)

#[local] Abbreviation LF := (ascii_of_N 10).

Lemma split_on_parts c s : Forall (fun w => lacks c w = true) (split_on c s).
Proof.
  induction s as [|d s IH]; cbn; [by repeat constructor|]. destruct (Ascii.eqb d c) eqn:E; [by constructor|].
  destruct (split_on c s) as [|w ws]; [by repeat constructor; cbn; rewrite E|].
  apply Forall_cons in IH as [Hw Hws]. constructor; [|done]. cbn. by rewrite E.
Qed.

Lemma unify_line w rest : lacks LF w = true ->
  unify_newlines (list_ascii_of_string w ++ ascii_of_N 13 :: LF :: rest) = list_ascii_of_string w ++ LF :: unify_newlines rest.
Proof.
  induction w as [|c w IH]; [done|]. cbn [lacks]. intros Hw. apply andb_prop in Hw as [Hc Hw].
  cbn [list_ascii_of_string app]. rewrite <- IH by done.
  destruct w as [|d w]; cbn [list_ascii_of_string app].
  - change (unify_newlines (c :: ascii_of_N 13 :: LF :: rest)) with
      (if (byte_of c =? 13) && (byte_of (ascii_of_N 13) =? 10) then ascii_of_N 13 :: unify_newlines (LF :: rest)
       else c :: unify_newlines (ascii_of_N 13 :: LF :: rest)).
    by rewrite andb_false_r.
  - change (unify_newlines (c :: d :: list_ascii_of_string w ++ ascii_of_N 13 :: LF :: rest)) with
      (if (byte_of c =? 13) && (byte_of d =? 10) then d :: unify_newlines (list_ascii_of_string w ++ ascii_of_N 13 :: LF :: rest)
       else c :: unify_newlines (d :: list_ascii_of_string w ++ ascii_of_N 13 :: LF :: rest)).
    cbn [lacks] in Hw. apply andb_prop in Hw as [Hd _]. apply negb_true_iff in Hd. apply Ascii.eqb_neq in Hd.
    destruct (Z.eqb_spec (byte_of d) 10) as [E|_]; [|by rewrite andb_false_r].
    exfalso. apply Hd. rewrite <- (ascii_N_embedding d). f_equal. unfold byte_of in E. lia.
Qed.

Lemma unify_last w : lacks LF w = true -> unify_newlines (list_ascii_of_string w) = list_ascii_of_string w.
Proof.
  induction w as [|c w IH]; [done|]. cbn [lacks]. intros Hw. apply andb_prop in Hw as [Hc Hw].
  cbn [list_ascii_of_string]. destruct w as [|d w]; [done|]. cbn [list_ascii_of_string] in *.
  change (unify_newlines (c :: d :: list_ascii_of_string w)) with
    (if (byte_of c =? 13) && (byte_of d =? 10) then d :: unify_newlines (list_ascii_of_string w)
     else c :: unify_newlines (d :: list_ascii_of_string w)). rewrite IH by done.
  cbn [lacks] in Hw. apply andb_prop in Hw as [Hd _]. apply negb_true_iff in Hd. apply Ascii.eqb_neq in Hd.
  destruct (Z.eqb_spec (byte_of d) 10) as [E|_]; [|by rewrite andb_false_r].
  exfalso. apply Hd. rewrite <- (ascii_N_embedding d). f_equal. unfold byte_of in E. lia.
Qed.

(** The lines of a description. *)
Definition sdp_lines (data : string) : list string :=
  split_on LF (string_of_list_ascii (unify_newlines (list_ascii_of_string data))).

Lemma string_of_app l k : string_of_list_ascii (l ++ k) = string_of_list_ascii l +:+ string_of_list_ascii k.
Proof. induction l as [|c l IH]; [done|]. cbn. by rewrite IH. Qed.

Lemma sdp_lines_join ws : ws <> [] -> Forall (fun w => lacks LF w = true) ws -> sdp_lines (join crlf ws) = ws.
Proof.
  intros Hne Hws. unfold sdp_lines. induction Hws as [|w ws Hw Hws IH]; [done|]. destruct ws as [|w' ws].
  - cbn [join]. rewrite unify_last, string_of_list_ascii_of_string by done. by apply split_on_lacks.
  - change (join crlf (w :: w' :: ws)) with (w +:+ String (ascii_of_N 13) (String LF (join crlf (w' :: ws)))).
    rewrite list_ascii_app. cbn [list_ascii_of_string]. rewrite unify_line, string_of_app, string_of_list_ascii_of_string by done.
    cbn [string_of_list_ascii]. rewrite split_on_app by done. f_equal. by apply IH.
Qed.

(** Sanitizing a description drops exactly the attribute lines with a malformed
    key: the lines of the result are the other lines, in order and unchanged, and
    the count is the number of lines dropped.  The result is stable: a second
    pass returns it unchanged and drops nothing. *)
Theorem sanitize_drops_exactly `{UnicodeLetters} (data : string) :
  let '(clean, dropped) := sanitizeSDPAttributes data in
  let kept := List.filter (fun l => negb (bad_attribute l)) (sdp_lines data) in
  sdp_lines clean = match kept with [] => [""] | _ => kept end /\
  dropped = Z.of_nat (List.length (sdp_lines data)) - Z.of_nat (List.length kept) /\
  sanitizeSDPAttributes clean = (clean, 0).
Proof.
  unfold sanitizeSDPAttributes. fold (sdp_lines data). set (kept := List.filter _ (sdp_lines data)). cbv zeta.
  assert (Hlines : sdp_lines (join crlf kept) = match kept with [] => [""] | _ => kept end).
  { destruct kept as [|w ws] eqn:E; [done|]. rewrite <- E. apply sdp_lines_join; [by rewrite E|].
    subst kept. apply List.Forall_forall. intros x [Hx _]%filter_In. pose proof (split_on_parts LF
      (string_of_list_ascii (unify_newlines (list_ascii_of_string data)))) as Hp.
    rewrite List.Forall_forall in Hp. by apply Hp. }
  split; [done|]. split.
  - subst kept. pose proof (List.filter_length bad_attribute (sdp_lines data)). lia.
  - fold (sdp_lines (join crlf kept)). rewrite Hlines. destruct kept as [|w ws] eqn:E; [done|]. rewrite <- E.
    assert (Hgood : forall x, In x kept -> bad_attribute x = false).
    { intros x Hx. subst kept. apply filter_In in Hx as [_ Hx]. by apply negb_true_iff. }
    clear E w ws Hlines.
    assert (Hid : List.filter (fun l => negb (bad_attribute l)) kept = kept /\ List.filter bad_attribute kept = []).
    { clearbody kept. induction kept as [|x kept IH]; [done|]. cbn [List.filter]. rewrite (Hgood x) by (by left).
      destruct IH as [-> ->]; [|done]. intros y Hy. apply Hgood. by right. }
    by destruct Hid as [-> ->].
Qed.

(** ** Concrete descriptions *)

Definition sample_key : list Z := map Z.of_nat (seq 0 30).

Lemma sample_key_bytes : Forall (in_u 8) sample_key.
Proof. vm_compute. repeat (apply List.Forall_cons; [by split|]). constructor. Qed.

Definition fresh_forwarder : RTPForwarder := new_forwarder (mkPortPair 10000 10001) 30 None 7.

Lemma crypto_line_round_trip_witness :
  exists f, parseSRTPAttributes
      (crypto_line (mkSRTPKeyInfo (take 16 sample_key) (drop 16 sample_key) "AES_CM_128_HMAC_SHA1_80" 31)) fresh_forwarder = Some f /\
    fw_SRTPMasterKey f = take 16 sample_key /\ fw_SRTPKeyLifetime f = 2 ^ 31.
Proof.
  destruct (crypto_line_round_trip
    (mkSRTPKeyInfo (take 16 sample_key) (drop 16 sample_key) "AES_CM_128_HMAC_SHA1_80" 31) fresh_forwarder)
    as (f & Hf & Hk & _ & _ & Hl & _); [exact sample_key_bytes|reflexivity|reflexivity|by vm_compute|by vm_compute|].
  by exists f.
Defined.

Definition sample_media (media : string) (attrs : list Attribute) : MediaDescription :=
  mkMediaDescription (mkMediaName media 4000 ["RTP/AVP"] ["8"; "0"]) None attrs.

Definition sample_description (mds : list MediaDescription) : SessionDescription :=
  mkSessionDescription (mkOrigin "-" 1 1 "IN" "IP4" "192.0.2.1") "call" None [(0, 0)] mds [].

Definition negative_lifetime : Attribute :=
  mkAttribute "crypto" ("1 AES_CM_128_HMAC_SHA1_80 inline:" +:+ base64 sample_key +:+ "|2^-1").

Lemma negative_lifetime_panics_witness :
  @ConfigureForwarderForMediaDescription ascii_only Some (sample_description []) (sample_media "audio" [negative_lifetime])
    fresh_forwarder = None.
Proof.
  apply (@negative_lifetime_panics ascii_only Some _ _ sample_key); [exact sample_key_bytes|vm_compute; lia|reflexivity|reflexivity].
Defined.

Lemma answer_matches_offer_witness :
  exists a, sd_MediaDescriptions (generateSDPResponseForForwarders (mkMediaConfig false "" "" false) 0
      (Some (sample_description [sample_media "video" [attr "sendonly"]; sample_media "audio" [attr "recvonly"]])) "192.0.2.9"
      [fresh_forwarder]) !! 0%nat = Some a /\
    mn_Port (md_MediaName a) = 10000 /\ directions a = ["recvonly"].
Proof.
  destruct (answer_matches_offer (mkMediaConfig false "" "" false) 0
    (sample_description [sample_media "video" [attr "sendonly"]; sample_media "audio" [attr "recvonly"]]) "192.0.2.9"
    (fresh_forwarder) []) as [_ Ha]; [by repeat constructor|].
  destruct (Ha 0%nat _ eq_refl) as (a & H1 & _ & H2 & H3 & _). by exists a.
Defined.
