(* ===== verification/Negotiation.v ===== *)
(** * What an offer and its answer do to the recording

    The composition of the session descriptions ([Sdp]) with the RTP loop
    ([RtpStream]): a forwarder configured from an offer, the answer to that offer,
    and the stream that arrives when the other side follows the answer. *)

From S2P Require Import Prelude GoStrings GoText Metadata RtpStats LruCache PortManager Ports PauseIO Forwarder WavFile AudioDecode BufferedPipe JitterBuffer RtpStream RtpRecording RtpSource Sdp.
From Stdlib Require Import Ascii String.
#[local] Open Scope string_scope.
#[local] Open Scope list_scope.
#[local] Open Scope Z_scope.

(** A codec that is set has the payload type and a clock rate. *)
Lemma set_codec_info `{Unicode} pt name rate ch f :
  fw_CodecPayloadType (SetCodecInfo pt name rate ch f) = pt /\ 0 < fw_SampleRate (SetCodecInfo pt name rate ch f).
Proof. unfold SetCodecInfo. destruct f. destruct (Z.leb_spec rate 0), (Z.ltb_spec 0 rate); cbn; split; lia. Qed.

Lemma apply_formats_first `{Unicode} attrs first rest pt f :
  atoi (trim_space first) = Some pt ->
  fw_CodecPayloadType (apply_formats attrs (first :: rest) f) = u8 pt /\ 0 < fw_SampleRate (apply_formats attrs (first :: rest) f).
Proof.
  intros E. cbn [apply_formats]. rewrite E. destruct (codecDetailsFromAttributes _ _) as [[n r] c].
  destruct (String.eqb n ""); [destruct (GetCodecInfo _)|]; apply set_codec_info.
Qed.

(** A forwarder configured from a media description has the first format's type. *)
Lemma configured_first `{Unicode} parseIP d md first rest pt f f' :
  mn_Formats (md_MediaName md) = first :: rest -> atoi (trim_space first) = Some pt ->
  ConfigureForwarderForMediaDescription parseIP d md f = Some f' ->
  fw_CodecPayloadType f' = u8 pt /\ 0 < fw_SampleRate f'.
Proof.
  intros Hf Ha. unfold ConfigureForwarderForMediaDescription, applyMediaAttributes.
  destruct (applySessionAttributes d f) as [f1|]; [|done]. cbn [mbind option_bind].
  destruct (apply_attributes _ f1) as [f2|]; [|done]. cbn [mbind option_bind]. intros [= <-]. rewrite Hf.
  destruct (apply_formats_first (md_Attributes md) first rest pt f2 Ha) as [H1 H2]. rewrite <- H1.
  set (f3 := apply_formats _ _ f2) in *. clearbody f3. unfold setRemoteAddressHints. cbv zeta.
  destruct (String.eqb _ _); [done|]. destruct (parseIP _); [|done]. by destruct f3.
Qed.

Lemma prioritize_zero formats : "0" ∈ formats -> head (prioritizeCodecs formats) = Some "0".
Proof. intros H0. unfold prioritizeCodecs. cbn [List.filter]. by rewrite bool_decide_eq_true_2. Qed.

(** The formats of the answer, media by media. *)
Definition answered_formats (mc : MediaConfig) (now : Z) (d : SessionDescription) (ip : string) (fwds : list RTPForwarder)
    : list (list string) :=
  map (fun m => mn_Formats (md_MediaName m)) (sd_MediaDescriptions (generateSDPResponseForForwarders mc now (Some d) ip fwds)).

(** A call that is recorded as silence although both sides keep to the protocol.
    When the offer lists another known codec before PCMU (payload type 0), the
    forwarder is configured for the offer's first format, while the answer moves
    PCMU to the front, which asks the other side to send PCMU.  Whatever number of
    PCMU packets it then sends, nothing is added to the recording. *)
Theorem answered_codec_not_recorded `{Unicode} `{StreamCodecs} (unmarshal : list Z -> option RtpPacket)
    (parseIP : string -> option string) (mc : MediaConfig) (now : Z) (ip : string) (d : SessionDescription)
    (md : MediaDescription) (first : string) (rest : list string) (pt : Z) (f f' : RTPForwarder)
    (evs : list rtp_event) (w w' : RtpWorld) :
  sd_MediaDescriptions d = [md] -> mn_Formats (md_MediaName md) = first :: rest ->
  atoi (trim_space first) = Some pt -> 0 < pt < 256 -> "0" ∈ rest ->
  ConfigureForwarderForMediaDescription parseIP d md f = Some f' -> fw_CodecName f' <> "" ->
  rw_fwd w = f' -> Forall (plain_audio unmarshal) evs -> rtp_run unmarshal w evs = Some w' ->
  (exists others, answered_formats mc now d ip [f'] = ["0" :: others]) /\
  recorded w' = recorded w.
Proof.
  intros Hd Hf Ha Hpt Hzero Hc Hn Hw Hevs Hr.
  destruct (configured_first parseIP d md first rest pt f f' Hf Ha Hc) as [H1 H2].
  split.
  - unfold answered_formats, generateSDPResponseForForwarders, generateSDPAdvanced. cbv zeta. cbn [sd_MediaDescriptions].
    rewrite Hd. cbn [imap map]. unfold answer_media. destruct (media_ports _ _), (copy_attributes _ _ _ _).
    cbn [md_MediaName mn_Formats]. pose proof (prioritize_zero (mn_Formats (md_MediaName md))) as Hz. rewrite Hf in *.
    specialize (Hz ltac:(by right)). destruct (prioritizeCodecs _) as [|x others]; [done|]. injection Hz as ->. by exists others.
  - apply (plain_audio_ignored unmarshal pt (fw_CodecName f') (fw_SampleRate f') (fw_Channels f') evs w w'); try done; try lia.
    unfold codec_info. rewrite Hw, H1. unfold u8. by rewrite wrap_u_id by (unfold in_u; lia).
Qed.

(** The offer of an A-law phone: formats 8 and 0, and a packet of type 0. *)
Definition alaw_offer : SessionDescription := sample_description [sample_media "audio" []].

Lemma answered_codec_not_recorded_witness :
  exists f' w',
    @ConfigureForwarderForMediaDescription ascii_only Some alaw_offer
      (sample_media "audio" []) sample_forwarder = Some f' /\
    @rtp_run ascii_only no_codecs sample_unmarshal (pcmu_world <| rw_fwd := f' |>)
      [EvDatagram [0; 5; 3; 480; 255; 127] 3 3 sample_addr] = Some w' /\
    recorded w' = recorded (pcmu_world <| rw_fwd := f' |>).
Proof.
  eexists _, _. split; [vm_compute; reflexivity|]. split; [vm_compute; reflexivity|].
  eapply (@answered_codec_not_recorded ascii_only no_codecs sample_unmarshal Some
    (mkMediaConfig false "" "" false) 0 "192.0.2.9" alaw_offer
    (sample_media "audio" []) "8" ["0"] 8 sample_forwarder _
    [EvDatagram [0; 5; 3; 480; 255; 127] 3 3 sample_addr] _ _); try (vm_compute; reflexivity).
  - vm_compute. by split.
  - by left.
  - done.
  - repeat constructor. by intros pkt [= <-].
Defined.
