(* ===== verification/Dialog.v ===== *)
(** * Dialogs

    The request handlers of the recording server: [src/pkg/sip/custom_server.go],
    the timeouts of [timeout_handler.go], the list of active calls with its
    cleanup in [handler.go], the pause service of [pause_resume_service.go] and
    the callback endpoints of [notifications.go].

    Pointers are indices: the server owns a table of call states and a table of
    forwarders, and the map of calls, the calls and the list of active calls refer
    to entries of these tables.  A handler is a function of the server that has no
    result when it panics.  What it sees of its surroundings, the clock, the free
    ports, random numbers, whether a goroutine ends in time, is the argument
    [Env].  The handlers compose the metadata functions of [SipSession], the
    vendor data of [Vendor], the recording policies of [Policy], the session
    descriptions of [Sdp], and the forwarders with the port allocator behind the
    interface of [Ports].

    Parsers and printers of libraries ([mime], [encoding/xml], [pion/sdp]) are
    parameters, as is the verdict of rate limiter and authenticator on an INVITE,
    which is in [Admission].
    Logging, tracing, metrics, audit records, call detail records, cluster
    registration and outgoing notifications (see [Callbacks]) are left out; so are the fields that
    only they read, and [AllocatedPortPair], which nothing sets. *)

From S2P Require Import Prelude GoStrings GoText Net Metadata Session Validation Policy Fill SipMessage Vendor SipSession.
From S2P Require Import RtpStats LruCache PortManager Ports PauseIO Forwarder WavFile AudioDecode WavCombine Sdp.
From Stdlib Require Import Ascii String.
#[local] Open Scope string_scope.
#[local] Open Scope list_scope.
#[local] Open Scope Z_scope.

(** ** State *)

Record CallState := mkCallState {
  cs_CallID : string;
  cs_State : string;
  cs_LocalTag : string;
  cs_RemoteTag : string;
  cs_RemoteCSeq : Z;
  cs_PendingAckCSeq : Z;
  cs_CreatedAt : Time;
  cs_LastActivity : Time;
  cs_SDP : string;
  cs_RecordingSession : option RecordingSession;
  cs_RTPForwarder : option nat;
  cs_RTPForwarders : list nat;
  cs_StreamForwarders : gmap string nat;
  cs_OriginalInvite : option SIPMessage;
  cs_cancelled : bool;
  cs_finalized : bool
}.

(** An entry of the list of active calls; its session is that of the call. *)
Record CallData := mkCallData {
  cd_Forwarder : option nat;
  cd_Call : nat;
  cd_LastActivity : Time;
  cd_Dialog : option (string * string * string)
}.

Record SentResponse := mkSentResponse {
  sr_CallID : string;
  sr_Method : string;
  sr_Status : Z;
  sr_Tag : option string;
  sr_Body : string
}.

Record Server (St : Type) := mkServer {
  sv_callStates : gmap string nat;
  sv_calls : list CallState;
  sv_forwarders : list RTPForwarder;
  sv_running : gset nat;
  sv_platform : Platform St;
  sv_policy : option PolicyManager;
  sv_active : gmap string CallData;
  sv_endpoints : gmap string (list string);
  sv_sent : list SentResponse
}.
Arguments mkServer {St}.
Arguments sv_callStates {St}.
Arguments sv_calls {St}.
Arguments sv_forwarders {St}.
Arguments sv_running {St}.
Arguments sv_platform {St}.
Arguments sv_policy {St}.
Arguments sv_active {St}.
Arguments sv_endpoints {St}.
Arguments sv_sent {St}.

(** ** Configuration and surroundings *)

Record MediaSettings := mkMediaSettings {
  se_Media : MediaConfig;
  se_RTPTimeout : Duration;
  se_RequireSRTP : bool;
  se_CombineLegs : bool
}.

Record ServerConfig := mkServerConfig {
  sc_MaxConcurrentCalls : Z;
  sc_Media : option MediaSettings;
  sc_Format : string;
  sc_Multipart : bool;
  sc_Metadata : option SipConfig;
  sc_Callbacks : list string;
  sc_Notifier : bool
}.

(** The libraries.  [li_ParseMediaType] gives type, parameters and whether there
    was no error.  [li_parts] are the parts of a multipart body: content type
    and data, none if the part cannot be read.  [li_combine] combines recordings
    into a file of the call and returns its path. *)
Class Libraries := {
  li_ParseMediaType : string -> string * gmap string string * bool;
  li_parts : string -> string -> list (string * option string);
  li_unmarshal : string -> option SessionDescription;
  li_marshal : SessionDescription -> option string;
  li_decode : string -> RSMetadata + string;
  li_xml_Marshal : RSMetadata -> string + string;
  li_format_utc : Time -> string;
  li_callback_ok : string -> bool;
  li_combine : string -> list LegTiming -> option string
}.

(** What one handler sees.  [en_now] is the clock at its reads in the order of
    the code, [en_clock] the clock inside the metadata functions; [en_ports] and
    [en_ssrc] belong to the forwarders it creates; [en_exited] tells whether the
    goroutine of a forwarder ends within the time waited for it. *)
Record Env (Oracle : Type) := mkEnv {
  en_now : nat -> Time;
  en_clock : nat -> Time;
  en_ports : nat -> Oracle;
  en_ssrc : nat -> Z;
  en_uuid : string;
  en_boundary : string;
  en_mediaIP : string;
  en_media : MediaOracle;
  en_exited : nat -> bool
}.
Arguments mkEnv {Oracle}.
Arguments en_now {Oracle}.
Arguments en_clock {Oracle}.
Arguments en_ports {Oracle}.
Arguments en_ssrc {Oracle}.
Arguments en_uuid {Oracle}.
Arguments en_boundary {Oracle}.
Arguments en_mediaIP {Oracle}.
Arguments en_media {Oracle}.
Arguments en_exited {Oracle}.

(** The verdict on an INVITE before it is looked at. *)
Inductive admission := Allowed | RateLimited | Challenged | Blocked.

Definition second : Duration := 1000000000.

Definition InviteTimeout : Duration := 32 * second.
Definition SessionIdleTimeout : Duration := 300 * second.
Definition MaxSessionDuration : Duration := 86400 * second.

Definition maxEndpointsPerCall : nat := 32.

Section server.
Context `{Unicode} `{Rfc3339} `{SipLibrary} `{Calendar} `{UnicodeLetters} `{!GoMapRange string} `{Libraries}.
Context `{PortAllocator St Oracle}.
Context (cfg : ServerConfig).
Implicit Types (sv : Server St) (e : Env Oracle) (m : SIPMessage) (p i : nat).

(** ** Access *)

Definition getCallState (callID : string) sv : option nat := sv_callStates sv !! callID.

Definition update_call p (f : CallState -> CallState) sv : Server St := sv <| sv_calls := alter f p (sv_calls sv) |>.

Definition update_forwarder i (f : RTPForwarder -> RTPForwarder) sv : Server St :=
  sv <| sv_forwarders := alter f i (sv_forwarders sv) |>.

Definition call_at p sv : option CallState := sv_calls sv !! p.

(** The tag the dialog gives a response. *)
Definition dialog_tag (callID : string) sv : option string :=
  if String.eqb callID "" then None else
  cs ← getCallState callID sv ≫= fun p => call_at p sv;
  if String.eqb (cs_LocalTag cs) "" then None else Some (cs_LocalTag cs).

Definition sendResponse m (status : Z) (body : string) sv : Server St :=
  if ms_Transaction m then
    match ms_Request m with
    | Some _ =>
      sv <| sv_sent := sv_sent sv ++ [mkSentResponse (ms_CallID m) (ms_Method m) status (dialog_tag (ms_CallID m) sv) body] |>
    | None => sv
    end
  else sv.

(** ** Bodies *)

Definition MaxMultipartSize : Z := 2 * 1024 * 1024.
Definition MaxMetadataSize : Z := 1024 * 1024.
Definition MaxSDPSize : Z := 16 * 1024.

Definition byte_size (s : string) : Z := Z.of_nat (String.length s).

(** Reading a part stops one byte after the limit for metadata, which leaves the
    tests below as they are. *)
Definition extract_part (found : string * string) (part : string * option string) : string * string :=
  let ct := or_else part.1 "application/octet-stream" in
  let partType := to_lower (li_ParseMediaType ct).1.1 in
  match part.2 with
  | None => found
  | Some data =>
    if String.eqb partType "application/sdp" then
      if MaxSDPSize <? byte_size data then found else (data, found.2)
    else if String.eqb partType "application/rs-metadata+xml" then
      if MaxMetadataSize <? byte_size data then found else (found.1, data)
    else found
  end.

(** The SDP and the metadata of a body; empty when missing. *)
Definition extractSiprecContent (body contentType : string) : string * string :=
  if MaxMultipartSize <? byte_size body then ("", "") else
  let '(mediaType, params, ok) := li_ParseMediaType contentType in
  if negb ok then ("", "")
  else if has_prefix (to_lower mediaType) "multipart/" then
    match params !! "boundary" with
    | Some boundary => if String.eqb boundary "" then ("", "") else foldl extract_part ("", "") (li_parts body boundary)
    | None => ("", "")
    end
  else ("", "").

Fixpoint find_label (attrs : list Attribute) : option string :=
  match attrs with
  | [] => None
  | a :: attrs =>
    if String.eqb (at_Key a) "label" && negb (blank (at_Value a)) then Some (trim_space (at_Value a)) else find_label attrs
  end.

Definition leg_label (idx : nat) : string := "leg" +:+ itoa (Z.of_nat idx).

Definition extractStreamLabel (md : MediaDescription) (idx : nat) : string :=
  default (leg_label idx) (find_label (md_Attributes md)).

(** The audio descriptions of an offer with their labels. *)
Definition audio_streams (d : SessionDescription) : list (MediaDescription * string) :=
  imap (fun idx md => (md, extractStreamLabel md idx)) (List.filter is_audio (sd_MediaDescriptions d)).

Definition generateSiprecSDP (now : Time) (ip : string) (rtpPort : Z) : string :=
  let timestamp := itoa (now / second) in
  let ip := or_else ip "127.0.0.1" in
  let port := if rtpPort <=? 0 then 10000 else rtpPort in
  let nl := String (ascii_of_N 10) "" in
  "v=0" +:+ nl +:+ "o=- " +:+ timestamp +:+ " " +:+ timestamp +:+ " IN IP4 " +:+ ip +:+ nl +:+
  "s=SIPREC Recording Session" +:+ nl +:+ "c=IN IP4 " +:+ ip +:+ nl +:+ "t=0 0" +:+ nl +:+
  "m=audio " +:+ itoa port +:+ " RTP/AVP 0 8" +:+ nl +:+
  "a=rtpmap:0 PCMU/8000" +:+ nl +:+ "a=rtpmap:8 PCMA/8000" +:+ nl +:+ "a=recvonly" +:+ nl.

(** ** Forwarders *)

Definition forwarder_at i sv : option RTPForwarder := sv_forwarders sv !! i.

Definition is_stopped sv i : bool := match forwarder_at i sv with Some f => fw_stopped f | None => false end.

(** [Stop] and [Cleanup]. *)
Definition cleanup_forwarder e i sv : Server St :=
  match forwarder_at i sv with
  | None => sv
  | Some f =>
    let '(f, pl) := Cleanup (en_media e) (en_now e 0%nat) (Stop f) (sv_platform sv) in
    sv <| sv_forwarders := <[i := f]> (sv_forwarders sv) |> <| sv_platform := pl |>
  end.

Definition wait_done e i sv : Server St :=
  if en_exited e i then sv <| sv_running := sv_running sv ∖ {[i]} |> else sv.

Definition stopAndCleanup e i sv : Server St := cleanup_forwarder e i (wait_done e i sv).

Definition cleanup_all e (l : list nat) sv : Server St := foldl (fun sv i => cleanup_forwarder e i sv) sv l.

Definition stop_all e (l : list nat) sv : Server St := foldl (fun sv i => stopAndCleanup e i sv) sv l.

(** The goroutine of a forwarder ends. *)
Definition goroutine_exit e i sv : Server St :=
  match forwarder_at i sv with
  | None => sv
  | Some f =>
    let '(f, pl) := Cleanup (en_media e) (en_now e 0%nat) f (sv_platform sv) in
    sv <| sv_forwarders := <[i := f]> (sv_forwarders sv) |> <| sv_platform := pl |>
       <| sv_running := sv_running sv ∖ {[i]} |>
  end.

Definition rtp_timeout (session : option RecordingSession) (ms : MediaSettings) : Duration :=
  let d := GetEffectiveRTPTimeout session (se_RTPTimeout ms) in
  if d =? 0 then 30 * second else d.

(** [n] forwarders, the first being the [k]-th of the handler: their indices, and
    whether there were ports for all of them. *)
Fixpoint new_forwarders e (timeout : Duration) (session : option string) (k n : nat) sv : list nat * bool * Server St :=
  match n with
  | O => ([], true, sv)
  | S n =>
    let pl := sv_platform sv in
    match NewRTPForwarder (en_ports e k) timeout session (en_ssrc e k) (pl_ports pl) with
    | (None, pm) => ([], false, sv <| sv_platform := mkPlatform pm (pl_files pl) |>)
    | (Some f, pm) =>
      let i := List.length (sv_forwarders sv) in
      let '(l, ok, sv) := new_forwarders e timeout session (S k) n
        (sv <| sv_forwarders := sv_forwarders sv ++ [f] |> <| sv_platform := mkPlatform pm (pl_files pl) |>) in
      (i :: l, ok, sv)
    end
  end.

Definition set_encoder (format : string) (f : RTPForwarder) : RTPForwarder :=
  f <| fw_AudioEncoder := true |> <| fw_TargetFormat := format |>.

Definition recording_format : string := or_else (sc_Format cfg) "wav".

Definition configure_encoders (l : list nat) sv : Server St :=
  if String.eqb recording_format "wav" then sv
  else foldl (fun sv i => update_forwarder i (set_encoder recording_format) sv) sv l.

(** Configuring a forwarder from its description, and whether a required key is
    missing afterwards. *)
Definition configure_one (ms : MediaSettings) (d : SessionDescription) (md : MediaDescription) i sv
    : option (bool * Server St) :=
  match forwarder_at i sv with
  | None => Some (false, sv)
  | Some f =>
    f ← ConfigureForwarderForMediaDescription parse_ip_text d md f;
    Some (se_RequireSRTP ms && negb (has_key f), sv <| sv_forwarders := <[i := f]> (sv_forwarders sv) |>)
  end.

(** Until a key is missing. *)
Fixpoint configure_all (ms : MediaSettings) (d : SessionDescription) (l : list (MediaDescription * nat)) sv
    : option (bool * Server St) :=
  match l with
  | [] => Some (false, sv)
  | (md, i) :: l =>
    '(missing, sv) ← configure_one ms d md i sv;
    if missing : bool then Some (true, sv) else configure_all ms d l sv
  end.

Definition start_forwarder p (label : string) i sv : Server St :=
  let sv := update_call p (fun cs => cs <| cs_StreamForwarders := <[label := i]> (cs_StreamForwarders cs) |>) sv in
  sv <| sv_running := {[i]} ∪ sv_running sv |>.

Definition start_all p (l : list (string * nat)) sv : Server St :=
  foldl (fun sv '(label, i) => start_forwarder p label i sv) sv l.

(** ** Ending a call *)

Definition end_session (now : Time) (reason : string) (s : RecordingSession) : RecordingSession :=
  let state :=
    if String.eqb reason "" then rs_RecordingState s
    else if String.eqb reason "terminated" then "terminated"
    else if String.eqb reason "cancelled" then
      if String.eqb (rs_RecordingState s) "" || String.eqb (rs_RecordingState s) "active" then "cancelled"
      else rs_RecordingState s
    else if String.eqb (rs_RecordingState s) "" then reason else rs_RecordingState s in
  ext_set "termination_reason" reason
    (s <| rs_RecordingState := state |> <| rs_EndTime := now |> <| rs_UpdatedAt := now |>).

(** The recording of a forwarder, if it has one. *)
Definition leg_of (f : RTPForwarder) : option LegTiming :=
  if String.eqb (fw_RecordingPath f) "" then None
  else Some (mkLegTiming (fw_RecordingPath f) (if fw_HasFirstRTP f then fw_FirstRTPWallClock f else 0)
               (if 0 <? fw_SampleRate f then fw_SampleRate f else 8000)).

(** The legs of forwarders whose paths are not among those there already. *)
Definition add_leg (legs : list LegTiming) (leg : LegTiming) : list LegTiming :=
  if existsb (fun l => String.eqb (lt_Path l) (lt_Path leg)) legs then legs else legs ++ [leg].

Definition leg_at sv i : option LegTiming := forwarder_at i sv ≫= leg_of.

(** The forwarders are stopped one after the other, each after its leg was noted. *)
Fixpoint finish_forwarders e (fresh : bool) (l : list nat) (legs : list LegTiming) sv : list LegTiming * Server St :=
  match l with
  | [] => (legs, sv)
  | i :: l =>
    let legs := match leg_at sv i with
                | Some leg => if fresh then legs ++ [leg] else add_leg legs leg
                | None => legs
                end in
    finish_forwarders e fresh l legs (stopAndCleanup e i sv)
  end.

Definition combineRecordingLegs p (callID : string) (legs : list LegTiming) sv : Server St :=
  if (List.length legs <? 2)%nat then sv else
  match sc_Media cfg with
  | None => sv
  | Some ms =>
    if se_CombineLegs ms then
      match li_combine callID legs with
      | Some path => update_call p (fun cs => cs <| cs_RecordingSession := ext_set "combined_recording_path" path <$> cs_RecordingSession cs |>) sv
      | None => sv
      end
    else sv
  end.

(** The forwarders of a call: all of them, or the single one. *)
Definition call_forwarders (cs : CallState) : list nat :=
  match cs_RTPForwarders cs with [] => option_list (cs_RTPForwarder cs) | l => l end.

Definition ClearCallEndpoints (callID : string) sv : Server St :=
  if String.eqb callID "" then sv else sv <| sv_endpoints := delete callID (sv_endpoints sv) |>.

Definition removeCallFromActiveList (callID : string) sv : Server St :=
  sv <| sv_active := delete callID (sv_active sv) |>.

Definition doFinalizeCall e (callID : string) p (cs : CallState) (reason : string) sv : Server St :=
  let sv := update_call p (fun cs => cs <| cs_cancelled := true |>
    <| cs_RecordingSession := end_session (en_now e 0%nat) reason <$> cs_RecordingSession cs |>) sv in
  let '(legs, sv) := finish_forwarders e true (call_forwarders cs) [] sv in
  let '(legs, sv) := finish_forwarders e false (map snd (map_range 0 (cs_StreamForwarders cs))) legs sv in
  let sv := update_call p (fun cs => cs <| cs_RTPForwarders := [] |> <| cs_RTPForwarder := None |>
    <| cs_StreamForwarders := ∅ |> <| cs_PendingAckCSeq := 0 |>) sv in
  let sv := combineRecordingLegs p callID legs sv in
  let sv := update_call p (fun cs => cs <| cs_State := "terminated" |> <| cs_LastActivity := en_now e 1%nat |>) sv in
  let sv := sv <| sv_callStates := delete callID (sv_callStates sv) |> in
  let sv := removeCallFromActiveList callID sv in
  if sc_Notifier cfg then ClearCallEndpoints callID sv else sv.

(** Once for every call state. *)
Definition finalizeCall e (callID : string) p (reason : string) sv : Server St :=
  match call_at p sv with
  | None => sv
  | Some cs =>
    if cs_finalized cs then sv
    else doFinalizeCall e callID p cs reason (update_call p (fun cs => cs <| cs_finalized := true |>) sv)
  end.

Definition syncCallToActiveList (callID : string) p sv : Server St :=
  match call_at p sv with
  | None => sv
  | Some cs =>
    let data := mkCallData (cs_RTPForwarder cs) p (cs_LastActivity cs)
      (if String.eqb (cs_CallID cs) "" then None else Some (cs_CallID cs, cs_LocalTag cs, cs_RemoteTag cs)) in
    let sessionID := match cs_RecordingSession cs with Some s => or_else (rs_ID s) callID | None => callID end in
    sv <| sv_active := <[sessionID := data]> (sv_active sv) |>
  end.

(** ** INVITE *)

Definition generateTag (now : Time) : string := "tag-" +:+ itoa now.

Definition new_call e m : CallState := {|
  cs_CallID := ms_CallID m; cs_State := "trying"; cs_LocalTag := generateTag (en_now e 0%nat);
  cs_RemoteTag := ms_FromTag m; cs_RemoteCSeq := extractCSeqNumber (ms_CSeq m); cs_PendingAckCSeq := 0;
  cs_CreatedAt := en_now e 1%nat; cs_LastActivity := en_now e 2%nat; cs_SDP := "";
  cs_RecordingSession := None; cs_RTPForwarder := None; cs_RTPForwarders := []; cs_StreamForwarders := ∅;
  cs_OriginalInvite := Some m; cs_cancelled := false; cs_finalized := false
|}.

Definition max_calls : Z := if 0 <? sc_MaxConcurrentCalls cfg then sc_MaxConcurrentCalls cfg else 10000.

Definition set_session p (s : RecordingSession) sv : Server St :=
  update_call p (fun cs => cs <| cs_RecordingSession := Some s |>) sv.

Definition new_recording_session e m (md : RSMetadata) : RecordingSession :=
  createRecordingSession (en_clock e) li_format_utc (en_uuid e) (sc_Callbacks cfg) (ms_CallID m) md.

Fixpoint process_updates (now : Time) (sessionID : string) (l : list PolicyUpdate) (pm : PolicyManager) : PolicyManager :=
  match l with
  | [] => pm
  | u :: l => process_updates now sessionID l (ProcessPolicyUpdate now sessionID u pm).2
  end.

(** The decision for a session; without a policy manager everything is allowed. *)
Definition EvaluateRecordingPolicy e (s : RecordingSession) (md : RSMetadata) sv : PolicyDecision * Server St :=
  match sv_policy sv with
  | None => (mkPolicyDecision PolicyActionRecord "" "" true true true 0 0 0, sv)
  | Some pm =>
    let '(d, pm) := EvaluateSession (en_clock e) 0 (Some s) (Some md) pm in
    (d, sv <| sv_policy := Some pm |>)
  end.

Definition ProcessPolicyUpdates e (sessionID : string) (md : RSMetadata) sv : Server St :=
  sv <| sv_policy := process_updates (en_now e 3%nat) sessionID (md_PolicyUpdates md) <$> sv_policy sv |>.

Definition apply_decision (d : PolicyDecision) (s : RecordingSession) : RecordingSession :=
  let s := s <| rs_PolicyID := pd_PolicyID d |> in
  if 0 <? pd_RetentionDays d
  then s <| rs_RetentionPeriod := i64 (i64 (i64 (pd_RetentionDays d) * 24) * (3600 * second)) |> else s.

(** The metadata of an INVITE: the session and whether the call is rejected. *)
Definition invite_metadata e m p (rsMetadata : string) sv : option RecordingSession * Server St :=
  match parseSiprecMetadata li_decode (sc_Metadata cfg) rsMetadata m None with
  | inr _ => (None, sendResponse m 400 "" sv)
  | inl md =>
    let s := new_recording_session e m md in
    let s := default s (storeUUIAndXHeadersInSession (Some s) (Some m)) in
    let sv := set_session p s sv in
    let sv := match md_PolicyUpdates md with [] => sv | _ => ProcessPolicyUpdates e (rs_ID s) md sv end in
    let '(d, sv) := EvaluateRecordingPolicy e s md sv in
    if IsBlocked d then (None, sendResponse m 403 "" sv)
    else let s := apply_decision d s in (Some s, set_session p s sv)
  end.

(** The media of an INVITE: the body of the answer, none when the call is
    rejected. *)
Definition invite_media e m p (s : RecordingSession) (d : SessionDescription) sv : option (option string * Server St) :=
  match sc_Media cfg with
  | None => Some (None, sendResponse m 500 "" sv)
  | Some ms =>
    let streams := audio_streams d in
    if bool_decide (streams = []) then Some (None, sendResponse m 488 "" sv) else
    let '(l, ok, sv) := new_forwarders e (rtp_timeout (Some s) ms) (Some (rs_ID s)) 0 (List.length streams) sv in
    if negb ok then Some (None, sendResponse m 500 "" (cleanup_all e l sv)) else
    let sv := configure_encoders l sv in
    let sv := update_call p (fun cs => cs <| cs_RTPForwarders := l |> <| cs_RTPForwarder := head l |>
      <| cs_SDP := ms_Body m |>) sv in
    '(missing, sv) ← configure_all ms d (zip (map fst streams) l) sv;
    if missing : bool then Some (None, sendResponse m 488 "" (cleanup_all e l sv)) else
    let sv := set_session p (s <| rs_SDPStreamLabels := rs_SDPStreamLabels s ++ map snd streams |>) sv in
    let sv := start_all p (zip (map snd streams) l) sv in
    let fwds := omap (fun i => forwarder_at i sv) l in
    match li_marshal (generateSDPResponseForForwarders (se_Media ms) (en_now e 4%nat / 1000) (Some d) (en_mediaIP e) fwds) with
    | None => Some (None, sendResponse m 500 "" (cleanup_all e l sv))
    | Some body => Some (Some body, sv)
    end
  end.

Definition await_ack e k p sv : Server St :=
  update_call p (fun cs => cs <| cs_State := "awaiting_ack" |> <| cs_PendingAckCSeq := cs_RemoteCSeq cs |>
    <| cs_LastActivity := en_now e k |>) sv.

(** The final response: the SDP alone, or with the metadata of the session. *)
Definition accept_call e k m p (sdp : string) sv : bool * Server St :=
  match (if sc_Multipart cfg then call_at p sv ≫= cs_RecordingSession else None) with
  | Some s =>
    match generateSiprecResponse li_xml_Marshal (en_boundary e) (en_now e (S k)) sdp s with
    | (inr _, s) => (false, sendResponse m 500 "" (set_session p s sv))
    | (inl (_, body), s) => (true, sendResponse m 200 body (await_ack e k p (set_session p s sv)))
    end
  | None => (true, sendResponse m 200 sdp (await_ack e k p sv))
  end.

(** Whether the call is accepted; a rejected one got its response. *)
Definition process_invite e m p sv : option (bool * Server St) :=
  let '(sdpData, rsMetadata) := extractSiprecContent (ms_Body m) (ms_ContentType m) in
  if String.eqb sdpData "" then Some (false, sendResponse m 400 "" sv) else
  if String.eqb rsMetadata "" then Some (false, sendResponse m 400 "" sv) else
  let sv := update_call p (fun cs => cs <| cs_SDP := sdpData |>) sv in
  let '(session, sv) := invite_metadata e m p rsMetadata sv in
  match session with
  | None => Some (false, sv)
  | Some s =>
    match ParseSDPTolerant li_unmarshal sdpData with
    | None => Some (false, sendResponse m 488 "" sv)
    | Some d =>
      match sd_MediaDescriptions d with
      | [] => Some (false, sendResponse m 488 "" sv)
      | _ =>
        '(answer, sv) ← invite_media e m p s d sv;
        match answer with
        | None => Some (false, sv)
        | Some sdp => Some (accept_call e 5 m p sdp sv)
        end
      end
    end
  end.

Definition handleSiprecInvite e m sv : option (Server St) :=
  if max_calls <=? Z.of_nat (size (sv_callStates sv)) then Some (sendResponse m 503 "" sv) else
  let p := List.length (sv_calls sv) in
  let sv := sv <| sv_calls := sv_calls sv ++ [new_call e m] |> <| sv_callStates := <[ms_CallID m := p]> (sv_callStates sv) |> in
  let sv := sendResponse m 180 "" sv in
  let sv := update_call p (fun cs => cs <| cs_State := "early" |> <| cs_LastActivity := en_now e 3%nat |>) sv in
  '(accepted, sv) ← process_invite e m p sv;
  Some (if accepted : bool then syncCallToActiveList (ms_CallID m) p sv
        else finalizeCall e (ms_CallID m) p "failed" sv).

(** ** Re-INVITE *)

(** The metadata of a re-INVITE; none when it is rejected. *)
Definition reinvite_metadata e m p (rsMetadata : string) (cs : CallState) sv : option (Server St) :=
  if String.eqb rsMetadata "" then Some sv else
  match parseSiprecMetadata li_decode (sc_Metadata cfg) rsMetadata m (cs_RecordingSession cs) with
  | inr _ => None
  | inl md =>
    Some (set_session p (match cs_RecordingSession cs with
      | Some s => updateRecordingSession (en_clock e) s md
      | None => let s := new_recording_session e m md in default s (storeUUIAndXHeadersInSession (Some s) (Some m))
      end) sv)
  end.

Definition reset_ssrcs (l : list nat) sv : Server St := foldl (fun sv i => update_forwarder i ResetRemoteSSRC sv) sv l.

(** Forwarders that have stopped are forgotten. *)
Definition forget_dead sv (cs : CallState) : CallState :=
  cs <| cs_RTPForwarder := cs_RTPForwarder cs ≫= fun i => if is_stopped sv i then None else Some i |>
     <| cs_RTPForwarders := List.filter (fun i => negb (is_stopped sv i)) (cs_RTPForwarders cs) |>
     <| cs_StreamForwarders := filter (fun kv => is_stopped sv kv.2 = false) (cs_StreamForwarders cs) |>.

Definition set_forwarders (l : list nat) (cs : CallState) : CallState :=
  cs <| cs_RTPForwarders := l |>
     <| cs_RTPForwarder := match l with [] => cs_RTPForwarder cs | i :: _ => Some i end |>
     <| cs_StreamForwarders := ∅ |>.

Definition set_stream p (label : string) i sv : Server St :=
  update_call p (fun cs => cs <| cs_StreamForwarders := <[label := i]> (cs_StreamForwarders cs) |>) sv.

(** Until a key is missing, with the streams under their labels. *)
Fixpoint reconfigure_all (ms : MediaSettings) (d : SessionDescription) p (l : list (MediaDescription * string * nat)) sv
    : option (bool * Server St) :=
  match l with
  | [] => Some (false, sv)
  | (md, label, i) :: l =>
    '(missing, sv) ← configure_one ms d md i sv;
    let sv := set_stream p label i sv in
    if missing : bool then Some (true, sv) else reconfigure_all ms d p l sv
  end.

Definition set_legs p (l : list nat) sv : Server St :=
  foldl (fun sv '(label, i) => set_stream p label i sv) sv (imap (fun k i => (leg_label k, i)) l).

Definition response_sdp e (ms : MediaSettings) (parsed : option SessionDescription) (l : list nat) sv : string :=
  let fwds := omap (fun i => forwarder_at i sv) l in
  match parsed with
  | Some d => default "" (li_marshal (generateSDPResponseForForwarders (se_Media ms) (en_now e 4%nat / 1000) (Some d) (en_mediaIP e) fwds))
  | None => generateSiprecSDP (en_now e 4%nat) (en_mediaIP e) (match fwds with f :: _ => fw_LocalPort f | [] => 0 end)
  end.

(** The media of a re-INVITE; no answer when it is rejected. *)
Definition reinvite_media e m p (sdpData : string) (cs : CallState) sv : option (option string * Server St) :=
  match sc_Media cfg with
  | None => Some (None, sendResponse m 500 "" sv)
  | Some ms =>
    let parsed := if String.eqb sdpData "" then None else ParseSDPTolerant li_unmarshal sdpData in
    let streams := match parsed with Some d => audio_streams d | None => [] end in
    let labels := match streams with [] => ["leg0"] | _ => map snd streams end in
    let existing := call_forwarders cs in
    let '(created, ok, sv) := new_forwarders e (rtp_timeout (cs_RecordingSession cs) ms) (rs_ID <$> cs_RecordingSession cs) 0
      (List.length labels - List.length existing) sv in
    if negb ok then Some (None, sendResponse m 500 "" sv) else
    let l := take (List.length labels) (existing ++ created) in
    let sv := stop_all e (drop (List.length labels) (existing ++ created)) sv in
    let sv := start_all p (zip (drop (List.length existing) labels) created) sv in
    let sv := update_call p (set_forwarders l) sv in
    '(missing, sv) ← match parsed with
                     | Some d => reconfigure_all ms d p (zip streams l) sv
                     | None => Some (false, set_legs p l sv)
                     end;
    if missing : bool then Some (None, sendResponse m 488 "" sv)
    else Some (Some (response_sdp e ms parsed l sv), sv)
  end.

Definition handleSiprecReInvite e m p sv : option (Server St) :=
  let '(sdpData, rsMetadata) := extractSiprecContent (ms_Body m) (ms_ContentType m) in
  cs ← call_at p sv;
  match reinvite_metadata e m p rsMetadata cs sv with
  | None => Some (sendResponse m 400 "" sv)
  | Some sv =>
    let sv := if String.eqb sdpData "" then sv
              else reset_ssrcs (call_forwarders cs) (update_call p (fun cs => cs <| cs_SDP := sdpData |>) sv) in
    let sv := update_call p (fun cs => cs <| cs_RemoteCSeq := extractCSeqNumber (ms_CSeq m) |>
      <| cs_LastActivity := en_now e 2%nat |>) sv in
    let sv := update_call p (forget_dead sv) sv in
    cs ← call_at p sv;
    '(answer, sv) ← match cs_RTPForwarder cs, String.eqb sdpData "" with
                    | None, true => Some (Some (generateSiprecSDP (en_now e 4%nat) (en_mediaIP e) 0), sv)
                    | _, _ => reinvite_media e m p sdpData cs sv
                    end;
    match answer with
    | None => Some sv
    | Some sdp => Some (accept_call e 5 m p sdp sv).2
    end
  end.

Definition handleRegularInvite m sv : Server St := sendResponse m 403 "" sv.

Definition handleInviteMessage e (verdict : admission) m sv : option (Server St) :=
  let m := extractVendorInformation m in
  match verdict with
  | RateLimited => Some (sendResponse m 503 "" sv)
  | Challenged => Some (sendResponse m 401 "" sv)
  | Blocked => Some (sendResponse m 403 "" sv)
  | Allowed =>
    let multipart := contains (to_lower (getHeader m "content-type")) "multipart/mixed" in
    match getCallState (ms_CallID m) sv with
    | Some p => if multipart then handleSiprecReInvite e m p sv else Some (handleRegularInvite m sv)
    | None =>
      let sv := sendResponse m 100 "" sv in
      if multipart then handleSiprecInvite e m sv else Some (handleRegularInvite m sv)
    end
  end.

(** ** BYE, CANCEL, PRACK and ACK *)

Definition end_by (now : Time) (state reason : string) (ended : option Time) (s : RecordingSession) : RecordingSession :=
  ext_set "termination_reason" reason
    (s <| rs_RecordingState := state |> <| rs_EndTime := default (rs_EndTime s) ended |> <| rs_UpdatedAt := now |>).

Definition handleByeMessage e m sv : Server St :=
  let seq := (parseCSeq (ms_CSeq m)).1 in
  match getCallState (ms_CallID m) sv with
  | None => sendResponse m 481 "" sv
  | Some p =>
    match call_at p sv with
    | None => sv
    | Some cs =>
      if negb (String.eqb (cs_LocalTag cs) "") && negb (String.eqb (ms_ToTag m) "") && negb (String.eqb (ms_ToTag m) (cs_LocalTag cs))
      then sendResponse m 481 "" sv
      else if negb (String.eqb (cs_State cs) "connected") && negb (String.eqb (cs_State cs) "terminating") &&
              negb (String.eqb (cs_State cs) "awaiting_ack")
      then sendResponse m 481 "" sv
      else if negb (seq =? 0) && (seq <=? cs_RemoteCSeq cs)
      then sendResponse m 400 "" sv
      else
        let sv := update_call p (fun cs =>
          (if seq =? 0 then cs else cs <| cs_RemoteCSeq := seq |>)
            <| cs_PendingAckCSeq := 0 |> <| cs_State := "terminating" |> <| cs_LastActivity := en_now e 2%nat |>) sv in
        let sv := sendResponse m 200 "" sv in
        let sv := update_call p (fun cs => cs <| cs_RecordingSession :=
          end_by (en_now e 4%nat) "terminated" "bye_received" (Some (en_now e 3%nat)) <$> cs_RecordingSession cs |>) sv in
        finalizeCall e (ms_CallID m) p "terminated" sv
    end
  end.

Definition handleCancelMessage e m sv : Server St :=
  let found := getCallState (ms_CallID m) sv in
  let sv := sendResponse m 200 "" sv in
  match found with
  | None => sv
  | Some p =>
    match call_at p sv with
    | None => sv
    | Some cs =>
      if String.eqb (cs_State cs) "connected" || String.eqb (cs_State cs) "terminated" then sv else
      let sv := match cs_OriginalInvite cs with Some invite => sendResponse invite 487 "" sv | None => sv end in
      let sv := update_call p (fun cs => cs <| cs_RecordingSession :=
        end_by (en_now e 2%nat) "cancelled" "cancelled" None <$> cs_RecordingSession cs |>) sv in
      finalizeCall e (ms_CallID m) p "cancelled" sv
    end
  end.

(** A request of the dialog counts as activity. *)
Definition touch (now : Time) p sv : Server St := update_call p (fun cs => cs <| cs_LastActivity := now |>) sv.

Definition handlePrackMessage e m sv : Server St :=
  let sv := match getCallState (ms_CallID m) sv with
            | Some p => update_call p (fun cs =>
                let cs := cs <| cs_LastActivity := en_now e 0%nat |> in
                if String.eqb (cs_State cs) "early" then cs <| cs_State := "proceeding" |> else cs) sv
            | None => sv
            end in
  sendResponse m 200 "" sv.

Definition handleAckMessage e m sv : Server St :=
  let seq := (parseCSeq (ms_CSeq m)).1 in
  match getCallState (ms_CallID m) sv with
  | None => sv
  | Some p => update_call p (fun cs =>
      (if seq =? 0 then cs else cs <| cs_RemoteCSeq := seq |>)
        <| cs_PendingAckCSeq := 0 |> <| cs_State := "connected" |> <| cs_LastActivity := en_now e 0%nat |>) sv
  end.

(** ** SUBSCRIBE *)

Definition callback_url m : string :=
  let url := trim_space (getHeader m "x-callback-url") in
  let url := or_else url (trim_space (getHeader m "callback-url")) in
  if String.eqb url "" then
    let body := trim_space (ms_Body m) in
    if has_prefix (to_lower body) "http://" || has_prefix (to_lower body) "https://" then body else ""
  else url.

Definition RegisterCallEndpoint (callID endpoint : string) sv : Server St :=
  let trimmed := trim_space endpoint in
  let known := default [] (sv_endpoints sv !! callID) in
  if String.eqb callID "" || String.eqb trimmed "" || negb (li_callback_ok trimmed) ||
     (maxEndpointsPerCall <=? List.length known)%nat
  then sv else sv <| sv_endpoints := <[callID := known ++ [trimmed]]> (sv_endpoints sv) |>.

Definition add_callback (url : string) (s : RecordingSession) : RecordingSession :=
  if (List.length (rs_Callbacks s) <? maxEndpointsPerCall)%nat then s <| rs_Callbacks := rs_Callbacks s ++ [url] |> else s.

Definition handleSubscribeMessage e m sv : Server St :=
  match getCallState (ms_CallID m) sv with
  | None => sendResponse m 481 "" sv
  | Some p =>
    let url := callback_url m in
    if String.eqb url "" then sendResponse m 400 "" sv
    else if negb (li_callback_ok url) then sendResponse m 400 "" sv
    else
      let sv := if sc_Notifier cfg then RegisterCallEndpoint (ms_CallID m) url sv else sv in
      let sv := update_call p (fun cs => cs <| cs_RecordingSession := add_callback url <$> cs_RecordingSession cs |>
        <| cs_LastActivity := en_now e 0%nat |>) sv in
      sendResponse m 202 "" sv
  end.

(** ** UPDATE *)

Definition is_hold (d : SessionDescription) : bool :=
  existsb (fun md => match address_of (md_ConnectionInformation md) with Some a => String.eqb a "0.0.0.0" | None => false end ||
    existsb (fun a => String.eqb (at_Key a) "sendonly" || String.eqb (at_Key a) "inactive") (md_Attributes md))
    (sd_MediaDescriptions d).

(** An operation that may panic, on each of some forwarders. *)
Fixpoint each_forwarder (f : RTPForwarder -> option RTPForwarder) (l : list nat) sv : option (Server St) :=
  match l with
  | [] => Some sv
  | i :: l =>
    match forwarder_at i sv with
    | None => each_forwarder f l sv
    | Some fw => fw ← f fw; each_forwarder f l (sv <| sv_forwarders := <[i := fw]> (sv_forwarders sv) |>)
    end
  end.

Definition update_metadata e m p (cs : CallState) sv : Server St :=
  let contentType := getHeaderValue m "Content-Type" in
  let lower := to_lower contentType in
  match cs_RecordingSession cs with
  | None => sv
  | Some s =>
    if String.eqb (ms_Body m) "" then sv else
    let rsMetadata := if contains lower "rs-metadata" && negb (has_prefix lower "multipart/") then ms_Body m
                      else if has_prefix lower "multipart/" then (extractSiprecContent (ms_Body m) contentType).2 else "" in
    if String.eqb rsMetadata "" then sv else
    match parseSiprecMetadata li_decode (sc_Metadata cfg) rsMetadata m (Some s) with
    | inr _ => sv
    | inl md => set_session p (updateRecordingSession (en_clock e) s md) sv
    end
  end.

Definition handleUpdateMessage e m sv : option (Server St) :=
  match getCallState (ms_CallID m) sv with
  | None => Some (sendResponse m 481 "" sv)
  | Some p =>
    let sv := touch (en_now e 0%nat) p sv in
    cs ← call_at p sv;
    let sv := update_metadata e m p cs sv in
    let has_sdp := negb (String.eqb (ms_Body m) "") && contains (to_lower (getHeaderValue m "Content-Type")) "application/sdp" in
    if negb has_sdp then Some (sendResponse m 200 "" sv) else
    match ParseSDPTolerant li_unmarshal (ms_Body m) with
    | None => Some (sendResponse m 400 "" sv)
    | Some d =>
      let l := call_forwarders cs in
      sv ← (if is_hold d then each_forwarder (Pause (en_now e 1%nat) false true) l sv
            else sv ← each_forwarder Resume l sv; Some (reset_ssrcs l sv));
      let sv := update_call p (fun cs => cs <| cs_SDP := ms_Body m |>) sv in
      match l with
      | [] => Some (sendResponse m 200 "" sv)
      | _ => ms ← sc_Media cfg; Some (sendResponse m 200 (response_sdp e ms (Some d) l sv) sv)
      end
    end
  end.

(** ** INFO, REFER, NOTIFY, MESSAGE and OPTIONS *)

(** The digit of a DTMF body. *)
Definition dtmf_digit (body : string) : string :=
  if contains body "Signal=" then
    match List.find (fun line => has_prefix line "Signal=") (map trim_space (split_on (ascii_of_N 10) body)) with
    | Some line => trim_space (trim_prefix line "Signal=")
    | None => ""
    end
  else trim_space body.

Definition handleInfoMessage e m sv : Server St :=
  match getCallState (ms_CallID m) sv with
  | None => sendResponse m 481 "" sv
  | Some p => sendResponse m 200 "" (touch (en_now e 0%nat) p sv)
  end.

Definition handleReferMessage e m sv : Server St :=
  match getCallState (ms_CallID m) sv with
  | None => sendResponse m 481 "" sv
  | Some p =>
    let sv := touch (en_now e 0%nat) p sv in
    if String.eqb (getHeaderValue m "Refer-To") "" then sendResponse m 400 "" sv else sendResponse m 202 "" sv
  end.

Definition handleNotifyMessage e m sv : Server St :=
  match getCallState (ms_CallID m) sv with
  | None => sendResponse m 481 "" sv
  | Some p => sendResponse m 200 "" (touch (en_now e 0%nat) p sv)
  end.

Definition handleMessageMessage e m sv : Server St :=
  let sv := match getCallState (ms_CallID m) sv with Some p => touch (en_now e 0%nat) p sv | None => sv end in
  sendResponse m 200 "" sv.

Definition handleOptionsMessage m sv : Server St := sendResponse m 200 "" sv.

Definition handleTransactionRequest e (method : string) (verdict : admission) (req : SipgoMessage) sv : option (Server St) :=
  let m := wrapRequest req in
  let method := to_upper method in
  if String.eqb method "INVITE" then handleInviteMessage e verdict m sv
  else if String.eqb method "PRACK" then Some (handlePrackMessage e m sv)
  else if String.eqb method "ACK" then Some (handleAckMessage e m sv)
  else if String.eqb method "BYE" then Some (handleByeMessage e m sv)
  else if String.eqb method "CANCEL" then Some (handleCancelMessage e m sv)
  else if String.eqb method "OPTIONS" then Some (handleOptionsMessage m sv)
  else if String.eqb method "SUBSCRIBE" then Some (handleSubscribeMessage e m sv)
  else if String.eqb method "UPDATE" then handleUpdateMessage e m sv
  else if String.eqb method "INFO" then Some (handleInfoMessage e m sv)
  else if String.eqb method "REFER" then Some (handleReferMessage e m sv)
  else if String.eqb method "NOTIFY" then Some (handleNotifyMessage e m sv)
  else if String.eqb method "MESSAGE" then Some (handleMessageMessage e m sv)
  else Some (sendResponse m 501 "" sv).

(** ** The reaper *)

Definition stale_reason (now : Time) (cs : CallState) : option string :=
  let idle := now - cs_LastActivity cs in
  let over := negb (String.eqb (cs_State cs) "terminated") && negb (String.eqb (cs_State cs) "terminating") in
  if String.eqb (cs_State cs) "awaiting_ack" && (InviteTimeout <? idle) then Some "ack_timeout"
  else if String.eqb (cs_State cs) "early" && (InviteTimeout <? idle) then Some "early_timeout"
  else if (SessionIdleTimeout <? idle) && over then Some "idle_timeout"
  else if negb (now - cs_CreatedAt cs <=? MaxSessionDuration) && over then Some "max_duration_exceeded"
  else None.

(** The stale calls, collected before any is ended. *)
Definition stale_calls e sv : list (string * nat * string) :=
  omap (fun '(callID, p) => cs ← call_at p sv; reason ← stale_reason (en_now e 5%nat) cs; Some (callID, p, reason))
    (map_range 1 (sv_callStates sv)).

Definition reap e (l : list (string * nat * string)) sv : Server St :=
  foldl (fun sv '(callID, p, reason) => finalizeCall e callID p reason sv) sv l.

Definition reapStaleDialogs e sv : Server St := reap e (stale_calls e sv) sv.

(** ** The list of active calls *)

Definition IsStale (now : Time) (timeout : Duration) (d : CallData) : bool := timeout <? now - cd_LastActivity d.

Definition drop_active e (id : string) (d : CallData) sv : Server St :=
  let sv := match cd_Forwarder d with Some i => cleanup_forwarder e i sv | None => sv end in
  sv <| sv_active := delete id (sv_active sv) |>.

Definition cleanupStaleSessions e (timeout : Duration) sv : Server St :=
  foldl (fun sv '(id, d) => drop_active e id d sv) sv
    (List.filter (fun '(_, d) => IsStale (en_now e 1%nat) timeout d) (map_range 2 (sv_active sv))).

Definition stop_session (now : Time) (s : RecordingSession) : RecordingSession :=
  s <| rs_RecordingState := "stopped" |> <| rs_EndTime := now |>.

Definition CleanupActiveCalls e sv : Server St :=
  foldl (fun sv '(id, d) => drop_active e id d
      (update_call (cd_Call d) (fun cs => cs <| cs_RecordingSession := stop_session (en_now e 1%nat) <$> cs_RecordingSession cs |>) sv))
    sv (map_range 3 (sv_active sv)).

(** The pause service: no result means a panic, [inr] an unknown session. *)
Definition on_active (f : RTPForwarder -> option RTPForwarder) (id : string) sv : option (Server St + unit) :=
  match sv_active sv !! id with
  | None => Some (inr ())
  | Some d => sv ← each_forwarder f (option_list (cd_Forwarder d)) sv; Some (inl sv)
  end.

Definition PauseSession e (id : string) (recording transcription : bool) sv : option (Server St + unit) :=
  on_active (Pause (en_now e 0%nat) recording transcription) id sv.
Definition ResumeSession (id : string) sv : option (Server St + unit) := on_active Resume id sv.
Definition MuteSession e (id : string) (inbound outbound : bool) sv : option (Server St + unit) :=
  on_active (Mute (en_now e 0%nat) inbound outbound) id sv.
Definition UnmuteSession (id : string) (inbound outbound : bool) sv : option (Server St + unit) :=
  on_active (Unmute inbound outbound) id sv.

(** ** Shutdown *)

(** The forwarders of the calls in the map are stopped and the map is emptied. *)
Definition Shutdown e sv : Server St :=
  let sv := foldl (fun sv '(_, p) => match call_at p sv with Some cs => stop_all e (call_forwarders cs) sv | None => sv end)
    sv (map_range 4 (sv_callStates sv)) in
  sv <| sv_callStates := ∅ |>.
End server.
