(* ===== verification/DialogInv.v ===== *)
(** * The invariant of the server

    Ports, forwarders and calls under the handlers of [Dialog].  Two records hold
    the invariant: [books], that the ports in use are exactly those of the
    forwarders that have not been cleaned up, no two of which share one; and
    [table], that the map of calls, the calls and the goroutines account for every
    such forwarder.  What a handler does between the steps that matter for them
    is [quiet]; the other steps have a lemma each. *)

From S2P Require Import Prelude GoStrings GoText Metadata Session Validation Policy Fill SipMessage Vendor SipSession.
From S2P Require Import RtpStats LruCache PortManager Ports PauseIO Forwarder WavFile AudioDecode WavCombine Sdp Dialog.
From Stdlib Require Import Ascii String.
#[local] Open Scope string_scope.
#[local] Open Scope list_scope.
#[local] Open Scope Z_scope.

(** ** What the invariant reads *)

Definition fw_ports (f : RTPForwarder) : gset Z := {[fw_LocalPort f; fw_RTCPPort f]}.

Record same_port (f g : RTPForwarder) : Prop := {
  sp_LocalPort : fw_LocalPort g = fw_LocalPort f;
  sp_RTCPPort : fw_RTCPPort g = fw_RTCPPort f;
  sp_clean : fw_isCleanedUp g = fw_isCleanedUp f;
  sp_stopped : fw_stopped g = fw_stopped f
}.

#[export] Instance same_port_preorder : PreOrder same_port.
Proof.
  split; [by intros f; split|]. intros f g h [A1 A2 A3 A4] [B1 B2 B3 B4]. split; congruence.
Qed.

Record same_call (c d : CallState) : Prop := {
  sc_id : cs_CallID d = cs_CallID c;
  sc_final : cs_finalized d = cs_finalized c;
  sc_primary : cs_RTPForwarder d = cs_RTPForwarder c;
  sc_forwarders : cs_RTPForwarders d = cs_RTPForwarders c;
  sc_streams : cs_StreamForwarders d = cs_StreamForwarders c
}.

#[export] Instance same_call_preorder : PreOrder same_call.
Proof.
  split; [by intros f; split|]. intros f g h [A1 A2 A3 A4 A5] [B1 B2 B3 B4 B5]. split; congruence.
Qed.

(** A call whose forwarders exist, once each; the primary one and those of the
    streams are among them, and a finished call has none. *)
Record call_ok (n : nat) (cs : CallState) : Prop := {
  ck_range i : i ∈ cs_RTPForwarders cs -> (i < n)%nat;
  ck_distinct : NoDup (cs_RTPForwarders cs);
  ck_primary i : cs_RTPForwarder cs = Some i -> i ∈ cs_RTPForwarders cs;
  ck_streams label i : cs_StreamForwarders cs !! label = Some i -> i ∈ cs_RTPForwarders cs;
  ck_final : cs_finalized cs = true -> cs_RTPForwarders cs = []
}.

Lemma call_ok_same n c d : same_call c d -> call_ok n c -> call_ok n d.
Proof. intros [E1 E2 E3 E4 E5] [A B C D F]. split; rewrite ?E1, ?E2, ?E3, ?E4, ?E5; done. Qed.

Lemma call_ok_le n n' c : (n <= n')%nat -> call_ok n c -> call_ok n' c.
Proof. intros Hn [A B C D F]. split; try done. intros i Hi. specialize (A i Hi). lia. Qed.

(** The forwarders of a sound call are the listed ones. *)
Lemma call_forwarders_ok n c : call_ok n c -> call_forwarders c = cs_RTPForwarders c.
Proof.
  intros [A B C D F]. unfold call_forwarders. destruct (cs_RTPForwarders c) as [|x l]; [|done].
  destruct (cs_RTPForwarder c) as [i|]; [|done]. specialize (C i eq_refl). by apply elem_of_nil in C.
Qed.

Section inv.
Context {St : Type}.
Implicit Types (sv : Server St) (p i : nat).

Record quiet sv sv' : Prop := {
  q_platform : sv_platform sv' = sv_platform sv;
  q_table : sv_callStates sv' = sv_callStates sv;
  q_running : sv_running sv' = sv_running sv;
  q_calls : Forall2 same_call (sv_calls sv) (sv_calls sv');
  q_forwarders : Forall2 same_port (sv_forwarders sv) (sv_forwarders sv')
}.

#[export] Instance quiet_preorder : PreOrder quiet.
Proof.
  split.
  - intros sv. split; [done..| |]; by reflexivity.
  - intros a b c [A1 A2 A3 A4 A5] [B1 B2 B3 B4 B5]. split; [congruence..| |]; by etrans.
Qed.

Lemma quiet_call sv sv' p cs' : quiet sv sv' -> call_at p sv' = Some cs' ->
  exists cs, call_at p sv = Some cs /\ same_call cs cs'.
Proof.
  intros [_ _ _ Hc _] Hp. destruct (Forall2_lookup_r _ _ _ _ _ Hc Hp) as (cs & H1 & H2). by exists cs.
Qed.

Lemma quiet_call_l sv sv' p cs : quiet sv sv' -> call_at p sv = Some cs ->
  exists cs', call_at p sv' = Some cs' /\ same_call cs cs'.
Proof.
  intros [_ _ _ Hc _] Hp. destruct (Forall2_lookup_l _ _ _ _ _ Hc Hp) as (cs' & H1 & H2). by exists cs'.
Qed.

Lemma quiet_forwarder sv sv' i f' : quiet sv sv' -> forwarder_at i sv' = Some f' ->
  exists f, forwarder_at i sv = Some f /\ same_port f f'.
Proof.
  intros [_ _ _ _ Hf] Hi. destruct (Forall2_lookup_r _ _ _ _ _ Hf Hi) as (f & H1 & H2). by exists f.
Qed.

Lemma quiet_forwarder_l sv sv' i f : quiet sv sv' -> forwarder_at i sv = Some f ->
  exists f', forwarder_at i sv' = Some f' /\ same_port f f'.
Proof.
  intros [_ _ _ _ Hf] Hi. destruct (Forall2_lookup_l _ _ _ _ _ Hf Hi) as (f' & H1 & H2). by exists f'.
Qed.

Lemma same_port_ports f g : same_port f g -> fw_ports g = fw_ports f.
Proof. intros [A B _ _]. unfold fw_ports. by rewrite A, B. Qed.

(** Changes of a call or a forwarder that the invariant does not see. *)
Lemma quiet_update_call p g sv : (forall cs, same_call cs (g cs)) -> quiet sv (update_call p g sv).
Proof.
  intros Hg. destruct sv. split; [done..| |reflexivity]. cbn. apply Forall2_same_length_lookup_2; [by rewrite length_alter|].
  intros i x y Hx. rewrite list_lookup_alter. case_decide; subst; rewrite Hx; intros [= <-]; [apply Hg|done].
Qed.

Lemma quiet_update_forwarder i g sv : (forall f, same_port f (g f)) -> quiet sv (update_forwarder i g sv).
Proof.
  intros Hg. destruct sv. split; [done..|reflexivity|]. cbn. apply Forall2_same_length_lookup_2; [by rewrite length_alter|].
  intros j x y Hx. rewrite list_lookup_alter. case_decide; subst; rewrite Hx; intros [= <-]; [apply Hg|done].
Qed.

Lemma quiet_set_forwarder i f g sv : forwarder_at i sv = Some f -> same_port f g ->
  quiet sv (sv <| sv_forwarders := <[i := g]> (sv_forwarders sv) |>).
Proof.
  intros Hf Hg. destruct sv. split; [done..|reflexivity|]. cbn. apply Forall2_same_length_lookup_2; [by rewrite length_insert|].
  intros j x y Hx. rewrite list_lookup_insert. case_decide; [|rewrite Hx; by intros [= <-]].
  intros [= <-]. destruct H as [<- _]. unfold forwarder_at in Hf. cbn in Hf. rewrite Hf in Hx. by injection Hx as <-.
Qed.

(** What else a handler touches. *)
Lemma quiet_fields sv sv' : sv_callStates sv' = sv_callStates sv -> sv_calls sv' = sv_calls sv ->
  sv_forwarders sv' = sv_forwarders sv -> sv_running sv' = sv_running sv -> sv_platform sv' = sv_platform sv -> quiet sv sv'.
Proof. intros A B C D E. split; [done..|by rewrite B|by rewrite C]. Qed.

Lemma quiet_send m status body sv : quiet sv (sendResponse m status body sv).
Proof.
  unfold sendResponse. destruct (ms_Transaction m), (ms_Request m); try reflexivity. destruct sv. by apply quiet_fields.
Qed.

Lemma quiet_fold {A} (step : Server St -> A -> Server St) l sv :
  (forall sv x, quiet sv (step sv x)) -> quiet sv (foldl step sv l).
Proof. intros Hs. revert sv. induction l as [|x l IH]; intros sv; [reflexivity|]. cbn. etrans; [apply Hs|apply IH]. Qed.
End inv.

(** Operations on a forwarder that leave its ports and its life alone. *)
Create HintDb quiet.

(** ** The invariant *)

Section invariant.
Context `{PortAllocator St Oracle}.
Implicit Types (sv : Server St) (e : Env Oracle) (p i j : nat) (l : list nat).

Definition ports_of sv : St := pl_ports (sv_platform sv).

(** The ports in use are those of the forwarders not cleaned up. *)
Record books sv : Prop := {
  bk_ports : pa_inv (ports_of sv);
  bk_pair i f : forwarder_at i sv = Some f -> 0 < fw_LocalPort f /\ fw_RTCPPort f = fw_LocalPort f + 1;
  bk_used x : x ∈ pa_used (ports_of sv) <->
    exists i f, forwarder_at i sv = Some f /\ fw_isCleanedUp f = false /\ x ∈ fw_ports f;
  bk_apart i j f g : forwarder_at i sv = Some f -> forwarder_at j sv = Some g -> i <> j ->
    fw_isCleanedUp f = false -> fw_isCleanedUp g = false -> fw_ports f ## fw_ports g
}.

(** A forwarder of a call in the map. *)
Definition referenced sv i : Prop :=
  exists id p cs, sv_callStates sv !! id = Some p /\ call_at p sv = Some cs /\ i ∈ cs_RTPForwarders cs.

(** Every forwarder not cleaned up is in [l], runs, or belongs to a call. *)
Record table l sv : Prop := {
  tb_table id p : sv_callStates sv !! id = Some p ->
    exists cs, call_at p sv = Some cs /\ cs_CallID cs = id /\ cs_finalized cs = false;
  tb_call p cs : call_at p sv = Some cs -> call_ok (List.length (sv_forwarders sv)) cs;
  tb_single p q cs cs' i : call_at p sv = Some cs -> call_at q sv = Some cs' ->
    i ∈ cs_RTPForwarders cs -> i ∈ cs_RTPForwarders cs' -> p = q;
  tb_running i : i ∈ sv_running sv -> (i < List.length (sv_forwarders sv))%nat;
  tb_stopped i f : forwarder_at i sv = Some f -> fw_stopped f = true -> fw_isCleanedUp f = true \/ i ∈ sv_running sv;
  tb_owned i f : forwarder_at i sv = Some f -> fw_isCleanedUp f = false ->
    i ∈ l \/ i ∈ sv_running sv \/ referenced sv i
}.

Lemma books_quiet sv sv' : quiet sv sv' -> books sv -> books sv'.
Proof.
  intros Hq [A B C D]. unfold ports_of in *. pose proof (q_platform _ _ Hq) as Hp. split; unfold ports_of; rewrite ?Hp; [done|..].
  - intros i f' Hf. destruct (quiet_forwarder _ _ _ _ Hq Hf) as (f & Hf0 & [E1 E2 _ _]). rewrite E1, E2. by eapply B.
  - intros x. rewrite C. split; intros (i & f & Hf & Hc & Hx).
    + destruct (quiet_forwarder_l _ _ _ _ Hq Hf) as (f' & Hf' & Hs). exists i, f'. split; [done|].
      rewrite (same_port_ports _ _ Hs). by destruct Hs as [_ _ -> _].
    + destruct (quiet_forwarder _ _ _ _ Hq Hf) as (f' & Hf' & Hs). exists i, f'. split; [done|].
      rewrite <- (same_port_ports _ _ Hs). by destruct Hs as [_ _ <- _].
  - intros i j f g Hf Hg Hij Hcf Hcg. destruct (quiet_forwarder _ _ _ _ Hq Hf) as (f0 & Hf0 & Hs).
    destruct (quiet_forwarder _ _ _ _ Hq Hg) as (g0 & Hg0 & Hs').
    rewrite (same_port_ports _ _ Hs), (same_port_ports _ _ Hs'). apply (D i j); try done.
    + by rewrite <- (sp_clean _ _ Hs).
    + by rewrite <- (sp_clean _ _ Hs').
Qed.

Lemma referenced_quiet sv sv' i : quiet sv sv' -> referenced sv i -> referenced sv' i.
Proof.
  intros Hq (id & p & cs & H1 & H2 & H3). destruct (quiet_call_l _ _ _ _ Hq H2) as (cs' & H4 & Hs).
  exists id, p, cs'. rewrite (q_table _ _ Hq), (sc_forwarders _ _ Hs). done.
Qed.

Lemma table_quiet l sv sv' : quiet sv sv' -> table l sv -> table l sv'.
Proof.
  intros Hq [A B C D E F]. pose proof (Forall2_length _ _ _ (q_forwarders _ _ Hq)) as Hlen.
  split; rewrite ?(q_table _ _ Hq), ?(q_running _ _ Hq), <- ?Hlen; [..|done| |].
  - intros id p Hp. destruct (A id p Hp) as (cs & H1 & H2 & H3). destruct (quiet_call_l _ _ _ _ Hq H1) as (cs' & H4 & Hs).
    exists cs'. by rewrite (sc_id _ _ Hs), (sc_final _ _ Hs).
  - intros p cs' Hp. destruct (quiet_call _ _ _ _ Hq Hp) as (cs & H1 & Hs). by eapply call_ok_same, B.
  - intros p q c d i Hc Hd. destruct (quiet_call _ _ _ _ Hq Hc) as (c0 & H1 & Hs).
    destruct (quiet_call _ _ _ _ Hq Hd) as (d0 & H2 & Hs'). rewrite (sc_forwarders _ _ Hs), (sc_forwarders _ _ Hs'). by apply C.
  - intros i f' Hf. destruct (quiet_forwarder _ _ _ _ Hq Hf) as (f & H1 & [_ _ -> ->]). by apply E.
  - intros i f' Hf. destruct (quiet_forwarder _ _ _ _ Hq Hf) as (f & H1 & [_ _ -> _]). intros Hc.
    destruct (F i f H1 Hc) as [?|[?|Hr]]; [by left|by right; left|right; right; by eapply referenced_quiet].
Qed.

Lemma table_weaken l l' sv : (forall i, i ∈ l -> i ∈ l') -> table l sv -> table l' sv.
Proof. intros Hl [A B C D E F]. split; try done. intros i f Hf Hc. destruct (F i f Hf Hc) as [?|?]; [left; by apply Hl|by right]. Qed.

(** ** Cleaning up *)

(** The forwarders [ids] are cleaned up, the others keep what matters. *)
Record cleans (ids : list nat) sv sv' : Prop := {
  cl_books : books sv -> books sv';
  cl_length : List.length (sv_forwarders sv') = List.length (sv_forwarders sv);
  cl_forwarder i f' : forwarder_at i sv' = Some f' ->
    exists f, forwarder_at i sv = Some f /\ fw_ports f' = fw_ports f /\
      (i ∈ ids -> fw_isCleanedUp f' = true) /\ (i ∉ ids -> same_port f f');
  cl_running i : i ∈ sv_running sv' -> i ∈ sv_running sv;
  cl_others i : i ∈ sv_running sv -> i ∉ ids -> i ∈ sv_running sv'
}.

Lemma cleans_quiet sv sv' : sv_platform sv' = sv_platform sv -> sv_forwarders sv' = sv_forwarders sv ->
  sv_running sv' = sv_running sv -> cleans [] sv sv'.
Proof.
  intros H1 H2 H3. split; [|by rewrite H2|..].
  - intros [A B C D]. unfold ports_of, forwarder_at in *. split; unfold ports_of, forwarder_at; by rewrite ?H1, ?H2.
  - unfold forwarder_at. rewrite H2. intros i f Hf. exists f. split_and!; try done. by intros ?%elem_of_nil.
  - by rewrite H3.
  - by rewrite H3.
Qed.

Lemma cleans_trans a b sv1 sv2 sv3 : cleans a sv1 sv2 -> cleans b sv2 sv3 -> cleans (a ++ b) sv1 sv3.
Proof.
  intros [A1 A2 A3 A4 A5] [B1 B2 B3 B4 B5]. split; [auto|congruence| |auto|].
  - intros i f'' Hf. destruct (B3 i f'' Hf) as (f' & Hf' & Hp & Hb & Hb'). destruct (A3 i f' Hf') as (f & Hf0 & Hp' & Ha & Ha').
    exists f. split_and!; [done|congruence| |].
    + intros Hin. destruct (decide (i ∈ b)) as [?|Hn]; [by apply Hb|]. rewrite (sp_clean _ _ (Hb' Hn)). apply Ha.
      apply elem_of_app in Hin as [?|?]; done.
    + rewrite not_elem_of_app. intros [? ?]. etrans; [by apply Ha'|by apply Hb'].
  - intros i Hi. rewrite not_elem_of_app. intros [? ?]. auto.
Qed.

(** One forwarder: its ports are released unless they were before. *)
Lemma cleanup_books mo now i f0 f sv sv' :
  forwarder_at i sv = Some f0 -> fw_LocalPort f = fw_LocalPort f0 -> fw_RTCPPort f = fw_RTCPPort f0 ->
  fw_isCleanedUp f = fw_isCleanedUp f0 ->
  sv_forwarders sv' = <[i := (Cleanup mo now f (sv_platform sv)).1]> (sv_forwarders sv) ->
  sv_platform sv' = (Cleanup mo now f (sv_platform sv)).2 ->
  books sv -> books sv'.
Proof.
  intros Hf E1 E2 E3 H1 H2 [A B C D]. destruct (cleanup_fields mo now f (sv_platform sv)) as (Hc & Hl & Hr & _ & Hp).
  set (f' := (Cleanup mo now f (sv_platform sv)).1) in *.
  assert (Hat : forall j, forwarder_at j sv' = if decide (i = j) then Some f' else forwarder_at j sv).
  { intros j. unfold forwarder_at. rewrite H1, list_lookup_insert.
    assert (Hi : (i < List.length (sv_forwarders sv))%nat) by (by eapply lookup_lt_Some).
    repeat case_decide; naive_solver. }
  assert (Hports : fw_ports f = fw_ports f0) by (unfold fw_ports; by rewrite E1, E2).
  assert (Hfree : fw_isCleanedUp f = true -> sv_platform sv' = sv_platform sv).
  { intros E. rewrite H2. unfold Cleanup. by rewrite E. }
  destruct (B i f0 Hf) as [B1 B2]. rewrite <- E1, <- E2 in *.
  destruct (fw_isCleanedUp f) eqn:E.
  - specialize (Hfree eq_refl). split; unfold ports_of; rewrite ?Hfree; [done|..].
    + intros j g. rewrite Hat. case_decide; [|apply B]. intros [= <-]. by rewrite Hl, Hr.
    + intros x. rewrite C. apply exist_proper. intros j. rewrite Hat. case_decide; [subst|done].
      split; intros (g & Hg & Hcg & Hx); simplify_eq; congruence.
    + intros j k g h. rewrite !Hat. repeat case_decide; intros ? ? ? Hcg Hch; simplify_eq; try congruence. by eapply D.
  - specialize (Hp eq_refl). destruct (release_ports_spec now f (ports_of sv) A ltac:(lia)) as [R1 R2].
    assert (Hp' : ports_of sv' = release_ports now f (ports_of sv)) by (unfold ports_of; by rewrite H2).
    rewrite <- Hp' in R1, R2. split; [done|..].
    + intros j g. rewrite Hat. case_decide; [|apply B]. intros [= <-]. by rewrite Hl, Hr.
    + intros x. rewrite R2, elem_of_difference, C. split.
      * intros [(j & g & Hg & Hcg & Hx) Hn]. exists j, g. rewrite Hat. case_decide; [|done]. subst. exfalso.
        rewrite Hf in Hg. injection Hg as <-. rewrite <- Hports in Hx. by apply Hn.
      * intros (j & g & Hg & Hcg & Hx). rewrite Hat in Hg. case_decide; [simplify_eq; congruence|].
        split; [by exists j, g|]. intros Hx'. change (x ∈ fw_ports f) in Hx'. rewrite Hports in Hx'.
        by eapply (D i j f0 g Hf Hg).
    + intros j k g h. rewrite !Hat. repeat case_decide; intros ? ? ? Hcg Hch; simplify_eq; try congruence. by eapply D.
Qed.

Lemma cleans_one mo now i f g sv sv' :
  forwarder_at i sv = Some f -> same_port f g \/ g = Stop f ->
  sv_forwarders sv' = <[i := (Cleanup mo now g (sv_platform sv)).1]> (sv_forwarders sv) ->
  sv_platform sv' = (Cleanup mo now g (sv_platform sv)).2 ->
  (forall j, j ∈ sv_running sv' -> j ∈ sv_running sv) -> (forall j, j ∈ sv_running sv -> j <> i -> j ∈ sv_running sv') ->
  cleans [i] sv sv'.
Proof.
  intros Hf Hg H1 H2 H3 H4.
  assert (Hfg : fw_LocalPort g = fw_LocalPort f /\ fw_RTCPPort g = fw_RTCPPort f /\ fw_isCleanedUp g = fw_isCleanedUp f).
  { destruct Hg as [[]| ->]; [done|by destruct f]. }
  destruct Hfg as (G1 & G2 & G3).
  destruct (cleanup_fields mo now g (sv_platform sv)) as (Hc & Hl & Hr & _ & _).
  split.
  - by eapply cleanup_books.
  - by rewrite H1, length_insert.
  - intros j f'. unfold forwarder_at. rewrite H1, list_lookup_insert. case_decide as Hd.
    + destruct Hd as [<- _]. intros [= <-]. exists f. split_and!; [done| |done|].
      * unfold fw_ports. by rewrite Hl, Hr, G1, G2.
      * intros Hn. exfalso. apply Hn. by left.
    + intros Hj. exists f'. split_and!; [done..| |done]. intros ->%list_elem_of_singleton. exfalso. apply Hd.
      split; [done|]. by eapply lookup_lt_Some.
  - exact H3.
  - intros j Hj Hn. apply H4; [done|]. intros ->. apply Hn. by left.
Qed.

(** Of an index without a forwarder nothing is required. *)
Lemma cleans_absent i sv sv' : forwarder_at i sv = None -> sv_platform sv' = sv_platform sv ->
  sv_forwarders sv' = sv_forwarders sv -> (forall j, j ∈ sv_running sv' -> j ∈ sv_running sv) ->
  (forall j, j ∈ sv_running sv -> j <> i -> j ∈ sv_running sv') -> cleans [i] sv sv'.
Proof.
  intros Hn H1 H2 H3 H4. split.
  - intros [A B C D]. unfold ports_of, forwarder_at in *. split; unfold ports_of, forwarder_at; by rewrite ?H1, ?H2.
  - by rewrite H2.
  - unfold forwarder_at in *. rewrite H2. intros j f Hf. exists f. split_and!; try done.
    intros ->%list_elem_of_singleton. congruence.
  - exact H3.
  - intros j Hj Hji. apply H4; [done|]. intros ->. apply Hji. by left.
Qed.

Lemma cleanup_forwarder_cleans e i sv : cleans [i] sv (cleanup_forwarder e i sv).
Proof.
  unfold cleanup_forwarder. destruct (forwarder_at i sv) as [f|] eqn:E; [|by apply cleans_absent].
  destruct (Cleanup _ _ _ _) as [f' pl] eqn:Ec. eapply (cleans_one (en_media e) (en_now e 0%nat) i f (Stop f));
    [done|by right|..]; rewrite ?Ec; by destruct sv.
Qed.

Lemma stopAndCleanup_cleans e i sv : cleans [i] sv (stopAndCleanup e i sv).
Proof.
  unfold stopAndCleanup, wait_done. destruct (en_exited e i); [|apply cleanup_forwarder_cleans].
  unfold cleanup_forwarder. set (sv1 := sv <| sv_running := _ |>).
  change (forwarder_at i sv1) with (forwarder_at i sv1).
  assert (E1 : forwarder_at i sv1 = forwarder_at i sv) by (by destruct sv). rewrite E1.
  assert (E2 : sv_platform sv1 = sv_platform sv) by (by destruct sv). rewrite E2.
  assert (E3 : sv_forwarders sv1 = sv_forwarders sv) by (by destruct sv). rewrite E3.
  assert (E4 : sv_running sv1 = sv_running sv ∖ {[i]}) by (by destruct sv). clearbody sv1.
  destruct (forwarder_at i sv) as [f|] eqn:E.
  - destruct (Cleanup _ _ _ _) as [f' pl] eqn:Ec. eapply (cleans_one (en_media e) (en_now e 0%nat) i f (Stop f));
      [done|by right|..]; rewrite ?Ec; destruct sv1; cbn in *; subst; [done|done|set_solver..].
  - apply cleans_absent; try done; rewrite E4; set_solver.
Qed.

Lemma goroutine_exit_cleans e i sv : cleans [i] sv (goroutine_exit e i sv).
Proof.
  unfold goroutine_exit. destruct (forwarder_at i sv) as [f|] eqn:E; [|by apply cleans_absent].
  destruct (Cleanup _ _ _ _) as [f' pl] eqn:Ec. eapply (cleans_one (en_media e) (en_now e 0%nat) i f f);
    [done|by left|..]; rewrite ?Ec; destruct sv; cbn; [done|done|set_solver..].
Qed.

Lemma cleans_fold (step : Server St -> nat -> Server St) l sv :
  (forall sv i, cleans [i] sv (step sv i)) -> cleans l sv (foldl step sv l).
Proof.
  intros Hs. revert sv. induction l as [|i l IH]; intros sv; cbn; [by apply cleans_quiet|].
  by apply (cleans_trans [i] l _ (step sv i)).
Qed.

(** What stopping leaves alone. *)
Definition same_rest sv sv' : Prop :=
  sv_callStates sv' = sv_callStates sv /\ sv_calls sv' = sv_calls sv /\ sv_policy sv' = sv_policy sv /\
  sv_active sv' = sv_active sv /\ sv_endpoints sv' = sv_endpoints sv /\ sv_sent sv' = sv_sent sv.

#[export] Instance same_rest_preorder : PreOrder same_rest.
Proof. split; [by intros sv|]. unfold same_rest. intros a b c. naive_solver congruence. Qed.

Lemma cleanup_rest e i sv : same_rest sv (cleanup_forwarder e i sv).
Proof. unfold cleanup_forwarder. destruct (forwarder_at i sv); [|done]. destruct (Cleanup _ _ _ _). by destruct sv. Qed.

Lemma stop_rest e i sv : same_rest sv (stopAndCleanup e i sv).
Proof.
  unfold stopAndCleanup, wait_done. etrans; [|apply cleanup_rest]. destruct (en_exited e i); by destruct sv.
Qed.

Lemma rest_fold (step : Server St -> nat -> Server St) l sv :
  (forall sv i, same_rest sv (step sv i)) -> same_rest sv (foldl step sv l).
Proof. intros Hs. revert sv. induction l as [|i l IH]; intros sv; cbn; [done|]. etrans; [apply Hs|apply IH]. Qed.

Lemma table_cleans ids l sv sv' : cleans ids sv sv' -> same_rest sv sv' -> table l sv -> table l sv'.
Proof.
  intros [_ A2 A3 A4 A5] (R1 & R2 & _) [A B C D E F].
  assert (Hcall : forall p, call_at p sv' = call_at p sv) by (intros p; unfold call_at; by rewrite R2).
  split; try (setoid_rewrite Hcall); rewrite ?R1, ?A2; try done.
  - intros i Hi. by apply D, A4.
  - intros i f' Hf Hs. destruct (A3 i f' Hf) as (f & Hf0 & _ & Hin & Hout). destruct (decide (i ∈ ids)) as [Hi|Hi]; [by left; apply Hin|].
    destruct (Hout Hi) as [_ _ -> Hst]. rewrite Hst in Hs. destruct (E i f Hf0 Hs) as [?|?]; [by left|right; by apply A5].
  - intros i f' Hf Hc. destruct (A3 i f' Hf) as (f & Hf0 & _ & Hin & Hout).
    destruct (decide (i ∈ ids)) as [Hi|Hi]; [by rewrite (Hin Hi) in Hc|].
    destruct (Hout Hi) as [_ _ Hcl _]. rewrite Hcl in Hc. destruct (F i f Hf0 Hc) as [?|[?|(id & p & cs & H1 & H2 & H3)]]; [by left|right; left; by apply A5|].
    right; right. exists id, p, cs. by rewrite R1, Hcall.
Qed.

(** Cleaned up forwarders need no owner. *)
Lemma table_cleaned ids l sv sv' : cleans ids sv sv' -> table (ids ++ l) sv' -> table l sv'.
Proof.
  intros [_ _ A3 _ _] [A B C D E F]. split; try done. intros i f' Hf Hc. destruct (F i f' Hf Hc) as [Hi|?]; [|by right].
  apply elem_of_app in Hi as [Hi|?]; [|by left]. destruct (A3 i f' Hf) as (_ & _ & _ & Hin & _). by rewrite (Hin Hi) in Hc.
Qed.

(** ** Creating forwarders *)

(** Each of the next [n] allocations is honest in the state it happens in. *)
Fixpoint honest_from e (k n : nat) (pm : St) : Prop :=
  match n with
  | O => True
  | S n => pa_honest (en_ports e k) pm /\
           match pa_allocate (en_ports e k) pm with (Some _, pm) => honest_from e (S k) n pm | (None, _) => True end
  end.

Definition honest e sv : Prop := forall n, honest_from e 0 n (ports_of sv).

(** What creating [n] forwarders does: the indices are new ones. *)
Record creates (n : nat) (created : list nat) (ok : bool) sv sv' : Prop := {
  cr_indices : created = seq (List.length (sv_forwarders sv)) (List.length created);
  cr_count : if ok then List.length created = n else (List.length created < n)%nat;
  cr_rest : same_rest sv sv';
  cr_running : sv_running sv' = sv_running sv;
  cr_prefix : exists new, sv_forwarders sv' = sv_forwarders sv ++ new /\ List.length new = List.length created /\
    Forall (fun f => fw_isCleanedUp f = false /\ fw_stopped f = false) new
}.

Lemma new_books o timeout s ssrc f pm sv sv' :
  NewRTPForwarder o timeout s ssrc (ports_of sv) = (Some f, pm) -> pa_honest o (ports_of sv) ->
  sv_forwarders sv' = sv_forwarders sv ++ [f] -> ports_of sv' = pm ->
  books sv -> books sv'.
Proof.
  unfold NewRTPForwarder. destruct (pa_allocate o _) as [[pp|] pm'] eqn:E; [|done]. intros [= <- <-] Hh H1 H2 [A B C D].
  destruct (pa_allocate_some o _ pp pm' A Hh E) as (I1 & I2 & I3 & I4 & I5).
  assert (Hat : forall j g, forwarder_at j sv' = Some g -> forwarder_at j sv = Some g \/
    (j = List.length (sv_forwarders sv) /\ g = new_forwarder pp timeout s ssrc)).
  { intros j g. unfold forwarder_at. rewrite H1. intros [?|[? Hg]]%lookup_app_Some; [by left|right].
    apply list_lookup_singleton_Some in Hg as [? <-]. split; [lia|done]. }
  assert (Hold : forall j g, forwarder_at j sv = Some g -> forwarder_at j sv' = Some g).
  { intros j g Hg. unfold forwarder_at. rewrite H1. by apply lookup_app_l_Some. }
  assert (Hnew : forwarder_at (List.length (sv_forwarders sv)) sv' = Some (new_forwarder pp timeout s ssrc)).
  { unfold forwarder_at. rewrite H1, lookup_app_r by done. by rewrite Nat.sub_diag. }
  assert (Hfresh : forall j g, forwarder_at j sv = Some g -> fw_isCleanedUp g = false ->
    fw_ports g ## fw_ports (new_forwarder pp timeout s ssrc)).
  { intros j g Hg Hc x Hx Hx'. apply (I4 x Hx'). apply C. by exists j, g. }
  split; rewrite ?H2; [done|..].
  - intros j g [Hg|[-> ->]]%Hat; [by eapply B|]. cbn. lia.
  - intros x. rewrite I5, elem_of_union, C. split.
    + intros [Hx|(j & g & Hg & Hc & Hx)]; [|by exists j, g; auto]. by eexists _, _.
    + intros (j & g & [Hg|[-> ->]]%Hat & Hc & Hx); [right; by exists j, g|by left].
  - intros j k g h [Hg|[-> ->]]%Hat [Hh'|[-> ->]]%Hat Hjk Hcg Hch; [by eapply D|by eapply Hfresh|symmetry; by eapply Hfresh|done].
Qed.

Lemma fail_books o timeout s ssrc pm sv sv' :
  NewRTPForwarder o timeout s ssrc (ports_of sv) = (None, pm) ->
  sv_forwarders sv' = sv_forwarders sv -> ports_of sv' = pm -> books sv -> books sv'.
Proof.
  unfold NewRTPForwarder. destruct (pa_allocate o _) as [[pp|] pm'] eqn:E; [done|]. intros [= <-] H1 H2 [A B C D].
  destruct (pa_allocate_none o _ pm' A E) as [I1 I2].
  split; unfold forwarder_at in *; rewrite ?H1, ?H2; try done. intros x. rewrite I2. apply C.
Qed.

Lemma new_forwarders_spec e timeout s k n sv created ok sv' :
  new_forwarders e timeout s k n sv = (created, ok, sv') -> honest_from e k n (ports_of sv) ->
  creates n created ok sv sv' /\ (books sv -> books sv').
Proof.
  revert k sv created ok sv'. induction n as [|n IH]; intros k sv created ok sv'; cbn [new_forwarders].
  { intros [= <- <- <-] _. split; [|done]. split; try done. exists []. by rewrite app_nil_r. }
  fold (ports_of sv). destruct (NewRTPForwarder _ _ _ _ _) as [[f|] pm] eqn:E.
  - set (sv1 := sv <| sv_forwarders := _ |> <| sv_platform := _ |>).
    destruct (new_forwarders e timeout s (S k) n sv1) as [[l ok'] sv2] eqn:E2. intros [= <- <- <-] [Hh Hrest].
    assert (F1 : sv_forwarders sv1 = sv_forwarders sv ++ [f]) by (by destruct sv).
    assert (F2 : ports_of sv1 = pm) by (by destruct sv).
    assert (F3 : same_rest sv sv1) by (by destruct sv).
    assert (F4 : sv_running sv1 = sv_running sv) by (by destruct sv). clearbody sv1.
    assert (Hh' : honest_from e (S k) n (ports_of sv1) /\ fw_isCleanedUp f = false /\ fw_stopped f = false).
    { unfold NewRTPForwarder in E. destruct (pa_allocate _ _) as [[pp|] pm']; [|done]. injection E as <- <-. by rewrite F2. }
    destruct Hh' as [Hh' Hf].
    destruct (IH (S k) sv1 l ok' sv2 E2 Hh') as [[A B C D (new & N1 & N2 & N3)] Hb]. split.
    + split; cbn [List.length seq]; [| |by etrans|congruence|].
      * f_equal. rewrite A at 1. rewrite F1, length_app. cbn. by rewrite Nat.add_1_r.
      * destruct ok'; lia.
      * exists (f :: new). rewrite N1, F1, <- app_assoc. cbn. split_and!; [done|lia|by constructor].
    + intros Hbk. apply Hb. by eapply (new_books (en_ports e k) timeout s (en_ssrc e k) f pm sv).
  - intros [= <- <- <-] _. set (sv1 := sv <| sv_platform := _ |>). split.
    + split; cbn; [done|lia|by destruct sv|by destruct sv|]. exists []. by rewrite app_nil_r; destruct sv.
    + by eapply fail_books; destruct sv.
Qed.

Lemma creates_fresh n created ok sv sv' i : creates n created ok sv sv' -> i ∈ created ->
  (List.length (sv_forwarders sv) <= i < List.length (sv_forwarders sv'))%nat.
Proof.
  intros [A _ _ _ (new & N1 & N2 & _)] Hi. rewrite A in Hi. apply elem_of_seq in Hi. rewrite N1, length_app. lia.
Qed.

Lemma table_creates l n created ok sv sv' : creates n created ok sv sv' -> table l sv -> table (created ++ l) sv'.
Proof.
  intros Hc [A B C D E F]. pose proof Hc as [I1 _ (R1 & R2 & _) R (new & N1 & N2 & N3)].
  assert (Hcall : forall p, call_at p sv' = call_at p sv) by (intros p; unfold call_at; by rewrite R2).
  assert (Hlen : (List.length (sv_forwarders sv) <= List.length (sv_forwarders sv'))%nat) by (rewrite N1, length_app; lia).
  assert (Hat : forall i f, forwarder_at i sv' = Some f -> forwarder_at i sv = Some f \/
    (i ∈ created /\ fw_isCleanedUp f = false /\ fw_stopped f = false)).
  { intros i f. unfold forwarder_at. rewrite N1. intros [?|[? Hf]]%lookup_app_Some; [by left|right]. split.
    - rewrite I1. apply elem_of_seq. apply lookup_lt_Some in Hf. lia.
    - rewrite Forall_lookup in N3. by eapply N3. }
  split; try (setoid_rewrite Hcall); rewrite ?R1, ?R; try done.
  - intros p cs Hp. by eapply call_ok_le, B.
  - intros i Hi. specialize (D i Hi). lia.
  - intros i f [Hf|(_ & _ & Hs)]%Hat; [by apply E|congruence].
  - intros i f [Hf|(Hi & _)]%Hat; [|intros _; left; apply elem_of_app; by left]. intros Hcl.
    destruct (F i f Hf Hcl) as [?|[?|(id & p & cs & ?)]]; [left; apply elem_of_app; by right|by right; left|].
    right; right. exists id, p, cs. by rewrite R1, Hcall.
Qed.
End invariant.

(** ** Ending a call *)

Section ending.
Context `{!GoMapRange string} `{Libraries} `{PortAllocator St Oracle}.
Context (cfg : ServerConfig).
Implicit Types (sv : Server St) (e : Env Oracle) (p i j : nat) (l : list nat).

(** A call that is over. *)
Record over (cs : CallState) : Prop := {
  ov_final : cs_finalized cs = true;
  ov_state : cs_State cs = "terminated";
  ov_cancelled : cs_cancelled cs = true;
  ov_primary : cs_RTPForwarder cs = None;
  ov_forwarders : cs_RTPForwarders cs = [];
  ov_streams : cs_StreamForwarders cs = ∅
}.

(** The forwarders that ending a call stops. *)
Definition all_forwarders (cs : CallState) : list nat :=
  call_forwarders cs ++ map snd (map_range 0 (cs_StreamForwarders cs)).

(** The call [cs] at [p] is ended under the name [id]. *)
Record ends (id : string) p (cs : CallState) sv sv' : Prop := {
  ed_cleans : cleans (all_forwarders cs) sv sv';
  ed_table : sv_callStates sv' = delete id (sv_callStates sv);
  ed_calls : exists cs', sv_calls sv' = <[p := cs']> (sv_calls sv) /\ cs_CallID cs' = cs_CallID cs /\ over cs';
  ed_active : sv_active sv' = delete id (sv_active sv);
  ed_sent : sv_sent sv' = sv_sent sv;
  ed_policy : sv_policy sv' = sv_policy sv
}.

Lemma finish_stop e fresh l legs sv : (finish_forwarders e fresh l legs sv).2 = stop_all e l sv.
Proof. revert legs sv. induction l as [|i l IH]; intros legs sv; [done|]. cbn. by rewrite IH. Qed.

Lemma stop_all_cleans e l sv : cleans l sv (stop_all e l sv).
Proof. apply cleans_fold. intros. apply stopAndCleanup_cleans. Qed.

Lemma stop_all_rest e l sv : same_rest sv (stop_all e l sv).
Proof. apply rest_fold. intros. apply stop_rest. Qed.

Lemma update_call_at p g cs sv : call_at p sv = Some cs -> sv_calls (update_call p g sv) = <[p := g cs]> (sv_calls sv).
Proof.
  intros Hp. destruct sv. cbn in *. apply list_eq. intros k. rewrite list_lookup_alter, list_lookup_insert.
  assert (p < List.length sv_calls)%nat by (by eapply lookup_lt_Some). unfold call_at in Hp. cbn in Hp.
  repeat case_decide; subst; rewrite ?Hp; naive_solver.
Qed.

(** The forwarders [ids] are cleaned up and the call at [p] becomes [cs]. *)
Record becomes (ids : list nat) p (cs : CallState) sv sv' : Prop := {
  bc_cleans : cleans ids sv sv';
  bc_at : call_at p sv' = Some cs;
  bc_calls : sv_calls sv' = <[p := cs]> (sv_calls sv);
  bc_table : sv_callStates sv' = sv_callStates sv;
  bc_active : sv_active sv' = sv_active sv;
  bc_sent : sv_sent sv' = sv_sent sv;
  bc_policy : sv_policy sv' = sv_policy sv
}.

Lemma becomes_trans a b p c d sv1 sv2 sv3 :
  becomes a p c sv1 sv2 -> becomes b p d sv2 sv3 -> becomes (a ++ b) p d sv1 sv3.
Proof.
  intros [A1 A2 A3 A4 A5 A6 A7] [B1 B2 B3 B4 B5 B6 B7]. split; [by eapply cleans_trans|done| |congruence..].
  by rewrite B3, A3, list_insert_insert_eq.
Qed.

Lemma becomes_update p g cs sv : call_at p sv = Some cs -> becomes [] p (g cs) sv (update_call p g sv).
Proof.
  intros Hp. split; [| |by apply update_call_at|by destruct sv..].
  - by apply cleans_quiet; destruct sv.
  - unfold call_at. rewrite (update_call_at p g cs sv Hp). apply list_lookup_insert_eq. by eapply lookup_lt_Some.
Qed.

Lemma becomes_same p cs sv : call_at p sv = Some cs -> becomes [] p cs sv sv.
Proof. intros Hp. split; try done; [by apply cleans_quiet|by rewrite list_insert_id]. Qed.

Lemma becomes_stop e l p cs sv : call_at p sv = Some cs -> becomes l p cs sv (stop_all e l sv).
Proof.
  intros Hp. destruct (stop_all_rest e l sv) as (T & C & P & A & _ & S).
  split; try done; [apply stop_all_cleans|unfold call_at; by rewrite C|by rewrite C, list_insert_id].
Qed.

Lemma becomes_combine p callID legs sv cs : call_at p sv = Some cs ->
  exists s, becomes [] p (cs <| cs_RecordingSession := s |>) sv (combineRecordingLegs cfg p callID legs sv).
Proof.
  intros Hp. unfold combineRecordingLegs.
  assert (Hsame : exists s, becomes [] p (cs <| cs_RecordingSession := s |>) sv sv).
  { exists (cs_RecordingSession cs). replace (cs <| cs_RecordingSession := _ |>) with cs by (by destruct cs). by apply becomes_same. }
  repeat case_match; try done.
  eexists. apply (becomes_update p (fun cs => cs <| cs_RecordingSession := _ <$> cs_RecordingSession cs |>)). done.
Qed.

(** The call leaves the map and the list of active calls. *)
Lemma becomes_ends id p cs c sv sv1 : becomes (all_forwarders cs) p c sv sv1 -> cs_CallID c = cs_CallID cs -> over c ->
  let sv2 := removeCallFromActiveList id (sv1 <| sv_callStates := delete id (sv_callStates sv1) |>) in
  ends id p cs sv (if sc_Notifier cfg then ClearCallEndpoints id sv2 else sv2).
Proof.
  intros [A1 A2 A3 A4 A5 A6 A7] Hid Hov sv2. unfold ClearCallEndpoints.
  set (sv3 := if sc_Notifier cfg then _ else _).
  assert (Hm : sv_platform sv3 = sv_platform sv1 /\ sv_forwarders sv3 = sv_forwarders sv1 /\ sv_running sv3 = sv_running sv1 /\
    sv_callStates sv3 = delete id (sv_callStates sv1) /\ sv_active sv3 = delete id (sv_active sv1) /\
    sv_calls sv3 = sv_calls sv1 /\ sv_sent sv3 = sv_sent sv1 /\ sv_policy sv3 = sv_policy sv1).
  { unfold sv3, sv2. destruct (sc_Notifier cfg), (String.eqb id ""); by destruct sv1. }
  clearbody sv3. destruct Hm as (M1 & M2 & M3 & M4 & M5 & M6 & M7 & M8). split; [|congruence| |congruence..].
  - rewrite <- (app_nil_r (all_forwarders cs)). by eapply cleans_trans, cleans_quiet.
  - exists c. by rewrite M6, A3.
Qed.

Lemma finalize_ends e id p cs reason sv : call_at p sv = Some cs -> cs_finalized cs = false ->
  ends id p cs sv (finalizeCall cfg e id p reason sv).
Proof.
  intros Hp Hfin. unfold finalizeCall. rewrite Hp, Hfin. unfold doFinalizeCall.
  pose proof (becomes_update p (fun cs => cs <| cs_finalized := true |>) cs sv Hp) as B1. set (sv1 := update_call p _ sv) in *.
  pose proof (becomes_update p (fun cs => cs <| cs_cancelled := true |>
    <| cs_RecordingSession := end_session (en_now e 0%nat) reason <$> cs_RecordingSession cs |>) _ sv1 (bc_at _ _ _ _ _ B1)) as B2.
  set (sv2 := update_call p _ sv1) in *.
  pose proof (finish_stop e true (call_forwarders cs) [] sv2) as F1. destruct (finish_forwarders e true _ _ sv2) as [legs1 sv3].
  cbn [snd] in F1. subst sv3. pose proof (becomes_stop e (call_forwarders cs) p _ sv2 (bc_at _ _ _ _ _ B2)) as B3.
  set (sv3 := stop_all e _ sv2) in *. set (streams := map snd _).
  pose proof (finish_stop e false streams legs1 sv3) as F2. destruct (finish_forwarders e false _ _ sv3) as [legs2 sv4].
  cbn [snd] in F2. subst sv4. pose proof (becomes_stop e streams p _ sv3 (bc_at _ _ _ _ _ B3)) as B4.
  set (sv4 := stop_all e _ sv3) in *.
  pose proof (becomes_update p (fun cs => cs <| cs_RTPForwarders := [] |> <| cs_RTPForwarder := None |>
    <| cs_StreamForwarders := ∅ |> <| cs_PendingAckCSeq := 0 |>) _ sv4 (bc_at _ _ _ _ _ B4)) as B5. set (sv5 := update_call p _ sv4) in *.
  destruct (becomes_combine p id legs2 sv5 _ (bc_at _ _ _ _ _ B5)) as [s B6]. set (sv6 := combineRecordingLegs _ _ _ _ _) in *.
  pose proof (becomes_update p (fun cs => cs <| cs_State := "terminated" |> <| cs_LastActivity := en_now e 1%nat |>)
    _ sv6 (bc_at _ _ _ _ _ B6)) as B7. set (sv7 := update_call p _ sv6) in *.
  pose proof (becomes_trans _ _ _ _ _ _ _ _ B1 (becomes_trans _ _ _ _ _ _ _ _ B2 (becomes_trans _ _ _ _ _ _ _ _ B3
    (becomes_trans _ _ _ _ _ _ _ _ B4 (becomes_trans _ _ _ _ _ _ _ _ B5 (becomes_trans _ _ _ _ _ _ _ _ B6 B7)))))) as B.
  rewrite !app_nil_l, app_nil_r in B. fold (all_forwarders cs) in B.
  eapply becomes_ends; [exact B|by destruct cs..].
Qed.

(** The table without the call. *)
Lemma all_forwarders_ok n cs i : call_ok n cs -> i ∈ all_forwarders cs <-> i ∈ cs_RTPForwarders cs.
Proof.
  intros Hok. unfold all_forwarders. rewrite (call_forwarders_ok _ _ Hok), elem_of_app. split; [|by left].
  intros [?|Hi]; [done|]. apply list_elem_of_fmap in Hi as ([label k] & -> & Hi).
  apply elem_of_map_range in Hi. by eapply (ck_streams _ _ Hok).
Qed.

Lemma table_ends l id p cs sv sv' : ends id p cs sv sv' -> sv_callStates sv !! id = Some p -> call_at p sv = Some cs ->
  table l sv -> table l sv'.
Proof.
  intros [[_ K1 K2 K3 K4] T (c & C1 & C2 & [V1 _ _ V2 V3 V4]) _ _ _] Hid Hp [A B C D E F].
  assert (Hat : forall q d, call_at q sv' = Some d -> (q = p /\ d = c) \/ (q <> p /\ call_at q sv = Some d)).
  { intros q d. unfold call_at. rewrite C1, list_lookup_insert_Some. naive_solver. }
  assert (Hat' : forall q d, q <> p -> call_at q sv = Some d -> call_at q sv' = Some d).
  { intros q d Hq Hd. unfold call_at. by rewrite C1, list_lookup_insert_ne. }
  assert (Hids : forall i, i ∈ all_forwarders cs <-> i ∈ cs_RTPForwarders cs) by (intros i; by eapply all_forwarders_ok, B).
  assert (Hname : cs_CallID cs = id) by (destruct (A id p Hid) as (d & Hd & <- & _); congruence).
  split; rewrite ?T, ?K1.
  - intros id' q [Hne Hq]%lookup_delete_Some. destruct (A id' q Hq) as (d & Hd & Hdid & Hdf). exists d.
    split; [|done]. apply Hat'; [|done]. intros ->. congruence.
  - intros q d [[-> ->]|[_ Hd]]%Hat; [|by eapply B]. split; rewrite ?V2, ?V3, ?V4; try done; try by intros ? ?%elem_of_nil. constructor.
  - intros q q' d d' i [[-> ->]|[Hq Hd]]%Hat [[-> ->]|[Hq' Hd']]%Hat; rewrite ?V3; try by intros ?%elem_of_nil.
    { by intros _ ?%elem_of_nil. } by apply C.
  - intros i Hi. by apply D, K3.
  - intros i f' Hf Hs. destruct (K2 i f' Hf) as (f & Hf0 & _ & Hin & Hout). destruct (decide (i ∈ all_forwarders cs)) as [Hi|Hi]; [by left; apply Hin|].
    destruct (Hout Hi) as [_ _ -> Hst]. rewrite Hst in Hs. destruct (E i f Hf0 Hs) as [?|?]; [by left|right; by apply K4].
  - intros i f' Hf Hc. destruct (K2 i f' Hf) as (f & Hf0 & _ & Hin & Hout).
    destruct (decide (i ∈ all_forwarders cs)) as [Hi|Hi]; [by rewrite (Hin Hi) in Hc|].
    destruct (Hout Hi) as [_ _ Hcl _]. rewrite Hcl in Hc.
    destruct (F i f Hf0 Hc) as [?|[?|(id' & q & d & H1 & H2 & H3)]]; [by left|right; left; by apply K4|].
    right; right. exists id', q, d.
    assert (q <> p) by (intros ->; apply Hi, Hids; congruence).
    assert (id' <> id) by (intros ->; congruence). rewrite T, lookup_delete_ne by done. auto.
Qed.
End ending.

(** ** Quiet steps *)

(** The state except for a list of forwarders that belong to nobody yet. *)
Definition sound `{PortAllocator St Oracle} (l : list nat) (sv : Server St) : Prop := books sv /\ table l sv.

Lemma sound_quiet `{PortAllocator St Oracle} l (sv sv' : Server St) : quiet sv sv' -> sound l sv -> sound l sv'.
Proof. intros Hq [A B]. split; [by eapply books_quiet|by eapply table_quiet]. Qed.

(** Operations on a forwarder that leave its ports and its life alone. *)
Lemma same_port_bind (f : RTPForwarder) (o : option RTPForwarder) (k : RTPForwarder -> option RTPForwarder) g :
  (forall f', o = Some f' -> same_port f f') -> (forall f' g, k f' = Some g -> same_port f' g) ->
  o ≫= k = Some g -> same_port f g.
Proof. intros Ho Hk (f' & Hf' & Hg)%bind_Some. etrans; [by apply Ho|by eapply Hk]. Qed.

Lemma lifetimes_same_port params f g : apply_lifetimes params f = Some g -> same_port f g.
Proof.
  revert f g. induction params as [|p params IH]; intros f g; cbn; [by intros [= <-]|].
  apply same_port_bind; [|apply IH]. intros f'. repeat case_match; try (by intros [= <-]).
  intros (n & _ & Hn)%bind_Some. injection Hn as <-. by destruct f.
Qed.

Lemma srtp_same_port value f g : parseSRTPAttributes value f = Some g -> same_port f g.
Proof.
  unfold parseSRTPAttributes. repeat case_match; try (by intros [= <-]).
  intros Hg%lifetimes_same_port. etrans; [|exact Hg]. by destruct f.
Qed.

Lemma attribute_same_port a f g : apply_attribute a f = Some g -> same_port f g.
Proof.
  unfold apply_attribute. repeat case_match; try (by intros [= <-]; destruct f). apply srtp_same_port.
Qed.

Lemma attributes_same_port attrs f g : apply_attributes attrs f = Some g -> same_port f g.
Proof.
  revert f g. induction attrs as [|a attrs IH]; intros f g; cbn; [by intros [= <-]|].
  apply same_port_bind; [apply attribute_same_port|apply IH].
Qed.

Lemma codec_same_port `{Unicode} pt name rate ch f : same_port f (SetCodecInfo pt name rate ch f).
Proof. unfold SetCodecInfo. destruct (0 <? rate); by destruct f. Qed.

Lemma formats_same_port `{Unicode} attrs formats f : same_port f (apply_formats attrs formats f).
Proof.
  induction formats as [|x formats IH]; cbn; [done|]. repeat case_match; try done; apply codec_same_port.
Qed.

Lemma configure_same_port `{Unicode} parseIP d md f g :
  ConfigureForwarderForMediaDescription parseIP d md f = Some g -> same_port f g.
Proof.
  unfold ConfigureForwarderForMediaDescription. apply same_port_bind; [apply attributes_same_port|]. clear f g. intros f g.
  apply same_port_bind; [|].
  - intros f'. unfold applyMediaAttributes. apply same_port_bind; [apply attributes_same_port|]. clear f f' g. intros f g [= <-].
    apply formats_same_port.
  - clear f g. intros f g [= <-]. unfold setRemoteAddressHints. repeat case_match; first [done|by destruct f].
Qed.

Lemma pause_same_port now r t f g : Pause now r t f = Some g -> same_port f g.
Proof.
  unfold Pause. destruct r, t, f; cbn; repeat case_match; intros Hg;
    try (apply bind_Some in Hg as (? & _ & Hg)); by injection Hg as <-.
Qed.

Lemma resume_same_port f g : Resume f = Some g -> same_port f g.
Proof.
  unfold Resume. destruct f; cbn; repeat case_match; intros Hg;
    try (apply bind_Some in Hg as (? & _ & Hg)); by injection Hg as <-.
Qed.

Lemma mute_same_port now i o f g : Mute now i o f = Some g -> same_port f g.
Proof. unfold Mute. intros ->%log_mute_some. destruct i, o, f; cbn; repeat case_match; done. Qed.

Lemma unmute_same_port i o f g : Unmute i o f = Some g -> same_port f g.
Proof. unfold Unmute. intros ->%log_mute_some. destruct i, o, f; cbn; repeat case_match; done. Qed.

#[export] Hint Resolve configure_same_port pause_same_port resume_same_port mute_same_port unmute_same_port : quiet.

Section quiet.
Context `{Unicode} `{Rfc3339} `{SipLibrary} `{Calendar} `{UnicodeLetters} `{!GoMapRange string} `{Libraries}.
Context `{PortAllocator St Oracle}.
Context (cfg : ServerConfig).
Implicit Types (sv : Server St) (e : Env Oracle) (m : SIPMessage) (p i : nat) (l : list nat).

Lemma quiet_reset l sv : quiet sv (reset_ssrcs l sv).
Proof. apply quiet_fold. intros sv' i. apply quiet_update_forwarder. intros f. by destruct f. Qed.

Lemma quiet_encoders l sv : quiet sv (configure_encoders cfg l sv).
Proof.
  unfold configure_encoders. case_match; [done|]. apply quiet_fold. intros sv' i. apply quiet_update_forwarder. intros f. by destruct f.
Qed.

Lemma quiet_each f l sv sv' : (forall g h, f g = Some h -> same_port g h) -> each_forwarder f l sv = Some sv' -> quiet sv sv'.
Proof.
  intros Hf. revert sv. induction l as [|i l IH]; intros sv; cbn; [by intros [= <-]|].
  destruct (forwarder_at i sv) as [g|] eqn:E; [|apply IH]. intros (h & Hh & Hr)%bind_Some.
  etrans; [eapply quiet_set_forwarder; [exact E|by apply Hf]|by apply IH].
Qed.

Lemma quiet_configure_one ms d md i sv missing sv' : configure_one ms d md i sv = Some (missing, sv') -> quiet sv sv'.
Proof.
  unfold configure_one. destruct (forwarder_at i sv) as [f|] eqn:E; [|by intros [= _ <-]].
  intros (g & Hg & [= _ <-])%bind_Some. eapply quiet_set_forwarder; [exact E|by eapply configure_same_port].
Qed.

Lemma quiet_configure ms d todo sv missing sv' : configure_all ms d todo sv = Some (missing, sv') -> quiet sv sv'.
Proof.
  revert sv. induction todo as [|[md i] todo IH]; intros sv; cbn; [by intros [= _ <-]|].
  intros ([b sv1] & K1%quiet_configure_one & Hr)%bind_Some. destruct b; [by injection Hr as _ <-|]. etrans; [exact K1|by apply IH].
Qed.

Lemma quiet_session p s sv : quiet sv (set_session p s sv).
Proof. apply quiet_update_call. intros cs. by destruct cs. Qed.

Lemma quiet_policy e s md sv : quiet sv (EvaluateRecordingPolicy e s md sv).2.
Proof.
  unfold EvaluateRecordingPolicy. destruct (sv_policy sv); [|done]. destruct (EvaluateSession _ _ _ _ _). destruct sv. by apply quiet_fields.
Qed.

Lemma quiet_updates e id md sv : quiet sv (ProcessPolicyUpdates e id md sv).
Proof. destruct sv. by apply quiet_fields. Qed.

Lemma quiet_active sv a : quiet sv (sv <| sv_active := a |>).
Proof. destruct sv. by apply quiet_fields. Qed.

Lemma quiet_sync id p sv : quiet sv (syncCallToActiveList id p sv).
Proof. unfold syncCallToActiveList. destruct (call_at p sv); [apply quiet_active|done]. Qed.

Lemma quiet_metadata e m p body sv : quiet sv (invite_metadata cfg e m p body sv).2.
Proof.
  unfold invite_metadata. destruct (parseSiprecMetadata _ _ _ _ _) as [md|]; [|apply quiet_send].
  set (s := default _ _). set (sv1 := match md_PolicyUpdates md with [] => _ | _ => _ end).
  assert (Hq : quiet sv sv1).
  { unfold sv1. etrans; [apply quiet_session|]. case_match; [done|apply quiet_updates]. }
  pose proof (quiet_policy e s md sv1) as Hp. destruct (EvaluateRecordingPolicy e s md sv1) as [d sv2]. cbn in Hp.
  destruct (IsBlocked d); cbn [snd]; (etrans; [exact Hq|etrans; [exact Hp|]]); [apply quiet_send|apply quiet_session].
Qed.

Lemma quiet_await e k p sv : quiet sv (await_ack e k p sv).
Proof. apply quiet_update_call. intros cs. by destruct cs. Qed.

Lemma quiet_accept e k m p sdp sv : quiet sv (accept_call cfg e k m p sdp sv).2.
Proof.
  unfold accept_call. destruct (if sc_Multipart cfg then _ else _) as [s|].
  - destruct (generateSiprecResponse _ _ _ _ _) as [[[? body]|err] s']; cbn [snd].
    + etrans; [apply quiet_session|]. etrans; [apply quiet_await|apply quiet_send].
    + etrans; [apply quiet_session|apply quiet_send].
  - cbn [snd]. etrans; [apply quiet_await|apply quiet_send].
Qed.

Lemma quiet_touch now p sv : quiet sv (touch now p sv).
Proof. apply quiet_update_call. intros cs. by destruct cs. Qed.

Lemma quiet_reinvite_metadata e m p body cs sv sv' : reinvite_metadata cfg e m p body cs sv = Some sv' -> quiet sv sv'.
Proof. unfold reinvite_metadata. repeat case_match; intros [= <-]; try done; apply quiet_session. Qed.

Lemma quiet_update_metadata e m p cs sv : quiet sv (update_metadata cfg e m p cs sv).
Proof. unfold update_metadata. repeat case_match; first [reflexivity|apply quiet_session]. Qed.

Lemma quiet_register id url sv : quiet sv (RegisterCallEndpoint id url sv).
Proof. unfold RegisterCallEndpoint. case_match; [done|]. destruct sv. by apply quiet_fields. Qed.

(** ** Handlers of requests that only note something *)

Lemma quiet_prack e m sv : quiet sv (handlePrackMessage e m sv).
Proof.
  unfold handlePrackMessage. etrans; [|apply quiet_send]. case_match; [|done]. apply quiet_update_call. intros cs.
  destruct cs; cbn; case_match; by split.
Qed.

Lemma quiet_ack e m sv : quiet sv (handleAckMessage e m sv).
Proof.
  unfold handleAckMessage. case_match; [|done]. apply quiet_update_call. intros cs. destruct cs; cbn; case_match; by split.
Qed.

Lemma quiet_subscribe e m sv : quiet sv (handleSubscribeMessage cfg e m sv).
Proof.
  unfold handleSubscribeMessage. repeat case_match; try apply quiet_send; (etrans; [|apply quiet_send]).
  - etrans; [apply quiet_register|]. apply quiet_update_call. intros cs. by destruct cs.
  - apply quiet_update_call. intros cs. by destruct cs.
Qed.

Lemma quiet_update e m sv sv' : handleUpdateMessage cfg e m sv = Some sv' -> quiet sv sv'.
Proof.
  unfold handleUpdateMessage. destruct (getCallState _ sv) as [p|]; [|intros [= <-]; apply quiet_send].
  intros (cs & _ & Hr)%bind_Some. assert (Hq := quiet_touch (en_now e 0%nat) p sv). revert Hr Hq.
  generalize (touch (en_now e 0%nat) p sv). intros sv1 Hr Hq.
  assert (Hq2 : quiet sv (update_metadata cfg e m p cs sv1)) by (etrans; [exact Hq|apply quiet_update_metadata]).
  revert Hr Hq2. generalize (update_metadata cfg e m p cs sv1). clear sv1 Hq. intros sv1 Hr Hq.
  case_match; [injection Hr as <-; etrans; [exact Hq|apply quiet_send]|].
  destruct (ParseSDPTolerant _ _) as [d|]; [|injection Hr as <-; etrans; [exact Hq|apply quiet_send]].
  apply bind_Some in Hr as (sv2 & K2 & Hr). etrans; [exact Hq|].
  assert (Hq2 : quiet sv1 sv2).
  { destruct (is_hold d); [by eapply quiet_each; [|exact K2]; eauto with quiet|].
    apply bind_Some in K2 as (sv3 & K3 & [= <-]). etrans; [by eapply quiet_each; [|exact K3]; eauto with quiet|apply quiet_reset]. }
  etrans; [exact Hq2|]. set (sv3 := update_call _ _ sv2) in Hr.
  assert (Hq3 : quiet sv2 sv3) by (apply quiet_update_call; intros c; by destruct c).
  etrans; [exact Hq3|]. destruct (call_forwarders cs); [injection Hr as <-; apply quiet_send|].
  apply bind_Some in Hr as (ms & _ & [= <-]). apply quiet_send.
Qed.

Lemma quiet_info e m sv : quiet sv (handleInfoMessage e m sv).
Proof. unfold handleInfoMessage. case_match; [|apply quiet_send]. etrans; [apply quiet_touch|apply quiet_send]. Qed.

Lemma quiet_refer e m sv : quiet sv (handleReferMessage e m sv).
Proof. unfold handleReferMessage. repeat case_match; try apply quiet_send; (etrans; [apply quiet_touch|apply quiet_send]). Qed.

Lemma quiet_notify e m sv : quiet sv (handleNotifyMessage e m sv).
Proof. unfold handleNotifyMessage. case_match; [|apply quiet_send]. etrans; [apply quiet_touch|apply quiet_send]. Qed.

Lemma quiet_message e m sv : quiet sv (handleMessageMessage e m sv).
Proof. unfold handleMessageMessage. case_match; [etrans; [apply quiet_touch|]|]; apply quiet_send. Qed.

Lemma quiet_on_active f id sv sv' : (forall g h, f g = Some h -> same_port g h) -> on_active f id sv = Some (inl sv') -> quiet sv sv'.
Proof.
  intros Hf. unfold on_active. case_match; [|done]. intros (sv1 & K1 & [= <-])%bind_Some. by eapply quiet_each.
Qed.
End quiet.
