(* ===== verification/DialogSteps.v ===== *)
(** * The handlers keep the invariant

    Each handler of [Dialog] takes a server that satisfies [books] and [table] to
    one that does, and the rejection of a call gives back what it took.  The
    lemmas about INVITE and re-INVITE follow the handlers branch by branch;
    BYE, CANCEL, the reaper and the cleanup of old sessions end calls or clean up
    forwarders. *)

From S2P Require Import Prelude GoStrings GoText Metadata Session Validation Policy Fill SipMessage Vendor SipSession.
From S2P Require Import RtpStats LruCache PortManager Ports PauseIO Forwarder WavFile AudioDecode WavCombine Sdp Dialog DialogInv.
From Stdlib Require Import Ascii String.
#[local] Open Scope string_scope.
#[local] Open Scope list_scope.
#[local] Open Scope Z_scope.

Section steps.
Context `{PortAllocator St Oracle}.
Implicit Types (sv : Server St) (e : Env Oracle) (p i j : nat) (l : list nat).

(** ** The table under the changes a handler makes *)

(** A call takes over forwarders. *)
Lemma table_adopt l l' id p cs cs' sv sv' :
  sv_callStates sv !! id = Some p -> call_at p sv = Some cs ->
  sv_callStates sv' = sv_callStates sv -> sv_forwarders sv' = sv_forwarders sv ->
  sv_calls sv' = <[p := cs']> (sv_calls sv) ->
  (forall i, i ∈ sv_running sv -> i ∈ sv_running sv') ->
  (forall i, i ∈ sv_running sv' -> (i < List.length (sv_forwarders sv))%nat) ->
  cs_CallID cs' = cs_CallID cs -> cs_finalized cs' = false -> call_ok (List.length (sv_forwarders sv)) cs' ->
  (forall i q d, i ∈ cs_RTPForwarders cs' -> call_at q sv = Some d -> i ∈ cs_RTPForwarders d -> q = p) ->
  (forall i f, forwarder_at i sv = Some f -> fw_isCleanedUp f = false -> i ∈ l \/ i ∈ cs_RTPForwarders cs ->
     i ∈ l' \/ i ∈ sv_running sv' \/ i ∈ cs_RTPForwarders cs') ->
  table l sv -> table l' sv'.
Proof.
  intros Hid Hp T Fw C R1 R2 Hname Hfin Hok Hsingle Howned [A B C' D E F].
  assert (Hlen : (p < List.length (sv_calls sv))%nat) by (by eapply lookup_lt_Some).
  assert (Hat : forall q d, call_at q sv' = Some d -> (q = p /\ d = cs') \/ (q <> p /\ call_at q sv = Some d)).
  { intros q d. unfold call_at. rewrite C, list_lookup_insert_Some. naive_solver. }
  assert (Hat' : forall q d, q <> p -> call_at q sv = Some d -> call_at q sv' = Some d).
  { intros q d Hq Hd. unfold call_at. by rewrite C, list_lookup_insert_ne. }
  assert (Hnew : call_at p sv' = Some cs') by (unfold call_at; rewrite C; by apply list_lookup_insert_eq).
  assert (Hfw : forall i, forwarder_at i sv' = forwarder_at i sv) by (intros i; unfold forwarder_at; by rewrite Fw).
  split; rewrite ?T, ?Fw; try (setoid_rewrite Hfw).
  - intros id' q Hq. destruct (A id' q Hq) as (d & Hd & Hdid & Hdf). destruct (decide (q = p)) as [->|Hqp].
    + exists cs'. rewrite Hname. split_and!; [done| |done]. congruence.
    + exists d. auto.
  - intros q d [[-> ->]|[_ Hd]]%Hat; [done|by eapply B].
  - intros q q' d d' i [[-> ->]|[Hq Hd]]%Hat [[-> ->]|[Hq' Hd']]%Hat Hi Hi'; [done| | |by eapply C'].
    + symmetry. by eapply Hsingle.
    + by eapply Hsingle.
  - done.
  - intros i f Hf Hs. destruct (E i f Hf Hs); auto.
  - intros i f Hf Hc. destruct (F i f Hf Hc) as [Hi|[Hi|(id' & q & d & H1 & H2 & H3)]]; [|right; left; auto|].
    + destruct (Howned i f Hf Hc (or_introl Hi)) as [?|[?|?]]; [by left|by right; left|]. right; right. exists id, p, cs'. by rewrite T.
    + destruct (decide (q = p)) as [->|Hqp].
      * assert (d = cs) as -> by congruence.
        destruct (Howned i f Hf Hc (or_intror H3)) as [?|[?|?]]; [by left|by right; left|]. right; right. exists id, p, cs'. by rewrite T.
      * right; right. exists id', q, d. rewrite T. auto.
Qed.

(** A new call. *)
Lemma table_new_call l cs sv sv' : sv_callStates sv !! cs_CallID cs = None -> cs_finalized cs = false ->
  cs_RTPForwarders cs = [] -> cs_RTPForwarder cs = None -> cs_StreamForwarders cs = ∅ ->
  sv_calls sv' = sv_calls sv ++ [cs] ->
  sv_callStates sv' = <[cs_CallID cs := List.length (sv_calls sv)]> (sv_callStates sv) ->
  sv_forwarders sv' = sv_forwarders sv -> sv_running sv' = sv_running sv -> table l sv -> table l sv'.
Proof.
  intros Hid Hfin Hf Hpr Hst C T Fw R [A B C' D E F].
  assert (Hat : forall q d, call_at q sv' = Some d -> (q = List.length (sv_calls sv) /\ d = cs) \/ call_at q sv = Some d).
  { intros q d. unfold call_at. rewrite C. intros [?|[? Hd]]%lookup_app_Some; [by right|left].
    apply list_lookup_singleton_Some in Hd as [? <-]. split; [lia|done]. }
  assert (Hat' : forall q d, call_at q sv = Some d -> call_at q sv' = Some d).
  { intros q d Hd. unfold call_at. rewrite C. by apply lookup_app_l_Some. }
  assert (Hnew : call_at (List.length (sv_calls sv)) sv' = Some cs).
  { unfold call_at. rewrite C, lookup_app_r by done. by rewrite Nat.sub_diag. }
  assert (Hfw : forall i, forwarder_at i sv' = forwarder_at i sv) by (intros i; unfold forwarder_at; by rewrite Fw).
  split; rewrite ?T, ?Fw, ?R; try (setoid_rewrite Hfw); try done.
  - intros id q [[<- <-]|[_ Hq]]%lookup_insert_Some; [by exists cs|]. destruct (A id q Hq) as (d & Hd & ?). exists d. auto.
  - intros q d [[-> ->]|Hd]%Hat; [|by eapply B]. split; rewrite ?Hf, ?Hpr, ?Hst; try done; try by intros ? ?%elem_of_nil. constructor.
  - intros q q' d d' i [[-> ->]|Hd]%Hat [[-> ->]|Hd']%Hat; rewrite ?Hf; try by intros ?%elem_of_nil.
    { by intros _ ?%elem_of_nil. } by apply C'.
  - intros i f Hfi Hc. destruct (F i f Hfi Hc) as [?|[?|(id & q & d & H1 & H2 & H3)]]; [by left|by right; left|].
    right; right. exists id, q, d. rewrite T. split_and!; auto. apply lookup_insert_Some. right. split; [|done]. intros <-. congruence.
Qed.

(** The map of calls is all that [finalizeCall] needs. *)
Lemma call_in_table l id p sv : table l sv -> sv_callStates sv !! id = Some p ->
  exists cs, call_at p sv = Some cs /\ cs_CallID cs = id /\ cs_finalized cs = false.
Proof. intros Ht. apply (tb_table _ _ Ht). Qed.

Lemma sound_cleans ids l sv sv' : cleans ids sv sv' -> same_rest sv sv' -> sound (ids ++ l) sv -> sound l sv'.
Proof.
  intros Hc Hr [A B]. split; [by apply (cl_books _ _ _ Hc)|]. eapply table_cleaned; [exact Hc|]. by eapply table_cleans.
Qed.

Lemma sound_cleans_some ids l sv sv' : cleans ids sv sv' -> same_rest sv sv' -> sound l sv -> sound l sv'.
Proof. intros Hc Hr [A B]. split; [by apply (cl_books _ _ _ Hc)|by eapply table_cleans]. Qed.

Lemma cleanup_all_cleans e l sv : cleans l sv (cleanup_all e l sv).
Proof. apply cleans_fold. intros. apply cleanup_forwarder_cleans. Qed.

Lemma cleanup_all_rest e l sv : same_rest sv (cleanup_all e l sv).
Proof. apply rest_fold. intros. apply cleanup_rest. Qed.

(** Starting forwarders: they run, and the streams of the call name them. *)
Lemma start_all_fields p todo cs sv : call_at p sv = Some cs ->
  let sv' := start_all p todo sv in
  (exists streams, sv_calls sv' = <[p := cs <| cs_StreamForwarders := streams |>]> (sv_calls sv) /\
    forall label i, streams !! label = Some i -> i ∈ map snd todo \/ cs_StreamForwarders cs !! label = Some i) /\
  sv_callStates sv' = sv_callStates sv /\ sv_forwarders sv' = sv_forwarders sv /\ sv_platform sv' = sv_platform sv /\
  sv_sent sv' = sv_sent sv /\ sv_active sv' = sv_active sv /\
  sv_running sv' = sv_running sv ∪ list_to_set (map snd todo).
Proof.
  revert cs sv. induction todo as [|[label i] todo IH]; intros cs sv Hp sv'.
  - subst sv'. cbn. split_and!; try done; [|set_solver]. exists (cs_StreamForwarders cs). split; [|by right].
    replace (cs <| cs_StreamForwarders := _ |>) with cs by (by destruct cs). by rewrite list_insert_id.
  - change sv' with (start_all p todo (start_forwarder p label i sv)). clear sv'. cbn [map snd].
    set (sv1 := start_forwarder p label i sv).
    set (cs1 := cs <| cs_StreamForwarders := <[label := i]> (cs_StreamForwarders cs) |>).
    assert (C1 : sv_calls sv1 = <[p := cs1]> (sv_calls sv)).
    { unfold sv1, start_forwarder. set (sv0 := update_call p _ sv). assert (E : sv_calls sv0 = <[p := cs1]> (sv_calls sv)).
      { unfold sv0. by rewrite (update_call_at _ _ cs _ Hp). }
      rewrite <- E. by destruct sv0. }
    assert (R1 : sv_callStates sv1 = sv_callStates sv /\ sv_forwarders sv1 = sv_forwarders sv /\
      sv_platform sv1 = sv_platform sv /\ sv_sent sv1 = sv_sent sv /\ sv_active sv1 = sv_active sv /\
      sv_running sv1 = {[i]} ∪ sv_running sv) by (by destruct sv).
    assert (A1 : call_at p sv1 = Some cs1).
    { unfold call_at. rewrite C1. apply list_lookup_insert_eq. by eapply lookup_lt_Some. }
    clearbody sv1. destruct (IH cs1 sv1 A1) as ((streams & S1 & S2) & T & Fw & Pl & Se & Ac & Ru). destruct R1 as (T1 & F1 & P1 & Se1 & Ac1 & Ru1).
    split_and!; try congruence; [|rewrite Ru, Ru1; set_solver]. exists streams. split.
    + rewrite S1, C1, list_insert_insert_eq. unfold cs1. by destruct cs.
    + intros lb k Hk. destruct (S2 lb k Hk) as [?|Hk']; [left; by right|]. unfold cs1 in Hk'. destruct cs; cbn in Hk'.
      apply lookup_insert_Some in Hk' as [[_ <-]|[_ ?]]; [left; by left|by right].
Qed.

(** ** What a handler leaves of the state before it *)

(** The forwarders there were are as before, as far as ports matter. *)
Definition extends sv0 sv : Prop := forall i f0, forwarder_at i sv0 = Some f0 ->
  exists f, forwarder_at i sv = Some f /\ same_port f0 f.

(** The forwarders from [n] on are cleaned up. *)
Definition cleaned_from (n : nat) sv : Prop := forall i f, (n <= i)%nat -> forwarder_at i sv = Some f -> fw_isCleanedUp f = true.

#[export] Instance extends_preorder : PreOrder extends.
Proof.
  split; [intros sv i f Hf; by exists f|]. intros a b c Hab Hbc i f Hf. destruct (Hab i f Hf) as (g & Hg & Hs).
  destruct (Hbc i g Hg) as (h & Hh & Hs'). exists h. split; [done|by etrans].
Qed.

Lemma extends_quiet sv sv' : quiet sv sv' -> extends sv sv'.
Proof. intros Hq i f Hf. by eapply quiet_forwarder_l. Qed.

Lemma extends_same sv sv' : sv_forwarders sv' = sv_forwarders sv -> extends sv sv'.
Proof. intros E i f Hf. exists f. unfold forwarder_at in *. by rewrite E. Qed.

Lemma extends_creates n created ok sv sv' : creates n created ok sv sv' -> extends sv sv'.
Proof.
  intros [_ _ _ _ (new & N & _)] i f Hf. exists f. split; [|done]. unfold forwarder_at in *. rewrite N. by apply lookup_app_l_Some.
Qed.

Lemma extends_length sv sv' : extends sv sv' -> (List.length (sv_forwarders sv) <= List.length (sv_forwarders sv'))%nat.
Proof.
  intros He. destruct (decide (List.length (sv_forwarders sv) = 0%nat)) as [->|Hn]; [lia|].
  destruct (lookup_lt_is_Some_2 (sv_forwarders sv) (List.length (sv_forwarders sv) - 1)) as [f Hf]; [lia|].
  destruct (He _ f Hf) as (g & Hg & _). apply lookup_lt_Some in Hg. lia.
Qed.

Lemma extends_cleans ids sv0 sv sv' : cleans ids sv sv' -> (forall i, i ∈ ids -> (List.length (sv_forwarders sv0) <= i)%nat) ->
  extends sv0 sv -> extends sv0 sv'.
Proof.
  intros [_ L K _ _] Hids He i f Hf. destruct (He i f Hf) as (g & Hg & Hs).
  destruct (lookup_lt_is_Some_2 (sv_forwarders sv') i) as [h Hh]; [rewrite L; by eapply lookup_lt_Some|].
  destruct (K i h Hh) as (g' & Hg' & _ & _ & Hout). assert (g' = g) as -> by congruence. exists h. split; [done|].
  etrans; [exact Hs|]. apply Hout. intros Hi%Hids. apply lookup_lt_Some in Hf. lia.
Qed.

Lemma cleaned_quiet n sv sv' : quiet sv sv' -> cleaned_from n sv -> cleaned_from n sv'.
Proof. intros Hq Hc i f Hi Hf. destruct (quiet_forwarder _ _ _ _ Hq Hf) as (g & Hg & Hs). rewrite (sp_clean _ _ Hs). by eapply Hc. Qed.

Lemma cleaned_cleans n ids sv sv' : cleans ids sv sv' ->
  (forall i f, (n <= i)%nat -> forwarder_at i sv = Some f -> i ∈ ids \/ fw_isCleanedUp f = true) -> cleaned_from n sv'.
Proof.
  intros [_ L K _ _] Hc i f Hi Hf. destruct (K i f Hf) as (g & Hg & _ & Hin & Hout). destruct (decide (i ∈ ids)) as [?|Hn]; [auto|].
  rewrite (sp_clean _ _ (Hout Hn)). destruct (Hc i g Hi Hg) as [?|?]; done.
Qed.

Lemma cleaned_end sv : cleaned_from (List.length (sv_forwarders sv)) sv.
Proof. intros i f Hi Hf. apply lookup_lt_Some in Hf. lia. Qed.

(** Then the same ports are in use. *)
Lemma same_used sv sv' : books sv -> books sv' -> extends sv sv' -> cleaned_from (List.length (sv_forwarders sv)) sv' ->
  pa_used (ports_of sv') = pa_used (ports_of sv).
Proof.
  intros B B' He Hc. apply set_eq. intros x. rewrite (bk_used _ B), (bk_used _ B'). split; intros (i & f & Hf & Hcl & Hx).
  - destruct (decide (i < List.length (sv_forwarders sv))%nat) as [Hi|Hi].
    + destruct (lookup_lt_is_Some_2 (sv_forwarders sv) i Hi) as [g Hg]. destruct (He i g Hg) as (f' & Hf' & Hs).
      assert (f' = f) as -> by congruence. exists i, g. split; [done|]. rewrite <- (sp_clean _ _ Hs), <- (same_port_ports _ _ Hs). done.
    + rewrite (Hc i f) in Hcl; [done|lia|done].
  - destruct (He i f Hf) as (g & Hg & Hs). exists i, g. split; [done|]. by rewrite (sp_clean _ _ Hs), (same_port_ports _ _ Hs).
Qed.

(** ** Responses *)

(** The status codes of the responses to a message that can be answered. *)
Definition answers (m : SIPMessage) (codes : list Z) sv sv' : Prop :=
  ms_Transaction m = true -> is_Some (ms_Request m) ->
  exists rs, sv_sent sv' = sv_sent sv ++ rs /\ map sr_Status rs = codes /\ Forall (fun r => sr_CallID r = ms_CallID m) rs.

Lemma answers_none m sv sv' : sv_sent sv' = sv_sent sv -> answers m [] sv sv'.
Proof. intros E _ _. exists []. by rewrite E, app_nil_r. Qed.

Lemma answers_send m code body sv : answers m [code] sv (sendResponse m code body sv).
Proof. intros E [r Hr]. unfold sendResponse. rewrite E, Hr. destruct sv. eexists. split; [done|]. split; [done|]. by constructor. Qed.

Lemma answers_trans m a b sv1 sv2 sv3 : answers m a sv1 sv2 -> answers m b sv2 sv3 -> answers m (a ++ b) sv1 sv3.
Proof.
  intros Ha Hb E Hr. destruct (Ha E Hr) as (rs & R1 & <- & R2), (Hb E Hr) as (rs' & S1 & <- & S2).
  exists (rs ++ rs'). rewrite S1, R1, <- app_assoc, map_app. split_and!; try done. by apply Forall_app.
Qed.

Lemma answers_then m a sv1 sv2 code body : answers m a sv1 sv2 -> answers m (a ++ [code]) sv1 (sendResponse m code body sv2).
Proof. intros Ha. eapply answers_trans; [exact Ha|apply answers_send]. Qed.

Lemma answers_silent m a sv1 sv2 sv3 : answers m a sv1 sv2 -> sv_sent sv3 = sv_sent sv2 -> answers m a sv1 sv3.
Proof. intros Ha E. rewrite <- (app_nil_r a). eapply answers_trans; [exact Ha|by apply answers_none]. Qed.
End steps.

(** ** INVITE *)

Section invite.
Context `{Unicode} `{Rfc3339} `{SipLibrary} `{Calendar} `{UnicodeLetters} `{!GoMapRange string} `{Libraries}.
Context `{PortAllocator St Oracle}.
Context (cfg : ServerConfig).
Implicit Types (sv : Server St) (e : Env Oracle) (m : SIPMessage) (p i : nat) (l : list nat).

(** The number of forwarders there are. *)
Definition count sv : nat := List.length (sv_forwarders sv).

Lemma count_quiet sv sv' : quiet sv sv' -> count sv' = count sv.
Proof. intros Hq. symmetry. apply (Forall2_length _ _ _ (q_forwarders _ _ Hq)). Qed.

Lemma honest_quiet e sv sv' : quiet sv sv' -> honest e sv -> honest e sv'.
Proof. intros Hq Hh n. unfold ports_of. rewrite (q_platform _ _ Hq). apply Hh. Qed.

Lemma sound_creates l n created ok sv sv' : creates n created ok sv sv' -> (books sv -> books sv') ->
  sound l sv -> sound (created ++ l) sv'.
Proof. intros Hc Hb [A B]. split; [auto|by eapply table_creates]. Qed.

(** No call has the forwarders that were just created. *)
Lemma created_unowned l n created ok sv sv1 sv2 i q d : table l sv -> creates n created ok sv sv1 -> quiet sv1 sv2 ->
  i ∈ created -> call_at q sv2 = Some d -> i ∉ cs_RTPForwarders d.
Proof.
  intros Ht Hc Hq Hi Hd Hin. destruct (quiet_call _ _ _ _ Hq Hd) as (d0 & Hd0 & Hs). rewrite (sc_forwarders _ _ Hs) in Hin.
  destruct (cr_rest _ _ _ _ _ Hc) as (_ & R & _). unfold call_at in Hd0. rewrite R in Hd0.
  pose proof (ck_range _ _ (tb_call _ _ Ht q d0 Hd0) i Hin). pose proof (creates_fresh _ _ _ _ _ _ Hc Hi). lia.
Qed.

(** The new forwarders are given to the call. *)
Lemma adopt_created l n created ok id p g sv sv1 sv2 :
  sv_callStates sv !! id = Some p -> (forall cs, call_at p sv = Some cs -> cs_RTPForwarders cs = []) ->
  table l sv -> creates n created ok sv sv1 -> quiet sv1 sv2 -> sound (created ++ l) sv2 ->
  (forall cs, cs_CallID (g cs) = cs_CallID cs /\ cs_finalized (g cs) = cs_finalized cs /\
     cs_RTPForwarders (g cs) = created /\ cs_RTPForwarder (g cs) = head created /\
     cs_StreamForwarders (g cs) = cs_StreamForwarders cs) ->
  sound l (update_call p g sv2) /\ exists cs, call_at p (update_call p g sv2) = Some cs /\ cs_RTPForwarders cs = created.
Proof.
  intros Hid Hempty Ht Hc Hq [Hb Ht2] Hg.
  assert (Hid2 : sv_callStates sv2 !! id = Some p).
  { rewrite (q_table _ _ Hq). by destruct (cr_rest _ _ _ _ _ Hc) as (-> & _). }
  destruct (call_in_table _ _ _ _ Ht2 Hid2) as (cs & Hcs & Hname & Hfin).
  assert (Hnone : cs_RTPForwarders cs = []).
  { destruct (quiet_call _ _ _ _ Hq Hcs) as (c0 & Hc0 & Hs). rewrite (sc_forwarders _ _ Hs).
    destruct (cr_rest _ _ _ _ _ Hc) as (_ & R & _). unfold call_at in Hc0. rewrite R in Hc0. by apply Hempty. }
  destruct (Hg cs) as (G1 & G2 & G3 & G4 & G5).
  assert (Hcount : count sv2 = count sv1) by (by apply count_quiet).
  assert (Hcalls : sv_calls (update_call p g sv2) = <[p := g cs]> (sv_calls sv2)) by (by apply update_call_at).
  split; [split|].
  - destruct Hb as [B1 B2 B3 B4]. destruct sv2. by split.
  - eapply (table_adopt (created ++ l) l id p cs (g cs) sv2); try done; try (by destruct sv2).
    + intros i. replace (sv_running (update_call p g sv2)) with (sv_running sv2) by (by destruct sv2). apply (tb_running _ _ Ht2).
    + by rewrite G2.
    + split; rewrite ?G3, ?G4, ?G5.
      * intros i Hi. pose proof (creates_fresh _ _ _ _ _ _ Hc Hi). unfold count in *. lia.
      * rewrite (cr_indices _ _ _ _ _ Hc). apply NoDup_seq.
      * intros i Hi. destruct created; [done|]. injection Hi as ->. by left.
      * intros label i Hi. apply (ck_streams _ _ (tb_call _ _ Ht2 p cs Hcs)) in Hi. rewrite Hnone in Hi. by apply elem_of_nil in Hi.
      * rewrite G2, Hfin. done.
    + intros i q d Hi Hd Hin. rewrite G3 in Hi. exfalso. by eapply (created_unowned l n created ok sv sv1 sv2 i q d).
    + intros i f _ _ Hi. rewrite Hnone, G3 in *. rewrite elem_of_app in Hi.
      destruct Hi as [[?|?]|?%elem_of_nil]; [by right; right|by left|done].
  - exists (g cs). split; [|done]. unfold call_at. rewrite Hcalls. apply list_lookup_insert_eq. by eapply lookup_lt_Some.
Qed.

(** Starting the forwarders of a call. *)
Lemma sound_start l id p cs labels sv : sv_callStates sv !! id = Some p -> call_at p sv = Some cs ->
  sound l sv -> sound l (start_all p (zip labels (cs_RTPForwarders cs)) sv).
Proof.
  intros Hid Hcs [Hb Ht]. pose proof (start_all_fields p (zip labels (cs_RTPForwarders cs)) cs sv Hcs) as Hs. cbv zeta in Hs.
  destruct Hs as ((streams & S1 & S2) & T & Fw & Pl & _ & _ & Ru). set (sv' := start_all _ _ _) in *. clearbody sv'.
  assert (Hzip : forall i, i ∈ map snd (zip labels (cs_RTPForwarders cs)) -> i ∈ cs_RTPForwarders cs).
  { intros i ([lb k] & -> & Hi)%list_elem_of_fmap. by apply elem_of_zip_r in Hi. }
  pose proof (tb_call _ _ Ht p cs Hcs) as Hok.
  split.
  - destruct Hb as [B1 B2 B3 B4]. unfold ports_of, forwarder_at in *. split; unfold ports_of, forwarder_at; by rewrite ?Pl, ?Fw.
  - eapply (table_adopt l l id p cs (cs <| cs_StreamForwarders := streams |>) sv); try done; rewrite ?Ru.
    + set_solver.
    + intros i [Hi|Hi%elem_of_list_to_set]%elem_of_union; [by apply (tb_running _ _ Ht)|]. by apply (ck_range _ _ Hok), Hzip.
    + by destruct cs.
    + destruct (call_in_table _ _ _ _ Ht Hid) as (c & Hc & _ & Hf). assert (c = cs) as -> by congruence. by destruct cs.
    + destruct Hok as [O1 O2 O3 O4 O5]. destruct cs; cbn in *. split; try done. cbn. intros label i Hi.
      destruct (S2 label i Hi) as [?|?]; [by apply Hzip|by eapply O4].
    + intros i q d Hi Hd Hin. eapply (tb_single _ _ Ht q p d cs i); try done. by destruct cs.
    + intros i f _ _ [?|?]; [by left|]. right; right. by destruct cs.
Qed.

Lemma silent_encoders l sv : sv_sent (configure_encoders cfg l sv) = sv_sent sv.
Proof.
  unfold configure_encoders. case_match; [done|]. revert sv. induction l as [|i l IH]; intros sv; [done|]. cbn. rewrite IH. by destruct sv.
Qed.

Lemma silent_configure ms d todo sv missing sv' : configure_all ms d todo sv = Some (missing, sv') -> sv_sent sv' = sv_sent sv.
Proof.
  revert sv. induction todo as [|[md i] todo IH]; intros sv; cbn; [by intros [= _ <-]|].
  intros ([b sv1] & K1 & Hr)%bind_Some.
  assert (E : sv_sent sv1 = sv_sent sv).
  { unfold configure_one in K1. destruct (forwarder_at i sv); [|by injection K1 as _ <-]. apply bind_Some in K1 as (f & _ & [= _ <-]). by destruct sv. }
  destruct b; [by injection Hr as _ <-|]. rewrite <- E. by apply IH.
Qed.

Lemma silent_update p g sv : sv_sent (update_call p g sv) = sv_sent sv.
Proof. by destruct sv. Qed.

Lemma silent_cleanup e l sv : sv_sent (cleanup_all e l sv) = sv_sent sv.
Proof. by destruct (cleanup_all_rest e l sv) as (_ & _ & _ & _ & _ & ?). Qed.

(** The forwarders from [n] on are alive. *)
Definition live_from (n : nat) sv : Prop := forall i f, (n <= i)%nat -> forwarder_at i sv = Some f ->
  fw_isCleanedUp f = false /\ fw_stopped f = false.

Lemma live_quiet n sv sv' : quiet sv sv' -> live_from n sv -> live_from n sv'.
Proof. intros Hq Hl i f Hi Hf. destruct (quiet_forwarder _ _ _ _ Hq Hf) as (g & Hg & [_ _ -> ->]). by eapply Hl. Qed.

Lemma live_creates n created ok sv sv' : creates n created ok sv sv' -> live_from (count sv) sv'.
Proof.
  intros [_ _ _ _ (new & N1 & _ & N3)] i f Hi. unfold forwarder_at. rewrite N1, lookup_app_r by done. rewrite Forall_lookup in N3. apply N3.
Qed.

(** The call has taken [n] new forwarders, which run. *)
Record taken p (n : nat) sv sv' : Prop := {
  tk_count : count sv' = (count sv + n)%nat;
  tk_running : sv_running sv' = sv_running sv ∪ list_to_set (seq (count sv) n);
  tk_live : live_from (count sv) sv';
  tk_call : exists cs, call_at p sv' = Some cs /\ cs_RTPForwarders cs = seq (count sv) n
}.

(** A step of the handler: the invariant, the map of calls and the forwarders of others. *)
Record proper l sv sv' : Prop := {
  pr_sound : sound l sv';
  pr_table : sv_callStates sv' = sv_callStates sv;
  pr_extends : extends sv sv'
}.

Lemma proper_quiet l sv sv1 sv2 : proper l sv sv1 -> quiet sv1 sv2 -> proper l sv sv2.
Proof.
  intros [A B C] Hq. split; [by eapply sound_quiet|by rewrite (q_table _ _ Hq)|]. etrans; [exact C|by apply extends_quiet].
Qed.

(** The call has only forwarders from [n] on. *)
Definition new_only p (n : nat) sv : Prop := forall cs i, call_at p sv = Some cs -> i ∈ cs_RTPForwarders cs -> (n <= i)%nat.

Lemma new_only_quiet p n sv sv' : quiet sv sv' -> new_only p n sv -> new_only p n sv'.
Proof.
  intros Hq Hn cs i Hcs Hi. destruct (quiet_call _ _ _ _ Hq Hcs) as (c & Hc & Hs). rewrite (sc_forwarders _ _ Hs) in Hi. by eapply Hn.
Qed.

Lemma new_only_rest p n sv sv' : same_rest sv sv' -> new_only p n sv -> new_only p n sv'.
Proof. intros (_ & E & _) Hn cs i. unfold call_at. rewrite E. apply Hn. Qed.

Lemma new_only_empty p n sv : (forall cs, call_at p sv = Some cs -> cs_RTPForwarders cs = []) -> new_only p n sv.
Proof. intros He cs i Hcs. rewrite (He cs Hcs). by intros ?%elem_of_nil. Qed.

(** A rejection: nothing is left but the response. *)
Record rejects p m (codes : list Z) l sv sv' : Prop := {
  rj_new : new_only p (count sv) sv';
  rj_proper : proper l sv sv';
  rj_cleaned : cleaned_from (count sv) sv';
  rj_answer : exists code, code ∈ codes /\ answers m [code] sv sv'
}.

Lemma rejects_send p m codes code l sv sv1 : code ∈ codes -> new_only p (count sv) sv1 -> proper l sv sv1 ->
  cleaned_from (count sv) sv1 -> sv_sent sv1 = sv_sent sv -> rejects p m codes l sv (sendResponse m code "" sv1).
Proof.
  intros Hcode Hn Hp Hc Hsent. split.
  - eapply new_only_quiet; [apply quiet_send|exact Hn].
  - eapply proper_quiet; [exact Hp|apply quiet_send].
  - eapply cleaned_quiet; [apply quiet_send|exact Hc].
  - exists code. split; [done|]. apply (answers_then m [] sv). by apply answers_none.
Qed.

(** Giving back what was taken: all forwarders of [ids] are new and there are no others. *)
Lemma rejects_give_back e p m codes code ids l sv sv1 : code ∈ codes -> new_only p (count sv) sv1 -> proper l sv sv1 ->
  (forall i, i ∈ ids <-> (count sv <= i < count sv1)%nat) -> sv_sent sv1 = sv_sent sv ->
  rejects p m codes l sv (sendResponse m code "" (cleanup_all e ids sv1)).
Proof.
  intros Hcode Hn [A B C] Hids Hsent. pose proof (cleanup_all_cleans e ids sv1) as Hc. pose proof (cleanup_all_rest e ids sv1) as Hr.
  apply rejects_send; [done|by eapply new_only_rest|split| |by rewrite silent_cleanup].
  - by eapply sound_cleans_some.
  - destruct Hr as (-> & _). done.
  - eapply extends_cleans; [exact Hc| |exact C]. intros i Hi%Hids. unfold count in *. lia.
  - eapply cleaned_cleans; [exact Hc|]. intros i f Hi Hf. left. apply Hids. apply lookup_lt_Some in Hf. unfold count in *. lia.
Qed.

(** The forwarders that were created are the new ones. *)
Lemma created_new n created ok sv sv' i : creates n created ok sv sv' -> i ∈ created <-> (count sv <= i < count sv')%nat.
Proof.
  intros Hc. rewrite (cr_indices _ _ _ _ _ Hc), elem_of_seq. destruct (cr_prefix _ _ _ _ _ Hc) as (new & N1 & N2 & _).
  unfold count. rewrite N1, length_app. lia.
Qed.

(** Not all of them could be created. *)
Lemma rejects_creates e p m codes code n created ok l sv sv1 : code ∈ codes -> new_only p (count sv) sv ->
  creates n created ok sv sv1 -> (books sv -> books sv1) -> sound l sv -> rejects p m codes l sv (sendResponse m code "" (cleanup_all e created sv1)).
Proof.
  intros Hcode Hn Hc Hb Hs. pose proof (cleanup_all_cleans e created sv1) as Hcl. pose proof (cleanup_all_rest e created sv1) as Hr.
  pose proof (cr_rest _ _ _ _ _ Hc) as (T1 & _ & _ & _ & _ & Se1).
  apply rejects_send; [done|eapply new_only_rest, new_only_rest, Hn; [exact Hr|apply (cr_rest _ _ _ _ _ Hc)]|split| |by rewrite silent_cleanup].
  - eapply sound_cleans; [exact Hcl|exact Hr|]. by eapply sound_creates.
  - by destruct Hr as (-> & _).
  - eapply extends_cleans; [exact Hcl| |by eapply extends_creates]. intros i Hi%(created_new _ _ _ _ _ _ Hc). unfold count in *. lia.
  - eapply cleaned_cleans; [exact Hcl|]. intros i f Hi Hf. left. apply (created_new _ _ _ _ _ _ Hc).
    apply lookup_lt_Some in Hf. unfold count in *. lia.
Qed.

(** The call has [n] new forwarders. *)
Record given l p (n : nat) sv sv' : Prop := {
  gv_proper : proper l sv sv';
  gv_count : count sv' = (count sv + n)%nat;
  gv_running : sv_running sv' = sv_running sv;
  gv_live : live_from (count sv) sv';
  gv_sent : sv_sent sv' = sv_sent sv;
  gv_call : exists cs, call_at p sv' = Some cs /\ cs_RTPForwarders cs = seq (count sv) n
}.

Lemma given_quiet l p n sv sv1 sv2 : given l p n sv sv1 -> quiet sv1 sv2 -> sv_sent sv2 = sv_sent sv1 -> given l p n sv sv2.
Proof.
  intros [A B C D E (cs & F1 & F2)] Hq Hsent. split.
  - by eapply proper_quiet.
  - by rewrite (count_quiet _ _ Hq).
  - by rewrite (q_running _ _ Hq).
  - by eapply live_quiet.
  - congruence.
  - destruct (quiet_call_l _ _ _ _ Hq F1) as (c & Hc & Hs). exists c. by rewrite (sc_forwarders _ _ Hs).
Qed.

Lemma given_new_only l p n sv sv' : given l p n sv sv' -> new_only p (count sv) sv'.
Proof.
  intros [_ _ _ _ _ (cs & Hcs & E)] c i Hc Hi. assert (c = cs) as -> by congruence. rewrite E in Hi. apply elem_of_seq in Hi. lia.
Qed.

Lemma taken_new_only p n sv sv' : taken p n sv sv' -> new_only p (count sv) sv'.
Proof.
  intros [_ _ _ (cs & Hcs & E)] c i Hc Hi. assert (c = cs) as -> by congruence. rewrite E in Hi. apply elem_of_seq in Hi. lia.
Qed.

Lemma creates_seq n created sv sv' : creates n created true sv sv' -> created = seq (count sv) n.
Proof. intros Hc. rewrite (cr_indices _ _ _ _ _ Hc). by rewrite (cr_count _ _ _ _ _ Hc). Qed.

Lemma given_created l n created id p sdp sv sv1 :
  sv_callStates sv !! id = Some p -> (forall cs, call_at p sv = Some cs -> cs_RTPForwarders cs = []) ->
  sound l sv -> creates n created true sv sv1 -> (books sv -> books sv1) ->
  given l p n sv (update_call p (fun cs => cs <| cs_RTPForwarders := created |> <| cs_RTPForwarder := head created |>
    <| cs_SDP := sdp |>) (configure_encoders cfg created sv1)).
Proof.
  intros Hid Hempty Hs Hc Hb. pose proof (quiet_encoders cfg created sv1) as Hq. pose proof (silent_encoders created sv1) as Se.
  set (sv2 := configure_encoders cfg created sv1) in *. clearbody sv2. set (g := fun cs : CallState => _).
  destruct (adopt_created l _ created true id p g sv sv1 sv2 Hid Hempty (proj2 Hs) Hc Hq) as [Hs3 (cs & Hcs & Hf)].
  { eapply sound_quiet; [exact Hq|]. by eapply sound_creates. }
  { intros c. by destruct c. }
  pose proof (cr_rest _ _ _ _ _ Hc) as (T1 & _ & _ & _ & _ & Se1). destruct (cr_prefix _ _ _ _ _ Hc) as (new & N1 & N2 & _).
  set (sv3 := update_call p g sv2) in *.
  assert (E3 : sv_callStates sv3 = sv_callStates sv2 /\ sv_forwarders sv3 = sv_forwarders sv2 /\ sv_running sv3 = sv_running sv2 /\
    sv_sent sv3 = sv_sent sv2) by (by destruct sv2). clearbody sv3. destruct E3 as (E1 & E2 & E3 & E4). split.
  - split; [done|by rewrite E1, (q_table _ _ Hq)|].
    etrans; [by eapply extends_creates|]. etrans; [by apply extends_quiet|by apply extends_same].
  - transitivity (count sv2); [unfold count; by rewrite E2|]. rewrite (count_quiet _ _ Hq). unfold count.
    by rewrite N1, length_app, N2, (cr_count _ _ _ _ _ Hc).
  - by rewrite E3, (q_running _ _ Hq), (cr_running _ _ _ _ _ Hc).
  - intros i f Hi. unfold forwarder_at. rewrite E2. by apply (live_quiet _ _ _ Hq (live_creates _ _ _ _ _ Hc)).
  - congruence.
  - exists cs. split; [done|]. rewrite Hf. by eapply creates_seq.
Qed.

(** Starting them. *)
Lemma taken_started l n id p labels sv sv1 : sv_callStates sv !! id = Some p -> given l p n sv sv1 -> List.length labels = n ->
  let sv2 := start_all p (zip labels (seq (count sv) n)) sv1 in
  proper l sv sv2 /\ taken p n sv sv2 /\ sv_sent sv2 = sv_sent sv.
Proof.
  intros Hid [[P1 P2 P3] B C D E (cs & F1 & F2)] Hn sv2. assert (Hid1 : sv_callStates sv1 !! id = Some p) by (by rewrite P2).
  pose proof (sound_start l id p cs labels sv1 Hid1 F1 P1) as Hs2. pose proof (start_all_fields p (zip labels (seq (count sv) n)) cs sv1 F1) as Hst.
  cbv zeta in Hst. rewrite F2 in Hs2. fold sv2 in Hs2, Hst. destruct Hst as ((streams & S1 & _) & T & Fw & _ & Se & _ & R). clearbody sv2.
  split_and!; [split; [done|congruence|]|split|congruence].
  - etrans; [exact P3|by apply extends_same].
  - unfold count in *. by rewrite Fw.
  - rewrite R, C. f_equal. f_equal. apply snd_zip. rewrite length_seq. lia.
  - intros i f Hi. unfold forwarder_at. rewrite Fw. by apply D.
  - eexists. split; [unfold call_at; rewrite S1; apply list_lookup_insert_eq; by eapply lookup_lt_Some|]. rewrite <- F2. by destruct cs.
Qed.

Lemma invite_media_spec e m p id s d l sv answer sv' :
  sv_callStates sv !! id = Some p -> (forall cs, call_at p sv = Some cs -> cs_RTPForwarders cs = []) ->
  honest e sv -> sound l sv -> invite_media cfg e m p s d sv = Some (answer, sv') ->
  match answer with
  | None => rejects p m [488; 500] l sv sv'
  | Some _ => proper l sv sv' /\ taken p (List.length (audio_streams d)) sv sv' /\ audio_streams d <> [] /\ sv_sent sv' = sv_sent sv
  end.
Proof.
  intros Hid Hempty Hh Hs. unfold invite_media. destruct (sc_Media cfg) as [ms|].
  2:{ intros [= <- <-]. apply rejects_send; [set_solver|by apply new_only_empty|by split|apply cleaned_end|done]. }
  case_bool_decide as Hne.
  { intros [= <- <-]. apply rejects_send; [set_solver|by apply new_only_empty|by split|apply cleaned_end|done]. }
  destruct (new_forwarders _ _ _ _ _ _) as [[created ok] sv1] eqn:En.
  destruct (new_forwarders_spec _ _ _ _ _ _ _ _ _ En (Hh _)) as [Hc Hb]. destruct ok; cbn [negb].
  2:{ intros [= <- <-]. eapply rejects_creates; [set_solver|by apply new_only_empty|done..]. }
  pose proof (given_created l _ created id p (ms_Body m) sv sv1 Hid Hempty Hs Hc Hb) as G. rewrite (creates_seq _ _ _ _ Hc) in *.
  set (n := List.length (audio_streams d)) in *. set (sv2 := update_call p _ _) in *. clearbody sv2. clear En Hc Hb created sv1.
  intros ([missing sv3] & K3 & Hr)%bind_Some.
  pose proof (given_quiet _ _ _ _ _ _ G (quiet_configure _ _ _ _ _ _ K3) (silent_configure _ _ _ _ _ _ K3)) as G3.
  destruct missing.
  { injection Hr as <- <-. apply rejects_give_back; [set_solver|by eapply given_new_only|by apply (gv_proper _ _ _ _ _ G3)| |by apply (gv_sent _ _ _ _ _ G3)].
    intros i. rewrite elem_of_seq, (gv_count _ _ _ _ _ G3). lia. }
  set (s4 := s <| rs_SDPStreamLabels := _ |>) in Hr.
  pose proof (given_quiet _ _ _ _ _ _ G3 (quiet_session p s4 sv3) (silent_update p _ sv3)) as G4. set (sv4 := set_session p s4 sv3) in *.
  destruct (taken_started l n id p (map snd (audio_streams d)) sv sv4 Hid G4) as (P5 & T5 & Se5); [by rewrite length_map|].
  set (sv5 := start_all _ _ _) in *.
  destruct (li_marshal _) as [body|]; injection Hr as <- <-; [done|].
  apply rejects_give_back; [set_solver|by eapply taken_new_only|done| |done]. intros i. rewrite elem_of_seq, (tk_count _ _ _ _ T5). lia.
Qed.

Lemma metadata_answers e m p body sv :
  match (invite_metadata cfg e m p body sv).1 with
  | None => exists code, code ∈ [400; 403] /\ answers m [code] sv (invite_metadata cfg e m p body sv).2
  | Some _ => sv_sent (invite_metadata cfg e m p body sv).2 = sv_sent sv
  end.
Proof.
  unfold invite_metadata. destruct (parseSiprecMetadata _ _ _ _ _) as [md|]; cbn [fst snd].
  2:{ exists 400. split; [set_solver|apply answers_send]. }
  set (s := default _ _). set (sv1 := match md_PolicyUpdates md with [] => _ | _ => _ end).
  assert (E1 : sv_sent sv1 = sv_sent sv) by (subst sv1; case_match; by destruct sv). clearbody sv1.
  assert (E2 : sv_sent (EvaluateRecordingPolicy e s md sv1).2 = sv_sent sv1).
  { unfold EvaluateRecordingPolicy. destruct (sv_policy sv1); [|done]. destruct (EvaluateSession _ _ _ _ _). by destruct sv1. }
  destruct (EvaluateRecordingPolicy e s md sv1) as [d sv2]. cbn in E2. destruct (IsBlocked d); cbn [fst snd].
  - exists 403. split; [set_solver|]. apply (answers_then m [] sv). apply answers_none. congruence.
  - rewrite <- E1, <- E2. apply silent_update.
Qed.

Lemma taken_quiet p n sv sv1 sv2 : taken p n sv sv1 -> quiet sv1 sv2 -> taken p n sv sv2.
Proof.
  intros [A B C (cs & D1 & D2)] Hq. split; [by rewrite (count_quiet _ _ Hq)|by rewrite (q_running _ _ Hq)|by eapply live_quiet|].
  destruct (quiet_call_l _ _ _ _ Hq D1) as (c & Hc & Hs). exists c. by rewrite (sc_forwarders _ _ Hs).
Qed.

(** The final response. *)
Lemma accept_answers e k m p sdp sv :
  let '(accepted, sv') := accept_call cfg e k m p sdp sv in
  answers m [if accepted then 200 else 500] sv sv' /\
  (accepted = true -> forall cs, call_at p sv' = Some cs -> cs_State cs = "awaiting_ack" /\ cs_PendingAckCSeq cs = cs_RemoteCSeq cs).
Proof.
  unfold accept_call.
  assert (Hack : forall sv m code body, forall cs, call_at p (sendResponse m code body (await_ack e k p sv)) = Some cs ->
    cs_State cs = "awaiting_ack" /\ cs_PendingAckCSeq cs = cs_RemoteCSeq cs).
  { clear. intros sv m code body cs. assert (E : call_at p (sendResponse m code body (await_ack e k p sv)) = call_at p (await_ack e k p sv)).
    { unfold sendResponse. by repeat case_match; destruct sv. }
    rewrite E. unfold await_ack, update_call, call_at. destruct sv; cbn. rewrite list_lookup_alter. case_decide; [|done].
    intros (c & _ & ->)%fmap_Some. by destruct c. }
  destruct (if sc_Multipart cfg then _ else _) as [s|].
  - destruct (generateSiprecResponse _ _ _ _ _) as [[[ct body]|err] s'].
    + split; [|intros _; apply Hack]. apply (answers_then m [] sv). apply answers_none. by destruct sv.
    + split; [|done]. apply (answers_then m [] sv). apply answers_none. by destruct sv.
  - split; [|intros _; apply Hack]. apply (answers_then m [] sv). apply answers_none. by destruct sv.
Qed.

Lemma process_invite_spec e m p id l sv accepted sv' :
  sv_callStates sv !! id = Some p -> (forall cs, call_at p sv = Some cs -> cs_RTPForwarders cs = []) ->
  honest e sv -> sound l sv -> process_invite cfg e m p sv = Some (accepted, sv') ->
  proper l sv sv' /\ new_only p (count sv) sv' /\
  if accepted : bool then
    answers m [200] sv sv' /\ (exists n, (0 < n)%nat /\ taken p n sv sv') /\
    forall cs, call_at p sv' = Some cs -> cs_State cs = "awaiting_ack" /\ cs_PendingAckCSeq cs = cs_RemoteCSeq cs
  else (exists code, code ∈ [400; 403; 488; 500] /\ answers m [code] sv sv') /\
    (cleaned_from (count sv) sv' \/ exists n, taken p n sv sv').
Proof.
  intros Hid Hempty Hh Hs. unfold process_invite. destruct (extractSiprecContent _ _) as [sdpData rsMetadata].
  assert (Hrej : forall code sv1, code ∈ [400; 403; 488; 500] -> quiet sv sv1 -> sv_sent sv1 = sv_sent sv ->
    proper l sv (sendResponse m code "" sv1) /\ new_only p (count sv) (sendResponse m code "" sv1) /\ (exists code', code' ∈ [400; 403; 488; 500] /\ answers m [code'] sv (sendResponse m code "" sv1)) /\
    (cleaned_from (count sv) (sendResponse m code "" sv1) \/ exists n, taken p n sv (sendResponse m code "" sv1))).
  { intros code sv1 Hcode Hq Hsent. destruct (rejects_send p m [400; 403; 488; 500] code l sv sv1) as [N P C A]; [done| | | |done|].
    - eapply new_only_quiet; [exact Hq|by apply new_only_empty].
    - eapply proper_quiet; [|exact Hq]. by split.
    - eapply cleaned_quiet; [exact Hq|apply cleaned_end].
    - auto. }
  case_match; [intros [= <- <-]; apply Hrej; [set_solver|done|done]|].
  case_match; [intros [= <- <-]; apply Hrej; [set_solver|done|done]|].
  set (sv1 := update_call p _ sv). assert (Hq1 : quiet sv sv1) by (apply quiet_update_call; intros c; by destruct c).
  assert (Se1 : sv_sent sv1 = sv_sent sv) by apply silent_update. clearbody sv1.
  pose proof (quiet_metadata cfg e m p rsMetadata sv1) as Hq2. pose proof (metadata_answers e m p rsMetadata sv1) as Ha.
  destruct (invite_metadata cfg e m p rsMetadata sv1) as [[s|] sv2]; cbn [fst snd] in *.
  2:{ intros [= <- <-]. destruct Ha as (code & Hcode & Ha). assert (Hq : quiet sv sv2) by (by etrans). split_and!.
      - eapply proper_quiet; [|exact Hq]. by split.
      - eapply new_only_quiet; [exact Hq|by apply new_only_empty].
      - exists code. split; [set_solver|]. apply (answers_trans m [] [code] sv sv1); [by apply answers_none|done].
      - left. eapply cleaned_quiet; [exact Hq|apply cleaned_end]. }
  assert (Hq : quiet sv sv2) by (by etrans). assert (Se2 : sv_sent sv2 = sv_sent sv) by congruence. clear Hq1 Hq2 Se1 Ha sv1.
  destruct (ParseSDPTolerant _ _) as [d|]; [|intros [= <- <-]; apply Hrej; [set_solver|done|done]].
  destruct (sd_MediaDescriptions d); [intros [= <- <-]; apply Hrej; [set_solver|done|done]|].
  intros ([answer sv3] & K3 & Hr)%bind_Some. eapply (invite_media_spec e m p id s d l sv2) in K3;
    [|by rewrite (q_table _ _ Hq)| |by eapply honest_quiet|by eapply sound_quiet].
  2:{ intros cs Hcs. destruct (quiet_call _ _ _ _ Hq Hcs) as (c & Hc & Hsame). rewrite (sc_forwarders _ _ Hsame). by apply Hempty. }
  assert (Hproper : forall sv4, proper l sv2 sv4 -> proper l sv sv4).
  { intros sv4 [A B C]. split; [done|by rewrite B, (q_table _ _ Hq)|]. etrans; [by apply extends_quiet|exact C]. }
  assert (Hsent : forall code sv4, answers m [code] sv2 sv4 -> answers m [code] sv sv4).
  { intros code sv4 Ha. apply (answers_trans m [] [code] sv sv2); [by apply answers_none|done]. }
  destruct answer as [sdp|].
  2:{ injection Hr as <- <-. destruct K3 as [N P C (code & Hcode & Ha)]. rewrite (count_quiet _ _ Hq) in C, N. split_and!; [auto|done| |by left].
      exists code. split; [set_solver|auto]. }
  destruct K3 as (P3 & T3 & Hne & Se3). assert (T : taken p (List.length (audio_streams d)) sv sv3).
  { destruct T3 as [A B C D]. rewrite (count_quiet _ _ Hq), ?(q_running _ _ Hq) in *. by split. }
  pose proof (accept_answers e 5 m p sdp sv3) as Ha. pose proof (quiet_accept cfg e 5 m p sdp sv3) as Hq4.
  destruct (accept_call cfg e 5 m p sdp sv3) as [b sv4]. cbn [snd] in Hq4. injection Hr as <- <-. destruct Ha as [Ha Hst].
  assert (Ha' : answers m [if b then 200 else 500] sv sv4).
  { apply Hsent. apply (answers_trans m [] _ sv2 sv3); [by apply answers_none|done]. }
  pose proof (Hproper _ (proper_quiet _ _ _ _ P3 Hq4)) as P4. pose proof (taken_quiet _ _ _ _ _ T Hq4) as T4. destruct b.
  - split_and!; [done|by eapply taken_new_only|done| |auto]. eexists. split; [|exact T4]. destruct (audio_streams d); [done|cbn; lia].
  - split_and!; [done|by eapply taken_new_only| |by right; eexists]. exists 500. split; [set_solver|done].
Qed.

(** The call that is added. *)
Lemma sound_new_call l e m sv : sv_callStates sv !! ms_CallID m = None -> sound l sv ->
  sound l (sv <| sv_calls := sv_calls sv ++ [new_call e m] |>
              <| sv_callStates := <[ms_CallID m := List.length (sv_calls sv)]> (sv_callStates sv) |>).
Proof.
  intros Hid [[B1 B2 B3 B4] Ht]. split; [destruct sv; by split|].
  by eapply (table_new_call l (new_call e m) sv); try done; destruct sv.
Qed.

(** Ending a call that is in the map. *)
Lemma sound_finalize l e id p reason sv : sv_callStates sv !! id = Some p -> sound l sv ->
  sound l (finalizeCall cfg e id p reason sv) /\
  exists cs, call_at p sv = Some cs /\ ends id p cs sv (finalizeCall cfg e id p reason sv).
Proof.
  intros Hid [Hb Ht]. destruct (call_in_table _ _ _ _ Ht Hid) as (cs & Hcs & _ & Hfin).
  pose proof (finalize_ends cfg e id p cs reason sv Hcs Hfin) as He. split; [|by exists cs]. split.
  - by apply (cl_books _ _ _ (ed_cleans _ _ _ _ _ He)).
  - by eapply table_ends.
Qed.

(** What an INVITE for a new call comes to. *)
Record accepted_call m sv sv' : Prop := {
  ac_answers : answers m [180; 200] sv sv';
  ac_table : sv_callStates sv' = <[ms_CallID m := List.length (sv_calls sv)]> (sv_callStates sv);
  ac_taken : exists n, (0 < n)%nat /\ taken (List.length (sv_calls sv)) n sv sv';
  ac_state : forall cs, call_at (List.length (sv_calls sv)) sv' = Some cs ->
    cs_State cs = "awaiting_ack" /\ cs_PendingAckCSeq cs = cs_RemoteCSeq cs
}.

Record rejected_call m sv sv' : Prop := {
  rc_answers : exists code, code ∈ [400; 403; 488; 500] /\ answers m [180; code] sv sv';
  rc_table : sv_callStates sv' = sv_callStates sv;
  rc_cleaned : cleaned_from (count sv) sv';
  rc_extends : extends sv sv'
}.

(** Ending a call that was rejected leaves nothing of it. *)
Lemma rejected_finalized e id p reason l sv0 sv : sv_callStates sv !! id = Some p -> sound l sv ->
  extends sv0 sv -> (cleaned_from (count sv0) sv \/ exists n, taken p n sv0 sv) ->
  new_only p (count sv0) sv -> extends sv0 (finalizeCall cfg e id p reason sv) /\ cleaned_from (count sv0) (finalizeCall cfg e id p reason sv).
Proof.
  intros Hid Hs Hext Hnew Hold. destruct (sound_finalize l e id p reason sv Hid Hs) as [_ (cs & Hcs & [Hc _ _ _ _ _])].
  pose proof (tb_call _ _ (proj2 Hs) p cs Hcs) as Hok. split.
  - eapply extends_cleans; [exact Hc| |exact Hext]. intros i Hi%(all_forwarders_ok _ _ _ Hok). by eapply Hold.
  - eapply cleaned_cleans; [exact Hc|]. intros i f Hi Hf. destruct Hnew as [Hcl|(n & [A _ _ (c & Hc' & Hl)])]; [right; by eapply Hcl|left].
    assert (c = cs) as -> by congruence. apply (all_forwarders_ok _ _ _ Hok). rewrite Hl. apply elem_of_seq.
    apply lookup_lt_Some in Hf. unfold count in *. lia.
Qed.

Lemma siprec_invite_spec e m l sv sv' : sv_callStates sv !! ms_CallID m = None -> honest e sv -> sound l sv ->
  handleSiprecInvite cfg e m sv = Some sv' ->
  sound l sv' /\ (sv' = sendResponse m 503 "" sv \/ accepted_call m sv sv' \/ rejected_call m sv sv').
Proof.
  intros Hid Hh Hs. unfold handleSiprecInvite. case_match.
  { intros [= <-]. split; [|by left]. eapply sound_quiet; [apply quiet_send|done]. }
  set (p := List.length (sv_calls sv)). pose proof (sound_new_call l e m sv Hid Hs) as Hs1. fold p in Hs1.
  set (sv1 := sv <| sv_calls := _ |> <| sv_callStates := _ |>) in *.
  assert (E1 : sv_callStates sv1 = <[ms_CallID m := p]> (sv_callStates sv) /\ sv_forwarders sv1 = sv_forwarders sv /\
    sv_running sv1 = sv_running sv /\ sv_platform sv1 = sv_platform sv /\ sv_sent sv1 = sv_sent sv /\
    call_at p sv1 = Some (new_call e m)).
  { unfold call_at. destruct sv; cbn in *. split_and!; try done. unfold p. rewrite lookup_app_r by done. by rewrite Nat.sub_diag. }
  clearbody sv1. destruct E1 as (T1 & F1 & R1 & Pl1 & Se1 & Hcall1).
  set (sv2 := update_call p _ (sendResponse m 180 "" sv1)).
  assert (Hq2 : quiet sv1 sv2) by (etrans; [apply quiet_send|]; apply quiet_update_call; intros c; by destruct c).
  assert (Ha2 : answers m [180] sv sv2).
  { eapply answers_silent; [|apply silent_update]. apply (answers_then m [] sv). by apply answers_none. }
  clearbody sv2. intros ([accepted sv3] & K3 & Hr)%bind_Some.
  assert (Hid2 : sv_callStates sv2 !! ms_CallID m = Some p) by (rewrite (q_table _ _ Hq2), T1; apply lookup_insert_eq).
  eapply (process_invite_spec e m p (ms_CallID m) l sv2) in K3; [|done| | |by eapply sound_quiet].
  2:{ intros cs Hcs. destruct (quiet_call _ _ _ _ Hq2 Hcs) as (c & Hc & Hsame). rewrite (sc_forwarders _ _ Hsame).
      assert (c = new_call e m) as -> by congruence. done. }
  2:{ eapply honest_quiet; [exact Hq2|]. intros n. unfold ports_of. rewrite Pl1. apply Hh. }
  destruct K3 as ([P1 P2 P3] & N3 & K3).
  assert (C2 : count sv2 = count sv) by (rewrite (count_quiet _ _ Hq2); unfold count; by rewrite F1).
  assert (X2 : extends sv sv2) by (etrans; [by apply extends_same|by apply extends_quiet]).
  assert (Htaken : forall n, taken p n sv2 sv3 -> taken p n sv sv3).
  { intros n [A B C D]. rewrite C2, ?(q_running _ _ Hq2), ?R1 in *. by split. }
  assert (Hid3 : sv_callStates sv3 !! ms_CallID m = Some p) by (by rewrite P2).
  destruct accepted; injection Hr as <-.
  - destruct K3 as (Ha & (n & Hn & Ht) & Hst). pose proof (quiet_sync (ms_CallID m) p sv3) as Hq4. split; [by eapply sound_quiet|]. right; left.
    assert (Hsync : sv_calls (syncCallToActiveList (ms_CallID m) p sv3) = sv_calls sv3 /\
      sv_sent (syncCallToActiveList (ms_CallID m) p sv3) = sv_sent sv3).
    { unfold syncCallToActiveList. destruct (call_at p sv3); by destruct sv3. } destruct Hsync as [Hsc Hss]. split.
    + eapply answers_silent; [|exact Hss]. by apply (answers_trans m [180] [200] sv sv2).
    + by rewrite (q_table _ _ Hq4), P2, (q_table _ _ Hq2), T1.
    + exists n. split; [done|]. eapply taken_quiet; [|exact Hq4]. by apply Htaken.
    + intros cs. unfold call_at. rewrite Hsc. apply Hst.
  - destruct K3 as ((code & Hcode & Ha) & Hnew). destruct (sound_finalize l e _ p "failed" sv3 Hid3 P1) as [Hs4 (cs & Hcs & He)].
    split; [done|]. right; right. rewrite C2 in Hnew.
    destruct (rejected_finalized e (ms_CallID m) p "failed" l sv sv3 Hid3 P1) as [X4 Cl4].
    + by etrans.
    + destruct Hnew as [?|(n & ?)]; [by left|right; exists n; auto].
    + by rewrite <- C2.
    + split; [|by rewrite (ed_table _ _ _ _ _ He), P2, (q_table _ _ Hq2), T1, delete_insert_id|done|done].
      exists code. split; [done|]. eapply answers_silent; [|apply (ed_sent _ _ _ _ _ He)]. by apply (answers_trans m [180] [code] sv sv2).
Qed.
End invite.

(** ** Re-INVITE *)

Section reinvite.
Context `{Unicode} `{Rfc3339} `{SipLibrary} `{Calendar} `{UnicodeLetters} `{!GoMapRange string} `{Libraries}.
Context `{PortAllocator St Oracle}.
Context (cfg : ServerConfig).
Implicit Types (sv : Server St) (e : Env Oracle) (m : SIPMessage) (p i : nat) (l : list nat).

(** A change of one call that the table allows. *)
Lemma sound_change l id p g cs sv : sv_callStates sv !! id = Some p -> call_at p sv = Some cs ->
  cs_CallID (g cs) = cs_CallID cs -> cs_finalized (g cs) = cs_finalized cs -> call_ok (count sv) (g cs) ->
  (forall i, i ∈ cs_RTPForwarders (g cs) -> i ∈ cs_RTPForwarders cs) ->
  (forall i f, forwarder_at i sv = Some f -> fw_isCleanedUp f = false -> i ∈ cs_RTPForwarders cs ->
     i ∈ sv_running sv \/ i ∈ cs_RTPForwarders (g cs)) ->
  sound l sv -> sound l (update_call p g sv).
Proof.
  intros Hid Hcs G1 G2 Hok Hsub Hown [Hb Ht]. split.
  - destruct Hb as [B1 B2 B3 B4]. destruct sv. by split.
  - assert (Hr : sv_running (update_call p g sv) = sv_running sv) by (by destruct sv).
    eapply (table_adopt l l id p cs (g cs) sv); rewrite ?Hr; try done; try (by destruct sv); try by apply update_call_at.
    + apply (tb_running _ _ Ht).
    + destruct (call_in_table _ _ _ _ Ht Hid) as (c & Hc & _ & Hf). assert (c = cs) as -> by congruence. by rewrite G2.
    + intros i q d Hi Hd Hin. eapply (tb_single _ _ Ht q p d cs i); auto.
    + intros i f Hf Hc [?|Hi]; [by left|right]. by eapply Hown.
Qed.

(** Stopped forwarders that are forgotten run still, or are cleaned up. *)
Lemma sound_forget l id p sv : sv_callStates sv !! id = Some p -> sound l sv -> sound l (update_call p (forget_dead sv) sv).
Proof.
  intros Hid Hs. destruct (call_in_table _ _ _ _ (proj2 Hs) Hid) as (cs & Hcs & _ & Hfin).
  pose proof (tb_call _ _ (proj2 Hs) p cs Hcs) as [O1 O2 O3 O4 O5].
  assert (Hin : forall i, i ∈ cs_RTPForwarders (forget_dead sv cs) <-> i ∈ cs_RTPForwarders cs /\ is_stopped sv i = false).
  { intros i. unfold forget_dead. destruct cs; cbn. rewrite !list_elem_of_In, filter_In, negb_true_iff. done. }
  eapply (sound_change l id p (forget_dead sv) cs); try done; try (by destruct cs).
  - split.
    + intros i [Hi _]%Hin. by apply O1.
    + unfold forget_dead. destruct cs; cbn in *. apply NoDup_ListNoDup, List.NoDup_filter. by apply NoDup_ListNoDup.
    + intros i Hi. apply Hin. unfold forget_dead in Hi. destruct cs; cbn in *. apply bind_Some in Hi as (j & Hj & Hk).
      destruct (is_stopped sv j) eqn:E; [done|]. injection Hk as <-. split; [by apply O3|done].
    + intros label i Hi. apply Hin. unfold forget_dead in Hi. destruct cs; cbn in *.
      apply map_lookup_filter_Some in Hi as [Hi Hs']. split; [by eapply O4|done].
    + destruct cs; cbn in *. congruence.
  - intros i [Hi _]%Hin. done.
  - intros i f Hf Hc Hi. destruct (is_stopped sv i) eqn:E; [|right; by apply Hin]. left.
    unfold is_stopped in E. rewrite Hf in E. destruct (tb_stopped _ _ (proj2 Hs) i f Hf E); congruence.
Qed.

Lemma sound_stream l id p label i cs sv : sv_callStates sv !! id = Some p -> call_at p sv = Some cs -> i ∈ cs_RTPForwarders cs ->
  sound l sv -> sound l (set_stream p label i sv).
Proof.
  intros Hid Hcs Hi Hs. pose proof (tb_call _ _ (proj2 Hs) p cs Hcs) as [O1 O2 O3 O4 O5].
  eapply (sound_change l id p _ cs); try done; try (by destruct cs).
  - destruct cs; cbn in *. split; cbn; try done. intros lb k [[_ <-]|[_ Hk]]%lookup_insert_Some; [done|by eapply O4].
  - intros k f _ _ Hk. right. by destruct cs.
Qed.

(** The call at [p] has the forwarders [fs]. *)
Definition has_forwarders p (fs : list nat) sv : Prop := exists cs, call_at p sv = Some cs /\ cs_RTPForwarders cs = fs.

Lemma has_forwarders_quiet p fs sv sv' : quiet sv sv' -> has_forwarders p fs sv -> has_forwarders p fs sv'.
Proof. intros Hq (cs & Hcs & <-). destruct (quiet_call_l _ _ _ _ Hq Hcs) as (c & Hc & Hs). exists c. by rewrite (sc_forwarders _ _ Hs). Qed.

Lemma has_forwarders_stream p fs label i sv : has_forwarders p fs sv -> has_forwarders p fs (set_stream p label i sv).
Proof.
  intros (cs & Hcs & <-). exists (cs <| cs_StreamForwarders := <[label := i]> (cs_StreamForwarders cs) |>). split; [|by destruct cs].
  unfold call_at, set_stream, update_call in *. destruct sv; cbn in *. rewrite list_lookup_alter_eq, Hcs. done.
Qed.

Lemma sound_stream' l id p fs label i sv : sv_callStates sv !! id = Some p -> has_forwarders p fs sv -> i ∈ fs ->
  sound l sv -> sound l (set_stream p label i sv).
Proof. intros Hid (cs & Hcs & <-) Hi. by eapply sound_stream. Qed.

(** What stays while the streams are configured. *)
Record configured l p fs sv sv' : Prop := {
  cf_sound : sound l sv';
  cf_table : sv_callStates sv' = sv_callStates sv;
  cf_sent : sv_sent sv' = sv_sent sv;
  cf_call : has_forwarders p fs sv';
  cf_count : count sv' = count sv
}.

Lemma configured_stream l id p fs label i sv sv1 : sv_callStates sv !! id = Some p -> i ∈ fs ->
  configured l p fs sv sv1 -> configured l p fs sv (set_stream p label i sv1).
Proof.
  intros Hid Hi [A B C D E]. split; [|by destruct sv1..|by apply has_forwarders_stream|by destruct sv1].
  eapply sound_stream'; try done. by rewrite B.
Qed.

Lemma configured_quiet l p fs sv sv1 sv2 : configured l p fs sv sv1 -> quiet sv1 sv2 -> sv_sent sv2 = sv_sent sv1 ->
  configured l p fs sv sv2.
Proof.
  intros [A B C D E] Hq Hsent. split; [by eapply sound_quiet|by rewrite (q_table _ _ Hq)|congruence|by eapply has_forwarders_quiet|].
  by rewrite (count_quiet _ _ Hq).
Qed.

Lemma configured_all l id p fs ms d todo sv sv1 missing sv2 : sv_callStates sv !! id = Some p ->
  (forall x i, (x, i) ∈ todo -> i ∈ fs) -> configured l p fs sv sv1 ->
  reconfigure_all ms d p todo sv1 = Some (missing, sv2) -> configured l p fs sv sv2.
Proof.
  intros Hid. revert sv1. induction todo as [|[[md label] i] todo IH]; intros sv1 Hin Hc; cbn; [by intros [= _ <-]|].
  intros ([b sv3] & K3 & Hr)%bind_Some.
  assert (Hc3 : configured l p fs sv sv3).
  { eapply configured_quiet; [exact Hc|by eapply quiet_configure_one|]. unfold configure_one in K3.
    destruct (forwarder_at i sv1); [|by injection K3 as _ <-]. apply bind_Some in K3 as (f & _ & [= _ <-]). by destruct sv1. }
  eapply (configured_stream l id p fs label i) in Hc3; [|done|eapply Hin; by left].
  destruct b; [by injection Hr as _ <-|]. eapply IH; [|exact Hc3|done]. intros x k Hk. eapply Hin. by right.
Qed.

Lemma configured_legs l id p fs sv sv1 : sv_callStates sv !! id = Some p -> configured l p fs sv sv1 ->
  configured l p fs sv (set_legs p fs sv1).
Proof.
  intros Hid Hc. unfold set_legs.
  assert (Hin : forall label i, (label, i) ∈ imap (fun k i => (leg_label k, i)) fs -> i ∈ fs).
  { intros label i (k & j & E & Hj)%elem_of_lookup_imap_1. injection E as _ ->. by eapply list_elem_of_lookup_2. }
  revert sv1 Hc Hin. generalize (imap (fun k i => (leg_label k, i)) fs). intros todo.
  induction todo as [|[label i] todo IH]; intros sv1 Hc Hin; cbn; [done|]. apply IH.
  - eapply configured_stream; [done| |done]. eapply Hin. by left.
  - intros lb k Hk. eapply Hin. by right.
Qed.

Lemma reassigned_ok (n0 n1 k : nat) cs cs' created :
  let fs := take k (cs_RTPForwarders cs ++ created) in
  call_ok n0 cs -> (forall i, i ∈ created -> (n0 <= i < n1)%nat) -> NoDup created -> (n0 <= n1)%nat ->
  (0 < k <= List.length (cs_RTPForwarders cs ++ created))%nat ->
  cs_RTPForwarders cs' = fs -> (fs <> [] -> cs_RTPForwarder cs' = head fs) -> cs_StreamForwarders cs' = ∅ -> cs_finalized cs' = false ->
  call_ok n1 cs'.
Proof.
  intros fs [O1 O2 _ _ _] Hcreated Hnd Hn Hk Hf Hprim Hstr Hfin. split; rewrite ?Hf, ?Hstr.
  - intros i (j & Hj & _)%elem_of_take. apply list_elem_of_lookup_2 in Hj. apply elem_of_app in Hj as [Hi|Hi]; [specialize (O1 i Hi)|specialize (Hcreated i Hi)]; lia.
  - eapply sublist_NoDup; [|apply sublist_take]. apply NoDup_app. split_and!; [done| |done].
    intros i Hi Hi'. specialize (O1 i Hi). specialize (Hcreated i Hi'). lia.
  - intros i Hi. destruct fs as [|x fs'] eqn:E; [|rewrite Hprim in Hi by done; injection Hi as <-; by left].
    exfalso. assert (Hl : List.length fs = 0%nat) by (by rewrite E). unfold fs in Hl. rewrite length_take in Hl. lia.
  - done.
  - congruence.
Qed.

(** The forwarders of the call are those it had and the created ones, without
    the surplus, which is cleaned up. *)
Lemma sound_reassign e l k n id p cs labels created sv sv1 :
  sv_callStates sv !! id = Some p -> call_at p sv = Some cs -> sound l sv ->
  creates n created true sv sv1 -> (books sv -> books sv1) -> (0 < k)%nat -> n = (k - List.length (cs_RTPForwarders cs))%nat ->
  let all := cs_RTPForwarders cs ++ created in
  let sv4 := update_call p (set_forwarders (take k all)) (start_all p (zip labels created) (stop_all e (drop k all) sv1)) in
  configured l p (take k all) sv1 sv4.
Proof.
  intros Hid Hcs Hs Hc Hb Hk Hn all sv4. pose proof (sound_creates _ _ _ _ _ _ Hc Hb Hs) as Hs1.
  pose proof (cr_rest _ _ _ _ _ Hc) as (T1 & C1 & _ & _ & _ & Se1). pose proof (stop_all_cleans e (drop k all) sv1) as Hcl.
  pose proof (stop_all_rest e (drop k all) sv1) as Hr. pose proof (sound_cleans_some _ _ _ _ Hcl Hr Hs1) as [Hb2 Ht2].
  destruct Hr as (T2 & C2 & _ & _ & _ & Se2). set (sv2 := stop_all e _ _) in *. clearbody sv2.
  assert (Hcs2 : call_at p sv2 = Some cs) by (unfold call_at in *; congruence).
  pose proof (start_all_fields p (zip labels created) cs sv2 Hcs2) as Hst. cbv zeta in Hst.
  destruct Hst as ((streams & S1 & _) & T3 & F3 & Pl3 & Se3 & _ & R3). subst sv4. set (sv3 := start_all _ _ _) in *. clearbody sv3.
  assert (Hcs3 : call_at p sv3 = Some (cs <| cs_StreamForwarders := streams |>)).
  { unfold call_at. rewrite S1. apply list_lookup_insert_eq. by eapply lookup_lt_Some. }
  set (cs' := set_forwarders (take k all) (cs <| cs_StreamForwarders := streams |>)).
  assert (Hf' : cs_RTPForwarders cs' = take k all /\ cs_CallID cs' = cs_CallID cs /\ cs_finalized cs' = cs_finalized cs /\
    cs_StreamForwarders cs' = ∅ /\ (take k all <> [] -> cs_RTPForwarder cs' = head (take k all))).
  { unfold cs', set_forwarders. destruct cs, (take k all); cbn; done. }
  destruct Hf' as (Hf & Hname & Hfinal & Hstr & Hprim). pose proof (update_call_at p (set_forwarders (take k all)) _ sv3 Hcs3) as C4. fold cs' in C4.
  set (sv4 := update_call p _ sv3) in *.
  assert (E4 : sv_callStates sv4 = sv_callStates sv3 /\ sv_forwarders sv4 = sv_forwarders sv3 /\ sv_running sv4 = sv_running sv3 /\
    sv_platform sv4 = sv_platform sv3 /\ sv_sent sv4 = sv_sent sv3) by (by destruct sv3). destruct E4 as (T4 & F4 & R4 & Pl4 & Se4). clearbody sv4.
  pose proof (tb_call _ _ Ht2 p cs Hcs2) as Hok. pose proof (tb_call _ _ (proj2 Hs) p cs Hcs) as Hok0.
  destruct (call_in_table _ _ _ _ (proj2 Hs) Hid) as (c & Hc' & Hid' & Hfin). assert (c = cs) as -> by congruence.
  assert (Hsub : forall i, i ∈ take k all -> i ∈ cs_RTPForwarders cs \/ i ∈ created).
  { intros i Hi. apply elem_of_take in Hi as (j & Hj & _). apply list_elem_of_lookup_2 in Hj. by apply elem_of_app in Hj. }
  assert (Hcreated : forall i, i ∈ created -> (count sv <= i < count sv1)%nat) by (intros i; by apply (created_new _ _ _ _ _ _ Hc)).
  assert (Hlen : count sv2 = count sv1) by apply (cl_length _ _ _ Hcl).
  split; [split|congruence|congruence|exists cs'; split; [|done]|unfold count in *; congruence].
  - destruct Hb2 as [B1 B2 B3 B4]. unfold ports_of, forwarder_at in *. split; unfold ports_of, forwarder_at; by rewrite ?Pl4, ?Pl3, ?F4, ?F3.
  - eapply (table_adopt (created ++ l) l id p cs cs' sv2); try done; try congruence.
    + by rewrite C4, S1, list_insert_insert_eq.
    + rewrite R4, R3. set_solver.
    + rewrite R4, R3. intros i [Hi|Hi%elem_of_list_to_set]%elem_of_union; [by apply (tb_running _ _ Ht2)|].
      apply list_elem_of_fmap in Hi as ([lb j] & -> & Hi). apply elem_of_zip_r in Hi. specialize (Hcreated j Hi). cbn. unfold count in *. lia.
    + unfold count in *. eapply (reassigned_ok (count sv) _ k cs cs' created); try done.
      * intros i Hi. specialize (Hcreated i Hi). unfold count in *. lia.
      * rewrite (creates_seq _ _ _ _ Hc). apply NoDup_seq.
      * unfold count in *. rewrite Hlen. apply extends_length. by eapply extends_creates.
      * rewrite length_app, (cr_count _ _ _ _ _ Hc). lia.
      * congruence.
    + intros i q d Hi Hd Hin. rewrite Hf in Hi. unfold call_at in Hd. rewrite C2, C1 in Hd. apply Hsub in Hi as [Hi|Hi].
      * by eapply (tb_single _ _ (proj2 Hs) q p d cs i).
      * pose proof (ck_range _ _ (tb_call _ _ (proj2 Hs) q d Hd) i Hin). specialize (Hcreated i Hi). unfold count in *. lia.
    + intros i f Hfi Hcli Hi. rewrite Hf. rewrite elem_of_app in Hi.
      assert (Hsplit : i ∈ take k all \/ i ∈ drop k all \/ i ∈ l).
      { assert (Hj : i ∈ take k all ++ drop k all \/ i ∈ l) by (rewrite take_drop; unfold all; rewrite elem_of_app; tauto).
        rewrite elem_of_app in Hj. tauto. }
      destruct Hsplit as [?|[Hd|?]]; [by right; right| |by left].
      destruct (cl_forwarder _ _ _ Hcl i f Hfi) as (_ & _ & _ & Hdone & _). rewrite (Hdone Hd) in Hcli. done.
  - unfold call_at. rewrite C4. apply list_lookup_insert_eq. by eapply lookup_lt_Some.
Qed.

(** The forwarders that [sv'] has and [sv] has not. *)
Definition created_since sv sv' : list nat := seq (count sv) (count sv' - count sv).

(** A request within a call: the invariant holds after it, or it was answered 500
    and the forwarders it created belong to nobody. *)
Definition kept_or_short m l sv sv' : Prop :=
  sound l sv' \/ (answers m [500] sv sv' /\ sound (created_since sv sv' ++ l) sv').

Lemma reinvite_media_spec e m p id sdpData cs l sv answer sv' :
  sv_callStates sv !! id = Some p -> call_at p sv = Some cs -> honest e sv -> sound l sv ->
  reinvite_media cfg e m p sdpData cs sv = Some (answer, sv') ->
  sv_callStates sv' = sv_callStates sv /\
  match answer with
  | None => kept_or_short m l sv sv' /\ exists code, code ∈ [488; 500] /\ answers m [code] sv sv'
  | Some _ => sound l sv' /\ sv_sent sv' = sv_sent sv
  end.
Proof.
  intros Hid Hcs Hh Hs. unfold reinvite_media.
  assert (Hrej : forall code sv1, code ∈ [488; 500] -> sound l sv1 -> sv_callStates sv1 = sv_callStates sv -> sv_sent sv1 = sv_sent sv ->
    sv_callStates (sendResponse m code "" sv1) = sv_callStates sv /\ kept_or_short m l sv (sendResponse m code "" sv1) /\
    exists code', code' ∈ [488; 500] /\ answers m [code'] sv (sendResponse m code "" sv1)).
  { intros code sv1 Hcode Hs1 T1 Se1. pose proof (quiet_send m code "" sv1) as Hq. split; [by rewrite (q_table _ _ Hq)|]. split; [left; by eapply sound_quiet|].
    exists code. split; [done|]. apply (answers_then m [] sv). by apply answers_none. }
  destruct (sc_Media cfg) as [ms|]; [|intros [= <- <-]; apply Hrej; [set_solver|done..]].
  set (parsed := if String.eqb sdpData "" then _ else _). set (streams := match parsed with Some _ => _ | None => _ end).
  set (labels := match streams with [] => _ | _ => _ end). pose proof (tb_call _ _ (proj2 Hs) p cs Hcs) as Hok.
  rewrite (call_forwarders_ok _ _ Hok). set (existing := cs_RTPForwarders cs).
  assert (Hlabels : (0 < List.length labels)%nat) by (subst labels; destruct streams; cbn; lia).
  destruct (new_forwarders _ _ _ _ _ _) as [[created ok] sv1] eqn:En.
  destruct (new_forwarders_spec _ _ _ _ _ _ _ _ _ En (Hh _)) as [Hc Hb]. pose proof (cr_rest _ _ _ _ _ Hc) as (T1 & _ & _ & _ & _ & Se1).
  destruct ok; cbn [negb].
  2:{ intros [= <- <-]. pose proof (quiet_send m 500 "" sv1) as Hq. split; [by rewrite (q_table _ _ Hq)|].
      assert (Ha : answers m [500] sv (sendResponse m 500 "" sv1)) by (apply (answers_then m [] sv); by apply answers_none).
      split; [right; split; [done|]|exists 500; split; [set_solver|done]]. eapply sound_quiet; [exact Hq|].
      pose proof (sound_creates _ _ _ _ _ _ Hc Hb Hs) as Hs1. rewrite (cr_indices _ _ _ _ _ Hc) in Hs1.
      unfold created_since. rewrite (count_quiet _ _ Hq). destruct (cr_prefix _ _ _ _ _ Hc) as (new & N1 & N2 & _).
      replace (count sv1 - count sv)%nat with (List.length created); [done|]. unfold count. rewrite N1, length_app. lia. }
  pose proof (sound_reassign e l (List.length labels) _ id p cs (drop (List.length existing) labels) created sv sv1 Hid Hcs Hs Hc Hb Hlabels eq_refl) as Hcf.
  cbv zeta in Hcf. fold existing in Hcf. set (fs := take (List.length labels) (existing ++ created)) in *.
  set (sv4 := update_call p _ _) in *. clearbody sv4. intros ([missing sv5] & K5 & Hr)%bind_Some.
  assert (Hid1 : sv_callStates sv1 !! id = Some p) by (by rewrite T1).
  assert (Hcf5 : configured l p fs sv1 sv5).
  { destruct parsed as [d|].
    - eapply configured_all; [done| |exact Hcf|exact K5]. intros x i Hi. by apply elem_of_zip_r in Hi.
    - injection K5 as _ <-. by eapply configured_legs. }
  destruct Hcf5 as [A B C _ _]. destruct missing; injection Hr as <- <-.
  - apply Hrej; [set_solver|done|congruence|congruence].
  - split; [congruence|]. split; [done|congruence].
Qed.

Lemma silent_reinvite_metadata e m p body cs sv sv' : reinvite_metadata cfg e m p body cs sv = Some sv' -> sv_sent sv' = sv_sent sv.
Proof.
  unfold reinvite_metadata. case_match; [by intros [= <-]|]. destruct (parseSiprecMetadata _ _ _ _ _); [|done]. intros [= <-]. apply silent_update.
Qed.

(** A re-INVITE is answered once, and keeps the invariant unless ports run out. *)
Lemma siprec_reinvite_spec e m p id l sv sv' :
  sv_callStates sv !! id = Some p -> honest e sv -> sound l sv -> handleSiprecReInvite cfg e m p sv = Some sv' ->
  sv_callStates sv' = sv_callStates sv /\ kept_or_short m l sv sv' /\
  exists code, code ∈ [200; 400; 488; 500] /\ answers m [code] sv sv'.
Proof.
  intros Hid Hh Hs. unfold handleSiprecReInvite. destruct (extractSiprecContent _ _) as [sdpData rsMetadata].
  intros (cs & Hcs & Hr)%bind_Some. destruct (reinvite_metadata cfg e m p rsMetadata cs sv) as [sv1|] eqn:E1.
  2:{ injection Hr as <-. pose proof (quiet_send m 400 "" sv) as Hq. split; [by rewrite (q_table _ _ Hq)|]. split; [left; by eapply sound_quiet|].
      exists 400. split; [set_solver|apply answers_send]. }
  assert (Se1 : sv_sent sv1 = sv_sent sv) by (by eapply silent_reinvite_metadata).
  apply quiet_reinvite_metadata in E1.
  set (sv2 := if String.eqb sdpData "" then sv1 else _) in Hr.
  assert (Hq2 : quiet sv1 sv2).
  { unfold sv2. case_match; [done|]. etrans; [|apply quiet_reset]. apply quiet_update_call. intros c. by destruct c. }
  assert (Se2 : sv_sent sv2 = sv_sent sv).
  { unfold sv2. case_match; [done|]. unfold reset_ssrcs. rewrite <- Se1. set (sv3 := update_call p _ sv1).
    transitivity (sv_sent sv3); [|by destruct sv1]. generalize (call_forwarders cs). clearbody sv3. clear. intros fs. revert sv3.
    induction fs as [|i fs IH]; intros sv3; [done|]. cbn. rewrite IH. by destruct sv3. }
  clearbody sv2. set (sv3 := update_call p _ sv2) in Hr.
  assert (Hq3 : quiet sv2 sv3) by (apply quiet_update_call; intros c; by destruct c).
  assert (Se3 : sv_sent sv3 = sv_sent sv) by (by rewrite <- Se2; apply silent_update). clearbody sv3.
  assert (Hq : quiet sv sv3) by (etrans; [exact E1|by etrans]). clear E1 Hq2 Hq3 Se1 Se2 sv1 sv2.
  assert (Hid3 : sv_callStates sv3 !! id = Some p) by (by rewrite (q_table _ _ Hq)).
  pose proof (sound_forget l id p sv3 Hid3 (sound_quiet _ _ _ Hq Hs)) as Hs4. set (sv4 := update_call p _ sv3) in *.
  assert (E4 : sv_callStates sv4 = sv_callStates sv /\ sv_sent sv4 = sv_sent sv /\ sv_platform sv4 = sv_platform sv /\ count sv4 = count sv).
  { rewrite <- (q_table _ _ Hq), <- Se3, <- (q_platform _ _ Hq), <- (count_quiet _ _ Hq). by destruct sv3. }
  clearbody sv4. destruct E4 as (T4 & Se4 & Pl4 & C4). apply bind_Some in Hr as (cs4 & Hcs4 & Hr).
  apply bind_Some in Hr as ([answer sv5] & K5 & Hr).
  assert (Hh4 : honest e sv4) by (intros n; unfold ports_of; rewrite Pl4; apply Hh).
  assert (Hshift : forall codes sv', answers m codes sv4 sv' -> answers m codes sv sv').
  { intros codes sv'' Ha. apply (answers_trans m [] codes sv sv4); [by apply answers_none|done]. }
  assert (Hres : sv_callStates sv5 = sv_callStates sv /\
    match answer with
    | None => kept_or_short m l sv sv5 /\ exists code, code ∈ [488; 500] /\ answers m [code] sv sv5
    | Some _ => sound l sv5 /\ sv_sent sv5 = sv_sent sv
    end).
  { assert (Hmedia : reinvite_media cfg e m p sdpData cs4 sv4 = Some (answer, sv5) \/ (answer <> None /\ sv5 = sv4)).
    { destruct (cs_RTPForwarder cs4), (String.eqb sdpData ""); try (by left). right. by injection K5 as <- <-. }
    destruct Hmedia as [Hm|[Hne ->]]; [|destruct answer; done].
    apply (reinvite_media_spec e m p id sdpData cs4 l sv4) in Hm; [|by rewrite T4|done..]. destruct Hm as [T5 Hm]. split; [congruence|].
    destruct answer; [by rewrite <- Se4|]. destruct Hm as [Hk (code & Hcode & Ha)]. split; [|exists code; auto].
    destruct Hk as [?|[Ha' Hs5]]; [by left|right]. split; [auto|]. unfold created_since in *. by rewrite <- C4. }
  destruct Hres as [T5 Hres]. destruct answer as [sdp|]; injection Hr as <-.
  - destruct Hres as [Hs5 Se5]. pose proof (quiet_accept cfg e 5 m p sdp sv5) as Hq6. pose proof (accept_answers cfg e 5 m p sdp sv5) as Ha.
    destruct (accept_call cfg e 5 m p sdp sv5) as [b sv6]. cbn [snd] in *. destruct Ha as [Ha _]. split; [by rewrite (q_table _ _ Hq6)|].
    split; [left; by eapply sound_quiet|]. exists (if b then 200 else 500). split; [destruct b; set_solver|].
    apply (answers_trans m [] _ sv sv5); [by apply answers_none|done].
  - destruct Hres as (Hk & code & Hcode & Ha). split; [done|]. split; [done|]. exists code. split; [set_solver|done].
Qed.
End reinvite.
