(* ===== verification/DialogSpec.v ===== *)
(** * What the dialogs of the server promise

    The server as a transition system: requests, the reaper, the ends of
    goroutines, what the media threads do, the pause service and the cleanups are
    the events.  The theorems are the invariant of the reachable servers and that
    they lose no port, what becomes of an INVITE, a BYE, a request outside of a
    call and a call that falls silent, and where the list of active calls and the
    calls disagree. *)

From S2P Require Import Prelude GoStrings GoText Metadata Session Validation Policy Fill SipMessage Vendor SipSession.
From S2P Require Import RtpStats LruCache PortManager Ports PauseIO Forwarder WavFile AudioDecode WavCombine RtpStream Sdp Dialog DialogInv DialogSteps.
From Stdlib Require Import Ascii String.
#[local] Open Scope string_scope.
#[local] Open Scope list_scope.
#[local] Open Scope Z_scope.

Section spec.
Context `{Unicode} `{Rfc3339} `{SipLibrary} `{Calendar} `{UnicodeLetters} `{!GoMapRange string} `{Libraries}.
Context `{PortAllocator St Oracle}.
Context (cfg : ServerConfig).
Implicit Types (sv : Server St) (e : Env Oracle) (m : SIPMessage) (p i : nat) (l : list nat).

(** ** BYE and CANCEL *)

Lemma sound_bye l e m sv : sound l sv -> sound l (handleByeMessage cfg e m sv).
Proof.
  intros Hs. unfold handleByeMessage. destruct (getCallState (ms_CallID m) sv) as [p|] eqn:Hid; [|by eapply sound_quiet; [apply quiet_send|]].
  destruct (call_at p sv) as [cs|]; [|done]. do 3 (case_match; [by eapply sound_quiet; [apply quiet_send|]|]).
  set (sv3 := update_call p _ (sendResponse _ _ _ _)).
  assert (Hq : quiet sv sv3).
  { etrans; [|apply quiet_update_call; intros c; by destruct c]. etrans; [|apply quiet_send].
    apply quiet_update_call. intros c. destruct c; case_match; by split. }
  apply (sound_finalize cfg l e (ms_CallID m) p "terminated" sv3); [by rewrite (q_table _ _ Hq)|by eapply sound_quiet].
Qed.

Lemma sound_cancel l e m sv : sound l sv -> sound l (handleCancelMessage cfg e m sv).
Proof.
  intros Hs. unfold handleCancelMessage. pose proof (quiet_send m 200 "" sv) as Hq. set (sv1 := sendResponse m 200 "" sv) in *. clearbody sv1.
  destruct (getCallState (ms_CallID m) sv) as [p|] eqn:Hid; [|by eapply sound_quiet]. destruct (call_at p sv1) as [cs|]; [|by eapply sound_quiet].
  case_match; [by eapply sound_quiet|]. set (sv2 := match cs_OriginalInvite cs with Some _ => _ | None => _ end).
  assert (Hq2 : quiet sv sv2) by (etrans; [exact Hq|]; subst sv2; case_match; [apply quiet_send|done]). clearbody sv2.
  set (sv3 := update_call p _ sv2). assert (Hq3 : quiet sv sv3) by (etrans; [exact Hq2|]; apply quiet_update_call; intros c; by destruct c).
  apply (sound_finalize cfg l e (ms_CallID m) p "cancelled" sv3); [by rewrite (q_table _ _ Hq3)|by eapply sound_quiet].
Qed.

(** ** The reaper *)

(** The stale calls, as long as they are in the map under different names. *)
Lemma sound_reap l e todo sv : sound l sv -> NoDup (map (fun x => x.1.1) todo) ->
  (forall id p reason, (id, p, reason) ∈ todo -> sv_callStates sv !! id = Some p) ->
  sound l (reap cfg e todo sv) /\
  sv_callStates (reap cfg e todo sv) = foldl (fun t x => delete x.1.1 t) (sv_callStates sv) todo /\
  sv_sent (reap cfg e todo sv) = sv_sent sv.
Proof.
  revert sv. induction todo as [|[[id p] reason] todo IH]; intros sv Hs Hnd Hin; [done|]. cbn in Hnd. apply NoDup_cons in Hnd as [Hn Hnd].
  destruct (sound_finalize cfg l e id p reason sv (Hin _ _ _ (list_elem_of_here _ _)) Hs) as [Hs1 (cs & _ & [_ T _ _ Se _])].
  unfold reap. cbn [foldl]. fold (reap cfg e todo (finalizeCall cfg e id p reason sv)). set (sv1 := finalizeCall cfg e id p reason sv) in *.
  clearbody sv1. destruct (IH sv1 Hs1 Hnd) as (A & B & C).
  - intros id' q r Hq. rewrite T, lookup_delete_ne; [by eapply Hin; right|]. intros ->. apply Hn. apply list_elem_of_fmap. by exists (id', q, r).
  - split; [done|]. by rewrite B, C, T.
Qed.

Lemma stale_calls_spec e sv id p reason : (id, p, reason) ∈ stale_calls e sv <->
  sv_callStates sv !! id = Some p /\ exists cs, call_at p sv = Some cs /\ stale_reason (en_now e 5%nat) cs = Some reason.
Proof.
  unfold stale_calls. rewrite list_elem_of_omap. split.
  - intros ([id' q] & Hin & Hx). apply elem_of_map_range in Hin. apply bind_Some in Hx as (cs & Hcs & Hx).
    apply bind_Some in Hx as (r & Hr & [= -> -> ->]). eauto.
  - intros (Hid & cs & Hcs & Hr). exists (id, p). split; [by apply elem_of_map_range|]. by rewrite Hcs; cbn; rewrite Hr.
Qed.

Lemma stale_calls_names e sv : NoDup (map (fun x => x.1.1) (stale_calls e sv)).
Proof.
  unfold stale_calls. assert (Hnd : NoDup (map fst (map_range 1 (sv_callStates sv)))).
  { apply map_range_NoDup_fst. }
  revert Hnd. generalize (map_range 1 (sv_callStates sv)). intros todo. induction todo as [|[id p] todo IH]; cbn; [constructor|].
  intros [Hn Hnd]%NoDup_cons. set (x := _ ≫= _). destruct x as [[[id' q] r]|] eqn:E; [|by apply IH]. cbn. constructor; [|by apply IH].
  subst x. apply bind_Some in E as (cs & _ & E). apply bind_Some in E as (r' & _ & [= -> -> ->]).
  intros Hin. apply Hn. apply list_elem_of_fmap in Hin as ([[id2 q2] r2] & E & Hin). cbn in E. subst id2.
  apply list_elem_of_omap in Hin as ([id3 q3] & Hin & E). apply bind_Some in E as (cs' & _ & E). apply bind_Some in E as (r3 & _ & [= -> -> ->]).
  apply list_elem_of_fmap. by exists (id', q2).
Qed.

Lemma sound_reaper l e sv : sound l sv -> sound l (reapStaleDialogs cfg e sv).
Proof.
  intros Hs. unfold reapStaleDialogs. apply sound_reap; [done|apply stale_calls_names|]. intros id p r Hin. by apply stale_calls_spec in Hin as [? _].
Qed.

(** ** Cleanups *)

Lemma sound_drop l e id d sv : sound l sv -> sound l (drop_active e id d sv).
Proof.
  intros Hs. unfold drop_active. eapply sound_quiet; [apply quiet_active|]. destruct (cd_Forwarder d) as [i|]; [|done].
  eapply sound_cleans_some; [apply cleanup_forwarder_cleans|apply cleanup_rest|done].
Qed.

Lemma sound_fold {A} l (f : Server St -> A -> Server St) todo sv : (forall sv x, sound l sv -> sound l (f sv x)) ->
  sound l sv -> sound l (foldl f sv todo).
Proof. intros Hf. revert sv. induction todo as [|x todo IH]; intros sv Hs; [done|]. cbn. auto. Qed.

Lemma sound_stale l e timeout sv : sound l sv -> sound l (cleanupStaleSessions e timeout sv).
Proof. apply sound_fold. intros sv' [id d]. apply sound_drop. Qed.

Lemma sound_cleanup_active l e sv : sound l sv -> sound l (CleanupActiveCalls e sv).
Proof.
  apply sound_fold. intros sv' [id d] Hs. apply sound_drop. eapply sound_quiet; [|exact Hs].
  apply quiet_update_call. intros c. by destruct c.
Qed.

Lemma sound_exit l e i sv : sound l sv -> sound l (goroutine_exit e i sv).
Proof.
  apply (sound_cleans_some [i]); [apply goroutine_exit_cleans|]. unfold goroutine_exit. destruct (forwarder_at i sv); [|done].
  destruct (Cleanup _ _ _ _). by destruct sv.
Qed.

(** *** Shutdown *)

Lemma stopped_calls e (todo : list (string * nat)) sv :
  let sv' := foldl (fun sv '(_, p) => match call_at p sv with Some cs => stop_all e (call_forwarders cs) sv | None => sv end) sv todo in
  exists ids, cleans ids sv sv' /\ same_rest sv sv' /\
    forall id p cs i, (id, p) ∈ todo -> call_at p sv = Some cs -> i ∈ call_forwarders cs -> i ∈ ids.
Proof.
  revert sv. induction todo as [|[id p] todo IH]; intros sv sv'.
  { exists []. split_and!; [by apply cleans_quiet|done|]. by intros ? ? ? ? ?%elem_of_nil. }
  set (sv1 := match call_at p sv with Some cs => stop_all e (call_forwarders cs) sv | None => sv end).
  assert (H1' : exists ids, cleans ids sv sv1 /\ same_rest sv sv1 /\ forall cs i, call_at p sv = Some cs -> i ∈ call_forwarders cs -> i ∈ ids).
  { subst sv1. destruct (call_at p sv) as [cs|].
    - exists (call_forwarders cs). split_and!; [apply stop_all_cleans|apply stop_all_rest|]. by intros c i [= <-].
    - exists []. split_and!; [by apply cleans_quiet|done|done]. }
  change sv' with (foldl (fun sv '(_, p) => match call_at p sv with Some cs => stop_all e (call_forwarders cs) sv | None => sv end) sv1 todo).
  clear sv'. clearbody sv1. destruct H1' as (ids1 & C1 & R1 & I1), (IH sv1) as (ids2 & C2 & R2 & I2).
  exists (ids1 ++ ids2). split_and!; [by eapply cleans_trans|by etrans|].
  intros id' q cs i [[= -> ->]|Hin]%elem_of_cons Hcs Hi; apply elem_of_app; [left; eauto|right].
  eapply I2; [exact Hin| |exact Hi]. destruct R1 as (_ & E & _). unfold call_at in *. by rewrite E.
Qed.

Lemma sound_shutdown l e sv : sound l sv -> sound l (Shutdown e sv).
Proof.
  intros Hs. unfold Shutdown. destruct (stopped_calls e (map_range 4 (sv_callStates sv)) sv) as (ids & Hc & Hr & Hi).
  set (sv1 := foldl _ _ _) in *. clearbody sv1. pose proof (sound_cleans_some _ _ _ _ Hc Hr Hs) as [[B1 B2 B3 B4] [A B C D E F]].
  destruct Hr as (T & Ca & _). split; [destruct sv1; by split|].
  set (sv2 := sv1 <| sv_callStates := ∅ |>).
  assert (E2 : sv_callStates sv2 = ∅ /\ sv_forwarders sv2 = sv_forwarders sv1 /\ sv_calls sv2 = sv_calls sv1 /\ sv_running sv2 = sv_running sv1)
    by (by destruct sv1). clearbody sv2. destruct E2 as (T2 & F2 & C2 & R2).
  split; unfold call_at, forwarder_at in *; rewrite ?T2, ?F2, ?C2, ?R2; try done.
  intros i f Hf Hcl. destruct (F i f Hf Hcl) as [?|[?|(id & p & cs & Hid & Hcs & Hin)]]; [by left|by right; left|]. exfalso.
  pose proof (B p cs Hcs) as Hok. assert (Hmem : i ∈ ids).
  { eapply (Hi id p cs); [apply elem_of_map_range; by rewrite <- T|by rewrite <- Ca|]. by rewrite (call_forwarders_ok _ _ Hok). }
  destruct (cl_forwarder _ _ _ Hc i f Hf) as (_ & _ & _ & Hdone & _). rewrite (Hdone Hmem) in Hcl. done.
Qed.

(** *** The media threads *)

Lemma sound_media l i f g sv : i ∈ sv_running sv -> forwarder_at i sv = Some f -> port_part g = port_part f -> sound l sv ->
  sound l (sv <| sv_forwarders := <[i := g]> (sv_forwarders sv) |>).
Proof.
  intros Hrun Hf [= M1 M2 M3] [[B1 B2 B3 B4] [A B C D E F]]. set (sv' := sv <| sv_forwarders := _ |>).
  assert (Hat : forall j, forwarder_at j sv' = if decide (i = j) then Some g else forwarder_at j sv).
  { intros j. unfold forwarder_at. destruct sv; cbn in *. rewrite list_lookup_insert.
    assert (i < List.length sv_forwarders)%nat by (by eapply lookup_lt_Some). repeat case_decide; naive_solver. }
  assert (E' : sv_callStates sv' = sv_callStates sv /\ sv_calls sv' = sv_calls sv /\ sv_running sv' = sv_running sv /\
    ports_of sv' = ports_of sv /\ List.length (sv_forwarders sv') = List.length (sv_forwarders sv)).
  { destruct sv; cbn. by rewrite length_insert. }
  clearbody sv'. destruct E' as (T' & C' & R' & P' & L').
  assert (Hback : forall j h, forwarder_at j sv' = Some h -> exists h0, forwarder_at j sv = Some h0 /\
    fw_LocalPort h = fw_LocalPort h0 /\ fw_RTCPPort h = fw_RTCPPort h0 /\ fw_isCleanedUp h = fw_isCleanedUp h0 /\ (j <> i -> h = h0)).
  { intros j h. rewrite Hat. case_decide; [subst; intros [= <-]; by exists f|]. intros Hh. by exists h. }
  assert (Hfwd : forall j h0, forwarder_at j sv = Some h0 -> exists h, forwarder_at j sv' = Some h /\
    fw_ports h = fw_ports h0 /\ fw_isCleanedUp h = fw_isCleanedUp h0).
  { intros j h0 Hh. rewrite Hat. case_decide; [subst|by exists h0]. exists g. assert (h0 = f) as -> by congruence.
    unfold fw_ports. by rewrite M1, M2. }
  split; split; rewrite ?T', ?C', ?R', ?P', ?L'; try done; unfold call_at in *; rewrite ?C'; try done.
  - intros j h (h0 & Hh & -> & -> & _)%Hback. by eapply B2.
  - intros x. rewrite B3. split; intros (j & h & Hh & Hc & Hx).
    + destruct (Hfwd j h Hh) as (h' & Hh' & Hp & Hc'). exists j, h'. by rewrite Hp, Hc'.
    + destruct (Hback j h Hh) as (h0 & Hh0 & E1 & E2 & Hc' & _). exists j, h0. unfold fw_ports in *. by rewrite <- E1, <- E2, <- Hc'.
  - intros j k h h' (h0 & Hh & E1 & E2 & Hc & _)%Hback (h0' & Hh' & E1' & E2' & Hc' & _)%Hback Hjk Hcl Hcl'.
    unfold fw_ports. rewrite E1, E2, E1', E2'. apply (B4 j k); congruence.
  - intros j h Hh Hst. destruct (Hback j h Hh) as (h0 & Hh0 & _ & _ & -> & Hother). destruct (decide (j = i)) as [->|Hj]; [by right|].
    rewrite (Hother Hj) in Hst. by eapply E.
  - intros j h Hh Hcl. destruct (Hback j h Hh) as (h0 & Hh0 & _ & _ & Hc & _). rewrite Hc in Hcl.
    destruct (F j h0 Hh0 Hcl) as [?|[?|(id & p & cs & H1' & H2' & H3')]]; [by left|by right; left|]. right; right. exists id, p, cs.
    unfold call_at. by rewrite T', C'.
Qed.

(** ** Requests *)

Lemma wrapped_envelope req :
  ms_CallID (extractVendorInformation (wrapRequest req)) = ms_CallID (wrapRequest req) /\
  ms_Transaction (extractVendorInformation (wrapRequest req)) = true /\ is_Some (ms_Request (extractVendorInformation (wrapRequest req))).
Proof.
  pose proof (extraction_envelope (wrapRequest req)) as E. unfold envelope in E. injection E as _ _ _ E1 E2 E3 _ _ _ _.
  split; [done|]. rewrite E1, E2. unfold wrapRequest. destruct (newSIPMessageFromSipgo _ _). by split.
Qed.

(** An INVITE of a known call that was answered 500. *)
Definition short_of_ports (method : string) (req : SipgoMessage) sv sv' : bool :=
  String.eqb (to_upper method) "INVITE" && bool_decide (is_Some (getCallState (ms_CallID (wrapRequest req)) sv)) &&
  match last (sv_sent sv') with Some r => sr_Status r =? 500 | None => false end.

(** The forwarders such an INVITE leaves behind. *)
Definition lost (method : string) (req : SipgoMessage) sv sv' : list nat :=
  if short_of_ports method req sv sv' then created_since sv sv' else [].

Lemma last_answer m code sv sv' : ms_Transaction m = true -> is_Some (ms_Request m) -> answers m [code] sv sv' ->
  match last (sv_sent sv') with Some r => sr_Status r =? code | None => false end = true.
Proof.
  intros Ht Hr Ha. destruct (Ha Ht Hr) as (rs & -> & E & _). destruct rs as [|r [|]]; [done| |done]. injection E as E.
  rewrite last_snoc. by apply Z.eqb_eq.
Qed.

Lemma sound_weaken l l' sv : sound l sv -> sound (l' ++ l) sv.
Proof. intros [A B]. split; [done|]. eapply table_weaken; [|exact B]. intros i Hi. apply elem_of_app. by right. Qed.

Lemma sound_invite l e method verdict req sv sv' : String.eqb (to_upper method) "INVITE" = true -> honest e sv -> sound l sv ->
  handleInviteMessage cfg e verdict (wrapRequest req) sv = Some sv' -> sound (lost method req sv sv' ++ l) sv'.
Proof.
  intros Hm Hh Hs. destruct (wrapped_envelope req) as (Eid & Etr & Erq). unfold handleInviteMessage.
  set (m := extractVendorInformation (wrapRequest req)) in *. rewrite Eid.
  assert (Hsend : forall code, sound (lost method req sv (sendResponse m code "" sv) ++ l) (sendResponse m code "" sv)).
  { intros code. apply sound_weaken. eapply sound_quiet; [apply quiet_send|done]. }
  destruct verdict; try (intros [= <-]; apply Hsend).
  destruct (getCallState (ms_CallID (wrapRequest req)) sv) as [p|] eqn:Hid.
  - case_match; [|intros [= <-]; apply Hsend]. intros Hr. eapply (siprec_reinvite_spec cfg e m p _ l) in Hr; [|done..].
    destruct Hr as (_ & [Hk|[Ha Hk]] & _); [by apply sound_weaken|].
    unfold lost, short_of_ports. rewrite Hm, Hid, bool_decide_eq_true_2 by done. rewrite (last_answer m 500 sv sv') by done. done.
  - pose proof (quiet_send m 100 "" sv) as Hq. set (sv1 := sendResponse m 100 "" sv) in *.
    case_match; [|intros [= <-]; apply sound_weaken; eapply sound_quiet; [apply quiet_send|by eapply sound_quiet]].
    intros Hr. apply sound_weaken. eapply (siprec_invite_spec cfg e m l sv1) in Hr; [tauto| |by eapply honest_quiet|by eapply sound_quiet].
    rewrite (q_table _ _ Hq), Eid. exact Hid.
Qed.

Lemma sound_request l e method verdict req sv sv' : honest e sv -> sound l sv ->
  handleTransactionRequest cfg e method verdict req sv = Some sv' -> sound (lost method req sv sv' ++ l) sv'.
Proof.
  intros Hh Hs. unfold handleTransactionRequest. case_match; [by eapply sound_invite|].
  assert (Hquiet : forall sv1, quiet sv sv1 -> sound (lost method req sv sv' ++ l) sv1).
  { intros sv1 Hq. apply sound_weaken. by eapply sound_quiet. }
  intros Hr.
  destruct (String.eqb (to_upper method) "PRACK"); [injection Hr as <-; apply Hquiet, quiet_prack|].
  destruct (String.eqb (to_upper method) "ACK"); [injection Hr as <-; apply Hquiet, quiet_ack|].
  destruct (String.eqb (to_upper method) "BYE"); [injection Hr as <-; apply sound_weaken, sound_bye, Hs|].
  destruct (String.eqb (to_upper method) "CANCEL"); [injection Hr as <-; apply sound_weaken, sound_cancel, Hs|].
  destruct (String.eqb (to_upper method) "OPTIONS"); [injection Hr as <-; apply Hquiet, quiet_send|].
  destruct (String.eqb (to_upper method) "SUBSCRIBE"); [injection Hr as <-; apply Hquiet, quiet_subscribe|].
  destruct (String.eqb (to_upper method) "UPDATE"); [by apply Hquiet; eapply quiet_update|].
  destruct (String.eqb (to_upper method) "INFO"); [injection Hr as <-; apply Hquiet, quiet_info|].
  destruct (String.eqb (to_upper method) "REFER"); [injection Hr as <-; apply Hquiet, quiet_refer|].
  destruct (String.eqb (to_upper method) "NOTIFY"); [injection Hr as <-; apply Hquiet, quiet_notify|].
  destruct (String.eqb (to_upper method) "MESSAGE"); [injection Hr as <-; apply Hquiet, quiet_message|].
  injection Hr as <-. apply Hquiet, quiet_send.
Qed.

(** ** The transition system *)

(** A media thread may stop its forwarder, but has no say in its ports and its
    cleanup, which is [stream_keeps_ports]. *)
Inductive event :=
  | Request (e : Env Oracle) (method : string) (verdict : admission) (req : SipgoMessage)
  | Reaper (e : Env Oracle)
  | Exit (e : Env Oracle) (i : nat)
  | MediaThread (i : nat) (f : RTPForwarder)
  | PauseCall (e : Env Oracle) (id : string) (recording transcription : bool)
  | ResumeCall (id : string)
  | MuteCall (e : Env Oracle) (id : string) (inbound outbound : bool)
  | UnmuteCall (id : string) (inbound outbound : bool)
  | StaleSessions (e : Env Oracle) (timeout : Duration)
  | AllSessions (e : Env Oracle)
  | Stopping (e : Env Oracle).

Inductive step sv : event -> Server St -> Prop :=
  | step_request e method verdict req sv' : honest e sv -> handleTransactionRequest cfg e method verdict req sv = Some sv' ->
      step sv (Request e method verdict req) sv'
  | step_reaper e : step sv (Reaper e) (reapStaleDialogs cfg e sv)
  | step_exit e i : i ∈ sv_running sv -> step sv (Exit e i) (goroutine_exit e i sv)
  | step_media i f g : i ∈ sv_running sv -> forwarder_at i sv = Some f -> port_part g = port_part f ->
      step sv (MediaThread i g) (sv <| sv_forwarders := <[i := g]> (sv_forwarders sv) |>)
  | step_pause e id r t sv' : PauseSession e id r t sv = Some (inl sv') -> step sv (PauseCall e id r t) sv'
  | step_resume id sv' : ResumeSession id sv = Some (inl sv') -> step sv (ResumeCall id) sv'
  | step_mute e id inb outb sv' : MuteSession e id inb outb sv = Some (inl sv') -> step sv (MuteCall e id inb outb) sv'
  | step_unmute id inb outb sv' : UnmuteSession id inb outb sv = Some (inl sv') -> step sv (UnmuteCall id inb outb) sv'
  | step_stale e timeout : step sv (StaleSessions e timeout) (cleanupStaleSessions e timeout sv)
  | step_all e : step sv (AllSessions e) (CleanupActiveCalls e sv)
  | step_stopping e : step sv (Stopping e) (Shutdown e sv).

(** A server that has done nothing. *)
Record initial sv : Prop := {
  in_table : sv_callStates sv = ∅;
  in_calls : sv_calls sv = [];
  in_forwarders : sv_forwarders sv = [];
  in_running : sv_running sv = ∅;
  in_ports : pa_inv (ports_of sv);
  in_used : pa_used (ports_of sv) = ∅
}.

(** The servers that events lead to, with the forwarders lost on the way. *)
Inductive reachable : list nat -> Server St -> Prop :=
  | reachable_initial sv : initial sv -> reachable [] sv
  | reachable_step l sv ev sv' : reachable l sv -> step sv ev sv' ->
      reachable (match ev with Request _ method _ req => lost method req sv sv' ++ l | _ => l end) sv'.

Lemma sound_initial sv : initial sv -> sound [] sv.
Proof.
  intros [A B C D E F]. split; split; unfold call_at, forwarder_at, referenced; rewrite ?A, ?B, ?C, ?D, ?F; try done; try (by intros ? ? []).
  intros x. split; [set_solver|]. by intros (i & f & [=] & _).
Qed.

Lemma sound_step l sv ev sv' : step sv ev sv' -> sound l sv ->
  sound (match ev with Request _ method _ req => lost method req sv sv' ++ l | _ => l end) sv'.
Proof.
  intros Hst Hs. destruct Hst; eauto using sound_request, sound_reaper, sound_exit, sound_media, sound_stale, sound_cleanup_active, sound_shutdown;
    (eapply sound_quiet; [eapply quiet_on_active; [|eassumption]; eauto with quiet|done]).
Qed.

Lemma reachable_sound l sv : reachable l sv -> sound l sv.
Proof. induction 1 as [sv Hi|l sv ev sv' _ IH Hst]; [by apply sound_initial|by eapply sound_step]. Qed.

(** ** The theorems *)



(** *** INVITE *)

(** The INVITE of [m] was accepted: the call waits for its ACK and has running
    forwarders with ports. *)
Definition call_established m sv sv' : Prop :=
  let p := List.length (sv_calls sv) in
  sv_callStates sv' = <[ms_CallID m := p]> (sv_callStates sv) /\
  exists cs n, call_at p sv' = Some cs /\ cs_State cs = "awaiting_ack" /\ cs_PendingAckCSeq cs = cs_RemoteCSeq cs /\
    (0 < n)%nat /\ cs_RTPForwarders cs = seq (List.length (sv_forwarders sv)) n /\
    forall i, i ∈ cs_RTPForwarders cs -> i ∈ sv_running sv' /\
      exists f, forwarder_at i sv' = Some f /\ fw_isCleanedUp f = false /\ fw_ports f ⊆ pa_used (ports_of sv').

(** Nothing is left of the INVITE. *)
Definition no_trace sv sv' : Prop :=
  sv_callStates sv' = sv_callStates sv /\ pa_used (ports_of sv') = pa_used (ports_of sv).

Lemma established m sv sv' : books sv' -> accepted_call m sv sv' -> call_established m sv sv'.
Proof.
  intros Hb [_ T (n & Hn & [K1 K2 K3 (cs & Hcs & Hf)]) Hst]. split; [done|]. destruct (Hst cs Hcs) as [S1 S2].
  exists cs, n. split_and!; try done. intros i Hi. rewrite Hf, elem_of_seq in Hi. split.
  - rewrite K2. apply elem_of_union_r, elem_of_list_to_set, elem_of_seq. done.
  - destruct (lookup_lt_is_Some_2 (sv_forwarders sv') i) as [f Hfi]; [unfold count in *; lia|]. destruct (K3 i f ltac:(lia) Hfi) as [Hcl _].
    exists f. split_and!; [done..|]. intros x Hx. apply (bk_used _ Hb). by exists i, f.
Qed.


(** *** BYE *)

(** Why a BYE is refused by the call [cs]. *)
Definition bye_refused m (cs : CallState) : option Z :=
  let seq := (parseCSeq (ms_CSeq m)).1 in
  if negb (String.eqb (cs_LocalTag cs) "") && negb (String.eqb (ms_ToTag m) "") && negb (String.eqb (ms_ToTag m) (cs_LocalTag cs)) then Some 481
  else if negb (bool_decide (cs_State cs ∈ ["connected"; "terminating"; "awaiting_ack"])) then Some 481
  else if negb (seq =? 0) && (seq <=? cs_RemoteCSeq cs) then Some 400
  else None.

(** The call [cs] is over: it is not in the map, its forwarders are cleaned up,
    and of the ports in use exactly theirs were returned. *)
Definition call_ended id p (cs : CallState) sv sv' : Prop :=
  sv_callStates sv' = delete id (sv_callStates sv) /\
  (exists cs', call_at p sv' = Some cs' /\ over cs') /\
  (forall q, q <> p -> call_at q sv' = call_at q sv) /\
  (forall i, i ∈ cs_RTPForwarders cs -> exists f, forwarder_at i sv' = Some f /\ fw_isCleanedUp f = true) /\
  (forall x, x ∈ pa_used (ports_of sv') <-> x ∈ pa_used (ports_of sv) /\
     forall i f, i ∈ cs_RTPForwarders cs -> forwarder_at i sv = Some f -> fw_isCleanedUp f = false -> x ∉ fw_ports f).

Lemma ends_ended l id p cs sv sv' : sound l sv -> books sv' -> call_at p sv = Some cs -> ends id p cs sv sv' -> call_ended id p cs sv sv'.
Proof.
  intros [Hb Ht] Hb' Hp [[_ K1 K2 _ _] T (c & C1 & _ & Hov) _ _ _]. pose proof (tb_call _ _ Ht p cs Hp) as Hok.
  assert (Hids : forall i, i ∈ all_forwarders cs <-> i ∈ cs_RTPForwarders cs) by (intros i; by eapply all_forwarders_ok).
  assert (Hlen : (p < List.length (sv_calls sv))%nat) by (by eapply lookup_lt_Some).
  assert (Hsame : forall i f, i ∉ cs_RTPForwarders cs -> forwarder_at i sv = Some f -> exists f', forwarder_at i sv' = Some f' /\ same_port f f').
  { intros i f Hi Hf. destruct (lookup_lt_is_Some_2 (sv_forwarders sv') i) as [f' Hf']; [rewrite K1; by eapply lookup_lt_Some|].
    destruct (K2 i f' Hf') as (f0 & Hf0 & _ & _ & Hout). exists f'. split; [done|]. assert (f0 = f) as -> by congruence. apply Hout. by rewrite Hids. }
  split_and!; [done| | | |].
  - exists c. split; [|done]. unfold call_at. rewrite C1. by apply list_lookup_insert_eq.
  - intros q Hq. unfold call_at. rewrite C1. by apply list_lookup_insert_ne.
  - intros i Hi. destruct (lookup_lt_is_Some_2 (sv_forwarders sv') i) as [f' Hf']; [rewrite K1; by apply (ck_range _ _ Hok)|].
    destruct (K2 i f' Hf') as (_ & _ & _ & Hin & _). exists f'. split; [done|]. by apply Hin, Hids.
  - intros x. rewrite (bk_used _ Hb'), (bk_used _ Hb). split.
    + intros (i & f' & Hf' & Hcl & Hx). destruct (K2 i f' Hf') as (f & Hf & Hpt & Hin & Hout).
      assert (Hi : i ∉ all_forwarders cs) by (intros ?; rewrite Hin in Hcl; done). destruct (Hout Hi) as [_ _ Hc _].
      assert (Hcf : fw_isCleanedUp f = false) by congruence.
      split; [exists i, f; by rewrite <- Hpt|]. intros j g Hj Hg Hcg Hxg. rewrite Hpt in Hx.
      by eapply (bk_apart _ Hb i j f g); [| |intros ->; apply Hi, Hids| | | |].
    + intros [(i & f & Hf & Hcl & Hx) Hnot]. destruct (decide (i ∈ cs_RTPForwarders cs)) as [Hi|Hi]; [exfalso; by eapply Hnot|].
      destruct (Hsame i f Hi Hf) as (f' & Hf' & Hs). exists i, f'. by rewrite (sp_clean _ _ Hs), (same_port_ports _ _ Hs).
Qed.

Lemma ended_quiet id p cs c sv sv1 sv' : quiet sv sv1 -> sv_calls sv1 = <[p := c]> (sv_calls sv) -> cs_RTPForwarders c = cs_RTPForwarders cs ->
  call_ended id p c sv1 sv' -> call_ended id p cs sv sv'.
Proof.
  intros Hq Hc Hf (A & B & C & D & E). split_and!; [by rewrite A, (q_table _ _ Hq)|done| |by rewrite <- Hf|].
  - intros q Hne. rewrite (C q Hne). unfold call_at. rewrite Hc. by apply list_lookup_insert_ne.
  - intros x. rewrite E. unfold ports_of. rewrite (q_platform _ _ Hq). rewrite Hf. apply and_iff_compat_l. split; intros Hx i f Hi Hfi Hcl.
    + destruct (quiet_forwarder_l _ _ _ _ Hq Hfi) as (g & Hg & Hs). rewrite <- (same_port_ports _ _ Hs). apply (Hx i); [done|done|]. by rewrite (sp_clean _ _ Hs).
    + destruct (quiet_forwarder _ _ _ _ Hq Hfi) as (g & Hg & Hs). rewrite (same_port_ports _ _ Hs). apply (Hx i); [done|done|]. by rewrite <- (sp_clean _ _ Hs).
Qed.

(** C5: A BYE ends its call or is refused, and does nothing else.  It is answered
    481 without a call, with a foreign tag or before the call was accepted, 400
    when its sequence number is not larger than the last one, and then only the
    response changes.  Otherwise it is answered 200 and the call is over: out of
    the map, its forwarders cleaned up, exactly their ports returned, the other
    calls as before. *)
Theorem bye_exact e req l sv :
  let m := wrapRequest req in
  let sv' := handleByeMessage cfg e m sv in
  reachable l sv ->
  match sv_callStates sv !! ms_CallID m with
  | None => sv' = sendResponse m 481 "" sv
  | Some p => exists cs, call_at p sv = Some cs /\
    match bye_refused m cs with
    | Some code => sv' = sendResponse m code "" sv
    | None => answers m [200] sv sv' /\ call_ended (ms_CallID m) p cs sv sv'
    end
  end.
Proof.
  intros m sv' Hreach. pose proof (reachable_sound _ _ Hreach) as Hs. subst sv'. pose proof (sound_bye l e m sv Hs) as Hs'. revert Hs'. unfold handleByeMessage, getCallState.
  destruct (sv_callStates sv !! ms_CallID m) as [p|] eqn:Hid; [|done].
  destruct (call_in_table _ _ _ _ (proj2 Hs) Hid) as (cs & Hcs & _ & Hfin). rewrite Hcs. intros Hs'. exists cs. split; [done|]. revert Hs'. unfold bye_refused.
  assert (Hst : bool_decide (cs_State cs ∈ ["connected"; "terminating"; "awaiting_ack"]) =
    String.eqb (cs_State cs) "connected" || String.eqb (cs_State cs) "terminating" || String.eqb (cs_State cs) "awaiting_ack").
  { case_bool_decide as Hd; symmetry; [rewrite !orb_true_iff, !String.eqb_eq|rewrite !orb_false_iff, !String.eqb_neq]; set_solver. }
  rewrite Hst, !negb_orb. destruct (_ && _ && _); [done|]. destruct (_ && _ && _); [done|]. destruct (_ && _); [done|].
  match goal with |- context [update_call p ?f2 (sendResponse m 200 "" (update_call p ?f1 sv))] => set (g2 := f2); set (g1 := f1) end.
  set (sv2 := sendResponse m 200 "" (update_call p g1 sv)). set (sv3 := update_call p g2 sv2). intros Hs'.
  assert (Hg1 : forall c, same_call c (g1 c)) by (intros c; unfold g1; destruct c; case_match; by split).
  assert (Hg2 : forall c, same_call c (g2 c)) by (intros c; by destruct c).
  assert (Hq1 : quiet sv (update_call p g1 sv)) by (by apply quiet_update_call).
  assert (Hq : quiet sv sv3).
  { etrans; [exact Hq1|]. etrans; [apply quiet_send|]. by apply quiet_update_call. }
  assert (Hc2 : call_at p sv2 = Some (g1 cs) /\ sv_calls sv2 = <[p := g1 cs]> (sv_calls sv)).
  { destruct (becomes_update p g1 cs sv Hcs) as [_ A B _ _ _ _]. unfold call_at, sv2, sendResponse in *. repeat case_match; destruct (update_call p g1 sv); done. }
  destruct Hc2 as [Hat2 Hcalls2]. destruct (becomes_update p g2 (g1 cs) sv2 Hat2) as [_ Hat3 Hcalls3 _ _ Hsent3 _]. fold sv3 in Hat3, Hcalls3, Hsent3.
  assert (Hs3 : sound l sv3) by (by eapply sound_quiet).
  assert (Hid3 : sv_callStates sv3 !! ms_CallID m = Some p) by (by rewrite (q_table _ _ Hq)).
  destruct (sound_finalize cfg l e _ p "terminated" sv3 Hid3 Hs3) as [_ (c & Hc & He)]. assert (c = g2 (g1 cs)) as -> by congruence. split.
  - eapply answers_silent; [|etrans; [apply (ed_sent _ _ _ _ _ He)|exact Hsent3]]. apply (answers_then m [] sv). apply answers_none. by destruct sv.
  - eapply ended_quiet; [exact Hq| | |eapply ends_ended; [exact Hs3|apply Hs'|exact Hat3|exact He]].
    + by rewrite Hcalls3, Hcalls2, list_insert_insert_eq.
    + by rewrite (sc_forwarders _ _ (Hg2 _)), (sc_forwarders _ _ (Hg1 _)).
Qed.

(** *** Requests outside of calls *)

(** The answer to a request other than INVITE that belongs to no call. *)
Definition stray_answer (method : string) : option Z :=
  if bool_decide (method ∈ ["BYE"; "SUBSCRIBE"; "UPDATE"; "INFO"; "REFER"; "NOTIFY"]) then Some 481
  else if bool_decide (method ∈ ["PRACK"; "CANCEL"; "OPTIONS"; "MESSAGE"]) then Some 200
  else if String.eqb method "ACK" then None
  else Some 501.

(** A request other than INVITE whose Call-ID is unknown changes nothing: it is
    answered 481, 200 or 501 according to its method, an ACK not at all, and the
    server is otherwise as before. *)
Theorem stray_request_harmless e method verdict req sv :
  let m := wrapRequest req in
  sv_callStates sv !! ms_CallID m = None -> to_upper method <> "INVITE" ->
  handleTransactionRequest cfg e method verdict req sv =
    Some (match stray_answer (to_upper method) with Some code => sendResponse m code "" sv | None => sv end).
Proof.
  intros m Hid Hm. unfold handleTransactionRequest. fold m. rewrite (proj2 (String.eqb_neq _ _) Hm).
  unfold handlePrackMessage, handleAckMessage, handleByeMessage, handleCancelMessage, handleSubscribeMessage, handleUpdateMessage,
    handleInfoMessage, handleReferMessage, handleNotifyMessage, handleMessageMessage, handleOptionsMessage, getCallState. rewrite Hid.
  unfold stray_answer. generalize (to_upper method). clear. intros meth.
  repeat match goal with |- context [String.eqb meth ?k] => destruct (String.eqb_spec meth k) as [->|?]; [done|] end.
  rewrite !bool_decide_eq_false_2 by set_solver. done.
Qed.

(** *** The reaper *)

Lemma reap_ends l e todo sv : sound l sv -> NoDup (map (fun x => x.1.1) todo) ->
  (forall id p reason, (id, p, reason) ∈ todo -> sv_callStates sv !! id = Some p) ->
  forall id p reason cs i, (id, p, reason) ∈ todo -> call_at p sv = Some cs -> i ∈ cs_RTPForwarders cs ->
  exists f, forwarder_at i (reap cfg e todo sv) = Some f /\ fw_isCleanedUp f = true.
Proof.
  revert sv. induction todo as [|[[id p] reason] todo IH]; intros sv Hs Hnd Hin; [by intros ? ? ? ? ? ?%elem_of_nil|].
  cbn in Hnd. apply NoDup_cons in Hnd as [Hn Hnd]. pose proof (Hin _ _ _ (list_elem_of_here _ _)) as Hid.
  destruct (sound_finalize cfg l e id p reason sv Hid Hs) as [Hs1 (cs0 & Hcs0 & He)].
  unfold reap. cbn [foldl]. fold (reap cfg e todo (finalizeCall cfg e id p reason sv)). set (sv1 := finalizeCall cfg e id p reason sv) in *.
  pose proof (ends_ended l id p cs0 sv sv1 Hs (proj1 Hs1) Hcs0 He) as (T1 & _ & Oth & Cl & _). clearbody sv1.
  assert (Hin1 : forall id' q r, (id', q, r) ∈ todo -> sv_callStates sv1 !! id' = Some q).
  { intros id' q r Hq. rewrite T1, lookup_delete_ne; [by eapply Hin; right|]. intros ->. apply Hn. apply list_elem_of_fmap. by exists (id', q, r). }
  intros id' q r cs i [[= -> -> ->]|Htodo]%elem_of_cons Hcs Hi.
  - assert (cs0 = cs) as -> by congruence. destruct (Cl i Hi) as (f & Hf & Hc).
    assert (Hkeep : forall todo sv, (exists f, forwarder_at i sv = Some f /\ fw_isCleanedUp f = true) ->
      exists f, forwarder_at i (reap cfg e todo sv) = Some f /\ fw_isCleanedUp f = true); [|by apply Hkeep; exists f].
    clear. intros todo. induction todo as [|[[id p] reason] todo IH]; intros sv Hf; [done|]. apply IH. clear IH. destruct Hf as (f & Hf & Hc).
    destruct (call_at p sv) as [cs|] eqn:Hcs; [destruct (cs_finalized cs) eqn:Hfin|].
    + exists f. unfold finalizeCall. by rewrite Hcs, Hfin.
    + destruct (ed_cleans _ _ _ _ _ (finalize_ends cfg e id p cs reason sv Hcs Hfin)) as [_ K1 K2 _ _].
      destruct (lookup_lt_is_Some_2 (sv_forwarders (finalizeCall cfg e id p reason sv)) i) as [g Hg]; [rewrite K1; by eapply lookup_lt_Some|].
      destruct (K2 i g Hg) as (f0 & Hf0 & _ & Hin & Hout). assert (f0 = f) as -> by congruence. exists g. split; [done|].
      destruct (decide (i ∈ all_forwarders cs)) as [?|Hni]; [auto|]. by rewrite (sp_clean _ _ (Hout Hni)).
    + exists f. unfold finalizeCall. by rewrite Hcs.
  - eapply (IH sv1 Hs1 Hnd Hin1 id' q r cs i Htodo); [|done]. rewrite Oth; [done|]. intros ->.
    pose proof (Hin1 _ _ _ Htodo) as Hq. destruct (call_in_table _ _ _ _ (proj2 Hs1) Hq) as (c & Hc & _ & Hfc).
    destruct (ed_calls _ _ _ _ _ He) as (c' & E & _ & Hov). unfold call_at in Hc. rewrite E, list_lookup_insert_eq in Hc by (by eapply lookup_lt_Some).
    injection Hc as <-. destruct Hov. congruence.
Qed.

(** C31: One pass of the reaper ends exactly the stale calls: those not
    acknowledged within 32 seconds, without a request for five minutes, or older
    than a day.  They are out of the map and their forwarders are cleaned up; the
    other calls stay in the map, and no response is sent. *)
Theorem reaper_exact e l sv : reachable l sv ->
  let sv' := reapStaleDialogs cfg e sv in
  (forall id p, sv_callStates sv' !! id = Some p <-> sv_callStates sv !! id = Some p /\
     forall cs, call_at p sv = Some cs -> stale_reason (en_now e 5%nat) cs = None) /\
  (forall id p cs i reason, sv_callStates sv !! id = Some p -> call_at p sv = Some cs -> stale_reason (en_now e 5%nat) cs = Some reason ->
     i ∈ cs_RTPForwarders cs -> exists f, forwarder_at i sv' = Some f /\ fw_isCleanedUp f = true) /\
  sv_sent sv' = sv_sent sv.
Proof.
  intros Hs%reachable_sound sv'. subst sv'. unfold reapStaleDialogs. pose proof (stale_calls_names e sv) as Hnd.
  assert (Hin : forall id p reason, (id, p, reason) ∈ stale_calls e sv -> sv_callStates sv !! id = Some p).
  { intros id p r Hr. by apply stale_calls_spec in Hr as [? _]. }
  destruct (sound_reap l e (stale_calls e sv) sv Hs Hnd Hin) as (_ & T & Se). split_and!; [|clear T Se|exact Se].
  - assert (Hdel : forall (todo : list (string * nat * string)) (t : gmap string nat) id p, foldl (fun t x => delete x.1.1 t) t todo !! id = Some p <->
      t !! id = Some p /\ id ∉ map (fun x => x.1.1) todo).
    { clear. intros todo. induction todo as [|[[id' q] r] todo IH]; intros t id p; cbn; [set_solver|].
      rewrite IH, lookup_delete_Some, not_elem_of_cons. naive_solver. }
    intros id p. rewrite T, Hdel. split; (intros [Hid Hc]; split; [exact Hid|]; revert Hc).
    + intros Hn cs Hcs. destruct (stale_reason _ cs) as [r|] eqn:Hr; [|done]. exfalso. apply Hn. apply list_elem_of_fmap.
      exists (id, p, r). split; [done|]. apply stale_calls_spec. eauto.
    + intros Hfresh. intros ([[id' q] r] & E & Hr)%list_elem_of_fmap. cbn in E. subst id'. apply stale_calls_spec in Hr as (Hq & cs & Hcs & Hr).
      assert (q = p) as -> by congruence. by rewrite (Hfresh cs Hcs) in Hr.
  - intros id p cs i reason Hid Hcs Hr Hi. eapply reap_ends; eauto. apply stale_calls_spec. eauto.
Qed.

(** *** Ports that are lost *)

(** A forwarder with ports that nobody stops any more. *)
Definition stranded i sv : Prop :=
  (exists f, forwarder_at i sv = Some f /\ fw_isCleanedUp f = false /\ fw_ports f ⊆ pa_used (ports_of sv)) /\
  (i ∉ sv_running sv) /\ ~ referenced sv i.

(** A re-INVITE that asks for more streams than there are ports left is answered
    500, and strands the forwarders it created before the ports ran out. *)
Theorem short_reinvite_strands e m p id sdpData cs l sv sv' i :
  sound l sv -> honest e sv -> sv_callStates sv !! id = Some p -> call_at p sv = Some cs -> sc_Media cfg <> None ->
  ms_Transaction m = true -> is_Some (ms_Request m) ->
  reinvite_media cfg e m p sdpData cs sv = Some (None, sv') -> answers m [500] sv sv' ->
  (count sv <= i < count sv')%nat -> stranded i sv'.
Proof.
  intros Hs Hh Hid Hcs Hms Etr Erq. unfold reinvite_media. destruct (sc_Media cfg) as [ms|]; [clear Hms|done].
  set (parsed := if String.eqb sdpData "" then _ else _). set (streams := match parsed with Some _ => _ | None => _ end).
  set (labels := match streams with [] => _ | _ => _ end). pose proof (tb_call _ _ (proj2 Hs) p cs Hcs) as Hok.
  rewrite (call_forwarders_ok _ _ Hok). set (existing := cs_RTPForwarders cs).
  assert (Hlabels : (0 < List.length labels)%nat) by (subst labels; destruct streams; cbn; lia).
  destruct (new_forwarders _ _ _ _ _ _) as [[created ok] sv1] eqn:En.
  destruct (new_forwarders_spec _ _ _ _ _ _ _ _ _ En (Hh _)) as [Hc Hb]. destruct ok; cbn [negb].
  - intros ([missing sv5] & K5 & Hr)%bind_Some Ha Hi. exfalso. destruct missing; [|done]. injection Hr as <-.
    pose proof (sound_reassign e l (List.length labels) _ id p cs (drop (List.length existing) labels) created sv sv1 Hid Hcs Hs Hc Hb Hlabels eq_refl) as Hcf.
    cbv zeta in Hcf. fold existing in Hcf. set (fs := take (List.length labels) (existing ++ created)) in *. set (sv4 := update_call p _ _) in *. clearbody sv4.
    pose proof (cr_rest _ _ _ _ _ Hc) as (T1 & _ & _ & _ & _ & Se1).
    assert (Se5 : sv_sent sv5 = sv_sent sv).
    { rewrite <- Se1. apply (cf_sent l p fs). destruct parsed as [d|].
      - eapply (configured_all l id); [by rewrite T1| |exact Hcf|exact K5]. intros x k Hk. by apply elem_of_zip_r in Hk.
      - done. }
    destruct (Ha Etr Erq) as (rs & R1 & R2 & _). destruct (answers_send m 488 "" sv5 Etr Erq) as (rs' & R1' & R2' & _).
    rewrite R1', Se5 in R1. apply app_inv_head in R1 as ->. congruence.
  - intros [= <-] _ Hi. pose proof (quiet_send m 500 "" sv1) as Hq. pose proof (cr_rest _ _ _ _ _ Hc) as (T1 & C1 & _).
    rewrite (count_quiet _ _ Hq) in Hi. destruct (lookup_lt_is_Some_2 (sv_forwarders sv1) i) as [f Hf]; [unfold count in Hi; lia|].
    destruct (live_creates _ _ _ _ _ Hc i f ltac:(lia) Hf) as [Hcl _]. destruct (quiet_forwarder_l _ _ _ _ Hq Hf) as (g & Hg & Hsp).
    assert (Hcg : fw_isCleanedUp g = false) by (by rewrite (sp_clean _ _ Hsp)).
    pose proof (books_quiet _ _ Hq (Hb (proj1 Hs))) as Hb'. split_and!.
    + exists g. split_and!; [done|done|]. intros x Hx. apply (bk_used _ Hb'). by exists i, g.
    + rewrite (q_running _ _ Hq), (cr_running _ _ _ _ _ Hc). intros Hrun%(tb_running _ _ (proj2 Hs)). unfold count in Hi. lia.
    + intros (id' & q & d & Hq' & Hd & Hin). destruct (quiet_call _ _ _ _ Hq Hd) as (d0 & Hd0 & Hsame). rewrite (sc_forwarders _ _ Hsame) in Hin.
      unfold call_at in Hd0. rewrite C1 in Hd0. pose proof (ck_range _ _ (tb_call _ _ (proj2 Hs) q d0 Hd0) i Hin). unfold count in Hi. lia.
Qed.

(** *** The list of active calls *)

(** The list of active calls is kept under session IDs, and a call leaves it under
    its Call-ID: the entry of a call that has ended stays. *)
Theorem ended_call_stays_listed e m sid d sv : sv_active sv !! sid = Some d -> sid <> ms_CallID m ->
  sv_active (handleByeMessage cfg e m sv) !! sid = Some d.
Proof.
  intros Hd Hne. assert (Hsend : forall m code body sv, sv_active (sendResponse m code body sv) = sv_active sv).
  { clear. intros m code body sv. unfold sendResponse. repeat case_match; by destruct sv. }
  unfold handleByeMessage. destruct (getCallState _ sv) as [p|]; [|by rewrite Hsend]. destruct (call_at p sv) as [cs|]; [|done].
  do 3 (case_match; [by rewrite Hsend|]). set (sv3 := update_call p _ (sendResponse _ _ _ _)).
  assert (Ha : sv_active sv3 = sv_active sv).
  { unfold sv3. transitivity (sv_active (sendResponse m 200 "" (update_call p (fun cs : CallState =>
      (if (parseCSeq (ms_CSeq m)).1 =? 0 then cs else cs <| cs_RemoteCSeq := (parseCSeq (ms_CSeq m)).1 |>)
        <| cs_PendingAckCSeq := 0 |> <| cs_State := "terminating" |> <| cs_LastActivity := en_now e 2%nat |>) sv))).
    - by destruct (sendResponse _ _ _ _).
    - rewrite Hsend. by destruct sv. }
  clearbody sv3. destruct (call_at p sv3) as [c|] eqn:Hc; [destruct (cs_finalized c) eqn:Hf|].
  - unfold finalizeCall. by rewrite Hc, Hf, Ha.
  - rewrite (ed_active _ _ _ _ _ (finalize_ends cfg e (ms_CallID m) p c "terminated" sv3 Hc Hf)), lookup_delete_ne by done. by rewrite Ha.
  - unfold finalizeCall. by rewrite Hc, Ha.
Qed.

Lemma drop_cleans e id d sv : cleans (option_list (cd_Forwarder d)) sv (drop_active e id d sv).
Proof.
  unfold drop_active. set (sv1 := match cd_Forwarder d with Some _ => _ | None => _ end).
  assert (Hc : cleans (option_list (cd_Forwarder d)) sv sv1).
  { subst sv1. destruct (cd_Forwarder d) as [i|]; [apply cleanup_forwarder_cleans|by apply cleans_quiet]. }
  clearbody sv1. rewrite <- (app_nil_r (option_list _)). eapply cleans_trans; [exact Hc|]. by apply cleans_quiet; destruct sv1.
Qed.

Lemma drops_clean e (todo : list (string * CallData)) sv :
  cleans (List.concat (map (fun x => option_list (cd_Forwarder x.2)) todo)) sv (foldl (fun sv '(id, d) => drop_active e id d sv) sv todo).
Proof.
  revert sv. induction todo as [|[id d] todo IH]; intros sv; cbn; [by apply cleans_quiet|]. eapply cleans_trans; [apply drop_cleans|apply IH].
Qed.

(** What a call does after it was accepted does not keep it in the list of active
    calls: once the entry is older than the timeout its forwarder is cleaned up,
    however recent the last request of the call. *)
Theorem live_call_cut_off e e' timeout m id d i f sv :
  sv_active sv !! id = Some d -> cd_Forwarder d = Some i -> forwarder_at i sv = Some f -> timeout < en_now e' 1%nat - cd_LastActivity d ->
  let sv' := cleanupStaleSessions e' timeout (handleInfoMessage e m sv) in
  exists f', forwarder_at i sv' = Some f' /\ fw_isCleanedUp f' = true.
Proof.
  intros Hd Hi Hf Hold sv'. set (sv1 := handleInfoMessage e m sv) in *.
  assert (Ha : sv_active sv1 = sv_active sv).
  { unfold sv1, handleInfoMessage, touch, update_call, sendResponse. repeat case_match; by destruct sv. }
  assert (Hq : quiet sv sv1) by apply quiet_info. clearbody sv1. destruct (quiet_forwarder_l _ _ _ _ Hq Hf) as (g & Hg & _).
  unfold cleanupStaleSessions in sv'. set (todo := List.filter _ _) in sv'. pose proof (drops_clean e' todo sv1) as [_ K1 K2 _ _].
  destruct (lookup_lt_is_Some_2 (sv_forwarders sv') i) as [f' Hf']; [unfold sv'; rewrite K1; by eapply lookup_lt_Some|].
  destruct (K2 i f' Hf') as (_ & _ & _ & Hin & _). exists f'. split; [done|]. apply Hin. apply list_elem_of_In, in_concat.
  exists (option_list (cd_Forwarder d)). rewrite Hi. split; [|by left]. apply in_map_iff. exists (id, d). cbn. rewrite Hi. split; [done|].
  apply filter_In. split; [apply list_elem_of_In, elem_of_map_range; by rewrite Ha|]. unfold IsStale. by apply Z.ltb_lt.
Qed.
End spec.

(** ** An example *)

(** Libraries that see one stream in every offer and the same metadata in every
    document. *)
Definition sample_libraries : Libraries := {|
  li_ParseMediaType := fun s =>
    if has_prefix s "multipart/mixed" then ("multipart/mixed", {["boundary" := "b"]}, true) else (s, ∅, true);
  li_parts := fun _ _ => [("application/sdp", Some "v=0"); ("application/rs-metadata+xml", Some "<recording/>")];
  li_unmarshal := fun _ => Some (sample_description [sample_media "audio" []]);
  li_marshal := fun _ => Some "v=0";
  li_decode := decode_sample sample_document;
  li_xml_Marshal := fun _ => inl "<recording/>";
  li_format_utc := fun _ => "";
  li_callback_ok := fun _ => true;
  li_combine := fun _ _ => None
|}.

#[local] Existing Instances ascii_only no_rfc3339 one_address utc sample_libraries.
#[local] Instance no_letters : UnicodeLetters := {| letters_from := fun _ _ => false |}.
#[local] Instance strings_in_order : GoMapRange string := list_range string.
#[local] Instance ports_in_order : GoMapRange Z := list_range Z.

Definition sample_config : ServerConfig :=
  mkServerConfig 10 (Some (mkMediaSettings (mkMediaConfig false "" "" false) (30 * second) false false)) "" false None [] false.

Definition env_with (free : nat -> Z -> bool) (now : Time) : Env PortOracle :=
  mkEnv (fun _ => now) (fun _ => now) (fun k => mkPortOracle (fun _ => now) 0 (fun _ port => free k port))
    (fun _ => 7) "uuid" "b" "192.0.2.9" no_media (fun _ => false).

(** The [k]-th allocation of a handler finds the ports from the [k]-th pair on free. *)
Definition sample_env : Time -> Env PortOracle := env_with (fun k port => 10000 + 2 * Z.of_nat k <=? port).

(** A time at which no port can be bound. *)
Definition busy_env : Time -> Env PortOracle := env_with (fun _ _ => false).

Definition idle_server : Server PortManager :=
  mkServer ∅ [] [] ∅ (mkPlatform (NewPortManager 10000 10003) ∅) None ∅ ∅ [].

Definition sample_request (method cseq : string) : SipgoMessage :=
  mkSipgoMessage (SipgoRequest method "sip:srs@example.com" "SIP/2.0") [("Content-Type", "multipart/mixed;boundary=b")] "body"
    (Some "call-1") (Some "from") None (Some cseq) None "192.0.2.1:5060" "UDP" "example.com" 5060.

Lemma idle_initial : initial idle_server.
Proof. split; try reflexivity. apply new_port_inv. Qed.

(** The state of the port manager after [k] allocations. *)
Fixpoint ports_after (now : Time) (k : nat) : PortManager :=
  match k with
  | O => NewPortManager 10000 10003
  | S k => (pa_allocate (en_ports (sample_env now) k) (ports_after now k)).2
  end.

Lemma sample_honest : honest (sample_env 0) idle_server.
Proof.
  assert (H0 : pa_used (ports_after 0 0) = ∅) by reflexivity.
  assert (H1 : pa_used (ports_after 0 1) = {[10000; 10001]}) by (vm_compute; reflexivity).
  assert (H2 : pa_used (ports_after 0 2) = {[10000; 10001; 10002; 10003]}) by (vm_compute; reflexivity).
  assert (H3 : (pa_allocate (en_ports (sample_env 0) 2%nat) (ports_after 0 2)).1 = None) by (vm_compute; reflexivity).
  assert (Hh : forall k, (k < 3)%nat -> pa_honest (en_ports (sample_env 0) k) (ports_after 0 k)).
  { intros k Hk i port Hport. change (po_avail (en_ports (sample_env 0) k) i port) with (10000 + 2 * Z.of_nat k <=? port).
    apply Z.leb_gt. change (port ∈ pa_used (ports_after 0 k)) in Hport.
    destruct k as [|[|[|k]]]; [rewrite H0 in Hport|rewrite H1 in Hport|rewrite H2 in Hport|lia]; set_unfold; lia. }
  assert (Hstep : forall k, match pa_allocate (en_ports (sample_env 0) k) (ports_after 0 k) with (_, pm) => pm = ports_after 0 (S k) end).
  { intros k. change (ports_after 0 (S k)) with (pa_allocate (en_ports (sample_env 0) k) (ports_after 0 k)).2.
    by destruct (pa_allocate (en_ports (sample_env 0) k) (ports_after 0 k)). }
  intros n. change (ports_of idle_server) with (ports_after 0 0).
  destruct n as [|n]; [done|]. split; [apply Hh; lia|]. generalize (Hstep 0%nat).
  destruct (pa_allocate (en_ports (sample_env 0) 0%nat) (ports_after 0 0)) as [[?|] pm]; [intros ->|done].
  destruct n as [|n]; [done|]. split; [apply Hh; lia|]. generalize (Hstep 1%nat).
  destruct (pa_allocate (en_ports (sample_env 0) 1%nat) (ports_after 0 1)) as [[?|] pm]; [intros ->|done].
  destruct n as [|n]; [done|]. split; [apply Hh; lia|]. revert H3.
  by destruct (pa_allocate (en_ports (sample_env 0) 2%nat) (ports_after 0 2)) as [[?|] pm].
Qed.

Lemma busy_honest now sv : honest (busy_env now) sv.
Proof.
  intros n. generalize (ports_of sv), 0%nat. induction n as [|n IH]; intros pm k; [done|]. split; [by intros i port _|].
  destruct (pa_allocate _ pm) as [[?|] pm']; [apply IH|done].
Qed.

(** The call is accepted, ended by a BYE, and its goroutine ends. *)
Definition called_server : Server PortManager :=
  default idle_server (handleTransactionRequest sample_config (sample_env 0) "INVITE" Allowed (sample_request "INVITE" "1 INVITE") idle_server).

Definition left_server : Server PortManager :=
  default idle_server (handleTransactionRequest sample_config (busy_env 0) "BYE" Allowed (sample_request "BYE" "2 BYE") called_server).

Definition quiet_server : Server PortManager := goroutine_exit (busy_env 0) 0 left_server.

Lemma called_step : step sample_config idle_server (Request (sample_env 0) "INVITE" Allowed (sample_request "INVITE" "1 INVITE")) called_server.
Proof. constructor; [exact sample_honest|]. vm_compute. reflexivity. Qed.

Lemma called_reachable : reachable sample_config [] called_server.
Proof.
  pose proof (reachable_step _ _ _ _ _ (reachable_initial sample_config _ idle_initial) called_step) as Hr. cbv beta iota in Hr.
  assert (E : lost "INVITE" (sample_request "INVITE" "1 INVITE") idle_server called_server = []) by (vm_compute; reflexivity).
  rewrite E in Hr. exact Hr.
Qed.

Lemma left_reachable : reachable sample_config [] left_server.
Proof.
  assert (Hst : step sample_config called_server (Request (busy_env 0) "BYE" Allowed (sample_request "BYE" "2 BYE")) left_server).
  { constructor; [apply busy_honest|]. vm_compute. reflexivity. }
  pose proof (reachable_step _ _ _ _ _ called_reachable Hst) as Hr. cbv beta iota in Hr.
  assert (E : lost "BYE" (sample_request "BYE" "2 BYE") called_server left_server = []) by (vm_compute; reflexivity).
  rewrite E in Hr. exact Hr.
Qed.

Lemma quiet_reachable : reachable sample_config [] quiet_server.
Proof.
  assert (Hst : step sample_config left_server (Exit (busy_env 0) 0) quiet_server).
  { constructor. apply (bool_decide_eq_true_1 (0%nat ∈ sv_running left_server)). vm_compute. reflexivity. }
  exact (reachable_step _ _ _ _ _ left_reachable Hst).
Qed.

Definition called_call : CallState := default (new_call (sample_env 0) zero_SIPMessage) (call_at 0 called_server).

Lemma called_call_at : call_at 0 called_server = Some called_call.
Proof. vm_compute. reflexivity. Qed.

Lemma called_in_map : sv_callStates called_server !! "call-1" = Some 0%nat.
Proof. vm_compute. reflexivity. Qed.




Lemma bye_exact_witness : exists cs, call_at 0 called_server = Some cs /\ call_ended "call-1" 0 cs called_server left_server.
Proof.
  pose proof (bye_exact sample_config (busy_env 0) (sample_request "BYE" "2 BYE") [] called_server called_reachable) as Hb.
  cbv zeta in Hb. change (ms_CallID (wrapRequest (sample_request "BYE" "2 BYE"))) with "call-1" in Hb. rewrite called_in_map in Hb. destruct Hb as (cs & Hcs & Hb). exists cs. split; [exact Hcs|].
  assert (Hok : bye_refused (wrapRequest (sample_request "BYE" "2 BYE")) cs = None).
  { rewrite called_call_at in Hcs. apply (inj Some) in Hcs as <-. vm_compute. reflexivity. }
  rewrite Hok in Hb. exact (proj2 Hb).
Defined.

Lemma stray_request_harmless_witness :
  handleTransactionRequest sample_config (busy_env 0) "INFO" Allowed (sample_request "INFO" "2 INFO") idle_server =
  Some (sendResponse (wrapRequest (sample_request "INFO" "2 INFO")) 481 "" idle_server).
Proof.
  exact (stray_request_harmless sample_config (busy_env 0) "INFO" Allowed (sample_request "INFO" "2 INFO") idle_server eq_refl ltac:(by vm_compute)).
Defined.

(** Half a minute without an ACK is too long. *)
Lemma reaper_exact_witness : sv_callStates (reapStaleDialogs sample_config (busy_env (33 * second)) called_server) !! "call-1" = None.
Proof.
  destruct (reaper_exact sample_config (busy_env (33 * second)) [] called_server called_reachable) as (Hmap & _ & _).
  destruct (_ !! "call-1") as [p|] eqn:E; [|reflexivity]. apply Hmap in E as [Hp Hfresh]. exfalso.
  rewrite called_in_map in Hp. injection Hp as <-. specialize (Hfresh _ called_call_at). vm_compute in Hfresh. discriminate Hfresh.
Defined.
