(* ===== verification/SipAuth.v ===== *)
(** * SIP authentication and access control

    [src/pkg/auth/sip_auth.go]: the digest authenticator with its users and
    nonces, and the controller of IP addresses.  The random bytes and the readings
    of the clock are arguments.  [Authenticate] is the call run on its own; the
    section on interleavings cuts it at its locks and runs many calls at once. *)

From S2P Require Import Prelude GoStrings GoText GoFloat Digests Net.
From Stdlib Require Import Ascii String.
#[local] Open Scope string_scope.
#[local] Open Scope list_scope.
#[local] Open Scope Z_scope.

Record SIPUser := mkSIPUser {
  us_Username : string;
  us_Password : string;
  us_Realm : string;
  us_Enabled : bool
}.

Record NonceInfo := mkNonceInfo {
  no_Value : string;
  no_Timestamp : Z;
  no_Count : Z;
  no_ClientIP : string
}.

Record SIPAuthenticator := mkSIPAuthenticator {
  sa_users : gmap string SIPUser;
  sa_nonces : gmap string NonceInfo;
  sa_realm : string;
  sa_nonceTimeout : Z
}.

Record AuthResult := mkAuthResult {
  ar_Success : bool;
  ar_Username : string;
  ar_Reason : string;
  ar_Challenge : string
}.

Record DigestCredentials := mkDigestCredentials {
  dc_Username : string;
  dc_Realm : string;
  dc_Nonce : string;
  dc_URI : string;
  dc_Response : string;
  dc_Algorithm : string;
  dc_Opaque : string;
  dc_QOP : string;
  dc_NC : string;
  dc_CNonce : string
}.

Definition no_credentials : DigestCredentials := mkDigestCredentials "" "" "" "" "" "" "" "" "" "".

(** ** Users *)

Definition NewSIPAuthenticator (realm : string) : SIPAuthenticator :=
  mkSIPAuthenticator ∅ ∅ realm (300 * 1000000000).

Definition AddUser (username password : string) (s : SIPAuthenticator) : SIPAuthenticator :=
  s <| sa_users := <[username := mkSIPUser username password (sa_realm s) true]> (sa_users s) |>.

Definition RemoveUser (username : string) (s : SIPAuthenticator) : SIPAuthenticator :=
  s <| sa_users := delete username (sa_users s) |>.

Definition set_enabled (b : bool) (username : string) (s : SIPAuthenticator) : SIPAuthenticator :=
  match sa_users s !! username with
  | Some user => s <| sa_users := <[username := user <| us_Enabled := b |>]> (sa_users s) |>
  | None => s
  end.

Definition DisableUser : string -> SIPAuthenticator -> SIPAuthenticator := set_enabled false.
Definition EnableUser : string -> SIPAuthenticator -> SIPAuthenticator := set_enabled true.

(** ** Nonces *)

Definition expired (now : Z) (info : NonceInfo) (s : SIPAuthenticator) : bool :=
  sa_nonceTimeout s <? time_sub now (no_Timestamp info).

(** [random] are the bytes read, [None] an error of the reader. *)
Definition generateNonce (now : Z) (random : option (list Z)) (clientIP : string) (s : SIPAuthenticator)
    : SIPAuthenticator * option string :=
  match random with
  | None => (s, None)
  | Some bytes =>
    let nonce := hex_encode (sha256 bytes) in
    (s <| sa_nonces := <[nonce := mkNonceInfo nonce now 0 clientIP]> (sa_nonces s) |>, Some nonce)
  end.

Definition challenge_text (realm nonce : string) : string :=
  "Digest realm=" +:+ dquote +:+ realm +:+ dquote +:+ ", nonce=" +:+ dquote +:+ nonce +:+ dquote +:+
  ", algorithm=MD5, qop=" +:+ dquote +:+ "auth" +:+ dquote.

Definition generateChallenge (now : Z) (random : option (list Z)) (clientIP : string) (s : SIPAuthenticator)
    : SIPAuthenticator * string :=
  match generateNonce now random clientIP s with
  | (s, Some nonce) => (s, challenge_text (sa_realm s) nonce)
  | (s, None) => (s, "")
  end.

Fixpoint hex_number (acc : Z) (s : string) : option Z :=
  match s with
  | EmptyString => Some acc
  | String c s => d ← hex_digit c; hex_number (16 * acc + d) s
  end.

Definition parseNonceCount (nc : string) : option Z :=
  if negb (String.length nc =? 8)%nat then None else
  value ← hex_number 0 nc;
  if 2 ^ 31 - 1 <? value then None else Some (u32 value).

(** [inspectNonce] up to its first unlock: an error that leaves the nonce alone,
    an expired nonce, or the count stored and the count to commit. *)
Inductive inspection := Unacceptable | Expired | Acceptable (expected next : Z).

Definition inspect (now : Z) (nonce clientIP nc : string) (s : SIPAuthenticator) : inspection :=
  match parseNonceCount nc, sa_nonces s !! nonce with
  | Some ncVal, Some info =>
    if expired now info s then Expired
    else if negb (String.eqb (no_ClientIP info) clientIP) then Unacceptable
    else if ncVal <=? no_Count info then Unacceptable
    else Acceptable (no_Count info) ncVal
  | _, _ => Unacceptable
  end.

Definition drop_expired (now : Z) (nonce : string) (s : SIPAuthenticator) : SIPAuthenticator :=
  match sa_nonces s !! nonce with
  | Some current => if expired now current s then s <| sa_nonces := delete nonce (sa_nonces s) |> else s
  | None => s
  end.

Definition inspectNonce (now now' : Z) (nonce clientIP nc : string) (s : SIPAuthenticator)
    : SIPAuthenticator * option (Z * Z) :=
  match inspect now nonce clientIP nc s with
  | Unacceptable => (s, None)
  | Expired => (drop_expired now' nonce s, None)
  | Acceptable expected next => (s, Some (expected, next))
  end.

Definition commitNonceCount (now now' : Z) (nonce : string) (expected next : Z) (s : SIPAuthenticator)
    : SIPAuthenticator * bool :=
  if next <=? expected then (s, false) else
  match sa_nonces s !! nonce with
  | None => (s, false)
  | Some info =>
    if negb (no_Count info =? expected) || expired now info s
    then (if expired now' info s then s <| sa_nonces := delete nonce (sa_nonces s) |> else s, false)
    else (s <| sa_nonces := <[nonce := info <| no_Count := next |>]> (sa_nonces s) |>, true)
  end.

Definition validateNonce (now : nat -> Z) (nonce clientIP nc : string) (s : SIPAuthenticator) : SIPAuthenticator * bool :=
  match inspectNonce (now 0%nat) (now 1%nat) nonce clientIP nc s with
  | (s, Some (expected, next)) => commitNonceCount (now 2%nat) (now 3%nat) nonce expected next s
  | (s, None) => (s, false)
  end.

(** One pass of [cleanupNonces]. *)
Definition cleanupNonces (now : Z) (s : SIPAuthenticator) : SIPAuthenticator :=
  s <| sa_nonces := filter (fun kv => expired now kv.2 s = false) (sa_nonces s) |>.

Section digest.
Context `{Unicode}.

(** ** Credentials *)

Definition quote : ascii := ascii_of_N 34.

Definition set_credential (creds : DigestCredentials) (key value : string) : DigestCredentials :=
  if String.eqb key "username" then creds <| dc_Username := value |>
  else if String.eqb key "realm" then creds <| dc_Realm := value |>
  else if String.eqb key "nonce" then creds <| dc_Nonce := value |>
  else if String.eqb key "uri" then creds <| dc_URI := value |>
  else if String.eqb key "response" then creds <| dc_Response := value |>
  else if String.eqb key "algorithm" then creds <| dc_Algorithm := value |>
  else if String.eqb key "opaque" then creds <| dc_Opaque := value |>
  else if String.eqb key "qop" then creds <| dc_QOP := value |>
  else if String.eqb key "nc" then creds <| dc_NC := value |>
  else if String.eqb key "cnonce" then creds <| dc_CNonce := value |>
  else creds.

Definition read_pair (creds : DigestCredentials) (pair : string) : DigestCredentials :=
  let pair := trim_space pair in
  match GoStrings.index pair "=" with
  | None => creds
  | Some n =>
    set_credential creds (trim_space (take_string n pair)) (trim_char quote (trim_space (drop_string (S n) pair)))
  end.

Definition parseDigestAuth (authHeader requestURI : string) (realm : string) : option DigestCredentials :=
  if negb (has_prefix authHeader "Digest ") then None else
  let creds := foldl read_pair no_credentials (split_on "," (trim_prefix authHeader "Digest ")) in
  if String.eqb (dc_Username creds) "" || String.eqb (dc_Realm creds) "" || String.eqb (dc_Nonce creds) "" ||
     String.eqb (dc_URI creds) "" || String.eqb (dc_Response creds) "" then None
  else if negb (String.eqb (dc_Realm creds) realm) then None
  else if negb (String.eqb (dc_URI creds) requestURI) then None
  else if negb (equal_fold (dc_Algorithm creds) "MD5") then None
  else if negb (String.eqb (dc_QOP creds) "auth") then None
  else if String.eqb (dc_CNonce creds) "" then None
  else _ ← parseNonceCount (dc_NC creds); Some creds.

Definition md5_hex (s : string) : string := hex_encode (md5 (string_bytes s)).

Definition calculateResponse (password method uri : string) (creds : DigestCredentials) : string :=
  let ha1 := md5_hex (join ":" [dc_Username creds; dc_Realm creds; password]) in
  let ha2 := md5_hex (join ":" [method; uri]) in
  md5_hex
    (if String.eqb (dc_QOP creds) "auth" || String.eqb (dc_QOP creds) "auth-int"
     then join ":" [ha1; dc_Nonce creds; dc_NC creds; dc_CNonce creds; dc_QOP creds; ha2]
     else join ":" [ha1; dc_Nonce creds; ha2]).

(** ** Authentication *)

Definition failed (username reason : string) (c : SIPAuthenticator * string) : SIPAuthenticator * AuthResult :=
  (c.1, mkAuthResult false username reason c.2).

Definition Authenticate (now : nat -> Z) (random : option (list Z)) (authHeader method uri clientIP : string)
    (s : SIPAuthenticator) : SIPAuthenticator * AuthResult :=
  let challenge := generateChallenge (now 4%nat) random clientIP in
  if String.eqb authHeader "" then failed "" "No authentication provided" (challenge s) else
  match parseDigestAuth authHeader uri (sa_realm s) with
  | None => failed "" "Invalid authentication format" (challenge s)
  | Some creds =>
    match sa_users s !! dc_Username creds with
    | Some (mkSIPUser _ password _ true) =>
      match inspectNonce (now 0%nat) (now 1%nat) (dc_Nonce creds) clientIP (dc_NC creds) s with
      | (s, None) => failed (dc_Username creds) "Invalid or expired nonce" (challenge s)
      | (s, Some (expected, next)) =>
        if negb (String.eqb (dc_Response creds) (calculateResponse password method uri creds))
        then failed (dc_Username creds) "Invalid credentials" (challenge s) else
        match commitNonceCount (now 2%nat) (now 3%nat) (dc_Nonce creds) expected next s with
        | (s, false) => failed (dc_Username creds) "Nonce replay detected" (challenge s)
        | (s, true) => (s, mkAuthResult true (dc_Username creds) "Authentication successful" "")
        end
      end
    | _ => failed (dc_Username creds) "User not found or disabled" (challenge s)
    end
  end.
End digest.

(** ** IP access control *)

Record IPAccessController := mkIPAccessController {
  ia_allowedNetworks : list IPNet;
  ia_blockedNetworks : list IPNet;
  ia_allowedIPs : gset string;
  ia_blockedIPs : gset string;
  ia_defaultAllow : bool
}.

Definition NewIPAccessController (defaultAllow : bool) : IPAccessController :=
  mkIPAccessController [] [] ∅ ∅ defaultAllow.

(** The operations return the controller and whether they succeeded. *)
Definition AddAllowedIP (ipAddr : string) (c : IPAccessController) : IPAccessController * bool :=
  if valid_ip ipAddr then (c <| ia_allowedIPs := {[ipAddr]} ∪ ia_allowedIPs c |>, true) else (c, false).

Definition AddBlockedIP (ipAddr : string) (c : IPAccessController) : IPAccessController * bool :=
  if valid_ip ipAddr then (c <| ia_blockedIPs := {[ipAddr]} ∪ ia_blockedIPs c |>, true) else (c, false).

Definition AddAllowedNetwork (cidr : string) (c : IPAccessController) : IPAccessController * bool :=
  match parse_cidr cidr with
  | Some network => (c <| ia_allowedNetworks := ia_allowedNetworks c ++ [network] |>, true)
  | None => (c, false)
  end.

Definition AddBlockedNetwork (cidr : string) (c : IPAccessController) : IPAccessController * bool :=
  match parse_cidr cidr with
  | Some network => (c <| ia_blockedNetworks := ia_blockedNetworks c ++ [network] |>, true)
  | None => (c, false)
  end.

Definition IsAllowed (ipAddr : string) (c : IPAccessController) : bool :=
  match parse_ip ipAddr with
  | None => false
  | Some parsedIP =>
    if bool_decide (ipAddr ∈ ia_blockedIPs c) then false
    else if existsb (fun network => net_contains network parsedIP) (ia_blockedNetworks c) then false
    else if bool_decide (ipAddr ∈ ia_allowedIPs c) then true
    else if existsb (fun network => net_contains network parsedIP) (ia_allowedNetworks c) then true
    else ia_defaultAllow c
  end.

(** ** Interleavings

    A call of [Authenticate] cut at its locks.  Between two steps of a call any
    number of steps of other calls, of the administrator and of the cleanup may
    happen. *)

Record AuthRequest := mkAuthRequest {
  rq_header : string;
  rq_method : string;
  rq_uri : string;
  rq_clientIP : string
}.

Inductive auth_pc :=
  | AtLookup (creds : DigestCredentials)
  | AtInspect (creds : DigestCredentials) (password : string)
  | AtExpire (creds : DigestCredentials)
  | AtCommit (creds : DigestCredentials) (expected next : Z)
  | AtChallenge (username reason : string)
  | AtEnd (result : AuthResult).

Section steps.
Context `{Unicode}.

Definition auth_begin (rq : AuthRequest) (realm : string) : auth_pc :=
  if String.eqb (rq_header rq) "" then AtChallenge "" "No authentication provided" else
  match parseDigestAuth (rq_header rq) (rq_uri rq) realm with
  | None => AtChallenge "" "Invalid authentication format"
  | Some creds => AtLookup creds
  end.

(** The clock is read once or twice in a step. *)
Definition auth_step (now now' : Z) (random : option (list Z)) (rq : AuthRequest) (pc : auth_pc) (s : SIPAuthenticator)
    : SIPAuthenticator * auth_pc :=
  match pc with
  | AtLookup creds =>
    match sa_users s !! dc_Username creds with
    | Some (mkSIPUser _ password _ true) => (s, AtInspect creds password)
    | _ => (s, AtChallenge (dc_Username creds) "User not found or disabled")
    end
  | AtInspect creds password =>
    match inspect now (dc_Nonce creds) (rq_clientIP rq) (dc_NC creds) s with
    | Unacceptable => (s, AtChallenge (dc_Username creds) "Invalid or expired nonce")
    | Expired => (s, AtExpire creds)
    | Acceptable expected next =>
      if negb (String.eqb (dc_Response creds) (calculateResponse password (rq_method rq) (rq_uri rq) creds))
      then (s, AtChallenge (dc_Username creds) "Invalid credentials")
      else (s, AtCommit creds expected next)
    end
  | AtExpire creds =>
    (drop_expired now (dc_Nonce creds) s, AtChallenge (dc_Username creds) "Invalid or expired nonce")
  | AtCommit creds expected next =>
    match commitNonceCount now now' (dc_Nonce creds) expected next s with
    | (s, false) => (s, AtChallenge (dc_Username creds) "Nonce replay detected")
    | (s, true) => (s, AtEnd (mkAuthResult true (dc_Username creds) "Authentication successful" ""))
    end
  | AtChallenge username reason =>
    let '(s, challenge) := generateChallenge now random (rq_clientIP rq) s in
    (s, AtEnd (mkAuthResult false username reason challenge))
  | AtEnd result => (s, AtEnd result)
  end.

(** Many calls at once.  Besides the shared authenticator and the calls in
    progress the state keeps what has happened: the nonces issued, with client
    and time, and the requests accepted, last first: nonce, count, client and
    time. *)
Record Issue := mkIssue { is_nonce : string; is_client : string; is_time : Z }.
Record Acceptance := mkAcceptance { ac_nonce : string; ac_count : Z; ac_client : string; ac_time : Z }.

Record AuthState := mkAuthState {
  as_shared : SIPAuthenticator;
  as_calls : gmap nat (AuthRequest * auth_pc);
  as_issued : list Issue;
  as_accepted : list Acceptance
}.

(** The nonce a step issues and the request it accepts. *)
Definition issues (now : Z) (random : option (list Z)) (rq : AuthRequest) (pc : auth_pc) : list Issue :=
  match pc, random with
  | AtChallenge _ _, Some bytes => [mkIssue (hex_encode (sha256 bytes)) (rq_clientIP rq) now]
  | _, _ => []
  end.

Definition accepts (now : Z) (rq : AuthRequest) (pc pc' : auth_pc) : list Acceptance :=
  match pc, pc' with
  | AtCommit creds _ next, AtEnd (mkAuthResult true _ _ _) =>
    [mkAcceptance (dc_Nonce creds) next (rq_clientIP rq) now]
  | _, _ => []
  end.

Inductive admin_step : SIPAuthenticator -> SIPAuthenticator -> Prop :=
  | admin_add username password s : admin_step s (AddUser username password s)
  | admin_remove username s : admin_step s (RemoveUser username s)
  | admin_disable username s : admin_step s (DisableUser username s)
  | admin_enable username s : admin_step s (EnableUser username s)
  | admin_cleanup now s : admin_step s (cleanupNonces now s).

(** The random bytes of different calls give different nonces: a step that issues
    a nonce issues a new one. *)
Inductive system_step : AuthState -> AuthState -> Prop :=
  | step_begin i rq st :
    as_calls st !! i = None ->
    system_step st (st <| as_calls := <[i := (rq, auth_begin rq (sa_realm (as_shared st)))]> (as_calls st) |>)
  | step_call i rq pc now now' random s pc' st :
    as_calls st !! i = Some (rq, pc) ->
    auth_step now now' random rq pc (as_shared st) = (s, pc') ->
    Forall (fun n => is_nonce n ∉ map is_nonce (as_issued st)) (issues now random rq pc) ->
    system_step st (mkAuthState s (<[i := (rq, pc')]> (as_calls st)) (issues now random rq pc ++ as_issued st)
                                (accepts now rq pc pc' ++ as_accepted st))
  | step_admin s st :
    admin_step (as_shared st) s -> system_step st (st <| as_shared := s |>).

(** A new authenticator without calls. *)
Definition fresh_state (realm : string) : AuthState := mkAuthState (NewSIPAuthenticator realm) ∅ [] [].

Definition system_reachable (realm : string) : AuthState -> Prop := rtc system_step (fresh_state realm).
End steps.

(** *** No request is accepted twice *)

Section replay.
Context `{Unicode}.

(** Of two acceptances of one nonce the later one has the larger count. *)
Definition outdoes (later earlier : Acceptance) : Prop :=
  ac_nonce later = ac_nonce earlier -> ac_count earlier < ac_count later.

(** The nonce was issued to this client. *)
Definition issued_to (issued : list Issue) (nonce client : string) (time : Z) : Prop :=
  mkIssue nonce client time ∈ issued.

Definition call_sound (issued : list Issue) (call : AuthRequest * auth_pc) : Prop :=
  match call.2 with
  | AtCommit creds expected next => exists time, issued_to issued (dc_Nonce creds) (rq_clientIP call.1) time
  | _ => True
  end.

Record replay_inv (st : AuthState) : Prop := {
  ri_timeout : sa_nonceTimeout (as_shared st) = 300 * 1000000000;
  ri_issued : NoDup (map is_nonce (as_issued st));
  ri_nonces : forall nonce info, sa_nonces (as_shared st) !! nonce = Some info ->
    issued_to (as_issued st) nonce (no_ClientIP info) (no_Timestamp info);
  ri_calls : map_Forall (fun _ => call_sound (as_issued st)) (as_calls st);
  ri_counts : Forall (fun a => forall info, sa_nonces (as_shared st) !! ac_nonce a = Some info ->
    ac_count a <= no_Count info) (as_accepted st);
  ri_sorted : StronglySorted outdoes (as_accepted st);
  ri_valid : Forall (fun a => exists time, issued_to (as_issued st) (ac_nonce a) (ac_client a) time /\
    time_sub (ac_time a) time <= 300 * 1000000000) (as_accepted st)
}.

(** One nonce has one client. *)
Lemma issued_once issued nonce c c' t t' :
  NoDup (map is_nonce issued) -> issued_to issued nonce c t -> issued_to issued nonce c' t' -> c = c' /\ t = t'.
Proof.
  unfold issued_to. intros Hn H1 H2. apply list_elem_of_lookup in H1 as [i H1], H2 as [j H2].
  assert (i = j) as ->.
  { eapply (NoDup_lookup _ _ _ nonce Hn); rewrite list_lookup_fmap; [by rewrite H1|by rewrite H2]. }
  rewrite H1 in H2. by injection H2 as -> ->.
Qed.

(** Nothing but a commit changes a count, nothing but a challenge adds a nonce. *)
Definition only_drops (s s' : SIPAuthenticator) : Prop :=
  sa_nonceTimeout s' = sa_nonceTimeout s /\ sa_nonces s' ⊆ sa_nonces s.

Lemma only_drops_refl s : only_drops s s.
Proof. done. Qed.

Lemma only_drops_delete s nonce : only_drops s (s <| sa_nonces := delete nonce (sa_nonces s) |>).
Proof. destruct s. split; [done|]. apply delete_subseteq. Qed.

Lemma drop_expired_drops now nonce s : only_drops s (drop_expired now nonce s).
Proof.
  unfold drop_expired. destruct (_ !! _); [|done]. destruct (expired _ _ _); [apply only_drops_delete|done].
Qed.

Lemma admin_drops s s' : admin_step s s' -> only_drops s s'.
Proof.
  destruct 1 as [? ? []|? []|? []|? []|? []]; [done|done|..].
  1, 2: unfold DisableUser, EnableUser, set_enabled; by destruct (_ !! _).
  split; [done|]. apply map_filter_subseteq.
Qed.

Lemma commit_spec now now' nonce expected next s s' b :
  commitNonceCount now now' nonce expected next s = (s', b) ->
  if b then exists info, sa_nonces s !! nonce = Some info /\ no_Count info = expected /\ expected < next /\
                 expired now info s = false /\
                 s' = s <| sa_nonces := <[nonce := info <| no_Count := next |>]> (sa_nonces s) |>
  else only_drops s s'.
Proof.
  unfold commitNonceCount. destruct (Z.leb_spec next expected); [by intros [= <- <-]|].
  destruct (sa_nonces s !! nonce) as [info|] eqn:E; [|by intros [= <- <-]].
  destruct (Z.eqb_spec (no_Count info) expected); cbn;
    [destruct (expired now info s) eqn:Ex|]; intros [= <- <-].
  1, 3: destruct (expired now' info s); [apply only_drops_delete|done].
  by exists info.
Qed.

Lemma inv_drops st s :
  only_drops (as_shared st) s -> replay_inv st -> replay_inv (st <| as_shared := s |>).
Proof.
  intros [Ht Hs] []. destruct st. split; cbn in *; try done; [congruence| |].
  - intros nonce info Hi. apply ri_nonces0. by eapply lookup_weaken.
  - eapply Forall_impl; [exact ri_counts0|]. intros a Ha info Hi. apply Ha. by eapply lookup_weaken.
Qed.

Lemma inv_call st i rq pc :
  replay_inv st -> call_sound (as_issued st) (rq, pc) -> replay_inv (st <| as_calls := <[i := (rq, pc)]> (as_calls st) |>).
Proof. intros [] Hc. destruct st. split; cbn in *; try done. by apply map_Forall_insert_2. Qed.

(** A challenge adds a nonce that was never issued. *)
Lemma inv_challenge st nonce client now :
  replay_inv st -> nonce ∉ map is_nonce (as_issued st) ->
  replay_inv (mkAuthState ((as_shared st) <| sa_nonces := <[nonce := mkNonceInfo nonce now 0 client]> (sa_nonces (as_shared st)) |>)
                          (as_calls st) (mkIssue nonce client now :: as_issued st) (as_accepted st)).
Proof.
  destruct st as [[] calls issued accepted]. intros [] Hf. cbn in *.
  assert (Hold : forall n c t, mkIssue n c t ∈ issued -> mkIssue n c t ∈ mkIssue nonce client now :: issued).
  { intros. by apply list_elem_of_further. }
  split; cbn; try done.
  - by constructor.
  - intros n info. destruct (decide (n = nonce)) as [->|Hne].
    + rewrite lookup_insert_eq. intros [= <-]. apply list_elem_of_here.
    + rewrite lookup_insert_ne by done. intros Hi. by apply Hold, ri_nonces0.
  - intros j [rq' pc'] Hj. specialize (ri_calls0 j _ Hj). unfold call_sound in *. cbn in *.
    destruct pc'; try done. destruct ri_calls0 as [t Ht]. exists t. by apply Hold.
  - rewrite Forall_forall in ri_counts0, ri_valid0. apply Forall_forall. intros a Ha info.
    destruct (decide (ac_nonce a = nonce)) as [E|Hne].
    + destruct (ri_valid0 a Ha) as (t & Hi & _). exfalso. apply Hf. rewrite <- E.
      apply list_elem_of_fmap. by exists (mkIssue (ac_nonce a) (ac_client a) t).
    + rewrite lookup_insert_ne by done. by apply ri_counts0.
  - eapply Forall_impl; [exact ri_valid0|]. intros a (t & Hi & Ht). exists t. split; [by apply Hold|done].
Qed.

(** A commit raises the count of its nonce. *)
Lemma inv_commit st nonce info client next now :
  replay_inv st -> sa_nonces (as_shared st) !! nonce = Some info -> no_Count info < next ->
  expired now info (as_shared st) = false -> (exists t, issued_to (as_issued st) nonce client t) ->
  replay_inv (mkAuthState ((as_shared st) <| sa_nonces := <[nonce := info <| no_Count := next |>]> (sa_nonces (as_shared st)) |>)
                          (as_calls st) (as_issued st) (mkAcceptance nonce next client now :: as_accepted st)).
Proof.
  destruct st as [[] calls issued accepted], info as [value time count ip]. intros [] Hn Hlt Hx [t Hc]. cbn in *.
  destruct (issued_once _ _ _ _ _ _ ri_issued0 Hc (ri_nonces0 _ _ Hn)) as [-> ->].
  rewrite Forall_forall in ri_counts0, ri_valid0.
  split; cbn; try done.
  - intros n info'. destruct (decide (n = nonce)) as [->|Hne].
    + rewrite lookup_insert_eq. intros [= <-]. done.
    + rewrite lookup_insert_ne by done. apply ri_nonces0.
  - apply Forall_cons. split; cbn.
    + intros info'. rewrite lookup_insert_eq. intros [= <-]. done.
    + apply Forall_forall. intros a Ha info'. destruct (decide (ac_nonce a = nonce)) as [E|Hne].
      * rewrite E, lookup_insert_eq. intros [= <-]. cbn. specialize (ri_counts0 a Ha).
        rewrite E in ri_counts0. specialize (ri_counts0 _ Hn). cbn in *. lia.
      * rewrite lookup_insert_ne by done. by apply ri_counts0.
  - constructor; [done|]. apply Forall_forall. intros a Ha E. cbn in *. specialize (ri_counts0 a Ha).
    rewrite <- E in ri_counts0. specialize (ri_counts0 _ Hn). cbn in *. lia.
  - apply Forall_cons. split; [|by apply Forall_forall]. cbn. exists time. split; [done|].
    unfold expired in Hx. cbn in Hx. rewrite ri_timeout0 in Hx. apply Z.ltb_ge in Hx. done.
Qed.

Lemma inspect_acceptable now nonce clientIP nc s expected next :
  inspect now nonce clientIP nc s = Acceptable expected next ->
  exists info, sa_nonces s !! nonce = Some info /\ no_ClientIP info = clientIP /\ no_Count info = expected /\
               parseNonceCount nc = Some next /\ expected < next /\ expired now info s = false.
Proof.
  unfold inspect. destruct (parseNonceCount nc) as [v|]; [|done].
  destruct (sa_nonces s !! nonce) as [info|]; [|done]. destruct (expired now info s) eqn:Ex; [done|].
  destruct (String.eqb_spec (no_ClientIP info) clientIP); [|done].
  destruct (Z.leb_spec v (no_Count info)); [done|]. intros [= <- <-]. by exists info.
Qed.

Lemma inv_step st st' : system_step st st' -> replay_inv st -> replay_inv st'.
Proof.
  destruct 1 as [i rq st _|i rq pc now now' random s pc' st Hi Hs Hf|s st Ha]; intros Hinv.
  - apply inv_call; [done|]. unfold auth_begin. case_match; [done|]. by case_match.
  - assert (Hc := ri_calls _ Hinv i _ Hi). unfold call_sound in Hc. destruct st as [sh calls issued accepted]. cbn in *.
    assert (Hkeep : forall s pc', only_drops sh s -> call_sound issued (rq, pc') ->
      replay_inv (mkAuthState s (<[i := (rq, pc')]> calls) issued accepted)).
    { intros s0 pc0 Hd Hp. apply (inv_call (mkAuthState s0 calls issued accepted)); [|exact Hp].
      by apply (inv_drops (mkAuthState sh calls issued accepted)). }
    destruct pc as [creds|creds password|creds|creds expected next|username reason|result]; cbn in Hs, Hf |- *.
    + destruct (sa_users sh !! dc_Username creds) as [[? ? ? []]|]; injection Hs as <- <-; by apply Hkeep.
    + destruct (inspect _ _ _ _ _) as [| |expected next] eqn:Ei; [by injection Hs as <- <-; apply Hkeep..|].
      destruct (negb _); injection Hs as <- <-; apply Hkeep; try done.
      apply inspect_acceptable in Ei as (info & Hn & Hip & _). exists (no_Timestamp info). cbn. rewrite <- Hip.
      by apply (ri_nonces _ Hinv).
    + injection Hs as <- <-. apply Hkeep; [apply drop_expired_drops|done].
    + destruct (commitNonceCount _ _ _ _ _ _) as [s0 []] eqn:Ec; injection Hs as <- <-; cbn;
        apply commit_spec in Ec; [|by apply Hkeep].
      destruct Ec as (info & Hn & <- & Hlt & Hx & ->).
      pose proof (inv_commit _ _ _ (rq_clientIP rq) _ now Hinv Hn Hlt Hx Hc) as H'. by apply (inv_call _ i rq _ H').
    + unfold generateChallenge, generateNonce in Hs. destruct random as [bytes|]; injection Hs as <- <-; cbn; [|by apply Hkeep].
      apply Forall_cons in Hf as [Hf _]. pose proof (inv_challenge _ _ (rq_clientIP rq) now Hinv Hf) as H'.
      by apply (inv_call _ i rq _ H').
    + injection Hs as <- <-. by apply Hkeep.
  - apply inv_drops; [|done]. by apply admin_drops.
Qed.

Lemma replay_reachable realm st : system_reachable realm st -> replay_inv st.
Proof.
  revert st. apply (rtc_ind_r replay_inv); [|intros st st' _ Hs Hi; by eapply inv_step].
  split; try done; try constructor.
Qed.
End replay.

(** ** One call on its own *)

Section alone.
Context `{Unicode}.

(** A step of a call that runs undisturbed, with the readings of the clock that
    [Authenticate] takes. *)
Definition step_alone (now : nat -> Z) (random : option (list Z)) (rq : AuthRequest) (c : SIPAuthenticator * auth_pc)
    : SIPAuthenticator * auth_pc :=
  let t := match c.2 with AtInspect _ _ => 0 | AtExpire _ => 1 | AtCommit _ _ _ => 2 | _ => 4 end%nat in
  auth_step (now t) (now 3%nat) random rq c.2 c.1.

(** The cut at the locks is faithful: a call that nobody disturbs ends after at
    most four steps, with the state and the result of [Authenticate]. *)
Theorem authenticate_cut now random rq s :
  Nat.iter 4 (step_alone now random rq) (s, auth_begin rq (sa_realm s)) =
  prod_map id AtEnd (Authenticate now random (rq_header rq) (rq_method rq) (rq_uri rq) (rq_clientIP rq) s).
Proof.
  assert (Hch : forall k username reason s0,
    Nat.iter (S k) (step_alone now random rq) (s0, AtChallenge username reason) =
    prod_map id AtEnd (failed username reason (generateChallenge (now 4%nat) random (rq_clientIP rq) s0))).
  { intros k username reason s0. rewrite Nat.iter_succ_r. unfold step_alone at 2. cbn.
    destruct (generateChallenge _ _ _ _) as [s1 ch]. induction k as [|k IH]; [done|]. by rewrite Nat.iter_succ, IH. }
  unfold Authenticate, auth_begin. destruct (String.eqb (rq_header rq) ""); [apply Hch|].
  destruct (parseDigestAuth _ _ _) as [creds|]; [|apply Hch].
  rewrite Nat.iter_succ_r. unfold step_alone at 2. cbn [fst snd auth_step].
  destruct (sa_users s !! dc_Username creds) as [[u password r []]|]; [|apply Hch..].
  rewrite Nat.iter_succ_r. unfold step_alone at 2. cbn [fst snd auth_step]. unfold inspectNonce.
  destruct (inspect _ _ _ _ _) as [| |expected next]; [apply Hch|..].
  - rewrite Nat.iter_succ_r. unfold step_alone at 2. cbn [fst snd auth_step]. apply Hch.
  - destruct (negb _); [apply Hch|]. rewrite Nat.iter_succ_r. unfold step_alone at 2. cbn [fst snd auth_step].
    destruct (commitNonceCount _ _ _ _ _ _) as [s1 []]; [done|apply Hch].
Qed.

(** What a success means: the header parses for this URI and this realm, its user
    is known and enabled, the response is the digest of that user's password, and
    the nonce is a stored one of this client, not expired, with a count above the
    last one. *)
Definition acceptable (now : nat -> Z) (header method uri clientIP : string) (s : SIPAuthenticator)
    (creds : DigestCredentials) (info : NonceInfo) (next : Z) : Prop :=
  parseDigestAuth header uri (sa_realm s) = Some creds /\
  (exists user, sa_users s !! dc_Username creds = Some user /\ us_Enabled user = true /\
                dc_Response creds = calculateResponse (us_Password user) method uri creds) /\
  sa_nonces s !! dc_Nonce creds = Some info /\ no_ClientIP info = clientIP /\
  expired (now 0%nat) info s = false /\ expired (now 2%nat) info s = false /\
  parseNonceCount (dc_NC creds) = Some next /\ no_Count info < next.

(** The count is stored, and nothing else changes. *)
Definition accepted_state (creds : DigestCredentials) (info : NonceInfo) (next : Z) (s : SIPAuthenticator) : SIPAuthenticator :=
  s <| sa_nonces := <[dc_Nonce creds := info <| no_Count := next |>]> (sa_nonces s) |>.

Definition accepted_result (creds : DigestCredentials) : AuthResult :=
  mkAuthResult true (dc_Username creds) "Authentication successful" "".

Lemma success_spec now random header method uri clientIP s s' r :
  Authenticate now random header method uri clientIP s = (s', r) -> ar_Success r = true ->
  exists creds info next, acceptable now header method uri clientIP s creds info next /\
    s' = accepted_state creds info next s /\ r = accepted_result creds.
Proof.
  unfold Authenticate. destruct (String.eqb header ""); [by intros [= <- <-]|].
  destruct (parseDigestAuth _ _ _) as [creds|] eqn:Hp; [|by intros [= <- <-]].
  destruct (sa_users s !! dc_Username creds) as [[u password realm []]|] eqn:Hu; [|by intros [= <- <-]..].
  unfold inspectNonce. destruct (inspect _ _ _ _ _) as [| |expected next] eqn:Ei; [by intros [= <- <-]..|].
  apply inspect_acceptable in Ei as (info & Hn & Hip & <- & Hnc & Hlt & Hx).
  destruct (String.eqb_spec (dc_Response creds) (calculateResponse password method uri creds)) as [E|]; [|by intros [= <- <-]].
  cbn. destruct (commitNonceCount _ _ _ _ _ _) as [s1 []] eqn:Ec; [|by intros [= <- <-]].
  intros [= <- <-] _. apply commit_spec in Ec as (info' & Hn' & _ & _ & Hx' & ->).
  rewrite Hn in Hn'. injection Hn' as <-. exists creds, info, next. split; [|done]. repeat split; try done.
  by exists (mkSIPUser u password realm true).
Qed.

Lemma parse_digest_nonempty header uri realm creds : parseDigestAuth header uri realm = Some creds -> header <> "".
Proof. intros Hp ->. done. Qed.

Lemma success_complete now random header method uri clientIP s creds info next :
  acceptable now header method uri clientIP s creds info next ->
  Authenticate now random header method uri clientIP s = (accepted_state creds info next s, accepted_result creds).
Proof.
  intros (Hp & ([u password r on] & Hu & Hon & Hresp) & Hn & Hip & Hx0 & Hx2 & Hnc & Hlt). cbn in Hon, Hresp. subst on.
  unfold Authenticate. pose proof (parse_digest_nonempty _ _ _ _ Hp) as Hne. apply String.eqb_neq in Hne.
  rewrite Hne, Hp, Hu. unfold inspectNonce, inspect. rewrite Hnc, Hn, Hx0, Hip, String.eqb_refl. cbn [negb].
  destruct (Z.leb_spec next (no_Count info)); [lia|]. rewrite <- Hresp, String.eqb_refl. cbn [negb].
  unfold commitNonceCount. destruct (Z.leb_spec next (no_Count info)); [lia|]. rewrite Hn, Z.eqb_refl, Hx2. done.
Qed.

(** A failure challenges the client, unless there are no random bytes. *)
Lemma failure_challenge now random header method uri clientIP s s' r :
  Authenticate now random header method uri clientIP s = (s', r) -> ar_Success r = false ->
  ar_Challenge r <> "" <-> random <> None.
Proof.
  assert (Hf : forall username reason s0, failed username reason (generateChallenge (now 4%nat) random clientIP s0) = (s', r) ->
    ar_Challenge r <> "" <-> random <> None).
  { intros username reason s0. unfold failed, generateChallenge, generateNonce.
    destruct random as [bytes|]; intros [= <- <-]; cbn [ar_Challenge snd]; [by split|tauto]. }
  unfold Authenticate. intros Ha Hr. destruct (String.eqb header ""); [by eapply Hf|].
  destruct (parseDigestAuth _ _ _) as [creds|]; [|by eapply Hf].
  destruct (sa_users s !! dc_Username creds) as [[u password realm []]|]; [|by eapply Hf..].
  destruct (inspectNonce _ _ _ _ _ _) as [s1 [[expected next]|]]; [|by eapply Hf].
  destruct (negb _); [by eapply Hf|]. destruct (commitNonceCount _ _ _ _ _ _) as [s2 []]; [by injection Ha as <- <-|by eapply Hf].
Qed.

(** A failure keeps the users and, of the nonces, every one that has not expired;
    the only new one is that of the challenge. *)
Definition keeps (now : Z) (s s' : SIPAuthenticator) : Prop :=
  sa_users s' = sa_users s /\
  forall nonce info, sa_nonces s !! nonce = Some info -> expired now info s = false -> sa_nonces s' !! nonce = Some info.

Lemma keeps_refl now s : keeps now s s.
Proof. done. Qed.

Lemma keeps_delete now s nonce info :
  sa_nonces s !! nonce = Some info -> expired now info s = true ->
  keeps now s (s <| sa_nonces := delete nonce (sa_nonces s) |>).
Proof.
  intros Hn Hx. destruct s; cbn in *. split; [done|]. cbn. intros k i Hk He.
  rewrite lookup_delete_ne; [done|]. intros ->. congruence.
Qed.

Lemma drop_expired_keeps now nonce s : keeps now s (drop_expired now nonce s).
Proof.
  unfold drop_expired. destruct (_ !! _) as [info|] eqn:E; [|done].
  destruct (expired _ _ _) eqn:Ex; [by eapply keeps_delete|done].
Qed.

Lemma commit_keeps now now' nonce expected next s s' :
  commitNonceCount now now' nonce expected next s = (s', false) -> keeps now' s s'.
Proof.
  unfold commitNonceCount. destruct (next <=? expected); [by intros [= <-]|].
  destruct (sa_nonces s !! nonce) as [info|] eqn:E; [|by intros [= <-]]. destruct (_ || _); [|done].
  destruct (expired now' info s) eqn:Ex; intros [= <-]; [by eapply keeps_delete|done].
Qed.

Definition drawn (random : option (list Z)) : option string := b ← random; Some (hex_encode (sha256 b)).

Lemma failed_keeps now t random clientIP username reason s s0 s' r nonce info :
  keeps t s s0 -> failed username reason (generateChallenge now random clientIP s0) = (s', r) ->
  sa_nonces s !! nonce = Some info -> expired t info s = false -> drawn random <> Some nonce ->
  sa_users s' = sa_users s /\ sa_nonces s' !! nonce = Some info.
Proof.
  intros [Hu Hk] Hf Hn Hx Hne. rewrite <- Hu. specialize (Hk _ _ Hn Hx). clear Hu Hn Hx.
  unfold failed, generateChallenge, generateNonce in Hf. destruct random as [bytes|]; injection Hf as <- <-; cbn; [|done].
  destruct s0; cbn in *. split; [done|]. rewrite lookup_insert_ne; [done|]. intros E. apply Hne. cbn. by rewrite E.
Qed.

Lemma failure_spec now random header method uri clientIP s s' r nonce info :
  Authenticate now random header method uri clientIP s = (s', r) -> ar_Success r = false ->
  sa_nonces s !! nonce = Some info -> expired (now 1%nat) info s = false -> expired (now 3%nat) info s = false ->
  drawn random <> Some nonce ->
  sa_users s' = sa_users s /\ sa_nonces s' !! nonce = Some info.
Proof.
  intros Ha Hr Hn H1 H3 Hne. unfold Authenticate in Ha.
  destruct (String.eqb header ""); [by eapply failed_keeps; [apply (keeps_refl (now 1%nat))|..]|].
  destruct (parseDigestAuth _ _ _) as [creds|]; [|by eapply failed_keeps; [apply (keeps_refl (now 1%nat))|..]].
  destruct (sa_users s !! dc_Username creds) as [[u password realm []]|];
    [|by eapply failed_keeps; [apply (keeps_refl (now 1%nat))|..]..].
  unfold inspectNonce in Ha. destruct (inspect _ _ _ _ _) as [| |expected next].
  - by eapply failed_keeps; [apply (keeps_refl (now 1%nat))|..].
  - by eapply failed_keeps; [apply drop_expired_keeps|..].
  - destruct (negb _); [by eapply failed_keeps; [apply (keeps_refl (now 1%nat))|..]|].
    destruct (commitNonceCount _ _ _ _ _ _) as [s1 []] eqn:Ec; [by injection Ha as <- <-|].
    by eapply failed_keeps; [eapply commit_keeps|..].
Qed.
End alone.

(** ** A client's answer *)

Section answer.
Context `{Unicode}.

Definition quoted (value : string) : string := String quote (value +:+ String quote "").
Definition pair_text (key value : string) : string := key +:+ String "=" value.

(** The header of a client with these credentials, as RFC 2617 writes it. *)
Definition answer_header (c : DigestCredentials) : string :=
  "Digest " +:+ GoStrings.join ", "
    [pair_text "username" (quoted (dc_Username c)); pair_text "realm" (quoted (dc_Realm c));
     pair_text "nonce" (quoted (dc_Nonce c)); pair_text "uri" (quoted (dc_URI c));
     pair_text "response" (quoted (dc_Response c)); pair_text "algorithm" (dc_Algorithm c);
     pair_text "cnonce" (quoted (dc_CNonce c)); pair_text "qop" (dc_QOP c); pair_text "nc" (dc_NC c)].

(** Text that can stand between quotes here: no quote, and no comma, at which the
    parser would cut. *)
Definition quotable (value : string) : Prop := lacks "," value = true /\ lacks quote value = true.

Lemma read_pair_text creds c key value d :
  plain_char c = true -> plain_char d = true -> plain_word (String c key) -> lacks "=" (String c key) = true ->
  read_pair creds (pair_text (String c key) (value +:+ String d "")) =
  set_credential creds (String c key) (trim_char quote (trim_space (value +:+ String d ""))).
Proof.
  intros Hc Hd Hk Hl. unfold read_pair, pair_text.
  assert (E : trim_space (String c key +:+ String "=" (value +:+ String d "")) = String c key +:+ String "=" (value +:+ String d "")).
  { replace (String c key +:+ String "=" (value +:+ String d "")) with (String c ((key +:+ String "=" value) +:+ String d ""));
      [by apply trim_space_framed|]. by rewrite string_app_assoc. }
  rewrite E, index_char by done.
  rewrite take_string_app, trim_space_plain by done. do 2 f_equal.
  replace (S (String.length (String c key))) with (String.length (String c key +:+ "=")) by
    (rewrite string_length_app; cbn; lia).
  replace (String c key +:+ String "=" (value +:+ String d "")) with ((String c key +:+ "=") +:+ value +:+ String d "")
    by (by rewrite string_app_assoc).
  by rewrite drop_string_app.
Qed.

Lemma read_quoted creds c key value :
  plain_char c = true -> plain_word (String c key) -> lacks "=" (String c key) = true -> lacks quote value = true ->
  read_pair creds (pair_text (String c key) (quoted value)) = set_credential creds (String c key) value.
Proof.
  intros Hc Hk Hl Hv. unfold quoted. change (String quote (value +:+ String quote "")) with (String quote value +:+ String quote "").
  rewrite read_pair_text by done. f_equal.
  change (String quote value +:+ String quote "") with (String quote (value +:+ String quote "")).
  by rewrite trim_space_framed, trim_char_wrapped.
Qed.

Lemma read_plain creds c key value :
  plain_char c = true -> plain_word (String c key) -> lacks "=" (String c key) = true ->
  plain_word value -> lacks quote value = true ->
  read_pair creds (pair_text (String c key) value) = set_credential creds (String c key) value.
Proof.
  intros Hc Hk Hl [Hv Hp] Hq. destruct (string_snoc value Hv) as (t & d & E).
  assert (Hd : plain_char d = true).
  { rewrite E, list_ascii_app, forallb_app in Hp. apply andb_true_iff in Hp as [_ Hp]. cbn in Hp. by destruct (plain_char d). }
  rewrite E, read_pair_text by done. rewrite <- E, trim_space_plain, trim_char_lacks by done. done.
Qed.

Lemma read_space creds s : read_pair creds (" " +:+ s) = read_pair creds s.
Proof. change (" " +:+ s) with (String " " s). unfold read_pair. by rewrite trim_space_space. Qed.

(** Printing and parsing: the parser finds the credentials of such a header. *)
Lemma parse_answer c :
  Forall quotable [dc_Username c; dc_Realm c; dc_Nonce c; dc_URI c; dc_Response c; dc_CNonce c] ->
  plain_word (dc_NC c) -> quotable (dc_NC c) -> dc_Algorithm c = "MD5" -> dc_QOP c = "auth" -> dc_Opaque c = "" ->
  foldl read_pair no_credentials (split_on "," (trim_prefix (answer_header c) "Digest ")) = c.
Proof.
  destruct c as [username realm nonce uri response algorithm opaque qop nc cnonce]. cbn.
  rewrite !Forall_cons. intros ([Hu Hu'] & [Hr Hr'] & [Hn Hn'] & [Hi Hi'] & [Hp Hp'] & [Hc Hc'] & _) Hnc [Hnc1 Hnc2] -> -> ->.
  unfold answer_header. rewrite trim_prefix_app.
  assert (Hq : forall k v, lacks "," k = true -> lacks "," v = true -> lacks "," (pair_text k (quoted v)) = true).
  { intros k v Hk Hv. unfold pair_text, quoted. rewrite lacks_app, Hk. cbn. rewrite lacks_app, Hv. done. }
  rewrite split_on_join.
  - cbn [map foldl dc_Username dc_Realm dc_Nonce dc_URI dc_Response dc_Algorithm dc_CNonce dc_QOP dc_NC].
    rewrite !read_space. rewrite !read_quoted by done. rewrite !read_plain by done. done.
  - done.
  - cbn. repeat (apply Forall_cons; split; [by apply Hq|]). all: repeat (apply Forall_cons; split).
    all: try (by apply Hq). all: try done.
  - done.
Qed.
End answer.

(** *** The answer to a challenge is accepted *)

Section accepted.
Context `{Unicode}.

Lemma hex_digit_plain c d : hex_digit c = Some d -> plain_char c = true /\ c <> ","%char /\ c <> quote.
Proof. destruct c as [[] [] [] [] [] [] [] []]; vm_compute; try done. Qed.

Lemma hex_number_plain s : forall acc v, hex_number acc s = Some v ->
  forallb plain_char (list_ascii_of_string s) = true /\ quotable s.
Proof.
  induction s as [|c s IH]; intros acc v Hv; [done|]. cbn in Hv.
  destruct (hex_digit c) as [d|] eqn:E; [|done]. apply hex_digit_plain in E as (Hp & Hc & Hq).
  destruct (IH _ _ Hv) as (H1 & H2 & H3). cbn [list_ascii_of_string forallb]. rewrite Hp, H1.
  apply Ascii.eqb_neq in Hc, Hq. unfold quotable. cbn [lacks]. by rewrite Hc, Hq, H2, H3.
Qed.

Lemma nonce_count_plain nc n : parseNonceCount nc = Some n -> plain_word nc /\ quotable nc.
Proof.
  unfold parseNonceCount. destruct (Nat.eqb_spec (String.length nc) 8) as [Hl|]; [|done]. cbn.
  destruct (hex_number 0 nc) as [v|] eqn:E; [|done]. intros _. apply hex_number_plain in E as [H1 H2].
  split; [|done]. split; [by destruct nc|done].
Qed.

Lemma nonce_quotable bytes : quotable (hex_encode (sha256 bytes)) /\ hex_encode (sha256 bytes) <> "".
Proof.
  pose proof (sha256_range bytes) as Hr. split; [split; by apply lacks_hex|].
  pose proof (sha256_length bytes) as Hl. by destruct (sha256 bytes).
Qed.

(** Everything between the quotes of an answer. *)
Definition answerable (c : DigestCredentials) : Prop :=
  Forall (fun v => quotable v /\ v <> "") [dc_Username c; dc_Realm c; dc_URI c; dc_Response c; dc_CNonce c] /\
  dc_Algorithm c = "MD5" /\ dc_QOP c = "auth" /\ dc_Opaque c = "".

Lemma parse_answer_header c bytes n :
  answerable c -> dc_Nonce c = hex_encode (sha256 bytes) -> parseNonceCount (dc_NC c) = Some n ->
  parseDigestAuth (answer_header c) (dc_URI c) (dc_Realm c) = Some c.
Proof.
  intros (Hall & Ha & Hq & Ho) Hn Hnc. pose proof (nonce_quotable bytes) as [Hnq Hne]. rewrite <- Hn in Hnq, Hne.
  rewrite !Forall_cons in Hall. destruct Hall as ([Q1 E1] & [Q2 E2] & [Q3 E3] & [Q4 E4] & [Q5 E5] & _).
  destruct (nonce_count_plain _ _ Hnc) as [P1 P2]. unfold parseDigestAuth.
  assert (Hp : has_prefix (answer_header c) "Digest " = true) by (apply has_prefix_spec; by eexists). rewrite Hp. cbn [negb].
  rewrite parse_answer; [|by rewrite !Forall_cons|done..].
  apply String.eqb_neq in E1, E2, E3, E4, E5, Hne. rewrite E1, E2, Hne, E3, E4, !String.eqb_refl, Ha, Hq, E5, Hnc. done.
Qed.
End accepted.

(** ** Theorems *)

(** C9: Replay protection holds whatever calls run at once.  In every reachable
    state, of two accepted requests with one nonce the later one has the larger
    count, so no nonce and count are accepted twice; and every accepted request
    uses a nonce that was issued to the same client at most 300 seconds before. *)
Theorem no_replay `{Unicode} (realm : string) (st : AuthState) (Hst : system_reachable realm st) :
  StronglySorted outdoes (as_accepted st) /\
  NoDup (map (fun a => (ac_nonce a, ac_count a)) (as_accepted st)) /\
  Forall (fun a => exists time, issued_to (as_issued st) (ac_nonce a) (ac_client a) time /\
                           time_sub (ac_time a) time <= 300 * 1000000000) (as_accepted st).
Proof.
  destruct (replay_reachable realm st Hst) as [_ _ _ _ _ Hs Hv]. split; [done|]. split; [|done].
  clear Hv. induction Hs as [|a l _ IH Ha]; [constructor|]. cbn. constructor; [|done].
  intros (b & E & Hb)%list_elem_of_fmap. rewrite Forall_forall in Ha. specialize (Ha b Hb). injection E as E1 E2.
  unfold outdoes in Ha. rewrite E1, E2 in Ha. specialize (Ha eq_refl). lia.
Qed.


(** ** Access decisions *)

(** An address is written in many ways, and the lists of single addresses compare
    the text: an address that was blocked in one spelling is allowed in another
    if that is the default.  Networks do not have this gap. *)
Theorem blocked_by_spelling (ip other : string) (addr : IP) :
  parse_ip ip = Some addr -> parse_ip other = Some addr -> ip <> other ->
  (AddBlockedIP ip (NewIPAccessController true)).2 = true /\
  IsAllowed other (AddBlockedIP ip (NewIPAccessController true)).1 = true /\
  IsAllowed ip (AddBlockedIP ip (NewIPAccessController true)).1 = false.
Proof.
  intros Hip Hother Hne. unfold AddBlockedIP, valid_ip. rewrite Hip. split; [done|]. unfold IsAllowed. rewrite Hip, Hother.
  cbn [fst ia_blockedIPs ia_allowedIPs ia_blockedNetworks ia_allowedNetworks]. split.
  - rewrite bool_decide_eq_false_2; [done|]. set_solver.
  - rewrite bool_decide_eq_true_2; [done|]. set_solver.
Qed.

(** The decision on an address depends on the address, not on its spelling, when
    only networks are listed. *)
Theorem networks_see_the_address (c : IPAccessController) (ip other : string) :
  parse_ip ip = parse_ip other -> ia_blockedIPs c = ∅ -> ia_allowedIPs c = ∅ -> IsAllowed ip c = IsAllowed other c.
Proof.
  intros E Hb Ha. unfold IsAllowed. rewrite E, Hb, Ha. destruct (parse_ip other); [|done].
  rewrite !bool_decide_eq_false_2 by set_solver. done.
Qed.

Example uppercase_block_ineffective :
  IsAllowed "2001:db8::1" (AddBlockedIP "2001:DB8::1" (NewIPAccessController true)).1 = true.
Proof. vm_compute. reflexivity. Qed.

(** ** Examples *)

(** The example of RFC 2617, section 3.5. *)
Example rfc2617_response :
  calculateResponse "Circle Of Life" "GET" "/dir/index.html"
    {| dc_Username := "Mufasa"; dc_Realm := "testrealm@host.com"; dc_Nonce := "dcd98b7102dd2f0e8b11d0f600bfb0c093";
       dc_URI := "/dir/index.html"; dc_Response := ""; dc_Algorithm := "MD5"; dc_Opaque := ""; dc_QOP := "auth";
       dc_NC := "00000001"; dc_CNonce := "0a4f113b" |} = "6629fae49393a05397450978507c4ef1".
Proof. vm_compute. reflexivity. Qed.

Section sample.
#[local] Instance sample_unicode : Unicode := ascii_only.

(** Steps of the system as functions. *)
Definition begin_call (i : nat) (rq : AuthRequest) (st : AuthState) : AuthState :=
  st <| as_calls := <[i := (rq, auth_begin rq (sa_realm (as_shared st)))]> (as_calls st) |>.

Definition run_call (i : nat) (now : Z) (random : option (list Z)) (st : AuthState) : AuthState :=
  match as_calls st !! i with
  | Some (rq, pc) =>
    let '(s, pc') := auth_step now now random rq pc (as_shared st) in
    mkAuthState s (<[i := (rq, pc')]> (as_calls st)) (issues now random rq pc ++ as_issued st) (accepts now rq pc pc' ++ as_accepted st)
  | None => st
  end.

Definition call_ready (i : nat) (now : Z) (random : option (list Z)) (st : AuthState) : bool :=
  match as_calls st !! i with
  | Some (rq, pc) =>
    forallb (fun n => forallb (fun m => negb (String.eqb (is_nonce n) (is_nonce m))) (as_issued st)) (issues now random rq pc)
  | None => false
  end.

Lemma run_call_step i now random st : call_ready i now random st = true -> system_step st (run_call i now random st).
Proof.
  unfold call_ready, run_call. destruct (as_calls st !! i) as [[rq pc]|] eqn:Hi; [|done]. intros Hf.
  destruct (auth_step _ _ _ _ _ _) as [s pc'] eqn:E. eapply step_call; [done..|].
  rewrite forallb_forall in Hf. apply Forall_forall. intros n Hn (m & En & Hm)%list_elem_of_fmap.
  apply list_elem_of_In in Hn, Hm. specialize (Hf n Hn). rewrite forallb_forall in Hf. specialize (Hf m Hm).
  apply negb_true_iff, String.eqb_neq in Hf. done.
Qed.

Lemma begin_call_step i rq st :
  match as_calls st !! i with None => true | Some _ => false end = true -> system_step st (begin_call i rq st).
Proof. intros Hi. apply step_begin. by destruct (as_calls st !! i). Qed.

Definition sample_credentials (nc : string) : DigestCredentials :=
  let c := {| dc_Username := "alice"; dc_Realm := "example.com"; dc_Nonce := hex_encode (sha256 [1]); dc_URI := "sip:rec@example.com";
              dc_Response := ""; dc_Algorithm := "MD5"; dc_Opaque := ""; dc_QOP := "auth"; dc_NC := nc; dc_CNonce := "42" |} in
  c <| dc_Response := calculateResponse "secret" "INVITE" "sip:rec@example.com" c |>.

Definition sample_answer (nc : string) : AuthRequest :=
  mkAuthRequest (answer_header (sample_credentials nc)) "INVITE" "sip:rec@example.com" "192.0.2.7".

(** Alice asks without credentials, answers the challenge, and two copies of her
    answer are handled at the same time: both pass the inspection, one is
    committed. *)
Definition sample_start : AuthState :=
  begin_call 0 (mkAuthRequest "" "INVITE" "sip:rec@example.com" "192.0.2.7")
    ((fresh_state "example.com") <| as_shared := AddUser "alice" "secret" (NewSIPAuthenticator "example.com") |>).

Definition sample_race : AuthState :=
  begin_call 2 (sample_answer "00000001") (begin_call 1 (sample_answer "00000001") (run_call 0 0 (Some [1]) sample_start)).

Definition sample_end : AuthState :=
  run_call 2 9 None (run_call 1 8 None (run_call 2 7 None (run_call 1 6 None (run_call 2 5 None (run_call 1 4 None sample_race))))).

Lemma sample_race_outcome :
  snd <$> as_calls sample_end !! 1%nat = Some (AtEnd (mkAuthResult true "alice" "Authentication successful" "")) /\
  snd <$> as_calls sample_end !! 2%nat = Some (AtChallenge "alice" "Nonce replay detected") /\
  map ac_count (as_accepted sample_end) = [1].
Proof. vm_compute. done. Qed.

Lemma sample_reachable : system_reachable "example.com" sample_end.
Proof.
  unfold system_reachable, sample_end.
  do 6 (eapply rtc_r; [|apply run_call_step; vm_compute; reflexivity]). unfold sample_race.
  do 2 (eapply rtc_r; [|apply begin_call_step; vm_compute; reflexivity]).
  eapply rtc_r; [|apply run_call_step; vm_compute; reflexivity]. unfold sample_start.
  eapply rtc_r; [|apply begin_call_step; vm_compute; reflexivity].
  eapply rtc_r; [apply rtc_refl|]. apply step_admin, (admin_add "alice" "secret").
Qed.

Lemma no_replay_witness :
  NoDup (map (fun a => (ac_nonce a, ac_count a)) (as_accepted sample_end)).
Proof. exact (proj1 (proj2 (no_replay "example.com" sample_end sample_reachable))). Defined.

End sample.
