(* ===== verification/RateLimit.v ===== *)
(** * Rate limiting

    [src/pkg/ratelimit]: the token bucket limiter ([ratelimit.go]), the SIP
    limiter with its white list ([sip_limiter.go]) and the HTTP middleware
    ([http_middleware.go]).  Tokens are [float64] numbers; every reading of the
    clock is an argument. *)

From S2P Require Import Prelude GoStrings GoText GoFloat FloatFacts Net.
From Stdlib Require Import Ascii String.
#[local] Open Scope string_scope.
#[local] Open Scope list_scope.
#[local] Open Scope Z_scope.

(** ** The limiter *)

Record bucket := mkBucket {
  bk_tokens : spec_float;
  bk_lastUpdate : Z;
  bk_blocked : bool;
  bk_blockUntil : Z
}.

Record Limiter := mkLimiter {
  lm_rate : spec_float;
  lm_burst : Z;
  lm_clients : gmap string bucket;
  lm_cleanupTTL : Z
}.

Definition minute : Z := 60 * 1000000000.

Definition NewLimiter (rate : spec_float) (burst : Z) : Limiter := mkLimiter rate burst ∅ (10 * minute).

Definition set_bucket (key : string) (b : bucket) (l : Limiter) : Limiter :=
  l <| lm_clients := <[key := b]> (lm_clients l) |>.

Lemma set_bucket_clients key b l : lm_clients (set_bucket key b l) = <[key := b]> (lm_clients l).
Proof. by destruct l. Qed.

Definition full_bucket (now : Z) (l : Limiter) : bucket := mkBucket (f64_of_int (lm_burst l)) now false 0.

(** The tokens after the time since the last update is credited. *)
Definition refilled (now : Z) (b : bucket) (l : Limiter) : spec_float :=
  let tokens := f64_add (bk_tokens b) (f64_mul (duration_seconds (time_sub now (bk_lastUpdate b))) (lm_rate l)) in
  if f64_lt (f64_of_int (lm_burst l)) tokens then f64_of_int (lm_burst l) else tokens.

(** [Allow], and [AllowN] for [n] requests: the bucket of the key, made full when
    there is none, and the verdict on it. *)
Definition spend (now : Z) (n : spec_float) (b : bucket) (l : Limiter) : bucket * bool :=
  if bk_blocked b && (now <? bk_blockUntil b) then (b, false) else
  let tokens := refilled now b l in
  if f64_ge tokens n then (mkBucket (f64_sub tokens n) now false (bk_blockUntil b), true)
  else (mkBucket tokens now false (bk_blockUntil b), false).

Lemma full_set_bucket now key b l : full_bucket now (set_bucket key b l) = full_bucket now l.
Proof. by destruct l. Qed.

Lemma spend_set_bucket now n key b b' l : spend now n b' (set_bucket key b l) = spend now n b' l.
Proof. by destruct l. Qed.

Definition allow (now : Z) (key : string) (n : spec_float) (l : Limiter) : Limiter * bool :=
  let '(b, ok) := spend now n (default (full_bucket now l) (lm_clients l !! key)) l in
  (set_bucket key b l, ok).

Definition Allow (now : Z) (key : string) (l : Limiter) : Limiter * bool := allow now key (f64_of_int 1) l.

Definition AllowN (now : Z) (key : string) (n : Z) (l : Limiter) : Limiter * bool := allow now key (f64_of_int n) l.

Definition Block (now now' : Z) (key : string) (duration : Z) (l : Limiter) : Limiter :=
  let b := default (mkBucket f64_zero now false 0) (lm_clients l !! key) in
  set_bucket key (mkBucket f64_zero (bk_lastUpdate b) true (now' + duration)) l.

Definition IsBlocked (now : Z) (key : string) (l : Limiter) : bool :=
  match lm_clients l !! key with
  | Some b => bk_blocked b && (now <? bk_blockUntil b)
  | None => false
  end.

Definition GetTokens (now : Z) (key : string) (l : Limiter) : spec_float :=
  match lm_clients l !! key with
  | Some b => refilled now b l
  | None => f64_of_int (lm_burst l)
  end.

Definition GetClientCount (l : Limiter) : nat := size (lm_clients l).

Definition Reset (l : Limiter) : Limiter := l <| lm_clients := ∅ |>.

(** One tick of [cleanup]. *)
Definition stale (now : Z) (l : Limiter) (b : bucket) : bool :=
  (lm_cleanupTTL l <? time_sub now (bk_lastUpdate b)) && (negb (bk_blocked b) || (bk_blockUntil b <? now)).

Definition cleanup (now : Z) (l : Limiter) : Limiter :=
  l <| lm_clients := filter (fun kb => stale now l kb.2 = false) (lm_clients l) |>.

(** ** White lists *)

Record Whitelist := mkWhitelist { wl_IPs : gset string; wl_Nets : list IPNet }.

Definition whitelist_add (w : Whitelist) (ip : string) : Whitelist :=
  let ip := trim_space ip in
  if String.eqb ip "" then w
  else if contains ip "/" then
    match parse_cidr ip with
    | Some ipNet => w <| wl_Nets := wl_Nets w ++ [ipNet] |>
    | None => w
    end
  else w <| wl_IPs := {[ip]} ∪ wl_IPs w |>.

Definition isWhitelisted (ip : string) (w : Whitelist) : bool :=
  if bool_decide (ip ∈ wl_IPs w) then true else
  match parse_ip ip with
  | None => false
  | Some parsedIP => existsb (fun ipNet => net_contains ipNet parsedIP) (wl_Nets w)
  end.

(** ** The SIP limiter *)

Record RateConfig := mkRateConfig {
  rc_Enabled : bool;
  rc_RequestsPerSecond : spec_float;
  rc_BurstSize : Z;
  rc_BlockDuration : Z;
  rc_WhitelistedIPs : list string;
  rc_WhitelistedPaths : list string;
  rc_SIPEnabled : bool;
  rc_SIPInvitesPerSecond : spec_float;
  rc_SIPInviteBurst : Z;
  rc_SIPRequestsPerSecond : spec_float;
  rc_SIPRequestBurst : Z
}.

Definition DefaultConfig : RateConfig := {|
  rc_Enabled := false;
  rc_RequestsPerSecond := f64_of_int 100;
  rc_BurstSize := 200;
  rc_BlockDuration := minute;
  rc_WhitelistedIPs := ["127.0.0.1"; "::1"];
  rc_WhitelistedPaths := ["/health"; "/health/live"; "/health/ready"];
  rc_SIPEnabled := false;
  rc_SIPInvitesPerSecond := f64_of_int 10;
  rc_SIPInviteBurst := 50;
  rc_SIPRequestsPerSecond := f64_of_int 100;
  rc_SIPRequestBurst := 200
|}.

Inductive SIPMethod := MethodINVITE | MethodACK | MethodBYE | MethodCANCEL | MethodOPTIONS | MethodREGISTER | MethodOther.

Record SIPLimiter := mkSIPLimiter {
  sl_inviteLimiter : Limiter;
  sl_requestLimiter : Limiter;
  sl_config : RateConfig;
  sl_whitelist : Whitelist
}.

Definition NewSIPLimiter (config : option RateConfig) : SIPLimiter :=
  let config := default DefaultConfig config in
  mkSIPLimiter (NewLimiter (rc_SIPInvitesPerSecond config) (rc_SIPInviteBurst config))
               (NewLimiter (rc_SIPRequestsPerSecond config) (rc_SIPRequestBurst config))
               config (foldl whitelist_add (mkWhitelist ∅ []) (rc_WhitelistedIPs config)).

Section sip_limiter.
Context `{Unicode}.

Definition parseMethod (method : string) : SIPMethod :=
  let method := to_upper method in
  if String.eqb method "INVITE" then MethodINVITE
  else if String.eqb method "ACK" then MethodACK
  else if String.eqb method "BYE" then MethodBYE
  else if String.eqb method "CANCEL" then MethodCANCEL
  else if String.eqb method "OPTIONS" then MethodOPTIONS
  else if String.eqb method "REGISTER" then MethodREGISTER
  else MethodOther.

Definition AllowRequest (now : Z) (clientIP method : string) (s : SIPLimiter) : SIPLimiter * bool :=
  if negb (rc_SIPEnabled (sl_config s)) then (s, true)
  else if isWhitelisted clientIP (sl_whitelist s) then (s, true)
  else
    let request key :=
      let '(l, ok) := Allow now key (sl_requestLimiter s) in (s <| sl_requestLimiter := l |>, ok) in
    match parseMethod method with
    | MethodINVITE => let '(l, ok) := Allow now clientIP (sl_inviteLimiter s) in (s <| sl_inviteLimiter := l |>, ok)
    | MethodREGISTER => request (clientIP +:+ ":REGISTER")
    | MethodOPTIONS => request (clientIP +:+ ":OPTIONS")
    | _ => request clientIP
    end.

Definition AllowINVITE (now : Z) (clientIP : string) : SIPLimiter -> SIPLimiter * bool :=
  AllowRequest now clientIP "INVITE".
End sip_limiter.

Definition BlockClient (now : nat -> Z) (clientIP : string) (duration : Z) (s : SIPLimiter) : SIPLimiter :=
  s <| sl_inviteLimiter := Block (now 0%nat) (now 1%nat) clientIP duration (sl_inviteLimiter s) |>
    <| sl_requestLimiter := Block (now 2%nat) (now 3%nat) clientIP duration (sl_requestLimiter s) |>.

Definition sip_IsBlocked (now now' : Z) (clientIP : string) (s : SIPLimiter) : bool :=
  IsBlocked now clientIP (sl_inviteLimiter s) || IsBlocked now' clientIP (sl_requestLimiter s).

(** The second component tells whether the text was accepted. *)
Definition AddToWhitelist (ip : string) (s : SIPLimiter) : SIPLimiter * bool :=
  let ip := trim_space ip in
  let w := sl_whitelist s in
  if String.eqb ip "" then (s, true)
  else if contains ip "/" then
    match parse_cidr ip with
    | Some ipNet => (s <| sl_whitelist := w <| wl_Nets := wl_Nets w ++ [ipNet] |> |>, true)
    | None => (s, false)
    end
  else if valid_ip ip then (s <| sl_whitelist := w <| wl_IPs := {[ip]} ∪ wl_IPs w |> |>, true)
  else (s, false).

Definition sip_Reset (s : SIPLimiter) : SIPLimiter :=
  s <| sl_inviteLimiter := Reset (sl_inviteLimiter s) |> <| sl_requestLimiter := Reset (sl_requestLimiter s) |>.

(** ** The HTTP middleware *)

(** A request: the two headers of proxies, the address of the peer, the path. *)
Record HTTPRequest := mkHTTPRequest {
  hr_XForwardedFor : string;
  hr_XRealIP : string;
  hr_RemoteAddr : string;
  hr_Path : string
}.

Record HTTPMiddleware := mkHTTPMiddleware {
  hm_limiter : Limiter;
  hm_config : RateConfig;
  hm_whitelist : Whitelist;
  hm_paths : gset string
}.

Definition NewHTTPMiddleware (config : option RateConfig) : HTTPMiddleware :=
  let config := default DefaultConfig config in
  mkHTTPMiddleware (NewLimiter (rc_RequestsPerSecond config) (rc_BurstSize config)) config
    (foldl whitelist_add (mkWhitelist ∅ []) (rc_WhitelistedIPs config))
    (foldl (fun paths path => let path := trim_space path in if String.eqb path "" then paths else {[path]} ∪ paths)
       ∅ (rc_WhitelistedPaths config)).

Definition getClientIP (r : HTTPRequest) : string :=
  let forwarded := trim_space (default "" (head (split_on "," (hr_XForwardedFor r)))) in
  if negb (String.eqb (hr_XForwardedFor r) "") && valid_ip forwarded then forwarded
  else if negb (String.eqb (hr_XRealIP r) "") && valid_ip (hr_XRealIP r) then hr_XRealIP r
  else match split_host_port (hr_RemoteAddr r) with
       | None => hr_RemoteAddr r
       | Some (host, _) => host
       end.

Definition isPathWhitelisted (path : string) (m : HTTPMiddleware) : bool :=
  if bool_decide (path ∈ hm_paths m) then true else
  existsb (fun p => has_suffix p "*" && has_prefix path (trim_suffix p "*")) (elements (hm_paths m)).

(** What the middleware does with a request: pass it on, with the tokens left if
    they are reported, or answer 429. *)
Inductive HTTPOutcome := Passed (remaining : option spec_float) | TooManyRequests.

Definition Middleware (now : nat -> Z) (r : HTTPRequest) (m : HTTPMiddleware) : HTTPMiddleware * HTTPOutcome :=
  if negb (rc_Enabled (hm_config m)) then (m, Passed None) else
  let clientIP := getClientIP r in
  if isPathWhitelisted (hr_Path r) m then (m, Passed None)
  else if isWhitelisted clientIP (hm_whitelist m) then (m, Passed None)
  else
    match Allow (now 0%nat) clientIP (hm_limiter m) with
    | (l, false) => (m <| hm_limiter := Block (now 1%nat) (now 2%nat) clientIP (rc_BlockDuration (hm_config m)) l |>, TooManyRequests)
    | (l, true) => (m <| hm_limiter := l |>, Passed (Some (GetTokens (now 1%nat) clientIP l)))
    end.

(** ** Tokens and requests *)

(** One token, in units of the smallest number. *)
Definition token : Z := 2 ^ 1074.

(** Tokens between zero and the burst size. *)
Definition sound_tokens (burst : Z) (x : spec_float) : Prop :=
  f64_valid x = true /\ is_number x = true /\ 0 <= scaled x <= burst * token.

(** A limiter with a finite rate that is not negative, and a burst size that is
    exact as a [float64]. *)
Record sound_limiter (l : Limiter) : Prop := {
  so_rate : amount (lm_rate l) /\ is_number (lm_rate l) = true;
  so_burst : 0 <= lm_burst l < 2 ^ 53;
  so_clients : map_Forall (fun _ b => sound_tokens (lm_burst l) (bk_tokens b)) (lm_clients l)
}.

Lemma burst_tokens l : sound_limiter l -> sound_tokens (lm_burst l) (f64_of_int (lm_burst l)).
Proof.
  intros [_ Hb _]. split; [apply f64_of_int_valid|]. split; [apply f64_of_int_number; lia|].
  rewrite f64_of_int_scaled by lia. unfold token. split; [apply Z.mul_nonneg_nonneg; lia|lia].
Qed.

Lemma sound_amount burst x : sound_tokens burst x -> amount x.
Proof. intros (Hv & Hn & Hs). apply number_amount; [done|done|lia]. Qed.

Lemma elapsed_range now last : last <= now -> 0 <= time_sub now last < 2 ^ 63 /\ time_sub now last <= now - last.
Proof. unfold time_sub. lia. Qed.

(** What was credited is an amount, and the sum is capped by the burst size. *)
Lemma refilled_sound now b l :
  sound_limiter l -> sound_tokens (lm_burst l) (bk_tokens b) -> bk_lastUpdate b <= now ->
  sound_tokens (lm_burst l) (refilled now b l).
Proof.
  intros Hl Hb Ht. unfold refilled. pose proof (burst_tokens l Hl) as HB. destruct (f64_lt _ _) eqn:E; [done|].
  destruct (elapsed_range now (bk_lastUpdate b) Ht) as [Hd _]. destruct (seconds_amount _ Hd) as [Hs Hsn].
  destruct (so_rate _ Hl) as [Hr Hrn]. pose proof (amount_mul _ _ Hs Hr Hsn Hrn) as Hc.
  pose proof (amount_add _ _ (sound_amount _ _ Hb) Hc) as Ha. set (x := f64_add _ _) in *.
  assert (Hn : is_number x = true).
  { destruct HB as (_ & HBn & _). destruct (f64_of_int (lm_burst l)) as [[]|[]| |[] m e], x as [[]|[]| |[] m' e']; try done; by destruct Ha. }
  destruct HB as (HBv & HBn & HBs). destruct Ha as [Hv Hx]. split; [done|]. split; [done|].
  rewrite f64_lt_scaled in E by done. apply Z.ltb_ge in E. split; [by apply amount_scaled|lia].
Qed.

(** Without time passing nothing is credited. *)
Lemma refilled_still b l :
  sound_limiter l -> sound_tokens (lm_burst l) (bk_tokens b) -> scaled (refilled (bk_lastUpdate b) b l) = scaled (bk_tokens b).
Proof.
  intros Hl Hb. unfold refilled. replace (time_sub _ _) with 0 by (unfold time_sub; lia).
  change (duration_seconds 0) with (S754_zero false). destruct (so_rate _ Hl) as [_ Hrn].
  assert (exists s, f64_mul (S754_zero false) (lm_rate l) = S754_zero s) as [s ->].
  { destruct (lm_rate l); try done; by eexists. }
  assert (Hx : scaled (f64_add (bk_tokens b) (S754_zero s)) = scaled (bk_tokens b) /\
               f64_valid (f64_add (bk_tokens b) (S754_zero s)) = true /\ is_number (f64_add (bk_tokens b) (S754_zero s)) = true).
  { destruct Hb as (Hv & Hn & _). destruct (bk_tokens b) as [[]|?| |? ? ?]; try done; by destruct s. }
  destruct Hx as (Hs & Hv & Hn). destruct (burst_tokens l Hl) as (HBv & HBn & _).
  rewrite f64_lt_scaled by done. rewrite f64_of_int_scaled by (destruct (so_burst _ Hl); lia).
  destruct (Z.ltb_spec (lm_burst l * 2 ^ 1074) (scaled (f64_add (bk_tokens b) (S754_zero s)))); [|done].
  destruct Hb as (_ & _ & Hb). unfold token in Hb. lia.
Qed.

(** The credit of a duration is the rate times its seconds, up to rounding.  [S]
    is the rate, both sides are in units of the smallest number. *)
Lemma credit_upper d rate :
  0 <= d < 2 ^ 63 -> amount rate -> is_number rate = true -> is_number (f64_mul (duration_seconds d) rate) = true ->
  scaled (f64_mul (duration_seconds d) rate) * 1000000000 * 2 ^ 49 <= (2 ^ 49 + 1) * (d * scaled rate) + 1000000000 * 2 ^ 49.
Proof.
  intros Hd Ha Hn Hm. destruct (decide (d = 0)) as [->|Hne].
  { replace (scaled (f64_mul (duration_seconds 0) rate)) with 0; [lia|]. by destruct rate. }
  destruct (seconds_amount d Hd) as [Hs Hsn]. pose proof (seconds_upper d ltac:(lia)) as Hu.
  pose proof (mul_upper _ _ Hs Ha Hsn Hn Hm) as Hmu. pose proof (amount_scaled _ Ha) as HS.
  set (C := scaled (f64_mul _ _)) in *. set (s := scaled (duration_seconds d)) in *. set (S := scaled rate) in *.
  assert (HW : 0 < 2 ^ 1074) by done. set (W := 2 ^ 1074) in *. clearbody C s S W. clear -Hd Hu Hmu HS HW.
  apply (Z.mul_le_mono_pos_r _ _ W HW).
  apply (Z.mul_le_mono_nonneg_r _ _ S) in Hu; [|done]. set (sS := s * S) in *. set (dWS := d * W * S).
  assert (Hd' : 0 <= dWS) by (subst dWS; apply Z.mul_nonneg_nonneg; [apply Z.mul_nonneg_nonneg; lia|done]).
  replace (s * 1000000000 * 2 ^ 50 * S) with (sS * 1000000000 * 2 ^ 50) in Hu by (subst sS; ring).
  replace (d * W * (2 ^ 50 + 1) * S) with (dWS * (2 ^ 50 + 1)) in Hu by (subst dWS; ring).
  replace (((2 ^ 49 + 1) * (d * S) + 1000000000 * 2 ^ 49) * W) with ((2 ^ 49 + 1) * dWS + 1000000000 * 2 ^ 49 * W) by (subst dWS; ring).
  replace (C * 1000000000 * 2 ^ 49 * W) with (C * W * (1000000000 * 2 ^ 49)) by ring.
  set (CW := C * W) in *. clearbody CW sS dWS. lia.
Qed.

Lemma refilled_upper now b l :
  sound_limiter l -> sound_tokens (lm_burst l) (bk_tokens b) -> bk_lastUpdate b <= now ->
  2 ^ 49 * 1000000000 * scaled (refilled now b l) <=
  2 ^ 49 * 1000000000 * scaled (bk_tokens b) + (2 ^ 49 + 1) * (time_sub now (bk_lastUpdate b) * scaled (lm_rate l)) +
  1000000000 * ((lm_burst l + 1) * token).
Proof.
  intros Hl Hb Ht. destruct (refilled_sound now b l Hl Hb Ht) as (_ & _ & HV' & HVB).
  destruct (elapsed_range now (bk_lastUpdate b) Ht) as [Hd _]. destruct (so_rate _ Hl) as [Hr Hrn].
  destruct (burst_tokens l Hl) as (HBv & HBn & _). pose proof (so_burst _ Hl) as HB. pose proof (amount_scaled _ Hr) as HS.
  set (d := time_sub now (bk_lastUpdate b)) in *. destruct (seconds_amount d Hd) as [Hs Hsn].
  pose proof (sound_amount _ _ Hb) as Hba. destruct Hb as (Hbv & Hbn & Hbs).
  assert (Htok : 2 ^ 60 <= token) by (unfold token; apply Z.pow_le_mono_r; lia).
  destruct (is_number (f64_mul (duration_seconds d) (lm_rate l))) eqn:Em.
  - pose proof (credit_upper d _ Hd Hr Hrn Em) as Hc. pose proof (amount_mul _ _ Hs Hr Hsn Hrn) as Ham.
    destruct (add_upper _ _ Hba Ham Hbn Em) as [Hu Hnum]. pose proof (amount_scaled _ Ham) as HC.
    unfold refilled in *. fold d in HVB, HV' |- *.
    set (C := scaled (f64_mul _ _)) in *. set (V := scaled (bk_tokens b)) in *. set (x := f64_add _ _) in *.
    assert (HBtop : lm_burst l * token < 2 ^ 2000).
    { apply Z.lt_trans with (2 ^ 53 * token); [apply Z.mul_lt_mono_pos_r; lia|by unfold token]. }
    destruct (Z.le_gt_cases (lm_burst l * token) (V + C)) as [Hge|Hlt].
    + set (V' := scaled (if f64_lt _ _ then _ else _)) in *. clearbody V' V C. lia.
    + assert (Hxn : is_number x = true) by (apply Hnum; lia). specialize (Hu Hxn).
      assert (HVx : scaled (if f64_lt (f64_of_int (lm_burst l)) x then f64_of_int (lm_burst l) else x) <= scaled x).
      { destruct (f64_lt _ _) eqn:E; [|lia]. rewrite f64_lt_scaled in E; [lia|done| |done|done].
        by apply f64_add_valid; [|apply f64_mul_valid; [apply Hs|apply Hr]]. }
      set (V' := scaled (if f64_lt _ _ then _ else _)) in *. clearbody V' V C. lia.
  - pose proof (mul_overflow _ _ Hs Hr Hsn Hrn Em) as Ho. pose proof (seconds_upper d) as Hu.
    destruct (decide (d = 0)) as [E|Hne].
    { rewrite E in Em. by destruct (lm_rate l). }
    specialize (Hu ltac:(lia)). set (s := scaled (duration_seconds d)) in *. set (S := scaled (lm_rate l)) in *.
    set (V' := scaled (refilled now b l)) in *.
    assert (HBtop : lm_burst l * token <= 2 ^ 1127).
    { apply Z.le_trans with (2 ^ 53 * token); [apply Z.mul_le_mono_nonneg_r; lia|by unfold token]. }
    apply (Z.mul_le_mono_nonneg_r _ _ S) in Hu; [|done].
    assert (Hbig : 1000000000 * 2 ^ 1127 * 2 ^ 49 <= (2 ^ 49 + 1) * (d * S)); [|lia].
    apply (Z.mul_le_mono_pos_r _ _ (2 ^ 1074)); [done|].
    replace ((2 ^ 49 + 1) * (d * S) * 2 ^ 1074) with ((2 ^ 49 + 1) * (d * 2 ^ 1074 * S)) by ring.
    replace (d * 2 ^ 1074 * (2 ^ 50 + 1) * S) with (d * 2 ^ 1074 * S * (2 ^ 50 + 1)) in Hu by ring.
    replace (s * 1000000000 * 2 ^ 50 * S) with (s * S * (1000000000 * 2 ^ 50)) in Hu by ring.
    set (sS := s * S) in *. set (dWS := d * 2 ^ 1074 * S) in *. clearbody sS dWS. clear -Ho Hu. lia.
Qed.

(** ** Runs of requests *)

(** Requests in order, each at its time, with their verdicts. *)
Fixpoint serve (rs : list (Z * string)) (l : Limiter) : Limiter * list bool :=
  match rs with
  | [] => (l, [])
  | (now, key) :: rs =>
    let '(l, ok) := Allow now key l in
    let '(l, oks) := serve rs l in
    (l, ok :: oks)
  end.

(** The same on the bucket of one client. *)
Fixpoint serve_bucket (times : list Z) (b : bucket) (l : Limiter) : bucket * list bool :=
  match times with
  | [] => (b, [])
  | now :: times =>
    let '(b, ok) := spend now (f64_of_int 1) b l in
    let '(b, oks) := serve_bucket times b l in
    (b, ok :: oks)
  end.

Definition passed (oks : list bool) : Z := Z.of_nat (List.length (filter (fun ok => ok = true) oks)).

Lemma passed_cons ok oks : passed (ok :: oks) = Z.b2z ok + passed oks.
Proof. unfold passed. rewrite filter_cons. destruct ok; case_decide; try done. cbn [List.length Z.b2z]. lia. Qed.

Definition times_of (key : string) (rs : list (Z * string)) : list Z :=
  omap (fun r => if decide (r.2 = key) then Some r.1 else None) rs.

Definition verdicts_of (key : string) (rs : list (Z * string)) (oks : list bool) : list bool :=
  omap (fun r => if decide (r.1.2 = key) then Some r.2 else None) (zip rs oks).

Lemma times_of_cons key now key' rs :
  times_of key ((now, key') :: rs) = if decide (key' = key) then now :: times_of key rs else times_of key rs.
Proof. unfold times_of. cbn. by destruct (decide _). Qed.

Lemma verdicts_of_cons key now key' rs ok oks :
  verdicts_of key ((now, key') :: rs) (ok :: oks) = if decide (key' = key) then ok :: verdicts_of key rs oks else verdicts_of key rs oks.
Proof. unfold verdicts_of. cbn. by destruct (decide _). Qed.

(** A step of the bucket keeps it sound. *)
Lemma spend_sound now b l b' ok :
  sound_limiter l -> sound_tokens (lm_burst l) (bk_tokens b) -> bk_lastUpdate b <= now ->
  spend now (f64_of_int 1) b l = (b', ok) ->
  sound_tokens (lm_burst l) (bk_tokens b') /\ bk_lastUpdate b <= bk_lastUpdate b' <= now /\
  if ok then bk_lastUpdate b' = now /\ scaled (bk_tokens b') = scaled (refilled now b l) - token
  else b' = b \/ (bk_lastUpdate b' = now /\ bk_tokens b' = refilled now b l).
Proof.
  intros Hl Hb Ht. unfold spend. destruct (bk_blocked b && _); [intros [= <- <-]; split; [done|]; split; [lia|by left]|].
  destruct (refilled_sound now b l Hl Hb Ht) as (Hv & Hn & Hs). pose proof (so_burst _ Hl) as HB.
  rewrite f64_ge_scaled by (done || apply f64_of_int_valid). rewrite f64_of_int_scaled by lia.
  set (one := f64_of_int 1) in *.
  destruct (Z.leb_spec (1 * 2 ^ 1074) (scaled (refilled now b l))) as [Hge|Hlt]; intros [= <- <-]; cbn [bk_tokens bk_lastUpdate].
  - destruct (f64_pred (refilled now b l) Hv Hn) as [Hpn Hps].
    { split; [lia|]. apply Z.le_lt_trans with (lm_burst l * token); [lia|]. apply Z.mul_lt_mono_pos_r; [done|lia]. }
    fold token one in Hpn, Hps |- *. fold token in Hge. split; [|split; [lia|done]]. split; [by apply f64_sub_valid|].
    split; [done|]. rewrite Hps. unfold token in *. lia.
  - split; [done|]. split; [lia|by right].
Qed.

(** The account of a bucket since the time [t0]: what passed and what is left is
    paid for by the burst size, the time and the rounding of [n] steps. *)
Definition account (l : Limiter) (t0 : Z) (n passed : Z) (b : bucket) : Prop :=
  sound_tokens (lm_burst l) (bk_tokens b) /\ (bk_lastUpdate b < t0 -> passed = 0) /\ 0 <= n /\
  2 ^ 49 * 1000000000 * (token * passed + scaled (bk_tokens b)) <=
  2 ^ 49 * 1000000000 * (token * lm_burst l) +
  (2 ^ 49 + 1) * (Z.max 0 (bk_lastUpdate b - t0) * scaled (lm_rate l)) + n * (1000000000 * ((lm_burst l + 1) * token)).

Lemma account_start l t0 b : sound_tokens (lm_burst l) (bk_tokens b) -> amount (lm_rate l) -> account l t0 0 0 b.
Proof.
  intros Hb Hr. pose proof (amount_scaled _ Hr). split; [done|]. split; [done|]. split; [done|]. destruct Hb as (_ & _ & Hb).
  assert (0 <= Z.max 0 (bk_lastUpdate b - t0) * scaled (lm_rate l)) by (apply Z.mul_nonneg_nonneg; lia). lia.
Qed.

Lemma account_step l t0 n p now b b' ok :
  sound_limiter l -> account l t0 n p b -> bk_lastUpdate b <= now -> t0 <= now ->
  spend now (f64_of_int 1) b l = (b', ok) -> account l t0 (n + 1) (p + Z.b2z ok) b'.
Proof.
  intros Hl (Hb & Hz & Hn & Hacc) Ht Ht0 Hs. destruct (spend_sound now b l b' ok Hl Hb Ht Hs) as (Hb' & Hlast & Hok).
  pose proof (so_burst _ Hl) as HB. assert (Htok : 0 < token) by done.
  assert (Hbt : 0 <= (lm_burst l + 1) * token) by (apply Z.mul_nonneg_nonneg; lia).
  split; [done|]. destruct (refilled_sound now b l Hl Hb Ht) as (_ & _ & _ & Hcap).
  assert (Hpay : ok = true \/ bk_tokens b' = refilled now b l -> bk_lastUpdate b' = now ->
    2 ^ 49 * 1000000000 * (token * p + scaled (refilled now b l)) <=
    2 ^ 49 * 1000000000 * (token * lm_burst l) + (2 ^ 49 + 1) * (Z.max 0 (now - t0) * scaled (lm_rate l)) +
    (n + 1) * (1000000000 * ((lm_burst l + 1) * token))).
  { intros _ _. destruct (so_rate _ Hl) as [Hr _]. pose proof (amount_scaled _ Hr) as HS.
    destruct (Z.lt_ge_cases (bk_lastUpdate b) t0) as [Hold|Hnew].
    - rewrite (Hz Hold). assert (0 <= Z.max 0 (now - t0) * scaled (lm_rate l)) by (apply Z.mul_nonneg_nonneg; lia).
      assert (0 <= (n + 1) * (1000000000 * ((lm_burst l + 1) * token))) by (apply Z.mul_nonneg_nonneg; lia). lia.
    - pose proof (refilled_upper now b l Hl Hb Ht) as Hu. destruct (elapsed_range _ _ Ht) as [_ Hel].
      assert (time_sub now (bk_lastUpdate b) * scaled (lm_rate l) <= (now - bk_lastUpdate b) * scaled (lm_rate l))
        by (apply Z.mul_le_mono_nonneg_r; lia).
      replace (Z.max 0 (now - t0)) with (Z.max 0 (bk_lastUpdate b - t0) + (now - bk_lastUpdate b)) by lia. lia. }
  destruct ok; cbn [Z.b2z].
  - destruct Hok as [Hnow Hsc]. split; [lia|]. split; [lia|]. rewrite Hnow, Hsc. specialize (Hpay (or_introl eq_refl) Hnow). lia.
  - destruct Hok as [->|[Hnow Heq]].
    + split; [intros; rewrite Hz by done; lia|]. split; [lia|]. lia.
    + split; [lia|]. split; [lia|]. rewrite Hnow, Heq. specialize (Hpay (or_intror Heq) Hnow). lia.
Qed.

Lemma account_run l t0 times b n p b' oks :
  sound_limiter l -> account l t0 n p b -> StronglySorted Z.le times ->
  Forall (fun now => bk_lastUpdate b <= now /\ t0 <= now) times -> serve_bucket times b l = (b', oks) ->
  account l t0 (n + Z.of_nat (List.length times)) (p + passed oks) b' /\
  (forall t, Forall (fun now => now <= t) times -> bk_lastUpdate b <= t -> bk_lastUpdate b' <= t).
Proof.
  intros Hl. revert b n p oks. induction times as [|now times IH]; intros b n p oks Hacc Hsort Hall Hserve; cbn [serve_bucket] in Hserve.
  { injection Hserve as <- <-. cbn. unfold passed. cbn. rewrite !Z.add_0_r. done. }
  apply Forall_cons in Hall as [[Hb Ht0] Hall]. inversion Hsort as [|? ? Hsort' Hle]; subst.
  destruct (spend now (f64_of_int 1) b l) as [b1 ok] eqn:Es. destruct (serve_bucket times b1 l) as [b2 oks'] eqn:Er.
  injection Hserve as <- <-. pose proof (account_step _ _ _ _ _ _ _ _ Hl Hacc Hb Ht0 Es) as Hacc'.
  destruct (spend_sound now b l b1 ok Hl (proj1 Hacc) Hb Es) as (_ & Hlast & _).
  assert (Hall' : Forall (fun now => bk_lastUpdate b1 <= now /\ t0 <= now) times).
  { rewrite Forall_forall in Hall, Hle. apply Forall_forall. intros t Ht. specialize (Hle t Ht). specialize (Hall t Ht). lia. }
  destruct (IH b1 _ _ _ Hacc' Hsort' Hall' Er) as [H1 H2]. split.
  - replace (n + Z.of_nat (List.length (now :: times))) with (n + 1 + Z.of_nat (List.length times)) by (cbn; lia).
    replace (p + passed (ok :: oks')) with (p + Z.b2z ok + passed oks'); [done|].
    rewrite passed_cons. lia.
  - intros t [Hn Hf]%Forall_cons Hbt. apply H2; [done|lia].
Qed.

(** The verdicts on a client's requests depend on its bucket alone. *)
Lemma serve_isolated key rs : forall l l' oks,
  serve rs l = (l', oks) ->
  exists b', serve_bucket (times_of key rs) (default (full_bucket (default 0 (head (times_of key rs))) l) (lm_clients l !! key)) l
        = (b', verdicts_of key rs oks).
Proof.
  assert (Hcongr : forall times b l l', lm_rate l = lm_rate l' -> lm_burst l = lm_burst l' -> serve_bucket times b l = serve_bucket times b l').
  { clear. induction times as [|now times IH]; intros b l l' Hr Hb; [done|]. cbn [serve_bucket].
    replace (spend now (f64_of_int 1) b l') with (spend now (f64_of_int 1) b l) by (unfold spend, refilled; by rewrite Hr, Hb).
    destruct (spend _ _ _ _) as [b1 ok]. by rewrite (IH b1 l l'). }
  induction rs as [|[now key'] rs IH]; intros l l' oks Hs; [injection Hs as <- <-; by eexists|].
  cbn [serve] in Hs. destruct (Allow now key' l) as [l1 ok] eqn:Ea. destruct (serve rs l1) as [l2 oks'] eqn:Er. injection Hs as <- <-.
  destruct (IH l1 l2 oks' Er) as [b' IHb]. unfold Allow, allow in Ea.
  destruct (spend now _ _ l) as [b1 ok1] eqn:Es. injection Ea as <- <-.
  assert (Hrate : lm_rate (set_bucket key' b1 l) = lm_rate l /\ lm_burst (set_bucket key' b1 l) = lm_burst l) by (by destruct l).
  assert (Hcl : lm_clients (set_bucket key' b1 l) = <[key' := b1]> (lm_clients l)) by (by destruct l). rewrite Hcl in IHb.
  rewrite (Hcongr _ _ _ l (proj1 Hrate) (proj2 Hrate)) in IHb. rewrite times_of_cons, verdicts_of_cons.
  destruct (decide (key' = key)) as [->|Hne].
  - rewrite lookup_insert_eq in IHb. change (default 0 (head (now :: times_of key rs))) with now.
    cbn [serve_bucket]. rewrite Es. change (default _ (Some b1)) with b1 in IHb. rewrite IHb. by eexists.
  - rewrite lookup_insert_ne in IHb by done. exists b'. unfold full_bucket in *. by rewrite (proj2 Hrate) in IHb.
Qed.


(** The verdicts on a client's requests are those it would get alone: two runs in
    which it makes the same requests treat it the same. *)
Theorem clients_isolated (l l1 l2 : Limiter) (rs1 rs2 : list (Z * string)) (oks1 oks2 : list bool) (key : string) :
  serve rs1 l = (l1, oks1) -> serve rs2 l = (l2, oks2) -> times_of key rs1 = times_of key rs2 ->
  verdicts_of key rs1 oks1 = verdicts_of key rs2 oks2.
Proof.
  intros H1 H2 E. destruct (serve_isolated key _ _ _ _ H1) as [b1 E1], (serve_isolated key _ _ _ _ H2) as [b2 E2].
  rewrite E in E1. rewrite E1 in E2. by injection E2.
Qed.

(** ** Blocking *)

(** [BlockClient] leaves the buckets of REGISTER and OPTIONS alone: the verdict on
    such a request is the same with and without it. *)
Theorem block_spares_register `{Unicode} (now : nat -> Z) (clientIP method : string) (duration t : Z) (s : SIPLimiter) :
  parseMethod method = MethodREGISTER \/ parseMethod method = MethodOPTIONS ->
  (AllowRequest t clientIP method (BlockClient now clientIP duration s)).2 = (AllowRequest t clientIP method s).2.
Proof.
  intros Hm. destruct s as [i r c w]. unfold AllowRequest, BlockClient. cbn [sl_inviteLimiter sl_requestLimiter sl_config sl_whitelist].
  destruct (negb _); [done|]. destruct (isWhitelisted _ _); [done|].
  assert (Hne : forall suffix, String.length suffix <> 0%nat -> clientIP <> clientIP +:+ suffix).
  { intros suffix Hl E. apply (f_equal String.length) in E. rewrite string_length_app in E. lia. }
  assert (Hkey : forall suffix, String.length suffix <> 0%nat ->
    (Allow t (clientIP +:+ suffix) (Block (now 2%nat) (now 3%nat) clientIP duration r)).2 = (Allow t (clientIP +:+ suffix) r).2).
  { intros suffix Hl. unfold Allow, allow, Block. rewrite set_bucket_clients, spend_set_bucket, full_set_bucket.
    rewrite lookup_insert_ne by (by apply Hne). by destruct (spend _ _ _ _). }
  destruct Hm as [-> | ->].
  - specialize (Hkey ":REGISTER" ltac:(done)). destruct (Allow t _ _), (Allow t _ r). done.
  - specialize (Hkey ":OPTIONS" ltac:(done)). destruct (Allow t _ _), (Allow t _ r). done.
Qed.

(** A blocked client is turned away, and its block begins anew. *)
Lemma middleware_blocked now r m b :
  rc_Enabled (hm_config m) = true -> isPathWhitelisted (hr_Path r) m = false ->
  isWhitelisted (getClientIP r) (hm_whitelist m) = false ->
  lm_clients (hm_limiter m) !! getClientIP r = Some b -> bk_blocked b = true -> now 0%nat < bk_blockUntil b ->
  exists l b', Middleware now r m = (m <| hm_limiter := l |>, TooManyRequests) /\
    lm_clients l !! getClientIP r = Some b' /\ bk_blocked b' = true /\
    bk_blockUntil b' = now 2%nat + rc_BlockDuration (hm_config m).
Proof.
  intros He Hp Hw Hb Hbl Ht. unfold Middleware. rewrite He, Hp, Hw. cbn [negb]. unfold Allow, allow. rewrite Hb.
  change (default _ (Some b)) with b. unfold spend. rewrite Hbl. apply Z.ltb_lt in Ht. rewrite Ht. cbn [andb].
  eexists _, _. split; [reflexivity|]. unfold Block. by rewrite set_bucket_clients, lookup_insert_eq.
Qed.

(** A client that is blocked and asks again before its block ends, as often as it
    does so and for however long, is never served: each request that is turned
    away starts the block from its beginning. *)
Theorem impatient_client_locked_out (r : HTTPRequest) (m : HTTPMiddleware) (clocks : list (nat -> Z)) (b : bucket) :
  rc_Enabled (hm_config m) = true -> isPathWhitelisted (hr_Path r) m = false ->
  isWhitelisted (getClientIP r) (hm_whitelist m) = false ->
  lm_clients (hm_limiter m) !! getClientIP r = Some b -> bk_blocked b = true ->
  Forall (fun until_now => until_now.2 < until_now.1)
    (zip (bk_blockUntil b :: map (fun now => now 2%nat + rc_BlockDuration (hm_config m)) clocks) (map (fun now => now 0%nat) clocks)) ->
  (foldl (fun '(m, outs) now => let '(m, out) := Middleware now r m in (m, outs ++ [out])) (m, []) clocks).2 =
  replicate (List.length clocks) TooManyRequests.
Proof.
  intros He Hp Hw Hb Hbl Hall.
  assert (Hgo : forall clocks m b outs, rc_Enabled (hm_config m) = true -> isPathWhitelisted (hr_Path r) m = false ->
    isWhitelisted (getClientIP r) (hm_whitelist m) = false ->
    lm_clients (hm_limiter m) !! getClientIP r = Some b -> bk_blocked b = true ->
    Forall (fun until_now => until_now.2 < until_now.1)
      (zip (bk_blockUntil b :: map (fun now => now 2%nat + rc_BlockDuration (hm_config m)) clocks) (map (fun now => now 0%nat) clocks)) ->
    (foldl (fun '(m, outs) now => let '(m, out) := Middleware now r m in (m, outs ++ [out])) (m, outs) clocks).2 =
    outs ++ replicate (List.length clocks) TooManyRequests).
  { clear. induction clocks as [|now clocks IH]; intros m b outs He Hp Hw Hb Hbl Hall; [by rewrite app_nil_r|].
    cbn [map zip zip_with foldl List.length replicate] in *. apply Forall_cons in Hall as [Ht Hall].
    destruct (middleware_blocked now r m b He Hp Hw Hb Hbl Ht) as (l & b' & E & Hb' & Hbl' & Hu). rewrite E.
    rewrite (IH _ b'); [by rewrite <- app_assoc| | | | |done|]; destruct m; cbn in *; try done.
    by rewrite Hu. }
  by apply (Hgo clocks m b []).
Qed.

(** Whoever claims in the header [X-Forwarded-For] to be on the white list is not
    limited, wherever the request comes from. *)
Theorem forged_address_passes (now : nat -> Z) (r : HTTPRequest) (m : HTTPMiddleware) (ip : string) :
  hr_XForwardedFor r = ip -> plain_word ip -> lacks "," ip = true -> valid_ip ip = true ->
  isWhitelisted ip (hm_whitelist m) = true ->
  Middleware now r m = (m, Passed None).
Proof.
  intros Hx Hp Hc Hv Hw. assert (E : getClientIP r = ip).
  { unfold getClientIP. rewrite Hx, split_on_lacks by done. cbn [head]. change (default "" (Some ip)) with ip.
    rewrite trim_space_plain, Hv by done. destruct (String.eqb_spec ip "") as [E|]; [by destruct Hp|done]. }
  unfold Middleware. rewrite E, Hw. destruct (negb _); [done|]. by destruct (isPathWhitelisted _ _).
Qed.

(** ** Examples *)

Definition sample_limiter : Limiter := NewLimiter (f64_of_int 10) 3.

Definition sample_requests : list (Z * string) :=
  [(0, "a"); (0, "a"); (0, "b"); (0, "a"); (0, "a"); (100000000, "a"); (150000000, "a"); (200000000, "a")].

Definition sample_verdicts : list bool := [true; true; true; true; false; true; false; true].

(** A burst of three, and a token every 100 milliseconds. *)
Example sample_run : (serve sample_requests sample_limiter).2 = sample_verdicts.
Proof. vm_compute. reflexivity. Qed.

Lemma sample_limiter_sound : sound_limiter sample_limiter.
Proof. split; [|done|done]. split; [by apply amount_of_int|by apply f64_of_int_number]. Qed.


(** The middleware of the default configuration, switched on. *)
Definition sample_middleware : HTTPMiddleware := NewHTTPMiddleware (Some (DefaultConfig <| rc_Enabled := true |> <| rc_BurstSize := 1 |>)).

Definition sample_request : HTTPRequest := mkHTTPRequest "" "" "203.0.113.9:4711" "/api/calls".

(** One request passes, the next is turned away; from then on one request every 50
    seconds is turned away although the block lasts a minute. *)
Example sample_lockout :
  (foldl (fun '(m, outs) now => let '(m, out) := Middleware (fun _ => now) sample_request m in (m, outs ++ [out]))
     (sample_middleware, []) [0; 0; 50000000000; 100000000000; 150000000000; 200000000000]).2 =
  [Passed (Some f64_zero); TooManyRequests; TooManyRequests; TooManyRequests; TooManyRequests; TooManyRequests].
Proof. vm_compute. reflexivity. Qed.

Example sample_forged :
  Middleware (fun _ => 0) (sample_request <| hr_XForwardedFor := "127.0.0.1" |>) sample_middleware = (sample_middleware, Passed None).
Proof. apply (forged_address_passes _ _ _ "127.0.0.1"); [done|by split|done|done|]. by vm_compute. Qed.
