(* ===== verification/Admission.v ===== *)
(** * Admission of INVITE requests

    The front of [handleInviteMessage] ([src/pkg/sip/custom_server.go]) with the
    functions of [src/pkg/sip/handler.go] it calls: rate limits, access control by
    address and digest authentication decide before the dialog code sees an
    INVITE.  [NewHandler]'s configuration of these parts is modelled too.  The
    verdict of the cluster-wide limiter, which asks Redis, is an argument. *)

From S2P Require Import Prelude GoStrings GoText GoFloat Digests Net Metadata Session Validation Policy Fill SipMessage Vendor SipSession.
From S2P Require Import RtpStats LruCache PortManager Ports PauseIO Forwarder Sdp Dialog DialogInv DialogSteps DialogSpec FloatFacts SipAuth RateLimit.
From Stdlib Require Import Ascii String.
#[local] Open Scope string_scope.
#[local] Open Scope list_scope.
#[local] Open Scope Z_scope.

Record SIPAuthConfig := mkSIPAuthConfig {
  ac_DigestEnabled : bool;
  ac_Realm : string;
  ac_NonceTimeout : Z;
  ac_Users : gmap string string;
  ac_IPAccessEnabled : bool;
  ac_DefaultAllow : bool;
  ac_AllowedIPs : list string;
  ac_AllowedNetworks : list string;
  ac_BlockedIPs : list string;
  ac_BlockedNetworks : list string
}.

(** The handler's parts that decide on a request. *)
Record Gate := mkGate {
  ga_sipAuthenticator : option SIPAuthenticator;
  ga_ipAccessController : option IPAccessController;
  ga_sipRateLimiter : option SIPLimiter
}.

(** What the checks see: the clock, the random bytes of a nonce, and what the
    cluster's limiter says, if there is one. *)
Record GateEnv := mkGateEnv {
  ge_limiter_now : Z;
  ge_auth_now : nat -> Z;
  ge_random : option (list Z);
  ge_cluster : option bool
}.

(** ** Configuration *)

(** Entries that do not parse are left out. *)
Definition add_all (add : string -> IPAccessController -> IPAccessController * bool) (entries : list string)
    (c : IPAccessController) : IPAccessController :=
  foldl (fun c entry => if String.eqb entry "" then c else (add entry c).1) c entries.

Definition configure_access (cfg : SIPAuthConfig) : IPAccessController :=
  add_all AddBlockedNetwork (ac_BlockedNetworks cfg)
    (add_all AddBlockedIP (ac_BlockedIPs cfg)
      (add_all AddAllowedNetwork (ac_AllowedNetworks cfg)
        (add_all AddAllowedIP (ac_AllowedIPs cfg) (NewIPAccessController (ac_DefaultAllow cfg))))).

Definition configure_auth `{!GoMapRange string} (range : nat) (cfg : SIPAuthConfig) : SIPAuthenticator :=
  foldl (fun a up => AddUser up.1 up.2 a) (NewSIPAuthenticator (ac_Realm cfg)) (map_range range (ac_Users cfg)).

Definition configure_gate `{!GoMapRange string} (range : nat) (cfg : option SIPAuthConfig) (limiter : option SIPLimiter) : Gate :=
  match cfg with
  | None => mkGate None None limiter
  | Some cfg => mkGate (if ac_DigestEnabled cfg then Some (configure_auth range cfg) else None)
                       (if ac_IPAccessEnabled cfg then Some (configure_access cfg) else None) limiter
  end.

Section admission.
Context `{Unicode}.

(** ** The checks *)

Definition IsAuthenticationEnabled (g : Gate) : bool :=
  bool_decide (is_Some (ga_sipAuthenticator g)) || bool_decide (is_Some (ga_ipAccessController g)).

Definition IsSIPRateLimitEnabled (g : Gate) : bool := bool_decide (is_Some (ga_sipRateLimiter g)).

Definition CheckSIPRateLimit (ge : GateEnv) (clientIP method : string) (g : Gate) : Gate * bool :=
  match ge_cluster ge with
  | Some false => (g, false)
  | _ =>
    match ga_sipRateLimiter g with
    | None => (g, true)
    | Some limiter =>
      let '(limiter, allowed) := AllowRequest (ge_limiter_now ge) clientIP method limiter in
      (g <| ga_sipRateLimiter := Some limiter |>, allowed)
    end
  end.

(** Whether the request is authenticated, and the challenge if not. *)
Definition AuthenticateRequest (ge : GateEnv) (authHeader method uri clientIP : string) (g : Gate) : Gate * (bool * string) :=
  if match ga_ipAccessController g with Some c => negb (IsAllowed clientIP c) | None => false end
  then (g, (false, ""))
  else
    match ga_sipAuthenticator g with
    | None => (g, (true, ""))
    | Some s =>
      let '(s, result) := Authenticate (ge_auth_now ge) (ge_random ge) authHeader method uri clientIP s in
      let g := g <| ga_sipAuthenticator := Some s |> in
      if ar_Success result then (g, (true, "")) else (g, (false, ar_Challenge result))
    end.

(** The address of the peer, without the port. *)
Definition client_ip (m : SIPMessage) : string :=
  match ms_Connection m with
  | None => ""
  | Some c =>
    match split_host_port (cn_remoteAddr c) with
    | Some (host, _) => host
    | None => cn_remoteAddr c
    end
  end.

Definition request_uri (m : SIPMessage) : string :=
  if String.eqb (ms_RequestURI m) "" then
    match ms_Request m with
    | Some req => match sg_Kind req with SipgoRequest _ recipient _ => recipient | SipgoResponse _ _ _ => "" end
    | None => ""
    end
  else ms_RequestURI m.

(** The checks of [handleInviteMessage] in their order. *)
Definition verdict_on (ge : GateEnv) (m : SIPMessage) (g : Gate) : Gate * admission :=
  let clientIP := client_ip m in
  let '(g, limited) := if IsSIPRateLimitEnabled g
                       then let '(g, ok) := CheckSIPRateLimit ge clientIP "INVITE" g in (g, negb ok)
                       else (g, false) in
  if limited : bool then (g, RateLimited)
  else if IsAuthenticationEnabled g then
    let '(g, (authenticated, challenge)) :=
      AuthenticateRequest ge (getHeaderValue m "Authorization") "INVITE" (request_uri m) clientIP g in
    if authenticated : bool then (g, Allowed)
    else (g, if String.eqb challenge "" then Blocked else Challenged)
  else (g, Allowed).
End admission.

(** ** What admission means *)

Section admitted.
Context `{Unicode}.

(** The request carries the digest of the password of an enabled user for a nonce
    of this client that is alive, with a count that was not used before. *)
Definition authentic (ge : GateEnv) (m : SIPMessage) (s : SIPAuthenticator) : Prop :=
  exists creds info next,
    acceptable (ge_auth_now ge) (getHeaderValue m "Authorization") "INVITE" (request_uri m) (client_ip m) s creds info next.

(** The three rules a request has to pass. *)
Definition within_limits (ge : GateEnv) (m : SIPMessage) (g : Gate) : Prop :=
  forall l, ga_sipRateLimiter g = Some l ->
    ge_cluster ge <> Some false /\ (AllowRequest (ge_limiter_now ge) (client_ip m) "INVITE" l).2 = true.

Definition address_allowed (m : SIPMessage) (g : Gate) : Prop :=
  forall c, ga_ipAccessController g = Some c -> IsAllowed (client_ip m) c = true.

Definition digest_valid (ge : GateEnv) (m : SIPMessage) (g : Gate) : Prop :=
  forall s, ga_sipAuthenticator g = Some s -> authentic ge m s.

(** The rate check, and that it leaves the rest of the gate alone. *)
Definition rate_check (ge : GateEnv) (m : SIPMessage) (g : Gate) : Gate * bool :=
  if IsSIPRateLimitEnabled g then let '(g, ok) := CheckSIPRateLimit ge (client_ip m) "INVITE" g in (g, negb ok) else (g, false).

Lemma rate_check_spec ge m g g1 limited : rate_check ge m g = (g1, limited) ->
  (limited = false <-> within_limits ge m g) /\
  ga_sipAuthenticator g1 = ga_sipAuthenticator g /\ ga_ipAccessController g1 = ga_ipAccessController g.
Proof.
  unfold rate_check, within_limits, IsSIPRateLimitEnabled, CheckSIPRateLimit. destruct g as [auth access [l|]]; cbn [ga_sipRateLimiter].
  - rewrite bool_decide_eq_true_2 by done. destruct (ge_cluster ge) as [[]|].
    1, 3: destruct (AllowRequest _ _ _ l) as [l' ok] eqn:E; intros [= <- <-]; (split; [|done]); destruct ok; cbn [negb]; split;
          [intros _ l0 [= <-]; rewrite E; by split|done|done|]; intros Hl; destruct (Hl l eq_refl) as [_ Hf]; by rewrite E in Hf.
    intros [= <- <-]. split; [|done]. split; [done|]. intros Hl. by destruct (Hl l eq_refl).
  - rewrite bool_decide_eq_false_2 by (by intros [? ?]). intros [= <- <-]. done.
Qed.

Lemma authenticate_request_spec ge m g g1 ok ch :
  AuthenticateRequest ge (getHeaderValue m "Authorization") "INVITE" (request_uri m) (client_ip m) g = (g1, (ok, ch)) ->
  (ok = true <-> address_allowed m g /\ digest_valid ge m g) /\
  (ok = false -> ch <> "" <-> address_allowed m g /\ ge_random ge <> None).
Proof.
  unfold AuthenticateRequest, address_allowed, digest_valid. destruct g as [auth access limiter].
  cbn [ga_ipAccessController ga_sipAuthenticator].
  destruct (match access with Some c => negb (IsAllowed (client_ip m) c) | None => false end) eqn:Eb.
  { destruct access as [c|]; [|done]. apply negb_true_iff in Eb. intros [= <- <- <-].
    split; split; try done; intros [Hc ?]; specialize (Hc c eq_refl); congruence. }
  assert (Hal : forall c, access = Some c -> IsAllowed (client_ip m) c = true).
  { intros c ->. by apply negb_false_iff in Eb. }
  destruct auth as [s|]; [|intros [= <- <- <-]; split; [|done]; by split].
  destruct (Authenticate _ _ _ _ _ _ s) as [s' r] eqn:Ea. destruct (ar_Success r) eqn:Es; intros [= <- <- <-].
  - split; [|done]. split; [|done]. intros _. split; [done|]. intros ? [= <-].
    destruct (success_spec _ _ _ _ _ _ _ _ _ Ea Es) as (creds & info & next & Hacc & _). by exists creds, info, next.
  - split.
    + split; [done|]. intros [_ Hd]. destruct (Hd s eq_refl) as (creds & info & next & Hacc).
      rewrite (success_complete _ _ _ _ _ _ _ _ _ _ Hacc) in Ea. injection Ea as <- <-. done.
    + intros _. rewrite (failure_challenge _ _ _ _ _ _ _ _ _ Ea Es). tauto.
Qed.

Lemma verdict_spec ge m g g' v : verdict_on ge m g = (g', v) ->
  (v = RateLimited <-> ~ within_limits ge m g) /\
  (v = Allowed <-> within_limits ge m g /\ address_allowed m g /\ digest_valid ge m g) /\
  (v = Challenged <-> within_limits ge m g /\ address_allowed m g /\ ~ digest_valid ge m g /\ ge_random ge <> None).
Proof.
  unfold verdict_on. fold (rate_check ge m g). destruct (rate_check ge m g) as [g1 limited] eqn:Er.
  destruct (rate_check_spec _ _ _ _ _ Er) as (Hlim & Eau & Eac).
  destruct limited; [intros [= <- <-]; naive_solver|]. assert (Hw : within_limits ge m g) by by apply Hlim.
  assert (Ha : address_allowed m g1 <-> address_allowed m g) by (unfold address_allowed; by rewrite Eac).
  assert (Hd : digest_valid ge m g1 <-> digest_valid ge m g) by (unfold digest_valid; by rewrite Eau).
  destruct (IsAuthenticationEnabled g1) eqn:Een.
  - destruct (AuthenticateRequest _ _ _ _ _ g1) as [g2 [ok ch]] eqn:Eq.
    destruct (authenticate_request_spec _ _ _ _ _ _ Eq) as [Hok Hch]. rewrite Ha, Hd in Hok. rewrite Ha in Hch.
    destruct ok; intros [= <- <-]; [naive_solver|]. specialize (Hch eq_refl).
    destruct (String.eqb_spec ch "") as [->|Hne]; naive_solver.
  - intros [= <- <-]. unfold IsAuthenticationEnabled in Een. apply orb_false_iff in Een as [E1 E2].
    apply bool_decide_eq_false in E1, E2.
    assert (address_allowed m g1) by (intros c E; exfalso; apply E2; by rewrite E).
    assert (digest_valid ge m g1) by (intros c E; exfalso; apply E1; by rewrite E). naive_solver.
Qed.
End admitted.

Section guarded.
Context `{Unicode} `{Rfc3339} `{SipLibrary} `{Calendar} `{UnicodeLetters} `{!GoMapRange string} `{Libraries}.
Context `{PortAllocator St Oracle}.
Context (cfg : ServerConfig).

(** An INVITE: the checks, then the handler. *)
Definition guarded_invite (ge : GateEnv) (e : Env Oracle) (m : SIPMessage) (g : Gate) (sv : Server St)
    : Gate * option (Server St) :=
  let '(g, v) := verdict_on ge (extractVendorInformation m) g in (g, handleInviteMessage cfg e v m sv).

(** Any request, with the checks where the server has them. *)
Definition guarded_request (ge : GateEnv) (e : Env Oracle) (method : string) (req : SipgoMessage) (g : Gate) (sv : Server St)
    : Gate * option (Server St) :=
  let '(g, v) := if String.eqb (to_upper method) "INVITE" then verdict_on ge (extractVendorInformation (wrapRequest req)) g else (g, Allowed) in
  (g, handleTransactionRequest cfg e method v req sv).

Lemma guarded_invite_request ge e req g sv :
  guarded_request ge e "INVITE" req g sv = guarded_invite ge e (wrapRequest req) g sv.
Proof. unfold guarded_request, guarded_invite. cbn. by destruct (verdict_on _ _ _). Qed.
End guarded.

(** ** Configured access lists *)

(** One operation on one field of a controller. *)
Ltac access_field :=
  let entry := fresh "entry" in
  intros entry []; unfold AddAllowedIP, AddBlockedIP, AddAllowedNetwork, AddBlockedNetwork;
  first [done | by destruct (valid_ip entry) | by destruct (parse_cidr entry)].

Lemma add_all_other {A} (field : IPAccessController -> A) add entries c :
  (forall entry c, field (add entry c).1 = field c) -> field (add_all add entries c) = field c.
Proof.
  intros Hadd. revert c. induction entries as [|entry entries IH]; intros c; [done|].
  unfold add_all in *. cbn [foldl]. rewrite IH. by destruct (String.eqb entry "").
Qed.

Lemma add_all_ips (field : IPAccessController -> gset string) add entries c ip :
  (forall entry c, field (add entry c).1 = if valid_ip entry then {[entry]} ∪ field c else field c) ->
  ip ∈ field (add_all add entries c) <-> (ip ∈ entries /\ valid_ip ip = true) \/ ip ∈ field c.
Proof.
  intros Hadd. revert c. induction entries as [|entry entries IH]; intros c; [set_solver|].
  unfold add_all in *. cbn [foldl]. rewrite IH, elem_of_cons. destruct (String.eqb_spec entry "") as [->|Hne].
  - split; [tauto|]. intros [[[->|?] ?]|?]; [done|tauto..].
  - rewrite Hadd. destruct (valid_ip entry) eqn:E.
    + rewrite elem_of_union, elem_of_singleton. split; [|tauto]. intros [?|[->|?]]; tauto.
    + split; [tauto|]. intros [[[->|?] ?]|?]; [congruence|tauto..].
Qed.

Lemma add_all_networks (field : IPAccessController -> list IPNet) add entries c :
  (forall entry c, field (add entry c).1 = match parse_cidr entry with Some n => field c ++ [n] | None => field c end) ->
  field (add_all add entries c) = field c ++ omap parse_cidr entries.
Proof.
  intros Hadd. revert c. induction entries as [|entry entries IH]; intros c; [by rewrite app_nil_r|].
  unfold add_all in *. cbn [foldl]. rewrite IH. cbn [omap list_omap].
  destruct (String.eqb_spec entry "") as [->|Hne]; [done|]. rewrite Hadd. destruct (parse_cidr entry); [|done]. by rewrite <- app_assoc.
Qed.

Lemma configured_fields cfg :
  ia_defaultAllow (configure_access cfg) = ac_DefaultAllow cfg /\
  ia_allowedNetworks (configure_access cfg) = omap parse_cidr (ac_AllowedNetworks cfg) /\
  ia_blockedNetworks (configure_access cfg) = omap parse_cidr (ac_BlockedNetworks cfg) /\
  (forall ip, ip ∈ ia_allowedIPs (configure_access cfg) <-> ip ∈ ac_AllowedIPs cfg /\ valid_ip ip = true) /\
  (forall ip, ip ∈ ia_blockedIPs (configure_access cfg) <-> ip ∈ ac_BlockedIPs cfg /\ valid_ip ip = true).
Proof.
  unfold configure_access. split_and!.
  - by rewrite !add_all_other by access_field.
  - rewrite (add_all_other ia_allowedNetworks AddBlockedNetwork), (add_all_other ia_allowedNetworks AddBlockedIP) by access_field.
    rewrite (add_all_networks ia_allowedNetworks), (add_all_other ia_allowedNetworks AddAllowedIP) by access_field. done.
  - rewrite (add_all_networks ia_blockedNetworks), !(add_all_other ia_blockedNetworks) by access_field. done.
  - intros ip. rewrite (add_all_other ia_allowedIPs AddBlockedNetwork), (add_all_other ia_allowedIPs AddBlockedIP),
      (add_all_other ia_allowedIPs AddAllowedNetwork) by access_field.
    rewrite (add_all_ips ia_allowedIPs) by access_field. set_solver.
  - intros ip. rewrite (add_all_other ia_blockedIPs AddBlockedNetwork) by access_field. rewrite (add_all_ips ia_blockedIPs) by access_field.
    rewrite (add_all_other ia_blockedIPs AddAllowedNetwork), (add_all_other ia_blockedIPs AddAllowedIP) by access_field. set_solver.
Qed.

(** The address is in one of the prefixes; an entry that is no prefix has no
    effect. *)
Definition in_networks (entries : list string) (addr : IP) : Prop :=
  exists cidr network, cidr ∈ entries /\ parse_cidr cidr = Some network /\ net_contains network addr = true.

Lemma in_networks_spec entries addr :
  existsb (fun network => net_contains network addr) (omap parse_cidr entries) = true <-> in_networks entries addr.
Proof.
  unfold in_networks. rewrite existsb_exists. setoid_rewrite <- list_elem_of_In. setoid_rewrite list_elem_of_omap. naive_solver.
Qed.

(** The decision on an address after the configuration: it must be an address,
    must not be blocked as it is written or by a network, and must be allowed by
    an entry or by default.  A block wins over a permission. *)
Theorem configured_access_decision (cfg : SIPAuthConfig) (ip : string) :
  IsAllowed ip (configure_access cfg) = true <->
  exists addr, parse_ip ip = Some addr /\
    (ip ∉ ac_BlockedIPs cfg) /\ ~ in_networks (ac_BlockedNetworks cfg) addr /\
    (ip ∈ ac_AllowedIPs cfg \/ in_networks (ac_AllowedNetworks cfg) addr \/ ac_DefaultAllow cfg = true).
Proof.
  destruct (configured_fields cfg) as (Ed & Ean & Ebn & Hal & Hbl). unfold IsAllowed. rewrite Ed, Ean, Ebn.
  destruct (parse_ip ip) as [addr|] eqn:Ep; [|by split; [|intros (? & ? & _)]].
  assert (Hv : valid_ip ip = true) by (unfold valid_ip; by rewrite Ep).
  assert (Hgo : (exists addr0, Some addr = Some addr0 /\ (ip ∉ ac_BlockedIPs cfg) /\ ~ in_networks (ac_BlockedNetworks cfg) addr0 /\
      (ip ∈ ac_AllowedIPs cfg \/ in_networks (ac_AllowedNetworks cfg) addr0 \/ ac_DefaultAllow cfg = true)) <->
    (ip ∉ ac_BlockedIPs cfg) /\ ~ in_networks (ac_BlockedNetworks cfg) addr /\
      (ip ∈ ac_AllowedIPs cfg \/ in_networks (ac_AllowedNetworks cfg) addr \/ ac_DefaultAllow cfg = true)) by naive_solver.
  rewrite Hgo. clear Hgo. rewrite <- !in_networks_spec.
  destruct (existsb _ (omap parse_cidr (ac_BlockedNetworks cfg))), (existsb _ (omap parse_cidr (ac_AllowedNetworks cfg)));
    repeat case_bool_decide; destruct (ac_DefaultAllow cfg); naive_solver.
Qed.

(** The configured lifetime of nonces is not used: it is 300 seconds. *)
Theorem configured_timeout_ignored `{!GoMapRange string} (range : nat) (cfg : SIPAuthConfig) (seconds : Z) :
  configure_auth range (cfg <| ac_NonceTimeout := seconds |>) = configure_auth range cfg /\
  sa_nonceTimeout (configure_auth range cfg) = 300 * 1000000000.
Proof.
  split; [by destruct cfg|]. unfold configure_auth. set (l := map_range _ _). clearbody l.
  assert (Hgo : forall a, sa_nonceTimeout (foldl (fun a up => AddUser up.1 up.2 a) a l) = sa_nonceTimeout a).
  { induction l as [|up l IH]; intros a; [done|]. cbn. rewrite IH. by destruct a. }
  by rewrite Hgo.
Qed.

(** ** Theorems *)

Section theorems.
Context `{Unicode} `{Rfc3339} `{SipLibrary} `{Calendar} `{UnicodeLetters} `{!GoMapRange string} `{Libraries}.
Context `{PortAllocator St Oracle}.

(** C10: What the checks let through.  An INVITE within the rate limits, from an
    allowed address and with a valid digest, as far as each of these is
    configured, is handled; any other leaves the server as it was and gets one
    response: 503 exactly beyond the limits, 401 with a new nonce exactly when
    only the digest is missing or wrong and there are random bytes, and 403
    otherwise. *)
Theorem invite_admission (cfg : ServerConfig) (ge : GateEnv) (e : Env Oracle) (m : SIPMessage) (g g' : Gate)
    (sv : Server St) (out : option (Server St)) (Hg : guarded_invite cfg ge e m g sv = (g', out)) :
  let m' := extractVendorInformation m in
  (within_limits ge m' g /\ address_allowed m' g /\ digest_valid ge m' g -> out = handleInviteMessage cfg e Allowed m sv) /\
  (~ (within_limits ge m' g /\ address_allowed m' g /\ digest_valid ge m' g) ->
   exists code, out = Some (sendResponse m' code "" sv) /\
     (code = 503 <-> ~ within_limits ge m' g) /\
     (code = 401 <-> within_limits ge m' g /\ address_allowed m' g /\ ~ digest_valid ge m' g /\ ge_random ge <> None) /\
     (code = 503 \/ code = 401 \/ code = 403)).
Proof.
  intros m'. unfold guarded_invite in Hg. fold m' in Hg. destruct (verdict_on ge m' g) as [g1 v] eqn:Ea. injection Hg as <- <-.
  destruct (verdict_spec _ _ _ _ _ Ea) as (Hr & Ho & Hc). split.
  - intros Hp. apply Ho in Hp. by rewrite Hp.
  - intros Hp. destruct v; [by destruct Hp; apply Ho|exists 503|exists 401|exists 403]; unfold handleInviteMessage; fold m'.
    all: split; [done|]; rewrite <- Hr, <- Hc; repeat split; try done; tauto.
Qed.

(** Without a local limiter the cluster-wide limit is not asked. *)
Theorem cluster_limit_skipped (ge : GateEnv) (m : SIPMessage) (g : Gate) (verdict : option bool) :
  ga_sipRateLimiter g = None -> verdict_on (ge <| ge_cluster := verdict |>) m g = verdict_on ge m g.
Proof. destruct g as [auth access limiter], ge. cbn. intros ->. done. Qed.

(** Requests other than INVITE are handled without any of the checks. *)
Theorem other_methods_unchecked (cfg : ServerConfig) (ge : GateEnv) (e : Env Oracle) (method : string) (req : SipgoMessage)
    (g : Gate) (sv : Server St) (v : admission) :
  to_upper method <> "INVITE" -> guarded_request cfg ge e method req g sv = (g, handleTransactionRequest cfg e method v req sv).
Proof.
  intros Hm. unfold guarded_request, handleTransactionRequest. apply String.eqb_neq in Hm. by rewrite Hm.
Qed.
End theorems.

(** ** An example *)

#[local] Existing Instances ascii_only no_rfc3339 one_address utc sample_libraries.
#[local] Instance gate_letters : UnicodeLetters := {| letters_from := fun _ _ => false |}.
#[local] Instance gate_strings : GoMapRange string := list_range string.
#[local] Instance gate_ports : GoMapRange Z := list_range Z.

(** Digest authentication for one user, all addresses but one network. *)
Definition sample_gate : Gate :=
  configure_gate 0 (Some (mkSIPAuthConfig true "example.com" 60 {["alice" := "secret"]} true true [] [] [] ["198.51.100.0/24"]))
    (Some (NewSIPLimiter (Some (DefaultConfig <| rc_SIPEnabled := true |>)))).

Definition sample_gate_env : GateEnv := mkGateEnv 0 (fun _ => 0) (Some [1]) None.

Definition sample_invite : SIPMessage := wrapRequest (DialogSpec.sample_request "INVITE" "1 INVITE").

Lemma sample_limits : within_limits sample_gate_env (extractVendorInformation sample_invite) sample_gate.
Proof.
  destruct (rate_check sample_gate_env (extractVendorInformation sample_invite) sample_gate) as [g limited] eqn:E.
  assert (El : (rate_check sample_gate_env (extractVendorInformation sample_invite) sample_gate).2 = false) by (vm_compute; reflexivity).
  rewrite E in El. by apply (rate_check_spec _ _ _ _ _ E).
Qed.

Lemma sample_unauthenticated : ~ digest_valid sample_gate_env (extractVendorInformation sample_invite) sample_gate.
Proof.
  destruct (ga_sipAuthenticator sample_gate) as [s|] eqn:E; [|done]. intros Hd.
  destruct (Hd s E) as (creds & info & next & Hp & _).
  assert (Eh : getHeaderValue (extractVendorInformation sample_invite) "Authorization" = "") by (vm_compute; reflexivity).
  exact (parse_digest_nonempty _ _ _ _ Hp Eh).
Qed.

(** Without credentials, the INVITE is challenged. *)
Lemma invite_admission_witness :
  (guarded_invite sample_config sample_gate_env (sample_env 0) sample_invite sample_gate idle_server).2 =
  Some (sendResponse (extractVendorInformation sample_invite) 401 "" idle_server).
Proof.
  destruct (invite_admission sample_config sample_gate_env (sample_env 0) sample_invite sample_gate _ idle_server _
    (surjective_pairing (guarded_invite sample_config sample_gate_env (sample_env 0) sample_invite sample_gate idle_server)))
    as [_ Hr].
  destruct Hr as (code & -> & _ & H401 & _); [intros (_ & _ & Hd); exact (sample_unauthenticated Hd)|].
  replace code with 401; [reflexivity|]. symmetry. apply H401. split; [exact sample_limits|]. split; [|split; [exact sample_unauthenticated|done]].
  intros c Hc.
  assert (E : ga_ipAccessController sample_gate =
    Some (configure_access (mkSIPAuthConfig true "example.com" 60 {["alice" := "secret"]} true true [] [] [] ["198.51.100.0/24"]))) by reflexivity.
  rewrite E in Hc. apply (inj Some) in Hc as <-. vm_compute. reflexivity.
Defined.
