(* ===== verification/AuditChain.v ===== *)
(** * The tamper-evident audit log

    [compliance/audit_chain.go]: every record of the log carries the SHA-256
    digest of its own text, and the text includes the digest of the record before.
    The encoding of a record is the program's use of [encoding/json], a parameter:
    what is assumed of it is that the member [prev_hash] can be read back from an
    encoded text.  The log file is the list of its lines; a write that fails may
    leave the beginning of a line. *)

From S2P Require Import Prelude GoStrings Digests.
From Stdlib Require Import Ascii String.
#[local] Open Scope string_scope.
#[local] Open Scope list_scope.
#[local] Open Scope Z_scope.

(** The texts [json.Marshal] returns, or [None] for an error: of the record without
    its hash and of the whole record; and the reading of a member. *)
Class AuditJson (Payload : Type) := {
  aj_unhashed : Z -> Payload -> string -> option (list Z);
  aj_line : Z -> Payload -> string -> string -> option (list Z);
  aj_prev_hash : list Z -> option string;
  aj_prev_read : forall t p h raw, aj_unhashed t p h = Some raw -> aj_prev_hash raw = Some h
}.

Section chain.
Context {Payload : Type} `{AuditJson Payload} (empty_payload : Payload).

Record AuditRecord := mkAuditRecord {
  ar_Timestamp : Z;
  ar_Payload : Payload;
  ar_PrevHash : string;
  ar_Hash : string
}.

Record AuditChainWriter := mkAuditChainWriter { aw_path : string; aw_lastHash : string }.

Definition NewAuditChainWriter (path : string) : AuditChainWriter := mkAuditChainWriter path "".

(** The digest of a record; [None] for an encoding error. *)
Definition computeHash (t : Z) (p : Payload) (prev : string) : option string :=
  raw ← aj_unhashed t p prev; Some (hex_encode (sha256 raw)).

Inductive line := Line (r : AuditRecord) | Torn.

(** What becomes of the system calls of an append. *)
Inductive append_io := Opens_and_writes | Open_fails | Write_fails (torn : bool).

Inductive append_result := Appended | EncodingFailed | OpenFailed | WriteFailed.

Definition Append (now : Z) (payload : option Payload) (io : append_io) (w : AuditChainWriter) (log : list line)
    : append_result * AuditChainWriter * list line :=
  let payload := default empty_payload payload in
  match computeHash now payload (aw_lastHash w) with
  | None => (EncodingFailed, w, log)
  | Some hash =>
    match io with
    | Open_fails => (OpenFailed, w, log)
    | _ =>
      match aj_line now payload (aw_lastHash w) hash with
      | None => (EncodingFailed, w, log)
      | Some _ =>
        match io with
        | Write_fails torn => (WriteFailed, w, if torn then log ++ [Torn] else log)
        | _ => (Appended, w <| aw_lastHash := hash |>,
                log ++ [Line (mkAuditRecord now payload (aw_lastHash w) hash)])
        end
      end
    end
  end.

(** ** Verification

    What a reader of the log can check: every record has the digest of its text,
    and the previous record's digest in it. *)

Fixpoint verifies (prev : string) (log : list AuditRecord) : Prop :=
  match log with
  | [] => True
  | r :: log =>
    ar_PrevHash r = prev /\ computeHash (ar_Timestamp r) (ar_Payload r) prev = Some (ar_Hash r) /\ verifies (ar_Hash r) log
  end.

Definition last_hash (prev : string) (log : list AuditRecord) : string :=
  match last log with Some r => ar_Hash r | None => prev end.

Definition records (log : list line) : list AuditRecord := omap (fun l => match l with Line r => Some r | Torn => None end) log.

Lemma last_hash_cons prev r log : last_hash prev (r :: log) = last_hash (ar_Hash r) log.
Proof. unfold last_hash. rewrite last_cons. by destruct (last log). Qed.

Lemma last_hash_snoc prev log r : last_hash prev (log ++ [r]) = ar_Hash r.
Proof. unfold last_hash. by rewrite last_snoc. Qed.

Lemma verifies_app prev l k : verifies prev (l ++ k) <-> verifies prev l /\ verifies (last_hash prev l) k.
Proof.
  revert prev. induction l as [|r l IH]; intros prev; [cbn; tauto|].
  rewrite last_hash_cons. cbn [verifies app]. rewrite IH. tauto.
Qed.

(** Any number of appends, whatever fails. *)
Definition run_appends (ops : list (Z * option Payload * append_io)) (w : AuditChainWriter) (log : list line)
    : AuditChainWriter * list line :=
  foldl (fun '(w, log) '(now, payload, io) => let '(_, w, log) := Append now payload io w log in (w, log)) (w, log) ops.

(** The writer continues the chain of the log's records. *)
Record continues (start : string) (w : AuditChainWriter) (log : list line) : Prop := {
  co_verifies : verifies start (records log);
  co_last : aw_lastHash w = last_hash start (records log)
}.

Lemma records_app l k : records (l ++ k) = records l ++ records k.
Proof. apply omap_app. Qed.

Lemma append_continues start now payload io w log : continues start w log ->
  let '(_, w', log') := Append now payload io w log in continues start w' log'.
Proof.
  intros [Hv Hl]. unfold Append. destruct (computeHash _ _ _) as [hash|] eqn:Eh; [|by split].
  destruct io as [| |torn]; [|by split|]; (destruct (aj_line _ _ _ _); [|by split]).
  - split; rewrite records_app; cbn [records omap list_omap].
    + apply verifies_app. split; [done|]. rewrite <- Hl. by split.
    + by rewrite last_hash_snoc; destruct w.
  - destruct torn; [|by split]. split; by rewrite records_app, app_nil_r.
Qed.

Lemma run_continues start ops w log : continues start w log ->
  let '(w', log') := run_appends ops w log in continues start w' log'.
Proof.
  unfold run_appends. revert w log. induction ops as [|[[now payload] io] ops IH]; intros w log Hc; cbn [foldl]; [done|].
  pose proof (append_continues start now payload io w log Hc) as Ha. destruct (Append now payload io w log) as [[r w'] log'].
  by apply IH.
Qed.

(** ** Digests as strings *)

Lemma hex_lower_inj a b : 0 <= a < 16 -> 0 <= b < 16 -> hex_lower a = hex_lower b -> a = b.
Proof.
  intros Ha Hb E. apply (f_equal N_of_ascii) in E. unfold hex_lower in E.
  rewrite !N_ascii_embedding in E by (destruct (Z.ltb_spec a 10), (Z.ltb_spec b 10); lia).
  destruct (Z.ltb_spec a 10), (Z.ltb_spec b 10); lia.
Qed.

Lemma nibbles b : 0 <= b < 256 -> 0 <= Z.shiftr b 4 < 16 /\ 0 <= Z.land b 15 < 16 /\ b = 16 * Z.shiftr b 4 + Z.land b 15.
Proof.
  intros Hb. change 15 with (Z.ones 4). rewrite Z.land_ones, Z.shiftr_div_pow2 by lia. change (2 ^ 4) with 16.
  pose proof (Z.div_mod b 16 ltac:(lia)). pose proof (Z.mod_pos_bound b 16 ltac:(lia)). lia.
Qed.

Lemma hex_encode_inj l k : Forall (fun b => 0 <= b < 256) l -> Forall (fun b => 0 <= b < 256) k ->
  hex_encode l = hex_encode k -> l = k.
Proof.
  intros Hl. revert k. induction Hl as [|a l Ha Hl IH]; intros [|b k] Hk E; [done|done|done|].
  inversion Hk as [|? ? Hb Hk']; subst. cbn [hex_encode] in E. injection E as E1 E2 E3.
  destruct (nibbles a Ha) as (A1 & A2 & A3), (nibbles b Hb) as (B1 & B2 & B3).
  apply hex_lower_inj in E1, E2; [|done..]. rewrite A3, B3, E1, E2. f_equal. by apply IH.
Qed.

Lemma digest_nonempty raw : hex_encode (sha256 raw) <> "".
Proof. pose proof (sha256_length raw) as Hl. by destruct (sha256 raw). Qed.

(** ** Two logs with the same last digest *)

(** The texts that are hashed along a log. *)
Definition texts (log : list AuditRecord) : list (option (list Z)) :=
  map (fun r => aj_unhashed (ar_Timestamp r) (ar_Payload r) (ar_PrevHash r)) log.

Definition collision (x y : list Z) : Prop := x <> y /\ sha256 x = sha256 y.

Lemma verifies_snoc prev log r : verifies prev (log ++ [r]) ->
  verifies prev log /\ ar_PrevHash r = last_hash prev log /\
  exists raw, aj_unhashed (ar_Timestamp r) (ar_Payload r) (ar_PrevHash r) = Some raw /\ ar_Hash r = hex_encode (sha256 raw).
Proof.
  intros [Hv (Hp & Hh & _)]%verifies_app. split; [done|]. split; [done|]. rewrite <- Hp in Hh. unfold computeHash in Hh.
  destruct (aj_unhashed _ _ _) as [raw|] eqn:E; [|done]. exists raw. split; [done|]. by injection Hh as <-.
Qed.

Lemma same_digest_same_text log1 log2 :
  verifies "" log1 -> verifies "" log2 -> last_hash "" log1 = last_hash "" log2 ->
  texts log1 = texts log2 \/ exists x y, collision x y /\ Some x ∈ texts log1 /\ Some y ∈ texts log2.
Proof.
  revert log2. induction log1 as [|r1 log1 IH] using rev_ind; intros log2 H1 H2 E.
  - destruct log2 as [|r2 log2 _] using rev_ind; [by left|]. exfalso.
    apply verifies_snoc in H2 as (_ & _ & raw & _ & Hh). rewrite last_hash_snoc, Hh in E. by apply (digest_nonempty raw).
  - apply verifies_snoc in H1 as (V1 & P1 & raw1 & R1 & D1). rewrite last_hash_snoc in E.
    destruct log2 as [|r2 log2 _] using rev_ind.
    { exfalso. rewrite D1 in E. by apply (digest_nonempty raw1). }
    apply verifies_snoc in H2 as (V2 & P2 & raw2 & R2 & D2). rewrite last_hash_snoc in E.
    assert (Es : sha256 raw1 = sha256 raw2) by (apply hex_encode_inj; [apply sha256_range|apply sha256_range|congruence]).
    unfold texts. rewrite !map_app. cbn [map]. rewrite R1, R2.
    destruct (decide (raw1 = raw2)) as [->|Hne].
    + assert (Ep : last_hash "" log1 = last_hash "" log2).
      { rewrite <- P1, <- P2. apply aj_prev_read in R1, R2. congruence. }
      destruct (IH log2 V1 V2 Ep) as [Et|(x & y & Hc & Hx & Hy)].
      * left. unfold texts in Et. by rewrite Et.
      * right. exists x, y. rewrite !elem_of_app. split; [done|]. split; by left.
    + right. exists raw1, raw2. rewrite !elem_of_app. split; [done|]. split; right; by constructor.
Qed.
End chain.
#[global] Arguments AuditRecord : clear implicits.


(** A program that is started again begins a new chain in the same file: the
    records before and after do not verify as one chain, and those after verify
    without those before. *)
Theorem restart_breaks_chain {Payload : Type} `{AuditJson Payload} (empty_payload : Payload) (path : string)
    (ops1 ops2 : list (Z * option Payload * append_io)) :
  let '(w1, log1) := run_appends empty_payload ops1 (NewAuditChainWriter path) [] in
  let '(w2, log2) := run_appends empty_payload ops2 (NewAuditChainWriter path) [] in
  records log1 <> [] -> records log2 <> [] ->
  verifies "" (records log2) /\ ~ verifies "" (records (log1 ++ log2)).
Proof.
  pose proof (run_continues empty_payload "" ops1 (NewAuditChainWriter path) []) as H1.
  pose proof (run_continues empty_payload "" ops2 (NewAuditChainWriter path) []) as H2.
  destruct (run_appends _ ops1 _ _) as [w1 log1], (run_appends _ ops2 _ _) as [w2 log2].
  destruct H1 as [V1 L1]; [by split|]. destruct H2 as [V2 L2]; [by split|]. intros N1 N2. split; [done|].
  rewrite records_app. intros [_ V]%verifies_app.
  destruct (records log2) as [|r2 l2]; [done|]. destruct V as [P _], V2 as [P2 _]. rewrite P2 in P.
  destruct (records log1) as [|r1 l1 _] using rev_ind; [done|]. rewrite last_hash_snoc in P.
  apply verifies_snoc in V1 as (_ & _ & raw & _ & D). rewrite D in P. by apply (digest_nonempty raw).
Qed.

(** An encoding, to evaluate the log with: the length of the hash, the hash and the
    payload. *)
Definition sample_text (t : Z) (p : list Z) (h : string) : list Z :=
  replicate (String.length h) 1 ++ [0] ++ string_bytes h ++ t :: p.

Fixpoint sample_prev (n : nat) (raw : list Z) : option string :=
  match raw with
  | 1 :: raw => sample_prev (S n) raw
  | 0 :: raw => Some (string_of_list_ascii (map (fun b => ascii_of_N (Z.to_N b)) (take n raw)))
  | _ => None
  end.

Lemma sample_prev_text t p h raw :
  raw = replicate (String.length h) 1 ++ [0] ++ string_bytes h ++ t :: p -> sample_prev 0 raw = Some h.
Proof.
  intros ->. assert (Hgo : forall k m rest, sample_prev m (replicate k 1 ++ [0] ++ rest) =
    Some (string_of_list_ascii (map (fun b => ascii_of_N (Z.to_N b)) (take (k + m) rest)))).
  { induction k as [|k IH]; intros m rest; [done|]. 
    transitivity (sample_prev (S m) (replicate k 1 ++ [0] ++ rest)); [done|]. rewrite IH. do 4 f_equal. lia. }
  rewrite Hgo, Nat.add_0_r. unfold string_bytes. f_equal.
  assert (El : String.length h = List.length (map byte_of (list_ascii_of_string h))).
  { rewrite length_map. clear. induction h as [|c h IH]; cbn; [done|by rewrite IH]. }
  rewrite El, take_app_length, map_map. rewrite <- (string_of_list_ascii_of_string h) at 2. f_equal.
  rewrite <- (map_id (list_ascii_of_string h)) at 2. apply map_ext. intros c. unfold byte_of.
  rewrite N2Z.id. apply ascii_N_embedding.
Qed.

Definition sample_json : AuditJson (list Z) := {|
  aj_unhashed := fun t p h => Some (sample_text t p h);
  aj_line := fun t p h _ => Some (sample_text t p h);
  aj_prev_hash := sample_prev 0;
  aj_prev_read := fun t p h raw E => sample_prev_text t p h raw (eq_sym (Some_inj _ _ E))
|}.

