(* ===== verification/HttpAuth.v ===== *)
(** * Access to the HTTP interface

    [auth/simple_auth.go], [auth/rbac.go], [http/auth_middleware.go],
    [http/rbac_middleware.go] and their order in [http/server.go]: users and API
    keys, tokens, the permissions of roles, and the decision whether a request
    reaches its handler.  The libraries for passwords (bcrypt) and JSON web tokens
    are parameters, with what their documentation promises; audit events and
    logging are left out.  Every method runs under its lock. *)

From S2P Require Import Prelude GoStrings GoText Digests.
From stdpp Require Import pretty.
From Stdlib Require Import Ascii String.
#[local] Open Scope string_scope.
#[local] Open Scope list_scope.
#[local] Open Scope Z_scope.

Record UserInfo := mkUserInfo {
  ui_UserID : string;
  ui_Username : string;
  ui_Role : string;
  ui_Permissions : list string
}.

(** [Claims] with the registered claims the authenticator sets; times are in
    nanoseconds, truncated to seconds. *)
Record Claims := mkClaims {
  cl_User : UserInfo;
  cl_Issuer : string;
  cl_Audience : list string;
  cl_ExpiresAt : Z;
  cl_NotBefore : Z;
  cl_IssuedAt : Z;
  cl_ID : string
}.

(** [bcrypt] and [golang-jwt]: hashing fails for passwords of more than 72 bytes;
    a salt is random.  [jwt_parse key now token] is [ParseWithClaims] with a key
    function that accepts the HMAC methods only. *)
Class AuthLibraries := {
  bc_generate : string -> string -> option string;
  bc_compare : string -> string -> bool;
  bc_accepts : forall salt password hash, bc_generate salt password = Some hash -> bc_compare hash password = true;
  jwt_sign : list Z -> Claims -> option string;
  jwt_parse : list Z -> Z -> string -> option Claims;
  jwt_valid : forall key now c token, jwt_sign key c = Some token -> cl_NotBefore c <= now < cl_ExpiresAt c ->
    jwt_parse key now token = Some c;
  jwt_expired : forall key now c token, jwt_sign key c = Some token -> cl_ExpiresAt c <= now -> jwt_parse key now token = None
}.

(** ** The authenticator *)

Record SimpleUser := mkSimpleUser {
  su_Username : string;
  su_PasswordHash : string;
  su_Role : string;
  su_IsActive : bool;
  su_Permissions : list string
}.

Record SimpleAPIKey := mkSimpleAPIKey {
  ak_Key : string;
  ak_User : UserInfo;
  ak_IsActive : bool;
  ak_CreatedAt : Z
}.

Record SimpleAuthenticator := mkSimpleAuthenticator {
  sa_users : gmap string SimpleUser;
  sa_apiKeys : gmap string SimpleAPIKey;
  sa_secretKey : list Z;
  sa_issuer : string;
  sa_tokenExpiry : Z
}.

(** [random] is the generated secret. *)
Definition NewSimpleAuthenticator (secretKey issuer : string) (tokenExpiry : Z) (random : list Z) : SimpleAuthenticator :=
  mkSimpleAuthenticator ∅ ∅ (if String.eqb secretKey "" then random else string_bytes secretKey) issuer tokenExpiry.

Definition getRolePermissions (role : string) : list string :=
  if String.eqb role "admin" then
    ["sessions:read"; "sessions:write"; "sessions:delete"; "cdr:read"; "cdr:write"; "cdr:export"; "users:read"; "users:write";
     "users:delete"; "system:read"; "system:write"; "system:config"; "monitoring:read"; "monitoring:write"]
  else if String.eqb role "operator" then
    ["sessions:read"; "sessions:write"; "cdr:read"; "cdr:export"; "monitoring:read"]
  else if String.eqb role "viewer" then ["sessions:read"; "cdr:read"]
  else [].

Section authenticator.
Context `{AuthLibraries}.

(** [None] when the password cannot be hashed. *)
Definition AddUser (salt username password role : string) (s : SimpleAuthenticator) : option SimpleAuthenticator :=
  hash ← bc_generate salt password;
  Some (s <| sa_users := <[username := mkSimpleUser username hash role true (getRolePermissions role)]> (sa_users s) |>).

Definition user_info (u : SimpleUser) : UserInfo :=
  mkUserInfo (su_Username u) (su_Username u) (su_Role u) (su_Permissions u).

(** [random] are the 32 random bytes, or [None] when there are none. *)
Definition GenerateAPIKey (now : Z) (random : option (list Z)) (username : string) (s : SimpleAuthenticator)
    : option string * SimpleAuthenticator :=
  match sa_users s !! username, random with
  | Some user, Some keyBytes =>
    let apiKey := hex_encode keyBytes in
    (Some apiKey,
     s <| sa_apiKeys := <[apiKey := mkSimpleAPIKey apiKey
            (mkUserInfo username username (su_Role user) (su_Permissions user)) true now]> (sa_apiKeys s) |>)
  | _, _ => (None, s)
  end.

Definition ValidateAPIKey (apiKey : string) (s : SimpleAuthenticator) : option UserInfo :=
  key ← sa_apiKeys s !! apiKey; if ak_IsActive key then Some (ak_User key) else None.

(** [jwt.NewNumericDate] truncates to seconds. *)
Definition numeric_date (t : Z) : Z := t / 1000000000 * 1000000000.

Definition generateToken (now : Z) (jti : string) (s : SimpleAuthenticator) (user : SimpleUser) : option string :=
  jwt_sign (sa_secretKey s)
    (mkClaims (user_info user) (sa_issuer s) ["siprec-api"] (numeric_date (now + sa_tokenExpiry s)) (numeric_date now)
       (numeric_date now) jti).

Definition Login (now : Z) (jti username password : string) (s : SimpleAuthenticator) : option string :=
  user ← sa_users s !! username;
  if negb (su_IsActive user) then None else
  if negb (bc_compare (su_PasswordHash user) password) then None else
  generateToken now jti s user.

Definition ValidateToken (now : Z) (token : string) (s : SimpleAuthenticator) : option Claims :=
  claims ← jwt_parse (sa_secretKey s) now token;
  if String.eqb (cl_Issuer claims) (sa_issuer s) then Some claims else None.

(** ** Requests *)

Record HttpRequest := mkHttpRequest {
  hr_Path : string;
  hr_Method : string;
  hr_Authorization : string;
  hr_APIKey : string;
  hr_Upgrade : string;
  hr_Connection : string;
  hr_WebSocketProtocol : string
}.

Definition isWebSocketRequest `{Unicode} (r : HttpRequest) : bool :=
  equal_fold (hr_Upgrade r) "websocket" ||
  existsb (fun token => equal_fold (trim_space token) "upgrade") (split_on "," (hr_Connection r)).

Definition getWebSocketToken `{Unicode} (r : HttpRequest) : string :=
  if negb (isWebSocketRequest r) then "" else
  if String.eqb (hr_WebSocketProtocol r) "" then "" else
  match split_on "," (hr_WebSocketProtocol r) with part :: _ => trim_space part | [] => "" end.

Record AuthConfig := mkAuthConfig {
  ac_Enabled : bool;
  ac_RequireAuth : bool;
  ac_AllowAPIKey : bool;
  ac_AllowJWT : bool;
  ac_ExemptPaths : list string;
  ac_RequiredScopes : gmap string (list string)
}.

(** The exempt paths are prefixes. *)
Definition isPathExempt (exemptPaths : list string) (path : string) : bool :=
  existsb (fun exempt => String.eqb path exempt || has_prefix path exempt) exemptPaths.

(** The first attempt that succeeds. *)
Definition or_else {A} (x : option A) (y : option A) : option A := match x with Some _ => x | None => y end.

Definition authenticate `{Unicode} (now : Z) (c : AuthConfig) (simpleAuth : option SimpleAuthenticator) (r : HttpRequest)
    : option UserInfo :=
  s ← simpleAuth;
  let wsProtocolToken := getWebSocketToken r in
  let websocket := negb (String.eqb wsProtocolToken "") && isWebSocketRequest r in
  or_else
    (if ac_AllowJWT c then
       or_else
         (if negb (String.eqb (hr_Authorization r) "") && has_prefix (hr_Authorization r) "Bearer "
          then cl_User <$> ValidateToken now (trim_prefix (hr_Authorization r) "Bearer ") s else None)
         (if websocket then cl_User <$> ValidateToken now wsProtocolToken s else None)
     else None)
    (if ac_AllowAPIKey c then
       or_else
         (if negb (String.eqb (hr_APIKey r) "") then ValidateAPIKey (hr_APIKey r) s else None)
         (if websocket then ValidateAPIKey wsProtocolToken s else None)
     else None).

Definition hasRequiredScopes (c : AuthConfig) (path : string) (userPermissions : list string) : bool :=
  match ac_RequiredScopes c !! path with
  | None => true
  | Some requiredScopes =>
    existsb (fun required =>
      existsb (fun userScope =>
        (String.eqb userScope required || has_suffix userScope ":*") &&
        has_prefix required (trim_suffix userScope "*")) userPermissions) requiredScopes
  end.

Inductive Response := Unauthorized | Forbidden | Served (user : option UserInfo).

(** [AuthMiddleware.Middleware]: [next] gets the user of the request's context. *)
Definition auth_middleware `{Unicode} (now : Z) (c : AuthConfig) (simpleAuth : option SimpleAuthenticator)
    (next : option UserInfo -> Response) (r : HttpRequest) : Response :=
  if negb (ac_Enabled c) then next None else
  if isPathExempt (ac_ExemptPaths c) (hr_Path r) then next None else
  match authenticate now c simpleAuth r with
  | None => if ac_RequireAuth c then Unauthorized else next None
  | Some userInfo =>
    if negb (hasRequiredScopes c (hr_Path r) (ui_Permissions userInfo)) then Forbidden else next (Some userInfo)
  end.

(** ** Roles and permissions *)

Record RBACManager := mkRBACManager { rb_roles : gmap string (list string) }.

Definition defaultRoles : list (string * list string) :=
  [("admin", ["sessions:*"; "cdr:*"; "users:*"; "system:*"; "monitoring:*"; "api:*"]);
   ("operator", ["sessions:list"; "sessions:read"; "sessions:create"; "sessions:update"; "cdr:list"; "cdr:read"; "cdr:export";
                 "monitoring:read"; "monitoring:metrics"; "monitoring:health"; "api:access"]);
   ("viewer", ["sessions:list"; "sessions:read"; "cdr:list"; "cdr:read"; "monitoring:health"; "api:access"])].

Definition NewRBACManager : RBACManager :=
  mkRBACManager (foldl (fun m role => <[role.1 := role.2]> m) ∅ defaultRoles).

Definition hasPermission (permissions : list string) (required : string) : bool :=
  existsb (fun permission =>
    String.eqb permission required ||
    has_suffix permission ":*" && has_prefix required (trim_suffix permission "*") ||
    (String.eqb permission "*" || String.eqb permission "admin:*")) permissions.

Definition action_of (method : string) (deep : bool) : string :=
  if String.eqb method "GET" then if deep then "read" else "list"
  else if String.eqb method "POST" then "create"
  else if String.eqb method "PUT" || String.eqb method "PATCH" then "update"
  else if String.eqb method "DELETE" then "delete"
  else "access".

Definition inferPermissionFromRequest (path method : string) : string :=
  let parts := split_on "/" (trim_prefix path "/") in
  match parts with
  | [] => ""
  | first :: others =>
    let resource := match others with
                    | second :: _ => if String.eqb first "api" then second else first
                    | [] => first
                    end in
    let deep := (2 <? List.length parts)%nat ||
                (1 <? List.length parts)%nat && negb (String.eqb (List.last parts "") resource) in
    resource +:+ ":" +:+ action_of method deep
  end.

Inductive AccessReason := Undetermined | PermissionGranted | RolePermissionGranted | InsufficientPermissions.

Record AccessContext := mkAccessContext {
  ax_User : UserInfo;
  ax_RequestPath : string;
  ax_Method : string;
  ax_Resource : string;
  ax_Action : string
}.

Definition CheckAccess (rbac : RBACManager) (c : AccessContext) : bool * AccessReason * string :=
  let requiredPermission :=
    if negb (String.eqb (ax_Resource c) "") && negb (String.eqb (ax_Action c) "") then ax_Resource c +:+ ":" +:+ ax_Action c
    else inferPermissionFromRequest (ax_RequestPath c) (ax_Method c) in
  if String.eqb requiredPermission "" then (false, Undetermined, "") else
  if hasPermission (ui_Permissions (ax_User c)) requiredPermission then (true, PermissionGranted, requiredPermission) else
  match rb_roles rbac !! ui_Role (ax_User c) with
  | Some permissions =>
    if hasPermission permissions requiredPermission then (true, RolePermissionGranted, requiredPermission)
    else (false, InsufficientPermissions, requiredPermission)
  | None => (false, InsufficientPermissions, requiredPermission)
  end.

Definition DefaultRBACExemptPaths : list string := ["/health"; "/metrics"; "/status"; "/ws/"; "/websocket-client"].

(** [RBACMiddleware.Middleware] with the manager's configuration; [None] for a
    manager that is not set. *)
Definition rbac_middleware (enabled : bool) (exemptPaths : list string) (rbac : option RBACManager)
    (next : option UserInfo -> Response) (r : HttpRequest) (user : option UserInfo) : Response :=
  match (if enabled then rbac else None) with
  | None => next user
  | Some rbac =>
    if isPathExempt exemptPaths (hr_Path r) then next user else
    match user with
    | None => Forbidden
    | Some userInfo =>
      if (CheckAccess rbac (mkAccessContext userInfo (hr_Path r) (hr_Method r) "" "")).1.1 then next user else Forbidden
    end
  end.

(** ** The server

    The handlers of [NewServer], as [main] sets them up with authentication
    enabled: authentication around roles around the handlers. *)

Definition main_auth_config (requireAuth enableAPIKeys : bool) : AuthConfig :=
  mkAuthConfig true requireAuth enableAPIKeys true ["/health"; "/metrics"; "/status"] ∅.

Definition serve `{Unicode} (now : Z) (c : AuthConfig) (s : SimpleAuthenticator) (rbac : option RBACManager) (r : HttpRequest)
    : Response :=
  auth_middleware now c (Some s) (rbac_middleware true DefaultRBACExemptPaths rbac Served r) r.
End authenticator.

(** ** The decision *)

Definition permits (rbac : RBACManager) (u : UserInfo) (required : string) : bool :=
  hasPermission (ui_Permissions u) required ||
  match rb_roles rbac !! ui_Role u with Some permissions => hasPermission permissions required | None => false end.

Lemma action_nonempty method deep : action_of method deep <> "".
Proof. unfold action_of. by repeat case_match. Qed.

Lemma infer_nonempty path method : inferPermissionFromRequest path method <> "".
Proof.
  unfold inferPermissionFromRequest. pose proof (split_on_nonempty "/" (trim_prefix path "/")).
  destruct (split_on _ _) as [|first others]; [done|]. set (res := match others with [] => _ | _ => _ end). by destruct res.
Qed.

Lemma check_access_permits rbac u path method :
  (CheckAccess rbac (mkAccessContext u path method "" "")).1.1 = permits rbac u (inferPermissionFromRequest path method).
Proof.
  unfold CheckAccess, permits. cbn [ax_User ax_RequestPath ax_Method ax_Resource ax_Action String.eqb negb andb].
  rewrite (proj2 (String.eqb_neq _ "") (infer_nonempty path method)).
  destruct (hasPermission (ui_Permissions u) _); [done|]. destruct (rb_roles rbac !! ui_Role u); [|done].
  by destruct (hasPermission _ _).
Qed.

Lemma exempt_rbac path : isPathExempt ["/health"; "/metrics"; "/status"] path = true -> isPathExempt DefaultRBACExemptPaths path = true.
Proof.
  unfold isPathExempt, DefaultRBACExemptPaths. cbn [existsb]. rewrite !orb_false_r. intros H.
  repeat (apply orb_prop in H as [H|H]; [rewrite H; by rewrite ?orb_true_r|]). rewrite H. by rewrite ?orb_true_r.
Qed.


(** ** Roles *)

(** A permission list without wildcards and without the action grants it on no
    resource. *)
Definition lacks_action (action : string) (permissions : list string) : bool :=
  forallb (fun p => negb (has_suffix p (":" +:+ action)) && negb (has_suffix p ":*") &&
                    negb (String.eqb p "*") && negb (String.eqb p "admin:*")) permissions.

Lemma lacks_action_denied action permissions resource :
  lacks_action action permissions = true -> hasPermission permissions (resource +:+ ":" +:+ action) = false.
Proof.
  induction permissions as [|p permissions IH]; [done|]. cbn [lacks_action forallb hasPermission existsb].
  intros [[[[H1 H2]%andb_prop H3]%andb_prop H4]%andb_prop Hrest]%andb_prop.
  apply negb_true_iff in H1, H2, H3, H4. rewrite H2, H3, H4. cbn [andb orb]. rewrite !orb_false_r.
  destruct (String.eqb_spec p (resource +:+ ":" +:+ action)) as [E|]; [|by apply IH].
  exfalso. assert (has_suffix p (":" +:+ action) = true); [|congruence]. apply has_suffix_spec. by exists resource.
Qed.

Lemma lists_denied action lists resource : forallb (lacks_action action) lists = true ->
  existsb (fun l => hasPermission l (resource +:+ ":" +:+ action)) lists = false.
Proof.
  induction lists as [|l lists IH]; [done|]. cbn [forallb existsb]. intros [Hl Hls]%andb_prop.
  by rewrite lacks_action_denied, IH.
Qed.

(** What the users of a role may do. *)
Definition role_user (role : string) (u : UserInfo) : Prop := ui_Role u = role /\ ui_Permissions u = getRolePermissions role.

Definition role_lists (role : string) : list (list string) :=
  getRolePermissions role :: match rb_roles NewRBACManager !! role with Some l => [l] | None => [] end.

Lemma permits_role role u required : role_user role u ->
  permits NewRBACManager u required = existsb (fun l => hasPermission l required) (role_lists role).
Proof.
  intros [Er Ep]. unfold permits, role_lists. rewrite Er, Ep. cbn [existsb].
  destruct (rb_roles NewRBACManager !! role); cbn [existsb]; by rewrite ?orb_false_r.
Qed.

Lemma infer_action path method : exists resource deep, inferPermissionFromRequest path method = resource +:+ ":" +:+ action_of method deep.
Proof.
  unfold inferPermissionFromRequest. pose proof (split_on_nonempty "/" (trim_prefix path "/")).
  destruct (split_on _ _) as [|first others]; [done|]. eauto.
Qed.

(** A viewer only reads.  Whatever the path, a request of a user with the role
    of a viewer whose method creates, updates or deletes is forbidden, unless the
    path is exempt; an operator's requests are, when they delete. *)
Theorem viewer_read_only `{AuthLibraries} `{Unicode} (now : Z) (apiKeys : bool) (s : SimpleAuthenticator) (u : UserInfo) (r : HttpRequest) :
  authenticate now (main_auth_config true apiKeys) (Some s) r = Some u ->
  isPathExempt DefaultRBACExemptPaths (hr_Path r) = false ->
  role_user "viewer" u /\ In (hr_Method r) ["POST"; "PUT"; "PATCH"; "DELETE"] \/ role_user "operator" u /\ hr_Method r = "DELETE" ->
  serve now (main_auth_config true apiKeys) s (Some NewRBACManager) r = Forbidden.
Proof.
  intros Ha Hx Hu. unfold serve, auth_middleware. cbn [ac_Enabled ac_ExemptPaths ac_RequireAuth main_auth_config negb].
  replace (isPathExempt ["/health"; "/metrics"; "/status"] (hr_Path r)) with false.
  2: { symmetry. apply not_true_is_false. intros E%exempt_rbac. congruence. }
  rewrite Ha. unfold hasRequiredScopes. cbn [ac_RequiredScopes main_auth_config]. rewrite lookup_empty. cbn [negb].
  unfold rbac_middleware. rewrite Hx, check_access_permits.
  destruct (infer_action (hr_Path r) (hr_Method r)) as (resource & deep & ->).
  destruct Hu as [[Hrole Hm]|[Hrole Hm]].
  - rewrite (permits_role "viewer"), lists_denied; [done| |done].
    destruct Hm as [<-|[<-|[<-|[<-|[]]]]]; vm_compute; reflexivity.
  - rewrite (permits_role "operator"), Hm, lists_denied; [done|vm_compute; reflexivity|done].
Qed.

(** The first segment after [/api/] is the resource. *)
Lemma infer_api resource rest method :
  lacks "/" resource = true -> rest = "" \/ has_prefix rest "/" = true ->
  exists deep, inferPermissionFromRequest ("/api/" +:+ resource +:+ rest) method = resource +:+ ":" +:+ action_of method deep.
Proof.
  intros Hl Hr. unfold inferPermissionFromRequest.
  change ("/api/" +:+ resource +:+ rest) with ("/" +:+ ("api" +:+ String "/" (resource +:+ rest))). rewrite trim_prefix_app.
  rewrite (split_on_app "/" "api") by done.
  assert (exists others, split_on "/" (resource +:+ rest) = resource :: others) as [others ->].
  { destruct Hr as [->|Hp].
    - exists []. by rewrite string_app_nil_r, split_on_lacks.
    - apply has_prefix_spec in Hp as [t ->]. exists (split_on "/" t). by apply (split_on_app "/" resource t). }
  cbn [String.eqb Ascii.eqb Bool.eqb]. eauto.
Qed.

(** The endpoints of these resources are closed to everyone who has one of the
    three roles, administrators included. *)
Definition unlisted_resources : list string := ["config"; "cluster"; "stt"; "compliance"].

(** Roles shut out the administrator.  With roles enabled, every request for
    the configuration, cluster, transcription-job and compliance endpoints by a
    user of one of the three roles is forbidden, whatever its method: no role lists
    these resources. *)
Theorem admin_locked_out `{AuthLibraries} `{Unicode} (now : Z) (apiKeys : bool) (s : SimpleAuthenticator) (u : UserInfo) (r : HttpRequest)
    (role resource rest : string) :
  In role ["admin"; "operator"; "viewer"] -> role_user role u -> In resource unlisted_resources ->
  rest = "" \/ has_prefix rest "/" = true -> hr_Path r = "/api/" +:+ resource +:+ rest ->
  authenticate now (main_auth_config true apiKeys) (Some s) r = Some u ->
  serve now (main_auth_config true apiKeys) s (Some NewRBACManager) r = Forbidden.
Proof.
  intros Hrole Hu Hres Hrest Hp Ha.
  assert (Hx : isPathExempt DefaultRBACExemptPaths (hr_Path r) = false) by (rewrite Hp; by destruct Hres as [<-|[<-|[<-|[<-|[]]]]]).
  unfold serve, auth_middleware. cbn [ac_Enabled ac_ExemptPaths ac_RequireAuth main_auth_config negb].
  replace (isPathExempt ["/health"; "/metrics"; "/status"] (hr_Path r)) with false.
  2: { symmetry. apply not_true_is_false. intros E%exempt_rbac. congruence. }
  rewrite Ha. unfold hasRequiredScopes. cbn [ac_RequiredScopes main_auth_config]. rewrite lookup_empty. cbn [negb].
  unfold rbac_middleware. rewrite Hx, check_access_permits, Hp, (permits_role role u) by done.
  assert (Hlk : lacks "/" resource = true) by (by destruct Hres as [<-|[<-|[<-|[<-|[]]]]]).
  destruct (infer_api resource rest (hr_Method r) Hlk Hrest) as [deep ->].
  assert (Hact : In (action_of (hr_Method r) deep) ["read"; "list"; "create"; "update"; "delete"; "access"])
    by (unfold action_of; repeat case_match; cbn; tauto).
  replace (existsb _ _) with false; [done|]. symmetry.
  set (a := action_of _ _) in *. clearbody a.
  destruct Hrole as [<-|[<-|[<-|[]]]], Hres as [<-|[<-|[<-|[<-|[]]]]], Hact as [<-|[<-|[<-|[<-|[<-|[<-|[]]]]]]]; vm_compute; reflexivity.
Qed.

(** ** Credentials *)

(** The users and keys of a store that only the authenticator's operations built
    have the permissions of their roles. *)
Inductive store_step `{AuthLibraries} : SimpleAuthenticator -> SimpleAuthenticator -> Prop :=
  | step_add salt username password role s s' : AddUser salt username password role s = Some s' -> store_step s s'
  | step_key now random username s : store_step s (GenerateAPIKey now random username s).2.

Record store_ok (s : SimpleAuthenticator) : Prop := {
  st_users : forall name user, sa_users s !! name = Some user -> su_Permissions user = getRolePermissions (su_Role user);
  st_keys : forall k key, sa_apiKeys s !! k = Some key -> role_user (ui_Role (ak_User key)) (ak_User key)
}.

Lemma store_step_ok `{AuthLibraries} s s' : store_step s s' -> store_ok s -> store_ok s'.
Proof.
  intros Hs [Hu Hk]. destruct Hs as [salt name pw role s s' Ha|now random name s].
  - unfold AddUser in Ha. destruct (bc_generate _ _) as [hash|]; [|done]. injection Ha as <-. destruct s as [us ks key iss ex]. cbn in *.
    split; cbn; [|done]. intros n user. rewrite lookup_insert_Some. intros [[_ <-]|[_ H0]]; [done|by eapply Hu].
  - unfold GenerateAPIKey. destruct (sa_users s !! name) as [user|] eqn:Eu; [|done]. destruct random as [bytes|]; [|done].
    destruct s as [us ks key iss ex]. cbn in *. split; cbn; [done|]. intros k kk. rewrite lookup_insert_Some.
    intros [[_ <-]|[_ H0]]; [|by eapply Hk]. split; [done|]. cbn. by eapply Hu.
Qed.

(** Credentials give back the user's role.  In every store that the
    authenticator's operations built, a valid API key belongs to a user with the
    permissions of their role; a key that was just generated is valid for its
    user; and a token from a login is accepted with the user's role and permissions
    until it expires, and not afterwards. *)
Theorem credentials_carry_role `{AuthLibraries} (s0 s : SimpleAuthenticator) (secret issuer : string) (expiry : Z) (random : list Z) :
  s0 = NewSimpleAuthenticator secret issuer expiry random -> rtc store_step s0 s ->
  (forall k u, ValidateAPIKey k s = Some u -> role_user (ui_Role u) u) /\
  (forall now bytes name user, sa_users s !! name = Some user ->
     let '(k, s') := GenerateAPIKey now (Some bytes) name s in
     exists key, k = Some key /\ ValidateAPIKey key s' = Some (mkUserInfo name name (su_Role user) (getRolePermissions (su_Role user)))) /\
  (forall now jti name password user token, sa_users s !! name = Some user -> Login now jti name password s = Some token ->
     bc_compare (su_PasswordHash user) password = true /\
     (forall later, numeric_date now <= later < numeric_date (now + sa_tokenExpiry s) ->
        cl_User <$> ValidateToken later token s = Some (mkUserInfo (su_Username user) (su_Username user) (su_Role user) (getRolePermissions (su_Role user)))) /\
     (forall later, numeric_date (now + sa_tokenExpiry s) <= later -> ValidateToken later token s = None)).
Proof.
  intros -> Hr.
  assert (Hok : store_ok s).
  { assert (H0 : store_ok (NewSimpleAuthenticator secret issuer expiry random)) by (split; intros ? ? Hl; cbn in Hl; by rewrite lookup_empty in Hl).
    induction Hr as [|x y z Hs _ IH]; [done|]. apply IH. by eapply store_step_ok. }
  destruct Hok as [Hu Hk]. split; [|split].
  - intros k u. unfold ValidateAPIKey. destruct (sa_apiKeys s !! k) as [key|] eqn:E; [|done]. cbn.
    destruct (ak_IsActive key); [|done]. intros [= <-]. by eapply Hk.
  - intros now bytes name user Hn. unfold GenerateAPIKey. rewrite Hn. eexists. split; [done|]. unfold ValidateAPIKey.
    destruct s as [us ks sk iss ex]. cbn in *. rewrite lookup_insert_eq. cbn. by rewrite (Hu name user Hn).
  - intros now jti name password user token Hn. unfold Login. rewrite Hn. cbn [mbind option_bind].
    destruct (su_IsActive user); [|done]. destruct (bc_compare _ _) eqn:Ec; [|done]. cbn [negb]. unfold generateToken. intros Hsign.
    split; [done|]. split; intros later Hl; unfold ValidateToken.
    + rewrite (jwt_valid _ later _ _ Hsign) by done. cbn. rewrite String.eqb_refl. cbn. unfold user_info. by rewrite (Hu name user Hn).
    + by rewrite (jwt_expired _ later _ _ Hsign).
Qed.

(** ** Concrete libraries *)

(** Libraries with the laws: a hash that shows the password, and tokens that are
    the claims written as a number. *)
Definition claims_fields (c : Claims) :=
  (ui_UserID (cl_User c), ui_Username (cl_User c), ui_Role (cl_User c), ui_Permissions (cl_User c),
   (cl_Issuer c, cl_Audience c, cl_ExpiresAt c, cl_NotBefore c, cl_IssuedAt c, cl_ID c)).

Definition fields_claims (f : string * string * string * list string * (string * list string * Z * Z * Z * string)) : Claims :=
  let '(id, name, role, permissions, (issuer, audience, expires, before, issued, jti)) := f in
  mkClaims (mkUserInfo id name role permissions) issuer audience expires before issued jti.

Lemma fields_claims_fields c : fields_claims (claims_fields c) = c.
Proof. by destruct c as [[] ? ? ? ? ? ?]. Qed.

Definition plain_sign (key : list Z) (c : Claims) : option string := Some (pretty (N.pos (encode (key, claims_fields c)))).

Definition plain_parse (key : list Z) (now : Z) (token : string) : option Claims :=
  n ← unsigned token;
  f ← decode (A := list Z * _) (Z.to_pos n);
  let c := fields_claims f.2 in
  if decide (f.1 = key) then if (cl_NotBefore c <=? now) && (now <? cl_ExpiresAt c) then Some c else None else None.

Lemma plain_parse_sign key now c token : plain_sign key c = Some token ->
  plain_parse key now token = if (cl_NotBefore c <=? now) && (now <? cl_ExpiresAt c) then Some c else None.
Proof.
  intros [= <-]. unfold plain_parse. rewrite unsigned_pretty. cbn [mbind option_bind Z.of_N Z.to_pos].
  rewrite decode_encode. cbn [mbind option_bind fst snd]. by rewrite decide_True, fields_claims_fields by done.
Qed.

#[refine]
Instance plain_libraries : AuthLibraries := {
  bc_generate := fun salt password => if (72 <? String.length password)%nat then None else Some (salt +:+ "$" +:+ password);
  bc_compare := fun hash password => has_suffix hash ("$" +:+ password);
  jwt_sign := plain_sign;
  jwt_parse := plain_parse
}.
Proof.
  - intros salt password hash. case_match; [done|]. intros [= <-]. apply has_suffix_spec. by exists salt.
  - intros key now c token Hs Hn. rewrite (plain_parse_sign _ _ _ _ Hs).
    rewrite (proj2 (Z.leb_le _ _)), (proj2 (Z.ltb_lt _ _)) by lia. done.
  - intros key now c token Hs Hn. rewrite (plain_parse_sign _ _ _ _ Hs).
    rewrite (proj2 (Z.ltb_ge _ _) Hn). by rewrite andb_false_r.
Defined.

#[local] Existing Instance ascii_only.

Definition sample_store : SimpleAuthenticator :=
  let s0 := NewSimpleAuthenticator "secret" "siprec" 3600000000000 [] in
  let s1 := default s0 (AddUser "a" "vera" "pw-v" "viewer" s0) in
  let s2 := default s1 (AddUser "b" "ada" "pw-a" "admin" s1) in
  let s3 := (GenerateAPIKey 0 (Some [1; 2]) "vera" s2).2 in
  (GenerateAPIKey 0 (Some [3; 4]) "ada" s3).2.

Definition sample_user (name role : string) : UserInfo := mkUserInfo name name role (getRolePermissions role).

Definition key_request (path method key : string) : HttpRequest := mkHttpRequest path method "" key "" "" "".


Lemma viewer_read_only_witness :
  serve 0 (main_auth_config true true) sample_store (Some NewRBACManager) (key_request "/api/sessions/42" "DELETE" "0102") = Forbidden.
Proof.
  apply (viewer_read_only 0 true sample_store (sample_user "vera" "viewer")).
  - vm_compute. reflexivity.
  - vm_compute. reflexivity.
  - left. split; [by split|]. cbn. tauto.
Defined.

Lemma admin_locked_out_witness :
  serve 0 (main_auth_config true true) sample_store (Some NewRBACManager) (key_request "/api/config/reload" "POST" "0304") = Forbidden.
Proof.
  apply (admin_locked_out 0 true sample_store (sample_user "ada" "admin") _ "admin" "config" "/reload").
  - cbn. tauto.
  - by split.
  - cbn. tauto.
  - by right.
  - reflexivity.
  - vm_compute. reflexivity.
Defined.

Definition ada : SimpleUser := mkSimpleUser "ada" "b$pw-a" "admin" true (getRolePermissions "admin").

Lemma ada_stored : sa_users sample_store !! "ada" = Some ada.
Proof. vm_compute. reflexivity. Qed.

Lemma plain_signs key c : exists token, jwt_sign (AuthLibraries := plain_libraries) key c = Some token.
Proof. eexists. reflexivity. Qed.

Lemma ada_logs_in : exists token, Login 7 "j" "ada" "pw-a" sample_store = Some token.
Proof.
  unfold Login. rewrite ada_stored. cbn [mbind option_bind ada su_IsActive negb].
  replace (bc_compare _ _) with true by (vm_compute; reflexivity). cbn [negb]. apply plain_signs.
Qed.

Lemma credentials_carry_role_witness :
  exists token, Login 7 "j" "ada" "pw-a" sample_store = Some token /\
    (cl_User <$> ValidateToken 3599999999999 token sample_store) = Some (sample_user "ada" "admin") /\
    ValidateToken 3600000000000 token sample_store = None.
Proof.
  destruct ada_logs_in as [token Ht]. exists token. split; [exact Ht|].
  assert (Hr : rtc store_step (NewSimpleAuthenticator "secret" "siprec" 3600000000000 []) sample_store).
  { eapply rtc_l; [apply (step_add "a" "vera" "pw-v" "viewer"); reflexivity|].
    eapply rtc_l; [apply (step_add "b" "ada" "pw-a" "admin"); reflexivity|].
    eapply rtc_l; [apply (step_key 0 (Some [1; 2]) "vera")|].
    eapply rtc_l; [apply (step_key 0 (Some [3; 4]) "ada")|]. apply rtc_refl. }
  destruct (credentials_carry_role _ _ "secret" "siprec" 3600000000000 [] eq_refl Hr) as (_ & _ & Hl).
  destruct (Hl 7 "j" "ada" "pw-a" ada token ada_stored Ht) as (_ & Hv & He). split.
  - apply Hv. vm_compute. split; congruence.
  - apply He. vm_compute. congruence.
Defined.
