(* ===== verification/SttCollector.v ===== *)
(** * Transcripts of a job

    The collector of [stt/async_processor.go]: what the asynchronous processor of
    transcription jobs captures of the events that a provider publishes, and the
    result it assembles from them. *)

From S2P Require Import Prelude GoStrings GoText GoFloat.
From Stdlib Require Import Ascii String SpecFloat.
#[local] Open Scope string_scope.
#[local] Open Scope list_scope.
#[local] Open Scope Z_scope.

(** ** Metadata of an event *)

(** The values of the metadata map that the code distinguishes; a [json.Number]
    stands for the result of its [Float64] method. *)
Inductive MetaItem :=
  | MetaFloat (x : spec_float)
  | MetaInt (n : Z)
  | MetaNumber (x : option spec_float)
  | MetaText (s : string)
  | MetaDuration (d : Z)
  | MetaOther.

Notation metadata := (gmap string MetaItem).

Definition numericMetadataValue (v : option MetaItem) : option spec_float :=
  match v with
  | Some (MetaFloat x) => Some x
  | Some (MetaInt n) => Some (f64_of_int n)
  | Some (MetaNumber x) => x
  | _ => None
  end.

(** The conversion of a float to a 64-bit integer: the least one when the value
    does not fit. *)
Definition f64_int64 (x : spec_float) : Z := f64_to_int (- 2 ^ 63) (- 2 ^ 63) (2 ^ 63 - 1) (f64_trunc x).

Definition durationMetadataValue (v : option MetaItem) : option Z :=
  match v with
  | Some (MetaDuration d) => Some d
  | _ =>
    match numericMetadataValue v with
    | Some f => if f64_lt f64_zero f then Some (f64_int64 (f64_mul f (f64_of_int 1000000000))) else None
    | None => None
    end
  end.

Definition textMetadataValue (v : option MetaItem) : option string :=
  match v with Some (MetaText s) => Some s | _ => None end.

(** ** The collector *)

Record capturedSegment := mkCapturedSegment {
  cg_text : string;
  cg_confidence : spec_float;
  cg_hasConfidence : bool;
  cg_wordCount : Z;
  cg_language : string;
  cg_duration : Z;
  cg_model : string;
  cg_timestamp : Z
}.

Record transcriptionCollector := mkTranscriptionCollector {
  tc_callUUID : string;
  tc_segments : list capturedSegment
}.

Definition newTranscriptionCollector (callUUID : string) : transcriptionCollector :=
  mkTranscriptionCollector callUUID [].

Definition captured (now : Z) (text : string) (md : option metadata) : capturedSegment :=
  let meta k := m ← md; m !! k in
  mkCapturedSegment text
    (default f64_zero (numericMetadataValue (meta "confidence")))
    (bool_decide (is_Some (numericMetadataValue (meta "confidence"))))
    (match numericMetadataValue (meta "word_count") with Some x => f64_int64 x | None => 0 end)
    (default "" (textMetadataValue (meta "language")))
    (default 0 (durationMetadataValue (meta "duration")))
    (default "" (textMetadataValue (meta "model")))
    now.

(** [OnTranscription] of the collector; [None] is a nil map. *)
Definition CollectTranscription (now : Z) (callUUID transcription : string) (isFinal : bool) (md : option metadata)
    (c : transcriptionCollector) : transcriptionCollector :=
  if negb (String.eqb callUUID (tc_callUUID c)) || negb isFinal then c else
  let text := trim_space transcription in
  if String.eqb text "" then c
  else mkTranscriptionCollector (tc_callUUID c) (tc_segments c ++ [captured now text md]).

(** ** The result *)

Record TranscriptionSegment := mkTranscriptionSegment {
  ts_Timestamp : Z;
  ts_Text : string;
  ts_Language : string;
  ts_Confidence : spec_float;
  ts_WordCount : Z;
  ts_Duration : Z;
  ts_SegmentID : string;
  ts_Provider : string;
  ts_IsFinal : bool
}.

Record TranscriptionResult := mkTranscriptionResult {
  tr_Text : string;
  tr_Confidence : spec_float;
  tr_Language : string;
  tr_Duration : Z;
  tr_WordCount : Z;
  tr_Segments : list TranscriptionSegment;
  tr_Provider : string;
  tr_ModelUsed : string
}.

Definition words (s : string) : Z := Z.of_nat (List.length (fields s)).

Definition result_segment (jobID language provider : string) (i : nat) (s : capturedSegment) : TranscriptionSegment :=
  mkTranscriptionSegment (cg_timestamp s) (cg_text s)
    (if String.eqb (cg_language s) "" then language else cg_language s)
    (cg_confidence s)
    (if cg_wordCount s =? 0 then words (cg_text s) else cg_wordCount s)
    (cg_duration s) (jobID +:+ "-" +:+ itoa (Z.of_nat i)) provider true.

(** The last value that is set, or [d]. *)
Definition last_set (d : string) (l : list string) : string :=
  foldl (fun acc s => if String.eqb s "" then acc else s) d l.

Definition confidence_sum (l : list capturedSegment) : spec_float * Z :=
  foldl (fun acc s => if cg_hasConfidence s then (f64_add acc.1 (cg_confidence s), acc.2 + 1) else acc) (f64_zero, 0) l.

(** [buildResult] for the job with this ID, language and provider and an audio file
    of [audioBytes] bytes. *)
Definition buildResult (jobID language provider : string) (audioBytes : Z) (c : transcriptionCollector)
    : TranscriptionResult :=
  let segments := tc_segments c in
  let '(sum, count) := confidence_sum segments in
  let total := foldl (fun acc s => i64 (acc + cg_duration s)) 0 segments in
  let fullText := join " " (map cg_text segments) in
  mkTranscriptionResult fullText
    (if 0 <? count then f64_div sum (f64_of_int count) else f64_zero)
    (last_set language (map cg_language segments))
    (if (total =? 0) && (0 <? audioBytes)
     then f64_int64 (f64_mul (f64_div (f64_of_int audioBytes) (f64_of_int 32000)) (f64_of_int 1000000000))
     else total)
    (words fullText)
    (imap (result_segment jobID language provider) segments)
    provider
    (last_set "" (map cg_model segments)).

(** ** What the result says *)

(** An event of the transcription service. *)
Record Event := mkEvent {
  ev_time : Z;
  ev_callUUID : string;
  ev_text : string;
  ev_final : bool;
  ev_metadata : option metadata
}.

Definition collect (c : transcriptionCollector) (e : Event) : transcriptionCollector :=
  CollectTranscription (ev_time e) (ev_callUUID e) (ev_text e) (ev_final e) (ev_metadata e) c.

(** The texts of the final events of a call that say something. *)
Definition final_texts (callUUID : string) (l : list Event) : list string :=
  map (fun e => trim_space (ev_text e))
    (List.filter (fun e => String.eqb (ev_callUUID e) callUUID && ev_final e && negb (blank (ev_text e))) l).

(** *** Words of joined texts *)

(** A space separates words wherever it stands. *)
Lemma fields_from_space w l rest :
  fields_from w (l ++ " "%char :: rest) = fields_from w l ++ fields_from [] rest.
Proof.
  assert (Hsp : forall c, space2 c " " = false /\ forall d, space3 c d " " = false /\ space3 c " " d = false).
  { intros c. split; [apply space2_plain; done|]. intros d. split; [by apply space3_plain|].
    unfold space3. change (byte_of " ") with 32. cbn [Z.eqb Pos.eqb]. by rewrite !andb_false_r. }
  assert (He : forall w l', emit w l' = emit w [] ++ l') by (intros [] l'; done).
  remember (List.length l) as n eqn:En. revert w l En. induction (lt_wf n) as [n _ IH]. intros w l ->.
  destruct l as [|c l1]; cbn [app fields_from].
  { change (space1 " ") with true. cbn iota. by rewrite He. }
  destruct (space1 c) eqn:E1.
  { rewrite He, (He w (fields_from [] l1)), <- app_assoc. f_equal. by apply (IH (List.length l1) ltac:(cbn; lia)). }
  destruct l1 as [|d l2]; cbn [app].
  { rewrite (proj1 (Hsp c)). destruct rest as [|e rest].
    - by apply (IH 0%nat ltac:(cbn; lia) (c :: w) []).
    - rewrite (proj2 (proj2 (Hsp c) e)). by apply (IH 0%nat ltac:(cbn; lia) (c :: w) []). }
  destruct (space2 c d) eqn:E2.
  { rewrite He, (He w (fields_from [] l2)), <- app_assoc. f_equal. by apply (IH (List.length l2) ltac:(cbn; lia)). }
  destruct l2 as [|e l3]; cbn [app].
  { rewrite (proj1 (proj2 (Hsp c) d)). by apply (IH 1%nat ltac:(cbn; lia) (c :: w) [d]). }
  destruct (space3 c d e) eqn:E3.
  { rewrite He, (He w (fields_from [] l3)), <- app_assoc. f_equal. by apply (IH (List.length l3) ltac:(cbn; lia)). }
  by apply (IH (List.length (d :: e :: l3)) ltac:(cbn; lia) (c :: w) (d :: e :: l3)).
Qed.

Lemma words_join l : words (join " " l) = foldr (fun s n => words s + n) 0 l.
Proof.
  induction l as [|s l IH]; [done|]. destruct l as [|t l]; [cbn; lia|]. cbn [join foldr] in *. rewrite <- IH.
  unfold words, fields. rewrite list_ascii_app. change (list_ascii_of_string (" " +:+ ?x)) with (" "%char :: list_ascii_of_string x).
  rewrite fields_from_space, length_app. lia.
Qed.

(** *** Collecting *)

Lemma collect_callUUID c e : tc_callUUID (collect c e) = tc_callUUID c.
Proof. unfold collect, CollectTranscription. by case_tests. Qed.

Lemma collected_texts c l :
  map cg_text (tc_segments (foldl collect c l)) = map cg_text (tc_segments c) ++ final_texts (tc_callUUID c) l /\
  tc_callUUID (foldl collect c l) = tc_callUUID c.
Proof.
  revert c. induction l as [|e l IH]; intros c; cbn [foldl]; [by rewrite app_nil_r|].
  destruct (IH (collect c e)) as [-> ->]. rewrite collect_callUUID. split; [|done].
  unfold collect, CollectTranscription, final_texts, blank. cbn [List.filter].
  destruct (String.eqb (ev_callUUID e) (tc_callUUID c)), (ev_final e); cbn [negb orb andb]; try done.
  destruct (String.eqb (trim_space (ev_text e)) ""); cbn [negb map]; [done|].
  cbn [tc_segments]. by rewrite map_app, <- app_assoc.
Qed.

Lemma imap_texts jobID language provider k l :
  map ts_Text (imap (fun i => result_segment jobID language provider (k + i)) l) = map cg_text l.
Proof.
  revert k. induction l as [|s l IH]; intros k; [done|]. cbn [imap map]. f_equal. rewrite <- (IH (S k)). f_equal.
  apply imap_ext. intros i x _. cbn. f_equal. lia.
Qed.

