(* ===== verification/SttQueue.v ===== *)
(** * Transcription jobs

    The in-memory queue of transcription jobs ([stt/queue.go]) and the
    asynchronous processor that runs them ([stt/async_processor.go]): workers,
    retries, callbacks, statistics, cleanup, purge and shutdown, as threads that
    interleave between the acquisitions of the three locks [mutex] and [statsMux]
    of the queue and [mutex] of the processor, and at the operations on the
    channel.  What the providers return is an input of the steps.  The idle timer
    of a worker is left out. *)

From S2P Require Import Prelude GoStrings GoFloat SttCollector.
From Stdlib Require Import Ascii String SpecFloat.
#[local] Open Scope string_scope.
#[local] Open Scope list_scope.
#[local] Open Scope Z_scope.

(** ** Jobs *)

Inductive STTJobStatus :=
  | StatusPending | StatusQueued | StatusProcessing | StatusCompleted | StatusFailed | StatusRetrying | StatusCancelled.

#[export] Instance STTJobStatus_eq_dec : EqDecision STTJobStatus.
Proof. solve_decision. Defined.

(** [Metadata], which is created empty and never filled, is left out. *)
Record STTJob := mkSTTJob {
  jb_ID : string;
  jb_CallUUID : string;
  jb_SessionID : string;
  jb_AudioPath : string;
  jb_Provider : string;
  jb_Language : string;
  jb_Priority : Z;
  jb_CreatedAt : Z;
  jb_StartedAt : option Z;
  jb_CompletedAt : option Z;
  jb_FailedAt : option Z;
  jb_RetryCount : Z;
  jb_MaxRetries : Z;
  jb_Status : STTJobStatus;
  jb_Result : option TranscriptionResult;
  jb_Error : string;
  jb_ProcessingTime : Z;
  jb_EstimatedCost : spec_float;
  jb_ActualCost : spec_float
}.

(** The fields of [AsyncSTTConfig] that the code reads, and the names that the
    provider manager knows. *)
Record AsyncSTTConfig := mkAsyncSTTConfig {
  as_WorkerCount : nat;
  as_MaxRetries : Z;
  as_RetryBackoff : Z;
  as_QueueBufferSize : nat;
  as_JobRetentionTime : Z;
  as_EnableCostTracking : bool;
  as_hasProvider : string -> bool
}.

(** *** Costs *)

Definition thousandths (n : Z) : spec_float := f64_div (f64_of_int n) (f64_of_int 1000).

Definition costPerMinute (provider : string) : spec_float :=
  if String.eqb provider "google" then thousandths 16
  else if String.eqb provider "azure" then thousandths 12
  else if String.eqb provider "aws" then thousandths 24
  else if String.eqb provider "deepgram" then f64_div (f64_of_int 125) (f64_of_int 10000)
  else thousandths 20.

(** [None] when the audio file cannot be examined. *)
Definition estimateJobCost (provider : string) (size : option Z) : option spec_float :=
  n ← size;
  let seconds := f64_div (f64_of_int n) (f64_of_int 32000) in
  Some (f64_mul (f64_div seconds (f64_of_int 60)) (costPerMinute provider)).

(** [time.Duration.Minutes]. *)
Definition duration_minutes (d : Z) : spec_float :=
  f64_add (f64_of_int (Z.quot d 60000000000))
          (f64_div (f64_of_int (Z.rem d 60000000000)) (f64_of_int 60000000000)).

Definition calculateActualCost (job : STTJob) (result : TranscriptionResult) : spec_float :=
  let minutes := duration_minutes (tr_Duration result) in
  let minutes := if SFeqb minutes f64_zero then f64_div (jb_EstimatedCost job) (thousandths 20) else minutes in
  f64_mul minutes (costPerMinute (jb_Provider job)).

(** ** The shared state *)

(** [AsyncSTTMetrics] without the live values. *)
Record AsyncSTTMetrics := mkAsyncSTTMetrics {
  am_JobsEnqueued : Z;
  am_JobsProcessed : Z;
  am_JobsFailed : Z;
  am_JobsRetried : Z;
  am_AverageProcessTime : Z
}.

(** The jobs are objects that the map, the channel and the threads share; an ID
    stands for the object, since [SubmitJob] draws a new one for each job.
    [sh_heap] has the objects, [sh_jobs] the keys of the map, [sh_queue] the
    channel.  [sh_mutex] and [sh_procMutex] say that a writer holds the lock,
    [sh_statsReaders] counts the readers of the statistics.  [sh_notified] are the
    jobs handed to the callbacks, [sh_lost] those that a purge took from the
    channel or a closed channel refused; nothing reads these two. *)
Record Shared := mkShared {
  sh_heap : gmap string STTJob;
  sh_jobs : gset string;
  sh_queue : list string;
  sh_closed : bool;
  sh_TotalJobs : Z;
  sh_mutex : bool;
  sh_statsReaders : nat;
  sh_procMutex : bool;
  sh_cancelled : bool;
  sh_started : bool;
  sh_metrics : AsyncSTTMetrics;
  sh_notified : list string;
  sh_lost : list string
}.

Definition set_job (id : string) (f : STTJob -> STTJob) (s : Shared) : Shared :=
  s <| sh_heap := alter f id (sh_heap s) |>.

Record QueueStats := mkQueueStats {
  qs_TotalJobs : Z;
  qs_PendingJobs : Z;
  qs_ProcessingJobs : Z;
  qs_CompletedJobs : Z;
  qs_FailedJobs : Z;
  qs_ErrorRate : spec_float
}.

Definition has_status (s : Shared) (ok : STTJobStatus -> bool) (id : string) : bool :=
  match sh_heap s !! id with Some job => ok (jb_Status job) | None => false end.

Definition count_status (s : Shared) (ok : STTJobStatus -> bool) : Z :=
  Z.of_nat (List.length (List.filter (has_status s ok) (elements (sh_jobs s)))).

Definition is_status (x : STTJobStatus) (y : STTJobStatus) : bool := bool_decide (x = y).

(** The body of [GetQueueStats] under both locks. *)
Definition queue_stats (s : Shared) : QueueStats :=
  let failed := count_status s (is_status StatusFailed) in
  mkQueueStats (sh_TotalJobs s)
    (count_status s (fun x => is_status StatusPending x || is_status StatusQueued x))
    (count_status s (is_status StatusProcessing))
    (count_status s (is_status StatusCompleted))
    failed
    (if 0 <? sh_TotalJobs s
     then f64_mul (f64_div (f64_of_int failed) (f64_of_int (sh_TotalJobs s))) (f64_of_int 100) else f64_zero).

(** ** Threads *)

(** The periodic goroutines. *)
Inductive loop := MetricsLoop | CleanupLoop.

(** What a call of [GetQueueStats] is for. *)
Inductive stats_use := ForCaller | ForMetrics | BeforePurge | AfterPurge (before : QueueStats).

(** Where a thread stands.  A thread at [EnqStats], [UpdStats], [DelStats],
    [PurgeLoop] and [PurgeReceive] holds the lock of the queue, one at [StatRead]
    the read lock of the statistics, one at [StopWait] the lock of the processor. *)
Inductive pc :=
  | SubmitAt (job : STTJob) | RetryAt (id : string) (due : Z) | EnqStats (submitted : option STTJob)
  | DeqAt | DeqMark (id : string) | DeqStats (id : string)
  | ExecService (id : string) (started : Z) | ExecRun (id : string) (started : Z)
  | UpdAt (id : string) (completed : option Z) | UpdStats (id : string) (completed : option Z)
  | StatAt (use : stats_use) | StatRead (use : stats_use)
  | PurgeAt (before : QueueStats) | PurgeLoop (before : QueueStats) | PurgeReceive (before : QueueStats)
  | CleanCompleted | CleanFailed (cutoff : Z) (ids : list string) | CleanNext (cutoff : Z) (ids : list string)
  | DelStats (cutoff : Z) (ids : list string)
  | StopAt | StopWait
  | Idle (k : loop) | Exited
  | Returned (r : call_result)
with call_result :=
  | Submitted (job : STTJob) | QueueFull | Panicked | Requeued | Stats (st : QueueStats) | Purged (removed : Z) | Stopped | NotStarted.

(** The inputs of a step: the time, the outcome of the provider, the choice of a
    [select] with several ready cases, and the order of map iterations. *)
Record Input := mkInput {
  in_now : Z;
  in_outcome : string + TranscriptionResult;
  in_choice : bool;
  in_range : nat
}.

Section steps.
Context `{!GoMapRange string} (cf : AsyncSTTConfig).

(** [Enqueue] under the lock, up to the statistics: the next position of the
    thread and whether it still holds the lock. *)
Definition enqueue_locked (id : string) (submitted : option STTJob) (s : Shared) : Shared * pc :=
  let s := set_job id (fun j => j <| jb_Status := StatusQueued |>) (s <| sh_jobs := {[id]} ∪ sh_jobs s |>) in
  if sh_closed s then (s <| sh_lost := sh_lost s ++ [id] |>, Returned Panicked)
  else if (List.length (sh_queue s) <? as_QueueBufferSize cf)%nat
  then (s <| sh_queue := sh_queue s ++ [id] |> <| sh_mutex := true |>, EnqStats submitted)
  else (set_job id (fun j => j <| jb_Status := StatusFailed |> <| jb_Error := "queue is full" |>) s,
        Returned QueueFull).

Definition bump (f : AsyncSTTMetrics -> AsyncSTTMetrics) (s : Shared) : Shared := s <| sh_metrics := f (sh_metrics s) |>.

(** [updateMetrics]. *)
Definition metrics_enqueued (m : AsyncSTTMetrics) := m <| am_JobsEnqueued := am_JobsEnqueued m + 1 |>.
Definition metrics_retried (m : AsyncSTTMetrics) := m <| am_JobsRetried := am_JobsRetried m + 1 |>.
Definition metrics_failed (m : AsyncSTTMetrics) := m <| am_JobsFailed := am_JobsFailed m + 1 |>.
Definition metrics_completed (d : Z) (m : AsyncSTTMetrics) :=
  m <| am_JobsProcessed := am_JobsProcessed m + 1 |>
    <| am_AverageProcessTime := if am_AverageProcessTime m =? 0 then d else Z.quot (i64 (am_AverageProcessTime m + d)) 2 |>.

Definition notify (id : string) (s : Shared) : Shared := s <| sh_notified := sh_notified s ++ [id] |>.

(** [handleJobFailure] up to [UpdateJob], and the goroutine it starts. *)
Definition handleJobFailure (now : Z) (error : string) (id : string) (s : Shared) : Shared * list pc :=
  let s := set_job id (fun j => j <| jb_RetryCount := i64 (jb_RetryCount j + 1) |> <| jb_Error := error |>) s in
  match sh_heap s !! id with
  | None => (s, [])
  | Some job =>
    if jb_RetryCount job <=? jb_MaxRetries job
    then (bump metrics_retried (set_job id (fun j => j <| jb_Status := StatusRetrying |>) s),
          [RetryAt id (now + i64 (as_RetryBackoff cf * jb_RetryCount job))])
    else (notify id (bump metrics_failed
            (set_job id (fun j => j <| jb_Status := StatusFailed |> <| jb_FailedAt := Some now |>) s)), [])
  end.

(** [processJob] from the end of the execution to [UpdateJob]. *)
Definition finish_job (now started : Z) (outcome : string + TranscriptionResult) (id : string) (s : Shared)
    : Shared * pc * list pc :=
  let elapsed := time_sub now started in
  let s := set_job id (fun j => j <| jb_ProcessingTime := elapsed |>) s in
  match outcome with
  | inl error => let '(s, spawned) := handleJobFailure now error id s in (s, UpdAt id None, spawned)
  | inr result =>
    (set_job id (fun j =>
       let j := j <| jb_Result := Some result |> <| jb_Status := StatusCompleted |> <| jb_CompletedAt := Some now |> in
       if as_EnableCostTracking cf then j <| jb_ActualCost := calculateActualCost j result |> else j) s,
     UpdAt id (Some elapsed), [])
  end.

(** After [UpdateJob]: a completed job is counted and handed to the callbacks. *)
Definition after_update (id : string) (completed : option Z) (s : Shared) : Shared :=
  match completed with
  | Some elapsed => notify id (bump (metrics_completed elapsed) s)
  | None => s
  end.

(** [GetJobsByStatus]. *)
Definition GetJobsByStatus (k : nat) (status : STTJobStatus) (s : Shared) : list string :=
  List.filter (has_status s (is_status status)) (map_range k (gset_to_gmap tt (sh_jobs s))).*1.

(** The time by which [cleanupOldJobs] judges a job. *)
Definition job_time (s : Shared) (id : string) : option Z :=
  job ← sh_heap s !! id;
  match jb_CompletedAt job with Some t => Some t | None => jb_FailedAt job end.

(** What follows [GetQueueStats]. *)
Definition after_stats (use : stats_use) (st : QueueStats) (s : Shared) : Shared * pc :=
  match use with
  | ForCaller => (s, Returned (Stats st))
  | ForMetrics =>
    (bump (fun m => m <| am_JobsProcessed := qs_CompletedJobs st |> <| am_JobsFailed := qs_FailedJobs st |>) s, Idle MetricsLoop)
  | BeforePurge => (s, PurgeAt st)
  | AfterPurge before => (s, Returned (Purged (qs_TotalJobs before)))
  end.

(** One step of a thread; [None] when it has to wait or has ended.  [exited] says
    that the goroutines of the processor have ended. *)
Definition thread_step (i : Input) (exited : bool) (s : Shared) (p : pc) : option (Shared * pc * list pc) :=
  let now := in_now i in
  match p with
  | SubmitAt job =>
    if sh_mutex s then None
    else Some (enqueue_locked (jb_ID job) (Some job) (s <| sh_heap := <[jb_ID job := job]> (sh_heap s) |>), [])
  | RetryAt id due => if sh_mutex s || (now <? due) then None else Some (enqueue_locked id None s, [])
  | EnqStats submitted =>
    if (0 <? sh_statsReaders s)%nat then None
    else let s := s <| sh_TotalJobs := sh_TotalJobs s + 1 |> <| sh_mutex := false |> in
         Some (match submitted with
               | Some job => (bump metrics_enqueued s, Returned (Submitted job))
               | None => (s, Returned Requeued)
               end, [])
  | DeqAt =>
    match sh_queue s with
    | id :: queue =>
      if sh_cancelled s && in_choice i then Some (s, Exited, []) else Some (s <| sh_queue := queue |>, DeqMark id, [])
    | [] => if sh_cancelled s then Some (s, Exited, []) else None
    end
  | DeqMark id =>
    if sh_mutex s then None
    else Some (set_job id (fun j => j <| jb_Status := StatusProcessing |> <| jb_StartedAt := Some now |>) s, DeqStats id, [])
  | DeqStats id => if (0 <? sh_statsReaders s)%nat then None else Some (s, ExecService id now, [])
  | ExecService id started =>
    match sh_heap s !! id with
    | Some job =>
      if negb (as_hasProvider cf (jb_Provider job))
      then Some (finish_job now started (inl ("STT provider " +:+ jb_Provider job +:+ " not found")) id s)
      else if sh_procMutex s then None else Some (s, ExecRun id started, [])
    | None => None
    end
  | ExecRun id started => Some (finish_job now started (in_outcome i) id s)
  | UpdAt id completed =>
    if sh_mutex s then None
    else if bool_decide (id ∈ sh_jobs s) then Some (s <| sh_mutex := true |>, UpdStats id completed, [])
    else Some (after_update id completed s, DeqAt, [])
  | UpdStats id completed =>
    if (0 <? sh_statsReaders s)%nat then None
    else Some (after_update id completed (s <| sh_mutex := false |>), DeqAt, [])
  | StatAt use => Some (s <| sh_statsReaders := S (sh_statsReaders s) |>, StatRead use, [])
  | StatRead use =>
    if sh_mutex s then None
    else Some (after_stats use (queue_stats s) (s <| sh_statsReaders := pred (sh_statsReaders s) |>), [])
  | PurgeAt before => if sh_mutex s then None else Some (s <| sh_mutex := true |>, PurgeLoop before, [])
  | PurgeLoop before =>
    match sh_queue s with
    | [] => Some (s <| sh_jobs := ∅ |> <| sh_mutex := false |>, StatAt (AfterPurge before), [])
    | _ => Some (s, PurgeReceive before, [])
    end
  | PurgeReceive before =>
    match sh_queue s with
    | id :: queue => Some (s <| sh_queue := queue |> <| sh_lost := sh_lost s ++ [id] |>, PurgeLoop before, [])
    | [] => if sh_closed s then Some (s, PurgeLoop before, []) else None
    end
  | CleanCompleted =>
    if sh_mutex s then None
    else Some (s, CleanFailed (now - as_JobRetentionTime cf) (GetJobsByStatus (in_range i) StatusCompleted s), [])
  | CleanFailed cutoff ids =>
    if sh_mutex s then None
    else Some (s, CleanNext cutoff (ids ++ GetJobsByStatus (in_range i) StatusFailed s), [])
  | CleanNext cutoff [] => Some (s, Idle CleanupLoop, [])
  | CleanNext cutoff (id :: ids) =>
    match job_time s id with
    | Some t =>
      if t <? cutoff then
        if sh_mutex s then None
        else if bool_decide (id ∈ sh_jobs s)
        then Some (s <| sh_jobs := sh_jobs s ∖ {[id]} |> <| sh_mutex := true |>, DelStats cutoff ids, [])
        else Some (s, CleanNext cutoff ids, [])
      else Some (s, CleanNext cutoff ids, [])
    | None => Some (s, CleanNext cutoff ids, [])
    end
  | DelStats cutoff ids =>
    if (0 <? sh_statsReaders s)%nat then None else Some (s <| sh_mutex := false |>, CleanNext cutoff ids, [])
  | StopAt =>
    if sh_procMutex s then None
    else if sh_started s then Some (s <| sh_procMutex := true |> <| sh_cancelled := true |>, StopWait, [])
    else Some (s, Returned NotStarted, [])
  | StopWait =>
    if exited then Some (s <| sh_closed := true |> <| sh_started := false |> <| sh_procMutex := false |>, Returned Stopped, []) else None
  | Idle _ => if sh_cancelled s then Some (s, Exited, []) else None
  | Exited | Returned _ => None
  end.

(** ** The system *)

(** [sy_workers] are the goroutines the processor waits for in [Stop], [sy_calls]
    the calls from outside and the goroutines of retries. *)
Record System := mkSystem {
  sy_shared : Shared;
  sy_workers : list pc;
  sy_calls : list pc
}.

Definition empty_shared : Shared :=
  mkShared ∅ ∅ [] false 0 false 0 false false true (mkAsyncSTTMetrics 0 0 0 0 0) [] [].

(** [NewAsyncSTTProcessor] and [Start]. *)
Definition started_system : System :=
  mkSystem empty_shared (replicate (as_WorkerCount cf) DeqAt ++ [Idle CleanupLoop; Idle MetricsLoop]) [].

(** [SubmitJob] up to [Enqueue]: [id] is the new UUID, [size] the size of the audio
    file, if it can be examined. *)
Definition SubmitJob (now : Z) (id audioPath callUUID sessionID provider language : string) (priority : Z)
    (size : option Z) : pc :=
  SubmitAt (mkSTTJob id callUUID sessionID audioPath provider language priority now None None None 0 (as_MaxRetries cf)
    StatusPending None "" 0
    (if as_EnableCostTracking cf then default f64_zero (estimateJobCost provider size) else f64_zero) f64_zero).

Inductive action :=
  | WorkerMoves (n : nat) (i : Input)
  | CallMoves (n : nat) (i : Input)
  | Tick (n : nat)
  | Submit (now : Z) (id audioPath callUUID sessionID provider language : string) (priority : Z) (size : option Z)
  | AskStats | PurgeQueue | Stop.

Definition exited (p : pc) : bool := match p with Exited => true | _ => false end.

Definition submitting (p : pc) : list string := match p with SubmitAt job => [jb_ID job] | _ => [] end.

(** A UUID that no job has. *)
Definition fresh_id (id : string) (sy : System) : bool :=
  bool_decide (sh_heap (sy_shared sy) !! id = None) && bool_decide (id ∉ flat_map submitting (sy_workers sy ++ sy_calls sy)).

Definition call (p : pc) (sy : System) : System := sy <| sy_calls := sy_calls sy ++ [p] |>.

Definition act (a : action) (sy : System) : option System :=
  match a with
  | WorkerMoves n i =>
    p ← sy_workers sy !! n;
    '(s, p, spawned) ← thread_step i (forallb exited (sy_workers sy)) (sy_shared sy) p;
    Some (mkSystem s (<[n := p]> (sy_workers sy)) (sy_calls sy ++ spawned))
  | CallMoves n i =>
    p ← sy_calls sy !! n;
    '(s, p, spawned) ← thread_step i (forallb exited (sy_workers sy)) (sy_shared sy) p;
    Some (mkSystem s (sy_workers sy) (<[n := p]> (sy_calls sy) ++ spawned))
  | Tick n =>
    p ← sy_workers sy !! n;
    match p with
    | Idle MetricsLoop => Some (sy <| sy_workers := <[n := StatAt ForMetrics]> (sy_workers sy) |>)
    | Idle CleanupLoop => Some (sy <| sy_workers := <[n := CleanCompleted]> (sy_workers sy) |>)
    | _ => None
    end
  | Submit now id audioPath callUUID sessionID provider language priority size =>
    if fresh_id id sy
    then Some (call (SubmitJob now id audioPath callUUID sessionID provider language priority size) sy) else None
  | AskStats => Some (call (StatAt ForCaller) sy)
  | PurgeQueue => Some (call (StatAt BeforePurge) sy)
  | Stop => Some (call StopAt sy)
  end.

Definition run (l : list action) (sy : System) : option System :=
  foldl (fun acc a => sy ← acc; act a sy) (Some sy) l.

Definition sys_step (sy sy' : System) : Prop := exists a, act a sy = Some sy'.

Definition reachable (sy : System) : Prop := rtc sys_step started_system sy.

Definition threads (sy : System) : list pc := sy_workers sy ++ sy_calls sy.
End steps.

(** ** Views of the threads

    What the threads hold and carry, as lists that do not depend on their order. *)

Definition holds (p : pc) : list unit :=
  match p with EnqStats _ | UpdStats _ _ | DelStats _ _ | PurgeLoop _ | PurgeReceive _ => [tt] | _ => [] end.

Definition reads (p : pc) : list unit := match p with StatRead _ => [tt] | _ => [] end.

Definition stops (p : pc) : list unit := match p with StopWait => [tt] | _ => [] end.

(** The job a thread is about to queue again or is working on. *)
Definition carried (p : pc) : list string :=
  match p with
  | RetryAt id _ | DeqMark id | DeqStats id | ExecService id _ | ExecRun id _ => [id]
  | _ => []
  end.

(** The completed job that a thread will hand to the callbacks. *)
Definition pending (p : pc) : list string :=
  match p with UpdAt id (Some _) | UpdStats id (Some _) => [id] | _ => [] end.

Lemma flat_map_perm {A B} (f : A -> list B) l l' : l ≡ₚ l' -> flat_map f l ≡ₚ flat_map f l'.
Proof. apply Permutation_flat_map. Qed.

(** A step of any thread replaces it and adds the goroutines it started. *)
Definition moves `{!GoMapRange string} (cf : AsyncSTTConfig) (sy sy' : System) : Prop :=
  exists p rest i p' spawned, threads sy ≡ₚ p :: rest /\
    thread_step cf i (forallb exited (sy_workers sy)) (sy_shared sy) p = Some (sy_shared sy', p', spawned) /\
    threads sy' ≡ₚ p' :: spawned ++ rest.

Lemma insert_perm {A} (l : list A) n x y : l !! n = Some x -> exists rest, l ≡ₚ x :: rest /\ <[n := y]> l ≡ₚ y :: rest.
Proof.
  intros Hl. exists (take n l ++ drop (S n) l). split.
  - rewrite <- (take_drop_middle l n x Hl) at 1. by rewrite <- Permutation_middle.
  - rewrite insert_take_drop by (by eapply lookup_lt_Some). by rewrite <- Permutation_middle.
Qed.

Section invariants.
Context `{!GoMapRange string} (cf : AsyncSTTConfig).

(** The actions that are steps of a thread. *)
Definition is_move (a : action) : bool := match a with WorkerMoves _ _ | CallMoves _ _ => true | _ => false end.

Lemma is_move_moves a sy sy' : is_move a = true -> act cf a sy = Some sy' -> moves cf sy sy'.
Proof.
  destruct a; try done; intros _ Ha; cbn [act] in Ha.
  - destruct (sy_workers sy !! n) as [p|] eqn:E; [|done]. cbn [mbind option_bind] in Ha.
    destruct (thread_step _ _ _ _ _) as [[[s p'] spawned]|] eqn:Et; [|done]. injection Ha as <-.
    destruct (insert_perm _ _ _ p' E) as (rest & H1 & H2). exists p, (rest ++ sy_calls sy), i, p', spawned.
    unfold threads. cbn [sy_workers sy_calls sy_shared]. split; [by rewrite H1|]. split; [done|]. rewrite H2.
    cbn [app]. by rewrite (Permutation_app_comm (sy_calls sy) spawned), app_assoc, (Permutation_app_comm rest spawned), <- app_assoc.
  - destruct (sy_calls sy !! n) as [p|] eqn:E; [|done]. cbn [mbind option_bind] in Ha.
    destruct (thread_step _ _ _ _ _) as [[[s p'] spawned]|] eqn:Et; [|done]. injection Ha as <-.
    destruct (insert_perm _ _ _ p' E) as (rest & H1 & H2). exists p, (sy_workers sy ++ rest), i, p', spawned.
    unfold threads. cbn [sy_workers sy_calls sy_shared]. split; [by rewrite H1, Permutation_middle|]. split; [done|]. rewrite H2.
    cbn [app]. rewrite <- Permutation_middle. by rewrite (Permutation_app_comm rest spawned), Permutation_app_swap_app.
Qed.

(** Every action is a step of a thread, or it leaves the shared state alone and
    lets an idle thread begin a period or adds a call. *)
Lemma act_cases a sy sy' : act cf a sy = Some sy' ->
  moves cf sy sy' \/
  sy_shared sy' = sy_shared sy /\
  ((exists k rest, threads sy ≡ₚ Idle k :: rest /\
      threads sy' ≡ₚ (match k with MetricsLoop => StatAt ForMetrics | CleanupLoop => CleanCompleted end) :: rest) \/
   exists p, threads sy' ≡ₚ p :: threads sy /\
     (p = StatAt ForCaller \/ p = StatAt BeforePurge \/ p = StopAt \/
      exists now id audioPath callUUID sessionID provider language priority size,
        p = SubmitJob cf now id audioPath callUUID sessionID provider language priority size /\ fresh_id id sy = true)).
Proof.
  assert (Hc : forall p, threads (call p sy) ≡ₚ p :: threads sy).
  { intros p. unfold threads, call. destruct sy as [s ws cs]. cbn. rewrite (app_assoc ws cs [p]), (Permutation_app_comm _ [p]). done. }
  destruct a; cbn [act]; intros Ha.
  - left. by apply (is_move_moves (WorkerMoves n i)).
  - left. by apply (is_move_moves (CallMoves n i)).
  - right. destruct (sy_workers sy !! n) as [p|] eqn:E; [|done]. cbn [mbind option_bind] in Ha.
    destruct p as [| | | | | | | | | | | | | | | | | | | | | k| |]; try done.
    destruct (insert_perm _ _ _ (match k with MetricsLoop => StatAt ForMetrics | CleanupLoop => CleanCompleted end) E)
      as (rest & H1 & H2).
    destruct sy as [s ws cs]. unfold threads in *. cbn [sy_workers sy_calls sy_shared] in *.
    destruct k; injection Ha as <-; (split; [done|]); left.
    + exists MetricsLoop, (rest ++ cs). split; [by rewrite H1|cbn; by rewrite H2].
    + exists CleanupLoop, (rest ++ cs). split; [by rewrite H1|cbn; by rewrite H2].
  - right. destruct (fresh_id id sy) eqn:E; [|done]. injection Ha as <-. split; [by destruct sy|]. right. eexists. split; [apply Hc|].
    right; right; right. by eexists _, _, _, _, _, _, _, _, _.
  - right. injection Ha as <-. split; [by destruct sy|]. right. eexists. split; [apply Hc|]. tauto.
  - right. injection Ha as <-. split; [by destruct sy|]. right. eexists. split; [apply Hc|]. tauto.
  - right. injection Ha as <-. split; [by destruct sy|]. right. eexists. split; [apply Hc|]. tauto.
Qed.

(** ** Locks *)

(** The flags of the locks agree with the threads that hold them. *)
Record lock_inv (s : Shared) (ts : list pc) : Prop := {
  lo_mutex : List.length (flat_map holds ts) = (if sh_mutex s then 1 else 0)%nat;
  lo_stats : List.length (flat_map reads ts) = sh_statsReaders s;
  lo_proc : List.length (flat_map stops ts) = (if sh_procMutex s then 1 else 0)%nat
}.

Lemma lock_inv_perm s ts ts' : ts ≡ₚ ts' -> lock_inv s ts -> lock_inv s ts'.
Proof.
  intros Hp [H1 H2 H3]. split.
  - by rewrite <- (flat_map_perm holds _ _ Hp).
  - by rewrite <- (flat_map_perm reads _ _ Hp).
  - by rewrite <- (flat_map_perm stops _ _ Hp).
Qed.

(** What a step does to the locks, and what it starts. *)
Definition same_locks (s s' : Shared) : Prop :=
  sh_mutex s' = sh_mutex s /\ sh_statsReaders s' = sh_statsReaders s /\ sh_procMutex s' = sh_procMutex s.

Lemma finish_job_locks now started outcome id s s' p' spawned : finish_job cf now started outcome id s = (s', p', spawned) ->
  same_locks s s' /\ exists c, p' = UpdAt id c /\ flat_map holds spawned = [] /\ flat_map reads spawned = [] /\ flat_map stops spawned = [].
Proof.
  unfold finish_job, handleJobFailure, set_job, bump, notify. destruct s. intros Hf.
  destruct outcome as [e|r]; cbn in Hf.
  - repeat case_match; simplify_eq; (split; [done|]); eexists; (split; [done|]); done.
  - simplify_eq. split; [done|]. by eexists.
Qed.

Lemma enqueue_locked_locks id submitted s s' p' : sh_mutex s = false -> enqueue_locked cf id submitted s = (s', p') ->
  sh_statsReaders s' = sh_statsReaders s /\ sh_procMutex s' = sh_procMutex s /\ reads p' = [] /\ stops p' = [] /\
  List.length (holds p') = (if sh_mutex s' then 1 else 0)%nat.
Proof.
  unfold enqueue_locked, set_job. destruct s as [heap jobs queue closed total mutex sr pm ca st me no lo]. cbn. intros ->.
  case_match; [|case_match]; intros [= <- <-]; done.
Qed.

(** Closes the cases of a step that only change fields. *)
Ltac locks Ht :=
  first [discriminate Ht | injection Ht as <- <- <-;
    match goal with s : Shared |- _ => destruct s end; split; cbn in *; subst; cbn in *; lia].

Lemma lock_inv_step i ex s p rest s' p' spawned : lock_inv s (p :: rest) ->
  thread_step cf i ex s p = Some (s', p', spawned) -> lock_inv s' (p' :: spawned ++ rest).
Proof.
  intros [H1 H2 H3] Ht. cbn [flat_map] in *. rewrite !length_app in *.
  assert (Hfin : forall now started o id sp, p = ExecService id started \/ p = ExecRun id started ->
    finish_job cf now started o id s = (s', p', sp) -> lock_inv s' (p' :: sp ++ rest)).
  { intros now started o id sp Hp Hf. destruct (finish_job_locks _ _ _ _ _ _ _ _ Hf) as ((E1 & E2 & E3) & c & -> & F1 & F2 & F3).
    split; cbn [flat_map holds reads stops app]; rewrite flat_map_app, ?F1, ?F2, ?F3, ?E1, ?E2, ?E3; cbn [app];
      destruct Hp as [->| ->]; cbn in *; lia. }
  assert (Henq : forall s0 id submitted, holds p = [] -> reads p = [] -> stops p = [] -> sh_mutex s = false ->
    sh_mutex s0 = false -> sh_statsReaders s0 = sh_statsReaders s -> sh_procMutex s0 = sh_procMutex s ->
    enqueue_locked cf id submitted s0 = (s', p') -> lock_inv s' (p' :: rest)).
  { intros s0 id submitted P1 P2 P3 M M0 S0 Q0 He. destruct (enqueue_locked_locks _ _ _ _ _ M0 He) as (E2 & E3 & R & Q & Hm).
    rewrite P1, P2, P3, M in *. split; cbn [flat_map]; rewrite ?R, ?Q, ?length_app, ?E2, ?E3, ?S0, ?Q0; cbn in *; lia. }
  destruct p; cbn [thread_step holds reads stops] in *; try done.
  - destruct (sh_mutex s) eqn:Em; [done|]. destruct (enqueue_locked _ _ _ _) eqn:He. injection Ht as <- <- <-.
    by eapply Henq; [..|exact He]; destruct s.
  - destruct (sh_mutex s) eqn:Em; [done|]. destruct (in_now i <? due); [done|]. cbn [orb] in Ht.
    destruct (enqueue_locked _ _ _ _) eqn:He. injection Ht as <- <- <-. by eapply Henq; [..|exact He].
  - destruct (Nat.ltb_spec 0 (sh_statsReaders s)); [done|]. destruct (sh_mutex s) eqn:Em, submitted; locks Ht.
  - destruct (sh_queue s); [|destruct (sh_cancelled s && in_choice i)]; [destruct (sh_cancelled s)|..]; locks Ht.
  - destruct (sh_mutex s) eqn:Em; locks Ht.
  - destruct (0 <? sh_statsReaders s)%nat; locks Ht.
  - destruct (sh_heap s !! id); [|done]. destruct (negb _).
    + apply (inj Some) in Ht. exact (Hfin _ _ _ _ _ (or_introl eq_refl) Ht).
    + destruct (sh_procMutex s) eqn:Ep; locks Ht.
  - apply (inj Some) in Ht. exact (Hfin _ _ _ _ _ (or_intror eq_refl) Ht).
  - destruct (sh_mutex s) eqn:Em; [done|]. unfold after_update, notify, bump in Ht. case_bool_decide; [|destruct completed]; locks Ht.
  - destruct (Nat.ltb_spec 0 (sh_statsReaders s)); [done|]. unfold after_update, notify, bump in Ht.
    destruct (sh_mutex s) eqn:Em, completed; locks Ht.
  - locks Ht.
  - destruct (sh_mutex s) eqn:Em; [done|]. unfold after_stats, bump in Ht. destruct use; locks Ht.
  - destruct (sh_mutex s) eqn:Em; locks Ht.
  - destruct (sh_mutex s) eqn:Em, (sh_queue s); locks Ht.
  - destruct (sh_queue s); [destruct (sh_closed s)|]; locks Ht.
  - destruct (sh_mutex s) eqn:Em; locks Ht.
  - destruct (sh_mutex s) eqn:Em; locks Ht.
  - destruct ids as [|id ids]; [locks Ht|]. destruct (job_time s id) as [t|]; [|locks Ht]. destruct (t <? cutoff); [|locks Ht].
    destruct (sh_mutex s) eqn:Em; [done|]. case_bool_decide; locks Ht.
  - destruct (0 <? sh_statsReaders s)%nat; [done|]. destruct (sh_mutex s) eqn:Em; locks Ht.
  - destruct (sh_procMutex s) eqn:Ep; [done|]. destruct (sh_started s); locks Ht.
  - destruct ex; [|done]. destruct (sh_procMutex s) eqn:Ep; locks Ht.
  - destruct (sh_cancelled s); locks Ht.
Qed.

(** ** Jobs *)

Definition settled (j : STTJob) : bool := is_status StatusCompleted (jb_Status j) || is_status StatusFailed (jb_Status j).

(** The jobs that the callbacks hear of: a job that did not fit into the queue is
    failed without them, and without a time of failure. *)
Definition announced (j : STTJob) : bool :=
  is_status StatusCompleted (jb_Status j) ||
  (is_status StatusFailed (jb_Status j) && bool_decide (is_Some (jb_FailedAt j))).

(** The jobs on their way, and those announced or about to be. *)
Definition in_flight (s : Shared) (ts : list pc) : list string := sh_lost s ++ sh_queue s ++ flat_map carried ts.
Definition announcing (s : Shared) (ts : list pc) : list string := sh_notified s ++ flat_map pending ts.

Record sound_job (F N : list string) (id : string) (j : STTJob) : Prop := {
  sj_id : jb_ID j = id;
  sj_max : jb_MaxRetries j = as_MaxRetries cf;
  sj_flight : id ∈ F <-> settled j = false;
  sj_announced : id ∈ N <-> announced j = true;
  sj_failedAt : is_Some (jb_FailedAt j) -> jb_Status j = StatusFailed;
  sj_retries : 0 <= jb_RetryCount j <= Z.max 0 (as_MaxRetries cf) + (if settled j then 1 else 0)
}.

Record ledger (heap : gmap string STTJob) (F N : list string) : Prop := {
  le_flight : NoDup F;
  le_announced : NoDup N;
  le_known : forall id, id ∈ F \/ id ∈ N -> is_Some (heap !! id);
  le_jobs : forall id j, heap !! id = Some j -> sound_job F N id j
}.

Lemma sound_job_ext F N F' N' id j : (id ∈ F' <-> id ∈ F) -> (id ∈ N' <-> id ∈ N) -> sound_job F N id j -> sound_job F' N' id j.
Proof. intros HF HN [? ? ? ? ? ?]. split; try done; [by rewrite HF|by rewrite HN]. Qed.

Lemma ledger_perm heap F N F' N' : F ≡ₚ F' -> N ≡ₚ N' -> ledger heap F N -> ledger heap F' N'.
Proof.
  intros HF HN [H1 H2 H3 H4]. split; [by rewrite <- HF|by rewrite <- HN| |].
  - intros id Hid. apply H3. by rewrite HF, HN.
  - intros id j Hj. apply (sound_job_ext F N); [by rewrite HF|by rewrite HN|by apply H4].
Qed.

(** One job changes, and its place in the lists. *)
Lemma ledger_update heap F N id f j F' N' : ledger heap F N -> heap !! id = Some j -> NoDup F' -> NoDup N' ->
  (forall x, x <> id -> (x ∈ F' <-> x ∈ F) /\ (x ∈ N' <-> x ∈ N)) -> sound_job F' N' id (f j) -> ledger (alter f id heap) F' N'.
Proof.
  intros [H1 H2 H3 H4] Hj HF HN Hx Hs. split; [done|done| |].
  - intros x Hin. destruct (decide (x = id)) as [->|Hne]; [rewrite lookup_alter_eq, Hj; by eexists|].
    rewrite lookup_alter_ne by done. apply H3. destruct (Hx x Hne) as [<- <-]. done.
  - intros x y Hl. destruct (decide (x = id)) as [->|Hne].
    + rewrite lookup_alter_eq, Hj in Hl. by injection Hl as <-.
    + rewrite lookup_alter_ne in Hl by done. destruct (Hx x Hne). apply (sound_job_ext F N); [done|done|by apply H4].
Qed.

(** A change that concerns none of this. *)
Lemma ledger_touch heap F N id f :
  (forall j, jb_ID (f j) = jb_ID j /\ jb_MaxRetries (f j) = jb_MaxRetries j /\ settled (f j) = settled j /\ announced (f j) = announced j /\
     jb_FailedAt (f j) = jb_FailedAt j /\ (jb_Status j = StatusFailed -> jb_Status (f j) = StatusFailed) /\ jb_RetryCount (f j) = jb_RetryCount j) ->
  ledger heap F N -> ledger (alter f id heap) F N.
Proof.
  intros Hf Hl. destruct (heap !! id) as [j|] eqn:Ej.
  - apply (ledger_update heap F N id f j); try done; [by destruct Hl|by destruct Hl|].
    destruct (Hf j) as (E1 & E2 & E3 & E4 & E5 & E6 & E7), (le_jobs _ _ _ Hl id j Ej).
    split; rewrite ?E1, ?E2, ?E3, ?E4, ?E5, ?E7; auto.
  - by rewrite alter_id by (intros ? E; congruence).
Qed.

(** A job in flight becomes queued, processing or retrying. *)
Lemma ledger_status heap F N id st : id ∈ F -> st = StatusQueued \/ st = StatusProcessing \/ st = StatusRetrying ->
  ledger heap F N -> ledger (alter (fun j => j <| jb_Status := st |>) id heap) F N.
Proof.
  intros Hin Hst Hl. destruct (le_known _ _ _ Hl id (or_introl Hin)) as [j Ej].
  destruct (le_jobs _ _ _ Hl id j Ej) as [E1 E2 E3 E4 E5 E6]. apply E3 in Hin as Hs.
  assert (Hn : announced j = false) by (unfold announced, settled in *; apply orb_false_iff in Hs as [-> ->]; done).
  assert (Hf : jb_FailedAt j = None).
  { destruct (jb_FailedAt j) eqn:Ef; [|done]. unfold settled in Hs. rewrite E5 in Hs by (by eexists). done. }
  apply (ledger_update heap F N id _ j); try done; [by destruct Hl|by destruct Hl|].
  rewrite Hs in E6. destruct j. cbn in *. subst. split; cbn; try done.
  - split; [intros _|done]. unfold settled. cbn. by destruct Hst as [->|[->| ->]].
  - rewrite E4, Hn. unfold announced. cbn. by destruct Hst as [->|[->| ->]].
  - unfold settled. cbn. by destruct Hst as [->|[->| ->]].
Qed.

Lemma ledger_insert heap F N id j : heap !! id = None -> jb_ID j = id -> jb_MaxRetries j = as_MaxRetries cf ->
  jb_Status j = StatusPending -> jb_FailedAt j = None -> jb_RetryCount j = 0 ->
  ledger heap F N -> ledger (<[id := j]> heap) (id :: F) N.
Proof.
  intros Hh E1 E2 E3 E4 E5 [H1 H2 H3 H4].
  assert (Hn : ~ (id ∈ F \/ id ∈ N)) by (intros Hin; destruct (H3 id Hin); congruence).
  split; [apply NoDup_cons; tauto|done| |].
  - intros x Hx. destruct (decide (x = id)) as [->|Hne]; [rewrite lookup_insert_eq; by eexists|].
    rewrite lookup_insert_ne by done. apply H3. rewrite elem_of_cons in Hx. tauto.
  - intros x y Hl. destruct (decide (x = id)) as [->|Hne].
    + rewrite lookup_insert_eq in Hl. injection Hl as <-. split; try done.
      * split; [|intros _; apply elem_of_cons; by left]. unfold settled. by rewrite E3.
      * split; [tauto|]. unfold announced. by rewrite E3.
      * rewrite E4. by intros [].
      * rewrite E5. case_match; lia.
    + rewrite lookup_insert_ne in Hl by done. apply (sound_job_ext F N); [|done|by apply H4]. rewrite elem_of_cons. tauto.
Qed.

(** A job in flight is settled, and announced or not. *)
Lemma ledger_settle heap F N id f F' N' (told : bool) : ledger heap F N -> F ≡ₚ id :: F' -> N' ≡ₚ (if told then [id] else []) ++ N ->
  (forall j, heap !! id = Some j -> settled j = false -> sound_job F N id j ->
     jb_ID (f j) = id /\ jb_MaxRetries (f j) = as_MaxRetries cf /\ settled (f j) = true /\ announced (f j) = told /\
     (is_Some (jb_FailedAt (f j)) -> jb_Status (f j) = StatusFailed) /\
     0 <= jb_RetryCount (f j) <= Z.max 0 (as_MaxRetries cf) + 1) ->
  ledger (alter f id heap) F' N'.
Proof.
  intros Hl HF HN Hf. pose proof (le_flight _ _ _ Hl) as Hd. rewrite HF in Hd. apply NoDup_cons in Hd as [Hid Hd].
  assert (Hin : id ∈ F) by (rewrite HF; apply elem_of_cons; by left).
  destruct (le_known _ _ _ Hl id (or_introl Hin)) as [j Ej]. pose proof (le_jobs _ _ _ Hl id j Ej) as Hs.
  apply (sj_flight _ _ _ _ Hs) in Hin as Hu.
  assert (Hn : id ∉ N).
  { rewrite (sj_announced _ _ _ _ Hs). unfold announced, settled in *. apply orb_false_iff in Hu as [-> ->]. done. }
  destruct (Hf j Ej Hu Hs) as (E1 & E2 & E3 & E4 & E5 & E6).
  apply (ledger_update heap F N id f j); try done.
  - rewrite HN. destruct told; cbn; [apply NoDup_cons; split; [done|]|]; by destruct Hl.
  - intros x Hx. rewrite HF, HN, elem_of_app, elem_of_cons. split; [tauto|]. destruct told; [rewrite list_elem_of_singleton|]; set_solver.
  - split; try done.
    + rewrite E3. done.
    + rewrite HN, elem_of_app, E4. destruct told; [rewrite list_elem_of_singleton; tauto|]. set_solver.
    + by rewrite E3.
Qed.

(** *** The operations *)

Lemma enqueue_ledger id submitted s s' p' C N : enqueue_locked cf id submitted s = (s', p') ->
  ledger (sh_heap s) (id :: sh_lost s ++ sh_queue s ++ C) N ->
  ledger (sh_heap s') (sh_lost s' ++ sh_queue s' ++ carried p' ++ C) N /\ sh_notified s' = sh_notified s /\ pending p' = [] /\ submitting p' = [].
Proof.
  unfold enqueue_locked, set_job. destruct s as [heap jobs queue closed total mutex sr pm ca st me no lo]. cbn. intros He Hl.
  apply (ledger_status _ _ _ id StatusQueued) in Hl; [|by apply elem_of_cons; left|by left].
  destruct closed; [|case_match]; injection He as <- <-; cbn [sh_heap sh_lost sh_queue sh_notified carried pending submitting app]; (split; [|done]).
  - eapply ledger_perm; [|done|exact Hl]. rewrite <- !app_assoc. cbn. by rewrite <- !Permutation_middle.
  - eapply ledger_perm; [|done|exact Hl]. rewrite <- !app_assoc. cbn. by rewrite <- !Permutation_middle.
  - eapply (ledger_settle _ _ _ id _ _ _ false); [exact Hl|done|done|].
    intros j Hj _ [E1 E2 E3 E4 E5 E6]. rewrite lookup_alter_Some in Hj. destruct Hj as [(_ & j0 & Hj0 & ->)|[[] _]]; [|done].
    destruct j0. cbn in *. repeat split; try done.
    + apply bool_decide_eq_false. intros Hx. by apply E5 in Hx.
    + lia.
    + change (settled _) with false in E6. lia.
Qed.

Lemma alter_twice (f g : STTJob -> STTJob) id (m : gmap string STTJob) : alter f id (alter g id m) = alter (fun j => f (g j)) id m.
Proof.
  apply map_eq. intros x. destruct (decide (x = id)) as [->|Hne].
  - rewrite !lookup_alter_eq. by destruct (m !! id).
  - by rewrite !lookup_alter_ne by done.
Qed.

Lemma failure_ledger now error id s s' spawned C N :
  as_MaxRetries cf < 2 ^ 63 - 1 -> handleJobFailure cf now error id s = (s', spawned) ->
  ledger (sh_heap s) (sh_lost s ++ sh_queue s ++ id :: C) (sh_notified s ++ N) ->
  ledger (sh_heap s') (sh_lost s' ++ sh_queue s' ++ flat_map carried spawned ++ C) (sh_notified s' ++ N) /\
  flat_map pending spawned = [] /\ flat_map submitting spawned = [].
Proof.
  unfold handleJobFailure, set_job, bump, notify. intros Hmax.
  destruct s as [heap jobs queue closed total mutex sr pm ca st me no lo]. cbn. intros Hf Hl.
  assert (HF : lo ++ queue ++ id :: C ≡ₚ id :: lo ++ queue ++ C) by (by rewrite <- !Permutation_middle).
  assert (Hin : id ∈ lo ++ queue ++ id :: C) by (rewrite HF; apply elem_of_cons; by left).
  destruct (le_known _ _ _ Hl id (or_introl Hin)) as [j Ej]. pose proof (le_jobs _ _ _ Hl id j Ej) as Hs.
  pose proof (proj1 (sj_flight _ _ _ _ Hs) Hin) as Hu. pose proof (sj_retries _ _ _ _ Hs) as Hr. rewrite Hu in Hr.
  assert (Hc : i64 (jb_RetryCount j + 1) = jb_RetryCount j + 1) by (apply wrap_s_id; [lia|unfold in_s; lia]).
  pose proof (sj_max _ _ _ _ Hs) as Hm.
  rewrite lookup_alter_eq, Ej in Hf. destruct j as [jid call session path prov lang prio created jst compl failed retries maxr status res err ptime est actual].
  cbn in Hf, Hc, Hm, Hr. rewrite Hc, Hm in Hf.
  destruct (Z.leb_spec (retries + 1) (as_MaxRetries cf)); injection Hf as <- <-;
    cbn [sh_heap sh_lost sh_queue sh_notified flat_map carried pending submitting app]; (split; [|done]); rewrite alter_twice.
  - eapply (ledger_update heap (lo ++ queue ++ id :: C) (no ++ N) id); try done; [by destruct Hl|by destruct Hl|].
    destruct Hs as [E1 E2 E3 E4 E5 E6]. cbn in *. split; cbn; try done.
    + rewrite E4. unfold announced, settled in *. cbn in *. apply orb_false_iff in Hu as [-> ->]. done.
    + intros Hx. rewrite E5 in Hu by done. done.
    + rewrite Hc. change (settled _) with false. lia.
  - eapply (ledger_settle heap _ _ id _ _ _ true); [exact Hl|done|rewrite <- app_assoc; cbn; by rewrite <- Permutation_middle|].
    intros j Hj Hu' [E1 E2 E3 E4 E5 E6]. rewrite Ej in Hj. injection Hj as <-. cbn in *. rewrite Hc. repeat split; try done; lia.
Qed.

Lemma finish_ledger now started outcome id s s' p' spawned C N :
  as_MaxRetries cf < 2 ^ 63 - 1 -> finish_job cf now started outcome id s = (s', p', spawned) ->
  ledger (sh_heap s) (sh_lost s ++ sh_queue s ++ id :: C) (sh_notified s ++ N) ->
  ledger (sh_heap s') (sh_lost s' ++ sh_queue s' ++ carried p' ++ flat_map carried spawned ++ C)
         (sh_notified s' ++ pending p' ++ flat_map pending spawned ++ N) /\
  submitting p' = [] /\ flat_map submitting spawned = [].
Proof.
  intros Hmax Hf Hl. unfold finish_job in Hf.
  assert (Hl1 : forall d, ledger (sh_heap (set_job id (fun j => j <| jb_ProcessingTime := d |>) s))
                 (sh_lost s ++ sh_queue s ++ id :: C) (sh_notified s ++ N)).
  { intros d. destruct s. apply ledger_touch; [intros []; done|done]. }
  destruct outcome as [error|result].
  - destruct (handleJobFailure _ _ _ _ _) as [s1 sp] eqn:Eh. injection Hf as <- <- <-.
    apply (failure_ledger _ _ _ _ _ _ C N) in Eh as (H1 & H2 & H3); [|done|destruct s; apply Hl1]. cbn [carried pending submitting app].
    by rewrite H2, H3.
  - injection Hf as <- <- <-. cbn [carried pending flat_map submitting app]. split; [|done]. destruct s. cbn in *. rewrite alter_twice.
    eapply (ledger_settle _ _ _ id _ _ _ true); [exact Hl|by rewrite <- !Permutation_middle|by rewrite <- Permutation_middle|].
    intros j Hj Hu [E1 E2 E3 E4 E5 E6]. rewrite Hu in E6. destruct j. cbn in *.
    assert (Hn : ~ is_Some jb_FailedAt0) by (intros Hx; by rewrite E5 in Hu).
    destruct (as_EnableCostTracking cf); cbn; repeat split; try done; lia.
Qed.

(** Closes the cases of a step that leave the jobs where they are. *)
Ltac unmoved Ht :=
  first [discriminate Ht | injection Ht as <- <- <-;
    match goal with s : Shared |- _ => destruct s end; cbn in *; subst; cbn in *; split; [|done];
    eapply ledger_perm; [..|eassumption]; try done; rewrite <- ?app_assoc; cbn; by rewrite <- ?Permutation_middle].

(** A step keeps the ledger; [rest] are the other threads. *)
Lemma ledger_step i ex s p rest s' p' spawned : as_MaxRetries cf < 2 ^ 63 - 1 ->
  (forall job, p = SubmitAt job -> sh_heap s !! jb_ID job = None /\ jb_MaxRetries job = as_MaxRetries cf /\
     jb_Status job = StatusPending /\ jb_FailedAt job = None /\ jb_RetryCount job = 0) ->
  thread_step cf i ex s p = Some (s', p', spawned) ->
  ledger (sh_heap s) (in_flight s (p :: rest)) (announcing s (p :: rest)) ->
  ledger (sh_heap s') (in_flight s' (p' :: spawned ++ rest)) (announcing s' (p' :: spawned ++ rest)) /\
  flat_map submitting (p' :: spawned) = [].
Proof.
  unfold in_flight, announcing. cbn [flat_map]. intros Hmax Hsub Ht Hl. rewrite !flat_map_app.
  set (C := flat_map carried rest) in *. set (N := flat_map pending rest) in *. clearbody C N.
  destruct p; cbn [thread_step carried pending submitting app] in *.
  - destruct (Hsub job eq_refl) as (H1 & H2 & H3 & H4 & H5). destruct (sh_mutex s); [done|].
    destruct (enqueue_locked _ _ _ _) as [s1 p1] eqn:He. injection Ht as <- <- <-.
    edestruct (enqueue_ledger _ _ _ _ _ C (sh_notified s ++ N) He) as (F1 & F2 & F3 & F4).
    + destruct s. cbn in *. by apply ledger_insert.
    + cbn [flat_map app]. rewrite F2, F3, F4. split; [|done]. by destruct s.
  - destruct (sh_mutex s || _); [done|]. destruct (enqueue_locked _ _ _ _) as [s1 p1] eqn:He. injection Ht as <- <- <-.
    edestruct (enqueue_ledger _ _ _ _ _ C (sh_notified s ++ N) He) as (F1 & F2 & F3 & F4).
    + eapply ledger_perm; [|done|exact Hl]. by rewrite <- !Permutation_middle.
    + cbn [flat_map app]. by rewrite F2, F3, F4.
  - destruct (_ <? _)%nat, submitted; unmoved Ht.
  - destruct (sh_queue s) as [|id queue] eqn:Eq; [|destruct (sh_cancelled s && in_choice i)]; [destruct (sh_cancelled s)|..]; unmoved Ht.
  - destruct (sh_mutex s); [done|]. injection Ht as <- <- <-. cbn [carried pending flat_map submitting app]. split; [|done].
    destruct s as [heap jobs queue closed total mutex sr pm ca st me no lo]. cbn in *.
    change (fun j : STTJob => ?x) with (fun j : STTJob => (fun j => j <| jb_StartedAt := Some (in_now i) |>) (j <| jb_Status := StatusProcessing |>)).
    rewrite <- (alter_twice (fun j => j <| jb_StartedAt := Some (in_now i) |>) (fun j => j <| jb_Status := StatusProcessing |>)).
    apply ledger_touch; [intros []; done|]. apply ledger_status; [|tauto|done]. rewrite !elem_of_app, elem_of_cons. tauto.
  - destruct (_ <? _)%nat; unmoved Ht.
  - destruct (sh_heap s !! id) as [job|]; [|done]. destruct (negb _).
    + apply (inj Some) in Ht. destruct (finish_ledger _ _ _ _ _ _ _ _ C N Hmax Ht Hl) as (F1 & F2 & F3). by rewrite F2, F3.
    + destruct (sh_procMutex s); unmoved Ht.
  - apply (inj Some) in Ht. destruct (finish_ledger _ _ _ _ _ _ _ _ C N Hmax Ht Hl) as (F1 & F2 & F3). by rewrite F2, F3.
  - destruct (sh_mutex s); [done|]. unfold after_update, notify, bump in Ht. case_bool_decide; destruct completed; unmoved Ht.
  - destruct (_ <? _)%nat; [done|]. unfold after_update, notify, bump in Ht. destruct completed; unmoved Ht.
  - unmoved Ht.
  - destruct (sh_mutex s); [done|]. unfold after_stats, bump in Ht. destruct use; unmoved Ht.
  - destruct (sh_mutex s); unmoved Ht.
  - destruct (sh_queue s) eqn:Eq; unmoved Ht.
  - destruct (sh_queue s) eqn:Eq; [destruct (sh_closed s)|]; unmoved Ht.
  - destruct (sh_mutex s); unmoved Ht.
  - destruct (sh_mutex s); unmoved Ht.
  - destruct ids as [|id ids]; [unmoved Ht|]. destruct (job_time s id) as [t|]; [|unmoved Ht]. destruct (t <? cutoff); [|unmoved Ht].
    destruct (sh_mutex s); [done|]. case_bool_decide; unmoved Ht.
  - destruct (_ <? _)%nat; unmoved Ht.
  - destruct (sh_procMutex s); [done|]. destruct (sh_started s); unmoved Ht.
  - destruct ex; unmoved Ht.
  - destruct (sh_cancelled s); unmoved Ht.
  - done.
  - done.
Qed.

(** Only a submission adds a job. *)
Lemma heap_step i ex s p s' p' spawned w : thread_step cf i ex s p = Some (s', p', spawned) ->
  sh_heap s !! w = None -> w ∉ submitting p -> sh_heap s' !! w = None.
Proof.
  assert (Henq : forall x sub s0, sh_heap s0 !! w = None -> sh_heap (enqueue_locked cf x sub s0).1 !! w = None).
  { intros x sub s0 Hn. unfold enqueue_locked, set_job. destruct s0. cbn in *. repeat case_match; cbn;
      rewrite ?lookup_alter_None; done. }
  assert (Hfin : forall now started o x, sh_heap s !! w = None -> sh_heap (finish_job cf now started o x s).1.1 !! w = None).
  { intros now started o x Hn. unfold finish_job, handleJobFailure, set_job, bump, notify. destruct s. cbn in *.
    repeat case_match; simplify_eq; cbn; rewrite ?lookup_alter_None; done. }
  intros Ht Hn Hs. destruct p; cbn [thread_step submitting] in *;
    try (unfold after_update, after_stats, set_job, notify, bump in Ht; repeat case_match; try discriminate Ht;
         injection Ht as <- <- <-; destruct s; cbn in *; rewrite ?lookup_alter_None; done).
  - destruct (sh_mutex s); [done|]. destruct (enqueue_locked _ _ _ _) eqn:He. injection Ht as <- <- <-.
    change s0 with (s0, p).1. rewrite <- He. apply Henq. destruct s. cbn in *. rewrite lookup_insert_ne; [done|]. set_solver.
  - destruct (_ || _); [done|]. destruct (enqueue_locked _ _ _ _) eqn:He. injection Ht as <- <- <-.
    change s0 with (s0, p).1. rewrite <- He. by apply Henq.
  - destruct (sh_heap s !! id); [|done]. destruct (negb _).
    + apply (inj Some) in Ht. change s' with (s', p', spawned).1.1. rewrite <- Ht. by apply Hfin.
    + destruct (sh_procMutex s); by simplify_eq.
  - apply (inj Some) in Ht. change s' with (s', p', spawned).1.1. rewrite <- Ht. by apply Hfin.
Qed.

(** ** The invariant of the system *)

Definition new_job (s : Shared) (job : STTJob) : Prop :=
  sh_heap s !! jb_ID job = None /\ jb_MaxRetries job = as_MaxRetries cf /\
  jb_Status job = StatusPending /\ jb_FailedAt job = None /\ jb_RetryCount job = 0.

Record sys_inv (s : Shared) (ts : list pc) : Prop := {
  si_locks : lock_inv s ts;
  si_ledger : ledger (sh_heap s) (in_flight s ts) (announcing s ts);
  si_distinct : NoDup (flat_map submitting ts);
  si_new : forall job, SubmitAt job ∈ ts -> new_job s job
}.

Lemma sys_inv_perm s ts ts' : ts ≡ₚ ts' -> sys_inv s ts -> sys_inv s ts'.
Proof.
  intros Hp [H1 H2 H3 H4]. split.
  - by eapply lock_inv_perm.
  - eapply ledger_perm; [..|exact H2]; unfold in_flight, announcing; by rewrite (flat_map_perm _ _ _ Hp).
  - by rewrite <- (flat_map_perm _ _ _ Hp).
  - intros job Hj. apply H4. by rewrite Hp.
Qed.

Lemma submitting_elem job ts : SubmitAt job ∈ ts -> jb_ID job ∈ flat_map submitting ts.
Proof. intros Hj. rewrite list_elem_of_In, in_flat_map. exists (SubmitAt job). split; [by apply list_elem_of_In|cbn; by left]. Qed.

Lemma sys_inv_step i ex s p rest s' p' spawned : as_MaxRetries cf < 2 ^ 63 - 1 -> sys_inv s (p :: rest) ->
  thread_step cf i ex s p = Some (s', p', spawned) -> sys_inv s' (p' :: spawned ++ rest).
Proof.
  intros Hmax [H1 H2 H3 H4] Ht. cbn [flat_map] in H3. apply NoDup_app in H3 as (H3 & Hdis & H3').
  destruct (ledger_step i ex s p rest s' p' spawned Hmax) as [Hl Hs]; [|done|done|].
  { intros job ->. apply H4. apply elem_of_cons. by left. }
  change (p' :: spawned ++ rest) with ((p' :: spawned) ++ rest) in *. split.
  - by eapply lock_inv_step.
  - done.
  - rewrite flat_map_app, Hs. done.
  - intros job Hj. apply elem_of_app in Hj as [Hj|Hj].
    { apply submitting_elem in Hj. rewrite Hs in Hj. set_solver. }
    destruct (H4 job) as (Hn & Hrest); [set_solver|]. split; [|done]. eapply heap_step; [done|done|].
    intros Hin. apply (Hdis _ Hin). by apply submitting_elem.
Qed.

Lemma sys_inv_act a sy sy' : as_MaxRetries cf < 2 ^ 63 - 1 -> act cf a sy = Some sy' ->
  sys_inv (sy_shared sy) (threads sy) -> sys_inv (sy_shared sy') (threads sy').
Proof.
  intros Hmax Ha Hi. apply act_cases in Ha as [(p & rest & i & p' & spawned & Hp & Ht & Hp')|[-> [(k & rest & Hp & Hp')|(p & Hp & Hk)]]].
  - eapply sys_inv_perm; [by symmetry|]. eapply sys_inv_step; [done| |done]. by eapply sys_inv_perm.
  - eapply sys_inv_perm; [by symmetry|]. apply (sys_inv_perm _ _ _ Hp) in Hi as [[L1 L2 L3] H2 H3 H4].
    split; [split|..]; destruct k; try done; intros job Hj; apply H4; set_solver.
  - eapply sys_inv_perm; [by symmetry|]. destruct Hi as [[L1 L2 L3] H2 H3 H4].
    destruct Hk as [->|[->|[->|(now & id & path & cu & se & pr & la & prio & size & -> & Hf)]]];
      try (split; [split|..]; try done; intros job Hj; apply H4; set_solver).
    apply andb_prop in Hf as [Hn%bool_decide_eq_true Hd%bool_decide_eq_true].
    split; [split|..]; try done; [by apply NoDup_cons|].
    intros job Hj. apply elem_of_cons in Hj as [[= ->]|Hj]; [done|by apply H4].
Qed.

Lemma sys_inv_reachable sy : as_MaxRetries cf < 2 ^ 63 - 1 -> reachable cf sy -> sys_inv (sy_shared sy) (threads sy).
Proof.
  intros Hmax Hr. unfold reachable in Hr.
  assert (H0 : sys_inv (sy_shared (started_system cf)) (threads (started_system cf))).
  { assert (Hf : forall A (f : pc -> list A), f DeqAt = [] -> f (Idle CleanupLoop) = [] -> f (Idle MetricsLoop) = [] ->
      flat_map f (threads (started_system cf)) = []).
    { intros A f F1 F2 F3. unfold threads. cbn [started_system sy_workers sy_calls]. rewrite app_nil_r, flat_map_app.
      cbn [flat_map]. rewrite F2, F3. induction (as_WorkerCount cf) as [|n IH]; [done|]. cbn. by rewrite F1. }
    split; [split|..]; try (by rewrite Hf).
    - unfold in_flight, announcing. rewrite !Hf by done. split; [apply NoDup_nil_2|apply NoDup_nil_2|set_solver|intros id j Hj; cbn in Hj; by rewrite lookup_empty in Hj].
    - rewrite Hf by done. apply NoDup_nil_2.
    - intros job Hj. apply submitting_elem in Hj. rewrite Hf in Hj by done. set_solver. }
  induction Hr as [|x y z [a Ha] _ IH]; [done|]. apply IH. by eapply sys_inv_act.
Qed.

(** C7: Every job is accounted for.  In every state that submissions, workers,
    retries, statistics, cleanups, purges and shutdowns lead to, in any
    interleaving, a job whose outcome is open is in exactly one place: in the
    channel, with one worker, waiting for its retry, or lost to a purge or a closed
    queue; a settled job is in none.  No job is tried more often than once and its
    retries, and the callbacks hear once of each job that completed or ran out of
    retries, and of no other. *)
Theorem jobs_accounted_for (sy : System) :
  as_MaxRetries cf < 2 ^ 63 - 1 -> reachable cf sy ->
  NoDup (in_flight (sy_shared sy) (threads sy)) /\ NoDup (announcing (sy_shared sy) (threads sy)) /\
  forall id job, sh_heap (sy_shared sy) !! id = Some job ->
    (id ∈ in_flight (sy_shared sy) (threads sy) <-> settled job = false) /\
    (id ∈ announcing (sy_shared sy) (threads sy) <-> announced job = true) /\
    0 <= jb_RetryCount job <= Z.max 0 (as_MaxRetries cf) + (if settled job then 1 else 0).
Proof.
  intros Hmax Hr. destruct (si_ledger _ _ (sys_inv_reachable sy Hmax Hr)) as [H1 H2 H3 H4].
  split; [done|]. split; [done|]. intros id job Hj. by destruct (H4 id job Hj).
Qed.

(** ** Progress *)

(** The threads of submissions, workers and retries, and those that rest. *)
Definition quiet (p : pc) : bool :=
  match p with
  | StatAt _ | StatRead _ | PurgeAt _ | PurgeLoop _ | PurgeReceive _ | CleanCompleted | CleanFailed _ _ | CleanNext _ _
  | DelStats _ _ | StopAt | StopWait => false
  | _ => true
  end.

(** The threads that take jobs from the channel. *)
Definition working (p : pc) : list unit :=
  match p with
  | DeqAt | DeqMark _ | DeqStats _ | ExecService _ _ | ExecRun _ _ | UpdAt _ _ | UpdStats _ _ => [tt]
  | _ => []
  end.

Definition workers_inv (s : Shared) (ts : list pc) : Prop :=
  sh_cancelled s = true \/ List.length (flat_map working ts) = as_WorkerCount cf.

Lemma finish_job_quiet now started outcome id s s' p' spawned : finish_job cf now started outcome id s = (s', p', spawned) ->
  sh_cancelled s' = sh_cancelled s /\ working p' = [tt] /\ flat_map working spawned = [] /\ quiet p' = true /\ forallb quiet spawned = true.
Proof.
  unfold finish_job, handleJobFailure, set_job, bump, notify. destruct s. intros Hf.
  destruct outcome as [e|r]; cbn in Hf; repeat case_match; simplify_eq; done.
Qed.

Lemma enqueue_locked_quiet id submitted s :
  sh_cancelled (enqueue_locked cf id submitted s).1 = sh_cancelled s /\ working (enqueue_locked cf id submitted s).2 = [] /\
  quiet (enqueue_locked cf id submitted s).2 = true.
Proof. unfold enqueue_locked, set_job. destruct s. cbn. by repeat case_match. Qed.

(** Closes the cases of a step that keep the number of workers. *)
Ltac same_workers Ht Hw :=
  unfold after_update, after_stats, set_job, notify, bump in Ht; repeat case_match; try discriminate Ht;
  injection Ht as <- <- <-; match goal with s : Shared |- _ => destruct s end;
  destruct Hw as [Hw|Hw]; cbn in *; subst; try discriminate; first [by left | right; cbn in *; lia | left; congruence].

Lemma workers_inv_step i ex s p rest s' p' spawned : workers_inv s (p :: rest) ->
  thread_step cf i ex s p = Some (s', p', spawned) -> workers_inv s' (p' :: spawned ++ rest).
Proof.
  intros Hw Ht. unfold workers_inv in *. cbn [flat_map] in *. rewrite flat_map_app, !length_app in *.
  destruct p; cbn [thread_step working] in *; try (same_workers Ht Hw).
  - destruct (sh_mutex s); [done|]. destruct (enqueue_locked _ _ _ _) eqn:He. injection Ht as <- <- <-.
    edestruct enqueue_locked_quiet as (E1 & E2 & _). rewrite He in E1, E2. cbn [fst snd] in *. rewrite E1, E2. by destruct s.
  - destruct (_ || _); [done|]. destruct (enqueue_locked _ _ _ _) eqn:He. injection Ht as <- <- <-.
    edestruct enqueue_locked_quiet as (E1 & E2 & _). rewrite He in E1, E2. cbn [fst snd] in *. by rewrite E1, E2.
  - destruct (sh_cancelled s) eqn:Ec; [left; destruct (sh_queue s); [|case_match]; injection Ht as <- <- <-; by destruct s|].
    destruct (sh_queue s); [done|]. cbn [andb] in Ht. injection Ht as <- <- <-. destruct Hw as [Hw|Hw]; [done|]. by right.
  - destruct (sh_heap s !! id); [|done]. destruct (negb _).
    + apply (inj Some), finish_job_quiet in Ht as (-> & -> & -> & _). done.
    + destruct (sh_procMutex s); by simplify_eq.
  - apply (inj Some), finish_job_quiet in Ht as (-> & -> & -> & _). done.
Qed.

Lemma workers_inv_reachable sy : reachable cf sy -> workers_inv (sy_shared sy) (threads sy).
Proof.
  intros Hr. unfold reachable in Hr.
  assert (H0 : workers_inv (sy_shared (started_system cf)) (threads (started_system cf))).
  { right. unfold threads. cbn [started_system sy_workers sy_calls]. rewrite app_nil_r, flat_map_app. cbn. rewrite app_nil_r.
    induction (as_WorkerCount cf) as [|n IH]; [done|]. cbn. by rewrite IH. }
  assert (Hperm : forall s ts ts', ts ≡ₚ ts' -> workers_inv s ts -> workers_inv s ts').
  { intros s ts ts' Hp [Hc|Hw]; [by left|]. right. by rewrite <- (flat_map_perm _ _ _ Hp). }
  induction Hr as [|x y z [a Ha] _ IH]; [done|]. apply IH.
  apply act_cases in Ha as [(p & rest & i & p' & spawned & Hp & Ht & Hp')|[Es [(k & rest & Hp & Hp')|(p & Hp & Hk)]]].
  - eapply Hperm; [by symmetry|]. eapply workers_inv_step; [|done]. by eapply Hperm.
  - rewrite Es. eapply Hperm; [by symmetry|]. apply (Hperm _ _ _ Hp) in H0. by destruct k.
  - rewrite Es. eapply Hperm; [by symmetry|].
    destruct Hk as [->|[->|[->|(now & id & path & cu & se & pr & la & prio & size & -> & Hf)]]]; done.
Qed.

(** *** Counting steps *)

(** How much is left to do: ten units for each retry that is left of each job in
    flight, and the steps of the thread it is with or will be with. *)
Definition retries_left (heap : gmap string STTJob) (id : string) : nat :=
  match heap !! id with Some j => Z.to_nat (10 * (jb_MaxRetries j - jb_RetryCount j)) | None => 0 end%nat.

Definition steps_left (p : pc) : nat :=
  match p with
  | SubmitAt job => 12 + Z.to_nat (10 * (jb_MaxRetries job - jb_RetryCount job))
  | RetryAt _ _ => 12 | EnqStats _ => 1 | DeqMark _ => 10 | DeqStats _ => 9 | ExecService _ _ => 8 | ExecRun _ _ => 7
  | UpdAt _ _ => 3 | UpdStats _ _ => 2 | DeqAt | Idle _ => 1
  | _ => 0
  end%nat.

Definition total {A} (f : A -> nat) (l : list A) : nat := list_sum (map f l).

Definition work_left (s : Shared) (ts : list pc) : nat :=
  (total (retries_left (sh_heap s)) (in_flight s ts) + 10 * List.length (sh_queue s) + total steps_left ts)%nat.

Lemma total_app {A} (f : A -> nat) l l' : total f (l ++ l') = (total f l + total f l')%nat.
Proof. unfold total. by rewrite map_app, list_sum_app. Qed.

Lemma total_cons {A} (f : A -> nat) x l : total f (x :: l) = (f x + total f l)%nat.
Proof. done. Qed.

Lemma total_nil {A} (f : A -> nat) : total f [] = 0%nat.
Proof. done. Qed.
#[local] Arguments total : simpl never.

Lemma total_perm {A} (f : A -> nat) l l' : l ≡ₚ l' -> total f l = total f l'.
Proof. induction 1; rewrite ?total_cons in *; lia. Qed.

Lemma total_ext {A} (f g : A -> nat) l : (forall x, x ∈ l -> f x = g x) -> total f l = total g l.
Proof. intros Hx. unfold total. f_equal. apply map_ext_in. intros x Hin. apply Hx. by apply list_elem_of_In. Qed.

Lemma retries_left_alter heap id f x : (forall j, jb_MaxRetries (f j) = jb_MaxRetries j /\ jb_RetryCount (f j) = jb_RetryCount j) ->
  retries_left (alter f id heap) x = retries_left heap x.
Proof.
  intros Hf. unfold retries_left. destruct (decide (x = id)) as [->|Hne]; [|by rewrite lookup_alter_ne].
  rewrite lookup_alter_eq. destruct (heap !! id) as [j|]; [|done]. cbn. by destruct (Hf j) as [-> ->].
Qed.

Lemma retries_left_ne heap id f x : x <> id -> retries_left (alter f id heap) x = retries_left heap x.
Proof. intros Hne. unfold retries_left. by rewrite lookup_alter_ne. Qed.

Lemma total_touch heap id f l : (forall j, jb_MaxRetries (f j) = jb_MaxRetries j /\ jb_RetryCount (f j) = jb_RetryCount j) ->
  total (retries_left (alter f id heap)) l = total (retries_left heap) l.
Proof. intros Hf. apply total_ext. intros x _. by apply retries_left_alter. Qed.

Lemma enqueue_work id submitted s s' p' C : enqueue_locked cf id submitted s = (s', p') ->
  (total (retries_left (sh_heap s')) (sh_lost s' ++ sh_queue s' ++ C) + 10 * List.length (sh_queue s') + steps_left p' <
   total (retries_left (sh_heap s)) (id :: sh_lost s ++ sh_queue s ++ C) + 10 * List.length (sh_queue s) + 12)%nat /\ carried p' = [].
Proof.
  unfold enqueue_locked, set_job. destruct s as [heap jobs queue closed tot mutex sr pm ca st me no lo]. cbn.
  intros He. destruct closed; [|case_match]; injection He as <- <-; cbn [sh_heap sh_lost sh_queue steps_left carried]; (split; [|done]);
    rewrite ?alter_twice, total_touch by (intros []; done); rewrite ?length_app, ?total_cons, !total_app, ?total_cons, ?total_nil; cbn [List.length steps_left]; lia.
Qed.

Lemma finish_work now started outcome id s s' p' spawned C N :
  as_MaxRetries cf < 2 ^ 63 - 1 -> finish_job cf now started outcome id s = (s', p', spawned) ->
  ledger (sh_heap s) (sh_lost s ++ sh_queue s ++ id :: C) N ->
  (total (retries_left (sh_heap s')) (sh_lost s' ++ sh_queue s' ++ carried p' ++ flat_map carried spawned ++ C) +
     10 * List.length (sh_queue s') + steps_left p' + total steps_left spawned <
   total (retries_left (sh_heap s)) (sh_lost s ++ sh_queue s ++ id :: C) + 10 * List.length (sh_queue s) + 7)%nat.
Proof.
  intros Hmax Hf Hl.
  assert (HF : sh_lost s ++ sh_queue s ++ id :: C ≡ₚ id :: sh_lost s ++ sh_queue s ++ C) by (by rewrite <- !Permutation_middle).
  assert (Hin : id ∈ sh_lost s ++ sh_queue s ++ id :: C) by (rewrite HF; apply elem_of_cons; by left).
  destruct (le_known _ _ _ Hl id (or_introl Hin)) as [j Ej]. pose proof (le_jobs _ _ _ Hl id j Ej) as Hs.
  pose proof (le_flight _ _ _ Hl) as Hd. rewrite HF in Hd. apply NoDup_cons in Hd as [Hid _].
  pose proof (proj1 (sj_flight _ _ _ _ Hs) Hin) as Hu. pose proof (sj_retries _ _ _ _ Hs) as Hr. rewrite Hu in Hr.
  assert (Hc : i64 (jb_RetryCount j + 1) = jb_RetryCount j + 1) by (apply wrap_s_id; [lia|unfold in_s; lia]).
  pose proof (sj_max _ _ _ _ Hs) as Hm. rewrite (total_perm _ _ _ HF), total_cons.
  assert (Hx : forall f, total (retries_left (alter f id (sh_heap s))) (sh_lost s ++ sh_queue s ++ C) =
    total (retries_left (sh_heap s)) (sh_lost s ++ sh_queue s ++ C)).
  { intros f. apply total_ext. intros x Hxin. apply retries_left_ne. by intros ->. }
  revert Hf. unfold finish_job, handleJobFailure, set_job, bump, notify.
  destruct s as [heap jobs queue closed tot mutex sr pm ca st me no lo]. cbn in *. destruct outcome as [error|result].
  - rewrite !lookup_alter_eq, Ej. destruct j as [jid call session path prov lang prio created jst compl failed retries maxr status res err ptime est actual].
    cbn in *. rewrite Hc, Hm.
    destruct (Z.leb_spec (retries + 1) (as_MaxRetries cf)); intros [= <- <- <-]; cbn [sh_heap sh_lost sh_queue flat_map carried app];
      rewrite !alter_twice.
    + rewrite (total_perm _ (lo ++ queue ++ id :: C) (id :: lo ++ queue ++ C) HF), total_cons, Hx.
      unfold retries_left at 1 3. rewrite lookup_alter_eq, Ej. cbn. rewrite ?total_cons, ?total_nil, Hc. cbn [steps_left]. lia.
    + rewrite Hx, total_nil. cbn [steps_left]. lia.
  - intros [= <- <- <-]. cbn [sh_heap sh_lost sh_queue flat_map carried app]. rewrite alter_twice, Hx, total_nil. cbn [steps_left]. lia.
Qed.

(** Closes the cases of a step that change no job. *)
Ltac spend Ht :=
  first [discriminate Ht | injection Ht as <- <- <-; match goal with s : Shared |- _ => destruct s end; cbn in *; subst; cbn;
    (split; [|done]); rewrite ?total_nil, ?total_app, ?total_cons, ?total_app, ?total_cons; cbn; lia].

(** Every step of a quiet thread uses up some of the work. *)
Lemma work_step i ex s p rest s' p' spawned : as_MaxRetries cf < 2 ^ 63 - 1 -> quiet p = true -> sys_inv s (p :: rest) ->
  thread_step cf i ex s p = Some (s', p', spawned) ->
  (work_left s' (p' :: spawned ++ rest) < work_left s (p :: rest))%nat /\ forallb quiet (p' :: spawned) = true.
Proof.
  intros Hmax Hq [_ Hl _ Hnew] Ht. unfold work_left, in_flight in *. cbn [flat_map] in *. rewrite flat_map_app, !total_cons, (total_app steps_left).
  set (C := flat_map carried rest) in *. set (W := total steps_left rest) in *. clearbody C W.
  destruct p; try done; cbn [thread_step carried steps_left app] in *; clear Hq.
  - destruct (Hnew job ltac:(set_solver)) as (Hn & E1 & _ & _ & E2). destruct (sh_mutex s); [done|].
    destruct (enqueue_locked _ _ _ _) as [s1 p1] eqn:He. injection Ht as <- <- <-. cbn [flat_map app]. rewrite total_nil.
    destruct (enqueue_work _ _ _ _ _ C He) as [Hw ->]. cbn [app].
    assert (Hq : quiet p1 = true) by (change p1 with (s1, p1).2; rewrite <- He; apply enqueue_locked_quiet).
    split; [|cbn; by rewrite Hq]. destruct s as [heap jobs queue closed tot mutex sr pm ca st me no lo]. cbn in *.
    rewrite total_cons in Hw. unfold retries_left at 2 in Hw. rewrite lookup_insert_eq in Hw.
    rewrite (total_ext (retries_left (<[jb_ID job := job]> heap)) (retries_left heap)) in Hw; [lia|].
    intros x Hx. unfold retries_left. rewrite lookup_insert_ne; [done|]. intros <-.
    destruct (le_known _ _ _ Hl _ (or_introl Hx)). congruence.
  - destruct (_ || _); [done|]. destruct (enqueue_locked _ _ _ _) as [s1 p1] eqn:He. injection Ht as <- <- <-. cbn [flat_map app]. rewrite total_nil.
    destruct (enqueue_work _ _ _ _ _ C He) as [Hw ->]. cbn [app].
    assert (Hq : quiet p1 = true) by (change p1 with (s1, p1).2; rewrite <- He; apply enqueue_locked_quiet).
    split; [|cbn; by rewrite Hq]. rewrite !total_cons, ?total_app, ?total_cons in *. lia.
  - destruct (_ <? _)%nat; [done|]. destruct submitted; spend Ht.
  - destruct (sh_queue s) as [|id queue] eqn:Eq; [|destruct (sh_cancelled s && in_choice i)]; [destruct (sh_cancelled s)|..]; spend Ht.
  - destruct (sh_mutex s); [done|]. injection Ht as <- <- <-. destruct s. cbn in *. split; [|done]. rewrite total_nil.
    rewrite total_touch by (by intros []). lia.
  - destruct (_ <? _)%nat; spend Ht.
  - destruct (sh_heap s !! id) as [job|]; [|done]. destruct (negb _).
    + apply (inj Some) in Ht. pose proof (finish_work _ _ _ _ _ _ _ _ C _ Hmax Ht Hl) as Hw.
      destruct (finish_job_quiet _ _ _ _ _ _ _ _ Ht) as (_ & _ & _ & Q1 & Q2). cbn [forallb]. rewrite Q1, Q2. split; [lia|done].
    + destruct (sh_procMutex s); spend Ht.
  - apply (inj Some) in Ht. pose proof (finish_work _ _ _ _ _ _ _ _ C _ Hmax Ht Hl) as Hw.
    destruct (finish_job_quiet _ _ _ _ _ _ _ _ Ht) as (_ & _ & _ & Q1 & Q2). cbn [forallb]. rewrite Q1, Q2. split; [lia|done].
  - destruct (sh_mutex s); [done|]. unfold after_update, notify, bump in Ht. case_bool_decide; [|destruct completed]; spend Ht.
  - destruct (_ <? _)%nat; [done|]. unfold after_update, notify, bump in Ht. destruct completed; spend Ht.
  - destruct (sh_cancelled s); spend Ht.
Qed.

(** ** Every job ends *)

(** Steps of threads, without new calls and periods. *)
Definition progress (sy sy' : System) : Prop := exists a, is_move a = true /\ act cf a sy = Some sy'.

Lemma progress_reachable sy sy' : reachable cf sy -> rtc progress sy sy' -> reachable cf sy'.
Proof.
  intros Hr Hp. unfold reachable in *. etrans; [exact Hr|]. clear Hr. induction Hp as [|x y z (a & _ & Ha) _ IH]; [done|].
  eapply rtc_l; [by exists a|done].
Qed.

Lemma progress_work sy sy' : as_MaxRetries cf < 2 ^ 63 - 1 -> reachable cf sy -> forallb quiet (threads sy) = true ->
  progress sy sy' ->
  (work_left (sy_shared sy') (threads sy') < work_left (sy_shared sy) (threads sy))%nat /\ forallb quiet (threads sy') = true.
Proof.
  intros Hmax Hr Hq (a & Hm & Ha). destruct (is_move_moves _ _ _ Hm Ha) as (p & rest & i & p' & spawned & Hp & Ht & Hp').
  assert (Hw : forall s ts ts', ts ≡ₚ ts' -> work_left s ts = work_left s ts').
  { intros s ts ts' Hts. unfold work_left, in_flight. rewrite (total_perm steps_left _ _ Hts). f_equal. f_equal.
    apply total_perm. by rewrite (flat_map_perm carried _ _ Hts). }
  assert (Hfb : forall ts ts', ts ≡ₚ ts' -> forallb quiet ts = true -> forallb quiet ts' = true).
  { intros ts ts' Hts. rewrite !forallb_forall. intros H1 x Hx. apply H1. by eapply Permutation_in; [symmetry|]. }
  apply (Hfb _ _ Hp) in Hq. cbn [forallb] in Hq. apply andb_prop in Hq as [Hq Hqr].
  destruct (work_step _ _ _ _ rest _ _ _ Hmax Hq (sys_inv_perm _ _ _ Hp (sys_inv_reachable sy Hmax Hr)) Ht) as [Hlt Hq'].
  rewrite (Hw _ _ _ Hp), (Hw _ _ _ Hp'). split; [done|]. eapply Hfb; [by symmetry|].
  change (p' :: spawned ++ rest) with ((p' :: spawned) ++ rest). rewrite forallb_app, Hq'. done.
Qed.

Lemma stuck_threads sy p : (forall sy', ~ progress sy sy') -> p ∈ threads sy ->
  forall i, thread_step cf i (forallb exited (sy_workers sy)) (sy_shared sy) p = None.
Proof.
  intros Hs Hp i. destruct (thread_step _ _ _ _ _) as [[[s p'] sp]|] eqn:Et; [|done]. exfalso.
  apply elem_of_app in Hp as [Hp|Hp]; apply list_elem_of_lookup in Hp as [n Hn].
  - eapply (Hs _). exists (WorkerMoves n i). split; [done|]. cbn [act]. rewrite Hn. cbn [mbind option_bind]. by rewrite Et.
  - eapply (Hs _). exists (CallMoves n i). split; [done|]. cbn [act]. rewrite Hn. cbn [mbind option_bind]. by rewrite Et.
Qed.

Lemma quiet_cancelled i ex s p s' p' spawned : quiet p = true -> thread_step cf i ex s p = Some (s', p', spawned) ->
  sh_cancelled s' = sh_cancelled s.
Proof.
  intros Hq Ht. destruct p; try done; cbn [thread_step] in Ht;
    try (unfold after_update, set_job, notify, bump in Ht; repeat case_match; try discriminate Ht; injection Ht as <- <- <-; by destruct s).
  - destruct (sh_mutex s); [done|]. destruct (enqueue_locked _ _ _ _) eqn:He. injection Ht as <- <- <-.
    edestruct enqueue_locked_quiet as (E1 & _). rewrite He in E1. cbn in E1. rewrite E1. by destruct s.
  - destruct (_ || _); [done|]. destruct (enqueue_locked _ _ _ _) eqn:He. injection Ht as <- <- <-.
    edestruct enqueue_locked_quiet as (E1 & _). by rewrite He in E1.
  - destruct (sh_heap s !! id); [|done]. destruct (negb _); [|destruct (sh_procMutex s); by simplify_eq].
    by apply (inj Some), finish_job_quiet in Ht as (-> & _).
  - by apply (inj Some), finish_job_quiet in Ht as (-> & _).
Qed.

Lemma progress_quiet sy sy' : as_MaxRetries cf < 2 ^ 63 - 1 -> reachable cf sy -> sh_cancelled (sy_shared sy) = false ->
  forallb quiet (threads sy) = true -> progress sy sy' ->
  reachable cf sy' /\ sh_cancelled (sy_shared sy') = false /\ forallb quiet (threads sy') = true.
Proof.
  intros Hmax Hr Hc Hq Hp. split; [eapply progress_reachable; [done|by apply rtc_once]|].
  split; [|by destruct (progress_work _ _ Hmax Hr Hq Hp)].
  destruct Hp as (a & Hm & Ha). destruct (is_move_moves _ _ _ Hm Ha) as (p & rest & i & p' & sp & Hpp & Ht & _).
  rewrite <- Hc. eapply quiet_cancelled; [|exact Ht]. rewrite forallb_forall in Hq. apply Hq, list_elem_of_In. rewrite Hpp. set_solver.
Qed.

Lemma flat_map_none {A B} (f : A -> list B) l : (forall x, x ∈ l -> f x = []) -> flat_map f l = [].
Proof. induction l as [|x l IH]; intros Hx; [done|]. cbn. rewrite (Hx x), IH; [done| |]; set_solver. Qed.

Lemma flat_map_some {A B} (f : A -> list B) l : flat_map f l <> [] -> exists x, x ∈ l /\ f x <> [].
Proof.
  induction l as [|x l IH]; [done|]. cbn. intros Hf. destruct (f x) as [|y t] eqn:E.
  - destruct (IH Hf) as (z & Hz & Hfz). exists z. set_solver.
  - exists x. rewrite E. set_solver.
Qed.

(** Where threads rest. *)
Definition resting (p : pc) : bool := match p with DeqAt | Idle _ | Exited | Returned _ => true | _ => false end.

Lemma stuck_rests sy : sys_inv (sy_shared sy) (threads sy) -> forallb quiet (threads sy) = true ->
  (forall sy', ~ progress sy sy') -> forall p, p ∈ threads sy -> resting p = true.
Proof.
  intros [[L1 L2 L3] Hl _ _] Hq Hs. rewrite forallb_forall in Hq.
  assert (Hqe : forall p, p ∈ threads sy -> quiet p = true) by (intros p Hp; apply Hq; by apply list_elem_of_In). clear Hq.
  pose proof (stuck_threads sy) as Hst. set (ex := forallb exited (sy_workers sy)) in Hst. set (s := sy_shared sy) in *.
  assert (R0 : sh_statsReaders s = 0%nat).
  { rewrite <- L2, flat_map_none; [done|]. intros p Hp. specialize (Hqe p Hp). by destruct p. }
  assert (P0 : sh_procMutex s = false).
  { rewrite flat_map_none in L3; [by destruct (sh_procMutex s)|]. intros p Hp. specialize (Hqe p Hp). by destruct p. }
  set (i0 := mkInput 0 (inl "") false 0).
  assert (M0 : sh_mutex s = false).
  { destruct (sh_mutex s) eqn:Em; [|done]. destruct (flat_map_some holds (threads sy)) as (p & Hp & Hh); [by destruct (flat_map holds _)|].
    specialize (Hqe p Hp). specialize (Hst p Hs Hp i0). destruct p; try done; cbn [thread_step] in Hst; rewrite R0 in Hst; done. }
  intros p Hp. specialize (Hqe p Hp). pose proof (Hst p Hs Hp) as Hn.
  assert (Hk : forall id, carried p = [id] -> is_Some (sh_heap s !! id)).
  { intros id Hc. apply (le_known _ _ _ Hl). left. unfold in_flight. rewrite !elem_of_app. right; right.
    apply list_elem_of_In, in_flat_map. exists p. split; [by apply list_elem_of_In|]. rewrite Hc. by left. }
  destruct p; try done; cbn [thread_step carried] in *.
  - specialize (Hn i0). by rewrite M0 in Hn.
  - specialize (Hn (mkInput due (inl "") false 0)). rewrite M0 in Hn. cbn in Hn. by rewrite Z.ltb_irrefl in Hn.
  - specialize (Hn i0). by rewrite R0 in Hn.
  - specialize (Hn i0). by rewrite M0 in Hn.
  - specialize (Hn i0). by rewrite R0 in Hn.
  - specialize (Hn i0). destruct (Hk id eq_refl) as [j Ej]. rewrite Ej, P0 in Hn. by destruct (negb _).
  - by specialize (Hn i0).
  - specialize (Hn i0). rewrite M0 in Hn. by case_bool_decide.
  - specialize (Hn i0). by rewrite R0 in Hn.
Qed.


(** ** Deadlocks *)

(** A call that cannot take a step stays where it is, and so does a goroutine of the
    processor that is not idle. *)
Lemma act_keeps a sy sy' k p : act cf a sy = Some sy' ->
  (forall i, thread_step cf i (forallb exited (sy_workers sy)) (sy_shared sy) p = None) ->
  (sy_calls sy !! k = Some p -> sy_calls sy' !! k = Some p) /\
  ((forall l, p <> Idle l) -> sy_workers sy !! k = Some p -> sy_workers sy' !! k = Some p).
Proof.
  intros Ha Hb.
  destruct a; cbn [act] in Ha.
  - destruct (sy_workers sy !! n) as [q|] eqn:En; [|done]. cbn [mbind option_bind] in Ha.
    destruct (thread_step _ _ _ _ q) as [[[s q'] sp]|] eqn:Et; [|done]. injection Ha as <-. cbn. split.
    + intros Hk. by apply lookup_app_l_Some.
    + intros _ Hk. destruct (decide (n = k)) as [->|Hne]; [|by rewrite list_lookup_insert_ne]. congruence.
  - destruct (sy_calls sy !! n) as [q|] eqn:En; [|done]. cbn [mbind option_bind] in Ha.
    destruct (thread_step _ _ _ _ q) as [[[s q'] sp]|] eqn:Et; [|done]. injection Ha as <-. cbn. split; [|done].
    intros Hk. apply lookup_app_l_Some. destruct (decide (n = k)) as [->|Hne]; [|by rewrite list_lookup_insert_ne]. congruence.
  - destruct (sy_workers sy !! n) as [q|] eqn:En; [|done]. cbn [mbind option_bind] in Ha. destruct sy as [s ws cs].
    destruct q as [| | | | | | | | | | | | | | | | | | | | | l| |]; try done; destruct l; injection Ha as <-; cbn in *; (split; [done|]);
      intros Hi Hk; (destruct (decide (n = k)) as [->|Hne]; [rewrite En in Hk; injection Hk as <-; by edestruct Hi|by rewrite list_lookup_insert_ne]).
  - destruct (fresh_id id sy); [|done]. injection Ha as <-. destruct sy. cbn. split; [|done]. intros Hk. by apply lookup_app_l_Some.
  - injection Ha as <-. destruct sy. cbn. split; [|done]. intros Hk. by apply lookup_app_l_Some.
  - injection Ha as <-. destruct sy. cbn. split; [|done]. intros Hk. by apply lookup_app_l_Some.
  - injection Ha as <-. destruct sy. cbn. split; [|done]. intros Hk. by apply lookup_app_l_Some.
Qed.

Lemma in_threads sy k p : sy_calls sy !! k = Some p \/ sy_workers sy !! k = Some p -> p ∈ threads sy.
Proof. intros [Hk|Hk]; apply list_elem_of_lookup_2 in Hk; unfold threads; set_solver. Qed.

Lemma mutex_held sy p : lock_inv (sy_shared sy) (threads sy) -> p ∈ threads sy -> holds p = [tt] -> sh_mutex (sy_shared sy) = true.
Proof.
  intros [L _ _] Hp Hh. destruct (sh_mutex (sy_shared sy)); [done|]. apply length_zero_iff_nil in L.
  assert (Hin : tt ∈ flat_map holds (threads sy)).
  { apply list_elem_of_In, in_flat_map. exists p. split; [by apply list_elem_of_In|]. rewrite Hh. by left. }
  rewrite L in Hin. set_solver.
Qed.

Lemma stats_read sy use : lock_inv (sy_shared sy) (threads sy) -> StatRead use ∈ threads sy -> (0 < sh_statsReaders (sy_shared sy))%nat.
Proof.
  intros [_ L _] Hp. rewrite <- L. apply Nat.neq_0_lt_0. intros E. apply length_zero_iff_nil in E.
  assert (Hin : tt ∈ flat_map reads (threads sy)).
  { apply list_elem_of_In, in_flat_map. exists (StatRead use). split; [by apply list_elem_of_In|]. by left. }
  rewrite E in Hin. set_solver.
Qed.

Lemma proc_held sy : lock_inv (sy_shared sy) (threads sy) -> StopWait ∈ threads sy -> sh_procMutex (sy_shared sy) = true.
Proof.
  intros [_ _ L] Hp. destruct (sh_procMutex (sy_shared sy)); [done|]. apply length_zero_iff_nil in L.
  assert (Hin : tt ∈ flat_map stops (threads sy)).
  { apply list_elem_of_In, in_flat_map. exists StopWait. split; [by apply list_elem_of_In|]. by left. }
  rewrite L in Hin. set_solver.
Qed.

(** Statistics and an operation that updates them wait for each other. *)
Lemma stats_against_enqueue sy k k' submitted use : as_MaxRetries cf < 2 ^ 63 - 1 -> reachable cf sy ->
  sy_calls sy !! k = Some (EnqStats submitted) -> sy_calls sy !! k' = Some (StatRead use) ->
  forall sy', rtc (sys_step cf) sy sy' ->
    sy_calls sy' !! k = Some (EnqStats submitted) /\ sy_calls sy' !! k' = Some (StatRead use) /\ sh_mutex (sy_shared sy') = true.
Proof.
  intros Hmax Hr H1 H2 sy' Hs.
  assert (Hm : forall x, reachable cf x -> sy_calls x !! k = Some (EnqStats submitted) -> sh_mutex (sy_shared x) = true).
  { intros x Hx Hk. eapply mutex_held; [apply si_locks, sys_inv_reachable; done|eapply in_threads; by left|done]. }
  induction Hs as [|x y z [a Ha] _ IH]; [by auto|].
  assert (Hy : reachable cf y) by (eapply rtc_r; [exact Hr|by exists a]).
  apply IH; [done|apply (act_keeps a x y k); [done| |done]|apply (act_keeps a x y k'); [done| |done]]; intros i; cbn [thread_step].
  - assert (Hlt : (0 < sh_statsReaders (sy_shared x))%nat)
      by (eapply stats_read; [apply si_locks, sys_inv_reachable; done|eapply in_threads; by left]).
    by rewrite (proj2 (Nat.ltb_lt _ _) Hlt).
  - by rewrite (Hm x).
Qed.

Lemma drained_step i ex s p s' p' spawned : thread_step cf i ex s p = Some (s', p', spawned) ->
  sh_mutex s = true -> sh_queue s = [] -> sh_closed s = false -> ex = false -> sh_queue s' = [] /\ sh_closed s' = false.
Proof.
  intros Ht Hm Hq Hc ->. destruct p; cbn [thread_step] in Ht; rewrite ?Hm, ?Hq, ?Hc in Ht; cbn [orb] in Ht; try done.
  all: try (unfold after_update, after_stats, set_job, notify, bump in Ht; repeat case_match; try discriminate Ht;
            injection Ht as <- <- <-; by destruct s).
  - destruct (sh_heap s !! id); [|done]. destruct (negb _); [|destruct (sh_procMutex s); by simplify_eq].
    unfold finish_job, handleJobFailure, set_job, notify, bump in Ht. destruct s. cbn in *. repeat case_match; by simplify_eq.
  - unfold finish_job, handleJobFailure, set_job, notify, bump in Ht. destruct s. cbn in *. repeat case_match; by simplify_eq.
Qed.

(** A purge that was overtaken by a worker waits for a job that no one can queue. *)
Lemma purge_against_worker sy k m before id : as_MaxRetries cf < 2 ^ 63 - 1 -> reachable cf sy ->
  sy_calls sy !! k = Some (PurgeReceive before) -> sy_workers sy !! m = Some (DeqMark id) ->
  sh_queue (sy_shared sy) = [] -> sh_closed (sy_shared sy) = false ->
  forall sy', rtc (sys_step cf) sy sy' ->
    sy_calls sy' !! k = Some (PurgeReceive before) /\ sy_workers sy' !! m = Some (DeqMark id) /\ sh_mutex (sy_shared sy') = true.
Proof.
  intros Hmax Hr H1 H2 Hq Hc sy' Hs.
  assert (Hm : forall x, reachable cf x -> sy_calls x !! k = Some (PurgeReceive before) -> sh_mutex (sy_shared x) = true).
  { intros x Hx Hk. eapply mutex_held; [apply si_locks, sys_inv_reachable; done|eapply in_threads; by left|done]. }
  assert (He : forall x, sy_workers x !! m = Some (DeqMark id) -> forallb exited (sy_workers x) = false).
  { intros x Hk. apply not_true_is_false. rewrite forallb_forall. intros Hall. apply list_elem_of_lookup_2, list_elem_of_In, Hall in Hk. done. }
  induction Hs as [|x y z [a Ha] _ IH]; [by auto|].
  assert (Hy : reachable cf y) by (eapply rtc_r; [exact Hr|by exists a]).
  assert (Hqc : sh_queue (sy_shared y) = [] /\ sh_closed (sy_shared y) = false).
  { destruct (act_cases _ _ _ Ha) as [(p & rest & i & p' & sp & _ & Ht & _)|[-> _]]; [|done].
    eapply drained_step; [exact Ht|by apply Hm|done|done|by apply He]. }
  apply IH; [done|apply (act_keeps a x y k); [done| |done]|apply (act_keeps a x y m); [done| |done|done]|by destruct Hqc..].
  - intros i. cbn [thread_step]. by rewrite Hq, Hc.
  - intros i. cbn [thread_step]. by rewrite (Hm x).
Qed.

(** A shutdown waits for a worker that waits for the lock the shutdown holds. *)
Lemma stop_against_worker sy k m id started : as_MaxRetries cf < 2 ^ 63 - 1 -> (forall p, as_hasProvider cf p = true) -> reachable cf sy ->
  sy_calls sy !! k = Some StopWait -> sy_workers sy !! m = Some (ExecService id started) ->
  forall sy', rtc (sys_step cf) sy sy' ->
    sy_calls sy' !! k = Some StopWait /\ sy_workers sy' !! m = Some (ExecService id started).
Proof.
  intros Hmax Hprov Hr H1 H2 sy' Hs.
  assert (He : forall x, sy_workers x !! m = Some (ExecService id started) -> forallb exited (sy_workers x) = false).
  { intros x Hk. apply not_true_is_false. rewrite forallb_forall. intros Hall. apply list_elem_of_lookup_2, list_elem_of_In, Hall in Hk. done. }
  induction Hs as [|x y z [a Ha] _ IH]; [by auto|].
  assert (Hy : reachable cf y) by (eapply rtc_r; [exact Hr|by exists a]).
  apply IH; [done|apply (act_keeps a x y k); [done| |done]|apply (act_keeps a x y m); [done| |done|done]].
  - intros i. cbn [thread_step]. by rewrite (He x).
  - intros i. cbn [thread_step]. destruct (sh_heap (sy_shared x) !! id) as [job|]; [|done]. rewrite Hprov. cbn [negb].
    rewrite proc_held; [done|apply si_locks, sys_inv_reachable; done|eapply in_threads; by left].
Qed.

Lemma run_reachable l sy : run cf l (started_system cf) = Some sy -> reachable cf sy.
Proof.
  unfold reachable. assert (Hg : forall l s0 acc, acc = Some s0 -> foldl (fun acc a => sy ← acc; act cf a sy) acc l = Some sy -> rtc (sys_step cf) s0 sy).
  { clear l. induction l as [|a l IH]; intros s0 acc -> Hl; cbn [foldl] in Hl; [by injection Hl as ->|].
    cbn [mbind option_bind] in Hl. destruct (act cf a s0) as [s1|] eqn:Ea.
    - eapply rtc_l; [by exists a|eapply IH; [reflexivity|exact Hl]].
    - exfalso. clear -Hl. induction l as [|b l IH]; [done|]. apply IH. exact Hl. }
  intros Hl. eapply Hg; [reflexivity|exact Hl].
Qed.
End invariants.

(** ** Runs *)

(** [DefaultAsyncSTTConfig], with every provider known. *)
Definition DefaultAsyncSTTConfig : AsyncSTTConfig :=
  mkAsyncSTTConfig 3 3 30000000000 1000 86400000000000 true (fun _ => true).

#[local] Existing Instance list_range.

Definition at_time (now : Z) : Input := mkInput now (inl "no speech") false 0.

Definition submit (id : string) : action := Submit 0 id "/rec/a.wav" "call" "session" "google" "en-US" 2 None.

(** A submission that has sent its job, and a request for statistics. *)
Definition stats_meets_submission : list action := [submit "j1"; CallMoves 0 (at_time 1); AskStats; CallMoves 1 (at_time 2)].

(** A job in the channel; a purge looks at it, a worker takes it. *)
Definition purge_meets_worker : list action :=
  [submit "j1"; CallMoves 0 (at_time 1); CallMoves 0 (at_time 2); PurgeQueue; CallMoves 1 (at_time 3); CallMoves 1 (at_time 4);
   CallMoves 1 (at_time 5); CallMoves 1 (at_time 6); WorkerMoves 0 (at_time 7)].

(** A worker that has just taken a job, and a shutdown. *)
Definition stop_meets_worker : list action :=
  [submit "j1"; CallMoves 0 (at_time 1); CallMoves 0 (at_time 2); WorkerMoves 0 (at_time 3); WorkerMoves 0 (at_time 4);
   WorkerMoves 0 (at_time 5); Stop; CallMoves 1 (at_time 6)].

(** C38: The job queue can stop for ever, in three ways, with the default
    configuration.  A request for statistics takes the two locks in the other order
    than a submission: when each has its first one, neither call returns and no job
    is queued, taken or updated any more.  A purge that saw a job which a worker
    then took waits for the next one with the lock that every submission needs.  A
    shutdown holds the lock that a worker needs to begin a job it has taken, and
    waits for that worker. *)
Theorem job_queue_deadlocks :
  (exists sy k k' job, reachable DefaultAsyncSTTConfig sy /\
     forall sy', rtc (sys_step DefaultAsyncSTTConfig) sy sy' ->
       sy_calls sy' !! k = Some (EnqStats (Some job)) /\ sy_calls sy' !! k' = Some (StatRead ForCaller) /\
       sh_mutex (sy_shared sy') = true) /\
  (exists sy k m before id, reachable DefaultAsyncSTTConfig sy /\
     forall sy', rtc (sys_step DefaultAsyncSTTConfig) sy sy' ->
       sy_calls sy' !! k = Some (PurgeReceive before) /\ sy_workers sy' !! m = Some (DeqMark id) /\ sh_mutex (sy_shared sy') = true) /\
  (exists sy k m id started, reachable DefaultAsyncSTTConfig sy /\
     forall sy', rtc (sys_step DefaultAsyncSTTConfig) sy sy' ->
       sy_calls sy' !! k = Some StopWait /\ sy_workers sy' !! m = Some (ExecService id started)).
Proof.
  split; [|split].
  - destruct (run DefaultAsyncSTTConfig stats_meets_submission (started_system DefaultAsyncSTTConfig)) as [sy|] eqn:E; [|by vm_compute in E].
    pose proof (run_reachable _ _ _ E) as Hr.
    assert (Hk : exists job, sy_calls sy !! 0%nat = Some (EnqStats (Some job)) /\ sy_calls sy !! 1%nat = Some (StatRead ForCaller)).
    { vm_compute in E. injection E as <-. eexists. split; reflexivity. }
    destruct Hk as (job & H1 & H2). exists sy, 0%nat, 1%nat, job. split; [done|]. by apply stats_against_enqueue.
  - destruct (run DefaultAsyncSTTConfig purge_meets_worker (started_system DefaultAsyncSTTConfig)) as [sy|] eqn:E; [|by vm_compute in E].
    pose proof (run_reachable _ _ _ E) as Hr.
    assert (Hk : exists before, sy_calls sy !! 1%nat = Some (PurgeReceive before) /\ sy_workers sy !! 0%nat = Some (DeqMark "j1") /\
      sh_queue (sy_shared sy) = [] /\ sh_closed (sy_shared sy) = false).
    { vm_compute in E. injection E as <-. eexists. repeat split; reflexivity. }
    destruct Hk as (before & H1 & H2 & H3 & H4). exists sy, 1%nat, 0%nat, before, "j1". split; [done|]. by apply purge_against_worker.
  - destruct (run DefaultAsyncSTTConfig stop_meets_worker (started_system DefaultAsyncSTTConfig)) as [sy|] eqn:E; [|by vm_compute in E].
    pose proof (run_reachable _ _ _ E) as Hr.
    assert (Hk : sy_calls sy !! 1%nat = Some StopWait /\ sy_workers sy !! 0%nat = Some (ExecService "j1" 5)).
    { vm_compute in E. injection E as <-. split; reflexivity. }
    destruct Hk as (H1 & H2). exists sy, 1%nat, 0%nat, "j1", 5. split; [done|]. by apply stop_against_worker.
Qed.

Lemma default_started_quiet : forallb quiet (threads (started_system DefaultAsyncSTTConfig)) = true.
Proof. reflexivity. Qed.

(** One job that fails three times and then succeeds, on one worker. *)
Definition one_result : TranscriptionResult := mkTranscriptionResult "hello" f64_zero "en-US" 1000000000 1 [] "google" "".

Definition attempt (now : Z) (outcome : string + TranscriptionResult) : list action :=
  map (WorkerMoves 0) [at_time now; at_time now; at_time now; at_time now; mkInput now outcome false 0; at_time now; at_time now].

Definition one_retried_job : list action :=
  [submit "j1"; CallMoves 0 (at_time 1); CallMoves 0 (at_time 2)] ++ attempt 3 (inl "busy") ++
  [CallMoves 1 (at_time 40000000000); CallMoves 1 (at_time 40000000001)] ++ attempt 40000000002 (inr one_result).

Lemma jobs_accounted_for_witness :
  exists sy job, run DefaultAsyncSTTConfig one_retried_job (started_system DefaultAsyncSTTConfig) = Some sy /\
    sh_heap (sy_shared sy) !! "j1" = Some job /\ jb_Status job = StatusCompleted /\ jb_RetryCount job = 1 /\
    sh_notified (sy_shared sy) = ["j1"] /\ ("j1" ∈ in_flight (sy_shared sy) (threads sy) <-> settled job = false).
Proof.
  destruct (run DefaultAsyncSTTConfig one_retried_job (started_system DefaultAsyncSTTConfig)) as [sy|] eqn:E; [|by vm_compute in E].
  destruct (jobs_accounted_for DefaultAsyncSTTConfig sy ltac:(cbn; lia) (run_reachable _ _ _ E)) as (_ & _ & Hj).
  assert (Hk : exists job, sh_heap (sy_shared sy) !! "j1" = Some job /\ jb_Status job = StatusCompleted /\ jb_RetryCount job = 1 /\
    sh_notified (sy_shared sy) = ["j1"]).
  { vm_compute in E. injection E as <-. eexists. repeat split; reflexivity. }
  destruct Hk as (job & H1 & H2 & H3 & H4). exists sy, job. destruct (Hj "j1" job H1) as (Hf & _).
  exact (conj eq_refl (conj H1 (conj H2 (conj H3 (conj H4 Hf))))).
Defined.


(** ** Further behaviour *)

Definition final (cf : AsyncSTTConfig) (l : list action) {A} (f : System -> A) : option A :=
  f <$> run cf l (started_system cf).

(** A job that did not fit has failed without a time of failure, so no cleanup ever
    removes it, and the callbacks never hear of it. *)
Definition small_queue : AsyncSTTConfig := mkAsyncSTTConfig 1 3 30000000000 1 86400000000000 true (fun _ => true).

Example full_queue_job_kept :
  final small_queue
    ([submit "j1"; CallMoves 0 (at_time 1); CallMoves 0 (at_time 2); submit "j2"; CallMoves 1 (at_time 3); Tick 1] ++
     map (WorkerMoves 1) [at_time (10 ^ 18); at_time (10 ^ 18); at_time (10 ^ 18); at_time (10 ^ 18)])
    (fun sy => (sy_calls sy !! 1%nat, jb_Status <$> sh_heap (sy_shared sy) !! "j2", bool_decide ("j2" ∈ sh_jobs (sy_shared sy)),
                sh_notified (sy_shared sy), sy_workers sy !! 1%nat)) =
  Some (Some (Returned QueueFull), Some StatusFailed, true, [], Some (Idle CleanupLoop)).
Proof. vm_compute. reflexivity. Qed.

(** A retry that comes after the shutdown sends on a closed channel. *)
Example retry_after_stop_panics :
  final small_queue
    ([submit "j1"; CallMoves 0 (at_time 1); CallMoves 0 (at_time 2)] ++ attempt 3 (inl "busy") ++
     [Stop; CallMoves 2 (at_time 4); WorkerMoves 0 (at_time 5); WorkerMoves 1 (at_time 5); WorkerMoves 2 (at_time 5);
      CallMoves 2 (at_time 6); CallMoves 1 (at_time 40000000000)])
    (fun sy => (sy_calls sy !! 1%nat, sy_calls sy !! 2%nat)) =
  Some (Some (Returned Panicked), Some (Returned Stopped)).
Proof. vm_compute. reflexivity. Qed.

(** A purge reports how many jobs were ever queued, retries included: here two,
    with an empty queue and one job, which was completed. *)
Example purge_reports_every_enqueue :
  final DefaultAsyncSTTConfig
    (one_retried_job ++ [PurgeQueue] ++ map (CallMoves 2) (replicate 6 (at_time 50000000000)))
    (fun sy => sy_calls sy !! 2%nat) = Some (Some (Returned (Purged 2))).
Proof. vm_compute. reflexivity. Qed.

(** Jobs are taken in the order of their submission, whatever their priority. *)
Example priority_ignored :
  final DefaultAsyncSTTConfig
    [Submit 0 "low" "/a" "call" "session" "google" "en-US" 3 None; Submit 0 "high" "/b" "call" "session" "google" "en-US" 1 None;
     CallMoves 0 (at_time 1); CallMoves 0 (at_time 2); CallMoves 1 (at_time 3); CallMoves 1 (at_time 4); WorkerMoves 0 (at_time 5)]
    (fun sy => (sy_workers sy !! 0%nat, sh_queue (sy_shared sy))) = Some (Some (DeqMark "low"), ["high"]).
Proof. vm_compute. reflexivity. Qed.
