(* ===== verification/SttProviders.v ===== *)
(** * The providers of speech recognition

    The manager that picks a provider for the audio of a stream and falls back to
    others ([stt/provider.go]), the routing of calls by the language that was
    detected ([stt/language_listener.go]) and its use by the SIP handler
    ([routeSTTCallThroughManager] and [ClearSTTRouting] of [sip/handler.go]).  The
    providers themselves are services: what one does with the audio it is given,
    how much of it it reads and whether it fails, is an argument. *)

From S2P Require Import Prelude GoStrings GoText.
From Stdlib Require Import Ascii String.
#[local] Open Scope string_scope.
#[local] Open Scope list_scope.
#[local] Open Scope nat_scope.

(** ** The manager *)

Record ProviderManager (Provider : Type) := mkProviderManager {
  pm_providers : gmap string Provider;
  pm_defaultProvider : string;
  pm_fallbackOrder : list string;
  pm_enableFallback : bool;
  pm_languageRouting : gmap string string;
  pm_callRouting : gmap string string
}.
Arguments mkProviderManager {Provider}.
Arguments pm_providers {Provider}.
Arguments pm_defaultProvider {Provider}.
Arguments pm_fallbackOrder {Provider}.
Arguments pm_enableFallback {Provider}.
Arguments pm_languageRouting {Provider}.
Arguments pm_callRouting {Provider}.

(** The audio of a stream, how much of it has been read, and whether it can be read
    again. *)
Record Stream := mkStream { sr_audio : list Z; sr_pos : nat; sr_seekable : bool }.

Inductive StreamResult (Err : Type) := Transcribed (vendor : string) | Failed (e : Err) | NoProviderAvailable.
Arguments Transcribed {Err}.
Arguments Failed {Err}.
Arguments NoProviderAvailable {Err}.

Section manager.
Context `{Unicode} {Provider Err : Type}.
#[local] Notation PM := (ProviderManager Provider).

Definition with_calls (m : PM) (calls : gmap string string) : PM :=
  mkProviderManager (pm_providers m) (pm_defaultProvider m) (pm_fallbackOrder m) (pm_enableFallback m)
    (pm_languageRouting m) calls.

Definition NewProviderManager (defaultProvider : string) (fallbackOrder : list string) : PM :=
  mkProviderManager ∅ defaultProvider (filter (fun v => v <> "") (map trim_space fallbackOrder)) true ∅ ∅.

Definition SetEnableFallback (enable : bool) (m : PM) : PM :=
  mkProviderManager (pm_providers m) (pm_defaultProvider m) (pm_fallbackOrder m) enable
    (pm_languageRouting m) (pm_callRouting m).

(** [initialized] is whether the provider could be initialized. *)
Definition RegisterProvider (initialized : bool) (name : string) (p : Provider) (m : PM) : PM :=
  if initialized then
    mkProviderManager (<[name := p]> (pm_providers m)) (pm_defaultProvider m) (pm_fallbackOrder m)
      (pm_enableFallback m) (pm_languageRouting m) (pm_callRouting m)
  else m.

Definition add_language (routing : gmap string string) (entry : string * string) : gmap string string :=
  let normalized := to_lower (trim_space entry.1) in
  if String.eqb normalized "" || String.eqb entry.2 "" then routing
  else <[normalized := trim_space entry.2]> routing.

(** The entries come in the order of the range statement. *)
Definition SetLanguageRouting (routing : list (string * string)) (m : PM) : PM :=
  mkProviderManager (pm_providers m) (pm_defaultProvider m) (pm_fallbackOrder m) (pm_enableFallback m)
    (foldl add_language ∅ routing) (pm_callRouting m).

Definition RouteCallByLanguage (callUUID language : string) (m : PM) : string * PM :=
  let normalized := to_lower (trim_space language) in
  if String.eqb normalized "" then ("", m) else
  match pm_languageRouting m !! normalized with
  | None => ("", m)
  | Some provider =>
    match pm_callRouting m !! callUUID with
    | Some current => if String.eqb current provider then (provider, m)
                      else (provider, with_calls m (<[callUUID := provider]> (pm_callRouting m)))
    | None => (provider, with_calls m (<[callUUID := provider]> (pm_callRouting m)))
    end
  end.

Definition RouteCallToProvider (callUUID provider : string) (m : PM) : PM :=
  if String.eqb provider "" then m else with_calls m (<[callUUID := provider]> (pm_callRouting m)).

Definition ClearCallRoute (callUUID : string) (m : PM) : PM :=
  with_calls m (delete callUUID (pm_callRouting m)).

Definition resolveProvider (callUUID requested : string) (m : PM) : string * PM :=
  let requested := trim_space requested in
  if negb (String.eqb requested "") && negb (equal_fold requested "auto")
  then (requested, RouteCallToProvider callUUID requested m)
  else match pm_callRouting m !! callUUID with
       | Some provider => if String.eqb provider "" then (pm_defaultProvider m, m) else (provider, m)
       | None => (pm_defaultProvider m, m)
       end.

Definition SelectProviderForCall := resolveProvider.

Definition GetProvider (name : string) (m : PM) : option Provider := pm_providers m !! name.

(** [add] of [buildAttemptOrder], those seen being those of the order. *)
Definition add_attempt (m : PM) (requireRegistered : bool) (order : list string) (v : string) : list string :=
  let candidate := trim_space v in
  if String.eqb candidate "" then order
  else if requireRegistered && negb (bool_decide (is_Some (pm_providers m !! candidate))) then order
  else if bool_decide (candidate ∈ order) then order
  else order ++ [candidate].

Definition buildAttemptOrder (requested : string) (m : PM) : list string :=
  let order := add_attempt m false [] requested in
  if pm_enableFallback m then
    foldl (add_attempt m true) (add_attempt m true order (pm_defaultProvider m)) (pm_fallbackOrder m)
  else if String.eqb requested "" then add_attempt m true order (pm_defaultProvider m)
  else order.

(** What a provider does with the audio it can still read, at an attempt: how much it
    reads, and its error.  [seek] is the error of a rewind, [ctx] that of the
    context, at an attempt. *)
Context (StreamToText : Provider -> nat -> list Z -> nat * option Err).
Context (seek ctx : nat -> option Err).

(** The stream for an attempt: rewound for all but the first.  Otherwise the loop ends,
    with an error if it was the rewind that failed. *)
Definition rewind (idx : nat) (s : Stream) : Stream + option Err :=
  if (0 <? idx) then
    if negb (sr_seekable s) then inr None
    else match seek idx with
         | Some e => inr (Some e)
         | None => inl (mkStream (sr_audio s) 0 (sr_seekable s))
         end
  else inl s.

Definition after_loop (lastErr : option Err) : StreamResult Err :=
  match lastErr with Some e => Failed e | None => NoProviderAvailable end.

(** The loop over the attempts: the audio each provider was given, and the result. *)
Fixpoint try_each (m : PM) (idx : nat) (attempts : list string) (lastErr : option Err) (s : Stream) :
    list (string * list Z) * StreamResult Err :=
  match attempts with
  | [] => ([], after_loop lastErr)
  | vendor :: attempts =>
    match GetProvider vendor m with
    | None => try_each m (S idx) attempts lastErr s
    | Some provider =>
      match rewind idx s with
      | inr err => ([], after_loop (match err with Some e => Some e | None => lastErr end))
      | inl s =>
        match ctx idx with
        | Some e => ([], Failed e)
        | None =>
          let given := drop (sr_pos s) (sr_audio s) in
          match StreamToText provider idx given with
          | (_, None) => ([(vendor, given)], Transcribed vendor)
          | (n, Some e) =>
            let '(log, result) := try_each m (S idx) attempts (Some e) (mkStream (sr_audio s) (sr_pos s + n) (sr_seekable s)) in
            ((vendor, given) :: log, result)
          end
        end
      end
    end
  end.

Definition StreamToProvider (providerName : string) (s : Stream) (callUUID : string) (m : PM) :
    list (string * list Z) * StreamResult Err * PM :=
  let '(resolved, m) := resolveProvider callUUID providerName m in
  let attempts := buildAttemptOrder resolved m in
  if (List.length attempts =? 0) then ([], NoProviderAvailable, m)
  else (try_each m 0 attempts None s, m).

(** ** Its use by the handler *)

Definition routeSTTCallThroughManager (vendor : string) (s : Stream) (callUUID : string) (m : PM) :
    list (string * list Z) * StreamResult Err * PM :=
  let '(resolved, m) := SelectProviderForCall callUUID vendor m in
  StreamToProvider resolved s callUUID m.

Definition ClearSTTRouting := ClearCallRoute.

(** The name under which a stream of a recording is transcribed. *)
Definition stream_call_id (callID streamID : string) : string := callID +:+ "_" +:+ streamID.
End manager.

(** ** The language of a transcription *)

(** The values of metadata that may say it: texts, values with a method [String],
    maps, and others, which [fmt] prints. *)
Inductive LangValue :=
| LText (s : string)
| LStringer (s : string)
| LMap (entries : list (string * LangValue))
| LOther (printed : string).

(** [fmt.Sprintf] of a value with the verb [%v]; the entries of maps come sorted. *)
Fixpoint sprint (v : LangValue) : string :=
  match v with
  | LText s | LStringer s | LOther s => s
  | LMap entries => "map[" +:+ join " " (map (fun e => e.1 +:+ ":" +:+ sprint e.2) entries) +:+ "]"
  end.

Definition normalizeLanguage (v : LangValue) : string := trim_space (sprint v).

Definition lookup_key (k : string) (l : list (string * LangValue)) : option LangValue :=
  snd <$> find (fun e => String.eqb e.1 k) l.

Fixpoint first_language (keys : list string) (metadata : list (string * LangValue)) : string :=
  match keys with
  | [] => ""
  | key :: keys =>
    match lookup_key key metadata with
    | Some value => let lang := normalizeLanguage value in
                    if String.eqb lang "" then first_language keys metadata else lang
    | None => first_language keys metadata
    end
  end.

Definition extractLanguage (metadata : list (string * LangValue)) : string :=
  let lang := first_language ["detected_language"; "smoothed_language"; "language"; "optimal_language"] metadata in
  if negb (String.eqb lang "") then lang else
  match lookup_key "language" metadata with
  | Some (LMap nested) => match lookup_key "code" nested with Some code => normalizeLanguage code | None => "" end
  | _ => ""
  end.

Definition OnTranscription `{Unicode} {Provider} (callUUID : string) (metadata : option (list (string * LangValue)))
    (m : ProviderManager Provider) : ProviderManager Provider :=
  match metadata with
  | None => m
  | Some metadata =>
    let language := extractLanguage metadata in
    if String.eqb language "" then m else snd (RouteCallByLanguage callUUID language m)
  end.

(** ** The order of the attempts *)

Section order.
Context {Provider : Type}.
Implicit Types m : ProviderManager Provider.

Lemma add_attempt_elem m req order v x :
  x ∈ add_attempt m req order v <->
  x ∈ order \/ (x = trim_space v /\ x <> "" /\ (req = true -> is_Some (pm_providers m !! x))).
Proof.
  unfold add_attempt. destruct (String.eqb_spec (trim_space v) ""); [naive_solver|].
  destruct req; simpl; repeat case_bool_decide; simpl; rewrite ?elem_of_app, ?list_elem_of_singleton; naive_solver.
Qed.

Lemma add_attempts_elem m l order x :
  x ∈ foldl (add_attempt m true) order l <->
  x ∈ order \/ (x ∈ map trim_space l /\ x <> "" /\ is_Some (pm_providers m !! x)).
Proof.
  revert order. induction l as [|v l IH]; intros order; simpl; [set_solver|].
  rewrite IH, add_attempt_elem, elem_of_cons. naive_solver.
Qed.

Lemma add_attempt_nodup m req order v : NoDup order -> NoDup (add_attempt m req order v).
Proof.
  intros Hn. unfold add_attempt. destruct (String.eqb _ _); [done|]. destruct (req && _); [done|]. case_bool_decide; [done|].
  apply NoDup_app. split_and!; [done| |apply NoDup_singleton]. set_solver.
Qed.

Lemma add_attempt_prefix m req order v : order `prefix_of` add_attempt m req order v.
Proof. unfold add_attempt. repeat case_match; try done. by apply prefix_app_r. Qed.

Lemma add_attempts_grow m l order :
  NoDup order -> NoDup (foldl (add_attempt m true) order l) /\ order `prefix_of` foldl (add_attempt m true) order l.
Proof.
  revert order. induction l as [|v l IH]; intros order Hn; simpl; [done|].
  destruct (IH _ (add_attempt_nodup m true order v Hn)) as [? ?]. split; [done|].
  etrans; [apply add_attempt_prefix|done].
Qed.

(** The attempts: the provider asked for, registered or not, then, when falling back
    is enabled, the default and the others of the configuration that are
    registered; each once. *)
Lemma attempt_order requested m :
  NoDup (buildAttemptOrder requested m) /\
  (trim_space requested <> "" -> head (buildAttemptOrder requested m) = Some (trim_space requested)) /\
  (forall v, v ∈ buildAttemptOrder requested m <->
     v <> "" /\ (v = trim_space requested \/
       is_Some (pm_providers m !! v) /\
       (if pm_enableFallback m
        then v = trim_space (pm_defaultProvider m) \/ v ∈ map trim_space (pm_fallbackOrder m)
        else requested = "" /\ v = trim_space (pm_defaultProvider m)))).
Proof.
  unfold buildAttemptOrder. set (o := add_attempt m false [] requested).
  assert (Hn : NoDup o) by (apply add_attempt_nodup; constructor).
  assert (Hh : trim_space requested <> "" -> o = [trim_space requested]).
  { intros Hr. unfold o, add_attempt. by destruct (String.eqb_spec (trim_space requested) ""). }
  set (o2 := add_attempt m true o (pm_defaultProvider m)).
  assert (Hn2 : NoDup o2) by by apply add_attempt_nodup.
  destruct (add_attempts_grow m (pm_fallbackOrder m) o2 Hn2) as [Hn3 Hp3].
  assert (Hpre : forall l, o `prefix_of` l -> trim_space requested <> "" -> head l = Some (trim_space requested)).
  { intros l [k ->] Hr. by rewrite Hh. }
  pose proof (add_attempt_prefix m true o (pm_defaultProvider m)) as Hp2. fold o2 in Hp2.
  assert (He : forall v, v ∈ o <-> v <> "" /\ v = trim_space requested).
  { intros v. unfold o. rewrite add_attempt_elem. set_solver. }
  assert (He2 : forall v, v ∈ o2 <-> v ∈ o \/ (v = trim_space (pm_defaultProvider m) /\ v <> "" /\ is_Some (pm_providers m !! v))).
  { intros v. unfold o2. rewrite add_attempt_elem. naive_solver. }
  destruct (pm_enableFallback m).
  - split_and!; [done|apply Hpre; by etrans|]. intros v. rewrite add_attempts_elem, He2, He. naive_solver.
  - destruct (String.eqb_spec requested "").
    + split_and!; [done|by apply Hpre|]. intros v. rewrite He2, He. naive_solver.
    + split_and!; [done|by apply Hpre|]. intros v. rewrite He. naive_solver.
Qed.
End order.

(** ** Falling back *)

Section fallback.
Context {Provider Err : Type}.
Context (StreamToText : Provider -> nat -> list Z -> nat * option Err) (seek ctx : nat -> option Err).
Implicit Types m : ProviderManager Provider.
#[local] Notation try_each := (try_each StreamToText seek ctx).

(** The attempt at a place of the order, the first of which has number [idx], would
    transcribe the audio. *)
Definition transcribes m (audio : list Z) (idx : nat) (attempts : list string) (i : nat) : Prop :=
  exists v p n, attempts !! i = Some v /\ pm_providers m !! v = Some p /\ StreamToText p (idx + i) audio = (n, None).

Lemma transcribes_cons m audio idx v attempts i :
  transcribes m audio idx (v :: attempts) (S i) <-> transcribes m audio (S idx) attempts i.
Proof. unfold transcribes. by rewrite Nat.add_succ_r. Qed.

(** Where the stream stands at an attempt: at its start, or where it can be rewound. *)
Definition unread (idx : nat) (s : Stream) : Prop := idx = 0 -> sr_pos s = 0.

Lemma rewind_start idx s s' : unread idx s -> rewind seek idx s = inl s' ->
  sr_audio s' = sr_audio s /\ sr_pos s' = 0 /\ sr_seekable s' = sr_seekable s.
Proof.
  unfold rewind. intros Hs Hr. destruct (Nat.ltb_spec 0 idx); repeat case_match; simplify_eq/=; split_and!; try done.
  apply Hs. lia.
Qed.

Lemma try_each_whole m idx attempts lastErr s :
  unread idx s -> Forall (fun e => e.2 = sr_audio s) (try_each m idx attempts lastErr s).1.
Proof.
  revert idx lastErr s. induction attempts as [|v attempts IH]; intros idx lastErr s Hs; simpl; [done|].
  destruct (GetProvider v m) as [p|]; [|by apply IH].
  destruct (rewind seek idx s) as [s'|] eqn:Er; [|done]. apply rewind_start in Er as (Ha & Hp & _); [|done].
  destruct (ctx idx); [done|]. rewrite Hp, Ha, drop_0.
  destruct (StreamToText p idx (sr_audio s)) as [n [e|]]; [|by repeat constructor].
  pose proof (IH (S idx) (Some e) (mkStream (sr_audio s) (0 + n) (sr_seekable s'))) as IH'.
  destruct (try_each m (S idx) attempts (Some e) _) as [log result]. constructor; [done|]. by apply IH'.
Qed.

Lemma try_each_log m idx attempts lastErr s :
  (try_each m idx attempts lastErr s).1.*1 `prefix_of`
  filter (fun v => is_Some (pm_providers m !! v)) attempts.
Proof.
  revert idx lastErr s. induction attempts as [|v attempts IH]; intros idx lastErr s; simpl; [done|].
  unfold GetProvider. rewrite filter_cons. destruct (pm_providers m !! v) as [p|] eqn:Ep.
  - rewrite decide_True by done. destruct (rewind seek idx s) as [s'|]; [|apply prefix_nil].
    destruct (ctx idx); [apply prefix_nil|].
    destruct (StreamToText p idx _) as [n [e|]]; simpl; [|apply prefix_cons, prefix_nil].
    specialize (IH (S idx) (Some e) (mkStream (sr_audio s') (sr_pos s' + n) (sr_seekable s'))).
    destruct (try_each m (S idx) attempts (Some e) _). by apply prefix_cons.
  - rewrite decide_False by (intros [? ?]; congruence). apply IH.
Qed.

Lemma try_each_transcribed m idx attempts lastErr s v :
  unread idx s -> (try_each m idx attempts lastErr s).2 = Transcribed v ->
  last (try_each m idx attempts lastErr s).1.*1 = Some v /\
  exists i, attempts !! i = Some v /\ transcribes m (sr_audio s) idx attempts i.
Proof.
  revert idx lastErr s. induction attempts as [|w attempts IH]; intros idx lastErr s Hs Hr; simpl in *; [by destruct lastErr|].
  destruct (GetProvider w m) as [p|] eqn:Ep.
  - destruct (rewind seek idx s) as [s'|[]] eqn:Er; [|done|by destruct lastErr].
    apply rewind_start in Er as (Ha & Hp & _); [|done]. destruct (ctx idx); [done|].
    rewrite Hp, Ha, drop_0 in *. destruct (StreamToText p idx (sr_audio s)) as [n [e|]] eqn:Et.
    + specialize (IH (S idx) (Some e) (mkStream (sr_audio s) (0 + n) (sr_seekable s'))).
      destruct (try_each m (S idx) attempts (Some e) _) as [log result]. simpl in *.
      destruct IH as [Hl (i & Hi & Ht)]; [done|done|]. split; [by destruct log|].
      exists (S i). split; [done|]. by apply transcribes_cons.
    + simpl in *. simplify_eq. split; [done|]. exists 0. split; [done|]. exists v, p, n. by rewrite Nat.add_0_r.
  - destruct (IH (S idx) lastErr s) as [Hl (i & Hi & Ht)]; [done|done|]. split; [done|].
    exists (S i). split; [done|]. by apply transcribes_cons.
Qed.

(** With a stream that can be read again, the first provider that can transcribe it
    does. *)
Lemma try_each_first m idx attempts lastErr s i :
  unread idx s -> sr_seekable s = true -> (forall k, seek k = None) -> (forall k, ctx k = None) ->
  transcribes m (sr_audio s) idx attempts i ->
  exists j v, j <= i /\ (try_each m idx attempts lastErr s).2 = Transcribed v /\ attempts !! j = Some v /\
    transcribes m (sr_audio s) idx attempts j /\
    forall k, k < j -> ~ transcribes m (sr_audio s) idx attempts k.
Proof.
  intros Hs Hk Hseek Hctx. revert idx lastErr s i Hs Hk.
  induction attempts as [|w attempts IH]; intros idx lastErr s i Hs Hk Ht; [by destruct Ht as (? & ? & ? & ? & _)|].
  assert (Hskip : ~ transcribes m (sr_audio s) idx (w :: attempts) 0 ->
    (forall lastErr' s', sr_audio s' = sr_audio s -> sr_seekable s' = true ->
       (try_each m idx (w :: attempts) lastErr s).2 = (try_each m (S idx) attempts lastErr' s').2 ->
       exists j v, j <= i /\ (try_each m idx (w :: attempts) lastErr s).2 = Transcribed v /\ (w :: attempts) !! j = Some v /\
         transcribes m (sr_audio s) idx (w :: attempts) j /\
         forall k, k < j -> ~ transcribes m (sr_audio s) idx (w :: attempts) k)).
  { intros H0 lastErr' s' Ha Hk' Heq. destruct i as [|i]; [done|]. rewrite Heq, <- Ha in *.
    apply transcribes_cons in Ht. destruct (IH (S idx) lastErr' s' i) as (j & v & Hj & Hr & Hv & Htj & Hm); [done..|].
    exists (S j), v. split_and!; [lia|done|done|by apply transcribes_cons|].
    intros [|k] Hkj; [done|]. rewrite transcribes_cons. apply Hm. lia. }
  simpl in Hskip |- *. unfold GetProvider in *. destruct (pm_providers m !! w) as [p|] eqn:Ep.
  - destruct (rewind seek idx s) as [s'|] eqn:Er.
    2: { unfold rewind in Er. rewrite Hk, Hseek in Er. by destruct (0 <? idx). }
    apply rewind_start in Er as (Ha & Hp & Hs'); [|done]. rewrite Hctx, Hp, Ha, drop_0 in *.
    destruct (StreamToText p idx (sr_audio s)) as [n [e|]] eqn:Et.
    + apply (Hskip ltac:(intros (v & p' & n' & Hv & Hp' & Ht'); rewrite Nat.add_0_r in Ht'; simplify_eq/=; congruence)
               (Some e) (mkStream (sr_audio s) (0 + n) (sr_seekable s'))); [done|simpl; congruence|].
      by destruct (try_each m (S idx) attempts (Some e) _).
    + exists 0, w. split_and!; [lia|done|done| |lia]. exists w, p, n. by rewrite Nat.add_0_r.
  - apply (Hskip ltac:(intros (v & p' & n' & Hv & Hp' & Ht'); simplify_eq/=; congruence) lastErr s); done.
Qed.

(** Otherwise only the first provider is tried. *)
Lemma try_each_once m attempts lastErr s idx :
  sr_seekable s = false -> 0 < idx -> try_each m idx attempts lastErr s = ([], after_loop lastErr).
Proof.
  intros Hs. revert idx. induction attempts as [|w attempts IH]; intros idx Hi; simpl; [done|].
  destruct (GetProvider w m); [|apply IH; lia]. unfold rewind.
  destruct (Nat.ltb_spec 0 idx); [|lia]. by rewrite Hs.
Qed.
End fallback.

(** ** What the manager promises *)

Section promises.
Context `{Unicode} {Provider Err : Type}.
Context (StreamToText : Provider -> nat -> list Z -> nat * option Err) (seek ctx : nat -> option Err).
Implicit Types m : ProviderManager Provider.

Lemma stream_loop name s call m resolved m' :
  resolveProvider call name m = (resolved, m') ->
  StreamToProvider StreamToText seek ctx name s call m =
  (try_each StreamToText seek ctx m' 0 (buildAttemptOrder resolved m') None s, m').
Proof. unfold StreamToProvider. intros ->. by destruct (buildAttemptOrder resolved m'). Qed.

(** C28: A stream that has not been read is given, whole, to one registered provider
    after another, in the order of the attempts, until one transcribes it: the
    provider asked for (or routed to, or the default), then the default and the
    configured ones that are registered.  When transcribing succeeds it is by the
    last one tried.  A stream that can be read again is transcribed whenever any
    of these providers can transcribe it, by the first that can.  Any other is
    given to the first provider of the order and to none else, so that there is no
    falling back on live audio. *)
Theorem provider_fallback name s call m resolved m' log result m'' :
  resolveProvider call name m = (resolved, m') ->
  StreamToProvider StreamToText seek ctx name s call m = (log, result, m'') ->
  sr_pos s = 0 ->
  let order := buildAttemptOrder resolved m' in
  Forall (fun e => e.2 = sr_audio s) log /\
  log.*1 `prefix_of` filter (fun v => is_Some (pm_providers m' !! v)) order /\
  (forall v, result = Transcribed v ->
     last log.*1 = Some v /\ exists i, order !! i = Some v /\ transcribes StreamToText m' (sr_audio s) 0 order i) /\
  (sr_seekable s = true -> (forall k, seek k = None) -> (forall k, ctx k = None) ->
   forall i, transcribes StreamToText m' (sr_audio s) 0 order i ->
   exists j v, j <= i /\ result = Transcribed v /\ order !! j = Some v /\
     transcribes StreamToText m' (sr_audio s) 0 order j /\
     forall k, k < j -> ~ transcribes StreamToText m' (sr_audio s) 0 order k) /\
  (sr_seekable s = false -> forall v, v ∈ log.*1 -> head order = Some v) /\
  (forall v, v ∈ order <->
     v <> "" /\ (v = trim_space resolved \/
       is_Some (pm_providers m' !! v) /\
       (if pm_enableFallback m'
        then v = trim_space (pm_defaultProvider m') \/ v ∈ map trim_space (pm_fallbackOrder m')
        else resolved = "" /\ v = trim_space (pm_defaultProvider m')))).
Proof.
  intros Hres Hst Hpos order. rewrite (stream_loop _ _ _ _ _ _ Hres) in Hst. injection Hst as Hl <-. fold order in Hl.
  assert (Hu : unread 0 s) by by intros _.
  pose proof (f_equal fst Hl) as Hlog. pose proof (f_equal snd Hl) as Hr. simpl in Hlog, Hr. subst log result.
  split_and!.
  - by apply try_each_whole.
  - apply try_each_log.
  - intros v Hv. by apply try_each_transcribed.
  - intros Hk Hs Hc i Hi. by apply try_each_first.
  - intros Hk v Hv. clear Hu. destruct order as [|w l]; [by apply elem_of_nil in Hv|]. simpl in Hv |- *.
    destruct (GetProvider w m'); [|rewrite try_each_once in Hv by (done || lia); by apply elem_of_nil in Hv].
    destruct (ctx 0); [by apply elem_of_nil in Hv|]. destruct (StreamToText _ _ _) as [n [e|]].
    + rewrite try_each_once in Hv by (done || lia). by apply list_elem_of_singleton in Hv as ->.
    + by apply list_elem_of_singleton in Hv as ->.
  - apply attempt_order.
Qed.

(** ** The routes of calls *)

Lemma resolve_routed call name m :
  trim_space name <> "" -> equal_fold (trim_space name) "auto" = false ->
  resolveProvider call name m = (trim_space name, with_calls m (<[call := trim_space name]> (pm_callRouting m))).
Proof.
  intros Hn Ha. unfold resolveProvider, RouteCallToProvider. rewrite Ha.
  by destruct (String.eqb_spec (trim_space name) "").
Qed.

(** A language that has a provider routes the call to it until it is cleared. *)
Lemma language_routes call language provider m :
  to_lower (trim_space language) <> "" -> provider <> "" ->
  pm_languageRouting m !! to_lower (trim_space language) = Some provider ->
  let m' := snd (RouteCallByLanguage call language m) in
  fst (resolveProvider call "" m') = provider /\
  fst (resolveProvider call "" (ClearCallRoute call m')) = pm_defaultProvider m.
Proof.
  intros Hl Hp Hr. unfold RouteCallByLanguage. destruct (String.eqb_spec (to_lower (trim_space language)) ""); [done|].
  rewrite Hr. unfold resolveProvider. simpl.
  destruct (pm_callRouting m !! call) as [current|] eqn:Ec; [destruct (String.eqb_spec current provider)|]; simpl;
    rewrite ?lookup_insert_eq, ?lookup_delete_eq, ?Ec; simplify_eq; by destruct (String.eqb_spec provider "").
Qed.

Lemma stream_call_id_neq callID streamID : stream_call_id callID streamID <> callID.
Proof.
  intros E. apply (f_equal String.length) in E. unfold stream_call_id in E.
  rewrite !string_length_app in E. simpl in E. lia.
Qed.

(** The routes of the streams of a recording are never removed.  Each stream is
    transcribed under its own name, made of the call and the stream, and the name of
    the provider chosen for it is kept as its route, although nobody asked for a
    provider; the end of the call clears the route of the call, which is another
    name.  The table of routes so grows with every stream. *)
Theorem stream_routes_kept s callID streamID m log result m' :
  let call := stream_call_id callID streamID in
  pm_callRouting m !! call = None ->
  trim_space (pm_defaultProvider m) = pm_defaultProvider m -> pm_defaultProvider m <> "" ->
  equal_fold (pm_defaultProvider m) "auto" = false ->
  routeSTTCallThroughManager StreamToText seek ctx "" s call m = (log, result, m') ->
  pm_callRouting (ClearSTTRouting callID m') !! call = Some (pm_defaultProvider m) /\
  size (delete callID (pm_callRouting m)) < size (pm_callRouting (ClearSTTRouting callID m')).
Proof.
  intros call Hn Ht Hd Ha Hr. unfold routeSTTCallThroughManager in Hr.
  assert (Hsel : SelectProviderForCall call "" m = (pm_defaultProvider m, m)).
  { unfold SelectProviderForCall, resolveProvider. simpl. by rewrite Hn. }
  rewrite Hsel in Hr.
  erewrite stream_loop in Hr by (apply resolve_routed; rewrite ?Ht; done).
  injection Hr as _ <-. rewrite Ht. unfold ClearSTTRouting, ClearCallRoute. simpl.
  pose proof (stream_call_id_neq callID streamID) as Hne. fold call in Hne.
  rewrite delete_insert_ne by congruence. split; [apply lookup_insert_eq|].
  rewrite map_size_insert_None; [lia|]. by rewrite lookup_delete_ne by congruence.
Qed.
End promises.

(** ** Examples *)

(** Two providers: the first reads some of the audio and fails. *)
Definition sample_text (p : bool) (_ : nat) (audio : list Z) : nat * option string :=
  if p then (List.length audio, None) else (2, Some "quota").

Definition sample_manager : ProviderManager bool :=
  RegisterProvider true "whisper" true (RegisterProvider true "google" false
    (NewProviderManager "google" ["google"; " whisper "])).

Lemma provider_fallback_witness :
  @resolveProvider ascii_only bool "c-1" "" sample_manager = ("google", sample_manager) /\
  exists j v, j <= 1 /\
    snd (fst (@StreamToProvider ascii_only bool string sample_text (fun _ => None) (fun _ => None)
      "" (mkStream [1; 2; 3]%Z 0 true) "c-1" sample_manager)) = Transcribed v /\
    buildAttemptOrder "google" sample_manager !! j = Some v.
Proof.
  assert (Hres : @resolveProvider ascii_only bool "c-1" "" sample_manager = ("google", sample_manager)) by (vm_compute; reflexivity).
  split; [exact Hres|].
  destruct (@provider_fallback ascii_only bool string sample_text (fun _ => None) (fun _ => None) "" (mkStream [1; 2; 3]%Z 0 true)
    "c-1" sample_manager "google" sample_manager [("google", [1; 2; 3]%Z); ("whisper", [1; 2; 3]%Z)] (Transcribed "whisper")
    sample_manager Hres ltac:(vm_compute; reflexivity) eq_refl) as (_ & _ & _ & Hf & _ & _).
  destruct (Hf eq_refl (fun _ => eq_refl) (fun _ => eq_refl) 1) as (j & v & Hj & Hv & Ho & _).
  - exists "whisper", true, 3. split_and!; vm_compute; reflexivity.
  - exists j, v. split_and!; [exact Hj| |exact Ho]. rewrite <- Hv. vm_compute. reflexivity.
Defined.

Lemma stream_routes_kept_witness :
  exists m', @routeSTTCallThroughManager ascii_only bool string sample_text (fun _ => None) (fun _ => None) ""
      (mkStream [1]%Z 0 false) (stream_call_id "c-1" "s-1") sample_manager = ([("google", [1]%Z)], Failed "quota", m') /\
    pm_callRouting (ClearSTTRouting "c-1" m') !! stream_call_id "c-1" "s-1" = Some "google".
Proof.
  eexists. split; [vm_compute; reflexivity|].
  exact (proj1 (@stream_routes_kept ascii_only bool string sample_text (fun _ => None) (fun _ => None)
    (mkStream [1]%Z 0 false) "c-1" "s-1" sample_manager [("google", [1]%Z)] (Failed "quota") _
    ltac:(vm_compute; reflexivity) ltac:(vm_compute; reflexivity) ltac:(discriminate) ltac:(vm_compute; reflexivity)
    ltac:(vm_compute; reflexivity))).
Defined.

(** When the provider asked for is not registered, live audio is given to nobody,
    although the default provider is registered and nothing has been read. *)
Example unregistered_first_blocks_fallback :
  let run seekable := fst (@StreamToProvider ascii_only bool string sample_text (fun _ => None) (fun _ => None)
    "azure" (mkStream [1; 2; 3]%Z 0 seekable) "c-1" (RegisterProvider true "google" true sample_manager)) in
  run false = ([], NoProviderAvailable) /\ run true = ([("google", [1; 2; 3]%Z)], Transcribed "google").
Proof. split; vm_compute; reflexivity. Qed.

(** The code of a nested language is not found: the map is printed and taken for the
    name of the language. *)
Example nested_language_lost :
  extractLanguage [("language", LMap [("code", LText "en-US")])] = "map[code:en-US]" /\
  extractLanguage [("language", LText " en-US ")] = "en-US" /\
  pm_callRouting (@OnTranscription ascii_only bool "c-1" (Some [("language", LMap [("code", LText "en-US")])])
    (@SetLanguageRouting ascii_only bool [("en-US", "whisper")] sample_manager)) = ∅ /\
  pm_callRouting (@OnTranscription ascii_only bool "c-1" (Some [("language", LText "en-US")])
    (@SetLanguageRouting ascii_only bool [("en-US", "whisper")] sample_manager)) = {["c-1" := "whisper"]}.
Proof. split_and!; vm_compute; reflexivity. Qed.
