(* ===== verification/Cluster.v ===== *)
(** * Cluster coordination

    Node registration and leader election ([cluster/manager.go]), split-brain
    detection and fencing ([cluster/split_brain.go]), and the admission of calls in
    a cluster ([cluster/orchestrator.go]).  Redis is an interface: keys with values
    and times of expiry, with the documented effect of its commands as laws.  Any
    call of Redis may fail, with or without its effect. *)

From S2P Require Import Prelude GoStrings GoText.
From stdpp Require Import pretty.
From Stdlib Require Import Ascii String.
#[local] Open Scope string_scope.
#[local] Open Scope list_scope.
#[local] Open Scope Z_scope.

(** ** Redis *)

(** [rd_entry key st] is the value of a key and the time at which it expires.  [GET]
    and [EXISTS] see the entries that have not expired; [KEYS] lists them for the
    pattern of a prefix; [SET NX], [SET] and [PEXPIRE] give a key a time to live. *)
Class Redis (Store : Type) := {
  rd_entry : string -> Store -> option (string * Z);
  rd_keys : Z -> string -> Store -> list string;
  rd_set : Z -> string -> string -> Z -> Store -> Store;
  rd_pexpire : Z -> string -> Z -> Store -> Store;
  rd_del : string -> Store -> Store;
  rd_entry_set : forall now k v ttl st k',
    rd_entry k' (rd_set now k v ttl st) = if String.eqb k' k then Some (v, now + ttl) else rd_entry k' st;
  rd_entry_pexpire : forall now k ttl st k',
    rd_entry k' (rd_pexpire now k ttl st) =
    if String.eqb k' k then (fun e => (e.1, now + ttl)) <$> rd_entry k st else rd_entry k' st;
  rd_entry_del : forall k st k', rd_entry k' (rd_del k st) = if String.eqb k' k then None else rd_entry k' st;
  rd_keys_spec : forall now p st k,
    k ∈ rd_keys now p st <-> has_prefix k p = true /\ exists v e, rd_entry k st = Some (v, e) /\ now < e
}.

Section commands.
Context {Store : Type} `{Redis Store}.

Definition rd_get (now : Z) (k : string) (st : Store) : option string :=
  '(v, e) ← rd_entry k st; if now <? e then Some v else None.

(** [SET NX]. *)
Definition rd_setnx (now : Z) (k v : string) (ttl : Z) (st : Store) : bool * Store :=
  match rd_get now k st with Some _ => (false, st) | None => (true, rd_set now k v ttl st) end.
End commands.

(** What becomes of a call: it succeeds, it fails before its effect, or the reply is
    lost after it. *)
Inductive net := Delivered | Refused | ReplyLost.

Definition effect {A} (n : net) (before after : A) : A := match n with Refused => before | _ => after end.

(** ** Leader election *)

Record LeaderConfig := mkLeaderConfig { lc_NodeID : string; lc_LeaderLockTTL : Z }.

Definition leaderLockKey : string := "siprec:leader:lock".

(** Where the election loop of a node stands between two calls of Redis. *)
Inductive election_pc := Waiting | Acquiring | Checking | Renewing.

(** [nd_lease] is the time until which the last successful acquisition or renewal
    holds; no code reads it. *)
Record Node := mkNode {
  nd_config : LeaderConfig;
  nd_isLeader : bool;
  nd_pc : election_pc;
  nd_lease : Z
}.

Section election.
Context {Store : Type} `{Redis Store}.

(** [setLeaderStatus]; the callbacks, which run in goroutines, are left out. *)
Definition setLeaderStatus (b : bool) (n : Node) : Node := n <| nd_isLeader := b |>.

(** The script of [tryRenewLeadership]: the new time to live in milliseconds counts
    only for the holder. *)
Definition renew_script (now : Z) (c : LeaderConfig) (st : Store) : bool * Store :=
  if bool_decide (rd_get now leaderLockKey st = Some (lc_NodeID c))
  then (true, rd_pexpire now leaderLockKey (Z.quot (lc_LeaderLockTTL c) 1000000 * 1000000) st)
  else (false, st).

(** The script of [releaseLeadership]. *)
Definition release_script (now : Z) (c : LeaderConfig) (st : Store) : Store :=
  if bool_decide (rd_get now leaderLockKey st = Some (lc_NodeID c)) then rd_del leaderLockKey st else st.

(** [tryAcquireLeadership]. *)
Definition tryAcquireLeadership (now : Z) (io : net) (n : Node) (st : Store) : Node * Store :=
  let '(success, st') := rd_setnx now leaderLockKey (lc_NodeID (nd_config n)) (lc_LeaderLockTTL (nd_config n)) st in
  (match io with
   | Delivered => if success then setLeaderStatus true n <| nd_lease := now + lc_LeaderLockTTL (nd_config n) |> else n
   | _ => n
   end <| nd_pc := Waiting |>, effect io st st').

(** A tick of [leaderElectionLoop]: a leader looks who holds the lock, the others try
    to acquire it. *)
Definition election_tick (n : Node) : Node :=
  n <| nd_pc := if nd_isLeader n then Checking else Acquiring |>.

(** [tryRenewLeadership] up to the script: [GET]. *)
Definition check_lock (now : Z) (io : net) (n : Node) (st : Store) : Node :=
  match io with
  | Delivered =>
    match rd_get now leaderLockKey st with
    | None => n <| nd_pc := Acquiring |>
    | Some current =>
      if String.eqb current (lc_NodeID (nd_config n)) then n <| nd_pc := Renewing |>
      else setLeaderStatus false n <| nd_pc := Waiting |>
    end
  | _ => n <| nd_pc := Waiting |>
  end.

(** The rest of [tryRenewLeadership]. *)
Definition finish_renewal (now : Z) (io : net) (n : Node) (st : Store) : Node * Store :=
  let '(extended, st') := renew_script now (nd_config n) st in
  (match io with
   | Delivered =>
     if extended then n <| nd_lease := now + Z.quot (lc_LeaderLockTTL (nd_config n)) 1000000 * 1000000 |>
     else setLeaderStatus false n
   | _ => n
   end <| nd_pc := Waiting |>, effect io st st').

(** [ForceReleaseLeadership] and [Stop]. *)
Definition releaseLeadership (now : Z) (io : net) (n : Node) (st : Store) : Node * Store :=
  if nd_isLeader n then
    (match io with Delivered => setLeaderStatus false n | _ => n end <| nd_lease := 0 |>,
     effect io st (release_script now (nd_config n) st))
  else (n, st).

(** The next step of the election loop of a node. *)
Definition node_step (now : Z) (io : net) (n : Node) (st : Store) : Node * Store :=
  match nd_pc n with
  | Waiting => (election_tick n, st)
  | Acquiring => tryAcquireLeadership now io n st
  | Checking => (check_lock now io n st, st)
  | Renewing => finish_renewal now io n st
  end.

(** ** Nodes around one store *)

Record Elections := mkElections {
  el_nodes : list Node;
  el_store : Store;
  el_now : Z
}.

(** Time passes between the steps; a node may release the leadership, stop and start
    again, and other keys of the store may change. *)
Inductive election_step : Elections -> Elections -> Prop :=
  | loop_step now io i n n' st' e : el_now e <= now -> el_nodes e !! i = Some n ->
      node_step now io n (el_store e) = (n', st') ->
      election_step e (mkElections (<[i := n']> (el_nodes e)) st' now)
  | release_step now io i n n' st' e : el_now e <= now -> el_nodes e !! i = Some n ->
      releaseLeadership now io n (el_store e) = (n', st') ->
      election_step e (mkElections (<[i := n']> (el_nodes e)) st' now)
  | restart_step now i n e : el_now e <= now -> el_nodes e !! i = Some n ->
      election_step e (mkElections (<[i := mkNode (nd_config n) false Acquiring 0]> (el_nodes e)) (el_store e) now)
  | other_keys_step now st' e : el_now e <= now -> rd_entry leaderLockKey st' = rd_entry leaderLockKey (el_store e) ->
      election_step e (mkElections (el_nodes e) st' now).

(** The nodes start with the loop's first attempt, at a time after the epoch. *)
Definition elections_start (configs : list LeaderConfig) (st : Store) (now : Z) : Elections :=
  mkElections (map (fun c => mkNode c false Acquiring 0) configs) st now.
End election.

(** *** Leases *)

Section leases.
Context {Store : Type} `{Redis Store} (configs : list LeaderConfig).

(** Node IDs are distinct, and the lock's time to live is in whole milliseconds. *)
Record sound_configs : Prop := {
  sc_ids : NoDup (map lc_NodeID configs);
  sc_ttl : forall c, c ∈ configs -> 0 < lc_LeaderLockTTL c /\ lc_LeaderLockTTL c mod 1000000 = 0
}.

(** Every lease that has not run out is backed by the lock. *)
Record lease_inv (e : Elections (Store := Store)) : Prop := {
  li_configs : map nd_config (el_nodes e) = configs;
  li_now : 0 <= el_now e;
  li_bound : forall i n, el_nodes e !! i = Some n -> nd_lease n <= el_now e + lc_LeaderLockTTL (nd_config n);
  li_lock : forall i n, el_nodes e !! i = Some n -> el_now e < nd_lease n ->
    exists t, rd_entry leaderLockKey (el_store e) = Some (lc_NodeID (nd_config n), t) /\ nd_lease n <= t
}.

Lemma whole_ttl c : sound_configs -> c ∈ configs -> Z.quot (lc_LeaderLockTTL c) 1000000 * 1000000 = lc_LeaderLockTTL c.
Proof. intros Hc Hin. destruct (sc_ttl Hc c Hin). rewrite Z.quot_div_nonneg by lia. rewrite Z.mul_comm. symmetry. by apply Z.div_exact. Qed.

Lemma node_config_in e i n : lease_inv e -> el_nodes e !! i = Some n -> nd_config n ∈ configs.
Proof. intros [<- _ _ _] Hn. apply list_elem_of_fmap. exists n. split; [done|]. by eapply list_elem_of_lookup_2. Qed.

Lemma same_id_same_node e i j n m : sound_configs -> lease_inv e -> el_nodes e !! i = Some n -> el_nodes e !! j = Some m ->
  lc_NodeID (nd_config n) = lc_NodeID (nd_config m) -> i = j.
Proof.
  intros [Hd _] [Hc _ _ _] Hi Hj E. rewrite <- Hc, map_map in Hd. eapply NoDup_lookup; [exact Hd| |].
  - rewrite list_lookup_fmap. by rewrite Hi.
  - rewrite list_lookup_fmap. rewrite Hj. cbn. by rewrite E.
Qed.

(** A step that changes one node and the lock; time has passed to [now]. *)
Lemma lease_inv_update e now i n n' st' : lease_inv e -> el_now e <= now -> el_nodes e !! i = Some n ->
  nd_config n' = nd_config n -> nd_lease n' <= now + lc_LeaderLockTTL (nd_config n) ->
  (now < nd_lease n' -> exists t, rd_entry leaderLockKey st' = Some (lc_NodeID (nd_config n), t) /\ nd_lease n' <= t) ->
  (forall j m, j <> i -> el_nodes e !! j = Some m -> now < nd_lease m ->
     exists t, rd_entry leaderLockKey st' = Some (lc_NodeID (nd_config m), t) /\ nd_lease m <= t) ->
  lease_inv (mkElections (<[i := n']> (el_nodes e)) st' now).
Proof.
  intros [H1 H2 H3 H4] Hnow Hi Ec Hb Hown Hothers. split; cbn.
  - rewrite <- H1. apply list_eq. intros j. rewrite !list_lookup_fmap. destruct (decide (i = j)) as [->|Hne].
    + rewrite list_lookup_insert_eq by (by eapply lookup_lt_Some). rewrite Hi. cbn. by rewrite Ec.
    + by rewrite list_lookup_insert_ne.
  - lia.
  - intros j m Hj. destruct (decide (i = j)) as [->|Hne].
    + rewrite list_lookup_insert_eq in Hj by (by eapply lookup_lt_Some). injection Hj as <-. by rewrite Ec.
    + rewrite list_lookup_insert_ne in Hj by done. specialize (H3 j m Hj). lia.
  - intros j m Hj Hl. destruct (decide (i = j)) as [->|Hne].
    + rewrite list_lookup_insert_eq in Hj by (by eapply lookup_lt_Some). injection Hj as <-. rewrite Ec. by apply Hown.
    + rewrite list_lookup_insert_ne in Hj by done. by eapply Hothers.
Qed.

(** The lock as it is when no other node holds an open lease. *)
Lemma lock_kept e now j m : lease_inv e -> el_now e <= now -> el_nodes e !! j = Some m -> now < nd_lease m ->
  rd_get now leaderLockKey (el_store e) = Some (lc_NodeID (nd_config m)).
Proof.
  intros Hi Hn Hj Hl. destruct (li_lock _ Hi j m Hj) as (t & Et & Ht); [lia|]. unfold rd_get. rewrite Et. cbn.
  by rewrite (proj2 (Z.ltb_lt _ _)) by lia.
Qed.

Lemma lease_inv_loop e now io i n n' st' : sound_configs -> lease_inv e -> el_now e <= now -> el_nodes e !! i = Some n ->
  node_step now io n (el_store e) = (n', st') -> lease_inv (mkElections (<[i := n']> (el_nodes e)) st' now).
Proof.
  intros Hc Hi Hnow Hn Hs. pose proof (node_config_in _ _ _ Hi Hn) as Hin. pose proof (whole_ttl _ Hc Hin) as Ht.
  pose proof (li_bound _ Hi i n Hn) as Hb.
  assert (Hsame : st' = el_store e -> nd_config n' = nd_config n -> nd_lease n' = nd_lease n ->
    lease_inv (mkElections (<[i := n']> (el_nodes e)) st' now)).
  { intros -> Ec El. eapply lease_inv_update; [done|done|done|done|lia| |].
    - intros Hl. rewrite El in *. apply (li_lock _ Hi i n Hn). lia.
    - intros j m _ Hj Hl. apply (li_lock _ Hi j m Hj). lia. }
  unfold node_step in Hs. destruct (nd_pc n) eqn:Epc.
  - injection Hs as <- <-. apply Hsame; by destruct n.
  - unfold tryAcquireLeadership, rd_setnx in Hs. destruct (rd_get now leaderLockKey (el_store e)) as [v|] eqn:Eg.
    { destruct io; injection Hs as <- <-; apply Hsame; by destruct n. }
    assert (Hno : forall j m, el_nodes e !! j = Some m -> now < nd_lease m -> False).
    { intros j m Hj Hl. pose proof (lock_kept _ _ _ _ Hi Hnow Hj Hl). congruence. }
    destruct io; injection Hs as <- <-; [|apply Hsame; by destruct n|].
    + eapply lease_inv_update; [done|done|done|by destruct n|destruct n; cbn; lia| |].
      * intros _. exists (now + lc_LeaderLockTTL (nd_config n)). cbn [effect]. rewrite rd_entry_set, String.eqb_refl. destruct n. cbn. split; [done|lia].
      * intros j m _ Hj Hl. by edestruct Hno.
    + eapply lease_inv_update; [done|done|done|by destruct n|destruct n; cbn in *; lia| |].
      * intros Hl. edestruct (Hno i n Hn). by destruct n.
      * intros j m _ Hj Hl. by edestruct Hno.
  - injection Hs as <- <-. apply Hsame; [done|..]; unfold check_lock; destruct io; try (by destruct n);
      destruct (rd_get now leaderLockKey (el_store e)); try case_match; by destruct n.
  - unfold finish_renewal, renew_script in Hs. rewrite Ht in Hs. case_bool_decide as Eg.
    2: { destruct io; injection Hs as <- <-; apply Hsame; by destruct n. }
    assert (He : exists t, rd_entry leaderLockKey (el_store e) = Some (lc_NodeID (nd_config n), t)).
    { unfold rd_get in Eg. destruct (rd_entry _ _) as [[v t]|]; [|done]. cbn in Eg. case_match; [|done]. injection Eg as ->. by exists t. }
    destruct He as [t Et].
    assert (Hoth : forall st'', rd_entry leaderLockKey st'' = Some (lc_NodeID (nd_config n), now + lc_LeaderLockTTL (nd_config n)) ->
      forall j m, j <> i -> el_nodes e !! j = Some m -> now < nd_lease m ->
      exists t, rd_entry leaderLockKey st'' = Some (lc_NodeID (nd_config m), t) /\ nd_lease m <= t).
    { intros st'' _ j m Hne Hj Hl. pose proof (lock_kept _ _ _ _ Hi Hnow Hj Hl) as Eg'. rewrite Eg in Eg'. injection Eg' as Eid.
      by edestruct Hne; eapply same_id_same_node. }
    assert (Hst : rd_entry leaderLockKey (rd_pexpire now leaderLockKey (lc_LeaderLockTTL (nd_config n)) (el_store e)) =
      Some (lc_NodeID (nd_config n), now + lc_LeaderLockTTL (nd_config n))).
    { by rewrite rd_entry_pexpire, String.eqb_refl, Et. }
    destruct io; injection Hs as <- <-; [|apply Hsame; by destruct n|]; cbn [effect].
    + eapply lease_inv_update; [done|done|done|by destruct n|destruct n; cbn; lia| |by apply Hoth].
      intros _. rewrite Hst. eexists. split; [by destruct n|]. destruct n; cbn; lia.
    + eapply lease_inv_update; [done|done|done|by destruct n|destruct n; cbn in *; lia| |by apply Hoth].
      intros _. rewrite Hst. eexists. split; [by destruct n|]. destruct n; cbn in *; lia.
Qed.

Lemma lease_inv_step e e' : sound_configs -> lease_inv e -> election_step e e' -> lease_inv e'.
Proof.
  intros Hc Hi Hs. destruct Hs as [now io i n n' st' e Hnow Hn Hs|now io i n n' st' e Hnow Hn Hs|now i n e Hnow Hn|now st' e Hnow Hst].
  - by eapply lease_inv_loop.
  - pose proof (node_config_in _ _ _ Hi Hn) as Hin. destruct (sc_ttl Hc _ Hin) as [Hpos _]. pose proof (li_now _ Hi) as Hn0.
    unfold releaseLeadership in Hs. destruct (nd_isLeader n) eqn:El.
    + assert (En : nd_config n' = nd_config n /\ nd_lease n' = 0) by (destruct io; injection Hs as <- <-; by destruct n).
      destruct En as [Ec Elease]. eapply lease_inv_update; [done|done|done|done|lia|lia|].
      intros j m Hne Hj Hl. pose proof (lock_kept _ _ _ _ Hi Hnow Hj Hl) as Eg.
      assert (Est : st' = el_store e).
      { assert (Er : release_script now (nd_config n) (el_store e) = el_store e).
        { unfold release_script. rewrite Eg. case_bool_decide as Eid; [|done]. injection Eid as Eid.
          by edestruct Hne; eapply same_id_same_node. }
        rewrite Er in Hs. destruct io; by injection Hs as _ <-. }
      rewrite Est. apply (li_lock _ Hi j m Hj). lia.
    + injection Hs as <- <-. eapply lease_inv_update; [done|done|done|done| | |].
      * pose proof (li_bound _ Hi i n Hn). lia.
      * intros Hl. apply (li_lock _ Hi i n Hn). lia.
      * intros j m _ Hj Hl. apply (li_lock _ Hi j m Hj). lia.
  - pose proof (node_config_in _ _ _ Hi Hn) as Hin. destruct (sc_ttl Hc _ Hin) as [Hpos _]. pose proof (li_now _ Hi) as Hn0.
    eapply lease_inv_update; [done|done|done|done|cbn; lia|cbn; lia|].
    intros j m _ Hj Hl. apply (li_lock _ Hi j m Hj). lia.
  - destruct Hi as [H1 H2 H3 H4]. split; cbn; [done|lia| |].
    + intros i n Hn. specialize (H3 i n Hn). lia.
    + intros i n Hn Hl. rewrite Hst. apply (H4 i n Hn). lia.
Qed.

Lemma lease_inv_start st now : sound_configs -> 0 <= now -> lease_inv (elections_start configs st now).
Proof.
  intros Hc Hn. assert (Hz : forall i n, el_nodes (elections_start configs st now) !! i = Some n -> nd_lease n = 0 /\ nd_config n ∈ configs).
  { intros i n Hi. cbn in Hi. rewrite list_lookup_fmap in Hi. destruct (configs !! i) as [c|] eqn:E; [|done]. injection Hi as <-.
    split; [done|]. by eapply list_elem_of_lookup_2. }
  split; cbn [elections_start el_now el_store].
  - cbn. rewrite map_map. cbn. by rewrite map_id.
  - done.
  - intros i n Hi. destruct (Hz i n Hi) as [-> Hin]. destruct (sc_ttl Hc _ Hin). lia.
  - intros i n Hi. destruct (Hz i n Hi) as [-> Hin]. lia.
Qed.
End leases.

(** C20: One leader with an open lease.  Nodes with distinct IDs elect a leader
    through one store, with any delays, failures and lost replies, releases and
    restarts: a node whose last acquisition or renewal succeeded less than the
    lock's time to live ago, and which did not release it since, holds the lock, and
    there is at most one such node. *)
Theorem leases_exclusive {Store : Type} `{Redis Store} (configs : list LeaderConfig) (st : Store) (start : Z)
    (e : Elections (Store := Store)) (i j : nat) (n m : Node) :
  sound_configs configs -> 0 <= start -> rtc election_step (elections_start configs st start) e ->
  el_nodes e !! i = Some n -> el_now e < nd_lease n ->
  rd_get (el_now e) leaderLockKey (el_store e) = Some (lc_NodeID (nd_config n)) /\
  (el_nodes e !! j = Some m -> el_now e < nd_lease m -> i = j).
Proof.
  intros Hc Hs Hr Hn Hl. assert (Hi : lease_inv configs e).
  { pose proof (lease_inv_start configs st start Hc Hs) as H0. induction Hr as [|x y z Hxy _ IH]; [done|].
    apply IH; [done|done|by eapply lease_inv_step]. }
  pose proof (lock_kept configs e _ i n Hi (Z.le_refl _) Hn Hl) as Eg. split; [done|]. intros Hm Hl'.
  pose proof (lock_kept configs e _ j m Hi (Z.le_refl _) Hm Hl') as Eg'. rewrite Eg in Eg'. injection Eg' as Eid.
  by eapply same_id_same_node.
Qed.

(** The lock changes hands when the leader is gone: once it has expired, the first
    attempt that reaches the store makes its node the leader. *)
Theorem expired_lock_taken {Store : Type} `{Redis Store} (now : Z) (n : Node) (st : Store) :
  nd_pc n = Acquiring -> rd_get now leaderLockKey st = None -> 0 < lc_LeaderLockTTL (nd_config n) ->
  let '(n', st') := node_step now Delivered n st in
  nd_isLeader n' = true /\ nd_lease n' = now + lc_LeaderLockTTL (nd_config n) /\
  rd_get now leaderLockKey st' = Some (lc_NodeID (nd_config n)).
Proof.
  intros Hp Hg Ht. unfold node_step, tryAcquireLeadership, rd_setnx. rewrite Hp, Hg. cbn [effect]. destruct n. cbn in *.
  split; [done|]. split; [done|]. unfold rd_get. rewrite rd_entry_set, String.eqb_refl. cbn. by rewrite (proj2 (Z.ltb_lt _ _)) by lia.
Qed.

Lemma cut_off_keeps {Store : Type} `{Redis Store} now io n (st : Store) : io <> Delivered -> nd_isLeader n = true ->
  nd_isLeader (node_step now io n st).1 = true.
Proof.
  intros Hio Hn. unfold node_step, tryAcquireLeadership, finish_renewal, check_lock. destruct n as [c l pc ls]. cbn in *. subst.
  destruct pc, io; try done; repeat case_match; by simplify_eq.
Qed.

(** Two leaders.  A leader that cannot reach the store never gives up the
    leadership, and the lock runs out behind its back: with any two nodes and a
    free lock an execution leads to a state in which both are leaders, and the
    first one stays leader however often it fails to renew the lock. *)
Theorem two_leaders {Store : Type} `{Redis Store} (a b : LeaderConfig) (st : Store) (start : Z) :
  0 < lc_LeaderLockTTL a -> rd_entry leaderLockKey st = None ->
  exists e n m, rtc election_step (elections_start [a; b] st start) e /\
    el_nodes e = [n; m] /\ nd_isLeader n = true /\ nd_isLeader m = true /\
    rd_entry leaderLockKey (el_store e) = Some (lc_NodeID b, start + lc_LeaderLockTTL a + lc_LeaderLockTTL b) /\
    forall l : list (Z * net * Store), Forall (fun x => x.1.2 <> Delivered) l ->
      nd_isLeader (foldl (fun n x => (node_step x.1.1 x.1.2 n x.2).1) n l) = true.
Proof.
  intros Ht He. set (t := start + lc_LeaderLockTTL a).
  set (st1 := rd_set start leaderLockKey (lc_NodeID a) (lc_LeaderLockTTL a) st).
  set (st2 := rd_set t leaderLockKey (lc_NodeID b) (lc_LeaderLockTTL b) st1).
  assert (E1 : rd_entry leaderLockKey st1 = Some (lc_NodeID a, t)) by (unfold st1; by rewrite rd_entry_set, String.eqb_refl).
  exists (mkElections [mkNode a true Waiting t; mkNode b true Waiting (t + lc_LeaderLockTTL b)] st2 t),
    (mkNode a true Waiting t), (mkNode b true Waiting (t + lc_LeaderLockTTL b)).
  split; [|split; [done|split; [done|split; [done|split]]]].
  - eapply rtc_l; [apply (loop_step start Delivered 0 (mkNode a false Acquiring 0) (mkNode a true Waiting t) st1)|].
    + cbn. lia.
    + done.
    + unfold node_step, tryAcquireLeadership, rd_setnx, rd_get. cbn. by rewrite He.
    + cbn. apply rtc_once.
      apply (loop_step t Delivered 1 (mkNode b false Acquiring 0) (mkNode b true Waiting (t + lc_LeaderLockTTL b)) st2
               (mkElections [mkNode a true Waiting t; mkNode b false Acquiring 0] st1 start)).
      * cbn. lia.
      * done.
      * unfold node_step, tryAcquireLeadership, rd_setnx, rd_get. cbn. rewrite E1. cbn. by rewrite Z.ltb_irrefl.
  - cbn [el_store]. unfold st2. by rewrite rd_entry_set, String.eqb_refl.
  - intros l. generalize (eq_refl : nd_isLeader (mkNode a true Waiting t) = true). generalize (mkNode a true Waiting t).
    induction l as [|x l IH]; intros n Hn Hl; [done|]. inversion Hl; subst. cbn [foldl]. apply IH; [|done].
    by apply cut_off_keeps.
Qed.

(** ** Nodes and quorum *)

Record SplitBrainConfig := mkSplitBrainConfig {
  sb_MinQuorum : Z;
  sb_NodeTimeout : Z;
  sb_GracePeriod : Z;
  sb_PartitionAction : string;
  sb_EnableFencing : bool
}.

(** The state of the detector, with the variables of its loop. *)
Record SplitBrainDetector := mkSplitBrainDetector {
  dt_nodeID : string;
  dt_config : SplitBrainConfig;
  dt_lastQuorumCheck : Z;
  dt_partitionDetected : bool;
  dt_reachableNodes : list string;
  dt_totalNodes : Z;
  dt_partitionStartTime : Z;
  dt_inGracePeriod : bool
}.

Definition seconds (n : Z) : Z := n * 1000000000.

Definition NewSplitBrainDetector (nodeID : string) (c : SplitBrainConfig) : SplitBrainDetector :=
  let c := if sb_MinQuorum c =? 0 then c <| sb_MinQuorum := 2 |> else c in
  let c := if sb_NodeTimeout c =? 0 then c <| sb_NodeTimeout := seconds 3 |> else c in
  let c := if sb_GracePeriod c =? 0 then c <| sb_GracePeriod := seconds 15 |> else c in
  let c := if String.eqb (sb_PartitionAction c) "" then c <| sb_PartitionAction := "readonly" |> else c in
  mkSplitBrainDetector nodeID c 0 false [] 0 0 false.

Definition IsPartitioned (d : SplitBrainDetector) : bool := dt_partitionDetected d.

Definition has_quorum (c : SplitBrainConfig) (reachable : list string) : bool :=
  sb_MinQuorum c <=? Z.of_nat (List.length reachable).

Definition HasQuorum (d : SplitBrainDetector) : bool := has_quorum (dt_config d) (dt_reachableNodes d).

(** The part of [NodeInfo] that other nodes use. *)
Record NodeInfo := mkNodeInfo { ni_ID : string; ni_LastSeen : Z }.

(** The encoding of [NodeInfo] and of partition events with [encoding/json]. *)
Class ClusterJson := {
  cj_node : NodeInfo -> string;
  cj_read_node : string -> option NodeInfo;
  cj_event : string -> bool -> list string -> Z -> string;
  cj_node_round_trip : forall n, cj_read_node (cj_node n) = Some n
}.

Section detector.
Context {Store : Type} `{Redis Store} `{ClusterJson}.

Definition nodesPrefix : string := "siprec:nodes:".
Definition splitBrainKeyPrefix : string := "siprec:splitbrain:".
Definition networkPartitionKey : string := "siprec:partition:detected".

(** [sendHeartbeat] of the manager. *)
Definition sendHeartbeat (now : Z) (io : net) (nodeID : string) (ttl : Z) (st : Store) : Store :=
  effect io st (rd_set now (nodesPrefix +:+ nodeID) (cj_node (mkNodeInfo nodeID now)) ttl st).

(** The node of a key, when the key can be read, decodes and was seen lately. *)
Definition live_node (now : Z) (get_ok : string -> bool) (d : SplitBrainDetector) (st : Store) (key : string) : option string :=
  if get_ok key then
    data ← rd_get now key st;
    info ← cj_read_node data;
    if now - ni_LastSeen info <? sb_NodeTimeout (dt_config d) * 2 then Some (ni_ID info) else None
  else None.

(** [checkNodes]; [None] when the keys cannot be listed.  [get_ok] tells which keys
    can be read. *)
Definition checkNodes (now : Z) (io : net) (get_ok : string -> bool) (d : SplitBrainDetector) (st : Store)
    : option (list string * Z) :=
  match io with
  | Delivered =>
    match rd_keys now nodesPrefix st with
    | [] => Some ([dt_nodeID d], 1)
    | keys => Some (omap (live_node now get_ok d st) keys, Z.of_nat (List.length keys))
    end
  | _ => None
  end.

Definition fence_key (d : SplitBrainDetector) : string := splitBrainKeyPrefix +:+ "fenced:" +:+ dt_nodeID d.

(** [recordPartitionEvent]; the calls fail or not together. *)
Definition recordPartitionEvent (now : Z) (io : net) (eventKey : string) (detected : bool) (d : SplitBrainDetector) (st : Store) : Store :=
  let st' := rd_set now (splitBrainKeyPrefix +:+ dt_nodeID d +:+ ":" +:+ eventKey)
               (cj_event (dt_nodeID d) detected (dt_reachableNodes d) now) (seconds 86400) st in
  let st' := if detected then rd_set now networkPartitionKey (dt_nodeID d) (seconds 3600) st'
             else if bool_decide (rd_get now networkPartitionKey st' = Some (dt_nodeID d)) then rd_del networkPartitionKey st' else st' in
  effect io st st'.

(** [handlePartition], with [applyFencing] and [removeFencing]; the callbacks are left
    out. *)
Definition handlePartition (now : Z) (io : net) (eventKey : string) (detected : bool) (d : SplitBrainDetector) (st : Store) : Store :=
  let st := recordPartitionEvent now io eventKey detected d st in
  if sb_EnableFencing (dt_config d)
  then effect io st (if detected then rd_set now (fence_key d) "1" (seconds 3600) st else rd_del (fence_key d) st)
  else st.

(** The body of [detectionLoop] after [checkNodes], at the time [now]; the second
    result is the partition change to handle. *)
Definition judge (now : Z) (checked : option (list string * Z)) (d : SplitBrainDetector) : SplitBrainDetector * option bool :=
  match checked with
  | None => (d, None)
  | Some (reachable, total) =>
    let d := d <| dt_reachableNodes := reachable |> <| dt_totalNodes := total |> <| dt_lastQuorumCheck := now |> in
    if negb (has_quorum (dt_config d) reachable) then
      if negb (dt_inGracePeriod d) then (d <| dt_inGracePeriod := true |> <| dt_partitionStartTime := now |>, None)
      else if sb_GracePeriod (dt_config d) <? now - dt_partitionStartTime d then
        if negb (dt_partitionDetected d) then (d <| dt_partitionDetected := true |>, Some true) else (d, None)
      else (d, None)
    else
      let d := d <| dt_inGracePeriod := false |> in
      if dt_partitionDetected d then (d <| dt_partitionDetected := false |>, Some false) else (d, None)
  end.

(** A tick of [detectionLoop]. *)
Definition detection_tick (now : Z) (io : net) (get_ok : string -> bool) (eventKey : string) (d : SplitBrainDetector) (st : Store)
    : SplitBrainDetector * Store :=
  let '(d, change) := judge now (checkNodes now io get_ok d st) d in
  (d, match change with Some detected => handlePartition now io eventKey detected d st | None => st end).

(** [ForceQuorumCheck]. *)
Definition ForceQuorumCheck (now : Z) (io : net) (get_ok : string -> bool) (d : SplitBrainDetector) (st : Store) : SplitBrainDetector :=
  match checkNodes now io get_ok d st with
  | None => d
  | Some (reachable, total) => d <| dt_reachableNodes := reachable |> <| dt_totalNodes := total |> <| dt_lastQuorumCheck := now |>
  end.

(** [IsFenced] ignores the error of [EXISTS]. *)
Definition IsFenced (now : Z) (io : net) (d : SplitBrainDetector) (st : Store) : bool :=
  match io with Delivered => bool_decide (is_Some (rd_get now (fence_key d) st)) | _ => false end.

(** [AllowCall] of the orchestrator: [limiter] is the verdict of the distributed
    limiter, if there is one, [splitBrain] the detector, if there is one. *)
Definition AllowCall (now : Z) (io : net) (limiter : option bool) (splitBrain : option SplitBrainDetector) (st : Store) : bool :=
  match limiter with
  | None => true
  | Some verdict =>
    if (match splitBrain with Some d => IsFenced now io d st | None => false end) then false else verdict
  end.
End detector.

(** ** What the detector decides *)

Notation check := (Z * option (list string * Z))%type.

(** The detector after the checks [l], each with its time and result. *)
Definition watch (l : list check) (d : SplitBrainDetector) : SplitBrainDetector := foldl (fun d x => (judge x.1 x.2 d).1) d l.

(** The checks that were answered, with their time and whether they saw a quorum. *)
Definition answers (c : SplitBrainConfig) (l : list check) : list (Z * bool) :=
  omap (fun x => (fun r => (x.1, has_quorum c r.1)) <$> x.2) l.

(** The answered checks end with a series without quorum that began at [first] and
    of which the latest was at [latest]. *)
Definition outage (a : list (Z * bool)) (first latest : Z) : Prop :=
  exists before series, a = before ++ series /\ fst <$> head series = Some first /\ fst <$> last series = Some latest /\
    Forall (fun x => x.2 = false) series /\ (before = [] \/ snd <$> last before = Some true).

Lemma outage_snoc_false a t first latest : outage a first latest -> outage (a ++ [(t, false)]) first t.
Proof.
  intros (before & series & -> & Hf & Hl & Hs & Hb). exists before, (series ++ [(t, false)]). split; [by rewrite app_assoc|].
  split; [by destruct series|]. split; [by rewrite last_snoc|]. split; [|done]. apply Forall_app_2; [done|by apply Forall_singleton].
Qed.

Lemma outage_unique a first latest first' latest' : outage a first latest -> outage a first' latest' -> first = first' /\ latest = latest'.
Proof.
  intros (b1 & s1 & -> & Hf & Hl & Hs & Hb) (b2 & s2 & E & Hf' & Hl' & Hs' & Hb').
  assert (Hall : forall b s b' s', b ++ s = b' ++ s' -> Forall (fun x : Z * bool => x.2 = false) s -> Forall (fun x : Z * bool => x.2 = false) s' ->
    (b = [] \/ snd <$> last b = Some true) -> (List.length b <= List.length b')%nat -> (b' = [] \/ snd <$> last b' = Some true) -> b = b' /\ s = s').
  { clear. intros b s b' s' E Hs Hs' Hb Hlen Hb'. destruct (app_eq_app _ _ _ _ E) as (k & [[-> ->]|[-> ->]]).
    - rewrite length_app in Hlen. destruct k; [by rewrite app_nil_r|cbn in Hlen; lia].
    - destruct k as [|x k _] using rev_ind; [by rewrite app_nil_r|]. exfalso. destruct Hb' as [Hb'|Hb'].
      + by destruct b, k.
      + rewrite app_assoc, last_snoc in Hb'. apply Forall_app in Hs as [Hs _]. apply Forall_app in Hs as [_ Hx]. rewrite Forall_singleton in Hx. destruct x as [? []]; done. }
  destruct (Nat.le_ge_cases (List.length b1) (List.length b2)) as [Hle|Hle].
  - destruct (Hall _ _ _ _ E Hs Hs' Hb Hle Hb') as [-> ->]. split; congruence.
  - symmetry in E. destruct (Hall _ _ _ _ E Hs' Hs Hb' Hle Hb) as [-> ->]. split; congruence.
Qed.

(** What the state of the detector says about the answers so far. *)
Definition detector_inv (c : SplitBrainConfig) (a : list (Z * bool)) (d : SplitBrainDetector) : Prop :=
  dt_config d = c /\
  if dt_inGracePeriod d
  then exists latest, outage a (dt_partitionStartTime d) latest /\
         dt_partitionDetected d = (sb_GracePeriod c <? latest - dt_partitionStartTime d)
  else dt_partitionDetected d = false /\ (a = [] \/ snd <$> last a = Some true).

Lemma judge_inv c a d now checked : 0 <= sb_GracePeriod c -> Forall (fun x => x.1 <= now) a -> detector_inv c a d ->
  detector_inv c (a ++ answers c [(now, checked)]) (judge now checked d).1.
Proof.
  intros Hg Ht [Ec Hi]. destruct checked as [[reachable total]|]; unfold answers; cbn [omap list_omap fmap option_fmap option_map fst snd]; [|by rewrite app_nil_r].
  destruct d as [node cfg lastq det reach tot start grace]. cbn in Ec, Hi. subst cfg. unfold judge. cbn.
  destruct (has_quorum c reachable) eqn:Eq; cbn.
  - destruct det; (split; [done|]); cbn; (split; [done|]); right; by rewrite last_snoc.
  - destruct grace; cbn.
    + destruct Hi as (latest & Ho & Hd). assert (Hl : latest <= now).
      { destruct Ho as (before & series & -> & _ & Hl & _). apply Forall_app in Ht as [_ Ht].
        destruct (last series) as [x|] eqn:El; [|done]. injection Hl as <-. apply last_Some in El as [l ->].
        apply Forall_app in Ht as [_ Hx]. by rewrite Forall_singleton in Hx. }
      apply outage_snoc_false with (t := now) in Ho.
      destruct (Z.ltb_spec (sb_GracePeriod c) (now - start)) as [Hlt|Hge].
      * destruct det; cbn; (split; [done|]); exists now; (split; [done|]); cbn; symmetry; by apply Z.ltb_lt.
      * split; [done|]. cbn. exists now. split; [done|]. rewrite Hd.
        rewrite (proj2 (Z.ltb_ge _ _)) by lia. symmetry. apply Z.ltb_ge. lia.
    + split; [done|]. cbn. destruct Hi as [-> Hb]. exists now. split.
      * exists a, [(now, false)]. split; [done|]. split; [done|]. split; [done|]. split; [by apply Forall_singleton|done].
      * symmetry. apply Z.ltb_ge. lia.
Qed.

(** C37: When a partition is declared.  For any sequence of checks, answered or not,
    at times that do not go back, the detector reports a partition exactly when the
    answered checks end with a series without quorum that lasts longer than the
    grace period. *)
Theorem partition_exact (nodeID : string) (c : SplitBrainConfig) (l : list check) :
  let d := NewSplitBrainDetector nodeID c in
  0 <= sb_GracePeriod (dt_config d) -> StronglySorted Z.le (map fst l) ->
  IsPartitioned (watch l d) = true <->
  exists first latest, outage (answers (dt_config d) l) first latest /\ sb_GracePeriod (dt_config d) < latest - first.
Proof.
  cbn zeta. set (d := NewSplitBrainDetector nodeID c). intros Hg Hs.
  assert (Hi : detector_inv (dt_config d) (answers (dt_config d) l) (watch l d)).
  { induction l as [|x l IH] using rev_ind; [split; [done|]; split; [by unfold d, NewSplitBrainDetector; repeat case_match|by left]|].
    rewrite map_app in Hs. apply StronglySorted_app_1_l in Hs as Hs1. specialize (IH Hs1).
    destruct x as [t o]. unfold watch in *. rewrite foldl_app. cbn [foldl fst snd]. unfold answers in *. rewrite omap_app.
    apply (judge_inv (dt_config d) (answers (dt_config d) l) (watch l d) t o Hg); [|done].
    apply Forall_forall. intros y Hy. apply list_elem_of_omap in Hy as (z & Hz & Ez). destruct z as [t' [r|]]; [|done].
    cbn in Ez. injection Ez as <-. cbn. eapply (StronglySorted_app_1_elem_of Z.le (map fst l) [t]).
    - exact Hs.
    - change t' with (fst (t', Some r)). apply list_elem_of_fmap. by eexists.
    - set_solver. }
  destruct Hi as [Ec Hi]. unfold IsPartitioned. destruct (dt_inGracePeriod (watch l d)).
  - destruct Hi as (latest & Ho & ->). rewrite Z.ltb_lt. split; [intros Hlt; by eexists _, _|].
    intros (first & latest' & Ho' & Hlt). destruct (outage_unique _ _ _ _ _ Ho Ho') as [-> ->]. done.
  - destruct Hi as [-> Hb]. split; [done|]. intros (first & latest & (before & series & E & Hf & Hl & Hs' & _) & _). exfalso.
    rewrite E in Hb. destruct series as [|x series _] using rev_ind; [done|]. rewrite app_assoc, last_snoc in Hb.
    apply Forall_app in Hs' as [_ Hx]. rewrite Forall_singleton in Hx. destruct Hb as [Hb|Hb]; [by destruct (before ++ series)|]. destruct x as [? []]; done.
Qed.

(** An isolated node is not fenced.  A node that reaches the store with none of
    its calls keeps the verdict it had through any number of checks, changes
    nothing in the store, and admits calls as its limiter says, whether or not the
    store has its fencing key. *)
Theorem isolated_node_not_fenced {Store : Type} `{Redis Store} `{ClusterJson} (d : SplitBrainDetector) (st : Store)
    (ticks : list (Z * net * (string -> bool) * string)) (now : Z) (io : net) (verdict : bool) :
  Forall (fun t => t.1.1.2 <> Delivered) ticks -> io <> Delivered ->
  let '(d', st') := foldl (fun '(d, st) '(now, io, get_ok, key) => detection_tick now io get_ok key d st) (d, st) ticks in
  d' = d /\ st' = st /\ AllowCall now io (Some verdict) (Some d') st' = verdict.
Proof.
  intros Ht Hio. assert (E : foldl (fun '(d, st) '(now, io, get_ok, key) => detection_tick now io get_ok key d st) (d, st) ticks = (d, st)).
  { induction Ht as [|[[[t i] g] k] l Hi _ IH]; [done|]. cbn [foldl]. cbn in Hi. unfold detection_tick, checkNodes at 1.
    destruct i; [done|exact IH|exact IH]. }
  rewrite E. split; [done|]. split; [done|]. unfold AllowCall, IsFenced. by destruct io.
Qed.

(** Without the distributed limiter nobody asks for the fence. *)
Theorem fence_needs_limiter {Store : Type} `{Redis Store} (d : SplitBrainDetector) (now : Z) (io : net) (st : Store) :
  AllowCall now io None (Some d) st = true.
Proof. done. Qed.

(** A node that sent a heartbeat is reachable until the heartbeat expires or is older
    than twice the timeout of nodes. *)
Theorem heartbeat_seen {Store : Type} `{Redis Store} `{ClusterJson} (t now ttl : Z) (nodeID : string) (get_ok : string -> bool)
    (d : SplitBrainDetector) (st : Store) :
  t <= now < t + ttl -> now - t < sb_NodeTimeout (dt_config d) * 2 -> get_ok (nodesPrefix +:+ nodeID) = true ->
  exists reachable total,
    checkNodes now Delivered get_ok d (sendHeartbeat t Delivered nodeID ttl st) = Some (reachable, total) /\ nodeID ∈ reachable.
Proof.
  intros Ht Hage Hok. set (st' := sendHeartbeat t Delivered nodeID ttl st).
  assert (Ee : rd_entry (nodesPrefix +:+ nodeID) st' = Some (cj_node (mkNodeInfo nodeID t), t + ttl))
    by (unfold st', sendHeartbeat; cbn [effect]; by rewrite rd_entry_set, String.eqb_refl).
  assert (Hk : nodesPrefix +:+ nodeID ∈ rd_keys now nodesPrefix st').
  { apply rd_keys_spec. split; [apply has_prefix_spec; by eexists|]. eexists _, _. split; [exact Ee|lia]. }
  unfold checkNodes. destruct (rd_keys now nodesPrefix st') as [|k keys] eqn:Ek; [set_solver|]. eexists _, _. split; [done|].
  apply list_elem_of_omap. eexists. split; [exact Hk|]. unfold live_node, rd_get. rewrite Hok, Ee. cbn.
  rewrite (proj2 (Z.ltb_lt _ _)) by lia. cbn. rewrite cj_node_round_trip. cbn. by rewrite (proj2 (Z.ltb_lt _ _)).
Qed.

(** ** A concrete store *)

Definition alive (now : Z) (p : string) (x : string * (string * Z)) : bool := has_prefix x.1 p && (now <? x.2.2).

#[refine]
Instance map_redis : Redis (gmap string (string * Z)) := {
  rd_entry := fun k st => st !! k;
  rd_keys := fun now p st => (List.filter (alive now p) (map_to_list st)).*1;
  rd_set := fun now k v ttl st => <[k := (v, now + ttl)]> st;
  rd_pexpire := fun now k ttl st => alter (fun e => (e.1, now + ttl)) k st;
  rd_del := fun k st => delete k st
}.
Proof.
  - intros now k v ttl st k'. cbn. destruct (String.eqb_spec k' k) as [->|Hne]; [by rewrite lookup_insert_eq|by rewrite lookup_insert_ne].
  - intros now k ttl st k'. cbn. destruct (String.eqb_spec k' k) as [->|Hne]; [by rewrite lookup_alter_eq|by rewrite lookup_alter_ne].
  - intros k st k'. cbn. destruct (String.eqb_spec k' k) as [->|Hne]; [by rewrite lookup_delete_eq|by rewrite lookup_delete_ne].
  - intros now p st k. rewrite list_elem_of_fmap. split.
    + intros ([k' [v e]] & -> & Hin). apply list_elem_of_In, filter_In in Hin as [Hin Ha]. apply list_elem_of_In, elem_of_map_to_list in Hin.
      unfold alive in Ha. cbn [fst snd] in Ha |- *. apply andb_prop in Ha as [Hp He]. split; [done|]. exists v, e. split; [done|]. by apply Z.ltb_lt.
    + intros [Hp (v & e & Hl & He)]. exists (k, (v, e)). split; [done|]. apply list_elem_of_In, filter_In.
      split; [by apply list_elem_of_In, elem_of_map_to_list|]. unfold alive. cbn [fst snd]. rewrite Hp. by apply Z.ltb_lt.
Defined.

Definition sample_configs : list LeaderConfig := [mkLeaderConfig "node-1" (seconds 10); mkLeaderConfig "node-2" (seconds 10)].

Lemma leases_exclusive_witness :
  exists e : Elections (Store := gmap string (string * Z)), rtc election_step (elections_start sample_configs ∅ 0) e /\
    el_now e = seconds 3 /\ nd_lease <$> el_nodes e !! 0%nat = Some (seconds 10) /\
    rd_get (seconds 3) leaderLockKey (el_store e) = Some "node-1".
Proof.
  set (n1 := mkNode (mkLeaderConfig "node-1" (seconds 10)) true Waiting (seconds 10)).
  set (n2 := mkNode (mkLeaderConfig "node-2" (seconds 10)) false Waiting 0).
  set (st := {["siprec:leader:lock" := ("node-1", seconds 10)]} : gmap string (string * Z)).
  assert (Hr : rtc election_step (elections_start sample_configs (∅ : gmap string (string * Z)) 0) (mkElections [n1; n2] st (seconds 3))).
  { eapply rtc_l; [apply (loop_step 0 Delivered 0 (mkNode (mkLeaderConfig "node-1" (seconds 10)) false Acquiring 0) n1 st); [done|done|]|].
    - vm_compute. reflexivity.
    - apply rtc_once.
      apply (loop_step (seconds 3) Delivered 1 (mkNode (mkLeaderConfig "node-2" (seconds 10)) false Acquiring 0) n2 st
               (mkElections [n1; mkNode (mkLeaderConfig "node-2" (seconds 10)) false Acquiring 0] st 0)); [vm_compute; congruence|done|].
      vm_compute. reflexivity. }
  exists (mkElections [n1; n2] st (seconds 3)). split; [exact Hr|]. split; [reflexivity|]. split; [reflexivity|].
  assert (Hc : sound_configs sample_configs).
  { split; [|intros c Hc; apply list_elem_of_In in Hc as [<-|[<-|[]]]; vm_compute; split; reflexivity].
    apply (bool_decide_unpack (NoDup (map lc_NodeID sample_configs))). vm_compute. exact I. }
  exact (proj1 (leases_exclusive sample_configs ∅ 0 _ 0 0 n1 n1 Hc ltac:(lia) Hr eq_refl ltac:(vm_compute; reflexivity))).
Defined.

Lemma two_leaders_witness :
  exists (e : Elections (Store := gmap string (string * Z))) n m, el_nodes e = [n; m] /\ nd_isLeader n = true /\ nd_isLeader m = true.
Proof.
  destruct (two_leaders (mkLeaderConfig "node-1" (seconds 10)) (mkLeaderConfig "node-2" (seconds 10)) (∅ : gmap string (string * Z)) 0)
    as (e & n & m & _ & E & Hn & Hm & _); [vm_compute; reflexivity|reflexivity|].
  exists e, n, m. exact (conj E (conj Hn Hm)).
Defined.

Definition sample_checks : list check :=
  [(seconds 5, Some (["a"; "b"], 2)); (seconds 10, Some (["a"], 2)); (seconds 15, None); (seconds 26, Some (["a"], 1))].

Lemma partition_exact_witness :
  IsPartitioned (watch sample_checks (NewSplitBrainDetector "a" (mkSplitBrainConfig 0 0 0 "" true))) = true.
Proof.
  apply (partition_exact "a" (mkSplitBrainConfig 0 0 0 "" true) sample_checks).
  - vm_compute. congruence.
  - repeat constructor; vm_compute; congruence.
  - exists (seconds 10), (seconds 26). split; [|vm_compute; reflexivity].
    exists [(seconds 5, true)], [(seconds 10, false); (seconds 26, false)].
    split; [reflexivity|]. split; [reflexivity|]. split; [reflexivity|]. split; [repeat constructor|by right].
Defined.

(** A node written as a number. *)
#[refine]
Instance plain_json : ClusterJson := {
  cj_node := fun n => pretty (N.pos (encode (ni_ID n, ni_LastSeen n)));
  cj_read_node := fun s => n ← unsigned s; '(id, t) ← decode (A := string * Z) (Z.to_pos n); Some (mkNodeInfo id t);
  cj_event := fun _ _ _ _ => ""
}.
Proof. intros [id t]. cbn. rewrite unsigned_pretty. cbn [mbind option_bind Z.of_N Z.to_pos]. by rewrite decode_encode. Defined.

Lemma isolated_node_not_fenced_witness :
  let d := NewSplitBrainDetector "a" (mkSplitBrainConfig 0 0 0 "" true) in
  let st := {["siprec:splitbrain:fenced:a" := ("1", seconds 3600)]} : gmap string (string * Z) in
  AllowCall (seconds 60) Delivered (Some true) (Some d) st = false /\
  let '(d', st') := foldl (fun '(d, st) '(now, io, get_ok, key) => detection_tick now io get_ok key d st) (d, st)
                      [(seconds 50, Refused, fun _ => false, "50"); (seconds 55, ReplyLost, fun _ => false, "55")] in
  d' = d /\ st' = st /\ AllowCall (seconds 60) Refused (Some true) (Some d') st' = true.
Proof.
  cbn zeta. split; [vm_compute; reflexivity|].
  apply (isolated_node_not_fenced (NewSplitBrainDetector "a" (mkSplitBrainConfig 0 0 0 "" true))).
  - repeat constructor; cbn; congruence.
  - congruence.
Defined.
