(* ===== verification/Callbacks.v ===== *)
(** * Metadata callbacks

    The notifier that posts the life cycle of a recording to the callback URLs of a
    call ([sip/notifications.go]) and the event it is given ([notifyMetadataEvent]
    and [buildNotificationMetadata] of [sip/custom_server.go]).  The names of hosts
    come from SIP messages and the answers of the resolver from whoever owns the
    name, so what matters is which addresses the server can be made to connect to.

    The resolver and the dialer are arguments of the operations: each use of them may
    answer differently.  [net/url], the ASCII form of a host name and
    [encoding/json] are an interface without laws. *)

From S2P Require Import Prelude GoStrings GoText Net Metadata Session.
From Stdlib Require Import Ascii String Btauto.
#[local] Open Scope string_scope.
#[local] Open Scope list_scope.
#[local] Open Scope Z_scope.

(** ** Addresses *)

(** What [net.Resolver.LookupIP] answers for a name, [None] where it fails. *)
Definition callbackIPResolver := string -> option (list IP).

(** What connecting to an address gives. *)
Definition callbackDialer (Conn : Type) := string -> option Conn.

Definition same_ip (ip : IP) (text : string) : bool :=
  match parse_ip text with Some other => ip_equal ip other | None => false end.

(** Whether it returns an error. *)
Definition checkBlockedIP (ip : IP) : bool :=
  is_loopback ip || is_private ip || is_link_local_unicast ip || is_link_local_multicast ip || is_unspecified ip ||
  (same_ip ip "169.254.169.254" || same_ip ip "fd00:ec2::254").

Definition lookupCallbackIPs (dns : callbackIPResolver) : callbackIPResolver := fun host =>
  match parse_ip host with Some ip => Some [ip] | None => dns host end.

Definition resolveAndValidateCallbackHost (host : string) (resolver : callbackIPResolver) : option (list IP) :=
  ips ← resolver host;
  if (List.length ips =? 0)%nat then None
  else if existsb checkBlockedIP ips then None
  else Some ips.

(** The addresses tried, and the connection. *)
Fixpoint dial_each {Conn} (dialer : callbackDialer Conn) (port : string) (ips : list IP) : list string * option Conn :=
  match ips with
  | [] => ([], None)
  | ip :: ips =>
    let address := join_host_port (ip_text ip) port in
    match dialer address with
    | Some conn => ([address], Some conn)
    | None => let '(tried, conn) := dial_each dialer port ips in (address :: tried, conn)
    end
  end.

Definition dialCallbackContextWithResolverAndDialer {Conn} (address : string) (resolver : callbackIPResolver)
    (dialer : callbackDialer Conn) : list string * option Conn :=
  match split_host_port address with
  | None => ([], None)
  | Some (host, port) =>
    match resolveAndValidateCallbackHost host resolver with
    | None => ([], None)
    | Some ips => dial_each dialer port ips
    end
  end.

Definition dialCallbackContext {Conn} (dns : callbackIPResolver) (dialer : callbackDialer Conn) (address : string) :
    list string * option Conn :=
  dialCallbackContextWithResolverAndDialer address (lookupCallbackIPs dns) dialer.

(** ** Events *)

Record PolicyEntry := mkPolicyEntry {
  pe_status : string; pe_acknowledged : bool; pe_timestamp : option string; pe_raw_timestamp : option string
}.

(** The values of an event. *)
Inductive Value :=
| VString (s : string)
| VInt (n : Z)
| VStrings (l : list string)
| VStringMap (m : gmap string string)
| VPolicies (m : gmap string PolicyEntry).

Record NotificationEvent := mkNotificationEvent {
  ne_Event : string; ne_CallID : string; ne_SessionID : string; ne_State : string; ne_Reason : string;
  ne_Timestamp : Time; ne_Metadata : option (gmap string Value)
}.

(** ** URLs *)

Record URL := mkURL { u_Scheme : string; u_User : bool; u_Hostname : string; u_Port : string }.

(** [url.Parse], the host name as ASCII as the HTTP client sends it, and
    [json.Marshal] of an event. *)
Class HttpClient := {
  url_parse : string -> option URL;
  idna_ascii : string -> string;
  json_marshal : NotificationEvent -> option string
}.

Definition internal_hostname `{Unicode} (host : string) : bool :=
  let lower := to_lower host in
  String.eqb lower "localhost" || has_suffix lower ".local" || has_suffix lower ".internal" ||
  String.eqb lower "metadata.google.internal".

(** Whether the URL is accepted. *)
Definition validateCallbackURL `{Unicode} `{HttpClient} (dns : callbackIPResolver) (rawURL : string) : bool :=
  match url_parse rawURL with
  | None => false
  | Some u =>
    (String.eqb (u_Scheme u) "http" || String.eqb (u_Scheme u) "https") &&
    negb (u_User u) && negb (String.eqb (u_Hostname u) "") && negb (internal_hostname (u_Hostname u)) &&
    match resolveAndValidateCallbackHost (u_Hostname u) (lookupCallbackIPs dns) with Some _ => true | None => false end
  end.

(** ** The notifier *)

Definition maxEndpointsPerCall : nat := 32.

Record MetadataNotifier := mkMetadataNotifier {
  mn_global : list string;
  mn_timeout : Duration;
  mn_perCall : gmap string (list string);
  mn_leaderChecker : bool;
  mn_leaderOnly : bool
}.

Section notifier.
Context `{Unicode} `{Rfc3339} `{HttpClient}.

Definition NewMetadataNotifier (dns : callbackIPResolver) (endpoints : list string) (timeout : Duration) : MetadataNotifier :=
  mkMetadataNotifier
    (filter (fun ep => negb (String.eqb ep "") && validateCallbackURL dns ep) (map trim_space endpoints))
    (if timeout <=? 0 then 3000000000 else timeout) ∅ false false.

Definition RegisterCallEndpoint (dns : callbackIPResolver) (callID endpoint : string) (n : MetadataNotifier) : MetadataNotifier :=
  let trimmed := trim_space endpoint in
  let known := default [] (mn_perCall n !! callID) in
  if String.eqb callID "" || String.eqb trimmed "" || negb (validateCallbackURL dns trimmed) ||
     (maxEndpointsPerCall <=? List.length known)%nat
  then n
  else mkMetadataNotifier (mn_global n) (mn_timeout n) (<[callID := known ++ [trimmed]]> (mn_perCall n))
         (mn_leaderChecker n) (mn_leaderOnly n).

Definition ClearCallEndpoints (callID : string) (n : MetadataNotifier) : MetadataNotifier :=
  if String.eqb callID "" then n
  else mkMetadataNotifier (mn_global n) (mn_timeout n) (delete callID (mn_perCall n)) (mn_leaderChecker n) (mn_leaderOnly n).

Definition SetLeaderChecker (leaderOnly : bool) (n : MetadataNotifier) : MetadataNotifier :=
  mkMetadataNotifier (mn_global n) (mn_timeout n) (mn_perCall n) true leaderOnly.

(** [leader] is what the cluster says of this node. *)
Definition isLeader (leader : bool) (n : MetadataNotifier) : bool :=
  if negb (mn_leaderChecker n) || negb (mn_leaderOnly n) then true else leader.

(** The loop over one source of endpoints, those seen being those merged. *)
Definition merge_endpoint (merged : list string) (endpoint : string) : list string :=
  if bool_decide (endpoint ∈ merged) then merged else merged ++ [endpoint].

Definition merge_trimmed (merged : list string) (endpoint : string) : list string :=
  let trimmed := trim_space endpoint in
  if String.eqb trimmed "" then merged else merge_endpoint merged trimmed.

Definition collectEndpoints (callID : string) (session : option RecordingSession) (n : MetadataNotifier) : list string :=
  let merged := foldl merge_endpoint [] (mn_global n) in
  let merged := match session with Some s => foldl merge_trimmed merged (rs_Callbacks s) | None => merged end in
  if String.eqb callID "" then merged
  else foldl merge_trimmed merged (default [] (mn_perCall n !! callID)).

(** A map into another one, whose entries stay or are replaced; the other one may
    still be nil. *)
Definition copy_keeping (from : gmap string Value) (into : option (gmap string Value)) : option (gmap string Value) :=
  if bool_decide (from = ∅) then into else Some (default ∅ into ∪ from).

Definition copy_over (from : gmap string Value) (into : option (gmap string Value)) : option (gmap string Value) :=
  if bool_decide (from = ∅) then into else Some (from ∪ default ∅ into).

Definition event_payload (now : Time) (session : option RecordingSession) (callID event : string)
    (extra : gmap string Value) : NotificationEvent :=
  let metadata := match session with
                  | Some s => copy_keeping (VString <$> default ∅ (rs_ExtendedMetadata s)) None
                  | None => None
                  end in
  mkNotificationEvent event callID
    (match session with Some s => rs_ID s | None => "" end)
    (match session with Some s => rs_RecordingState s | None => "" end)
    (match session with Some s => rs_StateReason s | None => "" end)
    now (copy_over extra metadata).

(** The requests it sends: endpoint and body. *)
Definition Notify (leader : bool) (now : Time) (session : option RecordingSession) (callID event : string)
    (extra : gmap string Value) (n : MetadataNotifier) : list (string * string) :=
  if negb (isLeader leader n) then [] else
  let endpoints := collectEndpoints callID session n in
  if (List.length endpoints =? 0)%nat then [] else
  match json_marshal (event_payload now session callID event extra) with
  | None => []
  | Some body => map (fun endpoint => (endpoint, body)) endpoints
  end.

(** [http.Transport]: the address it dials for a request. *)
Definition request_address (u : URL) : string :=
  join_host_port (idna_ascii (u_Hostname u))
    (if String.eqb (u_Port u) "" then (if String.eqb (u_Scheme u) "https" then "443" else "80") else u_Port u).

(** One request over a new connection: the client follows no redirect, and uses no
    proxy, so that its only connection is the one [dialCallbackContext] gives it. *)
Definition send {Conn} (dns : callbackIPResolver) (dialer : callbackDialer Conn) (endpoint : string) :
    list string * option Conn :=
  match url_parse endpoint with
  | None => ([], None)
  | Some u =>
    if negb (String.eqb (u_Scheme u) "http" || String.eqb (u_Scheme u) "https") || String.eqb (u_Hostname u) ""
    then ([], None)
    else dialCallbackContext dns dialer (request_address u)
  end.

(** ** What the server says of a recording *)

Definition set_if (c : bool) (k : string) (v : Value) (m : gmap string Value) : gmap string Value :=
  if c then <[k := v]> m else m.

Definition nonempty_text (s : string) : option string := if String.eqb s "" then None else Some s.

Definition policy_entry (state : PolicyAckStatus) : PolicyEntry :=
  mkPolicyEntry (pa_Status state) (pa_Acknowledged state)
    (if is_zero_time (pa_ReportedAt state) then None else Some (format_rfc3339 (pa_ReportedAt state)))
    (nonempty_text (pa_RawTimestamp state)).

Definition buildNotificationMetadata (session : option RecordingSession) : option (gmap string Value) :=
  s ← session;
  let snapshot := <["sequence" := VInt (rs_SequenceNumber s)]> (<["direction" := VString (rs_Direction s)]>
    (<["participants" := VInt (Z.of_nat (List.length (rs_Participants s)))]> ∅)) in
  let snapshot := set_if (negb (String.eqb (rs_StateReason s) "")) "state_reason" (VString (rs_StateReason s)) snapshot in
  let snapshot := set_if (negb (String.eqb (rs_StateReasonRef s) "")) "state_reason_ref" (VString (rs_StateReasonRef s)) snapshot in
  let snapshot := set_if (negb (is_zero_time (rs_StateExpires s))) "state_expires"
                    (VString (format_rfc3339 (rs_StateExpires s))) snapshot in
  let snapshot := set_if (0 <? List.length (rs_MediaStreamTypes s))%nat "media_streams" (VStrings (rs_MediaStreamTypes s)) snapshot in
  let roles := default ∅ (rs_SessionGroupRoles s) in
  let snapshot := set_if (0 <? size roles)%nat "session_groups" (VStringMap roles) snapshot in
  let states := default ∅ (rs_PolicyStates s) in
  Some (set_if (0 <? size states)%nat "policies" (VPolicies (policy_entry <$> states)) snapshot).

Definition notifyMetadataEvent (leader : bool) (now : Time) (session : option RecordingSession) (callID event : string)
    (extra : gmap string Value) (notifier : option MetadataNotifier) : list (string * string) :=
  match notifier with
  | None => []
  | Some n => Notify leader now session callID event (default ∅ (copy_over extra (buildNotificationMetadata session))) n
  end.
End notifier.

(** ** Internal networks *)

(** The networks callbacks must not reach: loopback, private, link-local (which hold
    the metadata services of the clouds), link-local multicast under any flags, and
    the unspecified addresses. *)
Definition internal_networks : list IPNet :=
  omap parse_cidr
    (["127.0.0.0/8"; "10.0.0.0/8"; "172.16.0.0/12"; "192.168.0.0/16"; "169.254.0.0/16"; "224.0.0.0/24"; "0.0.0.0/32";
      "::1/128"; "fc00::/7"; "fe80::/10"; "::/128"] ++
     map (fun flags => "ff" +:+ flags +:+ "2::/16")
         ["0"; "1"; "2"; "3"; "4"; "5"; "6"; "7"; "8"; "9"; "a"; "b"; "c"; "d"; "e"; "f"]).

Definition internal (ip : IP) : bool := existsb (fun n => net_contains n ip) internal_networks.

Lemma ip_eq_cons (a b : Z) (l k : list Z) (D : Decision (a :: l = b :: k)) :
  @bool_decide _ D = (a =? b) && bool_decide (l = k).
Proof. apply eq_bool_prop_intro. rewrite bool_decide_spec, andb_True, bool_decide_spec, Is_true_true, Z.eqb_eq. naive_solver. Qed.

Lemma ip_eq_nil_cons (a : Z) (l : list Z) (D : Decision ([] = a :: l)) : @bool_decide _ D = false.
Proof. by apply bool_decide_eq_false. Qed.

Lemma ip_eq_cons_nil (a : Z) (l : list Z) (D : Decision (a :: l = [])) : @bool_decide _ D = false.
Proof. by apply bool_decide_eq_false. Qed.

Lemma ip_eq_nil (D : Decision (@nil Z = [])) : @bool_decide _ D = true.
Proof. by apply bool_decide_eq_true. Qed.

Lemma land_all b : byte_value b -> Z.land b 255 = b.
Proof. intros. change 255 with (Z.ones 8). rewrite Z.land_ones by lia. apply Z.mod_small. unfold byte_value in *. lia. Qed.

Lemma land_low b : byte_value b -> Z.land b 15 = b mod 16.
Proof. intros. change 15 with (Z.ones 4). by rewrite Z.land_ones. Qed.

(** The form in which addresses are compared. *)
Definition short_ip (ip : IP) : IP := default ip (to4 ip).

Definition short_net (n : IPNet) : IP * list Z :=
  let number := short_ip (net_IP n) in
  let mask := if (List.length number =? 4)%nat && (List.length (net_Mask n) =? 16)%nat
              then drop 12 (net_Mask n) else net_Mask n in
  (masked number mask, if (List.length number =? List.length mask)%nat then mask else []).

Definition in_net (ip : IP) (n : IP * list Z) : bool :=
  negb (List.length n.2 =? 0)%nat && (List.length ip =? List.length n.2)%nat && bool_decide (masked ip n.2 = n.1).

Lemma internal_short ip : internal ip = existsb (in_net (short_ip ip)) (map short_net internal_networks).
Proof.
  unfold internal. assert (Hn : Forall (fun n => net_contains n ip = in_net (short_ip ip) (short_net n)) internal_networks).
  { set (nets := internal_networks). vm_compute in nets. subst nets. repeat constructor;
    unfold net_contains, in_net; simpl; fold (short_ip ip); f_equal; apply bool_decide_ext; done. }
  induction Hn as [|n l Hn _ IH]; [done|]. simpl. by rewrite Hn, IH.
Qed.

(** The comparison with an address, in the form in which it is made. *)
Lemma same_short ip other form : short_ip other = form -> ip_equal ip other = bool_decide (short_ip ip = form).
Proof. by intros <-. Qed.

Definition blocked_v4 (a b c d : Z) : bool :=
  (a =? 127) || ((a =? 10) || (a =? 172) && (Z.land b 240 =? 16) || (a =? 192) && (b =? 168)) ||
  (a =? 169) && (b =? 254) || (a =? 224) && (b =? 0) && (c =? 0) || (a =? 0) && (b =? 0) && (c =? 0) && (d =? 0).

Ltac compare_bytes := rewrite ?ip_eq_cons, ?ip_eq_nil_cons, ?ip_eq_cons_nil, ?ip_eq_nil.

Lemma check_v4 ip a b c d : to4 ip = Some [a; b; c; d] -> checkBlockedIP ip = blocked_v4 a b c d.
Proof.
  intros E. assert (Es : short_ip ip = [a; b; c; d]) by (unfold short_ip; by rewrite E).
  unfold checkBlockedIP, same_ip, is_loopback, is_private, is_link_local_unicast, is_link_local_multicast, is_unspecified.
  rewrite E, (same_short ip (v4InV6Prefix ++ [0; 0; 0; 0]) [0; 0; 0; 0]) by done.
  rewrite (same_short ip ipv6_zero ipv6_zero) by done.
  rewrite (eq_refl : parse_ip "169.254.169.254" = Some (v4InV6Prefix ++ [169; 254; 169; 254])).
  rewrite (same_short ip (v4InV6Prefix ++ [169; 254; 169; 254]) [169; 254; 169; 254]) by done.
  rewrite (eq_refl : parse_ip "fd00:ec2::254" = Some [253; 0; 14; 194; 0; 0; 0; 0; 0; 0; 0; 0; 0; 0; 2; 84]).
  rewrite (same_short ip [253; 0; 14; 194; 0; 0; 0; 0; 0; 0; 0; 0; 0; 0; 2; 84]
                         [253; 0; 14; 194; 0; 0; 0; 0; 0; 0; 0; 0; 0; 0; 2; 84]) by done.
  rewrite Es. unfold ipv6_zero, byte_at. simpl. compare_bytes. unfold blocked_v4. rewrite ?andb_false_r, ?orb_false_r. btauto.
Qed.

Lemma internal_v4 ip a b c d :
  to4 ip = Some [a; b; c; d] -> Forall byte_value [a; b; c; d] -> internal ip = blocked_v4 a b c d.
Proof.
  intros E Hb. rewrite !Forall_cons in Hb. destruct Hb as (Ha & Hb & Hc & Hd & _).
  rewrite internal_short. unfold short_ip at 1. rewrite E. simpl default.
  set (nets := map short_net internal_networks). vm_compute in nets. subst nets.
  unfold in_net, masked. simpl. rewrite ?Z.land_0_r, ?land_all by done. compare_bytes. unfold blocked_v4.
  rewrite ?Z.eqb_refl. btauto.
Qed.

(** The addresses of sixteen bytes that are no IPv4 address. *)
Definition blocked_v6 (ip : IP) : bool :=
  bool_decide (ip = ipv6_loopback) || bool_decide (ip = ipv6_zero) || (Z.land (byte_at ip 0) 254 =? 252) ||
  ((byte_at ip 0 =? 254) && (Z.land (byte_at ip 1) 192 =? 128)) ||
  ((byte_at ip 0 =? 255) && (Z.land (byte_at ip 1) 15 =? 2)).

Lemma check_v6 ip : to4 ip = None -> List.length ip = 16%nat -> checkBlockedIP ip = blocked_v6 ip.
Proof.
  intros E Hl. assert (Es : short_ip ip = ip) by (unfold short_ip; by rewrite E).
  unfold checkBlockedIP, same_ip, is_loopback, is_private, is_link_local_unicast, is_link_local_multicast, is_unspecified.
  rewrite E, (same_short ip (v4InV6Prefix ++ [0; 0; 0; 0]) [0; 0; 0; 0]) by done.
  rewrite (same_short ip ipv6_zero ipv6_zero), (same_short ip ipv6_loopback ipv6_loopback) by done.
  rewrite (eq_refl : parse_ip "169.254.169.254" = Some (v4InV6Prefix ++ [169; 254; 169; 254])).
  rewrite (same_short ip (v4InV6Prefix ++ [169; 254; 169; 254]) [169; 254; 169; 254]) by done.
  rewrite (eq_refl : parse_ip "fd00:ec2::254" = Some [253; 0; 14; 194; 0; 0; 0; 0; 0; 0; 0; 0; 0; 0; 2; 84]).
  rewrite (same_short ip [253; 0; 14; 194; 0; 0; 0; 0; 0; 0; 0; 0; 0; 0; 2; 84]
                         [253; 0; 14; 194; 0; 0; 0; 0; 0; 0; 0; 0; 0; 0; 2; 84]) by done.
  rewrite Es. unfold is_v6. rewrite Hl.
  rewrite (bool_decide_eq_false_2 (ip = [0; 0; 0; 0])), (bool_decide_eq_false_2 (ip = [169; 254; 169; 254]))
    by (intros ->; done).
  destruct (decide (ip = [253; 0; 14; 194; 0; 0; 0; 0; 0; 0; 0; 0; 0; 0; 2; 84])) as [->|Hm]; [done|].
  rewrite (bool_decide_eq_false_2 _ Hm). unfold blocked_v6. simpl. btauto.
Qed.

Lemma low_nibble_two b :
  byte_value b ->
  (Z.land b 15 =? 2) = existsb (Z.eqb b) [2; 18; 34; 50; 66; 82; 98; 114; 130; 146; 162; 178; 194; 210; 226; 242].
Proof. intros Hb. rewrite land_low by done. unfold byte_value in Hb. simpl. Z.div_mod_to_equations. lia. Qed.

Lemma internal_v6 ip :
  to4 ip = None -> List.length ip = 16%nat -> Forall byte_value ip -> internal ip = blocked_v6 ip.
Proof.
  intros E Hl Hb. rewrite internal_short. unfold short_ip at 1. rewrite E. simpl default. clear E.
  do 16 (destruct ip as [|?b ip]; [done|]). destruct ip; [|done].
  rewrite !Forall_cons in Hb. destruct_and! Hb.
  set (nets := map short_net internal_networks). vm_compute in nets. subst nets.
  unfold in_net, masked, blocked_v6, byte_at, ipv6_loopback, ipv6_zero. simpl.
  rewrite low_nibble_two by done. simpl.
  rewrite ?Z.land_0_r, ?land_all by done.
  do 2 match goal with
       | |- context [@bool_decide (?l = 0 :: ?k) ?D] => generalize (@bool_decide (l = 0 :: k) D); intros
       end.
  compare_bytes. rewrite ?Z.eqb_refl, ?andb_true_r, ?orb_false_r, <- ?andb_orb_distrib_r.
  match goal with |- context [(?x =? 2) || ?y] => generalize ((x =? 2) || y); intros end. btauto.
Qed.

Lemma forall_drop_length (ip : IP) : Forall byte_value ip -> List.length ip = 16%nat ->
  exists a b c d, drop 12 ip = [a; b; c; d] /\ Forall byte_value [a; b; c; d].
Proof.
  intros Hb Hl. pose proof (Forall_drop _ 12 _ Hb) as Hd. pose proof (length_drop ip 12) as Hn. rewrite Hl in Hn.
  destruct (drop 12 ip) as [|a [|b [|c [|d [|]]]]]; simplify_eq/=. by exists a, b, c, d.
Qed.

Lemma blocked_internal ip : well_formed_ip ip -> checkBlockedIP ip = internal ip.
Proof.
  intros [Hb Hl]. destruct (to4 ip) as [v4|] eqn:E.
  - enough (exists a b c d, v4 = [a; b; c; d] /\ Forall byte_value v4) as (a & b & c & d & -> & Hv)
      by (by rewrite (check_v4 _ _ _ _ _ E), (internal_v4 _ _ _ _ _ E)).
    unfold to4 in E. destruct Hl as [Hl|Hl]; rewrite Hl in E; simpl in E.
    + simplify_eq. destruct v4 as [|a [|b [|c [|d [|]]]]]; simplify_eq/=. by exists a, b, c, d.
    + case_match; simplify_eq. destruct (forall_drop_length ip) as (a & b & c & d & -> & ?); [done..|].
      by exists a, b, c, d.
  - destruct Hl as [Hl|Hl]; [unfold to4 in E; by rewrite Hl in E|]. by rewrite check_v6, internal_v6.
Qed.

(** C30: The check of callback addresses refuses exactly the addresses of the internal
    networks: an address, in four or in sixteen bytes, is blocked if and only if it
    is in a loopback, private, link-local or link-local multicast network or is
    unspecified, an IPv4 address being recognised in its IPv6 form.  The tests of
    single bytes and bits agree with the prefixes of the networks on every address. *)
Theorem blocked_addresses ip :
  well_formed_ip ip ->
  (checkBlockedIP ip = true <-> exists n, n ∈ internal_networks /\ net_contains n ip = true).
Proof.
  intros Hw. rewrite blocked_internal by done. unfold internal. rewrite existsb_exists.
  by setoid_rewrite list_elem_of_In.
Qed.

Lemma blocked_addresses_witness :
  well_formed_ip (v4InV6Prefix ++ [169; 254; 169; 254]) /\
  exists n, n ∈ internal_networks /\ net_contains n (v4InV6Prefix ++ [169; 254; 169; 254]) = true.
Proof.
  assert (Hw : well_formed_ip (v4InV6Prefix ++ [169; 254; 169; 254])).
  { split; [repeat constructor; lia|by right]. }
  split; [done|]. by apply (blocked_addresses _ Hw).
Defined.

(** ** Connections *)

Definition dial_address (port : string) (ip : IP) : string := join_host_port (ip_text ip) port.

Lemma dial_each_tried {Conn} (dialer : callbackDialer Conn) port ips a :
  a ∈ (dial_each dialer port ips).1 -> exists ip, ip ∈ ips /\ a = dial_address port ip.
Proof.
  induction ips as [|ip ips IH]; simpl; [by intros ?%elem_of_nil|].
  case_match; [|destruct (dial_each dialer port ips) as [tried conn]; simpl in *].
  - simpl. intros ->%list_elem_of_singleton. exists ip. split; [by left|done].
  - rewrite elem_of_cons. intros [->|[ip' [? ?]]%IH]; [exists ip|exists ip']; split; first [by left|by right|done].
Qed.

Lemma dial_each_conn {Conn} (dialer : callbackDialer Conn) port ips :
  (dial_each dialer port ips).2 = head (omap (fun ip => dialer (dial_address port ip)) ips).
Proof.
  induction ips as [|ip ips IH]; [done|]. simpl. fold (dial_address port ip). destruct (dialer _) eqn:E; [done|].
  destruct (dial_each dialer port ips). exact IH.
Qed.

Definition resolver_sound (dns : callbackIPResolver) : Prop :=
  forall host ips, dns host = Some ips -> Forall well_formed_ip ips.

Lemma lookup_sound dns host ips :
  resolver_sound dns -> lookupCallbackIPs dns host = Some ips -> Forall well_formed_ip ips.
Proof.
  unfold lookupCallbackIPs. intros Hd Hl. destruct (parse_ip host) as [ip|] eqn:E; [|by eapply Hd].
  simplify_eq. apply Forall_singleton. by eapply parse_ip_wf.
Qed.

Lemma resolve_exact dns host :
  resolver_sound dns ->
  resolveAndValidateCallbackHost host (lookupCallbackIPs dns) =
  (ips ← lookupCallbackIPs dns host;
   if (List.length ips =? 0)%nat || existsb internal ips then None else Some ips).
Proof.
  intros Hd. unfold resolveAndValidateCallbackHost. destruct (lookupCallbackIPs dns host) as [ips|] eqn:E; [|done].
  simpl. apply lookup_sound in E; [|done].
  replace (existsb checkBlockedIP ips) with (existsb internal ips); [by destruct (List.length ips =? 0)%nat|].
  clear Hd. induction E as [|ip ips Hip _ IH]; [done|]. simpl. by rewrite IH, blocked_internal.
Qed.

Lemma no_internal ips : existsb internal ips = false <-> Forall (fun ip => internal ip = false) ips.
Proof.
  rewrite Forall_forall. setoid_rewrite list_elem_of_In.
  rewrite <- not_true_iff_false, existsb_exists. setoid_rewrite <- not_true_iff_false. naive_solver.
Qed.

Section deliveries.
Context `{Unicode} `{Rfc3339} `{HttpClient}.

Definition http_url (u : URL) : bool :=
  (String.eqb (u_Scheme u) "http" || String.eqb (u_Scheme u) "https") && negb (String.eqb (u_Hostname u) "").

Lemma send_exact {Conn} dns (dialer : callbackDialer Conn) endpoint :
  resolver_sound dns ->
  send dns dialer endpoint =
  match (u ← url_parse endpoint; if http_url u then split_host_port (request_address u) else None) with
  | None => ([], None)
  | Some (host, port) =>
    match lookupCallbackIPs dns host with
    | None => ([], None)
    | Some ips => if existsb internal ips then ([], None) else dial_each dialer port ips
    end
  end.
Proof.
  intros Hd. unfold send, dialCallbackContext, dialCallbackContextWithResolverAndDialer, http_url.
  destruct (url_parse endpoint) as [u|]; simpl; [|done].
  destruct (String.eqb (u_Scheme u) "http" || String.eqb (u_Scheme u) "https"), (String.eqb (u_Hostname u) "");
    simpl; try done.
  destruct (split_host_port (request_address u)) as [[host port]|]; [|done].
  rewrite resolve_exact by done. destruct (lookupCallbackIPs dns host) as [ips|]; [|done]. simpl.
  destruct ips as [|ip ips]; [done|]. simpl. by destruct (_ || _).
Qed.

(** C13: Whatever URL a callback has, whoever registered it, and whatever the resolver
    answers when it is used, the server connects to no internal address: every
    address tried is one of those the resolver gave in this very lookup for the
    host of the URL, with the port of the URL, and if any of them is internal none
    is tried.  If none is internal, the connection is the first that succeeds, in
    the order of the answer, so that there is one whenever one of the addresses
    can be reached. *)
Theorem callbacks_stay_outside {Conn} dns (dialer : callbackDialer Conn) endpoint :
  resolver_sound dns ->
  (forall address, address ∈ (send dns dialer endpoint).1 ->
     exists u host port ips ip,
       url_parse endpoint = Some u /\ http_url u = true /\
       split_host_port (request_address u) = Some (host, port) /\
       lookupCallbackIPs dns host = Some ips /\ ip ∈ ips /\
       address = join_host_port (ip_text ip) port /\
       Forall (fun ip => forall n, n ∈ internal_networks -> net_contains n ip = false) ips) /\
  (forall u host port ips,
     url_parse endpoint = Some u -> http_url u = true ->
     split_host_port (request_address u) = Some (host, port) ->
     lookupCallbackIPs dns host = Some ips ->
     Forall (fun ip => forall n, n ∈ internal_networks -> net_contains n ip = false) ips ->
     (send dns dialer endpoint).2 = head (omap (fun ip => dialer (join_host_port (ip_text ip) port)) ips)).
Proof.
  intros Hd. rewrite send_exact by done.
  assert (Hin : forall ip, internal ip = false <-> forall n, n ∈ internal_networks -> net_contains n ip = false).
  { intros ip. unfold internal. rewrite <- not_true_iff_false, existsb_exists. setoid_rewrite <- list_elem_of_In.
    setoid_rewrite <- not_true_iff_false. naive_solver. }
  split.
  - intros a Ha. destruct (url_parse endpoint) as [u|]; simpl in Ha; [|by apply elem_of_nil in Ha].
    destruct (http_url u) eqn:Eu; [|by apply elem_of_nil in Ha].
    destruct (split_host_port (request_address u)) as [[host port]|] eqn:Es; [|by apply elem_of_nil in Ha].
    destruct (lookupCallbackIPs dns host) as [ips|] eqn:El; [|by apply elem_of_nil in Ha].
    destruct (existsb internal ips) eqn:Ei; [by apply elem_of_nil in Ha|].
    apply dial_each_tried in Ha as (ip & ? & ->). apply no_internal in Ei.
    exists u, host, port, ips, ip. split_and!; try done. eapply Forall_impl; [exact Ei|]. intros ip' Hip. by apply Hin.
  - intros u host port ips -> Hu Es El Hi. simpl. rewrite Hu, Es, El.
    assert (Ei : existsb internal ips = false).
    { apply no_internal. eapply Forall_impl; [exact Hi|]. intros ip Hip. by apply Hin. }
    rewrite Ei. apply dial_each_conn.
Qed.
End deliveries.

(** ** Which endpoints hear of an event *)

Lemma merge_endpoint_elem l merged e : e ∈ foldl merge_endpoint merged l <-> e ∈ merged \/ e ∈ l.
Proof.
  revert merged. induction l as [|x l IH]; intros merged; simpl; [set_solver|].
  rewrite IH. unfold merge_endpoint. case_bool_decide; set_solver.
Qed.

Lemma merge_endpoint_nodup l merged : NoDup merged -> NoDup (foldl merge_endpoint merged l).
Proof.
  revert merged. induction l as [|x l IH]; intros merged Hm; simpl; [done|]. apply IH.
  unfold merge_endpoint. case_bool_decide; [done|]. apply NoDup_app. split_and!; [done| |apply NoDup_singleton].
  set_solver.
Qed.

(** The texts of a list that are not blank, trimmed. *)
Definition trimmed (l : list string) : list string := filter (fun s => s <> "") (map trim_space l).

Lemma merge_trimmed_eq l merged : foldl merge_trimmed merged l = foldl merge_endpoint merged (trimmed l).
Proof.
  revert merged. induction l as [|x l IH]; intros merged; [done|]. unfold trimmed. simpl.
  rewrite IH. unfold merge_trimmed. rewrite filter_cons.
  destruct (String.eqb_spec (trim_space x) ""); case_decide; done.
Qed.

(** The endpoints of a call, in the order in which they are asked for. *)
Definition endpoint_sources (callID : string) (session : option RecordingSession) (n : MetadataNotifier) : list string :=
  mn_global n ++ match session with Some s => trimmed (rs_Callbacks s) | None => [] end ++
  (if String.eqb callID "" then [] else trimmed (default [] (mn_perCall n !! callID))).

Lemma collectEndpoints_eq callID session n :
  collectEndpoints callID session n = foldl merge_endpoint [] (endpoint_sources callID session n).
Proof.
  unfold collectEndpoints, endpoint_sources. rewrite !foldl_app, !merge_trimmed_eq.
  destruct session; rewrite ?merge_trimmed_eq; by destruct (String.eqb callID "").
Qed.

Section events.
Context `{Unicode} `{Rfc3339} `{HttpClient}.

(** The metadata of an event: what the handler says of it, then the snapshot of the
    session, then the metadata of the recording. *)
Definition event_field (session : option RecordingSession) (extra : gmap string Value) (k : string) : option Value :=
  match extra !! k with
  | Some v => Some v
  | None => match (m ← buildNotificationMetadata session; m !! k) with
            | Some v => Some v
            | None => s ← session; m ← rs_ExtendedMetadata s; VString <$> m !! k
            end
  end.

Lemma copy_over_lookup from into k :
  default ∅ (copy_over from into) !! k = match from !! k with Some v => Some v | None => default ∅ into !! k end.
Proof.
  unfold copy_over. case_bool_decide; [subst; by rewrite lookup_empty|]. simpl. rewrite lookup_union.
  destruct (from !! k), (default ∅ into !! k); done.
Qed.

Lemma event_metadata now session callID event extra k :
  default ∅ (ne_Metadata (event_payload now session callID event
    (default ∅ (copy_over extra (buildNotificationMetadata session))))) !! k = event_field session extra k.
Proof.
  simpl. rewrite !copy_over_lookup. unfold event_field. destruct (extra !! k); [done|].
  destruct session as [s|]; [|done].
  unfold buildNotificationMetadata. simpl. destruct (_ !! k) eqn:E; [done|]. unfold copy_keeping.
  destruct (rs_ExtendedMetadata s) as [m|]; simpl.
  - case_bool_decide as Em; simpl.
    + rewrite <- lookup_fmap. by rewrite Em.
    + by rewrite lookup_union, lookup_empty, lookup_fmap, (left_id_L None _).
  - by rewrite bool_decide_true by apply fmap_empty.
Qed.

(** An event is posted once to each distinct endpoint of its call, the configured
    ones, the callbacks of the session and those registered for the call, blank
    ones apart, and to nobody else; every endpoint gets the same body, and its
    metadata hold what the handler says of the event before the state of the
    session and that before the metadata of the recording.  With callbacks left to
    the leader, a node that does not lead posts nothing. *)
Theorem events_posted leader now session callID event extra n body :
  json_marshal (event_payload now session callID event
    (default ∅ (copy_over extra (buildNotificationMetadata session)))) = Some body ->
  let posted := notifyMetadataEvent leader now session callID event extra (Some n) in
  (forall k, default ∅ (ne_Metadata (event_payload now session callID event
     (default ∅ (copy_over extra (buildNotificationMetadata session))))) !! k = event_field session extra k) /\
  NoDup posted.*1 /\
  (mn_leaderChecker n = true -> mn_leaderOnly n = true -> leader = false -> posted = []) /\
  (mn_leaderChecker n = false \/ mn_leaderOnly n = false \/ leader = true ->
   forall endpoint b, (endpoint, b) ∈ posted <-> b = body /\
     (endpoint ∈ mn_global n \/
      (exists s, session = Some s /\ endpoint ∈ trimmed (rs_Callbacks s)) \/
      (callID <> "" /\ endpoint ∈ trimmed (default [] (mn_perCall n !! callID))))).
Proof.
  intros Hb posted. subst posted. simpl. unfold Notify. rewrite Hb. unfold isLeader.
  assert (Hp : (if (List.length (collectEndpoints callID session n) =? 0)%nat then []
                else map (fun e => (e, body)) (collectEndpoints callID session n)) =
               map (fun e => (e, body)) (collectEndpoints callID session n)).
  { by destruct (collectEndpoints callID session n). }
  rewrite Hp, collectEndpoints_eq. split; [intros k; exact (event_metadata now session callID event extra k)|]. split_and!.
  - destruct (negb _); [constructor|]. rewrite <- list_fmap_compose. apply (NoDup_fmap_2 id).
    apply merge_endpoint_nodup. constructor.
  - by intros -> -> ->.
  - intros Hl e b. replace (negb _) with false by (destruct (mn_leaderChecker n), (mn_leaderOnly n), leader; naive_solver).
    rewrite list_elem_of_fmap. setoid_rewrite merge_endpoint_elem. unfold endpoint_sources.
    setoid_rewrite elem_of_app. setoid_rewrite elem_of_app.
    destruct session as [s|], (String.eqb_spec callID ""); set_solver.
Qed.
End events.

(** ** A concrete client *)

(** URLs of the scheme http without a port. *)
Definition plain_client : HttpClient := {|
  url_parse := fun raw =>
    if has_prefix raw "http://" then
      let rest := drop_string 7 raw in
      Some (mkURL "http" false (match GoStrings.index rest "/" with Some i => take_string i rest | None => rest end) "")
    else None;
  idna_ascii := fun host => host;
  json_marshal := fun e => Some (ne_Event e)
|}.

(** A name that had a public address when it was registered and has an internal one,
    behind a public one, when it is used. *)
Definition rebinding (host : string) : option (list IP) :=
  if String.eqb host "hooks.example.com" then Some [[203; 0; 113; 7]; [169; 254; 169; 254]] else Some [[203; 0; 113; 7]].

Lemma callbacks_stay_outside_witness :
  resolver_sound rebinding /\
  (@send plain_client unit rebinding (fun _ => Some ()) "http://hooks.example.com/x").1 = [] /\
  (@send plain_client unit rebinding (fun _ => Some ()) "http://other.example.com/x").2 = Some ().
Proof.
  assert (Hr : resolver_sound rebinding).
  { intros host ips. unfold rebinding. intros. case_match; simplify_eq; repeat constructor; simpl; lia. }
  pose proof (@callbacks_stay_outside plain_client unit rebinding (fun _ => Some ()) "http://other.example.com/x" Hr) as [_ H].
  split_and!; [done|vm_compute; reflexivity|].
  rewrite (H (mkURL "http" false "other.example.com" "") "other.example.com" "80" [[203; 0; 113; 7]]);
    [reflexivity|reflexivity|reflexivity|vm_compute; reflexivity|reflexivity|].
  apply Forall_singleton. apply Forall_forall. vm_compute. repeat constructor.
Defined.

Lemma events_posted_witness :
  (@notifyMetadataEvent no_rfc3339 plain_client true 5 None "c-1" "metadata.error" ∅
     (Some (mkMetadataNotifier ["http://a"] 1 {["c-1" := [" http://b"; "http://a "]]} false false))).*1 =
    ["http://a"; "http://b"] /\
  NoDup (@notifyMetadataEvent no_rfc3339 plain_client true 5 None "c-1" "metadata.error" ∅
     (Some (mkMetadataNotifier ["http://a"] 1 {["c-1" := [" http://b"; "http://a "]]} false false))).*1.
Proof.
  split; [vm_compute; reflexivity|].
  exact (proj1 (proj2 (@events_posted no_rfc3339 plain_client true 5 None "c-1" "metadata.error" ∅
    (mkMetadataNotifier ["http://a"] 1 {["c-1" := [" http://b"; "http://a "]]} false false) "metadata.error" eq_refl))).
Defined.

(** With leader election, a call answered by another node than the leader has no
    callbacks: its node does not post them, and the leader does not know the call.
    Its endpoint has been accepted all the same. *)
Example follower_calls_unnotified :
  let n := @RegisterCallEndpoint ascii_only plain_client (fun _ => Some [[203; 0; 113; 7]]) "c-1" "http://hooks.example.com"
             (SetLeaderChecker true (@NewMetadataNotifier ascii_only plain_client (fun _ => None) [] 0)) in
  mn_perCall n !! "c-1" = Some ["http://hooks.example.com"] /\
  @notifyMetadataEvent no_rfc3339 plain_client false 5 None "c-1" "metadata.terminated" ∅ (Some n) = [] /\
  @notifyMetadataEvent no_rfc3339 plain_client true 5 None "c-1" "metadata.terminated" ∅
    (Some (SetLeaderChecker true (@NewMetadataNotifier ascii_only plain_client (fun _ => None) [] 0))) = [].
Proof. split_and!; vm_compute; reflexivity. Qed.

(** A configured URL that the notifier refused, for its credentials or its name, is
    used for every session all the same: the session carries the configured URLs. *)
Example refused_url_used :
  let session := sample_session <| rs_Callbacks := ["http://hooks.internal"] |> in
  let n := @NewMetadataNotifier ascii_only plain_client (fun _ => Some [[203; 0; 113; 7]]) ["http://hooks.internal"] 0 in
  mn_global n = [] /\
  (@notifyMetadataEvent no_rfc3339 plain_client true 5 (Some session) "c-1" "metadata.accepted" ∅ (Some n)).*1 =
    ["http://hooks.internal"].
Proof. split; vm_compute; reflexivity. Qed.
