(* ===== verification/Encryption.v ===== *)
(** * Keys and encryption

    The encryption manager ([encryption/manager.go]), the key stores it works on
    ([encryption/keystore.go]), the local key management service and the start of
    them in [main] ([encryption/kms_provider.go], [encryption/crypto_utils.go],
    [cmd/siprec/main.go]).  A key store is an interface: the theorems about the
    manager hold for every store that keeps its promises, and the file store and
    the memory store are proved to keep them.

    Keys are objects that the store and the cache of the manager share; a heap has
    them and an index stands for a pointer.  The operations run one at a time.  The
    ciphers, PBKDF2 and [encoding/json] are an interface with their documented
    laws; random bytes, the clock and the fate of every file write are inputs. *)

From S2P Require Import Prelude GoStrings GoText Digests.
From stdpp Require Import pretty.
From Stdlib Require Import Ascii String.
#[local] Open Scope string_scope.
#[local] Open Scope list_scope.
#[local] Open Scope Z_scope.

(** ** Data *)

Record EncryptionConfig := mkEncryptionConfig {
  ec_EnableRecordingEncryption : bool;
  ec_EnableMetadataEncryption : bool;
  ec_Algorithm : string;
  ec_MasterKeyPath : string;
  ec_KeyRotationInterval : Z;
  ec_KeyBackupEnabled : bool;
  ec_BackupPassword : string;
  ec_KeyBackupDir : string;
  ec_KeySize : nat;
  ec_SaltSize : nat;
  ec_PBKDF2Iterations : Z
}.

Record EncryptionKey := mkEncryptionKey {
  ek_ID : string;
  ek_Algorithm : string;
  ek_KeyData : list Z;
  ek_CreatedAt : Z;
  ek_ExpiresAt : Z;
  ek_Version : Z;
  ek_Active : bool
}.

(** [Tag], which nothing sets, is left out. *)
Record EncryptedData := mkEncryptedData {
  ed_Algorithm : string;
  ed_KeyID : string;
  ed_KeyVersion : Z;
  ed_Nonce : list Z;
  ed_Salt : list Z;
  ed_Ciphertext : list Z;
  ed_Metadata : option (gmap string string);
  ed_EncryptedAt : Z
}.

(** What a key file holds: the key without its bytes. *)
Record KeyMeta := mkKeyMeta {
  km_ID : string; km_Algorithm : string; km_CreatedAt : Z; km_ExpiresAt : Z; km_Version : Z; km_Active : bool
}.

Record keyBackupRecord := mkKeyBackupRecord {
  kb_ID : string; kb_Algorithm : string; kb_KeyData : list Z; kb_CreatedAt : Z; kb_ExpiresAt : Z;
  kb_Version : Z; kb_Active : bool; kb_BackedUpAt : Z
}.

Record EncryptionInfo := mkEncryptionInfo {
  ei_SessionID : string;
  ei_RecordingEncrypted : bool;
  ei_MetadataEncrypted : bool;
  ei_Algorithm : string;
  ei_KeyID : string;
  ei_KeyVersion : Z;
  ei_EncryptionStartedAt : Z;
  ei_StreamEncryption : bool;
  ei_StreamNonce : list Z;
  ei_StreamNonceHash : string;
  ei_StreamCreatedAt : option Z
}.

Record streamState := mkStreamState { ss_keyID : string; ss_algorithm : string; ss_nonce : list Z; ss_createdAt : Z }.

(** ** Ciphers and JSON *)

(** AES-GCM and ChaCha20-Poly1305 with nonces of twelve bytes, by key, nonce and
    data; PBKDF2 by password, salt, iterations and size. *)
Class Crypto := {
  gcm_seal : list Z -> list Z -> list Z -> list Z;
  gcm_open : list Z -> list Z -> list Z -> option (list Z);
  chacha_seal : list Z -> list Z -> list Z -> list Z;
  chacha_open : list Z -> list Z -> list Z -> option (list Z);
  pbkdf2 : string -> list Z -> Z -> nat -> list Z;
  gcm_correct : forall k n d, gcm_open k n (gcm_seal k n d) = Some d;
  gcm_overhead : forall k n d, List.length (gcm_seal k n d) = (List.length d + 16)%nat;
  chacha_correct : forall k n d, chacha_open k n (chacha_seal k n d) = Some d;
  pbkdf2_length : forall p s i n, List.length (pbkdf2 p s i n) = n
}.

(** Text that [encoding/json] keeps as it is: valid UTF-8. *)
Definition continuation (b : Z) : bool := (128 <=? b) && (b <=? 191).

Fixpoint utf8_bytes (l : list Z) : bool :=
  match l with
  | [] => true
  | a :: l1 =>
    if a <? 128 then utf8_bytes l1 else
    match l1 with
    | [] => false
    | b :: l2 =>
      if (194 <=? a) && (a <=? 223) then continuation b && utf8_bytes l2 else
      match l2 with
      | [] => false
      | c :: l3 =>
        if (224 <=? a) && (a <=? 239) then
          continuation b && (if a =? 224 then 160 <=? b else if a =? 237 then b <=? 159 else true) &&
          continuation c && utf8_bytes l3
        else
        match l3 with
        | [] => false
        | d :: l4 =>
          (240 <=? a) && (a <=? 244) &&
          continuation b && (if a =? 240 then 144 <=? b else if a =? 244 then b <=? 143 else true) &&
          continuation c && continuation d && utf8_bytes l4
        end
      end
    end
  end.

Definition valid_utf8 (s : string) : bool := utf8_bytes (string_bytes s).

Definition texts (m : gmap string string) : Prop := map_Forall (fun k v => valid_utf8 k = true /\ valid_utf8 v = true) m.

Definition key_texts (id algorithm : string) : Prop := valid_utf8 id = true /\ valid_utf8 algorithm = true.

(** An empty [Metadata] is left out of the document and read as none. *)
Definition data_texts (d : EncryptedData) : Prop :=
  key_texts (ed_KeyID d) (ed_Algorithm d) /\ match ed_Metadata d with Some params => params <> ∅ /\ texts params | None => True end.

(** A document is read back as it was written if its texts are valid UTF-8; other bytes
    are replaced.  The times are those of four-digit years. *)
Class EncJson := {
  json_data : EncryptedData -> list Z;
  read_data : list Z -> option EncryptedData;
  json_record : keyBackupRecord -> list Z;
  read_record : list Z -> option keyBackupRecord;
  json_meta : KeyMeta -> list Z;
  read_meta : list Z -> option KeyMeta;
  json_map : gmap string string -> list Z;
  read_map : list Z -> option (gmap string string);
  read_json_data : forall d, data_texts d -> read_data (json_data d) = Some d;
  read_json_record : forall r, key_texts (kb_ID r) (kb_Algorithm r) -> read_record (json_record r) = Some r;
  read_json_meta : forall m, key_texts (km_ID m) (km_Algorithm m) -> read_meta (json_meta m) = Some m;
  read_json_map : forall m, texts m -> read_map (json_map m) = Some m
}.

(** The result of an operation that may fail or panic. *)
Inductive res (A : Type) := ROk (a : A) | RErr | RPanic.
Arguments ROk {A}.
Arguments RErr {A}.
Arguments RPanic {A}.

(** [rand.Read] into so many bytes. *)
Definition random (r : nat -> Z) (n : nat) : list Z := map r (seq 0 n).

Lemma random_length r n : List.length (random r n) = n.
Proof. unfold random. by rewrite length_map, length_seq. Qed.

(** [aes.NewCipher] and [chacha20poly1305.New]. *)
Definition aes_key (k : list Z) : bool :=
  (List.length k =? 16)%nat || (List.length k =? 24)%nat || (List.length k =? 32)%nat.
Definition chacha_key (k : list Z) : bool := (List.length k =? 32)%nat.

Definition aead_nonce : nat := 12.

Section ciphers.
Context `{Crypto}.

Definition sealed (now : Z) (key : EncryptionKey) (nonce ciphertext : list Z) : EncryptedData :=
  mkEncryptedData (ek_Algorithm key) (ek_ID key) (ek_Version key) nonce [] ciphertext None now.

Definition encrypt (now : Z) (r : nat -> Z) (data : list Z) (key : EncryptionKey) : option EncryptedData :=
  let nonce := random r aead_nonce in
  if String.eqb (ek_Algorithm key) "AES-256-GCM" then
    if aes_key (ek_KeyData key) then Some (sealed now key nonce (gcm_seal (ek_KeyData key) nonce data)) else None
  else if String.eqb (ek_Algorithm key) "ChaCha20-Poly1305" then
    if chacha_key (ek_KeyData key) then Some (sealed now key nonce (chacha_seal (ek_KeyData key) nonce data)) else None
  else None.

(** Opening with a nonce of another size panics. *)
Definition opened (nonce : list Z) (plain : option (list Z)) : res (list Z) :=
  if negb (List.length nonce =? aead_nonce)%nat then RPanic
  else match plain with Some p => ROk p | None => RErr end.

Definition decrypt (d : EncryptedData) (key : EncryptionKey) : res (list Z) :=
  if String.eqb (ed_Algorithm d) "AES-256-GCM" then
    if aes_key (ek_KeyData key) then opened (ed_Nonce d) (gcm_open (ek_KeyData key) (ed_Nonce d) (ed_Ciphertext d)) else RErr
  else if String.eqb (ed_Algorithm d) "ChaCha20-Poly1305" then
    if chacha_key (ek_KeyData key) then opened (ed_Nonce d) (chacha_open (ek_KeyData key) (ed_Nonce d) (ed_Ciphertext d)) else RErr
  else RErr.

(** [encryptWithKey] and [decryptWithKey]: AES-GCM with the nonce in front. *)
Definition encryptWithKey (r : nat -> Z) (key plaintext : list Z) : option (list Z) :=
  if aes_key key then let nonce := random r aead_nonce in Some (nonce ++ gcm_seal key nonce plaintext) else None.

Definition decryptWithKey (key ciphertext : list Z) : option (list Z) :=
  if negb (aes_key key) then None
  else if (List.length ciphertext <? aead_nonce)%nat then None
  else gcm_open key (take aead_nonce ciphertext) (drop aead_nonce ciphertext).
End ciphers.

(** ** Key stores *)

#[local] Notation Heap := (list EncryptionKey).

(** The fate of a file write that truncates the file first: done, failed before the
    file was touched, or after some of the bytes. *)
Inductive write := Written | NotOpened | Torn (n : nat).

Definition written (w : write) : bool := match w with Written => true | _ => false end.

Definition write_file (name : string) (content : list Z) (w : write) (disk : gmap string (list Z)) : gmap string (list Z) :=
  match w with
  | Written => <[name := content]> disk
  | NotOpened => disk
  | Torn n => <[name := take n content]> disk
  end.

(** The two writes of [StoreKey] and its nonce. *)
Record StoreInput := mkStoreInput { si_meta : write; si_data : write; si_nonce : nat -> Z }.

Definition deactivate (k : EncryptionKey) : EncryptionKey :=
  mkEncryptionKey (ek_ID k) (ek_Algorithm k) (ek_KeyData k) (ek_CreatedAt k) (ek_ExpiresAt k) (ek_Version k) false.

(** What a key store promises: [StoreKey] keeps the key under its ID in memory,
    whether or not the files could be written; [RotateKey] marks the old key as
    inactive and keeps the new one. *)
Class KeyStore (S : Type) := {
  ks_keys : S -> gmap string nat;
  StoreKey : StoreInput -> Heap -> nat -> S -> bool * S;
  RotateKey : write -> StoreInput -> Heap -> string -> nat -> S -> bool * Heap * S;
  StoreKey_keys : forall io h p s key,
    h !! p = Some key -> ks_keys (StoreKey io h p s).2 = <[ek_ID key := p]> (ks_keys s);
  RotateKey_keys : forall w io h old p s key,
    h !! p = Some key -> ks_keys (RotateKey w io h old p s).2 = <[ek_ID key := p]> (ks_keys s);
  RotateKey_heap : forall w io h old p s,
    (RotateKey w io h old p s).1.2 =
    match ks_keys s !! old with Some q => alter deactivate q h | None => h end
}.

Definition usable (now : Z) (algorithm : string) (key : EncryptionKey) : bool :=
  String.eqb (ek_Algorithm key) algorithm && ek_Active key && (now <? ek_ExpiresAt key).

(** The newest usable key of those that a range statement visits. *)
Definition newer_key (now : Z) (algorithm : string) (h : Heap) (best : option nat) (p : nat) : option nat :=
  match h !! p with
  | Some key =>
    if usable now algorithm key then
      match best ≫= (h !!.) with
      | Some b => if ek_CreatedAt b <? ek_CreatedAt key then Some p else best
      | None => Some p
      end
    else best
  | None => best
  end.

(** *** In memory *)

Record MemoryKeyStore := mkMemoryKeyStore { mk_keys : gmap string nat }.

Definition remember (h : Heap) (p : nat) (keys : gmap string nat) : gmap string nat :=
  match h !! p with Some key => <[ek_ID key := p]> keys | None => keys end.

Definition memory_rotate (h : Heap) (old : string) (p : nat) (s : MemoryKeyStore) : bool * Heap * MemoryKeyStore :=
  let h := match mk_keys s !! old with Some q => alter deactivate q h | None => h end in
  (true, h, mkMemoryKeyStore (remember h p (mk_keys s))).

Lemma alter_deactivate_id (h : Heap) q p key :
  h !! p = Some key -> exists key', alter deactivate q h !! p = Some key' /\ ek_ID key' = ek_ID key.
Proof.
  intros Hp. destruct (decide (p = q)) as [->|].
  - rewrite list_lookup_alter_eq, Hp. by exists (deactivate key).
  - rewrite list_lookup_alter_ne by done. by exists key.
Qed.

Lemma remember_keys h p key keys : h !! p = Some key -> remember h p keys = <[ek_ID key := p]> keys.
Proof. unfold remember. by intros ->. Qed.

Lemma memory_rotate_keys h old p s key :
  h !! p = Some key -> mk_keys (memory_rotate h old p s).2 = <[ek_ID key := p]> (mk_keys s).
Proof.
  intros Hp. unfold memory_rotate. simpl. destruct (mk_keys s !! old) as [q|]; [|by apply remember_keys].
  destruct (alter_deactivate_id h q p key Hp) as (key' & Hp' & <-). by apply remember_keys.
Qed.

#[export] Instance memory_key_store : KeyStore MemoryKeyStore := {|
  ks_keys := mk_keys;
  StoreKey := fun _ h p s => (true, mkMemoryKeyStore (remember h p (mk_keys s)));
  RotateKey := fun _ _ => memory_rotate;
  StoreKey_keys := fun _ h p s key => remember_keys h p key (mk_keys s);
  RotateKey_keys := fun _ _ => memory_rotate_keys;
  RotateKey_heap := fun _ _ _ _ _ _ => eq_refl
|}.

(** *** On disk *)

Section file_store.
Context `{Crypto} `{EncJson}.

Record FileKeyStore := mkFileKeyStore {
  fk_keys : gmap string nat;
  fk_dataKey : list Z;
  fk_disk : gmap string (list Z)
}.

Definition meta_of (key : EncryptionKey) : KeyMeta :=
  mkKeyMeta (ek_ID key) (ek_Algorithm key) (ek_CreatedAt key) (ek_ExpiresAt key) (ek_Version key) (ek_Active key).

(** The files of a key. *)
Definition key_file (id : string) : string := id +:+ ".key".
Definition data_file (id : string) : string := id +:+ ".keydata".

Definition file_store (io : StoreInput) (h : Heap) (p : nat) (s : FileKeyStore) : bool * FileKeyStore :=
  match h !! p with
  | None => (false, s)
  | Some key =>
    let keys := <[ek_ID key := p]> (fk_keys s) in
    let disk := write_file (key_file (ek_ID key)) (json_meta (meta_of key)) (si_meta io) (fk_disk s) in
    if negb (written (si_meta io)) then (false, mkFileKeyStore keys (fk_dataKey s) disk)
    else match encryptWithKey (si_nonce io) (fk_dataKey s) (ek_KeyData key) with
         | None => (false, mkFileKeyStore keys (fk_dataKey s) disk)
         | Some content =>
           (written (si_data io),
            mkFileKeyStore keys (fk_dataKey s) (write_file (data_file (ek_ID key)) content (si_data io) disk))
         end
  end.

Definition deactivateKey (w : write) (h : Heap) (id : string) (s : FileKeyStore) : Heap * FileKeyStore :=
  match fk_keys s !! id with
  | None => (h, s)
  | Some q =>
    (alter deactivate q h,
     match h !! q with
     | Some key => mkFileKeyStore (fk_keys s) (fk_dataKey s)
                     (write_file (key_file id) (json_meta (meta_of (deactivate key))) w (fk_disk s))
     | None => s
     end)
  end.

Definition file_rotate (w : write) (io : StoreInput) (h : Heap) (old : string) (p : nat) (s : FileKeyStore) :
    bool * Heap * FileKeyStore :=
  let '(h, s) := deactivateKey w h old s in
  let '(ok, s) := file_store io h p s in (ok, h, s).

Lemma file_store_keys io h p s key :
  h !! p = Some key -> fk_keys (file_store io h p s).2 = <[ek_ID key := p]> (fk_keys s).
Proof. intros Hp. unfold file_store. rewrite Hp. destruct (negb _); [done|]. by destruct (encryptWithKey _ _ _). Qed.

Lemma deactivateKey_keys w h id s : fk_keys (deactivateKey w h id s).2 = fk_keys s.
Proof. unfold deactivateKey. destruct (fk_keys s !! id) as [q|]; [|done]. simpl. by destruct (h !! q). Qed.

Lemma file_rotate_keys w io h old p s key :
  h !! p = Some key -> fk_keys (file_rotate w io h old p s).2 = <[ek_ID key := p]> (fk_keys s).
Proof.
  intros Hp. unfold file_rotate.
  assert (Hd : exists key', (deactivateKey w h old s).1 !! p = Some key' /\ ek_ID key' = ek_ID key).
  { unfold deactivateKey. destruct (fk_keys s !! old) as [q|]; [|by exists key]. by apply alter_deactivate_id. }
  pose proof (deactivateKey_keys w h old s) as Hk. destruct (deactivateKey w h old s) as [h' s'].
  destruct Hd as (key' & Hp' & <-). simpl in *. pose proof (file_store_keys io h' p s' key' Hp') as Hf.
  destruct (file_store io h' p s') as [ok s'']. simpl in *. by rewrite Hf, Hk.
Qed.

Lemma file_rotate_heap w io h old p s :
  (file_rotate w io h old p s).1.2 = match fk_keys s !! old with Some q => alter deactivate q h | None => h end.
Proof.
  unfold file_rotate, deactivateKey. destruct (fk_keys s !! old) as [q|]; simpl; by destruct (file_store _ _ _ _).
Qed.

#[export] Instance file_key_store : KeyStore FileKeyStore := {|
  ks_keys := fk_keys; StoreKey := file_store; RotateKey := file_rotate;
  StoreKey_keys := file_store_keys; RotateKey_keys := file_rotate_keys; RotateKey_heap := file_rotate_heap
|}.

(** [loadKeyData]: at least a nonce and a tag. *)
Definition loadKeyData (dataKey : list Z) (content : option (list Z)) : option (list Z) :=
  c ← content; if (List.length c <? aead_nonce + 16)%nat then None else decryptWithKey dataKey c.

(** [loadKey], the object. *)
Definition loadKey (dataKey : list Z) (disk : gmap string (list Z)) (keyID : string) : option EncryptionKey :=
  raw ← disk !! key_file keyID;
  m ← read_meta raw;
  data ← loadKeyData dataKey (disk !! data_file keyID);
  Some (mkEncryptionKey (km_ID m) (km_Algorithm m) data (km_CreatedAt m) (km_ExpiresAt m) (km_Version m) (km_Active m)).

(** The IDs of the files that [loadKeys] takes for keys. *)
Definition key_name (name : string) : option string :=
  if has_suffix name ".key" && negb (has_prefix name ".")
  then Some (take_string (String.length name - 4) name) else None.

(** The key read from a file, at the end of the heap. *)
Definition load_entry (dataKey : list Z) (disk : gmap string (list Z)) (acc : Heap * gmap string nat) (id : string) :
    Heap * gmap string nat :=
  match loadKey dataKey disk id with
  | Some key => (acc.1 ++ [key], <[id := List.length acc.1]> acc.2)
  | None => acc
  end.

Definition loadKeys (dataKey : list Z) (disk : gmap string (list Z)) : Heap * gmap string nat :=
  foldl (load_entry dataKey disk) ([], ∅) (omap key_name (map_to_list disk).*1).
End file_store.

(** ** Starting the file store *)

(** What is at the path of the master key. *)
Inductive path_state := Missing | AFile (content : list Z) | ADirectory.

Section start.
Context `{Crypto} `{EncJson}.

(** [initializeMasterKey]: [env] is the variable [SIPREC_MASTER_KEY], if it is set, as
    base64 decoding gives it; [stored] is whether a file can be written there. *)
Definition initializeMasterKey (env : option (option (list Z))) (path : path_state) (r : nat -> Z) (stored : bool) :
    option (list Z * path_state) :=
  match env with
  | Some None => None
  | Some (Some key) => if (List.length key =? 32)%nat then Some (key, path) else None
  | None =>
    let fresh := random r 32 in
    match path with
    | AFile content => if (List.length content =? 32)%nat then Some (content, path)
                       else if stored then Some (fresh, AFile fresh) else None
    | Missing => if stored then Some (fresh, AFile fresh) else None
    | ADirectory => None
    end
  end.

(** [os.MkdirAll]. *)
Definition mkdir_all (path : path_state) : option path_state :=
  match path with AFile _ => None | _ => Some ADirectory end.

Definition data_key_file : string := ".data.key".

(** [initializeDataKey]: the data key and the files. *)
Definition initializeDataKey (masterKey : list Z) (disk : gmap string (list Z)) (r rn : nat -> Z) (w : write) :
    option (list Z * gmap string (list Z)) :=
  match disk !! data_key_file with
  | Some (b :: enc) => key ← decryptWithKey masterKey (b :: enc); Some (key, disk)
  | _ =>
    let key := random r 32 in
    encrypted ← encryptWithKey rn masterKey key;
    if written w then Some (key, write_file data_key_file encrypted w disk) else None
  end.

(** [NewFileKeyStore] on a directory with these files: the heap has the keys that
    were loaded. *)
Definition NewFileKeyStore (masterKey : list Z) (path : path_state) (disk : gmap string (list Z)) (r rn : nat -> Z) (w : write) :
    option (list EncryptionKey * FileKeyStore) :=
  path ← mkdir_all path;
  '(dataKey, disk) ← initializeDataKey masterKey disk r rn w;
  let '(h, keys) := loadKeys dataKey disk in
  Some (h, mkFileKeyStore keys dataKey disk).

(** The key store "file" of [main]: the key management service and the key store
    share their path. *)
Definition open_file_store (env : option (option (list Z))) (path : path_state) (disk : gmap string (list Z))
    (rm r rn : nat -> Z) (stored : bool) (w : write) : option (list EncryptionKey * FileKeyStore) :=
  '(masterKey, path) ← initializeMasterKey env path rm stored;
  NewFileKeyStore masterKey path disk r rn w.
End start.

(** ** The manager *)

Definition SupportedAlgorithms : list string := ["AES-256-GCM"; "AES-256-CBC"; "ChaCha20-Poly1305"].

Definition isAlgorithmSupported (algorithm : string) : bool := existsb (String.eqb algorithm) SupportedAlgorithms.

Record Manager (S : Type) := mkManager {
  mg_store : S;
  mg_heap : list EncryptionKey;
  mg_keyCache : gmap string nat;
  mg_sessionInfo : gmap string EncryptionInfo;
  mg_streamInfo : gmap string streamState;
  mg_backups : gmap string (list Z);
  mg_lastBackupPaths : list string
}.
Arguments mkManager {S}.
Arguments mg_store {S}.
Arguments mg_heap {S}.
Arguments mg_keyCache {S}.
Arguments mg_sessionInfo {S}.
Arguments mg_streamInfo {S}.
Arguments mg_backups {S}.
Arguments mg_lastBackupPaths {S}.

(** The inputs of an operation: the clock, the order of range statements, the random
    bytes it draws, for a key, its ID, a nonce and a salt, and the fate of what the
    key store writes. *)
Record Input := mkInput {
  in_now : Z;
  in_range : nat;
  in_key : nat -> Z;
  in_id : nat -> Z;
  in_nonce : nat -> Z;
  in_salt : nat -> Z;
  in_store : StoreInput;
  in_mark : write;
  in_restore : StoreInput
}.

Section manager.
Context `{Crypto} `{EncJson} `{!GoMapRange string} {S : Type} `{KeyStore S} (cf : EncryptionConfig).
#[local] Notation M := (Manager S).

(** Sixteen bytes of the digest of the algorithm, the time and random bytes. *)
Definition generateKeyID (algorithm : string) (i : Input) : string :=
  hex_encode (take 16 (sha256 (string_bytes
    (algorithm +:+ "-" +:+ itoa (in_now i / 1000000000) +:+ "-" +:+ hex_encode (random (in_id i) 16))))).

Definition with_store (m : M) (h : list EncryptionKey) (s : S) : M :=
  mkManager s h (mg_keyCache m) (mg_sessionInfo m) (mg_streamInfo m) (mg_backups m) (mg_lastBackupPaths m).

Definition with_cache (m : M) (cache : gmap string nat) : M :=
  mkManager (mg_store m) (mg_heap m) cache (mg_sessionInfo m) (mg_streamInfo m) (mg_backups m) (mg_lastBackupPaths m).

Definition new_key (i : Input) (algorithm : string) : EncryptionKey :=
  mkEncryptionKey (generateKeyID algorithm i) algorithm (random (in_key i) (ec_KeySize cf))
    (in_now i) (in_now i + ec_KeyRotationInterval cf) 1 true.

Definition GenerateKey (i : Input) (algorithm : string) (m : M) : option nat * M :=
  if negb (isAlgorithmSupported algorithm) then (None, m) else
  let key := new_key i algorithm in
  let p := List.length (mg_heap m) in
  let h := mg_heap m ++ [key] in
  let '(ok, s) := StoreKey (in_store i) h p (mg_store m) in
  let m := with_store m h s in
  if ok then (Some p, with_cache m (<[ek_ID key := p]> (mg_keyCache m))) else (None, m).

Definition cached_active (i : Input) (algorithm : string) (m : M) : option nat :=
  snd <$> find (fun e => match mg_heap m !! e.2 with Some key => usable (in_now i) algorithm key | None => false end)
               (map_range (in_range i) (mg_keyCache m)).

Definition store_active (i : Input) (algorithm : string) (m : M) : option nat :=
  foldl (newer_key (in_now i) algorithm (mg_heap m)) None (map_range (in_range i) (ks_keys (mg_store m))).*2.

Definition GetActiveKey (i : Input) (algorithm : string) (m : M) : option nat * M :=
  match cached_active i algorithm m with
  | Some p => (Some p, m)
  | None =>
    match store_active i algorithm m with
    | Some p => match mg_heap m !! p with
                | Some key => (Some p, with_cache m (<[ek_ID key := p]> (mg_keyCache m)))
                | None => (None, m)
                end
    | None => GenerateKey i algorithm m
    end
  end.

(** One key of the loop of [RotateKeys]. *)
Definition rotate_key (i : Input) (p : nat) (m : M) : M :=
  match mg_heap m !! p with
  | None => m
  | Some key =>
    if negb (ek_Active key && (ek_ExpiresAt key <? in_now i)) then m else
    match GenerateKey i (ek_Algorithm key) m with
    | (None, m) => m
    | (Some q, m) =>
      let '(ok, h, s) := RotateKey (in_mark i) (in_restore i) (mg_heap m) (ek_ID key) q (mg_store m) in
      let m := with_store m h s in
      if negb ok then m else
      match h !! q with
      | Some new => with_cache m (<[ek_ID new := q]> (delete (ek_ID key) (mg_keyCache m)))
      | None => m
      end
    end
  end.

(** [ListKeys] and the loop, an input for each key. *)
Definition RotateKeys (k : nat) (inputs : nat -> Input) (m : M) : M :=
  foldl (fun m e => rotate_key (inputs e.1) e.2 m) m (imap pair (map_range k (ks_keys (mg_store m))).*2).

Definition getKeyByID (keyID : string) (m : M) : option nat * M :=
  match mg_keyCache m !! keyID with
  | Some p => (Some p, m)
  | None =>
    match ks_keys (mg_store m) !! keyID with
    | None => (None, m)
    | Some p => (Some p, with_cache m (<[keyID := p]> (mg_keyCache m)))
    end
  end.

Definition new_info (now : Z) (sessionID : string) : EncryptionInfo :=
  mkEncryptionInfo sessionID false false "" "" 0 now false [] "" None.

Definition updateSessionEncryptionInfo (now : Z) (sessionID : string) (recording metadata : bool) (key : EncryptionKey) (m : M) : M :=
  let info := default (new_info now sessionID) (mg_sessionInfo m !! sessionID) in
  let info := mkEncryptionInfo (ei_SessionID info) (recording || ei_RecordingEncrypted info)
    (metadata || ei_MetadataEncrypted info) (ek_Algorithm key) (ek_ID key) (ek_Version key) (ei_EncryptionStartedAt info)
    (ei_StreamEncryption info) (ei_StreamNonce info) (ei_StreamNonceHash info) (ei_StreamCreatedAt info) in
  mkManager (mg_store m) (mg_heap m) (mg_keyCache m) (<[sessionID := info]> (mg_sessionInfo m)) (mg_streamInfo m)
    (mg_backups m) (mg_lastBackupPaths m).

Definition updateStreamEncryptionInfo (now : Z) (sessionID : string) (key : EncryptionKey) (nonce : list Z) (m : M) : M :=
  let info := default (new_info now sessionID) (mg_sessionInfo m !! sessionID) in
  let info := mkEncryptionInfo (ei_SessionID info) (ei_RecordingEncrypted info)
    (ei_MetadataEncrypted info) (ek_Algorithm key) (ek_ID key) (ek_Version key) (ei_EncryptionStartedAt info)
    true nonce (hex_encode (sha256 nonce)) (Some now) in
  mkManager (mg_store m) (mg_heap m) (mg_keyCache m) (<[sessionID := info]> (mg_sessionInfo m)) (mg_streamInfo m)
    (mg_backups m) (mg_lastBackupPaths m).

(** [EncryptRecording] and [EncryptMetadata] after their check of the configuration. *)
Definition encrypt_for (i : Input) (sessionID : string) (recording metadata : bool) (data : list Z) (m : M) :
    option EncryptedData * M :=
  match GetActiveKey i (ec_Algorithm cf) m with
  | (None, m) => (None, m)
  | (Some p, m) =>
    match mg_heap m !! p with
    | None => (None, m)
    | Some key =>
      match encrypt (in_now i) (in_nonce i) data key with
      | None => (None, m)
      | Some d => (Some d, updateSessionEncryptionInfo (in_now i) sessionID recording metadata key m)
      end
    end
  end.

Definition EncryptRecording (i : Input) (sessionID : string) (audioData : list Z) (m : M) : option EncryptedData * M :=
  if negb (ec_EnableRecordingEncryption cf) then (None, m) else encrypt_for i sessionID true false audioData m.

Definition EncryptMetadata (i : Input) (sessionID : string) (metadata : gmap string string) (m : M) : option EncryptedData * M :=
  if negb (ec_EnableMetadataEncryption cf) then (None, m) else encrypt_for i sessionID false true (json_map metadata) m.

Definition DecryptRecording (d : EncryptedData) (m : M) : res (list Z) * M :=
  match getKeyByID (ed_KeyID d) m with
  | (None, m) => (RErr, m)
  | (Some p, m) => (match mg_heap m !! p with Some key => decrypt d key | None => RErr end, m)
  end.

Definition DecryptMetadata (d : EncryptedData) (m : M) : res (gmap string string) * M :=
  match DecryptRecording d m with
  | (ROk bytes, m) => (match read_map bytes with Some x => ROk x | None => RErr end, m)
  | (RErr, m) => (RErr, m)
  | (RPanic, m) => (RPanic, m)
  end.

(** *** Streams *)

(** A stream cipher: the bytes it gives are a function of these. *)
Record StreamCipher := mkStreamCipher { sc_chacha : bool; sc_key : list Z; sc_nonce : list Z }.

(** A nonce given must have the size of the cipher; otherwise a random one is used. *)
Definition stream_nonce (size : nat) (r : nat -> Z) (provided : option (list Z)) : option (list Z) :=
  match provided with
  | None => Some (random r size)
  | Some n => if (List.length n =? size)%nat then Some n else None
  end.

Definition newStreamCipher (r : nat -> Z) (key : EncryptionKey) (provided : option (list Z)) : option StreamCipher :=
  if String.eqb (ek_Algorithm key) "AES-256-GCM" || String.eqb (ek_Algorithm key) "AES-256-CBC" then
    if aes_key (ek_KeyData key) then mkStreamCipher false (ek_KeyData key) <$> stream_nonce 16 r provided else None
  else if String.eqb (ek_Algorithm key) "ChaCha20-Poly1305" then
    nonce ← stream_nonce 12 r provided;
    if chacha_key (ek_KeyData key) then Some (mkStreamCipher true (ek_KeyData key) nonce) else None
  else None.

Definition with_stream (sessionID : string) (st : streamState) (m : M) : M :=
  mkManager (mg_store m) (mg_heap m) (mg_keyCache m) (mg_sessionInfo m) (<[sessionID := st]> (mg_streamInfo m))
    (mg_backups m) (mg_lastBackupPaths m).

Definition CreateEncryptionStream (i : Input) (sessionID : string) (m : M) : option StreamCipher * M :=
  if negb (ec_EnableRecordingEncryption cf) then (None, m) else
  match GetActiveKey i (ec_Algorithm cf) m with
  | (None, m) => (None, m)
  | (Some p, m) =>
    match mg_heap m !! p with
    | None => (None, m)
    | Some key =>
      match newStreamCipher (in_nonce i) key None with
      | None => (None, m)
      | Some c =>
        let m := with_stream sessionID (mkStreamState (ek_ID key) (ek_Algorithm key) (sc_nonce c) (in_now i)) m in
        let m := updateSessionEncryptionInfo (in_now i) sessionID true false key m in
        (Some c, updateStreamEncryptionInfo (in_now i) sessionID key (sc_nonce c) m)
      end
    end
  end.

(** The cipher of a key and a nonce that were recorded, if they are those asked for. *)
Definition recorded_stream (keyID wanted : string) (nonce : list Z) (m : M) : option (EncryptionKey * StreamCipher) * M :=
  if negb (String.eqb wanted "") && negb (String.eqb wanted keyID) then (None, m) else
  match getKeyByID keyID m with
  | (None, m) => (None, m)
  | (Some p, m) => (key ← mg_heap m !! p; c ← newStreamCipher (fun _ => 0) key (Some nonce); Some (key, c), m)
  end.

Definition CreateDecryptionStream (now : Z) (sessionID keyID : string) (m : M) : option StreamCipher * M :=
  match mg_streamInfo m !! sessionID with
  | Some st => let '(r, m) := recorded_stream (ss_keyID st) keyID (ss_nonce st) m in (snd <$> r, m)
  | None =>
    match mg_sessionInfo m !! sessionID with
    | Some info =>
      if negb (ei_StreamEncryption info) || (List.length (ei_StreamNonce info) =? 0)%nat then (None, m) else
      match recorded_stream (ei_KeyID info) keyID (ei_StreamNonce info) m with
      | (Some (key, c), m) =>
        (Some c, with_stream sessionID (mkStreamState (ek_ID key) (ek_Algorithm key) (ei_StreamNonce info) now) m)
      | (None, m) => (None, m)
      end
    | None => (None, m)
    end
  end.

Definition CleanupSession (sessionID : string) (m : M) : M :=
  mkManager (mg_store m) (mg_heap m) (mg_keyCache m) (delete sessionID (mg_sessionInfo m))
    (delete sessionID (mg_streamInfo m)) (mg_backups m) (mg_lastBackupPaths m).

Definition IsEncryptionEnabled : bool := ec_EnableRecordingEncryption cf || ec_EnableMetadataEncryption cf.

(** Without the nonce of the stream. *)
Definition GetEncryptionInfo (sessionID : string) (m : M) : EncryptionInfo :=
  match mg_sessionInfo m !! sessionID with
  | Some info => mkEncryptionInfo (ei_SessionID info) (ei_RecordingEncrypted info) (ei_MetadataEncrypted info)
      (ei_Algorithm info) (ei_KeyID info) (ei_KeyVersion info) (ei_EncryptionStartedAt info) (ei_StreamEncryption info)
      [] (ei_StreamNonceHash info) (ei_StreamCreatedAt info)
  | None => new_info 0 sessionID
  end.

(** *** Backups *)

Definition encryptBackup (i : Input) (data : list Z) : option (list Z) :=
  if String.eqb (ec_BackupPassword cf) "" then None else
  let salt := random (in_salt i) (ec_SaltSize cf) in
  let key := pbkdf2 (ec_BackupPassword cf) salt (ec_PBKDF2Iterations cf) (ec_KeySize cf) in
  d ← encrypt (in_now i) (in_nonce i) data (mkEncryptionKey "" (ec_Algorithm cf) key 0 0 0 false);
  Some (json_data (mkEncryptedData (ed_Algorithm d) (ed_KeyID d) (ed_KeyVersion d) (ed_Nonce d) salt (ed_Ciphertext d)
    (Some (<["kdf" := "PBKDF2-SHA256"]> (<["iterations" := itoa (ec_PBKDF2Iterations cf)]>
      (<["key_size" := itoa (Z.of_nat (ec_KeySize cf))]> ∅)))) (ed_EncryptedAt d))).

(** A positive number of the parameters in a backup, or the configured one. *)
Definition kdf_parameter (params : option (gmap string string)) (name : string) (configured : Z) : Z :=
  match params with
  | None => configured
  | Some m => match atoi (default "" (m !! name)) with
              | Some v => if 0 <? v then v else configured
              | None => configured
              end
  end.

Definition decryptBackup (bytes : list Z) : res (list Z) :=
  if String.eqb (ec_BackupPassword cf) "" then RErr else
  match read_data bytes with
  | None => RErr
  | Some d =>
    if (List.length (ed_Salt d) =? 0)%nat then RErr else
    let iterations := kdf_parameter (ed_Metadata d) "iterations" (ec_PBKDF2Iterations cf) in
    let keySize := kdf_parameter (ed_Metadata d) "key_size" (Z.of_nat (ec_KeySize cf)) in
    let key := pbkdf2 (ec_BackupPassword cf) (ed_Salt d) iterations (Z.to_nat keySize) in
    decrypt d (mkEncryptionKey "" (ed_Algorithm d) key 0 0 0 false)
  end.

Definition backup_record (now : Z) (key : EncryptionKey) : keyBackupRecord :=
  mkKeyBackupRecord (ek_ID key) (ek_Algorithm key) (ek_KeyData key) (ek_CreatedAt key) (ek_ExpiresAt key)
    (ek_Version key) (ek_Active key) now.

(** [backupDirectory] and the file of a key: [stamp] is the time of the backup. *)
Definition backupDirectory : string :=
  if negb (String.eqb (ec_KeyBackupDir cf) "") then ec_KeyBackupDir cf
  else (if String.eqb (ec_MasterKeyPath cf) "" then "./keys" else ec_MasterKeyPath cf) +:+ "/backups".

Definition backup_path (stamp : string) (key : EncryptionKey) : string :=
  backupDirectory +:+ "/" +:+ ek_ID key +:+ "-" +:+ stamp +:+ ".keybak".

(** The loop of [BackupKeys]: the files, and the paths or [None] after an error.
    [stored] is whether a file reached its place; the writing is atomic. *)
Fixpoint backup_loop (inputs : nat -> Input) (stored : nat -> bool) (stamp : string) (k : nat) (keys : list EncryptionKey)
    (files : gmap string (list Z)) : gmap string (list Z) * option (list string) :=
  match keys with
  | [] => (files, Some [])
  | key :: keys =>
    match encryptBackup (inputs k) (json_record (backup_record (in_now (inputs k)) key)) with
    | None => (files, None)
    | Some bytes =>
      if negb (stored k) then (files, None) else
      let '(files, paths) := backup_loop inputs stored stamp (Datatypes.S k) keys (<[backup_path stamp key := bytes]> files) in
      (files, cons (backup_path stamp key) <$> paths)
    end
  end.

(** [made] is whether the directory exists or could be made. *)
Definition BackupKeys (k : nat) (inputs : nat -> Input) (made : bool) (stored : nat -> bool) (stamp : string) (m : M) : bool * M :=
  if negb (ec_KeyBackupEnabled cf) then (true, m) else
  if negb made then (false, m) else
  let keys := omap (fun e => mg_heap m !! e.2) (map_range k (ks_keys (mg_store m))) in
  let '(files, paths) := backup_loop inputs stored stamp 0 keys (mg_backups m) in
  match paths with
  | Some paths => (true, mkManager (mg_store m) (mg_heap m) (mg_keyCache m) (mg_sessionInfo m) (mg_streamInfo m) files paths)
  | None => (false, mkManager (mg_store m) (mg_heap m) (mg_keyCache m) (mg_sessionInfo m) (mg_streamInfo m) files (mg_lastBackupPaths m))
  end.

Definition valid_record (r : keyBackupRecord) : bool :=
  negb (String.eqb (kb_ID r) "") && isAlgorithmSupported (kb_Algorithm r) && negb (List.length (kb_KeyData r) =? 0)%nat &&
  (List.length (kb_KeyData r) =? ec_KeySize cf)%nat.

Definition restored_key (r : keyBackupRecord) : EncryptionKey :=
  mkEncryptionKey (kb_ID r) (kb_Algorithm r) (kb_KeyData r) (kb_CreatedAt r) (kb_ExpiresAt r) (kb_Version r) (kb_Active r).

Definition RestoreKeyFromBackup (i : Input) (path : string) (m : M) : res nat * M :=
  match mg_backups m !! path with
  | None => (RErr, m)
  | Some bytes =>
    match decryptBackup bytes with
    | RErr => (RErr, m)
    | RPanic => (RPanic, m)
    | ROk raw =>
      match read_record raw with
      | None => (RErr, m)
      | Some r =>
        if negb (valid_record r) then (RErr, m) else
        let p := List.length (mg_heap m) in
        let h := mg_heap m ++ [restored_key r] in
        let '(ok, s) := StoreKey (in_store i) h p (mg_store m) in
        let m := with_store m h s in
        if ok then (ROk p, with_cache m (<[kb_ID r := p]> (mg_keyCache m))) else (RErr, m)
      end
    end
  end.

(** [NewManager] on a key store and the keys it has loaded. *)
Definition NewManager (i : Input) (h : list EncryptionKey) (s : S) (files : gmap string (list Z)) : option M :=
  let m := mkManager s h ∅ ∅ ∅ files [] in
  if IsEncryptionEnabled then
    match GetActiveKey i (ec_Algorithm cf) m with (Some _, m) => Some m | (None, _) => None end
  else Some m.
End manager.

(** ** Ciphertexts and keys *)

Section keys.
Context `{Crypto} `{EncJson} `{!GoMapRange string} {S : Type} `{KeyStore S} (cf : EncryptionConfig).
#[local] Notation M := (Manager S).
Implicit Types m : Manager S.

(** *** Text *)

Lemma ascii_utf8 s : ascii_string s = true -> valid_utf8 s = true.
Proof.
  unfold valid_utf8, string_bytes. induction s as [|c s IH]; [done|]. cbn [ascii_string]. intros [Hc Hs]%andb_true_iff.
  cbn [list_ascii_of_string map utf8_bytes]. unfold is_ascii in Hc. by rewrite Hc, IH.
Qed.

Lemma hex_encode_ascii l : Forall (fun b => 0 <= b < 256) l -> ascii_string (hex_encode l) = true.
Proof.
  intros Hl. induction Hl as [|b l Hb _ IH]; [done|]. cbn [hex_encode ascii_string].
  rewrite !(hex_lower_all is_ascii), IH; [done|done| |done|].
  - change 15 with (Z.ones 4). rewrite Z.land_ones by lia. apply Z.mod_pos_bound. lia.
  - rewrite Z.shiftr_div_pow2 by lia. change (2 ^ 4) with 16. split; [apply Z.div_pos; lia|apply Z.div_lt_upper_bound; lia].
Qed.

Lemma generated_text algorithm i : valid_utf8 (generateKeyID algorithm i) = true.
Proof. apply ascii_utf8, hex_encode_ascii, Forall_take, sha256_range. Qed.

Lemma supported_text algorithm : isAlgorithmSupported algorithm = true -> valid_utf8 algorithm = true.
Proof.
  unfold isAlgorithmSupported. simpl. intros Ha. repeat (apply orb_true_iff in Ha as [Ha%String.eqb_eq|Ha]; [by subst|]). done.
Qed.

Lemma digits_ascii s acc z : digits_from acc s = Some z -> ascii_string s = true.
Proof.
  revert acc. induction s as [|c s IH]; intros acc Hd; [done|]. simpl in Hd. destruct (digit c) as [d|] eqn:E; [|done].
  cbn [ascii_string]. rewrite (IH _ Hd), andb_true_r. unfold digit in E.
  destruct ((48 <=? byte_of c) && (byte_of c <=? 57)) eqn:Hc; [|done]. unfold is_ascii. lia.
Qed.

Lemma itoa_text z : valid_utf8 (itoa z) = true.
Proof.
  assert (Hn : forall n : N, ascii_string (pretty n) = true).
  { intros n. pose proof (unsigned_pretty n) as Hu. unfold unsigned in Hu. destruct (String.eqb _ _); [done|]. by eapply digits_ascii. }
  apply ascii_utf8. unfold itoa. destruct z as [|p|p]; [done|apply (Hn (N.pos p))|].
  change (pretty (Z.neg p)) with (String "-"%char (pretty (N.pos p))). cbn [ascii_string]. by rewrite Hn.
Qed.

Lemma decrypt_ext d k k' : ek_KeyData k = ek_KeyData k' -> decrypt d k = decrypt d k'.
Proof. unfold decrypt. by intros ->. Qed.

Lemma opened_random r plain : opened (random r aead_nonce) plain = match plain with Some p => ROk p | None => RErr end.
Proof. unfold opened. by rewrite random_length. Qed.

(** What a key seals it opens. *)
Lemma encrypt_decrypt now r data key d :
  encrypt now r data key = Some d -> ed_KeyID d = ek_ID key /\ decrypt d key = ROk data.
Proof.
  unfold encrypt, decrypt. intros Hd.
  destruct (String.eqb_spec (ek_Algorithm key) "AES-256-GCM") as [Ea|];
    [|destruct (String.eqb_spec (ek_Algorithm key) "ChaCha20-Poly1305") as [Ea|]; [|done]];
    destruct (_ (ek_KeyData key)) eqn:Ek in Hd; try done; simplify_eq/=; split; try done;
    rewrite Ea; simpl; rewrite Ek, opened_random, ?gcm_correct, ?chacha_correct; done.
Qed.

Definition ids (h : list EncryptionKey) : list string := map ek_ID h.

(** The ID that a key would get has not been drawn before. *)
Definition fresh (algorithm : string) (i : Input) m : Prop := generateKeyID algorithm i ∉ ids (mg_heap m).

(** Store and cache point to the keys of the names they use, keys of one name have the
    same bytes, their texts are valid UTF-8, and a backup that can be opened has
    the bytes of a key. *)
Record key_inv m : Prop := {
  ki_store : forall id p, ks_keys (mg_store m) !! id = Some p -> exists key, mg_heap m !! p = Some key /\ ek_ID key = id;
  ki_cache : forall id p, mg_keyCache m !! id = Some p -> exists key, mg_heap m !! p = Some key /\ ek_ID key = id;
  ki_cached : forall id, is_Some (mg_keyCache m !! id) -> is_Some (ks_keys (mg_store m) !! id);
  ki_same : forall p q kp kq, mg_heap m !! p = Some kp -> mg_heap m !! q = Some kq -> ek_ID kp = ek_ID kq ->
    ek_KeyData kp = ek_KeyData kq;
  ki_texts : forall p key, mg_heap m !! p = Some key -> key_texts (ek_ID key) (ek_Algorithm key);
  ki_backups : forall path bytes raw r, mg_backups m !! path = Some bytes -> decryptBackup cf bytes = ROk raw ->
    read_record raw = Some r -> exists p key, mg_heap m !! p = Some key /\ ek_ID key = kb_ID r /\ ek_KeyData key = kb_KeyData r
}.

(** No key goes away or changes its bytes. *)
Record keeps m m' : Prop := {
  kp_store : forall id, is_Some (ks_keys (mg_store m) !! id) -> is_Some (ks_keys (mg_store m') !! id);
  kp_heap : forall p key, mg_heap m !! p = Some key ->
    exists key', mg_heap m' !! p = Some key' /\ ek_ID key' = ek_ID key /\ ek_KeyData key' = ek_KeyData key
}.

#[export] Instance keeps_refl : Reflexive keeps.
Proof. intros m. split; [done|]. intros p key Hp. by exists key. Qed.

#[export] Instance keeps_trans : Transitive keeps.
Proof.
  intros m1 m2 m3 [Sa Ha] [Sb Hb]. split; [naive_solver|]. intros p key Hp.
  destruct (Ha p key Hp) as (k2 & Hp2 & E2 & D2). destruct (Hb p k2 Hp2) as (k3 & Hp3 & E3 & D3).
  exists k3. split; [done|]. split; congruence.
Qed.

(** Only the store, the keys, the cache and the backups matter. *)
Lemma inv_other m m' :
  mg_store m' = mg_store m -> mg_heap m' = mg_heap m -> mg_keyCache m' = mg_keyCache m -> mg_backups m' = mg_backups m ->
  key_inv m -> key_inv m' /\ keeps m m'.
Proof.
  intros Es Eh Ec Eb [I1 I2 I0 I3 I5 I4]. split; split; rewrite ?Es, ?Eh, ?Ec, ?Eb; try done.
  intros p key Hp. by exists key.
Qed.

(** A cache entry for a key under its name. *)
Lemma inv_cache m id p key :
  key_inv m -> mg_heap m !! p = Some key -> ek_ID key = id -> is_Some (ks_keys (mg_store m) !! id) ->
  key_inv (with_cache m (<[id := p]> (mg_keyCache m))) /\ keeps m (with_cache m (<[id := p]> (mg_keyCache m))).
Proof.
  intros [I1 I2 I0 I3 I5 I4] Hp Hid Hs. split; split; simpl; try done; [| |by intros q k Hq; exists k].
  - intros id' q. rewrite lookup_insert. case_decide as E; intros Hq; simplify_eq; [by exists key|by apply I2].
  - intros id'. rewrite lookup_insert. case_decide as E; [by subst|apply I0].
Qed.

(** A new object for a new name, or for a name with these bytes. *)
Lemma inv_store m key io :
  key_inv m -> key_texts (ek_ID key) (ek_Algorithm key) ->
  (forall q kq, mg_heap m !! q = Some kq -> ek_ID kq = ek_ID key -> ek_KeyData kq = ek_KeyData key) ->
  let h := mg_heap m ++ [key] in
  let m' := with_store m h (StoreKey io h (List.length (mg_heap m)) (mg_store m)).2 in
  key_inv m' /\ keeps m m' /\ mg_heap m' !! List.length (mg_heap m) = Some key.
Proof.
  intros [I1 I2 I0 I3 I5 I4] Htexts Hsame h m'.
  assert (Hn : h !! List.length (mg_heap m) = Some key).
  { unfold h. by rewrite lookup_app_r, Nat.sub_diag by lia. }
  assert (Hold : forall p k, mg_heap m !! p = Some k -> h !! p = Some k) by (intros; by apply lookup_app_l_Some).
  assert (Hcase : forall p k, h !! p = Some k -> mg_heap m !! p = Some k \/ k = key).
  { intros p k. unfold h. rewrite lookup_app_Some, list_lookup_singleton_Some. naive_solver. }
  pose proof (StoreKey_keys io h (List.length (mg_heap m)) (mg_store m) key Hn) as Hk.
  split; [split|split; [split|done]]; simpl; rewrite ?Hk.
  - intros id p. rewrite lookup_insert. case_decide as E; intros Hp; simplify_eq; [by exists key|].
    destruct (I1 _ _ Hp) as (k & ? & ?). exists k. split; [by apply Hold|done].
  - intros id p Hp. destruct (I2 _ _ Hp) as (k & ? & ?). exists k. split; [by apply Hold|done].
  - intros id Hid. rewrite lookup_insert. case_decide; [done|by apply I0].
  - intros p q kp kq [Hp| ->]%Hcase [Hq| ->]%Hcase Hid; try done.
    + by eapply I3.
    + by apply (Hsame p).
    + symmetry. by apply (Hsame q).
  - intros p k [Hp| ->]%Hcase; [by eapply I5|done].
  - intros path bytes raw r Hb Hd Hr. destruct (I4 _ _ _ _ Hb Hd Hr) as (p & k & ? & ? & ?).
    exists p, k. split; [by apply Hold|done].
  - intros id Hid. rewrite lookup_insert. case_decide; [done|done].
  - intros p k Hp. exists k. split; [by apply Hold|done].
Qed.

(** [GenerateKey], whether or not the files could be written. *)
Lemma GenerateKey_inv i algorithm m :
  key_inv m -> fresh algorithm i m ->
  key_inv (GenerateKey cf i algorithm m).2 /\ keeps m (GenerateKey cf i algorithm m).2 /\
  forall p, (GenerateKey cf i algorithm m).1 = Some p -> exists key, mg_heap (GenerateKey cf i algorithm m).2 !! p = Some key /\
    ks_keys (mg_store (GenerateKey cf i algorithm m).2) !! ek_ID key = Some p.
Proof.
  intros Hi Hf. unfold GenerateKey. destruct (negb _) eqn:Ealg; [done|].
  destruct (inv_store m (new_key cf i algorithm) (in_store i) Hi) as (Hi' & Hk & Hh).
  { split; [apply generated_text|by apply supported_text, negb_false_iff]. }
  { intros q kq Hq Hid. destruct Hf. unfold ids. rewrite <- (eq_refl : ek_ID (new_key cf i algorithm) = generateKeyID algorithm i).
    rewrite <- Hid. apply list_elem_of_fmap_2, (list_elem_of_lookup_2 _ _ _ Hq). }
  pose proof (StoreKey_keys (in_store i) (mg_heap m ++ [new_key cf i algorithm]) (List.length (mg_heap m)) (mg_store m) _ Hh) as Hs.
  destruct (StoreKey _ _ _ _) as [ok s]. simpl in *. destruct ok; [|done].
  assert (Hin : is_Some (ks_keys s !! ek_ID (new_key cf i algorithm))) by (rewrite Hs, lookup_insert_eq; done).
  destruct (inv_cache _ _ _ _ Hi' Hh eq_refl Hin) as [Hi'' Hk'']. split; [done|]. split; [by etrans|].
  intros p [= <-]. exists (new_key cf i algorithm). split; [done|]. simpl. rewrite Hs. apply lookup_insert_eq.
Qed.

Lemma store_active_in i algorithm m p : store_active i algorithm m = Some p ->
  exists id, ks_keys (mg_store m) !! id = Some p.
Proof.
  unfold store_active.
  assert (Hg : forall l best, foldl (newer_key (in_now i) algorithm (mg_heap m)) best l = Some p -> best = Some p \/ p ∈ l).
  { induction l as [|q l IH]; intros best; simpl; [naive_solver|]. intros [Hb|Hb]%IH; [|set_solver].
    unfold newer_key in Hb. repeat case_match; simplify_eq; set_solver. }
  intros [?|(e & -> & He)%list_elem_of_fmap]%Hg; [done|]. destruct e as [id q]. exists id. by apply elem_of_map_range in He.
Qed.

Lemma cached_active_in i algorithm m p : cached_active i algorithm m = Some p -> exists id, mg_keyCache m !! id = Some p.
Proof.
  unfold cached_active. destruct (find _ _) as [[id q]|] eqn:E; [|done]. intros [= <-].
  apply find_some in E as [He _]. exists id. by apply list_elem_of_In, elem_of_map_range in He.
Qed.

Lemma GetActiveKey_inv i algorithm m :
  key_inv m -> fresh algorithm i m ->
  key_inv (GetActiveKey cf i algorithm m).2 /\ keeps m (GetActiveKey cf i algorithm m).2 /\
  forall p, (GetActiveKey cf i algorithm m).1 = Some p -> exists key, mg_heap (GetActiveKey cf i algorithm m).2 !! p = Some key /\
    is_Some (ks_keys (mg_store (GetActiveKey cf i algorithm m).2) !! ek_ID key).
Proof.
  intros Hi Hf. unfold GetActiveKey. destruct (cached_active i algorithm m) as [p|] eqn:Ec.
  { split; [done|]. split; [done|]. intros q [= <-]. apply cached_active_in in Ec as (id & Hid).
    destruct (ki_cache m Hi _ _ Hid) as (key & Hp & <-). exists key. split; [done|]. by apply (ki_cached m Hi), (mk_is_Some _ p). }
  destruct (store_active i algorithm m) as [p|] eqn:Es.
  { apply store_active_in in Es as (id & Hid). destruct (ki_store m Hi _ _ Hid) as (key & Hp & <-). rewrite Hp. simpl.
    destruct (inv_cache m _ p key Hi Hp eq_refl (mk_is_Some _ _ Hid)) as [Hi' Hk'].
    split; [done|]. split; [done|]. intros q [= <-]. by exists key. }
  destruct (GenerateKey_inv i algorithm m Hi Hf) as (Hi' & Hk & Hp). split; [done|]. split; [done|].
  intros p (key & Hh & Hs)%Hp. by exists key.
Qed.

Lemma getKeyByID_inv id m :
  key_inv m -> key_inv (getKeyByID id m).2 /\ keeps m (getKeyByID id m).2 /\ mg_heap (getKeyByID id m).2 = mg_heap m /\
  match (getKeyByID id m).1 with
  | Some p => exists key, mg_heap m !! p = Some key /\ ek_ID key = id
  | None => ks_keys (mg_store m) !! id = None
  end.
Proof.
  intros Hi. unfold getKeyByID. destruct (mg_keyCache m !! id) as [p|] eqn:Ec.
  { split_and!; try done. by apply (ki_cache m Hi). }
  destruct (ks_keys (mg_store m) !! id) as [p|] eqn:Es; [|done].
  destruct (ki_store m Hi _ _ Es) as (key & Hp & Hid).
  destruct (inv_cache m _ p key Hi Hp Hid (mk_is_Some _ _ Es)) as [Hi' Hk']. split_and!; try done. by exists key.
Qed.

(** A key is marked as inactive. *)
Lemma inv_deactivate m q h s key p :
  key_inv m -> mg_heap m !! p = Some key -> h = alter deactivate q (mg_heap m) \/ h = mg_heap m ->
  ks_keys s = <[ek_ID key := p]> (ks_keys (mg_store m)) ->
  key_inv (with_store m h s) /\ keeps m (with_store m h s).
Proof.
  intros [I1 I2 I0 I3 I5 I4] Hp Hh Hs.
  assert (Hfwd : forall r k, mg_heap m !! r = Some k ->
    exists k', h !! r = Some k' /\ ek_ID k' = ek_ID k /\ ek_KeyData k' = ek_KeyData k).
  { intros r k Hr. destruct Hh as [-> | ->]; [|by exists k].
    destruct (decide (r = q)) as [->|]; [rewrite list_lookup_alter_eq, Hr; by exists (deactivate k)|].
    rewrite list_lookup_alter_ne by done. by exists k. }
  assert (Hbwd : forall r k', h !! r = Some k' ->
    exists k, mg_heap m !! r = Some k /\ ek_ID k' = ek_ID k /\ ek_KeyData k' = ek_KeyData k /\ ek_Algorithm k' = ek_Algorithm k).
  { intros r k' Hr. destruct Hh as [-> | ->]; [|by exists k'].
    destruct (decide (r = q)) as [->|]; [rewrite list_lookup_alter_eq in Hr|rewrite list_lookup_alter_ne in Hr by done; by exists k'].
    destruct (mg_heap m !! q) as [k|]; [|done]. simpl in Hr. simplify_eq. by exists k. }
  split; split; simpl; rewrite ?Hs; try done.
  - intros id r. rewrite lookup_insert. case_decide as E; intros Hr.
    + simplify_eq. destruct (Hfwd _ _ Hp) as (k' & ? & ? & _). by exists k'.
    + destruct (I1 _ _ Hr) as (k & Hk & <-). destruct (Hfwd _ _ Hk) as (k' & ? & ? & _). by exists k'.
  - intros id r Hr. destruct (I2 _ _ Hr) as (k & Hk & <-). destruct (Hfwd _ _ Hk) as (k' & ? & ? & _). by exists k'.
  - intros id Hid. rewrite lookup_insert. case_decide; [done|by apply I0].
  - intros r r' k k' (k0 & Hk0 & E0 & D0 & _)%Hbwd (k1 & Hk1 & E1 & D1 & _)%Hbwd Hid.
    rewrite D0, D1. eapply I3; [done..|congruence].
  - intros r k' (k & Hk & -> & _ & ->)%Hbwd. by eapply I5.
  - intros path bytes raw r Hb Hd Hr. destruct (I4 _ _ _ _ Hb Hd Hr) as (p' & k & Hk & ? & ?).
    destruct (Hfwd _ _ Hk) as (k' & ? & ? & ?). exists p', k'. split; [done|]. split; congruence.
  - intros id Hid. rewrite lookup_insert. by case_decide.
Qed.

Definition fresh_rotation (i : Input) (p : nat) m : Prop :=
  forall key, mg_heap m !! p = Some key -> fresh (ek_Algorithm key) i m.

Lemma rotate_key_inv i p m :
  key_inv m -> fresh_rotation i p m -> key_inv (rotate_key cf i p m) /\ keeps m (rotate_key cf i p m).
Proof.
  intros Hi Hf. unfold rotate_key. destruct (mg_heap m !! p) as [key|] eqn:Ep; [|done].
  destruct (negb _); [done|].
  destruct (GenerateKey_inv i (ek_Algorithm key) m Hi (Hf key Ep)) as (Hi1 & Hk1 & Hq).
  destruct (GenerateKey cf i (ek_Algorithm key) m) as [[q|] m1]; simpl in *; [|done].
  destruct (Hq q eq_refl) as (new & Hnew & Hstored).
  pose proof (RotateKey_keys (in_mark i) (in_restore i) (mg_heap m1) (ek_ID key) q (mg_store m1) new Hnew) as Hs.
  pose proof (RotateKey_heap (in_mark i) (in_restore i) (mg_heap m1) (ek_ID key) q (mg_store m1)) as Hh.
  destruct (RotateKey _ _ _ _ _ _) as [[ok h] s]. simpl in Hs, Hh.
  assert (Hc : exists q', h = alter deactivate q' (mg_heap m1) \/ h = mg_heap m1).
  { subst h. destruct (ks_keys (mg_store m1) !! ek_ID key) as [q'|]; [exists q'; by left|exists 0%nat; by right]. }
  destruct Hc as (q' & Hc). destruct (inv_deactivate m1 q' h s new q Hi1 Hnew Hc Hs) as [Hi2 Hk2].
  destruct ok; simpl; [|split; [done|by etrans]].
  destruct (h !! q) as [new'|] eqn:Eh; [|split; [done|by etrans]].
  assert (Hi3 : key_inv (with_cache (with_store m1 h s) (delete (ek_ID key) (mg_keyCache m1))) /\
                keeps (with_store m1 h s) (with_cache (with_store m1 h s) (delete (ek_ID key) (mg_keyCache m1)))).
  { destruct Hi2 as [J1 J2 J0 J3 J5 J4]. split; split; simpl in *; try done.
    - intros id r Hr. apply lookup_delete_Some in Hr as [_ Hr]. by apply J2.
    - intros id [r Hr]. apply lookup_delete_Some in Hr as [_ Hr]. by apply J0, (mk_is_Some _ r).
    - intros r k Hk. by exists k. }
  destruct Hi3 as [Hi3 Hk3].
  destruct (inv_cache _ (ek_ID new') q new' Hi3 Eh eq_refl) as [Hi4 Hk4].
  { simpl. assert (E : ek_ID new' = ek_ID new).
    { destruct Hk2 as [_ Hkh]. destruct (Hkh q new Hnew) as (k' & Hk' & E & _). simpl in Hk'. congruence. }
    rewrite E, Hs, lookup_insert_eq. done. }
  split; [exact Hi4|]. etrans; [exact Hk1|]. etrans; [exact Hk2|]. etrans; [exact Hk3|exact Hk4].
Qed.

(** The names drawn in a rotation are new, each when it is drawn. *)
Fixpoint fresh_rotations (inputs : nat -> Input) (l : list (nat * nat)) m : Prop :=
  match l with
  | [] => True
  | e :: l => fresh_rotation (inputs e.1) e.2 m /\ fresh_rotations inputs l (rotate_key cf (inputs e.1) e.2 m)
  end.

Definition rotation_list (k : nat) m : list (nat * nat) := imap pair (map_range k (ks_keys (mg_store m))).*2.

Lemma RotateKeys_inv k inputs m :
  key_inv m -> fresh_rotations inputs (rotation_list k m) m ->
  key_inv (RotateKeys cf k inputs m) /\ keeps m (RotateKeys cf k inputs m).
Proof.
  unfold RotateKeys. fold (rotation_list k m). generalize (rotation_list k m). intros l. revert m.
  induction l as [|e l IH]; intros m Hi Hf; simpl; [done|]. destruct Hf as [He Hf].
  destruct (rotate_key_inv _ _ _ Hi He) as [Hi' Hk']. destruct (IH _ Hi' Hf) as [Hi'' Hk'']. split; [done|by etrans].
Qed.

(** What has been encrypted can be decrypted with a key of the store. *)
Definition readable (d : EncryptedData) (data : list Z) m : Prop :=
  is_Some (ks_keys (mg_store m) !! ed_KeyID d) /\
  exists p key, mg_heap m !! p = Some key /\ ek_ID key = ed_KeyID d /\ decrypt d key = ROk data.

Lemma readable_kept d data m m' : readable d data m -> keeps m m' -> readable d data m'.
Proof.
  intros [Hs (p & key & Hp & Hid & Hd)] [Ks Kh]. split; [by apply Ks|].
  destruct (Kh p key Hp) as (key' & Hp' & Hid' & Hd'). exists p, key'.
  split_and!; [done|congruence|]. by rewrite (decrypt_ext d key' key).
Qed.

Lemma DecryptRecording_inv d m : key_inv m -> key_inv (DecryptRecording d m).2 /\ keeps m (DecryptRecording d m).2.
Proof.
  intros Hi. unfold DecryptRecording. destruct (getKeyByID_inv (ed_KeyID d) m Hi) as (Hi' & Hk & _).
  by destruct (getKeyByID (ed_KeyID d) m) as [[p|] m'].
Qed.

Lemma readable_decrypts d data m : key_inv m -> readable d data m -> (DecryptRecording d m).1 = ROk data.
Proof.
  intros Hi [[q Hs] (p & key & Hp & Hid & Hd)]. unfold DecryptRecording.
  destruct (getKeyByID_inv (ed_KeyID d) m Hi) as (_ & _ & Hh & Hr).
  destruct (getKeyByID (ed_KeyID d) m) as [[r|] m']; simpl in *; [|congruence].
  destruct Hr as (key' & Hr & Hid'). rewrite Hh, Hr, <- Hd. apply decrypt_ext.
  eapply (ki_same m Hi); [done..|congruence].
Qed.

Lemma encrypt_for_inv i sid recording metadata data m :
  key_inv m -> fresh (ec_Algorithm cf) i m ->
  key_inv (encrypt_for cf i sid recording metadata data m).2 /\ keeps m (encrypt_for cf i sid recording metadata data m).2 /\
  forall d, (encrypt_for cf i sid recording metadata data m).1 = Some d ->
    readable d data (encrypt_for cf i sid recording metadata data m).2.
Proof.
  intros Hi Hf. unfold encrypt_for. destruct (GetActiveKey_inv i (ec_Algorithm cf) m Hi Hf) as (Hi' & Hk & Hp).
  destruct (GetActiveKey cf i (ec_Algorithm cf) m) as [[p|] m']; simpl in *; [|done].
  destruct (Hp p eq_refl) as (key & Hh & Hs). rewrite Hh.
  destruct (encrypt (in_now i) (in_nonce i) data key) as [d|] eqn:Ed; simpl; [|done].
  destruct (inv_other m' (updateSessionEncryptionInfo (in_now i) sid recording metadata key m') eq_refl eq_refl eq_refl eq_refl Hi')
    as [Hi'' Hk'']. split; [done|]. split; [by etrans|].
  intros d' [= <-]. apply encrypt_decrypt in Ed as [Eid Ed]. split; [by rewrite Eid|]. by exists p, key.
Qed.

Lemma recorded_stream_inv keyID wanted nonce m :
  key_inv m -> key_inv (recorded_stream keyID wanted nonce m).2 /\ keeps m (recorded_stream keyID wanted nonce m).2.
Proof.
  intros Hi. unfold recorded_stream. destruct (_ && _); [done|].
  destruct (getKeyByID_inv keyID m Hi) as (Hi' & Hk & _). by destruct (getKeyByID keyID m) as [[p|] m'].
Qed.

Lemma CreateEncryptionStream_inv i sid m :
  key_inv m -> fresh (ec_Algorithm cf) i m ->
  key_inv (CreateEncryptionStream cf i sid m).2 /\ keeps m (CreateEncryptionStream cf i sid m).2.
Proof.
  intros Hi Hf. unfold CreateEncryptionStream. destruct (negb _); [done|].
  destruct (GetActiveKey_inv i (ec_Algorithm cf) m Hi Hf) as (Hi' & Hk & _).
  destruct (GetActiveKey cf i (ec_Algorithm cf) m) as [[p|] m']; simpl in *; [|done].
  destruct (mg_heap m' !! p) as [key|]; [|done]. destruct (newStreamCipher _ _ _) as [c|]; [|done]. simpl.
  edestruct (inv_other m') as [Hi'' Hk'']; [..|exact Hi'|split; [exact Hi''|by etrans]]; done.
Qed.

Lemma CreateDecryptionStream_inv now sid keyID m :
  key_inv m -> key_inv (CreateDecryptionStream now sid keyID m).2 /\ keeps m (CreateDecryptionStream now sid keyID m).2.
Proof.
  intros Hi. unfold CreateDecryptionStream. destruct (mg_streamInfo m !! sid) as [st|].
  - pose proof (recorded_stream_inv (ss_keyID st) keyID (ss_nonce st) m Hi). by destruct (recorded_stream _ _ _ _).
  - destruct (mg_sessionInfo m !! sid) as [info|]; [|done]. destruct (_ || _); [done|].
    destruct (recorded_stream_inv (ei_KeyID info) keyID (ei_StreamNonce info) m Hi) as [Hi' Hk].
    destruct (recorded_stream _ _ _ _) as [[[key c]|] m']; [|done]. simpl in *.
    edestruct (inv_other m') as [Hi'' Hk'']; [..|exact Hi'|split; [exact Hi''|by etrans]]; done.
Qed.

(** *** Backups *)

(** The numbers of the configuration are integers of the machine. *)
Definition sound_config (c : EncryptionConfig) : Prop :=
  in_s 64 (ec_PBKDF2Iterations c) /\ in_s 64 (Z.of_nat (ec_KeySize c)).

Lemma kdf_recorded params name z configured :
  in_s 64 z -> params !! name = Some (itoa z) -> (0 < z \/ z = configured) -> kdf_parameter (Some params) name configured = z.
Proof.
  intros Hz Hp Hc. unfold kdf_parameter. rewrite Hp. simpl. rewrite atoi_itoa by done.
  destruct (Z.ltb_spec 0 z); [done|]. destruct Hc; [lia|done].
Qed.

Lemma encrypt_texts now r data algorithm k d :
  encrypt now r data (mkEncryptionKey "" algorithm k 0 0 0 false) = Some d -> key_texts (ed_KeyID d) (ed_Algorithm d).
Proof.
  unfold encrypt. cbn [ek_Algorithm ek_KeyData]. destruct (String.eqb_spec algorithm "AES-256-GCM") as [->|];
    [|destruct (String.eqb_spec algorithm "ChaCha20-Poly1305") as [->|]; [|done]];
    (destruct (_ k); [|done]); intros [= <-]; done.
Qed.

Lemma kdf_texts a b : texts (<["kdf" := "PBKDF2-SHA256"]> (<["iterations" := itoa a]> (<["key_size" := itoa b]> ∅))).
Proof. unfold texts. repeat apply map_Forall_insert_2; [by split|split; [done|apply itoa_text]..|apply map_Forall_empty]. Qed.

(** A backup opens with the same password, whatever the other parameters have become,
    if those it was made with are positive. *)
Lemma backup_opens (c c' : EncryptionConfig) i data bytes :
  encryptBackup c i data = Some bytes -> sound_config c -> ec_BackupPassword c' = ec_BackupPassword c ->
  (0 < ec_PBKDF2Iterations c \/ ec_PBKDF2Iterations c = ec_PBKDF2Iterations c') ->
  (0 < ec_KeySize c \/ ec_KeySize c = ec_KeySize c')%nat ->
  decryptBackup c' bytes = if (ec_SaltSize c =? 0)%nat then RErr else ROk data.
Proof.
  unfold encryptBackup, decryptBackup. intros Hb [Hi Hk] Hpw Hit Hks. rewrite Hpw.
  destruct (String.eqb (ec_BackupPassword c) ""); [done|].
  destruct (encrypt _ _ _ _) as [d|] eqn:Ed; [|done]. simpl in Hb. injection Hb as <-.
  rewrite read_json_data by (split; [exact (encrypt_texts _ _ _ _ _ _ Ed)|split; [apply insert_non_empty|apply kdf_texts]]).
  cbn [ed_Salt ed_Metadata ed_Algorithm]. rewrite random_length.
  destruct (ec_SaltSize c =? 0)%nat; [done|].
  rewrite (kdf_recorded _ "iterations" (ec_PBKDF2Iterations c)); [|done|done|done].
  rewrite (kdf_recorded _ "key_size" (Z.of_nat (ec_KeySize c))); [|done|done|lia].
  rewrite Nat2Z.id. apply encrypt_decrypt in Ed as [_ Ed].
  erewrite <- Ed. unfold decrypt. simpl. done.
Qed.

Lemma valid_record_algorithm (c : EncryptionConfig) r : valid_record c r = true -> isAlgorithmSupported (kb_Algorithm r) = true.
Proof. unfold valid_record. rewrite !andb_true_iff. naive_solver. Qed.

Lemma backup_loop_files inputs stored stamp k keys files path bytes :
  (backup_loop cf inputs stored stamp k keys files).1 !! path = Some bytes ->
  files !! path = Some bytes \/
  exists j key, key ∈ keys /\ encryptBackup cf (inputs j) (json_record (backup_record (in_now (inputs j)) key)) = Some bytes.
Proof.
  revert k files. induction keys as [|key keys IH]; intros k files; simpl; [by left|].
  destruct (encryptBackup _ _ _) as [b|] eqn:Eb; [|by left]. destruct (negb _); [by left|].
  specialize (IH (Datatypes.S k) (<[backup_path cf stamp key := b]> files)).
  destruct (backup_loop _ _ _ _ _ _ _) as [files' paths]. simpl in *. intros [Hp|(j & key' & Hin & He)]%IH.
  - rewrite lookup_insert in Hp. case_decide; [|by left]. simplify_eq. right. exists k, key. split; [by left|done].
  - right. exists j, key'. split; [by right|done].
Qed.

Lemma BackupKeys_inv k inputs made stored stamp m :
  sound_config cf -> key_inv m ->
  key_inv (BackupKeys cf k inputs made stored stamp m).2 /\ keeps m (BackupKeys cf k inputs made stored stamp m).2.
Proof.
  intros Hcf Hi. unfold BackupKeys. destruct (negb _); [done|]. destruct (negb _); [done|].
  set (keys := omap _ _).
  assert (Hkeys : forall key, key ∈ keys -> exists p, mg_heap m !! p = Some key).
  { intros key (e & _ & He)%list_elem_of_omap. by exists e.2. }
  pose proof (backup_loop_files inputs stored stamp 0 keys (mg_backups m)) as Hf.
  destruct (backup_loop _ _ _ _ _ _ _) as [files paths]. simpl in Hf.
  assert (Hnew : forall last, let m' := mkManager (mg_store m) (mg_heap m) (mg_keyCache m) (mg_sessionInfo m) (mg_streamInfo m) files last in
    key_inv m' /\ keeps m m').
  { intros last. destruct Hi as [I1 I2 I0 I3 I5 I4]. split; split; simpl; try done; [|by intros p key Hp; exists key].
    intros path bytes raw r Hb Hd Hr. destruct (Hf _ _ Hb) as [Hold|(j & key & Hin & He)]; [by eapply I4|].
    rewrite (backup_opens cf cf _ _ _ He Hcf eq_refl (or_intror eq_refl) (or_intror eq_refl)) in Hd.
    destruct (ec_SaltSize cf =? 0)%nat; [done|]. simplify_eq. destruct (Hkeys key Hin) as (p & Hp).
    rewrite read_json_record in Hr by (by eapply I5). simplify_eq. by exists p, key. }
  destruct paths; apply Hnew.
Qed.

Lemma RestoreKeyFromBackup_inv i path m :
  key_inv m -> key_inv (RestoreKeyFromBackup cf i path m).2 /\ keeps m (RestoreKeyFromBackup cf i path m).2.
Proof.
  intros Hi. unfold RestoreKeyFromBackup. destruct (mg_backups m !! path) as [bytes|] eqn:Eb; [|done].
  destruct (decryptBackup cf bytes) as [raw| |] eqn:Ed; [|done|done].
  destruct (read_record raw) as [r|] eqn:Er; [|done]. destruct (negb _) eqn:Ev; [done|].
  destruct (ki_backups m Hi _ _ _ _ Eb Ed Er) as (p & key & Hp & Hid & Hdata).
  destruct (inv_store m (restored_key r) (in_store i) Hi) as (Hi' & Hk & Hh).
  { apply negb_false_iff in Ev. split; simpl; [rewrite <- Hid; by apply (ki_texts m Hi p)|by apply supported_text, (valid_record_algorithm cf)]. }
  { intros q kq Hq Hid'. simpl in *. rewrite <- Hdata. eapply (ki_same m Hi); [done..|congruence]. }
  pose proof (StoreKey_keys (in_store i) (mg_heap m ++ [restored_key r]) (List.length (mg_heap m)) (mg_store m) _ Hh) as Hs.
  destruct (StoreKey _ _ _ _) as [ok s]. simpl in *. destruct ok; [|done].
  destruct (inv_cache _ (kb_ID r) _ _ Hi' Hh eq_refl) as [Hi'' Hk'']; [simpl; by rewrite Hs, lookup_insert_eq|].
  split; [done|by etrans].
Qed.

(** ** The life of a manager *)

(** One operation; [ok] is what is assumed of its inputs. *)
Inductive step (ok : Input -> Prop) : M -> M -> Prop :=
| step_generate i algorithm m : ok i -> fresh algorithm i m -> step ok m (GenerateKey cf i algorithm m).2
| step_active i algorithm m : ok i -> fresh algorithm i m -> step ok m (GetActiveKey cf i algorithm m).2
| step_rotate k inputs m : (forall j, ok (inputs j)) -> fresh_rotations inputs (rotation_list k m) m ->
    step ok m (RotateKeys cf k inputs m)
| step_encrypt_recording i sid audio m : ok i -> fresh (ec_Algorithm cf) i m -> step ok m (EncryptRecording cf i sid audio m).2
| step_encrypt_metadata i sid x m : ok i -> fresh (ec_Algorithm cf) i m -> step ok m (EncryptMetadata cf i sid x m).2
| step_decrypt d m : step ok m (DecryptRecording d m).2
| step_encryption_stream i sid m : ok i -> fresh (ec_Algorithm cf) i m -> step ok m (CreateEncryptionStream cf i sid m).2
| step_decryption_stream now sid keyID m : step ok m (CreateDecryptionStream now sid keyID m).2
| step_cleanup sid m : step ok m (CleanupSession sid m)
| step_backup k inputs made stored stamp m : step ok m (BackupKeys cf k inputs made stored stamp m).2
| step_restore i path m : ok i -> step ok m (RestoreKeyFromBackup cf i path m).2.

Lemma step_inv ok m m' : sound_config cf -> step ok m m' -> key_inv m -> key_inv m' /\ keeps m m'.
Proof.
  intros Hcf Hstep Hi. destruct Hstep.
  - by destruct (GenerateKey_inv i algorithm m Hi) as (? & ? & _).
  - by destruct (GetActiveKey_inv i algorithm m Hi) as (? & ? & _).
  - by apply RotateKeys_inv.
  - unfold EncryptRecording. destruct (negb _); [done|].
    by destruct (encrypt_for_inv i sid true false audio m Hi) as (? & ? & _).
  - unfold EncryptMetadata. destruct (negb _); [done|].
    by destruct (encrypt_for_inv i sid false true (json_map x) m Hi) as (? & ? & _).
  - by apply DecryptRecording_inv.
  - by apply CreateEncryptionStream_inv.
  - by apply CreateDecryptionStream_inv.
  - by apply inv_other.
  - by apply BackupKeys_inv.
  - by apply RestoreKeyFromBackup_inv.
Qed.

Lemma steps_inv ok m m' : sound_config cf -> rtc (step ok) m m' -> key_inv m -> key_inv m' /\ keeps m m'.
Proof.
  intros Hcf Hs. induction Hs as [m|m1 m2 m3 Hstep _ IH]; intros Hi; [done|].
  destruct (step_inv ok m1 m2 Hcf Hstep Hi) as [Hi' Hk]. destruct (IH Hi') as [Hi'' Hk']. split; [done|by etrans].
Qed.

(** A manager as it starts on an empty key store. *)
Definition empty_start (ok : Input -> Prop) m : Prop :=
  exists i s, ks_keys s = ∅ /\ ok i /\ NewManager cf i [] s ∅ = Some m.

Lemma NewManager_inv i h s files m :
  key_inv (mkManager s h ∅ ∅ ∅ files []) -> fresh (ec_Algorithm cf) i (mkManager s h ∅ ∅ ∅ files []) ->
  NewManager cf i h s files = Some m -> key_inv m /\ keeps (mkManager s h ∅ ∅ ∅ files []) m.
Proof.
  intros Hi Hf. unfold NewManager. destruct (IsEncryptionEnabled cf); [|by intros [= <-]].
  destruct (GetActiveKey_inv i (ec_Algorithm cf) _ Hi Hf) as (Hi' & Hk & _).
  destruct (GetActiveKey cf i (ec_Algorithm cf) _) as [[p|] m']; [|done]. by intros [= <-].
Qed.

Lemma empty_start_inv ok m : empty_start ok m -> key_inv m.
Proof.
  intros (i & s & Hs & _ & Hm). eapply NewManager_inv; [| |exact Hm].
  - split; simpl; rewrite ?Hs; [done|done|by intros id [? ?]|done|done|done].
  - unfold fresh, ids. simpl. apply not_elem_of_nil.
Qed.
End keys.

(** ** Nothing encrypted is lost while the manager runs *)

Section survival.
Context `{Crypto} `{EncJson} `{!GoMapRange string} {S : Type} `{KeyStore S} (cf : EncryptionConfig).

Definition any_input (_ : Input) : Prop := True.

End survival.

(** ** Restarting *)

Lemma key_file_inj id id' : key_file id = key_file id' -> id = id'.
Proof.
  unfold key_file. intros E. apply (f_equal list_ascii_of_string) in E. rewrite !list_ascii_app in E.
  apply app_inv_tail in E. by rewrite <- (string_of_list_ascii_of_string id), E, string_of_list_ascii_of_string.
Qed.

Lemma data_file_inj id id' : data_file id = data_file id' -> id = id'.
Proof.
  unfold data_file. intros E. apply (f_equal list_ascii_of_string) in E. rewrite !list_ascii_app in E.
  apply app_inv_tail in E. by rewrite <- (string_of_list_ascii_of_string id), E, string_of_list_ascii_of_string.
Qed.

Lemma key_file_data id id' : key_file id <> data_file id'.
Proof.
  unfold key_file, data_file. intros E. apply (f_equal (fun s => last (list_ascii_of_string s))) in E.
  rewrite !list_ascii_app in E. change (list_ascii_of_string ".key") with (["."; "k"; "e"] ++ ["y"])%char in E.
  change (list_ascii_of_string ".keydata") with (["."; "k"; "e"; "y"; "d"; "a"; "t"] ++ ["a"])%char in E.
  rewrite !app_assoc, !last_snoc in E. done.
Qed.

(** The IDs of keys: texts that are no hidden files. *)
Definition plain_id (id : string) : Prop := id <> "" /\ has_prefix id "." = false.

Lemma key_name_file id : plain_id id -> key_name (key_file id) = Some id.
Proof.
  intros [Hne Hp]. unfold key_name, key_file.
  assert (Hs : has_suffix (id +:+ ".key") ".key" = true) by (apply has_suffix_spec; by exists id).
  assert (Hd : has_prefix (id +:+ ".key") "." = false).
  { apply not_true_iff_false. intros (t & Ht)%has_prefix_spec. destruct id as [|c id]; [done|].
    injection Ht as -> _. apply not_true_iff_false in Hp. apply Hp, has_prefix_spec. by exists id. }
  rewrite Hs, Hd. simpl. rewrite string_length_app. simpl. rewrite Nat.add_sub. by rewrite take_string_app.
Qed.

Lemma data_name_file id : key_name (data_file id) = None.
Proof.
  unfold key_name. destruct (has_suffix (data_file id) ".key") eqn:Hs; [|done].
  apply has_suffix_spec in Hs as (t & Ht). by destruct (key_file_data t id).
Qed.

Lemma key_name_inv name id : key_name name = Some id -> name = key_file id.
Proof.
  unfold key_name. destruct (has_suffix name ".key") eqn:Hs; [|done]. destruct (negb _); [|done]. simpl.
  apply has_suffix_spec in Hs as (t & ->). rewrite string_length_app. simpl. rewrite Nat.add_sub, take_string_app.
  by intros [= <-].
Qed.

Lemma generated_plain algorithm i : plain_id (generateKeyID algorithm i).
Proof.
  unfold generateKeyID. set (x := string_bytes _).
  pose proof (sha256_length x) as Hl. pose proof (sha256_range x) as Hr. destruct (sha256 x) as [|b l]; [done|].
  cbn [take hex_encode]. split; [done|]. inversion Hr as [|? ? Hb _]; subst.
  assert (Hd : negb (Ascii.eqb (hex_lower (Z.shiftr b 4)) ".") = true).
  { apply (hex_lower_all (fun c => negb (Ascii.eqb c "."))); [done|]. rewrite Z.shiftr_div_pow2 by lia.
    change (2 ^ 4) with 16. split; [apply Z.div_pos; lia|apply Z.div_lt_upper_bound; lia]. }
  apply negb_true_iff, Ascii.eqb_neq in Hd. apply not_true_iff_false. intros (t & Ht)%has_prefix_spec.
  injection Ht as Hc _. done.
Qed.

Section restart.
Context `{Crypto} `{EncJson} `{!GoMapRange string} (cf : EncryptionConfig) (masterKey : list Z).
#[local] Notation M := (Manager FileKeyStore).
Implicit Types (s : FileKeyStore) (h : list EncryptionKey) (m : Manager FileKeyStore).

(** The files of a store give back its keys, and there are no others. *)
Record persisted h s : Prop := {
  ps_dataKey : aes_key (fk_dataKey s) = true;
  ps_master : exists enc, fk_disk s !! data_key_file = Some enc /\ enc <> [] /\
    decryptWithKey masterKey enc = Some (fk_dataKey s);
  ps_plain : Forall (fun key => plain_id (ek_ID key) /\ key_texts (ek_ID key) (ek_Algorithm key)) h;
  ps_stored : forall id p, fk_keys s !! id = Some p -> exists key, h !! p = Some key /\ ek_ID key = id;
  ps_keys : forall id p key, fk_keys s !! id = Some p -> h !! p = Some key ->
    loadKey (fk_dataKey s) (fk_disk s) id = Some key;
  ps_files : forall name id, is_Some (fk_disk s !! name) -> key_name name = Some id -> is_Some (fk_keys s !! id)
}.

Lemma seal_opens r key plain c : encryptWithKey r key plain = Some c ->
  (aead_nonce + 16 <= List.length c)%nat /\ decryptWithKey key c = Some plain.
Proof.
  unfold encryptWithKey. intros Hc. destruct (aes_key key) eqn:Ek; [|done]. apply (inj Some) in Hc. subst c.
  assert (Hl : List.length (random r aead_nonce ++ gcm_seal key (random r aead_nonce) plain) =
               (aead_nonce + (List.length plain + 16))%nat) by (by rewrite length_app, random_length, gcm_overhead).
  split; [lia|]. unfold decryptWithKey. rewrite Ek. cbn [negb].
  destruct (Nat.ltb_spec (List.length (random r aead_nonce ++ gcm_seal key (random r aead_nonce) plain)) aead_nonce); [lia|].
  rewrite take_app_length', drop_app_length' by (symmetry; apply random_length). apply gcm_correct.
Qed.

Lemma load_written dk disk r key c :
  key_texts (ek_ID key) (ek_Algorithm key) -> encryptWithKey r dk (ek_KeyData key) = Some c ->
  loadKey dk (<[data_file (ek_ID key) := c]> (<[key_file (ek_ID key) := json_meta (meta_of key)]> disk)) (ek_ID key) = Some key.
Proof.
  intros Ht [Hl Hd]%seal_opens. unfold loadKey. rewrite (lookup_insert_ne _ (data_file (ek_ID key)) (key_file (ek_ID key))) by apply not_eq_sym, key_file_data.
  assert (Hc : loadKeyData dk (Some c) = Some (ek_KeyData key)).
  { unfold loadKeyData. cbn [mbind option_bind]. by destruct (Nat.ltb_spec (List.length c) (aead_nonce + 16)); [lia|]. }
  rewrite !lookup_insert_eq, Hc. simpl. rewrite read_json_meta by done. simpl. by destruct key.
Qed.

Lemma load_other dk disk id id' meta : id <> id' -> loadKey dk (<[key_file id := meta]> disk) id' = loadKey dk disk id'.
Proof.
  intros Hne. unfold loadKey. rewrite !lookup_insert_ne; [done| |]; first [apply key_file_data|by intros ?%key_file_inj].
Qed.

Lemma load_other_data dk disk id id' c : id <> id' -> loadKey dk (<[data_file id := c]> disk) id' = loadKey dk disk id'.
Proof.
  intros Hne. unfold loadKey. rewrite !lookup_insert_ne; [done| |]; first [by intros ?%data_file_inj|apply not_eq_sym, key_file_data].
Qed.

Lemma plain_no_data_key id : plain_id id -> key_file id <> data_key_file.
Proof.
  intros [_ Hp] E. apply not_true_iff_false in Hp. apply Hp. change data_key_file with (key_file ".data") in E.
  apply key_file_inj in E. by subst.
Qed.

Lemma data_file_no_data_key id : data_file id <> data_key_file.
Proof. intros E. change data_key_file with (key_file ".data") in E. by destruct (key_file_data ".data" id). Qed.

Lemma encryptWithKey_some r key plain : aes_key key = true -> exists c, encryptWithKey r key plain = Some c.
Proof. unfold encryptWithKey. intros ->. by eexists. Qed.

Lemma is_Some_insert_cases {A} (l : gmap string A) k x j : is_Some (<[k := x]> l !! j) -> j = k \/ is_Some (l !! j).
Proof. rewrite lookup_insert. case_decide; [by left|by right]. Qed.

(** [StoreKey] with its files written. *)
Lemma persisted_store h s p key io :
  persisted h s -> h !! p = Some key -> si_meta io = Written -> si_data io = Written ->
  (file_store io h p s).1 = true /\ persisted h (file_store io h p s).2.
Proof.
  intros [P1 P2 P3 P4 P5 P6] Hp Hm Hd. destruct (Forall_lookup_1 _ _ _ _ P3 Hp) as [Hid Ht].
  unfold file_store. rewrite Hp, Hm, Hd. simpl. destruct (encryptWithKey_some (si_nonce io) _ (ek_KeyData key) P1) as (c & Hc).
  rewrite Hc. split; [done|]. split; simpl; try done.
  - destruct P2 as (enc & He & Hne & Hdk). exists enc. split; [|done].
    rewrite !lookup_insert_ne; [done|by apply plain_no_data_key|apply data_file_no_data_key].
  - intros id q. rewrite lookup_insert. case_decide; [intros; simplify_eq; by exists key|apply P4].
  - intros id q k. rewrite lookup_insert. case_decide as E; intros Hq Hk.
    + simplify_eq. by apply (load_written _ _ (si_nonce io)).
    + rewrite load_other_data, load_other by done. by eapply P5.
  - intros name id [->|[->|Hn]%is_Some_insert_cases]%is_Some_insert_cases Hk.
    + by rewrite data_name_file in Hk.
    + rewrite key_name_file in Hk by done. simplify_eq. by rewrite lookup_insert_eq.
    + destruct (decide (ek_ID key = id)) as [->|]; [by rewrite lookup_insert_eq|].
      rewrite lookup_insert_ne by done. by eapply P6.
Qed.

Lemma persisted_snoc h s key :
  persisted h s -> plain_id (ek_ID key) -> key_texts (ek_ID key) (ek_Algorithm key) -> persisted (h ++ [key]) s.
Proof.
  intros [P1 P2 P3 P4 P5 P6] Hid Ht. split; try done.
  - apply Forall_app_2; [done|]. by apply Forall_singleton.
  - intros id p Hp. destruct (P4 _ _ Hp) as (k & Hk & Hi). exists k. split; [by apply lookup_app_l_Some|done].
  - intros id p k Hp Hk. destruct (P4 _ _ Hp) as (k' & Hk' & _). eapply P5; [done|].
    rewrite lookup_app_l in Hk by (by eapply lookup_lt_Some). done.
Qed.

(** A key is marked as inactive, in memory and in its file. *)
Lemma persisted_deactivate h s id :
  persisted h s -> persisted (deactivateKey Written h id s).1 (deactivateKey Written h id s).2.
Proof.
  intros [P1 P2 P3 P4 P5 P6]. unfold deactivateKey. destruct (fk_keys s !! id) as [q|] eqn:Eq; [|by split].
  destruct (P4 _ _ Eq) as (key & Hq & Hid). rewrite Hq. simpl.
  destruct (Forall_lookup_1 _ _ _ _ P3 Hq) as [Hplain Ht]. rewrite Hid in Hplain.
  split; simpl; try done.
  - destruct P2 as (enc & He & Hne & Hdk). exists enc. split; [|done].
    rewrite lookup_insert_ne; [done|by apply plain_no_data_key].
  - apply Forall_alter; [done|]. intros k Hk Hpl. exact Hpl.
  - intros id' p Hp. destruct (P4 _ _ Hp) as (k & Hk & <-).
    destruct (alter_deactivate_id h q p k Hk) as (k' & ? & ?). by exists k'.
  - intros id' p k Hp Hk. destruct (decide (p = q)) as [->|Hne].
    + rewrite list_lookup_alter_eq, Hq in Hk. simpl in Hk. simplify_eq.
      destruct (P4 _ _ Hp) as (k' & Hk' & <-). simplify_eq. pose proof (P5 _ _ _ Eq Hq) as Hload.
      unfold loadKey in *. rewrite lookup_insert_eq, lookup_insert_ne by apply key_file_data. simpl.
      rewrite read_json_meta by done. simpl. destruct (fk_disk s !! key_file _) as [raw|]; [|done]. simpl in Hload.
      destruct (read_meta raw); [|done]. simpl in Hload.
      destruct (loadKeyData _ _) as [data|]; [|done]. simpl in *. by simplify_eq.
    + rewrite list_lookup_alter_ne in Hk by done. destruct (P4 _ _ Hp) as (k' & Hk' & <-). simplify_eq.
      rewrite load_other; [by eapply P5|]. intros E. rewrite E in Eq. congruence.
  - intros name id' [->|Hn]%is_Some_insert_cases Hk; [|by eapply P6].
    rewrite key_name_file in Hk by done. by simplify_eq.
Qed.

(** Every file is written. *)
Definition all_written (i : Input) : Prop :=
  si_meta (in_store i) = Written /\ si_data (in_store i) = Written /\ in_mark i = Written /\
  si_meta (in_restore i) = Written /\ si_data (in_restore i) = Written.

Record disk_inv m : Prop := {
  di_keys : key_inv cf m;
  di_disk : persisted (mg_heap m) (mg_store m);
  di_all : forall p key, mg_heap m !! p = Some key -> is_Some (fk_keys (mg_store m) !! ek_ID key)
}.

Lemma disk_inv_same m m' :
  disk_inv m -> key_inv cf m' -> mg_heap m' = mg_heap m -> mg_store m' = mg_store m -> disk_inv m'.
Proof. intros [D1 D2 D3] Hi Hh Hs. split; rewrite ?Hh, ?Hs; done. Qed.

(** A new key object, stored. *)
Lemma disk_inv_store m key io m' :
  disk_inv m -> plain_id (ek_ID key) -> key_texts (ek_ID key) (ek_Algorithm key) -> si_meta io = Written -> si_data io = Written ->
  let h := mg_heap m ++ [key] in
  mg_heap m' = h -> mg_store m' = (file_store io h (List.length (mg_heap m)) (mg_store m)).2 -> key_inv cf m' ->
  disk_inv m' /\ (file_store io h (List.length (mg_heap m)) (mg_store m)).1 = true.
Proof.
  intros [D1 D2 D3] Hid Ht Hm Hd h Eh Es Hi.
  assert (Hn : h !! List.length (mg_heap m) = Some key) by (unfold h; by rewrite lookup_app_r, Nat.sub_diag by lia).
  destruct (persisted_store h (mg_store m) _ key io (persisted_snoc _ _ _ D2 Hid Ht) Hn Hm Hd) as [Hok Hp].
  split; [|done]. split; [done| |]; rewrite ?Eh, ?Es; [done|].
  intros p k Hk. rewrite (file_store_keys io h _ _ key Hn). rewrite lookup_insert. case_decide as E; [done|].
  unfold h in Hk. apply lookup_app_Some in Hk as [Hk|[_ [_ ->]%list_lookup_singleton_Some]]; [by eapply D3|done].
Qed.

Lemma GenerateKey_disk i algorithm m :
  disk_inv m -> fresh algorithm i m -> all_written i -> disk_inv (GenerateKey cf i algorithm m).2.
Proof.
  intros HD Hf (Hm & Hd & _). destruct (GenerateKey_inv cf i algorithm m (di_keys m HD) Hf) as (Hi & _ & _).
  unfold GenerateKey in *. destruct (negb _) eqn:Ealg; [done|]. simpl in *.
  destruct (file_store _ _ _ _) as [ok s] eqn:E.
  eapply (disk_inv_store m (new_key cf i algorithm) (in_store i)); try done.
  - apply generated_plain.
  - split; [apply generated_text|by apply supported_text, negb_false_iff].
  - by destruct ok.
  - destruct ok; simpl; by rewrite E.
Qed.

Lemma GetActiveKey_disk i algorithm m :
  disk_inv m -> fresh algorithm i m -> all_written i -> disk_inv (GetActiveKey cf i algorithm m).2.
Proof.
  intros HD Hf Hw. pose proof (GenerateKey_disk i algorithm m HD Hf Hw) as Hg.
  destruct (GetActiveKey_inv cf i algorithm m (di_keys m HD) Hf) as (Hi & _ & _). unfold GetActiveKey in *.
  destruct (cached_active i algorithm m); [done|]. destruct (store_active i algorithm m) as [p|]; [|done].
  destruct (mg_heap m !! p); [|done]. by apply (disk_inv_same m).
Qed.

Lemma rotate_key_disk i p m :
  disk_inv m -> fresh_rotation i p m -> all_written i -> disk_inv (rotate_key cf i p m).
Proof.
  intros HD Hf Hw. destruct (rotate_key_inv cf i p m (di_keys m HD) Hf) as [Hi _]. unfold rotate_key in *.
  destruct (mg_heap m !! p) as [key|] eqn:Ep; [|done]. destruct (negb _); [done|].
  pose proof (GenerateKey_disk i (ek_Algorithm key) m HD (Hf key Ep) Hw) as HD1.
  destruct (GenerateKey_inv cf i (ek_Algorithm key) m (di_keys m HD) (Hf key Ep)) as (_ & _ & Hq).
  destruct (GenerateKey cf i (ek_Algorithm key) m) as [[q|] m1]; simpl in *; [|done].
  destruct (Hq q eq_refl) as (new & Hnew & _). destruct Hw as (_ & _ & Hmark & Hm & Hd). rewrite Hmark in *.
  unfold file_rotate in *. pose proof (persisted_deactivate _ _ (ek_ID key) (di_disk m1 HD1)) as Hp.
  pose proof (deactivateKey_keys Written (mg_heap m1) (ek_ID key) (mg_store m1)) as Hk.
  assert (Hback : forall r k', (deactivateKey Written (mg_heap m1) (ek_ID key) (mg_store m1)).1 !! r = Some k' ->
    exists k, mg_heap m1 !! r = Some k /\ ek_ID k' = ek_ID k).
  { intros r k'. unfold deactivateKey. destruct (fk_keys (mg_store m1) !! ek_ID key) as [q'|]; [|by exists k'].
    simpl. destruct (decide (r = q')) as [->|]; [rewrite list_lookup_alter_eq|rewrite list_lookup_alter_ne by done; by exists k'].
    intros (k & Hkr & ->)%fmap_Some. by exists k. }
  assert (Hnew' : exists new', (deactivateKey Written (mg_heap m1) (ek_ID key) (mg_store m1)).1 !! q = Some new').
  { unfold deactivateKey. destruct (fk_keys (mg_store m1) !! ek_ID key) as [q'|]; [|by exists new].
    simpl. destruct (alter_deactivate_id (mg_heap m1) q' q new Hnew) as (k & ? & _). by exists k. }
  destruct (deactivateKey _ _ _ _) as [h s]. simpl in *. destruct Hnew' as (new' & Hnew').
  destruct (persisted_store h s q new' (in_restore i) Hp Hnew' Hm Hd) as [Hok Hp'].
  pose proof (file_store_keys (in_restore i) h q s new' Hnew') as Hks.
  destruct (file_store (in_restore i) h q s) as [ok s']. simpl in *. subst ok. simpl in *. rewrite Hnew' in *.
  split; [done|done|]. simpl. intros r k' (k & Hr & ->)%Hback. rewrite Hks, Hk, lookup_insert.
  case_decide; [done|]. by eapply (di_all m1 HD1).
Qed.

Lemma RotateKeys_disk k inputs m :
  disk_inv m -> fresh_rotations cf inputs (rotation_list k m) m -> (forall j, all_written (inputs j)) ->
  disk_inv (RotateKeys cf k inputs m).
Proof.
  unfold RotateKeys. fold (rotation_list k m). generalize (rotation_list k m). intros l. revert m.
  induction l as [|e l IH]; intros m HD Hf Hw; simpl; [done|]. destruct Hf as [He Hf].
  apply IH; [by apply rotate_key_disk|done|done].
Qed.

Lemma encrypt_for_disk i sid recording metadata data m :
  disk_inv m -> fresh (ec_Algorithm cf) i m -> all_written i ->
  disk_inv (encrypt_for cf i sid recording metadata data m).2.
Proof.
  intros HD Hf Hw. pose proof (GetActiveKey_disk i (ec_Algorithm cf) m HD Hf Hw) as HD1.
  destruct (encrypt_for_inv cf i sid recording metadata data m (di_keys m HD) Hf) as (Hi & _ & _). unfold encrypt_for in *.
  destruct (GetActiveKey cf i (ec_Algorithm cf) m) as [[p|] m']; simpl in *; [|done].
  destruct (mg_heap m' !! p); [|done]. destruct (encrypt _ _ _ _); [|done]. by apply (disk_inv_same m').
Qed.

Lemma getKeyByID_disk id m : disk_inv m -> disk_inv (getKeyByID id m).2.
Proof.
  intros HD. destruct (getKeyByID_inv cf id m (di_keys m HD)) as (Hi & _ & Hh & _). apply (disk_inv_same m); try done.
  unfold getKeyByID. destruct (mg_keyCache m !! id); [done|]. by destruct (ks_keys (mg_store m) !! id).
Qed.

Lemma step_disk m m' : sound_config cf -> step cf all_written m m' -> disk_inv m -> disk_inv m'.
Proof.
  intros Hcf Hstep HD. destruct (step_inv cf _ m m' Hcf Hstep (di_keys m HD)) as [Hi _]. destruct Hstep.
  - by apply GenerateKey_disk.
  - by apply GetActiveKey_disk.
  - by apply RotateKeys_disk.
  - unfold EncryptRecording in *. destruct (negb _); [done|by apply encrypt_for_disk].
  - unfold EncryptMetadata in *. destruct (negb _); [done|by apply encrypt_for_disk].
  - pose proof (getKeyByID_disk (ed_KeyID d) m HD). unfold DecryptRecording in *. by destruct (getKeyByID _ _) as [[]].
  - pose proof (GetActiveKey_disk i (ec_Algorithm cf) m HD) as HD1. unfold CreateEncryptionStream in *.
    destruct (negb _); [done|]. destruct (GetActiveKey cf i (ec_Algorithm cf) m) as [[p|] m']; simpl in *; [|auto].
    destruct (mg_heap m' !! p); [|auto]. destruct (newStreamCipher _ _ _); [|auto]. apply (disk_inv_same m'); auto.
  - assert (Hr : forall id w n, disk_inv (recorded_stream id w n m).2).
    { intros id w n. unfold recorded_stream. destruct (_ && _); [done|]. pose proof (getKeyByID_disk id m HD).
      by destruct (getKeyByID id m) as [[]]. }
    unfold CreateDecryptionStream in *. destruct (mg_streamInfo m !! sid) as [st|].
    + specialize (Hr (ss_keyID st) keyID (ss_nonce st)). by destruct (recorded_stream _ _ _ _).
    + destruct (mg_sessionInfo m !! sid) as [info|]; [|done]. destruct (_ || _); [done|].
      specialize (Hr (ei_KeyID info) keyID (ei_StreamNonce info)).
      destruct (recorded_stream _ _ _ _) as [[[]|] m']; [by apply (disk_inv_same m')|done].
  - by apply (disk_inv_same m).
  - apply (disk_inv_same m); try done; unfold BackupKeys; destruct (negb _); try done; destruct (negb _); try done;
      by destruct (backup_loop _ _ _ _ _ _ _) as [? []].
  - unfold RestoreKeyFromBackup in *. destruct (mg_backups m !! path) as [bytes|] eqn:Eb; [|done].
    destruct (decryptBackup cf bytes) as [raw| |] eqn:Ed; [|done|done].
    destruct (read_record raw) as [r|] eqn:Er; [|done]. destruct (negb _) eqn:Ev; [done|]. apply negb_false_iff in Ev. simpl in *.
    destruct (ki_backups cf m (di_keys m HD) _ _ _ _ Eb Ed Er) as (p & key & Hp & Hid & _).
    match goal with Hw : all_written i |- _ => destruct Hw as (Hm & Hd & _) end.
    destruct (file_store _ _ _ _) as [ok s] eqn:E.
    eapply (disk_inv_store m (restored_key r) (in_store i)); try done.
    + simpl. rewrite <- Hid. by apply (Forall_lookup_1 _ _ _ _ (ps_plain _ _ (di_disk m HD)) Hp).
    + split; simpl; [rewrite <- Hid; by apply (ki_texts cf m (di_keys m HD) p)|by apply supported_text, (valid_record_algorithm cf)].
    + by destruct ok.
    + destruct ok; simpl; by rewrite E.
Qed.

(** *** Loading *)

Lemma load_spec dk disk l :
  let '(h, keys) := foldl (load_entry dk disk) ([], ∅) l in
  (forall id p, keys !! id = Some p -> id ∈ l /\ exists key, h !! p = Some key /\ loadKey dk disk id = Some key) /\
  (forall p key, h !! p = Some key -> exists id, id ∈ l /\ loadKey dk disk id = Some key) /\
  (forall id key, id ∈ l -> loadKey dk disk id = Some key -> is_Some (keys !! id)).
Proof.
  induction l as [|x l IH] using rev_ind; simpl.
  { split_and!; [done|done|]. by intros id key ?%elem_of_nil. }
  rewrite foldl_snoc. destruct (foldl (load_entry dk disk) ([], ∅) l) as [h keys]. destruct IH as (I1 & I2 & I3).
  unfold load_entry. destruct (loadKey dk disk x) as [key|] eqn:Ex; simpl.
  - split_and!.
    + intros id p. rewrite lookup_insert. case_decide as E; intros Hp.
      * simplify_eq. split; [set_solver|]. exists key. split; [by rewrite lookup_app_r, Nat.sub_diag by lia|done].
      * destruct (I1 _ _ Hp) as (Hin & k & Hk & Hl). split; [set_solver|]. exists k. split; [by apply lookup_app_l_Some|done].
    + intros p k [Hk|[_ [_ <-]%list_lookup_singleton_Some]]%lookup_app_Some.
      * destruct (I2 _ _ Hk) as (id & Hin & Hl). exists id. split; [set_solver|done].
      * exists x. split; [set_solver|done].
    + intros id k Hin Hl. rewrite lookup_insert. case_decide; [done|]. apply elem_of_app in Hin as [Hin|Hin]; [by eapply I3|set_solver].
  - split_and!.
    + intros id p Hp. destruct (I1 _ _ Hp) as (Hin & k & Hk & Hl). split; [set_solver|by exists k].
    + intros p k Hk. destruct (I2 _ _ Hk) as (id & Hin & Hl). exists id. split; [set_solver|done].
    + intros id k Hin Hl. apply elem_of_app in Hin as [Hin|Hin]; [by eapply I3|].
      apply list_elem_of_singleton in Hin. congruence.
Qed.

Lemma key_names_in (disk : gmap string (list Z)) id :
  id ∈ omap key_name (map_to_list disk).*1 <-> exists name, is_Some (disk !! name) /\ key_name name = Some id.
Proof.
  rewrite list_elem_of_omap. split.
  - intros (name & ([n c] & -> & Hin)%list_elem_of_fmap & Hk). apply elem_of_map_to_list in Hin. exists n. by split; [exists c|].
  - intros (name & [c Hc] & Hk). exists name. split; [|done]. apply list_elem_of_fmap. exists (name, c).
    split; [done|by apply elem_of_map_to_list].
Qed.

(** A new store on the files of a manager has its keys. *)
Lemma reopened m path r rn w :
  disk_inv m -> (forall c, path <> AFile c) ->
  exists h s, NewFileKeyStore masterKey path (fk_disk (mg_store m)) r rn w = Some (h, s) /\
    key_inv cf (mkManager s h ∅ ∅ ∅ (mg_backups m) []) /\
    forall d data, readable d data m -> readable d data (mkManager s h ∅ ∅ ∅ (mg_backups m) []).
Proof.
  intros [D1 [P1 P2 P3 P4 P5 P6] D3] Hpath. unfold NewFileKeyStore.
  assert (Hmk : mkdir_all path = Some ADirectory) by (destruct path; [done|by destruct (Hpath content)|done]).
  rewrite Hmk. cbn [mbind option_bind]. destruct P2 as (enc & He & Hne & Hdk).
  unfold initializeDataKey. rewrite He. destruct enc as [|b enc]; [done|]. rewrite Hdk. simpl.
  pose proof (load_spec (fk_dataKey (mg_store m)) (fk_disk (mg_store m)) (omap key_name (map_to_list (fk_disk (mg_store m))).*1)) as HL.
  unfold loadKeys. destruct (foldl _ _ _) as [h keys]. destruct HL as (L1 & L2 & L3).
  assert (Hof : forall id key, id ∈ omap key_name (map_to_list (fk_disk (mg_store m))).*1 ->
    loadKey (fk_dataKey (mg_store m)) (fk_disk (mg_store m)) id = Some key ->
    exists p, fk_keys (mg_store m) !! id = Some p /\ mg_heap m !! p = Some key /\ ek_ID key = id).
  { intros id key (name & Hn & Hk)%key_names_in Hl. destruct (P6 _ _ Hn Hk) as [p Hp].
    destruct (P4 _ _ Hp) as (k & Hkp & Hid). rewrite (P5 _ _ _ Hp Hkp) in Hl. simplify_eq. by exists p. }
  assert (Hto : forall p key, mg_heap m !! p = Some key -> exists q key', keys !! ek_ID key = Some q /\ h !! q = Some key' /\
    ek_ID key' = ek_ID key /\ ek_KeyData key' = ek_KeyData key).
  { intros p key Hp. destruct (D3 _ _ Hp) as [p' Hp']. destruct (P4 _ _ Hp') as (k & Hk & Hid).
    pose proof (P5 _ _ _ Hp' Hk) as Hl.
    assert (Hin : ek_ID key ∈ omap key_name (map_to_list (fk_disk (mg_store m))).*1).
    { apply key_names_in. exists (key_file (ek_ID key)). split.
      - unfold loadKey in Hl. by destruct (fk_disk (mg_store m) !! key_file (ek_ID key)).
      - apply key_name_file. by apply (Forall_lookup_1 _ _ _ _ P3 Hp). }
    destruct (L3 _ _ Hin Hl) as [q Hq]. destruct (L1 _ _ Hq) as (_ & k' & Hk' & Hl'). rewrite Hl in Hl'. simplify_eq.
    exists q, k'. split_and!; [done|done|done|]. eapply (ki_same cf m D1); done. }
  exists h, (mkFileKeyStore keys (fk_dataKey (mg_store m)) (fk_disk (mg_store m))). split; [done|]. split.
  - split; simpl.
    + intros id p Hp. destruct (L1 _ _ Hp) as (Hin & key & Hk & Hl). destruct (Hof _ _ Hin Hl) as (_ & _ & _ & Hid). by exists key.
    + done.
    + by intros id [? ?].
    + intros p q kp kq Hp Hq Hid. destruct (L2 _ _ Hp) as (id & Hin & Hl). destruct (L2 _ _ Hq) as (id' & Hin' & Hl').
      destruct (Hof _ _ Hin Hl) as (_ & _ & _ & E). destruct (Hof _ _ Hin' Hl') as (_ & _ & _ & E'). congruence.
    + intros p key Hp. destruct (L2 _ _ Hp) as (id & Hin & Hl). destruct (Hof _ _ Hin Hl) as (q & _ & Hq & _).
      by apply (ki_texts cf m D1 q).
    + intros path' bytes raw rr Hb Hd Hr. destruct (ki_backups cf m D1 _ _ _ _ Hb Hd Hr) as (p & key & Hp & Hid & Hdata).
      destruct (Hto _ _ Hp) as (q & key' & _ & Hq & Hid' & Hdata'). exists q, key'. split_and!; [done|congruence|congruence].
  - intros d data [_ (p & key & Hp & Hid & Hd)]. destruct (Hto _ _ Hp) as (q & key' & Hkq & Hq & Hid' & Hdata').
    split; [simpl; rewrite <- Hid; by exists q|]. exists q, key'. split_and!; [done|congruence|].
    by rewrite (decrypt_ext d key' key).
Qed.

Lemma steps_disk m m' : sound_config cf -> rtc (step cf all_written) m m' -> disk_inv m -> disk_inv m'.
Proof. intros Hcf Hs. induction Hs as [|m1 m2 m3 Hs _ IH]; [done|]. intros HD. apply IH. by eapply step_disk. Qed.

(** A manager on a new directory. *)
Definition file_start m : Prop :=
  exists path r rn i h s, NewFileKeyStore masterKey path ∅ r rn Written = Some (h, s) /\ all_written i /\
    NewManager cf i h s ∅ = Some m.

Lemma file_start_disk m : file_start m -> disk_inv m.
Proof.
  intros (path & r & rn & i & h & s & Hn & Hw & Hm). unfold NewFileKeyStore in Hn.
  destruct (mkdir_all path); [|done]. cbn [mbind option_bind] in Hn. unfold initializeDataKey in Hn.
  rewrite lookup_empty in Hn. destruct (encryptWithKey rn masterKey (random r 32)) as [c|] eqn:Ec; [|done]. simpl in Hn.
  unfold loadKeys in Hn. rewrite insert_empty, map_to_list_singleton in Hn. simpl in Hn.
  simplify_eq.
  set (s0 := mkFileKeyStore ∅ (random r 32) {[data_key_file := c]}) in *.
  assert (HD : disk_inv (mkManager s0 [] ∅ ∅ ∅ ∅ [])).
  { split; simpl; [|split; simpl|]; try done.
    - exists c. rewrite lookup_singleton_eq. apply seal_opens in Ec as [Hl Hd]. split_and!; [done| |done].
      intros ->. simpl in Hl. unfold aead_nonce in Hl. lia.
    - intros name id [? [<- <-]%lookup_singleton_Some] Hk. exfalso.
      pose proof (key_name_inv _ _ Hk) as E. change data_key_file with (key_file ".data") in E. apply key_file_inj in E. by subst. }
  unfold NewManager in Hm. destruct (IsEncryptionEnabled cf); [|by simplify_eq].
  pose proof (GetActiveKey_disk i (ec_Algorithm cf) (mkManager s0 [] ∅ ∅ ∅ ∅ []) HD) as Hg.
  destruct (GetActiveKey cf i (ec_Algorithm cf) _) as [[q|] m']; [|done]. simplify_eq. apply Hg; [|done].
  unfold fresh, ids. simpl. apply not_elem_of_nil.
Qed.

End restart.

(** ** A key that could not be written *)

Section unwritten.
Context `{Crypto} `{EncJson} `{!GoMapRange string} (cf : EncryptionConfig).
Implicit Types m : Manager FileKeyStore.

Definition no_usable_key (now : Z) (algorithm : string) m : Prop :=
  forall p key, mg_heap m !! p = Some key -> usable now algorithm key = false.

Lemma usable_later now now' algorithm key : now <= now' -> usable now algorithm key = false -> usable now' algorithm key = false.
Proof. unfold usable. intros Hn. destruct (String.eqb _ _), (ek_Active key); simpl; try done. lia. Qed.

Lemma no_cached i algorithm m h :
  (forall id p, mg_keyCache m !! id = Some p -> exists key, h !! p = Some key /\ usable (in_now i) algorithm key = false) ->
  mg_heap m = h -> cached_active i algorithm m = None.
Proof.
  intros Hc <-. unfold cached_active. destruct (find _ _) as [[id p]|] eqn:E; [|done].
  apply find_some in E as [Hin Hu]. apply list_elem_of_In, elem_of_map_range in Hin. simpl in Hu.
  destruct (Hc _ _ Hin) as (key & Hp & Hk). rewrite Hp in Hu. congruence.
Qed.

(** Among keys of which one is usable it is that one. *)
Lemma only_usable now algorithm (h : list EncryptionKey) q kq l best :
  h !! q = Some kq -> usable now algorithm kq = true ->
  (forall p key, p ∈ l -> p <> q -> h !! p = Some key -> usable now algorithm key = false) ->
  (best = Some q \/ (best = None /\ q ∈ l)) -> foldl (newer_key now algorithm h) best l = Some q.
Proof.
  intros Hq Hu. revert best. induction l as [|p l IH]; intros best Hl Hb; simpl.
  - destruct Hb as [|[_ Hb]]; [done|]. by apply elem_of_nil in Hb.
  - apply IH; [intros; eapply Hl; [by right|done|done]|]. unfold newer_key. destruct (decide (p = q)) as [->|Hne].
    + left. rewrite Hq, Hu. destruct Hb as [->|[-> _]]; simpl; [rewrite Hq; by case_match|done].
    + destruct (h !! p) as [key|] eqn:Ep; [rewrite (Hl p key (ltac:(by left)) Hne Ep)|];
        (destruct Hb as [->|[-> Hin]]; [by left|right; split; [done|]; apply elem_of_cons in Hin as [|]; congruence || done]).
Qed.

Lemma store_none i algorithm m : no_usable_key (in_now i) algorithm m -> store_active i algorithm m = None.
Proof.
  intros Hu. unfold store_active. generalize (map_range (in_range i) (ks_keys (mg_store m))).*2. intros l.
  induction l as [|p l IH]; [done|]. simpl. unfold newer_key at 2. destruct (mg_heap m !! p) as [key|] eqn:E; [|done].
  by rewrite (Hu _ _ E).
Qed.

(** C39: A key whose file could not be written is used all the same.  The recording that
    asked for a new key fails, but the key stays in the memory of the store as the
    active one: the next recording is encrypted with it, without any error, though
    no file holds it, so that a restart cannot load it and the recording is lost. *)
Theorem unwritten_key_used m i i2 sid sid2 audio audio2 :
  key_inv cf m -> ec_EnableRecordingEncryption cf = true -> ec_Algorithm cf = "AES-256-GCM" -> ec_KeySize cf = 32%nat ->
  no_usable_key (in_now i) (ec_Algorithm cf) m ->
  si_meta (in_store i) = NotOpened ->
  fk_disk (mg_store m) !! key_file (generateKeyID (ec_Algorithm cf) i) = None ->
  in_now i <= in_now i2 -> in_now i2 < in_now i + ec_KeyRotationInterval cf ->
  (EncryptRecording cf i sid audio m).1 = None /\
  exists d m2, EncryptRecording cf i2 sid2 audio2 (EncryptRecording cf i sid audio m).2 = (Some d, m2) /\
    loadKey (fk_dataKey (mg_store m2)) (fk_disk (mg_store m2)) (ed_KeyID d) = None.
Proof.
  intros Hi Hen Halg Hsize Hno Hio Hfile Hle Hlt. unfold EncryptRecording. rewrite Hen. simpl.
  set (key := new_key cf i (ec_Algorithm cf)). set (p := List.length (mg_heap m)). set (h := mg_heap m ++ [key]).
  set (s1 := mkFileKeyStore (<[ek_ID key := p]> (fk_keys (mg_store m))) (fk_dataKey (mg_store m)) (fk_disk (mg_store m))).
  assert (Hh : h !! p = Some key) by (unfold h, p; by rewrite lookup_app_r, Nat.sub_diag by lia).
  assert (Hold : forall q k, mg_heap m !! q = Some k -> h !! q = Some k) by (intros; by apply lookup_app_l_Some).
  assert (E1 : GetActiveKey cf i (ec_Algorithm cf) m = (None, with_store m h s1)).
  { unfold GetActiveKey. rewrite (no_cached _ _ _ (mg_heap m)); [|intros id q Hq|done].
    2: { destruct (ki_cache cf m Hi _ _ Hq) as (k & Hk & _). exists k. split; [done|by eapply Hno]. }
    rewrite store_none by done. unfold GenerateKey.
    replace (isAlgorithmSupported (ec_Algorithm cf)) with true by (by rewrite Halg). cbn [negb StoreKey file_key_store].
    fold key p h. unfold file_store. rewrite Hh, Hio. done. }
  assert (E0 : encrypt_for cf i sid true false audio m = (None, with_store m h s1)) by (unfold encrypt_for; by rewrite E1).
  rewrite E0. split; [done|]. cbn [snd].
  assert (Hu : usable (in_now i2) (ec_Algorithm cf) key = true).
  { unfold usable, key. simpl. rewrite String.eqb_refl. simpl. lia. }
  assert (E2 : GetActiveKey cf i2 (ec_Algorithm cf) (with_store m h s1) =
               (Some p, with_cache (with_store m h s1) (<[ek_ID key := p]> (mg_keyCache m)))).
  { unfold GetActiveKey. rewrite (no_cached _ _ _ h); [|intros id q Hq|done].
    2: { destruct (ki_cache cf m Hi _ _ Hq) as (k & Hk & _). exists k. split; [by apply Hold|].
         eapply usable_later; [exact Hle|by eapply Hno]. }
    assert (Es : store_active i2 (ec_Algorithm cf) (with_store m h s1) = Some p).
    { unfold store_active. apply (only_usable _ _ _ _ key); [done|done| |].
      - intros q k Hin Hne Hk. simpl in Hk. unfold h in Hk. apply lookup_app_Some in Hk as [Hk|[Hge _]].
        + eapply usable_later; [exact Hle|by eapply Hno].
        + apply list_elem_of_fmap in Hin as ([id q'] & -> & Hin). apply elem_of_map_range in Hin. simpl in Hin, Hne, Hge.
          rewrite lookup_insert in Hin. case_decide; [congruence|].
          destruct (ki_store cf m Hi _ _ Hin) as (k' & Hk'%lookup_lt_Some & _). unfold p in Hne. lia.
      - right. split; [done|]. apply list_elem_of_fmap. exists (ek_ID key, p). split; [done|].
        apply elem_of_map_range. simpl. apply lookup_insert_eq. }
    rewrite Es. simpl. by rewrite Hh. }
  unfold encrypt_for. rewrite E2. cbn [with_cache with_store mg_heap]. rewrite Hh.
  assert (Ee : exists d, encrypt (in_now i2) (in_nonce i2) audio2 key = Some d /\ ed_KeyID d = ek_ID key).
  { unfold encrypt, key. cbn [new_key ek_Algorithm]. rewrite Halg. cbn [String.eqb Ascii.eqb Bool.eqb]. simpl.
    unfold aes_key. cbn [ek_KeyData]. rewrite random_length, Hsize. by eexists. }
  destruct Ee as (d & Ed & Hid). rewrite Ed. eexists _, _. split; [done|]. rewrite Hid. unfold loadKey.
  change (fk_disk (mg_store m) !! key_file (ek_ID key) = None) in Hfile.
  cbn [updateSessionEncryptionInfo mg_store with_cache with_store s1 fk_disk]. by rewrite Hfile.
Qed.
End unwritten.

(** ** The file store at the start *)

(** Without a master key in the environment the file store cannot be opened, whatever
    is at its path: the key management service makes or expects a file there and the
    key store a directory.  With a key of 32 bytes in the environment and a
    directory or nothing at the path it opens, on new files and, as long as the
    data key can be decrypted, on old ones. *)
Theorem file_store_needs_environment `{Crypto} `{EncJson} path disk rm r rn stored w :
  open_file_store None path disk rm r rn stored w = None /\
  forall key, List.length key = 32%nat -> (forall c, path <> AFile c) ->
    (is_Some (open_file_store (Some (Some key)) path disk rm r rn stored w) <->
     match disk !! data_key_file with
     | Some (b :: enc) => is_Some (decryptWithKey key (b :: enc))
     | _ => w = Written
     end).
Proof.
  assert (Hload : forall dk (d : gmap string (list Z)), is_Some (let '(h, keys) := loadKeys dk d in Some (h, mkFileKeyStore keys dk d))).
  { intros dk d. by destruct (loadKeys dk d). }
  split.
  - unfold open_file_store, initializeMasterKey. destruct path as [|c|]; [by destruct stored| |done].
    destruct (_ =? _)%nat; [done|by destruct stored].
  - intros key Hk Hpath. unfold open_file_store, initializeMasterKey. rewrite Hk. simpl. unfold NewFileKeyStore.
    assert (Hmk : mkdir_all path = Some ADirectory) by (destruct path; [done|by destruct (Hpath content)|done]).
    rewrite Hmk. simpl. unfold initializeDataKey.
    assert (Hnew : is_Some ('(dataKey, disk0) ←
        (encrypted ← encryptWithKey rn key (random r 32);
         if written w then Some (random r 32, write_file data_key_file encrypted w disk) else None);
        let '(h, keys) := loadKeys dataKey disk0 in Some (h, mkFileKeyStore keys dataKey disk0)) <-> w = Written).
    { unfold encryptWithKey, aes_key. rewrite Hk. simpl.
      destruct w; simpl; [split; [done|intros _; apply Hload]| |]; (split; [by intros [? ?]|done]). }
    destruct (disk !! data_key_file) as [[|b enc]|]; [exact Hnew| |exact Hnew].
    destruct (decryptWithKey key (b :: enc)) as [dk|]; simpl; [split; [done|intros _; apply Hload]|done].
Qed.

(** ** Backups *)

(** A key restored from its backup is the key that was backed up, also when the
    parameters of the key derivation have changed since. *)
Lemma backup_restores `{Crypto} `{EncJson} `{!GoMapRange string} {S} `{KeyStore S} (c c' : EncryptionConfig) i i' key bytes path
    (m : Manager S) :
  sound_config c -> 0 < ec_PBKDF2Iterations c -> (0 < ec_KeySize c)%nat -> (0 < ec_SaltSize c)%nat ->
  encryptBackup c i (json_record (backup_record (in_now i) key)) = Some bytes ->
  ec_BackupPassword c' = ec_BackupPassword c -> List.length (ek_KeyData key) = ec_KeySize c' -> (0 < ec_KeySize c')%nat ->
  ek_ID key <> "" -> valid_utf8 (ek_ID key) = true -> isAlgorithmSupported (ek_Algorithm key) = true ->
  mg_backups m !! path = Some bytes ->
  (StoreKey (in_store i') (mg_heap m ++ [key]) (List.length (mg_heap m)) (mg_store m)).1 = true ->
  exists m', RestoreKeyFromBackup c' i' path m = (ROk (List.length (mg_heap m)), m') /\
    mg_heap m' = mg_heap m ++ [key] /\ ks_keys (mg_store m') !! ek_ID key = Some (List.length (mg_heap m)).
Proof.
  intros Hc Hit Hks Hsalt Hb Hpw Hlen Hks' Hid Ht Halg Hp Hok. unfold RestoreKeyFromBackup. rewrite Hp.
  rewrite (backup_opens c c' _ _ _ Hb Hc Hpw (or_introl Hit) (or_introl Hks)).
  destruct (Nat.eqb_spec (ec_SaltSize c) 0); [lia|]. rewrite read_json_record by (split; [done|by apply supported_text]).
  assert (Hv : valid_record c' (backup_record (in_now i) key) = true).
  { unfold valid_record. simpl. rewrite Halg, Hlen, Nat.eqb_refl. destruct (String.eqb_spec (ek_ID key) ""); [done|].
    by destruct (Nat.eqb_spec (ec_KeySize c') 0); [lia|]. }
  rewrite Hv. simpl. assert (Ek : restored_key (backup_record (in_now i) key) = key) by (by destruct key). rewrite Ek.
  assert (Hh : (mg_heap m ++ [key]) !! List.length (mg_heap m) = Some key) by (by rewrite lookup_app_r, Nat.sub_diag by lia).
  pose proof (StoreKey_keys (in_store i') _ _ (mg_store m) key Hh) as Hs.
  destruct (StoreKey _ _ _ _) as [ok s]. simpl in Hok, Hs. subst ok. eexists. split; [done|]. split; [done|].
  simpl. by rewrite Hs, lookup_insert_eq.
Qed.

(** ** Examples *)

(** A cipher that hides nothing and an encoding by numbers. *)
Definition plain_seal (_ _ d : list Z) : list Z := d ++ replicate 16 0.
Definition plain_open (_ _ c : list Z) : option (list Z) := Some (take (List.length c - 16) c).

Lemma plain_opens k n d : plain_open k n (plain_seal k n d) = Some d.
Proof. unfold plain_open, plain_seal. rewrite length_app, length_replicate, Nat.add_sub. by rewrite take_app_length. Qed.

Lemma plain_overhead (k n d : list Z) : List.length (plain_seal k n d) = (List.length d + 16)%nat.
Proof. unfold plain_seal. by rewrite length_app, length_replicate. Qed.

Definition plain_crypto : Crypto := {|
  gcm_seal := plain_seal; gcm_open := plain_open; chacha_seal := plain_seal; chacha_open := plain_open;
  pbkdf2 := fun _ _ _ n => replicate n 0;
  gcm_correct := plain_opens; gcm_overhead := plain_overhead; chacha_correct := plain_opens;
  pbkdf2_length := fun _ _ _ n => length_replicate n 0
|}.

#[local] Instance EncryptedData_eq : EqDecision EncryptedData.
Proof. solve_decision. Defined.
#[local] Instance keyBackupRecord_eq : EqDecision keyBackupRecord.
Proof. solve_decision. Defined.
#[local] Instance KeyMeta_eq : EqDecision KeyMeta.
Proof. solve_decision. Defined.

#[local] Instance EncryptedData_countable : Countable EncryptedData.
Proof.
  refine (inj_countable' (fun d => (ed_Algorithm d, (ed_KeyID d, (ed_KeyVersion d, (ed_Nonce d, (ed_Salt d,
    (ed_Ciphertext d, (ed_Metadata d, ed_EncryptedAt d))))))))
    (fun '(a, (b, (c, (d, (e, (f, (g, h))))))) => mkEncryptedData a b c d e f g h) _). by intros [].
Defined.
#[local] Instance keyBackupRecord_countable : Countable keyBackupRecord.
Proof.
  refine (inj_countable' (fun r => (kb_ID r, (kb_Algorithm r, (kb_KeyData r, (kb_CreatedAt r, (kb_ExpiresAt r,
    (kb_Version r, (kb_Active r, kb_BackedUpAt r))))))))
    (fun '(a, (b, (c, (d, (e, (f, (g, h))))))) => mkKeyBackupRecord a b c d e f g h) _). by intros [].
Defined.
#[local] Instance KeyMeta_countable : Countable KeyMeta.
Proof.
  refine (inj_countable' (fun m => (km_ID m, (km_Algorithm m, (km_CreatedAt m, (km_ExpiresAt m, (km_Version m, km_Active m))))))
    (fun '(a, (b, (c, (d, (e, f))))) => mkKeyMeta a b c d e f) _). by intros [].
Defined.

Definition number {A} `{Countable A} (x : A) : list Z := [Z.pos (encode x)].
Definition unnumber {A} `{Countable A} (l : list Z) : option A := match l with [Z.pos p] => decode p | _ => None end.

Lemma unnumber_number {A} `{Countable A} (x : A) : unnumber (number x) = Some x.
Proof. apply decode_encode. Qed.

Definition number_json : EncJson := {|
  json_data := number; read_data := unnumber; json_record := number; read_record := unnumber;
  json_meta := number; read_meta := unnumber; json_map := number; read_map := unnumber;
  read_json_data := fun d _ => unnumber_number d; read_json_record := fun r _ => unnumber_number r;
  read_json_meta := fun m _ => unnumber_number m; read_json_map := fun m _ => unnumber_number m
|}.

#[local] Existing Instances plain_crypto number_json.
#[local] Instance sample_range : GoMapRange string := list_range string.

(** An hour between rotations. *)
Definition sample_config : EncryptionConfig :=
  mkEncryptionConfig true false "AES-256-GCM" "./keys" 3600 true "" "" 32 32 100000.

Definition good_store : StoreInput := mkStoreInput Written Written (fun _ => 1).

(** The [n]th operation, at a time. *)
Definition sample_input (n now : Z) (store : StoreInput) : Input :=
  mkInput now 0 (fun _ => n) (fun _ => n) (fun _ => 7) (fun _ => 8) store Written good_store.

Definition sample_memory : Manager MemoryKeyStore := Eval vm_compute in
  default (mkManager (mkMemoryKeyStore ∅) [] ∅ ∅ ∅ ∅ [])
          (NewManager sample_config (sample_input 1 0 good_store) [] (mkMemoryKeyStore ∅) ∅).

Lemma sample_memory_start : empty_start sample_config any_input sample_memory.
Proof. exists (sample_input 1 0 good_store), (mkMemoryKeyStore ∅). split_and!; vm_compute; done. Qed.

Definition sample_encrypted := Eval vm_compute in
  EncryptRecording sample_config (sample_input 2 10 good_store) "s-1" [1; 2; 3] sample_memory.

Definition sample_data : EncryptedData := Eval vm_compute in default (mkEncryptedData "" "" 0 [] [] [] None 0) sample_encrypted.1.

(** After the key has expired it is rotated. *)
Definition sample_inputs (k : nat) : Input := sample_input (3 + Z.of_nat k) 5000 good_store.
Definition sample_rotated : Manager MemoryKeyStore := Eval vm_compute in RotateKeys sample_config 0 sample_inputs sample_encrypted.2.

Lemma sample_sound : sound_config sample_config.
Proof. unfold sound_config, in_s. cbn [sample_config ec_PBKDF2Iterations ec_KeySize]. lia. Qed.


(** The same with the keys in files, under a master key of the environment. *)
Definition sample_master : list Z := replicate 32 9.

Definition sample_opened : option (list EncryptionKey * FileKeyStore) := Eval vm_compute in
  NewFileKeyStore sample_master Missing ∅ (fun _ => 3) (fun _ => 4) Written.

Definition sample_file : Manager FileKeyStore := Eval vm_compute in
  default (mkManager (mkFileKeyStore ∅ [] ∅) [] ∅ ∅ ∅ ∅ [])
    ('(h, s) ← sample_opened; NewManager sample_config (sample_input 1 0 good_store) h s ∅).

Lemma sample_file_start : file_start sample_config sample_master sample_file.
Proof.
  exists Missing, (fun _ => 3), (fun _ => 4), (sample_input 1 0 good_store).
  destruct sample_opened as [[h s]|] eqn:E; [|discriminate]. exists h, s.
  split_and!.
  - rewrite <- E. vm_compute. reflexivity.
  - vm_compute. split_and!; reflexivity.
  - apply (inj Some) in E. apply (f_equal fst) in E as Eh. apply (f_equal snd) in E as Es.
    simpl in Eh, Es. subst h s. vm_compute. reflexivity.
Qed.

Definition sample_filed := Eval vm_compute in
  EncryptRecording sample_config (sample_input 2 10 good_store) "s-1" [1; 2; 3] sample_file.
Definition sample_filed_data : EncryptedData := Eval vm_compute in default sample_data sample_filed.1.
Definition sample_file_rotated : Manager FileKeyStore := Eval vm_compute in RotateKeys sample_config 0 sample_inputs sample_filed.2.

Lemma sample_file_rotation : rtc (step sample_config all_written) sample_filed.2 sample_file_rotated.
Proof.
  apply rtc_once. assert (E : RotateKeys sample_config 0 sample_inputs sample_filed.2 = sample_file_rotated) by (vm_compute; reflexivity).
  rewrite <- E. apply step_rotate; [intros j; split_and!; reflexivity|].
  assert (El : rotation_list 0 sample_filed.2 = [(0, 0)]%nat) by (vm_compute; reflexivity). rewrite El.
  split; [|exact I]. intros key Hk. vm_compute in Hk. injection Hk as <-. unfold fresh. apply (bool_decide_unpack _).
  vm_compute. exact I.
Qed.


(** When the key of the start has expired and the disk is full. *)
Definition full_disk : Input := sample_input 2 5000 (mkStoreInput NotOpened NotOpened (fun _ => 1)).

Lemma unwritten_key_used_witness :
  (EncryptRecording sample_config full_disk "s-1" [1; 2; 3] sample_file).1 = None /\
  exists d m2, EncryptRecording sample_config (sample_input 3 5010 good_store) "s-2" [4; 5]
      (EncryptRecording sample_config full_disk "s-1" [1; 2; 3] sample_file).2 = (Some d, m2) /\
    loadKey (fk_dataKey (mg_store m2)) (fk_disk (mg_store m2)) (ed_KeyID d) = None.
Proof.
  refine (unwritten_key_used sample_config sample_file full_disk (sample_input 3 5010 good_store) "s-1" "s-2" [1; 2; 3] [4; 5]
    (di_keys _ _ _ (file_start_disk _ _ _ sample_file_start)) eq_refl eq_refl eq_refl _ eq_refl _ _ _).
  - intros [|p] key Hk; vm_compute in Hk; [injection Hk as <-; reflexivity|discriminate Hk].
  - vm_compute. reflexivity.
  - vm_compute. discriminate.
  - vm_compute. reflexivity.
Defined.

Lemma file_store_needs_environment_witness :
  open_file_store None Missing ∅ (fun _ => 1) (fun _ => 2) (fun _ => 3) true Written = None /\
  (is_Some (open_file_store (Some (Some sample_master)) Missing ∅ (fun _ => 1) (fun _ => 2) (fun _ => 3) true Written) <-> Written = Written).
Proof.
  destruct (file_store_needs_environment Missing ∅ (fun _ => 1) (fun _ => 2) (fun _ => 3) true Written) as [Hnone Hsome].
  split; [exact Hnone|]. apply (Hsome sample_master); [vm_compute; reflexivity|discriminate].
Defined.

(** AES-256-CBC is among the supported algorithms: the manager starts with it and makes
    a key, but nothing can be encrypted. *)
Example cbc_starts_and_never_encrypts audio :
  let cf := mkEncryptionConfig true false "AES-256-CBC" "./keys" 3600 true "" "" 32 32 100000 in
  exists m, NewManager cf (sample_input 1 0 good_store) [] (mkMemoryKeyStore ∅) ∅ = Some m /\
    List.length (mg_heap m) = 1%nat /\ (EncryptRecording cf (sample_input 2 10 good_store) "s-1" audio m).1 = None.
Proof. eexists. split; [vm_compute; reflexivity|]. split; vm_compute; reflexivity. Qed.
