(* ===== verification/ShardedMap.v ===== *)
(** * The sharded map

    [src/pkg/sip/sharded_map.go]: a map split over shards by the FNV-1a hash of
    the key, each with its own lock.  [flat] is the plain map it stands for; the
    theorems show that the operations refine those of a plain map. *)

From S2P Require Import Prelude GoStrings.
#[local] Open Scope Z_scope.

(** Keys are of type [any]: strings, byte slices, and others, for which
    [toString] panics. *)
Inductive any_key := KString (s : string) | KBytes (s : string) | KOther.

Definition toString (key : any_key) : option string :=
  match key with KString s | KBytes s => Some s | KOther => None end.

Definition offset32 : Z := 2166136261.
Definition prime32 : Z := 16777619.

Fixpoint fnv1a (hash : Z) (key : string) : Z :=
  match key with
  | EmptyString => hash
  | String c key => fnv1a (u32 (Z.lxor hash (byte_of c) * prime32)) key
  end.

Section sharded.
Context {V : Type}.

Record ShardedMap := mkShardedMap {
  sh_shards : list (gmap string V);
  sh_shardMask : Z;
  sh_shardCount : Z
}.

Definition NewShardedMap (shardCount : Z) : ShardedMap :=
  let n := if (shardCount <=? 0) || negb (Z.land shardCount (shardCount - 1) =? 0)
           then 16 else shardCount in
  mkShardedMap (replicate (Z.to_nat n) ∅) (u32 (n - 1)) (u32 n).

(** The index of the shard of a key. *)
Definition shard_index (sm : ShardedMap) (key : string) : nat :=
  Z.to_nat (Z.land (fnv1a offset32 key) (sh_shardMask sm)).

(** [None] is the panic of an index out of range. *)
Definition getShard (sm : ShardedMap) (key : string) : option (gmap string V) :=
  sh_shards sm !! shard_index sm key.

Definition set_shard (sm : ShardedMap) (key : string) (shard : gmap string V) : ShardedMap :=
  sm <| sh_shards := <[shard_index sm key := shard]> (sh_shards sm) |>.

Definition Store (key : any_key) (value : V) (sm : ShardedMap) : option ShardedMap :=
  keyStr ← toString key; shard ← getShard sm keyStr;
  Some (set_shard sm keyStr (<[keyStr := value]> shard)).

Definition Load (key : any_key) (sm : ShardedMap) : option (option V) :=
  keyStr ← toString key; shard ← getShard sm keyStr; Some (shard !! keyStr).

Definition Delete (key : any_key) (sm : ShardedMap) : option ShardedMap :=
  keyStr ← toString key; shard ← getShard sm keyStr;
  Some (set_shard sm keyStr (delete keyStr shard)).

(** The pairs a callback sees, up to and including the first it rejects. *)
Fixpoint range_until (f : string -> V -> bool) (l : list (string * V)) : list (string * V) * bool :=
  match l with
  | [] => ([], true)
  | (k, v) :: l => if f k v then let '(seen, go) := range_until f l in ((k, v) :: seen, go)
                   else ([(k, v)], false)
  end.

Fixpoint range_shards `{!GoMapRange string} (n : nat) (f : string -> V -> bool)
    (l : list (gmap string V)) : list (string * V) :=
  match l with
  | [] => []
  | shard :: l =>
    let '(seen, go) := range_until f (map_range n shard) in
    if go then seen ++ range_shards (S n) f l else seen
  end.

Definition Range `{!GoMapRange string} (n : nat) (f : string -> V -> bool) (sm : ShardedMap)
    : list (string * V) := range_shards n f (sh_shards sm).

Definition Count (sm : ShardedMap) : Z :=
  foldl (fun count shard => count + Z.of_nat (size shard)) 0 (sh_shards sm).

Fixpoint keys_from `{!GoMapRange string} (n : nat) (l : list (gmap string V)) : list string :=
  match l with
  | [] => []
  | shard :: l => (map_range n shard).*1 ++ keys_from (S n) l
  end.

Definition Keys `{!GoMapRange string} (n : nat) (sm : ShardedMap) : list string :=
  keys_from n (sh_shards sm).

(** ** The plain map *)

Definition flat (sm : ShardedMap) : gmap string V := ⋃ sh_shards sm.

(** Every key is in the shard its hash selects, which exists. *)
Record sharded_inv (sm : ShardedMap) : Prop := {
  si_mask : 0 <= sh_shardMask sm < Z.of_nat (length (sh_shards sm));
  si_shards : forall i shard key, sh_shards sm !! i = Some shard -> is_Some (shard !! key) ->
                i = shard_index sm key
}.

Lemma shard_index_lt sm key : sharded_inv sm -> (shard_index sm key < length (sh_shards sm))%nat.
Proof.
  intros [Hm _]. unfold shard_index.
  pose proof (land_mask (fnv1a offset32 key) (sh_shardMask sm) ltac:(lia)). lia.
Qed.

Lemma get_shard_Some sm key : sharded_inv sm -> exists shard, getShard sm key = Some shard.
Proof. intros Hi. apply lookup_lt_is_Some. by apply shard_index_lt. Qed.

Lemma union_list_lookup (l : list (gmap string V)) i shard key :
  (forall j s, l !! j = Some s -> is_Some (s !! key) -> j = i) -> l !! i = Some shard ->
  (⋃ l) !! key = shard !! key.
Proof.
  revert i. induction l as [|s l IH]; intros i Hj Hi; [done|]. cbn.
  destruct i as [|i]; cbn in Hi.
  - injection Hi as ->. assert (Hn : (⋃ l) !! key = None).
    { clear IH. assert (Hall : forall s, s ∈ l -> s !! key = None).
      { intros s Hs. apply list_elem_of_lookup_1 in Hs as [j Hl]. apply eq_None_not_Some. intros Hsome.
        pose proof (Hj (S j) s Hl Hsome). lia. }
      clear Hj. induction l as [|s l IHl]; [apply lookup_empty|]. cbn.
      rewrite lookup_union, Hall by left. rewrite IHl; [done|]. intros s' Hs'. apply Hall. by right. }
    rewrite lookup_union, Hn. by destruct (shard !! key).
  - assert (Hs : s !! key = None).
    { apply eq_None_not_Some. intros Hsome. pose proof (Hj 0%nat s eq_refl Hsome). lia. }
    rewrite lookup_union, Hs, (left_id_L None (∪)). apply (IH i); [|done].
    intros j s' Hl Hsome. pose proof (Hj (S j) s' Hl Hsome). lia.
Qed.

(** A lookup in the plain map is a lookup in the shard of the key. *)
Lemma flat_lookup sm key shard : sharded_inv sm -> getShard sm key = Some shard ->
  flat sm !! key = shard !! key.
Proof.
  intros [_ Hs] Hg. apply (union_list_lookup _ (shard_index sm key)); [|done].
  intros j s Hj Hsome. by apply (Hs j s key).
Qed.

Lemma set_shard_inv sm key shard f : sharded_inv sm -> getShard sm key = Some shard ->
  (forall k, k <> key -> f shard !! k = shard !! k) ->
  sharded_inv (set_shard sm key (f shard)) /\
  (forall k, flat (set_shard sm key (f shard)) !! k =
             if decide (k = key) then f shard !! key else flat sm !! k).
Proof.
  intros Hi Hg Hf. pose proof (shard_index_lt sm key Hi) as Hlt.
  assert (Hidx : forall k, shard_index (set_shard sm key (f shard)) k = shard_index sm k) by (by destruct sm).
  assert (Hsh : sh_shards (set_shard sm key (f shard)) = <[shard_index sm key := f shard]> (sh_shards sm))
    by (by destruct sm).
  assert (Hi' : sharded_inv (set_shard sm key (f shard))).
  { destruct Hi as [Hm Hs]. constructor.
    - rewrite Hsh, length_insert. by destruct sm.
    - intros i s k Hl Hsome. rewrite Hidx. rewrite Hsh, list_lookup_insert in Hl.
      case_decide as E.
      + destruct E as [<- _]. injection Hl as <-. destruct (decide (k = key)) as [->|Hk]; [done|].
        rewrite Hf in Hsome by done. by apply (Hs _ shard k).
      + by apply (Hs i s k). }
  split; [done|]. intros k. destruct (get_shard_Some _ k Hi') as [s' Hs']. rewrite (flat_lookup _ _ _ Hi' Hs').
  unfold getShard in Hs'. rewrite Hidx, Hsh, list_lookup_insert in Hs'.
  destruct (decide (k = key)) as [->|Hk].
  - rewrite decide_True in Hs' by done. by injection Hs' as <-.
  - case_decide as E.
    + injection Hs' as <-. destruct E as [E _]. rewrite Hf by done. symmetry. apply flat_lookup; [done|].
      unfold getShard in *. by rewrite <- E.
    + symmetry. by apply flat_lookup.
Qed.

Lemma union_to_list (m1 m2 : gmap string V) : m1 ##ₘ m2 ->
  map_to_list m1 ++ map_to_list m2 ≡ₚ map_to_list (m1 ∪ m2).
Proof.
  intros Hd. apply NoDup_Permutation; [|apply NoDup_map_to_list|].
  - apply NoDup_app. split; [apply NoDup_map_to_list|]. split; [|apply NoDup_map_to_list].
    intros [k v]. rewrite !elem_of_map_to_list. intros H1 H2. by apply (proj1 (map_disjoint_spec m1 m2) Hd k v v).
  - intros [k v]. rewrite elem_of_app, !elem_of_map_to_list. by rewrite lookup_union_Some.
Qed.

(** The shards hold the entries of the plain map, each once. *)
Lemma shards_to_list (l : list (gmap string V)) :
  (forall i j s t key, l !! i = Some s -> l !! j = Some t -> is_Some (s !! key) -> is_Some (t !! key) -> i = j) ->
  flat_map map_to_list l ≡ₚ map_to_list (⋃ l).
Proof.
  induction l as [|s l IH]; intros Hd; cbn; [by rewrite map_to_list_empty|].
  rewrite IH by (intros i j s' t key Hi Hj H1 H2; pose proof (Hd (S i) (S j) s' t key Hi Hj H1 H2); lia).
  apply union_to_list, map_disjoint_spec. intros key x y Hx Hy.
  assert (Hex : exists t, t ∈ l /\ is_Some (t !! key)).
  { clear -Hy. induction l as [|t l IHl]; cbn in Hy; [done|]. apply lookup_union_Some_raw in Hy as [Hy|[_ Hy]].
    - exists t. split; [left|by eexists].
    - destruct (IHl Hy) as (t' & Ht' & Hk). exists t'. split; [by right|done]. }
  destruct Hex as (t & Ht & Hk). apply list_elem_of_lookup_1 in Ht as [j Hj].
  pose proof (Hd 0%nat (S j) s t key eq_refl Hj (mk_is_Some _ _ Hx) Hk). lia.
Qed.

Lemma flat_to_list sm : sharded_inv sm -> flat_map map_to_list (sh_shards sm) ≡ₚ map_to_list (flat sm).
Proof.
  intros [_ Hs]. apply shards_to_list. intros i j s t key Hi Hj H1 H2.
  rewrite (Hs i s key Hi H1). symmetry. by apply (Hs j t key Hj).
Qed.

Lemma range_until_spec f l : exists rest, l = (range_until f l).1 ++ rest /\
  ((range_until f l).2 = true -> rest = []) /\
  ((forall k v, f k v = true) -> range_until f l = (l, true)).
Proof.
  induction l as [|[k v] l (rest & Hl & Hgo & Ht)]; cbn; [by exists []|].
  destruct (f k v) eqn:E.
  - exists rest. destruct (range_until f l) as [seen go]. cbn in *. split; [by rewrite Hl at 1|].
    split; [done|]. intros Hf. specialize (Ht Hf). congruence.
  - exists l. split; [done|]. split; [done|]. intros Hf. by rewrite Hf in E.
Qed.

Section ranges.
Context `{!GoMapRange string}.

Lemma range_shards_spec n f l : exists all, all ≡ₚ flat_map map_to_list l /\
  (exists rest, all = range_shards n f l ++ rest) /\
  ((forall k v, f k v = true) -> range_shards n f l = all).
Proof.
  revert n. induction l as [|s l IH]; intros n; cbn.
  { exists []. split; [done|]. split; [by exists []|done]. }
  destruct (IH (S n)) as (all & Hp & [rest Hrest] & Ht).
  exists (map_range n s ++ all). split; [by rewrite Hp, map_range_perm|].
  destruct (range_until_spec f (map_range n s)) as (r & Hr & Hgo & Hall).
  destruct (range_until f (map_range n s)) as [seen [|]]; cbn in *.
  - rewrite Hgo, app_nil_r in Hr by done. subst seen. split.
    + exists rest. by rewrite Hrest at 1; rewrite app_assoc.
    + intros Hf. by rewrite Ht.
  - split; [exists (r ++ all); by rewrite Hr at 1; rewrite app_assoc|].
    intros Hf. specialize (Hall Hf). by simplify_eq.
Qed.

Lemma keys_from_spec n l : keys_from n l ≡ₚ (flat_map map_to_list l).*1.
Proof.
  revert n. induction l as [|s l IH]; intros n; cbn; [done|].
  by rewrite fmap_app, IH, map_range_perm.
Qed.
End ranges.

Lemma count_from l c : foldl (fun count (shard : gmap string V) => count + Z.of_nat (size shard)) c l =
  c + Z.of_nat (length (flat_map map_to_list l)).
Proof.
  revert c. induction l as [|s l IH]; intros c; cbn; [lia|].
  rewrite IH, length_app, length_map_to_list. lia.
Qed.

Lemma new_sharded n : sharded_inv (NewShardedMap n) /\ flat (NewShardedMap n) = ∅.
Proof.
  unfold NewShardedMap. set (k := if _ || _ then _ else _).
  assert (Hk : 0 < k) by (subst k; destruct (Z.leb_spec n 0); cbn; [lia|destruct (negb _); lia]).
  clearbody k. split.
  - constructor; cbn.
    + rewrite length_replicate, Z2Nat.id by lia. unfold u32, wrap_u.
      pose proof (Z.mod_pos_bound (k - 1) (2 ^ 32) ltac:(lia)).
      pose proof (Z.mod_le (k - 1) (2 ^ 32) ltac:(lia) ltac:(lia)). lia.
    + intros i s key Hi [x Hx]. apply lookup_replicate in Hi as [-> _]. by rewrite lookup_empty in Hx.
  - unfold flat. cbn. induction (Z.to_nat k) as [|m IH]; [done|]. cbn. by rewrite IH, (left_id_L ∅ (∪)).
Qed.
End sharded.
Arguments ShardedMap : clear implicits.

(** ** Properties *)

(** The sharded map implements a plain map: for every key that is a string
    or a byte slice, storing, loading and deleting never fail, select the shard by
    the hash, and are the operations of the plain map it stands for. *)
Theorem sharded_map_refines {V : Type} (sm : ShardedMap V) (key : any_key) (k : string) (v : V) :
  sharded_inv sm -> toString key = Some k ->
  Load key sm = Some (flat sm !! k) /\
  (exists sm', Store key v sm = Some sm' /\ sharded_inv sm' /\ flat sm' = <[k := v]> (flat sm)) /\
  (exists sm', Delete key sm = Some sm' /\ sharded_inv sm' /\ flat sm' = delete k (flat sm)).
Proof.
  intros Hi Hk. unfold Load, Store, Delete. rewrite Hk. cbn.
  destruct (get_shard_Some sm k Hi) as [shard Hs]. rewrite Hs. cbn.
  split; [by rewrite (flat_lookup sm k shard Hi Hs)|]. split.
  - destruct (set_shard_inv sm k shard (insert k v) Hi Hs) as [H1 H2].
    { intros k' Hne. by rewrite lookup_insert_ne. }
    eexists. split; [reflexivity|]. split; [done|]. apply map_eq. intros k'. rewrite H2.
    destruct (decide (k' = k)) as [->|]; [by rewrite !lookup_insert_eq|]. by rewrite lookup_insert_ne.
  - destruct (set_shard_inv sm k shard (delete k) Hi Hs) as [H1 H2].
    { intros k' Hne. by rewrite lookup_delete_ne. }
    eexists. split; [reflexivity|]. split; [done|]. apply map_eq. intros k'. rewrite H2.
    destruct (decide (k' = k)) as [->|]; [by rewrite !lookup_delete_eq|]. by rewrite lookup_delete_ne.
Qed.

(** Counting, listing the keys and ranging over a sharded map agree with the
    plain map: the count is its size, the keys are its keys, each once, and a
    callback sees distinct entries of it, all of them unless it stops. *)
Theorem sharded_map_enumerates {V : Type} `{!GoMapRange string} (n : nat) (f : string -> V -> bool)
    (sm : ShardedMap V) :
  sharded_inv sm ->
  Count sm = Z.of_nat (size (flat sm)) /\ Keys n sm ≡ₚ (map_to_list (flat sm)).*1 /\
  (exists rest, Range n f sm ++ rest ≡ₚ map_to_list (flat sm)) /\
  ((forall k v, f k v = true) -> Range n f sm ≡ₚ map_to_list (flat sm)).
Proof.
  intros Hi. pose proof (flat_to_list sm Hi) as Hl. split.
  { unfold Count. rewrite count_from, Hl, length_map_to_list. lia. }
  split; [unfold Keys; by rewrite keys_from_spec, Hl|].
  unfold Range. destruct (range_shards_spec n f (sh_shards sm)) as (all & Hp & [rest Hr] & Ht).
  rewrite Hl in Hp. split; [exists rest; by rewrite <- Hr|]. intros Hf. by rewrite Ht.
Qed.

Definition sample_sharded : ShardedMap Z :=
  default (NewShardedMap 4) (Store (KString "call-1") 7 (NewShardedMap 4)).

Lemma sample_sharded_inv : sharded_inv sample_sharded.
Proof.
  destruct (new_sharded (V := Z) 4) as [Hi _]. destruct (get_shard_Some _ "call-1" Hi) as [shard Hs].
  destruct (set_shard_inv (NewShardedMap 4) "call-1" shard (insert "call-1" 7) Hi Hs) as [H1 _].
  { intros k Hne. by rewrite lookup_insert_ne. }
  unfold sample_sharded, Store. cbn [toString]. cbn -[getShard NewShardedMap set_shard].
  by rewrite Hs.
Qed.

Lemma sharded_map_refines_witness :
  Load (KBytes "call-1") sample_sharded = Some (Some 7) /\
  Load (KBytes "call-1") sample_sharded = Some (flat sample_sharded !! "call-1"%string).
Proof.
  split; [vm_compute; reflexivity|].
  exact (proj1 (sharded_map_refines sample_sharded (KBytes "call-1") "call-1" 0 sample_sharded_inv eq_refl)).
Defined.

Lemma sharded_map_enumerates_witness :
  Count sample_sharded = 1 /\ Count sample_sharded = Z.of_nat (size (flat sample_sharded)).
Proof.
  split; [vm_compute; reflexivity|].
  exact (proj1 (@sharded_map_enumerates Z (list_range string) 0 (fun _ _ => true) sample_sharded
    sample_sharded_inv)).
Defined.
