(* ===== verification/Crlf.v ===== *)
(** * Line endings of incoming SIP messages

    [src/pkg/sip/crlf_normalizer.go]: bare line feeds in the header section become
    CR LF before the parser sees the message; the body is not touched.  Bytes are
    in [Z]; 10 is LF and 13 is CR. *)

From S2P Require Import Prelude.
#[local] Open Scope Z_scope.

Definition LF : Z := 10.
Definition CR : Z := 13.

(** The offset where the body begins; [i] is the offset of the list. *)
Fixpoint split_from (i : nat) (data : list Z) : option nat :=
  match data with
  | a :: ((b :: rest) as tl) =>
    if negb (a =? LF) then split_from (S i) tl
    else if b =? LF then Some (i + 2)%nat
    else if (b =? CR) && match rest with c :: _ => c =? LF | [] => false end then Some (i + 3)%nat
    else split_from (S i) tl
  | _ => None
  end.

(** [None] is -1. *)
Definition findHeaderBodySplit (data : list Z) : option nat := split_from 0 data.

(** Whether some LF is not preceded by CR; [prev] is the byte before. *)
Fixpoint has_bare (prev : Z) (data : list Z) : bool :=
  match data with
  | [] => false
  | b :: data => ((b =? LF) && negb (prev =? CR)) || has_bare b data
  end.

Fixpoint insert_cr (prev : Z) (data : list Z) : list Z :=
  match data with
  | [] => []
  | b :: data =>
    if (b =? LF) && negb (prev =? CR) then CR :: b :: insert_cr b data else b :: insert_cr b data
  end.

(** There is no byte before the first one; any byte but CR stands for that. *)
Definition normalizeCRLFBytes (data : list Z) : list Z :=
  if negb (existsb (fun b => b =? LF) data) then data
  else if negb (has_bare 0 data) then data
  else insert_cr 0 data.

Definition normalizeCRLF (data : list Z) : list Z :=
  match findHeaderBodySplit data with
  | None => normalizeCRLFBytes data
  | Some split =>
    if (length data <=? split)%nat then normalizeCRLFBytes data else
    let normalized := normalizeCRLFBytes (take split data) in
    if (length normalized =? split)%nat then data
    else normalized ++ drop split data
  end.

(** ** Connections *)

(** [crlfPacketConn.ReadFrom] on a datagram that the socket delivered into a
    buffer of [size] bytes. *)
Definition ReadFrom (size : nat) (datagram : list Z) : list Z :=
  let n := length datagram in
  if (n =? 0)%nat then datagram else
  let normalized := normalizeCRLF datagram in
  if (length normalized =? n)%nat then datagram
  else if (length normalized <=? size)%nat then normalized
  else take size normalized.

(** [crlfConn.Read] into a buffer of [size] bytes: [chunk] is what the
    connection delivers if it is asked, at most [size] bytes.  The result is the
    bytes read and the pending bytes. *)
Definition ConnRead (size : nat) (chunk pending : list Z) : list Z * list Z :=
  match pending with
  | _ :: _ => (take size pending, drop size pending)
  | [] =>
    match chunk with
    | [] => ([], [])
    | _ =>
      let normalized := normalizeCRLF chunk in
      if (length normalized =? length chunk)%nat then (chunk, [])
      else (take size normalized, drop size normalized)
    end
  end.

(** ** Facts *)

Lemma insert_cr_id prev data : has_bare prev data = false -> insert_cr prev data = data.
Proof.
  revert prev. induction data as [|b data IH]; intros prev; cbn; [done|].
  intros [H1 H2]%orb_false_iff. rewrite H1. by rewrite IH.
Qed.

Lemma has_bare_existsb prev data : existsb (fun b => b =? LF) data = false -> has_bare prev data = false.
Proof.
  revert prev. induction data as [|b data IH]; intros prev; cbn; [done|].
  intros [-> H2]%orb_false_iff. cbn. by apply IH.
Qed.

(** The fast paths change nothing. *)
Lemma normalize_bytes_insert data : normalizeCRLFBytes data = insert_cr 0 data.
Proof.
  unfold normalizeCRLFBytes. destruct (existsb _ data) eqn:E; cbn [negb].
  - destruct (has_bare 0 data) eqn:E2; [done|]. cbn. by rewrite insert_cr_id.
  - by rewrite insert_cr_id by (by apply has_bare_existsb).
Qed.

Lemma insert_cr_no_bare prev data : has_bare prev (insert_cr prev data) = false.
Proof.
  revert prev. induction data as [|b data IH]; intros prev; cbn; [done|].
  destruct (b =? LF) eqn:Eb; cbn; [|by rewrite Eb, IH].
  destruct (prev =? CR) eqn:Ep; cbn; rewrite ?Eb, ?Ep, IH; done.
Qed.

Lemma insert_cr_length prev data : (length data <= length (insert_cr prev data))%nat /\
  (has_bare prev data = true -> (length data < length (insert_cr prev data))%nat).
Proof.
  revert prev. induction data as [|b data IH]; intros prev; cbn; [split; [lia|done]|].
  destruct (IH b) as [H1 H2]. destruct (_ && _); cbn; (split; [lia|]); [lia|]. intros H. specialize (H2 H). lia.
Qed.

(** The message split at its first blank line: the headers with it, the body. *)
Fixpoint split_message (data : list Z) : option (list Z * list Z) :=
  match data with
  | a :: ((b :: rest) as tl) =>
    if negb (a =? LF) then '(h, body) ← split_message tl; Some (a :: h, body)
    else if b =? LF then Some ([a; b], rest)
    else if b =? CR then
      match rest with
      | c :: body => if c =? LF then Some ([a; b; c], body)
                     else '(h, body) ← split_message tl; Some (a :: h, body)
      | [] => '(h, body) ← split_message tl; Some (a :: h, body)
      end
    else '(h, body) ← split_message tl; Some (a :: h, body)
  | _ => None
  end.

Lemma split_from_cons i a b rest : split_from i (a :: b :: rest) =
  if negb (a =? LF) then split_from (S i) (b :: rest)
  else if b =? LF then Some (i + 2)%nat
  else if (b =? CR) && match rest with c :: _ => c =? LF | [] => false end then Some (i + 3)%nat
  else split_from (S i) (b :: rest).
Proof. done. Qed.

Lemma split_message_cons a b rest : split_message (a :: b :: rest) =
  (if negb (a =? LF) then '(h, body) ← split_message (b :: rest); Some (a :: h, body)
    else if b =? LF then Some ([a; b], rest)
    else if b =? CR then
      match rest with
      | c :: body => if c =? LF then Some ([a; b; c], body)
                     else '(h, body) ← split_message (b :: rest); Some (a :: h, body)
      | [] => '(h, body) ← split_message (b :: rest); Some (a :: h, body)
      end
    else '(h, body) ← split_message (b :: rest); Some (a :: h, body)).
Proof. done. Qed.

Lemma split_from_spec data i : split_from i data =
  (fun hb => (i + length hb.1)%nat) <$> split_message data.
Proof.
  revert i. induction data as [|a data IH]; intros i; [done|].
  destruct data as [|b rest]; [done|].
  assert (Hrec : split_from (S i) (b :: rest) =
    (fun hb => (i + length hb.1)%nat) <$> ('(h, body) ← split_message (b :: rest); Some (a :: h, body))).
  { rewrite IH. destruct (split_message (b :: rest)) as [[h body]|]; [|done]. cbn. f_equal. lia. }
  rewrite split_from_cons, split_message_cons.
  destruct (negb (a =? LF)); [done|]. destruct (b =? LF); [done|].
  destruct (b =? CR); [|done]. cbn [andb]. destruct rest as [|c body]; [done|]. destruct (c =? LF); done.
Qed.

(** Induction along [split_message]: how a split message arises. *)
Inductive message_split : list Z -> list Z -> Prop :=
  | split_lf body : message_split [LF; LF] body
  | split_crlf body : message_split [LF; CR; LF] body
  | split_byte a h body : a <> LF -> message_split h body -> message_split (a :: h) body
  | split_line h body : message_split h body ->
      (forall t, h <> LF :: t) -> (forall t, h <> CR :: LF :: t) -> message_split (LF :: h) body.

Lemma split_message_app h body : message_split h body -> split_message (h ++ body) = Some (h, body).
Proof.
  induction 1 as [body|body|a h body Ha Hs IH|h body Hs IH H1 H2]; [done|done|..];
    (destruct h as [|b h]; [by inversion Hs|]); cbn [app] in *; rewrite split_message_cons.
  - rewrite (proj2 (Z.eqb_neq a LF)) by done. cbn [negb]. by rewrite IH.
  - assert (Hb : b <> LF) by (intros ->; by apply (H1 h)). cbn [negb Z.eqb Pos.eqb LF].
    rewrite (proj2 (Z.eqb_neq b LF)) by done. rewrite IH. cbn.
    destruct (b =? CR) eqn:Ec; [|done]. bool_to_prop. subst b.
    destruct h as [|c h]; [inversion Hs as [| |? ? ? ? Hn|]; inversion Hn|].
    cbn [app]. rewrite (proj2 (Z.eqb_neq c LF)); [done|]. intros ->. by apply (H2 h).
Qed.

Lemma split_message_Some data h body : split_message data = Some (h, body) ->
  data = h ++ body /\ message_split h body.
Proof.
  revert h. induction data as [|a data IH]; intros h; [done|]. destruct data as [|b rest]; [done|].
  intros Hsp.
  assert (Hrec : forall h0, ('(h', body') ← split_message (b :: rest); Some (a :: h', body')) = Some (h0, body) ->
    exists h', h0 = a :: h' /\ b :: rest = h' ++ body /\ message_split h' body).
  { intros h0. destruct (split_message (b :: rest)) as [[h' body']|] eqn:E; [|done]. cbn. intros [= <- <-].
    destruct (IH h' eq_refl). by exists h'. }
  assert (Hline : (b <> LF) -> (b = CR -> forall t, rest <> LF :: t) -> a = LF -> forall h',
    b :: rest = h' ++ body -> message_split h' body -> message_split (a :: h') body).
  { intros Hb Hc -> h' Hh Hs. apply split_line; [done|..]; intros t ->; inversion Hh; subst; [done|].
    by apply (Hc eq_refl (t ++ body)). }
  rewrite split_message_cons in Hsp.
  destruct (a =? LF) eqn:Ea; cbn [negb] in Hsp; bool_to_prop.
  2:{ apply Hrec in Hsp as (h' & -> & -> & Hs). split; [done|]. by apply split_byte. }
  destruct (b =? LF) eqn:Eb; bool_to_prop.
  { injection Hsp as <- <-. subst. split; [done|]. constructor. }
  destruct (b =? CR) eqn:Ec; bool_to_prop.
  - destruct rest as [|c rest'].
    + apply Hrec in Hsp as (h' & -> & Hh & Hs). rewrite Hh. split; [done|]. apply Hline; try done.
    + destruct (c =? LF) eqn:Ecl; bool_to_prop.
      * injection Hsp as <- <-. subst. split; [done|]. constructor.
      * apply Hrec in Hsp as (h' & -> & Hh & Hs). rewrite Hh. split; [done|]. apply Hline; try done.
        intros _ t [= -> _]. done.
  - apply Hrec in Hsp as (h' & -> & Hh & Hs). rewrite Hh. split; [done|]. by apply Hline.
Qed.

Lemma normalize_crlf_split data : normalizeCRLF data =
  match split_message data with
  | Some (h, body) => insert_cr 0 h ++ body
  | None => insert_cr 0 data
  end.
Proof.
  unfold normalizeCRLF, findHeaderBodySplit. rewrite split_from_spec, !normalize_bytes_insert.
  destruct (split_message data) as [[h body]|] eqn:E; [|done].
  destruct (split_message_Some _ _ _ E) as [-> _]. cbn. rewrite length_app.
  destruct (Nat.leb_spec (length h + length body) (length h)).
  - assert (body = []) as -> by (apply length_zero_iff_nil; lia). by rewrite !app_nil_r.
  - rewrite normalize_bytes_insert, take_app_length, drop_app_length.
    destruct (Nat.eqb_spec (length (insert_cr 0 h)) (length h)) as [Heq|]; [|done].
    rewrite insert_cr_id; [done|]. destruct (has_bare 0 h) eqn:Hb; [|done].
    pose proof (proj2 (insert_cr_length 0 h) Hb). lia.
Qed.

Lemma has_bare_app prev l l' : has_bare prev (l ++ l') = false -> has_bare prev l = false.
Proof.
  revert prev. induction l as [|b l IH]; intros prev; cbn; [done|].
  intros [-> H]%orb_false_iff. cbn. by apply IH.
Qed.

(** Inserting CRs keeps the headers a block ended by its first blank line. *)
Lemma insert_cr_message h body prev : message_split h body -> message_split (insert_cr prev h) body.
Proof.
  intros Hs. revert prev. induction Hs as [body|body|a h body Ha Hs IH|h body Hs IH H1 H2]; intros prev.
  - cbn. destruct (prev =? CR); [apply split_crlf|]. apply split_byte; [done|apply split_crlf].
  - cbn. destruct (prev =? CR); [apply split_crlf|]. apply split_byte; [done|apply split_crlf].
  - cbn. rewrite (proj2 (Z.eqb_neq a LF)) by done. by apply split_byte.
  - assert (Hl : message_split (LF :: insert_cr LF h) body).
    { apply split_line; [apply IH|..].
      - intros t E. destruct h as [|b h]; [done|]. cbn in E. destruct (b =? LF) eqn:Eb; cbn in E.
        + bool_to_prop. subst. by apply (H1 h).
        + injection E as -> _. done.
      - intros t E. destruct h as [|b h]; [done|].
        destruct (b =? LF) eqn:Eb; [bool_to_prop; subst; by apply (H1 h)|].
        cbn in E. rewrite Eb in E. cbn in E. injection E as -> E. destruct h as [|c h]; [done|]. cbn in E.
        destruct (c =? LF) eqn:Ec; cbn in E; [bool_to_prop; subst; by apply (H2 h)|].
        injection E as -> _. done. }
    cbn. destruct (prev =? CR); [done|]. cbn. by apply split_byte.
Qed.

(** The text without the CRs that precede an LF. *)
Fixpoint strip_cr (l : list Z) : list Z :=
  match l with
  | a :: ((b :: _) as tl) => if (a =? CR) && (b =? LF) then strip_cr tl else a :: strip_cr tl
  | _ => l
  end.

Lemma strip_cr_cons a b l : strip_cr (a :: b :: l) =
  if (a =? CR) && (b =? LF) then strip_cr (b :: l) else a :: strip_cr (b :: l).
Proof. done. Qed.

Lemma insert_cr_strip prev l : strip_cr (insert_cr prev l) = strip_cr l.
Proof.
  revert prev. induction l as [|a l IH]; intros prev; [done|].
  assert (Htail : forall a, a <> CR -> strip_cr (a :: insert_cr a l) = a :: strip_cr l).
  { intros a' Ha. rewrite <- (IH a'). destruct (insert_cr a' l); [done|].
    rewrite strip_cr_cons, (proj2 (Z.eqb_neq a' CR)) by done. done. }
  assert (Hl : forall a, a <> CR -> strip_cr (a :: l) = a :: strip_cr l).
  { intros a' Ha. destruct l; [done|]. by rewrite strip_cr_cons, (proj2 (Z.eqb_neq a' CR)). }
  cbn -[strip_cr]. destruct (a =? LF) eqn:Ea; cbn [andb].
  - bool_to_prop. subst a. rewrite (Hl LF) by done. destruct (prev =? CR); cbn [negb]; [by rewrite Htail|].
    rewrite strip_cr_cons. cbn [andb CR LF Z.eqb Pos.eqb]. by apply Htail.
  - destruct (decide (a = CR)) as [->|Hne]; [|by rewrite Htail, Hl].
    destruct l as [|c l]; [done|]. specialize (IH CR). cbn -[strip_cr] in *.
    destruct (c =? LF) eqn:Ec; cbn [andb negb Z.eqb CR Pos.eqb] in *; rewrite !strip_cr_cons, IH, Ec; done.
Qed.

(** ** Properties *)

(** Normalization leaves the body as it is, leaves no bare line feed in the
    headers, changes nothing but carriage returns before line feeds, keeps the
    blank line the end of the headers, and a second pass changes nothing. *)
Theorem crlf_normalization_correct (data : list Z) :
  normalizeCRLF (normalizeCRLF data) = normalizeCRLF data /\
  match split_message data with
  | Some (h, body) => exists h', normalizeCRLF data = h' ++ body /\ has_bare 0 h' = false /\
      strip_cr h' = strip_cr h /\ split_message (normalizeCRLF data) = Some (h', body)
  | None => has_bare 0 (normalizeCRLF data) = false /\ strip_cr (normalizeCRLF data) = strip_cr data
  end.
Proof.
  split.
  - rewrite (normalize_crlf_split data). destruct (split_message data) as [[h body]|] eqn:E.
    + apply split_message_Some in E as [_ Hs]. rewrite normalize_crlf_split.
      rewrite (split_message_app (insert_cr 0 h) body) by (by apply insert_cr_message).
      by rewrite (insert_cr_id 0 (insert_cr 0 h)) by apply insert_cr_no_bare.
    + pose proof (insert_cr_no_bare 0 data) as Hb. set (d := insert_cr 0 data) in *. clearbody d.
      rewrite normalize_crlf_split. destruct (split_message d) as [[h body]|] eqn:E2; [|by apply insert_cr_id].
      apply split_message_Some in E2 as [-> _]. by rewrite insert_cr_id by (by eapply has_bare_app).
  - rewrite (normalize_crlf_split data). destruct (split_message data) as [[h body]|] eqn:E.
    + apply split_message_Some in E as [_ Hs]. exists (insert_cr 0 h). split; [done|].
      split; [apply insert_cr_no_bare|]. split; [apply insert_cr_strip|].
      by apply split_message_app, insert_cr_message.
    + split; [apply insert_cr_no_bare|apply insert_cr_strip].
Qed.

Lemma normalize_last c1 : exists t, normalizeCRLF (c1 ++ [CR]) = t ++ [CR].
Proof.
  assert (Hins : forall prev l, exists t, insert_cr prev (l ++ [CR]) = t ++ [CR]).
  { intros prev l. revert prev. induction l as [|b l IH]; intros prev; [by exists []|].
    cbn. destruct (IH b) as [t ->]. destruct (_ && _); [by exists (CR :: b :: t)|by exists (b :: t)]. }
  rewrite normalize_crlf_split. destruct (split_message (c1 ++ [CR])) as [[h body]|] eqn:E; [|apply Hins].
  apply split_message_Some in E as [Hd Hs].
  destruct body as [|x body] using rev_ind.
  - rewrite app_nil_r in *. subst h. apply Hins.
  - rewrite app_assoc in Hd. apply app_inj_tail in Hd as [_ <-]. rewrite app_assoc. by eexists.
Qed.

Lemma normalize_first c2 : exists t, normalizeCRLF (LF :: c2) = CR :: LF :: t.
Proof.
  rewrite normalize_crlf_split. destruct (split_message (LF :: c2)) as [[h body]|] eqn:E; [|by eexists].
  apply split_message_Some in E as [Hd Hs]. destruct h as [|b h]; [inversion Hs|].
  injection Hd as <- _. by eexists.
Qed.

(** A CR LF that a TCP segment boundary divides is damaged: the connection
    wrapper normalizes each read by itself, so the LF looks bare and the parser
    receives CR CR LF. *)
Theorem crlf_split_across_reads (size1 size2 : nat) (c1 c2 : list Z) :
  (length (normalizeCRLF (c1 ++ [CR])) <= size1)%nat ->
  (length (normalizeCRLF (LF :: c2)) <= size2)%nat ->
  exists before after out1 out2,
    ConnRead size1 (c1 ++ [CR]) [] = (out1, []) /\ ConnRead size2 (LF :: c2) [] = (out2, []) /\
    out1 ++ out2 = before ++ [CR; CR; LF] ++ after.
Proof.
  intros H1 H2. destruct (normalize_last c1) as [t1 E1]. destruct (normalize_first c2) as [t2 E2].
  assert (Hread : forall size c, c <> [] -> (length (normalizeCRLF c) <= size)%nat ->
    ConnRead size c [] = (normalizeCRLF c, [])).
  { intros size c Hne Hl. unfold ConnRead. destruct c as [|a c]; [done|].
    destruct (Nat.eqb_spec (length (normalizeCRLF (a :: c))) (length (a :: c))) as [Heq|].
    - f_equal. symmetry. revert Heq. rewrite normalize_crlf_split.
      destruct (split_message (a :: c)) as [[h body]|] eqn:E.
      + apply split_message_Some in E as [-> _]. rewrite !length_app. intros Heq.
        rewrite insert_cr_id; [done|]. destruct (has_bare 0 h) eqn:Hb; [|done].
        pose proof (proj2 (insert_cr_length 0 h) Hb). lia.
      + intros Heq. apply insert_cr_id. destruct (has_bare 0 (a :: c)) eqn:Hb; [|done].
        pose proof (proj2 (insert_cr_length 0 (a :: c)) Hb). lia.
    - rewrite take_ge, drop_ge by done. done. }
  exists t1, t2, (normalizeCRLF (c1 ++ [CR])), (normalizeCRLF (LF :: c2)).
  split; [apply Hread; [by destruct c1|done]|]. split; [by apply Hread|].
  rewrite E1, E2, <- app_assoc. done.
Qed.

Lemma crlf_split_across_reads_witness :
  exists before after out1 out2,
    ConnRead 64 ([73; 78; 86] ++ [CR]) [] = (out1, []) /\ ConnRead 64 (LF :: [86; 105; 97]) [] = (out2, []) /\
    out1 ++ out2 = before ++ [CR; CR; LF] ++ after.
Proof. apply (crlf_split_across_reads 64 64 [73; 78; 86] [86; 105; 97]); cbn; lia. Defined.

(** A read that holds body bytes only is treated as headers: unless it
    contains a blank line itself, every bare line feed in it is expanded, so a
    body that arrives in a later TCP segment grows beyond its declared length. *)
Theorem later_body_segment_grows (size : nat) (segment : list Z) :
  split_message segment = None -> has_bare 0 segment = true ->
  (length (normalizeCRLF segment) <= size)%nat ->
  (length segment < length (ConnRead size segment []).1)%nat.
Proof.
  intros Hs Hb Hl. assert (Hgrow : (length segment < length (normalizeCRLF segment))%nat).
  { rewrite normalize_crlf_split, Hs. by apply insert_cr_length. }
  unfold ConnRead. destruct segment as [|a segment]; [done|].
  destruct (Nat.eqb_spec (length (normalizeCRLF (a :: segment))) (length (a :: segment))); [lia|].
  cbn [fst]. by rewrite take_ge.
Qed.

Lemma later_body_segment_grows_witness :
  (length [118; 61; 48; LF]%Z < length (ConnRead 64 [118; 61; 48; LF]%Z []).1)%nat.
Proof. apply later_body_segment_grows; [reflexivity|reflexivity|cbn; lia]. Defined.
