(* ===== verification/CircuitBreaker.v ===== *)
(** * Circuit breakers

    [src/pkg/circuitbreaker]: the state machine that stops calling a failing
    service, its statistics and the failure rate over a time window, and the
    manager.  A request takes two locked sections, [allowRequest] before the call
    and [recordSuccess] or [recordFailure] after it, and requests overlap, so the
    theorems are about arbitrary sequences of these steps.  Rates are IEEE 754
    doubles.  Logging and the asynchronous callback are left out. *)

From S2P Require Import Prelude GoFloat.
#[local] Open Scope Z_scope.

Inductive State := StateClosed | StateHalfOpen | StateOpen.

#[export] Instance State_eq_dec : EqDecision State.
Proof. solve_decision. Defined.

Definition state_String (s : State) : string :=
  match s with StateClosed => "closed" | StateHalfOpen => "half-open" | StateOpen => "open" end.

Record Config := mkConfig {
  cf_FailureThreshold : Z;
  cf_SuccessThreshold : Z;
  cf_Timeout : Z;
  cf_MaxTimeout : Z;
  cf_RequestTimeout : Z;
  cf_ExponentialBackoff : bool;
  cf_FailureRateThreshold : spec_float;
  cf_MinRequestThreshold : Z;
  cf_TimeWindow : Z
}.

Definition seconds (n : Z) : Z := n * 1000000000.

(** 0.5 and the double nearest to 0.6. *)
Definition f64_half : spec_float := f64_div (f64_of_int 1) (f64_of_int 2).
Definition f64_six_tenths : spec_float := f64_div (f64_of_int 6) (f64_of_int 10).

Definition DefaultConfig : Config :=
  mkConfig 5 2 (seconds 60) (seconds 300) (seconds 30) true f64_half 10 (seconds 60).

Definition STTConfig : Config :=
  mkConfig 3 2 (seconds 30) (seconds 180) (seconds 45) true f64_six_tenths 5 (seconds 45).

Record RequestRecord := mkRequestRecord { rq_Timestamp : Z; rq_Success : bool }.

Record Statistics := mkStatistics {
  sa_TotalRequests : Z;
  sa_SuccessfulRequests : Z;
  sa_FailedRequests : Z;
  sa_RejectedRequests : Z;
  sa_ConsecutiveFailures : Z;
  sa_ConsecutiveSuccesses : Z;
  sa_LastFailureTime : Z;
  sa_LastSuccessTime : Z;
  sa_StateTransitions : Z;
  sa_WindowRequests : list RequestRecord;
  sa_WindowStart : Z
}.

Record CircuitBreaker := mkCircuitBreaker {
  cb_name : string;
  cb_config : Config;
  cb_state : State;
  cb_failures : Z;
  cb_lastFailTime : Z;
  cb_lastSuccessTime : Z;
  cb_nextAttempt : Z;
  cb_stats : Statistics
}.

Definition NewCircuitBreaker (now : Z) (name : string) (config : option Config) : CircuitBreaker :=
  mkCircuitBreaker name (default DefaultConfig config) StateClosed 0 0 0 0
    (mkStatistics 0 0 0 0 0 0 0 0 0 [] now).

(** [time.Duration(1 << uint(k))]: a negative count becomes a huge one, which
    shifts everything out. *)
Definition shift_one (k : Z) : Z := if (0 <=? k) && (k <? 64) then i64 (2 ^ k) else 0.

(** The time an opened breaker stays open. *)
Definition open_timeout (c : Config) (failures : Z) : Z :=
  if cf_ExponentialBackoff c then
    let timeout := i64 (cf_Timeout c * shift_one (Z.min (i64 (failures - 1)) 10)) in
    if cf_MaxTimeout c <? timeout then cf_MaxTimeout c else timeout
  else cf_Timeout c.

Definition setState (now : Z) (newState : State) (cb : CircuitBreaker) : CircuitBreaker :=
  if decide (cb_state cb = newState) then cb else
  let cb := cb <| cb_state := newState |> in
  let cb := match newState with
            | StateOpen => cb <| cb_nextAttempt := now + open_timeout (cb_config cb) (cb_failures cb) |>
            | StateClosed => cb <| cb_failures := 0 |> <| cb_nextAttempt := 0 |>
            | StateHalfOpen => cb <| cb_stats := (cb_stats cb) <| sa_ConsecutiveSuccesses := 0 |> |>
            end in
  cb <| cb_stats := (cb_stats cb)
          <| sa_StateTransitions := i64 (sa_StateTransitions (cb_stats cb) + 1) |> |>.

Definition allowRequest (now now' : Z) (cb : CircuitBreaker) : bool * CircuitBreaker :=
  match cb_state cb with
  | StateClosed => (true, cb)
  | StateOpen => if cb_nextAttempt cb <? now then (true, setState now' StateHalfOpen cb) else (false, cb)
  | StateHalfOpen => (true, cb)
  end.

Definition addWindowRecord (c : Config) (timestamp : Z) (success : bool) (s : Statistics) : Statistics :=
  let records := sa_WindowRequests s ++ [mkRequestRecord timestamp success] in
  s <| sa_WindowRequests :=
         filter (fun r => timestamp - cf_TimeWindow c < rq_Timestamp r) records |>.

Definition recordSuccess (now now' : Z) (cb : CircuitBreaker) : CircuitBreaker :=
  let s := cb_stats cb in
  let s := s <| sa_TotalRequests := i64 (sa_TotalRequests s + 1) |>
             <| sa_SuccessfulRequests := i64 (sa_SuccessfulRequests s + 1) |>
             <| sa_ConsecutiveFailures := 0 |>
             <| sa_ConsecutiveSuccesses := i64 (sa_ConsecutiveSuccesses s + 1) |>
             <| sa_LastSuccessTime := now |> in
  let cb := cb <| cb_failures := 0 |> <| cb_lastSuccessTime := now |>
               <| cb_stats := addWindowRecord (cb_config cb) now true s |> in
  if decide (cb_state cb = StateHalfOpen) then
    if cf_SuccessThreshold (cb_config cb) <=? sa_ConsecutiveSuccesses (cb_stats cb)
    then setState now' StateClosed cb else cb
  else cb.

Definition getFailureRate (now : Z) (cb : CircuitBreaker) : spec_float :=
  let recent := filter (fun r => now - cf_TimeWindow (cb_config cb) < rq_Timestamp r)
                  (sa_WindowRequests (cb_stats cb)) in
  let total := Z.of_nat (length recent) in
  let failed := Z.of_nat (length (filter (fun r => rq_Success r = false) recent)) in
  if total =? 0 then S754_zero false else f64_div (f64_of_int failed) (f64_of_int total).

Definition shouldTrip (now : Z) (cb : CircuitBreaker) : bool :=
  (cf_FailureThreshold (cb_config cb) <=? cb_failures cb) ||
  ((cf_MinRequestThreshold (cb_config cb) <=? sa_TotalRequests (cb_stats cb)) &&
   f64_ge (getFailureRate now cb) (cf_FailureRateThreshold (cb_config cb))).

(** The breaker after the counters of a failure and before the trip test. *)
Definition count_failure (now : Z) (cb : CircuitBreaker) : CircuitBreaker :=
  let s := cb_stats cb in
  let s := s <| sa_TotalRequests := i64 (sa_TotalRequests s + 1) |>
             <| sa_FailedRequests := i64 (sa_FailedRequests s + 1) |>
             <| sa_ConsecutiveFailures := i64 (sa_ConsecutiveFailures s + 1) |>
             <| sa_ConsecutiveSuccesses := 0 |>
             <| sa_LastFailureTime := now |> in
  cb <| cb_failures := i64 (cb_failures cb + 1) |> <| cb_lastFailTime := now |>
     <| cb_stats := addWindowRecord (cb_config cb) now false s |>.

Definition recordFailure (now now' now'' : Z) (cb : CircuitBreaker) : CircuitBreaker :=
  let cb := count_failure now cb in
  if shouldTrip now' cb then setState now'' StateOpen cb else cb.

Definition recordRejection (cb : CircuitBreaker) : CircuitBreaker :=
  cb <| cb_stats := (cb_stats cb)
          <| sa_RejectedRequests := i64 (sa_RejectedRequests (cb_stats cb) + 1) |> |>.

Definition Reset (now now' : Z) (cb : CircuitBreaker) : CircuitBreaker :=
  let cb := setState now StateClosed cb in
  cb <| cb_failures := 0 |> <| cb_lastFailTime := 0 |> <| cb_lastSuccessTime := 0 |>
     <| cb_nextAttempt := 0 |>
     <| cb_stats := mkStatistics 0 0 0 0 0 0 0 0 (sa_StateTransitions (cb_stats cb)) [] now' |>.

(** ** Executing a request *)

Inductive exec_error (E : Type) := CtxError (e : E) | BreakerOpen (name : string) (s : State) | FnError (e : E).
Arguments CtxError {E}. Arguments BreakerOpen {E}. Arguments FnError {E}.

(** [ctx] is the error of the caller's context before the call, [parent] after
    it, [fn] the result of the call, [errors_Is] the comparison of error chains;
    [clock] gives the times that are read. *)
Definition Execute {E : Type} (errors_Is : E -> E -> bool) (clock : nat -> Z)
    (ctx parent fn : option E) (cb : CircuitBreaker) : option (exec_error E) * CircuitBreaker :=
  match ctx with
  | Some e => (Some (CtxError e), cb)
  | None =>
    let '(allowed, cb) := allowRequest (clock 0%nat) (clock 1%nat) cb in
    if negb allowed then
      let cb := recordRejection cb in (Some (BreakerOpen (cb_name cb) (cb_state cb)), cb)
    else
      match fn with
      | Some e =>
        if match parent with Some pe => errors_Is e pe | None => false end
        then (Some (FnError e), cb)
        else (Some (FnError e), recordFailure (clock 2%nat) (clock 3%nat) (clock 4%nat) cb)
      | None => (None, recordSuccess (clock 2%nat) (clock 3%nat) cb)
      end
  end.

Definition GetState (cb : CircuitBreaker) : State := cb_state cb.
Definition IsOpen (cb : CircuitBreaker) : bool := bool_decide (cb_state cb = StateOpen).
Definition IsClosed (cb : CircuitBreaker) : bool := bool_decide (cb_state cb = StateClosed).
Definition IsHalfOpen (cb : CircuitBreaker) : bool := bool_decide (cb_state cb = StateHalfOpen).

(** ** The manager *)

Record Manager := mkManager {
  mg_breakers : gmap string CircuitBreaker;
  mg_defaultConfig : Config
}.

Definition NewManager (defaultConfig : option Config) : Manager :=
  mkManager ∅ (default DefaultConfig defaultConfig).

Definition GetCircuitBreaker (now : Z) (name : string) (config : option Config) (m : Manager)
    : CircuitBreaker * Manager :=
  match mg_breakers m !! name with
  | Some breaker => (breaker, m)
  | None =>
    let breaker := NewCircuitBreaker now name (Some (default (mg_defaultConfig m) config)) in
    (breaker, m <| mg_breakers := <[name := breaker]> (mg_breakers m) |>)
  end.

(** ** Sequences of steps *)

Inductive cb_op :=
  | OpAllow (now now' : Z)
  | OpSuccess (now now' : Z)
  | OpFailure (now now' now'' : Z)
  | OpReject
  | OpReset (now now' : Z).

Definition cb_step (cb : CircuitBreaker) (op : cb_op) : CircuitBreaker :=
  match op with
  | OpAllow now now' => (allowRequest now now' cb).2
  | OpSuccess now now' => recordSuccess now now' cb
  | OpFailure now now' now'' => recordFailure now now' now'' cb
  | OpReject => recordRejection cb
  | OpReset now now' => Reset now now' cb
  end.

(** The counters agree, and the count of consecutive failures the trip test
    uses is the one the statistics report. *)
Definition cb_inv (cb : CircuitBreaker) : Prop :=
  cb_failures cb = sa_ConsecutiveFailures (cb_stats cb) /\
  sa_TotalRequests (cb_stats cb) =
    i64 (sa_SuccessfulRequests (cb_stats cb) + sa_FailedRequests (cb_stats cb)) /\
  (cb_state cb = StateClosed -> cb_nextAttempt cb = 0).

(** What a change of state leaves alone. *)
Lemma setState_spec now st cb :
  let cb' := setState now st cb in
  cb_state cb' = st /\ cb_config cb' = cb_config cb /\ cb_name cb' = cb_name cb /\
  sa_TotalRequests (cb_stats cb') = sa_TotalRequests (cb_stats cb) /\
  sa_SuccessfulRequests (cb_stats cb') = sa_SuccessfulRequests (cb_stats cb) /\
  sa_FailedRequests (cb_stats cb') = sa_FailedRequests (cb_stats cb) /\
  sa_ConsecutiveFailures (cb_stats cb') = sa_ConsecutiveFailures (cb_stats cb) /\
  sa_WindowRequests (cb_stats cb') = sa_WindowRequests (cb_stats cb).
Proof.
  cbn zeta. unfold setState. destruct (decide (cb_state cb = st)) as [<-|]; [done|].
  destruct cb as [? ? ? ? ? ? ? []], st; done.
Qed.

Lemma i64_add_idemp a b : i64 (i64 a + b) = i64 (a + b).
Proof.
  unfold i64, wrap_s. replace ((a + 2 ^ (64 - 1)) mod 2 ^ 64 - 2 ^ (64 - 1) + b + 2 ^ (64 - 1))
    with ((a + 2 ^ (64 - 1)) mod 2 ^ 64 + b) by lia.
  rewrite Zplus_mod_idemp_l. do 2 f_equal. lia.
Qed.

Lemma cb_inv_new now name config : cb_inv (NewCircuitBreaker now name config).
Proof. done. Qed.

#[local] Arguments i64 : simpl never.

Lemma cb_inv_success now now' cb : cb_inv cb -> cb_inv (recordSuccess now now' cb).
Proof.
  intros (Hf & Ht & Hn). unfold recordSuccess.
  destruct cb as [nm cf st f lf ls na [t su fa re c_f c_s lft lst tr w ws]]; cbn in *.
  assert (Hs : i64 (t + 1) = i64 (i64 (su + 1) + fa)).
  { rewrite Ht, !i64_add_idemp. f_equal. lia. }
  destruct (decide (st = StateHalfOpen)) as [->|]; [|done]. destruct (_ <=? _); done.
Qed.

Lemma cb_inv_failure now now' now'' cb : cb_inv cb -> cb_inv (recordFailure now now' now'' cb).
Proof.
  intros (Hf & Ht & Hn). unfold recordFailure.
  assert (Hc : cb_inv (count_failure now cb)).
  { destruct cb as [nm cf st f lf ls na [t su fa re c_f c_s lft lst tr w ws]]; cbn in *.
    split; [by rewrite Hf|]. split; [|done]. cbn.
    rewrite Ht, i64_add_idemp, (Z.add_comm su (i64 _)), i64_add_idemp. f_equal. lia. }
  destruct (shouldTrip _ _); [|done].
  destruct Hc as (H1 & H2 & H3). set (cb1 := count_failure now cb) in *. clearbody cb1.
  destruct (setState_spec now'' StateOpen cb1) as (E1 & _ & _ & E2 & E3 & E4 & E5 & _).
  assert (Hfail : cb_failures (setState now'' StateOpen cb1) = cb_failures cb1).
  { unfold setState. destruct (decide _); by destruct cb1. }
  split; [by rewrite E5, Hfail|]. split; [by rewrite E2, E3, E4|]. by rewrite E1.
Qed.

Lemma cb_step_inv cb op : cb_inv cb -> cb_inv (cb_step cb op).
Proof.
  intros Hi. destruct op as [now now'|now now'|now now' now''| |now now']; cbn [cb_step].
  - unfold allowRequest. destruct (cb_state cb) eqn:Es; [done|done|]. destruct (_ <? now); [|done].
    destruct Hi as (H1 & H2 & H3).
    destruct cb as [nm cf st f lf ls na [t su fa re c_f c_s lft lst tr w ws]]; cbn in *. subst. done.
  - by apply cb_inv_success.
  - by apply cb_inv_failure.
  - destruct Hi as (H1 & H2 & H3).
    by destruct cb as [nm cf st f lf ls na [t su fa re c_f c_s lft lst tr w ws]].
  - unfold Reset. by destruct (setState now StateClosed cb).
Qed.

(** An open breaker stays open until its time has passed. *)
Lemma open_step cb op : cb_state cb = StateOpen ->
  match op with OpReset _ _ => False | OpAllow now _ => now <= cb_nextAttempt cb | _ => True end ->
  cb_state (cb_step cb op) = StateOpen /\ cb_nextAttempt (cb_step cb op) = cb_nextAttempt cb.
Proof.
  intros Hs Hop. destruct op as [now now'|now now'|now now' now''| |now now']; cbn [cb_step]; [| | | |done].
  - unfold allowRequest. rewrite Hs, (proj2 (Z.ltb_ge _ _)) by done. done.
  - unfold recordSuccess. destruct cb as [nm cf st f lf ls na [t su fa re c_f c_s lft lst tr w ws]].
    cbn in *. subst. done.
  - unfold recordFailure. assert (Hc : cb_state (count_failure now cb) = StateOpen /\
      cb_nextAttempt (count_failure now cb) = cb_nextAttempt cb) by (by destruct cb).
    destruct (shouldTrip _ _); [|done]. unfold setState. by rewrite decide_True by apply Hc.
  - by destruct cb.
Qed.

(** Counting a failure. *)
Lemma count_failure_spec now cb :
  cb_failures (count_failure now cb) = i64 (cb_failures cb + 1) /\
  cb_config (count_failure now cb) = cb_config cb /\ cb_state (count_failure now cb) = cb_state cb.
Proof. by destruct cb. Qed.

Lemma record_failure_failures now now' now'' cb :
  cb_failures (recordFailure now now' now'' cb) = i64 (cb_failures cb + 1) /\
  cb_config (recordFailure now now' now'' cb) = cb_config cb /\
  (cb_state (recordFailure now now' now'' cb) = StateOpen \/
   cb_state (recordFailure now now' now'' cb) = cb_state cb) /\
  (cf_FailureThreshold (cb_config cb) <= i64 (cb_failures cb + 1) ->
   cb_state (recordFailure now now' now'' cb) = StateOpen).
Proof.
  unfold recordFailure. destruct (count_failure_spec now cb) as (H1 & H2 & H3).
  set (cb1 := count_failure now cb) in *. clearbody cb1.
  assert (Hset : cb_failures (setState now'' StateOpen cb1) = cb_failures cb1).
  { unfold setState. destruct (decide _); by destruct cb1. }
  destruct (setState_spec now'' StateOpen cb1) as (E1 & E2 & _).
  destruct (shouldTrip now' cb1) eqn:Et.
  - rewrite Hset, E1, E2. split; [done|]. split; [done|]. split; [by left|done].
  - split; [done|]. split; [done|]. split; [by right|]. intros Hle. exfalso.
    unfold shouldTrip in Et. apply orb_false_iff in Et as [Et _]. rewrite H1, H2 in Et. bool_to_prop. lia.
Qed.

(** A run of failures, with the times they are recorded at. *)
Definition fail_run (cb : CircuitBreaker) (times : list (Z * Z * Z)) : CircuitBreaker :=
  foldl (fun cb '(a, b, c) => recordFailure a b c cb) cb times.

Lemma fail_run_spec times cb : 0 <= cb_failures cb -> cb_failures cb + Z.of_nat (length times) < 2 ^ 63 ->
  cb_failures (fail_run cb times) = cb_failures cb + Z.of_nat (length times) /\
  cb_config (fail_run cb times) = cb_config cb /\
  (times <> [] -> cf_FailureThreshold (cb_config cb) <= cb_failures cb + Z.of_nat (length times) ->
   cb_state (fail_run cb times) = StateOpen).
Proof.
  revert cb. induction times as [|[[a b] c] times IH] using rev_ind; intros cb H0 Hlt; cbn.
  { split; [lia|]. done. }
  unfold fail_run in *. rewrite foldl_app. cbn [foldl]. rewrite length_app in *. cbn [length] in *.
  destruct (IH cb H0 ltac:(lia)) as (H1 & H2 & _).
  set (cb1 := foldl _ cb times) in *. clearbody cb1.
  destruct (record_failure_failures a b c cb1) as (E1 & E2 & _ & E4).
  assert (Hi : i64 (cb_failures cb1 + 1) = cb_failures cb + Z.of_nat (length times + 1)).
  { unfold i64. rewrite wrap_s_id; [lia|lia|]. unfold in_s. rewrite H1. lia. }
  split; [by rewrite E1|]. split; [by rewrite E2|]. intros _ Hthr. apply E4. rewrite H2, Hi. done.
Qed.

Definition success_run (cb : CircuitBreaker) (times : list (Z * Z)) : CircuitBreaker :=
  foldl (fun cb '(a, b) => recordSuccess a b cb) cb times.

Lemma success_run_half_open times cb :
  cb_state cb = StateHalfOpen -> sa_ConsecutiveSuccesses (cb_stats cb) = 0 ->
  Z.of_nat (length times) < cf_SuccessThreshold (cb_config cb) < 2 ^ 63 ->
  cb_state (success_run cb times) = StateHalfOpen /\
  sa_ConsecutiveSuccesses (cb_stats (success_run cb times)) = Z.of_nat (length times) /\
  cb_config (success_run cb times) = cb_config cb.
Proof.
  intros Hs H0. induction times as [|[a b] times IH] using rev_ind; intros Hlt; [done|].
  unfold success_run in *. rewrite foldl_app, length_app in *. cbn [foldl length] in *.
  destruct IH as (H1 & H2 & H3); [lia|]. set (cb1 := foldl _ cb times) in *. clearbody cb1.
  assert (Hi : i64 (sa_ConsecutiveSuccesses (cb_stats cb1) + 1) = Z.of_nat (length times + 1)).
  { unfold i64. rewrite wrap_s_id; [lia|lia|]. unfold in_s. lia. }
  unfold recordSuccess. rewrite <- H3 in Hlt |- *.
  destruct cb1 as [nm cf st f lf ls na [t su fa re c_f c_s lft lst tr w ws]]. cbn in *. subst st.
  rewrite Hi. destruct (Z.leb_spec (cf_SuccessThreshold cf) (Z.of_nat (length times + 1))); [lia|]. done.
Qed.

(** ** Properties *)

(** Once open, the breaker stays open and keeps its next attempt through any
    interleaving of rejected requests and late results of requests that were
    admitted before, as long as no request arrives after that time; every request
    until then is rejected. *)
Theorem breaker_open_until_next_attempt (cb : CircuitBreaker) (ops : list cb_op) (now now' : Z) :
  cb_state cb = StateOpen ->
  Forall (fun op => match op with
                    | OpReset _ _ => False
                    | OpAllow t _ => t <= cb_nextAttempt cb
                    | _ => True
                    end) ops ->
  now <= cb_nextAttempt cb ->
  let cb' := foldl cb_step cb ops in
  cb_state cb' = StateOpen /\ cb_nextAttempt cb' = cb_nextAttempt cb /\
  allowRequest now now' cb' = (false, cb').
Proof.
  intros Hs Hops Hnow. cbn zeta.
  assert (H : cb_state (foldl cb_step cb ops) = StateOpen /\
              cb_nextAttempt (foldl cb_step cb ops) = cb_nextAttempt cb).
  { revert cb Hs Hops Hnow. induction ops as [|op ops IH]; intros cb Hs Hops Hnow; [done|].
    apply Forall_cons in Hops as [Hop Hops]. destruct (open_step cb op Hs) as [E1 E2].
    { by destruct op. }
    cbn. rewrite <- E2. apply IH; rewrite ?E2; done. }
  destruct H as [H1 H2]. split; [done|]. split; [done|].
  unfold allowRequest. by rewrite H1, H2, (proj2 (Z.ltb_ge _ _)).
Qed.

(** A breaker opens at the latest when as many failures in a row as the
    threshold asks for were recorded, whatever the failure rate; every one of
    them is counted. *)
Theorem breaker_trips_at_threshold (cb : CircuitBreaker) (times : list (Z * Z * Z)) :
  0 <= cb_failures cb -> times <> [] ->
  cf_FailureThreshold (cb_config cb) <= cb_failures cb + Z.of_nat (length times) < 2 ^ 63 ->
  cb_state (fail_run cb times) = StateOpen /\
  cb_failures (fail_run cb times) = cb_failures cb + Z.of_nat (length times).
Proof.
  intros H0 Hne Hr. destruct (fail_run_spec times cb H0 ltac:(lia)) as (H1 & _ & H3).
  split; [apply H3; [done|lia]|done].
Qed.

(** An open breaker whose time has passed admits a request and becomes
    half-open with no successes counted; it then stays half-open for fewer
    successes in a row than its threshold and closes with the last one, with the
    failure count reset. *)
Theorem breaker_recovers (cb : CircuitBreaker) (now now' : Z) (times : list (Z * Z)) (last : Z * Z) :
  cb_state cb = StateOpen -> cb_nextAttempt cb < now ->
  Z.of_nat (length times) + 1 = cf_SuccessThreshold (cb_config cb) ->
  cf_SuccessThreshold (cb_config cb) < 2 ^ 63 ->
  let '(allowed, half) := allowRequest now now' cb in
  allowed = true /\ cb_state half = StateHalfOpen /\
  cb_state (success_run half times) = StateHalfOpen /\
  cb_state (success_run half (times ++ [last])) = StateClosed /\
  cb_failures (success_run half (times ++ [last])) = 0.
Proof.
  intros Hs Hnow Hlen Hthr. unfold allowRequest. rewrite Hs, (proj2 (Z.ltb_lt _ _)) by done.
  set (half := setState now' StateHalfOpen cb).
  assert (Hhalf : cb_state half = StateHalfOpen /\ sa_ConsecutiveSuccesses (cb_stats half) = 0 /\
                  cb_config half = cb_config cb).
  { subst half. unfold setState. rewrite decide_False by congruence. by destruct cb as [? ? ? ? ? ? ? []]. }
  destruct Hhalf as (Hh1 & Hh2 & Hh3). clearbody half. rewrite <- Hh3 in *.
  destruct (success_run_half_open times half Hh1 Hh2) as (H1 & H2 & H3); [lia|].
  split; [done|]. split; [done|]. split; [done|].
  unfold success_run in *. rewrite foldl_app. cbn [foldl]. destruct last as [a b].
  set (cb1 := foldl _ half times) in *. clearbody cb1.
  assert (Hi : i64 (sa_ConsecutiveSuccesses (cb_stats cb1) + 1) = cf_SuccessThreshold (cb_config half)).
  { unfold i64. rewrite wrap_s_id; [lia|lia|]. unfold in_s. lia. }
  unfold recordSuccess. rewrite <- H3 in Hi, Hthr.
  destruct cb1 as [nm cf st f lf ls na [t su fa re c_f c_s lft lst tr w ws]]. cbn in *. subst st.
  rewrite Hi, Z.leb_refl. done.
Qed.

(** Without overflow the backoff doubles with every failure up to a factor
    of 1024 and is capped by the maximum; it never shrinks as failures
    accumulate and lies between the configured timeout and the maximum. *)
Theorem backoff_bounded (c : Config) (f g : Z) :
  cf_ExponentialBackoff c = true -> 0 < cf_Timeout c <= cf_MaxTimeout c ->
  cf_Timeout c * 1024 < 2 ^ 63 -> 1 <= f <= g -> g < 2 ^ 63 ->
  open_timeout c f = Z.min (cf_MaxTimeout c) (cf_Timeout c * 2 ^ Z.min (f - 1) 10) /\
  open_timeout c f <= open_timeout c g /\ cf_Timeout c <= open_timeout c f <= cf_MaxTimeout c.
Proof.
  intros He Ht Hov Hfg Hg.
  assert (Hval : forall n, 1 <= n < 2 ^ 63 ->
    open_timeout c n = Z.min (cf_MaxTimeout c) (cf_Timeout c * 2 ^ Z.min (n - 1) 10) /\
    1 <= 2 ^ Z.min (n - 1) 10 <= 1024).
  { intros n Hn. unfold open_timeout. rewrite He.
    assert (Hn1 : i64 (n - 1) = n - 1) by (unfold i64; rewrite wrap_s_id; [done|lia|unfold in_s; lia]).
    rewrite Hn1. set (k := Z.min (n - 1) 10).
    assert (Hk : 0 <= k <= 10) by (subst k; lia).
    assert (Hp : 1 <= 2 ^ k <= 1024).
    { change 1 with (2 ^ 0). change 1024 with (2 ^ 10). split; apply Z.pow_le_mono_r; lia. }
    unfold shift_one. rewrite (proj2 (Z.leb_le 0 k)), (proj2 (Z.ltb_lt k 64)) by lia. cbn [andb].
    assert (H2k : i64 (2 ^ k) = 2 ^ k) by (unfold i64; rewrite wrap_s_id; [done|lia|unfold in_s; lia]).
    assert (Hprod : 0 <= cf_Timeout c * 2 ^ k < 2 ^ 63) by nia.
    rewrite H2k. assert (Hm : i64 (cf_Timeout c * 2 ^ k) = cf_Timeout c * 2 ^ k)
      by (unfold i64; rewrite wrap_s_id; [done|lia|unfold in_s; lia]).
    rewrite Hm. split; [|done]. destruct (Z.ltb_spec (cf_MaxTimeout c) (cf_Timeout c * 2 ^ k)); lia. }
  destruct (Hval f ltac:(lia)) as [Ef Hf]. destruct (Hval g ltac:(lia)) as [Eg Hg'].
  split; [done|]. rewrite Ef, Eg.
  assert (Hmono : 2 ^ Z.min (f - 1) 10 <= 2 ^ Z.min (g - 1) 10) by (apply Z.pow_le_mono_r; lia).
  split; [|nia]. assert (cf_Timeout c * 2 ^ Z.min (f - 1) 10 <= cf_Timeout c * 2 ^ Z.min (g - 1) 10) by nia. lia.
Qed.

(** Through any interleaving of requests, results and resets the request
    total is the sum of the successes and failures, the count of consecutive
    failures that trips the breaker is the reported one, and a closed breaker has
    no pending attempt time. *)
Theorem breaker_counters_agree (now : Z) (name : string) (config : option Config) (ops : list cb_op) :
  let cb := foldl cb_step (NewCircuitBreaker now name config) ops in
  cb_failures cb = sa_ConsecutiveFailures (cb_stats cb) /\
  sa_TotalRequests (cb_stats cb) =
    i64 (sa_SuccessfulRequests (cb_stats cb) + sa_FailedRequests (cb_stats cb)) /\
  (cb_state cb = StateClosed -> cb_nextAttempt cb = 0).
Proof.
  cbn zeta. change (cb_inv (foldl cb_step (NewCircuitBreaker now name config) ops)).
  generalize (cb_inv_new now name config). generalize (NewCircuitBreaker now name config).
  induction ops as [|op ops IH]; intros cb Hi; [done|]. cbn. by apply IH, cb_step_inv.
Qed.

Definition opened : CircuitBreaker :=
  fail_run (NewCircuitBreaker 1 "stt" (Some STTConfig)) [(2, 2, 2); (3, 3, 3); (4, 4, 4)].

Lemma breaker_open_until_next_attempt_witness :
  allowRequest 5 5 (foldl cb_step opened [OpAllow 5 5; OpSuccess 6 6]) =
    (false, foldl cb_step opened [OpAllow 5 5; OpSuccess 6 6]).
Proof.
  refine (proj2 (proj2 (breaker_open_until_next_attempt opened [OpAllow 5 5; OpSuccess 6 6] 5 5 _ _ _))).
  - vm_compute. reflexivity.
  - repeat constructor. vm_compute. discriminate.
  - vm_compute. discriminate.
Defined.

Lemma breaker_trips_at_threshold_witness :
  cb_state (fail_run (NewCircuitBreaker 1 "stt" (Some STTConfig)) [(2, 2, 2); (3, 3, 3); (4, 4, 4)]) = StateOpen.
Proof.
  refine (proj1 (breaker_trips_at_threshold _ _ _ _ _)).
  - vm_compute. discriminate.
  - discriminate.
  - vm_compute. split; [discriminate|reflexivity].
Defined.

Lemma breaker_recovers_witness :
  cb_nextAttempt opened = seconds 120 + 4 /\
  (allowRequest (seconds 120 + 5) (seconds 120 + 5) opened).1 = true.
Proof.
  split; [vm_compute; reflexivity|].
  pose proof (breaker_recovers opened (seconds 120 + 5) (seconds 120 + 5) [(0, 0)] (0, 0)
    ltac:(vm_compute; reflexivity) ltac:(vm_compute; reflexivity) ltac:(vm_compute; reflexivity)
    ltac:(vm_compute; reflexivity)) as H.
  destruct (allowRequest _ _ _) as [allowed half]. exact (proj1 H).
Defined.

Lemma backoff_bounded_witness : open_timeout DefaultConfig 2 <= open_timeout DefaultConfig 9.
Proof.
  refine (proj1 (proj2 (backoff_bounded DefaultConfig 2 9 _ _ _ _ _))); try reflexivity; vm_compute; split; congruence.
Defined.
